(* ===== verification/_CoqProject ===== *)
-Q . S2P
Prelude.v
Encoding.v
PacketBuffer.v
Storage.v
Counters.v
MessageHeader.v
PeerMessageCounter.v
Utf8.v
TlvTypes.v
TlvReader.v
TlvWriter.v
TlvStream.v
TlvCodec.v
Btp.v
BleEndPoint.v
BleLink.v
BleConnection.v
NodeId.v
AccessControl.v
AclStorage.v
AclList.v
AclFrames.v
AclCheck.v
QName.v
MdnsParser.v
MdnsWriter.v
MdnsNames.v
MdnsPacket.v
Verhoeff.v
Base38.v
SetupPayload.v
ManualCode.v
QrBits.v
QrTlv.v
QrCode.v
BdxMessages.v
BdxSession.v
BdxTransfer.v
BdxComplete.v
Pool.v
Runs.v
Exchange.v
ExchangeMgr.v
ExchangeRules.v
ExchangeInv.v
ExchangeFrame.v
ExchangeSafe.v
ExchangeReach.v
ExchangeRetry.v
ExchangeAcks.v
ExchangeHandlers.v
ExchangeWake.v
