(* ===== verification/Prelude.v ===== *)
(** * Matter core: a verification library

    A model of the message path of the Matter SDK (src/src/), from the bytes of a
    received or sent packet to the TLV elements in it, with the counters that
    protect the path against replay, the storage these counters survive in, the
    check of access rights, the Bluetooth transport, the packets of local discovery,
    the pairing codes a device is set up with, the protocol of bulk transfers, and the
    exchanges with reliable messaging that applications talk over.

    ** The program and its parts

    A packet arrives in a [PacketBuffer] (src/src/system).  The transport decodes
    the unencrypted [PacketHeader], decrypts, and decodes the [PayloadHeader]
    (src/src/transport/raw/MessageHeader.{h,cpp}); both consume the bytes they
    read from the buffer, with the buffer readers of src/src/lib/support and the
    byte-order functions of src/src/lib/core/CHIPEncoding.h.  The session manager
    checks the message counter against the [PeerMessageCounter] of the session
    (src/src/transport/PeerMessageCounter.h), and commits it once the message is
    authenticated.  What is left of the buffer is the TLV encoding of the
    application's message, which the interaction model reads with a [TLVReader]
    over the buffer chain and checks as UTF-8 where it holds strings
    (src/src/lib/core/TLV*.{h,cpp}, src/src/lib/support/utf8.cpp).  Sending is the
    reverse: [TLVWriter], [PayloadHeader], [PacketHeader], with a fresh value of
    the local message counter (src/src/transport/MessageCounter.h), which for
    group messages comes from counters kept in persistent storage
    (src/src/transport/GroupPeerMessageCounter.cpp,
    src/src/lib/support/PersistedCounter.h).  What the sender of a request may do
    is decided by class [AccessControl] (src/src/access) from the subject of the
    session and a list of entries.  A device being commissioned is
    reached over Bluetooth: the end points of src/src/ble carry packets in
    fragments between a central and a peripheral, with windows and
    acknowledgements of their own.  Devices find each other with multicast DNS:
    src/src/lib/dnssd/minimal_mdns reads and writes its packets, whose names may
    point back into the packet.  A device is first told apart by the code on its
    label: src/src/setup_payload prints a [SetupPayload] (passcode, discriminator,
    vendor, optional TLV data) as a QR code in base 38 or as a decimal manual code with a
    Verhoeff check digit (src/src/lib/support/verhoeff), and reads both.
    Files go between two nodes in blocks: a [TransferSession] (src/src/protocols/bdx) is
    told by its application what to prepare and by the exchange what arrived, and hands
    out messages to send and events; a transfer that fails ends with a [StatusReport].
    Between the sessions and the protocols stand exchanges (src/src/messaging): the
    manager hands a received message to the [ExchangeContext] it belongs to, or makes one
    for the handler of its protocol and type; an exchange tells its delegate, owes
    acknowledgements and waits for them; [ReliableMessageMgr] keeps messages in a table
    and sends them again until they are acknowledged or given up.  Exchanges and table
    entries live in pools (src/src/lib/support/Pool.{h,cpp}) and count their references.

    ** The files

    - Prelude.v (this file): tactics, generic lemmas on lists and arithmetic,
      [wrap] and the unsigned operators [+{w}], [-{w}], the error codes
      [CHIP_ERROR] (src/src/lib/core/CHIPError.h) with the results [Ok] and [Err],
      and the little-endian [le_split], [le_combine].
    - Encoding.v: class [ByteOrder] (the nlio functions CHIPEncoding.h forwards
      to), Module [BitFlags], [Reader] for [BufferReader], Module [BufferWriter] for the
      class of that name, and [Writer], the writer the other files use: it has an
      unbounded count, and [writer_refines_log] shows that [BufferWriter] is this
      writer as long as it counted less than 2^64 bytes.
    - PacketBuffer.v: [PacketBuffer.h/cpp] as lists of buffers; [AddToEnd],
      [ConsumeHead], [CompactHead], [Consume], [RightSize], [CloneData] and the
      others, one definition per method; class [PlatformMemory] for the
      allocator.
    - Storage.v: class [PersistentStorage], the promise a key-value store makes,
      and Module [TestStorage] that keeps it.
    - Counters.v: the monotonic and persisted counters, the local session
      counters and [GroupOutgoingCounters], verified against the class of
      Storage.v.
    - MessageHeader.v: [PacketHeader], [PayloadHeader], [MessageAuthenticationCode].
    - PeerMessageCounter.v: the replay window, and Module [Window], the abstract
      receiver it refines.
    - Utf8.v: the validator's state machine.
    - TlvTypes.v, TlvReader.v, TlvWriter.v: tags and element types, Module
      [TLVReader], Module [TLVWriter]: one definition per method.
    - TlvStream.v: the reader seen as a stream, whatever the buffers.
    - TlvCodec.v: trees of elements, written and read back.
    - Btp.v: Module [BtpEngine] for BtpEngine.{h,cpp}: fragmentation and
      reassembly, sequence numbers and acknowledgements.
    - BleEndPoint.v: Module [BLEEndPoint] for BLEEndPoint.{h,cpp} and the handshake
      messages of BleLayer.{h,cpp}; class [BlePlatform] for the GATT operations,
      timers and upcalls.
    - BleLink.v, BleConnection.v: two end points and a radio as a transition
      system; the ghost state and the invariant; the handshake and all runs.
    - NodeId.v: node ids, group ids, authenticated tags, identifiers of the data
      model (NodeId.h, GroupId.h, CASEAuthTag.h, DataModelTypes.h).
    - AccessControl.v: class [AccessControl] over the interface [AclDelegate], what
      an entry grants, and [AclDelegateLaws].
    - AclStorage.v, AclList.v, AclFrames.v, AclCheck.v: the delegate that keeps the
      list in memory (ExampleAccessControlDelegate.cpp), its invariant and what its
      operations do to the list and leave of the iterators, and [AccessControl] over it.
    - QName.v: names in DNS messages (core/QName.{h,cpp}): the iterator
      [SerializedQNameIterator] and the relation [name_at] it decides.
    - MdnsParser.v: the DNS header, [ParsePacket] (Parser.cpp) and the data of
      records (RecordData.cpp).
    - MdnsWriter.v: [RecordWriter] with its compression, questions, records and the
      builders of queries and responses.
    - MdnsNames.v, MdnsPacket.v: what the writer puts into a packet, and that the
      parser reports it.
    - Verhoeff.v, Base38.v: the check digit and the base-38 text of codes.
    - SetupPayload.v: discriminators, payloads with their validity checks and
      optional data (SetupPayload.{h,cpp}, SetupDiscriminator.h).
    - ManualCode.v: generator and parser of manual codes.
    - QrBits.v, QrTlv.v, QrCode.v: QR codes: the bit string, the optional data as TLV
      over TlvWriter.v and TlvReader.v, and the generators, the parsers and
      [FromStringRepresentation].
    - BdxMessages.v: class [BdxMessage] with its messages, class [MessageLaws], packets
      for them, [StatusReport].
    - BdxSession.v: Module [TransferSession] (BdxTransferSession.{h,cpp}), one definition
      per method, and [wp], the rules of partial correctness for its operations.
    - BdxTransfer.v: two sessions, their applications and a network as the transition
      system [step]; the invariant of its runs; runs that can be computed.
    - BdxComplete.v: [succeeds], the rules of total correctness; runs from negotiation to
      the end of a transfer; negotiation without one common mode.
    - Pool.v: [BitMapObjectPool]: allocation, iteration, and counting objects.
    - Runs.v: [runs], total correctness of operations on objects behind pointers.
    - Exchange.v: [ExchangeContext], [ReliableMessageContext], [ReliableMessageMgr] and the
      dispatches of src/src/messaging, one definition per method, over the state [World]
      of a manager; classes [MessagingPlatform] (sending, timers, buffers, random bytes)
      and [Application] (what delegates do when they are called).
    - ExchangeMgr.v: [ExchangeManager], and [exec], its transition system.
    - ExchangeRules.v, ExchangeInv.v, ExchangeFrame.v, ExchangeSafe.v: rules of total
      correctness and of what operations keep; the invariant [Inv] of pools, references,
      flags and timers; that every operation and every step runs from it to it.
    - ExchangeReach.v, ExchangeRetry.v, ExchangeAcks.v, ExchangeHandlers.v, ExchangeWake.v:
      reachable states; backoff and giving up; what is acknowledged; the table of
      handlers as a map; the timer.

    ** How state and operations are represented

    A C++ object is a record with the class's field names (prefix [m] kept), or
    the meaning of its fields where the representation has pointers: a buffer
    chain is the list of its buffers, a reader's pointer pair is a window of
    bytes.  A method that changes the object takes it and returns it; fallible
    methods return [CHIP_ERROR] or a [result], and run in a state-and-error
    monad in which what was stored before an error stays stored, as it does in
    the code.  An unsigned w-bit integer is a [Z], wrapped with [wrap w] where
    the code's arithmetic wraps.  Where the C++ behaviour would be undefined the
    model returns [UNDEFINED_BEHAVIOUR], where [VerifyOrDie] would stop the
    program [PROGRAM_ABORT]: theorems show which states exclude them.
    Code outside src/ (nlio, the allocator, the storage medium) is a class with
    the laws its documentation gives and a concrete instance.

    ** What the theorems show

    - Replay protection: no counter value is accepted twice for an encrypted
      unicast peer ([unicast_no_replay]); with roll-over the 32-bit window is
      the abstract receiver over unbounded counters
      ([group_rollover_refinement]); the unsecured dispatch
      ([unsecured_dispatch]).
    - Counters: values are never handed out twice, across reboots too, while the
      storage accepts the writes ([group_counters_never_repeat],
      [persisted_counter_never_repeats]), the session counter stops at its
      maximum instead of wrapping ([session_counter_no_wrap]), and what a refused write does
      ([refused_group_write_is_final], [refused_write_repeats_values]).
    - Framing: headers and packets round-trip ([packet_header_roundtrip],
      [payload_header_roundtrip], [message_framing_roundtrip]; [mac_roundtrip]): packet
      headers as their setters make them, without SetUnsecured, whose headers need not
      come back ([set_unsecured_sends_old_type]), and SetFlags, with at most one
      destination, that of a group only in a group session.  Decoding any bytes stays
      in the packet ([packet_header_decode_safe]).
    - Buffers: a chain is a queue of bytes and its operations keep its invariant
      ([chain_refines_queue], [compact_head_fills], [clone_data_same],
      [right_size_keeps_data], [reserve_then_prepend],
      [packet_buffer_writer_finalize]).
    - TLV: writer then reader is the identity on forests of elements
      ([tlv_roundtrip]), on a little-endian host: on the others the reader swaps the
      bytes of numbers ([big_endian_value_swapped]).  Any calls on a reader and on those
      made from it are safe and terminate on any input ([reader_safe]), until the store
      fails to give the next buffer ([stale_read_point_followed]); the calls that copy
      do not see the buffer boundaries ([reader_chunk_independent]), those that look at
      data in place do ([span_depends_on_buffers]); [end_container_never_fails],
      [skip_passes_element]; the UTF-8 validator accepts exactly the encodings of
      scalar values ([utf8_valid_iff_scalar_values]).
    - Bluetooth: the handshake always connects the two ends with the same
      parameters ([handshake_connects]); from there on, under every interleaving,
      messages arrive complete and in order and no operation fails
      ([connection_delivers]), provided that no stand-alone acknowledgement is
      kept back; [ack_timer_races] shows what happens otherwise, and
      [remote_window_after_ack] what the window is when sequence numbers wrap.
    - Access control: over any operations, with objects that share storage with
      the list, the list stays well formed ([acl_well_formed]), answers as a list of
      entries, and the iterators give the entries of their fabric as long as the list is
      not changed ([acl_refines_list]), and the check decides what the entries grant
      ([check_decides]); [delete_moves_other_object] shows a deletion that disturbs
      an object of another fabric.
    - Multicast DNS: reading a name ends, whatever the bytes
      ([name_reading_terminates]); parsing any packet is safe
      ([parse_packet_safe]); what a response builder sends is what the parser
      reports, compressed names included ([response_roundtrip]); what the two
      comparisons of names decide ([name_equality]).
    - Pairing codes: QR codes, alone or concatenated, read back as the payloads they
      were made from ([qr_roundtrip], over [base38_roundtrip]), on a little-endian host
      and with strings that TLV carries; any QR code and any ASCII string is parsed
      safely ([code_string_safe]), other strings reach [isdigit] with a negative value
      ([manual_code_undefined]); manual codes read back what they carry
      ([manual_code_roundtrip]) and one mistyped digit is always found
      ([mistyped_code_refused]); what the generator refuses ([invalid_payload_told]);
      what the comparison of payloads decides ([payload_equality]).
    - Bulk transfers: messages read back ([bdx_message_roundtrip]); on a network that
      loses, repeats and reorders, what is delivered is a beginning of what was sent and
      in the end all of it ([bdx_delivers]), if in sender drive the receiving application
      acknowledges nothing before its first block and does not query, which the session
      does not check ([early_acknowledgement_loses_block]); whoever starts and whoever drives, a transfer
      can be completed ([bdx_transfer_completes]); what negotiation does when the ends
      share no mode or two ([negotiation_defects]).
    - Exchanges: however messages, timers, released sessions and calls are interleaved,
      every step ends without following a dangling pointer and without a failed
      [VerifyOrDie] ([reachable_steps_run]); reference counts are the references there
      are ([references_balance]); only messages that were received on the same
      session for the same exchange, from its other side, and asked for it are
      acknowledged ([acks_answer_messages]); the timer of the manager is never late
      ([timer_never_late]); a message nobody acknowledges is given up after five
      wake-ups ([messages_given_up]), spaced by [backoff_bounds]; what is left of an
      exchange whose session goes away ([session_released]); the table of handlers is a
      map with room for eight ([table_refines_map]).  The hypotheses: [timer_starts], the
      system layer can start the timer (the code stops the program otherwise);
      [well_behaved], an application does not hand out the dispatch of the manager's own
      exchanges, acts inside an upcall on the exchange of the upcall only, and does not
      close an exchange while it is told of its time-out, as ExchangeDelegate.h asks;
      [allowed], its calls are on exchanges it owns a reference
      to, a session is in the table as long as an exchange holds it, and timers fire only
      when they run.
    - Theorems of the error kind record behaviour that differs from what a
      comment or the purpose of the code says.

    ** Fuel

    Loops over input have a fuel argument.  In TlvReader.v it is [budget], the
    bytes not yet read plus one: each pass of [SkipToEndOfContainer_loop] and
    each pass of [ReadData_loop] reads at least one byte or ends
    ([SkipToEnd_agree], [reader_safe]: no run stops for want of fuel).  In
    TlvCodec.v [read_members] gets the length of the encoding plus one, an
    element being one byte at least.  Loops that count down in the code
    ([CompactHead], the writer's padding, the window shifts) recurse on that
    count or on the list they walk.  The loop of [CheckACL] gets the size of the
    list and one more, that of [Next] too: each pass moves the iterator on
    ([next_entry_run], [check_entries_run]).
    [Next_loop] of QName.v gets [mLookBehindMax] and one more, every pointer
    lowering that limit; loops over the labels of a name get [steps_left], which
    every label lowers ([Next_safe]); the loops over TXT data get its length.
    The loops of Base38.v get the length of the input, each pass taking a chunk or a
    character group; the bit loops of QrBits.v the width of the field; the loops over
    TLV members in QrTlv.v the bytes left, like the reader's; the loop over the parts of
    a concatenated code its length.
    The operations of exchanges need no fuel: [run_app] recurses on the program of the
    delegate, and iterations over a pool on the list of the slots that were in use; an
    acknowledgement that sends an acknowledgement does not occur, which is why
    [SendMessage_with] takes what happens after a send as an argument.  The pools have the
    configured sizes: 16 exchanges, 14 retransmissions, 8 handlers.

    ** What is not modelled

    Reading through a store other than packet buffers, writing TLV through a
    backing store, [CopyElement], string formatting, and heap duplication of
    strings; LwIP pool buffers; concurrency (the stack runs under one lock, so an
    operation is one step).  Above and below this path: sessions and secure
    channel, the interaction model, crypto, sockets, the responders and
    resolvers of discovery,
    the pool of BLE end points, the auxiliary access control list of groups and the
    restriction provider, the facilitators and servers around bulk transfers (their
    [TransferSession] is modelled, and used by the two parties for one transfer:
    [Reset] is a definition, but no step of [step]), the helpers that store setup payloads in files or print them
    on a console, the platform ports, tools and generated code; each
    is a component of its own with its own state, and cryptography is used here
    only as the fact that a message was authenticated.
    In MdnsWriter.v a packet buffer is its memory from [Start()] and a data length;
    the chains of PacketBuffer.v do not occur there.  In QrCode.v the allocation of
    buffers and of optional-data strings is a parameter: whether it succeeds, and what
    the new memory holds.
    Of src/src/messaging: [ExchangeManager::Shutdown], [UseSuggestedResponseTimeout],
    [AbortAllOtherCommunicationOnFabric], [ExchangeHolder], calls a delegate makes inside
    [OnExchangeClosing], which is only logged, and inside any upcall on other exchanges or
    on the session (expiring a session inside [OnResponseTimeout], of which a comment in
    [NotifyResponseTimeout] speaks), the upcalls of [NotifySessionHang], which is logged, TCP connections, the ICD server, analytics and injected failures
    (the last four are configured out); sessions are the fields that exchanges ask of
    them, and pools that allocate on the heap have no limit, unlike [Pool].
*)

From Stdlib Require Export ZArith Lia List.
From stdpp Require Export base tactics decidable option list numbers.
Export ListNotations.

#[global] Open Scope Z_scope.

Declare Scope chip_scope.
Delimit Scope chip_scope with chip.

(** ** Tactics of the development *)

(** [zify_len] normalises lengths of the list operations the models use,
    then calls [lia]. *)
Create Rewrite HintDb chip_len.
#[export] Hint Rewrite @length_app @length_take @length_drop @length_replicate
  @length_insert @length_fmap @length_reverse : chip_len.

Ltac len := simpl in *; autorewrite with chip_len in *; simpl in *; try lia.

(** Case analysis on the boolean comparisons of [Z] and [nat] that appear in
    the goal, each replaced by the proposition it decides. *)
Ltac bcase :=
  match goal with
  | |- context [Z.leb ?a ?b] => destruct (Z.leb_spec a b)
  | |- context [Z.ltb ?a ?b] => destruct (Z.ltb_spec a b)
  | |- context [Z.eqb ?a ?b] => destruct (Z.eqb_spec a b)
  | |- context [Nat.leb ?a ?b] => destruct (Nat.leb_spec a b)
  | |- context [Nat.ltb ?a ?b] => destruct (Nat.ltb_spec a b)
  | |- context [Nat.eqb ?a ?b] => destruct (Nat.eqb_spec a b)
  end.

(** [split_and!] that leaves definitions folded. *)
Ltac splits := repeat lazymatch goal with |- _ /\ _ => split end.

(** [bcase] on the comparisons of one hypothesis. *)
Ltac bcase_in H :=
  match type of H with
  | context [Z.leb ?a ?b] => destruct (Z.leb_spec a b)
  | context [Z.ltb ?a ?b] => destruct (Z.ltb_spec a b)
  | context [Z.eqb ?a ?b] => destruct (Z.eqb_spec a b)
  | context [Nat.leb ?a ?b] => destruct (Nat.leb_spec a b)
  | context [Nat.ltb ?a ?b] => destruct (Nat.ltb_spec a b)
  | context [Nat.eqb ?a ?b] => destruct (Nat.eqb_spec a b)
  end.

(** ** Machine integers *)

(** [is_uint w z]: [z] is a value of an unsigned integer type of [w] bits. *)
Definition is_uint (w z : Z) : Prop := 0 <= z < 2 ^ w.

#[export] Instance is_uint_dec w z : Decision (is_uint w z).
Proof. unfold is_uint; apply _. Defined.

(** Conversion to an unsigned type of [w] bits ([static_cast<uintw_t>]). *)
Definition wrap (w z : Z) : Z := z mod 2 ^ w.

(** Conversion to a signed two's complement type of [w] bits. *)
Definition swrap (w z : Z) : Z :=
  let r := wrap w z in if r <? 2 ^ (w - 1) then r else r - 2 ^ w.

Abbreviation is_u8 := (is_uint 8).
Abbreviation is_u16 := (is_uint 16).
Abbreviation is_u32 := (is_uint 32).
Abbreviation is_u64 := (is_uint 64).

Notation "x +{ w } y" := (wrap w (x + y))
  (at level 50, left associativity, w constr at level 30) : chip_scope.
Notation "x -{ w } y" := (wrap w (x - y))
  (at level 50, left associativity, w constr at level 30) : chip_scope.
#[global] Open Scope chip_scope.

Lemma pow2_pos w : 0 <= w -> 0 < 2 ^ w.
Proof. intros; apply Z.pow_pos_nonneg; lia. Qed.

Lemma wrap_range w z : 0 <= w -> is_uint w (wrap w z).
Proof. intros; apply Z.mod_pos_bound, pow2_pos; lia. Qed.

Lemma wrap_small w z : is_uint w z -> wrap w z = z.
Proof. apply Z.mod_small. Qed.

Lemma wrap_idem w z : wrap w (wrap w z) = wrap w z.
Proof. apply Z.mod_mod_divide, Z.divide_refl. Qed.

Lemma is_uint_mono w w' z : 0 <= w <= w' -> is_uint w z -> is_uint w' z.
Proof.
  unfold is_uint; intros Hw Hz.
  pose proof (Z.pow_le_mono_r 2 w w'); lia.
Qed.

Lemma wrap_sub_l w x y : wrap w (wrap w x - y) = wrap w (x - y).
Proof. apply Zminus_mod_idemp_l. Qed.

Lemma wrap_sub_r w x y : wrap w (x - wrap w y) = wrap w (x - y).
Proof. apply Zminus_mod_idemp_r. Qed.

Lemma wrap_add_l w x y : wrap w (wrap w x + y) = wrap w (x + y).
Proof. apply Zplus_mod_idemp_l. Qed.

Lemma wrap_add_r w x y : wrap w (x + wrap w y) = wrap w (x + y).
Proof. apply Zplus_mod_idemp_r. Qed.

(** Bit fields put side by side add up. *)
Lemma lor_shiftl_add n a b :
  0 <= n -> 0 <= b < 2 ^ n -> Z.lor (Z.shiftl a n) b = a * 2 ^ n + b.
Proof.
  intros Hn Hb; rewrite <-Z.shiftl_mul_pow2 by done.
  rewrite <-Z.lxor_lor, <-Z.add_nocarry_lxor; try done;
    apply Z.bits_inj'; intros i Hi; rewrite Z.land_spec, Z.bits_0;
    (destruct (Z.ltb_spec i n);
     [by rewrite Z.shiftl_spec_low
     |rewrite <-(Z.mod_small b (2 ^ n)), Z.mod_pow2_bits_high by lia; apply andb_false_r]).
Qed.

(** ** Byte strings, little endian *)

(** A byte is a [Z] in [[0, 256)]; a buffer of [uint8_t] is a list of them. *)
Abbreviation bytes := (list Z).
Definition bytes_ok (l : bytes) : Prop := Forall is_u8 l.

Fixpoint le_split (n : nat) (v : Z) : bytes :=
  match n with
  | O => []
  | S n => v mod 256 :: le_split n (v / 256)
  end.

Fixpoint le_combine (l : bytes) : Z :=
  match l with
  | [] => 0
  | b :: l => b + 256 * le_combine l
  end.

Lemma length_le_split n v : length (le_split n v) = n.
Proof. revert v; induction n; intros; simpl; auto. Qed.
#[export] Hint Rewrite length_le_split : chip_len.

Lemma land_255 x : Z.land x 255 = x mod 256.
Proof. apply (Z.land_ones x 8); lia. Qed.

Lemma is_u8_mod v : is_u8 (v mod 256).
Proof. unfold is_uint; pose proof (Z.mod_pos_bound v 256); lia. Qed.

Lemma le_split_ok n v : bytes_ok (le_split n v).
Proof.
  revert v; unfold bytes_ok; induction n; intros; simpl; constructor;
    auto using is_u8_mod.
Qed.

Lemma pow256_S n : 2 ^ (8 * Z.of_nat (S n)) = 256 * 2 ^ (8 * Z.of_nat n).
Proof.
  replace (8 * Z.of_nat (S n)) with (8 + 8 * Z.of_nat n) by lia.
  rewrite Z.pow_add_r by lia; lia.
Qed.

Lemma le_combine_split n v :
  le_combine (le_split n v) = v mod 2 ^ (8 * Z.of_nat n).
Proof.
  revert v; induction n; intros.
  - simpl; rewrite Z.mod_1_r; reflexivity.
  - rewrite pow256_S; cbn [le_split le_combine]; rewrite IHn.
    rewrite Z.rem_mul_r; [lia|lia|apply pow2_pos; lia].
Qed.

Lemma le_combine_range l :
  bytes_ok l -> is_uint (8 * Z.of_nat (length l)) (le_combine l).
Proof.
  unfold is_uint; induction 1 as [|b l Hb Hl IH]; [simpl; lia|].
  cbn [length le_combine]; rewrite pow256_S.
  unfold is_uint in Hb; nia.
Qed.

Lemma le_split_combine l :
  bytes_ok l -> le_split (length l) (le_combine l) = l.
Proof.
  induction 1 as [|b l Hb Hl IH]; simpl; [done|].
  unfold is_uint in Hb.
  rewrite (Z.mul_comm 256), Z.mod_add, Z.div_add by lia.
  rewrite Z.mod_small, Z.div_small, Z.add_0_l by lia; congruence.
Qed.

Lemma le_split_small n v :
  is_uint (8 * Z.of_nat n) v -> le_combine (le_split n v) = v.
Proof. intros; rewrite le_combine_split; by apply Z.mod_small. Qed.

Lemma le_split_wrap n v :
  le_split n (v mod 2 ^ (8 * Z.of_nat n)) = le_split n v.
Proof.
  rewrite <-(le_combine_split n v).
  rewrite <-(length_le_split n v) at 1.
  apply le_split_combine, le_split_ok.
Qed.

(** ** Memory blocks *)

(** [mem_read off n m]: the [n] bytes of block [m] from offset [off]. *)
Definition mem_read (off n : nat) (m : bytes) : bytes := take n (drop off m).

(** [mem_write off d m]: block [m] after [memcpy(m + off, d, length d)].  The
    models only use it inside the block ([off + length d <= length m]), which
    their invariants establish. *)
Definition mem_write (off : nat) (d m : bytes) : bytes :=
  take off m ++ d ++ drop (off + length d) m.

Section Memory.
Implicit Types (off n : nat) (d m : bytes).

Lemma length_mem_read off n m :
  (off + n <= length m)%nat -> length (mem_read off n m) = n.
Proof. unfold mem_read; intros; len. Qed.

Lemma length_mem_write off d m :
  (off + length d <= length m)%nat -> length (mem_write off d m) = length m.
Proof. unfold mem_write; intros; len. Qed.

Lemma mem_read_write_same off d m :
  (off + length d <= length m)%nat ->
  mem_read off (length d) (mem_write off d m) = d.
Proof.
  unfold mem_read, mem_write; intros.
  rewrite drop_app_length' by len; by rewrite take_app_length.
Qed.

Lemma mem_read_write_before off off' n d m :
  (off' + n <= off)%nat -> (off <= length m)%nat ->
  mem_read off' n (mem_write off d m) = mem_read off' n m.
Proof.
  unfold mem_read, mem_write; intros.
  rewrite drop_app_le, take_app_le by len.
  rewrite skipn_firstn_comm, take_take; f_equal; lia.
Qed.

Lemma mem_read_write_after off off' n d m :
  (off + length d <= off')%nat -> (off + length d <= length m)%nat ->
  mem_read off' n (mem_write off d m) = mem_read off' n m.
Proof.
  unfold mem_read, mem_write; intros.
  rewrite drop_app_ge by len; rewrite drop_app_ge by len.
  rewrite drop_drop; f_equal; f_equal; len.
Qed.

Lemma mem_read_app off n1 n2 m :
  mem_read off (n1 + n2) m = mem_read off n1 m ++ mem_read (off + n1) n2 m.
Proof.
  unfold mem_read; rewrite <-drop_drop.
  rewrite <-(take_drop n1 (take (n1 + n2) _)), take_take, skipn_firstn_comm.
  f_equal; f_equal; lia.
Qed.

Lemma mem_read_all m : mem_read 0 (length m) m = m.
Proof. unfold mem_read; by rewrite drop_0, firstn_all. Qed.

Lemma mem_read_sub off n off' n' m :
  (off' + n' <= n)%nat ->
  mem_read off' n' (mem_read off n m) = mem_read (off + off') n' m.
Proof.
  unfold mem_read; intros.
  rewrite skipn_firstn_comm, take_take, drop_drop.
  f_equal; lia.
Qed.

Lemma mem_read_prefix n off n' m :
  (off + n' <= n)%nat -> mem_read off n' (mem_read 0 n m) = mem_read off n' m.
Proof. intros; by rewrite mem_read_sub. Qed.

Lemma mem_read_write_prefix n off n' d m :
  length d = n -> (n <= length m)%nat -> (off + n' <= n)%nat ->
  mem_read off n' (mem_write 0 d m) = mem_read off n' d.
Proof.
  intros <- Hm Hn; rewrite <-(mem_read_prefix (length d)) by done.
  by rewrite mem_read_write_same by lia.
Qed.

Lemma mem_read_sub_start off n' n m :
  (n' <= n)%nat -> mem_read 0 n' (mem_read off n m) = mem_read off n' m.
Proof. intros; by rewrite mem_read_sub, Nat.add_0_r. Qed.

Lemma mem_write_app off d1 d2 m :
  (off + length d1 + length d2 <= length m)%nat ->
  mem_write (off + length d1) d2 (mem_write off d1 m) = mem_write off (d1 ++ d2) m.
Proof.
  intros; unfold mem_write; rewrite (app_assoc (take off m)).
  rewrite take_app_length' by len; rewrite (drop_app_ge _ (drop _ m)) by len.
  rewrite drop_drop, <-!app_assoc; do 4 f_equal; len.
Qed.

Lemma mem_write_nil off m : mem_write off [] m = m.
Proof. unfold mem_write; simpl; by rewrite Nat.add_0_r, take_drop. Qed.

Lemma mem_write_start d m : mem_write 0 d m = d ++ drop (length d) m.
Proof. done. Qed.

Lemma bytes_ok_app d m : bytes_ok (d ++ m) <-> bytes_ok d /\ bytes_ok m.
Proof. apply Forall_app. Qed.

Lemma bytes_ok_read off n m : bytes_ok m -> bytes_ok (mem_read off n m).
Proof. intros; by apply Forall_take, Forall_drop. Qed.

Lemma bytes_ok_write off d m :
  bytes_ok d -> bytes_ok m -> bytes_ok (mem_write off d m).
Proof.
  intros; unfold mem_write; rewrite !bytes_ok_app.
  split_and!; auto; [by apply Forall_take|by apply Forall_drop].
Qed.
End Memory.

(** ** C strings *)

(** The characters of a buffer up to its NUL. *)
Fixpoint c_string (l : bytes) : bytes :=
  match l with
  | [] => []
  | c :: l => if c =? 0 then [] else c :: c_string l
  end.

Lemma c_string_app l rest : Forall (fun c => c <> 0) l -> c_string (l ++ 0 :: rest) = l.
Proof.
  induction 1 as [|c l Hc _ IH]; cbn [c_string app]; [done|].
  by rewrite (proj2 (Z.eqb_neq c 0) Hc), IH.
Qed.

Lemma c_string_id l : Forall (fun c => c <> 0) l -> c_string l = l.
Proof.
  induction 1 as [|c l Hc _ IH]; cbn [c_string]; [done|].
  by rewrite (proj2 (Z.eqb_neq c 0) Hc), IH.
Qed.

(** ** Error codes and the error-and-state monad *)

(** The [CHIP_ERROR] values the modelled code returns
    (src/src/lib/core/CHIPError.h and src/src/ble/BleError.h).  The last
    two constructors are not among them: they mark a run in which the code
    follows a pointer the C++ standard gives no meaning to, or in which a
    [VerifyOrDie] stops the program, so that a theorem can say that this does
    (or does not) happen. *)
Inductive CHIP_ERROR :=
| CHIP_NO_ERROR
| CHIP_ERROR_INTERNAL
| CHIP_ERROR_INCORRECT_STATE
| CHIP_ERROR_INVALID_ARGUMENT
| CHIP_ERROR_NO_MEMORY
| CHIP_ERROR_BUFFER_TOO_SMALL
| CHIP_ERROR_MESSAGE_TOO_LONG
| CHIP_ERROR_INBOUND_MESSAGE_TOO_BIG
| CHIP_ERROR_VERSION_MISMATCH
| CHIP_ERROR_WRONG_ENCRYPTION_TYPE
| CHIP_ERROR_WRONG_ENCRYPTION_TYPE_FROM_PEER
| CHIP_ERROR_DUPLICATE_MESSAGE_RECEIVED
| CHIP_ERROR_INVALID_INTEGER_VALUE
| CHIP_ERROR_INVALID_STRING_LENGTH
| CHIP_ERROR_INVALID_MESSAGE_TYPE
| CHIP_ERROR_INVALID_UTF8
| CHIP_ERROR_NOT_IMPLEMENTED
| CHIP_ERROR_NOT_FOUND
| CHIP_ERROR_KEY_NOT_FOUND
| CHIP_ERROR_TOO_MANY_PEER_NODES
| CHIP_ERROR_INVALID_FABRIC_INDEX
| CHIP_END_OF_TLV
| CHIP_ERROR_TLV_UNDERRUN
| CHIP_ERROR_TLV_CONTAINER_OPEN
| CHIP_ERROR_INVALID_TLV_ELEMENT
| CHIP_ERROR_INVALID_TLV_TAG
| CHIP_ERROR_INVALID_TLV_CHAR_STRING
| CHIP_ERROR_UNKNOWN_IMPLICIT_TLV_TAG
| CHIP_ERROR_WRONG_TLV_TYPE
| CHIP_ERROR_UNEXPECTED_TLV_ELEMENT
| CHIP_ERROR_INTEGRITY_CHECK_FAILED
| CHIP_ERROR_MESSAGE_COUNTER_EXHAUSTED
| CHIP_ERROR_PERSISTED_STORAGE_VALUE_NOT_FOUND
| CHIP_ERROR_PERSISTED_STORAGE_FAILED
| CHIP_ERROR_OUTBOUND_MESSAGE_TOO_BIG
| CHIP_ERROR_MESSAGE_INCOMPLETE
| BLE_ERROR_INVALID_MESSAGE
| BLE_ERROR_INVALID_FRAGMENT_SIZE
| BLE_ERROR_INCOMPATIBLE_PROTOCOL_VERSIONS
| BLE_ERROR_CHIPOBLE_PROTOCOL_ABORT
| BLE_ERROR_NO_CONNECT_COMPLETE_CALLBACK
| BLE_ERROR_NO_CONNECTION_RECEIVED_CALLBACK
| BLE_ERROR_CONNECT_TIMED_OUT
| BLE_ERROR_RECEIVE_TIMED_OUT
| BLE_ERROR_FRAGMENT_ACK_TIMED_OUT
| BLE_ERROR_REMOTE_DEVICE_DISCONNECTED
| BLE_ERROR_APP_CLOSED_CONNECTION
| BLE_ERROR_CENTRAL_UNSUBSCRIBED
| BLE_ERROR_GATT_UNSUBSCRIBE_FAILED
| BLE_ERROR_INVALID_ACK
| BLE_ERROR_INVALID_BTP_SEQUENCE_NUMBER
| BLE_ERROR_INVALID_BTP_HEADER_FLAGS
| BLE_ERROR_REASSEMBLER_INCORRECT_STATE
| BLE_ERROR_REASSEMBLER_MISSING_DATA
| CHIP_ERROR_ACCESS_DENIED
| CHIP_ERROR_ACCESS_RESTRICTED_BY_ARL
| CHIP_ERROR_CONNECTION_ABORTED
| CHIP_ERROR_MISSING_SECURE_SESSION
| CHIP_ERROR_RETRANS_TABLE_FULL
| CHIP_ERROR_TOO_MANY_UNSOLICITED_MESSAGE_HANDLERS
| CHIP_ERROR_NO_UNSOLICITED_MESSAGE_HANDLER
| CHIP_ERROR_POSIX (errno : Z)
| CHIP_ERROR_SENTINEL
| UNDEFINED_BEHAVIOUR
| PROGRAM_ABORT.

#[export] Instance CHIP_ERROR_eq_dec : EqDecision CHIP_ERROR.
Proof. solve_decision. Defined.

(** A fallible operation with a value: the value, or the error that stopped
    it ([ReturnErrorOnFailure], [SuccessOrExit], [VerifyOrReturnError]). *)
Inductive result (A : Type) :=
| Ok (a : A)
| Err (e : CHIP_ERROR).
Arguments Ok {A} a.
Arguments Err {A} e.

Definition rbind {A B} (r : result A) (k : A -> result B) : result B :=
  match r with Ok a => k a | Err e => Err e end.

(** Operations on a state [S]: an error keeps the changes made before it, as
    the C++ methods do. *)
Definition M (S A : Type) : Type := S -> result A * S.

Definition ret {S A} (a : A) : M S A := fun s => (Ok a, s).
Definition fail {S A} (e : CHIP_ERROR) : M S A := fun s => (Err e, s).
Definition bind {S A B} (m : M S A) (k : A -> M S B) : M S B :=
  fun s => match m s with
           | (Ok a, s') => k a s'
           | (Err e, s') => (Err e, s')
           end.
Definition lift {S A} (r : result A) : M S A := fun s => (r, s).
Definition get {S} : M S S := fun s => (Ok s, s).
Definition modify {S} (f : S -> S) : M S unit := fun s => (Ok tt, f s).
Definition verify {S} (b : bool) (e : CHIP_ERROR) : M S unit :=
  if b then ret tt else fail e.

(** The status of an operation whose errors the caller handles; a stopped program
    stays stopped. *)
Definition attempt {S A} (m : M S A) : M S CHIP_ERROR := fun s =>
  match m s with
  | (Ok _, s) => (Ok CHIP_NO_ERROR, s)
  | (Err PROGRAM_ABORT, s) => (Err PROGRAM_ABORT, s)
  | (Err UNDEFINED_BEHAVIOUR, s) => (Err UNDEFINED_BEHAVIOUR, s)
  | (Err err, s) => (Ok err, s)
  end.
Definition when {S} (b : bool) (m : M S unit) : M S unit := if b then m else ret tt.

(** The status code of a call that returns only a [CHIP_ERROR]. *)
Definition status {A} (r : result A) : CHIP_ERROR :=
  match r with Ok _ => CHIP_NO_ERROR | Err e => e end.

Declare Scope chip_monad_scope.
Delimit Scope chip_monad_scope with monad.
Notation "'let!' x ':=' c 'in' k" := (bind c (fun x => k))
  (at level 200, x pattern, k at level 200, right associativity) : chip_monad_scope.
Notation "'let*' x ':=' c 'in' k" := (rbind c (fun x => k))
  (at level 200, x pattern, k at level 200, right associativity) : chip_monad_scope.
Notation "c ';;' k" := (bind c (fun _ => k))
  (at level 100, k at level 200, right associativity) : chip_monad_scope.
#[global] Open Scope chip_monad_scope.

Section MonadLaws.
Context {S A B : Type}.

Lemma bind_ok (m : M S A) (k : A -> M S B) s a s' :
  m s = (Ok a, s') -> bind m k s = k a s'.
Proof. unfold bind; by intros ->. Qed.

Lemma bind_err (m : M S A) (k : A -> M S B) s e s' :
  m s = (Err e, s') -> bind m k s = (Err e, s').
Proof. unfold bind; by intros ->. Qed.

Lemma bind_ok_inv (m : M S A) (k : A -> M S B) s b s' :
  bind m k s = (Ok b, s') -> exists a s1, m s = (Ok a, s1) /\ k a s1 = (Ok b, s').
Proof. unfold bind; destruct (m s) as [[]]; naive_solver. Qed.

Lemma verify_ok_inv (b : bool) e (s : S) u s' :
  verify b e s = (Ok u, s') -> b = true /\ s' = s.
Proof. unfold verify, ret, fail; destruct b; naive_solver. Qed.
End MonadLaws.

(** [inv_ok H] takes a successful run [H] of a sequence of operations apart. *)
Ltac inv_ok H :=
  lazymatch type of H with
  | bind _ _ _ = (Ok _, _) =>
      let a := fresh "a" in let s := fresh "s" in
      let H1 := fresh "Hm" in let H2 := fresh "Hk" in
      apply bind_ok_inv in H as (a & s & H1 & H2); inv_ok H1; inv_ok H2
  | verify _ _ _ = (Ok _, _) =>
      let Hb := fresh "Hb" in
      apply verify_ok_inv in H as [Hb ->]
  | ret _ _ = (Ok _, _) => unfold ret in H; simplify_eq
  | modify _ _ = (Ok _, _) => unfold modify in H; simplify_eq
  | get _ = (Ok _, _) => unfold get in H; simplify_eq
  | _ => idtac
  end.
