(* ===== verification/Encoding.v ===== *)
(** * Encoding: byte order, buffer readers and buffer writers

    Model of src/src/lib/core/CHIPEncoding.h, src/src/lib/support/BufferReader.{h,cpp},
    src/src/lib/support/BufferWriter.{h,cpp} and src/src/lib/support/BitFlags.h.

    - [ByteOrder]: the interface of the nlio library CHIPEncoding.h forwards to,
      a class with its laws and a reference instance;
    - Module [BitFlags]: the flag set over an unsigned storage type;
    - [Reader]: class [BufferReader] and its little- and big-endian subclasses;
      [rest] is the abstract view: the bytes still to be read;
    - [BufferWriter]: the class of that name; [Needed] counts past the end, in 64 bits.
      [Writer] is what the other files of the development write with, the same writer
      with a count that does not wrap around, which [BufferWriter] is as long as less
      than 2^64 bytes were counted ([writer_refines_log]). *)

From S2P Require Import Prelude.

(** ** The byte-order library

    CHIPEncoding.h forwards to nlio, which is not part of the repository.  Its
    documented behaviour: [PutUnalignedN] of the little-endian name space stores
    the [n] bytes of a value least significant first, [GetUnalignedN] and
    [SwapNLittleToHost] applied to bytes copied from memory read them back. *)
Class ByteOrder := {
  nl_le_put : nat -> Z -> bytes;
  nl_le_get : bytes -> Z;
  nl_le_put_spec n v : nl_le_put n v = le_split n v;
  nl_le_get_spec l : nl_le_get l = le_combine l }.

(** The reference instance, used at the concrete inputs of the witnesses. *)
Definition reference_byte_order : ByteOrder := {|
  nl_le_put := le_split;
  nl_le_get := le_combine;
  nl_le_put_spec _ _ := eq_refl;
  nl_le_get_spec _ := eq_refl |}.

(** ** BitFlags.h *)
Module BitFlags.

Section Flags.
Context (w : Z).

(** [static_cast<IntegerType>(~flag)] in a storage type of [w] bits. *)
Definition complement (flag : Z) : Z := wrap w (Z.lnot flag).

Definition Set_ (v flag : Z) : Z := Z.lor v flag.
Definition Clear (v flag : Z) : Z := Z.land v (complement flag).
Definition Set_if (v flag : Z) (isSet : bool) : Z :=
  if isSet then Set_ v flag else Clear v flag.
Definition Has (v flag : Z) : bool := negb (Z.land v flag =? 0).
Definition Or (flags : list Z) : Z := foldr Z.lor 0 flags.
Definition HasOnly (v : Z) (flags : list Z) : bool := Z.land v (Or flags) =? v.
Definition HasAll (v : Z) (flags : list Z) : bool := Z.land v (Or flags) =? Or flags.
Definition HasAny (v : Z) (flags : list Z) : bool := negb (Z.land v (Or flags) =? 0).

End Flags.

(** A single-bit flag is tested by its bit. *)
Lemma Has_testbit v n : 0 <= n -> Has v (2 ^ n) = Z.testbit v n.
Proof.
  intros Hn; unfold Has.
  destruct (Z.eqb_spec (Z.land v (2 ^ n)) 0) as [H|H]; simpl; symmetry.
  - apply (f_equal (fun x => Z.testbit x n)) in H.
    rewrite Z.land_spec, Z.pow2_bits_true, andb_true_r, Z.bits_0 in H; done.
  - apply not_false_iff_true; intros Hb; apply H, Z.bits_inj'; intros i Hi.
    rewrite Z.land_spec, Z.bits_0, Z.pow2_bits_eqb by done.
    bcase; [subst; by rewrite Hb|apply andb_false_r].
Qed.

Lemma Set_if_testbit w v n b i :
  0 <= n < w -> is_uint w v -> 0 <= i ->
  Z.testbit (Set_if w v (2 ^ n) b) i = if decide (i = n) then b else Z.testbit v i.
Proof.
  intros Hn Hv Hi; unfold Set_if, Set_, Clear, complement; destruct b.
  - rewrite Z.lor_spec, Z.pow2_bits_eqb by lia.
    case_decide; bcase; try lia; rewrite ?orb_true_r, ?orb_false_r; done.
  - rewrite Z.land_spec; unfold wrap.
    destruct (Z.ltb_spec i w).
    + rewrite Z.mod_pow2_bits_low, Z.lnot_spec, Z.pow2_bits_eqb by lia.
      case_decide; bcase; try lia; rewrite ?andb_true_r, ?andb_false_r; done.
    + rewrite Z.mod_pow2_bits_high, andb_false_r by lia.
      case_decide; [lia|].
      rewrite <-(Z.mod_small v (2 ^ w) Hv), Z.mod_pow2_bits_high by lia; done.
Qed.

Lemma Set_if_range w v n b : 0 <= n < w -> is_uint w v -> is_uint w (Set_if w v (2 ^ n) b).
Proof.
  intros Hn Hv.
  assert (Set_if w v (2 ^ n) b = wrap w (Set_if w v (2 ^ n) b)) as ->;
    [|apply wrap_range; lia].
  apply Z.bits_inj'; intros i Hi; unfold wrap.
  destruct (Z.ltb_spec i w); [by rewrite Z.mod_pow2_bits_low by lia|].
  rewrite Z.mod_pow2_bits_high, Set_if_testbit by (done || lia).
  case_decide; [lia|].
  rewrite <-(Z.mod_small v (2 ^ w) Hv), Z.mod_pow2_bits_high by lia; done.
Qed.

End BitFlags.

(** ** BufferReader *)

(** [mBufStart] is the start of [mBuf], [mReadPtr] is [mReadPos] bytes after it. *)
Record Reader := MkReader {
  mBuf : bytes;
  mReadPos : nat;
  mAvailable : nat;
  mStatus : CHIP_ERROR }.

(** [BufferReader(buffer, buf_len)]; the null buffer is the empty one. *)
Definition Reader_new (buffer : bytes) : Reader :=
  MkReader buffer 0 (length buffer) CHIP_NO_ERROR.

Definition OctetsRead (r : Reader) : nat := mReadPos r.
Definition Remaining (r : Reader) : nat := mAvailable r.
Definition HasAtLeast (r : Reader) (octets : nat) : bool := (octets <=? Remaining r)%nat.
Definition StatusCode (r : Reader) : CHIP_ERROR := mStatus r.
Definition IsSuccess (r : Reader) : bool := bool_decide (StatusCode r = CHIP_NO_ERROR).

Definition EnsureAvailable (r : Reader) (size : nat) : bool * Reader :=
  if (mAvailable r <? size)%nat
  then (false, MkReader (mBuf r) (mReadPos r) 0 CHIP_ERROR_BUFFER_TOO_SMALL)
  else (true, r).

(** Moves the read point over [len] available bytes. *)
Definition advance (r : Reader) (len : nat) : Reader :=
  MkReader (mBuf r) (mReadPos r + len) (mAvailable r - len) (mStatus r).

(** The bytes at the read point. *)
Definition peek (r : Reader) (len : nat) : bytes := mem_read (mReadPos r) len (mBuf r).

(** Reads return [None] when [dest] is left as it was. *)
Definition ReadBytes (r : Reader) (size : nat) : option bytes * Reader :=
  let (ok, r) := EnsureAvailable r size in
  if ok then (Some (peek r size), advance r size) else (None, r).

Definition ZeroCopyProcessBytes (r : Reader) (len : nat) : option bytes * Reader :=
  if (mAvailable r <? len)%nat
  then (None, MkReader (mBuf r) (mReadPos r) 0 CHIP_ERROR_BUFFER_TOO_SMALL)
  else (Some (peek r len), advance r len).

Definition Skip (r : Reader) (len : nat) : Reader :=
  let len := Nat.min len (mAvailable r) in advance r len.

Section LittleEndianReader.
Context `{ByteOrder}.

(** [Reader::RawReadLowLevelBeCareful] at an unsigned type of [data_size] bytes. *)
Definition RawRead (data_size : nat) (r : Reader) : option Z * Reader :=
  if IsSuccess r then
    let (ok, r) := EnsureAvailable r data_size in
    if ok then (Some (nl_le_get (peek r data_size)), advance r data_size)
    else (None, r)
  else (None, r).

Definition Read8 := RawRead 1.
Definition Read16 := RawRead 2.
Definition Read32 := RawRead 4.
Definition Read64 := RawRead 8.

(** The signed reads convert the unsigned value ([static_cast<T>]). *)
Definition RawReadSigned (data_size : nat) (r : Reader) : option Z * Reader :=
  let (v, r) := RawRead data_size r in
  (swrap (8 * Z.of_nat data_size) <$> v, r).
Definition ReadSigned8 := RawReadSigned 1.
Definition ReadSigned16 := RawReadSigned 2.
Definition ReadSigned32 := RawReadSigned 4.
Definition ReadSigned64 := RawReadSigned 8.

Definition ReadBool (r : Reader) : option bool * Reader :=
  let (v, r) := RawRead 1 r in ((fun b => negb (b =? 0)) <$> v, r).

(** A read whose status is checked at once, as [SuccessOrExit(err =
    reader.ReadN(&v).StatusCode())] does. *)
Definition rd (data_size : nat) : M Reader Z := fun r =>
  let (v, r) := RawRead data_size r in
  match v with
  | Some v => (Ok v, r)
  | None => (Err (StatusCode r), r)
  end.

End LittleEndianReader.

(** The big-endian reads the class supports. *)
Definition BigEndian_Read16 (r : Reader) : option Z * Reader :=
  let (ok, r) := EnsureAvailable r 2 in
  if ok then
    match peek r 2 with
    | [b0; b1] => (Some (wrap 16 (Z.shiftl b0 8 + b1)), advance r 2)
    | _ => (None, r)
    end
  else (None, r).

Definition BigEndian_Read32 (r : Reader) : option Z * Reader :=
  let (ok, r) := EnsureAvailable r 4 in
  if ok then
    (Some (foldl (fun dest b => wrap 32 (wrap 32 (Z.shiftl dest 8) + b)) 0 (peek r 4)),
     advance r 4)
  else (None, r).

(** *** Abstract view of a reader *)

(** The read point and the available bytes stay inside the buffer. *)
Definition Reader_wf (r : Reader) : Prop :=
  (mReadPos r + mAvailable r <= length (mBuf r))%nat.

Definition rest (r : Reader) : bytes := mem_read (mReadPos r) (mAvailable r) (mBuf r).

Lemma length_rest r : Reader_wf r -> length (rest r) = mAvailable r.
Proof. apply length_mem_read. Qed.

Lemma Reader_new_wf l : Reader_wf (Reader_new l).
Proof. unfold Reader_wf; simpl; lia. Qed.

Lemma rest_new l : rest (Reader_new l) = l.
Proof. apply mem_read_all. Qed.

Lemma peek_rest r n : (n <= mAvailable r)%nat -> peek r n = take n (rest r).
Proof.
  unfold peek, rest, mem_read; intros; rewrite take_take; f_equal; lia.
Qed.

Lemma advance_wf r n : Reader_wf r -> (n <= mAvailable r)%nat -> Reader_wf (advance r n).
Proof. unfold Reader_wf; simpl; lia. Qed.

Lemma rest_advance r n : (n <= mAvailable r)%nat -> rest (advance r n) = drop n (rest r).
Proof.
  unfold rest, mem_read; simpl; intros.
  rewrite skipn_firstn_comm, drop_drop; done.
Qed.
#[export] Hint Resolve Reader_new_wf advance_wf : core.

Section ReaderSpec.
Context `{ByteOrder}.

(** A checked read of [n] bytes consumes them from [rest], or fails with
    [CHIP_ERROR_BUFFER_TOO_SMALL] when fewer are left. *)
Lemma rd_ok n r :
  Reader_wf r -> mStatus r = CHIP_NO_ERROR -> (n <= length (rest r))%nat ->
  rd n r = (Ok (le_combine (take n (rest r))), advance r n).
Proof.
  intros Hwf Hs Hn; rewrite length_rest in Hn by done.
  unfold rd, RawRead, IsSuccess, StatusCode, EnsureAvailable.
  rewrite Hs; simpl; bcase; [lia|].
  by rewrite nl_le_get_spec, peek_rest by lia.
Qed.

Lemma rd_short n r :
  Reader_wf r -> mStatus r = CHIP_NO_ERROR -> (length (rest r) < n)%nat ->
  exists r', rd n r = (Err CHIP_ERROR_BUFFER_TOO_SMALL, r').
Proof.
  intros Hwf Hs Hn; rewrite length_rest in Hn by done.
  unfold rd, RawRead, IsSuccess, StatusCode, EnsureAvailable.
  rewrite Hs; simpl; bcase; [|lia]; eauto.
Qed.

Lemma rd_inv n r v r' :
  Reader_wf r -> rd n r = (Ok v, r') ->
  mStatus r = CHIP_NO_ERROR /\ (n <= length (rest r))%nat /\
  v = le_combine (take n (rest r)) /\ r' = advance r n.
Proof.
  intros Hwf; rewrite length_rest by done.
  unfold rd, RawRead, IsSuccess, StatusCode, EnsureAvailable.
  case_bool_decide; [|intros ?; simplify_eq].
  bcase; intros; simplify_eq.
  by rewrite nl_le_get_spec, peek_rest by lia.
Qed.

(** Reading the little-endian encoding of [v] yields [v]. *)
Lemma rd_le_split n v r l :
  Reader_wf r -> mStatus r = CHIP_NO_ERROR -> is_uint (8 * Z.of_nat n) v ->
  rest r = le_split n v ++ l ->
  rd n r = (Ok v, advance r n) /\ rest (advance r n) = l /\ Reader_wf (advance r n).
Proof.
  intros Hwf Hs Hv Hr.
  assert (n <= mAvailable r)%nat.
  { rewrite <-(length_rest r), Hr by done; len. }
  rewrite rd_ok, rest_advance, Hr by (rewrite ?length_rest by done; done || lia).
  rewrite take_app_length', drop_app_length' by len.
  by rewrite le_split_small by done; auto.
Qed.
End ReaderSpec.

(** ** BufferWriter, as its clients see it

    The writer that the other components of the development write with: its count does not
    wrap around.  The writer of the code, with counts of 64 bits, is [BufferWriter] below,
    and [writer_refines_log] shows that it is this one as long as less than 2^64 bytes
    were counted. *)

(** The buffer of [mSize] bytes is [wBuf]; [mNeeded] may exceed its size. *)
Record Writer := MkWriter {
  wBuf : bytes;
  mNeeded : nat }.

(** [BufferWriter(buf, len)]; the null buffer is the empty one. *)
Definition Writer_new (buf : bytes) : Writer := MkWriter buf 0.

Definition Size (w : Writer) : nat := length (wBuf w).
Definition Needed (w : Writer) : nat := mNeeded w.
Definition WritePos (w : Writer) : nat := Needed w.
Definition Available (w : Writer) : nat :=
  if (Size w <? mNeeded w)%nat then 0 else Size w - mNeeded w.
Definition Fit (w : Writer) : bool := (mNeeded w <=? Size w)%nat.
Definition FitWritten (w : Writer) : bool * nat :=
  (Fit w, if (mNeeded w <=? Size w)%nat then mNeeded w else Size w).
Definition Reset_ (w : Writer) : Writer := MkWriter (wBuf w) 0.
Definition Writer_Skip (w : Writer) (len : nat) : Writer :=
  MkWriter (wBuf w) (mNeeded w + len).

(** [Put(const void * buf, size_t len)]: what does not fit is only counted. *)
Definition PutBytes (w : Writer) (buf : bytes) : Writer :=
  let available := Available w in
  let wBuf' :=
    if ((0 <? available) && (0 <? length buf))%nat
    then mem_write (mNeeded w)
           (take (if (available <? length buf)%nat then available else length buf) buf)
           (wBuf w)
    else wBuf w in
  MkWriter wBuf' (mNeeded w + length buf).

(** [Put(uint8_t c)] *)
Definition Put (w : Writer) (c : Z) : Writer :=
  MkWriter (if (mNeeded w <? Size w)%nat then <[mNeeded w := c]> (wBuf w) else wBuf w)
           (S (mNeeded w)).

(** The loop of [LittleEndian::BufferWriter::EndianPut] and [EndianPutSigned]. *)
Fixpoint LE_EndianPut (w : Writer) (x : Z) (size : nat) : Writer :=
  match size with
  | O => w
  | S size => LE_EndianPut (Put w (Z.land x 255)) (Z.shiftr x 8) size
  end.

(** The loop of [BigEndian::BufferWriter::EndianPut] and [EndianPutSigned]. *)
Fixpoint BE_EndianPut (w : Writer) (x : Z) (size : nat) : Writer :=
  match size with
  | O => w
  | S size =>
      BE_EndianPut (Put w (Z.land (Z.shiftr x (Z.of_nat size * 8)) 255)) x size
  end.

(** *** Abstract view of a writer

    The log of a writer is what was put so far, [None] for a skipped byte.  The
    buffer is its original content with the log laid over it, and [mNeeded] is
    the length of the log, whether it fits or not. *)
Fixpoint overlay (log : list (option Z)) (b : bytes) : bytes :=
  match log, b with
  | [], _ => b
  | _, [] => []
  | o :: log, y :: b => default y o :: overlay log b
  end.

Definition writer_of (b : bytes) (log : list (option Z)) : Writer :=
  MkWriter (overlay log b) (length log).

(** The calls a client makes, and the bytes each appends to the log. *)
Inductive put_call :=
| CallPut (c : Z)
| CallPutBytes (buf : bytes)
| CallSkip (len : nat)
| CallPutLE (x : Z) (size : nat)
| CallPutBE (x : Z) (size : nat).

Definition run_call (w : Writer) (c : put_call) : Writer :=
  match c with
  | CallPut c => Put w c
  | CallPutBytes buf => PutBytes w buf
  | CallSkip len => Writer_Skip w len
  | CallPutLE x size => LE_EndianPut w x size
  | CallPutBE x size => BE_EndianPut w x size
  end.

Definition log_of_call (c : put_call) : list (option Z) :=
  match c with
  | CallPut c => [Some c]
  | CallPutBytes buf => Some <$> buf
  | CallSkip len => replicate len None
  | CallPutLE x size => Some <$> le_split size x
  | CallPutBE x size => Some <$> reverse (le_split size x)
  end.

(** *** The writer of the code *)

Module BufferWriter.

(** [size_t mNeeded] is a number of 64 bits; [mSize] is the length of [mBuf]. *)
Record t := Mk {
  mBuf : bytes;
  mNeeded : Z }.

Definition new (buf : bytes) : t := Mk buf 0.

Definition Size (w : t) : Z := Z.of_nat (length (mBuf w)).
Definition Needed (w : t) : Z := mNeeded w.
Definition WritePos (w : t) : Z := Needed w.
Definition Available (w : t) : Z := if Size w <? mNeeded w then 0 else Size w - mNeeded w.
(** [Fit(size_t & actuallyWritten)] *)
Definition FitWritten (w : t) : bool * Z :=
  (mNeeded w <=? Size w, if mNeeded w <=? Size w then mNeeded w else Size w).
Definition Fit (w : t) : bool := (FitWritten w).1.
Definition Reset (w : t) : t := Mk (mBuf w) 0.

Definition Skip (w : t) (len : Z) : t := Mk (mBuf w) (mNeeded w +{64} len).

(** [Put(const void * buf, size_t len)] *)
Definition PutBytes (w : t) (buf : bytes) : t :=
  let available := Available w in
  let len := Z.of_nat (length buf) in
  let mBuf' :=
    if (0 <? available) && (0 <? len)
    then mem_write (Z.to_nat (mNeeded w)) (take (Z.to_nat (if available <? len then available else len)) buf) (mBuf w)
    else mBuf w in
  Mk mBuf' (mNeeded w +{64} len).

(** [Put(uint8_t c)] *)
Definition Put (w : t) (c : Z) : t :=
  Mk (if mNeeded w <? Size w then mem_write (Z.to_nat (mNeeded w)) [c] (mBuf w) else mBuf w) (mNeeded w +{64} 1).

(** The loop of [LittleEndian::BufferWriter::EndianPut] and [EndianPutSigned]. *)
Fixpoint LE_EndianPut (w : t) (x : Z) (size : nat) : t :=
  match size with
  | O => w
  | S size => LE_EndianPut (Put w (Z.land x 255)) (Z.shiftr x 8) size
  end.

(** The loop of [BigEndian::BufferWriter::EndianPut] and [EndianPutSigned]. *)
Fixpoint BE_EndianPut (w : t) (x : Z) (size : nat) : t :=
  match size with
  | O => w
  | S size => BE_EndianPut (Put w (Z.land (Z.shiftr x (Z.of_nat size * 8)) 255)) x size
  end.

Definition run_call (w : t) (c : put_call) : t :=
  match c with
  | CallPut c => Put w c
  | CallPutBytes buf => PutBytes w buf
  | CallSkip len => Skip w (Z.of_nat len)
  | CallPutLE x size => LE_EndianPut w x size
  | CallPutBE x size => BE_EndianPut w x size
  end.

End BufferWriter.

(** The writer of the code for one whose count did not wrap around. *)
Definition sized (w : Writer) : BufferWriter.t := BufferWriter.Mk (wBuf w) (Z.of_nat (mNeeded w)).

Lemma length_overlay log b : length (overlay log b) = length b.
Proof. revert b; induction log as [|? ? IH]; intros [|]; simpl; auto. Qed.
#[export] Hint Rewrite length_overlay : chip_len.

Lemma overlay_app log log' b :
  overlay (log ++ log') b =
  take (length log) (overlay log b) ++ overlay log' (drop (length log) b).
Proof.
  revert b; induction log as [|o log IH]; intros [|y b]; simpl; try done.
  - by destruct log'.
  - by rewrite IH.
Qed.

Lemma take_overlay n log b : take n (overlay log b) = overlay log (take n b).
Proof.
  revert n b; induction log as [|o log IH]; intros n [|y b]; simpl; try done.
  - by destruct n.
  - destruct n; simpl; [done|]; by rewrite IH.
Qed.

Lemma overlay_drop log b : drop (length log) (overlay log b) = drop (length log) b.
Proof. revert b; induction log; intros [|]; simpl; auto. Qed.

Lemma overlay_some d b : overlay (Some <$> d) b = take (length b) d ++ drop (length d) b.
Proof.
  revert b; induction d as [|x d IH]; intros [|y b]; csimpl; try done.
  by rewrite IH.
Qed.

Lemma overlay_none n b : overlay (replicate n None) b = b.
Proof. revert b; induction n; intros [|]; simpl; f_equal; auto. Qed.

Lemma Put_log b log c : Put (writer_of b log) c = writer_of b (log ++ [Some c]).
Proof.
  unfold Put, writer_of, Size; simpl; rewrite length_app, length_overlay, Nat.add_1_r.
  f_equal; rewrite overlay_app.
  rewrite <-(take_drop (length log) (overlay log b)) at 1; rewrite overlay_drop.
  bcase.
  - rewrite insert_app_r_alt, length_take, length_overlay by len.
    replace (_ - _)%nat with 0%nat by lia.
    by destruct (drop (length log) b).
  - rewrite (drop_ge b), take_ge by (rewrite ?length_overlay; lia).
    by rewrite app_nil_r.
Qed.

Lemma PutBytes_log b log d :
  PutBytes (writer_of b log) d = writer_of b (log ++ (Some <$> d)).
Proof.
  unfold PutBytes, writer_of, Available, Size; cbn [mNeeded wBuf].
  rewrite length_app, length_fmap, length_overlay; f_equal.
  rewrite overlay_app, overlay_some, length_drop, drop_drop.
  destruct (Nat.ltb_spec (length b) (length log)) as [Hl|Hl]; simpl.
  - rewrite !(drop_ge b), (take_ge (overlay _ _)) by len.
    by replace (length b - length log)%nat with 0%nat by lia; rewrite !app_nil_r.
  - destruct (Nat.ltb_spec 0 (length b - length log)),
      (Nat.ltb_spec 0 (length d)) as [|Hd]; cbn [andb].
    2,4: destruct d; [|len];
      by rewrite take_nil, Nat.add_0_r, <-(overlay_drop log b), app_nil_l, take_drop.
    + unfold mem_write; f_equal; rewrite <-drop_drop, overlay_drop, drop_drop.
      bcase; [|by rewrite !(take_ge d) by lia].
      by rewrite length_take, !(drop_ge b) by lia.
    + rewrite (drop_ge b), (take_ge (overlay _ _)) by len.
      by replace (length b - length log)%nat with 0%nat by lia; rewrite !app_nil_r.
Qed.

Lemma LE_EndianPut_log b log x n :
  LE_EndianPut (writer_of b log) x n = writer_of b (log ++ (Some <$> le_split n x)).
Proof.
  revert log x; induction n as [|n IH]; intros; cbn [LE_EndianPut le_split].
  - by rewrite app_nil_r.
  - rewrite Put_log, IH; f_equal; rewrite <-app_assoc; f_equal; csimpl.
    by rewrite land_255, Z.shiftr_div_pow2 by lia.
Qed.

Lemma le_split_S_last n x :
  le_split (S n) x = le_split n x ++ [(x / 2 ^ (8 * Z.of_nat n)) mod 256].
Proof.
  revert x; induction n as [|n IH]; intros x.
  - simpl; by rewrite Z.div_1_r.
  - cbn [le_split] in *; rewrite IH, pow256_S, Z.div_div by (pose proof (pow2_pos (8 * Z.of_nat n)); lia).
    done.
Qed.

Lemma BE_EndianPut_log b log x n :
  BE_EndianPut (writer_of b log) x n =
  writer_of b (log ++ (Some <$> reverse (le_split n x))).
Proof.
  revert log; induction n as [|n IH]; intros; cbn [BE_EndianPut].
  - by rewrite app_nil_r.
  - rewrite Put_log, IH, <-app_assoc; f_equal; f_equal.
    rewrite le_split_S_last, reverse_app, reverse_singleton; csimpl.
    by rewrite land_255, Z.shiftr_div_pow2, (Z.mul_comm _ 8) by lia.
Qed.

Lemma Skip_log b log n :
  Writer_Skip (writer_of b log) n = writer_of b (log ++ replicate n None).
Proof.
  unfold Writer_Skip, writer_of; simpl; rewrite length_app, length_replicate; f_equal.
  by rewrite overlay_app, overlay_none, <-overlay_drop, take_drop.
Qed.

(** Any calls on a fresh writer put the concatenation of their logs. *)
Lemma run_calls_log b cs :
  foldl run_call (Writer_new b) cs = writer_of b (concat (log_of_call <$> cs)).
Proof.
  change (Writer_new b) with (writer_of b []); rewrite <-(app_nil_l (concat _)).
  generalize (@nil (option Z)); induction cs as [|c cs IH]; intros log; csimpl.
  - by rewrite app_nil_r.
  - rewrite app_assoc, <-IH; f_equal; destruct c; simpl;
      auto using Put_log, PutBytes_log, Skip_log, LE_EndianPut_log, BE_EndianPut_log.
Qed.

(** *** Counts of 64 bits *)

Lemma Zltb_of_nat (m n : nat) : (Z.of_nat m <? Z.of_nat n) = (m <? n)%nat.
Proof. repeat bcase; lia. Qed.

(** Unlike an update of a list, [mem_write] past the end would change the length. *)
Lemma mem_write_insert n c (b : bytes) : (n < length b)%nat -> mem_write n [c] b = <[n := c]> b.
Proof. intros H; unfold mem_write; cbn [length]; by rewrite insert_take_drop, Nat.add_1_r. Qed.

Lemma sized_Put w c : Z.of_nat (mNeeded w) + 1 < 2 ^ 64 ->
  BufferWriter.Put (sized w) c = sized (Put w c).
Proof.
  intros H; unfold BufferWriter.Put, sized, BufferWriter.Size, Put, Size; cbn [BufferWriter.mNeeded BufferWriter.mBuf wBuf mNeeded].
  rewrite wrap_small, Nat2Z.id, Zltb_of_nat by (unfold is_uint; lia); f_equal; [|lia].
  bcase; [by rewrite mem_write_insert|done].
Qed.

Lemma sized_Skip w n : Z.of_nat (mNeeded w) + Z.of_nat n < 2 ^ 64 ->
  BufferWriter.Skip (sized w) (Z.of_nat n) = sized (Writer_Skip w n).
Proof.
  intros H; unfold BufferWriter.Skip, sized, Writer_Skip; cbn [BufferWriter.mNeeded BufferWriter.mBuf wBuf mNeeded].
  rewrite wrap_small by (unfold is_uint; lia); f_equal; lia.
Qed.

Lemma sized_Available w : BufferWriter.Available (sized w) = Z.of_nat (Available w).
Proof.
  unfold BufferWriter.Available, sized, BufferWriter.Size, Available, Size; cbn [BufferWriter.mNeeded BufferWriter.mBuf].
  rewrite Zltb_of_nat; repeat bcase; lia.
Qed.

Lemma sized_PutBytes w d : Z.of_nat (mNeeded w) + Z.of_nat (length d) < 2 ^ 64 ->
  BufferWriter.PutBytes (sized w) d = sized (PutBytes w d).
Proof.
  intros H; unfold BufferWriter.PutBytes, PutBytes; rewrite sized_Available; unfold sized.
  cbn [BufferWriter.mNeeded BufferWriter.mBuf wBuf mNeeded].
  change (0 <? Z.of_nat ?n) with (Z.of_nat 0 <? Z.of_nat n).
  rewrite wrap_small, !(Zltb_of_nat _ _), Nat2Z.id by (unfold is_uint; lia); f_equal; [|lia].
  by replace (Z.to_nat (if (Available w <? length d)%nat then _ else _))
    with (if (Available w <? length d)%nat then Available w else length d) by (repeat bcase; lia).
Qed.

Lemma sized_LE w x n : Z.of_nat (mNeeded w) + Z.of_nat n < 2 ^ 64 ->
  BufferWriter.LE_EndianPut (sized w) x n = sized (LE_EndianPut w x n).
Proof.
  revert w x; induction n as [|n IH]; intros w x H; cbn [BufferWriter.LE_EndianPut LE_EndianPut]; [done|].
  rewrite sized_Put by lia; apply IH; cbn [Put mNeeded]; lia.
Qed.
Lemma sized_BE w x n : Z.of_nat (mNeeded w) + Z.of_nat n < 2 ^ 64 ->
  BufferWriter.BE_EndianPut (sized w) x n = sized (BE_EndianPut w x n).
Proof.
  revert w; induction n as [|n IH]; intros w H; cbn [BufferWriter.BE_EndianPut BE_EndianPut]; [done|].
  rewrite sized_Put by lia; apply IH; cbn [Put mNeeded]; lia.
Qed.

Definition call_length (c : put_call) : nat :=
  match c with CallPut _ => 1 | CallPutBytes d => length d | CallSkip n | CallPutLE _ n | CallPutBE _ n => n end.
Lemma length_log_of_call c : length (log_of_call c) = call_length c.
Proof. destruct c; cbn [log_of_call call_length]; rewrite ?length_fmap, ?length_replicate, ?length_reverse, ?length_le_split; done. Qed.

Lemma sized_call w c : Z.of_nat (mNeeded w) + Z.of_nat (call_length c) < 2 ^ 64 ->
  BufferWriter.run_call (sized w) c = sized (run_call w c).
Proof.
  destruct c; intros H; cbn [run_call BufferWriter.run_call call_length] in *.
  - apply sized_Put; lia.
  - by apply sized_PutBytes.
  - by apply sized_Skip.
  - by apply sized_LE.
  - by apply sized_BE.
Qed.

Lemma sized_calls b cs : Z.of_nat (length (concat (log_of_call <$> cs))) < 2 ^ 64 ->
  foldl BufferWriter.run_call (BufferWriter.new b) cs = sized (foldl run_call (Writer_new b) cs).
Proof.
  induction cs as [|c cs IH] using rev_ind; [done|].
  rewrite fmap_app, concat_app, length_app, !foldl_app; cbn [foldl fmap list_fmap concat].
  rewrite app_nil_r, length_log_of_call; intros H; rewrite IH by lia; apply sized_call.
  rewrite run_calls_log; cbn [writer_of mNeeded]; lia.
Qed.

(** Whether the count wraps around or not: it is right modulo 2^64, and the buffer stays
    where it is. *)
Definition counts (n : nat) (w w' : BufferWriter.t) : Prop :=
  length (BufferWriter.mBuf w') = length (BufferWriter.mBuf w) /\
  BufferWriter.mNeeded w' = BufferWriter.mNeeded w +{64} Z.of_nat n.

Lemma counts_refl w : is_uint 64 (BufferWriter.mNeeded w) -> counts 0 w w.
Proof. intros H; split; [done|]; rewrite Z.add_0_r; by rewrite wrap_small. Qed.
Lemma counts_uint n w w' : counts n w w' -> is_uint 64 (BufferWriter.mNeeded w').
Proof. intros [_ ->]; by apply wrap_range. Qed.
Lemma counts_trans m n w w' w'' : counts m w w' -> counts n w' w'' -> counts (m + n) w w''.
Proof.
  intros [L1 N1] [L2 N2]; split; [congruence|]; rewrite N2, N1, wrap_add_l; f_equal; lia.
Qed.

Lemma counts_Put w c : is_uint 64 (BufferWriter.mNeeded w) -> counts 1 w (BufferWriter.Put w c).
Proof.
  unfold is_uint; intros H; split; [|done]; unfold BufferWriter.Put, BufferWriter.Size; cbn [BufferWriter.mBuf].
  destruct (Z.ltb_spec (BufferWriter.mNeeded w) (Z.of_nat (length (BufferWriter.mBuf w)))); [|done].
  by rewrite mem_write_insert, length_insert by lia.
Qed.

Lemma counts_PutBytes w d : is_uint 64 (BufferWriter.mNeeded w) -> counts (length d) w (BufferWriter.PutBytes w d).
Proof.
  intros H; split; [|done]; unfold BufferWriter.PutBytes, BufferWriter.Available, BufferWriter.Size.
  cbn [BufferWriter.mBuf]; unfold is_uint in H; set (n := BufferWriter.mNeeded w) in *; set (b := BufferWriter.mBuf w).
  destruct ((0 <? _) && _) eqn:E; [|done]; apply andb_true_iff in E as [E _]; apply Z.ltb_lt in E; revert E; repeat bcase; intros E;
    try lia; unfold mem_write; rewrite !length_app, length_drop, !length_take; lia.
Qed.

Lemma counts_LE w x n : is_uint 64 (BufferWriter.mNeeded w) -> counts n w (BufferWriter.LE_EndianPut w x n).
Proof.
  revert w x; induction n as [|n IH]; intros w x H; [by apply counts_refl|].
  pose proof (counts_Put w (Z.land x 255) H) as HP; apply (counts_trans 1 n _ _ _ HP), IH; by eapply counts_uint.
Qed.
Lemma counts_BE w x n : is_uint 64 (BufferWriter.mNeeded w) -> counts n w (BufferWriter.BE_EndianPut w x n).
Proof.
  revert w; induction n as [|n IH]; intros w H; [by apply counts_refl|]; cbn [BufferWriter.BE_EndianPut].
  pose proof (counts_Put w (Z.land (Z.shiftr x (Z.of_nat n * 8)) 255) H) as HP.
  apply (counts_trans 1 n _ _ _ HP), IH; by eapply counts_uint.
Qed.

Lemma counts_call w c : is_uint 64 (BufferWriter.mNeeded w) -> counts (call_length c) w (BufferWriter.run_call w c).
Proof.
  intros H; destruct c; cbn [BufferWriter.run_call call_length];
    [by apply counts_Put|by apply counts_PutBytes|done|by apply counts_LE|by apply counts_BE].
Qed.

Lemma counts_calls b cs :
  counts (length (concat (log_of_call <$> cs))) (BufferWriter.new b) (foldl BufferWriter.run_call (BufferWriter.new b) cs).
Proof.
  induction cs as [|c cs IH] using rev_ind; [by apply counts_refl|].
  rewrite fmap_app, concat_app, length_app, foldl_app; cbn [foldl fmap list_fmap concat].
  rewrite app_nil_r, length_log_of_call; eapply counts_trans; [exact IH|]; apply counts_call; by eapply counts_uint.
Qed.

(** C39: A [BufferWriter] implements its log.  Whatever is called on a fresh buffer, no
    byte outside it is written and [Needed] is the length of the log modulo 2^64, the width
    of [size_t].  While less than 2^64 bytes were counted, the buffer is the old content
    overlaid with exactly the octets put (in the byte order of each call), bytes past the
    end are dropped but counted, and [Available] and [Fit] are those of the log; a [Skip]
    that takes the count past 2^64 makes [Fit] true again ([skip_wraps_around]). *)
Theorem writer_refines_log (b : bytes) (cs : list put_call) (log : list (option Z)) (w : BufferWriter.t) :
  log = concat (log_of_call <$> cs) -> w = foldl BufferWriter.run_call (BufferWriter.new b) cs ->
  length (BufferWriter.mBuf w) = length b /\ BufferWriter.Needed w = Z.of_nat (length log) mod 2 ^ 64 /\
  (Z.of_nat (length log) < 2 ^ 64 ->
    BufferWriter.mBuf w = overlay log b /\
    BufferWriter.Available w = Z.of_nat (length b - length log) /\
    BufferWriter.FitWritten w =
      (bool_decide (length log <= length b)%nat, Z.of_nat (Nat.min (length log) (length b)))).
Proof.
  intros -> ->; destruct (counts_calls b cs) as [Hl Hn]; split_and!; [exact Hl|exact Hn|]; intros H.
  rewrite (sized_calls b cs H), run_calls_log; set (log := concat _) in *; split_and!; [done|..].
  - rewrite sized_Available; unfold Available, writer_of, Size; cbn [wBuf mNeeded]; rewrite length_overlay; repeat bcase; lia.
  - unfold BufferWriter.FitWritten, sized, BufferWriter.Size, writer_of; cbn [BufferWriter.mBuf BufferWriter.mNeeded wBuf mNeeded].
    rewrite length_overlay; case_bool_decide; repeat bcase; f_equal; lia.
Qed.

Lemma writer_refines_log_witness :
  let w := foldl BufferWriter.run_call (BufferWriter.new [0; 0; 0]) [CallPutLE 258 2; CallSkip 2; CallPut 7] in
  BufferWriter.mBuf w = [2; 1; 0] /\ BufferWriter.FitWritten w = (false, 3).
Proof.
  destruct (writer_refines_log [0; 0; 0] [CallPutLE 258 2; CallSkip 2; CallPut 7] _ _ eq_refl eq_refl) as (_ & _ & H).
  destruct H as (H1 & _ & H2); [vm_compute; reflexivity|]; split; [exact H1|exact H2].
Defined.

(** Two bytes do not fit in one; after a [Skip] of 2^64 - 1 they seem to. *)
Lemma skip_wraps_around :
  let w := BufferWriter.Put (BufferWriter.Put (BufferWriter.new [0]) 1) 2 in
  BufferWriter.Fit w = false /\ BufferWriter.FitWritten (BufferWriter.Skip w (2 ^ 64 - 1)) = (true, 1).
Proof. by vm_compute. Qed.

(** *** Reading back what was written *)

Section RoundTrip.
Context `{ByteOrder}.

(** A message layout: the width in bytes and the value of each field. *)
Definition put_fields (w : Writer) (fs : list (nat * Z)) : Writer :=
  foldl (fun w '(n, v) => LE_EndianPut w v n) w fs.

Fixpoint read_fields (ns : list nat) : M Reader (list Z) :=
  match ns with
  | [] => ret []
  | n :: ns => let! v := rd n in let! vs := read_fields ns in ret (v :: vs)
  end.

Definition field_bytes (fs : list (nat * Z)) : bytes :=
  concat ((fun '(n, v) => le_split n v) <$> fs).

Lemma put_fields_log b log fs :
  put_fields (writer_of b log) fs = writer_of b (log ++ (Some <$> field_bytes fs)).
Proof.
  unfold put_fields; revert log; induction fs as [|[n v] fs IH]; intros; csimpl.
  - by rewrite app_nil_r.
  - rewrite LE_EndianPut_log, IH, <-app_assoc, <-fmap_app; done.
Qed.

Lemma read_fields_bytes fs r l :
  Reader_wf r -> mStatus r = CHIP_NO_ERROR ->
  Forall (fun '(n, v) => is_uint (8 * Z.of_nat n) v) fs ->
  rest r = field_bytes fs ++ l ->
  read_fields (fst <$> fs) r =
    (Ok (snd <$> fs), advance r (length (field_bytes fs))).
Proof.
  revert r; induction fs as [|[n v] fs IH]; intros r Hwf Hs Hf Hr; csimpl.
  - unfold ret, advance; rewrite Nat.add_0_r, Nat.sub_0_r; by destruct r.
  - apply Forall_cons_1 in Hf as [Hv Hf].
    unfold field_bytes in Hr; csimpl in Hr; rewrite <-app_assoc in Hr.
    destruct (rd_le_split n v r _ Hwf Hs Hv Hr) as (Hrd & Hr' & Hwf').
    rewrite (bind_ok _ _ _ _ _ Hrd), (bind_ok _ _ _ _ _ (IH _ Hwf' Hs Hf Hr')).
    unfold ret, advance, field_bytes; csimpl; rewrite length_app, length_le_split.
    do 2 f_equal; lia.
Qed.

(** Little-endian fields written with a [BufferWriter] into a buffer they
    fit come back unchanged, in order, from a [BufferReader] over it. *)
Theorem writer_reader_roundtrip b fs
    (Hrange : Forall (fun '(n, v) => is_uint (8 * Z.of_nat n) v) fs)
    (Hfit : Fit (put_fields (Writer_new b) fs) = true) :
  let w := put_fields (Writer_new b) fs in
  exists r, read_fields (fst <$> fs) (Reader_new (wBuf w)) = (Ok (snd <$> fs), r) /\
            OctetsRead r = Needed w.
Proof.
  intros w.
  assert (Hw : w = writer_of b (Some <$> field_bytes fs)).
  { subst w; change (Writer_new b) with (writer_of b []); apply put_fields_log. }
  subst w; rewrite Hw in *.
  unfold Fit, Size, writer_of in Hfit; cbn [wBuf mNeeded] in Hfit.
  rewrite length_overlay, length_fmap in Hfit; apply Nat.leb_le in Hfit.
  eexists; split.
  - apply read_fields_bytes with (l := drop (length (field_bytes fs)) b); auto.
    rewrite rest_new; cbn [wBuf writer_of]; by rewrite overlay_some, take_ge by lia.
  - unfold OctetsRead, Needed; simpl; by rewrite length_fmap.
Qed.

End RoundTrip.

Lemma writer_reader_roundtrip_witness :
  exists r,
    @read_fields reference_byte_order [1; 4; 2]%nat
      (Reader_new (wBuf (put_fields (Writer_new (replicate 8 0)) [(1%nat, 7); (4%nat, 305419896); (2%nat, 65535)])))
    = (Ok [7; 305419896; 65535], r) /\ OctetsRead r = 7%nat.
Proof.
  apply (@writer_reader_roundtrip reference_byte_order (replicate 8 0)
           [(1%nat, 7); (4%nat, 305419896); (2%nat, 65535)]).
  - repeat constructor; unfold is_uint; lia.
  - reflexivity.
Defined.
