(* ===== verification/PacketBuffer.v ===== *)
(** * PacketBuffer: chains of reference-counted network buffers

    Model of src/src/system/SystemPacketBuffer.{h,cpp} in its heap configuration
    (no LwIP, [CHIP_SYSTEM_PACKETBUFFER_FROM_CHIP_HEAP]).

    A buffer is its allocation [pMem] with the data start [pPayload] as an offset
    from [ReserveStart()]; a chain is the list of buffers linked by [next].
    [data] and [contents] are the abstract view: the octets a chain holds.
    Memory comes from the platform allocator, an interface ([PlatformMemory]). *)

From S2P Require Import Prelude Encoding.

(** ** Data *)

(** [struct pbuf]; [alloc_size] is the length of [pMem]. *)
Record PBuf := MkPBuf {
  pMem : bytes;
  pPayload : nat;
  pTotLen : nat;
  pLen : nat;
  pRef : nat }.

Abbreviation chain := (list PBuf).

(** [PacketBuffer::kStructureSize] on a 64-bit host. *)
Definition kStructureSize : nat := 48.
Definition kMaxSizeWithoutReserve : nat := 1583.
Definition kLargeBufMaxSizeWithoutReserve : nat := Z.to_nat 64000.
Definition kRightSizingThreshold : nat := 16.
Definition kDefaultHeaderReserve : nat := 38.

(** ** Accessors *)

Definition AllocSize (p : PBuf) : nat := length (pMem p).
Definition DataLength (p : PBuf) : nat := pLen p.
Definition TotalLength (p : PBuf) : nat := pTotLen p.

(** The offset of [Start()] converted to [uint16_t]. *)
Definition ReservedSize (p : PBuf) : nat := Z.to_nat (wrap 16 (Z.of_nat (pPayload p))).
Definition MaxDataLength (p : PBuf) : nat := AllocSize p - ReservedSize p.
Definition AvailableDataLength (p : PBuf) : nat := MaxDataLength p - DataLength p.
Definition HasSoleOwnership (p : PBuf) : bool := (pRef p =? 1)%nat.

(** ** Operations on one buffer *)

(** [SetStart(aNewStart)], the pointer given as its distance to [ReserveStart()],
    which is negative for a pointer before it. *)
Definition SetStart (p : PBuf) (aNewStart : Z) : PBuf :=
  let kStart := 0 in
  let kEnd := Z.of_nat (pPayload p) + Z.of_nat (MaxDataLength p) in
  let aNewStart :=
    if aNewStart <? kStart then kStart
    else if kEnd <? aNewStart then kEnd else aNewStart in
  let lDelta := aNewStart - Z.of_nat (pPayload p) in
  let lDelta :=
    if (0 <? lDelta) && (Z.of_nat (pLen p) <? lDelta) then Z.of_nat (pLen p) else lDelta in
  MkPBuf (pMem p) (Z.to_nat aNewStart) (Z.to_nat (Z.of_nat (pTotLen p) - lDelta))
         (Z.to_nat (Z.of_nat (pLen p) - lDelta)) (pRef p).

(** [SetDataLength(aNewLen, aChainHead)] on the buffer [p] of a chain: [before]
    are the buffers from [aChainHead] up to [p] (none for a null head). *)
Definition set_tot_len (p : PBuf) (n : nat) : PBuf :=
  MkPBuf (pMem p) (pPayload p) n (pLen p) (pRef p).
Definition add_tot_len (lDelta : Z) (p : PBuf) : PBuf :=
  set_tot_len p (Z.to_nat (Z.of_nat (pTotLen p) + lDelta)).
Definition SetDataLength (before : chain) (p : PBuf) (aNewLen : nat) : chain * PBuf :=
  let kMaxDataLen := MaxDataLength p in
  let aNewLen := if (kMaxDataLen <? aNewLen)%nat then kMaxDataLen else aNewLen in
  let lDelta := Z.of_nat aNewLen - Z.of_nat (pLen p) in
  (add_tot_len lDelta <$> before,
   MkPBuf (pMem p) (pPayload p) (Z.to_nat (Z.of_nat (pTotLen p) + lDelta)) aNewLen (pRef p)).

Definition ConsumeHead (p : PBuf) (aConsumeLength : nat) : PBuf :=
  let aConsumeLength :=
    if (pLen p <? aConsumeLength)%nat then pLen p else aConsumeLength in
  MkPBuf (pMem p) (pPayload p + aConsumeLength) (pTotLen p - aConsumeLength)
         (pLen p - aConsumeLength) (pRef p).

(** [memmove] of the data to another offset of the same block. *)
Definition move_data (p : PBuf) (to : nat) : PBuf :=
  MkPBuf (mem_write to (mem_read (pPayload p) (pLen p) (pMem p)) (pMem p)) to
         (pTotLen p) (pLen p) (pRef p).

Definition EnsureReservedSize (p : PBuf) (aReservedSize : nat) : bool * PBuf :=
  let kCurrentReservedSize := ReservedSize p in
  if (aReservedSize <=? kCurrentReservedSize)%nat then (true, p)
  else if (AllocSize p <? aReservedSize + pLen p)%nat then (false, p)
  else
    let kMoveLength := Z.to_nat (wrap 16 (Z.of_nat aReservedSize - Z.of_nat kCurrentReservedSize)) in
    (true, move_data p (pPayload p + kMoveLength)).

(** [base] is the address of [ReserveStart()]. *)
Definition AlignPayload (base : Z) (p : PBuf) (aAlignBytes : Z) : bool * PBuf :=
  if aAlignBytes =? 0 then (false, p)
  else
    let kPayloadOffset := wrap 16 ((base + Z.of_nat (pPayload p)) mod aAlignBytes) in
    if kPayloadOffset =? 0 then (true, p)
    else
      let kPayloadShift := wrap 16 (aAlignBytes - kPayloadOffset) in
      if 65535 <? Z.of_nat (ReservedSize p) + kPayloadShift then (false, p)
      else EnsureReservedSize p
             (Z.to_nat (wrap 16 (Z.of_nat (ReservedSize p) + kPayloadShift))).

(** ** Operations on chains *)

(** [VerifyOrDie]: [None] is an aborted program. *)
Definition AddRef (p : PBuf) : option PBuf :=
  if Z.of_nat (pRef p) <? 65535
  then Some (MkPBuf (pMem p) (pPayload p) (pTotLen p) (pLen p) (S (pRef p)))
  else None.

(** The buffers of the chain that stay alive after [Free]. *)
Fixpoint Free (c : chain) : option chain :=
  match c with
  | [] => Some []
  | p :: next =>
      if (pRef p =? 0)%nat then None
      else if (pRef p - 1 =? 0)%nat then Free next
      else Some (MkPBuf (pMem p) (pPayload p) (pTotLen p) (pLen p) (pRef p - 1) :: next)
  end.

(** The head is detached before it is freed, the rest of the chain is returned. *)
Definition FreeHead (c : chain) : option chain :=
  match c with
  | [] => None
  | p :: next => _ ← Free [p]; Some next
  end.

(** [size_t] sum. *)
Definition size_add (a b : nat) : nat := Z.to_nat (wrap 64 (Z.of_nat a + Z.of_nat b)).

Fixpoint AddToEnd (c : chain) (aPacket : chain) : option chain :=
  match c, aPacket with
  | lCursor :: next, q :: _ =>
      let new_total := size_add (pTotLen lCursor) (pTotLen q) in
      if (pTotLen lCursor <=? new_total)%nat then
        match next with
        | [] => Some (set_tot_len lCursor new_total :: aPacket)
        | _ => next' ← AddToEnd next aPacket;
               Some (set_tot_len lCursor new_total :: next')
        end
      else None
  | _, _ => None
  end.

(** The loop of [CompactHead].  When the next buffer is not emptied, all of
    [lAvailLength] was moved and the loop ends. *)
Fixpoint CompactHead_loop (p : PBuf) (lAvailLength : nat) (next : chain) : option chain :=
  match next with
  | [] => Some [p]
  | lNextPacket :: rest =>
      if (lAvailLength =? 0)%nat then Some (p :: next)
      else if negb (HasSoleOwnership lNextPacket) then None
      else
        let lMoveLength :=
          if (lAvailLength <? pLen lNextPacket)%nat then lAvailLength else pLen lNextPacket in
        let moved := mem_read (pPayload lNextPacket) lMoveLength (pMem lNextPacket) in
        let p := MkPBuf (mem_write (pPayload p + pLen p) moved (pMem p)) (pPayload p)
                        (pTotLen p) (pLen p + lMoveLength) (pRef p) in
        let lNextPacket :=
          MkPBuf (pMem lNextPacket) (pPayload lNextPacket + lMoveLength)
                 (pTotLen lNextPacket - lMoveLength) (pLen lNextPacket - lMoveLength)
                 (pRef lNextPacket) in
        if (pLen lNextPacket =? 0)%nat then
          _ ← FreeHead (lNextPacket :: rest);
          CompactHead_loop p (lAvailLength - lMoveLength) rest
        else Some (p :: lNextPacket :: rest)
  end.

Definition CompactHead (c : chain) : option chain :=
  match c with
  | [] => None
  | p :: next =>
      let p := if (pPayload p =? 0)%nat then p else move_data p 0 in
      CompactHead_loop p (AvailableDataLength p) next
  end.

Fixpoint Consume (c : chain) (aConsumeLength : nat) : option chain :=
  match c with
  | [] => Some []
  | lPacket :: next =>
      if (aConsumeLength =? 0)%nat then Some c
      else
        let kLength := DataLength lPacket in
        if (kLength <=? aConsumeLength)%nat then
          _ ← FreeHead c; Consume next (aConsumeLength - kLength)
        else Some (ConsumeHead lPacket aConsumeLength :: next)
  end.

(** The loop of [Read]; the octets copied to [aDestination]. *)
Fixpoint Read_loop (c : chain) (aReadLength : nat) : result bytes :=
  match c with
  | [] => if (aReadLength =? 0)%nat then Ok [] else Err CHIP_ERROR_INTERNAL
  | lPacket :: next =>
      if (aReadLength =? 0)%nat then Ok []
      else
        let n := if (aReadLength <? DataLength lPacket)%nat then aReadLength else DataLength lPacket in
        match Read_loop next (aReadLength - n) with
        | Ok d => Ok (mem_read (pPayload lPacket) n (pMem lPacket) ++ d)
        | Err e => Err e
        end
  end.

Definition Read (c : chain) (aReadLength : nat) : result bytes :=
  match c with
  | [] => Err CHIP_ERROR_INTERNAL
  | p :: _ =>
      if (TotalLength p <? aReadLength)%nat then Err CHIP_ERROR_BUFFER_TOO_SMALL
      else Read_loop c aReadLength
  end.

(** The popped buffer and the rest of the chain. *)
Definition PopHead (c : chain) : option (PBuf * chain) :=
  match c with
  | [] => None
  | head :: next => Some (set_tot_len head (pLen head), next)
  end.

(** ** Allocation *)

(** [chip::Platform::MemoryAlloc]: a block of the size asked for with arbitrary
    content, or null. *)
Class PlatformMemory := {
  heap : Type;
  MemoryAlloc : nat -> heap -> option bytes * heap;
  MemoryAlloc_size n h m h' : MemoryAlloc n h = (Some m, h') -> length m = n }.

Section Allocation.
Context `{PlatformMemory} (INET_CONFIG_ENABLE_TCP_ENDPOINT : bool).

Definition kMaxAllocSize : nat :=
  if INET_CONFIG_ENABLE_TCP_ENDPOINT then kLargeBufMaxSizeWithoutReserve
  else kMaxSizeWithoutReserve.

(** [CanCastTo<size_t>(sumOfSizes)] holds on a 64-bit host: the sum is at most
    [UINT32_MAX + 2 * UINT16_MAX]. *)
Definition New (aAvailableSize aReservedSize : nat) (h : heap) : option PBuf * heap :=
  if 4294967295 <? Z.of_nat aAvailableSize then (None, h)
  else
    let sumOfSizes := (aAvailableSize + aReservedSize + kStructureSize)%nat in
    let lAllocSize := (aAvailableSize + aReservedSize)%nat in
    if (kMaxAllocSize <? lAllocSize)%nat then (None, h)
    else
      let (blk, h) := MemoryAlloc sumOfSizes h in
      ((fun blk => MkPBuf (drop kStructureSize blk) aReservedSize 0 0 1) <$> blk, h).

(** The size asked for is a [size_t], so the sum wraps around; [memcpy] past the end of the
    buffer is undefined behaviour. *)
Definition NewWithData (aData : bytes) (aAdditionalSize aReservedSize : nat) : M heap (option PBuf) := fun h =>
  let (buffer, h) := New (Z.to_nat (Z.of_nat (length aData) +{64} Z.of_nat aAdditionalSize)) aReservedSize h in
  match buffer with
  | None => (Ok None, h)
  | Some p =>
      if (length (pMem p) <? pPayload p + length aData)%nat then (Err UNDEFINED_BEHAVIOUR, h)
      else (Ok (Some (MkPBuf (mem_write (pPayload p) aData (pMem p)) (pPayload p)
                        (length aData) (length aData) (pRef p))), h)
  end.

(** One round of the loop of [CloneData]: the clone of one buffer. *)
Definition CloneOne (original : PBuf) (h : heap) : option PBuf * heap :=
  let originalDataSize := MaxDataLength original in
  let originalReservedSize := ReservedSize original in
  let clone_of (originalDataSize : nat) : option PBuf * heap :=
    let (clone, h) := New originalDataSize originalReservedSize h in
    ((fun clone =>
        MkPBuf (mem_write 0 (mem_read 0 (originalDataSize + originalReservedSize) (pMem original))
                          (pMem clone))
               (pPayload clone) (pLen original) (pLen original) (pRef clone)) <$> clone, h) in
  if (kMaxAllocSize <? originalDataSize + originalReservedSize)%nat then
    if (kMaxAllocSize <? originalReservedSize + DataLength original)%nat then (None, h)
    else clone_of (kMaxAllocSize - originalReservedSize)%nat
  else clone_of originalDataSize.

(** Outer [None]: aborted by [AddToEnd]; inner [None]: the null handle. *)
Fixpoint CloneData_loop (c : chain) (cloneHead : chain) (h : heap)
    : option (option chain * heap) :=
  match c with
  | [] => Some (Some cloneHead, h)
  | original :: next =>
      match CloneOne original h with
      | (None, h) => Some (None, h)
      | (Some clone, h) =>
          match cloneHead with
          | [] => CloneData_loop next [clone] h
          | _ => cloneHead' ← AddToEnd cloneHead [clone]; CloneData_loop next cloneHead' h
          end
      end
  end.

Definition CloneData (c : chain) (h : heap) : option (option chain * heap) :=
  CloneData_loop c [] h.

(** [PacketBufferHandle::RightSize]. *)
Definition InternalRightSize (c : chain) (h : heap) : option chain * heap :=
  match c with
  | [p] =>
      if negb (pRef p =? 1)%nat then (Some c, h)
      else
        let usedSize := (pPayload p + pLen p)%nat in
        if (AllocSize p <? usedSize + kRightSizingThreshold)%nat then (Some c, h)
        else
          match MemoryAlloc (usedSize + kStructureSize) h with
          | (None, h) => (Some c, h)
          | (Some blk, h) =>
              let newBuffer :=
                MkPBuf (mem_write 0 (mem_read 0 usedSize (pMem p)) (drop kStructureSize blk))
                       (pPayload p) (pTotLen p) (pLen p) 1 in
              (_ ← Free [p]; Some [newBuffer], h)
          end
  | _ => (Some c, h)
  end.

End Allocation.

(** ** PacketBufferWriter *)

(** A [BufferWriter] over the free space of [mPacket], of at most [aSize] octets
    when a size is given. *)
Record PacketBufferWriter := MkPacketBufferWriter {
  pbwWriter : Writer;
  mPacket : PBuf }.

Definition PacketBufferWriter_new (aPacket : PBuf) (aSize : option nat) : PacketBufferWriter :=
  let size :=
    match aSize with
    | None => AvailableDataLength aPacket
    | Some n => Nat.min n (AvailableDataLength aPacket)
    end in
  MkPacketBufferWriter
    (Writer_new (mem_read (pPayload aPacket + DataLength aPacket) size (pMem aPacket))) aPacket.

(** What the writer put is in the packet's memory; [Finalize] sets the length. *)
Definition Finalize (w : PacketBufferWriter) : option PBuf :=
  let p := mPacket w in
  let p := MkPBuf (mem_write (pPayload p + DataLength p) (wBuf (pbwWriter w)) (pMem p))
                  (pPayload p) (pTotLen p) (pLen p) (pRef p) in
  if Fit (pbwWriter w) then Some (snd (SetDataLength [] p (Needed (pbwWriter w)))) else None.

(** ** Abstract view *)

Definition data (p : PBuf) : bytes := mem_read (pPayload p) (pLen p) (pMem p).
Definition contents (c : chain) : bytes := concat (data <$> c).

(** The data lies in the allocation, whose size the 16-bit header size covers. *)
Record pbuf_ok (p : PBuf) : Prop := {
  pbuf_fits : (pPayload p + pLen p <= AllocSize p)%nat;
  pbuf_alloc : Z.of_nat (AllocSize p) < 65536;
  pbuf_ref : (1 <= pRef p)%nat }.

(** The total length of each buffer is what the chain holds from there on, and
    the chain owns the buffers after its head. *)
Fixpoint chain_ok (c : chain) : Prop :=
  match c with
  | [] => True
  | p :: next =>
      pbuf_ok p /\ pTotLen p = length (contents c) /\
      Forall (fun q => pRef q = 1%nat) next /\ chain_ok next
  end.

Lemma chain_ok_cons p next :
  chain_ok (p :: next) <->
  pbuf_ok p /\ pTotLen p = length (contents (p :: next)) /\
  Forall (fun q => pRef q = 1%nat) next /\ chain_ok next.
Proof. done. Qed.

(** Where the data of a buffer lies. *)
Definition layout (p : PBuf) : nat * nat := (ReservedSize p, DataLength p).

Lemma length_data p : pbuf_ok p -> length (data p) = pLen p.
Proof. intros []; unfold AllocSize in *; by apply length_mem_read. Qed.

Lemma contents_cons p c : contents (p :: c) = data p ++ contents c.
Proof. done. Qed.

Lemma contents_app c d : contents (c ++ d) = contents c ++ contents d.
Proof. unfold contents; by rewrite fmap_app, concat_app. Qed.

Lemma ReservedSize_ok p : pbuf_ok p -> ReservedSize p = pPayload p.
Proof.
  intros []; unfold ReservedSize; rewrite wrap_small by (unfold is_uint; lia); lia.
Qed.

Lemma MaxDataLength_ok p :
  pbuf_ok p -> (MaxDataLength p + pPayload p = AllocSize p)%nat.
Proof.
  intros Hp; unfold MaxDataLength; rewrite ReservedSize_ok by done.
  destruct Hp; lia.
Qed.

Lemma size_add_small a b :
  Z.of_nat (a + b) < 2 ^ 64 -> size_add a b = (a + b)%nat.
Proof. intros; unfold size_add; rewrite wrap_small by (unfold is_uint; lia); lia. Qed.

(** [pbuf_ok] with another view of the same allocation. *)
Lemma pbuf_ok_view p off tot len :
  pbuf_ok p -> (off + len <= AllocSize p)%nat ->
  pbuf_ok (MkPBuf (pMem p) off tot len (pRef p)).
Proof. intros []; by constructor. Qed.

(** ** One buffer *)

Lemma ConsumeHead_ok p n :
  pbuf_ok p -> (n <= pLen p)%nat ->
  pbuf_ok (ConsumeHead p n) /\ data (ConsumeHead p n) = drop n (data p).
Proof.
  intros Hp Hn; unfold ConsumeHead; bcase; [lia|]; split.
  - apply pbuf_ok_view; [done|]; destruct Hp; lia.
  - unfold data, mem_read; simpl; by rewrite skipn_firstn_comm, drop_drop.
Qed.

Lemma move_data_ok p to :
  pbuf_ok p -> (to + pLen p <= AllocSize p)%nat ->
  pbuf_ok (move_data p to) /\ data (move_data p to) = data p /\
  AllocSize (move_data p to) = AllocSize p.
Proof.
  intros Hp Hto; pose proof (length_data p Hp) as Hd.
  assert (Hl : (to + length (data p) <= length (pMem p))%nat) by (unfold AllocSize in *; lia).
  assert (AllocSize (move_data p to) = AllocSize p) as Ha by (by apply length_mem_write).
  split_and!; [constructor; [by rewrite Ha|rewrite Ha; apply Hp|apply Hp]| |done].
  unfold data at 1; simpl; fold (data p); rewrite <-Hd.
  by apply mem_read_write_same.
Qed.

Lemma EnsureReservedSize_spec p n :
  pbuf_ok p -> Z.of_nat n < 65536 ->
  if (Nat.max n (pPayload p) + pLen p <=? AllocSize p)%nat
  then exists p', EnsureReservedSize p n = (true, p') /\ pbuf_ok p' /\ data p' = data p /\
         pPayload p' = Nat.max n (pPayload p) /\ pLen p' = pLen p /\
         pTotLen p' = pTotLen p /\ pRef p' = pRef p /\ AllocSize p' = AllocSize p
  else EnsureReservedSize p n = (false, p).
Proof.
  intros Hp Hn; unfold EnsureReservedSize; rewrite ReservedSize_ok by done.
  pose proof (pbuf_fits p Hp); pose proof (pbuf_alloc p Hp).
  destruct (Nat.leb_spec n (pPayload p)).
  { replace (Nat.max n (pPayload p)) with (pPayload p) by lia; bcase; [|lia].
    by eauto 10. }
  replace (Nat.max n (pPayload p)) with n by lia.
  destruct (Nat.ltb_spec (AllocSize p) (n + pLen p)); bcase; try lia; [done|].
  rewrite wrap_small by (unfold is_uint; lia).
  replace (pPayload p + Z.to_nat _)%nat with n by lia.
  destruct (move_data_ok p n Hp) as (? & ? & ?); [lia|]; eauto 10.
Qed.

(** [SetStart] inside the data strips octets, before it exposes reserved ones. *)
Lemma SetStart_spec p (off : nat) :
  pbuf_ok p -> (pLen p <= pTotLen p)%nat -> (off <= pPayload p + pLen p)%nat ->
  let p' := SetStart p (Z.of_nat off) in
  pbuf_ok p' /\ pPayload p' = off /\ (pPayload p' + pLen p' = pPayload p + pLen p)%nat /\
  (pTotLen p' + pLen p = pTotLen p + pLen p')%nat /\ pMem p' = pMem p /\ pRef p' = pRef p.
Proof.
  intros Hp Ht Ho; pose proof (MaxDataLength_ok p Hp); pose proof (pbuf_fits p Hp).
  unfold SetStart.
  destruct (Z.ltb_spec (Z.of_nat off) 0); [lia|].
  destruct (Z.ltb_spec (Z.of_nat (pPayload p) + Z.of_nat (MaxDataLength p)) (Z.of_nat off)); [lia|].
  destruct (Z.ltb_spec 0 (Z.of_nat off - Z.of_nat (pPayload p)));
    destruct (Z.ltb_spec (Z.of_nat (pLen p)) (Z.of_nat off - Z.of_nat (pPayload p))); try lia; cbn [andb].
  all: rewrite Nat2Z.id; split; [apply pbuf_ok_view; [done|lia]|simpl; split_and!; try done; lia].
Qed.

Lemma SetDataLength_spec p n :
  pbuf_ok p -> (pLen p <= pTotLen p)%nat ->
  let p' := snd (SetDataLength [] p n) in
  pbuf_ok p' /\ pPayload p' = pPayload p /\ pLen p' = Nat.min n (MaxDataLength p) /\
  (pTotLen p' + pLen p = pTotLen p + pLen p')%nat /\ pMem p' = pMem p /\ pRef p' = pRef p.
Proof.
  intros Hp Ht; pose proof (MaxDataLength_ok p Hp).
  unfold SetDataLength; simpl.
  destruct (Nat.ltb_spec (MaxDataLength p) n); (split; [apply pbuf_ok_view; [done|lia]|]);
    split_and!; simpl; try done; lia.
Qed.

(** ** Chains *)

Lemma chain_ok_tot_len p next : chain_ok (p :: next) -> (pLen p <= pTotLen p)%nat.
Proof.
  intros (Hp & Ht & _); rewrite Ht, contents_cons, length_app, length_data by done; lia.
Qed.

Lemma FreeHead_ok p c : (1 <= pRef p)%nat -> FreeHead (p :: c) = Some c.
Proof. intros; simpl; do 2 (bcase; try lia); done. Qed.

Lemma Consume_ok c n :
  chain_ok c ->
  exists c', Consume c n = Some c' /\ chain_ok c' /\ contents c' = drop n (contents c).
Proof.
  revert n; induction c as [|p next IH]; intros n Hc; cbn [Consume].
  { exists []; split_and!; [done..|by destruct n]. }
  pose proof Hc as (Hp & Ht & Hf & Hn).
  destruct (Nat.eqb_spec n 0) as [->|]; [by eauto|].
  pose proof (length_data p Hp) as Hd; unfold DataLength; rewrite contents_cons.
  destruct (Nat.leb_spec (pLen p) n).
  - rewrite (FreeHead_ok p next) by apply Hp; cbn [mbind option_bind].
    destruct (IH (n - pLen p)%nat Hn) as (c' & -> & Hc' & Hcc).
    exists c'; split_and!; [done|done|]; rewrite drop_app_ge by lia; congruence.
  - destruct (ConsumeHead_ok p n Hp) as [Hp' Hd']; [lia|].
    eexists; split_and!; [done| |rewrite contents_cons, drop_app_le by lia; congruence].
    simpl; split_and!; auto.
    rewrite contents_cons, Hd', length_app, length_drop, Hd.
    unfold ConsumeHead; bcase; [lia|]; simpl.
    rewrite Ht, contents_cons, length_app, Hd; lia.
Qed.

Lemma AddToEnd_ok c q :
  c <> [] -> q <> [] -> chain_ok c -> chain_ok q -> Forall (fun p => pRef p = 1%nat) q ->
  Z.of_nat (length (contents c) + length (contents q)) < 2 ^ 64 ->
  exists c', AddToEnd c q = Some c' /\ chain_ok c' /\ contents c' = contents c ++ contents q /\
    (Forall (fun p => pRef p = 1%nat) c -> Forall (fun p => pRef p = 1%nat) c') /\
    layout <$> c' = (layout <$> c) ++ (layout <$> q).
Proof.
  intros Hc Hq Hcok Hqok Hqr; induction c as [|p next IH]; intros Hsz; [done|]; clear Hc.
  destruct q as [|q0 q]; [done|]; simpl AddToEnd.
  destruct Hcok as (Hp & Ht & Hf & Hn).
  pose proof Hqok as (_ & Htq & _).
  rewrite Ht, Htq, size_add_small by done; bcase; [|lia].
  assert (Hp' : forall n, pbuf_ok (set_tot_len p n)).
  { intros; apply pbuf_ok_view; [done|apply Hp]. }
  rewrite contents_cons, length_app in Hsz.
  destruct next as [|p1 next].
  - exists (set_tot_len p (length (contents [p]) + length (contents (q0 :: q))) :: q0 :: q).
    split_and!; [done| | |intros [? ?]%Forall_cons_1; by constructor|done].
    + apply chain_ok_cons; split_and!; [apply Hp'| |done|done].
      rewrite !contents_cons, !length_app; simpl; unfold data; simpl; lia.
    + unfold contents; simpl; by rewrite app_nil_r.
  - destruct IH as (c' & -> & Hc' & Hcc & Hr & Hl); [done|done|unfold contents in *; simpl in *; lia|].
    eexists; split_and!; [done| | |intros [? ?]%Forall_cons_1; constructor; auto|].
    + apply chain_ok_cons; split_and!; auto.
      rewrite (contents_cons (set_tot_len _ _)), Hcc, (contents_cons p), !length_app.
      unfold data; simpl; lia.
    + rewrite (contents_cons (set_tot_len _ _)), Hcc, (contents_cons p), app_assoc; done.
    + rewrite fmap_cons, Hl; done.
Qed.

(** Octets stored right after the data extend it. *)
Lemma fill_ok p d n tot :
  pbuf_ok p -> length d = n -> (pPayload p + pLen p + n <= AllocSize p)%nat ->
  let p' := MkPBuf (mem_write (pPayload p + pLen p) d (pMem p)) (pPayload p) tot
                   (pLen p + n) (pRef p) in
  pbuf_ok p' /\ data p' = data p ++ d /\ AllocSize p' = AllocSize p.
Proof.
  intros Hp <- Hn p'.
  assert (AllocSize p' = AllocSize p) as Ha by (apply length_mem_write; unfold AllocSize in *; lia).
  split_and!; [constructor; rewrite ?Ha; [simpl; lia|apply Hp|apply Hp]| |done].
  unfold data; simpl; rewrite mem_read_app; unfold AllocSize in *; f_equal.
  - apply mem_read_write_before; lia.
  - apply mem_read_write_same; lia.
Qed.

Definition compacted (p : PBuf) (c : chain) : Prop :=
  exists p' next', c = p' :: next' /\ pPayload p' = pPayload p /\ AllocSize p' = AllocSize p /\
    (next' = [] \/ AvailableDataLength p' = 0%nat).

Lemma AvailableDataLength_ok p :
  pbuf_ok p -> (pPayload p + pLen p + AvailableDataLength p = AllocSize p)%nat.
Proof.
  intros Hp; pose proof (MaxDataLength_ok p Hp); pose proof (pbuf_fits p Hp).
  unfold AvailableDataLength, DataLength; lia.
Qed.

Lemma CompactHead_loop_ok next p avail :
  chain_ok (p :: next) -> avail = AvailableDataLength p ->
  exists c', CompactHead_loop p avail next = Some c' /\ chain_ok c' /\
    contents c' = contents (p :: next) /\ compacted p c'.
Proof.
  revert p avail; induction next as [|q rest IH]; intros p avail Hc ->; cbn [CompactHead_loop].
  { exists [p]; unfold compacted; eauto 10. }
  pose proof Hc as (Hp & Ht & (Hqr & Hrr)%Forall_cons_1 & Hn).
  pose proof Hn as (Hq & Htq & _ & Hrest).
  pose proof (AvailableDataLength_ok p Hp); pose proof (pbuf_fits q Hq) as Hqf.
  pose proof (length_data q Hq) as Hdq.
  destruct (Nat.eqb_spec (AvailableDataLength p) 0) as [H0|H0].
  { eexists; split_and!; [done..|]; unfold compacted; eauto 10. }
  unfold HasSoleOwnership; rewrite Hqr; cbn [Nat.eqb negb pLen].
  rewrite !contents_cons, !length_app in Ht; rewrite contents_cons, length_app in Htq.
  set (n := if (AvailableDataLength p <? pLen q)%nat then AvailableDataLength p else pLen q).
  assert (Hnn : n = Nat.min (AvailableDataLength p) (pLen q)) by (unfold n; bcase; lia).
  rewrite Hnn; clearbody n; clear n Hnn; set (n := Nat.min _ _).
  assert (Hmoved : mem_read (pPayload q) n (pMem q) = take n (data q)).
  { unfold data, mem_read; rewrite take_take; f_equal; lia. }
  rewrite Hmoved.
  destruct (fill_ok p (take n (data q)) n (pTotLen p) Hp) as (Hp' & Hd' & Ha'); [len|lia|].
  set (p' := MkPBuf _ (pPayload p) _ _ _) in *.
  pose proof (AvailableDataLength_ok p' Hp').
  assert (pPayload p' = pPayload p /\ pLen p' = pLen p + n /\ pTotLen p' = pTotLen p)%nat
    as (Hpp & Hpl & Hpt) by done.
  destruct (Nat.eqb_spec (pLen q - n) 0).
  - rewrite FreeHead_ok by (simpl; lia); cbn [mbind option_bind].
    assert (data q = take n (data q)) as Hdall by (rewrite take_ge; [done|lia]).
    destruct (IH p' (AvailableDataLength p - n)%nat) as (c' & -> & Hc' & Hcc & Hcm).
    + apply chain_ok_cons; split_and!; [done| |done|done].
      rewrite contents_cons, Hd', <-Hdall, !length_app; lia.
    + lia.
    + exists c'; split_and!; [done|done| |].
      * by rewrite Hcc, !contents_cons, Hd', <-Hdall, app_assoc.
      * destruct Hcm as (p1 & n1 & -> & ? & ? & ?); exists p1, n1.
        split_and!; [done|done|congruence|done].
  - set (q' := MkPBuf (pMem q) _ _ _ _).
    assert (Hdq' : data q' = drop n (data q)).
    { unfold data, mem_read; simpl; by rewrite skipn_firstn_comm, drop_drop. }
    eexists; split_and!; [done| | |].
    + apply chain_ok_cons; split_and!; [done| |constructor; done|].
      * rewrite !contents_cons, Hd', Hdq', <-app_assoc, (app_assoc (take _ _)), take_drop; len.
      * apply chain_ok_cons; split_and!; [|rewrite contents_cons, Hdq'; simpl; len|done|done].
        constructor; [change (AllocSize q') with (AllocSize q); simpl; lia|apply Hq|simpl; lia].
    + by rewrite !contents_cons, Hd', Hdq', <-app_assoc, (app_assoc (take _ _)), take_drop.
    + unfold compacted; eexists _, _; split_and!; [done|done|done|right; lia].
Qed.

Lemma CompactHead_ok p next :
  chain_ok (p :: next) ->
  exists c', CompactHead (p :: next) = Some c' /\ chain_ok c' /\
    contents c' = contents (p :: next) /\
    compacted (MkPBuf (pMem p) 0 (pTotLen p) (pLen p) (pRef p)) c'.
Proof.
  intros Hc; pose proof Hc as (Hp & Ht & Hf & Hn); unfold CompactHead.
  destruct (Nat.eqb_spec (pPayload p) 0) as [H0|H0].
  - destruct (CompactHead_loop_ok next p _ Hc eq_refl) as (c' & ? & ? & ? & Hcm).
    exists c'; split_and!; auto; by destruct p; simplify_eq/=.
  - destruct (move_data_ok p 0 Hp) as (Hp' & Hd' & Ha); [pose proof (pbuf_fits p Hp); lia|].
    destruct (CompactHead_loop_ok next (move_data p 0) (AvailableDataLength (move_data p 0)))
      as (c' & -> & Hc' & Hcc & Hcm); [|done|].
    + apply chain_ok_cons; split_and!; auto.
      by rewrite contents_cons, Hd', <-contents_cons.
    + exists c'; split_and!; auto; [by rewrite Hcc, !contents_cons, Hd'|].
      destruct Hcm as (p1 & n1 & -> & Hpp & Hal & ?); exists p1, n1; split_and!; auto.
      by rewrite Hal, Ha.
Qed.

Lemma Read_loop_ok c n :
  chain_ok c -> (n <= length (contents c))%nat -> Read_loop c n = Ok (take n (contents c)).
Proof.
  revert n; induction c as [|p next IH]; intros n Hc Hn; cbn [Read_loop].
  { unfold contents in *; simpl in *; bcase; [by destruct n|lia]. }
  destruct Hc as (Hp & _ & _ & Hnx); pose proof (length_data p Hp) as Hd.
  destruct (Nat.eqb_spec n 0) as [->|]; [done|].
  rewrite contents_cons, length_app in *; unfold DataLength.
  rewrite IH by (try done; bcase; lia).
  rewrite firstn_app, Hd; f_equal; destruct (Nat.ltb_spec n (pLen p)).
  - f_equal; [|f_equal; lia].
    unfold data, mem_read; rewrite take_take; f_equal; lia.
  - by rewrite (take_ge (data p)) by lia.
Qed.

(** ** A chain is a byte queue *)

(** [PacketBufferHandle::AddToEnd]: a null handle takes the packet. *)
Definition HandleAddToEnd (c aPacket : chain) : option chain :=
  match c with
  | [] => Some aPacket
  | _ => AddToEnd c aPacket
  end.

(** The calls of a client that tests the handle for null first. *)
Inductive chain_call :=
| CallAddToEnd (aPacket : chain)
| CallConsume (n : nat)
| CallCompactHead
| CallEnsureReservedSize (n : nat).

Definition run_chain_call (c : chain) (call : chain_call) : option chain :=
  match call, c with
  | CallAddToEnd aPacket, _ => HandleAddToEnd c aPacket
  | _, [] => Some []
  | CallConsume n, _ => Consume c n
  | CallCompactHead, _ => CompactHead c
  | CallEnsureReservedSize n, p :: next => Some (snd (EnsureReservedSize p n) :: next)
  end.

Fixpoint run_chain_calls (c : chain) (calls : list chain_call) : option chain :=
  match calls with
  | [] => Some c
  | call :: calls => c ← run_chain_call c call; run_chain_calls c calls
  end.

Definition queue_call (b : bytes) (call : chain_call) : bytes :=
  match call with
  | CallAddToEnd aPacket => b ++ contents aPacket
  | CallConsume n => drop n b
  | CallCompactHead | CallEnsureReservedSize _ => b
  end.

(** Packets handed over are well formed and owned by the caller alone. *)
Definition call_ok (call : chain_call) : Prop :=
  match call with
  | CallAddToEnd aPacket =>
      aPacket <> [] /\ chain_ok aPacket /\ Forall (fun p => pRef p = 1%nat) aPacket
  | CallEnsureReservedSize n => Z.of_nat n < 65536
  | _ => True
  end.

Definition added (call : chain_call) : Z :=
  match call with
  | CallAddToEnd aPacket => Z.of_nat (length (contents aPacket))
  | _ => 0
  end.

Lemma run_chain_call_ok c call :
  chain_ok c -> call_ok call -> Z.of_nat (length (contents c)) + added call < 2 ^ 64 ->
  exists c', run_chain_call c call = Some c' /\ chain_ok c' /\
             contents c' = queue_call (contents c) call.
Proof.
  intros Hc Hcall Hsz; destruct call as [q|n| |n]; cbn [run_chain_call queue_call added] in *.
  - destruct Hcall as (Hq & Hqok & Hqr).
    destruct c as [|p next]; [simpl; eauto|].
    destruct (AddToEnd_ok (p :: next) q) as (c' & ? & ? & ? & _); auto; [lia|eauto].
  - destruct c; [exists []; by destruct n|]; by apply Consume_ok.
  - destruct c as [|p next]; [by exists []|].
    destruct (CompactHead_ok p next Hc) as (c' & ? & ? & ? & _); eauto.
  - destruct c as [|p next]; [by exists []|].
    pose proof Hc as (Hp & Ht & Hf & Hn).
    pose proof (EnsureReservedSize_spec p n Hp Hcall) as Hs; destruct (Nat.leb _ _).
    + destruct Hs as (p' & -> & Hp' & Hd & _ & _ & Hpt & _); simpl snd; eexists; split_and!; [done| |].
      * apply chain_ok_cons; split_and!; auto; by rewrite Hpt, contents_cons, Hd.
      * by rewrite !contents_cons, Hd.
    + rewrite Hs; eauto.
Qed.

Lemma queue_call_length b call :
  Z.of_nat (length (queue_call b call)) <= Z.of_nat (length b) + added call.
Proof. destruct call; simpl; len. Qed.

Lemma added_nonneg call : 0 <= added call.
Proof. destruct call; simpl; lia. Qed.

(** C25: A packet-buffer chain is a byte queue.  Any sequence of [AddToEnd],
    [Consume], [CompactHead] and [EnsureReservedSize] calls runs without an
    abort, keeps the lengths and total lengths of all buffers consistent, and
    leaves exactly the octets the queue holds; a [Read] of any [n] octets gives
    the first [n] of them, or [CHIP_ERROR_BUFFER_TOO_SMALL] when there are fewer. *)
Theorem chain_refines_queue c calls
    (Hc : chain_ok c) (Hcalls : Forall call_ok calls)
    (Hsize : Z.of_nat (length (contents c)) + foldr Z.add 0 (added <$> calls) < 2 ^ 64) :
  exists c', run_chain_calls c calls = Some c' /\ chain_ok c' /\
    contents c' = foldl queue_call (contents c) calls /\
    forall n, c' <> [] ->
      Read c' n = if (n <=? length (contents c'))%nat then Ok (take n (contents c'))
                  else Err CHIP_ERROR_BUFFER_TOO_SMALL.
Proof.
  revert c Hc Hsize; induction Hcalls as [|call calls Hcall Hcalls IH]; intros c Hc Hsize.
  - exists c; split_and!; [done..|]; intros n Hne.
    destruct c as [|p next]; [done|]; pose proof Hc as (Hp & Ht & _).
    unfold Read, TotalLength; rewrite Ht; do 2 (bcase; try lia); auto using Read_loop_ok.
  - csimpl in Hsize; destruct (run_chain_call_ok c call Hc Hcall) as (c1 & Hr & Hc1 & Hcc).
    { assert (0 <= foldr Z.add 0 (added <$> calls)); [|lia].
      clear; induction calls as [|x l IH]; csimpl; [lia|pose proof (added_nonneg x); lia]. }
    cbn [run_chain_calls]; rewrite Hr; cbn [mbind option_bind].
    destruct (IH c1 Hc1) as (c' & ? & ? & ? & ?).
    { rewrite Hcc; pose proof (queue_call_length (contents c) call); lia. }
    exists c'; cbn [foldl]; rewrite <-Hcc; auto.
Qed.

Definition example_buffer : PBuf := MkPBuf [9; 9; 1; 2; 3; 0] 2 3 3 1.

Lemma example_buffer_ok n : pbuf_ok (set_tot_len example_buffer n).
Proof. constructor; vm_compute; try lia; congruence. Qed.

Lemma chain_refines_queue_witness :
  exists c', run_chain_calls [example_buffer]
      [CallAddToEnd [example_buffer]; CallConsume 2; CallCompactHead; CallEnsureReservedSize 2] = Some c' /\
    chain_ok c' /\ contents c' = [3; 1; 2; 3] /\
    forall n, c' <> [] ->
      Read c' n = if (n <=? length (contents c'))%nat then Ok (take n (contents c'))
                  else Err CHIP_ERROR_BUFFER_TOO_SMALL.
Proof.
  pose proof (example_buffer_ok 3) as Hok.
  apply (chain_refines_queue [example_buffer]
    [CallAddToEnd [example_buffer]; CallConsume 2; CallCompactHead; CallEnsureReservedSize 2]).
  - simpl; split_and!; auto.
  - repeat constructor; auto; done.
  - vm_compute; reflexivity.
Defined.

(** [CompactHead] moves the data to the front of the first buffer and pulls
    in data from the next ones: afterwards the first buffer has no reserved
    space left, and either it is full or it is the only one; no octet is lost. *)
Theorem compact_head_fills p next (Hc : chain_ok (p :: next)) :
  exists p' next', CompactHead (p :: next) = Some (p' :: next') /\
    chain_ok (p' :: next') /\ contents (p' :: next') = contents (p :: next) /\
    ReservedSize p' = 0%nat /\ AllocSize p' = AllocSize p /\
    (next' = [] \/ AvailableDataLength p' = 0%nat).
Proof.
  destruct (CompactHead_ok p next Hc) as (c' & Hr & Hok & Hcc & p' & next' & -> & Hpp & Ha & Hn).
  exists p', next'; split_and!; auto.
  rewrite ReservedSize_ok by apply Hok; done.
Qed.

Lemma compact_head_fills_witness :
  exists p' next',
    CompactHead [add_tot_len 3 example_buffer; example_buffer] = Some (p' :: next') /\
    chain_ok (p' :: next') /\
    contents (p' :: next') = contents [add_tot_len 3 example_buffer; example_buffer] /\
    ReservedSize p' = 0%nat /\ AllocSize p' = 6%nat /\
    (next' = [] \/ AvailableDataLength p' = 0%nat).
Proof.
  apply (compact_head_fills (add_tot_len 3 example_buffer) [example_buffer]).
  pose proof (example_buffer_ok 3); pose proof (example_buffer_ok 6).
  simpl; split_and!; auto; repeat constructor.
Defined.

(** ** Headers in the reserved space *)

(** Once [EnsureReservedSize(n)] succeeded, moving the start back by [n]
    octets ([SetStart(Start() - n)]) makes room for an [n]-octet header in front
    of the unchanged data, inside the allocation, with the lengths adjusted. *)
Theorem reserve_then_prepend p n p'
    (Hp : pbuf_ok p) (Ht : (pLen p <= pTotLen p)%nat) (Hn : Z.of_nat n < 65536)
    (Hres : EnsureReservedSize p n = (true, p')) :
  let q := SetStart p' (Z.of_nat (pPayload p') - Z.of_nat n) in
  pbuf_ok q /\ drop n (data q) = data p /\
  DataLength q = (n + DataLength p)%nat /\ TotalLength q = (n + TotalLength p)%nat.
Proof.
  intros q; pose proof (EnsureReservedSize_spec p n Hp Hn) as Hs.
  destruct (Nat.leb_spec (Nat.max n (pPayload p) + pLen p) (AllocSize p)); [|congruence].
  destruct Hs as (p1 & Hr & Hp' & Hd & Hpl & Hl & Htl & Hrf & Ha); rewrite Hres in Hr; simplify_eq.
  subst q; rewrite <-Nat2Z.inj_sub by lia.
  destruct (SetStart_spec p1 (pPayload p1 - n) Hp') as (Hq & Hqp & Hql & Hqt & Hqm & _); [lia..|].
  set (q := SetStart _ _) in *; unfold DataLength, TotalLength.
  split_and!; [done| |lia|lia].
  rewrite <-Hd; unfold data, mem_read; rewrite Hqm, skipn_firstn_comm, drop_drop.
  f_equal; [lia|f_equal; lia].
Qed.

Lemma reserve_then_prepend_witness :
  let q := SetStart (snd (EnsureReservedSize example_buffer 3)) (Z.of_nat 3 - Z.of_nat 3) in
  pbuf_ok q /\ drop 3 (data q) = [1; 2; 3] /\ DataLength q = 6%nat /\ TotalLength q = 6%nat.
Proof.
  apply (reserve_then_prepend example_buffer 3 (snd (EnsureReservedSize example_buffer 3)));
    [apply (example_buffer_ok 3)|vm_compute; lia|lia|reflexivity].
Defined.

(** ** Fresh and copied buffers *)

Section AllocationSpec.
Context `{PlatformMemory} (tcp : bool).

Lemma New_spec a r h p h' :
  New tcp a r h = (Some p, h') ->
  (a + r <= kMaxAllocSize tcp)%nat /\ AllocSize p = (a + r)%nat /\ pPayload p = r /\
  pLen p = 0%nat /\ pTotLen p = 0%nat /\ pRef p = 1%nat.
Proof.
  unfold New; bcase; [done|]; bcase; [done|].
  destruct (MemoryAlloc _ h) as [[blk|] h1] eqn:Hm; intros; simplify_eq/=.
  apply MemoryAlloc_size in Hm; unfold AllocSize; simpl; split_and!; auto; len.
Qed.

Lemma kMaxAllocSize_small : Z.of_nat (kMaxAllocSize tcp) < 65536.
Proof.
  unfold kMaxAllocSize, kLargeBufMaxSizeWithoutReserve, kMaxSizeWithoutReserve.
  destruct tcp; lia.
Qed.

Lemma New_ok a r h p h' : New tcp a r h = (Some p, h') -> pbuf_ok p.
Proof.
  intros (? & ? & ? & ? & ? & ?)%New_spec; pose proof kMaxAllocSize_small.
  constructor; lia.
Qed.

Lemma CloneOne_spec p h q h' :
  pbuf_ok p -> CloneOne tcp p h = (Some q, h') ->
  pbuf_ok q /\ data q = data p /\ pPayload q = pPayload p /\ pLen q = pLen p /\
  pTotLen q = pLen p /\ pRef q = 1%nat /\
  AllocSize q = Nat.min (AllocSize p) (kMaxAllocSize tcp).
Proof.
  intros Hp; pose proof (MaxDataLength_ok p Hp) as Hmax; pose proof (pbuf_fits p Hp).
  unfold CloneOne; rewrite ReservedSize_ok by done.
  assert (Hclone : forall n, (pLen p <= n)%nat -> (n <= MaxDataLength p)%nat ->
    (n + pPayload p = Nat.min (AllocSize p) (kMaxAllocSize tcp))%nat ->
    (let (clone, h) := New tcp n (pPayload p) h in
     ((fun clone => MkPBuf (mem_write 0 (mem_read 0 (n + pPayload p) (pMem p)) (pMem clone))
        (pPayload clone) (pLen p) (pLen p) (pRef clone)) <$> clone, h)) = (Some q, h') ->
    pbuf_ok q /\ data q = data p /\ pPayload q = pPayload p /\ pLen q = pLen p /\
    pTotLen q = pLen p /\ pRef q = 1%nat /\
    AllocSize q = Nat.min (AllocSize p) (kMaxAllocSize tcp)).
  { intros n Hn Hmx Hal; destruct (New tcp n (pPayload p) h) as [[c|] h1] eqn:Hnew;
      intros; simplify_eq/=.
    pose proof (New_ok _ _ _ _ _ Hnew); apply New_spec in Hnew as (Hk & Hs & Hpp & _ & _ & Hrf).
    pose proof kMaxAllocSize_small.
    assert (Hr : length (mem_read 0 (n + pPayload p) (pMem p)) = (n + pPayload p)%nat).
    { apply length_mem_read; unfold AllocSize in *; lia. }
    set (q := MkPBuf _ _ _ _ _).
    assert (Hqa : AllocSize q = (n + pPayload p)%nat).
    { unfold q, AllocSize in *; simpl; rewrite length_mem_write; lia. }
    split_and!; auto; try lia.
    - constructor; [unfold q in *; simpl in *; lia|lia|simpl; lia].
    - unfold q, data; simpl; rewrite Hpp.
      rewrite (mem_read_write_prefix _ _ _ _ _ Hr) by (unfold AllocSize in *; lia).
      apply mem_read_prefix; lia. }
  unfold DataLength; bcase; [bcase; [done|]|]; apply Hclone; lia.
Qed.

Lemma CloneData_loop_ok c cloned done_ h :
  chain_ok c -> chain_ok cloned -> Forall (fun p => pRef p = 1%nat) cloned ->
  contents cloned = contents done_ -> layout <$> cloned = layout <$> done_ ->
  Z.of_nat (length (contents (done_ ++ c))) < 2 ^ 64 ->
  exists r h', CloneData_loop tcp c cloned h = Some (r, h') /\
    forall c', r = Some c' ->
      chain_ok c' /\ contents c' = contents (done_ ++ c) /\
      Forall (fun p => pRef p = 1%nat) c' /\ layout <$> c' = layout <$> (done_ ++ c).
Proof.
  revert cloned done_ h; induction c as [|p next IH];
    intros cloned done_ h Hc Hck Hr Hcc Hlay Hsz.
  { rewrite app_nil_r; do 2 eexists; split; [done|]; intros; by simplify_eq. }
  destruct Hc as (Hp & _ & _ & Hn); cbn [CloneData_loop].
  destruct (CloneOne tcp p h) as [[q|] h1] eqn:Hq; [|do 2 eexists; split; done].
  destruct (CloneOne_spec p h q h1 Hp Hq) as (Hqok & Hqd & Hqp & Hql & Hqt & Hqr & _).
  assert (Hqc : contents [q] = contents [p]) by (unfold contents; simpl; by rewrite Hqd).
  assert (Hq1 : chain_ok [q]).
  { apply chain_ok_cons; split_and!; auto; [|done].
    by rewrite contents_cons, app_nil_r, Hqd, Hqt, length_data. }
  assert (Hl1 : layout q = layout p).
  { unfold layout; by rewrite !ReservedSize_ok, Hqp by done; unfold DataLength; rewrite Hql. }
  rewrite (cons_middle p done_ next), app_assoc in *.
  destruct cloned as [|c0 cloned].
  - destruct done_ as [|d0 done_]; [|done]; apply IH; auto; csimpl; by rewrite Hl1.
  - destruct (AddToEnd_ok (c0 :: cloned) [q]) as (c1 & -> & Hc1 & Hcc1 & Hr1 & Hlc1); auto.
    { rewrite Hcc, Hqc, <-length_app, <-contents_app.
      rewrite contents_app, length_app in Hsz; lia. }
    cbn [mbind option_bind]; apply IH; auto.
    + by rewrite Hcc1, Hcc, Hqc, contents_app.
    + rewrite Hlc1, Hlay, fmap_app; csimpl; by rewrite Hl1.
Qed.

(** [CloneData] never aborts on a well-formed chain, and unless an allocation
    fails the copy is a well-formed chain of its own with the same octets and,
    buffer by buffer, the same reserved space and data length. *)
Theorem clone_data_same c h
    (Hc : chain_ok c) (Hsize : Z.of_nat (length (contents c)) < 2 ^ 64) :
  exists r h', CloneData tcp c h = Some (r, h') /\
    forall c', r = Some c' ->
      chain_ok c' /\ contents c' = contents c /\
      Forall (fun p => pRef p = 1%nat) c' /\ layout <$> c' = layout <$> c.
Proof. by apply CloneData_loop_ok with (done_ := []). Qed.

(** [RightSize] keeps the octets and the layout of the chain, never
    reallocates to a larger block, and never aborts; it only replaces an
    unshared single buffer with at least 16 unused octets. *)
Theorem right_size_keeps_data c h (Hc : chain_ok c) :
  exists c' h', InternalRightSize c h = (Some c', h') /\
    chain_ok c' /\ contents c' = contents c /\ layout <$> c' = layout <$> c /\
    (c' = c \/ exists p q, c = [p] /\ c' = [q] /\ pRef p = 1%nat /\
                 (AllocSize q + 16 <= AllocSize p)%nat /\ AvailableDataLength q = 0%nat).
Proof.
  destruct c as [|p [|]]; [by eauto 10| |by eauto 10].
  cbn [InternalRightSize]; pose proof Hc as (Hp & Ht & _).
  destruct (Nat.eqb_spec (pRef p) 1) as [Hr|]; cbn [negb]; [|by eauto 10].
  destruct (Nat.ltb_spec (AllocSize p) (pPayload p + pLen p + kRightSizingThreshold));
    [by eauto 10|].
  destruct (MemoryAlloc _ h) as [[blk|] h1] eqn:Hm; [|by eauto 10].
  apply MemoryAlloc_size in Hm; unfold kRightSizingThreshold in *.
  cbn [Free]; rewrite Hr; cbn [Nat.eqb mbind option_bind Nat.sub].
  set (q := MkPBuf _ _ _ _ _); pose proof (pbuf_fits p Hp); pose proof (pbuf_alloc p Hp).
  assert (Hrd : length (mem_read 0 (pPayload p + pLen p) (pMem p)) = (pPayload p + pLen p)%nat).
  { apply length_mem_read; unfold AllocSize in *; lia. }
  assert (Hqa : AllocSize q = (pPayload p + pLen p)%nat).
  { unfold q, AllocSize; simpl; rewrite length_mem_write, length_drop; [lia|].
    rewrite Hrd, length_drop; lia. }
  assert (Hq : pbuf_ok q) by (constructor; rewrite ?Hqa; simpl; lia).
  assert (Hd : data q = data p).
  { unfold q, data; simpl.
    rewrite (mem_read_write_prefix _ _ _ _ _ Hrd) by (rewrite ?length_drop; lia).
    apply mem_read_prefix; lia. }
  exists [q], h1; split_and!; auto.
  - apply chain_ok_cons; split_and!; auto; [|done].
    rewrite contents_cons, Hd; apply Ht.
  - by rewrite !contents_cons, Hd.
  - right; exists p, q; split_and!; auto; [lia|].
    pose proof (AvailableDataLength_ok q Hq); simpl in *; lia.
Qed.
End AllocationSpec.

(** An allocator that always succeeds, with zeroed blocks. *)
Definition zero_memory : PlatformMemory.
Proof.
  refine {| heap := unit; MemoryAlloc n h := (Some (replicate n 0), h) |}.
  intros; simplify_eq; apply length_replicate.
Defined.

Lemma clone_data_same_witness :
  exists r h', @CloneData zero_memory false [example_buffer] tt = Some (r, h') /\
    forall c', r = Some c' ->
      chain_ok c' /\ contents c' = [1; 2; 3] /\
      Forall (fun p => pRef p = 1%nat) c' /\ layout <$> c' = [(2%nat, 3%nat)].
Proof.
  pose proof (example_buffer_ok 3).
  apply (@clone_data_same zero_memory false [example_buffer] tt);
    [simpl; auto|vm_compute; reflexivity].
Defined.

Lemma right_size_keeps_data_witness :
  exists c' h', @InternalRightSize zero_memory [example_buffer] tt = (Some c', h') /\
    chain_ok c' /\ contents c' = [1; 2; 3] /\ layout <$> c' = [(2%nat, 3%nat)] /\
    (c' = [example_buffer] \/ exists p q, [example_buffer] = [p] /\ c' = [q] /\ pRef p = 1%nat /\
       (AllocSize q + 16 <= AllocSize p)%nat /\ AvailableDataLength q = 0%nat).
Proof.
  pose proof (example_buffer_ok 3).
  apply (@right_size_keeps_data zero_memory [example_buffer] tt); simpl; auto.
Defined.

(** ** PacketBufferWriter *)

(** The calls [cs] made on the writer of a packet-buffer writer. *)
Definition pbw_run (w : PacketBufferWriter) (cs : list put_call) : PacketBufferWriter :=
  MkPacketBufferWriter (foldl run_call (pbwWriter w) cs) (mPacket w).

(** [Finalize] on an empty packet, whatever was put: the packet holds exactly that, or
    it did not fit in the free space (or in the size asked for). *)
Lemma Finalize_log p aSize log
    (Hp : pbuf_ok p) (Hempty : DataLength p = 0%nat) :
  let room := match aSize with
              | None => AvailableDataLength p
              | Some n => Nat.min n (AvailableDataLength p) end in
  let free := mem_read (pPayload p) (length log) (pMem p) in
  let b := wBuf (pbwWriter (PacketBufferWriter_new p aSize)) in
  match Finalize (MkPacketBufferWriter (writer_of b log) p) with
  | Some q => (length log <= room)%nat /\ pbuf_ok q /\ pPayload q = pPayload p /\
              data q = overlay log free
  | None => (room < length log)%nat
  end.
Proof.
  intros room free; unfold DataLength in Hempty.
  pose proof (AvailableDataLength_ok p Hp) as Hav; pose proof (pbuf_fits p Hp) as Hfit.
  assert (Hroom : (room <= AvailableDataLength p)%nat) by (unfold room; destruct aSize; lia).
  unfold PacketBufferWriter_new; cbn [pbwWriter wBuf Writer_new].
  fold room; set (b := mem_read _ room _).
  assert (Hb : length b = room).
  { apply length_mem_read; unfold DataLength, AllocSize in *; lia. }
  unfold Finalize; cbn [pbwWriter mPacket].
  assert (Hov : length (wBuf (writer_of b log)) = room) by (etransitivity; [apply length_overlay|done]).
  assert (Fit (writer_of b log) = (length log <=? room)%nat) as ->
    by (unfold Fit, Size; by rewrite Hov).
  bcase; [|done].
  set (p1 := MkPBuf _ _ _ _ _).
  assert (Ha1 : AllocSize p1 = AllocSize p).
  { apply length_mem_write; rewrite Hov; unfold DataLength, AllocSize in *; lia. }
  assert (Hp1 : pbuf_ok p1) by (constructor; rewrite ?Ha1; apply Hp).
  assert (Hneed : Needed (writer_of b log) = length log) by done.
  destruct (SetDataLength_spec p1 (Needed (writer_of b log)) Hp1) as (Hq & Hqp & Hql & _ & Hqm & _).
  { simpl; lia. }
  set (q := snd _) in *; split_and!; auto.
  pose proof (MaxDataLength_ok p1 Hp1).
  assert (Hlen : pLen q = length log).
  { rewrite Hql, Hneed; simpl in *; lia. }
  unfold data; rewrite Hqm, Hqp, Hlen; simpl; unfold DataLength; rewrite Hempty, Nat.add_0_r.
  rewrite <-(mem_read_sub_start (pPayload p) (length log) (length (overlay log b)))
    by (cbn [wBuf writer_of] in Hov; lia).
  rewrite mem_read_write_same by (cbn [wBuf writer_of] in Hov; unfold AllocSize in *; lia).
  unfold free, b, mem_read, DataLength; rewrite drop_0, take_overlay, take_take.
  by rewrite Hempty, Nat.add_0_r, Nat.min_l by lia.
Qed.

(** [Finalize] of a [PacketBufferWriter] opened on an empty packet returns
    the packet holding exactly what was put, or the null handle when it did not
    fit in the free space (or in the size asked for). *)
Theorem packet_buffer_writer_finalize p aSize cs
    (Hp : pbuf_ok p) (Hempty : DataLength p = 0%nat) :
  let log := concat (log_of_call <$> cs) in
  let room := match aSize with
              | None => AvailableDataLength p
              | Some n => Nat.min n (AvailableDataLength p) end in
  let free := mem_read (pPayload p) (length log) (pMem p) in
  match Finalize (pbw_run (PacketBufferWriter_new p aSize) cs) with
  | Some q => (length log <= room)%nat /\ pbuf_ok q /\ pPayload q = pPayload p /\
              data q = overlay log free
  | None => (room < length log)%nat
  end.
Proof.
  intros log room free; unfold pbw_run; cbn [pbwWriter mPacket].
  change (pbwWriter (PacketBufferWriter_new p aSize))
    with (Writer_new (wBuf (pbwWriter (PacketBufferWriter_new p aSize)))).
  rewrite run_calls_log; by apply (Finalize_log p aSize).
Qed.

Lemma packet_buffer_writer_finalize_witness :
  match Finalize (pbw_run (PacketBufferWriter_new (MkPBuf [0; 0; 0; 0] 1 0 0 1) (Some 3%nat))
                          [CallPut 7; CallPutLE 513 2]) with
  | Some q => (3 <= 3)%nat /\ pbuf_ok q /\ pPayload q = 1%nat /\ data q = [7; 1; 2]
  | None => (3 < 3)%nat
  end.
Proof.
  apply (packet_buffer_writer_finalize (MkPBuf [0; 0; 0; 0] 1 0 0 1) (Some 3%nat)
           [CallPut 7; CallPutLE 513 2]);
    [constructor; vm_compute; try lia; congruence|reflexivity].
Defined.

(** On a packet that already holds data, [Finalize] sets the data length to
    the octets put instead of adding them to it: with [n] octets of data and at
    most [n] octets put, everything put is cut off and the packet keeps only a
    prefix of its old data. *)
Theorem packet_buffer_writer_appends_nothing p cs q
    (Hp : pbuf_ok p) (Ht : (pLen p <= pTotLen p)%nat)
    (Hput : (length (concat (log_of_call <$> cs)) <= DataLength p)%nat)
    (Hq : Finalize (pbw_run (PacketBufferWriter_new p None) cs) = Some q) :
  data q = take (length (concat (log_of_call <$> cs))) (data p).
Proof.
  set (log := concat _) in *; unfold DataLength in *.
  pose proof (AvailableDataLength_ok p Hp) as Hav; pose proof (pbuf_fits p Hp) as Hfit.
  unfold pbw_run, PacketBufferWriter_new, Finalize in Hq; cbn [pbwWriter mPacket] in Hq.
  set (b := mem_read _ (AvailableDataLength p) _) in Hq.
  rewrite run_calls_log in Hq; fold log in Hq.
  assert (Hneed : Needed (writer_of b log) = length log) by done.
  set (p1 := MkPBuf (mem_write (pPayload p + DataLength p) (overlay log b) (pMem p))
                    (pPayload p) (pTotLen p) (pLen p) (pRef p)).
  destruct (Fit _); [|done].
  assert (q = snd (SetDataLength [] p1 (Needed (writer_of b log)))) as -> by (by injection Hq).
  clear Hq.
  assert (Hov : length (overlay log b) = AvailableDataLength p).
  { rewrite length_overlay; apply length_mem_read; unfold AllocSize, DataLength in *; lia. }
  assert (Ha1 : AllocSize p1 = AllocSize p).
  { apply length_mem_write; rewrite Hov; unfold DataLength, AllocSize in *; lia. }
  assert (Hp1 : pbuf_ok p1) by (constructor; rewrite ?Ha1; apply Hp).
  destruct (SetDataLength_spec p1 (Needed (writer_of b log)) Hp1 Ht) as (_ & Hqp & Hql & _ & Hqm & _).
  pose proof (MaxDataLength_ok p1 Hp1).
  unfold data at 1; rewrite Hqm, Hqp, Hql, Hneed; simpl.
  rewrite Nat.min_l by (simpl in *; lia).
  rewrite mem_read_write_before by (unfold DataLength, AllocSize in *; lia).
  unfold data, mem_read; rewrite take_take; f_equal; lia.
Qed.

Lemma packet_buffer_writer_appends_nothing_witness :
  data (MkPBuf [1; 2; 3; 7; 0] 0 1 1 1) = [1].
Proof.
  apply (packet_buffer_writer_appends_nothing (MkPBuf [1; 2; 3; 0; 0] 0 3 3 1) [CallPut 7]);
    [constructor; vm_compute; try lia; congruence|vm_compute; lia|vm_compute; lia|reflexivity].
Defined.

(** [Consume] of all the octets of a chain does not give the null handle when
    the chain ends in a buffer without data: a chain without octets is left. *)
Theorem consume_all_keeps_empty_tail c p
    (Hc : chain_ok (c ++ [p])) (Hempty : DataLength p = 0%nat) :
  exists c', Consume (c ++ [p]) (length (contents (c ++ [p]))) = Some c' /\
             c' <> [] /\ contents c' = [].
Proof.
  assert (Hp0 : data p = []) by (unfold data, mem_read, DataLength in *; by rewrite Hempty).
  destruct (Consume_ok _ (length (contents (c ++ [p]))) Hc) as (c' & Hr & _ & Hcc).
  exists c'; split_and!; [done| |by rewrite Hcc, drop_ge].
  revert Hr; assert (Hn : (length (contents (c ++ [p])) <= length (contents c))%nat)
    by (rewrite contents_app, length_app, (contents_cons p), Hp0; simpl; lia).
  revert Hn; generalize (length (contents (c ++ [p]))); clear Hcc; induction c as [|q c IH]; intros n Hn.
  { destruct n; simpl in *; [intros Hr Hz; by rewrite Hz in Hr|unfold contents in *; simpl in *; lia]. }
  destruct Hc as (Hq & _ & _ & Hc); rewrite contents_cons, length_app, (length_data q Hq) in Hn.
  simpl app; cbn [Consume]; unfold DataLength.
  destruct (Nat.eqb_spec n 0); [by intros [= <-]|].
  destruct (Nat.leb_spec (pLen q) n); [|by intros [= <-]].
  rewrite FreeHead_ok by apply Hq; cbn [mbind option_bind]; apply IH; [done|lia].
Qed.

Lemma consume_all_keeps_empty_tail_witness :
  exists c', Consume ([example_buffer] ++ [MkPBuf [0; 0] 1 0 0 1]) 3 = Some c' /\
             c' <> [] /\ contents c' = [].
Proof.
  pose proof (example_buffer_ok 3).
  apply (consume_all_keeps_empty_tail [example_buffer] (MkPBuf [0; 0] 1 0 0 1)); [|reflexivity].
  simpl; split_and!; auto; constructor; vm_compute; try lia; congruence.
Defined.
