(* ===== verification/Storage.v ===== *)
(** * Storage: the persistent key-value store

    [PersistentStorage] is the interface of
    src/src/lib/core/CHIPPersistentStorageDelegate.h: its operations and, as laws
    over the abstract content [stored], the behaviour its comments promise.
    Clients (the message counters) are verified against the interface.

    Module [TestStorage] models the in-memory implementation of
    src/src/lib/support/TestPersistentStorageDelegate.h, with its rejected writes
    and its poisoned keys, and the instance [test_storage] proves the laws. *)

From S2P Require Import Prelude.
From stdpp Require Import gmap strings.
#[local] Open Scope Z_scope.

Class PersistentStorage := {
  storage : Type;
  (** The value stored under a key. *)
  stored : storage -> string -> option bytes;
  (** [SyncGetKeyValue(key, buffer, size)]: the octets put in the buffer. *)
  SyncGetKeyValue : string -> nat -> storage -> result bytes * storage;
  (** What [size] is after a call that found nothing; no comment promises anything. *)
  size_not_found : string -> nat -> storage -> nat;
  SyncSetKeyValue : string -> bytes -> storage -> CHIP_ERROR * storage;
  SyncDeleteKeyValue : string -> storage -> CHIP_ERROR * storage;
  (** Reading changes no value. *)
  get_stored key size s k : stored (snd (SyncGetKeyValue key size s)) k = stored s k;
  get_ok key size s v :
    fst (SyncGetKeyValue key size s) = Ok v -> stored s key = Some v /\ (length v <= size)%nat;
  get_not_found key size s :
    fst (SyncGetKeyValue key size s) = Err CHIP_ERROR_PERSISTED_STORAGE_VALUE_NOT_FOUND ->
    stored s key = None;
  get_error key size s : fst (SyncGetKeyValue key size s) <> Err CHIP_NO_ERROR;
  (** A failed write leaves the old value. *)
  set_stored key v s k :
    stored (snd (SyncSetKeyValue key v s)) k =
    if decide (fst (SyncSetKeyValue key v s) = CHIP_NO_ERROR /\ k = key) then Some v
    else stored s k;
  delete_stored key s k :
    stored (snd (SyncDeleteKeyValue key s)) k =
    if decide (fst (SyncDeleteKeyValue key s) = CHIP_NO_ERROR /\ k = key) then None
    else stored s k }.

(** [SyncDoesKeyExist] of the base class. *)
Definition SyncDoesKeyExist `{PersistentStorage} (key : string) (s : storage) : bool * storage :=
  match SyncGetKeyValue key 0 s with
  | (Ok _, s) => (true, s)
  | (Err e, s) => (bool_decide (e = CHIP_ERROR_BUFFER_TOO_SMALL), s)
  end.

(** Storage that works: on a [healthy] store writes of values the store can hold
    succeed, values that are there are read back, and it stays healthy. *)
Record Reliable `{PersistentStorage} (healthy : storage -> Prop) : Prop := {
  reliable_get s key size v :
    healthy s -> stored s key = Some v -> (length v <= size)%nat -> (0 < length v)%nat ->
    fst (SyncGetKeyValue key size s) = Ok v;
  reliable_get_none s key size :
    healthy s -> stored s key = None ->
    fst (SyncGetKeyValue key size s) = Err CHIP_ERROR_PERSISTED_STORAGE_VALUE_NOT_FOUND;
  reliable_get_healthy s key size : healthy s -> healthy (snd (SyncGetKeyValue key size s));
  reliable_set s key v :
    healthy s -> Z.of_nat (length v) < 65536 ->
    fst (SyncSetKeyValue key v s) = CHIP_NO_ERROR /\ healthy (snd (SyncSetKeyValue key v s)) }.

Module TestStorage.

(** [mPoisonKeys] holds the read and write patterns of the poisoned keys. *)
Record t := Mk {
  mStorage : gmap string bytes;
  mPoisonKeys : gmap string (Z * Z);
  mRejectWrites : bool }.

Definition new : t := Mk ∅ ∅ false.

(** The lowest bit decides; the pattern is shifted arithmetically. *)
Definition TakePoison (pattern : Z) : bool * Z :=
  (Z.land pattern 1 =? 0, Z.shiftr pattern 1).

Definition IsReadPoisoned (key : string) (s : t) : bool * t :=
  match mPoisonKeys s !! key with
  | None => (false, s)
  | Some (r, w) =>
      let (poisoned, r) := TakePoison r in
      (poisoned, Mk (mStorage s) (<[key := (r, w)]> (mPoisonKeys s)) (mRejectWrites s))
  end.

Definition IsWritePoisoned (key : string) (s : t) : bool * t :=
  match mPoisonKeys s !! key with
  | None => (false, s)
  | Some (r, w) =>
      let (poisoned, w) := TakePoison w in
      (poisoned, Mk (mStorage s) (<[key := (r, w)]> (mPoisonKeys s)) (mRejectWrites s))
  end.

Definition AddPoisonKey (key : string) (readPattern writePattern : Z) (s : t) : t :=
  Mk (mStorage s) (<[key := (readPattern, writePattern)]> (mPoisonKeys s)) (mRejectWrites s).
Definition SetRejectWrites (rejectWrites : bool) (s : t) : t :=
  Mk (mStorage s) (mPoisonKeys s) rejectWrites.
Definition ClearPoisonKeys (s : t) : t := Mk (mStorage s) ∅ (mRejectWrites s).
Definition ClearStorage (s : t) : t := Mk ∅ (mPoisonKeys s) (mRejectWrites s).
Definition HasKey (key : string) (s : t) : bool := bool_decide (is_Some (mStorage s !! key)).

(** [SyncGetKeyValueInternal] with a buffer unless [size] is 0.  When it is too
    small the caller's buffer gets the first [size] octets, which no modelled
    caller uses. *)
Definition SyncGetKeyValueInternal (key : string) (size : nat) (s : t) : result bytes * t :=
  let (poisoned, s) := IsReadPoisoned key s in
  if poisoned then (Err CHIP_ERROR_PERSISTED_STORAGE_FAILED, s)
  else
    match mStorage s !! key with
    | None => (Err CHIP_ERROR_PERSISTED_STORAGE_VALUE_NOT_FOUND, s)
    | Some value =>
        if 65535 <? Z.of_nat (length value) then (Err CHIP_ERROR_PERSISTED_STORAGE_FAILED, s)
        else if (size =? 0)%nat && (length value =? 0)%nat then (Ok [], s)
        else if (size =? 0)%nat then (Err CHIP_ERROR_BUFFER_TOO_SMALL, s)
        else
          let sizeToCopy := Nat.min size (length value) in
          if (sizeToCopy <? length value)%nat then (Err CHIP_ERROR_BUFFER_TOO_SMALL, s)
          else (Ok (take sizeToCopy value), s)
    end.

Definition SyncSetKeyValueInternal (key : string) (value : bytes) (s : t) : CHIP_ERROR * t :=
  if mRejectWrites s then (CHIP_ERROR_PERSISTED_STORAGE_FAILED, s)
  else
    let (poisoned, s) := IsWritePoisoned key s in
    if poisoned then (CHIP_ERROR_PERSISTED_STORAGE_FAILED, s)
    else (CHIP_NO_ERROR, Mk (<[key := value]> (mStorage s)) (mPoisonKeys s) (mRejectWrites s)).

Definition SyncDeleteKeyValueInternal (key : string) (s : t) : CHIP_ERROR * t :=
  if mRejectWrites s then (CHIP_ERROR_PERSISTED_STORAGE_FAILED, s)
  else
    let (poisoned, s) := IsWritePoisoned key s in
    if poisoned then (CHIP_ERROR_PERSISTED_STORAGE_FAILED, s)
    else if negb (HasKey key s) then (CHIP_ERROR_PERSISTED_STORAGE_VALUE_NOT_FOUND, s)
    else (CHIP_NO_ERROR, Mk (delete key (mStorage s)) (mPoisonKeys s) (mRejectWrites s)).

Lemma IsReadPoisoned_storage key s : mStorage (snd (IsReadPoisoned key s)) = mStorage s.
Proof. unfold IsReadPoisoned; by destruct (mPoisonKeys s !! key) as [[]|]. Qed.

Lemma IsWritePoisoned_storage key s : mStorage (snd (IsWritePoisoned key s)) = mStorage s.
Proof. unfold IsWritePoisoned; by destruct (mPoisonKeys s !! key) as [[]|]. Qed.

Lemma get_storage key size s :
  mStorage (snd (SyncGetKeyValueInternal key size s)) = mStorage s.
Proof.
  unfold SyncGetKeyValueInternal; rewrite <-(IsReadPoisoned_storage key s).
  destruct (IsReadPoisoned key s) as [[] s']; simpl; [done|].
  destruct (mStorage s' !! key); simpl; repeat case_match; done.
Qed.

(** The result of a read depends on the stored value and the poison only. *)
Lemma get_result key size s v :
  fst (SyncGetKeyValueInternal key size s) = Ok v ->
  mStorage s !! key = Some v /\ (length v <= size)%nat.
Proof.
  unfold SyncGetKeyValueInternal; rewrite <-(IsReadPoisoned_storage key s).
  destruct (IsReadPoisoned key s) as [[] s']; simpl; [done|].
  destruct (mStorage s' !! key) as [value|]; [|done].
  destruct (Z.ltb_spec 65535 (Z.of_nat (length value))); [done|].
  destruct (Nat.eqb_spec size 0); simpl.
  - destruct value; simpl; [|done]; intros [= <-]; split; [done|simpl; lia].
  - bcase; simpl; [done|]; rewrite take_ge by lia.
    intros [= <-]; split; [done|lia].
Qed.

(** A write changes the key alone, and only when it succeeds. *)
Lemma set_lookup key v s k :
  mStorage (snd (SyncSetKeyValueInternal key v s)) !! k =
  if decide (fst (SyncSetKeyValueInternal key v s) = CHIP_NO_ERROR /\ k = key) then Some v
  else mStorage s !! k.
Proof.
  unfold SyncSetKeyValueInternal; rewrite <-(IsWritePoisoned_storage key s).
  destruct (mRejectWrites s); [|destruct (IsWritePoisoned key s) as [[] s']];
    cbn [fst snd mStorage]; [rewrite IsWritePoisoned_storage| |];
    case_decide as Hd; destruct_and?; simplify_eq; [done|done|by rewrite lookup_insert_eq|].
  rewrite lookup_insert_ne; [done|naive_solver].
Qed.

Lemma delete_lookup key s k :
  mStorage (snd (SyncDeleteKeyValueInternal key s)) !! k =
  if decide (fst (SyncDeleteKeyValueInternal key s) = CHIP_NO_ERROR /\ k = key) then None
  else mStorage s !! k.
Proof.
  unfold SyncDeleteKeyValueInternal; rewrite <-(IsWritePoisoned_storage key s).
  destruct (mRejectWrites s); [|destruct (IsWritePoisoned key s) as [[] s']];
    cbn [fst snd mStorage]; [rewrite IsWritePoisoned_storage| |destruct (HasKey key s'); cbn [negb fst snd mStorage]];
    case_decide as Hd; destruct_and?; simplify_eq; [done|done|by rewrite lookup_delete_eq| |done].
  rewrite lookup_delete_ne; [done|naive_solver].
Qed.

Lemma get_not_found_lookup key size s :
  fst (SyncGetKeyValueInternal key size s) = Err CHIP_ERROR_PERSISTED_STORAGE_VALUE_NOT_FOUND ->
  mStorage s !! key = None.
Proof.
  unfold SyncGetKeyValueInternal; rewrite <-(IsReadPoisoned_storage key s).
  destruct (IsReadPoisoned key s) as [[] s']; simpl; [done|].
  destruct (mStorage s' !! key) as [value|]; [|done]; repeat case_match; done.
Qed.

Lemma get_not_ok_error key size s : fst (SyncGetKeyValueInternal key size s) <> Err CHIP_NO_ERROR.
Proof.
  unfold SyncGetKeyValueInternal; destruct (IsReadPoisoned key s) as [[] s']; simpl; [done|].
  destruct (mStorage s' !! key) as [value|]; [|done]; repeat case_match; done.
Qed.

End TestStorage.

(** The in-memory store implements the interface. *)
Definition test_storage : PersistentStorage.
Proof.
  refine {| storage := TestStorage.t;
            stored s key := TestStorage.mStorage s !! key;
            SyncGetKeyValue := TestStorage.SyncGetKeyValueInternal;
            size_not_found key size s := size;
            SyncSetKeyValue := TestStorage.SyncSetKeyValueInternal;
            SyncDeleteKeyValue := TestStorage.SyncDeleteKeyValueInternal |}.
  - intros; by rewrite TestStorage.get_storage.
  - apply TestStorage.get_result.
  - apply TestStorage.get_not_found_lookup.
  - apply TestStorage.get_not_ok_error.
  - apply TestStorage.set_lookup.
  - apply TestStorage.delete_lookup.
Defined.

(** C30: The in-memory delegate keeps the promises of the storage interface: a
    successful write is read back exactly whenever the buffer is large enough and
    the read is not poisoned, a rejected or poisoned write changes no value at
    all, and a write never changes the value of another key. *)
Theorem test_storage_read_back key value size s :
  let '(err, s') := TestStorage.SyncSetKeyValueInternal key value s in
  (err = CHIP_NO_ERROR ->
     forall v, fst (TestStorage.SyncGetKeyValueInternal key size s') = Ok v -> v = value) /\
  (err <> CHIP_NO_ERROR -> TestStorage.mStorage s' = TestStorage.mStorage s) /\
  (forall k, k <> key -> TestStorage.mStorage s' !! k = TestStorage.mStorage s !! k) /\
  (TestStorage.mPoisonKeys s !! key = None -> TestStorage.mRejectWrites s = false ->
     Z.of_nat (length value) < 65536 -> (length value <= size)%nat ->
     err = CHIP_NO_ERROR /\ fst (TestStorage.SyncGetKeyValueInternal key size s') = Ok value).
Proof.
  pose proof (TestStorage.set_lookup key value s) as Hl.
  destruct (TestStorage.SyncSetKeyValueInternal key value s) as [err s'] eqn:Hset; cbn [fst snd] in Hl.
  split_and!.
  - intros -> v [Hv _]%TestStorage.get_result.
    rewrite Hl, decide_True in Hv by done; congruence.
  - intros Hne; apply map_eq; intros k; by rewrite Hl, decide_False by tauto.
  - intros k Hk; by rewrite Hl, decide_False by tauto.
  - intros Hp Hr Hlen Hsz; unfold TestStorage.SyncSetKeyValueInternal,
      TestStorage.IsWritePoisoned in Hset; rewrite Hr, Hp in Hset; simplify_eq.
    split; [done|]; unfold TestStorage.SyncGetKeyValueInternal, TestStorage.IsReadPoisoned.
    simpl; rewrite Hp; simpl; rewrite lookup_insert_eq.
    destruct (Z.ltb_spec 65535 (Z.of_nat (length value))); [lia|].
    destruct (Nat.eqb_spec size 0); simpl.
    + destruct value; simpl in *; [done|lia].
    + bcase; simpl; [lia|]; by rewrite take_ge by lia.
Qed.

(** A store that rejects no write, poisons no key and holds values of 16-bit
    size is reliable. *)
Definition test_storage_healthy (s : TestStorage.t) : Prop :=
  TestStorage.mPoisonKeys s = ∅ /\ TestStorage.mRejectWrites s = false /\
  map_Forall (fun _ v => Z.of_nat (length v) < 65536) (TestStorage.mStorage s).

Lemma test_storage_reliable : @Reliable test_storage test_storage_healthy.
Proof.
  constructor; simpl;
    unfold TestStorage.SyncGetKeyValueInternal, TestStorage.SyncSetKeyValueInternal,
      TestStorage.IsReadPoisoned, TestStorage.IsWritePoisoned.
  - intros s key size v (-> & _ & Hall) Hv Hsz Hpos; rewrite lookup_empty, Hv.
    specialize (Hall _ _ Hv); simpl in Hall.
    destruct (Z.ltb_spec 65535 (Z.of_nat (length v))); [lia|].
    destruct (Nat.eqb_spec size 0); [lia|]; simpl; bcase; simpl; [lia|].
    by rewrite take_ge by lia.
  - intros s key size (-> & _ & Hall) Hv; by rewrite lookup_empty, Hv.
  - intros s key size Hs; pose proof Hs as (-> & _ & _); rewrite lookup_empty.
    repeat case_match; done.
  - intros s key v (Hp & Hr & Hall) Hv; rewrite Hr, Hp, lookup_empty; simpl.
    split; [done|]; split_and!; [done|done|]; simpl.
    by apply map_Forall_insert_2.
Qed.
