(* ===== verification/Counters.v ===== *)
(** * Counters: monotonic and persisted counters

    Model of src/src/lib/support/CHIPCounter.h, src/src/lib/support/PersistedCounter.h,
    src/src/transport/MessageCounter.h and of class [GroupOutgoingCounters] of
    src/src/transport/GroupPeerMessageCounter.{h,cpp}, with its use in
    src/src/transport/SessionManager.cpp.

    The counters are clients of the storage interface [PersistentStorage].  Their
    purpose is that no value is ever used twice, also across reboots: the main
    theorems state it for runs in which the storage accepts the writes, and state
    what happens after a write it refused. *)

From Stdlib Require Import Sorting.Sorted.
From S2P Require Import Prelude Encoding Storage.
From stdpp Require Import gmap strings.
#[local] Open Scope Z_scope.

(** ** CHIPCounter.h: [MonotonicallyIncreasingCounter<T>], [T] of [w] bits *)
Module Monotonic.
Section Monotonic.
Context (w : Z).
Definition Init (aStartValue : Z) : Z := aStartValue.
Definition Advance (mCounterValue : Z) : Z := mCounterValue +{w} 1.
Definition AdvanceBy (mCounterValue value : Z) : Z := mCounterValue +{w} value.
Definition GetValue (mCounterValue : Z) : Z := mCounterValue.
End Monotonic.
End Monotonic.

(** ** PersistedCounter.h *)
Module PersistedCounter.

(** [mKey] is [None] while uninitialised; [mStorage] tells whether the storage
    pointer is set. *)
Record t := Mk {
  mCounterValue : Z;
  mStorage : bool;
  mKey : option string;
  mEpoch : Z;
  mNextEpoch : Z }.

Definition new : t := Mk 0 false None 0 0.

Section Operations.
Context `{BO : ByteOrder} `{ST : PersistentStorage}.
(** [T] is an unsigned type of [sizeof_T] bytes. *)
Context (sizeof_T : nat).
Let w : Z := 8 * Z.of_nat sizeof_T.

(** Operations change the counter and the storage. *)
Definition with_value (c : t) v := Mk v (mStorage c) (mKey c) (mEpoch c) (mNextEpoch c).
Definition with_next (c : t) n := Mk (mCounterValue c) (mStorage c) (mKey c) (mEpoch c) n.

(** [PersistNextEpochStart]: the member is set before the write is tried. *)
Definition PersistNextEpochStart (aStartValue : Z) (key : string) (c : t) (s : storage)
    : CHIP_ERROR * (t * storage) :=
  let c := with_next c aStartValue in
  let (err, s) := SyncSetKeyValue key (nl_le_put sizeof_T aStartValue) s in
  (err, (c, s)).

(** [ReadStartValue]: a missing value reads as [GetInitialCounterValue() = 0], if the
    storage has left [size] alone. *)
Definition ReadStartValue (key : string) (s : storage) : result Z * storage :=
  match SyncGetKeyValue key sizeof_T s with
  | (Ok valueLE, s) =>
      if negb (length valueLE =? sizeof_T)%nat then (Err CHIP_ERROR_INCORRECT_STATE, s)
      else (Ok (nl_le_get valueLE), s)
  | (Err e, s') =>
      if decide (e = CHIP_ERROR_PERSISTED_STORAGE_VALUE_NOT_FOUND)
      then if negb (size_not_found key sizeof_T s =? sizeof_T)%nat then (Err CHIP_ERROR_INCORRECT_STATE, s')
           else (Ok 0, s')
      else (Err e, s')
  end.

Definition Init (aStorage : bool) (aKey : option string) (aEpoch : Z) (c : t) (s : storage)
    : CHIP_ERROR * (t * storage) :=
  if negb aStorage then (CHIP_ERROR_INVALID_ARGUMENT, (c, s))
  else match aKey with
  | None => (CHIP_ERROR_INVALID_ARGUMENT, (c, s))
  | Some key =>
      if negb (0 <? aEpoch) then (CHIP_ERROR_INVALID_INTEGER_VALUE, (c, s))
      else
        let c := Mk (mCounterValue c) aStorage aKey aEpoch (mNextEpoch c) in
        match ReadStartValue key s with
        | (Err e, s) => (e, (c, s))
        | (Ok startValue, s) =>
            match PersistNextEpochStart (startValue +{w} aEpoch) key c s with
            | (CHIP_NO_ERROR, (c, s)) => (CHIP_NO_ERROR, (with_value c (Monotonic.Init startValue), s))
            | (e, (c, s)) => (e, (c, s))
            end
        end
  end.

Definition PersistAndVerifyNextEpochStart (refEpoch : Z) (key : string) (c : t) (s : storage)
    : CHIP_ERROR * (t * storage) :=
  match PersistNextEpochStart (refEpoch +{w} mEpoch c) key c s with
  | (CHIP_NO_ERROR, (c, s)) =>
      if mCounterValue c +{w} mEpoch c =? mNextEpoch c then (CHIP_NO_ERROR, (c, s))
      else (CHIP_ERROR_INTERNAL, (c, s))
  | (e, (c, s)) => (e, (c, s))
  end.

Definition AdvanceBy (value : Z) (c : t) (s : storage) : CHIP_ERROR * (t * storage) :=
  if negb (mStorage c) then (CHIP_ERROR_INCORRECT_STATE, (c, s))
  else match mKey c with
  | None => (CHIP_ERROR_INCORRECT_STATE, (c, s))
  | Some key =>
      if negb (0 <? value) then (CHIP_NO_ERROR, (c, s))
      else
        let shouldDoEpochUpdate :=
          (mNextEpoch c <=? mCounterValue c +{w} value) ||
          ((2 ^ w - 1) -{w} value <? mCounterValue c) in
        let c := with_value c (Monotonic.AdvanceBy w (mCounterValue c) value) in
        if shouldDoEpochUpdate
        then PersistAndVerifyNextEpochStart (Monotonic.GetValue (mCounterValue c)) key c s
        else (CHIP_NO_ERROR, (c, s))
  end.

Definition Advance (c : t) (s : storage) : CHIP_ERROR * (t * storage) :=
  if negb (mStorage c) then (CHIP_ERROR_INCORRECT_STATE, (c, s))
  else match mKey c with
  | None => (CHIP_ERROR_INCORRECT_STATE, (c, s))
  | Some key =>
      let c := with_value c (Monotonic.Advance w (mCounterValue c)) in
      if mNextEpoch c <=? Monotonic.GetValue (mCounterValue c)
      then PersistAndVerifyNextEpochStart (mNextEpoch c) key c s
      else (CHIP_NO_ERROR, (c, s))
  end.

(** What a device does with the counter: boot, then advance. *)
Inductive call :=
| CallInit (aEpoch : Z)
| CallAdvance
| CallAdvanceBy (value : Z).

Definition run_call (key : string) (c : call) (st : t * storage) : CHIP_ERROR * (t * storage) :=
  match c with
  | CallInit aEpoch => Init true (Some key) aEpoch new (snd st)
  | CallAdvance => Advance (fst st) (snd st)
  | CallAdvanceBy value => AdvanceBy value (fst st) (snd st)
  end.

(** The values the counter takes, call by call; [None] when a call failed. *)
Fixpoint values (key : string) (cs : list call) (st : t * storage) : option (list Z) :=
  match cs with
  | [] => Some []
  | c :: cs =>
      match run_call key c st with
      | (CHIP_NO_ERROR, st) => vs ← values key cs st; Some (mCounterValue (fst st) :: vs)
      | _ => None
      end
  end.

End Operations.
End PersistedCounter.

(** ** MessageCounter.h *)

Definition kMessageCounterRandomInitMask : Z := 268435455.
Definition kMessageCounterMax : Z := 4294967295.

(** [GetDefaultInitialValuePredecessor], from the random number drawn. *)
Definition GetDefaultInitialValuePredecessor (GetRandU32 : Z) : Z :=
  Z.land GetRandU32 kMessageCounterRandomInitMask.

(** [AdvanceAndConsume] of the two counters: the value fetched and the counter. *)
Definition GlobalUnencrypted_AdvanceAndConsume (mLastUsedValue : Z) : result Z * Z :=
  let mLastUsedValue := mLastUsedValue +{32} 1 in (Ok mLastUsedValue, mLastUsedValue).

Definition LocalSession_AdvanceAndConsume (mLastUsedValue : Z) : result Z * Z :=
  if mLastUsedValue =? kMessageCounterMax
  then (Err CHIP_ERROR_MESSAGE_COUNTER_EXHAUSTED, mLastUsedValue)
  else let mLastUsedValue := mLastUsedValue +{32} 1 in (Ok mLastUsedValue, mLastUsedValue).

(** ** GroupOutgoingCounters *)
Module GroupOutgoingCounters.

Definition GROUP_MSG_COUNTER_MIN_INCREMENT : Z := 1000.

Record t := Mk {
  mGroupDataCounter : Z;
  mGroupControlCounter : Z;
  mStorage : bool }.

Definition new : t := Mk 0 0 false.

(** [DefaultStorageKeyAllocator::GroupControlCounter], [GroupDataCounter]. *)
Definition KeyName (isControl : bool) : string :=
  (if isControl then "g/gcc" else "g/gdc")%string.

Definition GetCounter (isControl : bool) (c : t) : Z :=
  if isControl then mGroupControlCounter c else mGroupDataCounter c.

Definition set_counter (isControl : bool) (v : Z) (c : t) : t :=
  if isControl then Mk (mGroupDataCounter c) v (mStorage c)
  else Mk v (mGroupControlCounter c) (mStorage c).

Section Operations.
Context `{ST : PersistentStorage}.

(** The four octets of a [uint32_t] in the memory of a little-endian host. *)
Definition uint32_bytes (v : Z) : bytes := le_split 4 v.

(** One counter of [Init]: its start value is the stored one or, the first time,
    a random one.  A value of fewer than four octets would only overwrite part of
    [temp]; the device stores none. *)
Definition read_start (isControl : bool) (GetRandU32 : Z) (s : storage) : result Z * storage :=
  match SyncGetKeyValue (KeyName isControl) 4 s with
  | (Ok temp, s) => (Ok (le_combine temp), s)
  | (Err e, s) =>
      if decide (e = CHIP_ERROR_PERSISTED_STORAGE_VALUE_NOT_FOUND)
      then (Ok (Z.land GetRandU32 kMessageCounterRandomInitMask +{32} 1), s)
      else (Err e, s)
  end.

(** [Init(storage_delegate)] with the two random numbers it may draw. *)
Definition Init (storage_delegate : bool) (rand1 rand2 : Z) (c : t) (s : storage)
    : CHIP_ERROR * (t * storage) :=
  if negb storage_delegate then (CHIP_ERROR_INVALID_ARGUMENT, (c, s))
  else
    let c := Mk (mGroupDataCounter c) (mGroupControlCounter c) true in
    match read_start true rand1 s with
    | (Err e, s) => (e, (c, s))
    | (Ok control, s) =>
        let c := set_counter true control c in
        match read_start false rand2 s with
        | (Err e, s) => (e, (c, s))
        | (Ok dat, s) =>
            let c := set_counter false dat c in
            let temp := mGroupControlCounter c +{32} GROUP_MSG_COUNTER_MIN_INCREMENT in
            match SyncSetKeyValue (KeyName true) (uint32_bytes temp) s with
            | (CHIP_NO_ERROR, s) =>
                let temp := mGroupDataCounter c +{32} GROUP_MSG_COUNTER_MIN_INCREMENT in
                let (err, s) := SyncSetKeyValue (KeyName false) (uint32_bytes temp) s in
                (err, (c, s))
            | (e, s) => (e, (c, s))
            end
        end
    end.

Definition IncrementCounter (isControl : bool) (c : t) (s : storage) : CHIP_ERROR * (t * storage) :=
  let c := set_counter isControl (GetCounter isControl c +{32} 1) c in
  let value := GetCounter isControl c in
  if negb (mStorage c) then (CHIP_ERROR_PERSISTED_STORAGE_VALUE_NOT_FOUND, (c, s))
  else
    match SyncGetKeyValue (KeyName isControl) 4 s with
    | (Err e, s) => (e, (c, s))
    | (Ok temp, s) =>
        if le_combine temp =? value then
          let temp := value +{32} GROUP_MSG_COUNTER_MIN_INCREMENT in
          let (err, s) := SyncSetKeyValue (KeyName isControl) (uint32_bytes temp) s in
          (err, (c, s))
        else (CHIP_NO_ERROR, (c, s))
    end.

(** [SessionManager::PrepareMessage] of a group message: the counter sent, and
    the increment whose error is dropped. *)
Definition send_group_message (isControl : bool) (c : t) (s : storage) : Z * (t * storage) :=
  let counter := GetCounter isControl c in
  let '(_, (c, s)) := IncrementCounter isControl c s in
  (counter, (c, s)).

(** A device's life: boots and group messages; the counters it sent. *)
Inductive call :=
| CallInit (rand1 rand2 : Z)
| CallSend (isControl : bool).

Fixpoint sent (cs : list call) (st : t * storage) : option (list (bool * Z)) :=
  match cs with
  | [] => Some []
  | CallInit r1 r2 :: cs =>
      match Init true r1 r2 new (snd st) with
      | (CHIP_NO_ERROR, st) => sent cs st
      | _ => None
      end
  | CallSend k :: cs =>
      let (counter, st) := send_group_message k (fst st) (snd st) in
      vs ← sent cs st; Some ((k, counter) :: vs)
  end.

End Operations.
End GroupOutgoingCounters.

(** ** Persisted counters never repeat a value *)

Section PersistedSpec.
Context `{BO : ByteOrder} `{ST : PersistentStorage}.
Context (sizeof_T : nat) (key : string).
Import PersistedCounter.

Abbreviation w := (8 * Z.of_nat sizeof_T).
Implicit Types (c : t) (s : storage) (cs : list call).

(** The value a reboot would start from. *)
Definition next_start s : Z :=
  match stored s key with Some b => le_combine b | None => 0 end.

Definition storage_ok s : Prop :=
  match stored s key with Some b => length b = sizeof_T /\ bytes_ok b | None => True end.

(** The counter is initialised and below the start value in the store. *)
Record counter_ok c s : Prop := {
  cok_storage : PersistedCounter.mStorage c = true;
  cok_key : mKey c = Some key;
  cok_value : 0 <= mCounterValue c < mNextEpoch c;
  cok_next : stored s key = Some (le_split sizeof_T (mNextEpoch c));
  cok_range : mNextEpoch c < 2 ^ w }.

Lemma counter_ok_next_start c s : counter_ok c s -> next_start s = mNextEpoch c.
Proof.
  intros [_ _ Hv Hn Hr]; unfold next_start; rewrite Hn; apply le_split_small.
  unfold is_uint; lia.
Qed.

Lemma counter_ok_storage_ok c s : counter_ok c s -> storage_ok s.
Proof.
  intros [_ _ _ Hn _]; unfold storage_ok; rewrite Hn; split; [len|apply le_split_ok].
Qed.

Lemma w_nonneg : 0 <= w.
Proof. lia. Qed.

Lemma PersistNextEpochStart_ok v c s c' s' :
  PersistNextEpochStart sizeof_T v key c s = (CHIP_NO_ERROR, (c', s')) ->
  c' = with_next c v /\ stored s' key = Some (le_split sizeof_T v).
Proof.
  unfold PersistNextEpochStart.
  pose proof (set_stored key (nl_le_put sizeof_T v) s key) as Hs.
  destruct (SyncSetKeyValue key _ s) as [err s1]; simpl in Hs; intros; simplify_eq.
  rewrite decide_True, nl_le_put_spec in Hs by done; done.
Qed.

Lemma ReadStartValue_ok s v s' :
  ReadStartValue sizeof_T key s = (Ok v, s') ->
  v = next_start s /\ (forall k, stored s' k = stored s k).
Proof.
  unfold ReadStartValue, next_start.
  pose proof (get_stored key sizeof_T s) as Hk; pose proof (get_ok key sizeof_T s) as Hok.
  pose proof (get_not_found key sizeof_T s) as Hnf.
  destruct (SyncGetKeyValue key sizeof_T s) as [[b|e] s1]; simpl in *.
  - case_match; [done|]; intros [= <- <-].
    destruct (Hok b eq_refl) as [-> _]; rewrite nl_le_get_spec; auto.
  - case_decide; [|done]; case_match; [done|]; intros [= <- <-]; subst; by rewrite Hnf.
Qed.

Lemma ReadStartValue_err s e s' : ReadStartValue sizeof_T key s = (Err e, s') -> e <> CHIP_NO_ERROR.
Proof.
  unfold ReadStartValue; pose proof (get_error key sizeof_T s) as Hne.
  destruct (SyncGetKeyValue key sizeof_T s) as [[b|e1] s1]; simpl in *; repeat case_match;
    intros; simplify_eq; congruence.
Qed.

Lemma Init_ok e c0 c s s' :
  Init sizeof_T true (Some key) e c0 s = (CHIP_NO_ERROR, (c, s')) -> 
  storage_ok s -> next_start s + e < 2 ^ w ->
  0 < e /\ mCounterValue c = next_start s /\ mEpoch c = e /\
  mNextEpoch c = next_start s + e /\ counter_ok c s'.
Proof.
  unfold Init; simpl; destruct (Z.ltb_spec 0 e); simpl; [|done]; intros Hi Hst Hb.
  destruct (ReadStartValue sizeof_T key s) as [[v|e1] s1] eqn:Hr;
    [|apply ReadStartValue_err in Hr; congruence].
  apply ReadStartValue_ok in Hr as [-> Hk].
  assert (0 <= next_start s).
  { unfold next_start, storage_ok in *; destruct (stored s key); [|lia].
    destruct Hst as [_ Hb']; apply le_combine_range in Hb'; apply Hb'. }
  destruct (PersistNextEpochStart _ _ _ _ _) as [err [c1 s2]] eqn:Hp.
  destruct err; simplify_eq; apply PersistNextEpochStart_ok in Hp as [-> Hs2].
  rewrite wrap_small in * by (unfold is_uint; lia).
  split_and!; [done|done|done|done|constructor; simpl; auto]; unfold Monotonic.Init; lia.
Qed.

Lemma Advance_ok c s c' s' :
  counter_ok c s -> 0 < mEpoch c -> Advance sizeof_T c s = (CHIP_NO_ERROR, (c', s')) ->
  mNextEpoch c + mEpoch c < 2 ^ w ->
  mCounterValue c' = mCounterValue c + 1 /\ mEpoch c' = mEpoch c /\ counter_ok c' s' /\
  mNextEpoch c' <= mNextEpoch c + mEpoch c.
Proof.
  intros Hc He Ha Hb; pose proof Hc as [Hs Hk Hv Hn Hr].
  unfold Advance, Monotonic.Advance, Monotonic.GetValue in Ha; rewrite Hs, Hk in Ha; simpl in Ha.
  rewrite wrap_small in Ha by (unfold is_uint; lia).
  destruct (Z.leb_spec (mNextEpoch c) (mCounterValue c + 1)).
  - unfold PersistAndVerifyNextEpochStart in Ha; simpl in Ha.
    destruct (PersistNextEpochStart _ _ _ _ _) as [err [c1 s1]] eqn:Hp.
    destruct err; simplify_eq; apply PersistNextEpochStart_ok in Hp as [-> Hs1].
    simpl in Ha; case_match; simplify_eq; simpl.
    rewrite wrap_small in * by (unfold is_uint; lia).
    split_and!; [done|done| |lia]; constructor; simpl; auto; lia.
  - simplify_eq; simpl; split_and!; [done|done| |lia]; constructor; simpl; auto; lia.
Qed.

Lemma AdvanceBy_ok v c s c' s' :
  counter_ok c s -> 0 < mEpoch c -> 0 < v -> AdvanceBy sizeof_T v c s = (CHIP_NO_ERROR, (c', s')) ->
  mNextEpoch c + v + mEpoch c < 2 ^ w ->
  mCounterValue c' = mCounterValue c + v /\ mEpoch c' = mEpoch c /\ counter_ok c' s' /\
  mNextEpoch c' <= mNextEpoch c + v + mEpoch c.
Proof.
  intros Hc He Hpos Ha Hb; pose proof Hc as [Hs Hk Hv Hn Hr].
  unfold AdvanceBy, Monotonic.AdvanceBy, Monotonic.GetValue in Ha; rewrite Hs, Hk in Ha; simpl in Ha.
  destruct (Z.ltb_spec 0 v); [|lia]; simpl in Ha.
  rewrite !wrap_small in Ha by (unfold is_uint; lia).
  destruct (Z.ltb_spec (2 ^ w - 1 - v) (mCounterValue c)); [lia|]; rewrite orb_false_r in Ha.
  destruct (Z.leb_spec (mNextEpoch c) (mCounterValue c + v)).
  - unfold PersistAndVerifyNextEpochStart in Ha; simpl in Ha.
    destruct (PersistNextEpochStart _ _ _ _ _) as [err [c1 s1]] eqn:Hp.
    destruct err; simplify_eq; apply PersistNextEpochStart_ok in Hp as [-> Hs1].
    simpl in Ha; case_match; simplify_eq; simpl.
    rewrite wrap_small in * by (unfold is_uint; lia).
    split_and!; [done|done| |lia]; constructor; simpl; auto; lia.
  - simplify_eq; simpl; split_and!; [done|done| |lia]; constructor; simpl; auto; lia.
Qed.

(** How far a call can move the stored start value, for epochs up to [E]. *)
Definition call_cost (E : Z) (x : call) : Z :=
  match x with CallInit _ => E | CallAdvance => E | CallAdvanceBy v => v + E end.
Definition call_bounded (E : Z) (x : call) : Prop :=
  match x with CallInit e => e <= E | CallAdvance => True | CallAdvanceBy v => 0 < v end.

Lemma run_call_ok E x c s c' s' :
  counter_ok c s -> 0 < mEpoch c <= E -> call_bounded E x ->
  mNextEpoch c + call_cost E x < 2 ^ w ->
  run_call sizeof_T key x (c, s) = (CHIP_NO_ERROR, (c', s')) ->
  counter_ok c' s' /\ 0 < mEpoch c' <= E /\ mCounterValue c < mCounterValue c' /\
  mNextEpoch c' <= mNextEpoch c + call_cost E x.
Proof.
  intros Hc He Hx Hb Hrun; pose proof (counter_ok_next_start _ _ Hc) as Hns.
  destruct x as [e| |v]; simpl in *.
  - apply Init_ok in Hrun as (? & Hv & Hep & Hnx & Hok);
      [|by eapply counter_ok_storage_ok|lia].
    split_and!; auto; try lia; destruct Hc; lia.
  - apply Advance_ok in Hrun as (Hv & Hep & Hok & Hnx); auto; [|lia|lia].
    split_and!; auto; lia.
  - apply AdvanceBy_ok in Hrun as (Hv & Hep & Hok & Hnx); auto; [|lia|lia].
    split_and!; auto; lia.
Qed.

Lemma call_cost_nonneg E x : 0 <= E -> call_bounded E x -> 0 <= call_cost E x.
Proof. destruct x; simpl; lia. Qed.

Lemma call_costs_nonneg E cs :
  0 <= E -> Forall (call_bounded E) cs -> 0 <= foldr Z.add 0 (call_cost E <$> cs).
Proof.
  intros HE Hcs; induction Hcs as [|x l Hx Hl IH]; csimpl; [lia|].
  pose proof (call_cost_nonneg E x HE Hx); lia.
Qed.

Lemma values_increasing E cs c s vs :
  counter_ok c s -> 0 < mEpoch c <= E -> Forall (call_bounded E) cs ->
  mNextEpoch c + foldr Z.add 0 (call_cost E <$> cs) < 2 ^ w ->
  values sizeof_T key cs (c, s) = Some vs ->
  Forall (fun v => mCounterValue c < v) vs /\ StronglySorted Z.lt vs.
Proof.
  revert c s vs; induction cs as [|x cs IH]; intros c s vs Hc He Hcs Hb Hvs.
  { simpl in Hvs; simplify_eq; split; constructor. }
  apply Forall_cons in Hcs as [Hx Hcs]; cbn [values] in Hvs; csimpl in Hb.
  pose proof (call_costs_nonneg E cs ltac:(lia) Hcs).
  destruct (run_call sizeof_T key x (c, s)) as [err [c' s']] eqn:Hr.
  destruct err; try done.
  destruct (values sizeof_T key cs (c', s')) as [vs'|] eqn:Hv; simplify_eq/=.
  destruct (run_call_ok E x c s c' s' Hc He Hx) as (Hc' & He' & Hlt & Hn); [lia|done|].
  destruct (IH c' s' vs' Hc' He' Hcs) as [Hall Hsort]; [lia|done|].
  split; constructor; auto; eapply Forall_impl; try done; simpl; intros; lia.
Qed.

(** C34: A persisted counter never takes a value twice, across any number of
    reboots at any moment.  In every run of boots ([Init]) and advances by one or
    more that all succeed, the storage accepting the writes, the values the
    counter takes are strictly increasing, from boot to boot too, and all at or
    above the start value found in the store.  The store must hold, if anything,
    a value of the counter's width, and the start value, with the advances and
    one epoch for each call, must stay below the largest value of the type: there
    the counter is allowed to roll over ([TODO(#33175)] in the code), and an
    advance by zero leaves it where it is. *)
Theorem persisted_counter_never_repeats E e cs s vs
    (Hstore : storage_ok s) (He : e <= E) (Hcs : Forall (call_bounded E) cs)
    (Hrange : next_start s + foldr Z.add 0 (call_cost E <$> CallInit e :: cs) < 2 ^ w)
    (Hrun : values sizeof_T key (CallInit e :: cs) (new, s) = Some vs) :
  StronglySorted Z.lt vs /\ Forall (fun v => next_start s <= v) vs.
Proof.
  csimpl in Hrange; cbn [values run_call snd] in Hrun.
  destruct (Init sizeof_T true (Some key) e new s) as [err [c' s']] eqn:Hr.
  destruct err; try done.
  destruct (values sizeof_T key cs (c', s')) as [vs'|] eqn:Hv; simplify_eq/=.
  assert (HE : 0 < e).
  { revert Hr; unfold Init; simpl; bcase; done. }
  pose proof (call_costs_nonneg E cs ltac:(lia) Hcs).
  apply Init_ok in Hr as (_ & Hval & Hep & Hnx & Hok); [|done|lia].
  destruct (values_increasing E cs c' s' vs' Hok) as [Hall Hsort]; [lia|done|lia|done|].
  split; constructor; auto; [lia|].
  eapply Forall_impl; [done|]; simpl; intros; lia.
Qed.

(** When the storage refuses the write at the end of an epoch, [Advance]
    reports the error but has already moved both the counter and its idea of the
    next epoch: the following advances succeed without writing anything, with
    the values the next boot starts again from. *)
Theorem refused_write_repeats_values c s c' s' e
    (Hc : counter_ok c s) (Hep : 1 < mEpoch c) (Hrange : mNextEpoch c + mEpoch c < 2 ^ w)
    (Hend : mCounterValue c + 1 = mNextEpoch c)
    (Hadv : Advance sizeof_T c s = (e, (c', s'))) (Hfail : e <> CHIP_NO_ERROR) :
  mCounterValue c' = next_start s' /\
  exists c'', Advance sizeof_T c' s' = (CHIP_NO_ERROR, (c'', s')) /\
    mCounterValue c'' = next_start s' + 1 /\
    forall e2 c2 s2 c3 s3,
      Init sizeof_T true (Some key) e2 new s' = (CHIP_NO_ERROR, (c2, s2)) ->
      next_start s' + 2 * e2 < 2 ^ w -> 1 < e2 ->
      Advance sizeof_T c2 s2 = (CHIP_NO_ERROR, (c3, s3)) ->
      mCounterValue c2 = mCounterValue c' /\ mCounterValue c3 = mCounterValue c''.
Proof.
  pose proof Hc as [Hs Hk Hv Hn Hr]; pose proof (counter_ok_next_start _ _ Hc) as Hns.
  assert (Hst : storage_ok s) by (by eapply counter_ok_storage_ok).
  unfold Advance, Monotonic.Advance, Monotonic.GetValue in Hadv; rewrite Hs, Hk in Hadv; simpl in Hadv.
  rewrite wrap_small in Hadv by (unfold is_uint; lia).
  destruct (Z.leb_spec (mNextEpoch c) (mCounterValue c + 1)); [|lia].
  unfold PersistAndVerifyNextEpochStart, PersistNextEpochStart in Hadv; simpl in Hadv.
  rewrite wrap_small in Hadv by (unfold is_uint; lia).
  set (b := nl_le_put _ _) in Hadv; pose proof (set_stored key b s key) as Hset.
  destruct (SyncSetKeyValue key b s) as [err s1]; simpl in Hset, Hadv.
  assert (err <> CHIP_NO_ERROR) as Herr.
  { intros ->; rewrite wrap_small in Hadv by (unfold is_uint; lia).
    destruct (Z.eqb_spec (mCounterValue c + 1 + mEpoch c) (mNextEpoch c + mEpoch c)); [|lia].
    congruence. }
  assert ((err, (with_next (with_value c (mCounterValue c + 1)) (mNextEpoch c + mEpoch c), s1))
          = (e, (c', s'))) as Heq by (by destruct err).
  clear Hadv; injection Heq as <- <- <-.
  rewrite decide_False in Hset by tauto.
  assert (Hns1 : next_start s1 = mNextEpoch c) by (unfold next_start in *; by rewrite Hset).
  split; [simpl; lia|].
  unfold Advance at 1; simpl; rewrite Hs, Hk; simpl.
  unfold Monotonic.Advance, Monotonic.GetValue; rewrite wrap_small by (unfold is_uint; lia).
  destruct (Z.leb_spec (mNextEpoch c + mEpoch c) (mCounterValue c + 1 + 1)); [lia|].
  eexists; split; [done|]; split; [simpl; lia|].
  intros e2 c2 s2 c3 s3 Hi Hb He2 Ha.
  apply Init_ok in Hi as (_ & Hv2 & Hep2 & Hnx2 & Hok2);
    [|unfold storage_ok in *; by rewrite Hset|lia].
  apply Advance_ok in Ha as (Hv3 & _); [|done|lia|lia].
  simpl; lia.
Qed.

End PersistedSpec.

(** ** Group message counters *)

Section GroupSpec.
Context `{ST : PersistentStorage} (healthy : storage -> Prop) (Hrel : Reliable healthy).
Import GroupOutgoingCounters.
Implicit Types (c : t) (s : storage) (k : bool) (cs : list call).

(** The counter of each kind is below the value stored for the next boot. *)
Definition group_ok (n : bool -> Z) c s : Prop :=
  mStorage c = true /\ healthy s /\
  forall k, stored s (KeyName k) = Some (uint32_bytes (n k)) /\
            0 <= GetCounter k c < n k /\ n k <= GetCounter k c + 1000 /\ n k < 2 ^ 32.

Lemma KeyName_inj k k' : KeyName k = KeyName k' -> k = k'.
Proof. by destruct k, k'. Qed.

Lemma uint32_bytes_spec v : is_u32 v -> le_combine (uint32_bytes v) = v.
Proof. apply (le_split_small 4). Qed.

Lemma GetCounter_set k k' v c :
  GetCounter k (set_counter k' v c) = if decide (k = k') then v else GetCounter k c.
Proof. by destruct k, k'. Qed.

Lemma read_start_ok k r s :
  healthy s -> (forall b, stored s (KeyName k) = Some b -> length b = 4%nat) ->
  exists s', read_start k r s =
    (Ok match stored s (KeyName k) with
        | Some b => le_combine b
        | None => Z.land r kMessageCounterRandomInitMask +{32} 1
        end, s') /\ healthy s' /\ forall x, stored s' x = stored s x.
Proof.
  intros Hs Hlen; unfold read_start.
  pose proof (get_stored (KeyName k) 4 s) as Hk; pose proof (reliable_get_healthy _ Hrel s (KeyName k) 4 Hs) as Hh.
  destruct (stored s (KeyName k)) as [b|] eqn:Hb.
  - specialize (Hlen b eq_refl).
    pose proof (reliable_get _ Hrel s (KeyName k) 4 b Hs Hb ltac:(lia) ltac:(lia)) as Hg.
    destruct (SyncGetKeyValue (KeyName k) 4 s) as [r0 s']; simpl in *; subst; eauto.
  - pose proof (reliable_get_none _ Hrel s (KeyName k) 4 Hs Hb) as Hg.
    destruct (SyncGetKeyValue (KeyName k) 4 s) as [r0 s']; simpl in *; subst; eauto.
Qed.

Lemma write_ok k v s :
  healthy s -> exists s', SyncSetKeyValue (KeyName k) (uint32_bytes v) s = (CHIP_NO_ERROR, s') /\
    healthy s' /\ forall k', stored s' (KeyName k') =
      if decide (k' = k) then Some (uint32_bytes v) else stored s (KeyName k').
Proof.
  intros Hs; destruct (reliable_set _ Hrel s (KeyName k) (uint32_bytes v) Hs) as [Hok Hh].
  { unfold uint32_bytes; rewrite length_le_split; lia. }
  assert (Hset : forall x, stored (snd (SyncSetKeyValue (KeyName k) (uint32_bytes v) s)) x = _)
    by (intros; apply set_stored).
  destruct (SyncSetKeyValue (KeyName k) (uint32_bytes v) s) as [e s']; simpl in Hok, Hh, Hset; subst.
  exists s'; split_and!; auto; intros k'; rewrite Hset.
  destruct (decide (k' = k)) as [->|Hne]; [by rewrite decide_True|].
  rewrite decide_False; [done|]; intros [_ ?%KeyName_inj]; done.
Qed.

(** The start of a counter at a boot. *)
Definition start_of (r : Z) s k : Z :=
  match stored s (KeyName k) with
  | Some b => le_combine b
  | None => Z.land r kMessageCounterRandomInitMask +{32} 1
  end.

Lemma Init_group_ok r1 r2 s :
  healthy s -> (forall k b, stored s (KeyName k) = Some b -> length b = 4%nat /\ bytes_ok b) ->
  let start k := start_of (if k then r1 else r2) s k in
  (forall k, start k + 1000 < 2 ^ 32) ->
  exists c s', Init true r1 r2 new s = (CHIP_NO_ERROR, (c, s')) /\
    group_ok (fun k => start k + 1000) c s' /\ forall k, GetCounter k c = start k.
Proof.
  intros Hs Hb start Hr; unfold Init; cbn [negb].
  assert (Hpos : forall k, 0 <= start k).
  { intros k; unfold start, start_of; destruct (stored s (KeyName k)) as [b|] eqn:Hk.
    - destruct (Hb k b Hk) as [_ Hok]; apply le_combine_range in Hok; apply Hok.
    - apply wrap_range; lia. }
  destruct (read_start_ok true r1 s Hs ltac:(intros; by apply (Hb true))) as (s1 & -> & Hs1 & He1).
  destruct (read_start_ok false r2 s1 Hs1) as (s2 & -> & Hs2 & He2).
  { intros b; rewrite He1; intros; by apply (Hb false). }
  rewrite (He1 (KeyName false)); cbn [mGroupControlCounter mGroupDataCounter mStorage set_counter].
  fold (start_of r1 s true); fold (start_of r2 s false).
  change (start_of r1 s true) with (start true); change (start_of r2 s false) with (start false).
  unfold GROUP_MSG_COUNTER_MIN_INCREMENT.
  pose proof (Hr true); pose proof (Hr false); pose proof (Hpos true); pose proof (Hpos false).
  rewrite !wrap_small by (unfold is_uint; lia).
  destruct (write_ok true (start true + 1000) s2 Hs2) as (s3 & -> & Hs3 & He3).
  destruct (write_ok false (start false + 1000) s3 Hs3) as (s4 & -> & Hs4 & He4).
  eexists _, s4; split; [done|]; split; [|by intros []].
  split_and!; [done|done|]; intros k; rewrite He4, He3.
  destruct k; simpl; split_and!; auto; lia.
Qed.

Lemma send_ok n k c s :
  group_ok n c s -> GetCounter k c + 1001 < 2 ^ 32 ->
  exists c' s' n', send_group_message k c s = (GetCounter k c, (c', s')) /\
    group_ok n' c' s' /\ GetCounter k c' = GetCounter k c + 1 /\
    GetCounter (negb k) c' = GetCounter (negb k) c /\
    n' (negb k) = n (negb k).
Proof.
  intros (Hst & Hs & Hn) Hb; unfold send_group_message, IncrementCounter.
  destruct (Hn k) as (Hk & Hc & Hnear & Hlt).
  rewrite GetCounter_set, decide_True by done.
  rewrite (wrap_small 32 (GetCounter k c + 1)) by (unfold is_uint; lia).
  assert (mStorage (set_counter k (GetCounter k c + 1) c) = true) as -> by (by destruct k).
  cbn [negb].
  pose proof (reliable_get _ Hrel s (KeyName k) 4 _ Hs Hk) as Hg.
  unfold uint32_bytes in Hg; rewrite length_le_split in Hg; specialize (Hg ltac:(lia) ltac:(lia)).
  pose proof (get_stored (KeyName k) 4 s) as Hgs; pose proof (reliable_get_healthy _ Hrel s (KeyName k) 4 Hs) as Hh.
  destruct (SyncGetKeyValue (KeyName k) 4 s) as [r0 s1]; cbn [fst snd] in Hg, Hgs, Hh; subst r0.
  rewrite (le_split_small 4) by (unfold is_uint; simpl; lia).
  destruct (Z.eqb_spec (n k) (GetCounter k c + 1)) as [He|He].
  - unfold GROUP_MSG_COUNTER_MIN_INCREMENT; rewrite wrap_small by (unfold is_uint; lia).
    destruct (write_ok k (GetCounter k c + 1 + 1000) s1 Hh) as (s2 & -> & Hs2 & He2).
    exists (set_counter k (GetCounter k c + 1) c), s2, (fun k' => if decide (k' = k) then n k + 1000 else n k').
    split_and!; [done| |by rewrite GetCounter_set, decide_True|by destruct k|by destruct k].
    split_and!; [by destruct k|done|]; intros k'; rewrite He2, GetCounter_set.
    destruct (decide (k' = k)) as [->|]; [split_and!; [do 2 f_equal; lia|lia..]|].
    rewrite Hgs; apply Hn.
  - exists (set_counter k (GetCounter k c + 1) c), s1, n.
    split_and!; [done| |by rewrite GetCounter_set, decide_True|by destruct k|done].
    split_and!; [by destruct k|done|]; intros k'; rewrite Hgs, GetCounter_set.
    destruct (Hn k') as (? & ? & ? & ?).
    destruct (decide (k' = k)) as [->|]; split_and!; auto; lia.
Qed.

(** The counters sent with messages of one kind. *)
Fixpoint of_kind (k : bool) (vs : list (bool * Z)) : list Z :=
  match vs with
  | [] => []
  | (k', v) :: vs => if decide (k' = k) then v :: of_kind k vs else of_kind k vs
  end.

(** How far a life can take a counter: a boot skips up to 1000 values, a message takes one. *)
Fixpoint call_span (k : bool) (cs : list call) : Z :=
  match cs with
  | [] => 0
  | CallInit _ _ :: cs => 1000 + call_span k cs
  | CallSend k' :: cs => (if decide (k' = k) then 1 else 0) + call_span k cs
  end.
Lemma call_span_nonneg k cs : 0 <= call_span k cs.
Proof. induction cs as [|[r1 r2|k'] cs IH]; cbn [call_span]; repeat case_decide; lia. Qed.

Lemma sent_increasing n c s cs :
  group_ok n c s -> (forall k, GetCounter k c + 1000 + call_span k cs < 2 ^ 32) ->
  exists vs, sent cs (c, s) = Some vs /\ forall k,
    StronglySorted Z.lt (of_kind k vs) /\ Forall (fun v => GetCounter k c <= v) (of_kind k vs).
Proof.
  revert n c s; induction cs as [|[r1 r2|k] cs IH]; intros n c s Hok Hb.
  - exists []; split; [done|]; intros; split; constructor.
  - cbn [sent snd]; destruct Hok as (Hst & Hs & Hn).
    assert (Hstart : forall r k, start_of r s k = n k).
    { intros r k; unfold start_of; destruct (Hn k) as (-> & ? & ?).
      apply uint32_bytes_spec; unfold is_uint; lia. }
    destruct (Init_group_ok r1 r2 s Hs) as (c' & s' & -> & Hok' & Hc').
    + intros k b; destruct (Hn k) as (-> & _); intros [= <-]; split; [done|apply le_split_ok].
    + intros k; rewrite Hstart; specialize (Hb k); cbn [call_span] in Hb; destruct (Hn k) as (_ & ? & ? & _).
      pose proof (call_span_nonneg k cs); lia.
    + destruct (IH _ c' s' Hok') as (vs & Hvs & Hk).
      { intros k; rewrite Hc', Hstart; specialize (Hb k); cbn [call_span] in Hb; destruct (Hn k) as (_ & ? & ? & _); lia. }
      exists vs; split; [done|]; intros k; destruct (Hk k) as [Hsort Hall]; split; [done|].
      eapply Forall_impl; [done|]; simpl; intros v Hv; rewrite Hc', Hstart in Hv.
      destruct (Hn k) as (_ & ? & _); lia.
  - cbn [sent fst snd].
    destruct (send_ok n k c s Hok) as (c' & s' & n' & -> & Hok' & Hc & Hco & Hno).
    { specialize (Hb k); cbn [call_span] in Hb; rewrite decide_True in Hb by done; pose proof (call_span_nonneg k cs); lia. }
    destruct (IH n' c' s' Hok') as (vs & Hvs & Hk).
    { intros k'; specialize (Hb k'); cbn [call_span] in Hb; case_decide as Hd; [subst k'; lia|].
      assert (k' = negb k) as -> by (by destruct k, k'); lia. }
    exists ((k, GetCounter k c) :: vs); rewrite Hvs; split; [done|]; intros k'.
    destruct (Hk k') as [Hsort Hall]; cbn [of_kind]; case_decide as Hd; [subst k'|].
    + split; constructor; auto; [|lia|]; eapply Forall_impl; try done; simpl; intros; lia.
    + assert (k' = negb k) as -> by (by destruct k, k'); rewrite Hco in Hall; done.
Qed.

(** C33: On reliable storage the counters a device puts into its group messages
    never repeat, for data and for control messages: over any sequence of reboots
    and sends every boot succeeds and the counters sent of each kind are strictly
    increasing and not below the one the first boot started from.  That is the
    stored one, if there is one, which must be the four octets that a device
    stores, else a random one; and 1000 for each boot and one for each message
    of the kind must not take it to 2^32 (four million boots, or four thousand
    million messages). *)
Theorem group_counters_never_repeat r1 r2 cs s
    (Hs : healthy s)
    (Hstored : forall k b, stored s (KeyName k) = Some b -> length b = 4%nat /\ bytes_ok b)
    (Hrange : forall k, start_of (if k then r1 else r2) s k + call_span k (CallInit r1 r2 :: cs) < 2 ^ 32) :
  exists vs, sent (CallInit r1 r2 :: cs) (new, s) = Some vs /\ forall k,
    StronglySorted Z.lt (of_kind k vs) /\
    Forall (fun v => start_of (if k then r1 else r2) s k <= v) (of_kind k vs).
Proof.
  cbn [sent snd].
  destruct (Init_group_ok r1 r2 s Hs Hstored) as (c & s' & -> & Hok & Hc).
  { intros k; specialize (Hrange k); cbn [call_span] in Hrange; pose proof (call_span_nonneg k cs); lia. }
  destruct (sent_increasing _ c s' cs Hok) as (vs & Hvs & Hk).
  { intros k; specialize (Hrange k); cbn [call_span] in Hrange; rewrite Hc; lia. }
  exists vs; split; [done|]; intros k; rewrite <-Hc; apply Hk.
Qed.

End GroupSpec.

Section GroupRefused.
Context `{ST : PersistentStorage}.
Import GroupOutgoingCounters.

(** [IncrementCounter] writes only when the counter has just reached the stored
    value. *)
Lemma increment_past_stored k n c s :
  stored s (KeyName k) = Some (uint32_bytes n) -> is_u32 n ->
  n <= GetCounter k c < 2 ^ 32 - 1 ->
  exists s', send_group_message k c s =
      (GetCounter k c, (set_counter k (GetCounter k c + 1) c, s')) /\
    stored s' (KeyName k) = Some (uint32_bytes n).
Proof.
  intros Hst Hn Hc; unfold send_group_message, IncrementCounter, is_uint in *.
  rewrite GetCounter_set, decide_True by done.
  rewrite wrap_small by (unfold is_uint; lia).
  destruct (negb _); [by eexists|].
  pose proof (get_stored (KeyName k) 4 s (KeyName k)) as Hgs.
  pose proof (get_ok (KeyName k) 4 s) as Hok.
  destruct (SyncGetKeyValue (KeyName k) 4 s) as [[b|e] s1]; cbn [fst snd] in *.
  - destruct (Hok b eq_refl) as [Hb _]; rewrite Hst in Hb; simplify_eq.
    rewrite uint32_bytes_spec by (unfold is_uint; lia); bcase; [lia|].
    exists s1; split; [done|congruence].
  - exists s1; split; [done|congruence].
Qed.

(** A single refused write ends the persistence of a group counter for good:
    [SessionManager] drops the error, the counter has passed the stored value and
    [IncrementCounter] only writes when the two are equal.  Every later message,
    [j] of them for any [j] in the 32-bit range, is sent without a write, with
    counters [n], [n + 1], ... that the next boot starts from again at [n]. *)
Theorem refused_group_write_is_final k n c s c1 s1 e j
    (Hst : mStorage c = true) (Hn : stored s (KeyName k) = Some (uint32_bytes n))
    (Hc : 0 <= GetCounter k c) (Hlast : GetCounter k c + 1 = n)
    (Hrange : n + Z.of_nat j < 2 ^ 32)
    (Hinc : IncrementCounter k c s = (e, (c1, s1))) (He : e <> CHIP_NO_ERROR) :
  GetCounter k c1 = n /\
  exists s', sent (replicate j (CallSend k)) (c1, s1) =
      Some ((fun i => (k, i)) <$> seqZ n (Z.of_nat j)) /\
    stored s' (KeyName k) = Some (uint32_bytes n) /\
    forall r, start_of r s' k = n.
Proof.
  assert (Hn32 : is_u32 n) by (unfold is_uint; lia).
  assert (Hc1 : GetCounter k c1 = n /\ stored s1 (KeyName k) = Some (uint32_bytes n)).
  { unfold IncrementCounter in Hinc; rewrite GetCounter_set, decide_True in Hinc by done.
    rewrite wrap_small, Hlast in Hinc by (unfold is_uint; lia).
    assert (mStorage (set_counter k n c) = true) as Hst' by (by destruct k).
    rewrite Hst' in Hinc; cbn [negb] in Hinc.
    pose proof (get_stored (KeyName k) 4 s (KeyName k)) as Hgs.
    destruct (SyncGetKeyValue (KeyName k) 4 s) as [[b|e1] s2]; cbn [fst snd] in *.
    - destruct (le_combine b =? n); [|congruence].
      pose proof (set_stored (KeyName k) (uint32_bytes (n +{32} GROUP_MSG_COUNTER_MIN_INCREMENT)) s2 (KeyName k)) as Hs.
      destruct (SyncSetKeyValue _ _ s2) as [e2 s3]; cbn [fst snd] in Hs; simplify_eq.
      rewrite decide_False in Hs by tauto; rewrite GetCounter_set, decide_True by done; split; congruence.
    - simplify_eq; rewrite GetCounter_set, decide_True by done; split; congruence. }
  destruct Hc1 as [Hc1 Hs1]; split; [done|].
  assert (Hstart : forall s' r, stored s' (KeyName k) = Some (uint32_bytes n) -> start_of r s' k = n).
  { intros s' r Hs'; unfold start_of; rewrite Hs'; by apply uint32_bytes_spec. }
  clear Hinc; assert (Hgen : forall m, n <= m -> m + Z.of_nat j < 2 ^ 32 -> GetCounter k c1 = m ->
    exists s', sent (replicate j (CallSend k)) (c1, s1) = Some ((fun i => (k, i)) <$> seqZ m (Z.of_nat j)) /\
      stored s' (KeyName k) = Some (uint32_bytes n)).
  { clear Hc1 Hrange Hstart; revert c1 s1 Hs1; induction j as [|j IH]; intros c1 s1 Hs1 m Hm Hr Hcm.
    { by exists s1. }
    cbn [replicate sent fst snd].
    destruct (increment_past_stored k n c1 s1 Hs1 Hn32) as (s2 & -> & Hs2); [lia|].
    destruct (IH (set_counter k (GetCounter k c1 + 1) c1) s2 Hs2 (m + 1)) as (s' & -> & Hs');
      [lia|lia|rewrite GetCounter_set, decide_True by done; lia|].
    exists s'; split; [|done]; rewrite (seqZ_cons m) by lia; csimpl.
    rewrite Hcm; do 3 f_equal; f_equal; lia. }
  destruct (Hgen n) as (s' & ? & ?); [lia|lia|done|]; exists s'; auto.
Qed.

End GroupRefused.

(** A session counter hands out strictly increasing values and reports
    exhaustion instead of wrapping: after any start value the [i]-th value
    fetched is the start plus [i], until 2^32 - 1 was handed out. *)
Theorem session_counter_no_wrap start n
    (Hs : is_u32 start) :
  let step st := match LocalSession_AdvanceAndConsume (snd st) with
                 | (Ok v, c) => (fst st ++ [v], c)
                 | (Err _, c) => (fst st, c) end in
  let m := Z.min (Z.of_nat n) (kMessageCounterMax - start) in
  Nat.iter n step ([], start) = (seqZ (start + 1) m, start + m) /\
  (m < Z.of_nat n ->
   fst (LocalSession_AdvanceAndConsume (start + m)) = Err CHIP_ERROR_MESSAGE_COUNTER_EXHAUSTED).
Proof.
  intros step; unfold kMessageCounterMax in *; unfold is_uint in Hs.
  assert (Hit : let m := Z.min (Z.of_nat n) (4294967295 - start) in
    Nat.iter n step ([], start) = (seqZ (start + 1) m, start + m)).
  { induction n as [|n IH]; simpl Nat.iter.
    - rewrite Z.min_l by lia; simpl; by rewrite Z.add_0_r.
    - rewrite IH; unfold step at 1, LocalSession_AdvanceAndConsume, kMessageCounterMax; simpl snd.
      destruct (Z.eqb_spec (start + Z.min (Z.of_nat n) (4294967295 - start)) 4294967295); simpl fst.
      + replace (Z.min (Z.of_nat (S n)) _) with (Z.min (Z.of_nat n) (4294967295 - start)) by lia; done.
      + rewrite wrap_small by (unfold is_uint; lia).
        rewrite !Z.min_l by lia; f_equal; [|lia].
        replace (Z.of_nat (S n)) with (Z.of_nat n + 1) by lia.
        rewrite seqZ_app by lia; f_equal.
        replace (start + Z.of_nat n + 1) with (start + 1 + Z.of_nat n) by lia; done. }
  split; [exact Hit|]; intros Hm; rewrite Z.min_r by lia.
  unfold LocalSession_AdvanceAndConsume, kMessageCounterMax; bcase; [done|lia].
Qed.

(** ** Witnesses *)

Lemma persisted_counter_never_repeats_witness :
  StronglySorted Z.lt [0; 1; 2; 10; 25] /\ Forall (fun v => 0 <= v) [0; 1; 2; 10; 25].
Proof.
  apply (@persisted_counter_never_repeats reference_byte_order test_storage 4 "k"%string 15 10
    [PersistedCounter.CallAdvance; PersistedCounter.CallAdvance; PersistedCounter.CallInit 10;
     PersistedCounter.CallAdvanceBy 15] TestStorage.new).
  - exact I.
  - lia.
  - repeat constructor; simpl; lia.
  - vm_compute; reflexivity.
  - vm_compute; reflexivity.
Defined.

(** A counter one step before the end of its epoch; the next write fails. *)
Definition last_of_epoch : PersistedCounter.t := PersistedCounter.Mk 9 true (Some "k"%string) 10 10.
Definition failing_once : TestStorage.t :=
  TestStorage.AddPoisonKey "k" (-1) (-2)
    (snd (TestStorage.SyncSetKeyValueInternal "k" (le_split 4 10) TestStorage.new)).

Lemma refused_write_repeats_values_witness :
  let c' := PersistedCounter.Mk 10 true (Some "k"%string) 10 20 in
  let s' := snd (TestStorage.SyncSetKeyValueInternal "k" (le_split 4 20) failing_once) in
  10 = @next_start test_storage "k" s' /\
  exists c'', @PersistedCounter.Advance reference_byte_order test_storage 4 c' s' = (CHIP_NO_ERROR, (c'', s')) /\
    PersistedCounter.mCounterValue c'' = @next_start test_storage "k" s' + 1 /\
    forall e2 c2 s2 c3 s3,
      @PersistedCounter.Init reference_byte_order test_storage 4 true (Some "k"%string) e2
        PersistedCounter.new s' = (CHIP_NO_ERROR, (c2, s2)) ->
      @next_start test_storage "k" s' + 2 * e2 < 2 ^ 32 -> 1 < e2 ->
      @PersistedCounter.Advance reference_byte_order test_storage 4 c2 s2 = (CHIP_NO_ERROR, (c3, s3)) ->
      PersistedCounter.mCounterValue c2 = 10 /\
      PersistedCounter.mCounterValue c3 = PersistedCounter.mCounterValue c''.
Proof.
  apply (@refused_write_repeats_values reference_byte_order test_storage 4 "k"%string last_of_epoch
           failing_once (PersistedCounter.Mk 10 true (Some "k"%string) 10 20)
           (snd (TestStorage.SyncSetKeyValueInternal "k" (le_split 4 20) failing_once))
           CHIP_ERROR_PERSISTED_STORAGE_FAILED).
  - constructor; simpl; try done; lia.
  - simpl; lia.
  - simpl; lia.
  - reflexivity.
  - vm_compute; reflexivity.
  - discriminate.
Defined.

Lemma new_healthy : test_storage_healthy TestStorage.new.
Proof. split_and!; try done; simpl; apply map_Forall_empty. Qed.

Lemma group_counters_never_repeat_witness :
  exists vs, @GroupOutgoingCounters.sent test_storage
      [GroupOutgoingCounters.CallInit 5 6; GroupOutgoingCounters.CallSend true;
       GroupOutgoingCounters.CallInit 7 8; GroupOutgoingCounters.CallSend true;
       GroupOutgoingCounters.CallSend false] (GroupOutgoingCounters.new, TestStorage.new) = Some vs /\
    forall k, StronglySorted Z.lt (of_kind k vs) /\
      Forall (fun v => @start_of test_storage (if k then 5 else 6) TestStorage.new k <= v) (of_kind k vs).
Proof.
  apply (@group_counters_never_repeat test_storage test_storage_healthy test_storage_reliable 5 6
    [GroupOutgoingCounters.CallSend true; GroupOutgoingCounters.CallInit 7 8;
     GroupOutgoingCounters.CallSend true; GroupOutgoingCounters.CallSend false] TestStorage.new).
  - apply new_healthy.
  - intros k b; simpl; rewrite lookup_empty; discriminate.
  - intros []; vm_compute; reflexivity.
Defined.

Definition failing_group_store : TestStorage.t :=
  TestStorage.AddPoisonKey "g/gdc" (-1) (-2)
    (snd (TestStorage.SyncSetKeyValueInternal "g/gdc" (le_split 4 1000) TestStorage.new)).

Lemma refused_group_write_is_final_witness :
  let c1 := GroupOutgoingCounters.Mk 1000 0 true in
  let s1 := snd (TestStorage.SyncSetKeyValueInternal "g/gdc" (le_split 4 2000) failing_group_store) in
  GroupOutgoingCounters.GetCounter false c1 = 1000 /\
  exists s', @GroupOutgoingCounters.sent test_storage
      (replicate 3 (GroupOutgoingCounters.CallSend false)) (c1, s1) =
      Some [(false, 1000); (false, 1001); (false, 1002)] /\
    @stored test_storage s' "g/gdc" = Some (le_split 4 1000) /\
    forall r, @start_of test_storage r s' false = 1000.
Proof.
  apply (@refused_group_write_is_final test_storage false 1000 (GroupOutgoingCounters.Mk 999 0 true)
           failing_group_store (GroupOutgoingCounters.Mk 1000 0 true)
           (snd (TestStorage.SyncSetKeyValueInternal "g/gdc" (le_split 4 2000) failing_group_store))
           CHIP_ERROR_PERSISTED_STORAGE_FAILED 3).
  - reflexivity.
  - vm_compute; reflexivity.
  - simpl; lia.
  - reflexivity.
  - simpl; lia.
  - vm_compute; reflexivity.
  - discriminate.
Defined.

Lemma session_counter_no_wrap_witness :
  (Nat.iter 3 (fun st => match LocalSession_AdvanceAndConsume (snd st) with
                 | (Ok v, c) => (fst st ++ [v], c)
                 | (Err _, c) => (fst st, c) end) ([], 4294967293) =
   ([4294967294; 4294967295], 4294967295)) /\
  (2 < 3 -> fst (LocalSession_AdvanceAndConsume 4294967295) = Err CHIP_ERROR_MESSAGE_COUNTER_EXHAUSTED).
Proof. apply (session_counter_no_wrap 4294967293 3); split; vm_compute; congruence. Defined.
