(* ===== verification/MessageHeader.v ===== *)
(** * MessageHeader: the message framing of the transport layer

    Model of src/src/transport/raw/MessageHeader.{h,cpp}: the unencrypted
    [PacketHeader], the encrypted [PayloadHeader] and the message authentication
    tag, with their setters, encoders and decoders, and the packet-buffer versions
    [EncodeBeforeData] and [DecodeAndConsume].

    [Optional<T>] is [option Z]; the enumerators of [SessionType] are their values
    because [SetSecurityFlags] casts any two bits to the enumeration.  Decoders run
    in the error monad on the header and a [Reader]: what was stored before an
    error stays in the header. *)

From S2P Require Import Prelude Encoding PacketBuffer.

(** ** Constants *)

Definition kUnicastSession : Z := 0.
Definition kGroupSession : Z := 1.

(** [Header::MsgFlagValues]; [kDSIZReserved] is the union of the last two. *)
Definition kSourceNodeIdPresent : Z := 4.
Definition kDestinationNodeIdPresent : Z := 1.
Definition kDestinationGroupIdPresent : Z := 2.

(** [Header::SecFlagValues] and [SecFlagMask]. *)
Definition kPrivacyFlag : Z := 128.
Definition kControlMsgFlag : Z := 64.
Definition kMsgExtensionFlag : Z := 32.
Definition kSessionTypeMask : Z := 3.

(** [Header::ExFlagValues]. *)
Definition kExchangeFlag_Initiator : Z := 1.
Definition kExchangeFlag_AckMsg : Z := 2.
Definition kExchangeFlag_NeedsAck : Z := 4.
Definition kExchangeFlag_SecuredExtension : Z := 8.
Definition kExchangeFlag_VendorIdPresent : Z := 16.

Definition kMsgUnicastSessionIdUnsecured : Z := 0.
Definition kMsgHeaderVersion : Z := 0.
Definition kVersionMask : Z := 240.
Definition kVersionShift : Z := 4.
Definition kMsgFlagsMask : Z := 7.

Definition kFixedUnencryptedHeaderSizeBytes : nat := 8.
Definition kEncryptedHeaderSizeBytes : nat := 6.
Definition kNodeIdSizeBytes : nat := 8.
Definition kGroupIdSizeBytes : nat := 2.
Definition kVendorIdSizeBytes : nat := 2.
Definition kAckMessageCounterSizeBytes : nat := 4.
Definition kPrivacyHeaderMinLength : nat := 4.
Definition CHIP_CRYPTO_AEAD_MIC_LENGTH_BYTES : nat := 16.
Definition kMaxTagLen : nat := 16.

(** ** PacketHeader *)
Record PacketHeader := MkPacketHeader {
  mMessageCounter : Z;
  mSourceNodeId : option Z;
  mDestinationNodeId : option Z;
  mDestinationGroupId : option Z;
  mSessionId : Z;
  mSessionType : Z;
  mMsgFlags : Z;
  mSecFlags : Z }.

Definition PacketHeader_new : PacketHeader :=
  MkPacketHeader 0 None None None kMsgUnicastSessionIdUnsecured kUnicastSession 0 0.

(** One field replaced. *)
Definition with_counter (h : PacketHeader) x := MkPacketHeader x (mSourceNodeId h)
  (mDestinationNodeId h) (mDestinationGroupId h) (mSessionId h) (mSessionType h) (mMsgFlags h) (mSecFlags h).
Definition with_source (h : PacketHeader) x := MkPacketHeader (mMessageCounter h) x
  (mDestinationNodeId h) (mDestinationGroupId h) (mSessionId h) (mSessionType h) (mMsgFlags h) (mSecFlags h).
Definition with_dest_node (h : PacketHeader) x := MkPacketHeader (mMessageCounter h) (mSourceNodeId h)
  x (mDestinationGroupId h) (mSessionId h) (mSessionType h) (mMsgFlags h) (mSecFlags h).
Definition with_dest_group (h : PacketHeader) x := MkPacketHeader (mMessageCounter h) (mSourceNodeId h)
  (mDestinationNodeId h) x (mSessionId h) (mSessionType h) (mMsgFlags h) (mSecFlags h).
Definition with_session_id (h : PacketHeader) x := MkPacketHeader (mMessageCounter h) (mSourceNodeId h)
  (mDestinationNodeId h) (mDestinationGroupId h) x (mSessionType h) (mMsgFlags h) (mSecFlags h).
Definition with_session_type (h : PacketHeader) x := MkPacketHeader (mMessageCounter h) (mSourceNodeId h)
  (mDestinationNodeId h) (mDestinationGroupId h) (mSessionId h) x (mMsgFlags h) (mSecFlags h).
Definition with_msg_flags (h : PacketHeader) x := MkPacketHeader (mMessageCounter h) (mSourceNodeId h)
  (mDestinationNodeId h) (mDestinationGroupId h) (mSessionId h) (mSessionType h) x (mSecFlags h).
Definition with_sec_flags (h : PacketHeader) x := MkPacketHeader (mMessageCounter h) (mSourceNodeId h)
  (mDestinationNodeId h) (mDestinationGroupId h) (mSessionId h) (mSessionType h) (mMsgFlags h) x.

Definition has_value {A} (o : option A) : bool := match o with Some _ => true | None => false end.

Definition HasPrivacyFlag h := BitFlags.Has (mSecFlags h) kPrivacyFlag.
Definition HasSourceNodeId h := BitFlags.Has (mMsgFlags h) kSourceNodeIdPresent.
Definition HasDestinationNodeId h := BitFlags.Has (mMsgFlags h) kDestinationNodeIdPresent.
Definition HasDestinationGroupId h := BitFlags.Has (mMsgFlags h) kDestinationGroupIdPresent.
Definition IsGroupSession h := mSessionType h =? kGroupSession.
Definition IsUnicastSession h := mSessionType h =? kUnicastSession.
Definition IsSessionTypeValid h := IsUnicastSession h || IsGroupSession h.
Definition IsSecureSessionControlMsg h := BitFlags.Has (mSecFlags h) kControlMsgFlag.
Definition IsValidGroupMsg h :=
  IsGroupSession h && HasSourceNodeId h && HasDestinationGroupId h && negb (IsSecureSessionControlMsg h).
Definition IsValidMCSPMsg h :=
  IsGroupSession h && HasSourceNodeId h && HasDestinationNodeId h && IsSecureSessionControlMsg h.
Definition IsEncrypted h :=
  negb ((mSessionId h =? kMsgUnicastSessionIdUnsecured) && IsUnicastSession h).
Definition MICTagLength h : nat :=
  if IsEncrypted h then CHIP_CRYPTO_AEAD_MIC_LENGTH_BYTES else 0.

Definition SetFlags_Sec h value := with_sec_flags h (BitFlags.Set_ (mSecFlags h) value).
Definition SetFlags_Msg h value := with_msg_flags h (BitFlags.Set_ (mMsgFlags h) value).
Definition SetMessageFlags h flags := with_msg_flags h flags.
Definition SetSecurityFlags h securityFlags :=
  with_session_type (with_sec_flags h securityFlags) (Z.land securityFlags kSessionTypeMask).
Definition SetSecureSessionControlMsg h value :=
  with_sec_flags h (BitFlags.Set_if 8 (mSecFlags h) kControlMsgFlag value).

(** The setters of an identifier, [Some] for the overloads taking a value. *)
Definition SetSourceNodeId h (id : option Z) :=
  with_msg_flags (with_source h id) (BitFlags.Set_if 8 (mMsgFlags h) kSourceNodeIdPresent (has_value id)).
Definition SetDestinationNodeId h (id : option Z) :=
  with_msg_flags (with_dest_node h id) (BitFlags.Set_if 8 (mMsgFlags h) kDestinationNodeIdPresent (has_value id)).
Definition SetDestinationGroupId h (id : option Z) :=
  with_msg_flags (with_dest_group h id) (BitFlags.Set_if 8 (mMsgFlags h) kDestinationGroupIdPresent (has_value id)).
Definition ClearSourceNodeId h :=
  with_msg_flags (with_source h None) (BitFlags.Clear 8 (mMsgFlags h) kSourceNodeIdPresent).
Definition ClearDestinationNodeId h :=
  with_msg_flags (with_dest_node h None) (BitFlags.Clear 8 (mMsgFlags h) kDestinationNodeIdPresent).
Definition ClearDestinationGroupId h :=
  with_msg_flags (with_dest_group h None) (BitFlags.Clear 8 (mMsgFlags h) kDestinationGroupIdPresent).

Definition SetSessionType h type :=
  with_sec_flags (with_session_type h type)
    (wrap 8 (Z.lor (Z.land (mSecFlags h) (Z.lnot kSessionTypeMask)) (Z.land type kSessionTypeMask))).
Definition SetSessionId h id := with_session_id h id.
Definition SetMessageCounter h id := with_counter h id.
Definition SetUnsecured h :=
  with_session_type (with_session_id h kMsgUnicastSessionIdUnsecured) kUnicastSession.

Definition PrivacyHeaderLength h : nat :=
  kPrivacyHeaderMinLength +
  (if BitFlags.Has (mMsgFlags h) kSourceNodeIdPresent then 8 else 0) +
  (if BitFlags.Has (mMsgFlags h) kDestinationNodeIdPresent then 8
   else if BitFlags.Has (mMsgFlags h) kDestinationGroupIdPresent then 2 else 0).
Definition PayloadOffset h : nat := kPrivacyHeaderMinLength + PrivacyHeaderLength h.

Definition EncodeSizeBytes h : nat :=
  kFixedUnencryptedHeaderSizeBytes +
  (if has_value (mSourceNodeId h) then kNodeIdSizeBytes else 0) +
  (if has_value (mDestinationNodeId h) then kNodeIdSizeBytes
   else if has_value (mDestinationGroupId h) then kGroupIdSizeBytes else 0).

(** ** PayloadHeader *)

(** [Protocols::Id]. *)
Record ProtocolId := MkProtocolId { GetVendorId : Z; GetProtocolId : Z }.
Definition VendorId_Common : Z := 0.
Definition Protocols_NotSpecified : ProtocolId := MkProtocolId 65535 65535.

Record PayloadHeader := MkPayloadHeader {
  mMessageType : Z;
  mExchangeID : Z;
  mProtocolID : ProtocolId;
  mExchangeFlags : Z;
  mAckMessageCounter : option Z }.

Definition with_type (h : PayloadHeader) x :=
  MkPayloadHeader x (mExchangeID h) (mProtocolID h) (mExchangeFlags h) (mAckMessageCounter h).
Definition with_exchange_id (h : PayloadHeader) x :=
  MkPayloadHeader (mMessageType h) x (mProtocolID h) (mExchangeFlags h) (mAckMessageCounter h).
Definition with_protocol (h : PayloadHeader) x :=
  MkPayloadHeader (mMessageType h) (mExchangeID h) x (mExchangeFlags h) (mAckMessageCounter h).
Definition with_ex_flags (h : PayloadHeader) x :=
  MkPayloadHeader (mMessageType h) (mExchangeID h) (mProtocolID h) x (mAckMessageCounter h).
Definition with_ack (h : PayloadHeader) x :=
  MkPayloadHeader (mMessageType h) (mExchangeID h) (mProtocolID h) (mExchangeFlags h) x.

Definition HaveVendorId h := BitFlags.Has (mExchangeFlags h) kExchangeFlag_VendorIdPresent.
Definition SetProtocol h protocol :=
  with_protocol
    (with_ex_flags h (BitFlags.Set_if 8 (mExchangeFlags h) kExchangeFlag_VendorIdPresent
                        (negb (GetVendorId protocol =? VendorId_Common)))) protocol.
Definition PayloadHeader_new : PayloadHeader :=
  SetProtocol (MkPayloadHeader 0 0 Protocols_NotSpecified 0 None) Protocols_NotSpecified.
Definition SetMessageType h protocol type := with_type (SetProtocol h protocol) type.
Definition SetExchangeID h id := with_exchange_id h id.
Definition SetInitiator h inInitiator :=
  with_ex_flags h (BitFlags.Set_if 8 (mExchangeFlags h) kExchangeFlag_Initiator inInitiator).
Definition SetAckMessageCounter h (id : option Z) :=
  with_ex_flags (with_ack h id) (BitFlags.Set_if 8 (mExchangeFlags h) kExchangeFlag_AckMsg (has_value id)).
Definition SetNeedsAck h inNeedsAck :=
  with_ex_flags h (BitFlags.Set_if 8 (mExchangeFlags h) kExchangeFlag_NeedsAck inNeedsAck).
Definition IsInitiator h := BitFlags.Has (mExchangeFlags h) kExchangeFlag_Initiator.
Definition IsAckMsg h := BitFlags.Has (mExchangeFlags h) kExchangeFlag_AckMsg.
Definition NeedsAck h := BitFlags.Has (mExchangeFlags h) kExchangeFlag_NeedsAck.

Definition PayloadEncodeSizeBytes h : nat :=
  kEncryptedHeaderSizeBytes + (if HaveVendorId h then kVendorIdSizeBytes else 0) +
  (if has_value (mAckMessageCounter h) then kAckMessageCounterSizeBytes else 0).

Section Codec.
Context `{BO : ByteOrder}.

(** ** Decoding *)

(** A checked read while decoding a header of type [H]. *)
Definition read {H : Type} (n : nat) : M (H * Reader) Z := fun '(h, r) =>
  let (v, r) := rd n r in (v, (h, r)).
Definition header {H : Type} : M (H * Reader) H := fun '(h, r) => (Ok h, (h, r)).
Definition update {H : Type} (f : H -> H) : M (H * Reader) unit := fun '(h, r) => (Ok tt, (f h, r)).

(** The length-prefixed extension block both headers may carry. *)
Definition skip_extension {H : Type} : M (H * Reader) unit :=
  let! length := read 2 in
  fun '(h, r) =>
    if length <=? Z.of_nat (Remaining r) then (Ok tt, (h, Skip r (Z.to_nat length)))
    else (Err CHIP_ERROR_INTERNAL, (h, r)).

Definition octets_read {H : Type} : M (H * Reader) Z :=
  fun '(h, r) => (Ok (wrap 16 (Z.of_nat (OctetsRead r))), (h, r)).

Definition DecodeFixedCommon : M (PacketHeader * Reader) unit :=
  let! msgFlags := read 1 in
  verify (Z.shiftr (Z.land msgFlags kVersionMask) kVersionShift =? kMsgHeaderVersion)
         CHIP_ERROR_VERSION_MISMATCH ;;
  update (fun h => SetMessageFlags h msgFlags) ;;
  let! sessionId := read 2 in
  update (fun h => with_session_id h sessionId) ;;
  let! securityFlags := read 1 in
  update (fun h => SetSecurityFlags h securityFlags).

Definition DecodeFixed (h : PacketHeader) (buf : PBuf) : result unit * PacketHeader :=
  let '(v, (h, _)) := DecodeFixedCommon (h, Reader_new (data buf)) in (v, h).

Definition DecodeSource : M (PacketHeader * Reader) unit :=
  let! h := header in
  if BitFlags.Has (mMsgFlags h) kSourceNodeIdPresent then
    let! sourceNodeId := read 8 in
    update (fun h => with_source h (Some sourceNodeId))
  else update (fun h => with_source h None).

Definition DecodeDestination : M (PacketHeader * Reader) unit :=
  let! h := header in
  if BitFlags.HasAll (mMsgFlags h) [kDestinationNodeIdPresent; kDestinationGroupIdPresent]
  then fail CHIP_ERROR_INTERNAL
  else if BitFlags.Has (mMsgFlags h) kDestinationNodeIdPresent then
    let! destinationNodeId := read 8 in
    update (fun h => with_dest_group (with_dest_node h (Some destinationNodeId)) None)
  else if BitFlags.Has (mMsgFlags h) kDestinationGroupIdPresent then
    verify (mSessionType h =? kGroupSession) CHIP_ERROR_INTERNAL ;;
    let! destinationGroupId := read 2 in
    update (fun h => with_dest_node (with_dest_group h (Some destinationGroupId)) None)
  else update (fun h => with_dest_group (with_dest_node h None) None).

Definition PacketHeader_Decode_steps : M (PacketHeader * Reader) Z :=
  DecodeFixedCommon ;;
  let! counter := read 4 in
  update (fun h => with_counter h counter) ;;
  DecodeSource ;;
  let! h := header in
  verify (IsSessionTypeValid h) CHIP_ERROR_INTERNAL ;;
  DecodeDestination ;;
  let! h := header in
  (if BitFlags.Has (mSecFlags h) kMsgExtensionFlag then skip_extension else ret tt) ;;
  octets_read.

(** [Decode(data, size, &decode_len)]: [decode_len] is set on success only. *)
Definition PacketHeader_Decode (h : PacketHeader) (data : bytes) : result Z * PacketHeader :=
  let '(v, (h, _)) := PacketHeader_Decode_steps (h, Reader_new data) in (v, h).

Definition PayloadHeader_Decode_steps : M (PayloadHeader * Reader) Z :=
  let! flags := read 1 in
  let! messageType := read 1 in
  update (fun h => with_type h messageType) ;;
  let! exchangeID := read 2 in
  update (fun h => with_exchange_id h exchangeID) ;;
  update (fun h => with_ex_flags h flags) ;;
  let! h := header in
  let! vendor_id := if HaveVendorId h then read 2 else ret VendorId_Common in
  let! protocol_id := read 2 in
  update (fun h => with_protocol h (MkProtocolId vendor_id protocol_id)) ;;
  (if BitFlags.Has (mExchangeFlags h) kExchangeFlag_AckMsg then
     let! ack_message_counter := read 4 in
     update (fun h => with_ack h (Some ack_message_counter))
   else update (fun h => with_ack h None)) ;;
  (if BitFlags.Has (mExchangeFlags h) kExchangeFlag_SecuredExtension then skip_extension
   else ret tt) ;;
  octets_read.

Definition PayloadHeader_Decode (h : PayloadHeader) (data : bytes) : result Z * PayloadHeader :=
  let '(v, (h, _)) := PayloadHeader_Decode_steps (h, Reader_new data) in (v, h).

(** [DecodeAndConsume(buf)] of either header. *)
Definition DecodeAndConsume {H : Type} (Decode : H -> bytes -> result Z * H)
    (h : H) (buf : PBuf) : result unit * (H * PBuf) :=
  match Decode h (data buf) with
  | (Ok headerSize, h) => (Ok tt, (h, ConsumeHead buf (Z.to_nat headerSize)))
  | (Err e, h) => (Err e, (h, buf))
  end.

(** ** Encoding *)

(** The memory at [data] and the write pointer as its distance to [data]. *)
Definition write (n : nat) (v : Z) : M (bytes * nat) unit := fun '(mem, p) =>
  (Ok tt, (mem_write p (nl_le_put n v) mem, (p + n)%nat)).

(** [VerifyOrReturnError(p - data == EncodeSizeBytes())]. *)
Definition written (size : nat) : M (bytes * nat) nat := fun '(mem, p) =>
  if (p =? size)%nat then (Ok p, (mem, p)) else (Err CHIP_ERROR_INTERNAL, (mem, p)).

Definition encoded_message_flags (h : PacketHeader) : Z :=
  BitFlags.Set_if 8
    (BitFlags.Set_if 8
       (BitFlags.Set_if 8 (mMsgFlags h) kSourceNodeIdPresent (has_value (mSourceNodeId h)))
       kDestinationNodeIdPresent (has_value (mDestinationNodeId h)))
    kDestinationGroupIdPresent (has_value (mDestinationGroupId h)).

Definition PacketHeader_Encode_steps (h : PacketHeader) : M (bytes * nat) nat :=
  write 1 (wrap 8 (Z.lor (Z.shiftl kMsgHeaderVersion kVersionShift)
                         (Z.land (encoded_message_flags h) kMsgFlagsMask))) ;;
  write 2 (mSessionId h) ;;
  write 1 (mSecFlags h) ;;
  write 4 (mMessageCounter h) ;;
  match mSourceNodeId h with Some id => write 8 id | None => ret tt end ;;
  match mDestinationNodeId h, mDestinationGroupId h with
  | Some id, _ => write 8 id
  | None, Some id => write 2 id
  | None, None => ret tt
  end ;;
  written (EncodeSizeBytes h).

(** [Encode(data, size, &encode_size)] into the [size] bytes of [data]. *)
Definition PacketHeader_Encode (h : PacketHeader) (data : bytes) : result nat * bytes :=
  if negb (EncodeSizeBytes h <=? length data)%nat then (Err CHIP_ERROR_INVALID_ARGUMENT, data)
  else if has_value (mDestinationNodeId h) && has_value (mDestinationGroupId h)
  then (Err CHIP_ERROR_INTERNAL, data)
  else if negb (IsSessionTypeValid h) then (Err CHIP_ERROR_INTERNAL, data)
  else let '(v, (data, _)) := PacketHeader_Encode_steps h (data, 0%nat) in (v, data).

Definition PayloadHeader_Encode_steps (h : PayloadHeader) : M (bytes * nat) nat :=
  write 1 (mExchangeFlags h) ;;
  write 1 (mMessageType h) ;;
  write 2 (mExchangeID h) ;;
  (if HaveVendorId h then write 2 (GetVendorId (mProtocolID h)) else ret tt) ;;
  write 2 (GetProtocolId (mProtocolID h)) ;;
  match mAckMessageCounter h with Some c => write 4 c | None => ret tt end ;;
  written (PayloadEncodeSizeBytes h).

Definition PayloadHeader_Encode (h : PayloadHeader) (data : bytes) : result nat * bytes :=
  if negb (PayloadEncodeSizeBytes h <=? length data)%nat then (Err CHIP_ERROR_INVALID_ARGUMENT, data)
  else let '(v, (data, _)) := PayloadHeader_Encode_steps h (data, 0%nat) in (v, data).

(** [EncodeBeforeData(buf)] of either header, [EncodeAtStart] included. *)
Definition EncodeBeforeData {H : Type} (EncodeSizeBytes : H -> nat)
    (Encode : H -> bytes -> result nat * bytes) (h : H) (buf : PBuf) : result unit * PBuf :=
  let headerSize := EncodeSizeBytes h in
  let (ok, buf) := EnsureReservedSize buf headerSize in
  if negb ok then (Err CHIP_ERROR_NO_MEMORY, buf)
  else
    let buf := SetStart buf (Z.of_nat (pPayload buf) - Z.of_nat headerSize) in
    let (v, d) := Encode h (data buf) in
    let buf := MkPBuf (mem_write (pPayload buf) d (pMem buf)) (pPayload buf) (pTotLen buf)
                      (pLen buf) (pRef buf) in
    match v with
    | Err e => (Err e, buf)
    | Ok actualEncodedHeaderSize =>
        if (actualEncodedHeaderSize =? headerSize)%nat then (Ok tt, buf)
        else (Err CHIP_ERROR_INTERNAL, buf)
    end.

(** ** MessageAuthenticationCode *)

(** The tag is the 16 bytes of [mTag]. *)
Definition SetTag (mTag tag : bytes) (len : nat) : bytes :=
  let tagLen := CHIP_CRYPTO_AEAD_MIC_LENGTH_BYTES in
  if (0 <? tagLen)%nat && (tagLen <=? kMaxTagLen)%nat && (len =? tagLen)%nat
  then mem_write 0 (take tagLen tag) mTag else mTag.

Definition MAC_Decode (mTag : bytes) (packetHeader : PacketHeader) (data : bytes)
    : result nat * bytes :=
  let taglen := MICTagLength packetHeader in
  if (taglen =? 0)%nat then (Err CHIP_ERROR_WRONG_ENCRYPTION_TYPE_FROM_PEER, mTag)
  else if negb (taglen <=? length data)%nat then (Err CHIP_ERROR_INVALID_ARGUMENT, mTag)
  else (Ok taglen, mem_write 0 (take taglen data) mTag).

Definition MAC_Encode (mTag : bytes) (packetHeader : PacketHeader) (data : bytes)
    : result nat * bytes :=
  let taglen := MICTagLength packetHeader in
  if (taglen =? 0)%nat then (Err CHIP_ERROR_WRONG_ENCRYPTION_TYPE, data)
  else if negb (taglen <=? length data)%nat then (Err CHIP_ERROR_INVALID_ARGUMENT, data)
  else (Ok taglen, mem_write 0 (take taglen mTag) data).

End Codec.

(** ** Reasoning about decoders *)
Section DecoderLogic.
Context `{BO : ByteOrder} {H : Type}.
Implicit Types (r : Reader) (h : H) (b l : bytes) (k : nat).

(** A healthy reader at position [k] with [l] left to read. *)
Definition Rd r k l : Prop :=
  Reader_wf r /\ mStatus r = CHIP_NO_ERROR /\ rest r = l /\ mReadPos r = k.

Lemma Rd_new l : Rd (Reader_new l) 0 l.
Proof. split_and!; auto using Reader_new_wf, rest_new. Qed.

(** [reads k m b h a h']: on any input that continues with [b] at position [k],
    [m] consumes exactly [b], returns [a] and turns the header [h] into [h']. *)
Definition reads {A} k (m : M (H * Reader) A) b h a h' : Prop :=
  forall r l, Rd r k (b ++ l) ->
  exists r', m (h, r) = (Ok a, (h', r')) /\ Rd r' (k + length b) l.

Lemma reads_bind {A B} k (m : M (H * Reader) A) (f : A -> M (H * Reader) B) b1 b2 h a h1 c h2 :
  reads k m b1 h a h1 -> reads (k + length b1) (f a) b2 h1 c h2 ->
  reads k (bind m f) (b1 ++ b2) h c h2.
Proof.
  intros Hm Hf r l Hr; rewrite <-app_assoc in Hr.
  destruct (Hm r _ Hr) as (r1 & Hr1 & Hrd1); destruct (Hf r1 _ Hrd1) as (r2 & Hr2 & Hrd2).
  exists r2; rewrite (bind_ok _ _ _ _ _ Hr1), length_app, Nat.add_assoc; auto.
Qed.

Lemma reads_bind_nil {A B} k (m : M (H * Reader) A) (f : A -> M (H * Reader) B) b h a h1 c h2 :
  reads k m [] h a h1 -> reads k (f a) b h1 c h2 -> reads k (bind m f) b h c h2.
Proof.
  intros Hm Hf; apply (reads_bind k m f [] b h a h1); [done|].
  by rewrite Nat.add_0_r.
Qed.

Lemma reads_read k n v h :
  is_uint (8 * Z.of_nat n) v -> reads k (read n) (le_split n v) h v h.
Proof.
  intros Hv r l (Hwf & Hs & Hr & Hk).
  destruct (rd_le_split n v r l Hwf Hs Hv Hr) as (Hrd & Hr' & Hwf').
  exists (advance r n); unfold read; rewrite Hrd, length_le_split; split; [done|].
  split_and!; auto; simpl; by rewrite Hk.
Qed.

Lemma reads_nil {A} k (m : M (H * Reader) A) h a h' :
  (forall r, Rd r k (rest r) -> m (h, r) = (Ok a, (h', r))) -> reads k m [] h a h'.
Proof.
  intros Hm r l Hr; exists r; rewrite Nat.add_0_r; split; [|done].
  apply Hm; destruct Hr as (?&?&?&?); split_and!; auto.
Qed.

Lemma reads_update k (f : H -> H) h h' : f h = h' -> reads k (update f) [] h tt h'.
Proof. intros <-; by apply reads_nil. Qed.
Lemma reads_header k h : reads k header [] h h h.
Proof. by apply reads_nil. Qed.
Lemma reads_ret {A} k (a : A) h : reads k (ret a) [] h a h.
Proof. by apply reads_nil. Qed.
Lemma reads_verify k (b : bool) e h : b = true -> reads k (verify b e) [] h tt h.
Proof. intros ->; by apply reads_nil. Qed.
Lemma reads_octets k h : reads k octets_read [] h (wrap 16 (Z.of_nat k)) h.
Proof.
  apply reads_nil; intros r (_ & _ & _ & Hk); unfold octets_read, OctetsRead; by rewrite Hk.
Qed.

Lemma reads_octets_at k n h : n = k -> reads k octets_read [] h (wrap 16 (Z.of_nat n)) h.
Proof. intros ->; apply reads_octets. Qed.

(** The length a decoder reports is the position it stopped at. *)
Definition returns_position (m : M (H * Reader) Z) : Prop :=
  forall s a h' r', m s = (Ok a, (h', r')) -> a = wrap 16 (Z.of_nat (mReadPos r')).

Lemma returns_position_bind {A} (m : M (H * Reader) A) f :
  (forall a, returns_position (f a)) -> returns_position (bind m f).
Proof. intros Hf s a h' r' (b & s1 & _ & Hk)%bind_ok_inv; by apply (Hf b s1 a h'). Qed.

Lemma returns_position_octets : returns_position octets_read.
Proof. intros [h r] a h' r' Hm; unfold octets_read, OctetsRead in Hm; by simplify_eq. Qed.

Lemma reads_run {A} (m : M (H * Reader) A) b tail h a h' :
  reads 0 m b h a h' ->
  (let '(v, (h, _)) := m (h, Reader_new (b ++ tail)) in (v, h)) = (Ok a, h').
Proof. intros Hm; by destruct (Hm (Reader_new (b ++ tail)) tail (Rd_new _)) as (r' & -> & _). Qed.

(** [behaves E m]: on a healthy reader [m] stays inside the buffer, only moves
    forward, and fails with an error of [E]. *)
Definition behaves {A} (n : nat) (E : CHIP_ERROR -> Prop) (m : M (H * Reader) A) : Prop :=
  forall h r, Reader_wf r -> mStatus r = CHIP_NO_ERROR ->
  match m (h, r) with
  | (Ok _, (_, r')) => Reader_wf r' /\ mStatus r' = CHIP_NO_ERROR /\ mBuf r' = mBuf r /\
                       (mReadPos r + n <= mReadPos r')%nat
  | (Err e, _) => E e
  end.

Lemma behaves_bind {A B} n1 n2 E (m : M (H * Reader) A) (f : A -> M (H * Reader) B) :
  behaves n1 E m -> (forall a, behaves n2 E (f a)) -> behaves (n1 + n2) E (bind m f).
Proof.
  intros Hm Hf h r Hwf Hs; unfold bind; specialize (Hm h r Hwf Hs).
  destruct (m (h, r)) as [[a|e] [h1 r1]]; [|done].
  destruct Hm as (Hwf1 & Hs1 & Hb1 & Hp1); specialize (Hf a h1 r1 Hwf1 Hs1).
  destruct (f a (h1, r1)) as [[c|e] [h2 r2]]; [|done].
  destruct Hf as (?&?&?&?); split_and!; auto; [congruence|lia].
Qed.

Lemma behaves_read n E : E CHIP_ERROR_BUFFER_TOO_SMALL -> behaves n E (read n).
Proof.
  intros HE h r Hwf Hs; unfold read.
  destruct (le_lt_dec n (length (rest r))) as [Hn|Hn].
  - rewrite (rd_ok n r Hwf Hs Hn); rewrite length_rest in Hn by done.
    split_and!; auto.
  - by destruct (rd_short n r Hwf Hs Hn) as [r' ->].
Qed.

Lemma behaves_weaken {A} n n' E (m : M (H * Reader) A) :
  (n' <= n)%nat -> behaves n E m -> behaves n' E m.
Proof.
  intros Hn Hm h r Hwf Hs; specialize (Hm h r Hwf Hs).
  destruct (m (h, r)) as [[a|e] [h1 r1]]; [|done].
  destruct Hm as (?&?&?&?); split_and!; auto; lia.
Qed.

Lemma behaves_update E (f : H -> H) : behaves 0 E (update f).
Proof. intros h r ??; simpl; split_and!; auto; lia. Qed.
Lemma behaves_header E : behaves 0 E header.
Proof. intros h r ??; simpl; split_and!; auto; lia. Qed.
Lemma behaves_ret {A} E (a : A) : behaves 0 E (ret a).
Proof. intros h r ??; simpl; split_and!; auto; lia. Qed.
Lemma behaves_octets E : behaves 0 E octets_read.
Proof. intros h r ??; simpl; split_and!; auto; lia. Qed.
Lemma behaves_fail {A} n (E : CHIP_ERROR -> Prop) e : E e -> behaves n E (fail e : M _ A).
Proof. by intros ? h r ??. Qed.
Lemma behaves_verify (E : CHIP_ERROR -> Prop) (c : bool) e : E e -> behaves 0 E (verify c e).
Proof. intros; destruct c; [apply behaves_ret|by apply behaves_fail]. Qed.

Lemma behaves_skip_extension (E : CHIP_ERROR -> Prop) :
  E CHIP_ERROR_BUFFER_TOO_SMALL -> E CHIP_ERROR_INTERNAL -> behaves 0 E skip_extension.
Proof.
  intros; unfold skip_extension; apply (behaves_weaken (2 + 0)); [lia|].
  apply behaves_bind; [by apply behaves_read|]; intros len h r Hwf Hs.
  unfold Remaining; destruct (Z.leb_spec len (Z.of_nat (mAvailable r))); [|done].
  unfold Skip; split_and!; auto; [apply advance_wf; [done|lia]|simpl; lia].
Qed.
End DecoderLogic.

Ltac reads_step :=
  lazymatch goal with
  | |- reads _ (bind (update _) _) _ _ _ _ => eapply reads_bind_nil
  | |- reads _ (bind header _) _ _ _ _ => eapply reads_bind_nil
  | |- reads _ (bind (ret _) _) _ _ _ _ => eapply reads_bind_nil
  | |- reads _ (bind (verify _ _) _) _ _ _ _ => eapply reads_bind_nil
  | |- reads _ (bind _ _) _ _ _ _ => eapply reads_bind
  | |- reads _ (read _) _ _ _ _ => apply reads_read
  | |- reads _ (update _) _ _ _ _ => apply reads_update; reflexivity
  | |- reads _ header _ _ _ _ => apply reads_header
  | |- reads _ (ret _) _ _ _ _ => apply reads_ret
  | |- reads _ (verify _ _) _ _ _ _ => apply reads_verify
  | |- reads _ octets_read _ _ _ _ => apply reads_octets
  end.

(** One operation of a decoder, its side condition solved when it is trivial. *)
Ltac reads_next := reads_step; [reads_step; try done|].

(** ** Well-formed packet headers *)

(** The flag bits the message-flag byte must have for its optional fields. *)
Definition flags_of (src node group : bool) : Z :=
  (if src then 4 else 0) + (if node then 1 else 0) + (if group then 2 else 0).
Definition sec_flags_of (type : Z) (control privacy : bool) : Z :=
  type + (if control then 64 else 0) + (if privacy then 128 else 0).

Definition opt_uint (w : Z) (o : option Z) : Prop :=
  match o with Some v => is_uint w v | None => True end.

Record PacketHeader_ok (h : PacketHeader) : Prop := {
  ok_counter : is_u32 (mMessageCounter h);
  ok_source : opt_uint 64 (mSourceNodeId h);
  ok_dest_node : opt_uint 64 (mDestinationNodeId h);
  ok_dest_group : opt_uint 16 (mDestinationGroupId h);
  ok_session : is_u16 (mSessionId h);
  ok_type : mSessionType h = kUnicastSession \/ mSessionType h = kGroupSession;
  ok_msg_flags : mMsgFlags h = flags_of (has_value (mSourceNodeId h))
                   (has_value (mDestinationNodeId h)) (has_value (mDestinationGroupId h));
  ok_sec_flags : exists control privacy, mSecFlags h = sec_flags_of (mSessionType h) control privacy }.

(** The setters a sender uses to build a header. *)
Inductive header_call :=
| CallSetSourceNodeId (id : option Z)
| CallSetDestinationNodeId (id : option Z)
| CallSetDestinationGroupId (id : option Z)
| CallSetSessionType (type : Z)
| CallSetSessionId (id : Z)
| CallSetMessageCounter (id : Z)
| CallSetSecureSessionControlMsg (value : bool)
| CallSetPrivacyFlag.

Definition run_header_call (h : PacketHeader) (c : header_call) : PacketHeader :=
  match c with
  | CallSetSourceNodeId id => SetSourceNodeId h id
  | CallSetDestinationNodeId id => SetDestinationNodeId h id
  | CallSetDestinationGroupId id => SetDestinationGroupId h id
  | CallSetSessionType type => SetSessionType h type
  | CallSetSessionId id => SetSessionId h id
  | CallSetMessageCounter id => SetMessageCounter h id
  | CallSetSecureSessionControlMsg value => SetSecureSessionControlMsg h value
  | CallSetPrivacyFlag => SetFlags_Sec h kPrivacyFlag
  end.

(** Arguments of the C++ parameter types. *)
Definition header_call_ok (c : header_call) : Prop :=
  match c with
  | CallSetSourceNodeId id | CallSetDestinationNodeId id => opt_uint 64 id
  | CallSetDestinationGroupId id => opt_uint 16 id
  | CallSetSessionType type => type = kUnicastSession \/ type = kGroupSession
  | CallSetSessionId id => is_u16 id
  | CallSetMessageCounter id => is_u32 id
  | _ => True
  end.

Lemma flags_of_set src node group b :
  BitFlags.Set_if 8 (flags_of src node group) kSourceNodeIdPresent b = flags_of b node group /\
  BitFlags.Set_if 8 (flags_of src node group) kDestinationNodeIdPresent b = flags_of src b group /\
  BitFlags.Set_if 8 (flags_of src node group) kDestinationGroupIdPresent b = flags_of src node b.
Proof. by destruct src, node, group, b. Qed.

Lemma flags_of_has src node group :
  BitFlags.Has (flags_of src node group) kSourceNodeIdPresent = src /\
  BitFlags.Has (flags_of src node group) kDestinationNodeIdPresent = node /\
  BitFlags.Has (flags_of src node group) kDestinationGroupIdPresent = group /\
  BitFlags.HasAll (flags_of src node group)
    [kDestinationNodeIdPresent; kDestinationGroupIdPresent] = node && group.
Proof. by destruct src, node, group. Qed.

Lemma sec_flags_facts type c p :
  type = kUnicastSession \/ type = kGroupSession ->
  is_u8 (sec_flags_of type c p) /\ Z.land (sec_flags_of type c p) kSessionTypeMask = type /\
  BitFlags.Has (sec_flags_of type c p) kMsgExtensionFlag = false.
Proof. intros [-> | ->]; destruct c, p; repeat split; vm_compute; congruence. Qed.

Lemma PacketHeader_new_ok : PacketHeader_ok PacketHeader_new.
Proof.
  constructor; simpl; auto; try (split; vm_compute; congruence); by exists false, false.
Qed.

Lemma run_header_call_ok h c :
  PacketHeader_ok h -> header_call_ok c -> PacketHeader_ok (run_header_call h c).
Proof.
  intros [? ? ? ? ? Ht Hf (ct & pr & Hs)] Hc.
  destruct c; simpl in Hc; constructor; simpl; auto;
    try (rewrite Hf; apply flags_of_set); try (by exists ct, pr); rewrite Hs.
  - exists ct, pr; destruct Ht as [-> | ->], Hc as [-> | ->], ct, pr; done.
  - exists value, pr; destruct Ht as [-> | ->], value, ct, pr; done.
  - exists ct, true; destruct Ht as [-> | ->], ct, pr; done.
Qed.

Lemma run_header_calls_ok h cs :
  PacketHeader_ok h -> Forall header_call_ok cs -> PacketHeader_ok (foldl run_header_call h cs).
Proof. intros Hh Hcs; revert h Hh; induction Hcs; simpl; auto using run_header_call_ok. Qed.

(** ** What is on the wire *)

Definition opt_bytes (n : nat) (o : option Z) : bytes :=
  match o with Some v => le_split n v | None => [] end.

Definition destination_bytes (h : PacketHeader) : bytes :=
  match mDestinationNodeId h, mDestinationGroupId h with
  | Some id, _ => le_split 8 id
  | None, group => opt_bytes 2 group
  end.

(** The header format of the specification. *)
Definition packet_header_bytes (h : PacketHeader) : bytes :=
  le_split 1 (mMsgFlags h) ++ le_split 2 (mSessionId h) ++ le_split 1 (mSecFlags h) ++
  le_split 4 (mMessageCounter h) ++ opt_bytes 8 (mSourceNodeId h) ++ destination_bytes h.

Definition payload_header_bytes (h : PayloadHeader) : bytes :=
  le_split 1 (mExchangeFlags h) ++ le_split 1 (mMessageType h) ++ le_split 2 (mExchangeID h) ++
  (if HaveVendorId h then le_split 2 (GetVendorId (mProtocolID h)) else []) ++
  le_split 2 (GetProtocolId (mProtocolID h)) ++ opt_bytes 4 (mAckMessageCounter h).

Lemma length_packet_header_bytes h : length (packet_header_bytes h) = EncodeSizeBytes h.
Proof.
  unfold packet_header_bytes, EncodeSizeBytes, destination_bytes, opt_bytes.
  destruct (mSourceNodeId h), (mDestinationNodeId h), (mDestinationGroupId h); reflexivity.
Qed.

Lemma length_payload_header_bytes h : length (payload_header_bytes h) = PayloadEncodeSizeBytes h.
Proof.
  unfold payload_header_bytes, PayloadEncodeSizeBytes, opt_bytes.
  destruct (HaveVendorId h), (mAckMessageCounter h); reflexivity.
Qed.

Section EncoderLogic.
Context `{BO : ByteOrder}.

Definition writes (m : M (bytes * nat) unit) (b : bytes) : Prop :=
  forall mem p, (p + length b <= length mem)%nat ->
  m (mem, p) = (Ok tt, (mem_write p b mem, (p + length b)%nat)).

Lemma writes_write n v : writes (write n v) (le_split n v).
Proof. intros mem p Hp; unfold write; by rewrite nl_le_put_spec, length_le_split. Qed.

Lemma writes_ret : writes (ret tt) [].
Proof. intros mem p Hp; unfold ret; by rewrite mem_write_nil, Nat.add_0_r. Qed.

(** [runs k b0 b]: with [b0] written so far, [k] writes [b] and returns the total. *)
Definition runs (k : M (bytes * nat) nat) (b0 b : bytes) : Prop :=
  forall data, (length (b0 ++ b) <= length data)%nat ->
  k (mem_write 0 b0 data, length b0) =
    (Ok (length (b0 ++ b)), (mem_write 0 (b0 ++ b) data, length (b0 ++ b))).

Lemma runs_bind m k b0 b1 b2 :
  writes m b1 -> runs k (b0 ++ b1) b2 -> runs (m ;; k) b0 (b1 ++ b2).
Proof.
  intros Hm Hk data Hb; unfold bind; rewrite app_assoc in *.
  assert (length b0 + length b1 <= length data)%nat by (rewrite !length_app in Hb; lia).
  rewrite Hm by (rewrite length_mem_write by lia; lia).
  pose proof (mem_write_app 0 b0 b1 data) as Ha; rewrite Nat.add_0_l in Ha.
  rewrite Ha by lia; rewrite <-length_app; auto.
Qed.

Lemma runs_written size b0 : size = length b0 -> runs (written size) b0 [].
Proof.
  intros -> data Hb; unfold written; rewrite Nat.eqb_refl, app_nil_r; done.
Qed.

Lemma runs_start k b data :
  runs k [] b -> (length b <= length data)%nat ->
  k (data, 0%nat) = (Ok (length b), (b ++ drop (length b) data, length b)).
Proof. intros Hk Hb; specialize (Hk data Hb); by rewrite mem_write_nil in Hk. Qed.

Lemma PacketHeader_Encode_spec h data :
  PacketHeader_ok h -> has_value (mDestinationNodeId h) && has_value (mDestinationGroupId h) = false ->
  (EncodeSizeBytes h <= length data)%nat ->
  PacketHeader_Encode h data =
    (Ok (EncodeSizeBytes h), packet_header_bytes h ++ drop (EncodeSizeBytes h) data).
Proof.
  intros Hh Hd Hlen; pose proof (length_packet_header_bytes h) as Hl.
  unfold PacketHeader_Encode; rewrite Hd; bcase; [simpl negb; cbv iota|lia].
  assert (IsSessionTypeValid h = true) as ->.
  { unfold IsSessionTypeValid, IsUnicastSession, IsGroupSession.
    by destruct (ok_type h Hh) as [-> | ->]. }
  simpl negb; cbv iota; rewrite <-Hl.
  rewrite (runs_start _ (packet_header_bytes h)); [done| |by rewrite Hl].
  unfold packet_header_bytes, PacketHeader_Encode_steps.
  assert (wrap 8 (Z.lor (Z.shiftl kMsgHeaderVersion kVersionShift)
                    (Z.land (encoded_message_flags h) kMsgFlagsMask)) = mMsgFlags h) as ->.
  { unfold encoded_message_flags; rewrite (ok_msg_flags h Hh).
    by destruct (has_value (mSourceNodeId h)), (has_value (mDestinationNodeId h)),
      (has_value (mDestinationGroupId h)). }
  do 4 (apply runs_bind; [apply writes_write|]).
  apply runs_bind; [destruct (mSourceNodeId h); [apply writes_write|apply writes_ret]|].
  rewrite <-(app_nil_r (destination_bytes h)).
  apply runs_bind; [|apply runs_written; rewrite <-Hl; unfold packet_header_bytes;
    by rewrite !app_nil_l, <-!app_assoc].
  unfold destination_bytes, opt_bytes.
  destruct (mDestinationNodeId h), (mDestinationGroupId h); auto using writes_write, writes_ret.
Qed.

Lemma PayloadHeader_Encode_spec h data :
  (PayloadEncodeSizeBytes h <= length data)%nat ->
  PayloadHeader_Encode h data =
    (Ok (PayloadEncodeSizeBytes h), payload_header_bytes h ++ drop (PayloadEncodeSizeBytes h) data).
Proof.
  intros Hlen; pose proof (length_payload_header_bytes h) as Hl.
  unfold PayloadHeader_Encode; bcase; [simpl negb; cbv iota|lia]; rewrite <-Hl.
  rewrite (runs_start _ (payload_header_bytes h)); [done| |by rewrite Hl].
  unfold payload_header_bytes, PayloadHeader_Encode_steps.
  do 3 (apply runs_bind; [apply writes_write|]).
  apply runs_bind; [destruct (HaveVendorId h); auto using writes_write, writes_ret|].
  apply runs_bind; [apply writes_write|].
  rewrite <-(app_nil_r (opt_bytes _ _)).
  apply runs_bind; [destruct (mAckMessageCounter h); [apply writes_write|apply writes_ret]|].
  apply runs_written; rewrite <-Hl; unfold payload_header_bytes.
  by rewrite !app_nil_l, <-!app_assoc.
Qed.
End EncoderLogic.

(** Projections of concrete headers, nothing else. *)
Ltac fields :=
  cbn [mMessageCounter mSourceNodeId mDestinationNodeId mDestinationGroupId mSessionId mSessionType
       mMsgFlags mSecFlags mMessageType mExchangeID mProtocolID mExchangeFlags mAckMessageCounter
       GetVendorId GetProtocolId] in *.

Section DecoderSpec.
Context `{BO : ByteOrder}.

Lemma DecodeFixedCommon_reads k h0 flags sid sec :
  is_uint 4 flags -> is_u16 sid -> is_u8 sec ->
  reads k DecodeFixedCommon (le_split 1 flags ++ le_split 2 sid ++ le_split 1 sec) h0 tt
    (SetSecurityFlags (with_session_id (SetMessageFlags h0 flags) sid) sec).
Proof.
  intros Hf Hsid Hsec; unfold DecodeFixedCommon.
  assert (Hf8 : is_u8 flags) by (revert Hf; apply is_uint_mono; lia).
  reads_next; reads_next.
  { apply Z.eqb_eq; unfold kVersionMask, kVersionShift, kMsgHeaderVersion.
    apply Z.bits_inj'; intros i Hi; rewrite Z.shiftr_spec, Z.land_spec, Z.bits_0 by done.
    rewrite <-(Z.mod_small flags (2 ^ 4) Hf), Z.mod_pow2_bits_high by lia; done. }
  do 3 reads_next.
  rewrite <-(app_nil_r (le_split 1 sec)); reads_next; reads_step.
Qed.

Lemma PacketHeader_Decode_reads h h0 :
  PacketHeader_ok h ->
  has_value (mDestinationNodeId h) && has_value (mDestinationGroupId h) = false ->
  (mDestinationGroupId h <> None -> mSessionType h = kGroupSession) ->
  reads 0 PacketHeader_Decode_steps (packet_header_bytes h) h0 (Z.of_nat (EncodeSizeBytes h)) h.
Proof.
  intros Hh Hd Hg.
  assert (Hl : wrap 16 (Z.of_nat (length (packet_header_bytes h))) = Z.of_nat (EncodeSizeBytes h)).
  { rewrite length_packet_header_bytes; apply wrap_small; unfold is_uint, EncodeSizeBytes.
    repeat destruct (has_value _); vm_compute; split; congruence. }
  destruct h as [ctr src dst grp sid type fl sec]; unfold packet_header_bytes in *; fields.
  destruct Hh as [Hctr Hsrc Hdst Hgrp Hsid Htype Hfl (c & pr & Hsec)]; fields.
  destruct (sec_flags_facts type c pr Htype) as (Hs8 & Hst & Hmx).
  destruct (flags_of_has (has_value src) (has_value dst) (has_value grp)) as (Hfs & Hfn & Hfg & Hfa).
  rewrite <-Hl; clear Hl.
  rewrite (app_assoc (le_split 2 sid)), app_assoc; unfold PacketHeader_Decode_steps.
  reads_step.
  { apply DecodeFixedCommon_reads; [|done|by rewrite Hsec].
    rewrite Hfl; destruct (has_value src), (has_value dst), (has_value grp); split; vm_compute; congruence. }
  do 2 reads_next; reads_step.
  { instantiate (1 := MkPacketHeader ctr src (mDestinationNodeId h0) (mDestinationGroupId h0) sid type fl sec).
    unfold DecodeSource; reads_next; change (mMsgFlags _) with fl; rewrite Hfl, Hfs.
    assert (Z.land sec kSessionTypeMask = type) as Hst' by congruence.
    destruct src as [s0|]; cbn [has_value opt_bytes];
      [rewrite <-(app_nil_r (le_split 8 s0)); reads_next|];
      apply reads_update; unfold SetSecurityFlags, SetMessageFlags, with_counter, with_source,
        with_session_id, with_session_type, with_sec_flags, with_msg_flags; fields; congruence. }
  do 2 reads_next.
  { unfold IsSessionTypeValid, IsUnicastSession, IsGroupSession; fields.
    by destruct Htype as [-> | ->]. }
  rewrite <-(app_nil_r (destination_bytes _)); reads_step.
  { instantiate (1 := MkPacketHeader ctr src dst grp sid type fl sec).
    unfold DecodeDestination; reads_next.
    unfold destination_bytes; fields; rewrite Hfl, Hfa, Hfn, Hfg, Hd.
    destruct dst as [d|]; [|destruct grp as [g|]]; cbn [has_value opt_bytes opt_uint] in *.
    - destruct grp; [done|].
      rewrite <-(app_nil_r (le_split 8 d)); reads_next; by apply reads_update.
    - reads_next; [by apply Z.eqb_eq, Hg|].
      rewrite <-(app_nil_r (le_split 2 g)); reads_next; by apply reads_update.
    - by apply reads_update. }
  reads_next; fields; rewrite Hsec, Hmx; reads_next.
  apply reads_octets_at; rewrite ?app_nil_r, !length_app; simpl; lia.
Qed.
End DecoderSpec.

(** ** Well-formed payload headers *)

Definition ex_flags_of (initiator ack needs vendor : bool) : Z :=
  (if initiator then 1 else 0) + (if ack then 2 else 0) + (if needs then 4 else 0) +
  (if vendor then 16 else 0).

Record PayloadHeader_ok (h : PayloadHeader) : Prop := {
  ok_message_type : is_u8 (mMessageType h);
  ok_exchange_id : is_u16 (mExchangeID h);
  ok_vendor : is_u16 (GetVendorId (mProtocolID h));
  ok_protocol : is_u16 (GetProtocolId (mProtocolID h));
  ok_ack : opt_uint 32 (mAckMessageCounter h);
  ok_ex_flags : exists initiator needs,
    mExchangeFlags h = ex_flags_of initiator (has_value (mAckMessageCounter h)) needs
                         (negb (GetVendorId (mProtocolID h) =? VendorId_Common)) }.

Inductive payload_call :=
| CallSetMessageType (protocol : ProtocolId) (type : Z)
| CallSetExchangeID (id : Z)
| CallSetInitiator (inInitiator : bool)
| CallSetAckMessageCounter (id : option Z)
| CallSetNeedsAck (inNeedsAck : bool).

Definition run_payload_call (h : PayloadHeader) (c : payload_call) : PayloadHeader :=
  match c with
  | CallSetMessageType protocol type => SetMessageType h protocol type
  | CallSetExchangeID id => SetExchangeID h id
  | CallSetInitiator b => SetInitiator h b
  | CallSetAckMessageCounter id => SetAckMessageCounter h id
  | CallSetNeedsAck b => SetNeedsAck h b
  end.

Definition payload_call_ok (c : payload_call) : Prop :=
  match c with
  | CallSetMessageType protocol type =>
      is_u16 (GetVendorId protocol) /\ is_u16 (GetProtocolId protocol) /\ is_u8 type
  | CallSetExchangeID id => is_u16 id
  | CallSetAckMessageCounter id => opt_uint 32 id
  | _ => True
  end.

Lemma ex_flags_set i a n v b :
  BitFlags.Set_if 8 (ex_flags_of i a n v) kExchangeFlag_Initiator b = ex_flags_of b a n v /\
  BitFlags.Set_if 8 (ex_flags_of i a n v) kExchangeFlag_AckMsg b = ex_flags_of i b n v /\
  BitFlags.Set_if 8 (ex_flags_of i a n v) kExchangeFlag_NeedsAck b = ex_flags_of i a b v /\
  BitFlags.Set_if 8 (ex_flags_of i a n v) kExchangeFlag_VendorIdPresent b = ex_flags_of i a n b.
Proof. by destruct i, a, n, v, b. Qed.

Lemma ex_flags_has i a n v :
  is_u8 (ex_flags_of i a n v) /\
  BitFlags.Has (ex_flags_of i a n v) kExchangeFlag_AckMsg = a /\
  BitFlags.Has (ex_flags_of i a n v) kExchangeFlag_VendorIdPresent = v /\
  BitFlags.Has (ex_flags_of i a n v) kExchangeFlag_SecuredExtension = false.
Proof. destruct i, a, n, v; repeat split; vm_compute; congruence. Qed.

Lemma PayloadHeader_new_ok : PayloadHeader_ok PayloadHeader_new.
Proof. constructor; simpl; auto; try (split; vm_compute; congruence); by exists false, false. Qed.

Lemma run_payload_call_ok h c :
  PayloadHeader_ok h -> payload_call_ok c -> PayloadHeader_ok (run_payload_call h c).
Proof.
  intros [? ? ? ? ? (i & n & Hf)] Hc.
  destruct c; simpl in Hc; destruct_and?; constructor; simpl; auto; rewrite Hf;
    [exists i, n|exists i, n|exists inInitiator, n|exists i, n|exists i, inNeedsAck]; auto;
    apply ex_flags_set.
Qed.

Lemma run_payload_calls_ok h cs :
  PayloadHeader_ok h -> Forall payload_call_ok cs -> PayloadHeader_ok (foldl run_payload_call h cs).
Proof. intros Hh Hcs; revert h Hh; induction Hcs; simpl; auto using run_payload_call_ok. Qed.

Lemma PayloadHeader_Decode_reads `{BO : ByteOrder} h h0 :
  PayloadHeader_ok h ->
  reads 0 PayloadHeader_Decode_steps (payload_header_bytes h) h0
    (Z.of_nat (PayloadEncodeSizeBytes h)) h.
Proof.
  intros Hh.
  assert (Hl : wrap 16 (Z.of_nat (length (payload_header_bytes h))) = Z.of_nat (PayloadEncodeSizeBytes h)).
  { rewrite length_payload_header_bytes; apply wrap_small; unfold is_uint, PayloadEncodeSizeBytes.
    destruct (HaveVendorId h), (has_value _); vm_compute; split; congruence. }
  rewrite <-Hl; clear Hl.
  destruct h as [mt ex [vid pid] fl ack]; unfold payload_header_bytes; fields.
  destruct Hh as [Hmt Hex Hvid Hpid Hack (i & n & Hfl)]; fields.
  destruct (ex_flags_has i (has_value ack) n (negb (vid =? VendorId_Common))) as (H8 & Hfa & Hfv & Hfs).
  unfold HaveVendorId; fields; rewrite <-Hfl in *; rewrite Hfv.
  unfold PayloadHeader_Decode_steps; do 7 reads_next.
  unfold HaveVendorId; change (mExchangeFlags _) with fl; rewrite Hfa, Hfv, Hfs.
  reads_step.
  { instantiate (2 := vid).
    destruct (Z.eqb_spec vid VendorId_Common) as [->|]; [apply reads_ret|by apply reads_read]. }
  do 2 reads_next; rewrite <-(app_nil_r (opt_bytes 4 ack)); reads_step.
  { instantiate (1 := MkPayloadHeader mt ex (MkProtocolId vid pid) fl ack).
    destruct ack as [c|]; cbn [has_value opt_bytes];
      [rewrite <-(app_nil_r (le_split 4 c)); reads_next|]; by apply reads_update. }
  reads_next; apply reads_octets_at; rewrite !length_app; simpl.
  destruct (negb _), ack; reflexivity.
Qed.

(** ** Properties *)

Section Properties.
Context `{BO : ByteOrder}.

(** C22: A packet header built with the setters of the node and group identifiers, the
    session type and identifier, the message counter and the control and privacy flags,
    with at most one destination and a group destination only in a group session, encodes
    into any buffer of [EncodeSizeBytes()] octets or more to the bytes of the header
    format, and decoding that buffer into any header object gives back exactly the header
    and its length; the rest of the buffer is untouched. The other setters are left out:
    SetUnsecured leaves a header that does not come back ([set_unsecured_sends_old_type]),
    and SetFlags takes any flags, whether or not the fields they announce are there. *)
Theorem packet_header_roundtrip cs data h0 :
  let h := foldl run_header_call PacketHeader_new cs in
  Forall header_call_ok cs ->
  has_value (mDestinationNodeId h) && has_value (mDestinationGroupId h) = false ->
  (mDestinationGroupId h <> None -> mSessionType h = kGroupSession) ->
  (EncodeSizeBytes h <= length data)%nat ->
  let data' := packet_header_bytes h ++ drop (EncodeSizeBytes h) data in
  PacketHeader_Encode h data = (Ok (EncodeSizeBytes h), data') /\
  length data' = length data /\ PayloadOffset h = EncodeSizeBytes h /\
  PacketHeader_Decode h0 data' = (Ok (Z.of_nat (EncodeSizeBytes h)), h).
Proof.
  intros h Hcs Hd Hg Hlen data'.
  pose proof (run_header_calls_ok _ _ PacketHeader_new_ok Hcs) as Hh; fold h in Hh.
  split_and!.
  - by apply PacketHeader_Encode_spec.
  - unfold data'; rewrite length_app, length_packet_header_bytes, length_drop; lia.
  - unfold PayloadOffset, PrivacyHeaderLength, EncodeSizeBytes; rewrite (ok_msg_flags h Hh).
    by destruct (has_value (mSourceNodeId h)), (has_value (mDestinationNodeId h)),
      (has_value (mDestinationGroupId h)).
  - unfold PacketHeader_Decode; by apply reads_run, PacketHeader_Decode_reads.
Qed.

(** C30: A payload header built with the setters encodes into any buffer of
    [EncodeSizeBytes()] octets or more and decodes to itself, whatever header
    object it is decoded into; a smaller buffer is refused and left alone. *)
Theorem payload_header_roundtrip cs data h0 (Hcs : Forall payload_call_ok cs) :
  let h := foldl run_payload_call PayloadHeader_new cs in
  if (PayloadEncodeSizeBytes h <=? length data)%nat then
    exists data', PayloadHeader_Encode h data = (Ok (PayloadEncodeSizeBytes h), data') /\
      length data' = length data /\
      PayloadHeader_Decode h0 data' = (Ok (Z.of_nat (PayloadEncodeSizeBytes h)), h)
  else PayloadHeader_Encode h data = (Err CHIP_ERROR_INVALID_ARGUMENT, data).
Proof.
  intros h; pose proof (run_payload_calls_ok _ _ PayloadHeader_new_ok Hcs) as Hh; fold h in Hh.
  destruct (Nat.leb_spec (PayloadEncodeSizeBytes h) (length data)).
  - eexists; split_and!; [by apply PayloadHeader_Encode_spec| |].
    + rewrite length_app, length_payload_header_bytes, length_drop; lia.
    + unfold PayloadHeader_Decode; by apply reads_run, PayloadHeader_Decode_reads.
  - unfold PayloadHeader_Encode; bcase; [lia|done].
Qed.

Definition decode_errors (e : CHIP_ERROR) : Prop :=
  e = CHIP_ERROR_BUFFER_TOO_SMALL \/ e = CHIP_ERROR_VERSION_MISMATCH \/ e = CHIP_ERROR_INTERNAL.

Lemma DecodeFixedCommon_behaves : behaves 4 decode_errors DecodeFixedCommon.
Proof.
  unfold DecodeFixedCommon, decode_errors.
  change 4%nat with (1 + (0 + (0 + (2 + (0 + (1 + 0))))))%nat.
  repeat (first [apply behaves_bind; [|intros] | apply behaves_update
    | apply behaves_verify | apply behaves_read]); auto.
Qed.

Lemma PacketHeader_Decode_behaves : behaves 8 decode_errors PacketHeader_Decode_steps.
Proof.
  unfold PacketHeader_Decode_steps, DecodeSource, DecodeDestination.
  change 8%nat with (4 + (4 + (0 + ((0 + 0) + (0 + (0 + ((0 + 0) + (0 + (0 + 0)))))))))%nat.
  assert (HS : decode_errors CHIP_ERROR_BUFFER_TOO_SMALL) by (unfold decode_errors; auto).
  assert (HI : decode_errors CHIP_ERROR_INTERNAL) by (unfold decode_errors; auto).
  assert (Hopt : forall n (f : Z -> PacketHeader -> PacketHeader),
    behaves 0 decode_errors (let! v := read n in update (f v))).
  { intros; apply (behaves_weaken (n + 0)); [lia|].
    apply behaves_bind; [by apply behaves_read|intros; apply behaves_update]. }
  repeat (first [apply DecodeFixedCommon_behaves | apply behaves_bind; [|intros]
    | apply behaves_update | apply behaves_header | apply behaves_ret | apply behaves_octets
    | by apply behaves_verify | by apply behaves_read | by apply behaves_skip_extension
    | by apply behaves_fail | apply Hopt | apply (behaves_bind 0 0); [|intros] | case_match]).
Qed.

(** C36: Decoding a packet header from any octets whatsoever, fewer than 65536 of them,
    stays inside the buffer: on success it consumed at least the 8 fixed octets and no
    more than there are, and every failure is CHIP_ERROR_BUFFER_TOO_SMALL,
    CHIP_ERROR_VERSION_MISMATCH or CHIP_ERROR_INTERNAL.  A buffer of fewer than 8 octets
    always fails.  MessageHeader.h documents another error for a short buffer,
    CHIP_ERROR_INVALID_ARGUMENT, which [Decode] never returns. *)
Theorem packet_header_decode_safe h0 data (Hsize : Z.of_nat (length data) < 65536) :
  match fst (PacketHeader_Decode h0 data) with
  | Ok n => 8 <= n <= Z.of_nat (length data)
  | Err e => e = CHIP_ERROR_BUFFER_TOO_SMALL \/ e = CHIP_ERROR_VERSION_MISMATCH \/
             e = CHIP_ERROR_INTERNAL
  end.
Proof.
  pose proof (PacketHeader_Decode_behaves h0 (Reader_new data) (Reader_new_wf data) eq_refl) as Hb.
  assert (Hp : returns_position PacketHeader_Decode_steps).
  { unfold PacketHeader_Decode_steps.
    repeat (apply returns_position_bind; intros); apply returns_position_octets. }
  specialize (Hp (h0, Reader_new data)); unfold PacketHeader_Decode.
  destruct (PacketHeader_Decode_steps _) as [[n|e] [h r]]; [|exact Hb].
  destruct Hb as (Hwf & _ & Hbuf & Hpos); simpl fst; rewrite (Hp n h r eq_refl).
  unfold Reader_wf in Hwf; rewrite Hbuf in Hwf; simpl in *.
  rewrite wrap_small by (unfold is_uint; lia); lia.
Qed.

(** [SetUnsecured] resets the session identifier and the session type but not
    the session-type bits of the security flags, which are what is sent: a header
    that was set up for a group session and then made unsecured arrives as an
    encrypted group message. *)
Theorem set_unsecured_sends_old_type cs data h0 :
  let h := foldl run_header_call PacketHeader_new cs in
  Forall header_call_ok cs -> mSessionType h = kGroupSession ->
  has_value (mDestinationNodeId h) && has_value (mDestinationGroupId h) = false ->
  (EncodeSizeBytes h <= length data)%nat ->
  IsEncrypted (SetUnsecured h) = false /\
  exists n data' h', PacketHeader_Encode (SetUnsecured h) data = (Ok n, data') /\
    PacketHeader_Decode h0 data' = (Ok (Z.of_nat n), h') /\
    mSessionType h' = kGroupSession /\ IsEncrypted h' = true.
Proof.
  intros h Hcs Ht Hd Hlen; split; [done|].
  pose proof (run_header_calls_ok _ _ PacketHeader_new_ok Hcs) as Hh; fold h in Hh.
  set (h1 := SetSessionId h kMsgUnicastSessionIdUnsecured).
  assert (Hh1 : PacketHeader_ok h1).
  { apply (run_header_call_ok h (CallSetSessionId 0)); [done|split; vm_compute; congruence]. }
  assert (PacketHeader_Encode (SetUnsecured h) data = PacketHeader_Encode h1 data) as ->.
  { unfold PacketHeader_Encode, IsSessionTypeValid, IsUnicastSession, IsGroupSession, h1.
    change (mSessionType (SetSessionId h _)) with (mSessionType h); by rewrite Ht. }
  eexists _, _, h1; split_and!; [by apply PacketHeader_Encode_spec| |done|].
  - by apply reads_run, PacketHeader_Decode_reads.
  - unfold IsEncrypted, IsUnicastSession, h1.
    change (mSessionType (SetSessionId h _)) with (mSessionType h); by rewrite Ht.
Qed.

(** ** Packet buffers *)

(** [Encode] of a header type writes [enc h], of [size h] octets, at the start. *)
Lemma EncodeBeforeData_spec {H : Type} (size : H -> nat) (Encode : H -> bytes -> result nat * bytes)
    (enc : H -> bytes) h p :
  (forall d, (size h <= length d)%nat -> Encode h d = (Ok (size h), enc h ++ drop (size h) d)) ->
  length (enc h) = size h -> Z.of_nat (size h) < 65536 ->
  pbuf_ok p -> (pLen p <= pTotLen p)%nat ->
  (Nat.max (size h) (pPayload p) + pLen p <= AllocSize p)%nat ->
  exists q, EncodeBeforeData size Encode h p = (Ok tt, q) /\ pbuf_ok q /\
    data q = enc h ++ data p /\ TotalLength q = (size h + TotalLength p)%nat /\
    (pLen q <= pTotLen q)%nat /\ pLen q = (size h + pLen p)%nat /\
    pPayload q = (Nat.max (size h) (pPayload p) - size h)%nat /\ AllocSize q = AllocSize p.
Proof.
  intros Henc Hl Hsz Hp Ht Hroom; unfold EncodeBeforeData.
  pose proof (EnsureReservedSize_spec p (size h) Hp Hsz) as Hs.
  destruct (Nat.leb_spec (Nat.max (size h) (pPayload p) + pLen p) (AllocSize p)); [|lia].
  destruct Hs as (p1 & -> & Hp1 & Hd1 & Hpl & Hln & Htl & Hrf & Ha); cbn [negb].
  rewrite <-Nat2Z.inj_sub by lia.
  destruct (SetStart_spec p1 (pPayload p1 - size h) Hp1) as (Hq & Hqp & Hql & Hqt & Hqm & _); [lia..|].
  set (q := SetStart _ _) in *; clearbody q.
  assert (Hdq : data q = mem_read (pPayload q) (size h) (pMem p1) ++ data p).
  { unfold data at 1; rewrite Hqm; replace (pLen q) with (size h + pLen p1)%nat by lia.
    rewrite mem_read_app; f_equal; rewrite <-Hd1; unfold data; f_equal; lia. }
  assert (Hqfit : (pPayload q + pLen q <= length (pMem q))%nat) by apply Hq.
  assert (Hsl : length (mem_read (pPayload q) (size h) (pMem p1)) = size h).
  { apply length_mem_read; rewrite <-Hqm; lia. }
  rewrite Henc by (rewrite length_data by done; lia).
  rewrite Hdq, drop_app_length' by done.
  assert (Hw : length (enc h ++ data p) = pLen q).
  { rewrite length_app, Hl, length_data by done; lia. }
  assert (Hwl : length (mem_write (pPayload q) (enc h ++ data p) (pMem q)) = length (pMem q)).
  { apply length_mem_write; rewrite Hw; lia. }
  rewrite Nat.eqb_refl; eexists; split; [done|]; split_and!.
  - destruct Hq; constructor; unfold AllocSize in *; simpl; rewrite ?Hwl; done.
  - unfold data at 1; simpl; rewrite <-Hw; apply mem_read_write_same; rewrite Hw; lia.
  - unfold TotalLength; simpl; lia.
  - simpl; lia.
  - simpl; lia.
  - simpl; lia.
  - unfold AllocSize in *; simpl; rewrite Hwl; congruence.
Qed.

(** C27: Sending and receiving a message through one packet buffer: if there is
    room for both headers in front of the payload, [EncodeBeforeData] of the
    payload header and then of the packet header succeed, the buffer then holds
    the two headers and the payload, and [DecodeAndConsume] of the packet header
    and then of the payload header give both headers back and leave exactly the
    payload. The packet header is built with the same setters as above; it has at most
    one destination, and a group destination only in a group session. *)
Theorem message_framing_roundtrip pcs acs p h0 a0 :
  let h := foldl run_header_call PacketHeader_new pcs in
  let a := foldl run_payload_call PayloadHeader_new acs in
  Forall header_call_ok pcs -> Forall payload_call_ok acs ->
  has_value (mDestinationNodeId h) && has_value (mDestinationGroupId h) = false ->
  (mDestinationGroupId h <> None -> mSessionType h = kGroupSession) ->
  chain_ok [p] ->
  (EncodeSizeBytes h + PayloadEncodeSizeBytes a <= pPayload p)%nat ->
  exists p1 p2 p3 p4,
    EncodeBeforeData PayloadEncodeSizeBytes PayloadHeader_Encode a p = (Ok tt, p1) /\
    EncodeBeforeData EncodeSizeBytes PacketHeader_Encode h p1 = (Ok tt, p2) /\
    data p2 = packet_header_bytes h ++ payload_header_bytes a ++ data p /\
    DecodeAndConsume PacketHeader_Decode h0 p2 = (Ok tt, (h, p3)) /\
    DecodeAndConsume PayloadHeader_Decode a0 p3 = (Ok tt, (a, p4)) /\
    pbuf_ok p4 /\ data p4 = data p.
Proof.
  intros h a Hpcs Hacs Hd Hg Hc Hroom.
  pose proof (run_header_calls_ok _ _ PacketHeader_new_ok Hpcs) as Hh; fold h in Hh.
  pose proof (run_payload_calls_ok _ _ PayloadHeader_new_ok Hacs) as Ha; fold a in Ha.
  pose proof (chain_ok_tot_len _ _ Hc) as Ht; destruct Hc as (Hp & _ & _).
  pose proof (pbuf_fits p Hp) as Hf; pose proof (pbuf_alloc p Hp).
  pose proof (length_packet_header_bytes h) as Hhl; pose proof (length_payload_header_bytes a) as Hal.
  destruct (EncodeBeforeData_spec PayloadEncodeSizeBytes PayloadHeader_Encode payload_header_bytes a p)
    as (p1 & He1 & Hp1 & Hd1 & _ & Ht1 & Hl1 & Hpp1 & Hal1);
    [intros; by apply PayloadHeader_Encode_spec|done|lia|done|done|lia|].
  destruct (EncodeBeforeData_spec EncodeSizeBytes PacketHeader_Encode packet_header_bytes h p1)
    as (p2 & He2 & Hp2 & Hd2 & _ & Ht2 & Hl2 & Hpp2 & Hal2);
    [intros; by apply PacketHeader_Encode_spec|done|lia|done|done|lia|].
  destruct (ConsumeHead_ok p2 (EncodeSizeBytes h) Hp2) as [Hp3 Hd3]; [lia|].
  rewrite Hd2, drop_app_length', Hd1 in Hd3 by done.
  set (p3 := ConsumeHead p2 (EncodeSizeBytes h)) in *.
  assert (Hl3 : pLen p3 = (PayloadEncodeSizeBytes a + pLen p)%nat).
  { rewrite <-(length_data p3 Hp3), Hd3, length_app, (length_data p Hp); lia. }
  destruct (ConsumeHead_ok p3 (PayloadEncodeSizeBytes a) Hp3) as [Hp4 Hd4]; [lia|].
  rewrite Hd3, drop_app_length' in Hd4 by done.
  exists p1, p2, p3, (ConsumeHead p3 (PayloadEncodeSizeBytes a)); split_and!; auto.
  - by rewrite Hd2, Hd1.
  - unfold DecodeAndConsume, PacketHeader_Decode.
    rewrite Hd2, (reads_run _ _ _ _ _ _ (PacketHeader_Decode_reads h h0 Hh Hd Hg)), Nat2Z.id; done.
  - unfold DecodeAndConsume, PayloadHeader_Decode.
    rewrite Hd3, (reads_run _ _ _ _ _ _ (PayloadHeader_Decode_reads a a0 Ha)), Nat2Z.id; done.
Qed.

(** The authentication tag written after the payload of an encrypted message
    comes back unchanged; an unencrypted message has no tag, and encoder and
    decoder each report it with their own error. *)
Theorem mac_roundtrip h mTag mTag0 data
    (Hm : length mTag = 16%nat) (Hm0 : length mTag0 = 16%nat) (Hd : (16 <= length data)%nat) :
  if IsEncrypted h then
    exists data', MAC_Encode mTag h data = (Ok 16%nat, data') /\ length data' = length data /\
      drop 16 data' = drop 16 data /\ MAC_Decode mTag0 h data' = (Ok 16%nat, mTag)
  else MAC_Encode mTag h data = (Err CHIP_ERROR_WRONG_ENCRYPTION_TYPE, data) /\
       MAC_Decode mTag0 h data = (Err CHIP_ERROR_WRONG_ENCRYPTION_TYPE_FROM_PEER, mTag0).
Proof.
  unfold MAC_Encode, MAC_Decode, MICTagLength.
  destruct (IsEncrypted h); [|done].
  unfold CHIP_CRYPTO_AEAD_MIC_LENGTH_BYTES; cbn [Nat.eqb].
  destruct (Nat.leb_spec 16 (length data)); [|lia]; cbn [negb].
  rewrite (take_ge mTag), mem_write_start, Hm by lia.
  assert (Hlen : length (mTag ++ drop 16 data) = length data) by len.
  eexists; split_and!; [done|done|by rewrite drop_app_length'|].
  rewrite Hlen; destruct (Nat.leb_spec 16 (length data)); [|lia]; cbn [negb].
  rewrite take_app_length' by done; rewrite mem_write_start, Hm, (drop_ge mTag0) by lia.
  by rewrite app_nil_r.
Qed.
End Properties.

(** ** Witnesses *)

Definition example_calls : list header_call :=
  [CallSetSessionType kGroupSession; CallSetSessionId 4660; CallSetMessageCounter 305419896;
   CallSetSourceNodeId (Some 81985529216486895); CallSetDestinationGroupId (Some 257);
   CallSetSecureSessionControlMsg true].
Definition example_payload_calls : list payload_call :=
  [CallSetMessageType (MkProtocolId 65521 1) 5; CallSetExchangeID 1000; CallSetInitiator true;
   CallSetAckMessageCounter (Some 77); CallSetNeedsAck true].

Ltac in_range := split; vm_compute; congruence.

Lemma example_calls_ok : Forall header_call_ok example_calls.
Proof. repeat constructor; simpl; try (by right); try in_range; vm_compute; congruence. Qed.
Lemma example_payload_calls_ok : Forall payload_call_ok example_payload_calls.
Proof. repeat constructor; simpl; try in_range; vm_compute; congruence. Qed.

Lemma packet_header_roundtrip_witness :
  let h := foldl run_header_call PacketHeader_new example_calls in
  let data' := packet_header_bytes h ++ drop 18 (replicate 20 0) in
  @PacketHeader_Encode reference_byte_order h (replicate 20 0) = (Ok 18%nat, data') /\
  length data' = 20%nat /\ PayloadOffset h = 18%nat /\
  @PacketHeader_Decode reference_byte_order PacketHeader_new data' = (Ok 18, h).
Proof.
  apply (@packet_header_roundtrip reference_byte_order example_calls (replicate 20 0) PacketHeader_new);
    [apply example_calls_ok|reflexivity|reflexivity|vm_compute; lia].
Defined.

Lemma payload_header_roundtrip_witness :
  exists data', @PayloadHeader_Encode reference_byte_order
      (foldl run_payload_call PayloadHeader_new example_payload_calls) (replicate 12 0) = (Ok 12%nat, data') /\
    length data' = 12%nat /\
    @PayloadHeader_Decode reference_byte_order PayloadHeader_new data' =
      (Ok 12, foldl run_payload_call PayloadHeader_new example_payload_calls).
Proof.
  apply (@payload_header_roundtrip reference_byte_order example_payload_calls (replicate 12 0)
           PayloadHeader_new example_payload_calls_ok).
Defined.

Lemma packet_header_decode_safe_witness :
  match fst (@PacketHeader_Decode reference_byte_order PacketHeader_new [0; 0; 0; 0; 1; 0; 0; 0; 9]) with
  | Ok n => 8 <= n <= 9
  | Err e => e = CHIP_ERROR_BUFFER_TOO_SMALL \/ e = CHIP_ERROR_VERSION_MISMATCH \/
             e = CHIP_ERROR_INTERNAL
  end.
Proof.
  apply (@packet_header_decode_safe reference_byte_order PacketHeader_new [0; 0; 0; 0; 1; 0; 0; 0; 9]).
  vm_compute; reflexivity.
Defined.

Lemma set_unsecured_sends_old_type_witness :
  let h := foldl run_header_call PacketHeader_new example_calls in
  IsEncrypted (SetUnsecured h) = false /\
  exists n data' h', @PacketHeader_Encode reference_byte_order (SetUnsecured h) (replicate 20 0) = (Ok n, data') /\
    @PacketHeader_Decode reference_byte_order PacketHeader_new data' = (Ok (Z.of_nat n), h') /\
    mSessionType h' = kGroupSession /\ IsEncrypted h' = true.
Proof.
  apply (@set_unsecured_sends_old_type reference_byte_order example_calls (replicate 20 0) PacketHeader_new);
    [apply example_calls_ok|reflexivity|reflexivity|vm_compute; lia].
Defined.

Definition example_packet : PBuf := MkPBuf (replicate 40 0 ++ [1; 2; 3]) 40 3 3 1.

Lemma message_framing_roundtrip_witness :
  let h := foldl run_header_call PacketHeader_new example_calls in
  let a := foldl run_payload_call PayloadHeader_new example_payload_calls in
  exists p1 p2 p3 p4,
    EncodeBeforeData PayloadEncodeSizeBytes (@PayloadHeader_Encode reference_byte_order) a example_packet
      = (Ok tt, p1) /\
    EncodeBeforeData EncodeSizeBytes (@PacketHeader_Encode reference_byte_order) h p1 = (Ok tt, p2) /\
    data p2 = packet_header_bytes h ++ payload_header_bytes a ++ [1; 2; 3] /\
    DecodeAndConsume (@PacketHeader_Decode reference_byte_order) PacketHeader_new p2 = (Ok tt, (h, p3)) /\
    DecodeAndConsume (@PayloadHeader_Decode reference_byte_order) PayloadHeader_new p3 = (Ok tt, (a, p4)) /\
    pbuf_ok p4 /\ data p4 = [1; 2; 3].
Proof.
  apply (@message_framing_roundtrip reference_byte_order example_calls example_payload_calls
           example_packet PacketHeader_new PayloadHeader_new);
    [apply example_calls_ok|apply example_payload_calls_ok|reflexivity|reflexivity| |vm_compute; lia].
  simpl; split_and!; auto; constructor; vm_compute; try lia; congruence.
Defined.

Lemma mac_roundtrip_witness :
  exists data',
    MAC_Encode (replicate 16 7) (with_session_id PacketHeader_new 1) (replicate 18 0) = (Ok 16%nat, data') /\
    length data' = 18%nat /\ drop 16 data' = [0; 0] /\
    MAC_Decode (replicate 16 0) (with_session_id PacketHeader_new 1) data' = (Ok 16%nat, replicate 16 7).
Proof.
  apply (mac_roundtrip (with_session_id PacketHeader_new 1) (replicate 16 7) (replicate 16 0) (replicate 18 0));
    vm_compute; lia.
Defined.
