(* ===== verification/PeerMessageCounter.v ===== *)
(** * Replay protection: the counters of remote peers

    Model of class [PeerMessageCounter]
    (src/src/transport/PeerMessageCounter.h): the synchronisation state machine
    of a peer's message counter and the sliding bitmap window that rejects
    replayed messages, with and without counter roll-over.

    - [Synced], [PeerMessageCounter]: the state, the C++ tagged union as an
      inductive type;
    - [Classify*], [Verify*], [Commit*]: the methods, one definition each;
    - Module [Window]: the abstract receiver, whose state is the set of the
      (unbounded) counters it accepted;
    - the refinement lemmas relate the 32-bit state to the abstract receiver. *)

From stdpp Require Import gmap sets.
From S2P Require Import Prelude.

(** CHIP_CONFIG_MESSAGE_COUNTER_WINDOW_SIZE, default of CHIPConfig.h. *)
Definition WINDOW_SIZE : Z := 32.

(** ** State *)

(** struct Synced: [mWindow] is the [std::bitset] read as an unsigned number,
    bit [i] for the counter [mMaxCounter - 1 - i]. *)
Record Synced := MkSynced { mMaxCounter : Z; mWindow : Z }.

(** [mStatus] with the active member of the union. *)
Inductive PeerMessageCounter :=
| NotSynced
| SyncInProcess (mChallenge : bytes)
| SyncedState (mSynced : Synced).

Inductive Position := BeforeWindow | InWindow | MaxCounter | FutureCounter.

#[export] Instance Position_eq_dec : EqDecision Position.
Proof. solve_decision. Defined.

(** ** Classification of an incoming counter *)

Definition ClassifyNonFutureCounter (s : Synced) (counter : Z) : Position :=
  if counter =? mMaxCounter s then MaxCounter
  else
    let offset := mMaxCounter s -{32} counter in
    if offset <=? WINDOW_SIZE then InWindow else BeforeWindow.

Definition ClassifyWithoutRollover (s : Synced) (counter : Z) : Position :=
  if mMaxCounter s <? counter then FutureCounter
  else ClassifyNonFutureCounter s counter.

Definition ClassifyWithRollover (s : Synced) (counter : Z) : Position :=
  let counterIncrease := counter -{32} mMaxCounter s in
  let futureCounterWindow := 2 ^ 31 - 1 in
  if (1 <=? counterIncrease) && (counterIncrease <=? futureCounterWindow)
  then FutureCounter
  else ClassifyNonFutureCounter s counter.

(** ** Verification *)

Definition VerifyPositionEncrypted (s : Synced) (position : Position)
    (counter : Z) : CHIP_ERROR :=
  match position with
  | FutureCounter => CHIP_NO_ERROR
  | InWindow =>
      let offset := mMaxCounter s -{32} counter in
      if Z.testbit (mWindow s) (offset - 1)
      then CHIP_ERROR_DUPLICATE_MESSAGE_RECEIVED else CHIP_NO_ERROR
  | _ => CHIP_ERROR_DUPLICATE_MESSAGE_RECEIVED
  end.

Definition VerifyPositionUnencrypted (s : Synced) (position : Position)
    (counter : Z) : CHIP_ERROR :=
  match position with
  | MaxCounter => CHIP_ERROR_DUPLICATE_MESSAGE_RECEIVED
  | InWindow =>
      let offset := mMaxCounter s -{32} counter in
      if Z.testbit (mWindow s) (offset - 1)
      then CHIP_ERROR_DUPLICATE_MESSAGE_RECEIVED else CHIP_NO_ERROR
  | _ => CHIP_NO_ERROR
  end.

Definition VerifyGroup (p : PeerMessageCounter) (counter : Z) : CHIP_ERROR :=
  match p with
  | SyncedState s =>
      let pos := ClassifyWithRollover s counter in
      VerifyPositionEncrypted s pos counter
  | _ => CHIP_ERROR_INCORRECT_STATE
  end.

Definition VerifyEncryptedUnicast (p : PeerMessageCounter) (counter : Z) :
    CHIP_ERROR :=
  match p with
  | SyncedState s =>
      let pos := ClassifyWithoutRollover s counter in
      VerifyPositionEncrypted s pos counter
  | _ => CHIP_ERROR_INCORRECT_STATE
  end.

(** ** Synchronisation *)

Definition Reset (p : PeerMessageCounter) : PeerMessageCounter := NotSynced.

Definition IsSynchronizing (p : PeerMessageCounter) : bool :=
  match p with SyncInProcess _ => true | _ => false end.

Definition IsSynchronized (p : PeerMessageCounter) : bool :=
  match p with SyncedState _ => true | _ => false end.

(** [None]: [VerifyOrDie] aborts the process. *)
Definition SyncStarting (p : PeerMessageCounter) (challenge : bytes) :
    option PeerMessageCounter :=
  match p with
  | NotSynced => Some (SyncInProcess challenge)
  | _ => None
  end.

Definition SyncFailed (p : PeerMessageCounter) : PeerMessageCounter := Reset p.

Definition VerifyChallenge (p : PeerMessageCounter) (counter : Z)
    (challenge : bytes) : CHIP_ERROR * PeerMessageCounter :=
  match p with
  | SyncInProcess mChallenge =>
      if decide (mChallenge = challenge)
      then (CHIP_NO_ERROR, SyncedState (MkSynced counter 0))
      else (CHIP_ERROR_INVALID_ARGUMENT, p)
  | _ => (CHIP_ERROR_INCORRECT_STATE, p)
  end.

Definition SetCounter (p : PeerMessageCounter) (value : Z) : PeerMessageCounter :=
  SyncedState (MkSynced value 0).

(** Reads the union's [Synced] member: [None] when it is not the active one. *)
Definition GetCounter (p : PeerMessageCounter) : option Z :=
  match p with SyncedState s => Some (mMaxCounter s) | _ => None end.

Definition VerifyOrTrustFirstGroup (p : PeerMessageCounter) (counter : Z) :
    option (CHIP_ERROR * PeerMessageCounter) :=
  match p with
  | NotSynced => Some (CHIP_NO_ERROR, SetCounter p counter)
  | SyncedState _ => Some (VerifyGroup p counter, p)
  | SyncInProcess _ => None
  end.

Definition VerifyUnencrypted (p : PeerMessageCounter) (counter : Z) :
    option (CHIP_ERROR * PeerMessageCounter) :=
  match p with
  | NotSynced => Some (CHIP_NO_ERROR, SetCounter p counter)
  | SyncedState s =>
      let pos := ClassifyWithRollover s counter in
      Some (VerifyPositionUnencrypted s pos counter, p)
  | SyncInProcess _ => None
  end.

(** ** Commit *)

(** [mWindow <<= n] and [mWindow.set(n)] of the bitset. *)
Definition window_shl (w n : Z) : Z := wrap WINDOW_SIZE (Z.shiftl w n).
Definition window_set (w n : Z) : Z := Z.setbit w n.

Definition CommitWithPosition (s : Synced) (position : Position) (counter : Z) :
    Synced :=
  match position with
  | InWindow =>
      let offset := mMaxCounter s -{32} counter in
      MkSynced (mMaxCounter s) (window_set (mWindow s) (offset - 1))
  | MaxCounter => s
  | _ =>
      let shift := counter -{32} mMaxCounter s in
      if WINDOW_SIZE <? shift then MkSynced counter 0
      else MkSynced counter (window_set (window_shl (mWindow s) shift) (shift - 1))
  end.

Definition CommitWithRollover (s : Synced) (counter : Z) : Synced :=
  CommitWithPosition s (ClassifyWithRollover s counter) counter.

Definition CommitWithoutRollover (s : Synced) (counter : Z) : Synced :=
  CommitWithPosition s (ClassifyWithoutRollover s counter) counter.

(** The public commits, defined when the [Synced] member is active. *)
Definition CommitGroup (p : PeerMessageCounter) (counter : Z) :
    option PeerMessageCounter :=
  match p with
  | SyncedState s => Some (SyncedState (CommitWithRollover s counter))
  | _ => None
  end.

Definition CommitEncryptedUnicast (p : PeerMessageCounter) (counter : Z) :
    option PeerMessageCounter :=
  match p with
  | SyncedState s => Some (SyncedState (CommitWithoutRollover s counter))
  | _ => None
  end.

Definition CommitUnencrypted (p : PeerMessageCounter) (counter : Z) :
    option PeerMessageCounter := CommitGroup p counter.

(** ** Dispatch of received messages *)

(** What the session manager does with a received message once it is
    authenticated: drop it, or hand it to the layer above with the
    [DuplicateMessage] flag. *)
Inductive disposition :=
| Drop (e : CHIP_ERROR)
| Deliver (isDuplicate : bool).

#[export] Instance disposition_eq_dec : EqDecision disposition.
Proof. solve_decision. Defined.

Record incoming := MkIncoming { in_counter : Z; in_needsAck : bool }.

(** SessionManager::SecureUnicastMessageDispatch, from the counter check on. *)
Definition dispatch_unicast (p : PeerMessageCounter) (m : incoming) :
    option (disposition * PeerMessageCounter) :=
  let err := VerifyEncryptedUnicast p (in_counter m) in
  let isDuplicate := bool_decide (err = CHIP_ERROR_DUPLICATE_MESSAGE_RECEIVED) in
  let err := if isDuplicate then CHIP_NO_ERROR else err in
  if decide (err = CHIP_NO_ERROR) then
    if isDuplicate && negb (in_needsAck m) then Some (Drop CHIP_NO_ERROR, p)
    else if isDuplicate then Some (Deliver true, p)
    else p' ← CommitEncryptedUnicast p (in_counter m); Some (Deliver false, p')
  else Some (Drop err, p).

(** SessionManager::SecureGroupMessageDispatch for a trust-first group: group
    messages that ask for an acknowledgement were dropped before. *)
Definition dispatch_group (p : PeerMessageCounter) (counter : Z) :
    option (disposition * PeerMessageCounter) :=
  '(err, p) ← VerifyOrTrustFirstGroup p counter;
  if decide (err = CHIP_NO_ERROR)
  then p' ← CommitGroup p counter; Some (Deliver false, p')
  else Some (Drop err, p).

(** SessionManager::UnauthenticatedMessageDispatch, from the counter check on. *)
Definition dispatch_unsecured (p : PeerMessageCounter) (counter : Z) :
    option (disposition * PeerMessageCounter) :=
  '(err, p) ← VerifyUnencrypted p counter;
  if decide (err = CHIP_ERROR_DUPLICATE_MESSAGE_RECEIVED)
  then Some (Deliver true, p)
  else p' ← CommitUnencrypted p counter; Some (Deliver false, p').

(** The counters a run over a list of messages delivers as new, in order;
    [None] if a step aborts the process or reads an inactive union member. *)
Fixpoint delivered {A} (dispatch : PeerMessageCounter -> A ->
      option (disposition * PeerMessageCounter)) (counter : A -> Z)
    (p : PeerMessageCounter) (ms : list A) : option (list Z) :=
  match ms with
  | [] => Some []
  | m :: ms =>
      '(d, p') ← dispatch p m;
      l ← delivered dispatch counter p' ms;
      Some (if decide (d = Deliver false) then counter m :: l else l)
  end.

(** ** The abstract receiver

    Its state is the set of all the counters it accepted, over unbounded
    integers; a counter is fresh when it is above all of them, or within
    [WINDOW_SIZE] of the top and never seen. *)
Module Window.

Record state := MkState { top : Z; seen : gset Z }.

Definition position (w : state) (L : Z) : Position :=
  if top w <? L then FutureCounter
  else if L =? top w then MaxCounter
  else if top w - L <=? WINDOW_SIZE then InWindow else BeforeWindow.

Definition fresh (w : state) (L : Z) : bool :=
  match position w L with
  | FutureCounter => true
  | InWindow => bool_decide (L ∉ seen w)
  | _ => false
  end.

Definition accept (w : state) (L : Z) : state :=
  MkState (Z.max (top w) L) ({[L]} ∪ seen w).

(** The counters of a list the abstract receiver accepts. *)
Fixpoint run (w : state) (Ls : list Z) : list Z :=
  match Ls with
  | [] => []
  | L :: Ls => if fresh w L then L :: run (accept w L) Ls else run w Ls
  end.

Definition init (L : Z) : state := MkState L {[L]}.

Record wf (w : state) : Prop := {
  wf_top : top w ∈ seen w;
  wf_max : forall L, L ∈ seen w -> L <= top w }.

Lemma init_wf L : wf (init L).
Proof. split; simpl; set_solver by lia. Qed.

Lemma accept_wf w L : wf w -> wf (accept w L).
Proof.
  intros [Ht Hm]; split; simpl.
  - destruct (Z.max_spec (top w) L) as [[_ ->]|[_ ->]]; set_solver.
  - intros x [->%elem_of_singleton|Hx%Hm]%elem_of_union; lia.
Qed.

(** A fresh counter was never seen. *)
Lemma fresh_unseen w L : wf w -> fresh w L = true -> L ∉ seen w.
Proof.
  unfold fresh, position; intros [Ht Hm] Hf Hin.
  specialize (Hm _ Hin); repeat bcase_in Hf; try lia; try done.
  by apply bool_decide_eq_true in Hf.
Qed.

(** No counter is accepted twice, nor one that had been seen before. *)
Lemma run_NoDup w Ls :
  wf w -> NoDup (run w Ls) /\ (forall L, L ∈ run w Ls -> L ∉ seen w).
Proof.
  revert w; induction Ls as [|L Ls IH]; intros w Hw; simpl.
  - split; [constructor|set_solver].
  - destruct (fresh w L) eqn:Hf; [|by apply IH].
    destruct (IH _ (accept_wf w L Hw)) as [Hnd Hnew]; simpl in Hnew.
    pose proof (fresh_unseen w L Hw Hf).
    split; [constructor; set_solver|set_solver].
Qed.
End Window.

(** ** Refinement of the abstract receiver by the 32-bit window *)

(** The concrete window [s] represents the abstract receiver [w]: the counter
    is the top modulo 2^32 and bit [i] says whether [top - 1 - i] was seen. *)
Record refines (s : Synced) (w : Window.state) : Prop := {
  ref_wf : Window.wf w;
  ref_max : mMaxCounter s = wrap 32 (Window.top w);
  ref_win : is_uint WINDOW_SIZE (mWindow s);
  ref_bit : forall i, 0 <= i < WINDOW_SIZE ->
    Z.testbit (mWindow s) i = bool_decide (Window.top w - 1 - i ∈ Window.seen w) }.

Lemma window_shl_bit w n i :
  0 <= n -> 0 <= i < WINDOW_SIZE ->
  Z.testbit (window_shl w n) i = (n <=? i) && Z.testbit w (i - n).
Proof.
  intros; unfold window_shl, wrap, WINDOW_SIZE in *.
  rewrite Z.mod_pow2_bits_low, Z.shiftl_spec by lia.
  bcase; [done|]; by rewrite Z.testbit_neg_r by lia.
Qed.

Lemma window_set_bit w n i :
  0 <= n -> Z.testbit (window_set w n) i = (n =? i) || Z.testbit w i.
Proof. apply Z.setbit_eqb. Qed.

Lemma is_uint_setbit k w n :
  0 <= n < k -> is_uint k w -> is_uint k (Z.setbit w n).
Proof.
  unfold is_uint; intros Hn [Hw0 Hw].
  assert (Z.setbit w n = wrap k (Z.setbit w n)) as ->.
  { apply Z.bits_inj'; intros i Hi; unfold wrap.
    destruct (Z.ltb_spec i k); [by rewrite Z.mod_pow2_bits_low by lia|].
    rewrite Z.mod_pow2_bits_high, Z.setbit_neq by lia.
    rewrite <-(Z.mod_small w (2 ^ k)), Z.mod_pow2_bits_high by lia; done. }
  apply wrap_range; lia.
Qed.

Lemma window_set_ok w n :
  0 <= n < WINDOW_SIZE -> is_uint WINDOW_SIZE w -> is_uint WINDOW_SIZE (window_set w n).
Proof. apply is_uint_setbit. Qed.

Lemma window_shl_ok w n : is_uint WINDOW_SIZE (window_shl w n).
Proof. apply wrap_range; unfold WINDOW_SIZE; lia. Qed.
#[export] Hint Resolve window_set_ok window_shl_ok : core.

Lemma refines_init L : refines (MkSynced (wrap 32 L) 0) (Window.init L).
Proof.
  split; simpl.
  - apply Window.init_wf.
  - done.
  - by split.
  - intros i Hi; rewrite Z.bits_0; symmetry.
    apply bool_decide_eq_false; rewrite elem_of_singleton; lia.
Qed.

Section Refinement.
Context (s : Synced) (w : Window.state) (R : refines s w).
Context (L : Z).

(** The distance from the top to the incoming counter, as the code computes
    it modulo 2^32. *)
Lemma offset_eq : mMaxCounter s -{32} wrap 32 L = wrap 32 (Window.top w - L).
Proof. rewrite (ref_max _ _ R), wrap_sub_l, wrap_sub_r; done. Qed.

Lemma increase_eq : wrap 32 L -{32} mMaxCounter s = wrap 32 (L - Window.top w).
Proof. rewrite (ref_max _ _ R), wrap_sub_l, wrap_sub_r; done. Qed.

Lemma max_eqb_iff :
  - 2 ^ 32 < L - Window.top w < 2 ^ 32 ->
  (wrap 32 L =? mMaxCounter s) = (L =? Window.top w).
Proof.
  intros HL; rewrite (ref_max _ _ R).
  destruct (Z.eqb_spec L (Window.top w)) as [->|Hne]; [apply Z.eqb_refl|].
  apply Z.eqb_neq; unfold wrap; intros Heq.
  Z.div_mod_to_equations; lia.
Qed.

Lemma classify_non_future :
  - 2 ^ 32 < L - Window.top w <= 0 ->
  ClassifyNonFutureCounter s (wrap 32 L) =
    if L =? Window.top w then MaxCounter
    else if Window.top w - L <=? WINDOW_SIZE then InWindow else BeforeWindow.
Proof.
  unfold ClassifyNonFutureCounter, WINDOW_SIZE; intros HL.
  rewrite max_eqb_iff, offset_eq by lia.
  by rewrite wrap_small by (unfold is_uint; lia).
Qed.

Lemma classify_with_rollover :
  - 2 ^ 31 <= L - Window.top w < 2 ^ 31 ->
  ClassifyWithRollover s (wrap 32 L) = Window.position w L.
Proof.
  intros HL; unfold ClassifyWithRollover, Window.position.
  rewrite increase_eq; destruct (Z.ltb_spec (Window.top w) L).
  - rewrite wrap_small by (unfold is_uint; lia).
    destruct (Z.leb_spec 1 (L - Window.top w)); [|lia].
    by destruct (Z.leb_spec (L - Window.top w) (2 ^ 31 - 1)); [|lia].
  - rewrite classify_non_future by (unfold WINDOW_SIZE; lia).
    destruct (_ && _) eqn:E; [exfalso|done].
    apply andb_true_iff in E as [E1%Z.leb_le E2%Z.leb_le].
    unfold wrap in *; Z.div_mod_to_equations; lia.
Qed.

Lemma classify_without_rollover :
  is_u32 (Window.top w) -> is_u32 L ->
  ClassifyWithoutRollover s (wrap 32 L) = Window.position w L.
Proof.
  unfold ClassifyWithoutRollover, Window.position; intros HT HL.
  rewrite (wrap_small 32 L HL), (ref_max _ _ R), (wrap_small _ _ HT).
  destruct (Z.ltb_spec (Window.top w) L); [done|].
  rewrite <-(wrap_small 32 L HL), classify_non_future
    by (unfold is_uint in *; lia).
  by rewrite (wrap_small 32 L HL).
Qed.

(** The verdict of the code on an encrypted counter at its abstract position
    is the freshness of the abstract receiver. *)
Lemma verify_encrypted_fresh :
  VerifyPositionEncrypted s (Window.position w L) (wrap 32 L) =
    if Window.fresh w L then CHIP_NO_ERROR
    else CHIP_ERROR_DUPLICATE_MESSAGE_RECEIVED.
Proof.
  unfold VerifyPositionEncrypted, Window.fresh, Window.position.
  repeat bcase; try done.
  unfold WINDOW_SIZE in *.
  rewrite offset_eq, wrap_small, (ref_bit _ _ R)
    by (unfold is_uint, WINDOW_SIZE; lia).
  replace (Window.top w - 1 - (Window.top w - L - 1)) with L by lia.
  by repeat case_bool_decide.
Qed.

(** Committing a fresh counter is accepting it in the abstract receiver. *)
Lemma commit_refines :
  L - Window.top w < 2 ^ 32 -> Window.fresh w L = true ->
  refines (CommitWithPosition s (Window.position w L) (wrap 32 L))
    (Window.accept w L).
Proof.
  intros Hd Hf; pose proof (ref_wf _ _ R) as Hw.
  pose proof (Window.wf_max _ Hw) as Hmax.
  revert Hf; unfold Window.fresh, CommitWithPosition, Window.position.
  destruct (Z.ltb_spec (Window.top w) L) as [Hlt|].
  - intros _; rewrite increase_eq, wrap_small by (unfold is_uint; lia).
    bcase; split; auto using Window.accept_wf; simpl; rewrite ?Z.max_r by lia; auto.
    + by split.
    + intros i Hi; rewrite Z.bits_0; symmetry; apply bool_decide_eq_false.
      unfold WINDOW_SIZE in *.
      intros [?%elem_of_singleton|?%Hmax]%elem_of_union; lia.
    + apply window_set_ok; auto; lia.
    + intros i Hi; rewrite window_set_bit, window_shl_bit by lia.
      destruct (Z.eqb_spec (L - Window.top w - 1) i); simpl; symmetry;
        [|bcase; simpl; rewrite ?(ref_bit _ _ R) by lia].
      * apply bool_decide_eq_true; pose proof (Window.wf_top _ Hw).
        replace (L - 1 - i) with (Window.top w) by lia; set_solver.
      * replace (Window.top w - 1 - (i - (L - Window.top w)))
          with (L - 1 - i) by lia.
        apply bool_decide_ext; set_solver by lia.
      * apply bool_decide_eq_false.
        intros [?%elem_of_singleton|?%Hmax]%elem_of_union; lia.
  - destruct (Z.eqb_spec L (Window.top w)); [done|].
    destruct (Z.leb_spec (Window.top w - L) WINDOW_SIZE); [|done]; intros _.
    unfold WINDOW_SIZE in *.
    rewrite offset_eq, wrap_small by (unfold is_uint; lia).
    split; auto using Window.accept_wf; simpl; rewrite ?Z.max_l by lia.
    + apply (ref_max _ _ R).
    + apply window_set_ok; [unfold WINDOW_SIZE; lia|apply (ref_win _ _ R)].
    + intros i Hi; rewrite window_set_bit, (ref_bit _ _ R) by lia.
      bcase; simpl; symmetry; [apply bool_decide_eq_true|apply bool_decide_ext];
        set_solver by lia.
Qed.
End Refinement.

(** ** One dispatched message *)

Section Dispatch.
Context (s : Synced) (w : Window.state) (R : refines s w).

(** What the abstract receiver becomes after one message. *)
Definition w_next (L : Z) : Window.state :=
  if Window.fresh w L then Window.accept w L else w.

Lemma dispatch_unicast_step m :
  is_u32 (Window.top w) -> is_u32 (in_counter m) ->
  exists d s',
    dispatch_unicast (SyncedState s) m = Some (d, SyncedState s') /\
    refines s' (w_next (in_counter m)) /\ is_u32 (Window.top (w_next (in_counter m))) /\
    (d = Deliver false <-> Window.fresh w (in_counter m) = true).
Proof.
  intros HT HL; unfold dispatch_unicast, VerifyEncryptedUnicast,
    CommitEncryptedUnicast, CommitWithoutRollover, w_next.
  pose proof (classify_without_rollover s w R (in_counter m) HT HL) as Hc.
  pose proof (verify_encrypted_fresh s w R (in_counter m)) as Hv.
  pose proof (commit_refines s w R (in_counter m)) as Hr.
  rewrite (wrap_small 32 _ HL) in *; rewrite Hc, Hv.
  destruct (Window.fresh w (in_counter m)) eqn:Hf; simpl.
  - eexists _, _; split; [reflexivity|]; split; [|split; [|done]].
    + apply Hr; auto; unfold is_uint in *; lia.
    + unfold is_uint in *; simpl; lia.
  - destruct (in_needsAck m); simpl; eexists _, _; (split; [reflexivity|]);
      split_and!; naive_solver.
Qed.

Lemma dispatch_group_step L :
  - 2 ^ 31 <= L - Window.top w < 2 ^ 31 ->
  exists d s',
    dispatch_group (SyncedState s) (wrap 32 L) = Some (d, SyncedState s') /\
    refines s' (w_next L) /\ (d = Deliver false <-> Window.fresh w L = true).
Proof.
  intros HL; unfold dispatch_group, VerifyOrTrustFirstGroup, VerifyGroup, CommitGroup.
  unfold CommitWithRollover, w_next; simpl.
  rewrite (classify_with_rollover s w R), (verify_encrypted_fresh s w R) by done.
  destruct (Window.fresh w L) eqn:Hf; simpl.
  - eexists _, _; split; [reflexivity|]; split; [|done].
    apply commit_refines; auto; lia.
  - eexists _, _; split; [reflexivity|]; naive_solver.
Qed.
End Dispatch.

Section Runs.

(** Every message's counter is within 2^31 of the newest one accepted before
    it, the range in which 32-bit counters can be told apart. *)
Fixpoint tracks (w : Window.state) (Ls : list Z) : Prop :=
  match Ls with
  | [] => True
  | L :: Ls => - 2 ^ 31 <= L - Window.top w < 2 ^ 31 /\ tracks (w_next w L) Ls
  end.

Lemma delivered_unicast s w ms :
  refines s w -> is_u32 (Window.top w) -> Forall is_u32 (map in_counter ms) ->
  delivered dispatch_unicast in_counter (SyncedState s) ms =
    Some (Window.run w (map in_counter ms)).
Proof.
  revert s w; induction ms as [|m ms IH]; intros s w R HT Hms; [done|].
  inversion Hms as [|? ? Hm Hms']; subst.
  destruct (dispatch_unicast_step s w R m HT Hm) as (d & s' & Hd & R' & HT' & Hf).
  cbn [delivered]; rewrite Hd; cbn; rewrite (IH _ _ R' HT' Hms'); cbn.
  unfold w_next; destruct (Window.fresh w (in_counter m));
    case_decide; naive_solver.
Qed.

Lemma delivered_group s w Ls :
  refines s w -> tracks w Ls ->
  delivered dispatch_group id (SyncedState s) (map (wrap 32) Ls) =
    Some (map (wrap 32) (Window.run w Ls)).
Proof.
  revert s w; induction Ls as [|L Ls IH]; intros s w R Hms; [done|].
  destruct Hms as [HL Hms].
  destruct (dispatch_group_step s w R L HL) as (d & s' & Hd & R' & Hf).
  cbn [delivered map]; rewrite Hd; cbn; rewrite (IH _ _ R' Hms); cbn.
  unfold w_next; destruct (Window.fresh w L); case_decide; naive_solver.
Qed.
End Runs.

(** ** Properties *)

(** C10: no secure unicast message is delivered as new twice.  Over any sequence
    of authenticated messages, starting from a window synchronised at [c0], the
    run never aborts, and the counters delivered as new are exactly the ones
    the abstract receiver accepts: without duplicates, and without [c0]. *)
Theorem unicast_no_replay (c0 : Z) (ms : list incoming) :
  is_u32 c0 -> Forall is_u32 (map in_counter ms) ->
  exists l,
    delivered dispatch_unicast in_counter (SetCounter NotSynced c0) ms = Some l /\
    l = Window.run (Window.init c0) (map in_counter ms) /\ NoDup l /\ c0 ∉ l.
Proof.
  intros Hc Hms; eexists; split; [|split; [reflexivity|]].
  - unfold SetCounter; rewrite <-(wrap_small 32 c0 Hc) at 1.
    by apply delivered_unicast; [apply refines_init|..].
  - destruct (Window.run_NoDup (Window.init c0) (map in_counter ms)) as [Hnd Hnew];
      [apply Window.init_wf|].
    split; [done|]; intros Hin; apply (Hnew _ Hin); simpl; set_solver.
Qed.

Lemma unicast_no_replay_witness :
  let ms := [MkIncoming 7 false; MkIncoming 7 true; MkIncoming 5 false;
             MkIncoming 5 false; MkIncoming 60 false; MkIncoming 8 false] in
  delivered dispatch_unicast in_counter (SetCounter NotSynced 6) ms =
    Some [7; 5; 60] /\
  exists l,
    delivered dispatch_unicast in_counter (SetCounter NotSynced 6) ms = Some l /\
    l = Window.run (Window.init 6) (map in_counter ms) /\ NoDup l /\ 6 ∉ l.
Proof.
  split; [vm_compute; reflexivity|].
  apply (unicast_no_replay 6); [by vm_compute|].
  repeat constructor; by vm_compute.
Defined.

(** C18: a group receiver that trusts its first message refines the unbounded
    receiver across counter roll-over.  When every sender counter, unwrapped to
    an unbounded integer, is within 2^31 of the newest one accepted, the 32-bit
    receiver delivers exactly the messages the unbounded one accepts, and no
    unbounded counter twice. *)
Theorem group_rollover_refinement (L0 : Z) (Ls : list Z) :
  tracks (Window.init L0) Ls ->
  let l := L0 :: Window.run (Window.init L0) Ls in
  delivered dispatch_group id NotSynced (map (wrap 32) (L0 :: Ls)) =
    Some (map (wrap 32) l) /\ NoDup l.
Proof.
  intros Ht l; split.
  - assert (dispatch_group NotSynced (wrap 32 L0) =
      Some (Deliver false, SyncedState (MkSynced (wrap 32 L0) 0))) as Hd.
    { unfold dispatch_group; simpl; unfold CommitWithRollover, ClassifyWithRollover,
        ClassifyNonFutureCounter; simpl.
      by rewrite Z.sub_diag, Z.eqb_refl. }
    cbn [delivered map]; rewrite Hd; cbn.
    by rewrite (delivered_group _ _ _ (refines_init L0) Ht).
  - destruct (Window.run_NoDup (Window.init L0) Ls) as [Hnd Hnew];
      [apply Window.init_wf|].
    constructor; [|done]; intros Hin; apply (Hnew _ Hin); simpl; set_solver.
Qed.

Lemma group_rollover_refinement_witness :
  let Ls := [2 ^ 32 + 1; 2 ^ 32 - 1; 2 ^ 32 - 1; 2 ^ 32] in
  delivered dispatch_group id NotSynced (map (wrap 32) ((2 ^ 32 - 2) :: Ls)) =
    Some [4294967294; 1; 4294967295; 0] /\
  (let l := (2 ^ 32 - 2) :: Window.run (Window.init (2 ^ 32 - 2)) Ls in
   delivered dispatch_group id NotSynced (map (wrap 32) ((2 ^ 32 - 2) :: Ls)) =
     Some (map (wrap 32) l) /\ NoDup l).
Proof.
  split; [vm_compute; reflexivity|].
  apply (group_rollover_refinement (2 ^ 32 - 2)).
  vm_compute; intuition congruence.
Defined.

(** what the unsecured-session check does with one message whose counter is
    within 2^31 of the newest.  Counters the window remembers are delivered
    with the duplicate flag and change nothing; fresh ones are delivered and
    remembered; one below the window is taken for a restarted peer: delivered
    as new, and the window restarts at it with nothing remembered. *)
Theorem unsecured_dispatch (s : Synced) (w : Window.state) (L : Z) :
  refines s w -> - 2 ^ 31 <= L - Window.top w < 2 ^ 31 ->
  exists d s',
    dispatch_unsecured (SyncedState s) (wrap 32 L) = Some (d, SyncedState s') /\
    match Window.position w L with
    | BeforeWindow => d = Deliver false /\ refines s' (Window.init L)
    | _ => if Window.fresh w L
           then d = Deliver false /\ refines s' (Window.accept w L)
           else d = Deliver true /\ s' = s
    end.
Proof.
  intros R HL.
  pose proof (verify_encrypted_fresh s w R L) as Hv.
  pose proof (commit_refines s w R L ltac:(lia)) as Hr.
  unfold dispatch_unsecured, VerifyUnencrypted, CommitUnencrypted, CommitGroup,
    CommitWithRollover; simpl.
  rewrite (classify_with_rollover s w R) by done.
  destruct (Window.position w L) eqn:Hp; unfold Window.fresh in *;
    rewrite Hp in *; simpl in *.
  - eexists _, _; split; [reflexivity|]; split; [done|].
    unfold Window.position in Hp; repeat bcase_in Hp; try done.
    unfold WINDOW_SIZE in *; rewrite (increase_eq s w R).
    destruct (Z.ltb_spec 32 (wrap 32 (L - Window.top w))) as [|Hs];
      [apply refines_init|].
    exfalso; unfold wrap in Hs; Z.div_mod_to_equations; lia.
  - rewrite Hv; destruct (bool_decide _) eqn:Hb; simpl.
    + eexists _, _; split; [reflexivity|]; auto.
    + eexists _, _; split; [reflexivity|]; auto.
  - eexists _, _; split; [reflexivity|]; auto.
  - eexists _, _; split; [reflexivity|]; auto.
Qed.

Lemma unsecured_dispatch_witness :
  exists d s',
    dispatch_unsecured (SyncedState (MkSynced (wrap 32 100) 0)) (wrap 32 3) =
      Some (d, SyncedState s') /\
    match Window.position (Window.init 100) 3 with
    | BeforeWindow => d = Deliver false /\ refines s' (Window.init 3)
    | _ => if Window.fresh (Window.init 100) 3
           then d = Deliver false /\ refines s' (Window.accept (Window.init 100) 3)
           else d = Deliver true /\ s' = MkSynced (wrap 32 100) 0
    end.
Proof.
  apply (unsecured_dispatch _ (Window.init 100) 3); [apply refines_init|].
  simpl; lia.
Defined.
