(* ===== verification/Utf8.v ===== *)
(** * Utf8: validation of character strings

    Model of src/src/lib/support/utf8.cpp: the state machine [NextState] over
    the bytes of a span and [IsValid], which the TLV reader and writer call on
    UTF-8 strings.  The reference is the definition of the encoding form
    itself: the concatenation of the encodings of Unicode scalar values. *)

From S2P Require Import Prelude.

Inductive ParserState :=
| kFirstByte
| kSecondByte_A
| kSecondByte_B
| kSecondByte_C
| kSecondByte_D
| kExtraOneByte
| kExtraTwoBytes
| kExtraThreeBytes
| kInvalid.

#[export] Instance ParserState_eq_dec : EqDecision ParserState.
Proof. solve_decision. Defined.

Definition NextState (state : ParserState) (value : Z) : ParserState :=
  let within lo hi next := if (lo <=? value) && (value <=? hi) then next else kInvalid in
  match state with
  | kFirstByte =>
      if value <=? 0x7F then kFirstByte
      else if (0xC2 <=? value) && (value <=? 0xDF) then kExtraOneByte
      else if value =? 0xE0 then kSecondByte_A
      else if (0xE1 <=? value) && (value <=? 0xEC) then kExtraTwoBytes
      else if value =? 0xED then kSecondByte_B
      else if (0xEE <=? value) && (value <=? 0xEF) then kExtraTwoBytes
      else if value =? 0xF0 then kSecondByte_C
      else if (0xF1 <=? value) && (value <=? 0xF3) then kExtraThreeBytes
      else if value =? 0xF4 then kSecondByte_D
      else kInvalid
  | kSecondByte_A => within 0xA0 0xBF kExtraOneByte
  | kSecondByte_B => within 0x80 0x9F kExtraOneByte
  | kSecondByte_C => within 0x90 0xBF kExtraTwoBytes
  | kSecondByte_D => within 0x80 0x8F kExtraTwoBytes
  | kExtraOneByte => within 0x80 0xBF kFirstByte
  | kExtraTwoBytes => within 0x80 0xBF kExtraOneByte
  | kExtraThreeBytes => within 0x80 0xBF kExtraTwoBytes
  | kInvalid => kInvalid
  end.

(** The loop of [IsValid], from [state]. *)
Fixpoint IsValid_from (state : ParserState) (span : bytes) : bool :=
  match span with
  | [] => bool_decide (state = kFirstByte)
  | b :: span =>
      let state := NextState state b in
      if bool_decide (state = kInvalid) then false else IsValid_from state span
  end.

Definition Utf8_IsValid (span : bytes) : bool := IsValid_from kFirstByte span.

(** ** The encoding form *)

(** A Unicode scalar value: a code point that is not a surrogate. *)
Definition scalar_value (cp : Z) : Prop :=
  0 <= cp <= 0xD7FF \/ 0xE000 <= cp <= 0x10FFFF.

(** The table in the comment of utf8.h. *)
Definition utf8_encode (cp : Z) : bytes :=
  if cp <? 0x80 then [cp]
  else if cp <? 0x800 then [0xC0 + cp / 64; 0x80 + cp mod 64]
  else if cp <? 0x10000 then
    [0xE0 + cp / 4096; 0x80 + cp / 64 mod 64; 0x80 + cp mod 64]
  else
    [0xF0 + cp / 262144; 0x80 + cp / 4096 mod 64; 0x80 + cp / 64 mod 64; 0x80 + cp mod 64].

(** Decides the comparisons of the state machine that arithmetic settles. *)
Ltac decide_bytes :=
  repeat match goal with
  | |- context [Z.leb ?a ?b] =>
      first [rewrite (proj2 (Z.leb_le a b)) by lia|rewrite (proj2 (Z.leb_gt a b)) by lia]
  | |- context [Z.eqb ?a ?b] =>
      first [rewrite (proj2 (Z.eqb_eq a b)) by lia|rewrite (proj2 (Z.eqb_neq a b)) by lia]
  end.

Lemma IsValid_step state b span next :
  NextState state b = next -> next <> kInvalid ->
  IsValid_from state (b :: span) = IsValid_from next span.
Proof. intros Hn Hk; cbn [IsValid_from]; rewrite Hn; by rewrite bool_decide_eq_false_2. Qed.

(** Runs the machine over the bytes at the front of the goal's span. *)
Ltac run_bytes :=
  repeat (erewrite IsValid_step;
          [|unfold NextState; decide_bytes; reflexivity|discriminate]);
  reflexivity.

(** The bytes of one scalar value take the machine back to its first state. *)
Lemma IsValid_encode cp span :
  scalar_value cp -> IsValid_from kFirstByte (utf8_encode cp ++ span) = Utf8_IsValid span.
Proof.
  intros Hcp; unfold utf8_encode, scalar_value in *.
  pose proof (Z.mod_pos_bound cp 64 ltac:(lia)); pose proof (Z.div_mod cp 64 ltac:(lia)).
  pose proof (Z.mod_pos_bound (cp / 64) 64 ltac:(lia)).
  pose proof (Z.div_mod (cp / 64) 64 ltac:(lia)).
  pose proof (Z.mod_pos_bound (cp / 4096) 64 ltac:(lia)).
  pose proof (Z.div_mod (cp / 4096) 64 ltac:(lia)).
  assert (cp / 4096 = cp / 64 / 64) by (rewrite Z.div_div; done || lia).
  assert (cp / 262144 = cp / 4096 / 64) by (rewrite Z.div_div; done || lia).
  destruct (Z.ltb_spec cp 0x80); [|destruct (Z.ltb_spec cp 0x800); [|destruct (Z.ltb_spec cp 0x10000)]];
    cbn [app].
  - run_bytes.
  - run_bytes.
  - assert (Hf : cp / 4096 = 0 \/ 1 <= cp / 4096 <= 12 \/ cp / 4096 = 13 \/
                 14 <= cp / 4096 <= 15) by lia.
    destruct Hf as [Hf|[Hf|[Hf|Hf]]]; run_bytes.
  - assert (Hf : cp / 262144 = 0 \/ 1 <= cp / 262144 <= 3 \/ cp / 262144 = 4) by lia.
    destruct Hf as [Hf|[Hf|Hf]]; run_bytes.
Qed.

(** ** From accepted bytes to scalar values *)

(** The scalar value two, three and four bytes of the form stand for. *)
Definition join2 (a b : Z) : Z := (a - 0xC0) * 64 + (b - 0x80).
Definition join3 (a b c : Z) : Z := (a - 0xE0) * 4096 + (b - 0x80) * 64 + (c - 0x80).
Definition join4 (a b c d : Z) : Z :=
  (a - 0xF0) * 262144 + (b - 0x80) * 4096 + (c - 0x80) * 64 + (d - 0x80).

Lemma div_mod_64 q r : 0 <= r < 64 -> (q * 64 + r) / 64 = q /\ (q * 64 + r) mod 64 = r.
Proof.
  intros; split.
  - rewrite Z.div_add_l, Z.div_small by lia; lia.
  - rewrite Z.add_comm, Z_mod_plus_full; by apply Z.mod_small.
Qed.

Lemma encode_join2 a b :
  0xC2 <= a <= 0xDF -> 0x80 <= b <= 0xBF -> utf8_encode (join2 a b) = [a; b].
Proof.
  intros; unfold utf8_encode, join2.
  destruct (div_mod_64 (a - 0xC0) (b - 0x80)) as [-> ->]; [lia|].
  repeat bcase; try lia; repeat f_equal; lia.
Qed.

Lemma encode_join3 a b c :
  0xE0 <= a <= 0xEF -> 0x80 <= b <= 0xBF -> 0x80 <= c <= 0xBF ->
  (a = 0xE0 -> 0xA0 <= b) -> utf8_encode (join3 a b c) = [a; b; c].
Proof.
  intros; unfold utf8_encode.
  replace (join3 a b c) with (join2 (64 * (a - 0xE0) + b + 0x40) c) by (unfold join2, join3; lia).
  rewrite <-(Z.div_div _ 64 64) by lia; unfold join2.
  destruct (div_mod_64 (64 * (a - 0xE0) + b + 0x40 - 0xC0) (c - 0x80)) as [-> ->]; [lia|].
  replace (64 * (a - 0xE0) + b + 0x40 - 0xC0) with ((a - 0xE0) * 64 + (b - 0x80)) by lia.
  destruct (div_mod_64 (a - 0xE0) (b - 0x80)) as [-> ->]; [lia|].
  repeat bcase; try lia; repeat f_equal; lia.
Qed.

Lemma encode_join4 a b c d :
  0xF0 <= a <= 0xF4 -> 0x80 <= b <= 0xBF -> 0x80 <= c <= 0xBF -> 0x80 <= d <= 0xBF ->
  (a = 0xF0 -> 0x90 <= b) -> utf8_encode (join4 a b c d) = [a; b; c; d].
Proof.
  intros; unfold utf8_encode.
  replace (join4 a b c d) with ((((a - 0xF0) * 64 + (b - 0x80)) * 64 + (c - 0x80)) * 64 + (d - 0x80))
    by (unfold join4; lia).
  rewrite <-(Z.div_div _ 4096 64), <-(Z.div_div _ 64 64) by lia.
  set (q := ((a - 0xF0) * 64 + (b - 0x80)) * 64 + (c - 0x80)).
  destruct (div_mod_64 q (d - 0x80)) as [-> ->]; [lia|]; subst q.
  set (q := (a - 0xF0) * 64 + (b - 0x80)).
  destruct (div_mod_64 q (c - 0x80)) as [-> ->]; [lia|]; subst q.
  destruct (div_mod_64 (a - 0xF0) (b - 0x80)) as [-> ->]; [lia|].
  repeat bcase; try lia; repeat f_equal; lia.
Qed.

(** One byte accepted in a state that expects a continuation. *)
Lemma continuation_inv state span :
  state <> kFirstByte -> IsValid_from state span = true ->
  exists b span', span = b :: span' /\ NextState state b <> kInvalid /\
                  IsValid_from (NextState state b) span' = true.
Proof.
  intros Hs; destruct span as [|b span]; simpl; [by rewrite bool_decide_eq_false_2|].
  case_bool_decide; [done|]; eauto.
Qed.

(** Every accepting run starts with the encoding of a scalar value. *)
Lemma IsValid_inv b span :
  is_u8 b -> Utf8_IsValid (b :: span) = true ->
  exists cp span', b :: span = utf8_encode cp ++ span' /\ scalar_value cp /\
                   Utf8_IsValid span' = true /\ (length span' < length (b :: span))%nat.
Proof.
  unfold Utf8_IsValid; cbn [IsValid_from]; intros Hb.
  case_bool_decide as Hn; [done|]; revert Hn; unfold NextState at 1 2.
  (* the state after the first byte, and the continuation bytes it asks for *)
  repeat (bcase; cbn [andb]; try done); intros _ Hv;
    repeat (apply continuation_inv in Hv as (? & ? & -> & Hn & Hv); [|discriminate];
            revert Hn Hv; unfold NextState at 1 2;
            repeat (bcase; cbn [andb]; try done); intros _ Hv).
  all: match goal with
       | |- exists _ _, [?a; ?b; ?c; ?d] ++ _ = _ /\ _ => idtac
       | |- exists _ _, ?a :: ?b :: ?c :: ?d :: ?l = _ /\ _ =>
           exists (join4 a b c d), l; rewrite encode_join4 by lia
       | |- exists _ _, ?a :: ?b :: ?c :: ?l = _ /\ _ =>
           exists (join3 a b c), l; rewrite encode_join3 by lia
       | |- exists _ _, ?a :: ?b :: ?l = _ /\ _ =>
           exists (join2 a b), l; rewrite encode_join2 by lia
       | |- exists _ _, ?a :: ?l = _ /\ _ =>
           exists a, l; unfold utf8_encode; rewrite (proj2 (Z.ltb_lt a 0x80)) by lia
       end;
    unfold scalar_value, join2, join3, join4, is_uint in *; cbn [length];
    (split_and!; [done|lia|done|lia]).
Qed.

(** C38: [IsValid] accepts exactly the well-formed UTF-8 strings: a byte string
    passes the state machine if and only if it is the concatenation of the
    encodings of Unicode scalar values (so overlong forms, surrogates, values
    past U+10FFFF and truncated sequences are all refused). *)
Theorem utf8_valid_iff_scalar_values span (Hbytes : bytes_ok span) :
  Utf8_IsValid span = true <->
  exists cps, Forall scalar_value cps /\ span = concat (utf8_encode <$> cps).
Proof.
  split.
  - revert Hbytes; induction span as [span IH] using (induction_ltof1 _ length).
    intros Hbytes Hv; destruct span as [|b span]; [by exists []|].
    destruct (IsValid_inv b span) as (cp & span' & Heq & Hcp & Hv' & Hlen); [by inv Hbytes|done|].
    rewrite Heq in Hbytes; apply bytes_ok_app in Hbytes as [_ Hbytes].
    destruct (IH span' Hlen Hbytes Hv') as (cps & Hcps & ->).
    exists (cp :: cps); csimpl; auto.
  - intros (cps & Hcps & ->); clear Hbytes.
    induction Hcps as [|cp cps Hcp Hcps IH]; csimpl; [done|].
    unfold Utf8_IsValid; by rewrite IsValid_encode.
Qed.

(** "a", e acute, the euro sign and a treble clef; then an overlong "/". *)
Lemma utf8_valid_iff_scalar_values_witness :
  Utf8_IsValid (concat (utf8_encode <$> [0x61; 0xE9; 0x20AC; 0x1D11E])) = true /\
  ~ exists cps, Forall scalar_value cps /\ [0xC0; 0xAF] = concat (utf8_encode <$> cps).
Proof.
  split.
  - apply utf8_valid_iff_scalar_values.
    + unfold bytes_ok; apply (bool_decide_unpack _); vm_compute; exact I.
    + exists [0x61; 0xE9; 0x20AC; 0x1D11E]; split; [|done].
      repeat constructor; unfold scalar_value; lia.
  - intros H; apply utf8_valid_iff_scalar_values in H; [done|].
    repeat constructor; unfold is_uint; lia.
Defined.
