(* ===== verification/TlvTypes.v ===== *)
(** * TlvTypes: tags and element types of the TLV encoding

    Model of src/src/lib/core/TLVTags.h and src/src/lib/core/TLVTypes.h.  The
    enumerations are the integers the code casts between: a [TLVElementType] is
    its [int8_t] value, a [TLVType] its [int] value, a [Tag] its [uint64_t]
    storage value.

    - the predicates on element types and the size of their length/value field;
    - the tag constructors and accessors, with the lemmas that take a tag apart
      ([ProfileTag_parts], [ProfileTag_eta]). *)

From S2P Require Import Prelude.

(** ** TLVTypes.h *)

Definition kTLVType_NotSpecified : Z := -1.
Definition kTLVType_UnknownContainer : Z := -2.
Definition kTLVType_SignedInteger : Z := 0x00.
Definition kTLVType_UnsignedInteger : Z := 0x04.
Definition kTLVType_Boolean : Z := 0x08.
Definition kTLVType_FloatingPointNumber : Z := 0x0A.
Definition kTLVType_UTF8String : Z := 0x0C.
Definition kTLVType_ByteString : Z := 0x10.
Definition kTLVType_Null : Z := 0x14.
Definition kTLVType_Structure : Z := 0x15.
Definition kTLVType_Array : Z := 0x16.
Definition kTLVType_List : Z := 0x17.

(** [enum class TLVElementType : int8_t] *)
Definition NotSpecified : Z := -1.
Definition Int8 : Z := 0x00.
Definition Int16 : Z := 0x01.
Definition Int32 : Z := 0x02.
Definition Int64 : Z := 0x03.
Definition UInt8 : Z := 0x04.
Definition UInt16 : Z := 0x05.
Definition UInt32 : Z := 0x06.
Definition UInt64 : Z := 0x07.
Definition BooleanFalse : Z := 0x08.
Definition BooleanTrue : Z := 0x09.
Definition FloatingPointNumber32 : Z := 0x0A.
Definition FloatingPointNumber64 : Z := 0x0B.
Definition UTF8String_1ByteLength : Z := 0x0C.
Definition UTF8String_8ByteLength : Z := 0x0F.
Definition ByteString_1ByteLength : Z := 0x10.
Definition ByteString_8ByteLength : Z := 0x13.
Definition Null : Z := 0x14.
Definition Structure : Z := 0x15.
Definition Array : Z := 0x16.
Definition List : Z := 0x17.
Definition EndOfContainer : Z := 0x18.

Definition kTLVTypeMask : Z := 0x1F.
Definition kTLVTypeSizeMask : Z := 0x03.

Definition kTLVFieldSize_0Byte : Z := -1.
Definition kTLVFieldSize_1Byte : Z := 0.
Definition kTLVFieldSize_2Byte : Z := 1.
Definition kTLVFieldSize_4Byte : Z := 2.

Definition IsValidTLVType (type : Z) : bool := type <=? EndOfContainer.

Definition TLVTypeHasValue (type : Z) : bool :=
  (type <=? UInt64) ||
  ((FloatingPointNumber32 <=? type) && (type <=? ByteString_8ByteLength)).

Definition TLVTypeHasLength (type : Z) : bool :=
  (UTF8String_1ByteLength <=? type) && (type <=? ByteString_8ByteLength).

(** Both overloads; the containers are the same numbers in the two types. *)
Definition TLVTypeIsContainer (type : Z) : bool :=
  (Structure <=? type) && (type <=? List).

Definition TLVTypeIsString (type : Z) : bool :=
  (UTF8String_1ByteLength <=? type) && (type <=? ByteString_8ByteLength).

Definition TLVTypeIsUTF8String (type : Z) : bool :=
  (UTF8String_1ByteLength <=? type) && (type <=? UTF8String_8ByteLength).

Definition TLVTypeIsByteString (type : Z) : bool :=
  (ByteString_1ByteLength <=? type) && (type <=? ByteString_8ByteLength).

Definition GetTLVFieldSize (type : Z) : Z :=
  if TLVTypeHasValue type then Z.land (wrap 8 type) kTLVTypeSizeMask
  else kTLVFieldSize_0Byte.

Definition TLVFieldSizeToBytes (fieldSize : Z) : nat :=
  if negb (fieldSize =? kTLVFieldSize_0Byte) then Z.to_nat (Z.shiftl 1 fieldSize) else 0.

(** ** TLVTags.h *)

Definition kContextTagMaxNum : Z := 255.
Definition kAnonymousTagNum : Z := 256.
Definition kUnknownImplicitTagNum : Z := 257.
Definition kProfileIdShift : Z := 32.
Definition kVendorIdShift : Z := 48.
Definition kSpecialTagProfileId : Z := 0xFFFFFFFF.
Definition kProfileIdNotSpecified : Z := 0xFFFFFFFF.
Definition kCommonProfileId : Z := 0.

(** [enum class TLVTagControl : uint8_t] *)
Definition Anonymous : Z := 0x00.
Definition ContextSpecific : Z := 0x20.
Definition CommonProfile_2Bytes : Z := 0x40.
Definition CommonProfile_4Bytes : Z := 0x60.
Definition ImplicitProfile_2Bytes : Z := 0x80.
Definition ImplicitProfile_4Bytes : Z := 0xA0.
Definition FullyQualified_6Bytes : Z := 0xC0.
Definition FullyQualified_8Bytes : Z := 0xE0.

Definition kTLVTagControlMask : Z := 0xE0.
Definition kTLVTagControlShift : Z := 5.

(** [ProfileTag(uint32_t profileId, uint32_t tagNum)]; [~profileId] is taken in
    32 bits, then widened. *)
Definition ProfileTag (profileId tagNum : Z) : Z :=
  Z.lor (Z.shiftl (wrap 32 (Z.lnot profileId)) kProfileIdShift) tagNum.

(** [ProfileTag(uint16_t vendorId, uint16_t profileNum, uint32_t tagNum)] *)
Definition VendorProfileTag (vendorId profileNum tagNum : Z) : Z :=
  ProfileTag (Z.lor (Z.shiftl vendorId (kVendorIdShift - kProfileIdShift)) profileNum) tagNum.

Definition ContextTag (tagNum : Z) : Z := ProfileTag kSpecialTagProfileId tagNum.
Definition CommonTag (tagNum : Z) : Z := ProfileTag kCommonProfileId tagNum.
Definition AnonymousTag : Z := ProfileTag kSpecialTagProfileId kAnonymousTagNum.
Definition UnknownImplicitTag : Z := ProfileTag kSpecialTagProfileId kUnknownImplicitTagNum.

Definition ProfileIdFromTag (tag : Z) : Z :=
  wrap 32 (Z.lnot (wrap 32 (Z.shiftr tag kProfileIdShift))).
Definition VendorIdFromTag (tag : Z) : Z :=
  wrap 16 (Z.shiftr (ProfileIdFromTag tag) (kVendorIdShift - kProfileIdShift)).
Definition ProfileNumFromTag (tag : Z) : Z := wrap 16 (ProfileIdFromTag tag).
Definition TagNumFromTag (tag : Z) : Z := wrap 32 tag.

Definition IsProfileTag (tag : Z) : bool := negb (ProfileIdFromTag tag =? kSpecialTagProfileId).
Definition IsContextTag (tag : Z) : bool :=
  (ProfileIdFromTag tag =? kSpecialTagProfileId) && (TagNumFromTag tag <=? kContextTagMaxNum).
Definition IsSpecialTag (tag : Z) : bool := ProfileIdFromTag tag =? kSpecialTagProfileId.

(** ** Facts on element types *)

(** The element types are few: a statement on all of them is checked on each. *)
Lemma element_type_cases (P : Z -> bool) :
  forallb P (seqZ 0 32) = true -> forall t, 0 <= t < 32 -> P t = true.
Proof.
  intros HP t Ht; rewrite forallb_forall in HP; apply HP.
  apply list_elem_of_In, elem_of_seqZ; lia.
Qed.

(** ** Facts on tags *)

Lemma lnot32 p : is_u32 p -> wrap 32 (Z.lnot p) = 2 ^ 32 - 1 - p.
Proof.
  unfold is_uint, wrap, Z.lnot; intros.
  rewrite <-(Z_mod_plus_full _ 1), Z.mod_small; lia.
Qed.

Lemma ProfileTag_val p n :
  is_u32 p -> is_u32 n -> ProfileTag p n = (2 ^ 32 - 1 - p) * 2 ^ 32 + n.
Proof.
  intros; unfold ProfileTag, kProfileIdShift.
  by rewrite lor_shiftl_add, lnot32 by (done || lia).
Qed.

Lemma ProfileTag_range p n : is_u32 p -> is_u32 n -> is_u64 (ProfileTag p n).
Proof. intros; rewrite ProfileTag_val by done; unfold is_uint in *; lia. Qed.

Lemma ProfileTag_parts p n :
  is_u32 p -> is_u32 n ->
  ProfileIdFromTag (ProfileTag p n) = p /\ TagNumFromTag (ProfileTag p n) = n.
Proof.
  intros Hp Hn; rewrite ProfileTag_val by done.
  unfold ProfileIdFromTag, TagNumFromTag, kProfileIdShift.
  rewrite Z.shiftr_div_pow2, Z.div_add_l, (Z.div_small n), Z.add_0_r by (unfold is_uint in *; lia).
  rewrite (wrap_small 32 (2 ^ 32 - 1 - p)) by (unfold is_uint in *; lia).
  rewrite lnot32 by (unfold is_uint in *; lia); split; [lia|].
  unfold wrap; rewrite Z.add_comm, Z_mod_plus_full; by apply Z.mod_small.
Qed.

Lemma ProfileId_range t : is_u32 (ProfileIdFromTag t).
Proof. apply wrap_range; lia. Qed.

Lemma TagNum_range t : is_u32 (TagNumFromTag t).
Proof. apply wrap_range; lia. Qed.
#[export] Hint Resolve ProfileId_range TagNum_range : core.

(** A tag is determined by its profile id and its number. *)
Lemma ProfileTag_eta t : is_u64 t -> ProfileTag (ProfileIdFromTag t) (TagNumFromTag t) = t.
Proof.
  intros Ht; rewrite ProfileTag_val by auto.
  unfold ProfileIdFromTag, TagNumFromTag, kProfileIdShift, is_uint in *.
  rewrite Z.shiftr_div_pow2 by lia.
  assert (Hq : is_u32 (t / 2 ^ 32))
    by (split; [apply Z.div_pos; lia|apply Z.div_lt_upper_bound; lia]).
  rewrite (wrap_small 32 (t / _)), lnot32 by done.
  unfold wrap; pose proof (Z.div_mod t (2 ^ 32)); lia.
Qed.

(** The fully qualified form splits the profile id in two. *)
Lemma VendorProfileTag_split p n :
  is_u32 p ->
  VendorProfileTag (wrap 16 (Z.shiftr p 16)) (wrap 16 p) n = ProfileTag p n.
Proof.
  intros Hp; unfold VendorProfileTag, kVendorIdShift, kProfileIdShift; f_equal.
  rewrite lor_shiftl_add by (lia || apply wrap_range; lia).
  rewrite Z.shiftr_div_pow2 by lia.
  rewrite (wrap_small 16 (_ / _)).
  - unfold wrap; pose proof (Z.div_mod p (2 ^ 16)); lia.
  - unfold is_uint in *; split; [apply Z.div_pos; lia|apply Z.div_lt_upper_bound; lia].
Qed.
