(* ===== verification/TlvReader.v ===== *)
(** * TlvReader: reading TLV elements

    Model of src/src/lib/core/TLVReader.{h,cpp} and of the reader's half of
    src/src/system/TLVPacketBufferBackingStore.cpp.  Module [TLVReader]:

    - [t] is the class; [St] pairs a reader with the buffers its backing store
      has still to deliver, which all readers on that store share;
    - [window] is the pair [mReadPoint], [mBufEnd].  It is [Dangling] once the
      store delivered no data: the code then overwrites [mReadPoint] but not
      [mBufEnd].  A step that follows such a pointer ends in
      [UNDEFINED_BEHAVIOUR];
    - the loops over the input carry a fuel; [budget], the number of bytes not
      yet read, is enough (TlvStream.v: [SkipToEnd_agree], [reader_safe]).

    A null read point with a length is not modelled for the contiguous
    initialiser: null data is the empty buffer. *)

From S2P Require Import Prelude Encoding Utf8 TlvTypes.

(** The byte order of the processor the code runs on. *)
Class Host := { big_endian : bool }.

Definition little_endian_host : Host := {| big_endian := false |}.
Definition big_endian_host : Host := {| big_endian := true |}.

Module TLVReader.

Inductive window :=
| Within (buf : bytes) (mReadPoint mBufEnd : nat)
| Dangling (isNull : bool).

Record t := mk {
  mElemTag : Z;
  mElemLenOrVal : Z;
  mBackingStore : bool;
  mWindow : window;
  mLenRead : Z;
  mMaxLen : Z;
  mContainerType : Z;
  mControlByte : Z;
  mContainerOpen : bool;
  ImplicitProfileId : Z }.

Definition kTLVControlByte_NotSpecified : Z := 0xFFFF.

(** The reader, and the data of the buffers the store delivers next. *)
Definition St : Type := t * list bytes.

Definition set_element (tag lenOrVal : Z) (r : t) : t :=
  mk tag lenOrVal (mBackingStore r) (mWindow r) (mLenRead r) (mMaxLen r)
     (mContainerType r) (mControlByte r) (mContainerOpen r) (ImplicitProfileId r).
Definition set_control (b : Z) (r : t) : t :=
  mk (mElemTag r) (mElemLenOrVal r) (mBackingStore r) (mWindow r) (mLenRead r) (mMaxLen r)
     (mContainerType r) b (mContainerOpen r) (ImplicitProfileId r).
Definition set_container (ty : Z) (r : t) : t :=
  mk (mElemTag r) (mElemLenOrVal r) (mBackingStore r) (mWindow r) (mLenRead r) (mMaxLen r)
     ty (mControlByte r) (mContainerOpen r) (ImplicitProfileId r).
Definition set_window (w : window) (lenRead : Z) (r : t) : t :=
  mk (mElemTag r) (mElemLenOrVal r) (mBackingStore r) w lenRead (mMaxLen r)
     (mContainerType r) (mControlByte r) (mContainerOpen r) (ImplicitProfileId r).
Definition SetContainerOpen (o : bool) (r : t) : t :=
  mk (mElemTag r) (mElemLenOrVal r) (mBackingStore r) (mWindow r) (mLenRead r) (mMaxLen r)
     (mContainerType r) (mControlByte r) o (ImplicitProfileId r).
Definition set_ImplicitProfileId (p : Z) (r : t) : t :=
  mk (mElemTag r) (mElemLenOrVal r) (mBackingStore r) (mWindow r) (mLenRead r) (mMaxLen r)
     (mContainerType r) (mControlByte r) (mContainerOpen r) p.

Definition self : M St t := fun s => (Ok s.1, s).
Definition upd (f : t -> t) : M St unit := modify (fun s => (f s.1, s.2)).

(** ** Initialisation *)

Definition ClearElementState (r : t) : t :=
  set_element AnonymousTag 0 (set_control kTLVControlByte_NotSpecified r).

(** [Init(const uint8_t * data, size_t dataLen)] *)
Definition Init (data : bytes) : t :=
  let actualDataLen := if Z.of_nat (length data) <? 2 ^ 32 then length data
                       else Z.to_nat (2 ^ 32 - 1) in
  mk AnonymousTag 0 false (Within data 0 actualDataLen) 0 (Z.of_nat actualDataLen)
     kTLVType_NotSpecified kTLVControlByte_NotSpecified false kProfileIdNotSpecified.

(** [Init(TLVBackingStore &, uint32_t maxLen)] on a packet buffer whose data is
    [head]; [OnInit] refuses a length that does not fit 32 bits. *)
Definition Init_store (head : bytes) (maxLen : Z) : result t :=
  if Z.of_nat (length head) <? 2 ^ 32 then
    Ok (mk AnonymousTag 0 true (Within head 0 (length head)) 0 maxLen
           kTLVType_NotSpecified kTLVControlByte_NotSpecified false kProfileIdNotSpecified)
  else Err CHIP_ERROR_INVALID_ARGUMENT.

(** [Init(const TLVReader &)]: every member is copied. *)
Definition Init_copy (aReader : t) : t :=
  mk (mElemTag aReader) (mElemLenOrVal aReader) (mBackingStore aReader) (mWindow aReader)
     (mLenRead aReader) (mMaxLen aReader) (mContainerType aReader) (mControlByte aReader)
     (mContainerOpen aReader) (ImplicitProfileId aReader).

(** ** Observers *)

Definition ElementType (r : t) : Z :=
  if mControlByte r =? kTLVControlByte_NotSpecified then NotSpecified
  else Z.land (mControlByte r) kTLVTypeMask.

Definition GetType (r : t) : Z :=
  let elemType := ElementType r in
  if elemType =? EndOfContainer then kTLVType_NotSpecified
  else if (elemType =? FloatingPointNumber32) || (elemType =? FloatingPointNumber64)
  then kTLVType_FloatingPointNumber
  else if (elemType =? NotSpecified) || (Null <=? elemType) then elemType
  else Z.land (wrap 8 elemType) (Z.lnot kTLVTypeSizeMask).

Definition GetTag (r : t) : Z := mElemTag r.
Definition GetContainerType (r : t) : Z := mContainerType r.
Definition GetControlByte (r : t) : Z := mControlByte r.
Definition GetLengthRead (r : t) : Z := mLenRead r.
Definition GetRemainingLength (r : t) : Z := mMaxLen r -{32} mLenRead r.
Definition GetTotalLength (r : t) : Z := mMaxLen r.
Definition IsContainerOpen (r : t) : bool := mContainerOpen r.

Definition GetLength (r : t) : Z :=
  if TLVTypeHasLength (ElementType r) then wrap 32 (mElemLenOrVal r) else 0.

(** ** Values *)

Definition Get_bool (r : t) : result bool :=
  if ElementType r =? BooleanFalse then Ok false
  else if ElementType r =? BooleanTrue then Ok true
  else Err CHIP_ERROR_WRONG_TLV_TYPE.

Definition Get_int64 (r : t) : result Z :=
  let e := ElementType r in
  if e =? Int8 then Ok (swrap 8 (mElemLenOrVal r))
  else if e =? Int16 then Ok (swrap 16 (mElemLenOrVal r))
  else if e =? Int32 then Ok (swrap 32 (mElemLenOrVal r))
  else if e =? Int64 then Ok (swrap 64 (mElemLenOrVal r))
  else Err CHIP_ERROR_WRONG_TLV_TYPE.

Definition Get_uint64 (r : t) : result Z :=
  let e := ElementType r in
  if (e =? UInt8) || (e =? UInt16) || (e =? UInt32) || (e =? UInt64)
  then Ok (mElemLenOrVal r)
  else Err CHIP_ERROR_WRONG_TLV_TYPE.

(** The narrower integers: [v64] is 0 when the 64-bit call failed, and its error
    is returned after the range test. *)
Definition Get_signed (w : Z) (r : t) : result Z :=
  let err := Get_int64 r in
  let v64 := match err with Ok v => v | Err _ => 0 end in
  if (- 2 ^ (w - 1) <=? v64) && (v64 <=? 2 ^ (w - 1) - 1)
  then match err with Ok _ => Ok v64 | Err e => Err e end
  else Err CHIP_ERROR_INVALID_INTEGER_VALUE.
Definition Get_int8 := Get_signed 8.
Definition Get_int16 := Get_signed 16.
Definition Get_int32 := Get_signed 32.

Definition Get_unsigned (w : Z) (r : t) : result Z :=
  let err := Get_uint64 r in
  let v64 := match err with Ok v => v | Err _ => 0 end in
  if v64 <=? 2 ^ w - 1
  then match err with Ok _ => Ok v64 | Err e => Err e end
  else Err CHIP_ERROR_INVALID_INTEGER_VALUE.
Definition Get_uint8 := Get_unsigned 8.
Definition Get_uint16 := Get_unsigned 16.
Definition Get_uint32 := Get_unsigned 32.

(** A floating-point value is its bit pattern; [Get(double &)] widens a float,
    which is marked by the constructor. *)
Inductive float_bits :=
| Float (bits : Z)
| Double (bits : Z).

Definition BitCastToFloat (elemLenOrVal : Z) : float_bits := Float (wrap 32 elemLenOrVal).

Definition Get_float (r : t) : result float_bits :=
  if ElementType r =? FloatingPointNumber32 then Ok (BitCastToFloat (mElemLenOrVal r))
  else Err CHIP_ERROR_WRONG_TLV_TYPE.

Definition Get_double (r : t) : result float_bits :=
  if ElementType r =? FloatingPointNumber32 then Ok (BitCastToFloat (mElemLenOrVal r))
  else if ElementType r =? FloatingPointNumber64 then Ok (Double (mElemLenOrVal r))
  else Err CHIP_ERROR_WRONG_TLV_TYPE.

(** [GetDataPtr]: [None] is the null pointer; otherwise the bytes from the read
    point to the end of the current buffer. *)
Definition GetDataPtr (r : t) : result (option bytes) :=
  if TLVTypeIsString (ElementType r) then
    if GetLength r =? 0 then Ok None
    else match mWindow r with
         | Dangling _ => Err UNDEFINED_BEHAVIOUR
         | Within buf rp be =>
             if wrap 32 (mElemLenOrVal r) <=? Z.of_nat (be - rp)
             then Ok (Some (mem_read rp (be - rp) buf))
             else Err CHIP_ERROR_TLV_UNDERRUN
         end
  else Err CHIP_ERROR_WRONG_TLV_TYPE.

(** [Get(ByteSpan &)] *)
Definition Get_ByteSpan (r : t) : result bytes :=
  match GetDataPtr r with
  | Ok None => Ok []
  | Ok (Some val) => Ok (take (Z.to_nat (GetLength r)) val)
  | Err e => Err e
  end.

Definition kUnicodeInformationSeparator1 : Z := 0x1F.

(** The bytes before the first occurrence of [c], as [memchr] finds it. *)
Fixpoint memchr_prefix (c : Z) (l : bytes) : bytes :=
  match l with
  | [] => []
  | b :: l => if b =? c then [] else b :: memchr_prefix c l
  end.

(** [Get(CharSpan &)]; [validate] is
    [CHIP_CONFIG_TLV_VALIDATE_CHAR_STRING_ON_READ]. *)
Definition Get_CharSpan (validate : bool) (r : t) : result bytes :=
  if TLVTypeIsUTF8String (ElementType r) then
    match GetDataPtr r with
    | Err e => Err e
    | Ok None => Ok []
    | Ok (Some val) =>
        let v := memchr_prefix kUnicodeInformationSeparator1
                   (take (Z.to_nat (GetLength r)) val) in
        if validate then
          if negb (Utf8_IsValid v) then Err CHIP_ERROR_INVALID_UTF8
          else if last v 1 =? 0 then Err CHIP_ERROR_INVALID_TLV_CHAR_STRING
          else Ok v
        else Ok v
    end
  else Err CHIP_ERROR_WRONG_TLV_TYPE.

(** ** Reading input *)

(** [TLVPacketBufferBackingStore::GetNextBuffer]: the data of the next buffer,
    [None] for the null buffer after the last one. *)
Definition GetNextBuffer (store : list bytes) : option bytes * list bytes :=
  match store with
  | [] => (None, [])
  | b :: store => (Some b, store)
  end.

Definition EnsureData (noDataErr : CHIP_ERROR) : M St unit := fun '(r, store) =>
  match mWindow r with
  | Dangling _ => (Ok tt, (r, store))
  | Within _ rp be =>
      if (rp =? be)%nat then
        if negb (mLenRead r =? mMaxLen r) && mBackingStore r then
          match GetNextBuffer store with
          | (None, store') =>
              (Err noDataErr, (set_window (Dangling true) (mLenRead r) r, store'))
          | (Some b, store') =>
              let dangling := set_window (Dangling false) (mLenRead r) r in
              if negb (Z.of_nat (length b) <? 2 ^ 32)
              then (Err CHIP_ERROR_INVALID_ARGUMENT, (dangling, store'))
              else if (length b =? 0)%nat
              then (Err noDataErr, (dangling, store'))
              else
                let bufLen := Z.to_nat (Z.min (Z.of_nat (length b)) (mMaxLen r -{32} mLenRead r)) in
                (Ok tt, (set_window (Within b 0 bufLen) (mLenRead r) r, store'))
          end
        else (Err noDataErr, (r, store))
      else (Ok tt, (r, store))
  end.

(** Moves the read point over [n] bytes of the current buffer. *)
Definition consume (n : nat) (r : t) : t :=
  match mWindow r with
  | Within buf rp be =>
      set_window (Within buf (rp + n) be) (mLenRead r +{32} Z.of_nat n) r
  | Dangling _ => r
  end.

(** The loop of [ReadData]; a pass that does not fail reads a byte at least. *)
Fixpoint ReadData_loop (fuel len : nat) : M St bytes :=
  match fuel with
  | O => fail CHIP_ERROR_INTERNAL
  | S fuel =>
      if (0 <? len)%nat then
        EnsureData CHIP_ERROR_TLV_UNDERRUN ;;
        let! r := self in
        match mWindow r with
        | Dangling _ => fail UNDEFINED_BEHAVIOUR
        | Within buf rp be =>
            let remainingLen := (be - rp)%nat in
            let readLen := if (remainingLen <? len)%nat then remainingLen else len in
            upd (consume readLen) ;;
            let! tl := ReadData_loop fuel (len - readLen) in
            ret (mem_read rp readLen buf ++ tl)
        end
      else ret []
  end.

(** [ReadData(buf, len)]: the bytes copied to [buf], when it is not null. *)
Definition ReadData (len : nat) : M St bytes := ReadData_loop (S len) len.

(** The control byte at the read point. *)
Definition read_control : M St Z := fun '(r, store) =>
  match mWindow r with
  | Within buf rp _ => (Ok (nth rp buf 0), (r, store))
  | Dangling true => (Err CHIP_ERROR_INVALID_TLV_ELEMENT, (r, store))
  | Dangling false => (Err UNDEFINED_BEHAVIOUR, (r, store))
  end.

Definition sTagSizes : list nat := [0; 1; 2; 4; 2; 4; 6; 8]%nat.

Definition tag_bytes (control : Z) : nat :=
  nth (Z.to_nat (Z.shiftr (Z.land control kTLVTagControlMask) kTLVTagControlShift)) sTagSizes 0%nat.

Definition val_or_len_bytes (elemType : Z) : nat := TLVFieldSizeToBytes (GetTLVFieldSize elemType).

(** [GetElementHeadLength]; the sum always fits a [uint8_t]. *)
Definition GetElementHeadLength (r : t) : result nat :=
  let elemType := ElementType r in
  if IsValidTLVType elemType
  then Ok (1 + tag_bytes (mControlByte r) + val_or_len_bytes elemType)%nat
  else Err CHIP_ERROR_INVALID_TLV_ELEMENT.

Section WithHost.
Context `{BO : ByteOrder} `{HO : Host}.

(** The value of a zeroed [uint64_t] after [memcpy(&v, p, length p)]. *)
Definition host_load64 (p : bytes) : Z :=
  if big_endian then le_combine (reverse (p ++ replicate (8 - length p) 0))
  else le_combine p.

(** [ReadTag]: [p] holds the tag bytes. *)
Definition ReadTag (r : t) (tagControl : Z) (p : bytes) : Z :=
  let read off n := nl_le_get (mem_read off n p) in
  if tagControl =? ContextSpecific then ContextTag (nth 0 p 0)
  else if tagControl =? CommonProfile_2Bytes then CommonTag (read 0%nat 2%nat)
  else if tagControl =? CommonProfile_4Bytes then CommonTag (read 0%nat 4%nat)
  else if tagControl =? ImplicitProfile_2Bytes then
    if ImplicitProfileId r =? kProfileIdNotSpecified then UnknownImplicitTag
    else ProfileTag (ImplicitProfileId r) (read 0%nat 2%nat)
  else if tagControl =? ImplicitProfile_4Bytes then
    if ImplicitProfileId r =? kProfileIdNotSpecified then UnknownImplicitTag
    else ProfileTag (ImplicitProfileId r) (read 0%nat 4%nat)
  else if tagControl =? FullyQualified_6Bytes then
    VendorProfileTag (read 0%nat 2%nat) (read 2%nat 2%nat) (read 4%nat 2%nat)
  else if tagControl =? FullyQualified_8Bytes then
    VendorProfileTag (read 0%nat 2%nat) (read 2%nat 2%nat) (read 4%nat 4%nat)
  else AnonymousTag.

Definition VerifyElement (r : t) : CHIP_ERROR :=
  let tag_error :=
    if ElementType r =? EndOfContainer then
      if mContainerType r =? kTLVType_NotSpecified then CHIP_ERROR_INVALID_TLV_ELEMENT
      else if negb (mElemTag r =? AnonymousTag) then CHIP_ERROR_INVALID_TLV_TAG
      else CHIP_NO_ERROR
    else if mElemTag r =? UnknownImplicitTag then CHIP_ERROR_UNKNOWN_IMPLICIT_TLV_TAG
    else if mContainerType r =? kTLVType_NotSpecified then
      if IsContextTag (mElemTag r) then CHIP_ERROR_INVALID_TLV_TAG else CHIP_NO_ERROR
    else if mContainerType r =? kTLVType_Structure then
      if mElemTag r =? AnonymousTag then CHIP_ERROR_INVALID_TLV_TAG else CHIP_NO_ERROR
    else if mContainerType r =? kTLVType_Array then
      if negb (mElemTag r =? AnonymousTag) then CHIP_ERROR_INVALID_TLV_TAG else CHIP_NO_ERROR
    else if (mContainerType r =? kTLVType_UnknownContainer) || (mContainerType r =? kTLVType_List)
    then CHIP_NO_ERROR
    else CHIP_ERROR_INCORRECT_STATE in
  if bool_decide (tag_error = CHIP_NO_ERROR) then
    if TLVTypeHasLength (ElementType r) then
      let overallLenRemaining := mMaxLen r -{32} mLenRead r in
      if overallLenRemaining <? wrap 32 (mElemLenOrVal r) then CHIP_ERROR_TLV_UNDERRUN
      else CHIP_NO_ERROR
    else CHIP_NO_ERROR
  else tag_error.

(** A status code as the end of a call. *)
Definition returns (e : CHIP_ERROR) : M St unit := verify (bool_decide (e = CHIP_NO_ERROR)) e.

Definition ReadElement : M St unit :=
  EnsureData CHIP_END_OF_TLV ;;
  let! control := read_control in
  upd (set_control control) ;;
  let! r := self in
  let elemType := ElementType r in
  verify (IsValidTLVType elemType) CHIP_ERROR_INVALID_TLV_ELEMENT ;;
  let tagControl := Z.land control kTLVTagControlMask in
  let tagBytes := tag_bytes control in
  let valOrLenBytes := val_or_len_bytes elemType in
  let! stagingBuf := ReadData (1 + tagBytes + valOrLenBytes) in
  let tag := ReadTag r tagControl (mem_read 1 tagBytes stagingBuf) in
  let lenOrVal := host_load64 (mem_read (1 + tagBytes) valOrLenBytes stagingBuf) in
  upd (set_element tag lenOrVal) ;;
  verify (negb (TLVTypeHasLength elemType) || (lenOrVal <=? 2 ^ 32 - 1)) CHIP_ERROR_NOT_IMPLEMENTED ;;
  let! r := self in
  returns (VerifyElement r).

Definition SkipData : M St unit :=
  let! r := self in
  if TLVTypeHasLength (ElementType r)
  then ReadData (Z.to_nat (wrap 32 (mElemLenOrVal r))) ;; ret tt
  else ret tt.

(** The loop of [SkipToEndOfContainer].  [nestLevel] counts containers entered,
    each by a byte of input, so it stays below 2^32. *)
Fixpoint SkipToEndOfContainer_loop (fuel : nat) (outerContainerType : Z) (nestLevel : nat) : M St unit :=
  match fuel with
  | O => fail CHIP_ERROR_INTERNAL
  | S fuel =>
      let continue nestLevel :=
        SkipData ;; ReadElement ;; SkipToEndOfContainer_loop fuel outerContainerType nestLevel in
      let! r := self in
      let elemType := ElementType r in
      if elemType =? EndOfContainer then
        match nestLevel with
        | O => ret tt
        | S nestLevel =>
            upd (set_container (if (nestLevel =? 0)%nat then outerContainerType
                                else kTLVType_UnknownContainer)) ;;
            continue nestLevel
        end
      else if TLVTypeIsContainer elemType then
        upd (set_container elemType) ;; continue (S nestLevel)
      else continue nestLevel
  end.

(** The bytes a reader can still be given. *)
Definition budget (s : St) : nat :=
  (match mWindow s.1 with Within _ rp be => be - rp | Dangling _ => 0 end
   + sum_list (length <$> s.2))%nat.

Definition SkipToEndOfContainer : M St unit := fun s =>
  let outerContainerType := mContainerType s.1 in
  (upd (SetContainerOpen false) ;;
   SkipToEndOfContainer_loop (S (budget s)) outerContainerType 0) s.

(** ** Containers *)

Definition EnterContainer : M St Z :=
  let! r := self in
  let elemType := ElementType r in
  verify (TLVTypeIsContainer elemType) CHIP_ERROR_INCORRECT_STATE ;;
  upd (fun r => SetContainerOpen false (ClearElementState (set_container elemType r))) ;;
  ret (mContainerType r).

Definition ExitContainer (outerContainerType : Z) : M St unit :=
  SkipToEndOfContainer ;;
  upd (fun r => ClearElementState (set_container outerContainerType r)).

(** [OpenContainer(containerReader)]: the container reader. *)
Definition OpenContainer : M St t :=
  let! r := self in
  let elemType := ElementType r in
  verify (TLVTypeIsContainer elemType) CHIP_ERROR_INCORRECT_STATE ;;
  upd (SetContainerOpen true) ;;
  ret (SetContainerOpen false (set_container elemType (ClearElementState r))).

(** [CloseContainer(containerReader)]: the new states of both readers. *)
Definition CloseContainer (r containerReader : t) (store : list bytes)
  : CHIP_ERROR * t * t * list bytes :=
  if negb (IsContainerOpen r) then (CHIP_ERROR_INCORRECT_STATE, r, containerReader, store)
  else if negb (mContainerType containerReader =? ElementType r)
  then (CHIP_ERROR_INCORRECT_STATE, r, containerReader, store)
  else match SkipToEndOfContainer (containerReader, store) with
       | (Err e, (containerReader, store)) => (e, r, containerReader, store)
       | (Ok _, (containerReader, store)) =>
           (CHIP_NO_ERROR,
            ClearElementState
              (mk (mElemTag r) (mElemLenOrVal r) (mBackingStore containerReader)
                  (mWindow containerReader) (mLenRead containerReader) (mMaxLen containerReader)
                  (mContainerType r) (mControlByte r) (mContainerOpen r) (ImplicitProfileId r)),
            containerReader, store)
       end.

(** ** Moving between elements *)

Definition Skip : M St unit :=
  let! r := self in
  let elemType := ElementType r in
  verify (negb (elemType =? EndOfContainer)) CHIP_END_OF_TLV ;;
  if TLVTypeIsContainer elemType then
    let! outerContainerType := EnterContainer in
    ExitContainer outerContainerType
  else
    SkipData ;; upd ClearElementState.

Definition Next : M St unit :=
  Skip ;;
  ReadElement ;;
  let! r := self in
  let elemType := ElementType r in
  verify (negb (elemType =? EndOfContainer)) CHIP_END_OF_TLV ;;
  if TLVTypeIsString elemType && negb (GetLength r =? 0)
  then EnsureData CHIP_ERROR_TLV_UNDERRUN else ret tt.

Definition Expect_tag (expectedTag : Z) (r : t) : CHIP_ERROR :=
  if GetType r =? kTLVType_NotSpecified then CHIP_ERROR_WRONG_TLV_TYPE
  else if negb (GetTag r =? expectedTag) then CHIP_ERROR_UNEXPECTED_TLV_ELEMENT
  else CHIP_NO_ERROR.

Definition Expect (expectedType expectedTag : Z) (r : t) : CHIP_ERROR :=
  if negb (GetType r =? expectedType) then CHIP_ERROR_WRONG_TLV_TYPE
  else if negb (GetTag r =? expectedTag) then CHIP_ERROR_UNEXPECTED_TLV_ELEMENT
  else CHIP_NO_ERROR.

Definition Next_tag (expectedTag : Z) : M St unit :=
  Next ;; let! r := self in returns (Expect_tag expectedTag r).

Definition Next_type_tag (expectedType expectedTag : Z) : M St unit :=
  Next ;; let! r := self in returns (Expect expectedType expectedTag r).

Definition VerifyEndOfContainer : M St unit := fun s =>
  match Next s with
  | (Err CHIP_END_OF_TLV, s) => (Ok tt, s)
  | (Ok _, s) => (Err CHIP_ERROR_UNEXPECTED_TLV_ELEMENT, s)
  | (Err e, s) => (Err e, s)
  end.

(** [GetBytes(buf, bufSize)]: the bytes copied into [buf]. *)
Definition GetBytes (bufSize : Z) : M St bytes :=
  let! r := self in
  verify (TLVTypeIsString (ElementType r)) CHIP_ERROR_WRONG_TLV_TYPE ;;
  verify (mElemLenOrVal r <=? bufSize) CHIP_ERROR_BUFFER_TOO_SMALL ;;
  let! data := ReadData (Z.to_nat (wrap 32 (mElemLenOrVal r))) in
  upd (fun r => set_element (mElemTag r) 0 r) ;;
  ret data.

(** [GetString(buf, bufSize)]: [buf] is the data and its terminator. *)
Definition GetString (bufSize : Z) : M St bytes :=
  let! r := self in
  verify (TLVTypeIsString (ElementType r)) CHIP_ERROR_WRONG_TLV_TYPE ;;
  verify (mElemLenOrVal r <? bufSize) CHIP_ERROR_BUFFER_TOO_SMALL ;;
  let! data := GetBytes (wrap 32 (mElemLenOrVal r)) in
  ret (data ++ [0]).

(** [FindElementWithTag(tag, destReader)], on a copy of the reader: the reader
    found.  The copy shares the backing store. *)
Fixpoint FindElementWithTag_loop (fuel : nat) (tag : Z) : M St t :=
  match fuel with
  | O => fail CHIP_ERROR_INTERNAL
  | S fuel =>
      Next ;;
      let! reader := self in
      verify (negb (GetType reader =? kTLVType_NotSpecified)) CHIP_ERROR_INVALID_TLV_ELEMENT ;;
      if tag =? GetTag reader then ret (Init_copy reader) else FindElementWithTag_loop fuel tag
  end.

Definition FindElementWithTag (tag : Z) (r : t) (store : list bytes) : result t * list bytes :=
  let (res, s) := FindElementWithTag_loop (S (budget (r, store))) tag (Init_copy r, store) in
  (res, s.2).

(** The loop of [CountRemainingInContainer]: the count and the error that ended it. *)
Fixpoint CountRemaining_loop (fuel count : nat) (s : St) : CHIP_ERROR * nat * St :=
  match fuel with
  | O => (CHIP_ERROR_INTERNAL, count, s)
  | S fuel =>
      match Next s with
      | (Ok _, s) => CountRemaining_loop fuel (S count) s
      | (Err err, s) => (err, count, s)
      end
  end.

Definition CountRemainingInContainer (r : t) (store : list bytes) : result nat * list bytes :=
  if mContainerType r =? kTLVType_NotSpecified then (Err CHIP_ERROR_INCORRECT_STATE, store)
  else
    let '(err, count, s) := CountRemaining_loop (S (budget (r, store))) 0 (Init_copy r, store) in
    (if bool_decide (err = CHIP_END_OF_TLV) then Ok count else Err err, s.2).

End WithHost.

End TLVReader.
