(* ===== verification/TlvWriter.v ===== *)
(** * TlvWriter: writing TLV elements

    Model of src/src/lib/core/TLVWriter.{h,cpp} for a writer over one buffer
    ([mBackingStore] is the null pointer).  Module [TLVWriter]:

    - [t] is the class; [St] pairs a writer with the memory of its buffer, which
      a container writer ([OpenContainer]) shares;
    - the reference encoding ([element_head], [tag_field], [tag_allowed]) and the
      theorem that [WriteElementHead] and [WriteElementWithData] implement it;
    - [end_container_never_fails]: the byte reserved for the end-of-container
      marker is there, whatever was written in between. *)

From S2P Require Import Prelude Encoding Utf8 TlvTypes.

Module TLVWriter.

Record t := mk {
  mWritePoint : nat;
  mRemainingLen : Z;
  mLenWritten : Z;
  mMaxLen : Z;
  mReservedSize : Z;
  mContainerType : Z;
  mInitializationCookie : Z;
  mContainerOpen : bool;
  mCloseContainerReserved : bool;
  ImplicitProfileId : Z }.

(** The writer and the memory its buffer lies in, from [mBufStart]. *)
Definition St : Type := t * bytes.

Definition kExpectedInitializationCookie : Z := 0x52b1.
Definition kEndOfContainerMarkerSize : Z := 1.

Definition set_position (pos : nat) (remaining written : Z) (w : t) : t :=
  mk pos remaining written (mMaxLen w) (mReservedSize w) (mContainerType w)
     (mInitializationCookie w) (mContainerOpen w) (mCloseContainerReserved w) (ImplicitProfileId w).
Definition set_maxLen (maxLen : Z) (w : t) : t :=
  mk (mWritePoint w) (mRemainingLen w) (mLenWritten w) maxLen (mReservedSize w) (mContainerType w)
     (mInitializationCookie w) (mContainerOpen w) (mCloseContainerReserved w) (ImplicitProfileId w).
Definition set_container (ty : Z) (w : t) : t :=
  mk (mWritePoint w) (mRemainingLen w) (mLenWritten w) (mMaxLen w) (mReservedSize w) ty
     (mInitializationCookie w) (mContainerOpen w) (mCloseContainerReserved w) (ImplicitProfileId w).
Definition SetContainerOpen (o : bool) (w : t) : t :=
  mk (mWritePoint w) (mRemainingLen w) (mLenWritten w) (mMaxLen w) (mReservedSize w) (mContainerType w)
     (mInitializationCookie w) o (mCloseContainerReserved w) (ImplicitProfileId w).
Definition SetCloseContainerReserved (b : bool) (w : t) : t :=
  mk (mWritePoint w) (mRemainingLen w) (mLenWritten w) (mMaxLen w) (mReservedSize w) (mContainerType w)
     (mInitializationCookie w) (mContainerOpen w) b (ImplicitProfileId w).
Definition set_reserved (remaining reserved : Z) (w : t) : t :=
  mk (mWritePoint w) remaining (mLenWritten w) (mMaxLen w) reserved (mContainerType w)
     (mInitializationCookie w) (mContainerOpen w) (mCloseContainerReserved w) (ImplicitProfileId w).
Definition set_ImplicitProfileId (p : Z) (w : t) : t :=
  mk (mWritePoint w) (mRemainingLen w) (mLenWritten w) (mMaxLen w) (mReservedSize w) (mContainerType w)
     (mInitializationCookie w) (mContainerOpen w) (mCloseContainerReserved w) p.

Definition self : M St t := fun s => (Ok s.1, s).
Definition upd (f : t -> t) : M St unit := modify (fun s => (f s.1, s.2)).

(** ** Initialisation, observers *)

(** [Init(uint8_t * buf, size_t maxLen)] *)
Definition Init (maxLen : Z) : t :=
  let actualMaxLen := if maxLen <? 2 ^ 32 then maxLen else 2 ^ 32 - 1 in
  mk 0 actualMaxLen 0 actualMaxLen 0 kTLVType_NotSpecified kExpectedInitializationCookie
     false true kProfileIdNotSpecified.

Definition IsInitialized (w : t) : bool := mInitializationCookie w =? kExpectedInitializationCookie.
Definition IsContainerOpen (w : t) : bool := mContainerOpen w.
Definition IsCloseContainerReserved (w : t) : bool := mCloseContainerReserved w.
Definition GetContainerType (w : t) : Z := mContainerType w.
Definition GetLengthWritten (w : t) : Z := mLenWritten w.
Definition GetRemainingFreeLength (w : t) : Z := mRemainingLen w.

Definition Finalize : M St unit :=
  let! w := self in
  verify (IsInitialized w) CHIP_ERROR_INCORRECT_STATE ;;
  verify (negb (IsContainerOpen w)) CHIP_ERROR_TLV_CONTAINER_OPEN.

Definition ReserveBuffer (aBufferSize : Z) : M St unit :=
  let! w := self in
  verify (IsInitialized w) CHIP_ERROR_INCORRECT_STATE ;;
  verify (aBufferSize <=? mRemainingLen w) CHIP_ERROR_NO_MEMORY ;;
  upd (set_reserved (mRemainingLen w -{32} aBufferSize) (mReservedSize w +{32} aBufferSize)).

Definition UnreserveBuffer (aBufferSize : Z) : M St unit :=
  let! w := self in
  verify (IsInitialized w) CHIP_ERROR_INCORRECT_STATE ;;
  verify (aBufferSize <=? mReservedSize w) CHIP_ERROR_NO_MEMORY ;;
  upd (set_reserved (mRemainingLen w +{32} aBufferSize) (mReservedSize w -{32} aBufferSize)).

(** ** Output *)

(** [memmove(mWritePoint, p, writeLen)] with the update of the position. *)
Definition append (p : bytes) : M St unit :=
  modify (fun '(w, mem) =>
    (set_position (mWritePoint w + length p) (mRemainingLen w -{32} Z.of_nat (length p))
                  (mLenWritten w +{32} Z.of_nat (length p)) w,
     mem_write (mWritePoint w) p mem)).

(** The loop of [WriteData]; without a backing store a full buffer ends it. *)
Fixpoint WriteData_loop (fuel : nat) (p : bytes) : M St unit :=
  match fuel with
  | O => fail CHIP_ERROR_INTERNAL
  | S fuel =>
      if (0 <? length p)%nat then
        let! w := self in
        verify (negb (mRemainingLen w =? 0)) CHIP_ERROR_NO_MEMORY ;;
        let writeLen := if mRemainingLen w <? Z.of_nat (length p)
                        then Z.to_nat (mRemainingLen w) else length p in
        append (take writeLen p) ;;
        WriteData_loop fuel (drop writeLen p)
      else ret tt
  end.

Definition WriteData (p : bytes) : M St unit :=
  let! w := self in
  verify (IsInitialized w) CHIP_ERROR_INCORRECT_STATE ;;
  verify ((mLenWritten w +{32} Z.of_nat (length p)) <=? mMaxLen w) CHIP_ERROR_BUFFER_TOO_SMALL ;;
  WriteData_loop (S (length p)) p.

(** The control byte and the tag of an element head, put in the staging buffer. *)
Definition put_head (elemType tag containerType implicitProfileId : Z) (writer : Writer) : result Writer :=
  let tagNum := TagNumFromTag tag in
  let Put16 w x := LE_EndianPut w x 2 in
  let Put32 w x := LE_EndianPut w x 4 in
  if IsSpecialTag tag then
    if tagNum <=? kContextTagMaxNum then
      if negb (containerType =? kTLVType_Structure) && negb (containerType =? kTLVType_List)
      then Err CHIP_ERROR_INVALID_TLV_TAG
      else Ok (Put (Put writer (Z.lor ContextSpecific elemType)) (wrap 8 tagNum))
    else
      if negb (elemType =? EndOfContainer) && negb (containerType =? kTLVType_NotSpecified) &&
         negb (containerType =? kTLVType_Array) && negb (containerType =? kTLVType_List)
      then Err CHIP_ERROR_INVALID_TLV_TAG
      else Ok (Put writer (Z.lor Anonymous elemType))
  else
    let profileId := ProfileIdFromTag tag in
    if negb (containerType =? kTLVType_NotSpecified) && negb (containerType =? kTLVType_Structure) &&
       negb (containerType =? kTLVType_List)
    then Err CHIP_ERROR_INVALID_TLV_TAG
    else if profileId =? kCommonProfileId then
      if tagNum <=? 2 ^ 16 - 1
      then Ok (Put16 (Put writer (Z.lor CommonProfile_2Bytes elemType)) (wrap 16 tagNum))
      else Ok (Put32 (Put writer (Z.lor CommonProfile_4Bytes elemType)) tagNum)
    else if profileId =? implicitProfileId then
      if tagNum <=? 2 ^ 16 - 1
      then Ok (Put16 (Put writer (Z.lor ImplicitProfile_2Bytes elemType)) (wrap 16 tagNum))
      else Ok (Put32 (Put writer (Z.lor ImplicitProfile_4Bytes elemType)) tagNum)
    else
      let vendorId := wrap 16 (Z.shiftr profileId 16) in
      let profileNum := wrap 16 profileId in
      if tagNum <=? 2 ^ 16 - 1
      then Ok (Put16 (Put16 (Put16 (Put writer (Z.lor FullyQualified_6Bytes elemType))
                                   vendorId) profileNum) (wrap 16 tagNum))
      else Ok (Put32 (Put16 (Put16 (Put writer (Z.lor FullyQualified_8Bytes elemType))
                                   vendorId) profileNum) tagNum).

(** [stagingBuf[17]]: 1 control byte, 8 tag bytes, 8 length/value bytes. *)
Definition stagingBuf : bytes := replicate 17 0.

Definition WriteElementHead (elemType tag lenOrVal : Z) : M St unit :=
  let! w := self in
  verify (IsInitialized w) CHIP_ERROR_INCORRECT_STATE ;;
  verify (negb (IsContainerOpen w)) CHIP_ERROR_TLV_CONTAINER_OPEN ;;
  match put_head elemType tag (mContainerType w) (ImplicitProfileId w) (Writer_new stagingBuf) with
  | Err e => fail e
  | Ok writer =>
      let lengthSize := TLVFieldSizeToBytes (GetTLVFieldSize elemType) in
      let writer := if (0 <? lengthSize)%nat then LE_EndianPut writer lenOrVal lengthSize else writer in
      let (fit, written) := FitWritten writer in
      verify fit PROGRAM_ABORT ;;
      WriteData (take written (wBuf writer))
  end.

Definition WriteElementWithData (type tag : Z) (data : bytes) : M St unit :=
  let! w := self in
  verify (IsInitialized w) CHIP_ERROR_INCORRECT_STATE ;;
  verify (Z.land type kTLVTypeSizeMask =? 0) CHIP_ERROR_INVALID_ARGUMENT ;;
  let dataLen := Z.of_nat (length data) in
  let lenFieldSize :=
    if dataLen <=? 2 ^ 8 - 1 then kTLVFieldSize_1Byte
    else if dataLen <=? 2 ^ 16 - 1 then kTLVFieldSize_2Byte
    else kTLVFieldSize_4Byte in
  WriteElementHead (Z.lor (wrap 8 type) lenFieldSize) tag dataLen ;;
  WriteData data.

(** ** Elements *)

Definition PutBoolean (tag : Z) (v : bool) : M St unit :=
  WriteElementHead (if v then BooleanTrue else BooleanFalse) tag 0.

(** [Put(Tag, uint64_t)], which the narrower unsigned overloads call. *)
Definition Put_uint64 (tag v : Z) : M St unit :=
  let elemType :=
    if v <=? 2 ^ 8 - 1 then UInt8
    else if v <=? 2 ^ 16 - 1 then UInt16
    else if v <=? 2 ^ 32 - 1 then UInt32
    else UInt64 in
  WriteElementHead elemType tag v.

Definition Put_uint8 (tag v : Z) : M St unit := Put_uint64 tag v.
Definition Put_uint16 (tag v : Z) : M St unit := Put_uint64 tag v.
Definition Put_uint32 (tag v : Z) : M St unit := Put_uint64 tag v.

Definition Put_uint8_preserve (tag v : Z) (preserveSize : bool) : M St unit :=
  if preserveSize then WriteElementHead UInt8 tag v else Put_uint8 tag v.
Definition Put_uint16_preserve (tag v : Z) (preserveSize : bool) : M St unit :=
  if preserveSize then WriteElementHead UInt16 tag v else Put_uint16 tag v.
Definition Put_uint32_preserve (tag v : Z) (preserveSize : bool) : M St unit :=
  if preserveSize then WriteElementHead UInt32 tag v else Put_uint32 tag v.
Definition Put_uint64_preserve (tag v : Z) (preserveSize : bool) : M St unit :=
  if preserveSize then WriteElementHead UInt64 tag v else Put_uint64 tag v.

(** [Put(Tag, int64_t)], which the narrower signed overloads call. *)
Definition Put_int64 (tag v : Z) : M St unit :=
  let elemType :=
    if (- 2 ^ 7 <=? v) && (v <=? 2 ^ 7 - 1) then Int8
    else if (- 2 ^ 15 <=? v) && (v <=? 2 ^ 15 - 1) then Int16
    else if (- 2 ^ 31 <=? v) && (v <=? 2 ^ 31 - 1) then Int32
    else Int64 in
  WriteElementHead elemType tag (wrap 64 v).

Definition Put_int8 (tag v : Z) : M St unit := Put_int64 tag v.
Definition Put_int16 (tag v : Z) : M St unit := Put_int64 tag v.
Definition Put_int32 (tag v : Z) : M St unit := Put_int64 tag v.

Definition Put_int8_preserve (tag v : Z) (preserveSize : bool) : M St unit :=
  if preserveSize then WriteElementHead Int8 tag (wrap 8 v) else Put_int8 tag v.
Definition Put_int16_preserve (tag v : Z) (preserveSize : bool) : M St unit :=
  if preserveSize then WriteElementHead Int16 tag (wrap 16 v) else Put_int16 tag v.
Definition Put_int32_preserve (tag v : Z) (preserveSize : bool) : M St unit :=
  if preserveSize then WriteElementHead Int32 tag (wrap 32 v) else Put_int32 tag v.
Definition Put_int64_preserve (tag v : Z) (preserveSize : bool) : M St unit :=
  if preserveSize then WriteElementHead Int64 tag (wrap 64 v) else Put_int64 tag v.

(** Floating-point values are given as their bit patterns. *)
Definition Put_float (tag u32 : Z) : M St unit := WriteElementHead FloatingPointNumber32 tag u32.
Definition Put_double (tag u64 : Z) : M St unit := WriteElementHead FloatingPointNumber64 tag u64.

Definition PutBytes (tag : Z) (buf : bytes) : M St unit :=
  WriteElementWithData kTLVType_ByteString tag buf.

(** [Put(Tag, ByteSpan)] *)
Definition Put_ByteSpan (tag : Z) (data : bytes) : M St unit :=
  verify (Z.of_nat (length data) <? 2 ^ 32) CHIP_ERROR_MESSAGE_TOO_LONG ;;
  PutBytes tag data.

(** [PutString(Tag, const char *, uint32_t)]; [validate] is
    [CHIP_CONFIG_TLV_VALIDATE_CHAR_STRING_ON_WRITE]. *)
Definition PutString_len (validate : bool) (tag : Z) (buf : bytes) : M St unit :=
  verify (negb validate || Utf8_IsValid buf) CHIP_ERROR_INVALID_UTF8 ;;
  verify (negb (validate && (0 <? length buf)%nat && (last buf 1 =? 0)))
         CHIP_ERROR_INVALID_TLV_CHAR_STRING ;;
  WriteElementWithData kTLVType_UTF8String tag buf.

(** [PutString(Tag, CharSpan)] *)
Definition PutString (validate : bool) (tag : Z) (str : bytes) : M St unit :=
  verify (Z.of_nat (length str) <? 2 ^ 32) CHIP_ERROR_INVALID_ARGUMENT ;;
  PutString_len validate tag str.

(** [PutString] of a tag and a C string; [buf] is the memory from the pointer on. *)
Definition PutString_cstr (validate : bool) (tag : Z) (buf : bytes) : M St unit :=
  let! w := self in
  verify (negb (mMaxLen w =? 0)) CHIP_ERROR_INCORRECT_STATE ;;
  let len := Nat.min (length (c_string buf)) (Z.to_nat (mMaxLen w)) in
  verify (Z.of_nat len <? 2 ^ 32) CHIP_ERROR_INVALID_ARGUMENT ;;
  verify (negb (Z.of_nat len =? mMaxLen w)) CHIP_ERROR_BUFFER_TOO_SMALL ;;
  PutString_len validate tag (take len buf).

Definition PutNull (tag : Z) : M St unit := WriteElementHead Null tag 0.

(** ** Containers *)

(** Reserves the end marker, writes the head; gives the byte back on failure. *)
Definition open_head (tag containerType : Z) : M St unit := fun s =>
  let reserved := IsCloseContainerReserved s.1 in
  (verify (negb reserved || (kEndOfContainerMarkerSize <=? mMaxLen s.1)) CHIP_ERROR_BUFFER_TOO_SMALL ;;
   fun s =>
     let s1 := if reserved then (set_maxLen (mMaxLen s.1 -{32} kEndOfContainerMarkerSize) s.1, s.2) else s in
     match WriteElementHead containerType tag 0 s1 with
     | (Err err, s2) =>
         (Err err, if reserved
                   then (set_maxLen (mMaxLen s2.1 +{32} kEndOfContainerMarkerSize) s2.1, s2.2)
                   else s2)
     | r => r
     end) s.

(** [StartContainer]: the type of the outer container. *)
Definition StartContainer (tag containerType : Z) : M St Z :=
  let! w := self in
  verify (IsInitialized w) CHIP_ERROR_INCORRECT_STATE ;;
  verify (TLVTypeIsContainer containerType) CHIP_ERROR_WRONG_TLV_TYPE ;;
  open_head tag containerType ;;
  let! w := self in
  upd (fun w => SetContainerOpen false (set_container containerType w)) ;;
  ret (mContainerType w).

Definition EndContainer (outerContainerType : Z) : M St unit :=
  let! w := self in
  verify (IsInitialized w) CHIP_ERROR_INCORRECT_STATE ;;
  verify (TLVTypeIsContainer (mContainerType w)) CHIP_ERROR_INCORRECT_STATE ;;
  upd (set_container outerContainerType) ;;
  upd (fun w => if IsCloseContainerReserved w
                then set_maxLen (mMaxLen w +{32} kEndOfContainerMarkerSize) w else w) ;;
  WriteElementHead EndOfContainer AnonymousTag 0.

(** [OpenContainer]: the container writer, on the same memory; it is a newly
    constructed object ([mReservedSize] is 0). *)
Definition OpenContainer (tag containerType : Z) : M St t :=
  let! w := self in
  verify (IsInitialized w) CHIP_ERROR_INCORRECT_STATE ;;
  verify (TLVTypeIsContainer containerType) CHIP_ERROR_WRONG_TLV_TYPE ;;
  open_head tag containerType ;;
  let! w := self in
  upd (SetContainerOpen true) ;;
  ret (mk (mWritePoint w) (mRemainingLen w) 0 (mMaxLen w -{32} mLenWritten w) 0 containerType
          kExpectedInitializationCookie false (IsCloseContainerReserved w) (ImplicitProfileId w)).

(** [CloseContainer(containerWriter)].  The container writer is reset
    ([containerWriter.Init(nullptr, 0)], that is [Init 0]) before the marker is
    written; the caller no longer uses it. *)
Definition CloseContainer (containerWriter : t) : M St unit :=
  let! w := self in
  verify (IsInitialized w) CHIP_ERROR_INCORRECT_STATE ;;
  verify (TLVTypeIsContainer (mContainerType containerWriter)) CHIP_ERROR_INCORRECT_STATE ;;
  verify (negb (IsContainerOpen containerWriter)) CHIP_ERROR_TLV_CONTAINER_OPEN ;;
  upd (set_position (mWritePoint containerWriter) (mRemainingLen containerWriter)
                    (mLenWritten w +{32} mLenWritten containerWriter)) ;;
  upd (fun w => if IsCloseContainerReserved w
                then set_maxLen (mMaxLen w +{32} kEndOfContainerMarkerSize) w else w) ;;
  upd (SetContainerOpen false) ;;
  WriteElementHead EndOfContainer AnonymousTag 0.

Definition PutPreEncodedContainer (tag containerType : Z) (data : bytes) : M St unit :=
  verify (TLVTypeIsContainer containerType) CHIP_ERROR_INVALID_ARGUMENT ;;
  WriteElementHead containerType tag 0 ;;
  WriteData data.
End TLVWriter.

Import TLVWriter.

(** ** The reference encoding of an element head *)

(** The tag control bits and the tag bytes. *)
Definition tag_field (implicitProfileId tag : Z) : Z * bytes :=
  let num := TagNumFromTag tag in
  let profile := ProfileIdFromTag tag in
  let width := if num <=? 65535 then 2%nat else 4%nat in
  if IsSpecialTag tag then
    if num <=? kContextTagMaxNum then (ContextSpecific, [num]) else (Anonymous, [])
  else if profile =? kCommonProfileId then
    (if num <=? 65535 then CommonProfile_2Bytes else CommonProfile_4Bytes, le_split width num)
  else if profile =? implicitProfileId then
    (if num <=? 65535 then ImplicitProfile_2Bytes else ImplicitProfile_4Bytes, le_split width num)
  else
    (if num <=? 65535 then FullyQualified_6Bytes else FullyQualified_8Bytes,
     le_split 2 (Z.shiftr profile 16) ++ le_split 2 profile ++ le_split width num).

(** Where a tag may be used. *)
Definition tag_allowed (containerType elemType tag : Z) : bool :=
  if IsSpecialTag tag then
    if TagNumFromTag tag <=? kContextTagMaxNum
    then (containerType =? kTLVType_Structure) || (containerType =? kTLVType_List)
    else (elemType =? EndOfContainer) || (containerType =? kTLVType_NotSpecified) ||
         (containerType =? kTLVType_Array) || (containerType =? kTLVType_List)
  else (containerType =? kTLVType_NotSpecified) || (containerType =? kTLVType_Structure) ||
       (containerType =? kTLVType_List).

Definition element_head (implicitProfileId elemType tag lenOrVal : Z) : bytes :=
  let (control, tagBytes) := tag_field implicitProfileId tag in
  Z.lor control elemType :: tagBytes ++
  le_split (TLVFieldSizeToBytes (GetTLVFieldSize elemType)) lenOrVal.

Lemma length_tag_field p tag : (length (snd (tag_field p tag)) <= 8)%nat.
Proof.
  unfold tag_field; destruct (IsSpecialTag tag), (TagNumFromTag tag <=? kContextTagMaxNum),
    (ProfileIdFromTag tag =? kCommonProfileId), (ProfileIdFromTag tag =? p),
    (TagNumFromTag tag <=? 65535);
    cbn [snd length]; rewrite ?length_app, ?length_le_split; lia.
Qed.

Lemma field_size_le elemType :
  0 <= elemType < 32 -> (TLVFieldSizeToBytes (GetTLVFieldSize elemType) <= 8)%nat.
Proof.
  intros H; apply Nat.leb_le.
  apply (element_type_cases (fun e => TLVFieldSizeToBytes (GetTLVFieldSize e) <=? 8)%nat); done.
Qed.

Lemma length_element_head p e tag v :
  0 <= e < 32 -> (1 <= length (element_head p e tag v) <= 17)%nat.
Proof.
  intros He; unfold element_head; pose proof (length_tag_field p tag).
  pose proof (field_size_le e He); destruct (tag_field p tag).
  cbn [snd length] in *; rewrite length_app, length_le_split; lia.
Qed.

Lemma le_split_wrap_bits n w v : w = 8 * Z.of_nat n -> le_split n (wrap w v) = le_split n v.
Proof. intros ->; apply le_split_wrap. Qed.

(** The head of an element is put in the staging buffer as the reference says. *)
Lemma put_head_spec e tag ct p b :
  put_head e tag ct p (writer_of b []) =
  if tag_allowed ct e tag
  then Ok (writer_of b (Some <$> (let (c, tb) := tag_field p tag in Z.lor c e :: tb)))
  else Err CHIP_ERROR_INVALID_TLV_TAG.
Proof.
  unfold put_head, tag_allowed, tag_field.
  pose proof (TagNum_range tag) as Hnum.
  destruct (IsSpecialTag tag).
  - destruct (Z.leb_spec (TagNumFromTag tag) kContextTagMaxNum) as [Hn|Hn].
    + rewrite <-negb_orb; destruct (_ || _); cbn [negb]; [|done].
      rewrite !Put_log, wrap_small; [done|unfold is_uint, kContextTagMaxNum in *; lia].
    + rewrite <-!negb_orb; destruct (_ || _ || _ || _); cbn [negb]; [|done].
      by rewrite Put_log.
  - rewrite <-!negb_orb; destruct (_ || _ || _); cbn [negb]; [|done].
    replace (2 ^ 16 - 1) with 65535 by done.
    destruct (_ =? kCommonProfileId); [|destruct (_ =? p)];
      destruct (TagNumFromTag tag <=? 65535);
      rewrite Put_log, !LE_EndianPut_log, ?(le_split_wrap_bits 2 16) by done;
      rewrite <-?app_assoc, ?fmap_app; done.
Qed.

Lemma WriteElementHead_eq e tag v w mem :
  0 <= e < 32 -> IsInitialized w = true -> IsContainerOpen w = false ->
  WriteElementHead e tag v (w, mem) =
  if tag_allowed (mContainerType w) e tag
  then WriteData (element_head (ImplicitProfileId w) e tag v) (w, mem)
  else (Err CHIP_ERROR_INVALID_TLV_TAG, (w, mem)).
Proof.
  intros He Hi Ho; unfold WriteElementHead; unfold bind at 1, self at 1; cbn [fst].
  rewrite Hi, Ho; unfold bind at 1 2, verify at 1 2; cbn [negb ret].
  change (Writer_new stagingBuf) with (writer_of stagingBuf []); rewrite put_head_spec.
  destruct (tag_allowed _ _ _); [|done].
  pose proof (length_element_head (ImplicitProfileId w) e tag v He) as Hl.
  unfold element_head in *; destruct (tag_field (ImplicitProfileId w) tag) as [c tb].
  set (n := TLVFieldSizeToBytes (GetTLVFieldSize e)) in *.
  assert (Hw : (if (0 <? n)%nat then LE_EndianPut (writer_of stagingBuf (Some <$> (Z.lor c e :: tb))) v n
                else writer_of stagingBuf (Some <$> (Z.lor c e :: tb)))
               = writer_of stagingBuf (Some <$> (Z.lor c e :: tb ++ le_split n v))).
  { bcase; [by rewrite LE_EndianPut_log, <-fmap_app|].
    by replace n with 0%nat by lia; rewrite app_nil_r. }
  rewrite Hw; clear Hw.
  assert (Hs : length stagingBuf = 17%nat) by done.
  unfold FitWritten, Fit, Size, writer_of; cbn [mNeeded wBuf].
  rewrite length_overlay, length_fmap, Hs, (proj2 (Nat.leb_le _ _)) by lia.
  unfold bind, verify, ret; f_equal.
  by rewrite overlay_some, (take_ge _ (length stagingBuf)), take_app_length by (rewrite Hs; lia).
Qed.

(** ** Writing into the buffer *)

(** The bytes that can still be written in the open containers. *)
Definition room (w : t) : Z := mMaxLen w - mLenWritten w.

Definition ready (w : t) : Prop := IsInitialized w = true /\ IsContainerOpen w = false.

(** The limit is inside the buffer, the position inside the memory. *)
Definition wf (s : St) : Prop :=
  ready s.1 /\ 0 <= mLenWritten s.1 <= mMaxLen s.1 /\ mMaxLen s.1 < 2 ^ 32 /\
  room s.1 <= mRemainingLen s.1 < 2 ^ 32 /\
  Z.of_nat (mWritePoint s.1) + mRemainingLen s.1 <= Z.of_nat (length s.2).

(** The state after [p] was written. *)
Definition written (p : bytes) (s : St) : St :=
  let n := Z.of_nat (length p) in
  (set_position (mWritePoint s.1 + length p) (mRemainingLen s.1 - n) (mLenWritten s.1 + n) s.1,
   mem_write (mWritePoint s.1) p s.2).

Lemma written_nil s : written [] s = s.
Proof.
  destruct s as [w mem]; unfold written; cbn [fst snd length]; rewrite mem_write_nil.
  destruct w; unfold set_position; cbn; f_equal; f_equal; lia.
Qed.

Lemma written_app p q s :
  Z.of_nat (mWritePoint s.1 + length p + length q) <= Z.of_nat (length s.2) ->
  written q (written p s) = written (p ++ q) s.
Proof.
  intros H; destruct s as [w mem]; unfold written, set_position;
    cbn [fst snd mWritePoint mRemainingLen mLenWritten mMaxLen mReservedSize mContainerType
         mInitializationCookie mContainerOpen mCloseContainerReserved ImplicitProfileId] in *.
  rewrite mem_write_app, length_app by lia; f_equal; f_equal; lia.
Qed.

Lemma wf_written p s : wf s -> Z.of_nat (length p) <= room s.1 -> wf (written p s).
Proof.
  intros (Hr & H1 & H2 & H3 & H4) Hp; unfold wf, room, ready in *; destruct s as [w mem].
  unfold written; cbn [fst snd] in *.
  rewrite length_mem_write by lia; cbn.
  split_and!; try apply Hr; lia.
Qed.

Lemma WriteData_ok p s :
  wf s -> Z.of_nat (length p) <= room s.1 -> WriteData p s = (Ok tt, written p s).
Proof.
  intros (Hr & H1 & H2 & H3 & H4) Hp; unfold room in *; destruct s as [w mem]; cbn [fst snd] in *.
  unfold WriteData; unfold bind at 1, self at 1; cbn [fst]; rewrite (proj1 Hr).
  rewrite wrap_small by (unfold is_uint; lia).
  rewrite (proj2 (Z.leb_le _ _)) by lia; unfold bind at 1 2, verify at 1 2, ret at 1 2.
  cbn [WriteData_loop]; destruct (Nat.ltb_spec 0 (length p)) as [H0|H0].
  - unfold bind at 1, self at 1; cbn [fst].
    rewrite (proj2 (Z.eqb_neq _ _)) by lia; rewrite (proj2 (Z.ltb_ge _ _)) by lia.
    rewrite firstn_all, drop_all; unfold bind at 1, verify at 1, ret at 1; cbn [negb].
    unfold bind at 1, append at 1, modify at 1.
    rewrite !wrap_small by (unfold is_uint; lia).
    destruct p; [simpl in H0; lia|]; reflexivity.
  - destruct p; [|simpl in H0; lia]; by rewrite written_nil.
Qed.

Lemma WriteData_full p s :
  ready s.1 -> 0 <= mLenWritten s.1 -> mMaxLen s.1 < mLenWritten s.1 + Z.of_nat (length p) < 2 ^ 32 ->
  WriteData p s = (Err CHIP_ERROR_BUFFER_TOO_SMALL, s).
Proof.
  intros Hr H1 Hn; destruct s as [w mem]; cbn [fst snd] in *.
  unfold WriteData; unfold bind at 1, self at 1; cbn [fst]; rewrite (proj1 Hr).
  rewrite wrap_small by (unfold is_uint; lia).
  by rewrite (proj2 (Z.leb_gt _ _)) by lia.
Qed.

(** Either everything is written or nothing is. *)
Lemma WriteData_cases p s :
  wf s -> mLenWritten s.1 + Z.of_nat (length p) < 2 ^ 32 ->
  WriteData p s = (Err CHIP_ERROR_BUFFER_TOO_SMALL, s) \/
  (WriteData p s = (Ok tt, written p s) /\ Z.of_nat (length p) <= room s.1).
Proof.
  intros Hw Hn; destruct (Z.le_gt_cases (Z.of_nat (length p)) (room s.1)).
  - right; split; [by apply WriteData_ok|done].
  - left; destruct Hw as (? & ? & _); apply WriteData_full; [done|lia|unfold room in *; lia].
Qed.

Lemma WriteElementHead_ok e tag v s :
  0 <= e < 32 -> wf s -> tag_allowed (mContainerType s.1) e tag = true ->
  Z.of_nat (length (element_head (ImplicitProfileId s.1) e tag v)) <= room s.1 ->
  WriteElementHead e tag v s = (Ok tt, written (element_head (ImplicitProfileId s.1) e tag v) s).
Proof.
  intros He Hw Ht Hl; destruct s as [w mem]; cbn [fst] in *.
  rewrite WriteElementHead_eq, Ht; [by apply WriteData_ok|done|apply Hw|apply Hw].
Qed.

(** A failed head leaves the writer as it was. *)
Lemma WriteElementHead_cases e tag v s :
  0 <= e < 32 -> wf s -> mLenWritten s.1 + 17 < 2 ^ 32 ->
  let head := element_head (ImplicitProfileId s.1) e tag v in
  (exists err, WriteElementHead e tag v s = (Err err, s)) \/
  (WriteElementHead e tag v s = (Ok tt, written head s) /\ Z.of_nat (length head) <= room s.1).
Proof.
  intros He Hw Hl head; destruct s as [w mem].
  rewrite WriteElementHead_eq by (done || apply Hw); destruct (tag_allowed _ _ _); [|eauto].
  pose proof (length_element_head (ImplicitProfileId w) e tag v He).
  destruct (WriteData_cases head (w, mem)) as [E|E]; [done|subst head; cbn [fst] in *; lia| |];
    cbn [fst] in *; fold head; rewrite ?E; eauto.
Qed.

(** ** Containers *)

Lemma end_marker p v : element_head p EndOfContainer AnonymousTag v = [EndOfContainer].
Proof. reflexivity. Qed.

(** A writer inside the container it started, one byte of room kept back. *)
Definition inside (ty : Z) (s : St) : St :=
  (SetContainerOpen false (set_container ty (set_maxLen (mMaxLen s.1 - 1) s.1)), s.2).

(** A writer back in the outer container, before the end marker. *)
Definition outside (ty : Z) (s : St) : St :=
  (set_maxLen (mMaxLen s.1 + 1) (set_container ty s.1), s.2).

Lemma container_type_range ty : TLVTypeIsContainer ty = true -> 0 <= ty < 32.
Proof. unfold TLVTypeIsContainer, Structure, List; rewrite andb_true_iff, !Z.leb_le; lia. Qed.

Lemma container_not_end ty : TLVTypeIsContainer ty = true -> (ty =? EndOfContainer) = false.
Proof.
  unfold TLVTypeIsContainer, Structure, List, EndOfContainer.
  rewrite andb_true_iff, !Z.leb_le; intros; apply Z.eqb_neq; lia.
Qed.

(** [StartContainer] writes the head and keeps a byte back, or does nothing. *)
Lemma StartContainer_cases tag ty s :
  wf s -> mCloseContainerReserved s.1 = true -> mMaxLen s.1 + 17 < 2 ^ 32 ->
  let head := element_head (ImplicitProfileId s.1) ty tag 0 in
  if TLVTypeIsContainer ty && tag_allowed (mContainerType s.1) ty tag &&
     (Z.of_nat (length head) + 1 <=? room s.1)
  then StartContainer tag ty s = (Ok (mContainerType s.1), inside ty (written head s))
  else exists err, StartContainer tag ty s = (Err err, s).
Proof.
  intros Hw Hres Hm head; destruct s as [w mem]; cbn [fst] in *.
  pose proof Hw as (Hr & Hl & Hx & Hrem & Hpos); cbn [fst snd] in *.
  remember (StartContainer tag ty (w, mem)) as R eqn:ER.
  unfold StartContainer in ER; unfold bind at 1, self at 1 in ER; cbn [fst] in ER.
  rewrite (proj1 Hr) in ER; unfold bind at 1 2, verify at 1 2, ret at 1 in ER.
  destruct (TLVTypeIsContainer ty) eqn:Ety; cbn [andb]; [|rewrite ER; by eexists].
  pose proof (container_type_range ty Ety) as Hty.
  pose proof (length_element_head (ImplicitProfileId w) ty tag 0 Hty) as Hh; fold head in Hh.
  unfold ret at 1, bind at 1 in ER; unfold open_head at 1 in ER; cbn [fst] in ER.
  unfold IsCloseContainerReserved in ER; rewrite Hres in ER.
  unfold bind at 1, verify at 1 in ER; cbn [negb orb] in ER.
  unfold kEndOfContainerMarkerSize in ER.
  assert (Hfix : mMaxLen w - 1 +{32} 1 = mMaxLen w)
    by (rewrite wrap_small; [lia|unfold is_uint; lia]).
  destruct (Z.leb_spec 1 (mMaxLen w)) as [H1|H1]; cycle 1.
  { unfold room; rewrite (proj2 (Z.leb_gt _ _)), andb_false_r by lia; rewrite ER; by eexists. }
  unfold ret at 1 in ER; cbn [fst snd] in ER.
  rewrite (wrap_small 32 (mMaxLen w - 1)) in ER by (unfold is_uint; lia).
  assert (Hback : (set_maxLen (mMaxLen (set_maxLen (mMaxLen w - 1) w) +{32} 1)
                     (set_maxLen (mMaxLen w - 1) w), mem) = (w, mem)).
  { cbn [mMaxLen set_maxLen]; rewrite Hfix; by destruct w. }
  rewrite WriteElementHead_eq in ER by (done || apply Hr).
  cbn [mContainerType ImplicitProfileId set_maxLen] in ER.
  destruct (tag_allowed (mContainerType w) ty tag); cbn [andb fst snd] in *; cycle 1.
  { eexists; rewrite ER; exact (f_equal (pair (Err _)) Hback). }
  fold head in ER.
  destruct (Z.leb_spec (Z.of_nat (length head) + 1) (room w)) as [Hroom|Hroom]; unfold room in *.
  - rewrite WriteData_ok in ER; [exact ER|unfold wf, room, ready in *|unfold room];
      cbn; [split_and!; try apply Hr; lia|lia].
  - rewrite WriteData_full in ER by (done || (cbn; lia)); cbn [fst snd] in ER.
    eexists; rewrite ER; exact (f_equal (pair (Err _)) Hback).
Qed.

(** [EndContainer] finds its byte. *)
Lemma EndContainer_ok outer s :
  wf s -> mCloseContainerReserved s.1 = true -> TLVTypeIsContainer (mContainerType s.1) = true ->
  mMaxLen s.1 + 1 < 2 ^ 32 -> room s.1 + 1 <= mRemainingLen s.1 ->
  EndContainer outer s = (Ok tt, written [EndOfContainer] (outside outer s)) /\
  wf (written [EndOfContainer] (outside outer s)).
Proof.
  intros Hw Hres Hty Hm Hrem; destruct s as [w mem]; cbn [fst snd] in *.
  pose proof Hw as (Hr & Hl & Hx & Hrem' & Hpos); cbn [fst snd] in *.
  assert (Hw' : wf (outside outer (w, mem))).
  { unfold wf, outside, room, ready in *; cbn; split_and!; try apply Hr; lia. }
  assert (Hroom : Z.of_nat (length [EndOfContainer]) <= room (outside outer (w, mem)).1)
    by (unfold outside, room in *; cbn; lia).
  split; [|by apply wf_written].
  unfold EndContainer; unfold bind at 1, self at 1; cbn [fst].
  rewrite (proj1 Hr), Hty; unfold bind at 1 2 3 4, verify at 1 2, ret at 1 2, upd, modify.
  cbn [fst snd mCloseContainerReserved set_container IsCloseContainerReserved].
  unfold IsCloseContainerReserved; cbn [mCloseContainerReserved set_container]; rewrite Hres.
  unfold kEndOfContainerMarkerSize; cbn [mMaxLen set_container].
  rewrite wrap_small by (unfold is_uint; lia).
  change (set_maxLen _ _, mem) with (outside outer (w, mem)).
  rewrite WriteElementHead_ok; [by rewrite end_marker|done|done| |by rewrite end_marker].
  reflexivity.
Qed.

(** ** The reserved end marker *)

(** The writer calls of a client; [WEnd] closes the innermost container it
    opened, with the type [StartContainer] returned. *)
Inductive wcall :=
| WBool (tag : Z) (v : bool)
| WUInt (tag v : Z)
| WInt (tag v : Z)
| WFloat (tag v : Z)
| WDouble (tag v : Z)
| WBytes (tag : Z) (v : bytes)
| WString (tag : Z) (v : bytes)
| WNull (tag : Z)
| WStart (tag containerType : Z)
| WEnd.

Section Calls.
Context (validate : bool).

Definition run_put (c : wcall) : M St unit :=
  match c with
  | WBool tag v => PutBoolean tag v
  | WUInt tag v => Put_uint64 tag v
  | WInt tag v => Put_int64 tag v
  | WFloat tag v => Put_float tag v
  | WDouble tag v => Put_double tag v
  | WBytes tag v => Put_ByteSpan tag v
  | WString tag v => PutString validate tag v
  | WNull tag => PutNull tag
  | _ => ret tt
  end.

(** The client ignores errors; its stack holds the outer types of the containers
    it has open. *)
Definition run_wcall (x : St * list Z) (c : wcall) : St * list Z :=
  let (s, stack) := x in
  match c, stack with
  | WStart tag ty, _ =>
      match StartContainer tag ty s with
      | (Ok outer, s) => (s, outer :: stack)
      | (Err _, s) => (s, stack)
      end
  | WEnd, outer :: stack => ((EndContainer outer s).2, stack)
  | WEnd, [] => (s, [])
  | c, _ => ((run_put c s).2, stack)
  end.

(** The data of a call and the capacity stay clear of the 32-bit range. *)
Definition call_fits (cap : Z) (c : wcall) : Prop :=
  match c with
  | WBytes _ v | WString _ v => cap + Z.of_nat (length v) < 2 ^ 32
  | _ => True
  end.

(** What holds between the calls. *)
Definition marker_reserved (cap : Z) (x : St * list Z) : Prop :=
  let '((w, mem), stack) := x in
  wf (w, mem) /\ mCloseContainerReserved w = true /\
  mMaxLen w = cap - Z.of_nat (length stack) /\ mRemainingLen w = cap - mLenWritten w /\
  (exists base, Forall (fun ty => TLVTypeIsContainer ty = true) base /\
                mContainerType w :: stack = base ++ [kTLVType_NotSpecified]).

Lemma marker_written cap p s stack :
  marker_reserved cap (s, stack) -> Z.of_nat (length p) <= room s.1 ->
  marker_reserved cap (written p s, stack).
Proof.
  destruct s as [w mem]; intros (Hw & Hres & Hm & Hr & Ht) Hp.
  pose proof (wf_written _ _ Hw Hp) as Hw'; unfold written in *; cbn [fst snd] in *.
  split_and!; try done; cbn; lia.
Qed.

Lemma marker_head cap e tag v s stack :
  0 <= e < 32 -> cap + 17 < 2 ^ 32 -> marker_reserved cap (s, stack) ->
  marker_reserved cap ((WriteElementHead e tag v s).2, stack).
Proof.
  intros He Hc HI; destruct s as [w mem]; pose proof HI as (Hw & _ & Hm & _).
  destruct (WriteElementHead_cases e tag v (w, mem)) as [[err ->]|[-> Hl]]; try done.
  - cbn [fst] in *; destruct Hw as (_ & ? & _); cbn [fst] in *; lia.
  - by apply marker_written.
Qed.

Lemma marker_data cap type tag data s stack :
  type = kTLVType_UTF8String \/ type = kTLVType_ByteString ->
  cap + 17 < 2 ^ 32 -> cap + Z.of_nat (length data) < 2 ^ 32 -> marker_reserved cap (s, stack) ->
  marker_reserved cap ((WriteElementWithData type tag data s).2, stack).
Proof.
  intros Ht Hc Hd HI; unfold WriteElementWithData; unfold bind at 1, self at 1.
  assert (Hr : ready s.1) by (destruct s; apply HI).
  rewrite (proj1 Hr); unfold bind at 1 2, verify at 1 2, ret at 1 2.
  replace (Z.land type kTLVTypeSizeMask =? 0) with true by by destruct Ht as [-> | ->].
  set (fs := if _ <=? 2 ^ 8 - 1 then _ else _).
  assert (He : 0 <= Z.lor (wrap 8 type) fs < 32).
  { subst fs; destruct Ht as [-> | ->]; repeat bcase; vm_compute; split; discriminate || reflexivity. }
  pose proof (marker_head cap _ tag (Z.of_nat (length data)) s stack He Hc HI) as HI'.
  unfold bind at 1; destruct (WriteElementHead _ _ _ s) as [[[]|] s1]; cbn [snd] in *; [|done].
  destruct s1 as [w mem]; pose proof HI' as (Hw & _ & Hm & _).
  destruct (WriteData_cases data (w, mem)) as [->|[-> Hl]]; try done.
  - destruct Hw as (_ & ? & _); cbn [fst] in *; lia.
  - by apply marker_written.
Qed.

Lemma verify_keeps {A} (P : St -> Prop) b e (k : unit -> M St A) s :
  P s -> (b = true -> P (k tt s).2) -> P (bind (verify b e) k s).2.
Proof. intros; unfold bind, verify; destruct b; auto. Qed.

Lemma run_put_marker cap c s stack :
  cap + 17 < 2 ^ 32 -> call_fits cap c -> marker_reserved cap (s, stack) ->
  marker_reserved cap ((run_put c s).2, stack).
Proof.
  intros Hc Hf HI; destruct c; cbn [run_put call_fits] in *; try done;
    unfold PutBoolean, Put_uint64, Put_int64, Put_float, Put_double, PutNull;
    try (apply marker_head; [repeat case_match; vm_compute; split; discriminate || reflexivity|done|done]).
  - apply (verify_keeps (fun s => marker_reserved cap (s, stack))); [done|intros _].
    apply marker_data; auto.
  - unfold PutString, PutString_len.
    do 3 (apply (verify_keeps (fun s => marker_reserved cap (s, stack))); [done|intros _]).
    apply marker_data; auto.
Qed.

Lemma run_wcall_marker cap x c :
  cap + 17 < 2 ^ 32 -> call_fits cap c -> marker_reserved cap x ->
  marker_reserved cap (run_wcall x c).
Proof.
  destruct x as [s stack]; intros Hc Hf HI.
  assert (Hput : marker_reserved cap ((run_put c s).2, stack)) by by apply run_put_marker.
  destruct c; cbn [run_wcall]; try exact Hput; clear Hput Hf.
  - (* StartContainer *)
    destruct s as [w mem]; pose proof HI as (Hw & Hres & Hm & Hr & base & Hb & Ht).
    pose proof Hw as (Hrd & Hl & Hx & _); cbn [fst] in *.
    pose proof (StartContainer_cases tag containerType (w, mem) Hw Hres ltac:(cbn; lia)) as Hsc.
    cbn [fst] in Hsc; revert Hsc.
    destruct (_ && _ && _) eqn:E; [|by intros [err ->]]; intros ->.
    apply andb_true_iff in E as [E E3]; apply andb_true_iff in E as [E1 _]; apply Z.leb_le in E3.
    pose proof (marker_written cap (element_head (ImplicitProfileId w) containerType tag 0) _ _ HI
      ltac:(cbn [fst]; lia)) as (Hw' & Hres' & Hm' & Hr' & _).
    unfold written in Hw', Hr', Hm', Hres' |- *; unfold inside; cbn [fst snd] in *.
    split_and!; try done.
    + unfold wf, room, ready in *; cbn in *; split_and!; try apply Hrd; lia.
    + cbn in *; lia.
    + exists (containerType :: base); split; [by constructor|]; cbn; by rewrite Ht.
  - (* EndContainer *)
    destruct stack as [|outer stack]; [exact HI|].
    destruct s as [w mem]; pose proof HI as (Hw & Hres & Hm & Hr & base & Hb & Ht).
    pose proof Hw as (Hrd & Hl & Hx & _); cbn [fst length] in *.
    destruct base as [|ty base]; [done|]; cbn in Ht; injection Ht as Hty Ht.
    apply Forall_cons_1 in Hb as [Hty' Hb].
    destruct (EndContainer_ok outer (w, mem)) as [-> Hw']; try done;
      cbn [fst]; rewrite ?Hty; try done; [lia|unfold room; lia|].
    unfold written, outside in *; cbn [fst snd] in *; split_and!; try done.
    + cbn; lia.
    + cbn; lia.
    + by exists base.
Qed.

End Calls.

(** C28: The end marker has its place: whatever elements and containers were
    written (or refused for want of room or for a wrong tag) since the writer
    was initialised over a buffer, [EndContainer] of the innermost open
    container succeeds and writes the marker. *)
Theorem end_container_never_fails validate mem cs s outer stack
    (Hsize : Z.of_nat (length mem) + 17 < 2 ^ 32)
    (Hfits : Forall (call_fits (Z.of_nat (length mem))) cs)
    (Hrun : foldl (run_wcall validate) ((Init (Z.of_nat (length mem)), mem), []) cs =
            (s, outer :: stack)) :
  exists s', EndContainer outer s = (Ok tt, s') /\
             mLenWritten s'.1 = mLenWritten s.1 + 1 /\
             nth (mWritePoint s.1) s'.2 0 = EndOfContainer.
Proof.
  set (cap := Z.of_nat (length mem)) in *.
  assert (HI : marker_reserved cap ((Init cap, mem), [])).
  { unfold Init; rewrite (proj2 (Z.ltb_lt _ _)) by lia.
    unfold marker_reserved, wf, room, ready; cbn; split_and!; try done; try lia.
    by exists []. }
  assert (HI' : marker_reserved cap (s, outer :: stack)).
  { rewrite <-Hrun; clear Hrun; revert HI; generalize ((Init cap, mem), @nil Z) as x.
    induction Hfits as [|c cs Hc Hcs IH]; intros x HI; cbn [foldl]; [done|].
    by apply IH, run_wcall_marker. }
  clear HI Hrun; destruct s as [w mem']; destruct HI' as (Hw & Hres & Hm & Hr & base & Hb & Ht).
  pose proof Hw as (Hrd & Hl & Hx & Hrem & Hpos); cbn [fst snd length] in *.
  destruct base as [|ty base]; [done|]; cbn in Ht; injection Ht as Hty Ht.
  apply Forall_cons_1 in Hb as [Hty' Hb].
  destruct (EndContainer_ok outer (w, mem')) as [-> Hw']; try done;
    cbn [fst]; rewrite ?Hty; try done; [lia|unfold room; lia|].
  eexists; split; [done|]; split; [done|].
  unfold written, outside; cbn [fst snd mWritePoint set_maxLen set_container].
  unfold mem_write; rewrite app_nth2 by len.
  by rewrite length_take_le, Nat.sub_diag by lia.
Qed.

(** A structure in five bytes: the string and the array inside it are refused. *)
Definition example_calls : list wcall :=
  [WStart AnonymousTag kTLVType_Structure; WUInt (ContextTag 1) 7;
   WBytes (ContextTag 2) [1; 2]; WStart (ContextTag 3) kTLVType_Array].

Lemma end_container_never_fails_witness :
  exists s', EndContainer kTLVType_NotSpecified
    (mk 4 1 4 4 0 kTLVType_Structure kExpectedInitializationCookie false true kProfileIdNotSpecified,
     [0x15; 0x24; 1; 7; 0]) = (Ok tt, s') /\
    mLenWritten s'.1 = 5 /\ nth 4 s'.2 0 = EndOfContainer.
Proof.
  apply (end_container_never_fails true (replicate 5 0) example_calls
           (mk 4 1 4 4 0 kTLVType_Structure kExpectedInitializationCookie false true
               kProfileIdNotSpecified, [0x15; 0x24; 1; 7; 0]) kTLVType_NotSpecified []).
  - vm_compute; reflexivity.
  - repeat constructor.
  - vm_compute; reflexivity.
Defined.
