(* ===== verification/TlvStream.v ===== *)
(** * TlvStream: a TLV reader as a stream of bytes

    Theorems on the reader of TlvReader.v.  [view] is what a reader state means:
    the bytes still to be read, wherever they lie, the length limit, and the
    current element.  [sim] relates states with the same view.

    - [ReadData_spec], [ReadElement_sim], [Next_sim], ...: every operation
      respects [sim] and, from a well-formed state, neither follows a dangling
      pointer nor runs out of fuel;
    - [reader_chunk_independent]: how the input is cut into buffers does not
      matter;
    - [reader_safe]: no call on a reader, or on the readers made from it, goes
      outside a buffer or runs out of fuel. *)

From S2P Require Import Prelude Encoding TlvTypes TlvReader.
Import TLVReader.

(** ** The view of a reader state *)

(** The bytes from the read point to the end of the current buffer. *)
Definition cur (r : t) : bytes :=
  match mWindow r with
  | Within buf rp be => mem_read rp (be - rp) buf
  | Dangling _ => []
  end.

(** What the store delivers before it reports the end of the input. *)
Fixpoint deliverable (store : list bytes) : bytes :=
  match store with
  | (_ :: _) as b :: store => b ++ deliverable store
  | _ => []
  end.

Definition left_over (r : t) : Z := mMaxLen r - mLenRead r.

(** The bytes still to be read. *)
Definition rest (s : St) : bytes :=
  cur s.1 ++
  (if mBackingStore s.1
   then take (Z.to_nat (left_over s.1) - length (cur s.1)) (deliverable s.2) else []).

Record view := MkView {
  v_rest : bytes;
  v_left : Z;
  v_tag : Z;
  v_lenOrVal : Z;
  v_control : Z;
  v_container : Z;
  v_open : bool;
  v_profile : Z }.

Definition view_of (s : St) : view :=
  MkView (rest s) (left_over s.1) (mElemTag s.1) (mElemLenOrVal s.1) (mControlByte s.1)
         (mContainerType s.1) (mContainerOpen s.1) (ImplicitProfileId s.1).

Definition v_consume (n : nat) (v : view) : view :=
  MkView (drop n (v_rest v)) (v_left v - Z.of_nat n) (v_tag v) (v_lenOrVal v) (v_control v)
         (v_container v) (v_open v) (v_profile v).

(** Pointers inside their buffer, lengths inside the limit. *)
Definition wf (s : St) : Prop :=
  (exists buf rp be, mWindow s.1 = Within buf rp be /\ (rp <= be <= length buf)%nat) /\
  0 <= mLenRead s.1 /\
  mLenRead s.1 + Z.of_nat (length (cur s.1)) <= mMaxLen s.1 < 2 ^ 32 /\
  Forall (fun b => Z.of_nat (length b) < 2 ^ 32) s.2 /\
  bytes_ok (rest s).

(** The store reported the end of the input. *)
Definition stuck (s : St) : Prop := exists b, mWindow s.1 = Dangling b.

Lemma length_cur buf rp be :
  (rp <= be <= length buf)%nat -> length (mem_read rp (be - rp) buf) = (be - rp)%nat.
Proof. intros; apply length_mem_read; lia. Qed.

Lemma wf_rest_left s : wf s -> Z.of_nat (length (rest s)) <= left_over s.1.
Proof.
  intros (_ & Hl & Hm & _); unfold rest, left_over in *; rewrite length_app.
  destruct (mBackingStore s.1); len.
Qed.

Lemma deliverable_length st : (length (deliverable st) <= sum_list (length <$> st))%nat.
Proof.
  induction st as [|[|x b] st IH]; csimpl; [lia|lia|].
  rewrite length_app; csimpl; lia.
Qed.

Lemma budget_rest s : wf s -> (length (rest s) <= budget s)%nat.
Proof.
  intros ((buf & rp & be & Hw & Hb) & _); unfold rest, budget, cur; rewrite Hw.
  rewrite length_app, length_cur by done.
  pose proof (deliverable_length s.2); destruct (mBackingStore s.1); len.
Qed.

(** ** Input *)

(** A delivered buffer, capped to the limit, and what follows it. *)
Lemma take_capped n (b d : bytes) :
  take (Nat.min (length b) n) b ++ take (n - Nat.min (length b) n) d = take n (b ++ d).
Proof.
  rewrite take_app; destruct (Nat.min_spec (length b) n) as [[? ->]|[? ->]].
  - by rewrite !(take_ge b) by lia.
  - by replace (n - n)%nat with (n - length b)%nat by lia.
Qed.

Lemma EnsureData_some e s :
  wf s -> rest s <> [] ->
  exists s', EnsureData e s = (Ok tt, s') /\ wf s' /\ view_of s' = view_of s /\ cur s'.1 <> [].
Proof.
  destruct s as [r st]; intros Hwf Hr; pose proof Hwf as ((buf & rp & be & Hw & Hb) & H0 & Hm & Hst & Hok).
  unfold rest, cur in Hr, Hm, Hok; unfold EnsureData; cbn [fst snd] in *; rewrite Hw in *.
  rewrite length_cur in * by done.
  destruct (Nat.eqb_spec rp be) as [->|Hne].
  - rewrite Nat.sub_diag in *; unfold mem_read in Hr, Hok; rewrite take_0, app_nil_l in Hr, Hok.
    destruct (mBackingStore r) eqn:Hbs; [|done].
    assert (Hlt : mLenRead r <> mMaxLen r).
    { intros E; apply Hr; unfold left_over; rewrite E, Z.sub_diag; apply take_0. }
    rewrite (proj2 (Z.eqb_neq _ _) Hlt); cbn [negb andb].
    destruct st as [|[|x b] st]; cbn [GetNextBuffer deliverable] in *;
      [by rewrite take_nil in Hr|by rewrite take_nil in Hr|].
    apply Forall_cons_1 in Hst as [Hx Hst].
    rewrite (proj2 (Z.ltb_lt _ _) Hx); cbn [negb length Nat.eqb].
    rewrite wrap_small by (unfold is_uint; lia).
    set (n := Z.to_nat (Z.min (Z.of_nat (S (length b))) (mMaxLen r - mLenRead r))).
    assert (Hn : (0 < n <= length (x :: b))%nat) by (subst n; cbn [length]; lia).
    assert (Hcur : mem_read 0 (n - 0) (x :: b) = take n (x :: b))
      by (unfold mem_read; by rewrite Nat.sub_0_r, drop_0).
    assert (Hrest : rest (set_window (Within (x :: b) 0 n) (mLenRead r) r, st) = rest (r, (x :: b) :: st)).
    { unfold rest, cur; cbn [fst snd mWindow mBackingStore set_window left_over mMaxLen mLenRead deliverable].
      rewrite Hw, Hbs, Hcur, Nat.sub_diag; unfold mem_read, left_over; rewrite take_0; cbn [app length].
      rewrite length_take_le, Nat.sub_0_r by (cbn [length] in *; lia).
      cbn [mMaxLen mLenRead set_window]; rewrite app_comm_cons, <-take_capped.
      by replace n with (Nat.min (length (x :: b)) (Z.to_nat (mMaxLen r - mLenRead r)))
        by (subst n; cbn [length]; lia). }
    eexists; split; [done|]; split_and!.
    + unfold wf; rewrite Hrest; cbn [fst snd mWindow set_window mLenRead mMaxLen].
      unfold cur; cbn [mWindow set_window]; rewrite Hcur, length_take_le by lia.
      split_and!; [repeat eexists; lia|lia|subst n; lia|lia|done|].
      unfold rest, cur; cbn [fst snd]; rewrite Hw, Hbs, Nat.sub_diag; exact Hok.
    + by unfold view_of; rewrite Hrest.
    + unfold cur; cbn [fst mWindow set_window]; rewrite Hcur.
      intros E; apply (f_equal length) in E; rewrite length_take_le in E by lia; simpl in E; lia.
  - eexists; split; [done|]; split_and!; try done.
    unfold cur; cbn [fst]; rewrite Hw; intros E.
    apply (f_equal length) in E; rewrite length_cur in E by done; simpl in E; lia.
Qed.

Lemma EnsureData_none e s :
  wf s -> rest s = [] ->
  exists s', EnsureData e s = (Err e, s') /\ ((wf s' /\ view_of s' = view_of s) \/ stuck s').
Proof.
  destruct s as [r st]; intros Hwf Hr; pose proof Hwf as ((buf & rp & be & Hw & Hb) & H0 & Hm & Hst & Hok).
  unfold rest, cur in Hr, Hm; unfold EnsureData; cbn [fst snd] in *; rewrite Hw in *.
  apply app_eq_nil in Hr as [Hc Hr].
  apply (f_equal length) in Hc; rewrite length_cur in * by done; simpl in Hc.
  rewrite (proj2 (Nat.eqb_eq _ _)) by lia; rewrite Hc in *.
  destruct (Z.eqb_spec (mLenRead r) (mMaxLen r)), (mBackingStore r) eqn:Hbs;
    cbn [negb andb]; eauto.
  destruct st as [|[|x b] st]; cbn [GetNextBuffer deliverable length] in *.
  - eexists; split; [done|]; right; by eexists.
  - eexists; split; [done|]; right; by eexists.
  - exfalso; apply (f_equal length) in Hr; revert Hr; unfold left_over; len.
Qed.

Lemma consume_spec n s buf rp be :
  wf s -> mWindow s.1 = Within buf rp be -> (n <= be - rp)%nat ->
  let s' := (consume n s.1, s.2) in
  wf s' /\ view_of s' = v_consume n (view_of s) /\ mem_read rp n buf = take n (rest s).
Proof.
  destruct s as [r st]; intros ((buf' & rp' & be' & Hw & Hb) & H0 & Hm & Hst & Hok) Hw' Hn s'.
  cbn [fst snd] in *; rewrite Hw in Hw'; simplify_eq.
  assert (Hlen : length (cur r) = (be - rp)%nat) by (unfold cur; rewrite Hw; by apply length_cur).
  assert (Hcur : cur s'.1 = drop n (cur r)).
  { subst s'; unfold consume, cur; rewrite Hw; cbn [fst mWindow set_window].
    unfold mem_read; rewrite skipn_firstn_comm, drop_drop; f_equal; lia. }
  assert (Hrd : mLenRead s'.1 = mLenRead r + Z.of_nat n).
  { subst s'; unfold consume; rewrite Hw; cbn [fst mLenRead set_window].
    apply wrap_small; unfold is_uint; lia. }
  assert (Hleft : left_over s'.1 = left_over r - Z.of_nat n).
  { unfold left_over; rewrite Hrd; subst s'; unfold consume; rewrite Hw; cbn [fst mMaxLen set_window]; lia. }
  assert (Hrest : rest s' = drop n (rest (r, st))).
  { unfold rest; cbn [fst snd]; rewrite Hcur, Hleft, length_drop, drop_app_le by lia; f_equal.
    replace (mBackingStore s'.1) with (mBackingStore r)
      by (subst s'; unfold consume; by rewrite Hw).
    destruct (mBackingStore r); [|done]; f_equal; unfold left_over; lia. }
  split_and!.
  - unfold wf; rewrite Hcur, Hrd, Hrest, length_drop; split_and!; try lia.
    + subst s'; unfold consume; rewrite Hw; cbn [fst mWindow set_window].
      repeat eexists; lia.
    + subst s'; unfold consume; rewrite Hw; cbn [fst mMaxLen set_window]; lia.
    + subst s'; unfold consume; rewrite Hw; cbn [fst mMaxLen set_window]; lia.
    + done.
    + by apply Forall_drop.
  - unfold view_of, v_consume; cbn [v_rest v_left v_tag v_lenOrVal v_control v_container v_open v_profile fst].
    rewrite Hrest, Hleft; subst s'; unfold consume; by rewrite Hw.
  - unfold rest; cbn [fst snd]; rewrite take_app_le by lia.
    unfold cur; rewrite Hw; unfold mem_read; rewrite take_take; f_equal; lia.
Qed.

Lemma v_consume_consume n m v : v_consume m (v_consume n v) = v_consume (n + m) v.
Proof.
  unfold v_consume; cbn [v_rest v_left v_tag v_lenOrVal v_control v_container v_open v_profile].
  rewrite drop_drop; f_equal; lia.
Qed.

Lemma view_rest s s' v : view_of s' = v -> view_of s = v -> rest s' = rest s.
Proof. intros <- Hs; by apply (f_equal v_rest) in Hs. Qed.

Lemma ReadData_loop_ok fuel n s :
  wf s -> (n <= length (rest s))%nat -> (n < fuel)%nat ->
  exists s', ReadData_loop fuel n s = (Ok (take n (rest s)), s') /\ wf s' /\
             view_of s' = v_consume n (view_of s).
Proof.
  revert n s; induction fuel as [|fuel IH]; intros n s Hwf Hn Hf; [lia|].
  cbn [ReadData_loop]; destruct (Nat.ltb_spec 0 n) as [H0|H0].
  2: { replace n with 0%nat by lia; eexists; split; [by rewrite take_0|]; split; [done|].
       unfold v_consume; destruct s as [r st]; unfold view_of; cbn; f_equal; lia. }
  destruct (EnsureData_some CHIP_ERROR_TLV_UNDERRUN s) as (s1 & E & Hwf1 & Hv1 & Hc1);
    [done|intros E; rewrite E in Hn; simpl in Hn; lia|].
  rewrite (bind_ok _ _ _ _ _ E).
  assert (Hr1 : rest s1 = rest s) by by eapply view_rest.
  assert (Hw1 := proj1 Hwf1); destruct Hw1 as (buf & rp & be & Hw & Hb).
  unfold bind at 1, self at 1; cbn [fst]; rewrite Hw.
  set (k := if (be - rp <? n)%nat then (be - rp)%nat else n).
  assert (Hk : (0 < k <= n /\ k <= be - rp)%nat).
  { assert (0 < be - rp)%nat; [|subst k; bcase; lia].
    rewrite <-(length_cur buf rp be) by lia; unfold cur in Hc1; rewrite Hw in Hc1.
    destruct (mem_read rp (be - rp) buf); [done|simpl; lia]. }
  destruct (consume_spec k s1 buf rp be Hwf1 Hw) as (Hwf2 & Hv2 & Hd); [lia|].
  assert (Hr2 : rest (consume k s1.1, s1.2) = drop k (rest s)).
  { apply (f_equal v_rest) in Hv2; cbn in Hv2; by rewrite Hv2, Hr1. }
  destruct (IH (n - k)%nat (consume k s1.1, s1.2)) as (s3 & E3 & Hwf3 & Hv3);
    [done|rewrite Hr2; len|lia|].
  exists s3; unfold bind at 1, upd, modify; cbn [fst snd].
  rewrite (bind_ok _ _ _ _ _ E3); unfold ret; split_and!; [|done|].
  - rewrite Hd, Hr1, Hr2; do 2 f_equal.
    rewrite <-(take_drop k (take n (rest s))), take_take, skipn_firstn_comm.
    f_equal; f_equal; lia.
  - rewrite Hv3, Hv2, Hv1, v_consume_consume; f_equal; lia.
Qed.

Lemma ReadData_loop_short fuel n s :
  wf s -> (length (rest s) < n)%nat -> (n < fuel)%nat ->
  exists s', ReadData_loop fuel n s = (Err CHIP_ERROR_TLV_UNDERRUN, s') /\
             ((wf s' /\ view_of s' = v_consume (length (rest s)) (view_of s)) \/ stuck s').
Proof.
  revert n s; induction fuel as [|fuel IH]; intros n s Hwf Hn Hf; [lia|].
  cbn [ReadData_loop]; destruct (Nat.ltb_spec 0 n) as [H0|H0]; [|lia].
  destruct (decide (rest s = [])) as [Hr|Hr].
  { destruct (EnsureData_none CHIP_ERROR_TLV_UNDERRUN s) as (s1 & E & Hs1); [done|done|].
    rewrite (bind_err _ _ _ _ _ E); eexists; split; [done|].
    destruct Hs1 as [[? Hv]|]; [left|by right]; split; [done|].
    rewrite Hv, Hr; unfold v_consume; destruct s; unfold view_of; cbn; f_equal; lia. }
  destruct (EnsureData_some CHIP_ERROR_TLV_UNDERRUN s) as (s1 & E & Hwf1 & Hv1 & Hc1); [done|done|].
  rewrite (bind_ok _ _ _ _ _ E).
  assert (Hr1 : rest s1 = rest s) by by eapply view_rest.
  assert (Hw1 := proj1 Hwf1); destruct Hw1 as (buf & rp & be & Hw & Hb).
  unfold bind at 1, self at 1; cbn [fst]; rewrite Hw.
  assert (Hcl : length (cur s1.1) = (be - rp)%nat) by (unfold cur; rewrite Hw; by apply length_cur).
  assert (Hle : (be - rp <= length (rest s))%nat)
    by (rewrite <-Hr1; unfold rest; rewrite length_app; lia).
  rewrite (proj2 (Nat.ltb_lt _ _)) by lia.
  destruct (consume_spec (be - rp) s1 buf rp be Hwf1 Hw) as (Hwf2 & Hv2 & Hd); [lia|].
  assert (Hr2 : rest (consume (be - rp) s1.1, s1.2) = drop (be - rp) (rest s)).
  { apply (f_equal v_rest) in Hv2; cbn in Hv2; by rewrite Hv2, Hr1. }
  assert (0 < be - rp)%nat.
  { rewrite <-Hcl; destruct (cur s1.1); [done|simpl; lia]. }
  destruct (IH (n - (be - rp))%nat (consume (be - rp) s1.1, s1.2)) as (s3 & E3 & Hs3);
    [done|rewrite Hr2; len|lia|].
  exists s3; unfold bind at 1, upd, modify; cbn [fst snd].
  rewrite (bind_err _ _ _ _ _ E3); split; [done|].
  destruct Hs3 as [[? Hv3]|]; [left|by right]; split; [done|].
  rewrite Hv3, Hv2, Hv1, v_consume_consume, Hr2; f_equal; len.
Qed.

(** Reading [n] bytes takes them from the front of [rest], or fails with
    [CHIP_ERROR_TLV_UNDERRUN] when there are fewer. *)
Lemma ReadData_ok n s :
  wf s -> (n <= length (rest s))%nat ->
  exists s', ReadData n s = (Ok (take n (rest s)), s') /\ wf s' /\
             view_of s' = v_consume n (view_of s).
Proof. intros; apply ReadData_loop_ok; auto with lia. Qed.

Lemma ReadData_short n s :
  wf s -> (length (rest s) < n)%nat ->
  exists s', ReadData n s = (Err CHIP_ERROR_TLV_UNDERRUN, s') /\
             ((wf s' /\ view_of s' = v_consume (length (rest s)) (view_of s)) \/ stuck s').
Proof. intros; apply ReadData_loop_short; auto with lia. Qed.

(** ** States with the same view behave the same *)

Definition sim (s1 s2 : St) : Prop := wf s1 /\ wf s2 /\ view_of s1 = view_of s2.

(** Two runs agree: the same value or the same error, never an error that marks
    a wild pointer or exhausted fuel, and related states unless a store is at
    its end.  At most [k] bytes are left after a successful run. *)
Definition agree {A} (k : nat) (x1 x2 : result A * St) : Prop :=
  match x1, x2 with
  | (Ok a1, s1), (Ok a2, s2) => a1 = a2 /\ sim s1 s2 /\ (length (rest s1) <= k)%nat
  | (Err e1, s1), (Err e2, s2) =>
      e1 = e2 /\ e1 <> UNDEFINED_BEHAVIOUR /\ e1 <> CHIP_ERROR_INTERNAL /\
      (sim s1 s2 \/ stuck s1 \/ stuck s2)
  | _, _ => False
  end.

Definition sane (e : CHIP_ERROR) : Prop := e <> UNDEFINED_BEHAVIOUR /\ e <> CHIP_ERROR_INTERNAL.

Section Agreement.
Context {A B : Type}.
Implicit Types (s : St) (k : nat).

Lemma agree_bind k k' (m1 m2 : M St A) (f1 f2 : A -> M St B) s1 s2 :
  agree k (m1 s1) (m2 s2) ->
  (forall a s1' s2', sim s1' s2' -> (length (rest s1') <= k)%nat ->
                     agree k' (f1 a s1') (f2 a s2')) ->
  agree k' (bind m1 f1 s1) (bind m2 f2 s2).
Proof.
  unfold agree, bind; destruct (m1 s1) as [[]], (m2 s2) as [[]]; try done.
  intros (-> & Hs & Hk) Hf; apply (Hf _ _ _ Hs Hk).
Qed.

Lemma agree_mono k k' (x1 x2 : result A * St) : (k <= k')%nat -> agree k x1 x2 -> agree k' x1 x2.
Proof. unfold agree; destruct x1 as [[]], x2 as [[]]; try done; intros ? (? & ? & ?); auto with lia. Qed.

Lemma agree_self k (f1 f2 : t -> M St A) s1 s2 :
  agree k (f1 s1.1 s1) (f2 s2.1 s2) -> agree k (bind self f1 s1) (bind self f2 s2).
Proof. done. Qed.

Lemma agree_ret (a : A) s1 s2 : sim s1 s2 -> agree (length (rest s1)) (ret a s1) (ret a s2).
Proof. unfold agree, ret; auto. Qed.

Lemma agree_fail k e s1 s2 : sane e -> sim s1 s2 -> agree k (fail e s1 : result A * St) (fail e s2).
Proof. intros [? ?] ?; unfold agree, fail; auto. Qed.
End Agreement.

Lemma agree_verify k (b : bool) e s1 s2 :
  sane e -> sim s1 s2 -> (b = true -> length (rest s1) <= k)%nat -> agree k (verify b e s1) (verify b e s2).
Proof.
  intros; unfold verify; destruct b; [|by apply agree_fail].
  eapply agree_mono, agree_ret; auto.
Qed.

Lemma sim_refl s : wf s -> sim s s.
Proof. done. Qed.

Lemma sim_sym s1 s2 : sim s1 s2 -> sim s2 s1.
Proof. intros (? & ? & Hv); split_and!; done. Qed.

(** Related states agree on everything but the place of their bytes. *)
Lemma sim_fields s1 s2 :
  sim s1 s2 ->
  rest s1 = rest s2 /\ left_over s1.1 = left_over s2.1 /\
  mElemTag s1.1 = mElemTag s2.1 /\ mElemLenOrVal s1.1 = mElemLenOrVal s2.1 /\
  mControlByte s1.1 = mControlByte s2.1 /\ mContainerType s1.1 = mContainerType s2.1 /\
  mContainerOpen s1.1 = mContainerOpen s2.1 /\ ImplicitProfileId s1.1 = ImplicitProfileId s2.1.
Proof. intros (_ & _ & Hv); unfold view_of in Hv; injection Hv; auto 10. Qed.

(** An update of the element or container fields keeps states related. *)
Definition place_preserving (f : t -> t) : Prop :=
  forall r, mWindow (f r) = mWindow r /\ mLenRead (f r) = mLenRead r /\
            mMaxLen (f r) = mMaxLen r /\ mBackingStore (f r) = mBackingStore r.

Lemma place_rest f s : place_preserving f -> rest (f s.1, s.2) = rest s.
Proof.
  intros Hf; destruct s as [r st]; destruct (Hf r) as (Hw & Hl & Hm & Hb).
  unfold rest, cur, left_over; cbn [fst snd]; by rewrite Hw, Hl, Hm, Hb.
Qed.

Lemma place_wf f s : place_preserving f -> wf s -> wf (f s.1, s.2).
Proof.
  intros Hf; unfold wf; rewrite place_rest by done.
  destruct s as [r st]; destruct (Hf r) as (Hw & Hl & Hm & Hb); unfold cur; cbn [fst snd].
  by rewrite Hw, Hl, Hm.
Qed.

Lemma place_sim f s1 s2 :
  place_preserving f -> sim s1 s2 ->
  (let r1 := f s1.1 in let r2 := f s2.1 in
   mElemTag r1 = mElemTag r2 /\ mElemLenOrVal r1 = mElemLenOrVal r2 /\
   mControlByte r1 = mControlByte r2 /\ mContainerType r1 = mContainerType r2 /\
   mContainerOpen r1 = mContainerOpen r2 /\ ImplicitProfileId r1 = ImplicitProfileId r2) ->
  sim (f s1.1, s1.2) (f s2.1, s2.2).
Proof.
  intros Hf Hs Hfld; pose proof (sim_fields _ _ Hs) as (Hr & Hl & _).
  destruct Hs as (H1 & H2 & _), Hfld as (E1 & E2 & E3 & E4 & E5 & E6).
  split_and!; try by apply place_wf.
  unfold view_of; rewrite !place_rest by done; cbn [fst] in *; rewrite E1, E2, E3, E4, E5, E6, Hr.
  destruct (Hf s1.1) as (_ & A1 & A2 & _), (Hf s2.1) as (_ & B1 & B2 & _).
  f_equal; unfold left_over in *; by rewrite A1, A2, B1, B2.
Qed.

Lemma agree_upd f s1 s2 :
  place_preserving f -> sim s1 s2 ->
  (let r1 := f s1.1 in let r2 := f s2.1 in
   mElemTag r1 = mElemTag r2 /\ mElemLenOrVal r1 = mElemLenOrVal r2 /\
   mControlByte r1 = mControlByte r2 /\ mContainerType r1 = mContainerType r2 /\
   mContainerOpen r1 = mContainerOpen r2 /\ ImplicitProfileId r1 = ImplicitProfileId r2) ->
  agree (length (rest s1)) (upd f s1) (upd f s2).
Proof.
  intros Hf Hs He; unfold agree, upd, modify; rewrite place_rest by done.
  split_and!; auto using place_sim.
Qed.

(** Closes an update of the element and container fields. *)
Ltac place :=
  lazymatch goal with
  | Hs : sim ?s1 ?s2 |- agree _ (upd _ ?s1) (upd _ ?s2) =>
      pose proof (sim_fields _ _ Hs) as (? & ? & ? & ? & ? & ? & ? & ?);
      apply agree_upd; [done|done|cbn; auto 10]
  end.

(** ** The operations respect the view *)

Section Operations.
Context `{BO : ByteOrder} `{HO : Host}.
Implicit Types (s : St).

Lemma EnsureData_agree e s1 s2 :
  sane e -> sim s1 s2 -> agree (length (rest s1)) (EnsureData e s1) (EnsureData e s2).
Proof.
  intros He Hs; destruct Hs as (H1 & H2 & Hv).
  assert (Hr : rest s1 = rest s2) by apply (f_equal v_rest Hv).
  destruct (decide (rest s1 = [])) as [E|E].
  - destruct (EnsureData_none e s1) as (s1' & -> & Hs1); [done|done|].
    destruct (EnsureData_none e s2) as (s2' & -> & Hs2); [done|congruence|].
    unfold agree; destruct He; split_and!; auto.
    destruct Hs1 as [[? Hv1]|]; [|auto]; destruct Hs2 as [[? Hv2]|]; [|auto].
    left; unfold sim; by rewrite Hv1, Hv2.
  - destruct (EnsureData_some e s1) as (s1' & -> & ? & Hv1 & _); [done|done|].
    destruct (EnsureData_some e s2) as (s2' & -> & ? & Hv2 & _); [done|congruence|].
    unfold agree, sim; rewrite Hv1, Hv2; apply (f_equal v_rest) in Hv1; cbn in Hv1.
    by rewrite Hv1.
Qed.

Lemma ReadData_agree n s1 s2 :
  sim s1 s2 -> agree (length (rest s1) - n) (ReadData n s1) (ReadData n s2).
Proof.
  intros (H1 & H2 & Hv); assert (Hr : rest s1 = rest s2) by apply (f_equal v_rest Hv).
  destruct (Nat.le_gt_cases n (length (rest s1))) as [Hn|Hn].
  - destruct (ReadData_ok n s1) as (s1' & -> & ? & Hv1); [done|done|].
    destruct (ReadData_ok n s2) as (s2' & -> & ? & Hv2); [done|congruence|].
    unfold agree, sim; rewrite Hv1, Hv2, Hv, Hr; split_and!; try done.
    apply (f_equal v_rest) in Hv1; cbn in Hv1; rewrite Hv1, length_drop, Hr; lia.
  - destruct (ReadData_short n s1) as (s1' & -> & Hs1); [done|done|].
    destruct (ReadData_short n s2) as (s2' & -> & Hs2); [done|congruence|].
    unfold agree; split_and!; try done.
    destruct Hs1 as [[? Hv1]|]; [|auto]; destruct Hs2 as [[? Hv2]|]; [|auto].
    left; unfold sim; by rewrite Hv1, Hv2, Hv, Hr.
Qed.

Lemma ElementType_sim s1 s2 : sim s1 s2 -> ElementType s1.1 = ElementType s2.1.
Proof.
  intros Hs; pose proof (sim_fields _ _ Hs) as (_ & _ & _ & _ & Hc & _).
  unfold ElementType; by rewrite Hc.
Qed.

(** The first byte of what is left is the control byte [read_control] sees. *)
Lemma read_control_cur s :
  wf s -> cur s.1 <> [] -> exists b l, rest s = b :: l /\ read_control s = (Ok b, s) /\ is_u8 b.
Proof.
  destruct s as [r st]; intros ((buf & rp & be & Hw & Hb) & _ & _ & _ & Hok) Hc.
  unfold cur in Hc; unfold read_control; cbn [fst] in *; rewrite Hw in *.
  unfold rest, cur in Hok |- *; cbn [fst] in *; rewrite Hw in *.
  destruct (mem_read rp (be - rp) buf) as [|b l] eqn:E; [done|].
  eexists _, _; split; [done|]; split; [|by inv Hok].
  do 2 f_equal; unfold mem_read in E.
  destruct (drop rp buf) as [|x d] eqn:Ed; [by rewrite take_nil in E|].
  destruct (be - rp)%nat; simpl in E; simplify_eq.
  rewrite <-(take_drop rp buf), Ed, app_nth2 by len.
  by rewrite length_take_le, Nat.sub_diag by lia.
Qed.

(** [VerifyElement] looks at the view only, and its errors are those of a
    malformed element. *)
Lemma VerifyElement_sim s1 s2 : sim s1 s2 -> VerifyElement s1.1 = VerifyElement s2.1.
Proof.
  intros Hs; pose proof (sim_fields _ _ Hs) as (_ & Hl & Ht & Hv & _ & Hc & _).
  unfold VerifyElement; rewrite (ElementType_sim s1 s2) by done.
  unfold left_over in Hl; by rewrite Hl, Ht, Hv, Hc.
Qed.

Lemma VerifyElement_sane r : sane (VerifyElement r).
Proof.
  unfold VerifyElement, sane; repeat case_match; try done; split; congruence.
Qed.

Lemma ReadTag_sim s1 s2 c p : sim s1 s2 -> ReadTag s1.1 c p = ReadTag s2.1 c p.
Proof.
  intros Hs; pose proof (sim_fields _ _ Hs) as (_ & _ & _ & _ & _ & _ & _ & Hp).
  unfold ReadTag; by rewrite Hp.
Qed.

(** Reading an element head takes a byte at least. *)
Lemma ReadElement_agree s1 s2 :
  sim s1 s2 -> agree (length (rest s1) - 1) (ReadElement s1) (ReadElement s2).
Proof.
  intros Hs; unfold ReadElement.
  (* after [EnsureData] the current buffer holds a byte *)
  assert (Hr : rest s1 = rest s2) by apply (sim_fields _ _ Hs).
  destruct (decide (rest s1 = [])) as [E|E].
  { pose proof (EnsureData_agree CHIP_END_OF_TLV s1 s2 ltac:(done) Hs) as Ha.
    destruct Hs as (H1 & H2 & Hv).
    destruct (EnsureData_none CHIP_END_OF_TLV s1) as (s1' & E1 & _); [done|done|].
    destruct (EnsureData_none CHIP_END_OF_TLV s2) as (s2' & E2 & _); [done|congruence|].
    rewrite E1, E2 in Ha; by rewrite (bind_err _ _ _ _ _ E1), (bind_err _ _ _ _ _ E2). }
  destruct Hs as (H1 & H2 & Hv).
  destruct (EnsureData_some CHIP_END_OF_TLV s1) as (s1' & E1 & W1 & V1 & C1); [done|done|].
  destruct (EnsureData_some CHIP_END_OF_TLV s2) as (s2' & E2 & W2 & V2 & C2); [done|congruence|].
  rewrite (bind_ok _ _ _ _ _ E1), (bind_ok _ _ _ _ _ E2).
  replace (rest s1) with (rest s1') by (by eapply view_rest).
  assert (Hs : sim s1' s2') by (unfold sim; by rewrite V1, V2).
  clear dependent s1 s2; rename s1' into s1, s2' into s2.
  destruct (read_control_cur s1) as (b & l & R1 & E1 & Hb); [done|done|].
  destruct (read_control_cur s2) as (b2 & l2 & R2 & E2 & _); [done|done|].
  assert (Hr : rest s1 = rest s2) by apply (sim_fields _ _ Hs).
  rewrite R1, R2 in Hr; simplify_eq.
  rewrite (bind_ok _ _ _ _ _ E1), (bind_ok _ _ _ _ _ E2); clear E1 E2 R1 R2 C1 C2 W1 W2 Hb.
  eapply agree_bind; [place|]; intros [] s1' s2' Hs' Hk'.
  eapply agree_self.
  rewrite (ElementType_sim _ _ Hs').
  eapply agree_bind; [apply agree_verify; [done|done|intros _; exact Hk']|].
  intros [] s1a s2a Hsa Hka.
  eapply agree_bind; [apply ReadData_agree, Hsa|]; intros d s1b s2b Hsb Hkb.
  rewrite (ReadTag_sim _ _ _ _ Hs').
  eapply agree_bind; [place|]; intros [] s1c s2c Hsc Hkc.
  eapply agree_bind; [apply agree_verify; [done|done|intros _; exact Hkc]|].
  intros [] s1d s2d Hsd Hkd; eapply agree_self.
  rewrite (VerifyElement_sim _ _ Hsd).
  apply agree_verify; [apply VerifyElement_sane|done|lia].
Qed.

Lemma SkipData_agree s1 s2 :
  sim s1 s2 -> agree (length (rest s1)) (SkipData s1) (SkipData s2).
Proof.
  intros Hs; unfold SkipData; eapply agree_self.
  pose proof (sim_fields _ _ Hs) as (_ & _ & _ & Hv & _).
  rewrite (ElementType_sim _ _ Hs), Hv; case_match; [|by apply agree_ret].
  eapply agree_bind; [apply ReadData_agree, Hs|]; intros d s1' s2' Hs' Hk.
  eapply agree_mono, agree_ret, Hs'; lia.
Qed.

(** The loop that skips a container ends: a pass takes a byte at least. *)
Lemma SkipToEnd_loop_agree fuel1 fuel2 outer nest s1 s2 :
  sim s1 s2 -> (length (rest s1) < fuel1)%nat -> (length (rest s1) < fuel2)%nat ->
  agree (length (rest s1)) (SkipToEndOfContainer_loop fuel1 outer nest s1)
                           (SkipToEndOfContainer_loop fuel2 outer nest s2).
Proof.
  revert fuel2 nest s1 s2; induction fuel1 as [|fuel1 IH]; intros fuel2 nest s1 s2 Hs H1 H2; [lia|].
  destruct fuel2 as [|fuel2]; [lia|]; cbn [SkipToEndOfContainer_loop].
  assert (Hcont : forall n s1' s2', sim s1' s2' -> (length (rest s1') <= length (rest s1))%nat ->
    agree (length (rest s1))
      ((SkipData ;; ReadElement ;; SkipToEndOfContainer_loop fuel1 outer n) s1')
      ((SkipData ;; ReadElement ;; SkipToEndOfContainer_loop fuel2 outer n) s2')).
  { intros n s1' s2' Hs' Hk.
    eapply agree_bind; [apply SkipData_agree, Hs'|]; intros [] s1a s2a Hsa Hka.
    destruct (ReadElement s1a) as [r1 s1b] eqn:E1, (ReadElement s2a) as [r2 s2b] eqn:E2.
    pose proof (ReadElement_agree _ _ Hsa) as Ha; rewrite E1, E2 in Ha.
    destruct r1 as [[]|e1], r2 as [[]|e2]; try done.
    2: { by rewrite (bind_err _ _ _ _ _ E1), (bind_err _ _ _ _ _ E2). }
    rewrite (bind_ok _ _ _ _ _ E1), (bind_ok _ _ _ _ _ E2).
    destruct Ha as (_ & Hsb & Hkb).
    assert (length (rest s1a) <> 0)%nat.
    { intros E; destruct Hsa as (Wa & _ & _).
      destruct (EnsureData_none CHIP_END_OF_TLV s1a) as (s' & E' & _); [done|by apply nil_length_inv|].
      unfold ReadElement in E1; by rewrite (bind_err _ _ _ _ _ E') in E1. }
    eapply agree_mono, IH; [|exact Hsb|lia|lia]; lia. }
  eapply agree_self; rewrite (ElementType_sim _ _ Hs).
  destruct (ElementType s2.1 =? EndOfContainer).
  - destruct nest as [|nest]; [by apply agree_ret|].
    eapply agree_bind; [place|]; intros [] s1' s2' Hs' Hk; by apply Hcont.
  - destruct (TLVTypeIsContainer (ElementType s2.1)); [|by apply Hcont].
    eapply agree_bind; [place|]; intros [] s1' s2' Hs' Hk; by apply Hcont.
Qed.

Lemma SkipToEnd_agree s1 s2 :
  sim s1 s2 -> agree (length (rest s1)) (SkipToEndOfContainer s1) (SkipToEndOfContainer s2).
Proof.
  intros Hs; unfold SkipToEndOfContainer.
  pose proof (sim_fields _ _ Hs) as (Hr & _ & _ & _ & _ & Hc & _).
  rewrite Hc; destruct Hs as (W1 & W2 & Hv).
  pose proof (budget_rest _ W1); pose proof (budget_rest _ W2).
  assert (Hs : sim s1 s2) by done.
  eapply agree_bind; [place|]; intros [] s1' s2' Hs' Hk.
  eapply agree_mono, SkipToEnd_loop_agree; [|done|lia|]; [lia|].
  rewrite Hr in *; lia.
Qed.

Lemma EnterContainer_agree s1 s2 :
  sim s1 s2 -> agree (length (rest s1)) (EnterContainer s1) (EnterContainer s2).
Proof.
  intros Hs; unfold EnterContainer; eapply agree_self.
  pose proof (sim_fields _ _ Hs) as (_ & _ & _ & _ & _ & Hc & _).
  rewrite (ElementType_sim _ _ Hs), Hc.
  eapply agree_bind; [by apply agree_verify|]; intros [] s1' s2' Hs' Hk'.
  eapply agree_bind; [place|]; intros [] s1a s2a Hsa Hka.
  eapply agree_mono, agree_ret, Hsa; lia.
Qed.

Lemma ExitContainer_agree o s1 s2 :
  sim s1 s2 -> agree (length (rest s1)) (ExitContainer o s1) (ExitContainer o s2).
Proof.
  intros Hs; unfold ExitContainer.
  eapply agree_bind; [apply SkipToEnd_agree, Hs|]; intros [] s1' s2' Hs' Hk.
  eapply agree_mono; [exact Hk|]; place.
Qed.

Lemma Skip_agree s1 s2 :
  sim s1 s2 -> agree (length (rest s1)) (TLVReader.Skip s1) (TLVReader.Skip s2).
Proof.
  intros Hs; unfold TLVReader.Skip; eapply agree_self.
  rewrite (ElementType_sim _ _ Hs).
  eapply agree_bind; [by apply agree_verify|]; intros [] s1' s2' Hs' Hk'.
  case_match.
  - eapply agree_bind; [apply EnterContainer_agree, Hs'|]; intros o s1a s2a Hsa Hka.
    eapply agree_mono, ExitContainer_agree, Hsa; lia.
  - eapply agree_bind; [apply SkipData_agree, Hs'|]; intros [] s1a s2a Hsa Hka.
    eapply agree_mono; [|place]; lia.
Qed.

Lemma GetLength_sim s1 s2 : sim s1 s2 -> GetLength s1.1 = GetLength s2.1.
Proof.
  intros Hs; pose proof (sim_fields _ _ Hs) as (_ & _ & _ & Hv & _).
  unfold GetLength; by rewrite (ElementType_sim _ _ Hs), Hv.
Qed.

Lemma Next_agree s1 s2 :
  sim s1 s2 -> agree (length (rest s1) - 1) (Next s1) (Next s2).
Proof.
  intros Hs; unfold Next.
  eapply agree_bind; [apply Skip_agree, Hs|]; intros [] s1' s2' Hs' Hk'.
  eapply agree_bind; [apply ReadElement_agree, Hs'|]; intros [] s1a s2a Hsa Hka.
  eapply agree_self; rewrite (ElementType_sim _ _ Hsa), (GetLength_sim _ _ Hsa).
  eapply agree_bind; [by apply agree_verify|]; intros [] s1b s2b Hsb Hkb.
  case_match.
  - eapply agree_mono, EnsureData_agree; [lia|done|done].
  - eapply agree_mono, agree_ret, Hsb; lia.
Qed.

(** [Next] takes at least a byte, and its errors are those of the code. *)
Lemma Next_progress s s' :
  wf s -> Next s = (Ok tt, s') -> wf s' /\ (length (rest s') < length (rest s))%nat.
Proof.
  intros Hw E; pose proof (Next_agree s s (sim_refl s Hw)) as Ha; rewrite E in Ha.
  destruct Ha as (_ & (Hw' & _) & Hk); split; [done|].
  destruct (decide (length (rest s) = 0)%nat) as [H0|H0]; [|lia].
  exfalso; unfold Next in E; pose proof (Skip_agree s s (sim_refl s Hw)) as Hs.
  destruct (TLVReader.Skip s) as [[[]|e] s1] eqn:E1; [|by rewrite (bind_err _ _ _ _ _ E1) in E].
  rewrite (bind_ok _ _ _ _ _ E1) in E; destruct Hs as (_ & (Hw1 & _) & Hk1).
  destruct (EnsureData_none CHIP_END_OF_TLV s1) as (s2 & E2 & _); [done|apply nil_length_inv; lia|].
  unfold ReadElement in E.
  by rewrite (bind_err _ _ _ _ _ (bind_err _ _ _ _ _ E2)) in E.
Qed.

Lemma Next_error s e s' : wf s -> Next s = (Err e, s') -> sane e.
Proof.
  intros Hw E; pose proof (Next_agree s s (sim_refl s Hw)) as Ha; rewrite E in Ha.
  by destruct Ha as (_ & ? & ? & _).
Qed.

Lemma GetBytes_agree n s1 s2 :
  sim s1 s2 -> agree (length (rest s1)) (GetBytes n s1) (GetBytes n s2).
Proof.
  intros Hs; unfold GetBytes; eapply agree_self.
  pose proof (sim_fields _ _ Hs) as (_ & _ & _ & Hv & _).
  rewrite (ElementType_sim _ _ Hs), Hv.
  eapply agree_bind; [by apply agree_verify|]; intros [] s1a s2a Hsa Hka.
  eapply agree_bind; [by apply agree_verify|]; intros [] s1b s2b Hsb Hkb.
  eapply agree_bind; [apply ReadData_agree, Hsb|]; intros d s1c s2c Hsc Hkc.
  eapply agree_bind; [place|]; intros [] s1d s2d Hsd Hkd.
  eapply agree_mono, agree_ret, Hsd; lia.
Qed.

Lemma GetString_agree n s1 s2 :
  sim s1 s2 -> agree (length (rest s1)) (GetString n s1) (GetString n s2).
Proof.
  intros Hs; unfold GetString; eapply agree_self.
  pose proof (sim_fields _ _ Hs) as (_ & _ & _ & Hv & _).
  rewrite (ElementType_sim _ _ Hs), Hv.
  eapply agree_bind; [by apply agree_verify|]; intros [] s1a s2a Hsa Hka.
  eapply agree_bind; [by apply agree_verify|]; intros [] s1b s2b Hsb Hkb.
  eapply agree_bind; [apply GetBytes_agree, Hsb|]; intros d s1c s2c Hsc Hkc.
  eapply agree_mono, agree_ret, Hsc; lia.
Qed.

(** *** A client's calls and what it sees *)

(** The calls on one reader; [CExit] is given the type the client kept. *)
Inductive call :=
| CNext
| CNextTag (expectedTag : Z)
| CNextTypeTag (expectedType expectedTag : Z)
| CSkip
| CEnter
| CExit (outerContainerType : Z)
| CGetBytes (bufSize : Z)
| CGetString (bufSize : Z).

Definition run_call (c : call) : M St (list Z) :=
  match c with
  | CNext => Next ;; ret []
  | CNextTag tag => Next_tag tag ;; ret []
  | CNextTypeTag type tag => Next_type_tag type tag ;; ret []
  | CSkip => TLVReader.Skip ;; ret []
  | CEnter => let! outer := EnterContainer in ret [outer]
  | CExit outer => ExitContainer outer ;; ret []
  | CGetBytes n => GetBytes n
  | CGetString n => GetString n
  end.

(** What the observers say of the current element. *)
Definition observe (r : t) : list Z * (result bool * result Z * result Z * result float_bits) :=
  ([GetType r; GetTag r; GetContainerType r; GetLength r; GetRemainingLength r],
   (Get_bool r, Get_int64 r, Get_uint64 r, Get_double r)).

(** The value of each call with the element it led to, or its error; no call is
    made after the backing store reported the end of the input. *)
Fixpoint run (cs : list call) (s : St) : list (result (list Z * _)) :=
  match cs with
  | [] => []
  | c :: cs =>
      let (res, s') := run_call c s in
      (match res with Ok v => Ok (v, observe s'.1) | Err e => Err e end)
      :: match mWindow s'.1 with Dangling _ => [] | _ => run cs s' end
  end.

Lemma Expect_tag_sim tag s1 s2 : sim s1 s2 -> Expect_tag tag s1.1 = Expect_tag tag s2.1.
Proof.
  intros Hs; pose proof (sim_fields _ _ Hs) as (_ & _ & Ht & _).
  unfold Expect_tag, GetType, GetTag; by rewrite (ElementType_sim _ _ Hs), Ht.
Qed.

Lemma Expect_sim ty tag s1 s2 : sim s1 s2 -> Expect ty tag s1.1 = Expect ty tag s2.1.
Proof.
  intros Hs; pose proof (sim_fields _ _ Hs) as (_ & _ & Ht & _).
  unfold Expect, GetType, GetTag; by rewrite (ElementType_sim _ _ Hs), Ht.
Qed.

Lemma Expect_sane ty tag r : sane (Expect ty tag r) /\ sane (Expect_tag tag r).
Proof. unfold Expect, Expect_tag, sane; repeat case_match; done. Qed.

Lemma run_call_agree c s1 s2 :
  sim s1 s2 -> agree (length (rest s1)) (run_call c s1) (run_call c s2).
Proof.
  assert (Hret : forall s1' s2', sim s1' s2' -> (length (rest s1') <= length (rest s1))%nat ->
    agree (length (rest s1)) (ret (@nil Z) s1') (ret [] s2')).
  { intros s1' s2' Hs' Hk; eapply agree_mono, agree_ret, Hs'; done. }
  assert (Hle : (length (rest s1) - 1 <= length (rest s1))%nat) by lia.
  intros Hs; destruct c; cbn [run_call].
  - eapply agree_bind; [eapply agree_mono, Next_agree, Hs; exact Hle|]; intros [] ????; by apply Hret.
  - eapply agree_bind; [|intros [] ????; by apply Hret].
    unfold Next_tag; eapply agree_bind; [apply Next_agree, Hs|]; intros [] s1' s2' Hs' Hk.
    eapply agree_self; rewrite (Expect_tag_sim _ _ _ Hs').
    apply agree_verify; [apply (Expect_sane 0)|done|lia].
  - eapply agree_bind; [|intros [] ????; by apply Hret].
    unfold Next_type_tag; eapply agree_bind; [apply Next_agree, Hs|]; intros [] s1' s2' Hs' Hk.
    eapply agree_self; rewrite (Expect_sim _ _ _ _ Hs').
    apply agree_verify; [apply Expect_sane|done|lia].
  - eapply agree_bind; [apply Skip_agree, Hs|]; intros [] ????; by apply Hret.
  - eapply agree_bind; [apply EnterContainer_agree, Hs|]; intros o s1' s2' Hs' Hk.
    eapply agree_mono, agree_ret, Hs'; done.
  - eapply agree_bind; [apply ExitContainer_agree, Hs|]; intros [] ????; by apply Hret.
  - by apply GetBytes_agree.
  - by apply GetString_agree.
Qed.

Lemma observe_sim s1 s2 : sim s1 s2 -> observe s1.1 = observe s2.1.
Proof.
  intros Hs; pose proof (sim_fields _ _ Hs) as (_ & Hl & Ht & Hv & _ & Hc & _).
  unfold left_over in Hl.
  unfold observe, GetType, GetTag, GetContainerType, GetRemainingLength,
    Get_bool, Get_int64, Get_uint64, Get_double.
  by rewrite (ElementType_sim _ _ Hs), (GetLength_sim _ _ Hs), Ht, Hv, Hc, Hl.
Qed.

(** The replies of one run are those of another, cut after an error. *)
Inductive same_replies {X} : list (result X) -> list (result X) -> Prop :=
| same_nil : same_replies [] []
| same_cons x l1 l2 : same_replies l1 l2 -> same_replies (x :: l1) (x :: l2)
| same_cut e l : same_replies [Err e] (Err e :: l).

(** *** What every call preserves *)

(** A property of the state that survives a change of the element, the next buffer and
    a read survives every call. *)
Section Preservation.
Context (P : St -> Prop).
Context (P_place : forall f s, place_preserving f -> P s -> P (f s.1, s.2)).
Context (P_consume : forall n s, P s -> P (consume n s.1, s.2)).
Context (P_EnsureData : forall e s, P s -> P (EnsureData e s).2).

Definition keeps {A} (m : M St A) : Prop := forall s, P s -> P (m s).2.

Lemma keeps_bind {A B} (m : M St A) (f : A -> M St B) :
  keeps m -> (forall a, keeps (f a)) -> keeps (bind m f).
Proof.
  intros Hm Hf s Hs; specialize (Hm s Hs); unfold bind.
  destruct (m s) as [[a|e] s']; [by apply Hf|done].
Qed.

Lemma keeps_self {A} (f : t -> M St A) : (forall r, keeps (f r)) -> keeps (bind self f).
Proof. intros Hf s Hs; by apply Hf. Qed.

Lemma keeps_verify b e : keeps (verify b e).
Proof. intros s Hs; unfold verify; by destruct b. Qed.

Lemma keeps_ret {A} (a : A) : keeps (ret a).
Proof. by intros s. Qed.

Lemma keeps_fail {A} e : keeps (fail e : M St A).
Proof. by intros s. Qed.

Lemma keeps_upd f : place_preserving f -> keeps (upd f).
Proof. intros Hf s Hs; by apply P_place. Qed.

Lemma keeps_consume n : keeps (upd (consume n)).
Proof. intros s Hs; by apply P_consume. Qed.

Lemma keeps_EnsureData e : keeps (EnsureData e).
Proof. intros s Hs; by apply P_EnsureData. Qed.

Lemma keeps_ReadData n : keeps (ReadData n).
Proof.
  unfold ReadData; generalize (S n) as fuel; intros fuel; revert n.
  induction fuel as [|fuel IH]; intros n; cbn [ReadData_loop]; [apply keeps_fail|].
  case_match; [|apply keeps_ret]; apply keeps_bind; [apply keeps_EnsureData|intros _].
  apply keeps_self; intros r; case_match; [|apply keeps_fail].
  apply keeps_bind; [apply keeps_consume|intros _].
  apply keeps_bind; [apply IH|intros tl; apply keeps_ret].
Qed.

Lemma keeps_read_control : keeps read_control.
Proof. intros [r st] Hs; unfold read_control; by repeat case_match. Qed.
#[local] Create HintDb tlv_keeps.
#[local] Hint Resolve keeps_verify keeps_ret keeps_fail keeps_upd keeps_EnsureData
  keeps_ReadData keeps_read_control : tlv_keeps.
#[local] Hint Extern 1 (place_preserving _) => (intros ?; done) : tlv_keeps.

(** Takes a sequence of operations apart. *)
Ltac keeps :=
  repeat first [by eauto with tlv_keeps|apply keeps_self; intros ?
               |apply keeps_bind; [by eauto with tlv_keeps|intros ?]|case_match].

Lemma keeps_ReadElement : keeps ReadElement.
Proof. unfold ReadElement, returns; keeps. Qed.

Lemma keeps_SkipData : keeps SkipData.
Proof. unfold SkipData; keeps. Qed.
#[local] Hint Resolve keeps_ReadElement keeps_SkipData : tlv_keeps.

Lemma keeps_Skip_loop fuel outer n : keeps (SkipToEndOfContainer_loop fuel outer n).
Proof.
  revert n; induction fuel; intros n; cbn [SkipToEndOfContainer_loop]; keeps.
Qed.
#[local] Hint Resolve keeps_Skip_loop : tlv_keeps.

Lemma keeps_SkipToEnd : keeps SkipToEndOfContainer.
Proof.
  intros s Hs; unfold SkipToEndOfContainer.
  apply keeps_bind; [by apply keeps_upd|intros _; apply keeps_Skip_loop|done].
Qed.
#[local] Hint Resolve keeps_SkipToEnd : tlv_keeps.

Lemma keeps_Enter : keeps EnterContainer.
Proof. unfold EnterContainer; keeps. Qed.

Lemma keeps_Exit o : keeps (ExitContainer o).
Proof. unfold ExitContainer; keeps. Qed.
#[local] Hint Resolve keeps_Enter keeps_Exit : tlv_keeps.

Lemma keeps_Skip : keeps TLVReader.Skip.
Proof. unfold TLVReader.Skip; keeps. Qed.
#[local] Hint Resolve keeps_Skip : tlv_keeps.

Lemma keeps_Next : keeps Next.
Proof. unfold Next; keeps. Qed.
#[local] Hint Resolve keeps_Next : tlv_keeps.

Lemma keeps_GetBytes n : keeps (GetBytes n).
Proof. unfold GetBytes; keeps. Qed.
#[local] Hint Resolve keeps_GetBytes : tlv_keeps.

Lemma keeps_call c : keeps (run_call c).
Proof.
  destruct c; cbn [run_call]; unfold Next_tag, Next_type_tag, GetString, returns; keeps.
  all: apply keeps_bind; keeps.
Qed.

Lemma keeps_Open : keeps OpenContainer.
Proof. unfold OpenContainer; keeps. Qed.

End Preservation.

End Operations.

(** A reader over one contiguous buffer never has a dangling window. *)
Definition contiguous (s : St) : Prop := mBackingStore s.1 = false /\ ~ stuck s.

Lemma contiguous_place f s : place_preserving f -> contiguous s -> contiguous (f s.1, s.2).
Proof.
  intros Hf [Hb Hs]; destruct (Hf s.1) as (Hw & _ & _ & Hbs); unfold contiguous, stuck in *; cbn [fst].
  by rewrite Hw, Hbs.
Qed.

Lemma contiguous_consume n s : contiguous s -> contiguous (consume n s.1, s.2).
Proof.
  destruct s as [r st]; intros [Hb Hs]; unfold contiguous, stuck, consume in *; cbn [fst] in *.
  destruct (mWindow r) eqn:E; cbn [fst mWindow set_window mBackingStore]; split; try done.
  - by intros [].
  - by rewrite E in *.
Qed.

Lemma contiguous_EnsureData e s : contiguous s -> contiguous (EnsureData e s).2.
Proof.
  destruct s as [r st]; intros [Hb Hs]; unfold EnsureData; cbn [fst] in *; rewrite Hb, andb_false_r.
  destruct (mWindow r); [|done]; by case_match.
Qed.

Lemma contiguous_upd f s : place_preserving f -> contiguous s -> contiguous (upd f s).2.
Proof. apply contiguous_place. Qed.

Lemma contiguous_Next `{BO : ByteOrder} `{HO : Host} s : contiguous s -> contiguous (Next s).2.
Proof. apply (keeps_Next _ contiguous_place contiguous_consume contiguous_EnsureData). Qed.

(** ** Initial states *)

(** A reader over one buffer, or over a chain whose head the limit covers. *)
Inductive initial : St -> Prop :=
| initial_contiguous data : bytes_ok data -> initial (Init data, [])
| initial_store head bufs maxLen r :
    bytes_ok head -> bytes_ok (concat bufs) ->
    Forall (fun b => Z.of_nat (length b) < 2 ^ 32) bufs ->
    Z.of_nat (length head) <= maxLen < 2 ^ 32 ->
    Init_store head maxLen = Ok r -> initial (r, bufs).

Lemma bytes_ok_deliverable bufs : bytes_ok (concat bufs) -> bytes_ok (deliverable bufs).
Proof.
  induction bufs as [|[|x b] bufs IH]; cbn [concat deliverable]; intros Hb;
    [done|by constructor|].
  apply bytes_ok_app in Hb as [? ?]; apply bytes_ok_app; auto.
Qed.

Lemma deliverable_concat bufs : Forall (fun b => b <> []) bufs -> deliverable bufs = concat bufs.
Proof.
  induction 1 as [|[|x b] bufs Hb _ IH]; cbn [concat deliverable]; [done|done|by rewrite IH].
Qed.

Lemma rest_Init data : Z.of_nat (length data) < 2 ^ 32 -> rest (Init data, []) = data.
Proof.
  intros; unfold rest, cur, Init; cbn [fst snd mWindow mBackingStore].
  rewrite (proj2 (Z.ltb_lt _ _)), app_nil_r, Nat.sub_0_r by done; apply mem_read_all.
Qed.

Lemma wf_Init data : bytes_ok data -> wf (Init data, []).
Proof.
  intros Hb; unfold wf, rest, cur, Init; cbn [fst snd mWindow mLenRead mMaxLen mBackingStore].
  set (n := if Z.of_nat (length data) <? 2 ^ 32 then _ else _).
  assert ((n <= length data)%nat /\ Z.of_nat n < 2 ^ 32) by (subst n; bcase; lia).
  clearbody n; rewrite Nat.sub_0_r, length_mem_read, app_nil_r by lia.
  split_and!; try lia; [repeat eexists; lia|constructor|].
  by apply bytes_ok_read.
Qed.

Lemma Init_store_inv head maxLen r :
  Init_store head maxLen = Ok r ->
  Z.of_nat (length head) < 2 ^ 32 /\ cur r = head /\ mBackingStore r = true /\
  mWindow r = Within head 0 (length head) /\ mLenRead r = 0 /\ mMaxLen r = maxLen.
Proof.
  unfold Init_store; bcase; [|done]; intros; simplify_eq.
  split_and!; try done; unfold cur; cbn [mWindow]; rewrite Nat.sub_0_r; apply mem_read_all.
Qed.

Lemma initial_wf s : initial s -> wf s.
Proof.
  intros [data Hb|head bufs maxLen r Hh Hb Hl Hm Hi]; [by apply wf_Init|].
  apply Init_store_inv in Hi as (Hs & Hc & Hbs & Hw & H0 & HM).
  unfold wf, rest; cbn [fst snd]; rewrite Hc, Hbs, Hw, H0, HM.
  split_and!; try lia; [repeat eexists; lia|done|].
  apply bytes_ok_app; split; [done|]; by apply Forall_take, bytes_ok_deliverable.
Qed.

Section Theorems.
Context `{BO : ByteOrder} `{HO : Host}.

Lemma wf_not_stuck s : wf s -> ~ stuck s.
Proof. intros ((? & ? & ? & Hw & _) & _) [b Hd]; congruence. Qed.

Lemma run_sim cs s1 s2 :
  sim s1 s2 -> contiguous s2 -> same_replies (run cs s1) (run cs s2).
Proof.
  revert s1 s2; induction cs as [|c cs IH]; intros s1 s2 Hs Hc; cbn [run]; [constructor|].
  pose proof (run_call_agree c _ _ Hs) as Ha.
  pose proof (keeps_call _ contiguous_place contiguous_consume contiguous_EnsureData c _ Hc) as Hk.
  destruct (run_call c s1) as [res1 s1'], (run_call c s2) as [res2 s2']; cbn [snd] in Hk.
  assert (Hnd : forall b, mWindow s2'.1 <> Dangling b) by (intros b Hb; apply (proj2 Hk); by exists b).
  assert (Hgo : sim s1' s2' -> forall x, same_replies
    (x :: match mWindow s1'.1 with Dangling _ => [] | _ => run cs s1' end)
    (x :: match mWindow s2'.1 with Dangling _ => [] | _ => run cs s2' end)).
  { intros Hs' x; pose proof (wf_not_stuck _ (proj1 Hs')) as Hn.
    destruct (mWindow s1'.1) eqn:E1; [|exfalso; apply Hn; by exists isNull].
    destruct (mWindow s2'.1) eqn:E2; [|by destruct (Hnd isNull)].
    constructor; by apply IH. }
  destruct res1 as [v1|e1], res2 as [v2|e2]; try done.
  - destruct Ha as (-> & Hs' & _); rewrite (observe_sim _ _ Hs'); by apply Hgo.
  - destruct Ha as (-> & _ & _ & [Hs'|[Hst|[b Hb]]]).
    + by apply Hgo.
    + destruct Hst as [b ->]; apply same_cut.
    + by destruct (Hnd b).
Qed.

(** C24: How the input is cut into buffers does not matter to a client that moves
    through the elements and copies their data: any sequence of calls of Next, Skip,
    EnterContainer, ExitContainer, GetBytes and GetString on a reader over a chain of
    non-empty packet buffers, whose length limit is their total length, gives the replies
    (values, errors, and the element each call leads to) that a reader over the
    concatenation of the buffers gives, up to the call that meets the end of the chain,
    which fails the same way. The calls that give out a pointer into the current buffer,
    Get(ByteSpan &), Get(CharSpan &) and GetDataPtr, are no part of it: they fail on a
    string that goes over the end of a buffer ([span_depends_on_buffers]). *)
Theorem reader_chunk_independent head bufs cs
    (Hbytes : bytes_ok (head ++ concat bufs)) (Hne : Forall (fun b => b <> []) bufs)
    (Hsize : Z.of_nat (length (head ++ concat bufs)) < 2 ^ 32) :
  let data := head ++ concat bufs in
  exists r, Init_store head (Z.of_nat (length data)) = Ok r /\
            same_replies (run cs (r, bufs)) (run cs (Init data, [])).
Proof.
  intros data; assert (Hlen := Hsize); rewrite length_app in Hlen.
  destruct (Init_store head (Z.of_nat (length data))) as [r|e] eqn:E.
  2: { exfalso; revert E; unfold Init_store; bcase; [done|lia]. }
  exists r; split; [done|].
  apply run_sim; [|split; [done|intros [b Hb]; done]].
  pose proof Hbytes as Hb; apply bytes_ok_app in Hb as [Hb1 Hb2].
  assert (Hi : initial (r, bufs)).
  { apply (initial_store head bufs (Z.of_nat (length data))); try done.
    - apply Forall_forall; intros b Hb.
      assert (length b <= length (concat bufs))%nat; [|lia].
      clear -Hb; induction bufs as [|b' bufs IH]; [done|].
      cbn [concat]; rewrite length_app.
      destruct Hb as [->|Hb]; [lia|]; specialize (IH Hb); lia.
    - subst data; rewrite length_app; lia. }
  split_and!; [by apply initial_wf|by apply wf_Init|].
  destruct (Init_store_inv _ _ _ E) as (Hs & Hc & Hbs & Hw & H0 & HM).
  assert (Hr : rest (r, bufs) = data).
  { unfold rest, left_over; cbn [fst snd]; rewrite Hc, Hbs, H0, HM, deliverable_concat by done.
    subst data; rewrite length_app; f_equal; apply take_ge; lia. }
  unfold view_of; rewrite Hr, rest_Init by done.
  unfold Init_store in E; rewrite (proj2 (Z.ltb_lt _ _)) in E by done; injection E as <-.
  fold data in Hsize; unfold Init; by rewrite (proj2 (Z.ltb_lt _ _) Hsize).
Qed.

(** *** Any calls on any number of readers *)

(** A reader whose window lies in a buffer, whatever the store holds. *)
Definition reader_ok (r : t) : Prop :=
  (exists buf rp be, mWindow r = Within buf rp be /\ (rp <= be <= length buf)%nat) /\
  0 <= mLenRead r /\ mLenRead r + Z.of_nat (length (cur r)) <= mMaxLen r < 2 ^ 32 /\ bytes_ok (cur r).

Definition store_ok (st : list bytes) : Prop :=
  Forall (fun b => bytes_ok b /\ Z.of_nat (length b) < 2 ^ 32) st.

Lemma store_deliverable st : store_ok st -> bytes_ok (deliverable st).
Proof.
  induction 1 as [|[|x b] st [Hb _] _ IH]; cbn [deliverable]; [constructor..|].
  by apply bytes_ok_app.
Qed.

Lemma reader_wf r st : reader_ok r -> store_ok st -> wf (r, st).
Proof.
  intros (Hw & H0 & Hm & Hb) Hst; do 3 (split; [done|]); split.
  - revert Hst; unfold store_ok; rewrite !Forall_forall; intros Hst b Hb'; by apply Hst.
  - unfold rest; apply bytes_ok_app; split; [done|]; destruct (mBackingStore _); [|constructor].
    by apply Forall_take, store_deliverable.
Qed.

Lemma wf_reader s : wf s -> reader_ok s.1.
Proof. intros (Hw & H0 & Hm & _ & Hb); apply bytes_ok_app in Hb as [Hb _]; done. Qed.

Lemma reader_place f r : place_preserving f -> reader_ok r -> reader_ok (f r).
Proof.
  intros Hf; destruct (Hf r) as (Hw & Hl & Hm & _); unfold reader_ok, cur; by rewrite Hw, Hl, Hm.
Qed.

Lemma store_EnsureData e s : store_ok s.2 -> store_ok (EnsureData e s).2.2.
Proof.
  destruct s as [r st]; intros Hst; unfold EnsureData; cbn [snd] in *.
  destruct (mWindow r); [|done]; case_match; [|done]; case_match; [|done].
  destruct st as [|b st]; cbn [GetNextBuffer]; [done|]; apply Forall_cons_1 in Hst as [_ Hst].
  by repeat case_match.
Qed.

(** A reader that may be called, or that the store failed to give the next buffer. *)
Definition reader_left (r : t) : Prop := reader_ok r \/ exists b, mWindow r = Dangling b.

(** What an operation does to a reader over a store that others may share. *)
Definition tame {A} (m : M St A) : Prop := forall r st, reader_ok r -> store_ok st ->
  reader_left (m (r, st)).2.1 /\ store_ok (m (r, st)).2.2 /\
  match (m (r, st)).1 with Ok _ => True | Err e => sane e end.

Lemma tame_agree {A} (m : M St A) :
  (forall s, wf s -> exists k, agree k (m s) (m s)) -> keeps (fun s => store_ok s.2) m -> tame m.
Proof.
  intros Hm Hk r st Hr Hst; specialize (Hk (r, st) Hst); cbv beta in Hk.
  destruct (Hm (r, st)) as [k Ha]; [by apply reader_wf|]; unfold agree in Ha.
  destruct (m (r, st)) as [[a|e] s']; cbn [fst snd].
  - destruct Ha as (_ & [Hw _] & _); split; [left; by apply wf_reader|done].
  - destruct Ha as (_ & ? & ? & Hs); split; [|by split].
    destruct Hs as [[Hw _]|[Hd|Hd]]; [left; by apply wf_reader|by right..].
Qed.

Lemma keeps_store {A} (m : M St A) :
  (forall P, (forall f s, place_preserving f -> P s -> P (f s.1, s.2)) ->
     (forall n s, P s -> P (consume n s.1, s.2)) -> (forall e s, P s -> P (EnsureData e s).2) -> keeps P m) ->
  keeps (fun s => store_ok s.2) m.
Proof. intros H; apply H; [done|done|apply store_EnsureData]. Qed.

Lemma tame_Next : tame Next.
Proof. apply tame_agree; [eauto using Next_agree, sim_refl|apply keeps_store, keeps_Next]. Qed.

Lemma tame_call c : tame (run_call c).
Proof. apply tame_agree; [eauto using run_call_agree, sim_refl|by apply keeps_store; intros; apply keeps_call]. Qed.

Lemma tame_SkipToEnd : tame SkipToEndOfContainer.
Proof. apply tame_agree; [eauto using SkipToEnd_agree, sim_refl|apply keeps_store, keeps_SkipToEnd]. Qed.

Lemma tame_VerifyEnd : tame VerifyEndOfContainer.
Proof.
  intros r st Hr Hst; pose proof (tame_Next r st Hr Hst) as Hn; unfold VerifyEndOfContainer.
  destruct (Next (r, st)) as [[[]|e] s']; cbn [fst snd] in *; destruct Hn as (? & ? & ?); [done|].
  by destruct e.
Qed.

(** A search ends: a pass takes a byte at least. *)
Lemma Find_loop_safe fuel tag r st :
  reader_ok r -> store_ok st -> (length (rest (r, st)) < fuel)%nat ->
  let (res, s') := FindElementWithTag_loop fuel tag (r, st) in
  store_ok s'.2 /\ match res with Ok r' => reader_ok r' | Err e => sane e end.
Proof.
  revert r st; induction fuel as [|fuel IH]; intros r st Hr Hst Hf; [lia|]; cbn [FindElementWithTag_loop].
  pose proof (tame_Next r st Hr Hst) as Hn; pose proof (Next_progress (r, st)) as Hp; unfold bind at 1.
  destruct (Next (r, st)) as [[[]|e] [r' st']]; cbn [fst snd] in *; [|by destruct Hn as (_ & ? & ?)].
  destruct Hn as (_ & Hst' & _); destruct (Hp _ (reader_wf _ _ Hr Hst) eq_refl) as [Hw Hl].
  apply wf_reader in Hw; cbn [fst] in Hw; unfold bind at 1, self; cbn [fst].
  unfold bind, verify; destruct (negb _); cbn [ret fail]; [|done].
  destruct (tag =? GetTag r'); [by destruct r'|]; apply IH; [done|done|lia].
Qed.

Lemma FindElementWithTag_safe tag r st :
  reader_ok r -> store_ok st ->
  let (res, st') := FindElementWithTag tag r st in
  store_ok st' /\ match res with Ok r' => reader_ok r' | Err e => sane e end.
Proof.
  intros Hr Hst; unfold FindElementWithTag; pose proof (budget_rest _ (reader_wf _ _ Hr Hst)) as Hb.
  replace (Init_copy r) with r by (by destruct r).
  pose proof (Find_loop_safe (S (budget (r, st))) tag r st Hr Hst) as H.
  by destruct (FindElementWithTag_loop _ _ _) as [res s']; apply H; lia.
Qed.

Lemma Count_loop_safe fuel count r st :
  reader_ok r -> store_ok st -> (length (rest (r, st)) < fuel)%nat ->
  let '(e, _, s') := CountRemaining_loop fuel count (r, st) in store_ok s'.2 /\ sane e.
Proof.
  revert count r st; induction fuel as [|fuel IH]; intros count r st Hr Hst Hf; [lia|].
  cbn [CountRemaining_loop].
  pose proof (tame_Next r st Hr Hst) as Hn; pose proof (Next_progress (r, st)) as Hp.
  destruct (Next (r, st)) as [[[]|e] [r' st']]; cbn [fst snd] in *; [|by destruct Hn as (_ & ? & ?)].
  destruct Hn as (_ & Hst' & _); destruct (Hp _ (reader_wf _ _ Hr Hst) eq_refl) as [Hw Hl].
  apply wf_reader in Hw; apply IH; [done|done|lia].
Qed.

Lemma CountRemaining_safe r st :
  reader_ok r -> store_ok st ->
  let (res, st') := CountRemainingInContainer r st in
  store_ok st' /\ match res with Ok _ => True | Err e => sane e end.
Proof.
  intros Hr Hst; unfold CountRemainingInContainer; destruct (mContainerType r =? kTLVType_NotSpecified); [done|].
  replace (Init_copy r) with r by (by destruct r).
  pose proof (budget_rest _ (reader_wf _ _ Hr Hst)) as Hb.
  pose proof (Count_loop_safe (S (budget (r, st))) 0 r st Hr Hst ltac:(lia)) as Hc.
  destruct (CountRemaining_loop _ _ _) as [[e n] s']; destruct Hc as [Hs He].
  split; [done|]; by case_bool_decide.
Qed.

(** The calls on the readers of a client: those of [call] on reader [i], and the ones
    that make a reader or look at the data in place. *)
Inductive action :=
| ACall (i : nat) (c : call)
| AVerifyEndOfContainer (i : nat)
| AOpenContainer (i : nat)
| ACloseContainer (i containerReader : nat)
| AFindElementWithTag (i : nat) (tag : Z)
| ACountRemainingInContainer (i : nat)
| AGetDataPtr (i : nat)
| AGetByteSpan (i : nat)
| AGetCharSpan (i : nat) (validate : bool).

(** The readers, in the order they were made, and what their store still holds. *)
Definition readers : Type := list t * list bytes.

(** A reader may be called until the store failed to give it the next buffer. *)
Definition usable (w : readers) (i : nat) : option t :=
  r ← w.1 !! i; match mWindow r with Within _ _ _ => Some r | Dangling _ => None end.

Definition on_reader (i : nat) (m : M St (list Z)) (w : readers) : option (result (list Z) * readers) :=
  r ← usable w i; let (res, s) := m (r, w.2) in Some (res, (<[i := s.1]> w.1, s.2)).

Definition perform (a : action) (w : readers) : option (result (list Z) * readers) :=
  match a with
  | ACall i c => on_reader i (run_call c) w
  | AVerifyEndOfContainer i => on_reader i (VerifyEndOfContainer ;; ret []) w
  | AOpenContainer i =>
      r ← usable w i;
      match OpenContainer (r, w.2) with
      | (Ok c, s) => Some (Ok [], (<[i := s.1]> w.1 ++ [c], s.2))
      | (Err e, s) => Some (Err e, (<[i := s.1]> w.1, s.2))
      end
  | ACloseContainer i j =>
      r ← usable w i; c ← usable w j;
      if (i =? j)%nat then None else
      let '(e, r', c', st) := CloseContainer r c w.2 in
      Some (if bool_decide (e = CHIP_NO_ERROR) then Ok [] else Err e, (<[i := r']> (<[j := c']> w.1), st))
  | AFindElementWithTag i tag =>
      r ← usable w i;
      match FindElementWithTag tag r w.2 with
      | (Ok d, st) => Some (Ok [], (w.1 ++ [d], st))
      | (Err e, st) => Some (Err e, (w.1, st))
      end
  | ACountRemainingInContainer i =>
      r ← usable w i;
      let (res, st) := CountRemainingInContainer r w.2 in
      Some (let* n := res in Ok [Z.of_nat n], (w.1, st))
  | AGetDataPtr i => on_reader i (let! r := self in lift (let* d := GetDataPtr r in Ok (default [] d))) w
  | AGetByteSpan i => on_reader i (let! r := self in lift (Get_ByteSpan r)) w
  | AGetCharSpan i validate => on_reader i (let! r := self in lift (Get_CharSpan validate r)) w
  end.

(** The replies to the calls; one that may not be made is left out. *)
Fixpoint replies (acts : list action) (w : readers) : list (result (list Z)) :=
  match acts with
  | [] => []
  | a :: acts =>
      match perform a w with
      | Some (res, w') => res :: replies acts w'
      | None => replies acts w
      end
  end.

Definition readers_ok (w : readers) : Prop := Forall reader_left w.1 /\ store_ok w.2.

Definition sane_result {A} (r : result A) : Prop := match r with Ok _ => True | Err e => sane e end.

Lemma usable_ok w i r : readers_ok w -> usable w i = Some r -> w.1 !! i = Some r /\ reader_ok r.
Proof.
  intros [Hw _]; unfold usable; destruct (w.1 !! i) as [r'|] eqn:E; [|done]; cbn [mbind option_bind].
  destruct (mWindow r') eqn:Er; [|done]; intros [= <-]; split; [done|].
  destruct (Forall_lookup_1 _ _ _ _ Hw E) as [|[b Hb]]; [done|by rewrite Hb in Er].
Qed.

Lemma Forall_append {A} (P : A -> Prop) l x : Forall P l -> P x -> Forall P (l ++ [x]).
Proof. intros; apply Forall_app; split; [done|]; by constructor. Qed.

Lemma on_reader_safe i m w res w' :
  tame m -> readers_ok w -> on_reader i m w = Some (res, w') -> readers_ok w' /\ sane_result res.
Proof.
  intros Hm Hw; unfold on_reader; destruct (usable w i) as [r|] eqn:Eu; [|done]; cbn [mbind option_bind].
  destruct (usable_ok _ _ _ Hw Eu) as [Hi Hr]; destruct Hw as [Hrs Hst].
  destruct (Hm r w.2 Hr Hst) as (H1 & H2 & H3); destruct (m (r, w.2)) as [res' s]; intros [= <- <-].
  split; [|done]; split; [by apply Forall_insert|done].
Qed.

Lemma tame_ret {A B} (m : M St A) (b : B) : tame m -> tame (m ;; ret b).
Proof.
  intros Hm r st Hr Hst; specialize (Hm r st Hr Hst); unfold bind.
  by destruct (m (r, st)) as [[]].
Qed.

Lemma tame_pure {A} (f : t -> result A) :
  (forall r, reader_ok r -> sane_result (f r)) -> tame (let! r := self in lift (f r)).
Proof.
  intros Hf r st Hr Hst; specialize (Hf r Hr); unfold bind, self, lift; cbn [fst snd].
  by split; [left|].
Qed.

Lemma GetDataPtr_sane r : reader_ok r -> sane_result (GetDataPtr r).
Proof.
  intros [(buf & rp & be & Hw & _) _]; unfold GetDataPtr; rewrite Hw; by repeat case_match.
Qed.

Lemma Get_ByteSpan_sane r : reader_ok r -> sane_result (Get_ByteSpan r).
Proof. intros H%GetDataPtr_sane; unfold Get_ByteSpan; by destruct (GetDataPtr r) as [[]|]. Qed.

Lemma Get_CharSpan_sane validate r : reader_ok r -> sane_result (Get_CharSpan validate r).
Proof.
  intros H%GetDataPtr_sane; unfold Get_CharSpan; destruct (TLVTypeIsUTF8String _); [|done].
  destruct (GetDataPtr r) as [[]|]; [|done..]; by repeat case_match.
Qed.

Lemma OpenContainer_safe r st :
  reader_ok r ->
  match OpenContainer (r, st) with
  | (Ok c, s) => reader_ok c /\ reader_ok s.1 /\ s.2 = st
  | (Err e, s) => sane e /\ s = (r, st)
  end.
Proof.
  intros Hr; unfold OpenContainer, bind, self, verify; cbn [fst].
  destruct (TLVTypeIsContainer _); cbn [ret fail]; [|done]; split_and!; [|by apply reader_place|done].
  by apply (reader_place (fun r => SetContainerOpen false (set_container (ElementType r) (ClearElementState r)))).
Qed.

Lemma CloseContainer_safe r c st :
  reader_ok r -> reader_ok c -> store_ok st ->
  let '(e, r', c', st') := CloseContainer r c st in
  reader_left r' /\ reader_left c' /\ store_ok st' /\ (e = CHIP_NO_ERROR \/ sane e).
Proof.
  intros Hr Hc Hst; pose proof (tame_SkipToEnd c st Hc Hst) as (H1 & H2 & H3).
  assert (reader_left r) by (by left); assert (reader_left c) by (by left).
  assert (sane CHIP_ERROR_INCORRECT_STATE) by done.
  unfold CloseContainer; destruct (IsContainerOpen r); cbn [negb]; [|by auto 10].
  destruct (_ =? _); cbn [negb]; [|by auto 10].
  destruct (SkipToEndOfContainer (c, st)) as [[[]|e] [c' st']]; cbn [fst snd] in *; [|by auto 10].
  split_and!; [exact H1|by auto..].
Qed.

Lemma perform_safe a w res w' :
  readers_ok w -> perform a w = Some (res, w') -> readers_ok w' /\ sane_result res.
Proof.
  intros Hw; destruct a as [i c|i|i|i j|i tag|i|i|i|i validate]; cbn [perform].
  - by apply on_reader_safe, Hw; apply tame_call.
  - by apply on_reader_safe, Hw; apply tame_ret, tame_VerifyEnd.
  - destruct (usable w i) as [r|] eqn:E; [|done]; cbn [mbind option_bind].
    destruct (usable_ok _ _ _ Hw E) as [_ Hr]; destruct Hw as [Hrs Hst].
    pose proof (OpenContainer_safe r w.2 Hr) as Ho.
    destruct (OpenContainer (r, w.2)) as [[c|e] s]; intros [= <- <-].
    + destruct Ho as (Hc & Hr' & ->); split; [|done]; split; [|done].
      apply Forall_append; [apply Forall_insert; [done|]|]; by left.
    + destruct Ho as [He ->]; split; [|done]; split; [|done]; by apply Forall_insert; [|left].
  - destruct (usable w i) as [r|] eqn:Ei; [|done]; cbn [mbind option_bind].
    destruct (usable w j) as [c|] eqn:Ej; [|done]; cbn [mbind option_bind].
    destruct (usable_ok _ _ _ Hw Ei) as [_ Hr], (usable_ok _ _ _ Hw Ej) as [_ Hc], Hw as [Hrs Hst].
    destruct (i =? j)%nat; [done|]; pose proof (CloseContainer_safe r c w.2 Hr Hc Hst) as Hcl.
    destruct (CloseContainer r c w.2) as [[[e r'] c'] st]; destruct Hcl as (? & ? & ? & He); intros [= <- <-].
    split; [split; [by repeat apply Forall_insert|done]|]; case_bool_decide; [done|]; by destruct He.
  - destruct (usable w i) as [r|] eqn:E; [|done]; cbn [mbind option_bind].
    destruct (usable_ok _ _ _ Hw E) as [_ Hr]; destruct Hw as [Hrs Hst].
    pose proof (FindElementWithTag_safe tag r w.2 Hr Hst) as Hf.
    destruct (FindElementWithTag tag r w.2) as [[d|e] st]; destruct Hf as [Hst' Hd]; intros [= <- <-];
      (split; [split|]; try done).
    by apply Forall_append; [|left].
  - destruct (usable w i) as [r|] eqn:E; [|done]; cbn [mbind option_bind].
    destruct (usable_ok _ _ _ Hw E) as [_ Hr]; destruct Hw as [Hrs Hst].
    pose proof (CountRemaining_safe r w.2 Hr Hst) as Hf.
    destruct (CountRemainingInContainer r w.2) as [[n|e] st]; destruct Hf as [Hst' Hd]; intros [= <- <-];
      by split; [split|].
  - apply on_reader_safe, Hw; apply (tame_pure (fun r => let* d := GetDataPtr r in Ok (default [] d))).
    intros r Hr; pose proof (GetDataPtr_sane r Hr) as Hd; by destruct (GetDataPtr r).
  - apply on_reader_safe, Hw; apply tame_pure, Get_ByteSpan_sane.
  - apply on_reader_safe, Hw; apply tame_pure, Get_CharSpan_sane.
Qed.

Lemma initial_readers s : initial s -> readers_ok ([s.1], s.2).
Proof.
  intros Hi; pose proof (wf_reader _ (initial_wf _ Hi)) as Hr; split; [by constructor; [left|constructor]|].
  destruct Hi as [|head bufs maxLen r _ Hb Hl]; [constructor|]; cbn [snd] in *.
  clear Hr; induction Hl as [|b bufs Hl Hls IH]; [constructor|].
  cbn [concat] in Hb; apply bytes_ok_app in Hb as [Hb Hbs]; constructor; [done|by apply IH].
Qed.

(** C20: The reader is safe on any input: whatever bytes it is given, in one buffer or
    in a chain whose first buffer is within the length limit, a client may make any
    sequence of calls on it and on the readers it gets from OpenContainer and
    FindElementWithTag, in any order and with any arguments. No call reads outside the
    current buffer, and every loop ends within its fuel, the number of bytes not yet
    read. The one call that is left out is one on a reader to which the backing store
    failed to give the next buffer: its read point is stale
    ([stale_read_point_followed]). *)
Theorem reader_safe s acts e (Hinit : initial s) :
  Err e ∈ replies acts ([s.1], s.2) -> e <> UNDEFINED_BEHAVIOUR /\ e <> CHIP_ERROR_INTERNAL.
Proof.
  apply initial_readers in Hinit; revert Hinit; generalize ([s.1], s.2) as w; clear s.
  induction acts as [|a acts IH]; intros w Hw; cbn [replies]; [by rewrite elem_of_nil|].
  destruct (perform a w) as [[res w']|] eqn:E; [|by apply IH].
  destruct (perform_safe a w res w' Hw E) as [Hw' Hs]; rewrite elem_of_cons; intros [<-|Hin]; [done|].
  by apply (IH w').
Qed.

End Theorems.

#[local] Existing Instances reference_byte_order little_endian_host.

(** A structure cut inside its tag, inside a string, and between elements. *)
Definition example_chain : bytes * list bytes :=
  ([0x15; 0x30], [[1; 3; 97]; [98; 99; 0x25; 2; 1]; [2; 0x18]]).

Lemma reader_chunk_independent_witness :
  exists r, Init_store (fst example_chain) 12 = Ok r /\
    same_replies
      (run [CNext; CEnter; CNext; CGetBytes 8; CNext; CNext; CExit (-1); CNext] (r, (snd example_chain)))
      (run [CNext; CEnter; CNext; CGetBytes 8; CNext; CNext; CExit (-1); CNext]
         (Init ((fst example_chain) ++ concat (snd example_chain)), [])).
Proof.
  apply (reader_chunk_independent (fst example_chain) (snd example_chain)
           [CNext; CEnter; CNext; CGetBytes 8; CNext; CNext; CExit (-1); CNext]).
  - unfold bytes_ok; apply (bool_decide_unpack _); vm_compute; exact I.
  - repeat constructor; discriminate.
  - vm_compute; reflexivity.
Defined.

(** A hostile input, a string longer than its buffer: the container is opened, the
    string read by every call and looked for. *)
Lemma reader_safe_witness :
  let s := (Init [0x15; 0x31; 7; 0xFF; 0xFF; 1], []) in
  let calls := [ACall 0 CNext; AOpenContainer 0; ACall 1 CNext; AGetByteSpan 1; ACall 1 (CGetBytes 9);
                AFindElementWithTag 0 7; ACountRemainingInContainer 1; ACloseContainer 0 1] in
  Err CHIP_ERROR_TLV_UNDERRUN ∈ replies calls ([s.1], s.2) /\
  CHIP_ERROR_TLV_UNDERRUN <> UNDEFINED_BEHAVIOUR /\ CHIP_ERROR_TLV_UNDERRUN <> CHIP_ERROR_INTERNAL.
Proof.
  intros s calls.
  assert (Hin : Err CHIP_ERROR_TLV_UNDERRUN ∈ replies calls ([s.1], s.2)).
  { vm_compute; do 3 right; left. }
  split; [exact Hin|]; apply (reader_safe s calls); [|exact Hin].
  constructor; unfold bytes_ok; apply (bool_decide_unpack _); vm_compute; exact I.
Defined.

(** ** Where the reader does not do what its interface says *)

(** A truncated encoding passes for a complete one: when the input ends
    inside a container right after the end of a nested container, [Next] answers
    [CHIP_END_OF_TLV], not [CHIP_ERROR_TLV_UNDERRUN], and leaves the reader on
    the end marker of the nested container, so [ExitContainer] succeeds too; a
    client gets the same replies as from the complete encoding. *)
Theorem truncated_container_accepted :
  let complete := [0x15; 0x36; 1; 0x15; 0x18; 0x18; 0x18] in
  let truncated := take 5 complete in
  let calls := [CNext; CEnter; CNext; CNext; CExit kTLVType_NotSpecified] in
  status <$> run calls (Init truncated, []) = status <$> run calls (Init complete, []) /\
  status <$> run calls (Init truncated, []) =
    [CHIP_NO_ERROR; CHIP_NO_ERROR; CHIP_NO_ERROR; CHIP_END_OF_TLV; CHIP_NO_ERROR].
Proof. split; vm_compute; reflexivity. Qed.

(** [Init(backingStore, maxLen)] does not hold the first buffer to [maxLen], and
    once the limit is passed the later buffers are not held to it either. *)
Theorem first_buffer_ignores_limit :
  exists r s, Init_store [0x04; 7] 1 = Ok r /\
    (Next ;; Next) (r, [[0x04; 8]]) = (Ok tt, s) /\
    Get_uint8 s.1 = Ok 8 /\ GetTotalLength s.1 = 1 /\ GetLengthRead s.1 = 4.
Proof. eexists _, _; split; [reflexivity|]; split; [vm_compute; reflexivity|]; split_and!; reflexivity. Qed.

(** After the store reported the end of the input the read point is stale:
    a second [Next] after [CHIP_ERROR_TLV_UNDERRUN] follows it. *)
Theorem stale_read_point_followed :
  exists r s1 s2 s3, Init_store [0x10; 3; 97] (2 ^ 32 - 1) = Ok r /\
    Next (r, []) = (Ok tt, s1) /\
    Next s1 = (Err CHIP_ERROR_TLV_UNDERRUN, s2) /\
    Next s2 = (Err UNDEFINED_BEHAVIOUR, s3).
Proof.
  eexists _, _, _, _; split; [vm_compute; reflexivity|].
  split; [vm_compute; reflexivity|].
  split; [vm_compute; reflexivity|].
  vm_compute; reflexivity.
Qed.

(** A string in two buffers cannot be looked at in place; in one it can. *)
Theorem span_depends_on_buffers :
  exists r s1 s2, Init_store [0x10; 2; 97] 4 = Ok r /\
    Next (r, [[98]]) = (Ok tt, s1) /\ Get_ByteSpan s1.1 = Err CHIP_ERROR_TLV_UNDERRUN /\
    Next (Init [0x10; 2; 97; 98], []) = (Ok tt, s2) /\ Get_ByteSpan s2.1 = Ok [97; 98].
Proof.
  eexists _, _, _; split; [vm_compute; reflexivity|].
  split; [vm_compute; reflexivity|]; split; [vm_compute; reflexivity|].
  split; [vm_compute; reflexivity|]; vm_compute; reflexivity.
Qed.

(** On a big-endian processor the value of an element is read with its bytes
    swapped: the result of [HostSwap] is not used. *)
Theorem big_endian_value_swapped :
  exists s, @Next reference_byte_order big_endian_host (Init [0x05; 1; 0], []) = (Ok tt, s) /\
            Get_uint64 s.1 = Ok (2 ^ 56).
Proof. eexists; split; [vm_compute; reflexivity|]; reflexivity. Qed.
