(* ===== verification/TlvCodec.v ===== *)
(** * TlvCodec: what is written is read back

    Theorems that join the TLV writer (TlvWriter.v) and reader (TlvReader.v)
    through a tree of elements, [tlv].

    - [encode] is the reference encoding of an element; [write_element] and
      [read_members] are clients that walk a tree with the operations of the two
      classes;
    - [write_element_spec]: the writer produces [encode] when there is room;
    - [read_members_spec]: the reader gives the tree back, from any reader state
      whose view holds its encoding;
    - [tlv_roundtrip], [skip_passes_element]: the properties. *)

From S2P Require Import Prelude Encoding Utf8 TlvTypes TlvReader TlvWriter TlvStream.

(** ** Trees and their encoding *)

Inductive tlv :=
| TInt (v : Z)
| TUInt (v : Z)
| TBool (b : bool)
| TFloat (bits : Z)
| TDouble (bits : Z)
| TUtf8 (s : bytes)
| TBytes (s : bytes)
| TNull
| TContainer (ty : Z) (members : list (Z * tlv)).

(** The narrowest element type of an integer, the length field of a string. *)
Definition int_type (v : Z) : Z :=
  if (- 2 ^ 7 <=? v) && (v <=? 2 ^ 7 - 1) then Int8
  else if (- 2 ^ 15 <=? v) && (v <=? 2 ^ 15 - 1) then Int16
  else if (- 2 ^ 31 <=? v) && (v <=? 2 ^ 31 - 1) then Int32
  else Int64.
Definition uint_type (v : Z) : Z :=
  if v <=? 2 ^ 8 - 1 then UInt8
  else if v <=? 2 ^ 16 - 1 then UInt16
  else if v <=? 2 ^ 32 - 1 then UInt32
  else UInt64.
Definition string_type (type len : Z) : Z :=
  Z.lor type (if len <=? 2 ^ 8 - 1 then kTLVFieldSize_1Byte
              else if len <=? 2 ^ 16 - 1 then kTLVFieldSize_2Byte
              else kTLVFieldSize_4Byte).

(** The element type and the length or value in the head. *)
Definition head_of (v : tlv) : Z * Z :=
  match v with
  | TInt v => (int_type v, wrap 64 v)
  | TUInt v => (uint_type v, v)
  | TBool b => (if b then BooleanTrue else BooleanFalse, 0)
  | TFloat bits => (FloatingPointNumber32, bits)
  | TDouble bits => (FloatingPointNumber64, bits)
  | TUtf8 s => (string_type kTLVType_UTF8String (Z.of_nat (length s)), Z.of_nat (length s))
  | TBytes s => (string_type kTLVType_ByteString (Z.of_nat (length s)), Z.of_nat (length s))
  | TNull => (Null, 0)
  | TContainer ty _ => (ty, 0)
  end.

Section Encoding.
Context (p : Z).

Fixpoint encode (tag : Z) (v : tlv) : bytes :=
  element_head p (fst (head_of v)) tag (snd (head_of v)) ++
  match v with
  | TUtf8 s | TBytes s => s
  | TContainer _ members =>
      concat (map (fun m => encode (fst m) (snd m)) members) ++ [EndOfContainer]
  | _ => []
  end.

Definition encode_members (ms : list (Z * tlv)) : bytes :=
  concat (map (fun m => encode (fst m) (snd m)) ms).
End Encoding.

(** A tag the encoding distinguishes: the special tags are the context tags and
    the anonymous one. *)
Definition plain_tag (tag : Z) : Prop :=
  is_u64 tag /\ (IsSpecialTag tag = true -> TagNumFromTag tag <= kAnonymousTagNum).

Definition known_container (ct : Z) : Prop :=
  ct = kTLVType_NotSpecified \/ ct = kTLVType_Structure \/ ct = kTLVType_Array \/ ct = kTLVType_List.

(** The elements a client may write in a container of type [ct]. *)
Inductive valid (validate : bool) : Z -> Z -> tlv -> Prop :=
| valid_leaf ct tag v :
    plain_tag tag -> tag_allowed ct (fst (head_of v)) tag = true ->
    match v with
    | TInt v => - 2 ^ 63 <= v < 2 ^ 63
    | TUInt v | TDouble v => is_u64 v
    | TFloat v => is_u32 v
    | TUtf8 s => bytes_ok s /\ Z.of_nat (length s) < 2 ^ 32 /\
                 (validate = true -> Utf8_IsValid s = true /\ last s 1 <> 0)
    | TBytes s => bytes_ok s /\ Z.of_nat (length s) < 2 ^ 32
    | TContainer _ _ => False
    | _ => True
    end -> valid validate ct tag v
| valid_container ct tag ty ms :
    plain_tag tag -> tag_allowed ct ty tag = true -> TLVTypeIsContainer ty = true ->
    Forall (fun m => valid validate ty (fst m) (snd m)) ms ->
    valid validate ct tag (TContainer ty ms).

(** ** The clients *)

Section Clients.
Context (validate : bool).

Fixpoint write_element (tag : Z) (v : tlv) : M TLVWriter.St unit :=
  match v with
  | TInt v => TLVWriter.Put_int64 tag v
  | TUInt v => TLVWriter.Put_uint64 tag v
  | TBool b => TLVWriter.PutBoolean tag b
  | TFloat bits => TLVWriter.Put_float tag bits
  | TDouble bits => TLVWriter.Put_double tag bits
  | TUtf8 s => TLVWriter.PutString validate tag s
  | TBytes s => TLVWriter.Put_ByteSpan tag s
  | TNull => TLVWriter.PutNull tag
  | TContainer ty ms =>
      let! outer := TLVWriter.StartContainer tag ty in
      (fix go ms :=
         match ms with
         | [] => ret tt
         | m :: ms => write_element (fst m) (snd m) ;; go ms
         end) ms ;;
      TLVWriter.EndContainer outer
  end.

Fixpoint write_members (ms : list (Z * tlv)) : M TLVWriter.St unit :=
  match ms with
  | [] => ret tt
  | m :: ms => write_element (fst m) (snd m) ;; write_members ms
  end.

Context `{BO : ByteOrder} `{HO : Host}.

(** The element the reader is on; [members] reads those of a container. *)
Definition read_value (members : M TLVReader.St (list (Z * tlv))) : M TLVReader.St (Z * tlv) :=
  let! r := TLVReader.self in
  let tag := TLVReader.GetTag r in
  let ty := TLVReader.GetType r in
  if ty =? kTLVType_SignedInteger then
    let! v := lift (TLVReader.Get_int64 r) in ret (tag, TInt v)
  else if ty =? kTLVType_UnsignedInteger then
    let! v := lift (TLVReader.Get_uint64 r) in ret (tag, TUInt v)
  else if ty =? kTLVType_Boolean then
    let! v := lift (TLVReader.Get_bool r) in ret (tag, TBool v)
  else if ty =? kTLVType_FloatingPointNumber then
    let! v := lift (TLVReader.Get_double r) in
    ret (tag, match v with TLVReader.Float b => TFloat b | TLVReader.Double b => TDouble b end)
  else if ty =? kTLVType_UTF8String then
    let! v := TLVReader.GetBytes (TLVReader.GetLength r) in ret (tag, TUtf8 v)
  else if ty =? kTLVType_ByteString then
    let! v := TLVReader.GetBytes (TLVReader.GetLength r) in ret (tag, TBytes v)
  else if ty =? kTLVType_Null then ret (tag, TNull)
  else
    let! outer := TLVReader.EnterContainer in
    let! ms := members in
    TLVReader.ExitContainer outer ;;
    ret (tag, TContainer ty ms).

(** The elements up to the end of the container or of the input. *)
Fixpoint read_members (fuel : nat) : M TLVReader.St (list (Z * tlv)) :=
  match fuel with
  | O => fail CHIP_ERROR_INTERNAL
  | S fuel => fun s =>
      match TLVReader.Next s with
      | (Err CHIP_END_OF_TLV, s) => (Ok [], s)
      | (Err e, s) => (Err e, s)
      | (Ok _, s) =>
          (let! m := read_value (read_members fuel) in
           let! ms := read_members fuel in
           ret (m :: ms)) s
      end
  end.
End Clients.

(** ** The writer produces the encoding *)

Lemma head_type_range validate ct tag v : valid validate ct tag v -> 0 <= fst (head_of v) < 24.
Proof.
  destruct 1 as [ct tag v _ _ Hv|ct tag ty ms _ _ Hty _].
  - destruct v; cbn [head_of fst]; try done; unfold int_type, uint_type, string_type;
      repeat case_match; vm_compute; split; discriminate || reflexivity.
  - revert Hty; unfold TLVTypeIsContainer, Structure, List; cbn [head_of fst].
    rewrite andb_true_iff, !Z.leb_le; lia.
Qed.

(** A string is a head and its bytes. *)
Lemma write_data_spec type tag data s :
  type = kTLVType_UTF8String \/ type = kTLVType_ByteString -> TlvWriter.wf s ->
  let v := Z.of_nat (length data) in let p := TLVWriter.ImplicitProfileId s.1 in
  let out := element_head p (string_type type v) tag v ++ data in
  tag_allowed (TLVWriter.mContainerType s.1) (string_type type v) tag = true ->
  Z.of_nat (length out) <= room s.1 ->
  TLVWriter.WriteElementWithData type tag data s = (Ok tt, written out s).
Proof.
  intros Ht Hw v p out Hal Hlen; unfold TLVWriter.WriteElementWithData.
  unfold bind at 1, TLVWriter.self at 1; rewrite (proj1 (proj1 Hw)).
  unfold bind at 1 2, verify at 1 2, ret at 1 2.
  replace (Z.land type kTLVTypeSizeMask =? 0) with true by by destruct Ht as [-> | ->].
  replace (wrap 8 type) with type by by destruct Ht as [-> | ->].
  fold v; fold (string_type type v).
  assert (He : 0 <= string_type type v < 32).
  { unfold string_type; destruct Ht as [-> | ->]; repeat case_match; vm_compute;
      split; discriminate || reflexivity. }
  subst out; rewrite length_app in Hlen.
  rewrite (bind_ok _ _ _ _ _ (WriteElementHead_ok (string_type type v) tag v s He Hw Hal
    ltac:(fold p; lia))); fold p.
  set (head := element_head p (string_type type v) tag v) in *.
  assert (Hw' : TlvWriter.wf (written head s)) by (apply wf_written; [done|lia]).
  rewrite WriteData_ok; [|done|unfold room, written in *; cbn; lia].
  f_equal; apply written_app.
  destruct Hw as (_ & ? & _ & ? & ?); unfold room in *; lia.
Qed.

Lemma fold_write_members validate ty tag ms :
  write_element validate tag (TContainer ty ms) =
  (let! outer := TLVWriter.StartContainer tag ty in
   write_members validate ms ;; TLVWriter.EndContainer outer).
Proof. done. Qed.

(** What a client of the writer relies on between elements. *)
Definition writing (s : TLVWriter.St) : Prop :=
  TlvWriter.wf s /\ TLVWriter.mCloseContainerReserved s.1 = true /\
  TLVWriter.mMaxLen s.1 + 17 < 2 ^ 32.

Lemma writing_written l s : writing s -> Z.of_nat (length l) <= room s.1 -> writing (written l s).
Proof. intros (Hw & Hr & Hm) Hl; split_and!; [by apply wf_written|done|done]. Qed.

(** Induction on trees, members included. *)
Lemma tlv_tree_ind (P : tlv -> Prop) :
  (forall v, (forall ty ms, v <> TContainer ty ms) -> P v) ->
  (forall ty ms, Forall (fun m => P (snd m)) ms -> P (TContainer ty ms)) ->
  forall v, P v.
Proof.
  intros Hleaf Hcont; fix IH 1; intros [ | | | | | | | |ty ms]; try (apply Hleaf; done).
  apply Hcont; induction ms as [|[tag v] ms IHms]; constructor; [apply IH|exact IHms].
Qed.

(** Leaving a container gives back the byte entering it kept. *)
Lemma outside_inside ct ty l s :
  ready s.1 -> TLVWriter.mContainerType s.1 = ct ->
  outside ct (written l (inside ty s)) = written l s.
Proof.
  destruct s as [[] mem]; unfold ready, outside, written, inside, TLVWriter.IsContainerOpen; cbn.
  intros [_ ->] ->; unfold TLVWriter.set_maxLen, TLVWriter.set_container, TLVWriter.set_position; cbn.
  f_equal; f_equal; lia.
Qed.

Lemma room_inside ty l s :
  room (inside ty (written l s)).1 = room s.1 - Z.of_nat (length l) - 1.
Proof. unfold room, inside, written; cbn; lia. Qed.

Lemma writing_inside ty l s :
  writing s -> Z.of_nat (length l) + 1 <= room s.1 -> writing (inside ty (written l s)).
Proof.
  intros Hs Hl; pose proof (writing_written l s Hs ltac:(lia)) as ((Hr & H1 & H2 & H3 & H4) & Hc & Hm).
  unfold writing, TlvWriter.wf, inside, room, written, ready in *; cbn in *.
  split_and!; try apply Hr; try done; lia.
Qed.

Definition element_spec (validate : bool) (v : tlv) : Prop :=
  forall tag s, writing s -> valid validate (TLVWriter.mContainerType s.1) tag v ->
  let out := encode (TLVWriter.ImplicitProfileId s.1) tag v in
  Z.of_nat (length out) <= room s.1 ->
  write_element validate tag v s = (Ok tt, written out s).

Lemma write_members_gen validate ms s :
  Forall (fun m => element_spec validate (snd m)) ms -> writing s ->
  Forall (fun m => valid validate (TLVWriter.mContainerType s.1) (fst m) (snd m)) ms ->
  let out := encode_members (TLVWriter.ImplicitProfileId s.1) ms in
  Z.of_nat (length out) <= room s.1 -> write_members validate ms s = (Ok tt, written out s).
Proof.
  intros IH; revert s; induction IH as [|m ms Hm IH IHms]; intros s Hs Hms; cbv zeta; cbn [write_members].
  - by rewrite written_nil.
  - apply Forall_cons_1 in Hms as [Hvm Hms]; unfold encode_members in *; cbn [map concat] in *.
    rewrite length_app; intros Hroom; specialize (Hm (fst m) s Hs Hvm); cbv zeta in Hm.
    rewrite (bind_ok _ _ _ _ _ (Hm ltac:(lia))).
    set (e := encode _ (fst m) (snd m)) in *.
    pose proof (writing_written e s Hs ltac:(lia)) as Hs2.
    specialize (IHms (written e s) Hs2 Hms); cbv zeta in IHms.
    rewrite IHms by (unfold room, written in *; cbn; lia).
    f_equal; apply written_app.
    destruct Hs as ((_ & ? & _ & ? & ?) & _); unfold room in *; lia.
Qed.

Lemma write_element_spec validate v : element_spec validate v.
Proof.
  induction v as [v Hleaf|ty ms IH] using tlv_tree_ind; intros tag s Hs Hv.
  - pose proof (head_type_range _ _ _ _ Hv) as Hty; pose proof Hs as (Hw & _).
    inversion Hv as [? ? ? _ Hal Hval|]; subst; [|by edestruct Hleaf].
    assert (Hh : let head := element_head (TLVWriter.ImplicitProfileId s.1) (fst (head_of v)) tag (snd (head_of v)) in
      Z.of_nat (length head) <= room s.1 ->
      TLVWriter.WriteElementHead (fst (head_of v)) tag (snd (head_of v)) s = (Ok tt, written head s))
      by (intros; apply WriteElementHead_ok; try done; lia).
    destruct v; cbn [encode write_element head_of fst snd] in *; rewrite ?app_nil_r;
      intros Hlen; try done; try exact (Hh Hlen).
    + destruct Hval as (_ & Hl & Hu); unfold TLVWriter.PutString, TLVWriter.PutString_len.
      unfold bind at 1 2 3, verify; rewrite (proj2 (Z.ltb_lt _ _)) by done; unfold ret.
      assert (negb validate || Utf8_IsValid s0 = true) as ->.
      { destruct validate; [cbn; by apply Hu|done]. }
      assert (negb (validate && (0 <? length s0)%nat && (last s0 1 =? 0)) = true) as ->.
      { destruct validate; [|done]; rewrite (proj2 (Z.eqb_neq _ _)) by (by apply Hu).
        by rewrite andb_false_r. }
      by apply write_data_spec; [left| | |].
    + destruct Hval as (_ & Hl); unfold TLVWriter.Put_ByteSpan.
      unfold bind at 1, verify; rewrite (proj2 (Z.ltb_lt _ _)) by done.
      by apply write_data_spec; [right| | |].
  - intros out Hlen; rewrite fold_write_members.
    inversion Hv as [? ? ? _ _ Hval|? ? ? ? _ Hal Hty Hms]; subst; [done|].
    set (p := TLVWriter.ImplicitProfileId s.1) in *.
    set (head := element_head p ty tag 0) in *.
    assert (Hout : out = head ++ encode_members p ms ++ [EndOfContainer]) by done.
    clearbody out; subst out; rewrite !length_app in Hlen; cbn [length] in Hlen.
    pose proof Hs as (Hw & Hres & Hm).
    pose proof (StartContainer_cases tag ty s Hw Hres Hm) as Hsc; cbv zeta in Hsc.
    fold p head in Hsc; rewrite Hty, Hal, (proj2 (Z.leb_le _ _)) in Hsc by lia; cbn [andb] in Hsc.
    rewrite (bind_ok _ _ _ _ _ Hsc); clear Hsc.
    pose proof (writing_inside ty head s Hs ltac:(lia)) as Hs1.
    pose proof (write_members_gen validate ms _ IH Hs1 Hms) as Hmem; cbv zeta in Hmem.
    change (TLVWriter.ImplicitProfileId (inside ty (written head s)).1) with p in Hmem.
    rewrite room_inside in Hmem; specialize (Hmem ltac:(lia)).
    rewrite (bind_ok _ _ _ _ _ Hmem); clear Hmem IH Hms.
    set (s1 := inside ty (written head s)) in *.
    assert (Hlm : Z.of_nat (length (encode_members p ms)) <= room s1.1)
      by (subst s1; rewrite room_inside; lia).
    pose proof (writing_written (encode_members p ms) s1 Hs1 Hlm) as (Hw2 & Hres2 & Hm2).
    destruct (EndContainer_ok (TLVWriter.mContainerType s.1) (written (encode_members p ms) s1))
      as [E _]; try done; [lia| |].
    { destruct Hw as (_ & ? & _ & ? & _); unfold s1, room, written, inside in *; cbn in *; lia. }
    rewrite E; f_equal; subst s1; rewrite outside_inside by (done || apply Hw).
    destruct Hw as (_ & ? & _ & ? & ?); unfold room in *.
    by rewrite (written_app head), written_app, <-app_assoc
      by (rewrite ?length_app; cbn [length]; lia).
Qed.

(** ** The reader takes the encoding apart *)

(** The control byte holds the tag control and the element type apart. *)
Definition tag_controls : list Z :=
  [Anonymous; ContextSpecific; CommonProfile_2Bytes; CommonProfile_4Bytes;
   ImplicitProfile_2Bytes; ImplicitProfile_4Bytes; FullyQualified_6Bytes; FullyQualified_8Bytes].

Lemma control_byte c e :
  c ∈ tag_controls -> 0 <= e < 32 ->
  Z.land (Z.lor c e) kTLVTypeMask = e /\ Z.land (Z.lor c e) kTLVTagControlMask = c /\
  is_u8 (Z.lor c e) /\
  TLVReader.tag_bytes (Z.lor c e) = nth (Z.to_nat (Z.shiftr c 5)) TLVReader.sTagSizes 0%nat.
Proof.
  intros Hc He.
  set (ok e := forallb (fun c =>
    (Z.land (Z.lor c e) kTLVTypeMask =? e) && (Z.land (Z.lor c e) kTLVTagControlMask =? c) &&
    (0 <=? Z.lor c e) && (Z.lor c e <? 256)) tag_controls).
  assert (Hok : ok e = true) by (by apply element_type_cases).
  unfold ok in Hok; rewrite forallb_forall in Hok.
  specialize (Hok c (proj1 (list_elem_of_In _ _) Hc)).
  rewrite !andb_true_iff, !Z.eqb_eq, Z.leb_le, Z.ltb_lt in Hok.
  destruct Hok as [[[H1 H2] H3] H4].
  unfold TLVReader.tag_bytes; rewrite H2; split_and!; try done; lia.
Qed.

Lemma tag_field_control p tag : fst (tag_field p tag) ∈ tag_controls.
Proof.
  unfold tag_field, tag_controls.
  destruct (IsSpecialTag tag), (TagNumFromTag tag <=? kContextTagMaxNum),
    (ProfileIdFromTag tag =? kCommonProfileId), (ProfileIdFromTag tag =? p),
    (TagNumFromTag tag <=? 65535); cbn [fst];
    apply (bool_decide_unpack _); vm_compute; exact I.
Qed.

Lemma length_tag_field_bytes p tag :
  length (snd (tag_field p tag)) =
  nth (Z.to_nat (Z.shiftr (fst (tag_field p tag)) 5)) TLVReader.sTagSizes 0%nat.
Proof.
  unfold tag_field.
  destruct (IsSpecialTag tag), (TagNumFromTag tag <=? kContextTagMaxNum),
    (ProfileIdFromTag tag =? kCommonProfileId), (ProfileIdFromTag tag =? p),
    (TagNumFromTag tag <=? 65535); cbn [fst snd];
    rewrite ?length_app, ?length_le_split; reflexivity.
Qed.

Lemma mem_read_skip k n d l : length d = k -> mem_read k n (d ++ l) = mem_read 0 n l.
Proof. intros; unfold mem_read; by rewrite drop_app_length'. Qed.

Lemma mem_read_skip2 k n d1 d2 l :
  length (d1 ++ d2) = k -> mem_read k n (d1 ++ d2 ++ l) = mem_read 0 n l.
Proof. rewrite app_assoc; apply mem_read_skip. Qed.

Lemma mem_read_front n d l : length d = n -> mem_read 0 n (d ++ l) = d.
Proof. intros; unfold mem_read; rewrite drop_0; by apply take_app_length'. Qed.

Section Reading.
Context `{BO : ByteOrder} `{HO : Host} (LE : big_endian = false).

Lemma host_load64_le l : TLVReader.host_load64 l = le_combine l.
Proof. unfold TLVReader.host_load64; by rewrite LE. Qed.

(** [ReadTag] undoes [tag_field]. *)
Lemma ReadTag_field r p tag :
  plain_tag tag -> TLVReader.ImplicitProfileId r = p ->
  TLVReader.ReadTag r (fst (tag_field p tag)) (snd (tag_field p tag)) = tag.
Proof.
  intros [Hu Hs] Hp; unfold tag_field, TLVReader.ReadTag; rewrite Hp.
  pose proof (TagNum_range tag) as Hn; pose proof (ProfileId_range tag) as Hpr.
  pose proof (ProfileTag_eta tag Hu) as Heta.
  assert (Hget : forall n v, nl_le_get (mem_read 0 n (le_split n v)) = v mod 2 ^ (8 * Z.of_nat n)).
  { intros n v; rewrite nl_le_get_spec, <-le_combine_split; f_equal.
    unfold mem_read; rewrite drop_0, take_ge; [done|by rewrite length_le_split]. }
  assert (Hnum : forall n, (2 <= n)%nat -> is_uint (8 * Z.of_nat n) (TagNumFromTag tag) ->
    nl_le_get (mem_read 0 n (le_split n (TagNumFromTag tag))) = TagNumFromTag tag)
    by (intros n _ H; rewrite Hget; by apply Z.mod_small).
  destruct (IsSpecialTag tag) eqn:Esp.
  - unfold IsSpecialTag in Esp; apply Z.eqb_eq in Esp; specialize (Hs eq_refl).
    rewrite Esp in Heta.
    destruct (Z.leb_spec (TagNumFromTag tag) kContextTagMaxNum) as [Hle|Hle]; cbn [fst snd].
    + exact Heta.
    + unfold kContextTagMaxNum, kAnonymousTagNum in *.
      replace (TagNumFromTag tag) with 256 in Heta by lia; exact Heta.
  - unfold IsSpecialTag in Esp; apply Z.eqb_neq in Esp.
    destruct (Z.eqb_spec (ProfileIdFromTag tag) kCommonProfileId) as [E|E];
      [|destruct (Z.eqb_spec (ProfileIdFromTag tag) p) as [E'|E']];
      destruct (Z.leb_spec (TagNumFromTag tag) 65535) as [Hle|Hle]; cbn [fst snd];
      unfold Anonymous, ContextSpecific, CommonProfile_2Bytes, CommonProfile_4Bytes,
        ImplicitProfile_2Bytes, ImplicitProfile_4Bytes, FullyQualified_6Bytes,
        FullyQualified_8Bytes; cbn [Z.eqb Pos.eqb].
    1,2: rewrite Hnum by (lia || (unfold is_uint in *; lia)); by rewrite E in Heta.
    1,2: rewrite <-E', (proj2 (Z.eqb_neq _ _)) by done;
         rewrite Hnum by (lia || (unfold is_uint in *; lia)); exact Heta.
    all: rewrite (mem_read_front 2), (mem_read_skip 2), (mem_read_front 2), (mem_read_skip2 4) by done;
      rewrite !nl_le_get_spec, !le_combine_split, <-nl_le_get_spec;
      rewrite Hnum by (lia || (unfold is_uint in *; lia));
      change (2 ^ (8 * Z.of_nat 2)) with (2 ^ 16); fold (wrap 16 (Z.shiftr (ProfileIdFromTag tag) 16));
      fold (wrap 16 (ProfileIdFromTag tag)); by rewrite VendorProfileTag_split.
Qed.

(** *** Which elements the reader accepts *)

Definition accepts (ct et tag : Z) : bool :=
  if et =? EndOfContainer then negb (ct =? kTLVType_NotSpecified) && (tag =? AnonymousTag)
  else negb (tag =? UnknownImplicitTag) &&
    (if ct =? kTLVType_NotSpecified then negb (IsContextTag tag)
     else if ct =? kTLVType_Structure then negb (tag =? AnonymousTag)
     else if ct =? kTLVType_Array then tag =? AnonymousTag
     else (ct =? kTLVType_UnknownContainer) || (ct =? kTLVType_List)).

Lemma VerifyElement_accepts r :
  accepts (TLVReader.mContainerType r) (TLVReader.ElementType r) (TLVReader.mElemTag r) = true ->
  (TLVTypeHasLength (TLVReader.ElementType r) = true ->
   wrap 32 (TLVReader.mElemLenOrVal r) <= TLVReader.mMaxLen r -{32} TLVReader.mLenRead r) ->
  TLVReader.VerifyElement r = CHIP_NO_ERROR.
Proof.
  unfold accepts, TLVReader.VerifyElement; intros Ha Hl.
  set (te := if TLVReader.ElementType r =? EndOfContainer then _ else _).
  assert (te = CHIP_NO_ERROR) as ->.
  { subst te; destruct (TLVReader.ElementType r =? EndOfContainer);
      apply andb_true_iff in Ha as [Ha1 Ha2]; apply negb_true_iff in Ha1; rewrite Ha1.
    - by rewrite Ha2.
    - destruct (TLVReader.mContainerType r =? kTLVType_NotSpecified);
        [apply negb_true_iff in Ha2; by rewrite Ha2|].
      destruct (TLVReader.mContainerType r =? kTLVType_Structure);
        [apply negb_true_iff in Ha2; by rewrite Ha2|].
      destruct (TLVReader.mContainerType r =? kTLVType_Array); by rewrite Ha2. }
  cbn [bool_decide]; rewrite bool_decide_eq_true_2 by done.
  destruct (TLVTypeHasLength _); [|done]; bcase; [specialize (Hl eq_refl); lia|done].
Qed.

Lemma special_tag_num tag :
  is_u64 tag -> IsSpecialTag tag = true -> tag = TagNumFromTag tag.
Proof.
  unfold IsSpecialTag; intros Hu Hs; apply Z.eqb_eq in Hs.
  pose proof (ProfileTag_eta tag Hu) as He; rewrite Hs in He.
  rewrite ProfileTag_val in He by (auto || (unfold is_uint, kSpecialTagProfileId; lia)).
  unfold kSpecialTagProfileId in He; lia.
Qed.

Lemma allowed_accepts ct et tag :
  known_container ct -> plain_tag tag -> et <> EndOfContainer -> tag_allowed ct et tag = true ->
  accepts ct et tag = true /\ accepts kTLVType_UnknownContainer et tag = true.
Proof.
  intros Hct [Hu Hs] Het Hal; unfold accepts; rewrite (proj2 (Z.eqb_neq _ _) Het).
  unfold tag_allowed in Hal; rewrite (proj2 (Z.eqb_neq _ _) Het) in Hal.
  change AnonymousTag with 256; change UnknownImplicitTag with 257.
  unfold IsContextTag; fold (IsSpecialTag tag).
  destruct (IsSpecialTag tag) eqn:Esp.
  - pose proof (special_tag_num tag Hu Esp) as Hn; specialize (Hs eq_refl).
    unfold kAnonymousTagNum, kContextTagMaxNum in *; rewrite <-Hn in Hs, Hal |- *.
    rewrite (proj2 (Z.eqb_neq tag 257)) by lia; cbn [negb andb].
    destruct (Z.leb_spec tag 255) as [Hle|Hle].
    + rewrite (proj2 (Z.eqb_neq tag 256)) by lia.
      destruct Hct as [-> | [-> | [-> | ->]]]; cbn in *; done.
    + rewrite (proj2 (Z.eqb_eq tag 256)) by lia.
      destruct Hct as [-> | [-> | [-> | ->]]]; cbn in *; done.
  - assert (tag <> 256 /\ tag <> 257) as [H1 H2] by (split; intros ->; done).
    rewrite (proj2 (Z.eqb_neq tag 256)), (proj2 (Z.eqb_neq tag 257)) by done; cbn [negb andb].
    destruct Hct as [-> | [-> | [-> | ->]]]; cbn in *; done.
Qed.

(** *** Positions of a reader *)

(** The reader has [l] to read, in a container of type [ct]. *)
Definition at_ (s : TLVReader.St) (l : bytes) (ct p : Z) : Prop :=
  TlvStream.wf s /\ rest s = l /\ TLVReader.mContainerType s.1 = ct /\
  TLVReader.ImplicitProfileId s.1 = p.

(** Its current element. *)
Definition on_ (s : TLVReader.St) (et tag v : Z) : Prop :=
  TLVReader.ElementType s.1 = et /\ TLVReader.mElemTag s.1 = tag /\
  TLVReader.mElemLenOrVal s.1 = v.

(** No data of the current element is left to skip. *)
Definition idle (s : TLVReader.St) : Prop :=
  let e := TLVReader.ElementType s.1 in
  TLVTypeIsContainer e = false /\ e <> EndOfContainer /\
  (TLVTypeHasLength e = true -> TLVReader.mElemLenOrVal s.1 = 0).

Lemma at_view s s' l ct p :
  TlvStream.wf s' -> view_of s' = view_of s -> at_ s l ct p -> at_ s' l ct p.
Proof.
  unfold view_of, at_; intros Hw Hv (_ & Hr & Hc & Hp).
  injection Hv as H1 _ _ _ _ H2 _ H3; split_and!; congruence.
Qed.

Lemma on_view s s' e t v : view_of s' = view_of s -> on_ s e t v -> on_ s' e t v.
Proof.
  unfold view_of, on_, TLVReader.ElementType; intros Hv (He & Ht & Hl).
  injection Hv as _ _ H1 H2 H3 _ _ _; rewrite H1, H2, H3; auto.
Qed.

(** An update that keeps the place, the container type and the profile. *)
Lemma at_place f s l ct ct' p :
  place_preserving f -> at_ s l ct p -> TLVReader.mContainerType (f s.1) = ct' ->
  TLVReader.ImplicitProfileId (f s.1) = p -> at_ (f s.1, s.2) l ct' p.
Proof.
  intros Hf (Hw & Hr & Hc & Hp) Hc' Hp'; split_and!; cbn [fst]; try done.
  - by apply place_wf.
  - by rewrite place_rest.
Qed.

Lemma at_ReadData n s l ct p :
  at_ s l ct p -> (n <= length l)%nat ->
  exists s', TLVReader.ReadData n s = (Ok (take n l), s') /\ at_ s' (drop n l) ct p /\
             TLVReader.mControlByte s'.1 = TLVReader.mControlByte s.1 /\
             TLVReader.mElemTag s'.1 = TLVReader.mElemTag s.1.
Proof.
  intros (Hw & Hr & Hc & Hp) Hn; rewrite <-Hr in Hn.
  destruct (ReadData_ok n s Hw Hn) as (s' & E & Hw' & Hv); exists s'; rewrite E, Hr.
  unfold view_of, v_consume in Hv; cbn in Hv.
  injection Hv as H1 _ H2 _ H3 H4 _ H5; unfold at_; rewrite H1, H2, H3, H4, H5, Hr.
  split_and!; done.
Qed.

Lemma ReadElement_head s ct p et tag v tl :
  at_ s (element_head p et tag v ++ tl) ct p -> 0 <= et <= EndOfContainer -> plain_tag tag ->
  accepts ct et tag = true ->
  is_uint (8 * Z.of_nat (TLVFieldSizeToBytes (GetTLVFieldSize et))) v ->
  (TLVTypeHasLength et = true -> v <= Z.of_nat (length tl)) ->
  exists s', TLVReader.ReadElement s = (Ok tt, s') /\ at_ s' tl ct p /\ on_ s' et tag v.
Proof.
  intros Hat Het Hpt Hacc Hv Hlen; pose proof Hat as (Hw & Hr & Hc & Hp).
  assert (Het32 : 0 <= et < 32) by (unfold EndOfContainer in Het; lia).
  unfold element_head in Hr, Hat; pose proof (tag_field_control p tag) as Hctl.
  pose proof (length_tag_field_bytes p tag) as Hltb.
  pose proof (fun r => ReadTag_field r p tag Hpt) as Hrt.
  destruct (tag_field p tag) as [c tb]; cbn [fst snd] in *.
  set (n := TLVFieldSizeToBytes (GetTLVFieldSize et)) in *.
  destruct (control_byte c et Hctl Het32) as (Hm1 & Hm2 & Hb & Htb); rewrite <-Hltb in Htb.
  set (b := Z.lor c et) in *; cbn [app] in *; rewrite <-app_assoc in Hr, Hat.
  unfold TLVReader.ReadElement.
  destruct (EnsureData_some CHIP_END_OF_TLV s Hw) as (s0 & E0 & Hw0 & Hv0 & Hc0); [by rewrite Hr|].
  rewrite (bind_ok _ _ _ _ _ E0); apply (at_view _ _ _ _ _ Hw0 Hv0) in Hat.
  destruct (read_control_cur s0 Hw0 Hc0) as (b' & l' & Hr0 & E1 & _).
  rewrite (bind_ok _ _ _ _ _ E1); clear E0 E1 Hc0 Hv0 Hr Hw.
  assert (Hb' : b' = b) by (destruct Hat as (_ & Hr & _); rewrite Hr0 in Hr; congruence); subst b'.
  set (s1 := (TLVReader.set_control b s0.1, s0.2)).
  assert (Hat1 : at_ s1 (b :: tb ++ le_split n v ++ tl) ct p)
    by (apply (at_place (TLVReader.set_control b) _ _ ct); [done|done|apply Hat|apply Hat]).
  assert (Hety : forall r, TLVReader.mControlByte r = b -> TLVReader.ElementType r = et).
  { intros r Hr; unfold TLVReader.ElementType, TLVReader.kTLVControlByte_NotSpecified; rewrite Hr.
    rewrite (proj2 (Z.eqb_neq b _)) by (unfold is_uint in Hb; lia); exact Hm1. }
  unfold bind at 1, TLVReader.upd at 1, modify at 1; fold s1.
  unfold bind at 1, TLVReader.self at 1; rewrite (Hety s1.1) by done.
  unfold bind at 1, verify at 1, IsValidTLVType.
  rewrite (proj2 (Z.leb_le et _)) by lia; unfold ret at 1.
  unfold TLVReader.val_or_len_bytes; fold n; rewrite Htb, Hm2.
  destruct (at_ReadData (1 + length tb + n) s1 _ _ _ Hat1) as (s2 & E2 & Hat2 & Hcb & _).
  { cbn [length]; rewrite !length_app, length_le_split; lia. }
  rewrite (bind_ok _ _ _ _ _ E2); clear E2.
  assert (Htk : take (1 + length tb + n) (b :: tb ++ le_split n v ++ tl) = b :: tb ++ le_split n v).
  { rewrite (app_assoc tb), (app_comm_cons _ tl).
    apply take_app_length'; cbn [length]; rewrite length_app, length_le_split; lia. }
  assert (Hdr : drop (1 + length tb + n) (b :: tb ++ le_split n v ++ tl) = tl).
  { rewrite (app_assoc tb), (app_comm_cons _ tl).
    apply drop_app_length'; cbn [length]; rewrite length_app, length_le_split; lia. }
  rewrite Htk; rewrite Hdr in Hat2; clear Htk Hdr.
  assert (Htag : mem_read 1 (length tb) (b :: tb ++ le_split n v) = tb)
    by (unfold mem_read; cbn [drop]; by apply take_app_length').
  assert (Hval : mem_read (1 + length tb) n (b :: tb ++ le_split n v) = le_split n v).
  { unfold mem_read; cbn [drop Nat.add]; rewrite drop_app_length, take_ge; [done|].
    by rewrite length_le_split. }
  rewrite Htag, Hval, host_load64_le, le_split_small by done.
  rewrite Hrt by (apply Hat1); clear Htag Hval Hrt.
  set (s3 := (TLVReader.set_element tag v s2.1, s2.2)).
  assert (Hat3 : at_ s3 tl ct p)
    by (apply (at_place (TLVReader.set_element tag v) _ _ ct); [done|done|apply Hat2|apply Hat2]).
  assert (Hety3 : TLVReader.ElementType s3.1 = et) by (by apply Hety).
  assert (Hleft : Z.of_nat (length tl) <= left_over s3.1 < 2 ^ 32).
  { destruct Hat3 as (Hw3 & Hr3 & _); pose proof (wf_rest_left _ Hw3) as Hwl; rewrite Hr3 in Hwl.
    destruct Hw3 as (_ & ? & ? & _); unfold left_over in *; lia. }
  unfold bind at 1, TLVReader.upd at 1, modify at 1; fold s3.
  assert (Hlb : negb (TLVTypeHasLength et) || (v <=? 2 ^ 32 - 1) = true).
  { destruct (TLVTypeHasLength et); [|done]; specialize (Hlen eq_refl); apply Z.leb_le; lia. }
  rewrite Hlb; unfold bind at 1, verify at 1, ret at 1.
  unfold bind at 1, TLVReader.self at 1; rewrite VerifyElement_accepts.
  - exists s3; split; [done|]; split; [done|]; by split_and!.
  - rewrite Hety3; destruct Hat3 as (_ & _ & Hct & _); rewrite Hct; exact Hacc.
  - rewrite Hety3; intros Hhl; specialize (Hlen Hhl).
    unfold left_over in Hleft; rewrite !wrap_small; unfold is_uint in *; cbn in *; lia.
Qed.

(** *** Moving over elements *)

Lemma Skip_idle s l ct p :
  at_ s l ct p -> idle s -> exists s', TLVReader.Skip s = (Ok tt, s') /\ at_ s' l ct p.
Proof.
  intros Hat (Hc & He & Hl); unfold TLVReader.Skip, bind, TLVReader.self at 1; cbn [fst].
  rewrite (proj2 (Z.eqb_neq _ _) He), Hc; unfold verify, ret; cbn [negb].
  assert (Hclr : forall s0, at_ s0 l ct p -> at_ (TLVReader.ClearElementState s0.1, s0.2) l ct p).
  { intros s0 H0; apply (at_place TLVReader.ClearElementState _ _ ct); try done; apply H0. }
  unfold TLVReader.SkipData, bind, TLVReader.self.
  destruct (TLVTypeHasLength _) eqn:E; [|eexists; split; [done|]; by apply Hclr].
  rewrite (Hl eq_refl); change (Z.to_nat (wrap 32 0)) with 0%nat.
  eexists; split; [done|]; by apply Hclr.
Qed.

(** [Skip] leaves the reader in front of [l]. *)
Definition skips_to (s : TLVReader.St) (l : bytes) (ct p : Z) : Prop :=
  exists s', TLVReader.Skip s = (Ok tt, s') /\ at_ s' l ct p.

Lemma string_has_length e : TLVTypeIsString e = TLVTypeHasLength e.
Proof. done. Qed.

Lemma Next_head_from s ct p et tag v tl :
  skips_to s (element_head p et tag v ++ tl) ct p -> 0 <= et < EndOfContainer ->
  plain_tag tag -> accepts ct et tag = true ->
  is_uint (8 * Z.of_nat (TLVFieldSizeToBytes (GetTLVFieldSize et))) v ->
  (TLVTypeHasLength et = true -> v <= Z.of_nat (length tl)) ->
  exists s', TLVReader.Next s = (Ok tt, s') /\ at_ s' tl ct p /\ on_ s' et tag v.
Proof.
  intros (s1 & E1 & Hat1) Het Hpt Hacc Hv Hlen; unfold TLVReader.Next; rewrite (bind_ok _ _ _ _ _ E1).
  destruct (ReadElement_head s1 ct p et tag v tl) as (s2 & E2 & Hat2 & Hon2); try done; [lia|].
  rewrite (bind_ok _ _ _ _ _ E2); unfold bind at 1, TLVReader.self at 1.
  destruct Hon2 as (He & Ht & Hl); rewrite He.
  rewrite (proj2 (Z.eqb_neq et _)) by lia; unfold bind, verify, ret; cbn [negb].
  rewrite string_has_length; unfold TLVReader.GetLength; rewrite He, Hl.
  destruct (TLVTypeHasLength et) eqn:Ehl; cbn [andb]; [|by exists s2].
  destruct (Z.eqb_spec (wrap 32 v) 0) as [Hz|Hz]; cbn [negb]; [by exists s2|].
  destruct Hat2 as (Hw2 & Hr2 & Hcp2).
  destruct (EnsureData_some CHIP_ERROR_TLV_UNDERRUN s2 Hw2) as (s3 & E3 & Hw3 & Hv3 & _).
  { rewrite Hr2; specialize (Hlen eq_refl); intros ->; cbn in Hlen.
    apply Hz; replace v with 0; [done|unfold is_uint in Hv; lia]. }
  exists s3; split; [done|]; split; [by apply (at_view s2)|by apply (on_view s2)].
Qed.

Lemma ReadElement_end s ct p tl :
  at_ s (EndOfContainer :: tl) ct p -> ct <> kTLVType_NotSpecified ->
  exists s', TLVReader.ReadElement s = (Ok tt, s') /\ at_ s' tl ct p /\
             on_ s' EndOfContainer AnonymousTag 0.
Proof.
  intros Hat Hct; apply (ReadElement_head s ct p EndOfContainer AnonymousTag 0 tl).
  - exact Hat.
  - done.
  - split; [unfold is_uint; vm_compute; split; discriminate || reflexivity|].
    intros _; vm_compute; discriminate.
  - unfold accepts; cbn [Z.eqb EndOfContainer Pos.eqb]; by rewrite (proj2 (Z.eqb_neq _ _) Hct).
  - unfold is_uint; vm_compute; split; discriminate || reflexivity.
  - done.
Qed.

Lemma Next_end_from s ct p tl :
  skips_to s (EndOfContainer :: tl) ct p -> ct <> kTLVType_NotSpecified ->
  exists s', TLVReader.Next s = (Err CHIP_END_OF_TLV, s') /\ at_ s' tl ct p /\
             on_ s' EndOfContainer AnonymousTag 0.
Proof.
  intros (s1 & E1 & Hat1) Hct; unfold TLVReader.Next; rewrite (bind_ok _ _ _ _ _ E1).
  destruct (ReadElement_end s1 ct p tl Hat1 Hct) as (s2 & E2 & Hat2 & Hon2).
  rewrite (bind_ok _ _ _ _ _ E2); unfold bind at 1, TLVReader.self at 1.
  rewrite (proj1 Hon2); by exists s2.
Qed.

Lemma Next_end s ct p tl :
  at_ s (EndOfContainer :: tl) ct p -> idle s -> ct <> kTLVType_NotSpecified ->
  exists s', TLVReader.Next s = (Err CHIP_END_OF_TLV, s') /\ at_ s' tl ct p /\
             on_ s' EndOfContainer AnonymousTag 0.
Proof. intros Hat Hid; by apply Next_end_from, Skip_idle. Qed.

Lemma Next_empty s ct p :
  at_ s [] ct p -> idle s -> exists s', TLVReader.Next s = (Err CHIP_END_OF_TLV, s').
Proof.
  intros Hat Hid; unfold TLVReader.Next.
  destruct (Skip_idle _ _ _ _ Hat Hid) as (s1 & E1 & Hw1 & Hr1 & _); rewrite (bind_ok _ _ _ _ _ E1).
  destruct (EnsureData_none CHIP_END_OF_TLV s1 Hw1 Hr1) as (s2 & E2 & _).
  exists s2; unfold TLVReader.ReadElement.
  by rewrite (bind_err _ _ _ _ _ (bind_err _ _ _ _ _ E2)).
Qed.

(** *** Values *)

Lemma swrap_wrap w v :
  0 < w <= 64 -> - 2 ^ (w - 1) <= v < 2 ^ (w - 1) -> swrap w (wrap w (wrap 64 v)) = v.
Proof.
  intros Hw Hv; assert (Hp : 2 ^ w = 2 * 2 ^ (w - 1)) by (rewrite <-Z.pow_succ_r by lia; f_equal; lia).
  assert (wrap w (wrap 64 v) = wrap w v) as ->.
  { apply Z.mod_mod_divide; exists (2 ^ (64 - w)); rewrite <-Z.pow_add_r by lia; f_equal; lia. }
  unfold swrap; rewrite wrap_idem; unfold wrap; destruct (Z.le_gt_cases 0 v).
  - rewrite Z.mod_small by lia; bcase; lia.
  - rewrite <-(Z_mod_plus_full v 1), Z.mod_small by lia; bcase; lia.
Qed.

(** What the reader holds of the value in the head: its low bytes. *)
Definition seen (v : tlv) : Z :=
  wrap (8 * Z.of_nat (TLVFieldSizeToBytes (GetTLVFieldSize (fst (head_of v))))) (snd (head_of v)).

Lemma seen_head v tag p :
  element_head p (fst (head_of v)) tag (snd (head_of v)) =
  element_head p (fst (head_of v)) tag (seen v).
Proof.
  unfold element_head, seen; destruct (tag_field p tag); do 2 f_equal.
  by rewrite le_split_wrap_bits.
Qed.

(** The bytes after the head of a leaf. *)
Definition payload (v : tlv) : bytes :=
  match v with TUtf8 s | TBytes s => s | _ => [] end.

Lemma GetType_on s et tag v :
  on_ s et tag v ->
  TLVReader.GetType s.1 =
  (if et =? EndOfContainer then kTLVType_NotSpecified
   else if (et =? FloatingPointNumber32) || (et =? FloatingPointNumber64)
   then kTLVType_FloatingPointNumber
   else if (et =? NotSpecified) || (Null <=? et) then et
   else Z.land (wrap 8 et) (Z.lnot kTLVTypeSizeMask)).
Proof. intros (He & _); unfold TLVReader.GetType; by rewrite He. Qed.

Lemma idle_scalar s et tag v :
  on_ s et tag v -> TLVTypeIsContainer et = false -> et <> EndOfContainer ->
  TLVTypeHasLength et = false -> idle s.
Proof. intros (He & _) ? ? Hl; unfold idle; rewrite He, Hl; done. Qed.

(** Reading a string leaves no data to skip. *)
Lemma GetBytes_on s et tag str tl ct p :
  at_ s (str ++ tl) ct p -> on_ s et tag (Z.of_nat (length str)) ->
  TLVTypeIsString et = true -> Z.of_nat (length str) < 2 ^ 32 ->
  exists s', TLVReader.GetBytes (TLVReader.GetLength s.1) s = (Ok str, s') /\
             at_ s' tl ct p /\ idle s'.
Proof.
  intros Hat (He & Ht & Hl) Hs Hlen; unfold TLVReader.GetBytes, TLVReader.GetLength.
  unfold bind at 1, TLVReader.self at 1; rewrite He, Hs, <-string_has_length, Hs, Hl.
  rewrite wrap_small by (unfold is_uint; lia); rewrite Nat2Z.id.
  unfold bind at 1 2, verify at 1 2, ret at 1 2; rewrite Z.leb_refl.
  destruct (at_ReadData (length str) s _ _ _ Hat) as (s1 & E1 & Hat1 & Hcb & Htag);
    [rewrite length_app; lia|].
  rewrite take_app_length in E1; rewrite drop_app_length in Hat1.
  rewrite (bind_ok _ _ _ _ _ E1); unfold bind, TLVReader.upd, modify, ret.
  eexists; split; [done|]; split.
  - apply (at_place (fun r => TLVReader.set_element (TLVReader.mElemTag r) 0 r) _ _ ct);
      try done; apply Hat1.
  - unfold idle, TLVReader.ElementType; cbn [fst TLVReader.mControlByte TLVReader.set_element].
    rewrite Hcb; fold (TLVReader.ElementType s.1); rewrite He; split_and!; try done;
      revert Hs; unfold TLVTypeIsString, TLVTypeIsContainer, UTF8String_1ByteLength,
        ByteString_8ByteLength, Structure, List, EndOfContainer;
      rewrite andb_true_iff, !Z.leb_le; intros.
    + rewrite (proj2 (Z.leb_gt _ _)) by lia; done.
    + lia.
Qed.

Lemma string_type_facts type len :
  type = kTLVType_UTF8String \/ type = kTLVType_ByteString ->
  let et := string_type type len in
  TLVTypeIsString et = true /\
  (forall s tag v, on_ s et tag v -> TLVReader.GetType s.1 = type) /\
  (0 <= len < 2 ^ 32 -> wrap (8 * Z.of_nat (TLVFieldSizeToBytes (GetTLVFieldSize et))) len = len).
Proof.
  intros Ht et; subst et; unfold string_type; split_and!.
  - destruct Ht as [-> | ->]; repeat bcase; done.
  - intros s tag v Hon; rewrite (GetType_on _ _ _ _ Hon).
    destruct Ht as [-> | ->]; repeat (destruct (len <=? _)); done.
  - intros Hl; destruct Ht as [-> | ->];
      (destruct (Z.leb_spec len (2 ^ 8 - 1)); [|destruct (Z.leb_spec len (2 ^ 16 - 1))]);
      apply wrap_small; unfold is_uint;
      match goal with |- 0 <= _ < 2 ^ (8 * Z.of_nat ?n) => let n' := eval vm_compute in n in change n with n' end;
      cbn; lia.
Qed.

Lemma int_type_cases v :
  - 2 ^ 63 <= v < 2 ^ 63 ->
  (int_type v = Int8 /\ - 2 ^ 7 <= v < 2 ^ 7) \/ (int_type v = Int16 /\ - 2 ^ 15 <= v < 2 ^ 15) \/
  (int_type v = Int32 /\ - 2 ^ 31 <= v < 2 ^ 31) \/ int_type v = Int64.
Proof.
  intros Hv; unfold int_type.
  destruct (Z.leb_spec (- 2 ^ 7) v), (Z.leb_spec v (2 ^ 7 - 1)); cbn [andb]; [left; lia|..];
    (destruct (Z.leb_spec (- 2 ^ 15) v), (Z.leb_spec v (2 ^ 15 - 1)); cbn [andb];
      [right; left; lia|..]);
    (destruct (Z.leb_spec (- 2 ^ 31) v), (Z.leb_spec v (2 ^ 31 - 1)); cbn [andb];
      [right; right; left; lia|..]); auto.
Qed.

Lemma int_on s tag v :
  - 2 ^ 63 <= v < 2 ^ 63 -> on_ s (int_type v) tag (seen (TInt v)) ->
  TLVReader.GetType s.1 = kTLVType_SignedInteger /\ TLVReader.Get_int64 s.1 = Ok v /\ idle s.
Proof.
  intros Hv Hon; rewrite (GetType_on _ _ _ _ Hon).
  assert (Hi := idle_scalar s _ _ _ Hon); destruct Hon as (He & _ & Hl).
  unfold TLVReader.Get_int64; rewrite He, Hl; unfold seen; cbn [head_of fst snd]; clear He Hl.
  destruct (int_type_cases v Hv) as [[E Hr]|[[E Hr]|[[E Hr]|E]]]; rewrite E in *;
    (split_and!; [done| |by apply Hi]).
  - exact (f_equal Ok (swrap_wrap 8 v ltac:(lia) Hr)).
  - exact (f_equal Ok (swrap_wrap 16 v ltac:(lia) Hr)).
  - exact (f_equal Ok (swrap_wrap 32 v ltac:(lia) Hr)).
  - exact (f_equal Ok (swrap_wrap 64 v ltac:(lia) Hv)).
Qed.

Lemma uint_type_cases v :
  is_u64 v ->
  (uint_type v = UInt8 /\ is_u8 v) \/ (uint_type v = UInt16 /\ is_u16 v) \/
  (uint_type v = UInt32 /\ is_u32 v) \/ uint_type v = UInt64.
Proof. unfold uint_type, is_uint; intros Hv; repeat bcase; auto 6 with lia. Qed.

Lemma uint_on s tag v :
  is_u64 v -> on_ s (uint_type v) tag (seen (TUInt v)) ->
  TLVReader.GetType s.1 = kTLVType_UnsignedInteger /\ TLVReader.Get_uint64 s.1 = Ok v /\ idle s.
Proof.
  intros Hv Hon; rewrite (GetType_on _ _ _ _ Hon).
  assert (Hi := idle_scalar s _ _ _ Hon); destruct Hon as (He & _ & Hl).
  unfold TLVReader.Get_uint64; rewrite He, Hl; unfold seen; cbn [head_of fst snd]; clear He Hl.
  destruct (uint_type_cases v Hv) as [[E Hr]|[[E Hr]|[[E Hr]|E]]]; rewrite E in *;
    (split_and!; [done| |by apply Hi]).
  - exact (f_equal Ok (wrap_small 8 v Hr)).
  - exact (f_equal Ok (wrap_small 16 v Hr)).
  - exact (f_equal Ok (wrap_small 32 v Hr)).
  - exact (f_equal Ok (wrap_small 64 v Hv)).
Qed.

(** One comparison chain of [read_value], decided by the type. *)
Ltac choose_type HG :=
  rewrite HG; cbv zeta; cbn [Z.eqb Pos.eqb kTLVType_SignedInteger kTLVType_UnsignedInteger
    kTLVType_Boolean kTLVType_FloatingPointNumber kTLVType_UTF8String kTLVType_ByteString
    kTLVType_Null]; unfold lift; try unfold bind at 1.

Lemma read_leaf validate members s ct ct' tag v tl p :
  valid validate ct tag v -> (forall ty ms, v <> TContainer ty ms) ->
  at_ s (payload v ++ tl) ct' p -> on_ s (fst (head_of v)) tag (seen v) ->
  exists s', read_value members s = (Ok (tag, v), s') /\ at_ s' tl ct' p /\ idle s'.
Proof.
  intros Hv Hleaf Hat Hon; inversion Hv as [? ? ? _ _ Hval|]; subst; [|by edestruct Hleaf].
  pose proof Hon as (He & Ht & Hl); unfold read_value, bind at 1, TLVReader.self at 1.
  unfold TLVReader.GetTag; rewrite Ht.
  destruct v; cbn [payload app head_of fst snd] in *; try done.
  - destruct (int_on _ _ _ Hval Hon) as (HG & Hget & Hid); choose_type HG; rewrite Hget; by exists s.
  - destruct (uint_on _ _ _ Hval Hon) as (HG & Hget & Hid); choose_type HG; rewrite Hget; by exists s.
  - assert (HG : TLVReader.GetType s.1 = kTLVType_Boolean)
      by (rewrite (GetType_on _ _ _ _ Hon); by destruct b).
    choose_type HG; unfold TLVReader.Get_bool; rewrite He; exists s; split; [by destruct b|].
    split; [done|]; by destruct b; apply (idle_scalar s _ _ _ Hon).
  - assert (HG : TLVReader.GetType s.1 = kTLVType_FloatingPointNumber)
      by by rewrite (GetType_on _ _ _ _ Hon).
    choose_type HG; unfold TLVReader.Get_double, TLVReader.BitCastToFloat; rewrite He, Hl.
    unfold seen; cbn [head_of fst snd]; change (8 * Z.of_nat _) with 32; rewrite wrap_idem, wrap_small by done.
    exists s; split; [done|]; split; [done|]; by apply (idle_scalar s _ _ _ Hon).
  - assert (HG : TLVReader.GetType s.1 = kTLVType_FloatingPointNumber)
      by by rewrite (GetType_on _ _ _ _ Hon).
    choose_type HG; unfold TLVReader.Get_double; rewrite He, Hl.
    unfold seen; cbn [head_of fst snd]; change (8 * Z.of_nat _) with 64; rewrite wrap_small by done.
    exists s; split; [done|]; split; [done|]; by apply (idle_scalar s _ _ _ Hon).
  - destruct Hval as (_ & Hlen & _).
    destruct (string_type_facts kTLVType_UTF8String (Z.of_nat (length s0))) as (Hs & HG & Hw); [by left|].
    specialize (HG _ _ _ Hon); choose_type HG.
    unfold seen in Hon; cbn [head_of fst snd] in Hon; rewrite Hw in Hon by lia.
    destruct (GetBytes_on _ _ _ _ _ _ _ Hat Hon Hs Hlen) as (s' & -> & ? & ?); by exists s'.
  - destruct Hval as (_ & Hlen).
    destruct (string_type_facts kTLVType_ByteString (Z.of_nat (length s0))) as (Hs & HG & Hw); [by right|].
    specialize (HG _ _ _ Hon); choose_type HG.
    unfold seen in Hon; cbn [head_of fst snd] in Hon; rewrite Hw in Hon by lia.
    destruct (GetBytes_on _ _ _ _ _ _ _ Hat Hon Hs Hlen) as (s' & -> & ? & ?); by exists s'.
  - assert (HG : TLVReader.GetType s.1 = kTLVType_Null) by by rewrite (GetType_on _ _ _ _ Hon).
    choose_type HG; exists s; split; [done|]; split; [done|]; by apply (idle_scalar s _ _ _ Hon).
Qed.

(** *** Trees *)

(** The bytes after the head of an element. *)
Definition body (p : Z) (v : tlv) : bytes :=
  match v with
  | TContainer _ ms => encode_members p ms ++ [EndOfContainer]
  | v => payload v
  end.

Lemma encode_body p tag v :
  encode p tag v = element_head p (fst (head_of v)) tag (seen v) ++ body p v.
Proof. rewrite <-seen_head; by destruct v. Qed.

Lemma seen_length validate ct tag v :
  valid validate ct tag v -> TLVTypeHasLength (fst (head_of v)) = true ->
  seen v = Z.of_nat (length (payload v)).
Proof.
  intros Hv Hl; inversion Hv as [? ? ? _ _ Hval|? ? ty ? _ _ Hty]; subst.
  - destruct v; cbn [head_of fst payload] in *; try done.
    + exfalso; revert Hl; unfold int_type; by repeat case_match.
    + exfalso; revert Hl; unfold uint_type; by repeat case_match.
    + destruct (string_type_facts kTLVType_UTF8String (Z.of_nat (length s))) as (_ & _ & Hw); [by left|].
      unfold seen; cbn [head_of fst snd]; apply Hw; lia.
    + destruct (string_type_facts kTLVType_ByteString (Z.of_nat (length s))) as (_ & _ & Hw); [by right|].
      unfold seen; cbn [head_of fst snd]; apply Hw; lia.
  - exfalso; revert Hty Hl; cbn [head_of fst]; unfold TLVTypeIsContainer, TLVTypeHasLength, Structure,
      List, UTF8String_1ByteLength, ByteString_8ByteLength.
    rewrite !andb_true_iff, !Z.leb_le; lia.
Qed.

Lemma valid_plain validate ct tag v : valid validate ct tag v -> plain_tag tag.
Proof. by destruct 1. Qed.

Lemma valid_allowed validate ct tag v :
  valid validate ct tag v -> tag_allowed ct (fst (head_of v)) tag = true.
Proof. by destruct 1. Qed.

(** [Next] finds an element of a tree and stops before its body. *)
Lemma Next_element_from validate s c ct p tag v tl :
  skips_to s (encode p tag v ++ tl) c p -> known_container ct -> valid validate ct tag v ->
  c = ct \/ c = kTLVType_UnknownContainer ->
  exists s', TLVReader.Next s = (Ok tt, s') /\ at_ s' (body p v ++ tl) c p /\
             on_ s' (fst (head_of v)) tag (seen v).
Proof.
  intros Hat Hct Hv Hc; rewrite encode_body, <-app_assoc in Hat.
  pose proof (head_type_range _ _ _ _ Hv) as Het.
  destruct (allowed_accepts ct (fst (head_of v)) tag) as [Ha1 Ha2]; try done;
    [by eapply valid_plain|unfold EndOfContainer; lia|by eapply valid_allowed|].
  apply (Next_head_from s c p (fst (head_of v)) tag (seen v) (body p v ++ tl)); try done.
  - by eapply valid_plain.
  - by destruct Hc as [-> | ->].
  - unfold seen; apply wrap_range; lia.
  - intros Hl; rewrite (seen_length _ _ _ _ Hv Hl), length_app.
    assert (length (payload v) <= length (body p v))%nat by (destruct v; simpl; lia); lia.
Qed.

Lemma Next_element validate s c ct p tag v tl :
  at_ s (encode p tag v ++ tl) c p -> idle s -> known_container ct -> valid validate ct tag v ->
  c = ct \/ c = kTLVType_UnknownContainer ->
  exists s', TLVReader.Next s = (Ok tt, s') /\ at_ s' (body p v ++ tl) c p /\
             on_ s' (fst (head_of v)) tag (seen v).
Proof. intros Hat Hid; by apply Next_element_from, Skip_idle. Qed.

Lemma container_known ty : TLVTypeIsContainer ty = true -> known_container ty.
Proof.
  unfold TLVTypeIsContainer, Structure, List, known_container, kTLVType_Structure, kTLVType_Array, kTLVType_List.
  rewrite andb_true_iff, !Z.leb_le; lia.
Qed.

Lemma container_other ty x : TLVTypeIsContainer ty = true -> x < Structure -> (ty =? x) = false.
Proof.
  unfold TLVTypeIsContainer, Structure; rewrite andb_true_iff, Z.leb_le; intros.
  apply Z.eqb_neq; lia.
Qed.

Lemma Enter_on s l ct p ty tag v :
  at_ s l ct p -> on_ s ty tag v -> TLVTypeIsContainer ty = true ->
  exists s', TLVReader.EnterContainer s = (Ok ct, s') /\ at_ s' l ty p /\ idle s'.
Proof.
  intros Hat (He & _) Hty; unfold TLVReader.EnterContainer, bind, TLVReader.self; cbn [fst].
  rewrite He, Hty; unfold verify, ret, TLVReader.upd, modify; eexists; split.
  - by rewrite (proj1 (proj2 (proj2 Hat))).
  - split; [|by split_and!].
    apply (at_place (fun r => TLVReader.SetContainerOpen false
      (TLVReader.ClearElementState (TLVReader.set_container ty r))) _ _ ct); try done; apply Hat.
Qed.

Lemma Exit_on_end s l ct p tag v outer :
  at_ s l ct p -> on_ s EndOfContainer tag v ->
  exists s', TLVReader.ExitContainer outer s = (Ok tt, s') /\ at_ s' l outer p /\ idle s'.
Proof.
  intros Hat (He & _); unfold TLVReader.ExitContainer, TLVReader.SkipToEndOfContainer.
  unfold bind at 1 2, TLVReader.upd at 1, modify at 1; cbn [TLVReader.SkipToEndOfContainer_loop].
  unfold bind at 1, TLVReader.self at 1; cbn [fst].
  change (TLVReader.ElementType (TLVReader.SetContainerOpen false s.1)) with (TLVReader.ElementType s.1).
  rewrite He; cbn [Z.eqb EndOfContainer Pos.eqb]; unfold ret, TLVReader.upd, modify.
  eexists; split; [done|]; split; [|by split_and!].
  apply (at_place (fun r => TLVReader.ClearElementState (TLVReader.set_container outer
    (TLVReader.SetContainerOpen false r))) s l ct outer p); try done; apply Hat.
Qed.

Lemma read_members_gen validate fuel ms s ct p e (Q : TLVReader.St -> Prop) :
  (forall s, at_ s e ct p -> idle s ->
             exists s', TLVReader.Next s = (Err CHIP_END_OF_TLV, s') /\ Q s') ->
  at_ s (encode_members p ms ++ e) ct p -> idle s -> known_container ct ->
  Forall (fun m => valid validate ct (fst m) (snd m)) ms ->
  (length (encode_members p ms) < fuel)%nat ->
  exists s', read_members fuel s = (Ok ms, s') /\ Q s'.
Proof.
  revert ms s ct e Q; induction fuel as [|fuel IH]; intros ms s ct e Q He Hat Hid Hct Hms Hf; [lia|].
  cbn [read_members]; destruct ms as [|[tag v] ms].
  { destruct (He s Hat Hid) as (s' & -> & HQ); by exists s'. }
  apply Forall_cons_1 in Hms as [Hv Hms]; cbn [fst snd] in Hv.
  change (encode_members p ((tag, v) :: ms)) with (encode p tag v ++ encode_members p ms) in *.
  rewrite <-app_assoc in Hat; rewrite length_app in Hf.
  destruct (Next_element _ _ _ _ _ _ _ _ Hat Hid Hct Hv) as (s1 & -> & Hat1 & Hon1); [by left|].
  assert (Hlen : (0 < length (encode p tag v))%nat).
  { rewrite encode_body, length_app; pose proof (head_type_range _ _ _ _ Hv).
    pose proof (length_element_head p (fst (head_of v)) tag (seen v)); lia. }
  (* the element itself *)
  assert (Hval : exists s2, read_value (read_members fuel) s1 = (Ok (tag, v), s2) /\
                            at_ s2 (encode_members p ms ++ e) ct p /\ idle s2).
  { destruct v as [ | | | | | | | |ty ms']; try (eapply read_leaf; done).
    inversion Hv as [? ? ? _ _ Hval|? ? ? ? _ Hal Hty Hms']; subst; [done|].
    cbn [body head_of fst] in *; rewrite <-app_assoc in Hat1; cbn [app] in Hat1.
    unfold read_value, bind at 1, TLVReader.self at 1.
    unfold TLVReader.GetTag; rewrite (proj1 (proj2 Hon1)).
    assert (HG : TLVReader.GetType s1.1 = ty).
    { rewrite (GetType_on _ _ _ _ Hon1), (container_not_end ty Hty).
      destruct (container_known ty Hty) as [-> | [-> | [-> | ->]]]; done. }
    rewrite HG; cbv zeta.
    rewrite !(container_other ty) by done.
    destruct (Enter_on _ _ _ _ _ _ _ Hat1 Hon1 Hty) as (s2 & E2 & Hat2 & Hid2).
    rewrite (bind_ok _ _ _ _ _ E2).
    destruct (IH ms' s2 ty (EndOfContainer :: encode_members p ms ++ e)
                (fun s' => at_ s' (encode_members p ms ++ e) ty p /\ on_ s' EndOfContainer AnonymousTag 0))
      as (s3 & E3 & Hat3 & Hon3); try done.
    - intros s0 Hat0 Hid0; apply Next_end; try done; intros ->; done.
    - by apply container_known.
    - rewrite encode_body, length_app in Hf; cbn [body] in Hf; rewrite length_app in Hf; cbn [length] in Hf; lia.
    - rewrite (bind_ok _ _ _ _ _ E3).
      destruct (Exit_on_end _ _ _ _ _ _ ct Hat3 Hon3) as (s4 & E4 & Hat4 & Hid4).
      rewrite (bind_ok _ _ _ _ _ E4); by exists s4. }
  destruct Hval as (s2 & E2 & Hat2 & Hid2); rewrite (bind_ok _ _ _ _ _ E2).
  destruct (IH ms s2 ct e Q He Hat2 Hid2 Hct Hms) as (s3 & E3 & HQ); [lia|].
  rewrite (bind_ok _ _ _ _ _ E3); by exists s3.
Qed.

(** A reader at the outermost level reads all elements of its input. *)
Lemma read_members_spec validate ms s p :
  at_ s (encode_members p ms) kTLVType_NotSpecified p -> idle s ->
  Forall (fun m => valid validate kTLVType_NotSpecified (fst m) (snd m)) ms ->
  exists s', read_members (S (length (encode_members p ms))) s = (Ok ms, s').
Proof.
  intros Hat Hid Hms.
  destruct (read_members_gen validate (S (length (encode_members p ms))) ms s
              kTLVType_NotSpecified p [] (fun _ => True)) as (s' & E & _); try done.
  - intros s0 Hat0 Hid0; destruct (Next_empty _ _ _ Hat0 Hid0) as (s' & E); by exists s'.
  - by rewrite app_nil_r.
  - by left.
  - lia.
  - by exists s'.
Qed.

(** *** Skipping *)

(** The data [d] of the current element comes next. *)
Definition skippable (s : TLVReader.St) (d : bytes) : Prop :=
  if TLVTypeHasLength (TLVReader.ElementType s.1)
  then TLVReader.mElemLenOrVal s.1 = Z.of_nat (length d) /\ Z.of_nat (length d) < 2 ^ 32
  else d = [].

Lemma SkipData_passes s d l ct p :
  at_ s (d ++ l) ct p -> skippable s d ->
  exists s', TLVReader.SkipData s = (Ok tt, s') /\ at_ s' l ct p /\
             TLVReader.mControlByte s'.1 = TLVReader.mControlByte s.1.
Proof.
  unfold skippable, TLVReader.SkipData; intros Hat Hd; unfold bind at 1, TLVReader.self at 1.
  destruct (TLVTypeHasLength _).
  - destruct Hd as [-> Hl]; rewrite wrap_small, Nat2Z.id by (unfold is_uint; lia).
    destruct (at_ReadData (length d) s _ _ _ Hat) as (s' & E & Hat' & Hc & _); [rewrite length_app; lia|].
    rewrite (bind_ok _ _ _ _ _ E); rewrite drop_app_length in Hat'; by exists s'.
  - subst d; by exists s.
Qed.

Definition leaf (v : tlv) : bool := match v with TContainer _ _ => false | _ => true end.

Lemma leaf_type validate ct tag v :
  valid validate ct tag v -> TLVTypeIsContainer (fst (head_of v)) = negb (leaf v).
Proof.
  intros Hv; destruct v; cbn [head_of fst leaf negb];
    try (unfold int_type, uint_type, string_type; by repeat case_match).
  by inversion Hv.
Qed.

Lemma leaf_body p v : leaf v = true -> body p v = payload v.
Proof. by destruct v. Qed.

(** On a leaf, what is to be skipped is its payload. *)
Lemma leaf_skippable validate ct tag v s :
  valid validate ct tag v -> leaf v = true -> on_ s (fst (head_of v)) tag (seen v) ->
  skippable s (payload v).
Proof.
  intros Hv Hlf (He & _ & Hl); unfold skippable; rewrite He, Hl.
  destruct (TLVTypeHasLength _) eqn:Ehl.
  - rewrite (seen_length _ _ _ _ Hv Ehl); split; [done|].
    inversion Hv as [? ? ? _ _ Hval|]; subst; [|done].
    destruct v; cbn [payload length]; try lia; apply Hval.
  - destruct v; try done; exfalso; revert Ehl; cbn [head_of fst]; rewrite <-string_has_length;
      [rewrite (proj1 (string_type_facts kTLVType_UTF8String _ ltac:(by left)))
      |rewrite (proj1 (string_type_facts kTLVType_ByteString _ ltac:(by right)))]; done.
Qed.

(** What a pass of the loop does after the [nestLevel] is settled. *)
Definition continue (fuel : nat) (outer : Z) (nest : nat) : M TLVReader.St unit :=
  TLVReader.SkipData ;; TLVReader.ReadElement ;;
  TLVReader.SkipToEndOfContainer_loop fuel outer nest.

Lemma loop_step fuel outer nest s :
  let e := TLVReader.ElementType s.1 in
  TLVReader.SkipToEndOfContainer_loop (S fuel) outer nest s =
  if e =? EndOfContainer then
    match nest with
    | O => (Ok tt, s)
    | S n => continue fuel outer n
        (TLVReader.set_container (if (n =? 0)%nat then outer else kTLVType_UnknownContainer) s.1, s.2)
    end
  else if TLVTypeIsContainer e
  then continue fuel outer (S nest) (TLVReader.set_container e s.1, s.2)
  else continue fuel outer nest s.
Proof.
  cbn [TLVReader.SkipToEndOfContainer_loop]; unfold bind at 1, TLVReader.self at 1.
  destruct (_ =? EndOfContainer); [by destruct nest|].
  by destruct (TLVTypeIsContainer _).
Qed.

(** The container type the loop keeps while it is [nest] levels down in a
    container of type [ct]. *)
Definition tracks (outer : Z) (nest : nat) (ct c : Z) : Prop :=
  match nest with O => ct = outer /\ c = outer | S _ => c = ct \/ c = kTLVType_UnknownContainer end.

Lemma tracks_accepts outer nest ct c :
  known_container ct -> ct <> kTLVType_NotSpecified -> tracks outer nest ct c ->
  (c = ct \/ c = kTLVType_UnknownContainer) /\ c <> kTLVType_NotSpecified.
Proof. intros _ Hn; destruct nest; cbn; [intros [-> ->]; auto|]; intros [-> | ->]; auto. Qed.

Lemma set_container_at ty s l c p :
  at_ s l c p -> at_ (TLVReader.set_container ty s.1, s.2) l ty p.
Proof. intros Hat; apply (at_place (TLVReader.set_container ty) s l c ty p); try done; apply Hat. Qed.

(** The pass over the end marker of a container the loop entered. *)
Lemma continue_end fuel outer nest ct c s d e p :
  at_ s (d ++ EndOfContainer :: e) c p -> skippable s d -> c <> kTLVType_NotSpecified ->
  TLVTypeIsContainer ct = true -> (nest = 0%nat -> ct = outer) ->
  exists c' s', continue (S fuel) outer (S nest) s = continue fuel outer nest s' /\
    at_ s' e c' p /\ skippable s' [] /\ tracks outer nest ct c'.
Proof.
  intros Hat Hsk Hc Hct Hout.
  destruct (SkipData_passes s d _ _ _ Hat Hsk) as (s1 & E1 & Hat1 & _).
  destruct (ReadElement_end s1 c p e Hat1 Hc) as (s2 & E2 & Hat2 & Hon2).
  unfold continue at 1; rewrite (bind_ok _ _ _ _ _ E1), (bind_ok _ _ _ _ _ E2), loop_step.
  cbv zeta; destruct Hon2 as (He & _); rewrite He, Z.eqb_refl.
  eexists _, _; split; [done|]; split; [by apply (set_container_at _ s2 _ c p)|].
  split.
  - unfold skippable; change (TLVReader.ElementType _) with (TLVReader.ElementType s2.1); by rewrite He.
  - destruct nest; cbn; auto.
Qed.

(** The loop passes the elements of a container and the containers in them. *)
Lemma continue_members validate n outer p :
  forall ms fuel nest ct c s d e,
  (length (encode_members p ms) <= n)%nat -> (length (encode_members p ms) < fuel)%nat ->
  at_ s (d ++ encode_members p ms ++ e) c p -> skippable s d ->
  TLVTypeIsContainer ct = true -> tracks outer nest ct c ->
  Forall (fun m => valid validate ct (fst m) (snd m)) ms ->
  exists fuel' c' s' d',
    continue fuel outer nest s = continue fuel' outer nest s' /\
    (fuel <= fuel' + length (encode_members p ms))%nat /\
    at_ s' (d' ++ e) c' p /\ skippable s' d' /\ tracks outer nest ct c'.
Proof.
  induction n as [|n IH]; intros ms fuel nest ct c s d e Hn Hf Hat Hsk Hct Htr Hms;
    destruct ms as [|[tag v] ms];
    try (exists fuel, c, s, d; split_and!; [done|lia|exact Hat|done|done]).
  all: apply Forall_cons_1 in Hms as [Hv Hms]; cbn [fst snd] in Hv.
  all: change (encode_members p ((tag, v) :: ms)) with (encode p tag v ++ encode_members p ms) in *.
  all: rewrite encode_body, length_app, length_app in Hn, Hf |- *.
  all: rewrite encode_body, <-!app_assoc in Hat.
  all: pose proof (head_type_range _ _ _ _ Hv) as Het.
  all: pose proof (length_element_head p (fst (head_of v)) tag (seen v) ltac:(lia)) as Hh.
  { lia. }
  assert (Hnn : ct <> kTLVType_NotSpecified) by by intros ->.
  pose proof (container_known ct Hct) as Hkn.
  destruct (tracks_accepts _ _ _ _ Hkn Hnn Htr) as [Hc Hcn].
  destruct (allowed_accepts ct (fst (head_of v)) tag Hkn) as [Ha1 Ha2];
    [by eapply valid_plain|unfold EndOfContainer; lia|by eapply valid_allowed|].
  (* the head *)
  destruct (SkipData_passes s d _ _ _ Hat Hsk) as (s1 & E1 & Hat1 & _).
  destruct (ReadElement_head s1 c p (fst (head_of v)) tag (seen v)
              (body p v ++ encode_members p ms ++ e)) as (s2 & E2 & Hat2 & Hon2);
    [exact Hat1|unfold EndOfContainer; lia|by eapply valid_plain|by destruct Hc as [-> | ->]
    |unfold seen; apply wrap_range; lia| |].
  { intros Hl; rewrite (seen_length _ _ _ _ Hv Hl), length_app.
    assert (length (payload v) <= length (body p v))%nat by (destruct v; simpl; lia); lia. }
  destruct fuel as [|fuel]; [lia|].
  unfold continue at 1; rewrite (bind_ok _ _ _ _ _ E1), (bind_ok _ _ _ _ _ E2), loop_step.
  cbv zeta; destruct Hon2 as (He & Ht & Hl); rewrite He.
  rewrite (proj2 (Z.eqb_neq _ EndOfContainer)) by (unfold EndOfContainer; lia).
  rewrite (leaf_type _ _ _ _ Hv); destruct (leaf v) eqn:Elf; cbn [negb].
  - (* a leaf: its payload is skipped at the next pass *)
    rewrite (leaf_body p v Elf) in *.
    destruct (IH ms fuel nest ct c s2 (payload v) e) as (f' & c' & s' & d' & E & ? & ? & ? & ?);
      try done; [lia|lia|by eapply leaf_skippable|].
    exists f', c', s', d'; split_and!; try done; lia.
  - (* a container: its members, its end marker, then the rest *)
    destruct v as [ | | | | | | | |ty ms']; try done.
    inversion Hv as [|? ? ? ? _ Hal Hty Hms']; subst; [done|].
    cbn [body head_of fst] in *; rewrite <-app_assoc in Hat2; rewrite length_app in Hn, Hf |- *.
    cbn [app length] in *.
    destruct (IH ms' fuel (S nest) ty ty (TLVReader.set_container ty s2.1, s2.2) []
                (EndOfContainer :: encode_members p ms ++ e))
      as (f' & c' & s' & d' & E & Hf' & Hat' & Hsk' & Htr'); try done; [lia|lia| | |by left|].
    { by apply (set_container_at ty s2 _ c p). }
    { unfold skippable; change (TLVReader.ElementType _) with (TLVReader.ElementType s2.1); rewrite He.
      by destruct (container_known ty Hty) as [-> | [-> | [-> | ->]]]. }
    rewrite E; clear E; destruct f' as [|f']; [lia|].
    assert (Hcn' : c' <> kTLVType_NotSpecified).
    { destruct Htr' as [-> | ->]; [|done]; intros ->; done. }
    destruct (continue_end f' outer nest ct c' s' d' (encode_members p ms ++ e) p)
      as (c2 & s4 & E4 & Hat4 & Hsk4 & Htr4); try done; [by intros ->; apply Htr|].
    rewrite E4; destruct (IH ms f' nest ct c2 s4 [] e) as (f5 & c5 & s5 & d5 & E5 & ? & ? & ? & ?);
      try done; [lia|lia|].
    exists f5, c5, s5, d5; split_and!; try done; lia.
Qed.

(** Skipping an element leaves the reader right after it. *)
Lemma Skip_element validate s ct p tag v tl :
  at_ s (body p v ++ tl) ct p -> on_ s (fst (head_of v)) tag (seen v) -> valid validate ct tag v ->
  exists s', TLVReader.Skip s = (Ok tt, s') /\ at_ s' tl ct p /\ idle s'.
Proof.
  intros Hat Hon Hv; pose proof (head_type_range _ _ _ _ Hv) as Het; pose proof Hon as (He & Ht & Hl).
  assert (Hclr : forall s0 l, at_ s0 l ct p -> exists s', TLVReader.upd TLVReader.ClearElementState s0 = (Ok tt, s')
                 /\ at_ s' l ct p /\ idle s').
  { intros s0 l H0; eexists; split; [done|]; split; [|by split_and!].
    apply (at_place TLVReader.ClearElementState s0 l ct ct p); try done; apply H0. }
  pose proof (leaf_type _ _ _ _ Hv) as Hlt; destruct (leaf v) eqn:Elf; cbn [negb] in Hlt.
  { rewrite (leaf_body p v Elf) in Hat; unfold TLVReader.Skip, bind at 1, TLVReader.self at 1.
    rewrite He, Hlt, (proj2 (Z.eqb_neq _ EndOfContainer)) by (unfold EndOfContainer; lia).
    unfold bind at 1, verify at 1, ret at 1; cbn [negb].
    destruct (SkipData_passes s _ _ _ _ Hat (leaf_skippable _ _ _ _ _ Hv Elf Hon)) as (s1 & E1 & Hat1 & _).
    rewrite (bind_ok _ _ _ _ _ E1); by apply Hclr. }
  destruct v as [ | | | | | | | |ty ms]; try done.
  inversion Hv as [|? ? ? ? _ _ Hty Hms]; subst; [done|]; cbn [head_of fst body] in *.
  unfold TLVReader.Skip, bind at 1, TLVReader.self at 1; rewrite He, (container_not_end ty Hty), Hty.
  unfold bind at 1, verify at 1, ret at 1; cbn [negb].
  destruct (Enter_on _ _ _ _ _ _ _ Hat Hon Hty) as (s1 & E1 & Hat1 & Hid1).
  rewrite (bind_ok _ _ _ _ _ E1); clear E1; unfold TLVReader.ExitContainer, TLVReader.SkipToEndOfContainer.
  unfold bind at 1 2, TLVReader.upd at 1, modify at 1.
  set (s2 := (TLVReader.SetContainerOpen false s1.1, s1.2)).
  assert (Hat2 : at_ s2 ((encode_members p ms ++ [EndOfContainer]) ++ tl) ty p).
  { apply (at_place (TLVReader.SetContainerOpen false) s1 _ ty); try done; apply Hat1. }
  rewrite <-app_assoc in Hat2.
  pose proof (proj1 (proj2 (proj2 Hat1))) as Hc1; rewrite Hc1.
  pose proof (budget_rest s1 (proj1 Hat1)) as Hb; rewrite (proj1 (proj2 Hat1)), !length_app in Hb.
  cbn [length] in Hb; set (fuel := TLVReader.budget s1) in *; clearbody fuel.
  destruct Hid1 as (Hi1 & Hi2 & Hi3).
  assert (Hloop : exists s3, TLVReader.SkipToEndOfContainer_loop (S fuel) ty 0 s2 = (Ok tt, s3) /\
                             at_ s3 tl ty p).
  { rewrite loop_step; change (TLVReader.ElementType s2.1) with (TLVReader.ElementType s1.1).
    cbv zeta; rewrite (proj2 (Z.eqb_neq _ _) Hi2), Hi1.
    destruct (continue_members validate (length (encode_members p ms)) ty p ms fuel 0 ty ty s2 []
                ([EndOfContainer] ++ tl)) as (f' & c' & s3 & d' & E & Hf & Hat3 & Hsk3 & Htr); try done; [lia| |].
    { unfold skippable; change (TLVReader.ElementType s2.1) with (TLVReader.ElementType s1.1).
      destruct (TLVTypeHasLength _); [|done]; split; [by apply Hi3|done]. }
    rewrite E; clear E; destruct Htr as [_ ->]; destruct f' as [|f']; [lia|].
    destruct (SkipData_passes s3 d' _ _ _ Hat3 Hsk3) as (s4 & E4 & Hat4 & _).
    destruct (ReadElement_end s4 ty p tl Hat4) as (s5 & E5 & Hat5 & Hon5); [by intros ->|].
    unfold continue; rewrite (bind_ok _ _ _ _ _ E4), (bind_ok _ _ _ _ _ E5), loop_step.
    rewrite (proj1 Hon5); by exists s5. }
  destruct Hloop as (s3 & E3 & Hat3); change ((s1.1, s1.2).2) with s1.2.
  fold s2; rewrite E3; unfold TLVReader.upd, modify.
  eexists; split; [done|]; split; [|by split_and!].
  apply (at_place (fun r => TLVReader.ClearElementState (TLVReader.set_container ct r)) s3 _ ty);
    try done; apply Hat3.
Qed.

(** ** Properties *)

Lemma at_initial s p :
  initial s -> at_ (TLVReader.set_ImplicitProfileId p s.1, s.2) (rest s) kTLVType_NotSpecified p /\
               idle (TLVReader.set_ImplicitProfileId p s.1, s.2).
Proof.
  intros Hi; pose proof (initial_wf _ Hi) as Hw.
  assert (Hf : TLVReader.mContainerType s.1 = kTLVType_NotSpecified /\
               TLVReader.mControlByte s.1 = TLVReader.kTLVControlByte_NotSpecified).
  { destruct Hi as [|head bufs maxLen r ? ? ? ? Hi]; [done|].
    unfold TLVReader.Init_store in Hi; bcase_in Hi; [|done]; by injection Hi as <-. }
  destruct Hf as [Hc Hb]; split.
  - by split_and!.
  - unfold idle, TLVReader.ElementType; cbn [fst TLVReader.mControlByte TLVReader.set_ImplicitProfileId].
    by rewrite Hb.
Qed.

(** C13: What the TLV writer encodes, the TLV reader decodes: a forest of
    elements (integers of every width, booleans, floating-point bits, strings,
    nulls, nested structures, arrays and lists, with context, common, implicit
    and fully qualified tags) written into a buffer that has room comes back
    unchanged from a reader over those bytes, whether they lie in one buffer or
    are cut into a chain.  The host is little-endian ([LE]): on a big-endian one the
    reader does not give the values back, whatever the comment in ReadElement says of
    HostSwap (TlvStream.v, [big_endian_value_swapped]). *)
Theorem tlv_roundtrip validate p ms mem
    (Hms : Forall (fun m => valid validate kTLVType_NotSpecified (fst m) (snd m)) ms)
    (Hroom : (length (encode_members p ms) <= length mem)%nat)
    (Hsize : Z.of_nat (length mem) + 17 < 2 ^ 32) :
  let w := TLVWriter.set_ImplicitProfileId p (TLVWriter.Init (Z.of_nat (length mem))) in
  exists w' mem',
    write_members validate ms (w, mem) = (Ok tt, (w', mem')) /\
    let out := take (Z.to_nat (TLVWriter.GetLengthWritten w')) mem' in
    out = encode_members p ms /\
    forall s, initial s -> rest s = out ->
      exists s', read_members (S (length out)) (TLVReader.set_ImplicitProfileId p s.1, s.2) = (Ok ms, s').
Proof.
  intros w.
  assert (Hini : TLVWriter.Init (Z.of_nat (length mem)) = TLVWriter.mk 0 (Z.of_nat (length mem)) 0
    (Z.of_nat (length mem)) 0 kTLVType_NotSpecified TLVWriter.kExpectedInitializationCookie false true
    kProfileIdNotSpecified) by (unfold TLVWriter.Init; by rewrite (proj2 (Z.ltb_lt _ _)) by lia).
  assert (Hw : writing (w, mem)).
  { subst w; rewrite Hini; unfold writing, TlvWriter.wf, room, ready; cbn; split_and!; try done; lia. }
  pose proof (write_members_gen validate ms (w, mem)) as Hwr; cbv zeta in Hwr.
  assert (Hp : TLVWriter.ImplicitProfileId w = p) by done.
  cbn [fst] in Hwr; rewrite Hp in Hwr.
  assert (Hct : TLVWriter.mContainerType w = kTLVType_NotSpecified) by (subst w; by rewrite Hini).
  rewrite Hct in Hwr.
  eexists _, _; split.
  - apply Hwr; try done; [|subst w; rewrite Hini; unfold room; cbn; lia].
    apply Forall_forall; intros; apply write_element_spec.
  - set (out := take _ _).
    assert (Hout : out = encode_members p ms).
    { subst out w; unfold written, TLVWriter.GetLengthWritten; rewrite Hini; cbn.
      rewrite Z.add_0_l, Nat2Z.id, take_0, app_nil_l; apply take_app_length. }
    split; [done|]; intros s Hi Hr; rewrite Hout in *.
    destruct (at_initial s p Hi) as [Hat Hid]; rewrite Hr in Hat.
    by eapply read_members_spec.
Qed.

(** C35: Skipping is exact: from a position in front of an element, [Next] stops
    on it and [Skip] (which [Next] starts with) leaves the reader right after
    its last byte, in the same container, whatever strings and containers the
    element holds.  The host is little-endian ([LE]): on a big-endian one the length of
    a string is read with its bytes swapped, as every number is (TlvStream.v,
    [big_endian_value_swapped]). *)
Theorem skip_passes_element validate s ct p tag v tl
    (Hct : known_container ct) (Hv : valid validate ct tag v)
    (Hat : at_ s (encode p tag v ++ tl) ct p) (Hid : idle s) :
  exists s1 s2, TLVReader.Next s = (Ok tt, s1) /\ TLVReader.GetTag s1.1 = tag /\
                TLVReader.Skip s1 = (Ok tt, s2) /\ rest s2 = tl /\
                TLVReader.GetContainerType s2.1 = ct.
Proof.
  destruct (Next_element validate s ct ct p tag v tl) as (s1 & E1 & Hat1 & Hon1); try done; [by left|].
  destruct (Skip_element validate s1 ct p tag v tl Hat1 Hon1 Hv) as (s2 & E2 & Hat2 & _).
  exists s1, s2; split_and!; try done; [apply Hon1|apply Hat2|apply Hat2].
Qed.
End Reading.

(** ** Witnesses *)

(** [{1: [-5, "hi"], 0xFFF1/2/70000: {}}, vendor-implicit 9: 3000] *)
Definition example_forest : list (Z * tlv) :=
  [(AnonymousTag, TContainer kTLVType_Structure
     [(ContextTag 1, TContainer kTLVType_Array
         [(AnonymousTag, TInt (-5)); (AnonymousTag, TUtf8 [0x68; 0x69])]);
      (VendorProfileTag 0xFFF1 2 70000, TContainer kTLVType_List [])]);
   (ProfileTag 0x12340005 9, TUInt 3000)].

Definition example_profile : Z := 0x12340005.

Lemma example_forest_valid :
  Forall (fun m => valid true kTLVType_NotSpecified (fst m) (snd m)) example_forest.
Proof.
  assert (Hplain : forall t, bool_decide (is_u64 t) && (negb (IsSpecialTag t) ||
            (TagNumFromTag t <=? kAnonymousTagNum)) = true -> plain_tag t).
  { intros t [Hu Hs]%andb_true_iff; apply bool_decide_eq_true in Hu; split; [done|].
    intros E; rewrite E in Hs; by apply Z.leb_le. }
  repeat first [apply Forall_nil|apply Forall_cons|apply valid_container];
    cbn [fst snd]; try (apply Hplain; vm_compute; reflexivity); try reflexivity.
  all: apply valid_leaf; [apply Hplain; vm_compute; reflexivity|reflexivity|].
  all: try (unfold is_uint; lia).
  split_and!; [|vm_compute; reflexivity|by intros _].
  unfold bytes_ok; apply (bool_decide_unpack _); vm_compute; exact I.
Qed.

#[local] Existing Instances reference_byte_order little_endian_host.

Lemma tlv_roundtrip_witness :
  exists w' mem',
    write_members true example_forest
      (TLVWriter.set_ImplicitProfileId example_profile (TLVWriter.Init 40), replicate 40 0)
      = (Ok tt, (w', mem')) /\
    let out := take (Z.to_nat (TLVWriter.GetLengthWritten w')) mem' in
    out = encode_members example_profile example_forest /\
    forall s, initial s -> rest s = out ->
      exists s', read_members (S (length out))
        (TLVReader.set_ImplicitProfileId example_profile s.1, s.2) = (Ok example_forest, s').
Proof.
  apply (@tlv_roundtrip reference_byte_order little_endian_host eq_refl true example_profile example_forest (replicate 40 0)).
  - exact example_forest_valid.
  - vm_compute; repeat constructor.
  - vm_compute; reflexivity.
Defined.

Lemma skip_passes_element_witness :
  exists s1 s2,
    TLVReader.Next (TLVReader.Init [0x15; 0x36; 1; 0; 0xFB; 0x18; 0x18; 9], []) = (Ok tt, s1) /\
    TLVReader.GetTag s1.1 = AnonymousTag /\ TLVReader.Skip s1 = (Ok tt, s2) /\ rest s2 = [9] /\
    TLVReader.GetContainerType s2.1 = kTLVType_NotSpecified.
Proof.
  apply (@skip_passes_element reference_byte_order little_endian_host eq_refl true
           (TLVReader.Init [0x15; 0x36; 1; 0; 0xFB; 0x18; 0x18; 9], []) kTLVType_NotSpecified
           kProfileIdNotSpecified AnonymousTag
           (TContainer kTLVType_Structure
              [(ContextTag 1, TContainer kTLVType_Array [(AnonymousTag, TInt (-5))])]) [9]).
  - by left.
  - assert (Hplain : forall t, 0 <= t <= 256 -> plain_tag t).
    { intros t Ht; split; [unfold is_uint; lia|intros _; unfold TagNumFromTag, kAnonymousTagNum].
      rewrite wrap_small; unfold is_uint; lia. }
    repeat first [apply Forall_nil|apply Forall_cons|apply valid_container]; cbn [fst snd];
      try (apply Hplain; vm_compute; split; discriminate); try reflexivity.
    apply valid_leaf; [apply Hplain; vm_compute; split; discriminate|reflexivity|lia].
  - split; [apply wf_Init|split_and!; reflexivity].
    unfold bytes_ok; apply (bool_decide_unpack _); vm_compute; exact I.
  - split_and!; try done.
Defined.
