(* ===== verification/Btp.v ===== *)
(** * Btp: fragmentation and reassembly of messages over BLE

    Model of class [BtpEngine] of src/src/ble/BtpEngine.{h,cpp}, the Bluetooth
    transport protocol: messages are cut into fragments with a sequence number, a
    fragment may carry the acknowledgement of the fragments received.

    Module [BtpEngine]: the fields of the class are grouped by direction, [RxSide]
    and [TxSide].  Handles to packet buffers are chains, null is the empty chain.
    [Frame] is the abstract view: what a fragment says, with its bytes [encode].
    - [send_first_spec], [send_next_spec]: what [HandleCharacteristicSend] does;
    - [receive_spec]: what [HandleCharacteristicReceived] does with a fragment
      that follows the protocol;
    - [IsValidAck_spec] and the lemmas on sequence numbers relate the 8-bit
      counters to unbounded ones. *)

From S2P Require Import Prelude Encoding PacketBuffer.

Module BtpEngine.

(** ** Data *)

Inductive State_t := kState_Idle | kState_InProgress | kState_Complete | kState_Error.

#[global] Instance State_t_eq_dec : EqDecision State_t.
Proof. solve_decision. Defined.

(** [HeaderFlags] *)
Definition kStartMessage : Z := 1.
Definition kContinueMessage : Z := 2.
Definition kEndMessage : Z := 4.
Definition kFragmentAck : Z := 8.

Definition kTransferProtocolAckSize : nat := 1.
Definition kTransferProtocolMaxHeaderSize : nat := 5.
Definition kTransferProtocolMidFragmentMaxHeaderSize : nat := 3.
Definition kTransferProtocolStandaloneAckHeaderSize : nat := 3.
Definition CHIP_CONFIG_BLE_PKT_RESERVED_SIZE : nat := 0.

Definition sDefaultFragmentSize : Z := 20.
Definition sMaxFragmentSize : Z := 244.
Definition sMinFragmentSize : Z := 6.

(** [PacketBuffer::kMaxSize] *)
Definition kMaxSize : nat := kMaxSizeWithoutReserve - kDefaultHeaderReserve.

(** The receiving half of the engine; a [SequenceNumber_t] is a [uint8_t]. *)
Record RxSide := MkRx {
  mRxState : State_t;
  mRxBuf : chain;
  mRxNextSeqNum : Z;
  mRxNewestUnackedSeqNum : Z;
  mRxOldestUnackedSeqNum : Z;
  mRxFragmentSize : Z;
  mRxLength : Z;
  mRxCharCount : Z;
  mRxPacketCount : Z }.

(** The sending half. *)
Record TxSide := MkTx {
  mTxState : State_t;
  mTxBuf : chain;
  mTxNextSeqNum : Z;
  mTxNewestUnackedSeqNum : Z;
  mTxOldestUnackedSeqNum : Z;
  mTxFragmentSize : Z;
  mTxLength : Z;
  mTxCharCount : Z;
  mTxPacketCount : Z;
  mExpectingAck : bool }.

Record t := MkBtpEngine {
  rx : RxSide;
  tx : TxSide }.

Definition set_mRxState (v : State_t) (r : RxSide) : RxSide :=
  MkRx v (mRxBuf r) (mRxNextSeqNum r) (mRxNewestUnackedSeqNum r) (mRxOldestUnackedSeqNum r)
    (mRxFragmentSize r) (mRxLength r) (mRxCharCount r) (mRxPacketCount r).
Definition set_mRxBuf (v : chain) (r : RxSide) : RxSide :=
  MkRx (mRxState r) v (mRxNextSeqNum r) (mRxNewestUnackedSeqNum r)
    (mRxOldestUnackedSeqNum r) (mRxFragmentSize r) (mRxLength r) (mRxCharCount r)
    (mRxPacketCount r).
Definition set_mRxNextSeqNum (v : Z) (r : RxSide) : RxSide :=
  MkRx (mRxState r) (mRxBuf r) v (mRxNewestUnackedSeqNum r) (mRxOldestUnackedSeqNum r)
    (mRxFragmentSize r) (mRxLength r) (mRxCharCount r) (mRxPacketCount r).
Definition set_mRxNewestUnackedSeqNum (v : Z) (r : RxSide) : RxSide :=
  MkRx (mRxState r) (mRxBuf r) (mRxNextSeqNum r) v (mRxOldestUnackedSeqNum r)
    (mRxFragmentSize r) (mRxLength r) (mRxCharCount r) (mRxPacketCount r).
Definition set_mRxFragmentSize (v : Z) (r : RxSide) : RxSide :=
  MkRx (mRxState r) (mRxBuf r) (mRxNextSeqNum r) (mRxNewestUnackedSeqNum r)
    (mRxOldestUnackedSeqNum r) v (mRxLength r) (mRxCharCount r) (mRxPacketCount r).
Definition set_mRxLength (v : Z) (r : RxSide) : RxSide :=
  MkRx (mRxState r) (mRxBuf r) (mRxNextSeqNum r) (mRxNewestUnackedSeqNum r)
    (mRxOldestUnackedSeqNum r) (mRxFragmentSize r) v (mRxCharCount r) (mRxPacketCount r).
Definition set_mRxCharCount (v : Z) (r : RxSide) : RxSide :=
  MkRx (mRxState r) (mRxBuf r) (mRxNextSeqNum r) (mRxNewestUnackedSeqNum r)
    (mRxOldestUnackedSeqNum r) (mRxFragmentSize r) (mRxLength r) v (mRxPacketCount r).
Definition set_mRxPacketCount (v : Z) (r : RxSide) : RxSide :=
  MkRx (mRxState r) (mRxBuf r) (mRxNextSeqNum r) (mRxNewestUnackedSeqNum r)
    (mRxOldestUnackedSeqNum r) (mRxFragmentSize r) (mRxLength r) (mRxCharCount r) v.
Definition set_mTxState (v : State_t) (t : TxSide) : TxSide :=
  MkTx v (mTxBuf t) (mTxNextSeqNum t) (mTxNewestUnackedSeqNum t) (mTxOldestUnackedSeqNum t)
    (mTxFragmentSize t) (mTxLength t) (mTxCharCount t) (mTxPacketCount t) (mExpectingAck t).
Definition set_mTxBuf (v : chain) (t : TxSide) : TxSide :=
  MkTx (mTxState t) v (mTxNextSeqNum t) (mTxNewestUnackedSeqNum t)
    (mTxOldestUnackedSeqNum t) (mTxFragmentSize t) (mTxLength t) (mTxCharCount t)
    (mTxPacketCount t) (mExpectingAck t).
Definition set_mTxNextSeqNum (v : Z) (t : TxSide) : TxSide :=
  MkTx (mTxState t) (mTxBuf t) v (mTxNewestUnackedSeqNum t) (mTxOldestUnackedSeqNum t)
    (mTxFragmentSize t) (mTxLength t) (mTxCharCount t) (mTxPacketCount t) (mExpectingAck t).
Definition set_mTxNewestUnackedSeqNum (v : Z) (t : TxSide) : TxSide :=
  MkTx (mTxState t) (mTxBuf t) (mTxNextSeqNum t) v (mTxOldestUnackedSeqNum t)
    (mTxFragmentSize t) (mTxLength t) (mTxCharCount t) (mTxPacketCount t) (mExpectingAck t).
Definition set_mTxOldestUnackedSeqNum (v : Z) (t : TxSide) : TxSide :=
  MkTx (mTxState t) (mTxBuf t) (mTxNextSeqNum t) (mTxNewestUnackedSeqNum t) v
    (mTxFragmentSize t) (mTxLength t) (mTxCharCount t) (mTxPacketCount t) (mExpectingAck t).
Definition set_mTxFragmentSize (v : Z) (t : TxSide) : TxSide :=
  MkTx (mTxState t) (mTxBuf t) (mTxNextSeqNum t) (mTxNewestUnackedSeqNum t)
    (mTxOldestUnackedSeqNum t) v (mTxLength t) (mTxCharCount t) (mTxPacketCount t)
    (mExpectingAck t).
Definition set_mTxLength (v : Z) (t : TxSide) : TxSide :=
  MkTx (mTxState t) (mTxBuf t) (mTxNextSeqNum t) (mTxNewestUnackedSeqNum t)
    (mTxOldestUnackedSeqNum t) (mTxFragmentSize t) v (mTxCharCount t) (mTxPacketCount t)
    (mExpectingAck t).
Definition set_mTxCharCount (v : Z) (t : TxSide) : TxSide :=
  MkTx (mTxState t) (mTxBuf t) (mTxNextSeqNum t) (mTxNewestUnackedSeqNum t)
    (mTxOldestUnackedSeqNum t) (mTxFragmentSize t) (mTxLength t) v (mTxPacketCount t)
    (mExpectingAck t).
Definition set_mTxPacketCount (v : Z) (t : TxSide) : TxSide :=
  MkTx (mTxState t) (mTxBuf t) (mTxNextSeqNum t) (mTxNewestUnackedSeqNum t)
    (mTxOldestUnackedSeqNum t) (mTxFragmentSize t) (mTxLength t) (mTxCharCount t) v
    (mExpectingAck t).
Definition set_mExpectingAck (v : bool) (t : TxSide) : TxSide :=
  MkTx (mTxState t) (mTxBuf t) (mTxNextSeqNum t) (mTxNewestUnackedSeqNum t)
    (mTxOldestUnackedSeqNum t) (mTxFragmentSize t) (mTxLength t) (mTxCharCount t)
    (mTxPacketCount t) v.

Definition upd_rx (f : RxSide -> RxSide) (e : t) : t := MkBtpEngine (f (rx e)) (tx e).
Definition upd_tx (f : TxSide -> TxSide) (e : t) : t := MkBtpEngine (rx e) (f (tx e)).

(** ** Sequence numbers *)

Definition IncSeqNum (a_seq_num : Z) : Z := Z.land 255 (a_seq_num + 1).

(** [Init(an_app_state, expect_first_ack)]; the application state is only
    logged.  [mRxLength] and [mTxLength] are not initialised by the code: they are
    [rx_len] and [tx_len]. *)
Definition Init (rx_len tx_len : Z) (expect_first_ack : bool) : t :=
  MkBtpEngine
    (MkRx kState_Idle [] (if expect_first_ack then 0 else 1) 0 0 sDefaultFragmentSize
          rx_len 0 0)
    (MkTx kState_Idle [] (if expect_first_ack then 1 else 0) 0 0 sDefaultFragmentSize
          tx_len 0 0 expect_first_ack).

Definition clamp (v lo hi : Z) : Z := if v <? lo then lo else if hi <? v then hi else v.
Definition SetTxFragmentSize (size : Z) : t -> t :=
  upd_tx (set_mTxFragmentSize (clamp size sMinFragmentSize sMaxFragmentSize)).
Definition SetRxFragmentSize (size : Z) : t -> t :=
  upd_rx (set_mRxFragmentSize (clamp size sMinFragmentSize sMaxFragmentSize)).

Definition GetAndIncrementNextTxSeqNum (e : TxSide) : Z * TxSide :=
  let next := mTxNextSeqNum e in
  let e := if mExpectingAck e then e
           else set_mTxOldestUnackedSeqNum next (set_mExpectingAck true e) in
  (next, set_mTxNextSeqNum (IncSeqNum next) (set_mTxNewestUnackedSeqNum next e)).

Definition GetAndRecordRxAckSeqNum (r : RxSide) : Z * RxSide :=
  (mRxNewestUnackedSeqNum r,
   MkRx (mRxState r) (mRxBuf r) (mRxNextSeqNum r) (mRxNextSeqNum r) (mRxNextSeqNum r)
        (mRxFragmentSize r) (mRxLength r) (mRxCharCount r) (mRxPacketCount r)).

Definition HasUnackedData (e : t) : bool :=
  negb (mRxOldestUnackedSeqNum (rx e) =? mRxNextSeqNum (rx e)).

Definition IsValidAck (e : TxSide) (ack_num : Z) : bool :=
  if negb (mExpectingAck e) then false
  else if mTxOldestUnackedSeqNum e <=? mTxNewestUnackedSeqNum e then
    (ack_num <=? mTxNewestUnackedSeqNum e) && (mTxOldestUnackedSeqNum e <=? ack_num)
  else (ack_num <=? mTxNewestUnackedSeqNum e) || (mTxOldestUnackedSeqNum e <=? ack_num).

Definition HandleAckReceived (e : TxSide) (ack_num : Z) : CHIP_ERROR * TxSide :=
  if negb (IsValidAck e ack_num) then (BLE_ERROR_INVALID_ACK, e)
  else if mTxNewestUnackedSeqNum e =? ack_num then
    (CHIP_NO_ERROR, set_mExpectingAck false (set_mTxOldestUnackedSeqNum ack_num e))
  else (CHIP_NO_ERROR, set_mTxOldestUnackedSeqNum (IncSeqNum ack_num) e).

(** ** Writing a fragment *)

(** Stores at a pointer, given as its distance to the start of the allocation:
    [None] outside it, which C++ gives no meaning to. *)
Definition poke (characteristic : Z) (d : bytes) (p : PBuf) : option PBuf :=
  if (0 <=? characteristic) && (characteristic + Z.of_nat (length d) <=? Z.of_nat (AllocSize p))
  then Some (MkPBuf (mem_write (Z.to_nat characteristic) d (pMem p)) (pPayload p) (pTotLen p)
                    (pLen p) (pRef p))
  else None.

(** [EncodeStandAloneAck(data)] on a buffer; the error it returns keeps the engine. *)
Definition EncodeStandAloneAck (e : t) (data : PBuf) : option (CHIP_ERROR * t * PBuf) :=
  let (ok, data) := EnsureReservedSize data CHIP_CONFIG_BLE_PKT_RESERVED_SIZE in
  if negb ok then Some (CHIP_ERROR_NO_MEMORY, e, data)
  else if (MaxDataLength data <? kTransferProtocolStandaloneAckHeaderSize)%nat
  then Some (CHIP_ERROR_NO_MEMORY, e, data)
  else
    let (ack, r) := GetAndRecordRxAckSeqNum (rx e) in
    let (seq, s) := GetAndIncrementNextTxSeqNum (tx e) in
    data ← poke (Z.of_nat (pPayload data)) [kFragmentAck; ack; seq] data;
    Some (CHIP_NO_ERROR, MkBtpEngine r s,
          snd (SetDataLength [] data kTransferProtocolStandaloneAckHeaderSize)).

(** The octets after the flags: the piggybacked acknowledgement, if any, and the
    sequence number; with the engine that recorded both. *)
Definition FragmentNumbers (e : t) (send_ack : bool) : bytes * t :=
  let (acks, r) :=
    if send_ack then let (ack, r) := GetAndRecordRxAckSeqNum (rx e) in ([ack], r)
    else ([], rx e) in
  let (seq, s) := GetAndIncrementNextTxSeqNum (tx e) in
  (acks ++ [seq], MkBtpEngine r s).

(** The end of both branches of [HandleCharacteristicSend]: the lengths, the
    state and the flags of the fragment that starts at [characteristic], of which
    [cursor] octets are header. *)
Definition FinishFragment (e : t) (p : PBuf) (next : chain) (characteristic : Z)
    (cursor : nat) (headerFlags : Z) : option (bool * t) :=
  let total := mTxLength (tx e) + Z.of_nat cursor in
  if total <=? mTxFragmentSize (tx e) then
    let p := snd (SetDataLength [] p (Z.to_nat (wrap 16 total))) in
    p ← poke characteristic [BitFlags.Set_ headerFlags kEndMessage] p;
    Some (true, upd_tx (fun s => set_mTxBuf (p :: next) (set_mTxLength 0
                  (set_mTxState kState_Complete
                     (set_mTxPacketCount (mTxPacketCount s +{16} 1) s)))) e)
  else
    let p := snd (SetDataLength [] p (Z.to_nat (mTxFragmentSize (tx e)))) in
    p ← poke characteristic [headerFlags] p;
    Some (true, upd_tx (fun s => set_mTxBuf (p :: next)
                  (set_mTxLength (wrap 16 (total - mTxFragmentSize s)) s)) e).

(** The first fragment of the message in [p]; only the head of a chain is sent. *)
Definition SendFirstFragment (e : t) (p : PBuf) (next : chain) (send_ack : bool)
    : option (bool * t) :=
  let e := upd_tx (fun s => set_mTxBuf (p :: next) (set_mTxState kState_InProgress s)) e in
  if 65535 <? Z.of_nat (DataLength p) then Some (false, e)
  else
    let mTxLength := Z.of_nat (DataLength p) in
    let e := upd_tx (set_mTxLength mTxLength) e in
    let header_size :=
      if send_ack then kTransferProtocolMaxHeaderSize
      else (kTransferProtocolMaxHeaderSize - kTransferProtocolAckSize)%nat in
    let (ok, p) := EnsureReservedSize p (header_size + CHIP_CONFIG_BLE_PKT_RESERVED_SIZE) in
    if negb ok then
      Some (false, upd_tx (fun s => set_mTxState kState_Error (set_mTxBuf [] s)) e)
    else
      let characteristic := Z.of_nat (pPayload p) - Z.of_nat header_size in
      let p := SetStart p characteristic in
      let headerFlags :=
        if send_ack then BitFlags.Set_ kStartMessage kFragmentAck else kStartMessage in
      let (numbers, e) := FragmentNumbers e send_ack in
      p ← poke (characteristic + 1)
            (numbers ++ [Z.land mTxLength 255; Z.shiftr mTxLength 8]) p;
      FinishFragment e p next characteristic (length numbers + 3) headerFlags.

(** A further fragment of the message in [p], the fragment sent before. *)
Definition SendNextFragment (e : t) (p : PBuf) (next : chain) (send_ack : bool)
    : option (bool * t) :=
  let characteristic :=
    Z.of_nat (pPayload p) + mTxFragmentSize (tx e) -
    Z.of_nat (if send_ack then kTransferProtocolMidFragmentMaxHeaderSize
              else kTransferProtocolMidFragmentMaxHeaderSize - kTransferProtocolAckSize) in
  let p := SetStart p characteristic in
  let headerFlags :=
    if send_ack then BitFlags.Set_ kContinueMessage kFragmentAck else kContinueMessage in
  let (numbers, e) := FragmentNumbers e send_ack in
  p ← poke (characteristic + 1) numbers p;
  FinishFragment e p next characteristic (length numbers + 1) headerFlags.

(** [HandleCharacteristicSend(data, send_ack)]: whether it succeeded.  [None]: a
    store outside the buffer, or a null transmit buffer in progress. *)
Definition HandleCharacteristicSend (e : t) (data : chain) (send_ack : bool)
    : option (bool * t) :=
  let e := upd_tx (fun s => set_mTxCharCount (mTxCharCount s +{16} 1) s) e in
  if send_ack && negb (HasUnackedData e) then Some (false, e)
  else
    match mTxState (tx e), data with
    | kState_Idle, [] => Some (false, e)
    | kState_Idle, p :: next => SendFirstFragment e p next send_ack
    | kState_InProgress, _ :: _ => Some (false, e)
    | kState_InProgress, [] =>
        match mTxBuf (tx e) with
        | [] => None
        | p :: next => SendNextFragment e p next send_ack
        end
    | _, _ => Some (false, e)
    end.

(** [TakeTxPacket()], [TakeRxPacket()]: the handle given away leaves null. *)
Definition TakeTxPacket (e : t) : chain * t :=
  (mTxBuf (tx e),
   upd_tx (fun s => set_mTxBuf [] (if decide (mTxState s = kState_Complete)
                                   then set_mTxState kState_Idle s else s)) e).
Definition TakeRxPacket (e : t) : chain * t :=
  (mRxBuf (rx e),
   upd_rx (fun r => set_mRxBuf [] (if decide (mRxState r = kState_Complete)
                                   then set_mRxState kState_Idle r else r)) e).

(** ** Receiving a fragment *)

Section Receive.
Context `{ByteOrder} `{PlatformMemory} (tcp : bool).

(** The engine, the handle [data], and the output arguments of
    [HandleCharacteristicReceived]. *)
Record Ctx := MkCtx {
  engine : t;
  cData : chain;
  receivedAck : Z;
  didReceiveAck : bool;
  cHeap : heap }.

Definition upd_engine (f : t -> t) : M Ctx unit :=
  modify (fun c => MkCtx (f (engine c)) (cData c) (receivedAck c) (didReceiveAck c) (cHeap c)).
Definition put_data (d : chain) : M Ctx unit :=
  modify (fun c => MkCtx (engine c) d (receivedAck c) (didReceiveAck c) (cHeap c)).

(** A read of [n] bytes whose status is checked at once. *)
Definition reading (n : nat) (r : Reader) : M Ctx (Z * Reader) := fun c =>
  let (v, r) := rd n r in
  (match v with Ok v => Ok (v, r) | Err err => Err err end, c).

(** A [VerifyOrDie] of the packet buffers. *)
Definition or_die {A} (o : option A) : M Ctx A :=
  match o with Some a => ret a | None => fail PROGRAM_ABORT end.

Definition DidReceiveData (rx_flags : Z) : bool :=
  BitFlags.HasAny rx_flags [kStartMessage; kContinueMessage; kEndMessage].

(** The acknowledgement in a fragment. *)
Definition ReceiveAck (reader : Reader) (rx_flags : Z) : M Ctx Reader :=
  let did := BitFlags.Has rx_flags kFragmentAck in
  modify (fun c => MkCtx (engine c) (cData c) (receivedAck c) did (cHeap c)) ;;
  if did then
    let! (ack, reader) := reading 1 reader in
    modify (fun c => MkCtx (engine c) (cData c) ack (didReceiveAck c) (cHeap c)) ;;
    let! c := get in
    let (err, s) := HandleAckReceived (tx (engine c)) ack in
    upd_engine (upd_tx (fun _ => s)) ;;
    verify (bool_decide (err = CHIP_NO_ERROR)) err ;;
    ret reader
  else ret reader.

(** The header of the fragment, up to the payload; whether there is a payload. *)
Definition ReceiveHeader (p : PBuf) (next : chain) : M Ctx (Z * bool) :=
  let reader := Reader_new (data p) in
  upd_engine (upd_rx (fun r => set_mRxCharCount (mRxCharCount r +{16} 1) r)) ;;
  let! (rx_flags, reader) := reading 1 reader in
  let! reader := ReceiveAck reader rx_flags in
  let! (seq, reader) := reading 1 reader in
  upd_engine (upd_rx (set_mRxNewestUnackedSeqNum seq)) ;;
  let! c := get in
  verify (seq =? mRxNextSeqNum (rx (engine c))) BLE_ERROR_INVALID_BTP_SEQUENCE_NUMBER ;;
  upd_engine (upd_rx (fun r => set_mRxNextSeqNum (IncSeqNum (mRxNextSeqNum r)) r)) ;;
  if negb (DidReceiveData rx_flags) then ret (rx_flags, false)
  else
    verify (Z.of_nat (OctetsRead reader) <=? mRxFragmentSize (rx (engine c)))
           BLE_ERROR_REASSEMBLER_INCORRECT_STATE ;;
    let p := snd (SetDataLength [] p
                    (Nat.min (DataLength p) (Z.to_nat (mRxFragmentSize (rx (engine c)))))) in
    put_data (ConsumeHead p (OctetsRead reader) :: next) ;;
    ret (rx_flags, true).

(** [mRxBuf->AddToEnd(std::move(data)); mRxBuf->CompactHead();] and the check that
    the message still fits in one buffer. *)
Definition AppendFragment : M Ctx unit :=
  let! c := get in
  let! buf := or_die (AddToEnd (mRxBuf (rx (engine c))) (cData c)) in
  put_data [] ;;
  let! buf := or_die (CompactHead buf) in
  upd_engine (upd_rx (set_mRxBuf buf)) ;;
  verify (length buf =? 1)%nat CHIP_ERROR_INBOUND_MESSAGE_TOO_BIG.

(** The reassembler on the payload of the fragment. *)
Definition Reassemble (rx_flags : Z) : M Ctx unit :=
  let! c := get in
  match mRxState (rx (engine c)), cData c with
  | kState_Idle, p :: next =>
      let startReader := Reader_new (data p) in
      verify (BitFlags.Has rx_flags kStartMessage) BLE_ERROR_INVALID_BTP_HEADER_FLAGS ;;
      let! (len, startReader) := reading 2 startReader in
      upd_engine (upd_rx (fun r => set_mRxState kState_InProgress (set_mRxLength len r))) ;;
      put_data (ConsumeHead p (OctetsRead startReader) :: next) ;;
      let (buf, h) := New tcp kMaxSize kDefaultHeaderReserve (cHeap c) in
      modify (fun c => MkCtx (engine c) (cData c) (receivedAck c) (didReceiveAck c) h) ;;
      upd_engine (upd_rx (set_mRxBuf (option_list buf))) ;;
      verify (bool_decide (is_Some buf)) CHIP_ERROR_NO_MEMORY ;;
      AppendFragment
  | kState_InProgress, _ =>
      verify (negb (BitFlags.Has rx_flags kStartMessage)) BLE_ERROR_INVALID_BTP_HEADER_FLAGS ;;
      verify (BitFlags.HasAny rx_flags [kContinueMessage; kEndMessage])
             BLE_ERROR_INVALID_BTP_HEADER_FLAGS ;;
      AppendFragment
  | _, _ => fail BLE_ERROR_REASSEMBLER_INCORRECT_STATE
  end.

(** The end of a message: padding is cut off, all octets must be there. *)
Definition EndMessage : M Ctx unit :=
  let! c := get in
  let r := rx (engine c) in
  match mRxBuf r with
  | [] => fail UNDEFINED_BEHAVIOUR
  | p :: next =>
      verify (Z.of_nat (DataLength p) <=? 65535) CHIP_ERROR_MESSAGE_TOO_LONG ;;
      let padding := Z.of_nat (DataLength p) - mRxLength r in
      let p := if 0 <? padding then snd (SetDataLength [] p (Z.to_nat (mRxLength r))) else p in
      upd_engine (upd_rx (set_mRxBuf (p :: next))) ;;
      verify (Z.of_nat (DataLength p) =? mRxLength r) BLE_ERROR_REASSEMBLER_MISSING_DATA ;;
      upd_engine (upd_rx (fun r => set_mRxState kState_Complete
                                     (set_mRxPacketCount (mRxPacketCount r +{16} 1) r)))
  end.

Definition ReceiveBody : M Ctx unit :=
  let! c := get in
  match cData c with
  | [] => fail CHIP_ERROR_INVALID_ARGUMENT
  | p :: next =>
      let! (rx_flags, payload) := ReceiveHeader p next in
      if payload then
        Reassemble rx_flags ;;
        if BitFlags.Has rx_flags kEndMessage then EndMessage else ret tt
      else ret tt
  end.

(** The exit of an error: the data is tacked onto the reassembly buffer. *)
Definition ReceiveExit (err : CHIP_ERROR) : M Ctx unit :=
  upd_engine (upd_rx (set_mRxState kState_Error)) ;;
  let! c := get in
  let! buf := match cData c with
              | [] => ret (mRxBuf (rx (engine c)))
              | d => or_die (HandleAddToEnd (mRxBuf (rx (engine c))) d)
              end in
  upd_engine (upd_rx (set_mRxBuf buf)) ;;
  put_data [] ;;
  fail err.

(** [HandleCharacteristicReceived(data, receivedAck, didReceiveAck)] *)
Definition HandleCharacteristicReceived : M Ctx unit := fun c =>
  match ReceiveBody c with
  | (Ok _, c) => (Ok tt, c)
  | (Err PROGRAM_ABORT, c) => (Err PROGRAM_ABORT, c)
  | (Err UNDEFINED_BEHAVIOUR, c) => (Err UNDEFINED_BEHAVIOUR, c)
  | (Err err, c) => ReceiveExit err c
  end.

End Receive.

(** ** Sequence numbers and unbounded counters

    [tx_at U S]: fragments below [S] were sent, those from [U] on are not
    acknowledged.  [rx_at O R]: fragments below [R] were received, those from [O]
    on not acknowledged. *)
Definition tx_at (U S : Z) (s : TxSide) : Prop :=
  0 <= U <= S /\ mTxNextSeqNum s = S mod 256 /\ mExpectingAck s = (U <? S) /\
  (U < S -> mTxOldestUnackedSeqNum s = U mod 256) /\
  (0 < S -> mTxNewestUnackedSeqNum s = (S - 1) mod 256).

Definition rx_at (O R : Z) (r : RxSide) : Prop :=
  0 <= O <= R /\ mRxNextSeqNum r = R mod 256 /\ mRxOldestUnackedSeqNum r = O mod 256 /\
  (O < R -> mRxNewestUnackedSeqNum r = (R - 1) mod 256).

(** The fields that hold the message. *)
Definition tx_message (s : TxSide) : State_t * chain * Z * Z :=
  (mTxState s, mTxBuf s, mTxFragmentSize s, mTxLength s).
Definition rx_message (r : RxSide) : State_t * chain * Z * Z :=
  (mRxState r, mRxBuf r, mRxFragmentSize r, mRxLength r).

Lemma IncSeqNum_mod n : IncSeqNum (n mod 256) = (n + 1) mod 256.
Proof.
  unfold IncSeqNum; rewrite Z.land_comm, land_255; by rewrite Zplus_mod_idemp_l.
Qed.

Lemma mod_256_eq a b : a mod 256 = b mod 256 -> Z.abs (a - b) < 256 -> a = b.
Proof.
  intros H ?; pose proof (Z.div_mod a 256); pose proof (Z.div_mod b 256); lia.
Qed.

Lemma GetAndIncrementNextTxSeqNum_spec U S s :
  tx_at U S s ->
  exists s', GetAndIncrementNextTxSeqNum s = (S mod 256, s') /\ tx_at U (S + 1) s' /\
    tx_message s' = tx_message s.
Proof.
  intros (HU & Hn & He & Ho & Hw); unfold GetAndIncrementNextTxSeqNum; rewrite Hn, He.
  cbv zeta; match goal with |- exists _, (_, ?x) = _ /\ _ => exists x end.
  split; [done|]; split; [|by destruct (U <? S)].
  destruct (Z.ltb_spec U S) as [HS|HS]; unfold tx_at; simpl; rewrite IncSeqNum_mod.
  - split_and!; [lia|lia|done|symmetry; rewrite He; by apply Z.ltb_lt; lia| |]; intros _;
      [by apply Ho|f_equal; lia].
  - assert (U = S) as -> by lia.
    split_and!; [lia|lia|done|symmetry; apply Z.ltb_lt; lia|done|]; intros _; f_equal; lia.
Qed.

Lemma GetAndRecordRxAckSeqNum_spec O R r :
  rx_at O R r -> O < R ->
  exists r', GetAndRecordRxAckSeqNum r = ((R - 1) mod 256, r') /\ rx_at R R r' /\
    rx_message r' = rx_message r.
Proof.
  intros (HO & Hn & Ho & Hw) HR; unfold GetAndRecordRxAckSeqNum; rewrite (Hw HR).
  eexists; split_and!; [done| |done]; unfold rx_at; simpl; rewrite Hn; split_and!; lia.
Qed.

Lemma HasUnackedData_spec O R e :
  rx_at O R (rx e) -> R - O < 256 -> HasUnackedData e = (O <? R).
Proof.
  intros (HO & Hn & Ho & _) ?; unfold HasUnackedData; rewrite Hn, Ho.
  destruct (Z.ltb_spec O R); bcase; try done.
  - assert (O = R) by (apply mod_256_eq; lia); lia.
  - assert (O = R) by lia; congruence.
Qed.

(** The unacknowledged interval of an 8-bit window, wrapped or not. *)
Lemma IsValidAck_spec U S s ack :
  tx_at U S s -> S - U <= 256 -> is_u8 ack ->
  IsValidAck s ack = true <-> exists k, U <= k < S /\ ack = k mod 256.
Proof.
  intros (HU & _ & He & Ho & Hw) HS Hack; unfold IsValidAck; rewrite He; unfold is_uint in Hack.
  destruct (Z.ltb_spec U S) as [HUS|HUS]; cbn [negb]; [|split; [done|intros (k & ? & _); lia]].
  rewrite Ho, Hw by lia.
  pose proof (Z.div_mod (S - 1) 256); pose proof (Z.mod_pos_bound (S - 1) 256).
  pose proof (Z.div_mod U 256); pose proof (Z.mod_pos_bound U 256).
  split.
  - intros Hb; exists (U + (ack - U) mod 256).
    rewrite Zplus_mod_idemp_r; replace (U + (ack - U)) with ack by lia.
    rewrite (Z.mod_small ack) by lia; split; [|done].
    pose proof (Z.div_mod (ack - U) 256); pose proof (Z.mod_pos_bound (ack - U) 256).
    destruct (Z.leb_spec (U mod 256) ((S - 1) mod 256)).
    + apply andb_prop in Hb as [?%Z.leb_le ?%Z.leb_le]; nia.
    + apply orb_prop in Hb as [?%Z.leb_le|?%Z.leb_le]; nia.
  - intros (k & Hk & ->).
    pose proof (Z.div_mod k 256); pose proof (Z.mod_pos_bound k 256).
    destruct (Z.leb_spec (U mod 256) ((S - 1) mod 256)).
    + apply andb_true_intro; split; apply Z.leb_le; nia.
    + apply orb_true_intro; destruct (Z.leb_spec (k mod 256) ((S - 1) mod 256)); [by left|right].
      apply Z.leb_le; nia.
Qed.

Lemma HandleAckReceived_spec U S s k :
  tx_at U S s -> S - U <= 256 -> U <= k < S ->
  exists s', HandleAckReceived s (k mod 256) = (CHIP_NO_ERROR, s') /\ tx_at (k + 1) S s' /\
    tx_message s' = tx_message s.
Proof.
  intros Ht HS Hk; unfold HandleAckReceived.
  assert (IsValidAck s (k mod 256) = true) as ->.
  { eapply IsValidAck_spec; [done|done|apply is_u8_mod|eauto]. }
  destruct Ht as (HU & Hn & He & Ho & Hw); cbn [negb].
  rewrite Hw by lia; destruct (Z.eqb_spec ((S - 1) mod 256) (k mod 256)) as [Heq|Hne].
  - assert (k = S - 1) as -> by (symmetry; apply mod_256_eq; lia).
    eexists; split_and!; [done| |done].
    unfold tx_at; simpl; split_and!; [lia|lia|done|symmetry; apply Z.ltb_ge; lia|lia|done].
  - assert (k <> S - 1) by (intros ->; done).
    eexists; split_and!; [done| |done].
    unfold tx_at; simpl; split_and!; try (lia || done).
    + rewrite He; destruct (Z.ltb_spec U S), (Z.ltb_spec (k + 1) S); lia || done.
    + intros _; by rewrite IncSeqNum_mod.
Qed.

(** ** Fragments *)

Inductive payload :=
| NoData
| StartMessage (len : Z) (chunk : bytes) (last : bool)
| Continue (chunk : bytes) (last : bool).

(** A fragment with unbounded numbers: its own and the one it acknowledges. *)
Record Frame := MkFrame {
  fAck : option Z;
  fSeq : Z;
  fPayload : payload }.

Definition end_flag (last : bool) : Z := if last then kEndMessage else 0.
Definition payload_flags (d : payload) : Z :=
  match d with
  | NoData => 0
  | StartMessage _ _ last => kStartMessage + end_flag last
  | Continue _ last => kContinueMessage + end_flag last
  end.
Definition payload_bytes (d : payload) : bytes :=
  match d with
  | NoData => []
  | StartMessage len chunk _ => [len mod 256; len / 256] ++ chunk
  | Continue chunk _ => chunk
  end.
Definition ack_flag (ack : option Z) : Z := if ack is Some _ then kFragmentAck else 0.
Definition numbers (ack : option Z) (seq : Z) : bytes :=
  (if ack is Some k then [k mod 256] else []) ++ [seq mod 256].
Definition encode (f : Frame) : bytes :=
  [payload_flags (fPayload f) + ack_flag (fAck f)] ++ numbers (fAck f) (fSeq f) ++
  payload_bytes (fPayload f).

(** ** Sending *)

Definition tx_seq (s : TxSide) : Z * Z * Z * bool :=
  (mTxNextSeqNum s, mTxNewestUnackedSeqNum s, mTxOldestUnackedSeqNum s, mExpectingAck s).

Definition fragment_size_ok (f : Z) : Prop := sMinFragmentSize <= f <= sMaxFragmentSize.

(** The octets [rest] of the message are still to be sent: they lie behind the
    fragment sent last. *)
Definition tx_rest (rest : bytes) (s : TxSide) : Prop :=
  exists p next, mTxBuf s = p :: next /\ pbuf_ok p /\ (pLen p <= pTotLen p)%nat /\
    Z.of_nat (pLen p) = mTxFragmentSize s /\ mTxLength s = Z.of_nat (length rest) /\
    (pPayload p + pLen p + length rest <= AllocSize p)%nat /\
    mem_read (pPayload p + pLen p) (length rest) (pMem p) = rest.

Definition tx_after (rest : bytes) (s : TxSide) : Prop :=
  match rest with
  | [] => mTxState s = kState_Complete
  | _ => mTxState s = kState_InProgress /\ tx_rest rest s
  end.

Definition is_nil {A} (l : list A) : bool := match l with [] => true | _ => false end.

Lemma tx_at_seq U S s s' : tx_seq s = tx_seq s' -> tx_at U S s -> tx_at U S s'.
Proof.
  intros Heq; unfold tx_seq in Heq; injection Heq as H1 H2 H3 H4.
  unfold tx_at; by rewrite H1, H2, H3, H4.
Qed.

Lemma poke_spec c d p :
  pbuf_ok p -> (c + length d <= AllocSize p)%nat ->
  poke (Z.of_nat c) d p =
    Some (MkPBuf (mem_write c d (pMem p)) (pPayload p) (pTotLen p) (pLen p) (pRef p)) /\
  pbuf_ok (MkPBuf (mem_write c d (pMem p)) (pPayload p) (pTotLen p) (pLen p) (pRef p)) /\
  length (mem_write c d (pMem p)) = AllocSize p.
Proof.
  intros Hp Hc; unfold poke.
  assert (Hl : length (mem_write c d (pMem p)) = AllocSize p) by (by apply length_mem_write).
  destruct (Z.leb_spec 0 (Z.of_nat c)); [|lia].
  destruct (Z.leb_spec (Z.of_nat c + Z.of_nat (length d)) (Z.of_nat (AllocSize p))); [|lia].
  rewrite Nat2Z.id; split_and!; [done| |done].
  destruct Hp; constructor; unfold AllocSize in *; cbn [pMem pPayload pLen pRef]; by rewrite ?Hl.
Qed.

(** The first octet stored in front of a header and payload that are in memory. *)
Lemma read_stored c x hdr n l (m : bytes) :
  (c + (S (length hdr) + length l) <= length m)%nat ->
  mem_read (c + 1) (length hdr) m = hdr ->
  mem_read (c + S (length hdr)) (length l) m = l -> (n <= length l)%nat ->
  mem_read c (S (length hdr) + n) (mem_write c [x] m) = [x] ++ hdr ++ take n l.
Proof.
  intros Hm Hh Hl Hn.
  replace (S (length hdr) + n)%nat with (1 + (length hdr + n))%nat by lia.
  rewrite mem_read_app; f_equal; [apply (mem_read_write_same c [x]); simpl; lia|].
  rewrite mem_read_write_after by (simpl; lia).
  rewrite mem_read_app, Hh; f_equal.
  rewrite <-Hl at 1; unfold mem_read; rewrite take_take; f_equal; [lia|f_equal; lia].
Qed.

(** [FinishFragment] on a buffer whose memory at [c] holds a header of [cursor]
    octets (the first is still to be stored) and then [l]. *)
Lemma FinishFragment_spec e p next c cursor fl hdr l :
  pbuf_ok p -> pPayload p = c -> (pLen p <= pTotLen p)%nat ->
  fragment_size_ok (mTxFragmentSize (tx e)) ->
  (cursor = S (length hdr) /\ cursor <= 5)%nat ->
  mTxLength (tx e) = Z.of_nat (length l) -> (c + cursor + length l <= AllocSize p)%nat ->
  mem_read (c + 1) (cursor - 1) (pMem p) = hdr -> mem_read (c + cursor) (length l) (pMem p) = l ->
  exists p' s' chunk rest,
    FinishFragment e p next (Z.of_nat c) cursor fl = Some (true, MkBtpEngine (rx e) s') /\
    l = chunk ++ rest /\ mTxBuf s' = p' :: next /\ pbuf_ok p' /\ pRef p' = pRef p /\
    data p' = [Z.lor fl (end_flag (is_nil rest))] ++ hdr ++ chunk /\
    Z.of_nat (cursor + length chunk) <= mTxFragmentSize (tx e) /\
    (chunk = [] -> l = []) /\
    tx_seq s' = tx_seq (tx e) /\ mTxFragmentSize s' = mTxFragmentSize (tx e) /\
    (mTxState (tx e) = kState_InProgress -> tx_after rest s').
Proof.
  intros Hp Hc Ht Hf [Hcur H5] Hlen Hroom Hhdr Hl.
  replace (cursor - 1)%nat with (length hdr) in Hhdr by lia.
  pose proof (MaxDataLength_ok p Hp) as Hmax; pose proof (pbuf_alloc p Hp) as Hal.
  unfold fragment_size_ok, sMinFragmentSize, sMaxFragmentSize in Hf.
  unfold FinishFragment; rewrite Hlen.
  set (f := Z.to_nat (mTxFragmentSize (tx e))).
  assert (Hff : mTxFragmentSize (tx e) = Z.of_nat f) by lia; rewrite Hff in *.
  (* the buffer once the data length is [n] and the flags are stored *)
  assert (Hstore : forall n x, (cursor <= n <= cursor + length l)%nat ->
    exists p', (let p := snd (SetDataLength [] p n) in poke (Z.of_nat c) [x] p) = Some p' /\
      pbuf_ok p' /\ pRef p' = pRef p /\ pPayload p' = c /\ pLen p' = n /\
      (pLen p' <= pTotLen p')%nat /\ AllocSize p' = AllocSize p /\
      data p' = [x] ++ hdr ++ take (n - cursor) l /\
      mem_read (c + n) (cursor + length l - n) (pMem p') = drop (n - cursor) l).
  { intros n x Hn; pose proof (SetDataLength_spec p n Hp Ht) as (Hp1 & Hpp & Hpl & Htt & Hpm & Hpr).
    cbv zeta; set (p1 := snd (SetDataLength [] p n)) in *; clearbody p1.
    assert (AllocSize p1 = AllocSize p) as Ha1 by (unfold AllocSize; by rewrite Hpm).
    destruct (poke_spec c [x] p1 Hp1) as (-> & Hp2 & Hl2); [simpl; lia|].
    eexists; split_and!; [done|done|done|simpl; lia|simpl; lia|simpl; lia| | |].
    - unfold AllocSize in *; cbn [pMem]; by rewrite Hl2.
    - unfold data; cbn [pMem pPayload pLen]; rewrite Hpp, Hc, Hpl, Hpm.
      replace (Nat.min n (MaxDataLength p)) with (S (length hdr) + (n - cursor))%nat by lia.
      apply read_stored; unfold AllocSize in *; subst cursor; lia || done.
    - cbn [pMem]; rewrite Hpm, mem_read_write_after by (unfold AllocSize in *; simpl; lia).
      rewrite <-Hl at 2; unfold mem_read; rewrite skipn_firstn_comm, drop_drop.
      f_equal; [lia|f_equal; lia]. }
  destruct (Z.leb_spec (Z.of_nat (length l) + Z.of_nat cursor) (Z.of_nat f)).
  - rewrite wrap_small by (unfold is_uint; lia).
    destruct (Hstore (cursor + length l)%nat (BitFlags.Set_ fl kEndMessage))
      as (p' & Hs & Hp' & Hr & _ & _ & _ & _ & Hd & _); [lia|].
    replace (Z.to_nat (Z.of_nat (length l) + Z.of_nat cursor)) with (cursor + length l)%nat by lia.
    cbv zeta in Hs |- *; rewrite Hs; cbn [mbind option_bind].
    eexists p', _, l, []; split_and!; [done|by rewrite app_nil_r|done|done|done| |lia|done|done|done|done].
    rewrite Hd, take_ge by lia; done.
  - destruct (Hstore f fl) as (p' & Hs & Hp' & Hr & Hpp & Hpl & Htl & Ha & Hd & Hrest); [lia|].
    cbv zeta in Hs |- *; rewrite Hs; cbn [mbind option_bind].
    eexists p', _, (take (f - cursor) l), (drop (f - cursor) l).
    assert (Hne : is_nil (drop (f - cursor) l) = false).
    { destruct (drop (f - cursor) l) eqn:Hdr; [|done].
      apply (f_equal length) in Hdr; rewrite length_drop in Hdr; simpl in Hdr; lia. }
    split_and!; [done|by rewrite take_drop|done|done|done| | | |done|done|].
    + rewrite Hd, Hne; cbn [end_flag]; by rewrite Z.lor_0_r.
    + rewrite length_take; lia.
    + intros Htk; apply (f_equal length) in Htk; rewrite length_take in Htk; simpl in Htk; lia.
    + intros Hst; unfold tx_after; destruct (drop (f - cursor) l) as [|b rest] eqn:Hdr; [done|].
      split; [done|]; exists p', next; rewrite <-Hdr, length_drop.
      split_and!; [done|done|done|simpl; lia| |lia|].
      * cbn [upd_tx tx set_mTxBuf set_mTxLength mTxLength rx mTxFragmentSize].
        rewrite wrap_small by (unfold is_uint; lia); lia.
      * rewrite Hpp, Hpl, Hdr, <-Hrest; f_equal; lia.
Qed.

(** The acknowledgement a fragment carries when fragments below [R] were received. *)
Definition ack_of (send_ack : bool) (R : Z) : option Z := if send_ack then Some (R - 1) else None.
Definition acked (send_ack : bool) (O R : Z) : Z := if send_ack then R else O.

Lemma FragmentNumbers_spec e send_ack U S O R :
  tx_at U S (tx e) -> rx_at O R (rx e) -> (send_ack = true -> O < R) ->
  exists r' s', FragmentNumbers e send_ack = (numbers (ack_of send_ack R) S, MkBtpEngine r' s') /\
    rx_at (acked send_ack O R) R r' /\ rx_message r' = rx_message (rx e) /\
    tx_at U (S + 1) s' /\ tx_message s' = tx_message (tx e).
Proof.
  intros Ht Hr Hs; unfold FragmentNumbers.
  destruct (GetAndIncrementNextTxSeqNum_spec U S (tx e) Ht) as (s' & -> & Ht' & Hm).
  destruct send_ack.
  - destruct (GetAndRecordRxAckSeqNum_spec O R (rx e) Hr (Hs eq_refl)) as (r' & -> & Hr' & Hmr).
    by exists r', s'.
  - by exists (rx e), s'.
Qed.

Lemma length_numbers (ack : option Z) seq :
  length (numbers ack seq) = match ack with Some _ => 2%nat | None => 1%nat end.
Proof. by destruct ack. Qed.

(** What a send leaves: the fragment in the head of the transmit buffer, and the
    octets still to be sent. *)
Definition sent_fragment (U S O R : Z) (e : t) (send_ack : bool) (next : chain)
    (d : bytes -> bool -> payload) (l : bytes) (e' : t) : Prop :=
  exists p' chunk rest,
    l = chunk ++ rest /\ mTxBuf (tx e') = p' :: next /\ pbuf_ok p' /\
    data p' = encode (MkFrame (ack_of send_ack R) S (d chunk (is_nil rest))) /\
    Z.of_nat (length (data p')) <= mTxFragmentSize (tx e) /\ (chunk = [] -> l = []) /\
    tx_after rest (tx e') /\ mTxFragmentSize (tx e') = mTxFragmentSize (tx e) /\
    tx_at U (S + 1) (tx e') /\ rx_at (acked send_ack O R) R (rx e') /\
    rx_message (rx e') = rx_message (rx e).

Lemma lor_flags (send_ack last : bool) fl :
  fl = kStartMessage \/ fl = kContinueMessage ->
  Z.lor (if send_ack then BitFlags.Set_ fl kFragmentAck else fl) (end_flag last) =
  fl + end_flag last + (if send_ack then kFragmentAck else 0).
Proof. by intros [-> | ->]; destruct send_ack, last. Qed.

Lemma tx_message_inv s s' :
  tx_message s = tx_message s' ->
  mTxState s = mTxState s' /\ mTxBuf s = mTxBuf s' /\ mTxFragmentSize s = mTxFragmentSize s' /\
  mTxLength s = mTxLength s'.
Proof. unfold tx_message; by intros [= -> -> -> ->]. Qed.

(** The first fragment of a message. *)
Lemma send_first_spec e p next send_ack U S O R :
  mTxState (tx e) = kState_Idle -> fragment_size_ok (mTxFragmentSize (tx e)) ->
  tx_at U S (tx e) -> rx_at O R (rx e) -> R - O < 256 -> (send_ack = true -> O < R) ->
  pbuf_ok p -> (pLen p <= pTotLen p)%nat ->
  (kTransferProtocolMaxHeaderSize + length (data p) <= AllocSize p)%nat ->
  exists e', HandleCharacteristicSend e (p :: next) send_ack = Some (true, e') /\
    sent_fragment U S O R e send_ack next (StartMessage (Z.of_nat (length (data p)))) (data p) e'.
Proof.
  intros Hst Hf Ht Hr HO Hs Hp Htl Hroom; rewrite length_data in * by done.
  unfold HandleCharacteristicSend; set (e0 := upd_tx _ e).
  assert (Hhas : send_ack && negb (HasUnackedData e0) = false).
  { destruct send_ack; [|done]; rewrite (HasUnackedData_spec O R) by done.
    simpl; destruct (Z.ltb_spec O R); [done|]; specialize (Hs eq_refl); lia. }
  rewrite Hhas; replace (mTxState (tx e0)) with kState_Idle by done.
  pose proof (pbuf_alloc p Hp) as Hal.
  unfold SendFirstFragment; unfold DataLength at 1.
  destruct (Z.ltb_spec 65535 (Z.of_nat (pLen p))); [lia|]; cbv zeta.
  set (header_size := if send_ack then _ else _).
  assert (Hh : (header_size = 3 + length (numbers (ack_of send_ack R) S) /\ header_size <= 5)%nat)
    by (rewrite length_numbers; unfold header_size; destruct send_ack; unfold kTransferProtocolMaxHeaderSize, kTransferProtocolAckSize; simpl; lia).
  unfold CHIP_CONFIG_BLE_PKT_RESERVED_SIZE; rewrite Nat.add_0_r.
  pose proof (EnsureReservedSize_spec p header_size Hp) as Hres.
  unfold kTransferProtocolMaxHeaderSize in Hroom; pose proof (pbuf_fits p Hp) as Hfit.
  destruct (Nat.leb_spec (Nat.max header_size (pPayload p) + pLen p) (AllocSize p)); [|lia].
  destruct Hres as (p1 & -> & Hp1 & Hd1 & Hpp1 & Hpl1 & Hpt1 & Hpr1 & Ha1); [lia|]; cbn [negb].
  rewrite <-Nat2Z.inj_sub by lia; set (c := (pPayload p1 - header_size)%nat).
  destruct (SetStart_spec p1 c Hp1) as (Hp2 & Hpp2 & Hpl2 & Hpt2 & Hpm2 & Hpr2); [lia..|].
  set (p2 := SetStart p1 (Z.of_nat c)) in *; clearbody p2.
  set (e2 := upd_tx (set_mTxLength _) _).
  destruct (FragmentNumbers_spec e2 send_ack U S O R Ht Hr Hs)
    as (r' & s' & -> & Hr' & Hmr & Ht' & Hms).
  replace (Z.of_nat c + 1) with (Z.of_nat (c + 1)) by lia.
  set (ns := numbers (ack_of send_ack R) S) in *; set (hdr := ns ++ [_; _]).
  assert (Hlh : length hdr = (length ns + 2)%nat) by (unfold hdr; by rewrite length_app).
  assert (AllocSize p2 = AllocSize p1) as Ha2 by (unfold AllocSize; by rewrite Hpm2).
  destruct (poke_spec (c + 1) hdr p2 Hp2) as (-> & Hp3 & Hl3); [lia|]; cbn [mbind option_bind].
  set (p3 := MkPBuf _ _ _ _ _) in *.
  apply tx_message_inv in Hms as (Hms1 & Hms2 & Hms3 & Hms4).
  destruct (FinishFragment_spec (MkBtpEngine r' s') p3 next c (length ns + 3)
    (if send_ack then BitFlags.Set_ kStartMessage kFragmentAck else kStartMessage) hdr (data p))
    as (p' & s'' & chunk & rest & -> & Hl & Hb & Hp' & _ & Hd & Hsz & Hnil & Hseq & Hfr & Haf).
  - done.
  - done.
  - simpl; lia.
  - cbn [tx]; rewrite Hms3; exact Hf.
  - lia.
  - cbn [tx]; rewrite Hms4, length_data by done; done.
  - rewrite length_data by done; unfold AllocSize in *; cbn [pMem p3]; rewrite Hl3; lia.
  - replace (length ns + 3 - 1)%nat with (length hdr) by lia; apply mem_read_write_same.
    unfold AllocSize in *; lia.
  - cbn [pMem p3]; rewrite length_data, mem_read_write_after by (done || unfold AllocSize in *; lia).
    rewrite Hpm2, <-Hd1; unfold data; rewrite Hpl1; f_equal; lia.
  - eexists; split; [done|]; exists p', chunk, rest.
    assert (Hdata : data p' = encode (MkFrame (ack_of send_ack R) S
              (StartMessage (Z.of_nat (pLen p)) chunk (is_nil rest)))).
    { rewrite Hd, lor_flags by auto; unfold encode, hdr; cbn [payload_bytes payload_flags fAck fSeq fPayload].
      unfold ns; rewrite <-!app_assoc; f_equal; [f_equal; by destruct send_ack|f_equal].
      rewrite land_255, Z.shiftr_div_pow2 by lia; done. }
    split_and!; try done.
    + rewrite Hd, !length_app; cbn [tx] in Hsz; rewrite Hms3 in Hsz.
      cbn [length]; change (mTxFragmentSize (tx e2)) with (mTxFragmentSize (tx e)) in Hsz; lia.
    + apply Haf; cbn [tx]; by rewrite Hms1.
    + cbn [tx] in *; by rewrite Hfr, Hms3.
    + eapply tx_at_seq; [symmetry; exact Hseq|done].
Qed.

(** A further fragment. *)
Lemma send_next_spec e l send_ack U S O R :
  mTxState (tx e) = kState_InProgress -> fragment_size_ok (mTxFragmentSize (tx e)) ->
  tx_at U S (tx e) -> rx_at O R (rx e) -> R - O < 256 -> (send_ack = true -> O < R) ->
  tx_rest l (tx e) ->
  exists e' next, HandleCharacteristicSend e [] send_ack = Some (true, e') /\
    sent_fragment U S O R e send_ack next Continue l e'.
Proof.
  intros Hst Hf Ht Hr HO Hs (p & next & Hbuf & Hp & Htl & Hlen & Hml & Hroom & Hrest).
  unfold HandleCharacteristicSend; set (e0 := upd_tx _ e).
  assert (Hhas : send_ack && negb (HasUnackedData e0) = false).
  { destruct send_ack; [|done]; rewrite (HasUnackedData_spec O R) by done.
    simpl; destruct (Z.ltb_spec O R); [done|]; specialize (Hs eq_refl); lia. }
  rewrite Hhas; cbn [upd_tx tx set_mTxCharCount mTxState mTxBuf e0]; rewrite Hst, Hbuf.
  pose proof (pbuf_alloc p Hp) as Hal; pose proof Hf as Hf'.
  unfold fragment_size_ok, sMinFragmentSize, sMaxFragmentSize in Hf'.
  unfold SendNextFragment; cbv zeta; set (hs := if send_ack then _ else _).
  destruct (FragmentNumbers_spec e0 send_ack U S O R Ht Hr Hs)
    as (r' & s' & Hfn & Hr' & Hmr & Ht' & Hms).
  set (ns := numbers (ack_of send_ack R) S) in *.
  assert (Hh : (hs = 1 + length ns /\ hs <= 3)%nat).
  { unfold ns; rewrite length_numbers; unfold hs; destruct send_ack;
      unfold kTransferProtocolMidFragmentMaxHeaderSize, kTransferProtocolAckSize; simpl; lia. }
  replace (Z.of_nat (pPayload p) + mTxFragmentSize (tx e0) - Z.of_nat hs)
    with (Z.of_nat (pPayload p + pLen p - hs)) by (cbn [e0 upd_tx tx set_mTxCharCount mTxFragmentSize]; lia).
  set (c := (pPayload p + pLen p - hs)%nat).
  destruct (SetStart_spec p c Hp) as (Hp2 & Hpp2 & Hpl2 & Hpt2 & Hpm2 & Hpr2); [lia..|].
  set (p2 := SetStart p (Z.of_nat c)) in *; clearbody p2.
  fold e0; rewrite Hfn; replace (Z.of_nat c + 1) with (Z.of_nat (c + 1)) by lia.
  assert (AllocSize p2 = AllocSize p) as Ha2 by (unfold AllocSize; by rewrite Hpm2).
  destruct (poke_spec (c + 1) ns p2 Hp2) as (-> & Hp3 & Hl3); [lia|]; cbn [mbind option_bind].
  set (p3 := MkPBuf _ _ _ _ _) in *.
  apply tx_message_inv in Hms as (Hms1 & Hms2 & Hms3 & Hms4).
  destruct (FinishFragment_spec (MkBtpEngine r' s') p3 next c (length ns + 1)
    (if send_ack then BitFlags.Set_ kContinueMessage kFragmentAck else kContinueMessage) ns l)
    as (p' & s'' & chunk & rest & -> & Hl & Hb & Hp' & _ & Hd & Hsz & Hnil & Hseq & Hfr & Haf).
  - done.
  - done.
  - simpl; lia.
  - cbn [tx]; rewrite Hms3; exact Hf.
  - lia.
  - cbn [tx]; rewrite Hms4; exact Hml.
  - unfold AllocSize in *; cbn [pMem p3]; rewrite Hl3; lia.
  - replace (length ns + 1 - 1)%nat with (length ns) by lia; apply mem_read_write_same.
    unfold AllocSize in *; lia.
  - cbn [pMem p3]; rewrite mem_read_write_after by (unfold AllocSize in *; lia).
    rewrite Hpm2; etransitivity; [|exact Hrest]; f_equal; lia.
  - eexists _, next; split; [done|]; exists p', chunk, rest.
    assert (Hdata : data p' = encode (MkFrame (ack_of send_ack R) S (Continue chunk (is_nil rest)))).
    { rewrite Hd, lor_flags by auto; unfold encode; cbn [payload_bytes payload_flags fAck fSeq fPayload].
      f_equal; f_equal; by destruct send_ack. }
    split_and!; try done.
    + rewrite Hd, !length_app; cbn [tx] in Hsz; rewrite Hms3 in Hsz.
      cbn [length]; change (mTxFragmentSize (tx e0)) with (mTxFragmentSize (tx e)) in Hsz; lia.
    + apply Haf; cbn [tx]; rewrite Hms1; exact Hst.
    + cbn [tx] in *; by rewrite Hfr, Hms3.
    + eapply tx_at_seq; [symmetry; exact Hseq|done].
Qed.

(** ** Receiving *)

(** The abstract reassembler: the message being received, if any, with its
    announced length, and the message a payload completes. *)
Definition finish (len : Z) (acc : bytes) (last : bool)
    : option (option (Z * bytes) * option bytes) :=
  if last then
    if len <=? Z.of_nat (length acc) then Some (None, Some (take (Z.to_nat len) acc)) else None
  else Some (Some (len, acc), None).
Definition accumulate (cur : option (Z * bytes)) (d : payload) : option (Z * bytes) :=
  match d, cur with
  | StartMessage len chunk _, None => Some (len, chunk)
  | Continue chunk _, Some (len, acc) => Some (len, acc ++ chunk)
  | _, _ => None
  end.
Definition last_of (d : payload) : bool :=
  match d with NoData => false | StartMessage _ _ last | Continue _ last => last end.
Definition is_data (d : payload) : bool := match d with NoData => false | _ => true end.
Definition reassemble (cur : option (Z * bytes)) (d : payload)
    : option (option (Z * bytes) * option bytes) :=
  if is_data d then '(len, acc) ← accumulate cur d; finish len acc (last_of d)
  else Some (cur, None).

Definition len_ok (d : payload) : Prop :=
  match d with StartMessage len _ _ => is_uint 16 len | _ => True end.

(** The reassembly buffer: one buffer that holds [l] and has room for the rest. *)
Definition rx_buffer (l : bytes) (r : RxSide) : Prop :=
  exists b, mRxBuf r = [b] /\ chain_ok [b] /\ data b = l /\
    AllocSize b = kMaxSizeWithoutReserve.

Definition rx_holds (cur : option (Z * bytes)) (r : RxSide) : Prop :=
  match cur with
  | None => mRxState r = kState_Idle
  | Some (len, acc) =>
      mRxState r = kState_InProgress /\ mRxLength r = len /\ is_uint 16 len /\ rx_buffer acc r
  end.

Section ReceiveSpec.
Context `{ByteOrder} `{PlatformMemory} (tcp : bool).
Implicit Types (c : Ctx) (e : t).

Lemma reading_spec n l l' r c :
  Reader_wf r -> mStatus r = CHIP_NO_ERROR -> rest r = l ++ l' -> length l = n ->
  reading n r c = (Ok (le_combine l, advance r n), c) /\ Reader_wf (advance r n) /\
  mStatus (advance r n) = CHIP_NO_ERROR /\ rest (advance r n) = l' /\
  OctetsRead (advance r n) = (OctetsRead r + n)%nat.
Proof.
  intros Hwf Hs Hr <-; assert (length l <= mAvailable r)%nat.
  { rewrite <-length_rest, Hr, length_app by done; lia. }
  unfold reading; rewrite rd_ok by (done || rewrite Hr, length_app; lia).
  rewrite Hr, take_app_length, rest_advance, Hr, drop_app_length by done; auto.
Qed.

Lemma flags_data d ack :
  DidReceiveData (payload_flags d + ack_flag ack) = is_data d.
Proof. by destruct d as [|? ? []|? []], ack. Qed.
Lemma flags_ack d ack :
  BitFlags.Has (payload_flags d + ack_flag ack) kFragmentAck = bool_decide (is_Some ack).
Proof. by destruct d as [|? ? []|? []], ack. Qed.

(** The counters after the acknowledgement [ack]. *)
Definition ack_valid (U S : Z) (ack : option Z) : Prop :=
  match ack with Some k => U <= k < S | None => True end.
Definition after_ack (U : Z) (ack : option Z) : Z :=
  match ack with Some k => k + 1 | None => U end.

Lemma ReceiveAck_spec e d0 a0 did0 h r U S ack l d :
  Reader_wf r -> mStatus r = CHIP_NO_ERROR ->
  rest r = (if ack is Some k then [k mod 256] else []) ++ l ->
  tx_at U S (tx e) -> S - U <= 256 -> ack_valid U S ack ->
  exists r' s', ReceiveAck r (payload_flags d + ack_flag ack) (MkCtx e d0 a0 did0 h) =
      (Ok r', MkCtx (MkBtpEngine (rx e) s') d0 (if ack is Some k then k mod 256 else a0)
                    (bool_decide (is_Some ack)) h) /\
    Reader_wf r' /\ mStatus r' = CHIP_NO_ERROR /\ rest r' = l /\
    OctetsRead r' = (OctetsRead r + if ack then 1 else 0)%nat /\
    tx_at (after_ack U ack) S s' /\ tx_message s' = tx_message (tx e).
Proof.
  intros Hwf Hs Hr Ht HS Hack; unfold ReceiveAck; rewrite flags_ack.
  unfold bind at 1; cbn [modify engine cData receivedAck didReceiveAck cHeap].
  destruct ack as [k|].
  - destruct (reading_spec 1 [k mod 256] l r (MkCtx e d0 a0 true h) Hwf Hs Hr eq_refl)
      as (Hrd & Hwf' & Hs' & Hr' & Hoc).
    rewrite bool_decide_eq_true_2 by done; rewrite (bind_ok _ _ _ _ _ Hrd).
    replace (le_combine [k mod 256]) with (k mod 256) by (simpl; lia).
    destruct (HandleAckReceived_spec U S (tx e) k Ht HS Hack) as (s' & Hh & Ht' & Hm).
    unfold bind, modify, get, upd_engine, verify;
      cbn [engine cData receivedAck didReceiveAck cHeap]; rewrite Hh; cbn.
    exists (advance r 1), s'; split_and!; done.
  - exists r, (tx e); rewrite bool_decide_eq_false_2 by (by intros [? ?]).
    destruct e; split_and!; try done; simpl; lia.
Qed.

Definition payload_octets (f : Frame) : nat := length (payload_bytes (fPayload f)).

Lemma length_encode f :
  length (encode f) = (1 + length (numbers (fAck f) (fSeq f)) + payload_octets f)%nat.
Proof. unfold encode; rewrite !length_app; simpl; unfold payload_octets; lia. Qed.

Lemma single_chain_ok p : pbuf_ok p -> pTotLen p = pLen p -> chain_ok [p].
Proof.
  intros Hp Ht; apply chain_ok_cons; split_and!; [done| |done|done].
  unfold contents; simpl; rewrite app_nil_r, length_data; done.
Qed.

(** A buffer with the length cut to at most [n] and [k] octets consumed. *)
Lemma truncate_consume p n k :
  chain_ok [p] -> (length (data p) <= n)%nat -> (k <= length (data p))%nat ->
  let q := ConsumeHead (snd (SetDataLength [] p (Nat.min (DataLength p) n))) k in
  chain_ok [q] /\ data q = drop k (data p) /\ pRef q = pRef p /\ AllocSize q = AllocSize p.
Proof.
  intros Hc Hn Hk; pose proof Hc as (Hp & Ht & _ & _).
  unfold contents in Ht; simpl in Ht; rewrite app_nil_r, length_data in Ht by done.
  rewrite length_data in * by done; unfold DataLength; rewrite Nat.min_l by lia.
  destruct (SetDataLength_spec p (pLen p) Hp) as (Hp1 & Hpp & Hpl & Htt & Hpm & Hpr); [lia|].
  pose proof (MaxDataLength_ok p Hp); pose proof (pbuf_fits p Hp).
  rewrite Nat.min_l in Hpl by lia.
  set (p1 := snd (SetDataLength [] p (pLen p))) in *; clearbody p1; cbv zeta.
  destruct (ConsumeHead_ok p1 k Hp1) as [Hq Hdq]; [lia|].
  assert (data p1 = data p) as Hd1 by (unfold data; congruence).
  split_and!; [|congruence|done|unfold AllocSize; simpl; congruence].
  apply single_chain_ok; [done|]; unfold ConsumeHead; bcase; [lia|]; simpl; lia.
Qed.

Lemma ReceiveHeader_spec e f p a0 did0 h U S O :
  data p = encode f -> chain_ok [p] -> tx_at U S (tx e) -> S - U <= 256 ->
  ack_valid U S (fAck f) -> rx_at O (fSeq f) (rx e) ->
  Z.of_nat (length (encode f)) <= mRxFragmentSize (rx e) ->
  exists e' q a',
    ReceiveHeader p [] (MkCtx e [p] a0 did0 h) =
      (Ok (payload_flags (fPayload f) + ack_flag (fAck f), is_data (fPayload f)),
       MkCtx e' [q] a' (bool_decide (is_Some (fAck f))) h) /\
    (forall k, fAck f = Some k -> a' = k mod 256) /\
    tx_at (after_ack U (fAck f)) S (tx e') /\ tx_message (tx e') = tx_message (tx e) /\
    rx_at O (fSeq f + 1) (rx e') /\ rx_message (rx e') = rx_message (rx e) /\
    (is_data (fPayload f) = true -> chain_ok [q] /\ pRef q = pRef p /\
       data q = payload_bytes (fPayload f)).
Proof.
  intros Hd Hc Ht HS Hack Hr Hf; pose proof Hr as (HO & Hn & Ho & Hw).
  unfold ReceiveHeader; rewrite Hd.
  unfold bind at 1; cbn [upd_engine modify engine cData receivedAck didReceiveAck cHeap].
  set (r0 := Reader_new (encode f)); set (c0 := MkCtx _ _ _ _ _).
  set (fl := payload_flags (fPayload f) + ack_flag (fAck f)).
  destruct (reading_spec 1 [fl] (numbers (fAck f) (fSeq f) ++ payload_bytes (fPayload f)) r0 c0)
    as (Hrd & Hwf1 & Hs1 & Hr1 & Hoc1); [apply Reader_new_wf|done|apply rest_new|done|].
  rewrite (bind_ok _ _ _ _ _ Hrd); replace (le_combine [fl]) with fl by (simpl; lia).
  set (r1 := advance r0 1) in *; clearbody r1.
  unfold numbers in Hr1; rewrite <-app_assoc in Hr1.
  destruct (ReceiveAck_spec (engine c0) (cData c0) a0 did0 h r1 U S (fAck f) _ (fPayload f)
              Hwf1 Hs1 Hr1 Ht HS Hack) as (r2 & s' & Hra & Hwf2 & Hs2 & Hr2 & Hoc2 & Ht' & Hm).
  rewrite (bind_ok _ _ _ _ _ Hra).
  clear Hra Hrd; match goal with |- context [bind _ _ ?c] => set (c2 := c) end.
  destruct (reading_spec 1 [fSeq f mod 256] _ r2 c2 Hwf2 Hs2 Hr2 eq_refl)
    as (Hrd & Hwf3 & Hs3 & Hr3 & Hoc3).
  rewrite (bind_ok _ _ _ _ _ Hrd); replace (le_combine [fSeq f mod 256]) with (fSeq f mod 256) by (simpl; lia).
  set (r3 := advance r2 1) in *; clearbody r3.
  unfold bind, get, upd_engine, modify, verify, put_data;
    cbn [engine cData receivedAck didReceiveAck cHeap c2 c0 upd_rx upd_tx rx tx ret
         set_mRxNewestUnackedSeqNum set_mRxNextSeqNum set_mRxCharCount mRxNextSeqNum mRxFragmentSize].
  rewrite Hn, Z.eqb_refl; unfold fl at 1; rewrite flags_data; cbn [ret].
  assert (Hrx : rx_at O (fSeq f + 1)
     (MkRx (mRxState (rx e)) (mRxBuf (rx e)) (IncSeqNum (mRxNextSeqNum (rx e))) (fSeq f mod 256)
        (mRxOldestUnackedSeqNum (rx e)) (mRxFragmentSize (rx e)) (mRxLength (rx e))
        (mRxCharCount (rx e) +{16} 1) (mRxPacketCount (rx e)))).
  { unfold rx_at; cbn; rewrite Hn, IncSeqNum_mod; splits; [lia|lia|done|done|].
    intros _; f_equal; lia. }
  destruct (is_data (fPayload f)) eqn:Hdt; cbn [negb].
  - rewrite length_encode in Hf; unfold payload_octets in Hf.
    assert (Hoc : OctetsRead r3 = (1 + length (numbers (fAck f) (fSeq f)))%nat).
    { rewrite Hoc3, Hoc2, Hoc1, length_numbers; unfold OctetsRead, r0; simpl.
      destruct (fAck f); lia. }
    rewrite Hoc; destruct (Z.leb_spec (Z.of_nat (1 + length (numbers (fAck f) (fSeq f))))
      (mRxFragmentSize (rx e))); [|lia].
    destruct (truncate_consume p (Z.to_nat (mRxFragmentSize (rx e)))
                (1 + length (numbers (fAck f) (fSeq f))) Hc) as (Hq & Hdq & Hrq & Haq);
      [rewrite Hd, length_encode; unfold payload_octets; lia..|].
    eexists _, _, _; split; [reflexivity|]; splits;
      [intros k Hk; by rewrite Hk|exact Ht'|exact Hm|exact Hrx|done|].
    intros _; splits; [done|done|].
    rewrite Hdq, Hd; unfold encode; rewrite app_assoc; apply drop_app_length'; by rewrite length_app.
  - eexists _, p, _; split; [reflexivity|]; splits;
      [intros k Hk; by rewrite Hk|exact Ht'|exact Hm|exact Hrx|done|done].
Qed.

Definition rx_seq (r : RxSide) : Z * Z * Z * Z :=
  (mRxNextSeqNum r, mRxNewestUnackedSeqNum r, mRxOldestUnackedSeqNum r, mRxFragmentSize r).

Lemma rx_at_seq O R r r' : rx_seq r = rx_seq r' -> rx_at O R r -> rx_at O R r'.
Proof. intros [= H1 H2 H3 H4]; unfold rx_at; by rewrite H1, H2, H3. Qed.

Lemma AppendFragment_spec r s b q a0 did0 h :
  mRxBuf r = [b] -> chain_ok [b] -> AllocSize b = kMaxSizeWithoutReserve ->
  chain_ok [q] -> pRef q = 1%nat -> (length (data b) + length (data q) <= kMaxSize)%nat ->
  exists r', AppendFragment (MkCtx (MkBtpEngine r s) [q] a0 did0 h) =
      (Ok tt, MkCtx (MkBtpEngine r' s) [] a0 did0 h) /\
    rx_buffer (data b ++ data q) r' /\ rx_seq r' = rx_seq r /\
    mRxState r' = mRxState r /\ mRxLength r' = mRxLength r.
Proof.
  intros Hb Hbok Hba Hqok Hqr Hlen; unfold kMaxSize, kMaxSizeWithoutReserve, kDefaultHeaderReserve in *.
  assert (contents [b] = data b /\ contents [q] = data q) as [Hcb Hcq]
    by (unfold contents; simpl; by rewrite !app_nil_r).
  destruct (AddToEnd_ok [b] [q]) as (c1 & Hadd & Hc1 & Hcc & _); try done;
    [by constructor|rewrite Hcb, Hcq; lia|].
  assert (exists n, c1 = [set_tot_len b n; q]) as [n ->].
  { cbn [AddToEnd] in Hadd; destruct (pTotLen b <=? _)%nat; [|done].
    exists (size_add (pTotLen b) (pTotLen q)); by simplify_eq. }
  destruct (CompactHead_ok (set_tot_len b n) [q] Hc1) as (c2 & Hcomp & Hc2 & Hcc2 & Hcmp).
  destruct Hcmp as (b' & next' & -> & Hp0 & Ha & Hnx).
  assert (AllocSize b' = AllocSize b) as Ha' by done.
  rewrite Hcc, Hcb, Hcq, contents_cons in Hcc2.
  destruct Hc2 as (Hb' & Ht' & Hf' & Hn').
  assert (next' = []) as ->.
  { destruct Hnx as [|Hav]; [done|exfalso].
    pose proof (AvailableDataLength_ok b' Hb') as Hav'.
    apply (f_equal length) in Hcc2; rewrite !length_app, length_data in Hcc2 by done.
    cbn [pPayload] in Hp0; lia. }
  rewrite app_nil_r in Hcc2.
  unfold AppendFragment, bind, get, or_die, put_data, upd_engine, modify;
    cbn [engine cData rx tx receivedAck didReceiveAck cHeap]; rewrite Hb, Hadd; cbn [ret].
  rewrite Hcomp; cbn.
  eexists; split; [reflexivity|]; splits; try done.
  exists b'; splits; [done|by apply chain_ok_cons|done|by rewrite Ha'].
Qed.

Hypothesis alloc_ok : forall h, exists b h', New tcp kMaxSize kDefaultHeaderReserve h = (Some b, h').

Lemma flags_start len chunk last ack :
  BitFlags.Has (payload_flags (StartMessage len chunk last) + ack_flag ack) kStartMessage = true.
Proof. by destruct last, ack. Qed.
Lemma flags_continue chunk last ack :
  let fl := payload_flags (Continue chunk last) + ack_flag ack in
  BitFlags.Has fl kStartMessage = false /\
  BitFlags.HasAny fl [kContinueMessage; kEndMessage] = true.
Proof. by destruct last, ack. Qed.
Lemma flags_last d ack :
  BitFlags.Has (payload_flags d + ack_flag ack) kEndMessage = last_of d.
Proof. by destruct d as [|? ? []|? []], ack. Qed.

Lemma Reassemble_spec r s d ack q a0 did0 h cur len acc :
  rx_holds cur r -> len_ok d -> accumulate cur d = Some (len, acc) ->
  (length acc <= kMaxSize)%nat -> chain_ok [q] -> pRef q = 1%nat -> data q = payload_bytes d ->
  exists r' h', Reassemble tcp (payload_flags d + ack_flag ack)
        (MkCtx (MkBtpEngine r s) [q] a0 did0 h) =
      (Ok tt, MkCtx (MkBtpEngine r' s) [] a0 did0 h') /\
    rx_holds (Some (len, acc)) r' /\ rx_seq r' = rx_seq r.
Proof.
  intros Hr Hlok Hacc Hlen Hq Hqr Hdq; unfold Reassemble.
  destruct d as [|l chunk last|chunk last], cur as [[len0 acc0]|]; try done;
    simpl in Hacc; simplify_eq; cbn [rx_holds] in Hr.
  - set (c := MkCtx _ _ _ _ _); unfold bind at 1; cbn [get engine cData c rx]; rewrite Hr.
    rewrite flags_start; cbn [verify].
    unfold bind at 1; cbn [ret].
    destruct (reading_spec 2 [len mod 256; len / 256] acc (Reader_new (data q)) c)
      as (Hrd & _ & _ & _ & Hoc); [apply Reader_new_wf|done|by rewrite rest_new|done|].
    rewrite (bind_ok _ _ _ _ _ Hrd), Hoc; clear Hrd.
    assert (le_combine [len mod 256; len / 256] = len) as ->.
    { simpl; unfold len_ok, is_uint in Hlok; pose proof (Z.div_mod len 256); lia. }
    pose proof Hq as (Hqok & Hqt & _ & _).
    assert (Hl2 : (2 + length acc = length (data q))%nat) by (rewrite Hdq; done).
    rewrite length_data in Hl2 by done.
    destruct (ConsumeHead_ok q 2 Hqok) as [Hq2 Hdq2]; [lia|].
    assert (Hq2ok : chain_ok [ConsumeHead q 2]).
    { apply single_chain_ok; [done|]; unfold contents in Hqt; simpl in Hqt.
      rewrite app_nil_r, length_data in Hqt by done.
      unfold ConsumeHead; bcase; [lia|]; simpl; lia. }
    destruct (alloc_ok h) as (b & h' & Hnew).
    pose proof (New_ok _ _ _ _ _ _ Hnew) as Hbok.
    destruct (New_spec _ _ _ _ _ _ Hnew) as (_ & Hba & Hbp & Hbl & Hbt & Hbr).
    unfold bind, upd_engine, modify, put_data, verify;
      cbn [engine cData receivedAck didReceiveAck cHeap c upd_rx rx tx].
    rewrite Hnew; cbn [option_list is_Some]; rewrite bool_decide_eq_true_2 by eauto; cbn [ret].
    edestruct (AppendFragment_spec (set_mRxBuf [b] (set_mRxState kState_InProgress (set_mRxLength len r)))
      s b (ConsumeHead q 2) a0 did0 h') as (r' & Ha & Hbuf & Hseq & Hst & Hln).
    + done.
    + apply single_chain_ok; [done|lia].
    + rewrite Hba; done.
    + done.
    + done.
    + rewrite length_data, Hbl, Hdq2, Hdq by done; cbn [payload_bytes].
      rewrite (drop_app_length' [_; _]) by done; simpl; lia.
    + exists r', h'; split; [exact Ha|]; splits; [|done].
      split; [done|]; split; [done|]; split; [done|].
      replace (data b) with (@nil Z) in Hbuf; [by rewrite Hdq2, Hdq in Hbuf|].
      symmetry; apply nil_length_inv; by rewrite length_data.
  - destruct Hr as (Hst & Hln & Hlu & b & Hb & Hbok & Hdb & Hba).
    destruct (flags_continue chunk last ack) as [Hf1 Hf2].
    unfold bind at 1; cbn [get engine cData rx]; rewrite Hst, Hf1, Hf2; cbn [negb verify].
    unfold bind; cbn [ret].
    destruct (AppendFragment_spec r s b q a0 did0 h) as (r' & Ha & Hbuf & Hseq & Hst' & Hln'); try done.
    { rewrite length_app in Hlen; by rewrite Hdb, Hdq. }
    exists r', h; split; [exact Ha|]; splits; [|done].
    split; [congruence|]; split; [congruence|]; split; [done|]; by rewrite Hdb, Hdq in Hbuf.
Qed.

(** The reassembly state when a message is complete. *)
Definition rx_complete (m : bytes) (r : RxSide) : Prop :=
  mRxState r = kState_Complete /\ rx_buffer m r.

Lemma EndMessage_spec r s a0 did0 h len acc cur msg :
  rx_holds (Some (len, acc)) r -> (length acc <= kMaxSize)%nat ->
  finish len acc true = Some (cur, msg) ->
  exists r' m, EndMessage (MkCtx (MkBtpEngine r s) [] a0 did0 h) =
      (Ok tt, MkCtx (MkBtpEngine r' s) [] a0 did0 h) /\
    cur = None /\ msg = Some m /\ rx_complete m r' /\ rx_seq r' = rx_seq r.
Proof.
  intros (Hst & Hln & Hlu & b & Hb & Hbok & Hdb & Hba) Hacc; unfold is_uint in Hlu.
  unfold kMaxSize, kMaxSizeWithoutReserve, kDefaultHeaderReserve in Hacc.
  unfold finish; destruct (Z.leb_spec len (Z.of_nat (length acc))) as [Hle|]; [|done].
  intros; simplify_eq; pose proof Hbok as (Hbp & Hbt & _ & _).
  rewrite contents_cons, app_nil_r in Hbt.
  assert (Hbl : pLen b = length (data b)) by (by rewrite length_data).
  unfold EndMessage; unfold bind at 1; cbn [get engine rx]; rewrite Hb; unfold DataLength at 1.
  destruct (Z.leb_spec (Z.of_nat (pLen b)) 65535); [|lia].
  unfold bind at 1; cbn [verify ret]; unfold DataLength at 1.
  set (b' := if 0 <? _ then _ else b).
  assert (Hb' : chain_ok [b'] /\ data b' = take (Z.to_nat (mRxLength r)) (data b) /\
                AllocSize b' = kMaxSizeWithoutReserve /\ Z.of_nat (pLen b') = mRxLength r).
  { unfold b', DataLength; destruct (Z.ltb_spec 0 (Z.of_nat (pLen b) - mRxLength r)).
    - destruct (SetDataLength_spec b (Z.to_nat (mRxLength r)) Hbp) as (Hp1 & Hpp & Hpl & Htt & Hpm & Hpr); [lia|].
      pose proof (MaxDataLength_ok b Hbp); pose proof (pbuf_fits b Hbp).
      rewrite Nat.min_l in Hpl by lia.
      set (p1 := snd (SetDataLength _ _ _)) in *; clearbody p1; splits.
      + apply single_chain_ok; [done|lia].
      + unfold data; rewrite Hpp, Hpl, Hpm; unfold mem_read; rewrite take_take; f_equal; lia.
      + unfold AllocSize in *; by rewrite Hpm.
      + lia.
    - splits; [done| |done|lia].
      rewrite take_ge by lia; done. }
  destruct Hb' as (Hb1 & Hb2 & Hb3 & Hb4).
  unfold bind, upd_engine, modify, verify; cbn [engine cData receivedAck didReceiveAck cHeap upd_rx rx tx].
  unfold DataLength; rewrite Hb4, Z.eqb_refl; cbn [ret].
  eexists _, _; split; [reflexivity|]; splits; try done.
  split; [done|]; exists b'; done.
Qed.

(** What one fragment does to an engine whose peer follows the protocol. *)
Definition received (U S O : Z) (e : t) (f : Frame) (cur' : option (Z * bytes))
    (msg : option bytes) (e' : t) : Prop :=
  tx_at (after_ack U (fAck f)) S (tx e') /\ tx_message (tx e') = tx_message (tx e) /\
  rx_at O (fSeq f + 1) (rx e') /\ mRxFragmentSize (rx e') = mRxFragmentSize (rx e) /\
  match msg with
  | None => rx_holds cur' (rx e')
  | Some m => cur' = None /\ rx_complete m (rx e')
  end.

Lemma receive_spec e f p a0 did0 h U S O cur cur' msg :
  data p = encode f -> chain_ok [p] -> pRef p = 1%nat ->
  tx_at U S (tx e) -> S - U <= 256 -> ack_valid U S (fAck f) -> rx_at O (fSeq f) (rx e) ->
  Z.of_nat (length (encode f)) <= mRxFragmentSize (rx e) -> len_ok (fPayload f) ->
  rx_holds cur (rx e) -> reassemble cur (fPayload f) = Some (cur', msg) ->
  (forall len acc, accumulate cur (fPayload f) = Some (len, acc) -> (length acc <= kMaxSize)%nat) ->
  exists e' d a' h', HandleCharacteristicReceived tcp (MkCtx e [p] a0 did0 h) =
      (Ok tt, MkCtx e' d a' (bool_decide (is_Some (fAck f))) h') /\
    (forall k, fAck f = Some k -> a' = k mod 256) /\ received U S O e f cur' msg e'.
Proof.
  intros Hd Hc Hpr Ht HS Hack Hr Hf Hlok Hcur Hre Hcap.
  destruct (ReceiveHeader_spec e f p a0 did0 h U S O Hd Hc Ht HS Hack Hr Hf)
    as (e1 & q & a' & Hh & Ha & Ht1 & Hm1 & Hr1 & Hmr1 & Hq).
  unfold HandleCharacteristicReceived, ReceiveBody; unfold bind at 1; cbn [get cData].
  rewrite (bind_ok _ _ _ _ _ Hh); clear Hh.
  assert (Hcur1 : rx_holds cur (rx e1) /\ mRxFragmentSize (rx e1) = mRxFragmentSize (rx e)).
  { injection Hmr1 as H1 H2 H3 H4; unfold rx_holds, rx_buffer in *; rewrite H1, H2, H3, H4.
    by destruct cur as [[]|]. }
  destruct Hcur1 as [Hcur1 Hfr1]; destruct e1 as [r1 s1]; cbn [rx tx] in *.
  unfold reassemble in Hre; destruct (is_data (fPayload f)) eqn:Hdt.
  2: { injection Hre as <- <-; exists (MkBtpEngine r1 s1), [q], a', h.
       split; [reflexivity|]; split; [done|]; unfold received; cbn [rx tx]; splits; assumption. }
  destruct (Hq eq_refl) as (Hqok & Hqr & Hdq); rewrite Hpr in Hqr.
  destruct (accumulate cur (fPayload f)) as [[len acc]|] eqn:Hacc; [|done]; cbn [mbind option_bind] in Hre.
  specialize (Hcap len acc eq_refl).
  destruct (Reassemble_spec r1 s1 (fPayload f) (fAck f) q a' (bool_decide (is_Some (fAck f))) h cur
              len acc Hcur1 Hlok Hacc Hcap Hqok Hqr Hdq) as (r2 & h2 & Hra & Hh2 & Hsq2).
  rewrite (bind_ok _ _ _ _ _ Hra), flags_last; clear Hra.
  assert (Hr2 : rx_at O (fSeq f + 1) r2) by (eapply rx_at_seq; [symmetry; exact Hsq2|done]).
  assert (Hf2 : mRxFragmentSize r2 = mRxFragmentSize r1) by (by injection Hsq2).
  destruct (last_of (fPayload f)) eqn:Hlast.
  - destruct (EndMessage_spec r2 s1 a' (bool_decide (is_Some (fAck f))) h2 len acc cur' msg Hh2 Hcap Hre)
      as (r3 & m & Hend & -> & -> & Hcm & Hsq3).
    rewrite Hend; exists (MkBtpEngine r3 s1), [], a', h2.
    split; [reflexivity|]; split; [done|]; unfold received; cbn [rx tx]; splits; try done.
    + eapply rx_at_seq; [symmetry; exact Hsq3|done].
    + injection Hsq3 as _ _ _ ->; by rewrite Hf2.
  - injection Hre as <- <-; exists (MkBtpEngine r2 s1), [], a', h2.
    split; [reflexivity|]; split; [done|]; unfold received; cbn [rx tx].
    splits; try assumption; by rewrite Hf2.
Qed.

End ReceiveSpec.
End BtpEngine.
