(* ===== verification/BleEndPoint.v ===== *)
(** * BleEndPoint: one end of a Bluetooth transport connection

    Model of class [BLEEndPoint] of src/src/ble/BLEEndPoint.{h,cpp}: the handshake,
    the flow control windows, the acknowledgement timers, sending, receiving and
    closing; with the handshake messages and the version choice of
    src/src/ble/BleLayer.{h,cpp}.

    - [EndPoint] is the class, [World] adds what it acts on: the allocator and the
      [BlePlatform], an interface for the platform delegate, the timers of the
      system layer and the transport above;
    - every method is an operation of the error monad on [World]; the callbacks of
      the platform and of the timers are [HandleGattSendConfirmationReceived],
      [Receive], [HandleSendAckTimeout], ...;
    - [BitFlags] over enumerations are records of booleans; function pointers the
      class only clears are left out. *)

From S2P Require Import Prelude Encoding PacketBuffer Btp.

(** ** The platform *)

Inductive Timer :=
| ConnectTimer
| ReceiveConnectionTimer
| AckReceivedTimer
| SendAckTimer
| UnsubscribeTimer.

(** Calls whose result the end point does not use. *)
Inductive Notification :=
| CloseConnection
| NotifyChipConnectionClosed
| CheckNonConcurrentBleClosing
| OnEndPointConnectComplete (err : CHIP_ERROR)
| OnEndPointConnectionClosed (err : CHIP_ERROR)
| OnEndPointMessageReceived (msg : bytes).

(** [BlePlatformDelegate] (GATT operations), [System::Layer] (timers),
    [BleLayerDelegate] and [BleApplicationDelegate] (notifications). *)
Class BlePlatform := {
  platform : Type;
  GetMTU : platform -> Z;
  SendWriteRequest : bytes -> platform -> CHIP_ERROR * platform;
  PlatformSendIndication : bytes -> platform -> CHIP_ERROR * platform;
  SubscribeCharacteristic : platform -> CHIP_ERROR * platform;
  UnsubscribeCharacteristic : platform -> CHIP_ERROR * platform;
  StartTimer : Timer -> platform -> CHIP_ERROR * platform;
  SetEndPoint : platform -> CHIP_ERROR * platform;
  Notify : Notification -> platform -> platform }.

Module BLEEndPoint.

(** ** Data *)

Inductive State :=
| kState_Ready
| kState_Connecting
| kState_Aborting
| kState_Connected
| kState_Closing
| kState_Closed.

Inductive BleRole := kBleRole_Central | kBleRole_Peripheral.

#[export] Instance State_eq_dec : EqDecision State.
Proof. solve_decision. Defined.
#[export] Instance BleRole_eq_dec : EqDecision BleRole.
Proof. solve_decision. Defined.

(** [BLE_CONFIG_IMMEDIATE_ACK_WINDOW_THRESHOLD], [BTP_WINDOW_NO_ACK_SEND_THRESHOLD],
    [BLE_MAX_RECEIVE_WINDOW_SIZE] *)
Definition IMMEDIATE_ACK_WINDOW_THRESHOLD : Z := 1.
Definition WINDOW_NO_ACK_SEND_THRESHOLD : Z := 1.
Definition MAX_RECEIVE_WINDOW_SIZE : Z := 6.

(** [BitFlags<ConnectionStateFlag>] *)
Record ConnectionStateFlags := MkConnFlags {
  kAutoClose : bool;
  kCapabilitiesConfReceived : bool;
  kCapabilitiesMsgReceived : bool;
  kDidBeginSubscribe : bool;
  kStandAloneAckInFlight : bool;
  kGattOperationInFlight : bool }.

(** [BitFlags<TimerStateFlag>] *)
Record TimerStateFlags := MkTimerFlags {
  kConnectTimerRunning : bool;
  kReceiveConnectionTimerRunning : bool;
  kAckReceivedTimerRunning : bool;
  kSendAckTimerRunning : bool;
  kUnsubscribeTimerRunning : bool }.

(** The end point.  [mBle], [mBleTransport] and [mConnObj] say whether the pointer or
    the connection object is set; null handles are empty chains. *)
Record EndPoint := MkEndPoint {
  mState : State;
  mBle : bool;
  mBleTransport : bool;
  mRefCount : Z;
  mConnObj : bool;
  mSendQueue : chain;
  mAckToSend : chain;
  mBtpEngine : BtpEngine.t;
  mRole : BleRole;
  mConnStateFlags : ConnectionStateFlags;
  mTimerStateFlags : TimerStateFlags;
  mLocalReceiveWindowSize : Z;
  mRemoteReceiveWindowSize : Z;
  mReceiveWindowMaxSize : Z }.

Definition set_kCapabilitiesConfReceived (v : bool) (c : ConnectionStateFlags) : ConnectionStateFlags :=
  MkConnFlags (kAutoClose c) v (kCapabilitiesMsgReceived c) (kDidBeginSubscribe c)
    (kStandAloneAckInFlight c) (kGattOperationInFlight c).
Definition set_kCapabilitiesMsgReceived (v : bool) (c : ConnectionStateFlags) : ConnectionStateFlags :=
  MkConnFlags (kAutoClose c) (kCapabilitiesConfReceived c) v (kDidBeginSubscribe c)
    (kStandAloneAckInFlight c) (kGattOperationInFlight c).
Definition set_kDidBeginSubscribe (v : bool) (c : ConnectionStateFlags) : ConnectionStateFlags :=
  MkConnFlags (kAutoClose c) (kCapabilitiesConfReceived c) (kCapabilitiesMsgReceived c) v
    (kStandAloneAckInFlight c) (kGattOperationInFlight c).
Definition set_kStandAloneAckInFlight (v : bool) (c : ConnectionStateFlags) : ConnectionStateFlags :=
  MkConnFlags (kAutoClose c) (kCapabilitiesConfReceived c) (kCapabilitiesMsgReceived c)
    (kDidBeginSubscribe c) v (kGattOperationInFlight c).
Definition set_kGattOperationInFlight (v : bool) (c : ConnectionStateFlags) : ConnectionStateFlags :=
  MkConnFlags (kAutoClose c) (kCapabilitiesConfReceived c) (kCapabilitiesMsgReceived c)
    (kDidBeginSubscribe c) (kStandAloneAckInFlight c) v.
Definition set_kConnectTimerRunning (v : bool) (m : TimerStateFlags) : TimerStateFlags :=
  MkTimerFlags v (kReceiveConnectionTimerRunning m) (kAckReceivedTimerRunning m)
    (kSendAckTimerRunning m) (kUnsubscribeTimerRunning m).
Definition set_kReceiveConnectionTimerRunning (v : bool) (m : TimerStateFlags) : TimerStateFlags :=
  MkTimerFlags (kConnectTimerRunning m) v (kAckReceivedTimerRunning m)
    (kSendAckTimerRunning m) (kUnsubscribeTimerRunning m).
Definition set_kAckReceivedTimerRunning (v : bool) (m : TimerStateFlags) : TimerStateFlags :=
  MkTimerFlags (kConnectTimerRunning m) (kReceiveConnectionTimerRunning m) v
    (kSendAckTimerRunning m) (kUnsubscribeTimerRunning m).
Definition set_kSendAckTimerRunning (v : bool) (m : TimerStateFlags) : TimerStateFlags :=
  MkTimerFlags (kConnectTimerRunning m) (kReceiveConnectionTimerRunning m)
    (kAckReceivedTimerRunning m) v (kUnsubscribeTimerRunning m).
Definition set_kUnsubscribeTimerRunning (v : bool) (m : TimerStateFlags) : TimerStateFlags :=
  MkTimerFlags (kConnectTimerRunning m) (kReceiveConnectionTimerRunning m)
    (kAckReceivedTimerRunning m) (kSendAckTimerRunning m) v.
Definition set_mState (v : State) (e : EndPoint) : EndPoint :=
  MkEndPoint v (mBle e) (mBleTransport e) (mRefCount e) (mConnObj e) (mSendQueue e)
    (mAckToSend e) (mBtpEngine e) (mRole e) (mConnStateFlags e) (mTimerStateFlags e)
    (mLocalReceiveWindowSize e) (mRemoteReceiveWindowSize e) (mReceiveWindowMaxSize e).
Definition set_mBle (v : bool) (e : EndPoint) : EndPoint :=
  MkEndPoint (mState e) v (mBleTransport e) (mRefCount e) (mConnObj e) (mSendQueue e)
    (mAckToSend e) (mBtpEngine e) (mRole e) (mConnStateFlags e) (mTimerStateFlags e)
    (mLocalReceiveWindowSize e) (mRemoteReceiveWindowSize e) (mReceiveWindowMaxSize e).
Definition set_mRefCount (v : Z) (e : EndPoint) : EndPoint :=
  MkEndPoint (mState e) (mBle e) (mBleTransport e) v (mConnObj e) (mSendQueue e)
    (mAckToSend e) (mBtpEngine e) (mRole e) (mConnStateFlags e) (mTimerStateFlags e)
    (mLocalReceiveWindowSize e) (mRemoteReceiveWindowSize e) (mReceiveWindowMaxSize e).
Definition set_mConnObj (v : bool) (e : EndPoint) : EndPoint :=
  MkEndPoint (mState e) (mBle e) (mBleTransport e) (mRefCount e) v (mSendQueue e)
    (mAckToSend e) (mBtpEngine e) (mRole e) (mConnStateFlags e) (mTimerStateFlags e)
    (mLocalReceiveWindowSize e) (mRemoteReceiveWindowSize e) (mReceiveWindowMaxSize e).
Definition set_mSendQueue (v : chain) (e : EndPoint) : EndPoint :=
  MkEndPoint (mState e) (mBle e) (mBleTransport e) (mRefCount e) (mConnObj e) v
    (mAckToSend e) (mBtpEngine e) (mRole e) (mConnStateFlags e) (mTimerStateFlags e)
    (mLocalReceiveWindowSize e) (mRemoteReceiveWindowSize e) (mReceiveWindowMaxSize e).
Definition set_mAckToSend (v : chain) (e : EndPoint) : EndPoint :=
  MkEndPoint (mState e) (mBle e) (mBleTransport e) (mRefCount e) (mConnObj e) (mSendQueue e)
    v (mBtpEngine e) (mRole e) (mConnStateFlags e) (mTimerStateFlags e)
    (mLocalReceiveWindowSize e) (mRemoteReceiveWindowSize e) (mReceiveWindowMaxSize e).
Definition set_mBtpEngine (v : BtpEngine.t) (e : EndPoint) : EndPoint :=
  MkEndPoint (mState e) (mBle e) (mBleTransport e) (mRefCount e) (mConnObj e) (mSendQueue e)
    (mAckToSend e) v (mRole e) (mConnStateFlags e) (mTimerStateFlags e)
    (mLocalReceiveWindowSize e) (mRemoteReceiveWindowSize e) (mReceiveWindowMaxSize e).
Definition set_mConnStateFlags (v : ConnectionStateFlags) (e : EndPoint) : EndPoint :=
  MkEndPoint (mState e) (mBle e) (mBleTransport e) (mRefCount e) (mConnObj e) (mSendQueue e)
    (mAckToSend e) (mBtpEngine e) (mRole e) v (mTimerStateFlags e)
    (mLocalReceiveWindowSize e) (mRemoteReceiveWindowSize e) (mReceiveWindowMaxSize e).
Definition set_mTimerStateFlags (v : TimerStateFlags) (e : EndPoint) : EndPoint :=
  MkEndPoint (mState e) (mBle e) (mBleTransport e) (mRefCount e) (mConnObj e) (mSendQueue e)
    (mAckToSend e) (mBtpEngine e) (mRole e) (mConnStateFlags e) v
    (mLocalReceiveWindowSize e) (mRemoteReceiveWindowSize e) (mReceiveWindowMaxSize e).
Definition set_mLocalReceiveWindowSize (v : Z) (e : EndPoint) : EndPoint :=
  MkEndPoint (mState e) (mBle e) (mBleTransport e) (mRefCount e) (mConnObj e) (mSendQueue e)
    (mAckToSend e) (mBtpEngine e) (mRole e) (mConnStateFlags e) (mTimerStateFlags e) v
    (mRemoteReceiveWindowSize e) (mReceiveWindowMaxSize e).
Definition set_mRemoteReceiveWindowSize (v : Z) (e : EndPoint) : EndPoint :=
  MkEndPoint (mState e) (mBle e) (mBleTransport e) (mRefCount e) (mConnObj e) (mSendQueue e)
    (mAckToSend e) (mBtpEngine e) (mRole e) (mConnStateFlags e) (mTimerStateFlags e)
    (mLocalReceiveWindowSize e) v (mReceiveWindowMaxSize e).
Definition set_mReceiveWindowMaxSize (v : Z) (e : EndPoint) : EndPoint :=
  MkEndPoint (mState e) (mBle e) (mBleTransport e) (mRefCount e) (mConnObj e) (mSendQueue e)
    (mAckToSend e) (mBtpEngine e) (mRole e) (mConnStateFlags e) (mTimerStateFlags e)
    (mLocalReceiveWindowSize e) (mRemoteReceiveWindowSize e) v.
Definition upd_conn (f : ConnectionStateFlags -> ConnectionStateFlags) (e : EndPoint) : EndPoint :=
  set_mConnStateFlags (f (mConnStateFlags e)) e.
Definition upd_timer (f : TimerStateFlags -> TimerStateFlags) (e : EndPoint) : EndPoint :=
  set_mTimerStateFlags (f (mTimerStateFlags e)) e.

Definition IsConnected (state : State) : bool :=
  match state with kState_Connected | kState_Closing => true | _ => false end.
Definition IsUnsubscribePending (e : EndPoint) : bool :=
  kUnsubscribeTimerRunning (mTimerStateFlags e).

(** ** The handshake messages *)

Module Capabilities.

Definition kCapabilitiesRequestLength : nat := 9.
Definition kCapabilitiesResponseLength : nat := 6.
Definition NUM_SUPPORTED_PROTOCOL_VERSIONS : nat := 8.
Definition kBleTransportProtocolVersion_None : Z := 0.
Definition kBleTransportProtocolVersion_V4 : Z := 4.
Definition CHECK_BYTE_1 : Z := 101.
Definition CHECK_BYTE_2 : Z := 108.

Record Request := MkRequest {
  mSupportedProtocolVersions : bytes;
  mMtu : Z;
  mWindowSize : Z }.

Record Response := MkResponse {
  mSelectedProtocolVersion : Z;
  mFragmentSize : Z;
  rWindowSize : Z }.

Definition SetSupportedProtocolVersion (index : nat) (version : Z) (req : Request) : Request :=
  let mask := if (index mod 2 =? 0)%nat then 15 else 240 in
  let version := if (index mod 2 =? 0)%nat then version else wrap 8 (Z.shiftl version 4) in
  let version := Z.land version mask in
  let slot := (index / 2)%nat in
  let old := nth slot (mSupportedProtocolVersions req) 0 in
  MkRequest (<[slot := Z.lor (Z.land old (wrap 8 (Z.lnot mask))) version]>
               (mSupportedProtocolVersions req)) (mMtu req) (mWindowSize req).

(** The octets [d] written from [Start()], as the messages' [Encode] do. *)
Definition write_at_start (d : bytes) (p : PBuf) : CHIP_ERROR * PBuf :=
  if (MaxDataLength p <? length d)%nat then (CHIP_ERROR_NO_MEMORY, p)
  else
    let p := MkPBuf (mem_write (pPayload p) d (pMem p)) (pPayload p) (pTotLen p) (pLen p) (pRef p) in
    (CHIP_NO_ERROR, snd (SetDataLength [] p (length d))).

Definition EncodeRequest `{ByteOrder} (req : Request) (msgBuf : PBuf) : CHIP_ERROR * PBuf :=
  write_at_start ([CHECK_BYTE_1; CHECK_BYTE_2] ++ mSupportedProtocolVersions req ++
                  nl_le_put 2 (mMtu req) ++ [mWindowSize req]) msgBuf.

Definition DecodeRequest `{ByteOrder} (msgBuf : PBuf) : result Request :=
  if (DataLength msgBuf <? kCapabilitiesRequestLength)%nat then Err CHIP_ERROR_MESSAGE_INCOMPLETE
  else
    match data msgBuf with
    | c1 :: c2 :: v0 :: v1 :: v2 :: v3 :: m0 :: m1 :: w :: _ =>
        if negb (CHECK_BYTE_1 =? c1) then Err BLE_ERROR_INVALID_MESSAGE
        else if negb (CHECK_BYTE_2 =? c2) then Err BLE_ERROR_INVALID_MESSAGE
        else Ok (MkRequest [v0; v1; v2; v3] (nl_le_get [m0; m1]) w)
    | _ => Err UNDEFINED_BEHAVIOUR
    end.

Definition EncodeResponse `{ByteOrder} (resp : Response) (msgBuf : PBuf) : CHIP_ERROR * PBuf :=
  write_at_start ([CHECK_BYTE_1; CHECK_BYTE_2; mSelectedProtocolVersion resp] ++
                  nl_le_put 2 (mFragmentSize resp) ++ [rWindowSize resp]) msgBuf.

Definition DecodeResponse `{ByteOrder} (msgBuf : PBuf) : result Response :=
  if (DataLength msgBuf <? kCapabilitiesResponseLength)%nat then Err CHIP_ERROR_MESSAGE_INCOMPLETE
  else
    match data msgBuf with
    | c1 :: c2 :: v :: f0 :: f1 :: w :: _ =>
        if negb (CHECK_BYTE_1 =? c1) then Err BLE_ERROR_INVALID_MESSAGE
        else if negb (CHECK_BYTE_2 =? c2) then Err BLE_ERROR_INVALID_MESSAGE
        else Ok (MkResponse v (nl_le_get [f0; f1]) w)
    | _ => Err UNDEFINED_BEHAVIOUR
    end.

(** The loop of [BleLayer::GetHighestSupportedProtocolVersion]; [n] passes are left. *)
Fixpoint highest_version (n i : nat) (shift_width retVersion : Z) (versions : bytes) : Z :=
  match n with
  | O => retVersion
  | S n =>
      let shift_width := Z.lxor shift_width 4 in
      let version := Z.land (Z.shiftr (nth (i / 2) versions 0) shift_width) 15 in
      if (kBleTransportProtocolVersion_V4 <=? version) &&
         (version <=? kBleTransportProtocolVersion_V4) && (retVersion <? version)
      then highest_version n (S i) shift_width version versions
      else if version =? kBleTransportProtocolVersion_None then retVersion
      else highest_version n (S i) shift_width retVersion versions
  end.
Definition GetHighestSupportedProtocolVersion (reqMsg : Request) : Z :=
  highest_version NUM_SUPPORTED_PROTOCOL_VERSIONS 0 4 kBleTransportProtocolVersion_None
    (mSupportedProtocolVersions reqMsg).

End Capabilities.

Section Operations.
Context `{ByteOrder} `{PlatformMemory} `{BlePlatform} (tcp : bool).

Record World := MkWorld {
  ep : EndPoint;
  wHeap : heap;
  wPlat : platform }.

Definition self : M World EndPoint := fun w => (Ok (ep w), w).
Definition upd (f : EndPoint -> EndPoint) : M World unit :=
  modify (fun w => MkWorld (f (ep w)) (wHeap w) (wPlat w)).
Definition upd_engine (f : BtpEngine.t -> BtpEngine.t) : M World unit :=
  upd (fun e => set_mBtpEngine (f (mBtpEngine e)) e).

(** [err == CHIP_NO_ERROR] *)
Definition is_success (err : CHIP_ERROR) : bool :=
  match err with CHIP_NO_ERROR => true | _ => false end.

(** A call of the platform, stopped by its error. *)
Definition call (f : platform -> CHIP_ERROR * platform) : M World unit := fun w =>
  let (err, p) := f (wPlat w) in
  (if is_success err then Ok tt else Err err, MkWorld (ep w) (wHeap w) p).
Definition notify (n : Notification) : M World unit :=
  modify (fun w => MkWorld (ep w) (wHeap w) (Notify n (wPlat w))).

(** A value C++ gives meaning to, or a [VerifyOrDie] that holds. *)
Definition defined {A} (o : option A) : M World A :=
  match o with Some a => ret a | None => fail UNDEFINED_BEHAVIOUR end.
Definition or_die {A} (o : option A) : M World A :=
  match o with Some a => ret a | None => fail PROGRAM_ABORT end.

Definition new_buffer (size : nat) : M World (option PBuf) := fun w =>
  let (p, h) := New tcp size kDefaultHeaderReserve (wHeap w) in
  (Ok p, MkWorld (ep w) h (wPlat w)).

(** ** Timers *)

Definition StartConnectTimer : M World unit :=
  call (StartTimer ConnectTimer) ;; upd (upd_timer (set_kConnectTimerRunning true)).
Definition StartReceiveConnectionTimer : M World unit :=
  call (StartTimer ReceiveConnectionTimer) ;;
  upd (upd_timer (set_kReceiveConnectionTimerRunning true)).
Definition StartAckReceivedTimer : M World unit :=
  let! e := self in
  if kAckReceivedTimerRunning (mTimerStateFlags e) then ret tt
  else call (StartTimer AckReceivedTimer) ;; upd (upd_timer (set_kAckReceivedTimerRunning true)).
Definition StartSendAckTimer : M World unit :=
  let! e := self in
  if kSendAckTimerRunning (mTimerStateFlags e) then ret tt
  else call (StartTimer SendAckTimer) ;; upd (upd_timer (set_kSendAckTimerRunning true)).
Definition StartUnsubscribeTimer : M World unit :=
  call (StartTimer UnsubscribeTimer) ;; upd (upd_timer (set_kUnsubscribeTimerRunning true)).

(** Cancelling a timer has no result. *)
Definition StopConnectTimer : M World unit :=
  upd (upd_timer (set_kConnectTimerRunning false)).
Definition StopReceiveConnectionTimer : M World unit :=
  upd (upd_timer (set_kReceiveConnectionTimerRunning false)).
Definition StopAckReceivedTimer : M World unit :=
  upd (upd_timer (set_kAckReceivedTimerRunning false)).
Definition StopSendAckTimer : M World unit :=
  upd (upd_timer (set_kSendAckTimerRunning false)).
Definition StopUnsubscribeTimer : M World unit :=
  upd (upd_timer (set_kUnsubscribeTimerRunning false)).

Definition RestartAckReceivedTimer : M World unit :=
  let! e := self in
  verify (kAckReceivedTimerRunning (mTimerStateFlags e)) CHIP_ERROR_INCORRECT_STATE ;;
  StopAckReceivedTimer ;;
  StartAckReceivedTimer.

(** ** Closing *)

Definition ReleaseBleConnection : M World unit :=
  let! e := self in
  if mConnObj e then
    notify (if kAutoClose (mConnStateFlags e) then CloseConnection
            else NotifyChipConnectionClosed) ;;
    upd (set_mConnObj false)
  else ret tt.

Definition FreeBtpEngine : M World unit :=
  upd_engine (fun e => snd (BtpEngine.TakeTxPacket e)) ;;
  upd_engine (fun e => snd (BtpEngine.TakeRxPacket e)).

Definition AddRef_ : M World unit :=
  let! e := self in
  if mRefCount e <? 4294967295 then upd (set_mRefCount (mRefCount e + 1))
  else fail PROGRAM_ABORT.
Definition Release : M World unit :=
  let! e := self in
  if 0 <? mRefCount e then
    upd (set_mRefCount (mRefCount e - 1)) ;;
    when (mRefCount e - 1 =? 0) (upd (set_mBle false))
  else fail PROGRAM_ABORT.

Definition Free_ : M World unit :=
  ReleaseBleConnection ;;
  FreeBtpEngine ;;
  upd (set_mAckToSend []) ;;
  StopConnectTimer ;;
  StopReceiveConnectionTimer ;;
  StopAckReceivedTimer ;;
  StopSendAckTimer ;;
  StopUnsubscribeTimer ;;
  upd (set_mConnObj false) ;;
  Release.

Definition DoCloseCallback (state : State) (err : CHIP_ERROR) : M World unit :=
  let! e := self in
  when (mBleTransport e)
    (notify (if decide (state = kState_Connecting) then OnEndPointConnectComplete err
             else OnEndPointConnectionClosed err)).

(** The flags [kBleCloseFlag_SuppressCallback] and [kBleCloseFlag_AbortTransmission]. *)
Record CloseFlags := MkCloseFlags {
  SuppressCallback : bool;
  AbortTransmission : bool }.

Definition FinalizeClose (oldState : State) (flags : CloseFlags) (err : CHIP_ERROR)
    : M World unit :=
  upd (set_mState kState_Closed) ;;
  upd (set_mSendQueue []) ;;
  when (negb (bool_decide (oldState = kState_Closing)) && negb (SuppressCallback flags))
    (DoCloseCallback oldState err) ;;
  let! e := self in
  when (mBleTransport e && SuppressCallback flags) (notify (OnEndPointConnectionClosed err)) ;;
  if decide (err = BLE_ERROR_REMOTE_DEVICE_DISCONNECTED \/ err = BLE_ERROR_APP_CLOSED_CONNECTION)
  then upd (set_mConnObj false) ;; Free_
  else if decide (mRole e = kBleRole_Central) then
    if kDidBeginSubscribe (mConnStateFlags e) then
      StopAckReceivedTimer ;;
      StopSendAckTimer ;;
      let! err := attempt (call UnsubscribeCharacteristic) in
      if is_success err then
        let! e := self in
        when (mConnObj e)
          (let! err := attempt StartUnsubscribeTimer in
           when (negb (is_success err)) Free_ ;;
           upd (upd_conn (set_kGattOperationInFlight true)))
      else Free_
    else Free_
  else Free_.

Definition DoClose (flags : CloseFlags) (err : CHIP_ERROR) : M World unit :=
  let! e := self in
  let oldState := mState e in
  if negb (bool_decide (oldState = kState_Closed \/ oldState = kState_Closing)) ||
     (bool_decide (oldState = kState_Closing) && AbortTransmission flags)
  then
    (if decide (mRole e = kBleRole_Central) then StopConnectTimer
     else StopReceiveConnectionTimer) ;;
    if bool_decide (BtpEngine.mTxState (BtpEngine.tx (mBtpEngine e)) = BtpEngine.kState_Idle) ||
       AbortTransmission flags
    then FinalizeClose oldState flags err
    else
      upd (set_mState kState_Closing) ;;
      when (negb (SuppressCallback flags)) (DoCloseCallback oldState err) ;;
      when (mBleTransport e && SuppressCallback flags) (notify (OnEndPointConnectionClosed err))
  else ret tt.

Definition Abort_ : M World unit := DoClose (MkCloseFlags true true) CHIP_NO_ERROR.
Definition Close : M World unit := DoClose (MkCloseFlags true false) CHIP_NO_ERROR.

(** The common [exit:] of the operations: an error closes the end point and is
    returned. *)
Definition closing_on_error (flags : CloseFlags) (m : M World unit) : M World unit :=
  let! err := attempt m in
  if is_success err then ret tt
  else DoClose flags err ;; fail err.

(** ** Sending *)

(** A handle given to the platform, which sends the data of its first buffer. *)
Definition handle_data (buf : chain) : M World bytes :=
  match buf with [] => fail UNDEFINED_BEHAVIOUR | p :: _ => ret (data p) end.

Definition SendWrite (buf : chain) : M World unit :=
  upd (upd_conn (set_kGattOperationInFlight true)) ;;
  let! d := handle_data buf in call (SendWriteRequest d).
Definition SendIndication (buf : chain) : M World unit :=
  upd (upd_conn (set_kGattOperationInFlight true)) ;;
  let! d := handle_data buf in call (PlatformSendIndication d).

Definition shrink_remote_window : M World unit :=
  upd (fun e => set_mRemoteReceiveWindowSize (mRemoteReceiveWindowSize e -{8} 1) e).

Definition SendCharacteristic (buf : chain) : M World unit :=
  let! e := self in
  (if decide (mRole e = kBleRole_Central) then SendWrite buf else SendIndication buf) ;;
  shrink_remote_window.

Definition QueueTx (data : chain) : M World unit :=
  let! e := self in
  let! queue := or_die (HandleAddToEnd (mSendQueue e) data) in
  upd (set_mSendQueue queue).

(** Whether the fragment was prepared, and the argument [sentAck]. *)
Definition PrepareNextFragment (data : chain) : M World (bool * bool) :=
  let! e := self in
  let sentAck := kSendAckTimerRunning (mTimerStateFlags e) in
  when sentAck (upd (set_mLocalReceiveWindowSize (mReceiveWindowMaxSize e))) ;;
  let! (ok, engine) :=
    defined (BtpEngine.HandleCharacteristicSend (mBtpEngine e) data sentAck) in
  upd (set_mBtpEngine engine) ;;
  ret (ok, sentAck).

(** The fragment in the engine is sent; both callers end this way. *)
Definition SendFragment (sentAck : bool) : M World unit :=
  let! e := self in
  SendCharacteristic (BtpEngine.mTxBuf (BtpEngine.tx (mBtpEngine e))) ;;
  when sentAck StopSendAckTimer ;;
  StartAckReceivedTimer.

Definition SendNextMessage : M World unit :=
  let! e := self in
  let! (data, queue) := defined (PopHead (mSendQueue e)) in
  upd (set_mSendQueue queue) ;;
  let! (ok, sentAck) := PrepareNextFragment [data] in
  verify ok BLE_ERROR_CHIPOBLE_PROTOCOL_ABORT ;;
  SendFragment sentAck.

Definition ContinueMessageSend : M World unit :=
  let! (ok, sentAck) := PrepareNextFragment [] in
  verify ok BLE_ERROR_CHIPOBLE_PROTOCOL_ABORT ;;
  SendFragment sentAck.

Definition DoSendStandAloneAck : M World unit :=
  let! e := self in
  let! (p, next) := defined (match mAckToSend e with p :: next => Some (p, next) | [] => None end) in
  let! (err, engine, p) := defined (BtpEngine.EncodeStandAloneAck (mBtpEngine e) p) in
  upd (set_mBtpEngine engine) ;;
  upd (set_mAckToSend (p :: next)) ;;
  verify (is_success err) err ;;
  SendCharacteristic (p :: next) ;;
  upd (set_mLocalReceiveWindowSize (mReceiveWindowMaxSize e)) ;;
  upd (upd_conn (set_kStandAloneAckInFlight true)) ;;
  StartAckReceivedTimer.

Definition is_null (c : chain) : bool := match c with [] => true | _ => false end.

Definition DriveSending : M World unit :=
  let! e := self in
  if ((mRemoteReceiveWindowSize e <=? WINDOW_NO_ACK_SEND_THRESHOLD) &&
      negb (kSendAckTimerRunning (mTimerStateFlags e)) && is_null (mAckToSend e)) ||
     (mRemoteReceiveWindowSize e =? 0) || kGattOperationInFlight (mConnStateFlags e)
  then ret tt
  else if negb (is_null (mAckToSend e)) then DoSendStandAloneAck
  else
    match BtpEngine.mTxState (BtpEngine.tx (mBtpEngine e)) with
    | BtpEngine.kState_Idle => when (negb (is_null (mSendQueue e))) SendNextMessage
    | BtpEngine.kState_InProgress => ContinueMessageSend
    | BtpEngine.kState_Complete =>
        upd_engine (fun e => snd (BtpEngine.TakeTxPacket e)) ;;
        if negb (is_null (mSendQueue e)) then SendNextMessage
        else if decide (mState e = kState_Closing /\
                        BtpEngine.mExpectingAck (BtpEngine.tx (mBtpEngine e)) = false)
        then FinalizeClose (mState e) (MkCloseFlags true false) CHIP_NO_ERROR
        else notify CheckNonConcurrentBleClosing
    | BtpEngine.kState_Error => ret tt
    end.

Definition DriveStandAloneAck : M World unit :=
  StopSendAckTimer ;;
  let! e := self in
  (if is_null (mAckToSend e) then
     let! p := new_buffer BtpEngine.kTransferProtocolStandaloneAckHeaderSize in
     upd (set_mAckToSend (option_list p)) ;;
     verify (bool_decide (is_Some p)) CHIP_ERROR_NO_MEMORY
   else ret tt) ;;
  DriveSending.

Definition Send (data : chain) : M World unit :=
  closing_on_error (MkCloseFlags false true)
    (let! e := self in
     verify (negb (is_null data)) CHIP_ERROR_INVALID_ARGUMENT ;;
     verify (IsConnected (mState e)) CHIP_ERROR_INCORRECT_STATE ;;
     let! data := (if (1 <? length data)%nat then or_die (CompactHead data) else ret data) in
     verify (length data <=? 1)%nat CHIP_ERROR_OUTBOUND_MESSAGE_TOO_BIG ;;
     QueueTx data ;;
     DriveSending).

(** ** The handshake *)

(** [Init(bleLayer, connObj, role, autoClose)] with a layer and a connection object. *)
Definition Init (rx_len tx_len : Z) (role : BleRole) (autoClose : bool) : M World unit :=
  let! e := self in
  verify (negb (mBle e)) CHIP_ERROR_INCORRECT_STATE ;;
  let expectInitialAck := bool_decide (role = kBleRole_Peripheral) in
  upd (fun e => MkEndPoint kState_Ready true (mBleTransport e) 1 true [] []
    (BtpEngine.Init rx_len tx_len expectInitialAck) role
    (MkConnFlags autoClose false false false false false)
    (MkTimerFlags false false false false false) 0 0 0).

Definition HandleConnectComplete : M World unit :=
  upd (set_mState kState_Connected) ;;
  StopConnectTimer ;;
  let! e := self in
  if mBleTransport e then notify (OnEndPointConnectComplete CHIP_NO_ERROR)
  else fail BLE_ERROR_NO_CONNECT_COMPLETE_CALLBACK.

Definition HandleReceiveConnectionComplete : M World unit :=
  upd (set_mState kState_Connected) ;;
  StopReceiveConnectionTimer ;;
  let! e := self in
  if mBleTransport e then call SetEndPoint
  else fail BLE_ERROR_NO_CONNECTION_RECEIVED_CALLBACK.

Definition StartConnect : M World unit :=
  let! err := attempt (
    let! e := self in
    verify (bool_decide (mState e = kState_Ready)) CHIP_ERROR_INCORRECT_STATE ;;
    upd (set_mState kState_Connecting) ;;
    let! buf := new_buffer BtpEngine.kMaxSize in
    verify (bool_decide (is_Some buf)) CHIP_ERROR_NO_MEMORY ;;
    let! p := defined buf in
    let! w := get in
    let req := Capabilities.SetSupportedProtocolVersion 0
                 Capabilities.kBleTransportProtocolVersion_V4
                 (Capabilities.MkRequest [0; 0; 0; 0] (GetMTU (wPlat w)) MAX_RECEIVE_WINDOW_SIZE) in
    let (err, p) := Capabilities.EncodeRequest req p in
    verify (is_success err) err ;;
    StartConnectTimer ;;
    SendWrite [p] ;;
    QueueTx [p]) in
  if is_success err then ret tt
  else StopConnectTimer ;; DoClose (MkCloseFlags false true) err ;; fail err.

Definition HandleSubscribeReceived : M World unit :=
  let! err := attempt (
    let! e := self in
    verify (bool_decide (mState e = kState_Connecting \/ mState e = kState_Aborting))
           CHIP_ERROR_INCORRECT_STATE ;;
    verify (negb (is_null (mSendQueue e))) CHIP_ERROR_INCORRECT_STATE ;;
    let! err := attempt (SendIndication (mSendQueue e)) in
    when (negb (is_success err)) (upd (set_mSendQueue []) ;; fail err) ;;
    shrink_remote_window ;;
    StartAckReceivedTimer ;;
    when (bool_decide (mState e <> kState_Aborting)) HandleReceiveConnectionComplete) in
  if is_success err then ret tt else DoClose (MkCloseFlags true true) err.

Definition HandleSubscribeComplete : M World unit :=
  upd (upd_conn (set_kGattOperationInFlight false)) ;;
  let! err := attempt DriveSending in
  if is_success err then ret tt
  else DoClose (MkCloseFlags false true) CHIP_NO_ERROR.

Definition HandleUnsubscribeComplete : M World unit := Free_.

Definition min_u8 (a b : Z) : Z := if b <? a then b else a.

Definition HandleCapabilitiesRequestReceived (data : chain) : M World unit :=
  match data with
  | [] => fail CHIP_ERROR_INVALID_ARGUMENT
  | p :: _ =>
      upd (set_mState kState_Connecting) ;;
      let! req := (match Capabilities.DecodeRequest p with Ok r => ret r | Err err => fail err end) in
      let! buf := new_buffer Capabilities.kCapabilitiesResponseLength in
      verify (bool_decide (is_Some buf)) CHIP_ERROR_NO_MEMORY ;;
      let! responseBuf := defined buf in
      let! w := get in
      let mtu := if 0 <? Capabilities.mMtu req then Capabilities.mMtu req else GetMTU (wPlat w) in
      let mFragmentSize :=
        if 0 <? mtu then
          BtpEngine.clamp (wrap 16 (Z.max mtu 3 - 3)) BtpEngine.sMinFragmentSize
                          BtpEngine.sMaxFragmentSize
        else BtpEngine.sDefaultFragmentSize in
      let window := min_u8 (Capabilities.mWindowSize req) MAX_RECEIVE_WINDOW_SIZE in
      upd (fun e => set_mRemoteReceiveWindowSize window (set_mLocalReceiveWindowSize window
                      (set_mReceiveWindowMaxSize window e))) ;;
      let version := Capabilities.GetHighestSupportedProtocolVersion req in
      (if version =? Capabilities.kBleTransportProtocolVersion_None
       then upd (set_mState kState_Aborting)
       else upd_engine (fun e => BtpEngine.SetTxFragmentSize mFragmentSize
                                   (BtpEngine.SetRxFragmentSize mFragmentSize e))) ;;
      let (err, responseBuf) :=
        Capabilities.EncodeResponse (Capabilities.MkResponse version mFragmentSize window)
          responseBuf in
      verify (is_success err) err ;;
      QueueTx [responseBuf] ;;
      StartReceiveConnectionTimer
  end.

Definition HandleCapabilitiesResponseReceived (data : chain) : M World unit :=
  match data with
  | [] => fail CHIP_ERROR_INVALID_ARGUMENT
  | p :: _ =>
      let! resp := (match Capabilities.DecodeResponse p with Ok r => ret r | Err err => fail err end) in
      verify (BtpEngine.sMinFragmentSize <=? Capabilities.mFragmentSize resp)
             BLE_ERROR_INVALID_FRAGMENT_SIZE ;;
      verify (Capabilities.mSelectedProtocolVersion resp =? Capabilities.kBleTransportProtocolVersion_V4)
             BLE_ERROR_INCOMPATIBLE_PROTOCOL_VERSIONS ;;
      let mFragmentSize := Z.min (Capabilities.mFragmentSize resp) BtpEngine.sMaxFragmentSize in
      upd_engine (fun e => BtpEngine.SetTxFragmentSize mFragmentSize
                             (BtpEngine.SetRxFragmentSize mFragmentSize e)) ;;
      let window := Capabilities.rWindowSize resp in
      upd (fun e => set_mRemoteReceiveWindowSize window (set_mLocalReceiveWindowSize window
                      (set_mReceiveWindowMaxSize window e))) ;;
      upd (fun e => set_mLocalReceiveWindowSize (mLocalReceiveWindowSize e -{8} 1) e) ;;
      StartSendAckTimer ;;
      HandleConnectComplete
  end.

(** ** Confirmations *)

Definition local_window_low (e : EndPoint) : bool :=
  mLocalReceiveWindowSize e <=? IMMEDIATE_ACK_WINDOW_THRESHOLD.

Definition HandleHandshakeConfirmationReceived : M World unit :=
  let! e := self in
  let! queue := (match mSendQueue e with [] => ret [] | q => or_die (FreeHead q) end) in
  upd (set_mSendQueue queue) ;;
  if decide (mRole e = kBleRole_Central) then
    closing_on_error (MkCloseFlags false true)
      (call SubscribeCharacteristic ;;
       upd (upd_conn (set_kDidBeginSubscribe true)) ;;
       upd (upd_conn (set_kGattOperationInFlight true)))
  else if decide (mState e = kState_Connected) then
    closing_on_error (MkCloseFlags false true)
      (if local_window_low e && is_null queue then DriveStandAloneAck else DriveSending)
  else if decide (mState e = kState_Aborting) then
    closing_on_error (MkCloseFlags true true) (fail BLE_ERROR_INCOMPATIBLE_PROTOCOL_VERSIONS)
  else ret tt.

Definition HandleFragmentConfirmationReceived : M World unit :=
  let! e := self in
  if IsUnsubscribePending e then ret tt
  else
    closing_on_error (MkCloseFlags false true)
      (verify (IsConnected (mState e)) CHIP_ERROR_INCORRECT_STATE ;;
       when (kStandAloneAckInFlight (mConnStateFlags e))
         (upd (set_mAckToSend []) ;; upd (upd_conn (set_kStandAloneAckInFlight false))) ;;
       if local_window_low e && is_null (mSendQueue e) &&
          negb (bool_decide (BtpEngine.mTxState (BtpEngine.tx (mBtpEngine e)) =
                             BtpEngine.kState_InProgress))
       then DriveStandAloneAck else DriveSending).

Definition HandleGattSendConfirmationReceived : M World unit :=
  upd (upd_conn (set_kGattOperationInFlight false)) ;;
  let! e := self in
  if negb (kCapabilitiesConfReceived (mConnStateFlags e)) then
    upd (upd_conn (set_kCapabilitiesConfReceived true)) ;;
    HandleHandshakeConfirmationReceived
  else HandleFragmentConfirmationReceived.

(** ** Receiving *)

Definition AdjustRemoteReceiveWindow
    (lastReceivedAck maxRemoteWindowSize newestUnackedSentSeqNum : Z) : Z :=
  let newRemoteWindowBoundary := wrap 16 (lastReceivedAck + maxRemoteWindowSize) in
  if (255 <? newRemoteWindowBoundary) && (newestUnackedSentSeqNum <? lastReceivedAck)
  then wrap 8 (newRemoteWindowBoundary - (newestUnackedSentSeqNum + 255))
  else wrap 8 (newRemoteWindowBoundary - newestUnackedSentSeqNum).

(** The engine takes the fragment: [receivedAck] and [didReceiveAck]. *)
Definition engine_receive (data : chain) : M World (Z * bool) := fun w =>
  let (res, c) := BtpEngine.HandleCharacteristicReceived tcp
                    (BtpEngine.MkCtx (mBtpEngine (ep w)) data 0 false (wHeap w)) in
  (match res with
   | Ok _ => Ok (BtpEngine.receivedAck c, BtpEngine.didReceiveAck c)
   | Err err => Err err
   end, MkWorld (set_mBtpEngine (BtpEngine.engine c) (ep w)) (BtpEngine.cHeap c) (wPlat w)).

(** The response to an acknowledgement; whether the end point was closed. *)
Definition ReceiveAckOf (receivedAck : Z) : M World bool :=
  let! e := self in
  let s := BtpEngine.tx (mBtpEngine e) in
  let! closed :=
    (if negb (BtpEngine.mExpectingAck s) then
       StopAckReceivedTimer ;;
       if decide (mState e = kState_Closing /\ mSendQueue e = [] /\
                  BtpEngine.mTxState s = BtpEngine.kState_Idle)
       then FinalizeClose (mState e) (MkCloseFlags true false) CHIP_NO_ERROR ;; ret true
       else ret false
     else RestartAckReceivedTimer ;; ret false) in
  if closed : bool then ret true
  else
    upd (set_mRemoteReceiveWindowSize
           (AdjustRemoteReceiveWindow receivedAck (mReceiveWindowMaxSize e)
              (BtpEngine.mTxNewestUnackedSeqNum s))) ;;
    DriveSending ;;
    ret false.

(** The acknowledgement of the fragment received, now or when the timer expires. *)
Definition AcknowledgeReceived : M World unit :=
  let! e := self in
  if BtpEngine.HasUnackedData (mBtpEngine e) then
    if local_window_low e && negb (kGattOperationInFlight (mConnStateFlags e))
    then DriveStandAloneAck else StartSendAckTimer
  else ret tt.

(** A reassembled message is handed to the transport. *)
Definition DeliverMessage : M World unit :=
  let! e := self in
  if decide (BtpEngine.mRxState (BtpEngine.rx (mBtpEngine e)) = BtpEngine.kState_Complete) then
    let (full_packet, engine) := BtpEngine.TakeRxPacket (mBtpEngine e) in
    upd (set_mBtpEngine engine) ;;
    let! d := handle_data full_packet in
    when (mBleTransport e && negb (bool_decide (mState e = kState_Closing)))
      (notify (OnEndPointMessageReceived d))
  else ret tt.

(** A fragment received after the handshake. *)
Definition ReceiveFragment (data : chain) : M World unit :=
  let! e := self in
  verify (IsConnected (mState e)) CHIP_ERROR_INCORRECT_STATE ;;
  let! (receivedAck, didReceiveAck) := engine_receive data in
  upd (fun e => set_mLocalReceiveWindowSize (mLocalReceiveWindowSize e -{8} 1) e) ;;
  let! closed := (if didReceiveAck : bool then ReceiveAckOf receivedAck else ret false) in
  if closed : bool then ret tt else AcknowledgeReceived ;; DeliverMessage.

Definition Receive (data : chain) : M World unit :=
  let! e := self in
  if IsUnsubscribePending e then ret tt
  else if negb (kCapabilitiesMsgReceived (mConnStateFlags e)) then
    if decide (mRole e = kBleRole_Central) then
      closing_on_error (MkCloseFlags false true)
        (verify (bool_decide (mState e = kState_Connecting)) CHIP_ERROR_INCORRECT_STATE ;;
         upd (upd_conn (set_kCapabilitiesMsgReceived true)) ;;
         HandleCapabilitiesResponseReceived data)
    else if decide (mState e = kState_Ready) then
      closing_on_error (MkCloseFlags true true)
        (upd (upd_conn (set_kCapabilitiesMsgReceived true)) ;;
         HandleCapabilitiesRequestReceived data)
    else closing_on_error (MkCloseFlags false true) (fail CHIP_ERROR_INCORRECT_STATE)
  else closing_on_error (MkCloseFlags false true) (ReceiveFragment data).

(** ** Timeouts *)

Definition HandleConnectTimeout : M World unit :=
  let! e := self in
  when (kConnectTimerRunning (mTimerStateFlags e))
    (StopConnectTimer ;; DoClose (MkCloseFlags false true) BLE_ERROR_CONNECT_TIMED_OUT).
Definition HandleReceiveConnectionTimeout : M World unit :=
  let! e := self in
  when (kReceiveConnectionTimerRunning (mTimerStateFlags e))
    (StopReceiveConnectionTimer ;;
     DoClose (MkCloseFlags true true) BLE_ERROR_RECEIVE_TIMED_OUT).
Definition HandleAckReceivedTimeout : M World unit :=
  let! e := self in
  when (kAckReceivedTimerRunning (mTimerStateFlags e))
    (StopAckReceivedTimer ;;
     DoClose (MkCloseFlags false true) BLE_ERROR_FRAGMENT_ACK_TIMED_OUT).
Definition HandleSendAckTimeout : M World unit :=
  let! e := self in
  when (kSendAckTimerRunning (mTimerStateFlags e))
    (StopSendAckTimer ;;
     when (negb (kStandAloneAckInFlight (mConnStateFlags e)))
       (let! sendErr := attempt DriveStandAloneAck in
        when (negb (is_success sendErr))
          (DoClose (MkCloseFlags false true) sendErr))).
Definition HandleUnsubscribeTimeout : M World unit :=
  let! e := self in
  when (kUnsubscribeTimerRunning (mTimerStateFlags e))
    (StopUnsubscribeTimer ;; HandleUnsubscribeComplete).

(** [BleLayer::HandleUnsubscribeReceived] and [BleLayer::HandleConnectionError] on
    the end point of the connection. *)
Definition HandleUnsubscribeReceived : M World unit :=
  DoClose (MkCloseFlags false true) BLE_ERROR_CENTRAL_UNSUBSCRIBED.
Definition HandleConnectionError (err : CHIP_ERROR) : M World unit :=
  let! e := self in
  if decide (err = BLE_ERROR_GATT_UNSUBSCRIBE_FAILED /\ IsUnsubscribePending e = true)
  then Free_ else DoClose (MkCloseFlags false true) err.

End Operations.
End BLEEndPoint.
