(* ===== verification/BleLink.v ===== *)
(** * BleLink: two end points and the radio between them

    Theorems on a Bluetooth transport connection as a whole: two end points
    (BleEndPoint.v), each with its engine (Btp.v), and a radio that delivers the
    fragments in order.

    - [Radio] is the platform: what was sent and is still in the air, and the
      notifications;
    - [Link], [Event], [link_step]: the transition system; [reachable] its runs;
    - [Ghost] holds unbounded counters and the messages of one end point;
      [ep_core] relates it to the concrete state, [compat] two ghosts, and
      [link_inv] is the invariant: the 8-bit protocol refines the unbounded one. *)

From S2P Require Import Prelude Encoding PacketBuffer Btp BleEndPoint.
Import BLEEndPoint.

(** ** The transition system *)

Record Radio := MkRadio {
  mtu : Z;
  air : list bytes;
  upcalls : list Notification }.

Definition transmit (d : bytes) (r : Radio) : CHIP_ERROR * Radio :=
  (CHIP_NO_ERROR, MkRadio (mtu r) (air r ++ [d]) (upcalls r)).

#[export] Instance radio : BlePlatform := {|
  platform := Radio;
  GetMTU := mtu;
  SendWriteRequest := transmit;
  PlatformSendIndication := transmit;
  SubscribeCharacteristic r := (CHIP_NO_ERROR, r);
  UnsubscribeCharacteristic r := (CHIP_NO_ERROR, r);
  StartTimer _ r := (CHIP_NO_ERROR, r);
  SetEndPoint r := (CHIP_NO_ERROR, r);
  Notify n r := MkRadio (mtu r) (air r) (upcalls r ++ [n]) |}.

Definition messages (l : list Notification) : list bytes :=
  omap (fun n => match n with OnEndPointMessageReceived d => Some d | _ => None end) l.

Section Link.
Context `{ByteOrder} `{PlatformMemory} (tcp : bool).

Definition set_air (l : list bytes) (w : World) : World :=
  MkWorld (ep w) (wHeap w) (MkRadio (mtu (wPlat w)) l (upcalls (wPlat w))).

(** A fragment is received in a buffer of its size. *)
Definition received_buffer (d : bytes) : PBuf := MkPBuf d 0 (length d) (length d) 1.

(** A message the application may send: one buffer of its own with room for the
    header and the data of one packet at most. *)
Definition message_ok (p : PBuf) : Prop :=
  pbuf_ok p /\ (BtpEngine.kTransferProtocolMaxHeaderSize + length (data p) <= AllocSize p)%nat /\
  (length (data p) <= BtpEngine.kMaxSize)%nat /\ pRef p = 1%nat.

Inductive Event :=
| AppSend (p : PBuf)
| DeliverFragment
| GattConfirmation
| SendAckTimer_.

(** One event at [self]; [None] when it cannot happen.  A fragment is taken out of
    the air of the peer. *)
Definition side_step (ev : Event) (self peer : World) : option (CHIP_ERROR * World * World) :=
  let run (m : M World unit) (w peer : World) :=
    let (res, w) := m w in Some (status res, w, peer) in
  match ev with
  | AppSend p => run (Send [p]) self peer
  | DeliverFragment =>
      match air (wPlat peer) with
      | [] => None
      | d :: l => run (Receive tcp [received_buffer d]) self (set_air l peer)
      end
  | GattConfirmation =>
      if kGattOperationInFlight (mConnStateFlags (ep self))
      then run (HandleGattSendConfirmationReceived tcp) self peer else None
  | SendAckTimer_ =>
      if kSendAckTimerRunning (mTimerStateFlags (ep self))
      then run (HandleSendAckTimeout tcp) self peer else None
  end.

Record Link := MkLink {
  central : World;
  peripheral : World }.

Definition link_step (at_central : bool) (ev : Event) (l : Link) : option (CHIP_ERROR * Link) :=
  if at_central
  then '(err, c, p) ← side_step ev (central l) (peripheral l); Some (err, MkLink c p)
  else '(err, p, c) ← side_step ev (peripheral l) (central l); Some (err, MkLink c p).

(** No stand-alone acknowledgement waits to be sent. *)
Definition no_ack_pending (e : EndPoint) : Prop :=
  mAckToSend e = [] \/ kStandAloneAckInFlight (mConnStateFlags e) = true.

(** ** Ghost state *)

Import BtpEngine.

Record Ghost := MkGhost {
  gU : Z;
  gS : Z;
  gO : Z;
  gR : Z;
  gAir : list Frame;
  gCur : option (Z * bytes);
  gUp : list bytes;
  gTx : option (bytes * bytes);
  gDone : list bytes;
  gQueue : list bytes }.

(** All messages the application sent: those cut up completely, the one in
    progress, those in the queue. *)
Definition all_sent (g : Ghost) : list bytes :=
  gDone g ++ (match gTx g with Some (m, _) => [m] | None => [] end) ++ gQueue g.

(** What the receiver holds once everything in the air arrived. *)
Definition vcur (g : Ghost) : option (Z * bytes) :=
  match gTx g with
  | Some (m, rest) => Some (Z.of_nat (length m), take (length m - length rest) m)
  | None => None
  end.

Definition fits (cur : option (Z * bytes)) (d : payload) : bool :=
  match accumulate cur d with Some (_, acc) => (length acc <=? kMaxSize)%nat | None => true end.

(** The reassembler over the frames in the air: where it ends and what it delivers. *)
Fixpoint replay (cur : option (Z * bytes)) (fr : list Frame)
    : option (option (Z * bytes) * list bytes) :=
  match fr with
  | [] => Some (cur, [])
  | f :: fr =>
      if fits cur (fPayload f) then
        '(cur, msg) ← reassemble cur (fPayload f);
        '(cur, msgs) ← replay cur fr;
        Some (cur, option_list msg ++ msgs)
      else None
  end.

(** Acknowledgements in the air, between what the sender of the data knows and what
    the receiver acknowledged. *)
Fixpoint ack_chain (U : Z) (acks : list Z) (O : Z) : Prop :=
  match acks with
  | [] => U = O
  | k :: acks => U <= k /\ ack_chain (k + 1) acks O
  end.

Record compat (F : Z) (gx gy : Ghost) : Prop := {
  c_count : gS gx = gR gy + Z.of_nat (length (gAir gx));
  c_seq : forall i f, gAir gx !! i = Some f -> fSeq f = gR gy + Z.of_nat i;
  c_acks : ack_chain (gU gy) (omap fAck (gAir gx)) (gO gx);
  c_len : Forall (fun f => Z.of_nat (length (encode f)) <= F /\ len_ok (fPayload f)) (gAir gx);
  c_replay : exists ms, replay (gCur gy) (gAir gx) = Some (vcur gx, ms) /\
               gUp gy ++ ms = gDone gx }.

(** One more frame in the air. *)
Record emits (F : Z) (g g' : Ghost) (f : Frame) : Prop := {
  e_seq : fSeq f = gS g;
  e_S : gS g' = gS g + 1;
  e_U : gU g' = gU g;
  e_R : gR g' = gR g;
  e_ack : (fAck f = None /\ gO g' = gO g) \/
          (fAck f = Some (gR g - 1) /\ gO g < gR g /\ gO g' = gR g);
  e_air : gAir g' = gAir g ++ [f];
  e_rx : gCur g' = gCur g /\ gUp g' = gUp g;
  e_len : Z.of_nat (length (encode f)) <= F /\ len_ok (fPayload f);
  e_fits : fits (vcur g) (fPayload f) = true;
  e_tx : exists msg, reassemble (vcur g) (fPayload f) = Some (vcur g', msg) /\
           gDone g' = gDone g ++ option_list msg;
  e_sent : all_sent g' = all_sent g }.

Lemma ack_chain_le U acks O : ack_chain U acks O -> U <= O.
Proof.
  revert U; induction acks as [|k acks IH]; intros U; simpl; [lia|].
  intros [Hk Hc%IH]; lia.
Qed.

Lemma ack_chain_snoc U acks O k :
  ack_chain U acks O -> O <= k -> ack_chain U (acks ++ [k]) (k + 1).
Proof.
  revert U; induction acks as [|k' acks IH]; intros U; simpl.
  - by intros ->.
  - intros [Hk Hc] ?; split; [done|by apply IH].
Qed.

Lemma replay_snoc cur fr f cur' ms cur'' msg :
  replay cur fr = Some (cur', ms) -> fits cur' (fPayload f) = true ->
  reassemble cur' (fPayload f) = Some (cur'', msg) ->
  replay cur (fr ++ [f]) = Some (cur'', ms ++ option_list msg).
Proof.
  revert cur ms; induction fr as [|f' fr IH]; intros cur ms Hr Hf Hre; simpl in *.
  - injection Hr as -> <-; by rewrite Hf, Hre; cbn [mbind option_bind]; rewrite app_nil_r.
  - destruct (fits cur (fPayload f')); [|done].
    destruct (reassemble cur (fPayload f')) as [[c1 m1]|]; [|done]; cbn [mbind option_bind] in *.
    destruct (replay c1 fr) as [[c2 m2]|] eqn:Hr2; [|done]; cbn [mbind option_bind] in *.
    injection Hr as -> <-; rewrite (IH c1 m2 Hr2 Hf Hre); cbn; by rewrite app_assoc.
Qed.

Lemma emits_compat F gx gx' gy f :
  emits F gx gx' f -> gO gx <= gR gx ->
  (compat F gx gy -> compat F gx' gy) /\ (compat F gy gx -> compat F gy gx').
Proof.
  intros E HO; split; intros C.
  - destruct E as [Es ES EU ER Ea Eair [Ec Eu] Elen Efit (msg & Hre & Hdone) Esent], C as [C1 C2 C3 C4 (ms & Hrep & Hup)].
    constructor.
    + rewrite ES, Eair, length_app, C1; simpl; lia.
    + rewrite Eair; intros i f' [Hi|[Hi Hf]]%lookup_app_Some; [by apply C2|].
      apply list_lookup_singleton_Some in Hf as [Hf <-]; rewrite Es, C1; lia.
    + rewrite Eair, omap_app; simpl; destruct Ea as [[-> ->]|(-> & HR & ->)].
      * by rewrite app_nil_r.
      * assert (O1 : gO gx <= gR gx - 1) by lia.
        pose proof (ack_chain_snoc _ _ _ _ C3 O1) as Hc.
        by replace (gR gx - 1 + 1) with (gR gx) in Hc by lia.
    + rewrite Eair; apply Forall_app; auto.
    + exists (ms ++ option_list msg); rewrite Eair; split.
      * by eapply replay_snoc.
      * by rewrite app_assoc, Hup.
  - destruct E as [Es ES EU ER Ea Eair [Ec Eu] Elen Efit Etx Esent], C as [C1 C2 C3 C4 C5].
    constructor; rewrite ?EU, ?ER, ?Ec, ?Eu; done.
Qed.

(** The receiver [gx] takes the first frame [f] out of the air of [gy]. *)
Definition ghost_receive (f : Frame) (cur : option (Z * bytes)) (msg : option bytes)
    (g : Ghost) : Ghost :=
  MkGhost (after_ack (gU g) (fAck f)) (gS g) (gO g) (gR g + 1) (gAir g) cur
    (gUp g ++ option_list msg) (gTx g) (gDone g) (gQueue g).
Definition ghost_pop (g : Ghost) : Ghost :=
  MkGhost (gU g) (gS g) (gO g) (gR g) (tail (gAir g)) (gCur g) (gUp g) (gTx g) (gDone g) (gQueue g).

Lemma absorb_facts F gx gy f fr :
  compat F gx gy -> compat F gy gx -> gAir gy = f :: fr -> gO gy <= gR gy ->
  fSeq f = gR gx /\ ack_valid (gU gx) (gS gx) (fAck f) /\
  Z.of_nat (length (encode f)) <= F /\ len_ok (fPayload f) /\
  fits (gCur gx) (fPayload f) = true /\
  exists cur msg, reassemble (gCur gx) (fPayload f) = Some (cur, msg) /\
    compat F (ghost_receive f cur msg gx) (ghost_pop gy) /\
    compat F (ghost_pop gy) (ghost_receive f cur msg gx).
Proof.
  intros Cx Cy Hair HO; destruct Cy as [C1 C2 C3 C4 (ms & Hrep & Hup)], Cx as [D1 D2 D3 D4 D5].
  rewrite Hair in *; simpl in C1, Hrep.
  apply Forall_cons_1 in C4 as [[Hlen Hlok] C4].
  assert (Hseq : fSeq f = gR gx) by (rewrite (C2 0%nat f) by done; lia).
  assert (Hack : ack_valid (gU gx) (gS gx) (fAck f)).
  { cbn [omap list_omap] in C3; unfold ack_valid; destruct (fAck f) as [k|]; [|done].
    destruct C3 as [Hk Hch%ack_chain_le]; lia. }
  destruct (fits (gCur gx) (fPayload f)) eqn:Hfit; [|done].
  destruct (reassemble (gCur gx) (fPayload f)) as [[cur msg]|]; [|done]; cbn [mbind option_bind] in Hrep.
  destruct (replay cur fr) as [[cur2 ms2]|] eqn:Hrep2; [|done]; cbn [mbind option_bind] in Hrep.
  injection Hrep as -> <-.
  splits; try done; exists cur, msg; splits; [done| |].
  - constructor; cbn [ghost_receive ghost_pop gU gS gO gR gAir gCur gUp gTx gDone]; done.
  - constructor; cbn [ghost_receive ghost_pop gU gS gO gR gAir gCur gUp gTx gDone]; rewrite ?Hair; cbn [tail].
    + lia.
    + intros i f' Hi; rewrite (C2 (Datatypes.S i) f' Hi); lia.
    + cbn [omap list_omap] in C3; unfold after_ack; destruct (fAck f); [by destruct C3|done].
    + done.
    + exists ms2; split; [done|]; by rewrite <-app_assoc.
Qed.

(** What the sender's part of the ghost becomes when a fragment leaves [rest]. *)
Definition ghost_send (f : Frame) (O : Z) (m rest : bytes) (queue : list bytes) (g : Ghost) : Ghost :=
  MkGhost (gU g) (gS g + 1) O (gR g) (gAir g ++ [f]) (gCur g) (gUp g)
    (if is_nil rest then None else Some (m, rest))
    (gDone g ++ if is_nil rest then [m] else []) queue.
Definition ghost_ack (f : Frame) (g : Ghost) : Ghost :=
  MkGhost (gU g) (gS g + 1) (gR g) (gR g) (gAir g ++ [f]) (gCur g) (gUp g) (gTx g) (gDone g) (gQueue g).

Lemma ack_of_cases (send_ack : bool) O R :
  (send_ack = true -> O < R) ->
  (ack_of send_ack R = None /\ acked send_ack O R = O) \/
  (ack_of send_ack R = Some (R - 1) /\ O < R /\ acked send_ack O R = R).
Proof. destruct send_ack; [right|left]; auto. Qed.

Lemma vcur_rest (m chunk rest : bytes) :
  m = chunk ++ rest -> take (length m - length rest) m = chunk.
Proof. intros ->; rewrite length_app; replace (_ - _)%nat with (length chunk) by lia; apply take_app_length. Qed.

Lemma finish_message m chunk rest :
  m = chunk ++ rest ->
  finish (Z.of_nat (length m)) chunk (is_nil rest) =
  Some (if is_nil rest then None else Some (Z.of_nat (length m), chunk),
        if is_nil rest then Some m else None).
Proof.
  intros ->; destruct rest; cbn [is_nil finish]; [|done].
  rewrite app_nil_r; destruct (Z.leb_spec (Z.of_nat (length chunk)) (Z.of_nat (length chunk))); [|lia].
  by rewrite Nat2Z.id, take_ge by lia.
Qed.

Lemma vcur_send f O m chunk rest queue g :
  m = chunk ++ rest ->
  vcur (ghost_send f O m rest queue g) =
  if is_nil rest then None else Some (Z.of_nat (length m), chunk).
Proof.
  intros Hm; unfold vcur; cbn [ghost_send gTx]; destruct rest; [done|].
  cbn [is_nil]; by rewrite (vcur_rest m chunk).
Qed.

Lemma emits_first F g send_ack m chunk rest queue :
  m = chunk ++ rest -> (send_ack = true -> gO g < gR g) -> gTx g = None ->
  gQueue g = m :: queue -> (length m <= kMaxSize)%nat ->
  let f := MkFrame (ack_of send_ack (gR g)) (gS g)
             (StartMessage (Z.of_nat (length m)) chunk (is_nil rest)) in
  Z.of_nat (length (encode f)) <= F ->
  emits F g (ghost_send f (acked send_ack (gO g) (gR g)) m rest queue g) f.
Proof.
  intros Hm Ha Htx Hq Hlen f Hf.
  assert (Hv : vcur g = None) by (unfold vcur; by rewrite Htx).
  constructor; try done.
  - by apply ack_of_cases.
  - split; [done|]; cbn; unfold is_uint; unfold kMaxSize, kMaxSizeWithoutReserve, kDefaultHeaderReserve in Hlen; lia.
  - rewrite Hv; unfold fits; cbn [f fPayload accumulate].
    apply Nat.leb_le; rewrite Hm, length_app in Hlen; lia.
  - rewrite Hv; exists (if is_nil rest then Some m else None).
    rewrite (vcur_send _ _ _ chunk) by done; split; [|by destruct rest].
    unfold reassemble; cbn [f fPayload is_data accumulate mbind option_bind last_of]; by apply finish_message.
  - unfold all_sent; rewrite Htx, Hq; cbn [ghost_send gDone gTx gQueue].
    destruct rest; cbn [is_nil]; by rewrite ?app_nil_r, <-?app_assoc.
Qed.

Lemma emits_next F g send_ack m l chunk rest :
  l = chunk ++ rest -> (send_ack = true -> gO g < gR g) -> gTx g = Some (m, l) ->
  (exists pre, m = pre ++ l) -> (length m <= kMaxSize)%nat ->
  let f := MkFrame (ack_of send_ack (gR g)) (gS g) (Continue chunk (is_nil rest)) in
  Z.of_nat (length (encode f)) <= F ->
  emits F g (ghost_send f (acked send_ack (gO g) (gR g)) m rest (gQueue g) g) f.
Proof.
  intros Hl Ha Htx [pre Hpre] Hlen f Hf.
  assert (Hv : vcur g = Some (Z.of_nat (length m), pre)).
  { unfold vcur; by rewrite Htx, (vcur_rest m pre). }
  assert (Hm : m = (pre ++ chunk) ++ rest) by (by rewrite <-app_assoc, <-Hl).
  constructor; try done.
  - by apply ack_of_cases.
  - rewrite Hv; unfold fits; cbn [f fPayload accumulate].
    apply Nat.leb_le; rewrite Hm, length_app in Hlen; lia.
  - rewrite Hv; exists (if is_nil rest then Some m else None).
    rewrite (vcur_send _ _ _ (pre ++ chunk)) by done; split; [|by destruct rest].
    unfold reassemble; cbn [f fPayload is_data accumulate mbind option_bind last_of]; by apply finish_message.
  - unfold all_sent; rewrite Htx; cbn [ghost_send gDone gTx gQueue].
    destruct rest; cbn [is_nil]; by rewrite ?app_nil_r, <-?app_assoc.
Qed.

Lemma emits_ack F g :
  gO g < gR g -> 3 <= F ->
  emits F g (ghost_ack (MkFrame (Some (gR g - 1)) (gS g) NoData) g)
    (MkFrame (Some (gR g - 1)) (gS g) NoData).
Proof.
  intros HO HF; constructor; try done; [by right|].
  exists None; cbn; by rewrite app_nil_r.
Qed.

(** ** One end point *)

Section EndPoint.
Context (W F : Z).

Definition tx_part (m : option (bytes * bytes)) (s : TxSide) : Prop :=
  match m with
  | None => mTxState s = BtpEngine.kState_Idle \/ mTxState s = kState_Complete
  | Some (m, rest) =>
      mTxState s = kState_InProgress /\ tx_rest rest s /\ rest <> [] /\
      (exists pre, m = pre ++ rest) /\ (length m <= kMaxSize)%nat
  end.

(** A message that is complete may still have to be handed up ([late]). *)
Definition rx_part (cur : option (Z * bytes)) (late : option bytes) (r : RxSide) : Prop :=
  match late with None => rx_holds cur r | Some m => cur = None /\ rx_complete m r end.

Record ep_core (late : option bytes) (w : World) (g : Ghost) : Prop := {
  k_state : mState (ep w) = kState_Connected;
  k_transport : mBleTransport (ep w) = true;
  k_unsub : kUnsubscribeTimerRunning (mTimerStateFlags (ep w)) = false;
  k_conf : kCapabilitiesConfReceived (mConnStateFlags (ep w)) = true;
  k_msg : kCapabilitiesMsgReceived (mConnStateFlags (ep w)) = true;
  k_tx : tx_at (gU g) (gS g) (tx (mBtpEngine (ep w)));
  k_rx : rx_at (gO g) (gR g) (rx (mBtpEngine (ep w)));
  k_frag : mTxFragmentSize (tx (mBtpEngine (ep w))) = F /\
           mRxFragmentSize (rx (mBtpEngine (ep w))) = F;
  k_max : mReceiveWindowMaxSize (ep w) = W;
  k_local : mLocalReceiveWindowSize (ep w) = (W - (gR g - gO g)) mod 256;
  k_remote : 0 <= mRemoteReceiveWindowSize (ep w) /\
             W <= mRemoteReceiveWindowSize (ep w) + (gS g - gU g) <= W + 1;
  k_acktimer : gU g < gS g -> kAckReceivedTimerRunning (mTimerStateFlags (ep w)) = true;
  k_sendtimer : kSendAckTimerRunning (mTimerStateFlags (ep w)) = true -> gO g < gR g;
  k_inflight : kStandAloneAckInFlight (mConnStateFlags (ep w)) = true ->
               mAckToSend (ep w) <> [] /\ kGattOperationInFlight (mConnStateFlags (ep w)) = true;
  k_air : air (wPlat w) = encode <$> gAir g;
  k_up : messages (upcalls (wPlat w)) ++ option_list late = gUp g;
  k_queue : chain_ok (mSendQueue (ep w)) /\ Forall message_ok (mSendQueue (ep w)) /\
            data <$> mSendQueue (ep w) = gQueue g;
  k_txm : tx_part (gTx g) (tx (mBtpEngine (ep w)));
  k_rxm : rx_part (gCur g) late (rx (mBtpEngine (ep w))) }.

Context (HW : 2 <= W <= 254) (HF : fragment_size_ok F).

(** The room [AdjustRemoteReceiveWindow] computes: with [n] fragments after the
    acknowledged one it is [W - n], and one more than that when the sequence
    numbers wrapped in between. *)
Lemma AdjustRemoteReceiveWindow_spec k n :
  0 <= n <= W ->
  AdjustRemoteReceiveWindow (k mod 256) W ((k + n) mod 256) =
  W - n + (if (k + n) mod 256 <? k mod 256 then 1 else 0).
Proof.
  intros Hn; unfold AdjustRemoteReceiveWindow.
  pose proof (Z.div_mod k 256); pose proof (Z.mod_pos_bound k 256).
  pose proof (Z.div_mod (k + n) 256); pose proof (Z.mod_pos_bound (k + n) 256).
  rewrite (wrap_small 16) by (unfold is_uint; lia).
  destruct (Z.ltb_spec ((k + n) mod 256) (k mod 256)).
  - destruct (Z.ltb_spec 255 (k mod 256 + W)); cbn [andb]; [|nia].
    rewrite wrap_small by (unfold is_uint; nia); nia.
  - rewrite andb_false_r, wrap_small by (unfold is_uint; nia); nia.
Qed.

(** The end point once a fragment was prepared and sent. *)
Definition ep_sent (sentAck : bool) (engine : BtpEngine.t) (e : EndPoint) : EndPoint :=
  let e := if sentAck then set_mLocalReceiveWindowSize (mReceiveWindowMaxSize e) e else e in
  let e := upd_conn (set_kGattOperationInFlight true) (set_mBtpEngine engine e) in
  let e := set_mRemoteReceiveWindowSize (mRemoteReceiveWindowSize e -{8} 1) e in
  let e := if sentAck then upd_timer (set_kSendAckTimerRunning false) e else e in
  if kAckReceivedTimerRunning (mTimerStateFlags e) then e
  else upd_timer (set_kAckReceivedTimerRunning true) e.

Lemma send_fragment_run dat w engine p next :
  let e := ep w in
  let sentAck := kSendAckTimerRunning (mTimerStateFlags e) in
  HandleCharacteristicSend (mBtpEngine e) dat sentAck = Some (true, engine) ->
  mTxBuf (tx engine) = p :: next ->
  (let! (ok, sentAck) := PrepareNextFragment dat in
   verify ok BLE_ERROR_CHIPOBLE_PROTOCOL_ABORT ;; SendFragment sentAck) w =
  (Ok tt, MkWorld (ep_sent sentAck engine e) (wHeap w) (snd (transmit (data p) (wPlat w)))).
Proof.
  destruct w as [e h r]; cbn [ep wHeap wPlat]; intros Hs Hb.
  unfold PrepareNextFragment, SendFragment, SendCharacteristic, SendWrite, SendIndication,
    StartAckReceivedTimer, StopSendAckTimer, shrink_remote_window, ep_sent, bind, self, upd, modify, ret,
    verify, call, defined.
  cbn [ep wHeap wPlat].
  destruct (kSendAckTimerRunning (mTimerStateFlags e)) eqn:Ht; cbn [when ret modify ep wHeap wPlat];
    rewrite Hs; cbn; rewrite Hb;
    destruct (decide (mRole e = kBleRole_Central)); cbn;
    destruct (kAckReceivedTimerRunning (mTimerStateFlags e)); cbn; reflexivity.
Qed.

Lemma rx_part_message cur late r r' :
  rx_message r' = rx_message r -> rx_part cur late r -> rx_part cur late r'.
Proof.
  intros [= H1 H2 H3 H4]; unfold rx_part, rx_holds, rx_complete, rx_buffer.
  rewrite H1, H2, H4; done.
Qed.

Lemma rx_message_frag r r' : rx_message r' = rx_message r -> mRxFragmentSize r' = mRxFragmentSize r.
Proof. by intros [= _ _ H3 _]. Qed.

(** The end point after a fragment of a message was sent. *)
Lemma core_sent late w g queue engine next p f m rest :
  ep_core late w g -> let sentAck := kSendAckTimerRunning (mTimerStateFlags (ep w)) in
  1 <= mRemoteReceiveWindowSize (ep w) ->
  kStandAloneAckInFlight (mConnStateFlags (ep w)) = false ->
  mTxBuf (tx engine) = p :: next -> data p = encode f ->
  mTxFragmentSize (tx engine) = F -> tx_at (gU g) (gS g + 1) (tx engine) ->
  rx_at (acked sentAck (gO g) (gR g)) (gR g) (rx engine) ->
  rx_message (rx engine) = rx_message (rx (mBtpEngine (ep w))) ->
  let g' := ghost_send f (acked sentAck (gO g) (gR g)) m rest (data <$> queue) g in
  tx_part (gTx g') (tx engine) -> chain_ok queue -> Forall message_ok queue ->
  ep_core late (MkWorld (ep_sent sentAck engine (set_mSendQueue queue (ep w))) (wHeap w)
                  (snd (transmit (data p) (wPlat w)))) g'.
Proof.
  intros K sentAck Hrem Hfl Hbuf Hd Hfr Htx Hrx Hmsg g' Htp Hq1 Hq2.
  destruct K, w as [e h r]; cbn [ep wHeap wPlat] in *.
  assert (Hep : exists b, ep_sent sentAck engine (set_mSendQueue queue e) =
    MkEndPoint (mState e) (mBle e) (mBleTransport e) (mRefCount e) (mConnObj e) queue (mAckToSend e)
      engine (mRole e) (set_kGattOperationInFlight true (mConnStateFlags e))
      (MkTimerFlags (kConnectTimerRunning (mTimerStateFlags e))
        (kReceiveConnectionTimerRunning (mTimerStateFlags e)) true b
        (kUnsubscribeTimerRunning (mTimerStateFlags e)))
      (if sentAck then mReceiveWindowMaxSize e else mLocalReceiveWindowSize e)
      (mRemoteReceiveWindowSize e -{8} 1) (mReceiveWindowMaxSize e) /\ b = false).
  { unfold ep_sent; fold sentAck; exists false; split; [|done].
    destruct e as [? ? ? ? ? ? ? ? ? ? [? ? a s ?] ? ? ?]; cbn in *; subst sentAck.
    by destruct s, a. }
  destruct Hep as (b & -> & ->).
  assert (Hsub : mRemoteReceiveWindowSize e -{8} 1 = mRemoteReceiveWindowSize e - 1).
  { apply wrap_small; unfold is_uint; destruct k_tx0 as (? & _); lia. }
  constructor; cbn [ep wHeap wPlat mState mBleTransport mTimerStateFlags mConnStateFlags mBtpEngine
    mReceiveWindowMaxSize mLocalReceiveWindowSize mRemoteReceiveWindowSize mAckToSend mSendQueue
    kUnsubscribeTimerRunning kAckReceivedTimerRunning kSendAckTimerRunning
    kCapabilitiesConfReceived kCapabilitiesMsgReceived kStandAloneAckInFlight kGattOperationInFlight
    set_kGattOperationInFlight transmit snd air upcalls]; try done.
  - split; [done|]; rewrite (rx_message_frag _ _ Hmsg); apply k_frag0.
  - unfold g'; cbn [ghost_send gR gO]; destruct sentAck; cbn [acked]; [|exact k_local0].
    rewrite k_max0, Z.sub_diag, Z.sub_0_r, Z.mod_small by lia; done.
  - unfold g'; cbn [ghost_send gS gU]; rewrite Hsub; lia.
  - intros Hx; congruence.
  - unfold g'; cbn [ghost_send gAir]; by rewrite k_air0, fmap_app, Hd.
  - eapply rx_part_message; [exact Hmsg|exact k_rxm0].
Qed.

Lemma ep_sent_ack sentAck engine e :
  mAckToSend (ep_sent sentAck engine e) = mAckToSend e /\
  kStandAloneAckInFlight (mConnStateFlags (ep_sent sentAck engine e)) =
    kStandAloneAckInFlight (mConnStateFlags e).
Proof.
  unfold ep_sent; destruct e as [? ? ? ? ? ? ? ? ? ? [? ? a s ?] ? ? ?]; by destruct sentAck, a.
Qed.

(** One call that sends at most one frame. *)
Inductive evolves : Ghost -> Ghost -> Prop :=
| evolves_refl g : evolves g g
| evolves_step g g' g'' f : emits F g g' f -> evolves g' g'' -> evolves g g''.

Lemma evolves_one g g' f : emits F g g' f -> evolves g g'.
Proof. intros; econstructor; [done|constructor]. Qed.

Lemma evolves_trans g g' g'' : evolves g g' -> evolves g' g'' -> evolves g g''.
Proof. induction 1; intros; [done|]; econstructor; eauto. Qed.

Lemma evolves_compat g g' gy :
  evolves g g' -> gO g <= gR g ->
  (compat F g gy -> compat F g' gy) /\ (compat F gy g -> compat F gy g').
Proof.
  induction 1 as [|g g' g'' f E Ev IH]; intros HO; [done|].
  destruct (emits_compat F g g' gy f E HO) as [C1 C2].
  destruct IH as [D1 D2]; [|split; auto].
  destruct (e_ack _ _ _ _ E) as [[_ ->]|(_ & _ & ->)]; rewrite (e_R _ _ _ _ E); lia.
Qed.

Lemma evolves_same g g' :
  evolves g g' -> all_sent g' = all_sent g /\ gU g' = gU g /\ gR g' = gR g /\
  gCur g' = gCur g /\ gUp g' = gUp g.
Proof.
  induction 1 as [|g g' g'' f E Ev IH]; [done|].
  destruct E as [? ? HU HR ? ? [? ?] ? ? ? ?]; destruct IH as (? & ? & ? & ? & ?).
  splits; congruence.
Qed.

(** The call [m] sends at most one frame and leaves acknowledgements alone. *)
Definition sends (late : option bytes) (m : M World unit) (w : World) (g : Ghost) : Prop :=
  exists w' g', m w = (Ok tt, w') /\ ep_core late w' g' /\ evolves g g' /\
    mAckToSend (ep w') = mAckToSend (ep w) /\
    kStandAloneAckInFlight (mConnStateFlags (ep w')) = kStandAloneAckInFlight (mConnStateFlags (ep w)).

Lemma message_ok_tot p n : message_ok p -> message_ok (set_tot_len p n).
Proof. intros (Hp & H1 & H2 & H3); split; [|done]; by apply pbuf_ok_view, Hp. Qed.

Lemma SendNextMessage_spec late w g :
  ep_core late w g -> mTxState (tx (mBtpEngine (ep w))) = BtpEngine.kState_Idle ->
  mSendQueue (ep w) <> [] -> 1 <= mRemoteReceiveWindowSize (ep w) ->
  kStandAloneAckInFlight (mConnStateFlags (ep w)) = false -> gR g - gO g < 256 ->
  sends late SendNextMessage w g.
Proof.
  intros K Hidle Hq Hrem Hfl HRO; pose proof K as K'; destruct K.
  destruct w as [e h r]; cbn [ep wHeap wPlat] in *.
  destruct (mSendQueue e) as [|p q] eqn:Hqe; [done|].
  destruct k_queue0 as (Hqc & [Hpm Hqm]%Forall_cons_1 & Hqd).
  destruct Hqc as (Hp & _ & _ & Hqn).
  set (p1 := set_tot_len p (pLen p)); set (sentAck := kSendAckTimerRunning (mTimerStateFlags e)).
  destruct (message_ok_tot p (pLen p) Hpm) as (Hp1 & Hroom & Hsize & _).
  destruct (send_first_spec (mBtpEngine e) p1 [] sentAck (gU g) (gS g) (gO g) (gR g))
    as (eng & Hsend & p' & chunk & rest & Hm & Hbuf & Hp' & Hd & Hlen & Hnil & Haf & Hfr & Htx' & Hrx' & Hmsg);
    try done; [destruct k_frag0; congruence|].
  assert (HtxN : gTx g = None).
  { unfold tx_part in k_txm0; destruct (gTx g) as [[m0 r0]|]; [|done].
    destruct k_txm0 as (? & _); congruence. }
  set (f := MkFrame _ _ _) in Hd.
  destruct k_frag0 as [Hft Hfr0].
  assert (Hf : Z.of_nat (length (encode f)) <= F) by (rewrite <-Hd, <-Hft; exact Hlen).
  set (g' := ghost_send f (acked sentAck (gO g) (gR g)) (data p) rest (data <$> q) g).
  eexists _, g'; split.
  - unfold SendNextMessage; unfold bind at 1, self; cbn [ep]; rewrite Hqe; cbn [PopHead defined].
    unfold bind at 1; cbn [ret]; unfold bind at 1, upd, modify; cbn [ep wHeap wPlat].
    exact (send_fragment_run [p1] (MkWorld (set_mSendQueue q e) h r) eng p' [] Hsend Hbuf).
  - split; [|split].
    + apply (core_sent late (MkWorld e h r) g q eng [] p' f (data p) rest); try done.
      * by rewrite Hfr, Hft.
      * unfold tx_part; cbn [ghost_send gTx]; unfold tx_after in Haf.
        destruct rest; cbn [is_nil]; [by right|].
        destruct Haf; splits; try done; by exists chunk.
    + apply evolves_one with f; apply emits_first; try done; by rewrite <-Hqd.
    + exact (ep_sent_ack sentAck eng (set_mSendQueue q e)).
Qed.

Lemma ContinueMessageSend_spec late w g :
  ep_core late w g -> mTxState (tx (mBtpEngine (ep w))) = kState_InProgress ->
  1 <= mRemoteReceiveWindowSize (ep w) ->
  kStandAloneAckInFlight (mConnStateFlags (ep w)) = false -> gR g - gO g < 256 ->
  sends late ContinueMessageSend w g.
Proof.
  intros K Hst Hrem Hfl HRO; pose proof K as K'; destruct K.
  destruct w as [e h r]; cbn [ep wHeap wPlat] in *.
  set (sentAck := kSendAckTimerRunning (mTimerStateFlags e)).
  destruct (gTx g) as [[m l]|] eqn:HtxN; [|destruct k_txm0; congruence].
  destruct k_txm0 as (_ & Hrest & Hl & Hpre & Hsize); destruct k_frag0 as [Hft Hfr0].
  destruct (send_next_spec (mBtpEngine e) l sentAck (gU g) (gS g) (gO g) (gR g))
    as (eng & next & Hsend & p' & chunk & rest & Hm & Hbuf & Hp' & Hd & Hlen & Hnil & Haf & Hfr & Htx' & Hrx' & Hmsg);
    try done; [congruence|].
  set (f := MkFrame _ _ _) in Hd.
  assert (Hf : Z.of_nat (length (encode f)) <= F) by (rewrite <-Hd, <-Hft; exact Hlen).
  set (g' := ghost_send f (acked sentAck (gO g) (gR g)) m rest (data <$> mSendQueue e) g).
  assert (He : set_mSendQueue (mSendQueue e) e = e) by (by destruct e).
  eexists _, g'; split.
  - unfold ContinueMessageSend.
    exact (send_fragment_run [] (MkWorld e h r) eng p' next Hsend Hbuf).
  - split; [|split].
    + pose proof (core_sent late (MkWorld e h r) g (mSendQueue e) eng next p' f m rest K') as Hc.
      cbn [ep wHeap wPlat] in Hc; rewrite He in Hc; apply Hc; try done;
        [by rewrite Hfr, Hft| |apply k_queue0..].
      unfold tx_part; cbn [ghost_send gTx]; unfold tx_after in Haf.
      destruct rest; cbn [is_nil]; [by right|].
      destruct Haf; splits; try done; destruct Hpre as [pre ->]; exists (pre ++ chunk).
      by rewrite <-app_assoc, <-Hm.
    + apply evolves_one with f; unfold g'.
      destruct k_queue0 as (_ & _ & ->); by apply (emits_next F g sentAck m l chunk rest).
    + exact (ep_sent_ack sentAck eng e).
Qed.

Lemma tx_part_message m s s' : tx_message s' = tx_message s -> tx_part m s -> tx_part m s'.
Proof.
  intros [= H1 H2 H3 H4]; unfold tx_part, tx_rest; destruct m as [[m l]|]; rewrite H1; [|done].
  by rewrite H2, H3, H4.
Qed.

Lemma core_TakeTx late w g :
  ep_core late w g -> mTxState (tx (mBtpEngine (ep w))) = kState_Complete ->
  ep_core late (MkWorld (set_mBtpEngine (snd (TakeTxPacket (mBtpEngine (ep w)))) (ep w))
                  (wHeap w) (wPlat w)) g.
Proof.
  intros [] Hc; destruct w as [e h r]; cbn [ep wHeap wPlat] in *.
  assert (Ht : tx (snd (TakeTxPacket (mBtpEngine e))) =
    set_mTxBuf [] (set_mTxState BtpEngine.kState_Idle (tx (mBtpEngine e)))).
  { unfold TakeTxPacket; cbn [snd upd_tx tx]; by destruct (decide _). }
  constructor; cbn [ep wHeap wPlat set_mBtpEngine mState mBleTransport mTimerStateFlags mConnStateFlags
    mBtpEngine mReceiveWindowMaxSize mLocalReceiveWindowSize mRemoteReceiveWindowSize mAckToSend
    mSendQueue]; rewrite ?Ht; try assumption.
  unfold tx_part in *; destruct (gTx g) as [[m l]|]; [destruct k_txm0; congruence|by left].
Qed.

Lemma core_notify late w g n :
  ep_core late w g -> messages [n] = [] ->
  ep_core late (MkWorld (ep w) (wHeap w) (Notify n (wPlat w))) g.
Proof.
  intros [] Hn; destruct w as [e h r]; constructor; try assumption.
  cbn [wPlat Notify radio upcalls]; unfold messages in *; rewrite omap_app.
  change (omap _ [n]) with (@nil bytes) in Hn || rewrite Hn; by rewrite app_nil_r.
Qed.

Lemma sends_ext late m m' w g : m w = m' w -> sends late m' w g -> sends late m w g.
Proof. intros E (w' & g' & Hm & ?); exists w', g'; by rewrite E. Qed.

(** A change of the state that keeps the invariant, before the rest of the call. *)
Lemma sends_after late m m' w w1 g :
  m w = m' w1 -> mAckToSend (ep w1) = mAckToSend (ep w) ->
  kStandAloneAckInFlight (mConnStateFlags (ep w1)) = kStandAloneAckInFlight (mConnStateFlags (ep w)) ->
  sends late m' w1 g -> sends late m w g.
Proof. intros E E1 E2 (w' & g' & Hm & ? & ? & ? & ?); exists w', g'; rewrite E; splits; congruence || done. Qed.

Lemma DriveSending_clear late w g :
  ep_core late w g -> no_ack_pending (ep w) -> gR g - gO g < 256 -> sends late DriveSending w g.
Proof.
  intros K Hna HRO; destruct w as [e h r]; cbn [ep] in *.
  assert (Hstay : sends late (ret tt) (MkWorld e h r) g).
  { exists (MkWorld e h r), g; splits; [done|done|constructor|done|done]. }
  eapply sends_ext; [unfold DriveSending; unfold bind at 1, self; cbn [ep]; reflexivity|].
  destruct (Z.leb_spec (mRemoteReceiveWindowSize e) WINDOW_NO_ACK_SEND_THRESHOLD) as [Hlow|Hlow];
    destruct (Z.eqb_spec (mRemoteReceiveWindowSize e) 0) as [Hz|Hz];
    destruct (kGattOperationInFlight (mConnStateFlags e)) eqn:Hg; rewrite ?orb_true_r; try exact Hstay.
  all: rewrite ?orb_false_r; cbn [andb].
  all: assert (Hfl : kStandAloneAckInFlight (mConnStateFlags e) = false)
    by (destruct (kStandAloneAckInFlight (mConnStateFlags e)) eqn:E; [|done];
        destruct (k_inflight _ _ _ K E) as [_ Hg']; cbn [ep] in Hg'; congruence).
  all: assert (Hack : mAckToSend e = []) by (destruct Hna; [done|congruence]).
  all: assert (Hrem : 1 <= mRemoteReceiveWindowSize e)
    by (pose proof (k_remote _ _ _ K) as Hr; cbn [ep] in Hr; lia).
  all: rewrite Hack; cbn [is_null]; rewrite ?andb_true_r; cbn [negb].
  1: destruct (kSendAckTimerRunning (mTimerStateFlags e)); cbn [negb]; [|exact Hstay].
  all: pose proof (k_txm _ _ _ K) as Htxm; cbn [ep] in Htxm.
  all: destruct (mTxState (tx (mBtpEngine e))) eqn:Hst.
  all: try (unfold tx_part in Htxm; destruct (gTx g) as [[? ?]|];
            [destruct Htxm; congruence|destruct Htxm; congruence]).
  all: try (by apply ContinueMessageSend_spec).
  all: try (destruct (mSendQueue e) eqn:Hq; cbn [is_null negb when]; [exact Hstay|];
            apply SendNextMessage_spec; try done; cbn [ep]; congruence).
  all: pose proof (core_TakeTx late (MkWorld e h r) g K Hst) as K1; cbn [ep wHeap wPlat] in K1.
  all: eapply sends_after;
    [unfold bind at 1, upd_engine, upd, modify; cbn [ep wHeap wPlat]; reflexivity|done|done|].
  all: destruct (mSendQueue e) eqn:Hq; cbn [is_null negb].
  all: try (destruct (decide _) as [[Hcl _]|_]; [pose proof (k_state _ _ _ K); cbn [ep] in *; congruence|];
            eexists _, g; splits; [reflexivity|by apply (core_notify late (MkWorld _ h r))|constructor|done|done]).
  all: apply SendNextMessage_spec; try done; cbn [ep set_mBtpEngine mSendQueue mBtpEngine];
    try congruence; unfold TakeTxPacket; cbn [snd upd_tx tx]; rewrite Hst; by destruct (decide _).
Qed.

(** A stand-alone acknowledgement is ready to be sent. *)
Definition ack_ready (e : EndPoint) (g : Ghost) : Prop :=
  (exists p, mAckToSend e = [p] /\ pbuf_ok p /\ (pLen p <= pTotLen p)%nat /\
     (kTransferProtocolStandaloneAckHeaderSize <= MaxDataLength p)%nat) /\
  kStandAloneAckInFlight (mConnStateFlags e) = false /\
  kSendAckTimerRunning (mTimerStateFlags e) = false /\ gO g < gR g.

Lemma EncodeStandAloneAck_spec e p U S O R :
  tx_at U S (tx e) -> rx_at O R (rx e) -> O < R -> pbuf_ok p -> (pLen p <= pTotLen p)%nat ->
  (kTransferProtocolStandaloneAckHeaderSize <= MaxDataLength p)%nat ->
  exists e' p', EncodeStandAloneAck e p = Some (CHIP_NO_ERROR, e', p') /\
    data p' = encode (MkFrame (Some (R - 1)) S NoData) /\
    tx_at U (S + 1) (tx e') /\ rx_at R R (rx e') /\
    tx_message (tx e') = tx_message (tx e) /\ rx_message (rx e') = rx_message (rx e).
Proof.
  intros Ht Hr HO Hp Htl Hroom; unfold EncodeStandAloneAck, CHIP_CONFIG_BLE_PKT_RESERVED_SIZE.
  unfold EnsureReservedSize; cbn [Nat.leb negb].
  destruct (Nat.ltb_spec (MaxDataLength p) kTransferProtocolStandaloneAckHeaderSize); [lia|].
  destruct (GetAndRecordRxAckSeqNum_spec O R (rx e) Hr HO) as (r' & -> & Hr' & Hmr).
  destruct (GetAndIncrementNextTxSeqNum_spec U S (tx e) Ht) as (s' & -> & Ht' & Hmt).
  unfold kTransferProtocolStandaloneAckHeaderSize in *.
  pose proof (MaxDataLength_ok p Hp).
  destruct (poke_spec (pPayload p) [kFragmentAck; (R - 1) mod 256; S mod 256] p Hp)
    as (-> & Hp1 & Hl1); [simpl; lia|]; cbn [mbind option_bind].
  set (p1 := MkPBuf _ _ _ _ _) in *.
  destruct (SetDataLength_spec p1 3 Hp1) as (Hp2 & Hpp & Hpl & _ & Hpm & _); [done|].
  eexists _, _; split; [reflexivity|]; splits; try done.
  unfold data; rewrite Hpp, Hpl, Hpm.
  assert (MaxDataLength p1 = MaxDataLength p) as ->.
  { pose proof (MaxDataLength_ok p1 Hp1); cbn [p1 pPayload] in *.
    assert (AllocSize p1 = AllocSize p) by exact Hl1; lia. }
  rewrite Nat.min_l by lia.
  apply (mem_read_write_same (pPayload p) [kFragmentAck; (R - 1) mod 256; S mod 256]).
  unfold AllocSize in *; cbn [length]; lia.
Qed.

(** The end point once the stand-alone acknowledgement in [p] was sent. *)
Definition ep_ack_sent (p : PBuf) (engine : BtpEngine.t) (e : EndPoint) : EndPoint :=
  let e := upd_conn (set_kGattOperationInFlight true) (set_mAckToSend [p] (set_mBtpEngine engine e)) in
  let e := set_mRemoteReceiveWindowSize (mRemoteReceiveWindowSize e -{8} 1) e in
  let e := set_mLocalReceiveWindowSize (mReceiveWindowMaxSize e) e in
  let e := upd_conn (set_kStandAloneAckInFlight true) e in
  if kAckReceivedTimerRunning (mTimerStateFlags e) then e
  else upd_timer (set_kAckReceivedTimerRunning true) e.

Lemma ack_run w p engine p' :
  mAckToSend (ep w) = [p] -> EncodeStandAloneAck (mBtpEngine (ep w)) p = Some (CHIP_NO_ERROR, engine, p') ->
  DoSendStandAloneAck w =
  (Ok tt, MkWorld (ep_ack_sent p' engine (ep w)) (wHeap w) (snd (transmit (data p') (wPlat w)))).
Proof.
  destruct w as [e h r]; cbn [ep wHeap wPlat]; intros Ha He.
  unfold DoSendStandAloneAck, SendCharacteristic, SendWrite, SendIndication, StartAckReceivedTimer,
    shrink_remote_window, ep_ack_sent, bind, self, upd, modify, ret, verify, call, defined.
  cbn [ep wHeap wPlat]; rewrite Ha; cbn -[EncodeStandAloneAck]; rewrite He; cbn.
  destruct (decide (mRole e = kBleRole_Central)); cbn;
    destruct (kAckReceivedTimerRunning (mTimerStateFlags e)); reflexivity.
Qed.

Lemma DoSendStandAloneAck_spec late w g :
  ep_core late w g -> ack_ready (ep w) g -> 1 <= mRemoteReceiveWindowSize (ep w) ->
  exists w' g', DoSendStandAloneAck w = (Ok tt, w') /\ ep_core late w' g' /\ evolves g g'.
Proof.
  intros K ((p & Ha & Hp & Htl & Hroom) & Hfl & Htm & HO) Hrem.
  destruct (EncodeStandAloneAck_spec (mBtpEngine (ep w)) p (gU g) (gS g) (gO g) (gR g))
    as (eng & p' & He & Hd & Htx & Hrx & Hmt & Hmr); [apply K|apply K|done..|].
  set (f := MkFrame _ _ _) in Hd.
  eexists _, (ghost_ack f g); split; [exact (ack_run w p eng p' Ha He)|split].
  2: { apply evolves_one with f, emits_ack; [done|].
       unfold fragment_size_ok, sMinFragmentSize in HF; lia. }
  destruct K, w as [e h r]; cbn [ep wHeap wPlat] in *.
  assert (Hep : ep_ack_sent p' eng e =
    MkEndPoint (mState e) (mBle e) (mBleTransport e) (mRefCount e) (mConnObj e) (mSendQueue e) [p']
      eng (mRole e) (set_kStandAloneAckInFlight true (set_kGattOperationInFlight true (mConnStateFlags e)))
      (set_kAckReceivedTimerRunning true (mTimerStateFlags e)) (mReceiveWindowMaxSize e)
      (mRemoteReceiveWindowSize e -{8} 1) (mReceiveWindowMaxSize e)).
  { unfold ep_ack_sent; destruct e as [? ? ? ? ? ? ? ? ? ? [? ? a s ?] ? ? ?]; by destruct a. }
  rewrite Hep; clear Hep.
  assert (Hsub : mRemoteReceiveWindowSize e -{8} 1 = mRemoteReceiveWindowSize e - 1).
  { apply wrap_small; unfold is_uint; destruct k_tx0 as (? & _); lia. }
  apply tx_message_inv in Hmt as Hmti; destruct Hmti as (_ & _ & Hmf & _).
  constructor; cbn [ep wHeap wPlat mState mBleTransport mTimerStateFlags mConnStateFlags mBtpEngine
    mReceiveWindowMaxSize mLocalReceiveWindowSize mRemoteReceiveWindowSize mAckToSend mSendQueue
    set_kStandAloneAckInFlight set_kGattOperationInFlight set_kAckReceivedTimerRunning
    kUnsubscribeTimerRunning kAckReceivedTimerRunning kSendAckTimerRunning
    kCapabilitiesConfReceived kCapabilitiesMsgReceived kStandAloneAckInFlight kGattOperationInFlight
    transmit snd air upcalls ghost_ack gU gS gO gR gAir gCur gUp gTx gDone gQueue]; try done.
  - by rewrite Hmf, (rx_message_frag _ _ Hmr).
  - rewrite k_max0, Z.sub_diag, Z.sub_0_r, Z.mod_small by lia; done.
  - rewrite Hsub; lia.
  - congruence.
  - by rewrite k_air0, fmap_app, Hd.
  - by eapply tx_part_message.
  - by eapply rx_part_message.
Qed.

Lemma DriveSending_ready late w g :
  ep_core late w g -> ack_ready (ep w) g ->
  exists w' g', DriveSending w = (Ok tt, w') /\ ep_core late w' g' /\ evolves g g'.
Proof.
  intros K Ha; pose proof Ha as ((p & Hp & _) & Hfl & Htm & HO).
  unfold DriveSending; unfold bind at 1, self; cbn [ep]; rewrite Hp, Htm.
  cbn [is_null negb andb]; rewrite andb_false_r; cbn [orb].
  destruct (Z.eqb_spec (mRemoteReceiveWindowSize (ep w)) 0) as [Hz|Hz]; cbn [orb].
  { exists w, g; splits; [done|done|constructor]. }
  destruct (kGattOperationInFlight (mConnStateFlags (ep w))).
  { exists w, g; splits; [done|done|constructor]. }
  apply DoSendStandAloneAck_spec; try done; pose proof (k_remote _ _ _ K); lia.
Qed.

Context (alloc_ok : forall n h, (n <= kMaxSize)%nat ->
  exists b h', New tcp n kDefaultHeaderReserve h = (Some b, h')).

Lemma core_no_send_timer late w g :
  ep_core late w g ->
  ep_core late (MkWorld (upd_timer (set_kSendAckTimerRunning false) (ep w)) (wHeap w) (wPlat w)) g.
Proof. intros []; destruct w; by constructor. Qed.

Lemma core_ack_to_send late w g h p :
  ep_core late w g -> kStandAloneAckInFlight (mConnStateFlags (ep w)) = false ->
  ep_core late (MkWorld (set_mAckToSend p (ep w)) h (wPlat w)) g.
Proof.
  intros [] Hfl; destruct w; constructor; try assumption.
  cbn [ep set_mAckToSend mConnStateFlags] in *; congruence.
Qed.

(** The call leaves the invariant with at most some more frames in the air. *)
Definition runs (late : option bytes) (m : M World unit) (w : World) (g : Ghost) : Prop :=
  exists w' g', m w = (Ok tt, w') /\ ep_core late w' g' /\ evolves g g'.

Lemma sends_runs late m w g : sends late m w g -> runs late m w g.
Proof. intros (w' & g' & ? & ? & ? & _); by exists w', g'. Qed.

Lemma DriveStandAloneAck_spec late w g :
  ep_core late w g -> mAckToSend (ep w) = [] ->
  kStandAloneAckInFlight (mConnStateFlags (ep w)) = false -> gO g < gR g ->
  runs late (DriveStandAloneAck tcp) w g.
Proof.
  intros K Ha Hfl HO; destruct w as [e h r]; cbn [ep] in *.
  destruct (alloc_ok kTransferProtocolStandaloneAckHeaderSize h) as (p & h' & Hnew).
  { unfold kTransferProtocolStandaloneAckHeaderSize, kMaxSize, kMaxSizeWithoutReserve, kDefaultHeaderReserve; lia. }
  set (e1 := upd_timer (set_kSendAckTimerRunning false) e).
  set (w1 := MkWorld (set_mAckToSend [p] e1) h' r).
  assert (K1 : ep_core late w1 g).
  { apply (core_ack_to_send late (MkWorld e1 h r) g h' [p]); [|done].
    by apply (core_no_send_timer late (MkWorld e h r)). }
  assert (Hrun : DriveStandAloneAck tcp (MkWorld e h r) = DriveSending w1).
  { unfold DriveStandAloneAck, StopSendAckTimer, new_buffer, bind, self, upd, modify, verify.
    cbn [ep wHeap wPlat]; change (mAckToSend (upd_timer _ e)) with (mAckToSend e).
    rewrite Ha; cbn [is_null wHeap ep wPlat]; rewrite Hnew; cbn [option_list].
    by rewrite bool_decide_eq_true_2 by eauto. }
  unfold runs; rewrite Hrun; apply DriveSending_ready; [done|].
  pose proof (New_ok _ _ _ _ _ _ Hnew) as Hp.
  apply New_spec in Hnew as (_ & Hal & Hpp & Hpl & Hpt & _).
  unfold ack_ready; splits; [|done|done|done].
  exists p; splits; [done|done|lia|].
  pose proof (MaxDataLength_ok p Hp); lia.
Qed.

Lemma closing_ok flags m w w' : m w = (Ok tt, w') -> closing_on_error flags m w = (Ok tt, w').
Proof. intros E; unfold closing_on_error, bind, attempt; by rewrite E. Qed.

Lemma runs_closing late flags m w g : runs late m w g -> runs late (closing_on_error flags m) w g.
Proof. intros (w' & g' & E & ?); exists w', g'; by rewrite (closing_ok _ _ _ _ E). Qed.

Lemma runs_ext late m m' w w1 g : m w = m' w1 -> runs late m' w1 g -> runs late m w g.
Proof. intros E (w' & g' & Hm & ?); exists w', g'; by rewrite E. Qed.

(** A low receive window means that fragments are not acknowledged. *)
Lemma local_window_low_unacked late w g :
  ep_core late w g -> 0 <= gR g - gO g < 256 -> local_window_low (ep w) = true -> gO g < gR g.
Proof.
  intros K HRO; unfold local_window_low, IMMEDIATE_ACK_WINDOW_THRESHOLD.
  rewrite (k_local _ _ _ K); intros Hl%Z.leb_le.
  destruct (Z.eq_dec (gO g) (gR g)) as [E|]; [|lia].
  rewrite E, Z.sub_diag, Z.sub_0_r, Z.mod_small in Hl by lia; lia.
Qed.

Lemma core_confirmed late w g :
  ep_core late w g -> no_ack_pending (ep w) ->
  let e := upd_conn (set_kGattOperationInFlight false) (ep w) in
  let e' := if kStandAloneAckInFlight (mConnStateFlags e)
            then upd_conn (set_kStandAloneAckInFlight false) (set_mAckToSend [] e) else e in
  ep_core late (MkWorld e' (wHeap w) (wPlat w)) g /\ mAckToSend e' = [] /\
  kStandAloneAckInFlight (mConnStateFlags e') = false.
Proof.
  intros [] Hn e e'; destruct w as [e0 h r]; cbn [ep wHeap wPlat] in *.
  change (kStandAloneAckInFlight (mConnStateFlags e))
    with (kStandAloneAckInFlight (mConnStateFlags e0)) in e'.
  unfold no_ack_pending in Hn; subst e'.
  destruct (kStandAloneAckInFlight (mConnStateFlags e0)) eqn:Hfl; split; try done.
  - constructor; try assumption; cbn [ep e upd_conn set_mConnStateFlags mConnStateFlags
      set_kGattOperationInFlight kStandAloneAckInFlight]; congruence.
  - split; [by destruct Hn|done].
Qed.

Lemma HandleGattSendConfirmationReceived_spec w g :
  ep_core None w g -> no_ack_pending (ep w) -> 0 <= gR g - gO g < 256 ->
  runs None (HandleGattSendConfirmationReceived tcp) w g.
Proof.
  intros K Hn HRO; destruct (core_confirmed _ _ _ K Hn) as (K1 & Ha1 & Hf1).
  pose proof (k_conf _ _ _ K) as Hconf; pose proof (k_unsub _ _ _ K) as Hun.
  pose proof (k_state _ _ _ K) as Hst; destruct w as [e h r]; cbn [ep wHeap wPlat] in *.
  set (e1 := upd_conn (set_kGattOperationInFlight false) e) in *.
  set (e2 := if kStandAloneAckInFlight (mConnStateFlags e1) then _ else e1) in *.
  set (w2 := MkWorld e2 h r) in *.
  eapply runs_ext.
  { unfold HandleGattSendConfirmationReceived, bind at 1, upd, modify; cbn [ep wHeap wPlat].
    fold e1; unfold bind at 1, self; cbn [ep].
    change (kCapabilitiesConfReceived (mConnStateFlags e1)) with (kCapabilitiesConfReceived (mConnStateFlags e)).
    rewrite Hconf; cbn [negb]; unfold HandleFragmentConfirmationReceived, bind at 1, self; cbn [ep].
    unfold IsUnsubscribePending; change (mTimerStateFlags e1) with (mTimerStateFlags e).
    rewrite Hun; reflexivity. }
  apply runs_closing; set (low := local_window_low e1 && _ && _).
  apply (runs_ext _ _ (if low then DriveStandAloneAck tcp else DriveSending) _ w2).
  { change (mState e1) with (mState e); rewrite Hst; cbn [IsConnected verify].
    unfold bind at 1, ret; unfold bind at 1, when, upd, modify, bind, ret; cbn [ep wHeap wPlat].
    unfold w2, e2; by destruct (kStandAloneAckInFlight (mConnStateFlags e1)), low. }
  destruct low eqn:Hlow.
  - apply DriveStandAloneAck_spec; try done.
    apply (local_window_low_unacked None w2); try done.
    unfold low in Hlow; apply andb_prop in Hlow as [[Hl _]%andb_prop _].
    unfold w2, e2; cbn [ep]; by destruct (kStandAloneAckInFlight (mConnStateFlags e1)).
  - apply sends_runs, DriveSending_clear; [done|by left|lia].
Qed.

Lemma HandleSendAckTimeout_spec w g :
  ep_core None w g -> no_ack_pending (ep w) ->
  kSendAckTimerRunning (mTimerStateFlags (ep w)) = true ->
  runs None (HandleSendAckTimeout tcp) w g.
Proof.
  intros K Hn Ht; pose proof (core_no_send_timer _ _ _ K) as K1.
  destruct w as [e h r]; cbn [ep wHeap wPlat] in *.
  set (e1 := upd_timer (set_kSendAckTimerRunning false) e) in *.
  eapply runs_ext.
  { unfold HandleSendAckTimeout, bind at 1, self; cbn [ep]; rewrite Ht; cbn [when].
    unfold bind at 1, StopSendAckTimer, upd, modify; cbn [ep wHeap wPlat]; fold e1; reflexivity. }
  change (mConnStateFlags e) with (mConnStateFlags e1).
  destruct (kStandAloneAckInFlight (mConnStateFlags e1)) eqn:Hfl; cbn [negb when].
  { exists (MkWorld e1 h r), g; splits; [done|done|constructor]. }
  assert (mAckToSend e1 = []) as Ha.
  { change (mAckToSend e1) with (mAckToSend e); destruct Hn as [Hn|Hn]; [done|].
    change (mConnStateFlags e1) with (mConnStateFlags e) in Hfl; congruence. }
  destruct (DriveStandAloneAck_spec None (MkWorld e1 h r) g K1 Ha Hfl) as (w' & g' & E & K' & Ev).
  { by apply (k_sendtimer _ _ _ K). }
  exists w', g'; split; [|done]; unfold bind, attempt; by rewrite E.
Qed.

(** Adding to the queue changes only total lengths of the buffers in it. *)
Lemma AddToEnd_list c q c' :
  AddToEnd c [q] = Some c' ->
  exists c1, c' = c1 ++ [q] /\ Forall2 (fun a b => exists n, b = set_tot_len a n) c c1.
Proof.
  revert c'; induction c as [|a next IH]; intros c'; cbn [AddToEnd]; [done|].
  destruct (pTotLen a <=? _)%nat; [|done]; destruct next as [|b next].
  - intros [= <-]; exists [set_tot_len a (size_add (pTotLen a) (pTotLen q))].
    split; [done|]; constructor; [eauto|constructor].
  - destruct (AddToEnd (b :: next) [q]) as [c2|]; [|done]; cbn [mbind option_bind].
    intros [= <-]; destruct (IH c2 eq_refl) as (c1 & -> & Hc1).
    eexists (set_tot_len a _ :: c1); split; [done|]; constructor; eauto.
Qed.

Definition queue_room (queue : chain) (p : PBuf) : Prop :=
  Z.of_nat (length (contents queue) + length (data p)) < 2 ^ 64.

Lemma queue_add queue p :
  chain_ok queue -> Forall message_ok queue -> message_ok p -> pTotLen p = pLen p -> queue_room queue p ->
  exists queue', HandleAddToEnd queue [p] = Some queue' /\ chain_ok queue' /\
    Forall message_ok queue' /\ data <$> queue' = (data <$> queue) ++ [data p].
Proof.
  intros Hc Hm Hp Ht Hroom; pose proof Hp as (Hpo & _ & _ & Hpr).
  pose proof (single_chain_ok p Hpo Ht) as Hpc.
  destruct queue as [|a next]; [exists [p]; splits; [done|done|by constructor|done]|].
  destruct (AddToEnd_ok (a :: next) [p]) as (c' & Hadd & Hc' & _); try done;
    [by constructor|by unfold queue_room, contents in *; simpl in *; rewrite app_nil_r|].
  destruct (AddToEnd_list _ _ _ Hadd) as (c1 & -> & Hl).
  exists (c1 ++ [p]); cbn [HandleAddToEnd]; splits; [done|done| |].
  - apply Forall_app; split; [|by constructor]; clear -Hm Hl.
    induction Hl as [|x y l k [n ->] _ IH]; constructor; apply Forall_cons_1 in Hm as [Hx Hm]; auto.
    by apply message_ok_tot.
  - rewrite fmap_app; f_equal; clear -Hl.
    induction Hl as [|x y l k [n ->] _ IH]; [done|]; rewrite !fmap_cons; f_equal; done.
Qed.

Definition ghost_queue (m : bytes) (g : Ghost) : Ghost :=
  MkGhost (gU g) (gS g) (gO g) (gR g) (gAir g) (gCur g) (gUp g) (gTx g) (gDone g) (gQueue g ++ [m]).

Lemma Send_spec w g p :
  ep_core None w g -> no_ack_pending (ep w) -> gR g - gO g < 256 ->
  message_ok p -> pTotLen p = pLen p -> queue_room (mSendQueue (ep w)) p ->
  runs None (Send [p]) w (ghost_queue (data p) g).
Proof.
  intros K Hn HRO Hp Ht Hroom; pose proof (k_queue _ _ _ K) as (Hc & Hm & Hd).
  destruct (queue_add _ p Hc Hm Hp Ht Hroom) as (queue & Hadd & Hc' & Hm' & Hd').
  pose proof (k_state _ _ _ K) as Hst; destruct w as [e h r]; cbn [ep wHeap wPlat] in *.
  set (w1 := MkWorld (set_mSendQueue queue e) h r).
  apply runs_closing, (runs_ext _ _ DriveSending _ w1).
  { unfold bind at 1, self; cbn [ep]; cbn [is_null negb verify]; rewrite Hst; cbn [IsConnected].
    unfold QueueTx, bind, self, upd, modify, ret; cbn [length Nat.ltb Nat.leb verify ret ep wHeap wPlat].
    rewrite Hadd; done. }
  apply sends_runs, DriveSending_clear; [|done|done].
  destruct K; constructor; try assumption; cbn [w1 ep set_mSendQueue mSendQueue ghost_queue gQueue].
  splits; [done|done|by rewrite Hd', <-Hd].
Qed.

(** *** Receiving *)

(** Acknowledgements only grow. *)
Lemma evolves_acks g g' : evolves g g' -> gO g <= gR g -> gO g <= gO g' <= gR g'.
Proof.
  induction 1 as [|g g' g'' f E Ev IH]; intros HO; [lia|].
  pose proof (e_R _ _ _ _ E) as HR; destruct (e_ack _ _ _ _ E) as [[_ Ha]|(_ & ? & Ha)]; lia.
Qed.

(** The end point after the engine took a fragment, with its acknowledgement timer
    and its remote window updated. *)
Definition ep_received (engine : BtpEngine.t) (timer : bool) (window : Z) (e : EndPoint) : EndPoint :=
  set_mRemoteReceiveWindowSize window (upd_timer (set_kAckReceivedTimerRunning timer)
    (set_mLocalReceiveWindowSize (mLocalReceiveWindowSize e -{8} 1) (set_mBtpEngine engine e))).

Lemma core_received w g f cur msg engine timer window h :
  ep_core None w g -> received (gU g) (gS g) (gO g) (mBtpEngine (ep w)) f cur msg engine ->
  fSeq f = gR g -> ack_valid (gU g) (gS g) (fAck f) ->
  (after_ack (gU g) (fAck f) < gS g -> timer = true) ->
  0 <= window -> W <= window + (gS g - after_ack (gU g) (fAck f)) <= W + 1 ->
  ep_core msg (MkWorld (ep_received engine timer window (ep w)) h (wPlat w)) (ghost_receive f cur msg g).
Proof.
  intros K (Ht & Hm & Hr & Hfr & Hmsg) Hseq Hack Htm Hw1 Hw2; destruct K, w as [e h0 r].
  cbn [ep wHeap wPlat] in *; apply tx_message_inv in Hm as Hmi; destruct Hmi as (_ & _ & Hmf & _).
  constructor; cbn [ep wHeap wPlat ep_received upd_timer set_kAckReceivedTimerRunning mState
    mBleTransport mTimerStateFlags mConnStateFlags mBtpEngine set_mTimerStateFlags
    set_mRemoteReceiveWindowSize set_mLocalReceiveWindowSize set_mBtpEngine
    mReceiveWindowMaxSize mLocalReceiveWindowSize mRemoteReceiveWindowSize mAckToSend mSendQueue
    kUnsubscribeTimerRunning kAckReceivedTimerRunning kSendAckTimerRunning
    ghost_receive gU gS gO gR gAir gCur gUp gTx gDone gQueue]; try done.
  - by rewrite <-Hseq.
  - by rewrite Hmf, Hfr.
  - rewrite k_local0; unfold wrap; change (2 ^ 8) with 256; rewrite Zminus_mod_idemp_l; f_equal; lia.
  - intros Hs%k_sendtimer0; lia.
  - cbn [option_list] in k_up0; rewrite app_nil_r in k_up0; by rewrite k_up0.
  - by eapply tx_part_message.
Qed.

Lemma AcknowledgeReceived_spec late w g :
  ep_core late w g -> no_ack_pending (ep w) -> gR g - gO g < 256 ->
  runs late (AcknowledgeReceived tcp) w g.
Proof.
  intros K Hn HRO; pose proof (k_rx _ _ _ K) as Hrx; pose proof Hrx as (HO & _).
  assert (Hstay : runs late (ret tt) w g) by (exists w, g; splits; [done|done|constructor]).
  eapply runs_ext; [unfold AcknowledgeReceived; unfold bind at 1, self; reflexivity|].
  rewrite (HasUnackedData_spec _ _ _ Hrx HRO); destruct (Z.ltb_spec (gO g) (gR g)) as [Hlt|]; [|done].
  destruct (local_window_low (ep w) && _) eqn:Hc.
  - apply andb_prop in Hc as [Hl Hg%negb_true_iff].
    assert (Hfl : kStandAloneAckInFlight (mConnStateFlags (ep w)) = false).
    { destruct (kStandAloneAckInFlight _) eqn:E; [|done].
      destruct (k_inflight _ _ _ K E) as [_ ?]; congruence. }
    apply DriveStandAloneAck_spec; try done; destruct Hn; [done|congruence].
  - eapply runs_ext; [unfold StartSendAckTimer; unfold bind at 1, self; reflexivity|].
    destruct (kSendAckTimerRunning (mTimerStateFlags (ep w))) eqn:Hs; [done|].
    eexists _, g; splits; [reflexivity| |constructor].
    destruct K, w as [e h r]; by constructor.
Qed.

Lemma DeliverMessage_spec late w g : ep_core late w g -> runs None DeliverMessage w g.
Proof.
  intros K; eapply runs_ext; [unfold DeliverMessage; unfold bind at 1, self; reflexivity|].
  pose proof (k_rxm _ _ _ K) as Hrx; destruct late as [m|]; cbn [rx_part] in Hrx.
  - destruct Hrx as [Hcur [Hst (b & Hb & Hbok & Hbd & _)]].
    rewrite decide_True by done; pose proof (k_transport _ _ _ K) as Htr.
    pose proof (k_state _ _ _ K) as Hs; destruct w as [e h r]; cbn [ep] in *.
    eexists _, g; splits; [|  |constructor].
    + unfold TakeRxPacket; rewrite Hb; unfold bind at 1, upd, modify; cbn [ep wHeap wPlat].
      unfold bind, handle_data, ret, self, notify, modify, when; cbn [ep wHeap wPlat].
      by rewrite Htr, Hs.
    + destruct K; cbn [ep wHeap wPlat] in *; constructor; cbn [ep wHeap wPlat mState
        mBleTransport mTimerStateFlags mConnStateFlags mBtpEngine set_mBtpEngine upd_rx rx tx
        mReceiveWindowMaxSize mLocalReceiveWindowSize mRemoteReceiveWindowSize mAckToSend mSendQueue
        Notify radio air upcalls]; try done.
      * by destruct (decide _).
      * by destruct (decide _).
      * unfold messages in *; rewrite omap_app; cbn [omap list_omap option_list]; rewrite app_nil_r.
        by rewrite Hbd.
      * rewrite Hcur; cbn [rx_part rx_holds]; by rewrite decide_True.
  - rewrite decide_False; [exists w, g; splits; [done|done|constructor]|].
    intros Hc; unfold rx_holds in Hrx; destruct (gCur g) as [[]|]; [destruct Hrx|]; congruence.
Qed.

Lemma ack_of_received_run w f k engine h :
  fAck f = Some k -> mState (ep w) = kState_Connected ->
  (mExpectingAck (tx engine) = true -> kAckReceivedTimerRunning (mTimerStateFlags (ep w)) = true) ->
  let e1 := set_mLocalReceiveWindowSize (mLocalReceiveWindowSize (ep w) -{8} 1)
              (set_mBtpEngine engine (ep w)) in
  ReceiveAckOf (k mod 256) (MkWorld e1 h (wPlat w)) =
  (DriveSending ;; ret false)
    (MkWorld (ep_received engine (mExpectingAck (tx engine))
                (AdjustRemoteReceiveWindow (k mod 256) (mReceiveWindowMaxSize (ep w))
                   (mTxNewestUnackedSeqNum (tx engine))) (ep w)) h (wPlat w)).
Proof.
  intros Hk Hs Ht e1; destruct w as [e h0 r]; cbn [ep wPlat] in *.
  destruct e as [? ? ? ? ? ? ? ? ? ? [? ? a ? ?] ? ? ?]; cbn in Hs, Ht; subst.
  unfold ReceiveAckOf, RestartAckReceivedTimer, StopAckReceivedTimer, StartAckReceivedTimer, bind, self, upd, modify,
    ret, verify, call; cbn.
  destruct (mExpectingAck (tx engine)) eqn:He; cbn.
  - by rewrite Ht.
  - rewrite decide_False by (intros [? _]; done); reflexivity.
Qed.

(** The room left for the peer's window once [k] was acknowledged. *)
Lemma adjusted_window S k s :
  tx_at (k + 1) S s -> S - k <= W + 1 -> 0 <= k ->
  let v := AdjustRemoteReceiveWindow (k mod 256) W (mTxNewestUnackedSeqNum s) in
  0 <= v /\ W <= v + (S - (k + 1)) <= W + 1.
Proof.
  intros (Hk & _ & _ & _ & Hn) HS Hk0; rewrite Hn by lia; cbv zeta.
  pose proof (AdjustRemoteReceiveWindow_spec k (S - 1 - k)) as Ha.
  replace (k + (S - 1 - k)) with (S - 1) in Ha by lia.
  rewrite Ha by lia; destruct (_ <? _); lia.
Qed.

(** The part of [Receive] up to the decision about an acknowledgement. *)
Lemma accept_spec w g f cur msg :
  ep_core None w g -> no_ack_pending (ep w) -> gR g + 1 - gO g < 256 ->
  fSeq f = gR g -> ack_valid (gU g) (gS g) (fAck f) -> Z.of_nat (length (encode f)) <= F ->
  len_ok (fPayload f) -> fits (gCur g) (fPayload f) = true ->
  reassemble (gCur g) (fPayload f) = Some (cur, msg) ->
  exists w' g', ReceiveFragment tcp [received_buffer (encode f)] w =
      (AcknowledgeReceived tcp ;; DeliverMessage) w' /\
    ep_core msg w' g' /\ evolves (ghost_receive f cur msg g) g' /\ no_ack_pending (ep w').
Proof.
  intros K Hn HRO Hseq Hack Hlen Hlok Hfit Hre.
  pose proof (k_state _ _ _ K) as Hst; pose proof (k_tx _ _ _ K) as Htx.
  pose proof (k_remote _ _ _ K) as Hrem; pose proof (k_acktimer _ _ _ K) as Htim.
  destruct (k_frag _ _ _ K) as [_ Hfr]; pose proof Htx as ([HU _] & _).
  destruct (receive_spec tcp (fun h => alloc_ok kMaxSize h (Nat.le_refl _)) (mBtpEngine (ep w)) f
    (received_buffer (encode f)) 0 false (wHeap w) (gU g) (gS g) (gO g) (gCur g) cur msg)
    as (eng & d & a & h & Hrun & Ha & Hrc); try done.
  - apply mem_read_all.
  - apply single_chain_ok; [|done]; unfold fragment_size_ok, sMaxFragmentSize in HF.
    constructor; unfold received_buffer, AllocSize; cbn [pLen pPayload pRef pMem]; lia.
  - lia.
  - rewrite Hseq; exact (k_rx _ _ _ K).
  - by rewrite Hfr.
  - exact (k_rxm _ _ _ K).
  - intros len acc Hacc; unfold fits in Hfit; rewrite Hacc in Hfit; by apply Nat.leb_le.
  - pose proof (core_received w g f cur msg eng) as Hcore.
    destruct w as [e h0 r]; cbn [ep wHeap wPlat] in *.
    assert (Hstep : ReceiveFragment tcp [received_buffer (encode f)] (MkWorld e h0 r) =
      (let! closed := (if bool_decide (is_Some (fAck f)) then ReceiveAckOf a else ret false) in
       if closed : bool then ret tt else AcknowledgeReceived tcp ;; DeliverMessage)
      (MkWorld (set_mLocalReceiveWindowSize (mLocalReceiveWindowSize e -{8} 1)
                  (set_mBtpEngine eng e)) h r)).
    { unfold ReceiveFragment; unfold bind at 1, self; cbn [ep]; rewrite Hst; cbn [IsConnected verify].
      unfold bind at 1, ret at 1; unfold bind at 1, engine_receive; cbn [ep wHeap wPlat]; by rewrite Hrun. }
    rewrite Hstep; clear Hstep Hrun; destruct (fAck f) as [k|] eqn:Hk; cbn [ack_valid after_ack] in *.
    + rewrite bool_decide_eq_true_2, (Ha k) by eauto.
      pose proof Hrc as (Htx' & _); rewrite Hk in Htx'; cbn [after_ack] in Htx'.
      assert (Htm : mExpectingAck (tx eng) = true -> kAckReceivedTimerRunning (mTimerStateFlags e) = true).
      { intros _; apply Htim; lia. }
      unfold bind at 1.
      pose proof (ack_of_received_run (MkWorld e h0 r) f k eng h Hk Hst Htm) as Hr2.
      cbn [ep wPlat] in Hr2; rewrite Hr2; clear Hr2.
      destruct (adjusted_window (gS g) k (tx eng) Htx') as [Hv1 Hv2]; [lia..|].
      pose proof (k_max _ _ _ K) as Hmax; cbn [ep] in Hmax; rewrite Hmax.
      specialize (Hcore (mExpectingAck (tx eng)) (AdjustRemoteReceiveWindow (k mod 256) W
        (mTxNewestUnackedSeqNum (tx eng))) h K Hrc Hseq Hack).
      set (w1 := MkWorld _ h r) in *.
      destruct (DriveSending_clear msg w1 (ghost_receive f cur msg g)) as (w2 & g2 & E2 & K2 & Ev2 & A1 & A2).
      * apply Hcore; [|done|done].
        destruct Htx' as (_ & _ & -> & _); intros Hlt; by apply Z.ltb_lt.
      * destruct e; exact Hn.
      * cbn [ghost_receive gR gO]; lia.
      * exists w2, g2; splits; try done; [unfold bind at 1; rewrite E2; reflexivity|].
        unfold no_ack_pending; rewrite A1, A2; destruct e; exact Hn.
    + rewrite bool_decide_eq_false_2 by (intros []; done); unfold bind at 1, ret at 1.
      specialize (Hcore (kAckReceivedTimerRunning (mTimerStateFlags e)) (mRemoteReceiveWindowSize e) h K Hrc
        Hseq I Htim).
      assert (He : set_mLocalReceiveWindowSize (mLocalReceiveWindowSize e -{8} 1) (set_mBtpEngine eng e) =
        ep_received eng (kAckReceivedTimerRunning (mTimerStateFlags e)) (mRemoteReceiveWindowSize e) e).
      { by destruct e as [? ? ? ? ? ? ? ? ? ? [? ? a0 ? ?] ? ? ?]. }
      rewrite He; eexists _, _; splits; [reflexivity|apply Hcore; lia|constructor|].
      destruct e; exact Hn.
Qed.

Lemma Receive_spec w g f cur msg :
  ep_core None w g -> no_ack_pending (ep w) -> gR g + 1 - gO g < 256 ->
  fSeq f = gR g -> ack_valid (gU g) (gS g) (fAck f) -> Z.of_nat (length (encode f)) <= F ->
  len_ok (fPayload f) -> fits (gCur g) (fPayload f) = true ->
  reassemble (gCur g) (fPayload f) = Some (cur, msg) ->
  exists w' g', Receive tcp [received_buffer (encode f)] w = (Ok tt, w') /\
    ep_core None w' g' /\ evolves (ghost_receive f cur msg g) g'.
Proof.
  intros K Hn HRO Hseq Hack Hlen Hlok Hfit Hre.
  destruct (accept_spec w g f cur msg) as (w1 & g1 & E1 & K1 & Ev1 & N1); try done.
  pose proof (k_rx _ _ _ K) as (HO & _).
  destruct (evolves_acks _ _ Ev1) as [HO1 HO2]; [cbn [ghost_receive gO gR]; lia|].
  destruct (evolves_same _ _ Ev1) as (_ & _ & HR1 & _); cbn [ghost_receive gO gR] in *.
  destruct (AcknowledgeReceived_spec msg w1 g1 K1 N1) as (w2 & g2 & E2 & K2 & Ev2); [lia|].
  destruct (DeliverMessage_spec msg w2 g2 K2) as (w3 & g3 & E3 & K3 & Ev3).
  exists w3, g3; split; [|split; [done|]].
  - unfold Receive; unfold bind at 1, self; unfold IsUnsubscribePending.
    rewrite (k_unsub _ _ _ K), (k_msg _ _ _ K); cbn [negb].
    apply closing_ok; rewrite E1; unfold bind; by rewrite E2.
  - eapply evolves_trans; [done|]; by eapply evolves_trans.
Qed.

End EndPoint.
End Link.
