(* ===== verification/BleConnection.v ===== *)
(** * BleConnection: a Bluetooth transport connection from the handshake on

    The end points of BleLink.v as one system: the handshake of two fresh end
    points, then any interleaving of messages sent by either application,
    fragments and confirmations delivered, and acknowledgement timers.

    - [link_inv] is the invariant, [step_inv] its preservation by every event;
    - [handshake] runs the operations of both ends in the order of the protocol
      and [handshake_inv] shows that it establishes the invariant;
    - [run] is reachability with the messages sent so far. *)

From S2P Require Import Prelude Encoding PacketBuffer Btp BleEndPoint BleLink.
Import BLEEndPoint.

Section Connection.
Context `{ByteOrder} `{PlatformMemory} (tcp : bool).

Hypothesis alloc_ok : forall n h, (n <= BtpEngine.kMaxSize)%nat ->
  exists b h', New tcp n kDefaultHeaderReserve h = (Some b, h').

(** ** The invariant of the link *)

Section Invariant.
Context (W F : Z) (HW : 2 <= W <= 254) (HF : BtpEngine.fragment_size_ok F).

(** Both directions of the connection, from the side of the first end point. *)
Record sides (x y : World) (gx gy : Ghost) : Prop := {
  s_x : ep_core W F None x gx;
  s_y : ep_core W F None y gy;
  s_xy : compat F gx gy;
  s_yx : compat F gy gx }.

Lemma sides_sym x y gx gy : sides x y gx gy -> sides y x gy gx.
Proof. by intros []; constructor. Qed.

(** What is received and not acknowledged fits in the peer's view of the window. *)
Lemma unacked_bound x y gx gy :
  sides x y gx gy ->
  0 <= gR gx - gO gx /\ gR gx - gO gx + Z.of_nat (length (gAir gy)) <= W + 1.
Proof.
  intros [Kx Ky Cxy Cyx]; pose proof (k_rx _ _ _ _ _ Kx) as (HO & _).
  pose proof (k_remote _ _ _ _ _ Ky); pose proof (c_count _ _ _ Cyx).
  pose proof (ack_chain_le _ _ _ (c_acks _ _ _ Cxy)); lia.
Qed.

(** The messages the event hands to the transport. *)
Definition event_sends (ev : Event) : list bytes :=
  match ev with AppSend p => [data p] | _ => [] end.

Definition event_ok (ev : Event) (w : World) : Prop :=
  match ev with
  | AppSend p => message_ok p /\ pTotLen p = pLen p /\ queue_room (mSendQueue (ep w)) p
  | _ => True
  end.

(** A call at [x] that only puts frames in the air. *)
Lemma sides_runs m x y gx gy :
  runs W F None m x gx -> gO gx <= gR gx -> compat F gx gy -> compat F gy gx ->
  ep_core W F None y gy ->
  exists x' gx', m x = (Ok tt, x') /\ sides x' y gx' gy /\ all_sent gx' = all_sent gx.
Proof.
  intros (x' & gx' & E & Kx & Ev) HO C1 C2 Ky; exists x', gx'; split; [done|].
  destruct (evolves_compat F _ _ gy Ev HO) as [D1 D2].
  destruct (evolves_same F _ _ Ev) as (Hs & _); split; [constructor; auto|done].
Qed.

Lemma compat_queue m gx gy :
  (compat F gx gy -> compat F (ghost_queue m gx) gy) /\
  (compat F gy gx -> compat F gy (ghost_queue m gx)).
Proof. split; intros []; by constructor. Qed.

Lemma all_sent_queue m g : all_sent (ghost_queue m g) = all_sent g ++ [m].
Proof. unfold all_sent; cbn [ghost_queue gDone gTx gQueue]; by rewrite !app_assoc. Qed.

(** The peer once its first frame left the air. *)
Lemma core_pop y gy f fr :
  ep_core W F None y gy -> gAir gy = f :: fr ->
  air (wPlat y) = BtpEngine.encode f :: (BtpEngine.encode <$> fr) /\
  ep_core W F None (set_air (BtpEngine.encode <$> fr) y) (ghost_pop gy).
Proof.
  intros K Hair; split; [by rewrite (k_air _ _ _ _ _ K), Hair|].
  destruct K, y; constructor; try assumption; cbn [set_air wPlat air ghost_pop gAir]; by rewrite Hair.
Qed.

Lemma step_inv ev x y gx gy res :
  sides x y gx gy -> no_ack_pending (ep x) -> event_ok ev x ->
  side_step tcp ev x y = Some res ->
  exists x' y' gx' gy', res = (CHIP_NO_ERROR, x', y') /\ sides x' y' gx' gy' /\
    all_sent gx' = all_sent gx ++ event_sends ev /\ all_sent gy' = all_sent gy.
Proof.
  intros Hs Hn Hev; pose proof (unacked_bound _ _ _ _ Hs) as Hb; destruct Hs as [Kx Ky Cxy Cyx].
  assert (Hlocal : forall m, runs W F None m x gx ->
    (let (res, w) := m x in Some (status res, w, y)) = Some res ->
    exists x' y' gx' gy', res = (CHIP_NO_ERROR, x', y') /\ sides x' y' gx' gy' /\
      all_sent gx' = all_sent gx ++ [] /\ all_sent gy' = all_sent gy).
  { intros m (x' & gx' & E & Hs & Ha)%(sides_runs m x y gx gy); [|lia|done..].
    rewrite E; intros [= <-]; rewrite app_nil_r; by exists x', y, gx', gy. }
  destruct ev as [p| | |]; cbn [side_step event_sends event_ok] in *.
  - destruct Hev as (Hp & Ht & Hq).
    destruct (Send_spec W F HW HF x gx p) as (x' & gx' & E & Kx' & Ev); try done; [lia|].
    destruct (compat_queue (data p) gx gy) as [D1 D2].
    destruct (sides_runs (Send [p]) x y (ghost_queue (data p) gx) gy)
      as (x2 & g2 & E2 & Hs2 & Ha2); [by exists x', gx'|cbn [ghost_queue gO gR]; lia|auto|auto|done|].
    rewrite E2; intros [= <-]; exists x2, y, g2, gy; by rewrite Ha2, all_sent_queue.
  - destruct (gAir gy) as [|f fr] eqn:Hair.
    { by rewrite (k_air _ _ _ _ _ Ky), Hair. }
    destruct (core_pop y gy f fr Ky Hair) as [-> Ky'].
    pose proof (k_rx _ _ _ _ _ Ky) as (HOy & _).
    destruct (absorb_facts F gx gy f fr Cxy Cyx Hair) as
      (Hseq & Hack & Hlen & Hlok & Hfit & cur & msg & Hre & C1 & C2); [lia|].
    destruct (Receive_spec tcp W F HW HF alloc_ok x gx f cur msg) as (x' & gx' & E & Kx' & Ev);
      try done; [cbn [length] in Hb; lia|].
    destruct (sides_runs (Receive tcp [received_buffer (BtpEngine.encode f)]) x
      (set_air (BtpEngine.encode <$> fr) y) (ghost_receive f cur msg gx) (ghost_pop gy))
      as (x2 & g2 & E2 & Hs2 & Ha2); [by exists x', gx'|cbn [ghost_receive gO gR]; lia|done..|].
    rewrite E2; intros [= <-]; eexists x2, _, g2, _; splits; [done|done| |done].
    rewrite Ha2, app_nil_r; done.
  - destruct (kGattOperationInFlight _); [|done].
    apply Hlocal, HandleGattSendConfirmationReceived_spec; try done; lia.
  - destruct (kSendAckTimerRunning _) eqn:Ht; [|done].
    by apply Hlocal, HandleSendAckTimeout_spec.
Qed.

(** What the invariant says of the messages: those delivered at [y] are a prefix of
    those sent at [x], all of them when nothing is left to send or in the air. *)
Definition drained (w : World) : Prop :=
  air (wPlat w) = [] /\ mSendQueue (ep w) = [] /\
  BtpEngine.mTxState (BtpEngine.tx (mBtpEngine (ep w))) <> BtpEngine.kState_InProgress.

Lemma delivered_prefix x y gx gy :
  sides x y gx gy -> messages (upcalls (wPlat y)) `prefix_of` all_sent gx.
Proof.
  intros [Kx Ky Cxy Cyx]; pose proof (k_up _ _ _ _ _ Ky) as Hu; cbn [option_list] in Hu.
  rewrite app_nil_r in Hu; rewrite Hu; destruct (c_replay _ _ _ Cxy) as (ms & _ & Hd).
  unfold all_sent; rewrite <-Hd, <-!app_assoc; by apply prefix_app_r.
Qed.

Lemma delivered_all x y gx gy :
  sides x y gx gy -> drained x -> messages (upcalls (wPlat y)) = all_sent gx.
Proof.
  intros [Kx Ky Cxy Cyx] (Ha & Hq & Ht); pose proof (k_up _ _ _ _ _ Ky) as Hu.
  cbn [option_list] in Hu; rewrite app_nil_r in Hu; rewrite Hu.
  destruct (c_replay _ _ _ Cxy) as (ms & Hr & Hd).
  rewrite (k_air _ _ _ _ _ Kx) in Ha; apply fmap_nil_inv in Ha; rewrite Ha in Hr; cbn [replay] in Hr.
  injection Hr as _ <-; rewrite app_nil_r in Hd.
  pose proof (k_queue _ _ _ _ _ Kx) as (_ & _ & Hqd); rewrite Hq in Hqd; cbn in Hqd.
  unfold all_sent; rewrite <-Hd, <-Hqd, app_nil_r.
  pose proof (k_txm _ _ _ _ _ Kx) as Hx; destruct (gTx gx) as [[m rest]|]; [|by rewrite app_nil_r].
  by destruct Hx as [Hx _].
Qed.

End Invariant.
(** ** The handshake *)

Definition exec (m : M World unit) (w : World) : option World :=
  match m w with (Ok _, w) => Some w | _ => None end.

(** The first fragment in the air of [x] is received at [y]. *)
Definition hand_over (x y : World) : option (World * World) :=
  match air (wPlat x) with
  | [] => None
  | d :: l => y ← exec (Receive tcp [received_buffer d]) y; Some (set_air l x, y)
  end.

(** An end point that was just made for a connection. *)
Definition fresh (rx_len tx_len : Z) (role : BleRole) (autoClose : bool) (e : EndPoint)
    (h : heap) (ATT_MTU : Z) : option World :=
  exec (Init rx_len tx_len role autoClose) (MkWorld e h (MkRadio ATT_MTU [] [])).

(** The central asks, its write is confirmed and it subscribes; the peripheral
    answers with an indication. *)
Definition handshake (c p : World) : option Link :=
  c ← exec (StartConnect tcp) c;
  '(c, p) ← hand_over c p;
  c ← exec (HandleGattSendConfirmationReceived tcp) c;
  p ← exec HandleSubscribeReceived p;
  c ← exec (HandleSubscribeComplete) c;
  '(p, c) ← hand_over p c;
  p ← exec (HandleGattSendConfirmationReceived tcp) p;
  Some (MkLink c p).

(** The fragment size the peripheral chooses from the MTUs. *)
Definition negotiated (mtu_c mtu_p : Z) : Z :=
  let mtu := if 0 <? mtu_c then mtu_c else mtu_p in
  if 0 <? mtu then BtpEngine.clamp (Z.max mtu 3 - 3) BtpEngine.sMinFragmentSize BtpEngine.sMaxFragmentSize
  else BtpEngine.sDefaultFragmentSize.

Lemma exec_ok m w w' : m w = (Ok tt, w') -> exec m w = Some w'.
Proof. unfold exec; by intros ->. Qed.

Lemma hand_over_one e h m d ups y y' :
  Receive tcp [received_buffer d] y = (Ok tt, y') ->
  hand_over (MkWorld e h (MkRadio m [d] ups)) y = Some (MkWorld e h (MkRadio m [] ups), y').
Proof. intros E; unfold hand_over; cbn [wPlat air]; by rewrite (exec_ok _ _ _ E). Qed.

(** A handshake message in a buffer just allocated. *)
Lemma write_at_start_New d n h b h' :
  New tcp n kDefaultHeaderReserve h = (Some b, h') -> (length d <= n)%nat ->
  exists b', Capabilities.write_at_start d b = (CHIP_NO_ERROR, b') /\ data b' = d /\ pRef b' = 1%nat.
Proof.
  intros Hnew Hl; pose proof (New_ok _ _ _ _ _ _ Hnew) as Hok.
  destruct (New_spec _ _ _ _ _ _ Hnew) as (_ & Hal & Hpp & Hpl & Hpt & Hpr).
  pose proof (MaxDataLength_ok b Hok) as Hmax; unfold Capabilities.write_at_start.
  destruct (Nat.ltb_spec (MaxDataLength b) (length d)); [lia|].
  set (b1 := MkPBuf _ _ _ _ _).
  assert (Hal1 : AllocSize b1 = AllocSize b).
  { unfold AllocSize in *; cbn [b1 pMem]; apply length_mem_write; lia. }
  assert (Hok1 : pbuf_ok b1).
  { constructor; rewrite ?Hal1; cbn [b1 pPayload pLen pRef]; [|apply Hok|apply Hok]; lia. }
  destruct (SetDataLength_spec b1 (length d) Hok1) as (_ & Hp & Hl2 & _ & Hm & Hr);
    [cbn [b1 pLen pTotLen]; lia|].
  eexists; split; [reflexivity|]; split; [|by rewrite Hr].
  unfold data; rewrite Hp, Hl2, Hm; pose proof (MaxDataLength_ok b1 Hok1) as Hmax1.
  change (pPayload b1) with (pPayload b) in *; rewrite Nat.min_l by lia.
  apply mem_read_write_same; unfold AllocSize in *; lia.
Qed.

Section Handshake.
Context (rx_c tx_c rx_p tx_p : Z) (auto_c auto_p : bool).

(** The end points while the handshake runs. *)
Definition central_at (st : State) (queue : chain) (engine : BtpEngine.t)
    (conf msg sub gatt connect_timer ack_timer : bool) (window : Z) : EndPoint :=
  MkEndPoint st true true 1 true queue [] engine kBleRole_Central
    (MkConnFlags auto_c conf msg sub false gatt)
    (MkTimerFlags connect_timer false false ack_timer false)
    (if ack_timer then window - 1 else window) window window.
Definition peripheral_at (st : State) (queue : chain) (engine : BtpEngine.t)
    (conf msg gatt connect_timer sent : bool) (window : Z) : EndPoint :=
  MkEndPoint st true true 1 true queue [] engine kBleRole_Peripheral
    (MkConnFlags auto_p conf msg false false gatt)
    (MkTimerFlags false connect_timer sent false false)
    window (if sent then window - 1 else window) window.

Definition engine_c : BtpEngine.t := BtpEngine.Init rx_c tx_c false.
Definition engine_p : BtpEngine.t := BtpEngine.Init rx_p tx_p true.
Definition sized (F : Z) (e : BtpEngine.t) : BtpEngine.t :=
  BtpEngine.SetTxFragmentSize F (BtpEngine.SetRxFragmentSize F e).

Definition request (mtu : Z) : bytes := [101; 108; 4; 0; 0; 0] ++ le_split 2 mtu ++ [6].
Definition response (F : Z) : bytes := [101; 108; 4] ++ le_split 2 F ++ [6].

Lemma fresh_central e h m :
  mBle e = false -> mBleTransport e = true ->
  fresh rx_c tx_c kBleRole_Central auto_c e h m =
  Some (MkWorld (central_at kState_Ready [] engine_c false false false false false false 0) h (MkRadio m [] [])).
Proof.
  intros Hb Ht; unfold fresh, exec, Init, bind, self, verify, upd, modify; cbn [ep].
  by rewrite Hb; cbn; rewrite Ht.
Qed.

Lemma fresh_peripheral e h m :
  mBle e = false -> mBleTransport e = true ->
  fresh rx_p tx_p kBleRole_Peripheral auto_p e h m =
  Some (MkWorld (peripheral_at kState_Ready [] engine_p false false false false false 0) h (MkRadio m [] [])).
Proof.
  intros Hb Ht; unfold fresh, exec, Init, bind, self, verify, upd, modify; cbn [ep].
  by rewrite Hb; cbn; rewrite Ht.
Qed.

Lemma StartConnect_run h m :
  exists b h',
    StartConnect tcp (MkWorld (central_at kState_Ready [] engine_c false false false false false false 0) h
                        (MkRadio m [] [])) =
    (Ok tt, MkWorld (central_at kState_Connecting [b] engine_c false false false true true false 0) h'
              (MkRadio m [request m] [])) /\ pRef b = 1%nat.
Proof.
  destruct (alloc_ok BtpEngine.kMaxSize h (Nat.le_refl _)) as (b & h' & Hnew).
  destruct (write_at_start_New (request m) _ _ _ _ Hnew) as (b' & Hw & Hd & Hr).
  { unfold BtpEngine.kMaxSize, kMaxSizeWithoutReserve, kDefaultHeaderReserve; cbn [request length app le_split]; lia. }
  exists b', h'; split; [|done].
  assert (He : Capabilities.EncodeRequest (Capabilities.SetSupportedProtocolVersion 0
      Capabilities.kBleTransportProtocolVersion_V4
      (Capabilities.MkRequest [0; 0; 0; 0] m MAX_RECEIVE_WINDOW_SIZE)) b = (CHIP_NO_ERROR, b')).
  { unfold Capabilities.EncodeRequest; rewrite nl_le_put_spec; exact Hw. }
  unfold StartConnect, attempt, bind, self, upd, modify, verify, new_buffer, defined, get.
  cbn [ep central_at mState]; rewrite bool_decide_eq_true_2 by done; cbn [ret wHeap wPlat].
  rewrite Hnew, bool_decide_eq_true_2 by eauto; cbn [ret wPlat wHeap GetMTU radio mtu].
  rewrite He; cbn; by rewrite Hd.
Qed.

Lemma received_data d : data (received_buffer d) = d.
Proof. apply mem_read_all. Qed.

Lemma decode_request mtu :
  is_uint 16 mtu ->
  Capabilities.DecodeRequest (received_buffer (request mtu)) = Ok (Capabilities.MkRequest [4; 0; 0; 0] mtu 6).
Proof.
  intros Hm; unfold Capabilities.DecodeRequest; rewrite received_data.
  cbn [DataLength received_buffer pLen request length app le_split Nat.ltb Nat.leb Capabilities.kCapabilitiesRequestLength].
  rewrite nl_le_get_spec; cbn; do 2 f_equal.
  pose proof (le_combine_split 2 mtu) as Hc; cbn in Hc; rewrite Hc; by apply Z.mod_small.
Qed.

Lemma decode_response F :
  is_uint 16 F ->
  Capabilities.DecodeResponse (received_buffer (response F)) = Ok (Capabilities.MkResponse 4 F 6).
Proof.
  intros Hm; unfold Capabilities.DecodeResponse; rewrite received_data.
  cbn [DataLength received_buffer pLen response length app le_split Nat.ltb Nat.leb Capabilities.kCapabilitiesResponseLength].
  rewrite nl_le_get_spec; cbn; do 2 f_equal.
  pose proof (le_combine_split 2 F) as Hc; cbn in Hc; rewrite Hc; by apply Z.mod_small.
Qed.

Lemma peripheral_request_run h mtu_c mtu_p :
  is_uint 16 mtu_c -> is_uint 16 mtu_p ->
  exists b h',
    Receive tcp [received_buffer (request mtu_c)]
      (MkWorld (peripheral_at kState_Ready [] engine_p false false false false false 0) h (MkRadio mtu_p [] [])) =
    (Ok tt, MkWorld (peripheral_at kState_Connecting [b] (sized (negotiated mtu_c mtu_p) engine_p)
                       false true false true false 6) h' (MkRadio mtu_p [] [])) /\
    data b = response (negotiated mtu_c mtu_p) /\ pRef b = 1%nat.
Proof.
  intros Hc Hp; destruct (alloc_ok Capabilities.kCapabilitiesResponseLength h) as (b & h' & Hnew).
  { unfold Capabilities.kCapabilitiesResponseLength, BtpEngine.kMaxSize, kMaxSizeWithoutReserve, kDefaultHeaderReserve; lia. }
  destruct (write_at_start_New (response (negotiated mtu_c mtu_p)) _ _ _ _ Hnew) as (b' & Hw & Hd & Hr); [done|].
  exists b', h'; split; [|done].
  assert (He : Capabilities.EncodeResponse (Capabilities.MkResponse 4 (negotiated mtu_c mtu_p) 6) b =
    (CHIP_NO_ERROR, b')).
  { unfold Capabilities.EncodeResponse; rewrite nl_le_put_spec; exact Hw. }
  assert (Hn : (if 0 <? (if 0 <? mtu_c then mtu_c else mtu_p)
     then BtpEngine.clamp (wrap 16 (Z.max (if 0 <? mtu_c then mtu_c else mtu_p) 3 - 3))
            BtpEngine.sMinFragmentSize BtpEngine.sMaxFragmentSize
     else BtpEngine.sDefaultFragmentSize) = negotiated mtu_c mtu_p).
  { unfold negotiated; unfold is_uint in Hc, Hp; destruct (0 <? _) eqn:Hz; [|done].
    rewrite wrap_small; [done|]; unfold is_uint; destruct (0 <? mtu_c); lia. }
  unfold Receive; unfold bind at 1, self; cbn [ep IsUnsubscribePending peripheral_at mTimerStateFlags
    kUnsubscribeTimerRunning kCapabilitiesMsgReceived mConnStateFlags negb mRole mState].
  rewrite decide_False, decide_True by done; apply closing_ok.
  unfold HandleCapabilitiesRequestReceived; rewrite decode_request by done.
  unfold new_buffer, bind, upd, upd_engine, modify, ret, self, defined, get, verify.
  cbn [ep wHeap wPlat]; rewrite Hnew, bool_decide_eq_true_2 by eauto.
  cbn [ret wPlat GetMTU radio mtu Capabilities.mMtu Capabilities.mWindowSize wHeap ep].
  assert (Hv : Capabilities.GetHighestSupportedProtocolVersion
    (Capabilities.MkRequest [4; 0; 0; 0] mtu_c 6) = 4) by reflexivity.
  rewrite Hn, Hv; change (4 =? Capabilities.kBleTransportProtocolVersion_None) with false.
  change (min_u8 6 MAX_RECEIVE_WINDOW_SIZE) with 6; rewrite He; reflexivity.
Qed.

Context (mtu_c mtu_p : Z) (Hc : is_uint 16 mtu_c) (Hp : is_uint 16 mtu_p).
Let F : Z := negotiated mtu_c mtu_p.

Lemma negotiated_ok : BtpEngine.fragment_size_ok F.
Proof.
  unfold F, negotiated, BtpEngine.fragment_size_ok, BtpEngine.clamp, BtpEngine.sMinFragmentSize,
    BtpEngine.sMaxFragmentSize, BtpEngine.sDefaultFragmentSize.
  destruct (0 <? mtu_c), (0 <? _); try (bcase; try lia; bcase; lia); lia.
Qed.

Lemma FreeHead_single b : pRef b = 1%nat -> FreeHead [b] = Some [].
Proof. intros Hr; unfold FreeHead, Free; by rewrite Hr. Qed.

(** The central's write is confirmed and it subscribes. *)
Lemma central_confirmed_run b h r :
  pRef b = 1%nat ->
  HandleGattSendConfirmationReceived tcp
    (MkWorld (central_at kState_Connecting [b] engine_c false false false true true false 0) h r) =
  (Ok tt, MkWorld (central_at kState_Connecting [] engine_c true false true true true false 0) h r).
Proof.
  intros Hr; pose proof (FreeHead_single b Hr) as Hf.
  unfold HandleGattSendConfirmationReceived, HandleHandshakeConfirmationReceived, bind, self, upd,
    modify, or_die.
  cbn [ep wHeap wPlat upd_conn set_mConnStateFlags central_at mConnStateFlags kCapabilitiesConfReceived
    set_kGattOperationInFlight negb mSendQueue set_kCapabilitiesConfReceived].
  rewrite Hf; cbn [ret]; unfold call; cbn [mRole set_mSendQueue]; rewrite decide_True by done; reflexivity.
Qed.

Lemma subscribe_received_run b h r :
  HandleSubscribeReceived
    (MkWorld (peripheral_at kState_Connecting [b] (sized F engine_p) false true false true false 6) h r) =
  (Ok tt, MkWorld (peripheral_at kState_Connected [b] (sized F engine_p) false true true false true 6) h
            (snd (transmit (data b) r))).
Proof.
  unfold HandleSubscribeReceived, attempt, bind, self, verify; cbn [ep peripheral_at mState mSendQueue is_null negb].
  rewrite !bool_decide_eq_true_2 by (done || by left); cbn [ret]; reflexivity.
Qed.

Lemma subscribe_complete_run h r :
  HandleSubscribeComplete
    (MkWorld (central_at kState_Connecting [] engine_c true false true true true false 0) h r) =
  (Ok tt, MkWorld (central_at kState_Connecting [] engine_c true false true false true false 0) h r).
Proof. reflexivity. Qed.

Lemma central_response_run h r :
  Receive tcp [received_buffer (response F)]
    (MkWorld (central_at kState_Connecting [] engine_c true false true false true false 0) h r) =
  (Ok tt, MkWorld (central_at kState_Connected [] (sized F engine_c) true true true false false true 6) h
            (Notify (OnEndPointConnectComplete CHIP_NO_ERROR) r)).
Proof.
  pose proof negotiated_ok as HF; unfold BtpEngine.fragment_size_ok, BtpEngine.sMinFragmentSize,
    BtpEngine.sMaxFragmentSize in HF.
  unfold Receive; unfold bind at 1, self; cbn [ep IsUnsubscribePending central_at mTimerStateFlags
    kUnsubscribeTimerRunning kCapabilitiesMsgReceived mConnStateFlags negb mRole mState].
  rewrite decide_True by done; apply closing_ok.
  unfold bind at 1, verify at 1; rewrite bool_decide_eq_true_2 by done; cbn [ret].
  unfold HandleCapabilitiesResponseReceived; rewrite decode_response by (unfold is_uint; lia).
  unfold bind, verify, upd, upd_engine, modify.
  cbn [ret ep wHeap wPlat Capabilities.mFragmentSize Capabilities.mSelectedProtocolVersion Capabilities.rWindowSize].
  destruct (Z.leb_spec BtpEngine.sMinFragmentSize F); [|unfold BtpEngine.sMinFragmentSize in *; lia].
  rewrite Z.min_l by (unfold BtpEngine.sMaxFragmentSize; lia); reflexivity.
Qed.

Lemma peripheral_confirmed_run b h r :
  pRef b = 1%nat ->
  HandleGattSendConfirmationReceived tcp
    (MkWorld (peripheral_at kState_Connected [b] (sized F engine_p) false true true false true 6) h r) =
  (Ok tt, MkWorld (peripheral_at kState_Connected [] (sized F engine_p) true true false false true 6) h r).
Proof.
  intros Hr; pose proof (FreeHead_single b Hr) as Hf.
  unfold HandleGattSendConfirmationReceived, HandleHandshakeConfirmationReceived, bind, self, upd,
    modify, or_die.
  cbn [ep wHeap wPlat upd_conn set_mConnStateFlags peripheral_at mConnStateFlags kCapabilitiesConfReceived
    set_kGattOperationInFlight negb mSendQueue set_kCapabilitiesConfReceived].
  rewrite Hf; cbn [ret mRole set_mSendQueue mState].
  rewrite decide_False, decide_True by done; reflexivity.
Qed.

(** What either side knows when the handshake is complete: the indication of the
    peripheral is its fragment 0. *)
Definition ghost_c : Ghost := MkGhost 0 0 0 1 [] None [] None [] [].
Definition ghost_p : Ghost := MkGhost 0 1 0 0 [] None [] None [] [].

Definition shaken_central (h : heap) : World :=
  MkWorld (central_at kState_Connected [] (sized F engine_c) true true true false false true 6) h
    (MkRadio mtu_c [] [OnEndPointConnectComplete CHIP_NO_ERROR]).
Definition shaken_peripheral (h : heap) : World :=
  MkWorld (peripheral_at kState_Connected [] (sized F engine_p) true true false false true 6) h
    (MkRadio mtu_p [] []).

Lemma handshake_run e_c e_p h_c h_p c p :
  mBle e_c = false -> mBleTransport e_c = true -> mBle e_p = false -> mBleTransport e_p = true ->
  fresh rx_c tx_c kBleRole_Central auto_c e_c h_c mtu_c = Some c ->
  fresh rx_p tx_p kBleRole_Peripheral auto_p e_p h_p mtu_p = Some p ->
  exists h1 h2, handshake c p = Some (MkLink (shaken_central h1) (shaken_peripheral h2)).
Proof.
  intros Hb1 Ht1 Hb2 Ht2; rewrite (fresh_central _ _ _ Hb1 Ht1), (fresh_peripheral _ _ _ Hb2 Ht2).
  intros [= <-] [= <-]; unfold handshake.
  destruct (StartConnect_run h_c mtu_c) as (b & h1 & E1 & Hr1).
  rewrite (exec_ok _ _ _ E1); cbn [mbind option_bind].
  destruct (peripheral_request_run h_p mtu_c mtu_p Hc Hp) as (b' & h2 & E2 & Hd & Hr2).
  rewrite (hand_over_one _ _ _ _ _ _ _ E2); cbn [mbind option_bind].
  rewrite (exec_ok _ _ _ (central_confirmed_run b h1 _ Hr1)); cbn [mbind option_bind].
  fold F; rewrite (exec_ok _ _ _ (subscribe_received_run b' h2 _)), Hd; cbn [mbind option_bind].
  rewrite (exec_ok _ _ _ (subscribe_complete_run h1 _)); cbn [mbind option_bind].
  change (snd (transmit (response (negotiated mtu_c mtu_p)) (MkRadio mtu_p [] []))) with (MkRadio mtu_p [response F] []).
  rewrite (hand_over_one _ _ _ _ _ _ _ (central_response_run h1 _)); cbn [mbind option_bind].
  rewrite (exec_ok _ _ _ (peripheral_confirmed_run b' h2 _ Hr2)); cbn [mbind option_bind].
  by exists h1, h2.
Qed.

Lemma sized_frag e :
  BtpEngine.mTxFragmentSize (BtpEngine.tx (sized F e)) = F /\
  BtpEngine.mRxFragmentSize (BtpEngine.rx (sized F e)) = F.
Proof.
  pose proof negotiated_ok as [H1 H2]; unfold BtpEngine.sMinFragmentSize, BtpEngine.sMaxFragmentSize in *.
  unfold sized, BtpEngine.SetTxFragmentSize, BtpEngine.SetRxFragmentSize, BtpEngine.clamp,
    BtpEngine.sMinFragmentSize, BtpEngine.sMaxFragmentSize; cbn.
  by rewrite !(proj2 (Z.ltb_ge _ _)) by lia.
Qed.

Lemma shaken_inv h1 h2 : sides 6 F (shaken_central h1) (shaken_peripheral h2) ghost_c ghost_p.
Proof.
  constructor.
  - constructor; try (done || (by left) || (by splits) || apply sized_frag); cbn; lia.
  - constructor; try (done || (by left) || (by splits) || apply sized_frag); cbn; lia.
  - constructor; [done|intros i f Hi; done|done|constructor|by exists []].
  - constructor; [done|intros i f Hi; done|done|constructor|by exists []].
Qed.

End Handshake.
(** ** Runs of a connection *)

(** An end point object that is not in use, with a transport above it. *)
Definition blank (e : EndPoint) : Prop := mBle e = false /\ mBleTransport e = true.

(** [l0] is the result of the handshake of two fresh end points whose platforms
    report the MTUs [mtu_c] and [mtu_p]. *)
Inductive connects (mtu_c mtu_p : Z) (l0 : Link) : Prop :=
| connects_intro rx_c tx_c rx_p tx_p auto_c auto_p e_c e_p h_c h_p c p :
    is_uint 16 mtu_c -> is_uint 16 mtu_p -> blank e_c -> blank e_p ->
    fresh rx_c tx_c kBleRole_Central auto_c e_c h_c mtu_c = Some c ->
    fresh rx_p tx_p kBleRole_Peripheral auto_p e_p h_p mtu_p = Some p ->
    handshake c p = Some l0 -> connects mtu_c mtu_p l0.

(** No acknowledgement is kept back on either side. *)
Definition quiet (l : Link) : Prop :=
  no_ack_pending (ep (central l)) /\ no_ack_pending (ep (peripheral l)).

Definition side (at_central : bool) (l : Link) : World :=
  if at_central then central l else peripheral l.

(** The messages each application sent. *)
Definition record_sent (at_central : bool) (ev : Event) (sent : list bytes * list bytes)
    : list bytes * list bytes :=
  if at_central then (fst sent ++ event_sends ev, snd sent)
  else (fst sent, snd sent ++ event_sends ev).

Inductive run (l0 : Link) : Link -> list bytes * list bytes -> Prop :=
| run_start : run l0 l0 ([], [])
| run_event l sent at_central ev err l' :
    run l0 l sent -> quiet l -> event_ok ev (side at_central l) ->
    link_step tcp at_central ev l = Some (err, l') ->
    run l0 l' (record_sent at_central ev sent).

(** The invariant with what was sent. *)
Definition link_inv (F : Z) (l : Link) (sent : list bytes * list bytes) : Prop :=
  exists gc gp, sides 6 F (central l) (peripheral l) gc gp /\
    all_sent gc = fst sent /\ all_sent gp = snd sent.

Lemma link_step_inv F at_central ev l sent err l' :
  BtpEngine.fragment_size_ok F -> link_inv F l sent -> quiet l -> event_ok ev (side at_central l) ->
  link_step tcp at_central ev l = Some (err, l') ->
  err = CHIP_NO_ERROR /\ link_inv F l' (record_sent at_central ev sent).
Proof.
  intros HF (gc & gp & Hs & Hc & Hp) [Qc Qp] Hev; unfold link_step.
  assert (HW : 2 <= 6 <= 254) by lia; destruct at_central; cbn [side] in Hev.
  - destruct (side_step tcp ev (central l) (peripheral l)) as [res|] eqn:E; [|done].
    destruct (step_inv 6 F HW HF ev _ _ _ _ res Hs Qc Hev E) as (c & p & gc' & gp' & -> & Hs' & H1 & H2).
    cbn [mbind option_bind]; intros [= <- <-]; split; [done|]; exists gc', gp'; cbn; splits; congruence || done.
  - destruct (side_step tcp ev (peripheral l) (central l)) as [res|] eqn:E; [|done].
    destruct (step_inv 6 F HW HF ev _ _ _ _ res (sides_sym _ _ _ _ _ _ Hs) Qp Hev E)
      as (p & c & gp' & gc' & -> & Hs'%sides_sym & H1 & H2).
    cbn [mbind option_bind]; intros [= <- <-]; split; [done|]; exists gc', gp'; cbn; splits; congruence || done.
Qed.

Lemma connects_inv mtu_c mtu_p l0 :
  connects mtu_c mtu_p l0 -> link_inv (negotiated mtu_c mtu_p) l0 ([], []).
Proof.
  intros [? ? ? ? ? ? ? ? ? ? c p Hc Hp [] [] E1 E2 Eh].
  edestruct handshake_run as (h1 & h2 & Hh); [exact Hc|exact Hp| | | | |exact E1|exact E2|]; try done.
  rewrite Hh in Eh; injection Eh as <-; exists ghost_c, ghost_p; split; [|done].
  by apply shaken_inv.
Qed.

Lemma run_inv mtu_c mtu_p l0 l sent :
  connects mtu_c mtu_p l0 -> run l0 l sent -> link_inv (negotiated mtu_c mtu_p) l sent.
Proof.
  intros Hc; induction 1 as [|l sent at_c ev err l' Hr IH Q Hev E]; [by apply connects_inv|].
  by apply (link_step_inv _ _ _ _ _ _ _ (negotiated_ok _ _) IH Q Hev E).
Qed.

Definition delivered (w : World) : list bytes := messages (upcalls (wPlat w)).

(** C21: Handshake of two fresh end points: a central and a peripheral that start with
    blank end points always complete the handshake, whatever MTUs their platforms
    report, when packet buffers can be allocated.  Both end up connected, with the
    same fragment size computed from the MTUs, windows of 6 fragments, and the
    central's application told once. *)
Theorem handshake_connects rx_c tx_c rx_p tx_p auto_c auto_p e_c e_p h_c h_p mtu_c mtu_p c p :
  is_uint 16 mtu_c -> is_uint 16 mtu_p -> blank e_c -> blank e_p ->
  fresh rx_c tx_c kBleRole_Central auto_c e_c h_c mtu_c = Some c ->
  fresh rx_p tx_p kBleRole_Peripheral auto_p e_p h_p mtu_p = Some p ->
  exists l, handshake c p = Some l /\
    Forall (fun w =>
      let e := ep w in let engine := mBtpEngine e in
      mState e = kState_Connected /\ mReceiveWindowMaxSize e = 6 /\ mSendQueue e = [] /\
      BtpEngine.mTxFragmentSize (BtpEngine.tx engine) = negotiated mtu_c mtu_p /\
      BtpEngine.mRxFragmentSize (BtpEngine.rx engine) = negotiated mtu_c mtu_p)
      [central l; peripheral l] /\
    upcalls (wPlat (central l)) = [OnEndPointConnectComplete CHIP_NO_ERROR].
Proof.
  intros Hc Hp [] [] E1 E2.
  edestruct handshake_run as (h1 & h2 & Hh); [exact Hc|exact Hp| | | | |exact E1|exact E2|]; try done.
  eexists; split; [exact Hh|]; split; [|done].
  repeat constructor; by apply sized_frag.
Qed.

(** C1: A connection delivers what is sent: after the handshake, in any interleaving of
    messages sent by both applications, fragments and confirmations delivered and
    acknowledgement timers, as long as no stand-alone acknowledgement has to be kept
    back, both ends stay connected, each application receives a prefix of the messages
    the other one sent, unchanged and in order, and all of them once the sender has
    nothing more to send and nothing is in the air; and every further event succeeds. *)
Theorem connection_delivers mtu_c mtu_p l0 l sent :
  connects mtu_c mtu_p l0 -> run l0 l sent ->
  (mState (ep (central l)) = kState_Connected /\ mState (ep (peripheral l)) = kState_Connected) /\
  (delivered (peripheral l) `prefix_of` fst sent /\ delivered (central l) `prefix_of` snd sent) /\
  (drained (central l) -> delivered (peripheral l) = fst sent) /\
  (drained (peripheral l) -> delivered (central l) = snd sent) /\
  (quiet l -> forall at_central ev err l', event_ok ev (side at_central l) ->
     link_step tcp at_central ev l = Some (err, l') -> err = CHIP_NO_ERROR).
Proof.
  intros Hc Hr; pose proof (run_inv _ _ _ _ _ Hc Hr) as Hi.
  pose proof Hi as (gc & gp & Hs & <- & <-); pose proof (sides_sym _ _ _ _ _ _ Hs) as Hs'.
  splits.
  - by apply Hs.
  - by apply Hs.
  - by apply (delivered_prefix _ _ _ _ _ _ Hs).
  - by apply (delivered_prefix _ _ _ _ _ _ Hs').
  - by apply (delivered_all _ _ _ _ _ _ Hs).
  - by apply (delivered_all _ _ _ _ _ _ Hs').
  - intros Q at_c ev err l' Hev E.
    by eapply link_step_inv; [apply negotiated_ok|..].
Qed.

(** ** Runs as programs *)

Definition quietb (l : Link) : bool :=
  let ok (e : EndPoint) := is_null (mAckToSend e) || kStandAloneAckInFlight (mConnStateFlags e) in
  ok (ep (central l)) && ok (ep (peripheral l)).

(** A message of the application, with room for the header. *)
Definition app_message (d : bytes) : PBuf :=
  MkPBuf (replicate BtpEngine.kTransferProtocolMaxHeaderSize 0 ++ d)
    BtpEngine.kTransferProtocolMaxHeaderSize (length d) (length d) 1.

(** What the application or the outside does. *)
Inductive Action :=
| SendMessage (d : bytes)
| Fragment
| Confirm
| AckTimer.

Definition event_of (a : Action) : Event :=
  match a with
  | SendMessage d => AppSend (app_message d)
  | Fragment => DeliverFragment
  | Confirm => GattConfirmation
  | AckTimer => SendAckTimer_
  end.

Definition action_okb (a : Action) (w : World) : bool :=
  match a with
  | SendMessage d =>
      (length d <=? BtpEngine.kMaxSize)%nat &&
      (Z.of_nat (length (contents (mSendQueue (ep w)))) <? 2 ^ 32)
  | _ => true
  end.

(** The statuses of a sequence of events; [None] when one cannot happen. *)
Fixpoint play (script : list (bool * Action)) (l : Link) : option (list CHIP_ERROR * Link) :=
  match script with
  | [] => Some ([], l)
  | (at_central, a) :: script =>
      '(err, l) ← link_step tcp at_central (event_of a) l;
      '(errs, l) ← play script l;
      Some (err :: errs, l)
  end.

(** [play] where acknowledgements are not kept back, with what was sent. *)
Fixpoint play_quiet (script : list (bool * Action)) (l : Link) (sent : list bytes * list bytes)
    : option (Link * (list bytes * list bytes)) :=
  match script with
  | [] => Some (l, sent)
  | (at_central, a) :: script =>
      if quietb l && action_okb a (side at_central l) then
        '(_, l) ← link_step tcp at_central (event_of a) l;
        play_quiet script l (record_sent at_central (event_of a) sent)
      else None
  end.

Lemma quietb_spec l : quietb l = true -> quiet l.
Proof.
  unfold quietb, quiet, no_ack_pending; intros [Hc Hp]%andb_prop.
  assert (Hnull : forall c, is_null c = true -> c = []) by (by intros []).
  apply orb_prop in Hc, Hp; split; [destruct Hc as [Hc%Hnull|]|destruct Hp as [Hp%Hnull|]]; auto.
Qed.

Lemma action_okb_spec a w : action_okb a w = true -> event_ok (event_of a) w.
Proof.
  destruct a as [d| | |]; cbn [action_okb event_of event_ok]; try done.
  intros [Hd%Nat.leb_le Hq%Z.ltb_lt]%andb_prop.
  assert (Hdata : data (app_message d) = d).
  { unfold data, mem_read, app_message; cbn [pMem pPayload pLen].
    rewrite drop_app_length' by (by rewrite length_replicate); by apply take_ge. }
  unfold BtpEngine.kMaxSize, kMaxSizeWithoutReserve, kDefaultHeaderReserve in Hd.
  unfold message_ok, queue_room; rewrite Hdata.
  assert (Hal : AllocSize (app_message d) = (5 + length d)%nat).
  { unfold AllocSize, app_message; cbn [pMem]; by rewrite length_app, length_replicate. }
  splits; [| | | |done|].
  - constructor; rewrite ?Hal; cbn [app_message pPayload pLen pRef];
      unfold BtpEngine.kTransferProtocolMaxHeaderSize; lia.
  - rewrite Hal; unfold BtpEngine.kTransferProtocolMaxHeaderSize; lia.
  - unfold BtpEngine.kMaxSize, kMaxSizeWithoutReserve, kDefaultHeaderReserve; lia.
  - done.
  - lia.
Qed.

Lemma play_quiet_run l0 script l sent l' sent' :
  run l0 l sent -> play_quiet script l sent = Some (l', sent') -> run l0 l' sent'.
Proof.
  revert l sent; induction script as [|[at_c a] script IH]; intros l sent Hr; cbn [play_quiet].
  { by intros [= -> ->]. }
  destruct (quietb l && _) eqn:Hq; [|done]; apply andb_prop in Hq as [Hq%quietb_spec Ha%action_okb_spec].
  destruct (link_step tcp at_c (event_of a) l) as [[err l1]|] eqn:E; [|done]; cbn [mbind option_bind].
  intros Hp; apply (IH l1 (record_sent at_c (event_of a) sent)); [|done].
  by eapply run_event.
Qed.

End Connection.

(** The remote window after an acknowledgement: when fragment [k] is acknowledged
    and [n] more were sent, the peer has room for [max - n]; the code computes that,
    except that it computes one more when the sequence numbers wrapped in between. *)
Theorem remote_window_after_ack max k n :
  2 <= max <= 254 -> 0 <= n <= max ->
  AdjustRemoteReceiveWindow (k mod 256) max ((k + n) mod 256) =
  max - n + (if (k + n) mod 256 <? k mod 256 then 1 else 0).
Proof.
  intros Hmax Hn.
  by apply AdjustRemoteReceiveWindow_spec.
Qed.

(** A window of 6, fragment 252 acknowledged, fragment 0 the newest: there is room for
    two fragments and the code says three. *)
Lemma remote_window_after_ack_witness : AdjustRemoteReceiveWindow 252 6 0 = 3.
Proof. apply (remote_window_after_ack 6 252 4); lia. Defined.

(** ** Concrete connections *)

Definition unused : EndPoint :=
  MkEndPoint kState_Closed false true 0 false [] [] (BtpEngine.Init 0 0 false) kBleRole_Central
    (MkConnFlags false false false false false false) (MkTimerFlags false false false false false) 0 0 0.

Section Concrete.
#[local] Existing Instances reference_byte_order zero_memory.

Definition demo_end (role : BleRole) (ATT_MTU : Z) : option World :=
  fresh 0 0 role false unused tt ATT_MTU.
Definition demo : option Link :=
  c ← demo_end kBleRole_Central 23; p ← demo_end kBleRole_Peripheral 247; handshake false c p.

Lemma zero_memory_ok n h :
  (n <= BtpEngine.kMaxSize)%nat -> exists b h', New false n kDefaultHeaderReserve h = (Some b, h').
Proof.
  intros Hn; unfold New, BtpEngine.kMaxSize, kMaxAllocSize, kMaxSizeWithoutReserve, kDefaultHeaderReserve in *.
  destruct (Z.ltb_spec 4294967295 (Z.of_nat n)); [lia|].
  match goal with |- context [(?a <? ?b)%nat] => destruct (Nat.ltb_spec a b); [lia|] end.
  cbn [MemoryAlloc zero_memory fmap option_fmap option_map]; eauto.
Qed.

Lemma demo_connects l0 : demo = Some l0 -> connects false 23 247 l0.
Proof.
  unfold demo; destruct (demo_end kBleRole_Central 23) as [c|] eqn:Ec; [|done].
  destruct (demo_end kBleRole_Peripheral 247) as [p|] eqn:Ep; [|done]; cbn [mbind option_bind]; intros Eh.
  by eapply connects_intro; [..|exact Ec|exact Ep|exact Eh].
Qed.

Lemma handshake_connects_witness :
  exists c p l, demo_end kBleRole_Central 23 = Some c /\ demo_end kBleRole_Peripheral 247 = Some p /\
    handshake false c p = Some l /\
    BtpEngine.mTxFragmentSize (BtpEngine.tx (mBtpEngine (ep (central l)))) = 20.
Proof.
  destruct (demo_end kBleRole_Central 23) as [c|] eqn:Ec; [|vm_compute in Ec; discriminate].
  destruct (demo_end kBleRole_Peripheral 247) as [p|] eqn:Ep; [|vm_compute in Ep; discriminate].
  destruct (@handshake_connects reference_byte_order zero_memory false zero_memory_ok 0 0 0 0 false false
    unused unused tt tt 23 247 c p) as (l & Hl & Hf & _); try done.
  exists c, p, l; splits; [done..|].
  apply Forall_cons_1 in Hf as [(_ & _ & _ & Hf & _) _]; exact Hf.
Defined.

(** A message of 60 octets in four fragments against one of two octets, with
    acknowledgements on fragments and one of its own. *)
Definition demo_message : bytes := Z.of_nat <$> seq 0 60.
Definition demo_script : list (bool * Action) :=
  let C := true in let P := false in
  [(C, SendMessage demo_message); (P, Fragment); (C, Confirm); (P, Fragment);
   (P, SendMessage [7; 8]); (C, Fragment); (C, Confirm); (P, Fragment); (C, Confirm); (P, Confirm);
   (P, Fragment); (C, Confirm); (P, AckTimer); (C, Fragment); (P, Confirm)].

Lemma option_found {A} (o : option A) (Q : A -> Prop) :
  match o with Some a => Q a | None => False end -> exists a, o = Some a /\ Q a.
Proof. destruct o as [a|]; [by exists a|done]. Qed.

Lemma demo_run :
  exists l0 l, demo = Some l0 /\ run false l0 l ([demo_message], [[7; 8]]) /\ drained (central l).
Proof.
  destruct (option_found demo (fun l0 =>
    match play_quiet false demo_script l0 ([], []) with
    | Some (l, sent) => sent = ([demo_message], [[7; 8]]) /\ drained (central l)
    | None => False
    end)) as (l0 & E0 & Hl0); [vm_compute; repeat split; discriminate|].
  apply option_found in Hl0 as ([l sent] & E & Hsent & Hdr); exists l0, l.
  split; [exact E0|]; split; [|exact Hdr]; rewrite <-Hsent.
  exact (play_quiet_run false l0 _ _ _ _ _ (run_start false l0) E).
Qed.

Lemma connection_delivers_witness :
  exists l0 l, connects false 23 247 l0 /\ run false l0 l ([demo_message], [[7; 8]]) /\
    mState (ep (central l)) = kState_Connected /\ drained (central l) /\
    delivered (peripheral l) = [demo_message].
Proof.
  destruct demo_run as (l0 & l & E0 & Hr & Hdr); pose proof (demo_connects l0 E0) as Hc.
  destruct (@connection_delivers reference_byte_order zero_memory false zero_memory_ok 23 247 l0 l
    ([demo_message], [[7; 8]]) Hc Hr) as ([H1 _] & _ & H2 & _).
  exists l0, l; split; [exact Hc|]; split; [exact Hr|]; split; [exact H1|]; split; [exact Hdr|].
  exact (H2 Hdr).
Defined.

(** Nothing can happen on either side but a new message or the expiry of a timer
    that closes the connection. *)
Definition stuck (l : Link) : Prop :=
  forall at_central ev, (forall p, ev <> AppSend p) -> link_step false at_central ev l = None.

(** Two races of the acknowledgement timer.  First run: the timer of the central
    expires while its write is in flight, so that an acknowledgement is kept back; a
    fragment received now starts the timer again, the acknowledgement is sent when the
    write is confirmed, and the next message finds nothing to acknowledge: the send fails
    and the connection is closed.  Second run: the timer expires while a stand-alone
    acknowledgement is in flight and nothing is sent; once that is confirmed the end
    point owes an acknowledgement but has no timer for it, and the peer's expiring
    timer closes its end. *)
Theorem ack_timer_races :
  (exists l0 l, connects false 23 247 l0 /\
     play false [(true, SendMessage [1]); (false, Fragment); (false, SendMessage [2]); (true, Fragment);
                 (true, AckTimer); (false, Confirm); (false, SendMessage [3]); (true, Fragment);
                 (true, Confirm); (true, Confirm); (true, SendMessage [4])] l0 =
       Some (replicate 10 CHIP_NO_ERROR ++ [BLE_ERROR_CHIPOBLE_PROTOCOL_ABORT], l) /\
     mState (ep (central l)) = kState_Closed /\ delivered (peripheral l) = [[1]]) /\
  (exists l0 l, connects false 23 247 l0 /\
     play false [(true, AckTimer); (false, Fragment); (false, SendMessage [2]); (true, Fragment);
                 (true, AckTimer); (true, Confirm); (false, Confirm)] l0 =
       Some (replicate 7 CHIP_NO_ERROR, l) /\
     quiet l /\ stuck l /\
     BtpEngine.HasUnackedData (mBtpEngine (ep (central l))) = true /\
     kAckReceivedTimerRunning (mTimerStateFlags (ep (peripheral l))) = true /\
     mState (ep (snd (HandleAckReceivedTimeout (peripheral l)))) = kState_Closed).
Proof.
  destruct demo as [l0|] eqn:E0; [|vm_compute in E0; discriminate].
  pose proof (demo_connects l0 E0) as Hc; vm_compute in E0; injection E0 as E0.
  split; eexists l0, _; (split; [exact Hc|subst l0]).
  - split; [vm_compute; reflexivity|split; reflexivity].
  - split; [vm_compute; reflexivity|]; splits; try reflexivity; [split; by left|].
    intros [] [] Ha; try reflexivity; by destruct (Ha p).
Qed.

End Concrete.
