(* ===== verification/NodeId.v ===== *)
(** * NodeId: identifiers of nodes, groups, tags and data model elements

    Model of src/src/lib/core/NodeId.h, GroupId.h, CASEAuthTag.h and of the
    identifiers of DataModelTypes.h: the 64-bit node identifiers with the ranges
    carved out of them, CASE authenticated tags with their version numbers, and
    the validity of cluster, endpoint and device type identifiers. *)

From S2P Require Import Prelude Encoding.

(** ** Node identifiers *)

Definition kUndefinedNodeId : Z := 0.
Definition kMinGroupNodeId : Z := 0xFFFFFFFFFFFF0000.
Definition kMaskGroupId : Z := 0x000000000000FFFF.
Definition kMinTemporaryLocalId : Z := 0xFFFFFFFE00000000.
Definition kMaxTemporaryLocalId : Z := 0xFFFFFFFEFFFFFFFE.
Definition kPlaceholderNodeId : Z := 0xFFFFFFFEFFFFFFFF.
Definition kMinCASEAuthTag : Z := 0xFFFFFFFD00000000.
Definition kMaxCASEAuthTag : Z := 0xFFFFFFFDFFFFFFFF.
Definition kMaskCASEAuthTag : Z := 0x00000000FFFFFFFF.
Definition kMinPAKEKeyId : Z := 0xFFFFFFFB00000000.
Definition kMaxPAKEKeyId : Z := 0xFFFFFFFBFFFFFFFF.
Definition kMaskPAKEKeyId : Z := 0x000000000000FFFF.
Definition kMaxOperationalNodeId : Z := 0xFFFFFFEFFFFFFFFF.

Definition IsOperationalNodeId (aNodeId : Z) : bool :=
  negb (aNodeId =? kUndefinedNodeId) && (aNodeId <=? kMaxOperationalNodeId).
Definition IsGroupId (aNodeId : Z) : bool := kMinGroupNodeId <=? aNodeId.
Definition IsCASEAuthTag (aNodeId : Z) : bool :=
  (kMinCASEAuthTag <=? aNodeId) && (aNodeId <=? kMaxCASEAuthTag).
Definition IsPAKEKeyId (aNodeId : Z) : bool :=
  (kMinPAKEKeyId <=? aNodeId) && (aNodeId <=? kMaxPAKEKeyId).

Definition NodeIdFromGroupId (aGroupId : Z) : Z := Z.lor kMinGroupNodeId aGroupId.
Definition GroupIdFromNodeId (aNodeId : Z) : Z := wrap 16 (Z.land aNodeId kMaskGroupId).
Definition NodeIdFromPAKEKeyId (aPAKEKeyId : Z) : Z := Z.lor kMinPAKEKeyId aPAKEKeyId.
Definition PAKEKeyIdFromNodeId (aNodeId : Z) : Z := wrap 16 (Z.land aNodeId kMaskPAKEKeyId).

(** ** Group identifiers *)

Definition kUndefinedGroupId : Z := 0.
Definition kMinUniversalGroupId : Z := 0xFF00.
Definition kMinApplicationGroupId : Z := 0x0001.
Definition kMaxApplicationGroupId : Z := 0xFEFF.
Definition kMinUniversalGroupIdReserved : Z := 0xFF00.
Definition kMaxUniversalGroupIdReserved : Z := 0xFFFC.

Definition IsOperationalGroupId (aGroupId : Z) : bool :=
  negb (aGroupId =? kUndefinedGroupId) &&
  ((aGroupId <? kMinUniversalGroupIdReserved) || (kMaxUniversalGroupIdReserved <? aGroupId)).
Definition IsApplicationGroupId (aGroupId : Z) : bool :=
  (kMinApplicationGroupId <=? aGroupId) && (aGroupId <=? kMaxApplicationGroupId).
Definition IsUniversalGroupId (aGroupId : Z) : bool := kMinUniversalGroupId <=? aGroupId.
Definition IsValidGroupId (aGroupId : Z) : bool := negb (aGroupId =? kUndefinedGroupId).

(** ** CASE authenticated tags *)

Definition kUndefinedCAT : Z := 0.
Definition kTagIdentifierMask : Z := 0x00000000FFFF0000.
Definition kTagIdentifierShift : Z := 16.
Definition kTagVersionMask : Z := 0x000000000000FFFF.
Definition kAdminCATIdentifier : Z := 0xFFFF.
Definition kAnchorCATIdentifier : Z := 0xFFFE.
Definition kMaxSubjectCATAttributeCount : nat := 3.

Definition NodeIdFromCASEAuthTag (aCAT : Z) : Z := Z.lor kMinCASEAuthTag aCAT.
Definition CASEAuthTagFromNodeId (aNodeId : Z) : Z := wrap 32 (Z.land aNodeId kMaskCASEAuthTag).
Definition IsValidCASEAuthTag (aCAT : Z) : bool := 0 <? Z.land aCAT kTagVersionMask.
Definition GetCASEAuthTagIdentifier (aCAT : Z) : Z :=
  wrap 16 (Z.shiftr (Z.land aCAT kTagIdentifierMask) kTagIdentifierShift).
Definition GetCASEAuthTagVersion (aCAT : Z) : Z := wrap 16 (Z.land aCAT kTagVersionMask).
Definition GetAdminCATWithVersion (version : Z) : Z := Z.lor (Z.shiftl kAdminCATIdentifier 16) version.
Definition GetAnchorCATWithVersion (version : Z) : Z := Z.lor (Z.shiftl kAnchorCATIdentifier 16) version.

(** [CATValues]: the array [values], always of [kMaxSubjectCATAttributeCount] tags. *)
Module CATValues.
Definition t : Type := list Z.

Definition present (cat : Z) : bool := negb (cat =? kUndefinedCAT).
Definition GetNumTagsPresent (values : t) : nat := length (List.filter present values).
Definition Contains (tag : Z) (values : t) : bool :=
  existsb (fun candidate => present candidate && (candidate =? tag)) values.

(** One pass of the outer loop of [AreValid], at [idx]. *)
Definition valid_at (values : t) (idx : nat) (candidate : Z) : bool :=
  if candidate =? kUndefinedCAT then true
  else if negb (IsValidCASEAuthTag candidate) then false
  else forallb (fun '(other_idx, other) =>
         (idx =? other_idx)%nat || (other =? kUndefinedCAT) ||
         negb (GetCASEAuthTagIdentifier other =? GetCASEAuthTagIdentifier candidate))
       (imap pair values).
Definition AreValid (values : t) : bool :=
  forallb (fun '(idx, candidate) => valid_at values idx candidate) (imap pair values).

Definition ContainsIdentifier (identifier : Z) (values : t) : bool :=
  existsb (fun candidate => present candidate && (identifier =? GetCASEAuthTagIdentifier candidate)) values.

Definition CheckSubjectAgainstCATs (subject : Z) (values : t) : bool :=
  if negb (IsCASEAuthTag subject) then false
  else
    let catFromSubject := CASEAuthTagFromNodeId subject in
    existsb (fun catFromNoc =>
      present catFromNoc &&
      (GetCASEAuthTagIdentifier catFromNoc =? GetCASEAuthTagIdentifier catFromSubject) &&
      (0 <? GetCASEAuthTagVersion catFromSubject) &&
      (GetCASEAuthTagVersion catFromSubject <=? GetCASEAuthTagVersion catFromNoc)) values.

(** [operator==] *)
Definition equal (a b : t) : bool :=
  if negb (GetNumTagsPresent a =? GetNumTagsPresent b)%nat then false
  else if negb (AreValid a) || negb (AreValid b) then false
  else forallb (fun cat => (cat =? kUndefinedCAT) || Contains cat b) a.

Definition Serialize `{ByteOrder} (values : t) : bytes := values ≫= nl_le_put 4.
Fixpoint Deserialize `{ByteOrder} (n : nat) (inSerialized : bytes) : t :=
  match n with
  | O => []
  | S n => nl_le_get (take 4 inSerialized) :: Deserialize n (drop 4 inSerialized)
  end.
End CATValues.

(** ** Data model identifiers *)

Definition kUndefinedFabricIndex : Z := 0.
Definition kInvalidEndpointId : Z := 0xFFFF.
Definition kMaxVendorId : Z := 0xFFF4.

Definition ExtractIdFromMEI (aMEI : Z) : Z := Z.land aMEI 0x0000FFFF.
Definition ExtractVendorFromMEI (aMEI : Z) : Z := Z.shiftr (Z.land aMEI 0xFFFF0000) 16.
Definition IsValidVendorId (aVendorId : Z) : bool := aVendorId <=? kMaxVendorId.
Definition IsValidClusterId (aClusterId : Z) : bool :=
  let id := ExtractIdFromMEI aClusterId in
  let vendor := ExtractVendorFromMEI aClusterId in
  IsValidVendorId vendor &&
  (((vendor =? 0x0000) && (id <=? 0x7FFF)) ||
   ((0x0001 <=? vendor) && (0xFC00 <=? id) && (id <=? 0xFFFE))).
Definition IsValidDeviceTypeId (aDeviceTypeId : Z) : bool :=
  (Z.land aDeviceTypeId 0xFFFF0000 <=? 0xFFFE0000) && (Z.land aDeviceTypeId 0x0000FFFF <=? 0xBFFF).
Definition IsGlobalAttribute (aAttributeId : Z) : bool :=
  let id := ExtractIdFromMEI aAttributeId in
  let vendor := ExtractVendorFromMEI aAttributeId in
  (vendor =? 0x0000) && (0xF000 <=? id) && (id <=? 0xFFFE).
Definition IsValidAttributeId (aAttributeId : Z) : bool :=
  let id := ExtractIdFromMEI aAttributeId in
  let vendor := ExtractVendorFromMEI aAttributeId in
  ((id <=? 0x4FFF) && IsValidVendorId vendor) || IsGlobalAttribute aAttributeId.
Definition IsValidCommandId (aCommandId : Z) : bool :=
  let id := ExtractIdFromMEI aCommandId in
  let vendor := ExtractVendorFromMEI aCommandId in
  (id <=? 0xFF) && IsValidVendorId vendor.
Definition kMinValidFabricIndex : Z := 1.
Definition kMaxValidFabricIndex : Z := 254.
Definition IsValidFabricIndex (fabricIndex : Z) : bool :=
  (kMinValidFabricIndex <=? fabricIndex) && (fabricIndex <=? kMaxValidFabricIndex).
Definition IsValidFabricId (fabricId : Z) : bool := negb (fabricId =? 0).
Definition IsValidEndpointId (aEndpointId : Z) : bool := negb (aEndpointId =? kInvalidEndpointId).

(** ** Lemmas *)

(** A bit mask of the low [n] bits is the remainder, the bits above it the rest. *)
Lemma land_low a n : 0 <= n -> Z.land a (Z.ones n) = a mod 2 ^ n.
Proof. apply Z.land_ones. Qed.

Lemma land_high16 a : is_uint 32 a -> Z.land a 0xFFFF0000 = a / 65536 * 65536.
Proof.
  intros Ha; change 0xFFFF0000 with (Z.shiftl (Z.ones 16) 16).
  replace (a / 65536 * 65536) with (Z.shiftl (Z.shiftr a 16) 16)
    by (rewrite Z.shiftl_mul_pow2, Z.shiftr_div_pow2 by lia; done).
  apply Z.bits_inj'; intros i Hi; rewrite Z.land_spec, !Z.shiftl_spec by lia.
  destruct (Z.ltb_spec i 16).
  - rewrite !(Z.testbit_neg_r _ (i - 16)) by lia; by rewrite andb_false_r.
  - rewrite Z.shiftr_spec by lia; replace (i - 16 + 16) with i by lia.
    destruct (Z.ltb_spec i 32).
    + rewrite Z.ones_spec_low by lia; by rewrite andb_true_r.
    + rewrite Z.ones_spec_high by lia; rewrite andb_false_r; symmetry.
      rewrite <-(Z.mod_small a (2 ^ 32)) by done; by apply Z.mod_pow2_bits_high.
Qed.

Lemma land_low16 a : Z.land a 0xFFFF = a mod 65536.
Proof. apply (land_low a 16); lia. Qed.

Lemma GetCASEAuthTagVersion_mod a : GetCASEAuthTagVersion a = a mod 65536.
Proof.
  unfold GetCASEAuthTagVersion, kTagVersionMask; change 0x000000000000FFFF with 0xFFFF.
  rewrite land_low16; unfold wrap; by rewrite Zmod_mod.
Qed.

Lemma GetCASEAuthTagIdentifier_div a :
  is_uint 32 a -> GetCASEAuthTagIdentifier a = a / 65536.
Proof.
  intros Ha; unfold GetCASEAuthTagIdentifier, kTagIdentifierMask, kTagIdentifierShift.
  change 0x00000000FFFF0000 with 0xFFFF0000; rewrite land_high16 by done.
  rewrite Z.shiftr_div_pow2 by lia; change (2 ^ 16) with 65536; rewrite Z.div_mul by lia.
  apply wrap_small; unfold is_uint in *; split; [apply Z.div_pos; lia|apply Z.div_lt_upper_bound; lia].
Qed.

(** The five ranges of node identifiers do not overlap. *)
Lemma node_id_ranges a :
  is_uint 64 a ->
  (IsOperationalNodeId a = true -> IsCASEAuthTag a = false /\ IsGroupId a = false /\ IsPAKEKeyId a = false) /\
  (IsCASEAuthTag a = true -> IsGroupId a = false /\ IsPAKEKeyId a = false) /\
  (IsPAKEKeyId a = true -> IsGroupId a = false).
Proof.
  intros _; unfold IsOperationalNodeId, IsCASEAuthTag, IsGroupId, IsPAKEKeyId, kUndefinedNodeId,
    kMaxOperationalNodeId, kMinCASEAuthTag, kMaxCASEAuthTag, kMinGroupNodeId, kMinPAKEKeyId, kMaxPAKEKeyId.
  rewrite !andb_true_iff, !andb_false_iff, !Z.leb_le, !Z.leb_gt; lia.
Qed.
