(* ===== verification/AccessControl.v ===== *)
(** * AccessControl: who may do what on a node

    Model of class [AccessControl] of src/src/access/AccessControl.{h,cpp} with
    AuthMode.h, Privilege.h, SubjectDescriptor.h and RequestPath.h.

    - class [AclDelegate] is [AccessControl::Delegate] with the [Entry] and
      [EntryIterator] objects it serves: operations on a store, an entry or
      iterator being named by a number; [AclDelegateLaws] is what it promises;
    - Module [AccessControl]: the operations, over any delegate;
    - [grants] says when an entry of the list allows a request, and
      [check_acl_sound], [check_acl_complete] that [CheckACL] decides it. *)

From S2P Require Import Prelude Encoding NodeId.

(** ** Data *)

Inductive AuthMode := AuthMode_kNone | kInternalDeviceAccess | kPase | kCase | kGroup.
#[export] Instance AuthMode_eq_dec : EqDecision AuthMode.
Proof. solve_decision. Defined.

Inductive AuxiliaryType := kSystem | kGroupcast.

(** [Privilege], an enumeration over [uint8_t] whose values are bits. *)
Definition kView : Z := 1.
Definition kProxyView : Z := 2.
Definition kOperate : Z := 4.
Definition kManage : Z := 8.
Definition kAdminister : Z := 16.
Definition kAllPrivilegeBits : Z :=
  Z.lor (Z.lor (Z.lor (Z.lor kView kProxyView) kOperate) kManage) kAdminister.
Definition IsValidPrivilege (privilege : Z) : bool :=
  negb (privilege =? 0) && (Z.land privilege kAllPrivilegeBits =? privilege) &&
  (Z.land privilege (privilege - 1) =? 0).

Record SubjectDescriptor := MkSubject {
  fabricIndex : Z;
  authMode : AuthMode;
  subject : Z;
  cats : CATValues.t;
  isCommissioning : bool }.

Inductive RequestType :=
| kRequestTypeUnknown
| kAttributeReadRequest
| kAttributeWriteRequest
| kCommandInvokeRequest
| kEventReadRequest.
#[export] Instance RequestType_eq_dec : EqDecision RequestType.
Proof. solve_decision. Defined.

Record RequestPath := MkRequestPath {
  cluster : Z;
  endpoint : Z;
  requestType : RequestType;
  entityId : option Z }.

(** [Entry::Target]; [flags] is a mask of the three bits below. *)
Record Target := MkTarget {
  tFlags : Z;
  tCluster : Z;
  tEndpoint : Z;
  tDeviceType : Z }.
Definition kCluster : Z := 1.
Definition kEndpoint : Z := 2.
Definition kDeviceType : Z := 4.
Definition has_flag (flags flag : Z) : bool := negb (Z.land flags flag =? 0).

(** ** The delegate *)

(** The delegate with the objects it serves: a store, and the [Entry] and
    [EntryIterator] objects in it, by number. *)
Class AclDelegate := {
  store : Type;
  DelegateInit : M store unit;
  DelegateFinish : M store unit;
  DelegateMaxEntriesPerFabric : M store nat;
  DelegateEntryCount : Z -> M store nat;
  DelegatePrepareEntry : nat -> M store unit;
  DelegateCreateEntry : nat -> M store nat;
  DelegateReadEntry : nat -> nat -> option Z -> M store unit;
  DelegateUpdateEntry : nat -> nat -> option Z -> M store unit;
  DelegateDeleteEntry : nat -> option Z -> M store unit;
  DelegateEntries : nat -> option Z -> M store unit;
  DelegateCheck : SubjectDescriptor -> RequestPath -> Z -> M store unit;
  IteratorNext : nat -> nat -> M store unit;
  GetAuthMode : nat -> M store AuthMode;
  GetFabricIndex : nat -> M store Z;
  GetPrivilege : nat -> M store Z;
  GetAuxiliaryType : nat -> M store AuxiliaryType;
  GetSubjectCount : nat -> M store nat;
  GetSubject : nat -> nat -> M store Z;
  GetTargetCount : nat -> M store nat;
  GetTarget : nat -> nat -> M store Target;
  HasDefaultDelegate : nat -> M store bool;
  new_entry : M store nat;
  delete_entry : nat -> M store unit;
  new_iterator : M store nat;
  delete_iterator : nat -> M store unit }.

(** [Entry entry;] in a scope: the destructor runs on every way out. *)
Definition scoped {S A B} (new : M S A) (delete : A -> M S unit) (body : A -> M S B) : M S B :=
  let! a := new in
  fun s => let (res, s) := body a s in
           let (_, s) := delete a s in (res, s).

Module AccessControl.

Inductive ChangeType := kAdded | kRemoved | kUpdated.

Section Operations.
Context `{AclDelegate}.

(** What is not modelled is a parameter: the device types of endpoints, the group
    table, the auxiliary delegate and the restriction provider, with the build
    options that include the last. *)
Context (IsDeviceTypeOnEndpoint : Z -> Z -> bool)
        (GetGroupInfo : option (Z -> Z -> result bool))
        (group_check : SubjectDescriptor -> RequestPath -> Z -> CHIP_ERROR)
        (restrictions : option ((SubjectDescriptor -> RequestPath -> CHIP_ERROR) *
                                (SubjectDescriptor -> RequestPath -> CHIP_ERROR)))
        (CHIP_CONFIG_USE_ACCESS_RESTRICTIONS : bool).

(** A call of a listener: fabric, index, the entry if it is known, the change. *)
Record Change := MkChange {
  chListener : nat;
  chFabric : Z;
  chIndex : nat;
  chEntry : option nat;
  chType : ChangeType }.

(** The object: [mDelegate] and [mGroupAuxDelegate] are set or null, the linked list
    of listeners is a list of their numbers; the calls made to listeners are recorded. *)
Record t := MkAccessControl {
  mDelegate : bool;
  mGroupAuxDelegate : bool;
  mEntryListener : list nat;
  changes : list Change;
  theStore : store }.

Definition lift {A} (m : M store A) : M t A := fun a =>
  let (res, s) := m (theStore a) in
  (res, MkAccessControl (mDelegate a) (mGroupAuxDelegate a) (mEntryListener a) (changes a) s).
Definition this : M t t := get.
Definition IsInitialized (a : t) : bool := mDelegate a.
Definition IsGroupAuxiliaryDelegateRegistered (a : t) : bool := mGroupAuxDelegate a.

Definition set_mDelegate (b : bool) (a : t) : t :=
  MkAccessControl b (mGroupAuxDelegate a) (mEntryListener a) (changes a) (theStore a).
Definition set_mGroupAuxDelegate (b : bool) (a : t) : t :=
  MkAccessControl (mDelegate a) b (mEntryListener a) (changes a) (theStore a).
Definition set_mEntryListener (l : list nat) (a : t) : t :=
  MkAccessControl (mDelegate a) (mGroupAuxDelegate a) l (changes a) (theStore a).

(** An operation that needs the delegate. *)
Definition initialized {A} (m : M t A) : M t A :=
  let! a := this in verify (IsInitialized a) CHIP_ERROR_INCORRECT_STATE ;; m.

(** ** Validity of an entry *)

Definition IsValidCaseNodeId (aNodeId : Z) : bool :=
  IsOperationalNodeId aNodeId ||
  (IsCASEAuthTag aNodeId && negb (GetCASEAuthTagVersion (CASEAuthTagFromNodeId aNodeId) =? 0)).
Definition IsValidGroupNodeId (aNodeId : Z) : bool :=
  IsGroupId aNodeId && IsValidGroupId (GroupIdFromNodeId aNodeId).

Definition valid_subject (mode : AuthMode) (s : Z) : bool :=
  (bool_decide (mode = kCase) && IsValidCaseNodeId s) ||
  (bool_decide (mode = kGroup) && IsValidGroupNodeId s).
Definition valid_target (x : Target) : bool :=
  let kHasCluster := has_flag (tFlags x) kCluster in
  let kHasEndpoint := has_flag (tFlags x) kEndpoint in
  let kHasDeviceType := has_flag (tFlags x) kDeviceType in
  (kHasCluster || kHasEndpoint || kHasDeviceType) && negb (kHasEndpoint && kHasDeviceType) &&
  (negb kHasCluster || IsValidClusterId (tCluster x)) &&
  (negb kHasEndpoint || IsValidEndpointId (tEndpoint x)) &&
  (negb kHasDeviceType || IsValidDeviceTypeId (tDeviceType x)).

(** A loop [for (i = 0; i < n; ++i)] whose body may leave with an error. *)
Fixpoint for_each {S} (i n : nat) (body : nat -> M S unit) : M S unit :=
  match n with
  | O => ret tt
  | Datatypes.S n => body i ;; for_each (Datatypes.S i) n body
  end.

(** [Entry::IsValid()]: an error, or a check that fails, leaves with [false]. *)
Definition validate (e : nat) : M store unit :=
  let! mode := GetAuthMode e in
  let! fabric := GetFabricIndex e in
  let! privilege := GetPrivilege e in
  let! subjectCount := GetSubjectCount e in
  let! targetCount := GetTargetCount e in
  let! err := attempt (GetAuxiliaryType e) in
  verify (bool_decide (err = CHIP_NO_ERROR \/ err = CHIP_ERROR_NOT_IMPLEMENTED)) err ;;
  verify (negb (fabric =? kUndefinedFabricIndex)) CHIP_NO_ERROR ;;
  verify (bool_decide (mode = kCase) ||
          (bool_decide (mode = kGroup) && negb (privilege =? kAdminister))) CHIP_NO_ERROR ;;
  for_each 0 subjectCount (fun i =>
    let! s := GetSubject e i in verify (valid_subject mode s) CHIP_NO_ERROR) ;;
  for_each 0 targetCount (fun i =>
    let! x := GetTarget e i in verify (valid_target x) CHIP_NO_ERROR).
Definition IsValid (e : nat) : M store bool := fun s =>
  match validate e s with
  | (Ok _, s) => (Ok true, s)
  | (Err PROGRAM_ABORT, s) => (Err PROGRAM_ABORT, s)
  | (Err UNDEFINED_BEHAVIOUR, s) => (Err UNDEFINED_BEHAVIOUR, s)
  | (Err _, s) => (Ok false, s)
  end.

(** ** The list of entries *)

Definition Init : M t unit :=
  let! a := this in
  verify (negb (IsInitialized a)) CHIP_ERROR_INCORRECT_STATE ;;
  lift DelegateInit ;;
  modify (set_mDelegate true).

Definition UnregisterGroupAuxiliaryDelegate : M t unit := modify (set_mGroupAuxDelegate false).
Definition RegisterGroupAuxiliaryDelegate : M t unit :=
  let! a := this in
  verify (negb (mGroupAuxDelegate a)) CHIP_ERROR_INCORRECT_STATE ;;
  modify (set_mGroupAuxDelegate true).

Definition Finish : M t unit :=
  let! a := this in
  when (IsInitialized a)
    (lift DelegateFinish ;; modify (set_mDelegate false) ;;
     when (IsGroupAuxiliaryDelegateRegistered a) UnregisterGroupAuxiliaryDelegate).

Definition GetMaxEntriesPerFabric : M t nat := initialized (lift DelegateMaxEntriesPerFabric).
Definition GetEntryCount (fabric : Z) : M t nat := initialized (lift (DelegateEntryCount fabric)).
Definition PrepareEntry (e : nat) : M t unit := initialized (lift (DelegatePrepareEntry e)).
Definition ReadEntry (fabric : Z) (index e : nat) : M t unit :=
  initialized (lift (DelegateReadEntry index e (Some fabric))).
Definition Entries (fabric : Z) (it : nat) : M t unit :=
  initialized (lift (DelegateEntries it (Some fabric))).

Definition AddEntryListener (listener : nat) : M t unit :=
  modify (fun a => if decide (listener ∈ mEntryListener a) then a
                   else set_mEntryListener (mEntryListener a ++ [listener]) a).
Definition RemoveEntryListener (listener : nat) : M t unit :=
  modify (fun a => set_mEntryListener (filter (fun l => l <> listener) (mEntryListener a)) a).

Definition NotifyEntryChanged (fabric : Z) (index : nat) (e : option nat) (changeType : ChangeType)
    : M t unit :=
  modify (fun a => MkAccessControl (mDelegate a) (mGroupAuxDelegate a) (mEntryListener a)
    (changes a ++ ((fun l => MkChange l fabric index e changeType) <$> mEntryListener a)) (theStore a)).

(** [CreateEntry(subjectDescriptor, fabric, index, entry)]; the value is [*index]. *)
Definition CreateEntry (fabric : Z) (e : nat) : M t nat :=
  initialized (
    let! count := lift (DelegateEntryCount fabric) in
    let! maxCount := lift DelegateMaxEntriesPerFabric in
    verify (count + 1 <=? maxCount)%nat CHIP_ERROR_BUFFER_TOO_SMALL ;;
    let! valid := lift (IsValid e) in
    verify valid CHIP_ERROR_INVALID_ARGUMENT ;;
    let! i := lift (DelegateCreateEntry e) in
    NotifyEntryChanged fabric i (Some e) kAdded ;;
    ret i).

Definition UpdateEntry (fabric : Z) (index e : nat) : M t unit :=
  initialized (
    let! valid := lift (IsValid e) in
    verify valid CHIP_ERROR_INVALID_ARGUMENT ;;
    lift (DelegateUpdateEntry index e (Some fabric)) ;;
    NotifyEntryChanged fabric index (Some e) kUpdated).

Definition DeleteEntry (fabric : Z) (index : nat) : M t unit :=
  initialized (
    scoped (lift new_entry) (fun e => lift (delete_entry e)) (fun e =>
      let! a := this in
      let! p := (match mEntryListener a with
                 | [] => ret None
                 | _ :: _ => let! err := attempt (ReadEntry fabric index e) in
                             ret (if decide (err = CHIP_NO_ERROR) then Some e else None)
                 end) in
      lift (DelegateDeleteEntry index (Some fabric)) ;;
      let! p := (match p with
                 | None => ret None
                 | Some e => let! default := lift (HasDefaultDelegate e) in
                             ret (if default : bool then None else Some e)
                 end) in
      NotifyEntryChanged fabric index p kRemoved)).

(** The loop of [DeleteAllEntriesForFabric]; the first error is kept. *)
Fixpoint delete_last (fabric : Z) (aclCount : nat) (stickyError : CHIP_ERROR) : M t unit :=
  match aclCount with
  | O => if decide (stickyError = CHIP_NO_ERROR) then ret tt else fail stickyError
  | S aclCount =>
      let! err := attempt (DeleteEntry fabric aclCount) in
      delete_last fabric aclCount
        (if decide (stickyError = CHIP_NO_ERROR) then err else stickyError)
  end.
Definition DeleteAllEntriesForFabric (fabric : Z) : M t unit :=
  initialized (fun a =>
    match GetEntryCount fabric a with
    | (Ok aclCount, a) => delete_last fabric aclCount CHIP_NO_ERROR a
    | (Err PROGRAM_ABORT, a) => (Err PROGRAM_ABORT, a)
    | (Err UNDEFINED_BEHAVIOUR, a) => (Err UNDEFINED_BEHAVIOUR, a)
    | (Err _, a) => (Ok tt, a)
    end).

(** ** The check *)

Definition CheckRequestPrivilegeAgainstEntryPrivilege (requestPrivilege entryPrivilege : Z) : bool :=
  if entryPrivilege =? kView then requestPrivilege =? kView
  else if entryPrivilege =? kProxyView then
    (requestPrivilege =? kProxyView) || (requestPrivilege =? kView)
  else if entryPrivilege =? kOperate then
    (requestPrivilege =? kOperate) || (requestPrivilege =? kView)
  else if entryPrivilege =? kManage then
    (requestPrivilege =? kManage) || (requestPrivilege =? kOperate) || (requestPrivilege =? kView)
  else if entryPrivilege =? kAdminister then
    (requestPrivilege =? kAdminister) || (requestPrivilege =? kManage) ||
    (requestPrivilege =? kOperate) || (requestPrivilege =? kView) ||
    (requestPrivilege =? kProxyView)
  else false.

(** Whether the subject [s] of an entry with [mode] is that of the descriptor; an
    error when the subject does not go with the mode. *)
Definition match_subject (sd : SubjectDescriptor) (mode : AuthMode) (s : Z) : result bool :=
  let only m b := if decide (mode = m) then Ok b else Err CHIP_ERROR_INCORRECT_STATE in
  if IsOperationalNodeId s then only kCase (s =? subject sd)
  else if IsCASEAuthTag s then only kCase (CATValues.CheckSubjectAgainstCATs s (cats sd))
  else if IsGroupId s then only kGroup (s =? subject sd)
  else Err CHIP_ERROR_INCORRECT_STATE.

(** The loop over the subjects: whether one of those from [i] on matches. *)
Fixpoint match_subjects (sd : SubjectDescriptor) (mode : AuthMode) (e i n : nat) : M store bool :=
  match n with
  | O => ret false
  | S n =>
      let! s := GetSubject e i in
      match match_subject sd mode s with
      | Err err => fail err
      | Ok true => ret true
      | Ok false => match_subjects sd mode e (S i) n
      end
  end.

Definition match_target (rp : RequestPath) (x : Target) : bool :=
  negb (has_flag (tFlags x) kCluster && negb (tCluster x =? cluster rp)) &&
  negb (has_flag (tFlags x) kEndpoint && negb (tEndpoint x =? endpoint rp)) &&
  negb (has_flag (tFlags x) kDeviceType && negb (IsDeviceTypeOnEndpoint (tDeviceType x) (endpoint rp))).

Fixpoint match_targets (rp : RequestPath) (e i n : nat) : M store bool :=
  match n with
  | O => ret false
  | S n =>
      let! x := GetTarget e i in
      if match_target rp x then ret true else match_targets rp e (S i) n
  end.

(** The body of the loop over the entries: whether the entry allows the request. *)
Definition check_entry (sd : SubjectDescriptor) (rp : RequestPath) (requestPrivilege : Z) (e : nat)
    : M store bool :=
  let! mode := GetAuthMode e in
  verify (bool_decide (mode = kCase \/ mode = kGroup)) CHIP_ERROR_INCORRECT_STATE ;;
  if decide (mode <> authMode sd) then ret false
  else
    let! privilege := GetPrivilege e in
    if negb (CheckRequestPrivilegeAgainstEntryPrivilege requestPrivilege privilege) then ret false
    else
      let! subjectCount := GetSubjectCount e in
      let! subjectMatched :=
        (if (0 <? subjectCount)%nat then match_subjects sd mode e 0 subjectCount else ret true) in
      if negb subjectMatched then ret false
      else
        let! targetCount := GetTargetCount e in
        if (0 <? targetCount)%nat then match_targets rp e 0 targetCount else ret true.

(** The loop over the entries; the fuel is a bound on their number. *)
Fixpoint check_entries (fuel : nat) (sd : SubjectDescriptor) (rp : RequestPath) (requestPrivilege : Z)
    (it e : nat) : M store unit :=
  match fuel with
  | O => fail UNDEFINED_BEHAVIOUR
  | S fuel =>
      let! err := attempt (IteratorNext it e) in
      if decide (err = CHIP_NO_ERROR) then
        let! allowed := check_entry sd rp requestPrivilege e in
        if allowed : bool then ret tt else check_entries fuel sd rp requestPrivilege it e
      else fail CHIP_ERROR_ACCESS_DENIED
  end.

Definition CheckACL (fuel : nat) (sd : SubjectDescriptor) (rp : RequestPath) (requestPrivilege : Z)
    : M store unit :=
  let! result := attempt (DelegateCheck sd rp requestPrivilege) in
  if decide (result <> CHIP_ERROR_NOT_IMPLEMENTED) then
    if decide (result = CHIP_NO_ERROR) then ret tt else fail result
  else if decide (authMode sd = kPase) then ret tt
  else
    scoped new_iterator delete_iterator (fun it =>
      DelegateEntries it (Some (fabricIndex sd)) ;;
      scoped new_entry delete_entry (fun e => check_entries fuel sd rp requestPrivilege it e)).

Definition CheckARL (sd : SubjectDescriptor) (rp : RequestPath) : CHIP_ERROR :=
  if decide (requestType rp = kRequestTypeUnknown) then CHIP_ERROR_INVALID_ARGUMENT
  else
    match restrictions with
    | None => CHIP_NO_ERROR
    | Some (for_commissioning, check) =>
        if isCommissioning sd then for_commissioning sd rp else check sd rp
    end.

Definition Check (fuel : nat) (sd : SubjectDescriptor) (rp : RequestPath) (requestPrivilege : Z)
    : M t unit :=
  initialized (
    verify (IsValidPrivilege requestPrivilege) CHIP_ERROR_INVALID_ARGUMENT ;;
    let! result := attempt (lift (CheckACL fuel sd rp requestPrivilege)) in
    let result :=
      if decide (result = CHIP_NO_ERROR) then
        if CHIP_CONFIG_USE_ACCESS_RESTRICTIONS then CheckARL sd rp else CHIP_NO_ERROR
      else result in
    let answer err := if decide (err = CHIP_NO_ERROR) then ret tt else fail err in
    if decide (result <> CHIP_NO_ERROR /\ authMode sd = kGroup /\
               requestType rp = kCommandInvokeRequest /\ requestPrivilege = kOperate /\
               IsGroupId (subject sd) = true)
    then
      match GetGroupInfo with
      | None => answer result
      | Some GetGroupInfo =>
          match GetGroupInfo (fabricIndex sd) (GroupIdFromNodeId (subject sd)) with
          | Err err => fail err
          | Ok HasAuxiliaryACL =>
              let! a := this in
              if HasAuxiliaryACL && IsGroupAuxiliaryDelegateRegistered a
              then answer (group_check sd rp requestPrivilege)
              else answer result
          end
      end
    else answer result).

End Operations.
End AccessControl.

(** ** What an entry grants *)

(** The content of an entry. *)
Record AclEntry := MkAclEntry {
  eFabric : Z;
  eMode : AuthMode;
  ePrivilege : Z;
  eSubjects : list Z;
  eTargets : list Target }.

(** The privileges an entry with privilege [p] gives. *)
Definition implied_privileges (p : Z) : list Z :=
  if p =? kView then [kView]
  else if p =? kProxyView then [kProxyView; kView]
  else if p =? kOperate then [kOperate; kView]
  else if p =? kManage then [kManage; kOperate; kView]
  else if p =? kAdminister then [kAdminister; kManage; kOperate; kProxyView; kView]
  else [].

(** A tag of the certificate covers a tag of the entry: the same identifier, in the
    version of the entry or a later one. *)
Definition cat_covers (s cat : Z) : Prop :=
  let tag := CASEAuthTagFromNodeId s in
  cat <> kUndefinedCAT /\ GetCASEAuthTagIdentifier cat = GetCASEAuthTagIdentifier tag /\
  0 < GetCASEAuthTagVersion tag <= GetCASEAuthTagVersion cat.

Definition subject_matches (sd : SubjectDescriptor) (s : Z) : Prop :=
  if IsCASEAuthTag s then Exists (cat_covers s) (cats sd) else s = subject sd.

Definition target_matches (IsDeviceTypeOnEndpoint : Z -> Z -> bool) (rp : RequestPath) (x : Target) : Prop :=
  (has_flag (tFlags x) kCluster = true -> tCluster x = cluster rp) /\
  (has_flag (tFlags x) kEndpoint = true -> tEndpoint x = endpoint rp) /\
  (has_flag (tFlags x) kDeviceType = true ->
   IsDeviceTypeOnEndpoint (tDeviceType x) (endpoint rp) = true).

Definition any_or {A} (P : A -> Prop) (l : list A) : Prop := l = [] \/ Exists P l.

Definition grants (resolver : Z -> Z -> bool) (sd : SubjectDescriptor) (rp : RequestPath)
    (requestPrivilege : Z) (d : AclEntry) : Prop :=
  eMode d = authMode sd /\ requestPrivilege ∈ implied_privileges (ePrivilege d) /\
  any_or (subject_matches sd) (eSubjects d) /\ any_or (target_matches resolver rp) (eTargets d).

(** A valid entry, as [IsValid] wants it; a [NodeId] has 64 bits. *)
Definition entry_valid (d : AclEntry) : Prop :=
  Forall (is_uint 64) (eSubjects d) /\ eFabric d <> kUndefinedFabricIndex /\
  (eMode d = kCase \/ (eMode d = kGroup /\ ePrivilege d <> kAdminister)) /\
  Forall (fun s => AccessControl.valid_subject (eMode d) s = true) (eSubjects d) /\
  Forall (fun x => AccessControl.valid_target x = true) (eTargets d).

(** ** What a delegate promises *)

Class AclDelegateLaws `{AclDelegate} := {
  store_ok : store -> Prop;
  entries_of : Z -> store -> list AclEntry;
  reads : nat -> AclEntry -> store -> Prop;
  iterates : nat -> list AclEntry -> store -> Prop;
  entry_object : nat -> store -> Prop;
  free : store -> Prop;
  can_iterate : store -> Prop;
  can_read : nat -> store -> Prop;
  law_check sd rp p s : DelegateCheck sd rp p s = (Err CHIP_ERROR_NOT_IMPLEMENTED, s);
  law_begin f s : store_ok s ->
    exists it s1 r s2, new_iterator s = (Ok it, s1) /\ DelegateEntries it (Some f) s1 = (r, s2) /\
      (r = Ok tt -> iterates it (entries_of f s) s2) /\
      (r = Ok tt \/ r = Err CHIP_ERROR_BUFFER_TOO_SMALL) /\
      (free s -> r = Ok tt /\ can_iterate s2);
  law_entry it l s : iterates it l s ->
    exists e s', new_entry s = (Ok e, s') /\ iterates it l s' /\ entry_object e s' /\
      (can_iterate s -> can_read e s');
  law_next it e l s : iterates it l s -> entry_object e s ->
    exists r s', IteratorNext it e s = (r, s') /\
      match r with
      | Ok _ => exists d l', l = d :: l' /\ reads e d s' /\ iterates it l' s' /\ entry_object e s'
      | Err err => (err = CHIP_ERROR_SENTINEL /\ l = []) \/ err = CHIP_ERROR_BUFFER_TOO_SMALL
      end /\
      (can_read e s -> can_read e s' /\ r <> Err CHIP_ERROR_BUFFER_TOO_SMALL);
  law_mode e d s : reads e d s -> GetAuthMode e s = (Ok (eMode d), s);
  law_fabric e d s : reads e d s -> GetFabricIndex e s = (Ok (eFabric d), s);
  law_privilege e d s : reads e d s -> GetPrivilege e s = (Ok (ePrivilege d), s);
  law_auxiliary e d s : reads e d s ->
    attempt (GetAuxiliaryType e) s = (Ok CHIP_ERROR_NOT_IMPLEMENTED, s);
  law_subjects e d s : reads e d s -> GetSubjectCount e s = (Ok (length (eSubjects d)), s);
  law_subject e d s i x : reads e d s -> eSubjects d !! i = Some x -> GetSubject e i s = (Ok x, s);
  law_targets e d s : reads e d s -> GetTargetCount e s = (Ok (length (eTargets d)), s);
  law_target e d s i x : reads e d s -> eTargets d !! i = Some x -> GetTarget e i s = (Ok x, s) }.

(** ** [CheckACL] decides [grants] *)

Lemma implied_privileges_spec r p :
  AccessControl.CheckRequestPrivilegeAgainstEntryPrivilege r p = true <-> r ∈ implied_privileges p.
Proof.
  unfold AccessControl.CheckRequestPrivilegeAgainstEntryPrivilege, implied_privileges.
  repeat case_match; rewrite ?orb_true_iff, ?Z.eqb_eq, ?elem_of_cons, ?elem_of_nil; tauto || naive_solver.
Qed.

Lemma existsb_Exists {A} (f : A -> bool) (P : A -> Prop) l :
  (forall x, f x = true <-> P x) -> existsb f l = true <-> Exists P l.
Proof.
  intros Hf; induction l as [|a l IH]; [by rewrite Exists_nil|].
  by rewrite Exists_cons, <-IH, <-Hf; cbn [existsb]; rewrite orb_true_iff.
Qed.

Lemma CheckSubjectAgainstCATs_spec s values :
  IsCASEAuthTag s = true ->
  CATValues.CheckSubjectAgainstCATs s values = true <-> Exists (cat_covers s) values.
Proof.
  intros Hs; unfold CATValues.CheckSubjectAgainstCATs; rewrite Hs; cbn [negb].
  apply existsb_Exists; intros cat; unfold CATValues.present, cat_covers.
  rewrite !andb_true_iff, negb_true_iff, Z.eqb_neq, Z.eqb_eq, Z.ltb_lt, Z.leb_le; tauto.
Qed.

Section Matching.
Context (resolver : Z -> Z -> bool).

Lemma match_target_spec rp x :
  AccessControl.match_target resolver rp x = true <-> target_matches resolver rp x.
Proof.
  unfold AccessControl.match_target, target_matches.
  rewrite !andb_true_iff, !negb_true_iff, !andb_false_iff, !negb_false_iff, !Z.eqb_eq.
  destruct (has_flag (tFlags x) kCluster), (has_flag (tFlags x) kEndpoint), (has_flag (tFlags x) kDeviceType);
    naive_solver.
Qed.

(** A subject that goes with the mode of its entry. *)
Lemma match_subject_valid sd mode s :
  is_uint 64 s -> AccessControl.valid_subject mode s = true ->
  exists b, AccessControl.match_subject sd mode s = Ok b /\ (b = true <-> subject_matches sd s).
Proof.
  intros Hs; destruct (node_id_ranges s Hs) as (Ho & Hc & _).
  unfold AccessControl.valid_subject, AccessControl.IsValidCaseNodeId, AccessControl.IsValidGroupNodeId.
  rewrite orb_true_iff, !andb_true_iff, !bool_decide_eq_true, orb_true_iff, andb_true_iff.
  unfold AccessControl.match_subject, subject_matches; intros [[-> [Hop|[Hcat _]]]|[-> [Hg _]]].
  - destruct (Ho Hop) as (-> & _); rewrite Hop, decide_True by done; eexists; by rewrite Z.eqb_eq.
  - assert (IsOperationalNodeId s = false) as ->.
    { destruct (IsOperationalNodeId s) eqn:E; [|done]; destruct (Ho eq_refl); congruence. }
    rewrite Hcat, decide_True by done; eexists; split; [done|]; by apply CheckSubjectAgainstCATs_spec.
  - assert (IsOperationalNodeId s = false) as ->.
    { destruct (IsOperationalNodeId s) eqn:E; [|done]; destruct (Ho eq_refl) as (_ & ? & _); congruence. }
    assert (IsCASEAuthTag s = false) as ->.
    { destruct (IsCASEAuthTag s) eqn:E; [|done]; destruct (Hc eq_refl); congruence. }
    rewrite Hg, decide_True by done; eexists; by rewrite Z.eqb_eq.
Qed.

(** A subject that matches, whatever its entry is. *)
Lemma match_subject_sound sd mode s :
  AccessControl.match_subject sd mode s = Ok true -> subject_matches sd s.
Proof.
  unfold AccessControl.match_subject, subject_matches.
  destruct (IsOperationalNodeId s) eqn:Ho.
  - destruct (IsCASEAuthTag s) eqn:Hc.
    + exfalso; unfold IsOperationalNodeId, IsCASEAuthTag, kMaxOperationalNodeId, kMinCASEAuthTag in *.
      apply andb_prop in Ho as [_ Ho%Z.leb_le], Hc as [Hc%Z.leb_le _]; lia.
    + destruct (decide _); [|done]; by intros [= ?%Z.eqb_eq].
  - destruct (IsCASEAuthTag s) eqn:Hc.
    + destruct (decide _); [|done]; intros [= Hm]; by apply CheckSubjectAgainstCATs_spec.
    + destruct (IsGroupId s); [|done]; destruct (decide _); [|done]; by intros [= ?%Z.eqb_eq].
Qed.

End Matching.

Section Check.
Context `{AclDelegateLaws} (resolver : Z -> Z -> bool).
Implicit Types (s : store) (e it : nat) (d : AclEntry).

Lemma match_subjects_run sd mode e s i l :
  (forall j x, l !! j = Some x -> GetSubject e (i + j) s = (Ok x, s)) ->
  exists r, AccessControl.match_subjects sd mode e i (length l) s = (r, s) /\
    (forall err, r = Err err -> err = CHIP_ERROR_INCORRECT_STATE) /\
    (r = Ok true -> Exists (subject_matches sd) l) /\
    (Forall (fun x => is_uint 64 x /\ AccessControl.valid_subject mode x = true) l ->
     exists b, r = Ok b /\ (b = true <-> Exists (subject_matches sd) l)).
Proof.
  revert i; induction l as [|x l IH]; intros i Hget; cbn [length AccessControl.match_subjects].
  { exists (Ok false); splits; [done|done|done|]; intros _; exists false; by rewrite Exists_nil. }
  pose proof (Hget 0%nat x eq_refl) as Hx; rewrite Nat.add_0_r in Hx; rewrite (bind_ok _ _ _ _ _ Hx).
  destruct (IH (S i)) as (r & Hr & He & Hs & Hc).
  { intros j y Hy; by replace (S i + j)%nat with (i + S j)%nat by lia; apply Hget. }
  destruct (AccessControl.match_subject sd mode x) as [[]|err] eqn:Hm.
  - exists (Ok true); splits; [done|done| |].
    + intros _; left; by eapply match_subject_sound.
    + intros _; exists true; split; [done|]; split; [|done]; left; by eapply match_subject_sound.
  - exists r; splits; [done|done|by right; auto|].
    intros [[Hx1 Hx2] Hl]%Forall_cons_1; destruct (Hc Hl) as (b & -> & Hb); exists b; split; [done|].
    destruct (match_subject_valid sd mode x Hx1 Hx2) as (b' & Hm' & Hb'); rewrite Hm in Hm'.
    injection Hm' as <-; rewrite Exists_cons, <-Hb, <-Hb'; naive_solver.
  - exists (Err err); splits; [done| |done|].
    { intros ? [= <-]; clear -Hm; unfold AccessControl.match_subject in Hm.
      repeat case_match; congruence. }
    intros [[Hx1 Hx2] _]%Forall_cons_1.
    destruct (match_subject_valid sd mode x Hx1 Hx2) as (b & Hm' & _); congruence.
Qed.

Lemma match_targets_run rp e s i l :
  (forall j x, l !! j = Some x -> GetTarget e (i + j) s = (Ok x, s)) ->
  exists b, AccessControl.match_targets resolver rp e i (length l) s = (Ok b, s) /\
    (b = true <-> Exists (target_matches resolver rp) l).
Proof.
  revert i; induction l as [|x l IH]; intros i Hget; cbn [length AccessControl.match_targets].
  { exists false; by rewrite Exists_nil. }
  pose proof (Hget 0%nat x eq_refl) as Hx; rewrite Nat.add_0_r in Hx; rewrite (bind_ok _ _ _ _ _ Hx).
  destruct (IH (S i)) as (b & Hr & Hb).
  { intros j y Hy; by replace (S i + j)%nat with (i + S j)%nat by lia; apply Hget. }
  pose proof (match_target_spec resolver rp x) as Hm.
  destruct (AccessControl.match_target resolver rp x).
  - exists true; split; [done|]; rewrite Exists_cons; tauto.
  - exists b; split; [done|]; rewrite Exists_cons, <-Hb; intuition congruence.
Qed.

Lemma any_or_count {A} (P : A -> Prop) l : (0 <? length l)%nat = false -> any_or P l.
Proof. destruct l; [by left|done]. Qed.

Lemma any_or_exists {A} (P : A -> Prop) l : (0 <? length l)%nat = true -> any_or P l <-> Exists P l.
Proof. unfold any_or; destruct l; [done|]; naive_solver. Qed.

(** A list that is empty matches everything. *)
Lemma subjects_run sd e d s :
  reads e d s ->
  let n := length (eSubjects d) in
  exists r, (if (0 <? n)%nat then AccessControl.match_subjects sd (eMode d) e 0 n else ret true) s = (r, s) /\
    (forall err, r = Err err -> err = CHIP_ERROR_INCORRECT_STATE) /\
    (r = Ok true -> any_or (subject_matches sd) (eSubjects d)) /\
    (entry_valid d -> exists b, r = Ok b /\ (b = true <-> any_or (subject_matches sd) (eSubjects d))).
Proof.
  intros Hr; cbv zeta; destruct (0 <? length (eSubjects d))%nat eqn:Hn.
  - destruct (match_subjects_run sd (eMode d) e s 0 (eSubjects d)) as (r & Hrun & He & H1 & H2).
    { intros j x Hx; by apply (law_subject _ _ _ _ _ Hr). }
    exists r; splits; [done|done|by right; auto|].
    intros (Hsz & _ & _ & Hv & _); destruct H2 as (b & -> & Hb); [by apply Forall_and|].
    exists b; split; [done|]; by rewrite any_or_exists.
  - exists (Ok true); splits; [done|done|intros _; by apply any_or_count|].
    intros _; exists true; split; [done|]; split; [intros _; by apply any_or_count|done].
Qed.

Lemma targets_run rp e d s :
  reads e d s ->
  let n := length (eTargets d) in
  exists b, (if (0 <? n)%nat then AccessControl.match_targets resolver rp e 0 n else ret true) s = (Ok b, s) /\
    (b = true <-> any_or (target_matches resolver rp) (eTargets d)).
Proof.
  intros Hr; cbv zeta; destruct (0 <? length (eTargets d))%nat eqn:Hn.
  - destruct (match_targets_run rp e s 0 (eTargets d)) as (b & Hrun & Hb).
    { intros j x Hx; by apply (law_target _ _ _ _ _ Hr). }
    exists b; split; [done|]; by rewrite any_or_exists.
  - exists true; split; [done|]; split; [intros _; by apply any_or_count|done].
Qed.

(** The loop body on one entry: what it allows is granted, and on a valid entry it
    decides that. *)
Definition decides (sd : SubjectDescriptor) (rp : RequestPath) (p : Z) (d : AclEntry) (r : result bool) : Prop :=
  (forall err, r = Err err -> err = CHIP_ERROR_INCORRECT_STATE) /\
  (r = Ok true -> grants resolver sd rp p d) /\
  (entry_valid d -> exists b, r = Ok b /\ (b = true <-> grants resolver sd rp p d)).

Lemma decides_no sd rp p d : ~ grants resolver sd rp p d -> decides sd rp p d (Ok false).
Proof. intros Hn; unfold decides; splits; [done|done|]; intros _; exists false; split; [done|]; split; [done|tauto]. Qed.

Lemma decides_error sd rp p d :
  ~ entry_valid d -> decides sd rp p d (Err CHIP_ERROR_INCORRECT_STATE).
Proof. intros Hn; unfold decides; splits; [by intros ? [= <-]|done|done]. Qed.

Lemma check_entry_run sd rp p e d s :
  reads e d s ->
  exists r, AccessControl.check_entry resolver sd rp p e s = (r, s) /\ decides sd rp p d r.
Proof.
  intros Hr; unfold AccessControl.check_entry; rewrite (bind_ok _ _ _ _ _ (law_mode _ _ _ Hr)).
  destruct (bool_decide (eMode d = kCase \/ eMode d = kGroup)) eqn:Hmode; cbn [verify].
  2: { eexists; split; [reflexivity|]; apply decides_error; apply bool_decide_eq_false in Hmode.
       intros (_ & _ & Hv & _); naive_solver. }
  unfold bind at 1, ret at 1; destruct (decide (eMode d <> authMode sd)) as [Hne|Heq].
  { eexists; split; [reflexivity|]; apply decides_no; intros (? & _); done. }
  assert (Hd : eMode d = authMode sd) by (by destruct (decide (eMode d = authMode sd))).
  rewrite (bind_ok _ _ _ _ _ (law_privilege _ _ _ Hr)); pose proof (implied_privileges_spec p (ePrivilege d)) as Hp.
  destruct (AccessControl.CheckRequestPrivilegeAgainstEntryPrivilege p (ePrivilege d)); cbn [negb].
  2: { eexists; split; [reflexivity|]; apply decides_no; intros (_ & Hi & _); by apply Hp in Hi. }
  rewrite (bind_ok _ _ _ _ _ (law_subjects _ _ _ Hr)).
  destruct (subjects_run sd e d s Hr) as ([[]|err] & Hrun & He & Hs1 & Hs2).
  - rewrite (bind_ok _ _ _ _ _ Hrun); cbn [negb]; rewrite (bind_ok _ _ _ _ _ (law_targets _ _ _ Hr)).
    destruct (targets_run rp e d s Hr) as (b & -> & Hb); exists (Ok b); split; [done|].
    assert (Hg : b = true <-> grants resolver sd rp p d) by (unfold grants; naive_solver).
    unfold decides; splits; [done|intros [= Ht]; by apply Hg|]; intros _; by exists b.
  - rewrite (bind_ok _ _ _ _ _ Hrun); cbn [negb]; eexists; split; [reflexivity|].
    unfold decides; splits; [done|done|]; intros Hv; destruct (Hs2 Hv) as (b & [= <-] & Hb).
    exists false; split; [done|]; split; [done|]; intros (_ & _ & Ha & _); by apply Hb.
  - rewrite (bind_err _ _ _ _ _ Hrun); eexists; split; [reflexivity|]; rewrite (He err eq_refl); apply decides_error.
    intros Hv; by destruct (Hs2 Hv) as (b & ? & _).
Qed.

(** The loop over entries [l] that are still to come. *)
Lemma check_entries_run sd rp p it e l s fuel :
  iterates it l s -> entry_object e s -> (length l < fuel)%nat ->
  exists r s', AccessControl.check_entries resolver fuel sd rp p it e s = (r, s') /\
    r <> Err UNDEFINED_BEHAVIOUR /\ r <> Err PROGRAM_ABORT /\ r <> Err CHIP_NO_ERROR /\
    (r = Ok tt -> Exists (grants resolver sd rp p) l) /\
    (can_read e s -> Forall entry_valid l ->
     (r = Ok tt /\ Exists (grants resolver sd rp p) l) \/
     (r = Err CHIP_ERROR_ACCESS_DENIED /\ ~ Exists (grants resolver sd rp p) l)).
Proof.
  revert l s; induction fuel as [|fuel IH]; intros l s Hit Hob Hf; [lia|].
  cbn [AccessControl.check_entries].
  destruct (law_next it e l s Hit Hob) as (r & s1 & Hn & Hr & Hcr); unfold attempt, bind at 1; rewrite Hn.
  destruct r as [[]|err].
  - destruct Hr as (d & l' & -> & Hrd & Hit' & Hob'); rewrite decide_True by done.
    destruct (check_entry_run sd rp p e d s1 Hrd) as (r & Hc & He & Hd1 & Hd2).
    destruct r as [[]|err].
    + rewrite (bind_ok _ _ _ _ _ Hc); eexists _, s1; splits; [reflexivity|done..|by left; auto|].
      intros _ _; left; split; [done|]; left; by apply Hd1.
    + rewrite (bind_ok _ _ _ _ _ Hc).
      destruct (IH l' s1 Hit' Hob') as (r' & s2 & Hrun & N1 & N2 & N3 & H1 & H2); [cbn [length] in Hf; lia|].
      exists r', s2; splits; [done..|by right; auto|]; intros Hcan [Hv Hvs]%Forall_cons_1.
      destruct (Hcr Hcan) as [Hcan' _]; destruct (Hd2 Hv) as (b & [= <-] & Hb).
      rewrite Exists_cons; destruct (H2 Hcan' Hvs) as [[-> ?]|[-> ?]]; [left; auto|right].
      split; [done|]; intros [Hg%Hb|]; done.
    + rewrite (bind_err _ _ _ _ _ Hc); rewrite (He err eq_refl); eexists _, s1; splits; try done.
      intros _ [Hv _]%Forall_cons_1; by destruct (Hd2 Hv) as (b & ? & _).
  - destruct Hr as [[-> ->]| -> ]; cbn; eexists _, s1; splits; try (reflexivity || done).
    + intros _ _; right; split; [done|]; intros Hx; by apply Exists_nil in Hx.
    + intros Hcan; by destruct (Hcr Hcan).
Qed.

(** [CheckACL] never stops the program; it allows only what PASE or an entry
    grants, and with free pools and valid entries it decides that. *)
Lemma CheckACL_run sd rp p fuel s :
  store_ok s -> (length (entries_of (fabricIndex sd) s) < fuel)%nat ->
  let granted := authMode sd = kPase \/ Exists (grants resolver sd rp p) (entries_of (fabricIndex sd) s) in
  exists r s', AccessControl.CheckACL resolver fuel sd rp p s = (r, s') /\
    r <> Err UNDEFINED_BEHAVIOUR /\ r <> Err PROGRAM_ABORT /\ r <> Err CHIP_NO_ERROR /\ (r = Ok tt -> granted) /\
    (free s -> Forall entry_valid (entries_of (fabricIndex sd) s) ->
     (r = Ok tt /\ granted) \/ (r = Err CHIP_ERROR_ACCESS_DENIED /\ ~ granted)).
Proof.
  intros Hs Hf granted; unfold AccessControl.CheckACL.
  unfold attempt, bind at 1; rewrite law_check; cbn.
  rewrite (decide_False (P := CHIP_ERROR_NOT_IMPLEMENTED <> CHIP_ERROR_NOT_IMPLEMENTED)) by auto.
  destruct (decide (authMode sd = kPase)) as [Hp|Hp].
  { exists (Ok tt), s; splits; try done; [by left|]; intros _ _; left; split; [done|by left]. }
  destruct (law_begin (fabricIndex sd) s Hs) as (it & s1 & r1 & s2 & E1 & E2 & Hit & Hr1 & Hfree).
  unfold scoped at 1; rewrite (bind_ok _ _ _ _ _ E1); destruct Hr1 as [->| ->].
  - rewrite (bind_ok _ _ _ _ _ E2).
    destruct (law_entry it _ s2 (Hit eq_refl)) as (e & s3 & E3 & Hit3 & Hob & Hcan).
    unfold scoped; rewrite (bind_ok _ _ _ _ _ E3).
    destruct (check_entries_run sd rp p it e _ s3 fuel Hit3 Hob Hf) as (r & s4 & -> & N1 & N2 & N3 & H1 & H2).
    destruct (delete_entry e s4) as [? s5]; destruct (delete_iterator it s5) as [? s6].
    exists r, s6; splits; try done; [by right; auto|]; intros Hfr Hv.
    destruct (Hfree Hfr) as [_ Hci]; destruct (H2 (Hcan Hci) Hv) as [[-> ?]|[-> ?]]; [left|right]; split; auto.
    + by right.
    + by intros [?|?].
  - rewrite (bind_err _ _ _ _ _ E2); destruct (delete_iterator it s2) as [? s3].
    eexists _, s3; splits; try done; intros Hfr; by destruct (Hfree Hfr).
Qed.


(** ** [IsValid] decides [entry_valid] *)

Lemma for_each_verify {A} (getter : nat -> M store A) (f : A -> bool) s (i : nat) l :
  (forall (j : nat) x, l !! j = Some x -> getter (i + j)%nat s = (Ok x, s)) ->
  AccessControl.for_each i (length l) (fun i => let! x := getter i in verify (f x) CHIP_NO_ERROR) s
  = (if forallb f l then Ok tt else Err CHIP_NO_ERROR, s).
Proof.
  revert i; induction l as [|x l IH]; intros i Hget; cbn [length AccessControl.for_each forallb]; [done|].
  pose proof (Hget 0%nat x eq_refl) as Hx; rewrite Nat.add_0_r in Hx.
  unfold bind at 1; rewrite (bind_ok _ _ _ _ _ Hx); destruct (f x); cbn [verify]; [|done].
  unfold ret; cbn; apply IH; intros j y Hy; replace (S i + j)%nat with (i + S j)%nat by lia; by apply Hget.
Qed.

Lemma forallb_Forall {A} (f : A -> bool) l : forallb f l = true <-> Forall (fun x => f x = true) l.
Proof.
  induction l as [|x l IH]; cbn [forallb]; [by split|].
  by rewrite andb_true_iff, IH, Forall_cons_iff.
Qed.

Lemma IsValid_run e d s :
  reads e d s -> Forall (is_uint 64) (eSubjects d) ->
  exists b, AccessControl.IsValid e s = (Ok b, s) /\ (b = true <-> entry_valid d).
Proof.
  intros Hr H64; unfold AccessControl.IsValid, AccessControl.validate.
  rewrite (bind_ok _ _ _ _ _ (law_mode _ _ _ Hr)), (bind_ok _ _ _ _ _ (law_fabric _ _ _ Hr)),
    (bind_ok _ _ _ _ _ (law_privilege _ _ _ Hr)), (bind_ok _ _ _ _ _ (law_subjects _ _ _ Hr)),
    (bind_ok _ _ _ _ _ (law_targets _ _ _ Hr)), (bind_ok _ _ _ _ _ (law_auxiliary _ _ _ Hr)).
  rewrite bool_decide_eq_true_2 by (by right); unfold entry_valid.
  unfold bind at 1; cbn [verify ret].
  destruct (Z.eqb_spec (eFabric d) kUndefinedFabricIndex) as [?|Hf]; cbn [negb].
  { exists false; split; [done|]; split; [done|]; by intros (_ & ? & _). }
  unfold bind at 1; cbn [verify ret].
  destruct (bool_decide (eMode d = kCase) || _) eqn:Hm.
  2: { exists false; split; [done|]; split; [done|]; intros (_ & _ & Hv & _); exfalso.
       destruct Hv as [Hv|[Hv Hp%Z.eqb_neq]]; rewrite Hv in Hm; [done|by rewrite Hp in Hm]. }
  unfold bind at 1; cbn [verify ret].
  unfold bind at 1; rewrite for_each_verify by (intros j x; apply (law_subject _ _ _ _ _ Hr)).
  rewrite for_each_verify by (intros j x; apply (law_target _ _ _ _ _ Hr)).
  assert (eMode d = kCase \/ (eMode d = kGroup /\ ePrivilege d <> kAdminister)) as Hm'.
  { apply orb_true_iff in Hm as [Hm%bool_decide_eq_true|[Hm%bool_decide_eq_true Hp%negb_true_iff%Z.eqb_neq]%andb_prop]; auto. }
  pose proof (forallb_Forall (AccessControl.valid_subject (eMode d)) (eSubjects d)) as Hs.
  pose proof (forallb_Forall AccessControl.valid_target (eTargets d)) as Ht.
  destruct (forallb _ (eSubjects d)); [destruct (forallb _ (eTargets d))|];
    eexists; (split; [reflexivity|]); intuition congruence.
Qed.

End Check.
