(* ===== verification/AclStorage.v ===== *)
(** * AclStorage: the access control list in memory

    Model of src/src/access/examples/ExampleAccessControlDelegate.cpp, the delegate
    that keeps the access control list in arrays and serves [Entry] and
    [EntryIterator] objects from pools.

    - [EntryStorage] is one slot of the list or of the storage pool; [Acl] is all the
      memory: the list, the three pools, and for every [Entry] and [EntryIterator]
      object the delegate it refers to ([None] is the default delegate);
    - an [EntryDelegate] points into the list or into the storage pool, so objects
      and list share storage as in the code: [StorageRef];
    - the instance [example_delegate] is the interface of AccessControl.v. *)

From S2P Require Import Prelude Encoding NodeId AccessControl.

(** ** Sizes *)

(** The build options of the delegate, with their defaults. *)
Class AclConfig := {
  kNumberOfFabrics : nat;
  kEntriesPerFabric : nat;
  kMaxSubjects : nat;
  kMaxTargets : nat;
  kEntryStoragePoolSize : nat;
  kEntryDelegatePoolSize : nat;
  kEntryIteratorDelegatePoolSize : nat;
  FAST_COPY_SUPPORT : bool;
  FLEXIBLE_COPY_SUPPORT : bool }.

Definition default_config : AclConfig := {|
  kNumberOfFabrics := 16;
  kEntriesPerFabric := 4;
  kMaxSubjects := 4;
  kMaxTargets := 3;
  kEntryStoragePoolSize := 1;
  kEntryDelegatePoolSize := 1;
  kEntryIteratorDelegatePoolSize := 1;
  FAST_COPY_SUPPORT := true;
  FLEXIBLE_COPY_SUPPORT := false |}.

(** ** Subjects and targets *)

Module SubjectStorage.
Definition IsEmpty (mNode : Z) : bool := mNode =? kUndefinedNodeId.
Definition IsValid (node : Z) : bool := negb (node =? kUndefinedNodeId).
Definition Get (mNode : Z) : result Z :=
  if negb (IsEmpty mNode) then Ok mNode else Err CHIP_ERROR_SENTINEL.
Definition Set_ (mNode node : Z) : result Z :=
  if negb (IsEmpty mNode) then
    if IsValid node then Ok node else Err CHIP_ERROR_INVALID_ARGUMENT
  else Err CHIP_ERROR_SENTINEL.
Definition Add (node : Z) : result Z :=
  if IsValid node then Ok node else Err CHIP_ERROR_INVALID_ARGUMENT.
End SubjectStorage.

Module TargetStorage.
Record t := MkTargetStorage {
  mCluster : Z;
  mDeviceType : Z }.

Definition kClusterEmpty : Z := 0xFFFFFFFF.
Definition kClusterIdMask : Z := 0x0000FFFF.
Definition kClusterIdMaxStd : Z := 0x00007FFF.
Definition kClusterIdMinMs : Z := 0x0000FC00.
Definition kClusterIdMaxMs : Z := 0x0000FFFE.
Definition kClusterVendorMask : Z := 0xFFFF0000.
Definition kClusterVendorMax : Z := 0xFFFE0000.
Definition kDeviceTypeEmpty : Z := 0xFFFFFFFF.
Definition kDeviceTypeIdMask : Z := 0x0000FFFF.
Definition kDeviceTypeIdMax : Z := 0x0000BFFF.
Definition kDeviceTypeVendorMask : Z := 0xFFFF0000.
Definition kDeviceTypeVendorMax : Z := 0xFFFE0000.
Definition kEndpointMagic : Z := 0x0000EEEE.
Definition kEndpointShift : Z := 16.

Definition IsEmpty (s : t) : bool :=
  (mCluster s =? kClusterEmpty) && (mDeviceType s =? kDeviceTypeEmpty).
Definition Clear : t := MkTargetStorage kClusterEmpty kDeviceTypeEmpty.

Definition IsValidCluster (cluster : Z) : bool :=
  let id := Z.land cluster kClusterIdMask in
  let vendor := Z.land cluster kClusterVendorMask in
  ((id <=? kClusterIdMaxStd) || ((kClusterIdMinMs <=? id) && (id <=? kClusterIdMaxMs))) &&
  (vendor <=? kClusterVendorMax).
Definition IsValidDeviceType (deviceType : Z) : bool :=
  (Z.land deviceType kDeviceTypeIdMask <=? kDeviceTypeIdMax) &&
  (Z.land deviceType kDeviceTypeVendorMask <=? kDeviceTypeVendorMax).
(** [~kAtLeastOne] is an [unsigned] of 32 bits. *)
Definition IsValid (x : Target) : bool :=
  let kNotAll := Z.lor kEndpoint kDeviceType in
  let kAtLeastOne := Z.lor kNotAll kCluster in
  let kNone := wrap 32 (Z.lnot kAtLeastOne) in
  (Z.land (tFlags x) kNone =? 0) && negb (Z.land (tFlags x) kAtLeastOne =? 0) &&
  negb (Z.land (tFlags x) kNotAll =? kNotAll) &&
  negb (has_flag (tFlags x) kCluster && negb (IsValidCluster (tCluster x))) &&
  negb (has_flag (tFlags x) kDeviceType && negb (IsValidDeviceType (tDeviceType x))).

(** [Decode(target)] over the target passed in, whose other fields stay. *)
Definition Decode (s : t) (x : Target) : Target :=
  let x := MkTarget 0 (tCluster x) (tEndpoint x) (tDeviceType x) in
  let x := if negb (mCluster s =? kClusterEmpty)
           then MkTarget (Z.lor (tFlags x) kCluster) (mCluster s) (tEndpoint x) (tDeviceType x)
           else x in
  if negb (mDeviceType s =? kDeviceTypeEmpty) then
    if Z.land (mDeviceType s) kDeviceTypeIdMask =? kEndpointMagic
    then MkTarget (Z.lor (tFlags x) kEndpoint) (tCluster x)
                  (wrap 16 (Z.shiftr (mDeviceType s) kEndpointShift)) (tDeviceType x)
    else MkTarget (Z.lor (tFlags x) kDeviceType) (tCluster x) (tEndpoint x) (mDeviceType s)
  else x.
Definition Encode (x : Target) : t :=
  MkTargetStorage
    (if has_flag (tFlags x) kCluster then tCluster x else kClusterEmpty)
    (if has_flag (tFlags x) kEndpoint
     then Z.lor (wrap 32 (Z.shiftl (tEndpoint x) kEndpointShift)) kEndpointMagic
     else if has_flag (tFlags x) kDeviceType then tDeviceType x else kDeviceTypeEmpty).

Definition Get (s : t) (x : Target) : result Target :=
  if negb (IsEmpty s) then Ok (Decode s x) else Err CHIP_ERROR_SENTINEL.
Definition Set_ (s : t) (x : Target) : result t :=
  if negb (IsEmpty s) then
    if IsValid x then Ok (Encode x) else Err CHIP_ERROR_INVALID_ARGUMENT
  else Err CHIP_ERROR_SENTINEL.
Definition Add (x : Target) : result t :=
  if IsValid x then Ok (Encode x) else Err CHIP_ERROR_INVALID_ARGUMENT.
End TargetStorage.

(** ** The memory of the delegate *)

Module AclStorage.

Record EntryStorage := MkEntryStorage {
  mInUse : bool;
  mFabricIndex : Z;
  mAuthMode : AuthMode;
  mPrivilege : Z;
  mSubjects : list Z;
  mTargets : list TargetStorage.t }.

(** A pointer to a storage: a position in the list, or in the storage pool. *)
Inductive StorageRef := InAcl (i : nat) | InStoragePool (i : nat).
#[global] Instance StorageRef_eq_dec : EqDecision StorageRef.
Proof. solve_decision. Defined.

Record EntryDelegate := MkEntryDelegate {
  mEntry : option nat;
  mStorage : option StorageRef }.

(** [itStorage]: null, or a position in the list, its size being the end. *)
Record EntryIteratorDelegate := MkEntryIteratorDelegate {
  itInUse : bool;
  mFabricFiltered : bool;
  itFabricIndex : Z;
  itStorage : option nat }.

(** [entries] and [iterators]: the delegate of each object made so far. *)
Record Acl := MkAcl {
  acl : list EntryStorage;
  storage_pool : list EntryStorage;
  delegate_pool : list EntryDelegate;
  iterator_pool : list EntryIteratorDelegate;
  entries : list (option nat);
  iterators : list (option nat) }.

Definition set_acl (l : list EntryStorage) (s : Acl) : Acl :=
  MkAcl l (storage_pool s) (delegate_pool s) (iterator_pool s) (entries s) (iterators s).
Definition set_storage_pool (l : list EntryStorage) (s : Acl) : Acl :=
  MkAcl (acl s) l (delegate_pool s) (iterator_pool s) (entries s) (iterators s).
Definition set_delegate_pool (l : list EntryDelegate) (s : Acl) : Acl :=
  MkAcl (acl s) (storage_pool s) l (iterator_pool s) (entries s) (iterators s).
Definition set_iterator_pool (l : list EntryIteratorDelegate) (s : Acl) : Acl :=
  MkAcl (acl s) (storage_pool s) (delegate_pool s) l (entries s) (iterators s).
Definition set_entries (l : list (option nat)) (s : Acl) : Acl :=
  MkAcl (acl s) (storage_pool s) (delegate_pool s) (iterator_pool s) l (iterators s).
Definition set_iterators (l : list (option nat)) (s : Acl) : Acl :=
  MkAcl (acl s) (storage_pool s) (delegate_pool s) (iterator_pool s) (entries s) l.

Definition set_mInUse (b : bool) (s : EntryStorage) : EntryStorage :=
  MkEntryStorage b (mFabricIndex s) (mAuthMode s) (mPrivilege s) (mSubjects s) (mTargets s).
Definition set_mSubjects (l : list Z) (s : EntryStorage) : EntryStorage :=
  MkEntryStorage (mInUse s) (mFabricIndex s) (mAuthMode s) (mPrivilege s) l (mTargets s).
Definition set_mTargets (l : list TargetStorage.t) (s : EntryStorage) : EntryStorage :=
  MkEntryStorage (mInUse s) (mFabricIndex s) (mAuthMode s) (mPrivilege s) (mSubjects s) l.

Section Storage.
Context `{AclConfig}.

(** *** [EntryStorage] *)

Definition Clear : EntryStorage :=
  MkEntryStorage false kUndefinedFabricIndex kPase kView
    (replicate kMaxSubjects kUndefinedNodeId) (replicate kMaxTargets TargetStorage.Clear).
(** [Init()] of a storage *)
Definition StorageInit (s : EntryStorage) : EntryStorage :=
  if negb (mInUse s) then set_mInUse true Clear else s.

(** Static storage starts as zeroes. *)
Definition zero_storage : EntryStorage :=
  MkEntryStorage false 0 AuthMode_kNone 0 (replicate kMaxSubjects 0)
    (replicate kMaxTargets (TargetStorage.MkTargetStorage 0 0)).
Definition at_start : Acl :=
  MkAcl (replicate (kNumberOfFabrics * kEntriesPerFabric) zero_storage)
    (replicate kEntryStoragePoolSize zero_storage)
    (replicate kEntryDelegatePoolSize (MkEntryDelegate None None))
    (replicate kEntryIteratorDelegatePoolSize (MkEntryIteratorDelegate false false 0 None)) [] [].

(** The first element of an array that satisfies [f]. *)
Definition first_index {A} (f : A -> bool) (l : list A) : option nat :=
  fst <$> list_find (fun x => f x = true) l.

Definition FindUnusedInAcl (s : Acl) : option nat := first_index (fun x => negb (mInUse x)) (acl s).

Inductive ConvertDirection := kAbsoluteToRelative | kRelativeToAbsolute.

(** The loop of [ConvertIndex] over the rest of the list: the index found. *)
Fixpoint convert (index : nat) (fabric : Z) (direction : ConvertDirection)
    (absoluteIndex relativeIndex : nat) (l : list EntryStorage) : option nat :=
  match l with
  | [] => None
  | storage :: l =>
      if negb (mInUse storage) then None
      else if mFabricIndex storage =? fabric then
        let '(fromIndex, toIndex) :=
          match direction with
          | kAbsoluteToRelative => (absoluteIndex, relativeIndex)
          | kRelativeToAbsolute => (relativeIndex, absoluteIndex)
          end in
        if (index =? fromIndex)%nat then Some toIndex
        else convert index fabric direction (S absoluteIndex) (S relativeIndex) l
      else convert index fabric direction (S absoluteIndex) relativeIndex l
  end.
Definition ConvertIndex (index : nat) (fabric : Z) (direction : ConvertDirection) (s : Acl) : nat :=
  default (length (acl s)) (convert index fabric direction 0 0 (acl s)).

Definition FindUsedInAcl (index : nat) (fabric : option Z) (s : Acl) : option nat :=
  let index := match fabric with
               | Some fabric => ConvertIndex index fabric kRelativeToAbsolute s
               | None => index
               end in
  match acl s !! index with
  | Some storage => if mInUse storage then Some index else None
  | None => None
  end.

(** [EntryStorage::Find(candidate)] *)
Definition FindStorage (candidate : option StorageRef) (s : Acl) : option nat :=
  match candidate with
  | Some (InStoragePool i) => Some i
  | _ => first_index (fun x => negb (mInUse x)) (storage_pool s)
  end.

(** *** Memory access *)

Definition or_undefined {A} (o : option A) : M Acl A :=
  match o with Some a => ret a | None => fail UNDEFINED_BEHAVIOUR end.

Definition lookup_storage (ref : StorageRef) (s : Acl) : option EntryStorage :=
  match ref with InAcl i => acl s !! i | InStoragePool i => storage_pool s !! i end.
Definition write_storage (ref : StorageRef) (x : EntryStorage) : M Acl unit :=
  modify (fun s => match ref with
                   | InAcl i => set_acl (<[i := x]> (acl s)) s
                   | InStoragePool i => set_storage_pool (<[i := x]> (storage_pool s)) s
                   end).
Definition read_storage (ref : StorageRef) : M Acl EntryStorage :=
  let! s := get in or_undefined (lookup_storage ref s).

Definition read_delegate (d : nat) : M Acl EntryDelegate :=
  let! s := get in or_undefined (delegate_pool s !! d).
Definition write_delegate (d : nat) (x : EntryDelegate) : M Acl unit :=
  modify (fun s => set_delegate_pool (<[d := x]> (delegate_pool s)) s).

(** The delegate of an [Entry] object. *)
Definition GetDelegate (e : nat) : M Acl (option nat) :=
  let! s := get in or_undefined (entries s !! e).
Definition write_entry (e : nat) (d : option nat) : M Acl unit :=
  modify (fun s => set_entries (<[e := d]> (entries s)) s).

(** *** [EntryDelegate] *)

(** [EntryDelegate::Find(entry.GetDelegate())] *)
Definition FindDelegate (e : nat) : M Acl (option nat) :=
  let! d := GetDelegate e in
  match d with
  | Some d => ret (Some d)
  | None => let! s := get in ret (first_index (fun x => bool_decide (mStorage x = None)) (delegate_pool s))
  end.

(** [mStorage->Release(); mStorage = nullptr;] *)
Definition Release (d : nat) : M Acl unit :=
  let! x := read_delegate d in
  let! ref := or_undefined (mStorage x) in
  (match ref with
   | InAcl _ => ret tt
   | InStoragePool _ => let! st := read_storage ref in write_storage ref (set_mInUse false st)
   end) ;;
  write_delegate d (MkEntryDelegate (mEntry x) None).

Definition ReleaseEntry (e : nat) : M Acl unit :=
  let! old := GetDelegate e in
  match old with Some d => Release d | None => ret tt end.
Definition SetDelegate (e d : nat) : M Acl unit := ReleaseEntry e ;; write_entry e (Some d).
Definition ResetDelegate (e : nat) : M Acl unit := ReleaseEntry e ;; write_entry e None.

(** [delegate->Init(entry, storage)] *)
Definition InitDelegate (d e : nat) (ref : StorageRef) : M Acl unit :=
  SetDelegate e d ;;
  let! st := read_storage ref in
  write_storage ref (StorageInit st) ;;
  write_delegate d (MkEntryDelegate (Some e) (Some ref)).

Definition EnsureStorageInPool (d : nat) : M Acl unit :=
  let! x := read_delegate d in
  let! ref := or_undefined (mStorage x) in
  match ref with
  | InStoragePool _ => ret tt
  | InAcl _ =>
      let! s := get in
      match FindStorage None s with
      | Some i =>
          let! st := read_storage ref in
          write_storage (InStoragePool i) st ;;
          write_delegate d (MkEntryDelegate (mEntry x) (Some (InStoragePool i)))
      | None => fail CHIP_ERROR_BUFFER_TOO_SMALL
      end
  end.

(** The storage an [Entry] object shows; the default delegate implements nothing. *)
Definition entry_storage (e : nat) : M Acl EntryStorage :=
  let! d := GetDelegate e in
  match d with
  | None => fail CHIP_ERROR_NOT_IMPLEMENTED
  | Some d => let! x := read_delegate d in
              let! ref := or_undefined (mStorage x) in read_storage ref
  end.
Definition reading_entry {A} (e : nat) (f : EntryStorage -> result A) : M Acl A :=
  let! st := entry_storage e in
  match f st with Ok a => ret a | Err err => fail err end.

Definition EntryGetAuthMode (e : nat) : M Acl AuthMode := reading_entry e (fun st => Ok (mAuthMode st)).
Definition EntryGetFabricIndex (e : nat) : M Acl Z := reading_entry e (fun st => Ok (mFabricIndex st)).
Definition EntryGetPrivilege (e : nat) : M Acl Z := reading_entry e (fun st => Ok (mPrivilege st)).
Definition EntryGetAuxiliaryType (e : nat) : M Acl AuxiliaryType :=
  GetDelegate e ;; fail CHIP_ERROR_NOT_IMPLEMENTED.

(** The elements before the first empty one. *)
Fixpoint count_used {A} (IsEmpty : A -> bool) (l : list A) : nat :=
  match l with
  | [] => 0
  | x :: l => if IsEmpty x then 0 else S (count_used IsEmpty l)
  end.
Definition SubjectCount (st : EntryStorage) : nat := count_used SubjectStorage.IsEmpty (mSubjects st).
Definition TargetCount (st : EntryStorage) : nat := count_used TargetStorage.IsEmpty (mTargets st).

Definition EntryGetSubjectCount (e : nat) : M Acl nat := reading_entry e (fun st => Ok (SubjectCount st)).
Definition EntryGetSubject (e index : nat) : M Acl Z :=
  reading_entry e (fun st =>
    match mSubjects st !! index with
    | Some x => SubjectStorage.Get x
    | None => Err CHIP_ERROR_SENTINEL
    end).
Definition EntryGetTargetCount (e : nat) : M Acl nat := reading_entry e (fun st => Ok (TargetCount st)).
(** The target passed in is new: its flags are zero, the rest is not read. *)
Definition EntryGetTarget (e index : nat) : M Acl Target :=
  reading_entry e (fun st =>
    match mTargets st !! index with
    | Some x => TargetStorage.Get x (MkTarget 0 0 0 0)
    | None => Err CHIP_ERROR_SENTINEL
    end).

(** A change through an [Entry] object is made on a storage of the pool. *)
Definition changing_entry {A} (e : nat) (f : EntryStorage -> result (A * EntryStorage)) : M Acl A :=
  let! d := GetDelegate e in
  match d with
  | None => fail CHIP_ERROR_NOT_IMPLEMENTED
  | Some d =>
      EnsureStorageInPool d ;;
      let! x := read_delegate d in
      let! ref := or_undefined (mStorage x) in
      let! st := read_storage ref in
      match f st with
      | Ok (a, st) => write_storage ref st ;; ret a
      | Err err => fail err
      end
  end.

Definition SetAuthMode (e : nat) (mode : AuthMode) : M Acl unit :=
  changing_entry e (fun st => Ok (tt, MkEntryStorage (mInUse st) (mFabricIndex st) mode (mPrivilege st) (mSubjects st) (mTargets st))).
Definition SetFabricIndex (e : nat) (fabric : Z) : M Acl unit :=
  changing_entry e (fun st => Ok (tt, MkEntryStorage (mInUse st) fabric (mAuthMode st) (mPrivilege st) (mSubjects st) (mTargets st))).
Definition SetPrivilege (e : nat) (privilege : Z) : M Acl unit :=
  changing_entry e (fun st => Ok (tt, MkEntryStorage (mInUse st) (mFabricIndex st) (mAuthMode st) privilege (mSubjects st) (mTargets st))).

(** One of the arrays of an entry, [Add] and [Set] being those of its elements. *)
Definition set_element {A B} (Set_ : A -> B -> result A) (l : list A) (index : nat) (b : B) : result (list A) :=
  match l !! index with
  | None => Err CHIP_ERROR_SENTINEL
  | Some old => match Set_ old b with Ok a => Ok (<[index := a]> l) | Err err => Err err end
  end.
Definition add_element {A B} (IsEmpty : A -> bool) (Add : B -> result A) (l : list A) (b : B)
    : result (nat * list A) :=
  let count := count_used IsEmpty l in
  if (count <? length l)%nat then
    match Add b with Ok a => Ok (count, <[count := a]> l) | Err err => Err err end
  else Err CHIP_ERROR_BUFFER_TOO_SMALL.
Definition remove_element {A} (IsEmpty : A -> bool) (Clear : A) (l : list A) (index : nat)
    : result (list A) :=
  let count := count_used IsEmpty l in
  if (index <? count)%nat then
    let n := (Nat.min count (length l - 1) - index)%nat in
    let l := take index l ++ take n (drop (S index) l) ++ drop (index + n) l in
    Ok (if (count =? length l)%nat then <[(length l - 1)%nat := Clear]> l else l)
  else Err CHIP_ERROR_SENTINEL.

Definition on_subjects {A} (f : list Z -> result (A * list Z)) (st : EntryStorage) : result (A * EntryStorage) :=
  match f (mSubjects st) with Ok (a, l) => Ok (a, set_mSubjects l st) | Err err => Err err end.
Definition on_targets {A} (f : list TargetStorage.t -> result (A * list TargetStorage.t)) (st : EntryStorage)
    : result (A * EntryStorage) :=
  match f (mTargets st) with Ok (a, l) => Ok (a, set_mTargets l st) | Err err => Err err end.
Definition unit_of {A} (r : result A) : result (unit * A) :=
  match r with Ok a => Ok (tt, a) | Err err => Err err end.

Definition SetSubject (e index : nat) (subject : Z) : M Acl unit :=
  changing_entry e (on_subjects (fun l => unit_of (set_element SubjectStorage.Set_ l index subject))).
Definition AddSubject (e : nat) (subject : Z) : M Acl nat :=
  changing_entry e (on_subjects (fun l => add_element SubjectStorage.IsEmpty SubjectStorage.Add l subject)).
Definition RemoveSubject (e index : nat) : M Acl unit :=
  changing_entry e (on_subjects (fun l => unit_of (remove_element SubjectStorage.IsEmpty kUndefinedNodeId l index))).
Definition SetTarget (e index : nat) (x : Target) : M Acl unit :=
  changing_entry e (on_targets (fun l => unit_of (set_element TargetStorage.Set_ l index x))).
Definition AddTarget (e : nat) (x : Target) : M Acl nat :=
  changing_entry e (on_targets (fun l => add_element TargetStorage.IsEmpty TargetStorage.Add l x)).
Definition RemoveTarget (e index : nat) : M Acl unit :=
  changing_entry e (on_targets (fun l => unit_of (remove_element TargetStorage.IsEmpty TargetStorage.Clear l index))).

(** *** [EntryIteratorDelegate] *)

Definition read_iterator (d : nat) : M Acl EntryIteratorDelegate :=
  let! s := get in or_undefined (iterator_pool s !! d).
Definition write_iterator (d : nat) (x : EntryIteratorDelegate) : M Acl unit :=
  modify (fun s => set_iterator_pool (<[d := x]> (iterator_pool s)) s).
Definition GetIteratorDelegate (it : nat) : M Acl (option nat) :=
  let! s := get in or_undefined (iterators s !! it).

Definition FindIterator (it : nat) : M Acl (option nat) :=
  let! d := GetIteratorDelegate it in
  match d with
  | Some d => ret (Some d)
  | None => let! s := get in ret (first_index (fun x => negb (itInUse x)) (iterator_pool s))
  end.

Definition ReleaseIterator (it : nat) : M Acl unit :=
  let! old := GetIteratorDelegate it in
  match old with
  | Some d => let! x := read_iterator d in
              write_iterator d (MkEntryIteratorDelegate false (mFabricFiltered x) (itFabricIndex x) (itStorage x))
  | None => ret tt
  end.

(** [Entries(iterator, fabricIndex)], with the delegate's [Init]. *)
Definition Entries (it : nat) (fabric : option Z) : M Acl unit :=
  let! d := FindIterator it in
  match d with
  | None => fail CHIP_ERROR_BUFFER_TOO_SMALL
  | Some d =>
      ReleaseIterator it ;;
      modify (fun s => set_iterators (<[it := Some d]> (iterators s)) s) ;;
      let! x := read_iterator d in
      write_iterator d (MkEntryIteratorDelegate true (bool_decide (is_Some fabric))
                          (default (itFabricIndex x) fabric) None)
  end.

(** The position after [p]: the start for null, the end stays. *)
Definition next_position (size : nat) (p : option nat) : nat :=
  match p with None => 0 | Some p => if (p <? size)%nat then S p else p end.

(** The loop of [Next]; each pass moves on, so that there are at most as many passes
    as positions, and one more. *)
Fixpoint next_entry (fuel : nat) (d e : nat) : M Acl unit :=
  match fuel with
  | O => fail UNDEFINED_BEHAVIOUR
  | S fuel =>
      let! x := read_iterator d in
      let! s := get in
      let size := length (acl s) in
      let p := next_position size (itStorage x) in
      let move_to p :=
        write_iterator d (MkEntryIteratorDelegate (itInUse x) (mFabricFiltered x) (itFabricIndex x) (Some p)) in
      match acl s !! p with
      | None => move_to size ;; fail CHIP_ERROR_SENTINEL
      | Some storage =>
          if negb (mInUse storage) then move_to size ;; fail CHIP_ERROR_SENTINEL
          else
            move_to p ;;
            if mFabricFiltered x && negb (mFabricIndex storage =? itFabricIndex x)
            then next_entry fuel d e
            else
              let! found := FindDelegate e in
              match found with
              | Some delegate => InitDelegate delegate e (InAcl p)
              | None => fail CHIP_ERROR_BUFFER_TOO_SMALL
              end
      end
  end.
Definition Next (it e : nat) : M Acl unit :=
  let! s := get in
  let! d := GetIteratorDelegate it in
  match d with
  | None => fail CHIP_ERROR_SENTINEL
  | Some d => next_entry (S (length (acl s))) d e
  end.

(** *** Copies *)

(** [CopyViaInterface], through the getters of the entry; [temp] is a local. *)
Fixpoint copy_elements {A} (get_element : nat -> M Acl A) (i n : nat) : M Acl (list A) :=
  match n with
  | O => ret []
  | S n => let! a := get_element i in
           let! l := copy_elements get_element (S i) n in ret (a :: l)
  end.
(** The elements an [Add] refuses leave the cleared slot. *)
Definition fill {A B} (Add : B -> result A) (Clear : A) (size : nat) (l : list B) : list A :=
  ((fun b => match Add b with Ok a => a | Err _ => Clear end) <$> l) ++
  replicate (size - length l) Clear.
Definition CopyViaInterface (e : nat) (ref : StorageRef) : M Acl unit :=
  if negb FLEXIBLE_COPY_SUPPORT then fail PROGRAM_ABORT
  else
    let! fabric := EntryGetFabricIndex e in
    let! mode := EntryGetAuthMode e in
    let! privilege := EntryGetPrivilege e in
    let! subjectCount := EntryGetSubjectCount e in
    verify (subjectCount <=? kMaxSubjects)%nat CHIP_ERROR_BUFFER_TOO_SMALL ;;
    let! subjects := copy_elements (EntryGetSubject e) 0 subjectCount in
    let! targetCount := EntryGetTargetCount e in
    verify (targetCount <=? kMaxTargets)%nat CHIP_ERROR_BUFFER_TOO_SMALL ;;
    let! targets := copy_elements (EntryGetTarget e) 0 targetCount in
    write_storage ref (MkEntryStorage true fabric mode privilege
      (fill SubjectStorage.Add kUndefinedNodeId kMaxSubjects subjects)
      (fill TargetStorage.Add TargetStorage.Clear kMaxTargets targets)).

Definition Copy (e : nat) (ref : StorageRef) : M Acl unit :=
  let! d := GetDelegate e in
  match d with
  | Some d =>
      if FAST_COPY_SUPPORT then
        let! x := read_delegate d in
        let! from := or_undefined (mStorage x) in
        let! st := read_storage from in
        write_storage ref st
      else CopyViaInterface e ref
  | None => CopyViaInterface e ref
  end.

(** *** The list *)

Definition DelegateInit_ : M Acl unit :=
  modify (fun s => set_acl ((fun _ => Clear) <$> acl s) s).

(** The number of entries: of a fabric, or of all. *)
Fixpoint count_entries (fabric : option Z) (l : list EntryStorage) : nat :=
  match l with
  | [] => 0
  | storage :: l =>
      if negb (mInUse storage) then 0
      else (match fabric with
            | Some f => if (mFabricIndex storage =? f)%Z then 1 else 0
            | None => 1
            end) + count_entries fabric l
  end.
Definition GetEntryCount (fabric : option Z) : M Acl nat :=
  let! s := get in ret (count_entries fabric (acl s)).

Definition PrepareEntry (e : nat) : M Acl unit :=
  let! found := FindDelegate e in
  match found with
  | None => fail CHIP_ERROR_BUFFER_TOO_SMALL
  | Some d =>
      let! x := read_delegate d in
      let! s := get in
      match FindStorage (mStorage x) s with
      | None => fail CHIP_ERROR_BUFFER_TOO_SMALL
      | Some i => InitDelegate d e (InStoragePool i)
      end
  end.

(** [CreateEntry(index, entry, fabricIndex)] with a fabric index to be set: the value
    is [*index], relative to the fabric of the entry. *)
Definition CreateEntry (e : nat) : M Acl nat :=
  let! s := get in
  match FindUnusedInAcl s with
  | None => fail CHIP_ERROR_BUFFER_TOO_SMALL
  | Some i =>
      Copy e (InAcl i) ;;
      let! st := read_storage (InAcl i) in
      let! s := get in
      ret (ConvertIndex i (mFabricIndex st) kAbsoluteToRelative s)
  end.

Definition ReadEntry (index e : nat) (fabric : option Z) : M Acl unit :=
  let! s := get in
  match FindUsedInAcl index fabric s with
  | None => fail CHIP_ERROR_SENTINEL
  | Some i =>
      let! found := FindDelegate e in
      match found with
      | Some d => InitDelegate d e (InAcl i)
      | None => fail CHIP_ERROR_BUFFER_TOO_SMALL
      end
  end.

Definition UpdateEntry (index e : nat) (fabric : option Z) : M Acl unit :=
  let! s := get in
  match FindUsedInAcl index fabric s with
  | None => fail CHIP_ERROR_SENTINEL
  | Some i => Copy e (InAcl i)
  end.

(** The loop of [DeleteEntry] that moves the entries after the deleted one. *)
Fixpoint shift_down (l : list EntryStorage) : list EntryStorage :=
  match l with
  | [] => []
  | _ :: ((next :: _) as l) => if mInUse next then next :: shift_down l else Clear :: l
  | _ :: [] => [Clear]
  end.

Definition FixBeforeDelete (i d : nat) : M Acl unit :=
  let! x := read_delegate d in
  if decide (mStorage x = Some (InAcl i)) then attempt (EnsureStorageInPool d) ;; ret tt else ret tt.

Definition FixAfterDelete (i d : nat) : M Acl unit :=
  let! x := read_delegate d in
  match mStorage x with
  | Some (InAcl j) =>
      if (j =? i)%nat then let! e := or_undefined (mEntry x) in ResetDelegate e
      else if (i <? j)%nat then write_delegate d (MkEntryDelegate (mEntry x) (Some (InAcl (j - 1))))
      else ret tt
  | _ => ret tt
  end.

Definition FixIteratorAfterDelete (i d : nat) : M Acl unit :=
  let! x := read_iterator d in
  let! s := get in
  match itStorage x with
  | Some j =>
      if (i <=? j)%nat && (j <? length (acl s))%nat then
        write_iterator d (MkEntryIteratorDelegate (itInUse x) (mFabricFiltered x) (itFabricIndex x)
                            (if (j =? 0)%nat then None else Some (j - 1)%nat))
      else ret tt
  | None => ret tt
  end.

(** [storage = acl + index] after the loop is the argument [index], which is relative
    to the fabric when there is one. *)
Definition DeleteEntry (index : nat) (fabric : option Z) : M Acl unit :=
  let! s := get in
  match FindUsedInAcl index fabric s with
  | None => fail CHIP_ERROR_SENTINEL
  | Some i =>
      AccessControl.for_each 0 (length (delegate_pool s)) (FixBeforeDelete i) ;;
      modify (fun s => set_acl (take i (acl s) ++ shift_down (drop i (acl s))) s) ;;
      AccessControl.for_each 0 (length (delegate_pool s)) (FixAfterDelete index) ;;
      AccessControl.for_each 0 (length (iterator_pool s)) (FixIteratorAfterDelete index)
  end.

(** *** Objects *)

Definition NewEntry : M Acl nat := fun s =>
  (Ok (length (entries s)), set_entries (entries s ++ [None]) s).
Definition DeleteEntryObject (e : nat) : M Acl unit := ReleaseEntry e ;; write_entry e None.
Definition NewIterator : M Acl nat := fun s =>
  (Ok (length (iterators s)), set_iterators (iterators s ++ [None]) s).
Definition DeleteIteratorObject (it : nat) : M Acl unit :=
  ReleaseIterator it ;; modify (fun s => set_iterators (<[it := None]> (iterators s)) s).

#[export] Instance example_delegate : AclDelegate := {|
  store := Acl;
  DelegateInit := DelegateInit_;
  DelegateFinish := ret tt;
  DelegateMaxEntriesPerFabric := ret kEntriesPerFabric;
  DelegateEntryCount fabric := GetEntryCount (Some fabric);
  DelegatePrepareEntry := PrepareEntry;
  DelegateCreateEntry := CreateEntry;
  DelegateReadEntry := ReadEntry;
  DelegateUpdateEntry := UpdateEntry;
  DelegateDeleteEntry := DeleteEntry;
  DelegateEntries := Entries;
  DelegateCheck _ _ _ := fail CHIP_ERROR_NOT_IMPLEMENTED;
  IteratorNext := Next;
  AccessControl.GetAuthMode := EntryGetAuthMode;
  AccessControl.GetFabricIndex := EntryGetFabricIndex;
  AccessControl.GetPrivilege := EntryGetPrivilege;
  AccessControl.GetAuxiliaryType := EntryGetAuxiliaryType;
  AccessControl.GetSubjectCount := EntryGetSubjectCount;
  AccessControl.GetSubject := EntryGetSubject;
  AccessControl.GetTargetCount := EntryGetTargetCount;
  AccessControl.GetTarget := EntryGetTarget;
  HasDefaultDelegate e := let! d := GetDelegate e in ret (bool_decide (d = None));
  new_entry := NewEntry;
  delete_entry := DeleteEntryObject;
  new_iterator := NewIterator;
  delete_iterator := DeleteIteratorObject |}.

End Storage.
End AclStorage.
