(* ===== verification/AclList.v ===== *)
(** * AclList: the delegate keeps a list of entries

    The list behind AclStorage.v and what the operations do to it.

    - [content] is what an entry says, [contents] the list of the entries in use;
    - [acl_ok] is the invariant of the memory: entries in use come first, every
      [Entry] object that has a delegate shows a storage in use, and no two of them
      share a storage of the pool;
    - Module [Spec] is the list of entries by itself: what [CreateEntry], [UpdateEntry],
      [DeleteEntry] and [GetEntryCount] answer and do. *)

From S2P Require Import Prelude Encoding NodeId AccessControl AclStorage.
Import AclStorage.

(** ** Runs with a postcondition *)

(** [m] run in [s] ends in a result and a state with [Q], without stopping. *)
Definition post {S A} (m : M S A) (s : S) (Q : result A -> S -> Prop) : Prop :=
  let (r, s') := m s in Q r s' /\ r <> Err UNDEFINED_BEHAVIOUR /\ r <> Err PROGRAM_ABORT.

Section Post.
Context {S A B : Type}.
Implicit Types (m : M S A) (s : S).

Lemma post_weaken m s (Q Q' : result A -> S -> Prop) :
  post m s Q -> (forall r s', Q r s' -> Q' r s') -> post m s Q'.
Proof. unfold post; destruct (m s); naive_solver. Qed.

Lemma post_bind m (k : A -> M S B) s Q :
  post m s (fun r s' => match r with Ok a => post (k a) s' Q | Err e => Q (Err e) s' end) -> post (bind m k) s Q.
Proof. unfold post, bind; destruct (m s) as [[]]; naive_solver congruence. Qed.

Lemma post_ret (a : A) s (Q : result A -> S -> Prop) : Q (Ok a) s -> post (ret a) s Q.
Proof. done. Qed.

Lemma post_fail e s (Q : result A -> S -> Prop) :
  Q (Err e) s -> e <> UNDEFINED_BEHAVIOUR -> e <> PROGRAM_ABORT -> post (fail e) s Q.
Proof. unfold post, fail; naive_solver congruence. Qed.

Lemma post_get (k : S -> M S B) s Q : post (k s) s Q -> post (bind get k) s Q.
Proof. done. Qed.

Lemma post_modify (f : S -> S) s (Q : result unit -> S -> Prop) : Q (Ok tt) (f s) -> post (modify f) s Q.
Proof. done. Qed.

Lemma post_attempt m s (Q : result A -> S -> Prop) :
  post m s Q -> post (attempt m) s (fun r s' =>
    exists r', Q r' s' /\ r = Ok match r' with Ok _ => CHIP_NO_ERROR | Err e => e end).
Proof.
  unfold post, attempt; destruct (m s) as [[a|[]] s']; naive_solver.
Qed.

Lemma post_run m s r s' (Q : result A -> S -> Prop) : m s = (r, s') -> post m s Q -> Q r s'.
Proof. unfold post; intros ->; tauto. Qed.
End Post.

(** ** What an entry says *)

Section List.
Context `{AclConfig}.

Definition content (st : EntryStorage) : AclEntry := {|
  eFabric := mFabricIndex st;
  eMode := mAuthMode st;
  ePrivilege := mPrivilege st;
  eSubjects := take (SubjectCount st) (mSubjects st);
  eTargets := (fun x => TargetStorage.Decode x (MkTarget 0 0 0 0)) <$> take (TargetCount st) (mTargets st) |}.

(** The storages in use: those before the first that is not. *)
Fixpoint used (l : list EntryStorage) : list EntryStorage :=
  match l with
  | [] => []
  | st :: l => if mInUse st then st :: used l else []
  end.
Definition contents (s : Acl) : list AclEntry := content <$> used (acl s).

(** The storage an [Entry] object shows, and what it says. *)
Definition shown (s : Acl) (e : nat) : option StorageRef :=
  d ← entries s !! e; d ← d; x ← delegate_pool s !! d; mStorage x.
Definition handle (s : Acl) (e : nat) : option AclEntry :=
  ref ← shown s e; content <$> lookup_storage ref s.

(** ** The invariant *)

(** [Entry] objects [es], their delegates [ds], the storage pool. *)
Record linked (es : list (option nat)) (pool : list EntryStorage) (ds : list EntryDelegate) : Prop := {
  linked_entry e d : es !! e = Some (Some d) ->
    exists ref, ds !! d = Some (MkEntryDelegate (Some e) (Some ref));
  linked_delegate d x ref : ds !! d = Some x -> mStorage x = Some ref ->
    exists e, mEntry x = Some e /\ es !! e = Some (Some d);
  linked_pool d x i : ds !! d = Some x -> mStorage x = Some (InStoragePool i) ->
    exists st, pool !! i = Some st /\ mInUse st = true;
  linked_inj d1 d2 x1 x2 i : ds !! d1 = Some x1 -> ds !! d2 = Some x2 ->
    mStorage x1 = Some (InStoragePool i) -> mStorage x2 = Some (InStoragePool i) -> d1 = d2 }.

(** The positions in the list that delegate [d] may have. *)
Definition bounded (n : nat -> nat) (ds : list EntryDelegate) : Prop :=
  forall d x j, ds !! d = Some x -> mStorage x = Some (InAcl j) -> (j < n d)%nat.

Definition storage_ok (st : EntryStorage) : Prop := Forall (is_uint 64) (mSubjects st).
Definition iterators_ok (s : Acl) : Prop :=
  forall it d, iterators s !! it = Some (Some d) -> is_Some (iterator_pool s !! d).

Record acl_ok (s : Acl) : Prop := {
  ok_linked : linked (entries s) (storage_pool s) (delegate_pool s);
  ok_bounded : bounded (fun _ => length (used (acl s))) (delegate_pool s);
  ok_unused : Forall (fun st => mInUse st = false) (drop (length (used (acl s))) (acl s));
  ok_acl : Forall storage_ok (acl s);
  ok_storage_pool : Forall storage_ok (storage_pool s);
  ok_iterators : iterators_ok s }.

(** *** Lists of storages in use *)

Lemma used_app l1 l2 :
  Forall (fun st => mInUse st = true) l1 -> Forall (fun st => mInUse st = false) l2 -> used (l1 ++ l2) = l1.
Proof.
  induction 1 as [|st l1 Hst _ IH]; intros H2; cbn [app used].
  - by destruct H2 as [|st l2 Hst]; cbn [used]; rewrite ?Hst.
  - by rewrite Hst, IH.
Qed.

Lemma used_in_use l : Forall (fun st => mInUse st = true) (used l).
Proof. induction l as [|st l IH]; cbn [used]; [constructor|]; destruct (mInUse st) eqn:E; by constructor. Qed.

Lemma used_prefix l : l = used l ++ drop (length (used l)) l.
Proof. induction l as [|st l IH]; cbn [used]; [done|]; destruct (mInUse st); cbn [length drop app]; congruence. Qed.

Lemma lookup_used l i : used l !! i = None \/ used l !! i = l !! i.
Proof.
  destruct (used l !! i) eqn:E; [right|by left]; rewrite (used_prefix l), lookup_app.
  by rewrite E.
Qed.

Lemma used_lookup_lt l i : (i < length (used l))%nat -> exists st, l !! i = Some st /\ mInUse st = true.
Proof.
  intros Hi; destruct (lookup_lt_is_Some_2 _ _ Hi) as (st & Hst); exists st; split.
  - destruct (lookup_used l i) as [?|<-]; congruence.
  - by apply (Forall_lookup_1 _ _ _ _ (used_in_use l) Hst).
Qed.

Lemma used_lookup_ge l i :
  Forall (fun st => mInUse st = false) (drop (length (used l)) l) -> (length (used l) <= i)%nat ->
  forall st, l !! i = Some st -> mInUse st = false.
Proof.
  intros Hl Hi st Hst; apply (Forall_lookup_1 _ _ (i - length (used l)) st Hl).
  rewrite lookup_drop, <-Hst; f_equal; lia.
Qed.

(** *** Links *)

Definition release (ref : StorageRef) (pool : list EntryStorage) : list EntryStorage :=
  match ref with
  | InAcl _ => pool
  | InStoragePool i => alter (set_mInUse false) i pool
  end.

Lemma linked_release es pool ds e d ref :
  linked es pool ds -> es !! e = Some (Some d) -> ds !! d = Some (MkEntryDelegate (Some e) (Some ref)) ->
  linked (<[e := None]> es) (release ref pool) (<[d := MkEntryDelegate (Some e) None]> ds).
Proof.
  intros [L1 L2 L3 L4] He Hd; split.
  - intros e' d'; rewrite list_lookup_insert_Some; intros [(_ & ? & _)|(Hne & He')]; [done|].
    destruct (L1 _ _ He') as (ref' & Hd'); exists ref'; rewrite list_lookup_insert_ne; [done|]; congruence.
  - intros d' x ref'; rewrite list_lookup_insert_Some; intros [(<- & <- & _)|(Hne & Hd')]; [done|]; intros Hx.
    destruct (L2 _ _ _ Hd' Hx) as (e' & He' & Hes); exists e'; split; [done|].
    rewrite list_lookup_insert_ne; congruence.
  - intros d' x i; rewrite list_lookup_insert_Some; intros [(<- & <- & _)|(Hne & Hd')]; [done|]; intros Hx.
    destruct (L3 _ _ _ Hd' Hx) as (st & Hst & Hu); exists st; split; [|done].
    destruct ref as [?|j]; cbn [release]; [done|]; rewrite list_lookup_alter_ne; [done|].
    intros <-; by apply Hne, (L4 d d' _ x j Hd Hd' eq_refl Hx).
  - intros d1 d2 x1 x2 i; rewrite !list_lookup_insert_Some.
    intros [(<- & <- & _)|(_ & H1)] [(<- & <- & _)|(_ & H2)] E1 E2; try done; by eapply L4.
Qed.

(** A storage that an object may be made to show: of the list, or a free one. *)
Definition takes (ref : StorageRef) (pool pool' : list EntryStorage) : Prop :=
  match ref with
  | InAcl _ => pool' = pool
  | InStoragePool i => exists old st, pool !! i = Some old /\ mInUse old = false /\ mInUse st = true /\
                                      pool' = <[i := st]> pool
  end.

Lemma linked_assign es pool pool' ds e d x ref :
  linked es pool ds -> es !! e = Some None -> ds !! d = Some x -> mStorage x = None ->
  takes ref pool pool' ->
  linked (<[e := Some d]> es) pool' (<[d := MkEntryDelegate (Some e) (Some ref)]> ds).
Proof.
  intros [L1 L2 L3 L4] He Hd Hx Ht; pose proof (lookup_lt_Some _ _ _ He) as Hle; pose proof (lookup_lt_Some _ _ _ Hd) as Hld.
  assert (Hfree : forall i d' x', ref = InStoragePool i -> ds !! d' = Some x' -> mStorage x' <> Some (InStoragePool i)).
  { intros i d' x' -> Hd' Hx'; destruct Ht as (old & st & Hold & Hu & _).
    destruct (L3 _ _ _ Hd' Hx') as (old' & Hold' & Hu'); congruence. }
  split.
  - intros e' d'; rewrite list_lookup_insert_Some; intros [(<- & [= <-] & _)|(Hne & He')].
    { exists ref; by rewrite list_lookup_insert_eq. }
    destruct (L1 _ _ He') as (ref' & Hd'); exists ref'; rewrite list_lookup_insert_ne; [done|].
    intros <-; rewrite Hd in Hd'; injection Hd' as ->; done.
  - intros d' x' ref'; rewrite list_lookup_insert_Some; intros [(<- & <- & _)|(Hne & Hd')].
    { intros _; exists e; by rewrite list_lookup_insert_eq. }
    intros Hx'; destruct (L2 _ _ _ Hd' Hx') as (e' & He' & Hes); exists e'; split; [done|].
    rewrite list_lookup_insert_ne; congruence.
  - intros d' x' i; rewrite list_lookup_insert_Some; intros [(<- & <- & _)|(Hne & Hd')]; cbn [mStorage].
    + intros [= ->]; destruct Ht as (old & st & Hold & _ & Hu & ->); exists st; split; [|done].
      apply list_lookup_insert_eq; by eapply lookup_lt_Some.
    + intros Hx'; destruct (L3 _ _ _ Hd' Hx') as (st & Hst & Hu); exists st; split; [|done].
      destruct ref as [?|j]; cbn [takes] in Ht; [by rewrite Ht|].
      destruct Ht as (old & st' & _ & _ & _ & ->); rewrite list_lookup_insert_ne; [done|].
      intros ->; by eapply Hfree.
  - intros d1 d2 x1 x2 i; rewrite !list_lookup_insert_Some.
    intros [(<- & <- & _)|(_ & H1)] [(<- & <- & _)|(_ & H2)]; cbn [mStorage]; intros E1 E2; try done.
    + injection E1 as ->; by destruct (Hfree i d2 x2 eq_refl H2).
    + injection E2 as ->; by destruct (Hfree i d1 x1 eq_refl H1).
    + by eapply L4.
Qed.

(** An object that shows the list takes a free storage of the pool instead. *)
Lemma linked_move es pool pool' ds e d i ref :
  linked es pool ds -> es !! e = Some (Some d) -> ds !! d = Some (MkEntryDelegate (Some e) (Some (InAcl i))) ->
  takes ref pool pool' ->
  linked es pool' (<[d := MkEntryDelegate (Some e) (Some ref)]> ds).
Proof.
  intros L He Hd Ht; pose proof (linked_release _ _ _ _ _ _ L He Hd) as L'; cbn [release] in L'.
  apply linked_assign with (pool' := pool') (ref := ref) (e := e) (d := d) (x := MkEntryDelegate (Some e) None) in L'; try done.
  - by rewrite !list_insert_insert_eq, (list_insert_id es) in L'.
  - apply list_lookup_insert_eq; by eapply lookup_lt_Some.
  - apply list_lookup_insert_eq; by eapply lookup_lt_Some.
Qed.

Lemma bounded_insert n ds d x :
  bounded n ds -> (forall j, mStorage x = Some (InAcl j) -> (j < n d)%nat) -> bounded n (<[d := x]> ds).
Proof.
  intros Hb Hx d' x' j; rewrite list_lookup_insert_Some; intros [(<- & <- & _)|(_ & Hd)]; [apply Hx|by apply Hb].
Qed.

Lemma storage_ok_release ref pool : Forall storage_ok pool -> Forall storage_ok (release ref pool).
Proof.
  intros Hp; destruct ref as [?|i]; cbn [release]; [done|]; apply Forall_alter; [done|].
  intros st Hst; exact id.
Qed.

(** ** Objects *)

Lemma alter_lookup {A} (f : A -> A) (l : list A) i a : l !! i = Some a -> alter f i l = <[i := f a]> l.
Proof.
  intros Hi; apply list_eq; intros j; destruct (decide (i = j)) as [<-|Hne].
  - rewrite list_lookup_alter_eq, Hi, list_lookup_insert_eq; [done|by eapply lookup_lt_Some].
  - by rewrite list_lookup_alter_ne, list_lookup_insert_ne.
Qed.

Definition linked_in (s : Acl) : Prop := linked (entries s) (storage_pool s) (delegate_pool s).

(** Reads that find what they look for. *)
Lemma read_delegate_run s d x : delegate_pool s !! d = Some x -> read_delegate d s = (Ok x, s).
Proof. unfold read_delegate, bind, get; by intros ->. Qed.
Lemma read_storage_run s ref st : lookup_storage ref s = Some st -> read_storage ref s = (Ok st, s).
Proof. unfold read_storage, bind, get; by intros ->. Qed.
Lemma GetDelegate_run s e o : entries s !! e = Some o -> GetDelegate e s = (Ok o, s).
Proof. unfold GetDelegate, bind, get; by intros ->. Qed.

(** The state after an object gave its storage back. *)
Definition released (d e : nat) (ref : StorageRef) (s : Acl) : Acl :=
  set_delegate_pool (<[d := MkEntryDelegate (Some e) None]> (delegate_pool s))
    (set_storage_pool (release ref (storage_pool s)) s).

Lemma ReleaseEntry_run s e o :
  linked_in s -> entries s !! e = Some o ->
  match o with
  | None => ReleaseEntry e s = (Ok tt, s)
  | Some d => exists ref, delegate_pool s !! d = Some (MkEntryDelegate (Some e) (Some ref)) /\
                ReleaseEntry e s = (Ok tt, released d e ref s)
  end.
Proof.
  intros L He; unfold ReleaseEntry; rewrite (bind_ok _ _ _ _ _ (GetDelegate_run _ _ _ He)).
  destruct o as [d|]; [|done].
  destruct (linked_entry _ _ _ L _ _ He) as (ref & Hd); exists ref; split; [done|].
  unfold Release; rewrite (bind_ok _ _ _ _ _ (read_delegate_run _ _ _ Hd)); cbn [mStorage or_undefined mEntry].
  unfold bind at 1, ret at 1; destruct ref as [i|i]; [by destruct s|].
  destruct (linked_pool _ _ _ L _ _ _ Hd eq_refl) as (st & Hst & _).
  rewrite (bind_ok _ (fun _ => _) _ tt (set_storage_pool (release (InStoragePool i) (storage_pool s)) s)); [done|].
  rewrite (bind_ok _ _ _ _ _ (read_storage_run s (InStoragePool i) st Hst)).
  unfold write_storage, modify; cbn [release]; by rewrite (alter_lookup _ _ _ _ Hst).
Qed.

(** A storage of the pool that object [e] may take: a free one, or its own. *)
Definition free_storage (s : Acl) (e i : nat) : Prop :=
  exists st, storage_pool s !! i = Some st /\ (mInUse st = false \/ shown s e = Some (InStoragePool i)).

(** The object [e] without its delegate. *)
Definition without (s : Acl) (e : nat) (s' : Acl) : Prop :=
  linked (<[e := None]> (entries s)) (storage_pool s') (delegate_pool s') /\
  acl s' = acl s /\ iterator_pool s' = iterator_pool s /\ iterators s' = iterators s /\
  (Forall storage_ok (storage_pool s) -> Forall storage_ok (storage_pool s')) /\
  (forall d x, delegate_pool s' !! d = Some x -> mStorage x <> None -> delegate_pool s !! d = Some x) /\
  (forall d, entries s !! e = Some (Some d) -> exists x, delegate_pool s' !! d = Some x /\ mStorage x = None) /\
  (forall d x, delegate_pool s !! d = Some x -> mStorage x = None -> delegate_pool s' !! d = Some x) /\
  (forall i, free_storage s e i -> exists st, storage_pool s' !! i = Some st /\ mInUse st = false) /\
  length (delegate_pool s') = length (delegate_pool s).

Lemma ReleaseEntry_post s e o :
  linked_in s -> entries s !! e = Some o ->
  exists s', ReleaseEntry e s = (Ok tt, s') /\ entries s' = entries s /\ without s e s'.
Proof.
  intros L He; pose proof (ReleaseEntry_run s e o L He) as Hr; unfold without; destruct o as [d|].
  - destruct Hr as (ref & Hd & ->); eexists; split; [done|].
    unfold released; cbn [entries storage_pool delegate_pool acl iterator_pool iterators set_delegate_pool set_storage_pool].
    splits; try done.
    + by apply linked_release.
    + apply storage_ok_release.
    + intros d' x; rewrite list_lookup_insert_Some; intros [(_ & <- & _)|(_ & ?)]; done.
    + intros d' [= <-]%(eq_trans (eq_sym He)); eexists; split; [apply list_lookup_insert_eq; by eapply lookup_lt_Some|done].
    + intros d' x Hd' Hx; rewrite list_lookup_insert_ne; [done|]; intros <-; rewrite Hd in Hd'; by injection Hd' as <-.
    + intros i (st & Hst & Hf); destruct ref as [j|j]; cbn [release].
      { exists st; split; [done|]; destruct Hf as [Hf|Hf]; [done|]; unfold shown in Hf; rewrite He in Hf.
        cbn [mbind option_bind] in Hf; by rewrite Hd in Hf. }
      rewrite list_lookup_alter; destruct (decide (j = i)) as [->|Hne]; [rewrite Hst; by eexists|].
      exists st; split; [done|]; destruct Hf as [Hf|Hf]; [done|]; unfold shown in Hf; rewrite He in Hf.
      cbn [mbind option_bind] in Hf; rewrite Hd in Hf; by injection Hf.
    + by rewrite length_insert.
  - exists s; splits; try done; [|by rewrite He|].
    + by rewrite (list_insert_id _ _ _ He).
    + intros i (st & Hst & [Hf|Hf]); [by exists st|]; unfold shown in Hf; by rewrite He in Hf.
Qed.

(** What no operation on an object changes: the list and the iterators. *)
Definition same_list (s s' : Acl) : Prop :=
  acl s' = acl s /\ iterator_pool s' = iterator_pool s /\ iterators s' = iterators s.

#[global] Instance same_list_preorder : PreOrder same_list.
Proof. unfold same_list; split; [done|]; intros ??? (-> & -> & ->) (-> & -> & ->); done. Qed.

(** The invariant needs only the links from there on. *)
Lemma acl_ok_links s s' :
  acl_ok s -> same_list s s' -> linked_in s' ->
  (forall d x i, delegate_pool s' !! d = Some x -> mStorage x = Some (InAcl i) -> (i < length (used (acl s)))%nat) ->
  (Forall storage_ok (storage_pool s) -> Forall storage_ok (storage_pool s')) -> acl_ok s'.
Proof.
  intros [O1 O2 O3 O4 O5 O6] (Ea & Ep & Ei) L Hb Hs; split; rewrite ?Ea; auto.
  unfold iterators_ok; by rewrite Ep, Ei.
Qed.

Lemma ResetDelegate_post s e o :
  linked_in s -> entries s !! e = Some o ->
  exists s', ResetDelegate e s = (Ok tt, s') /\ linked_in s' /\ same_list s s' /\
    entries s' = <[e := None]> (entries s) /\
    (Forall storage_ok (storage_pool s) -> Forall storage_ok (storage_pool s')) /\
    (forall d x, delegate_pool s' !! d = Some x -> mStorage x <> None -> delegate_pool s !! d = Some x) /\
    (forall d, entries s !! e = Some (Some d) -> exists x, delegate_pool s' !! d = Some x /\ mStorage x = None) /\
    length (delegate_pool s') = length (delegate_pool s).
Proof.
  intros L He; destruct (ReleaseEntry_post s e o L He) as (s' & Hr & Ee & L' & Ea & Ep & Ei & Hs & Hd & Hf & _ & _ & El).
  unfold ResetDelegate; rewrite (bind_ok _ _ _ _ _ Hr); eexists; split; [reflexivity|].
  unfold same_list, linked_in; cbn [entries storage_pool delegate_pool acl iterator_pool iterators set_entries]; by rewrite Ee.
Qed.

(** The delegate that [FindDelegate] gives to [e]. *)
Definition finds (s : Acl) (e d : nat) : Prop :=
  entries s !! e = Some (Some d) \/
  (entries s !! e = Some None /\ exists x, delegate_pool s !! d = Some x /\ mStorage x = None).

Lemma first_index_Some {A} (f : A -> bool) l i :
  first_index f l = Some i -> exists a, l !! i = Some a /\ f a = true.
Proof.
  unfold first_index; destruct (list_find _ l) as [[j a]|] eqn:E; [|done]; intros [= <-].
  apply list_find_Some in E as (Hj & Hf & _); by exists a.
Qed.

Lemma first_index_None {A} (f : A -> bool) l :
  first_index f l = None -> forall i a, l !! i = Some a -> f a = false.
Proof.
  unfold first_index; destruct (list_find _ l) as [[j a]|] eqn:E; [done|]; intros _ i a Hi.
  apply list_find_None in E; apply not_true_is_false; exact (Forall_lookup_1 _ _ _ _ E Hi).
Qed.

Lemma FindDelegate_run s e o :
  entries s !! e = Some o ->
  exists r, FindDelegate e s = (Ok r, s) /\
    match r with
    | Some d => finds s e d
    | None => o = None /\ forall d x, delegate_pool s !! d = Some x -> mStorage x <> None
    end.
Proof.
  intros He; unfold FindDelegate; rewrite (bind_ok _ _ _ _ _ (GetDelegate_run _ _ _ He)); destruct o as [d|].
  { by eexists; split; [reflexivity|]; left. }
  unfold bind, get, ret; eexists; split; [reflexivity|].
  destruct (first_index _ (delegate_pool s)) as [d|] eqn:E.
  - apply first_index_Some in E as (x & Hd & Hx%bool_decide_eq_true); right; split; [done|]; by exists x.
  - split; [done|]; intros d x Hd; apply (first_index_None _ _ E) in Hd; by apply bool_decide_eq_false in Hd.
Qed.

Lemma StorageInit_in_use st : mInUse (StorageInit st) = true.
Proof. unfold StorageInit; by destruct (mInUse st) eqn:E. Qed.

Lemma StorageInit_used st : mInUse st = true -> StorageInit st = st.
Proof. unfold StorageInit; by intros ->. Qed.

Lemma StorageInit_ok st : storage_ok st -> storage_ok (StorageInit st).
Proof.
  unfold StorageInit; destruct (mInUse st); cbn [negb]; [done|]; intros _.
  apply Forall_replicate; unfold is_uint, kUndefinedNodeId; lia.
Qed.

(** What [InitDelegate] may be given. *)
Definition may_show (s : Acl) (e : nat) (ref : StorageRef) : Prop :=
  match ref with
  | InAcl p => (p < length (used (acl s)))%nat
  | InStoragePool i => free_storage s e i
  end.

Lemma InitDelegate_post s e d ref :
  acl_ok s -> finds s e d -> may_show s e ref ->
  exists s', InitDelegate d e ref s = (Ok tt, s') /\ acl_ok s' /\ same_list s s' /\
    entries s' = <[e := Some d]> (entries s) /\ shown s' e = Some ref.
Proof.
  intros O Hf Hm; pose proof (ok_linked _ O) as L.
  assert (exists o, entries s !! e = Some o) as (o & He) by (destruct Hf as [?|[? _]]; eauto).
  destruct (ReleaseEntry_post s e o L He) as (s1 & Hr & Ee & L1 & Ea & Ep & Ei & Hs & Hd & Hown & Hkeep & Hfree & _).
  assert (exists x, delegate_pool s1 !! d = Some x /\ mStorage x = None) as (x & Hx & Hx0).
  { destruct Hf as [Hf|[_ (x & Hx & Hx0)]]; [by apply Hown|]; exists x; auto. }
  assert (exists st, lookup_storage ref (set_entries (<[e := Some d]> (entries s1)) s1) = Some st /\
            takes ref (storage_pool s1) (match ref with InAcl _ => storage_pool s1
                                         | InStoragePool i => <[i := StorageInit st]> (storage_pool s1) end) /\
            (forall p, ref = InAcl p -> mInUse st = true)) as (st & Hst & Ht & Hu).
  { destruct ref as [p|i]; cbn [lookup_storage takes may_show acl storage_pool set_entries] in *.
    - destruct (used_lookup_lt _ _ Hm) as (st & Hst & Hu); exists st; rewrite Ea; splits; [done|done|by intros _ _].
    - destruct (Hfree _ Hm) as (st & Hst & Hu); exists st; splits; [done| |done].
      exists st, (StorageInit st); splits; try done; apply StorageInit_in_use. }
  unfold InitDelegate, SetDelegate.
  rewrite (bind_ok _ _ _ tt (set_entries (<[e := Some d]> (entries s1)) s1)) by by rewrite (bind_ok _ _ _ _ _ Hr).
  rewrite (bind_ok _ _ _ _ _ (read_storage_run _ _ _ Hst)).
  unfold bind at 1, write_storage at 1, modify at 1; eexists; split; [reflexivity|].
  pose proof (lookup_lt_Some _ _ _ He) as Hle; pose proof (lookup_lt_Some _ _ _ Hx) as Hld.
  pose proof (linked_assign _ _ _ _ e d x ref L1 (list_lookup_insert_eq _ _ _ Hle) Hx Hx0 Ht) as L2.
  rewrite list_insert_insert_eq in L2.
  assert (Hshow : forall s', entries s' = <[e := Some d]> (entries s) ->
    delegate_pool s' = <[d := MkEntryDelegate (Some e) (Some ref)]> (delegate_pool s1) -> shown s' e = Some ref).
  { intros s' E1 E2; unfold shown; rewrite E1, E2, list_lookup_insert_eq by done; cbn [mbind option_bind].
    by rewrite list_lookup_insert_eq. }
  assert (Hb : forall d' x' i, <[d := MkEntryDelegate (Some e) (Some ref)]> (delegate_pool s1) !! d' = Some x' ->
    mStorage x' = Some (InAcl i) -> (i < length (used (acl s)))%nat).
  { intros d' x' i; rewrite list_lookup_insert_Some; intros [(_ & <- & _)|(_ & Hd')] Hx'.
    - injection Hx' as ->; done.
    - eapply (ok_bounded _ O); [apply Hd; [exact Hd'|]|exact Hx']; congruence. }
  destruct ref as [p|i]; cbn [lookup_storage set_entries acl storage_pool] in Hst.
  - rewrite (StorageInit_used _ (Hu p eq_refl)).
    assert (same_list s (set_delegate_pool (<[d := MkEntryDelegate (Some e) (Some (InAcl p))]> (delegate_pool s1))
              (set_acl (<[p := st]> (acl s1)) (set_entries (<[e := Some d]> (entries s1)) s1)))) as Hsame.
    { unfold same_list; cbn; by rewrite (list_insert_id _ _ _ Hst). }
    splits; [|exact Hsame|cbn; by rewrite Ee|by apply Hshow; cbn; rewrite ?Ee].
    apply (acl_ok_links s); [done|exact Hsame| |exact Hb|exact Hs]; unfold linked_in; cbn; by rewrite Ee.
  - splits; [|done|cbn; by rewrite Ee|by apply Hshow; cbn; rewrite ?Ee].
    apply (acl_ok_links s); [done|done| |exact Hb|]; [unfold linked_in; cbn; by rewrite Ee|].
    cbn; intros Hok; apply Forall_insert; [by apply Hs|]; apply StorageInit_ok; apply Hs in Hok.
    exact (Forall_lookup_1 _ _ _ _ Hok Hst).
Qed.

(** *** Reading an object *)

Lemma shown_lookup s e ref :
  acl_ok s -> shown s e = Some ref ->
  exists d st, entries s !! e = Some (Some d) /\ delegate_pool s !! d = Some (MkEntryDelegate (Some e) (Some ref)) /\
    lookup_storage ref s = Some st /\ mInUse st = true /\ storage_ok st.
Proof.
  intros O; unfold shown; destruct (entries s !! e) as [[d|]|] eqn:He; cbn [mbind option_bind]; [|done|done].
  destruct (linked_entry _ _ _ (ok_linked _ O) _ _ He) as (ref' & Hd); rewrite Hd; cbn [mStorage]; intros [= <-].
  assert (exists st, lookup_storage ref' s = Some st /\ mInUse st = true) as (st & Hst & Hu).
  { destruct ref' as [i|i]; cbn [lookup_storage].
    - apply used_lookup_lt; by eapply (ok_bounded _ O).
    - by eapply (linked_pool _ _ _ (ok_linked _ O)). }
  exists d, st; splits; try done.
  destruct ref' as [i|i]; [exact (Forall_lookup_1 _ _ _ _ (ok_acl _ O) Hst)|exact (Forall_lookup_1 _ _ _ _ (ok_storage_pool _ O) Hst)].
Qed.

Lemma shown_none s e : acl_ok s -> is_Some (entries s !! e) -> shown s e = None -> entries s !! e = Some None.
Proof.
  intros O (o & He); unfold shown; rewrite He; destruct o as [d|]; cbn [mbind option_bind]; [|done].
  by destruct (linked_entry _ _ _ (ok_linked _ O) _ _ He) as (ref' & ->).
Qed.

(** An object shows a storage that says [d], or its delegate is the default one. *)
Lemma handle_cases s e :
  acl_ok s -> is_Some (entries s !! e) ->
  (exists d ref st, entries s !! e = Some (Some d) /\ shown s e = Some ref /\
     delegate_pool s !! d = Some (MkEntryDelegate (Some e) (Some ref)) /\ lookup_storage ref s = Some st /\
     mInUse st = true /\ storage_ok st /\ handle s e = Some (content st)) \/
  (entries s !! e = Some None /\ handle s e = None).
Proof.
  intros O He; unfold handle; destruct (shown s e) as [ref|] eqn:Hs.
  - destruct (shown_lookup s e ref O Hs) as (d & st & H1 & H2 & H3 & H4 & H5); left; exists d, ref, st.
    splits; try done; cbn [mbind option_bind]; by rewrite H3.
  - right; by rewrite (shown_none s e O He Hs).
Qed.

Lemma entry_storage_run s e ref st :
  shown s e = Some ref -> lookup_storage ref s = Some st -> entry_storage e s = (Ok st, s).
Proof.
  unfold shown, entry_storage; destruct (entries s !! e) as [[d|]|] eqn:He; cbn [mbind option_bind]; [|done|done].
  destruct (delegate_pool s !! d) as [x|] eqn:Hd; cbn [mbind option_bind]; [|done]; intros Hx Hst.
  rewrite (bind_ok _ _ _ _ _ (GetDelegate_run _ _ _ He)), (bind_ok _ _ _ _ _ (read_delegate_run _ _ _ Hd)), Hx.
  cbn [or_undefined]; unfold bind at 1, ret; by apply read_storage_run.
Qed.

(** What an object says, and how its getters tell. *)
Lemma reading_entry_run {A} s e st ref (f : EntryStorage -> result A) :
  shown s e = Some ref -> lookup_storage ref s = Some st -> reading_entry e f s = (f st, s).
Proof.
  intros Hs Hst; unfold reading_entry; rewrite (bind_ok _ _ _ _ _ (entry_storage_run _ _ _ _ Hs Hst)).
  by destruct (f st).
Qed.

Lemma reading_default {A} s e (f : EntryStorage -> result A) :
  entries s !! e = Some None -> reading_entry e f s = (Err CHIP_ERROR_NOT_IMPLEMENTED, s).
Proof.
  intros He; unfold reading_entry, entry_storage.
  by rewrite (bind_err _ _ _ CHIP_ERROR_NOT_IMPLEMENTED s) by by rewrite (bind_ok _ _ _ _ _ (GetDelegate_run _ _ _ He)).
Qed.

Lemma handle_inv s e d :
  handle s e = Some d -> exists ref st, shown s e = Some ref /\ lookup_storage ref s = Some st /\ d = content st.
Proof.
  unfold handle; destruct (shown s e) as [ref|]; [|done]; cbn [mbind option_bind].
  destruct (lookup_storage ref s) as [st|] eqn:E; [|done]; intros [= <-]; by exists ref, st.
Qed.

Lemma count_used_lookup {A} (IsEmpty : A -> bool) l i a :
  take (count_used IsEmpty l) l !! i = Some a -> l !! i = Some a /\ IsEmpty a = false.
Proof.
  revert i; induction l as [|b l IH]; intros i; cbn [count_used]; [done|].
  destruct (IsEmpty b) eqn:E; [done|]; cbn [take]; destruct i as [|i]; cbn [lookup list_lookup]; [by intros [= <-]|].
  apply IH.
Qed.

Lemma count_used_le {A} (IsEmpty : A -> bool) l : (count_used IsEmpty l <= length l)%nat.
Proof. induction l as [|a l IH]; cbn [count_used length]; [done|]; destruct (IsEmpty a); lia. Qed.

(** The getters tell what [handle] says. *)
Lemma handle_getters s e d :
  handle s e = Some d ->
  EntryGetAuthMode e s = (Ok (eMode d), s) /\ EntryGetFabricIndex e s = (Ok (eFabric d), s) /\
  EntryGetPrivilege e s = (Ok (ePrivilege d), s) /\
  attempt (EntryGetAuxiliaryType e) s = (Ok CHIP_ERROR_NOT_IMPLEMENTED, s) /\
  EntryGetSubjectCount e s = (Ok (length (eSubjects d)), s) /\
  (forall i x, eSubjects d !! i = Some x -> EntryGetSubject e i s = (Ok x, s)) /\
  EntryGetTargetCount e s = (Ok (length (eTargets d)), s) /\
  (forall i x, eTargets d !! i = Some x -> EntryGetTarget e i s = (Ok x, s)).
Proof.
  intros (ref & st & Hs & Hst & ->)%handle_inv.
  unfold EntryGetAuthMode, EntryGetFabricIndex, EntryGetPrivilege, EntryGetSubjectCount, EntryGetSubject,
    EntryGetTargetCount, EntryGetTarget.
  splits; try (intros i x Hx); rewrite ?(reading_entry_run _ _ _ _ _ Hs Hst); try done.
  - unfold shown in Hs; destruct (entries s !! e) eqn:He; [|done].
    unfold attempt, EntryGetAuxiliaryType; by rewrite (bind_ok _ _ _ _ _ (GetDelegate_run _ _ _ He)).
  - cbn [content eSubjects]; unfold SubjectCount.
    by rewrite length_take, Nat.min_l by apply count_used_le.
  - cbn [content eSubjects] in Hx; apply count_used_lookup in Hx as [-> Hx].
    unfold SubjectStorage.Get; by rewrite Hx.
  - cbn [content eTargets]; unfold TargetCount.
    by rewrite length_fmap, length_take, Nat.min_l by apply count_used_le.
  - cbn [content eTargets] in Hx; rewrite list_lookup_fmap in Hx.
    destruct (take _ _ !! i) as [y|] eqn:E; [|done]; injection Hx as <-.
    apply count_used_lookup in E as [-> Hy]; unfold TargetStorage.Get; by rewrite Hy.
Qed.

(** ** Iterating over the list *)

Definition of_fabric (f : Z) (l : list AclEntry) : list AclEntry := filter (fun d => eFabric d = f) l.

Lemma of_fabric_cons f st l :
  of_fabric f (content st :: l) =
    if mFabricIndex st =? f then content st :: of_fabric f l else of_fabric f l.
Proof.
  unfold of_fabric; rewrite filter_cons; cbn [content eFabric]; destruct (Z.eqb_spec (mFabricIndex st) f).
  - by rewrite decide_True.
  - by rewrite decide_False.
Qed.

(** The entries of fabric [f] from position [q] of the list on. *)
Definition from_position (f : Z) (q : nat) (s : Acl) : list AclEntry :=
  of_fabric f (content <$> used (drop q (acl s))).

Record iterating (it : nat) (l : list AclEntry) (s : Acl) : Prop := {
  iterating_ok : acl_ok s;
  iterating_run : exists d x, iterators s !! it = Some (Some d) /\ iterator_pool s !! d = Some x /\
    mFabricFiltered x = true /\ l = from_position (itFabricIndex x) (next_position (length (acl s)) (itStorage x)) s }.

(** What an iterator of one fabric has still to give: the entries of its fabric behind the
    one it gave last. *)
Definition left (s : Acl) (it : nat) : option (list AclEntry) :=
  d ← iterators s !! it; d ← d; x ← iterator_pool s !! d;
  if mFabricFiltered x
  then Some (from_position (itFabricIndex x) (next_position (length (acl s)) (itStorage x)) s) else None.

Lemma left_found s it d x : iterators s !! it = Some (Some d) -> iterator_pool s !! d = Some x ->
  left s it = if mFabricFiltered x
    then Some (from_position (itFabricIndex x) (next_position (length (acl s)) (itStorage x)) s) else None.
Proof. intros Hit Hx; unfold left; rewrite Hit; cbn [mbind option_bind]; by rewrite Hx. Qed.

Definition can_show (e : nat) (s : Acl) : Prop := exists d, finds s e d.
Definition free_delegate (s : Acl) : Prop := exists d x, delegate_pool s !! d = Some x /\ mStorage x = None.
Definition free_iterator (s : Acl) : Prop := exists d x, iterator_pool s !! d = Some x /\ itInUse x = false.

Lemma read_iterator_run s d x : iterator_pool s !! d = Some x -> read_iterator d s = (Ok x, s).
Proof. unfold read_iterator, bind, get; by intros ->. Qed.
Lemma GetIteratorDelegate_run s it o : iterators s !! it = Some o -> GetIteratorDelegate it s = (Ok o, s).
Proof. unfold GetIteratorDelegate, bind, get; by intros ->. Qed.

(** The invariant does not see the iterators, but for their links. *)
Lemma acl_ok_iterators s s' :
  acl_ok s -> acl s' = acl s -> storage_pool s' = storage_pool s -> delegate_pool s' = delegate_pool s ->
  entries s' = entries s -> iterators_ok s' -> acl_ok s'.
Proof. intros [O1 O2 O3 O4 O5 O6] E1 E2 E3 E4 Hi; split; rewrite ?E1, ?E2, ?E3, ?E4; done. Qed.

Lemma acl_ok_iterator_pool s d x : acl_ok s -> acl_ok (set_iterator_pool (<[d := x]> (iterator_pool s)) s).
Proof.
  intros O; apply (acl_ok_iterators s); try done.
  intros it d' Hit; apply list_lookup_insert_is_Some; by apply (ok_iterators _ O it).
Qed.

Lemma linked_new es pool ds : linked es pool ds -> linked (es ++ [None]) pool ds.
Proof.
  intros [L1 L2 L3 L4]; split; [| |exact L3|exact L4].
  - intros e d He; apply lookup_app_Some in He as [He|[_ He]]; [by apply L1|].
    by destruct (e - length es)%nat.
  - intros d x ref Hd Hx; destruct (L2 _ _ _ Hd Hx) as (e & He & Hes); exists e; split; [done|].
    by apply lookup_app_l_Some.
Qed.

Lemma acl_ok_new s : acl_ok s -> acl_ok (set_entries (entries s ++ [None]) s).
Proof.
  intros [O1 O2 O3 O4 O5 O6]; split; [|exact O2|exact O3|exact O4|exact O5|exact O6].
  exact (linked_new _ _ _ O1).
Qed.

Lemma Entries_run s it fabric o :
  acl_ok s -> iterators s !! it = Some o ->
  exists r s', Entries it fabric s = (r, s') /\ acl_ok s' /\ acl s' = acl s /\
    entries s' = entries s /\ delegate_pool s' = delegate_pool s /\ length (iterators s') = length (iterators s) /\
    match r with
    | Ok _ => exists d x, iterators s' !! it = Some (Some d) /\ iterator_pool s' !! d = Some x /\
                mFabricFiltered x = bool_decide (is_Some fabric) /\ itStorage x = None /\
                forall f, fabric = Some f -> itFabricIndex x = f
    | Err err => err = CHIP_ERROR_BUFFER_TOO_SMALL /\ o = None /\ ~ free_iterator s
    end.
Proof.
  intros O Hit; unfold Entries, FindIterator.
  assert (exists r, (let! d := GetIteratorDelegate it in match d with
             | Some d => ret (Some d)
             | None => let! s := get in ret (first_index (fun x => negb (itInUse x)) (iterator_pool s)) end) s = (Ok r, s)
            /\ match r with Some d => is_Some (iterator_pool s !! d) | None => o = None /\ ~ free_iterator s end)
    as (r & Hr & Hd).
  { rewrite (bind_ok _ _ _ _ _ (GetIteratorDelegate_run _ _ _ Hit)); destruct o as [d|].
    { eexists; split; [reflexivity|]; by eapply (ok_iterators _ O). }
    eexists; split; [reflexivity|]; destruct (first_index _ (iterator_pool s)) eqn:E.
    - apply first_index_Some in E as (x & -> & _); by eexists.
    - split; [done|]; intros (d & x & Hx & Hu); apply (first_index_None _ _ E) in Hx; by rewrite Hu in Hx. }
  rewrite (bind_ok _ _ _ _ _ Hr); destruct r as [d|].
  2: { exists (Err CHIP_ERROR_BUFFER_TOO_SMALL), s; splits; try done; tauto. }
  assert (exists l, ReleaseIterator it s = (Ok tt, set_iterator_pool l s) /\
            (forall d, is_Some (l !! d) <-> is_Some (iterator_pool s !! d))) as (l & Hl & Hls).
  { unfold ReleaseIterator; rewrite (bind_ok _ _ _ _ _ (GetIteratorDelegate_run _ _ _ Hit)); destruct o as [d'|].
    - destruct (ok_iterators _ O it d' Hit) as (x & Hx); rewrite (bind_ok _ _ _ _ _ (read_iterator_run _ _ _ Hx)).
      eexists; split; [reflexivity|]; intros d''; apply list_lookup_insert_is_Some.
    - exists (iterator_pool s); split; [by destruct s|done]. }
  rewrite (bind_ok _ _ _ _ _ Hl); unfold bind at 1, modify at 1.
  destruct (proj2 (Hls d) Hd) as (x & Hx); unfold bind at 1; rewrite (read_iterator_run _ d x) by done.
  unfold write_iterator, modify; eexists _, _; split; [reflexivity|].
  pose proof (lookup_lt_Some _ _ _ Hit) as Hlt; splits; try done.
  - apply (acl_ok_iterators s); try done; intros it' d'; cbn; rewrite list_lookup_insert_Some.
    intros [(_ & [= <-] & _)|(_ & Hd')]; apply list_lookup_insert_is_Some; [by eexists|].
    apply Hls; by apply (ok_iterators _ O it').
  - cbn; by rewrite length_insert.
  - eexists d, _; cbn; rewrite list_lookup_insert_eq by done; split; [done|].
    rewrite list_lookup_insert_eq by by eapply lookup_lt_Some. splits; try done; by intros f ->.
Qed.

Lemma in_use_lt s q st : acl_ok s -> acl s !! q = Some st -> mInUse st = true -> (q < length (used (acl s)))%nat.
Proof.
  intros O Hq Hu; destruct (decide (q < length (used (acl s)))%nat) as [?|Hge]; [done|].
  pose proof (used_lookup_ge _ _ (ok_unused _ O) (not_lt _ _ Hge) _ Hq); congruence.
Qed.

Lemma from_position_step f q s st :
  acl s !! q = Some st -> mInUse st = true ->
  from_position f q s = if mFabricIndex st =? f then content st :: from_position f (S q) s else from_position f (S q) s.
Proof.
  intros Hq Hu; unfold from_position; rewrite (drop_S _ _ _ Hq); cbn [used]; rewrite Hu.
  by rewrite fmap_cons, of_fabric_cons.
Qed.

Lemma from_position_end f q s :
  (forall st, acl s !! q = Some st -> mInUse st = false) -> from_position f q s = [].
Proof.
  intros Hq; unfold from_position; destruct (acl s !! q) as [st|] eqn:E.
  - rewrite (drop_S _ _ _ E); cbn [used]; by rewrite (Hq st).
  - by rewrite drop_ge by by apply lookup_ge_None.
Qed.

(** What a call of [Next] leaves as it was. *)
Definition next_frame (s s' : Acl) (d : nat) (x x' : EntryIteratorDelegate) : Prop :=
  acl_ok s' /\ acl s' = acl s /\ iterators s' = iterators s /\ length (entries s') = length (entries s) /\
  iterator_pool s' !! d = Some x' /\ mFabricFiltered x' = mFabricFiltered x /\ itFabricIndex x' = itFabricIndex x.

Definition next_result (s s' : Acl) (e : nat) (x x' : EntryIteratorDelegate) (r : result unit) : Prop :=
  let rest x := from_position (itFabricIndex x) (next_position (length (acl s)) (itStorage x)) s in
  match r with
  | Ok _ => can_show e s' /\ exists st, handle s' e = Some (content st) /\
              (mFabricFiltered x = true -> rest x = content st :: rest x')
  | Err err => (err = CHIP_ERROR_SENTINEL /\ (mFabricFiltered x = true -> rest x = [] /\ rest x' = []) /\
               (can_show e s -> can_show e s')) \/
               (err = CHIP_ERROR_BUFFER_TOO_SMALL /\ ~ can_show e s)
  end.

(** Showing the entry at position [q] to the object. *)
Lemma show_position s e q st :
  acl_ok s -> is_Some (entries s !! e) -> acl s !! q = Some st -> mInUse st = true ->
  exists r s', (let! found := FindDelegate e in
     match found with
     | Some delegate => InitDelegate delegate e (InAcl q)
     | None => fail CHIP_ERROR_BUFFER_TOO_SMALL
     end) s = (r, s') /\ acl_ok s' /\ same_list s s' /\ length (entries s') = length (entries s) /\
    match r with
    | Ok _ => can_show e s' /\ handle s' e = Some (content st)
    | Err err => err = CHIP_ERROR_BUFFER_TOO_SMALL /\ s' = s /\ ~ can_show e s
    end.
Proof.
  intros O (o & He) Hq Hu; destruct (FindDelegate_run s e o He) as (r & Hf & Hr).
  rewrite (bind_ok _ _ _ _ _ Hf); destruct r as [d|].
  - destruct (InitDelegate_post s e d (InAcl q) O Hr) as (s' & -> & O' & Hsame & Ee & Hs').
    { by eapply in_use_lt. }
    eexists _, s'; splits; try done; [by rewrite Ee, length_insert|].
    pose proof (lookup_lt_Some _ _ _ He) as Hlt; split.
    + exists d; left; rewrite Ee; by apply list_lookup_insert_eq.
    + unfold handle; rewrite Hs'; cbn [mbind option_bind lookup_storage]; destruct Hsame as (-> & _); by rewrite Hq.
  - destruct Hr as [-> Hno]; exists (Err CHIP_ERROR_BUFFER_TOO_SMALL), s; cbn iota; splits; try done.
    intros (d & [?|(_ & x & Hd & Hx)]); [congruence|by eapply Hno].
Qed.

Lemma next_entry_run fuel d e s x :
  acl_ok s -> iterator_pool s !! d = Some x -> is_Some (entries s !! e) ->
  (length (acl s) - next_position (length (acl s)) (itStorage x) < fuel)%nat ->
  exists r s' x', next_entry fuel d e s = (r, s') /\ next_frame s s' d x x' /\ next_result s s' e x x' r.
Proof.
  revert s x; induction fuel as [|fuel IH]; intros s x O Hx He Hf; [lia|]; cbn [next_entry].
  rewrite (bind_ok _ _ _ _ _ (read_iterator_run _ _ _ Hx)); unfold bind at 1, get at 1.
  set (q := next_position (length (acl s)) (itStorage x)) in *.
  set (x1 p := MkEntryIteratorDelegate (itInUse x) (mFabricFiltered x) (itFabricIndex x) (Some p)).
  set (s1 p := set_iterator_pool (<[d := x1 p]> (iterator_pool s)) s).
  assert (Hwrite : forall p, write_iterator d (x1 p) s = (Ok tt, s1 p)) by done.
  assert (O1 : forall p, acl_ok (s1 p)) by (intros p; by apply acl_ok_iterator_pool).
  assert (Hx1 : forall p, iterator_pool (s1 p) !! d = Some (x1 p)).
  { intros p; apply list_lookup_insert_eq; by eapply lookup_lt_Some. }
  assert (Hstop : (forall st, acl s !! q = Some st -> mInUse st = false) ->
    exists s' x', (Err CHIP_ERROR_SENTINEL, s1 (length (acl s))) = (Err (A := unit) CHIP_ERROR_SENTINEL, s') /\
      next_frame s s' d x x' /\ next_result s s' e x x' (Err CHIP_ERROR_SENTINEL)).
  { intros Hq; eexists _, (x1 (length (acl s))); split; [reflexivity|]; split; [by unfold next_frame; splits|].
    left; splits; [done| |done]; intros _; split; [by apply from_position_end|]; cbn [itStorage itFabricIndex x1].
    unfold next_position; rewrite (proj2 (Nat.ltb_ge _ _)) by lia; apply from_position_end.
    intros st Hst; by apply lookup_lt_Some in Hst; lia. }
  destruct (acl s !! q) as [st|] eqn:Hq; [destruct (mInUse st) eqn:Hu; cbn [negb]|].
  - rewrite (bind_ok _ _ _ _ _ (Hwrite q)).
    assert (Hlt : (q < length (acl s))%nat) by by eapply lookup_lt_Some.
    assert (Hnext : next_position (length (acl s)) (Some q) = S q).
    { unfold next_position; by rewrite (proj2 (Nat.ltb_lt _ _) Hlt). }
    destruct (mFabricFiltered x && negb (mFabricIndex st =? itFabricIndex x)) eqn:Hff.
    + destruct (IH (s1 q) (x1 q) (O1 q) (Hx1 q) He) as (r & s' & x' & Hrun & Hfr & Hres).
      { cbn [acl itStorage x1 s1 set_iterator_pool]; rewrite Hnext; lia. }
      exists r, s', x'; splits; [done|exact Hfr|].
      apply andb_prop in Hff as [Hff1 Hff2%negb_true_iff].
      unfold next_result in *; cbn [acl itStorage itFabricIndex x1 s1 set_iterator_pool mFabricFiltered] in Hres.
      rewrite Hnext in Hres; fold q; rewrite (from_position_step _ q s st Hq Hu), Hff2; exact Hres.
    + destruct (show_position (s1 q) e q st (O1 q) He Hq Hu) as (r & s' & Hrun & O' & (Ea & Ep & Ei) & El & Hres).
      exists r, s', (x1 q); splits; [exact Hrun|unfold next_frame; splits; try done; by rewrite Ep|].
      unfold next_result; destruct r as [[]|err].
      * destruct Hres as [Hc Hh]; split; [done|]; exists st; split; [done|]; intros Hfl.
        rewrite Hfl in Hff; cbn [andb] in Hff; apply negb_false_iff in Hff.
        cbn [itStorage itFabricIndex x1]; rewrite Hnext; fold q; by rewrite (from_position_step _ q s st Hq Hu), Hff.
      * destruct Hres as (-> & _ & Hno); by right.
  - rewrite (bind_ok _ _ _ _ _ (Hwrite (length (acl s)))); unfold fail.
    eexists _; apply Hstop; by intros ? [= <-].
  - rewrite (bind_ok _ _ _ _ _ (Hwrite (length (acl s)))); unfold fail; by eexists _; apply Hstop.
Qed.

Lemma from_position_start f s : from_position f 0 s = of_fabric f (contents s).
Proof. done. Qed.

(** *** The delegate keeps the promises of the interface *)

#[export, program] Instance example_laws : AclDelegateLaws := {|
  store_ok := acl_ok;
  entries_of f s := of_fabric f (contents s);
  reads e d s := handle s e = Some d;
  iterates := iterating;
  entry_object e s := is_Some (entries s !! e);
  free s := free_iterator s /\ free_delegate s;
  can_iterate := free_delegate;
  can_read := can_show |}.
Next Obligation. done. Qed.
Next Obligation.
  intros f s O; set (s1 := set_iterators (iterators s ++ [None]) s).
  assert (O1 : acl_ok s1).
  { apply (acl_ok_iterators s); try done; intros it d Hit; cbn in Hit.
    apply lookup_app_Some in Hit as [Hit|[_ Hit]]; [by apply (ok_iterators _ O it)|].
    by destruct (it - length (iterators s))%nat. }
  assert (Hit : iterators s1 !! length (iterators s) = Some None) by (cbn; by rewrite lookup_app_r, Nat.sub_diag).
  destruct (Entries_run s1 _ (Some f) None O1 Hit) as (r & s2 & Hrun & O2 & Ea & _ & Ed & _ & Hr).
  exists (length (iterators s)), s1, r, s2; splits; [done|exact Hrun| | |].
  - intros ->; destruct Hr as (d & x & Hd & Hx & Hfl & Hst & Hf); split; [done|]; exists d, x.
    splits; try done; rewrite Hst, (Hf f eq_refl); unfold from_position; cbn [next_position]; by rewrite Ea.
  - destruct r as [[]|err]; [by left|]; right; by destruct Hr as (-> & _).
  - intros [Hfi (d & x & Hd & Hx)]; destruct r as [[]|err]; [|by destruct Hr as (_ & _ & [])].
    split; [done|]; exists d, x; by rewrite Ed.
Qed.
Next Obligation.
  intros it l s [O (d & x & Hit & Hx & Hfl & ->)]; eexists _, _; split; [reflexivity|]; splits.
  - split; [by apply acl_ok_new|]; by exists d, x.
  - cbn; rewrite lookup_app_r, Nat.sub_diag by done; by eexists.
  - intros (d' & x' & Hd & Hx'); exists d'; right; cbn; split; [by rewrite lookup_app_r, Nat.sub_diag|]; by exists x'.
Qed.
Next Obligation.
  intros it e l s [O (d & x & Hit & Hx & Hfl & ->)] He.
  destruct (next_entry_run (S (length (acl s))) d e s x O Hx He) as (r & s' & x' & Hrun & Hfr & Hres); [lia|].
  destruct Hfr as (O' & Ea & Ei & El & Hx' & Hfl' & Hfi'); unfold next_result in Hres.
  exists r, s'; splits.
  - cbn [IteratorNext example_delegate]; unfold Next, bind at 1, get at 1.
    by rewrite (bind_ok _ _ _ _ _ (GetIteratorDelegate_run _ _ _ Hit)).
  - destruct r as [[]|err].
    + destruct Hres as (_ & st & Hh & Hl); eexists (content st), _; splits; [by apply Hl|done| |].
      * split; [done|]; exists d, x'; rewrite Ei, Hfl', Ea; splits; try done.
        unfold from_position; by rewrite Ea, Hfi'.
      * apply lookup_lt_is_Some; rewrite El; by apply lookup_lt_is_Some.
    + destruct Hres as [(-> & Hl & _)|(-> & _)]; [left; split; [done|by apply Hl]|by right].
  - intros Hc; destruct r as [[]|err]; [by destruct Hres|].
    destruct Hres as [(-> & _ & Hc')|(-> & Hno)]; [split; [by apply Hc'|done]|done].
Qed.
Next Obligation. intros e d s Hh; by destruct (handle_getters s e d Hh). Qed.
Next Obligation. intros e d s Hh; by destruct (handle_getters s e d Hh) as (_ & ? & _). Qed.
Next Obligation. intros e d s Hh; by destruct (handle_getters s e d Hh) as (_ & _ & ? & _). Qed.
Next Obligation. intros e d s Hh; by destruct (handle_getters s e d Hh) as (_ & _ & _ & ? & _). Qed.
Next Obligation. intros e d s Hh; by destruct (handle_getters s e d Hh) as (_ & _ & _ & _ & ? & _). Qed.
Next Obligation. intros e d s i x Hh; destruct (handle_getters s e d Hh) as (_ & _ & _ & _ & _ & Hg & _); apply Hg. Qed.
Next Obligation. intros e d s Hh; by destruct (handle_getters s e d Hh) as (_ & _ & _ & _ & _ & _ & ? & _). Qed.
Next Obligation. intros e d s i x Hh; destruct (handle_getters s e d Hh) as (_ & _ & _ & _ & _ & _ & _ & Hg); apply Hg. Qed.

(** ** Positions *)

(** The position in the list of the [i]-th entry of fabric [f]. *)
Fixpoint position (f : Z) (i : nat) (l : list AclEntry) : option nat :=
  match l with
  | [] => None
  | d :: l =>
      if eFabric d =? f then match i with O => Some 0%nat | S i => S <$> position f i l end
      else S <$> position f i l
  end.

Lemma position_lookup f i l p :
  position f i l = Some p ->
  exists d, l !! p = Some d /\ eFabric d = f /\ of_fabric f l !! i = Some d /\ (i <= p)%nat.
Proof.
  revert i p; induction l as [|d l IH]; intros i p; cbn [position]; [done|]; unfold of_fabric; rewrite filter_cons.
  destruct (Z.eqb_spec (eFabric d) f) as [Hd|Hd]; [rewrite decide_True by done|rewrite decide_False by done].
  - destruct i as [|i]; [intros [= <-]; by exists d; splits; try lia|].
    destruct (position f i l) as [q|] eqn:E; [|done]; intros [= <-].
    destruct (IH _ _ E) as (d' & ? & ? & ? & ?); exists d'; splits; try done; lia.
  - destruct (position f i l) as [q|] eqn:E; [|done]; intros [= <-].
    destruct (IH _ _ E) as (d' & ? & ? & ? & ?); exists d'; splits; try done; lia.
Qed.

Lemma position_None f i l : position f i l = None <-> (length (of_fabric f l) <= i)%nat.
Proof.
  revert i; induction l as [|d l IH]; intros i; cbn [position]; [cbn; split; [lia|done]|].
  unfold of_fabric; rewrite filter_cons; destruct (Z.eqb_spec (eFabric d) f) as [Hd|Hd].
  - rewrite decide_True by done; destruct i as [|i]; cbn [length]; [split; [done|lia]|].
    rewrite fmap_None, IH; unfold of_fabric; lia.
  - rewrite decide_False by done; by rewrite fmap_None, IH.
Qed.

Lemma position_delete f i l p :
  position f i l = Some p ->
  of_fabric f (delete p l) = delete i (of_fabric f l) /\
  forall g, g <> f -> of_fabric g (delete p l) = of_fabric g l.
Proof.
  revert i p; induction l as [|d l IH]; intros i p; cbn [position]; [done|]; unfold of_fabric.
  destruct (Z.eqb_spec (eFabric d) f) as [Hd|Hd].
  - destruct i as [|i]; [intros [= <-]|destruct (position f i l) as [q|] eqn:E; [|done]; intros [= <-]];
      (split; [|intros g Hg]); cbn [delete list_delete]; rewrite ?filter_cons.
    + by rewrite decide_True.
    + by rewrite decide_False by congruence.
    + rewrite !decide_True by done; cbn [delete list_delete]; f_equal; by apply (IH _ _ E).
    + rewrite !decide_False by congruence; by apply (IH _ _ E).
  - destruct (position f i l) as [q|] eqn:E; [|done]; intros [= <-].
    (split; [|intros g Hg]); cbn [delete list_delete]; rewrite ?filter_cons.
    + rewrite !decide_False by done; by apply (IH _ _ E).
    + destruct (decide (eFabric d = g)); [f_equal|]; by apply (IH _ _ E).
Qed.

(** *** The searches of the delegate *)

Lemma convert_relative index f a r l :
  (r <= index)%nat ->
  convert index f kRelativeToAbsolute a r l = Nat.add a <$> position f (index - r) (content <$> used l).
Proof.
  revert a r; induction l as [|st l IH]; intros a r Hr; cbn [convert used]; [done|].
  destruct (mInUse st); cbn [negb]; [|done]; rewrite fmap_cons; cbn [position content eFabric].
  destruct (mFabricIndex st =? f) eqn:Hf.
  - destruct (Nat.eqb_spec index r) as [<-|Hne].
    { rewrite Nat.sub_diag; cbn; by rewrite Nat.add_0_r. }
    rewrite IH by lia; replace (index - r)%nat with (S (index - S r))%nat by lia.
    destruct (position f _ _); cbn; [f_equal; lia|done].
  - rewrite IH by lia; destruct (position f _ _); cbn; [f_equal; lia|done].
Qed.

Lemma convert_absolute index f a r l us st fs :
  l = us ++ st :: fs -> Forall (fun st => mInUse st = true) us -> mInUse st = true -> mFabricIndex st = f ->
  (index = a + length us)%nat ->
  convert index f kAbsoluteToRelative a r l = Some (r + length (of_fabric f (content <$> us)))%nat.
Proof.
  intros -> Hus Hst Hf; revert a r; induction Hus as [|u us Hu Hus IH]; intros a r Hi; cbn [app convert].
  - rewrite Hst, Hf, Z.eqb_refl; cbn [negb length] in *; rewrite (proj2 (Nat.eqb_eq _ _)) by lia.
    f_equal; cbn; lia.
  - rewrite Hu; cbn [negb length] in *; rewrite fmap_cons, of_fabric_cons.
    destruct (mFabricIndex u =? f); [rewrite (proj2 (Nat.eqb_neq _ _)) by lia|];
      rewrite IH by lia; f_equal; cbn [length]; lia.
Qed.

Lemma FindUsed_run s i f : acl_ok s -> FindUsedInAcl i (Some f) s = position f i (contents s).
Proof.
  intros O; unfold FindUsedInAcl, ConvertIndex; rewrite convert_relative by lia; rewrite Nat.sub_0_r.
  fold (contents s); destruct (position f i (contents s)) as [p|] eqn:E; cbn [fmap option_fmap option_map from_option id].
  - destruct (position_lookup _ _ _ _ E) as (d & Hp & _); apply lookup_lt_Some in Hp.
    unfold contents in Hp; rewrite length_fmap in Hp.
    destruct (used_lookup_lt _ _ Hp) as (st & Hst & Hu); change (0 + p)%nat with p; by rewrite Hst, Hu.
  - by rewrite (lookup_ge_None_2 (acl s)).
Qed.

Lemma count_entries_spec f l : count_entries (Some f) l = length (of_fabric f (content <$> used l)).
Proof.
  induction l as [|st l IH]; cbn [count_entries used]; [done|].
  destruct (mInUse st); cbn [negb]; [|done]; rewrite fmap_cons, of_fabric_cons, IH.
  by destruct (mFabricIndex st =? f).
Qed.

Lemma FindUnused_run s :
  acl_ok s ->
  FindUnusedInAcl s = if (length (contents s) <? length (acl s))%nat then Some (length (contents s)) else None.
Proof.
  intros O; unfold contents; rewrite length_fmap; unfold FindUnusedInAcl.
  destruct (first_index _ (acl s)) as [i|] eqn:E.
  - unfold first_index in E; destruct (list_find _ (acl s)) as [[j a]|] eqn:F; [|done]; injection E as ->.
    apply list_find_Some in F as (Hj & Hf%negb_true_iff & Hmin).
    assert (i = length (used (acl s))) as ->.
    { destruct (lt_eq_lt_dec i (length (used (acl s)))) as [[Hlt|He]|Hgt]; [|done|].
      - destruct (used_lookup_lt _ _ Hlt) as (st & Hst & Hu); congruence.
      - destruct (lookup_lt_is_Some_2 (acl s) (length (used (acl s)))) as (st & Hst).
        { apply lookup_lt_Some in Hj; lia. }
        exfalso; apply (Hmin _ _ Hst Hgt); by rewrite (used_lookup_ge _ _ (ok_unused _ O) (le_n _) _ Hst). }
    by rewrite (proj2 (Nat.ltb_lt _ _)) by by eapply lookup_lt_Some.
  - bcase; [|done]; destruct (lookup_lt_is_Some_2 (acl s) (length (used (acl s)))) as (st & Hst); [done|].
    apply (first_index_None _ _ E) in Hst as Hf; cbn in Hf.
    by rewrite (used_lookup_ge _ _ (ok_unused _ O) (le_n _) _ Hst) in Hf.
Qed.

(** ** Changing the list *)

Lemma acl_ok_list s us fs :
  acl_ok s -> Forall (fun st => mInUse st = true) us -> Forall (fun st => mInUse st = false) fs ->
  Forall storage_ok (us ++ fs) -> bounded (fun _ => length us) (delegate_pool s) ->
  acl_ok (set_acl (us ++ fs) s) /\ contents (set_acl (us ++ fs) s) = content <$> us.
Proof.
  intros [O1 O2 O3 O4 O5 O6] Hus Hfs Hok Hb; pose proof (used_app us fs Hus Hfs) as Hu.
  split; [|unfold contents; cbn; by rewrite Hu].
  split; cbn; rewrite ?Hu; try done; by rewrite drop_app_length.
Qed.

(** Writing at position [p]: over an entry, or right after the last. *)
Lemma write_in_list s p st :
  acl_ok s -> (p <= length (used (acl s)))%nat -> (p < length (acl s))%nat -> mInUse st = true -> storage_ok st ->
  let s' := set_acl (<[p := st]> (acl s)) s in
  acl_ok s' /\
  contents s' = (if (p <? length (contents s))%nat then <[p := content st]> (contents s) else contents s ++ [content st]).
Proof.
  intros O Hp Hlt Hu Hok; cbv zeta; pose proof (ok_acl _ O) as Hall; pose proof (ok_bounded _ O) as Hb.
  assert (Hfs := ok_unused _ O); unfold contents; rewrite length_fmap; set (us := used (acl s)) in *.
  pose proof (used_prefix (acl s)) as Hacl; fold us in Hacl; set (fs := drop (length us) (acl s)) in *.
  pose proof (used_in_use (acl s)) as Hus; fold us in Hus.
  destruct (Nat.ltb_spec p (length us)) as [Hpl|Hpl].
  - assert (<[p := st]> (acl s) = <[p := st]> us ++ fs) as ->.
    { by rewrite Hacl, insert_app_l. }
    destruct (acl_ok_list s (<[p := st]> us) fs) as [O' Hc]; [done|by apply Forall_insert|done| |intros d x j; rewrite length_insert; apply Hb|].
    + rewrite Hacl, Forall_app in Hall; apply Forall_app; destruct Hall; split; [by apply Forall_insert|done].
    + split; [exact O'|]; unfold contents in Hc; rewrite Hc; by rewrite list_fmap_insert.
  - assert (p = length us) as -> by lia; destruct fs as [|f fs'].
    { rewrite app_nil_r in Hacl; rewrite <-Hacl in Hlt; lia. }
    assert (<[length us := st]> (acl s) = (us ++ [st]) ++ fs') as ->.
    { rewrite Hacl at 1; rewrite <-(Nat.add_0_r (length us)) at 1; by rewrite insert_app_r, <-app_assoc. }
    apply Forall_cons_1 in Hfs as [_ Hfs].
    destruct (acl_ok_list s (us ++ [st]) fs') as [O' Hc]; [done|apply Forall_app; auto|done| | |].
    + rewrite Hacl, Forall_app, Forall_cons_iff in Hall; rewrite !Forall_app; repeat split; tauto || by constructor.
    + intros d x j Hd Hx; rewrite length_app; pose proof (Hb d x j Hd Hx); lia.
    + split; [exact O'|]; unfold contents in Hc; rewrite Hc; by rewrite fmap_app.
Qed.

(** *** [CreateEntry], [UpdateEntry] *)

Context (fast_copy : FAST_COPY_SUPPORT = true).

Lemma Copy_run s e d p :
  acl_ok s -> handle s e = Some d ->
  exists st, mInUse st = true /\ storage_ok st /\ content st = d /\
    Copy e (InAcl p) s = (Ok tt, set_acl (<[p := st]> (acl s)) s).
Proof.
  intros O (ref & st & Hs & Hst & ->)%handle_inv.
  destruct (shown_lookup s e ref O Hs) as (d & st' & He & Hd & Hst' & Hu & Hok); rewrite Hst in Hst'; injection Hst' as <-.
  exists st; splits; try done; unfold Copy; rewrite (bind_ok _ _ _ _ _ (GetDelegate_run _ _ _ He)), fast_copy.
  rewrite (bind_ok _ _ _ _ _ (read_delegate_run _ _ _ Hd)); cbn [mStorage or_undefined].
  unfold bind at 1, ret at 1; by rewrite (bind_ok _ _ _ _ _ (read_storage_run _ _ _ Hst)).
Qed.

(** What stays of a state when the list changes. *)
Definition same_objects (s s' : Acl) : Prop :=
  length (entries s') = length (entries s) /\ length (iterators s') = length (iterators s) /\
  length (acl s') = length (acl s).

Lemma CreateEntry_run s e d :
  acl_ok s -> handle s e = Some d ->
  if (length (contents s) <? length (acl s))%nat then
    exists s', CreateEntry e s = (Ok (length (of_fabric (eFabric d) (contents s))), s') /\
      acl_ok s' /\ contents s' = contents s ++ [d] /\ same_objects s s'
  else CreateEntry e s = (Err CHIP_ERROR_BUFFER_TOO_SMALL, s).
Proof.
  intros O Hh; pose proof (FindUnused_run s O) as Hun; unfold CreateEntry.
  destruct (Nat.ltb_spec (length (contents s)) (length (acl s))) as [Hlt|];
    unfold bind at 1, get at 1; rewrite Hun; [|done].
  set (n := length (contents s)) in *.
  assert (Hnu : n = length (used (acl s))) by apply length_fmap.
  destruct (Copy_run s e d n O Hh) as (st & Hu & Hok & <- & Hcopy); rewrite (bind_ok _ _ _ _ _ Hcopy).
  destruct (write_in_list s n st O) as [O' Hc]; try done; [lia|].
  set (s' := set_acl (<[n := st]> (acl s)) s) in *.
  assert (Hst : lookup_storage (InAcl n) s' = Some st) by (by apply list_lookup_insert_eq).
  rewrite (bind_ok _ _ _ _ _ (read_storage_run _ _ _ Hst)); unfold bind, get, ret.
  assert (Hconv : ConvertIndex n (mFabricIndex st) kAbsoluteToRelative s' = length (of_fabric (mFabricIndex st) (contents s))).
  { unfold ConvertIndex.
    rewrite (convert_absolute _ _ 0 0 _ (used (acl s)) st (drop (S n) (acl s))); try done.
    - cbn; rewrite insert_take_drop by done; f_equal.
      rewrite Hnu; transitivity (take (length (used (acl s))) (used (acl s) ++ drop (length (used (acl s))) (acl s))).
      { by rewrite <-used_prefix. }
      apply take_app_length.
    - apply used_in_use. }
  rewrite Hconv; exists s'; splits; try done.
  - rewrite Hc; fold n; by rewrite (proj2 (Nat.ltb_ge _ _)).
  - unfold same_objects; cbn; splits; try done; by rewrite length_insert.
Qed.

Lemma UpdateEntry_run s e d f i :
  acl_ok s -> handle s e = Some d ->
  match position f i (contents s) with
  | Some p => exists s', UpdateEntry i e (Some f) s = (Ok tt, s') /\ acl_ok s' /\
                contents s' = <[p := d]> (contents s) /\ same_objects s s'
  | None => UpdateEntry i e (Some f) s = (Err CHIP_ERROR_SENTINEL, s)
  end.
Proof.
  intros O Hh; pose proof (FindUsed_run s i f O) as Hfind; unfold UpdateEntry.
  destruct (position f i (contents s)) as [p|] eqn:Hp; unfold bind, get; rewrite Hfind; [|done].
  destruct (position_lookup _ _ _ _ Hp) as (d' & Hlt%lookup_lt_Some & _).
  assert (Hlen : length (contents s) = length (used (acl s))) by apply length_fmap.
  assert (length (used (acl s)) <= length (acl s))%nat.
  { rewrite (used_prefix (acl s)) at 2; rewrite length_app; lia. }
  destruct (Copy_run s e d p O Hh) as (st & Hu & Hok & <- & ->).
  destruct (write_in_list s p st O) as [O' Hc]; try done; [lia|lia|].
  eexists; splits; [done|done|by rewrite Hc, (proj2 (Nat.ltb_lt _ _))|].
  unfold same_objects; cbn; by rewrite length_insert.
Qed.

(** *** [DeleteEntry] *)

Lemma for_each_run {S} (I : nat -> S -> Prop) (body : nat -> M S unit) i n s :
  (forall k s, (i <= k < i + n)%nat -> I k s -> exists s', body k s = (Ok tt, s') /\ I (Datatypes.S k) s') ->
  I i s -> exists s', AccessControl.for_each i n body s = (Ok tt, s') /\ I (i + n)%nat s'.
Proof.
  revert i s; induction n as [|n IH]; intros i s Hbody Hi; cbn [AccessControl.for_each].
  { exists s; by rewrite Nat.add_0_r. }
  destruct (Hbody i s) as (s1 & H1 & I1); [lia|done|]; rewrite (bind_ok _ _ _ _ _ H1).
  destruct (IH (Datatypes.S i) s1) as (s' & H2 & I2); [intros k s2 Hk; apply Hbody; lia|done|].
  exists s'; split; [exact H2|]; by rewrite <-Nat.add_succ_comm.
Qed.

Lemma EnsureStorageInPool_run s d e ref :
  acl_ok s -> entries s !! e = Some (Some d) -> delegate_pool s !! d = Some (MkEntryDelegate (Some e) (Some ref)) ->
  exists r s', EnsureStorageInPool d s = (r, s') /\ acl_ok s' /\ same_list s s' /\ entries s' = entries s /\
    length (delegate_pool s') = length (delegate_pool s) /\ handle s' e = handle s e /\
    match r with
    | Ok _ => exists i, shown s' e = Some (InStoragePool i)
    | Err err => err = CHIP_ERROR_BUFFER_TOO_SMALL
    end.
Proof.
  intros O He Hd; unfold EnsureStorageInPool; rewrite (bind_ok _ _ _ _ _ (read_delegate_run _ _ _ Hd)); cbn [mStorage or_undefined mEntry].
  unfold bind at 1, ret at 1; assert (Hs : shown s e = Some ref).
  { unfold shown; rewrite He; cbn [mbind option_bind]; by rewrite Hd. }
  destruct ref as [p|p]; [|exists (Ok tt), s; splits; try done; by exists p].
  unfold bind at 1, get at 1; cbn [FindStorage]; destruct (first_index _ (storage_pool s)) as [i|] eqn:Hi.
  2: { by exists (Err CHIP_ERROR_BUFFER_TOO_SMALL), s. }
  apply first_index_Some in Hi as (old & Hold & Hfree%negb_true_iff).
  destruct (shown_lookup s e _ O Hs) as (d' & st & _ & _ & Hst & Hu & Hok).
  rewrite (bind_ok _ _ _ _ _ (read_storage_run _ _ _ Hst)).
  unfold bind, write_storage, write_delegate, modify; eexists (Ok tt), _; split; [reflexivity|].
  set (s' := set_delegate_pool _ _).
  assert (Hs' : shown s' e = Some (InStoragePool i)).
  { unfold shown; cbn; rewrite He; cbn; by rewrite list_lookup_insert_eq by by eapply lookup_lt_Some. }
  assert (same_list s s') as Hsame by done; splits; try done.
  - apply (acl_ok_links s); try done.
    + unfold linked_in; cbn; eapply linked_move; [exact (ok_linked _ O)|exact He|exact Hd|].
      by exists old, st.
    + intros d2 x2 j; cbn; rewrite list_lookup_insert_Some; intros [(_ & <- & _)|(_ & Hd2)]; [done|].
      intros Hx2; by eapply (ok_bounded _ O).
    + cbn; intros Hall; by apply Forall_insert.
  - cbn; by rewrite length_insert.
  - unfold handle; rewrite Hs', Hs; cbn [mbind option_bind]; rewrite Hst; cbn; by rewrite list_lookup_insert_eq by by eapply lookup_lt_Some.
  - by exists i.
Qed.

Lemma FixBeforeDelete_run s i d :
  acl_ok s -> (d < length (delegate_pool s))%nat ->
  exists s', FixBeforeDelete i d s = (Ok tt, s') /\ acl_ok s' /\ same_list s s' /\ entries s' = entries s /\
    length (delegate_pool s') = length (delegate_pool s).
Proof.
  intros O (x & Hd)%lookup_lt_is_Some_2; unfold FixBeforeDelete.
  rewrite (bind_ok _ _ _ _ _ (read_delegate_run _ _ _ Hd)); destruct (decide _) as [Hx|]; [|by exists s].
  destruct (linked_delegate _ _ _ (ok_linked _ O) _ _ _ Hd Hx) as (e & Hxe & He); destruct x as [xe xs]; cbn in Hxe, Hx; subst.
  destruct (EnsureStorageInPool_run s d e _ O He Hd) as (r & s' & Hrun & O' & Hsame & Ee & El & _ & Hr).
  exists s'; splits; try done; unfold attempt, bind; rewrite Hrun; destruct r as [[]|err]; [done|by rewrite Hr].
Qed.

Lemma shift_down_run st us fs :
  Forall (fun st => mInUse st = true) us -> Forall (fun st => mInUse st = false) fs ->
  shift_down (st :: us ++ fs) = us ++ Clear :: fs.
Proof.
  intros Hus Hfs; revert st; induction Hus as [|u us Hu Hus IH]; intros st; cbn [app].
  - destruct Hfs as [|f fs Hf Hfs]; cbn [shift_down]; [done|by rewrite Hf].
  - pose proof (IH u) as Hr; cbn [shift_down] in *; rewrite Hu; f_equal; exact Hr.
Qed.

(** The list with entry [i] taken out, the delegates being those of before. *)
Lemma delete_in_list s i :
  acl_ok s -> (i < length (used (acl s)))%nat ->
  exists us fs, take i (acl s) ++ shift_down (drop i (acl s)) = us ++ fs /\
    us = delete i (used (acl s)) /\ length (us ++ fs) = length (acl s) /\
    Forall (fun st => mInUse st = true) us /\ Forall (fun st => mInUse st = false) fs /\ Forall storage_ok (us ++ fs).
Proof.
  intros O Hi; pose proof (ok_unused _ O) as Hfs; pose proof (ok_acl _ O) as Hok.
  pose proof (used_in_use (acl s)) as Hus; pose proof (used_prefix (acl s)) as Hacl.
  set (us := used (acl s)) in *; set (fs := drop (length us) (acl s)) in *.
  destruct (lookup_lt_is_Some_2 us i Hi) as (st & Hst).
  assert (Hcut : drop i (acl s) = st :: drop (S i) us ++ fs).
  { by rewrite Hacl, drop_app_le, (drop_S _ _ _ Hst) by lia. }
  exists (delete i us), (Clear :: fs); splits; [| | | |by constructor|].
  - rewrite Hcut, shift_down_run by (done || by apply Forall_drop).
    rewrite Hacl, take_app_le, delete_take_drop, <-app_assoc by lia; done.
  - done.
  - rewrite length_app, length_delete by by eexists.
    transitivity (length (us ++ fs)); [rewrite length_app; cbn [length]; lia|by rewrite <-Hacl].
  - by apply Forall_delete.
  - rewrite Hacl, Forall_app in Hok; destruct Hok; apply Forall_app; split; [by apply Forall_delete|].
    constructor; [|done]; apply Forall_replicate; unfold is_uint, kUndefinedNodeId; lia.
Qed.

(** While the delegates are put right: those before [k] fit the shorter list. *)
Record fixing (n k : nat) (s0 s : Acl) : Prop := {
  fixing_linked : linked_in s;
  fixing_bounded : bounded (fun d => if (d <? k)%nat then (n - 1)%nat else n) (delegate_pool s);
  fixing_same : same_list s0 s;
  fixing_pool : Forall storage_ok (storage_pool s);
  fixing_entries : length (entries s) = length (entries s0);
  fixing_delegates : length (delegate_pool s) = length (delegate_pool s0) }.

Lemma fixing_next n k s0 s :
  fixing n k s0 s ->
  (forall x j, delegate_pool s !! k = Some x -> mStorage x = Some (InAcl j) -> (j < n - 1)%nat) ->
  fixing n (S k) s0 s.
Proof.
  intros [F1 F2 F3 F4 F5 F6] Hk; split; try done; intros d x j Hd Hx; pose proof (F2 d x j Hd Hx) as Hj; cbn beta in *.
  destruct (decide (d = k)) as [->|Hne].
  - rewrite (proj2 (Nat.ltb_lt _ _)) by lia; by eapply Hk.
  - destruct (Nat.ltb_spec d k), (Nat.ltb_spec d (S k)); lia.
Qed.

Lemma bounded_unshow n ds ds' :
  bounded n ds -> (forall d x, ds' !! d = Some x -> mStorage x <> None -> ds !! d = Some x) -> bounded n ds'.
Proof. intros Hb Hsub d x j Hd Hx; eapply Hb; [|exact Hx]; apply Hsub; [done|congruence]. Qed.

Lemma FixAfterDelete_run n k s0 s index :
  fixing n k s0 s -> (k < length (delegate_pool s))%nat -> (index < n)%nat ->
  exists s', FixAfterDelete index k s = (Ok tt, s') /\ fixing n (S k) s0 s'.
Proof.
  intros F (x & Hk)%lookup_lt_is_Some_2 Hi; pose proof F as [F1 F2 F3 F4 F5 F6].
  unfold FixAfterDelete; rewrite (bind_ok _ _ _ _ _ (read_delegate_run _ _ _ Hk)).
  assert (Hskip : (forall j, mStorage x = Some (InAcl j) -> (j < n - 1)%nat) ->
    exists s', (Ok (A := unit) tt, s) = (Ok tt, s') /\ fixing n (S k) s0 s').
  { intros Hx; exists s; split; [done|]; apply fixing_next; [done|]; intros x' j; rewrite Hk; intros [= <-]; apply Hx. }
  destruct (mStorage x) as [[j|p]|] eqn:Hx; [|by apply Hskip|by apply Hskip].
  destruct (linked_delegate _ _ _ F1 _ _ _ Hk Hx) as (e & Hxe & He).
  assert (Hjn : (j < n)%nat).
  { pose proof (F2 _ _ _ Hk Hx) as Hb; cbn beta in Hb; destruct (k <? k)%nat; lia. }
  destruct (Nat.eqb_spec j index) as [->|Hne]; [|destruct (Nat.ltb_spec index j)].
  - rewrite Hxe; cbn [or_undefined]; unfold bind at 1, ret at 1.
    destruct (ResetDelegate_post s e _ F1 He) as (s' & Hr & L' & Hsame & Ee & Hs & Hd & Hn & El).
    exists s'; split; [exact Hr|]; apply fixing_next; [split|].
    + done.
    + by eapply bounded_unshow.
    + by transitivity s.
    + by apply Hs.
    + by rewrite Ee, length_insert.
    + congruence.
    + intros x' j; destruct (Hn _ He) as (x'' & -> & Hx''); intros [= <-]; congruence.
  - unfold write_delegate, modify; rewrite Hxe; eexists; split; [done|]; apply fixing_next; [split|].
    + unfold linked_in; cbn; destruct x as [xe xs]; cbn in Hxe, Hx; subst; by eapply linked_move.
    + apply bounded_insert; [done|]; cbn [mStorage]; cbv beta; intros j' [= <-]; destruct (k <? k)%nat; lia.
    + done.
    + done.
    + done.
    + cbn; by rewrite length_insert.
    + cbn; intros x' j'; rewrite list_lookup_insert_eq by (by eapply lookup_lt_Some); intros [= <-]; cbn; intros [= <-]; lia.
  - apply Hskip; intros j' [= <-]; lia.
Qed.

Lemma FixIterators_run s index :
  acl_ok s ->
  exists s', AccessControl.for_each 0 (length (iterator_pool s)) (FixIteratorAfterDelete index) s = (Ok tt, s') /\
    acl_ok s' /\ acl s' = acl s /\ entries s' = entries s /\ iterators s' = iterators s.
Proof.
  intros O.
  destruct (for_each_run (fun _ s' => acl_ok s' /\ acl s' = acl s /\ entries s' = entries s /\ iterators s' = iterators s /\
    length (iterator_pool s') = length (iterator_pool s)) (FixIteratorAfterDelete index) 0 (length (iterator_pool s)) s)
    as (s' & Hrun & Hok & Ea & Ee & Ei & _); [|done|by exists s'].
  intros d s1 Hd (O1 & Ea & Ee & Ei & El); destruct (lookup_lt_is_Some_2 (iterator_pool s1) d) as (x & Hx); [lia|].
  unfold FixIteratorAfterDelete; rewrite (bind_ok _ _ _ _ _ (read_iterator_run _ _ _ Hx)); unfold bind at 1, get at 1.
  destruct (itStorage x) as [j|]; [|by exists s1]; destruct (_ && _); [|by exists s1].
  eexists; split; [reflexivity|]; splits; try done; [by apply acl_ok_iterator_pool|cbn; by rewrite length_insert].
Qed.

Lemma list_fmap_delete {A B} (f : A -> B) (i : nat) (l : list A) : f <$> delete i l = delete i (f <$> l).
Proof. by rewrite !delete_take_drop, fmap_app, fmap_take, fmap_drop. Qed.

Lemma DeleteEntry_run s f i :
  acl_ok s ->
  match position f i (contents s) with
  | Some p => exists s', DeleteEntry i (Some f) s = (Ok tt, s') /\ acl_ok s' /\
                contents s' = delete p (contents s) /\ same_objects s s'
  | None => DeleteEntry i (Some f) s = (Err CHIP_ERROR_SENTINEL, s)
  end.
Proof.
  intros O; pose proof (FindUsed_run s i f O) as Hfind; unfold DeleteEntry.
  destruct (position f i (contents s)) as [p|] eqn:Hp; unfold bind at 1, get at 1; rewrite Hfind; [|done].
  destruct (position_lookup _ _ _ _ Hp) as (_ & Hlt%lookup_lt_Some & _ & _ & Hip); unfold contents in Hlt; rewrite length_fmap in Hlt.
  destruct (for_each_run (fun _ s' => acl_ok s' /\ same_list s s' /\ entries s' = entries s /\
    length (delegate_pool s') = length (delegate_pool s)) (FixBeforeDelete p) 0 (length (delegate_pool s)) s)
    as (s1 & Hrun1 & O1 & Hsame & Ee1 & El1); [|done|].
  { intros d s1 Hd (O1 & Hsame & Ee & El); destruct (FixBeforeDelete_run s1 p d O1) as (s2 & H2 & O2 & Hs2 & Ee2 & El2); [lia|].
    exists s2; splits; try congruence; by transitivity s1. }
  rewrite (bind_ok _ _ _ _ _ Hrun1); unfold bind at 1, modify at 1; destruct Hsame as (Ea1 & Ep1 & Ei1).
  destruct (delete_in_list s1 p O1) as (us & fs & Hacl & Hus & Hlen & Hu & Hf & Hok); [by rewrite Ea1|].
  rewrite Hacl; set (s2 := set_acl (us ++ fs) s1); rewrite Ea1 in Hus, Hlen.
  assert (Hn : (length us = length (used (acl s)) - 1)%nat) by (rewrite Hus; apply length_delete; by apply lookup_lt_is_Some_2).
  destruct (for_each_run (fun k => fixing (length (used (acl s))) k s2) (FixAfterDelete i) 0 (length (delegate_pool s)) s2)
    as (s3 & Hrun3 & F3); [| |].
  { intros k s3 Hk F; apply FixAfterDelete_run; [done| |lia]; rewrite (fixing_delegates _ _ _ _ F); cbn; lia. }
  { split; try done; [exact (ok_linked _ O1)|rewrite <-Ea1; exact (ok_bounded _ O1)|exact (ok_storage_pool _ O1)]. }
  rewrite (bind_ok _ _ _ _ _ Hrun3); rewrite Nat.add_0_l in F3; destruct F3 as [F1 F2 (Ea3 & Ep3 & Ei3) F4 F5 F6].
  pose proof (used_app us fs Hu Hf) as Huse; cbn in Ea3.
  assert (O3 : acl_ok s3).
  { split; rewrite ?Ea3, ?Huse; try done; [|by rewrite drop_app_length|].
    - intros d x j Hd Hx; pose proof (F2 d x j Hd Hx) as Hj; cbn beta in Hj; apply lookup_lt_Some in Hd.
      rewrite (proj2 (Nat.ltb_lt _ _)) in Hj by (cbn in F6; lia); lia.
    - unfold iterators_ok; rewrite Ei3, Ep3; exact (ok_iterators _ O1). }
  destruct (FixIterators_run s3 i O3) as (s' & Hrun4 & O4 & Ea4 & Ee4 & Ei4).
  assert (Hpool : length (iterator_pool s) = length (iterator_pool s3)) by (rewrite Ep3; cbn; by rewrite Ep1).
  rewrite Hpool, Hrun4; exists s'; splits; try done.
  - unfold contents; rewrite Ea4, Ea3, Huse, Hus; apply list_fmap_delete.
  - unfold same_objects; rewrite Ee4, Ei4, Ea4, F5, Ei3, Ea3, Hlen; cbn; by rewrite Ee1, Ei1.
Qed.

(** ** Operations that leave the list as it is *)

Definition grows (s s' : Acl) : Prop :=
  (length (entries s) <= length (entries s'))%nat /\ (length (iterators s) <= length (iterators s'))%nat.

#[global] Instance grows_preorder : PreOrder grows.
Proof. unfold grows; split; [done|]; intros ???; lia. Qed.

Definition kept (s s' : Acl) : Prop := acl_ok s' /\ acl s' = acl s /\ grows s s'.
Definition harmless {A} (m : M Acl A) (s : Acl) : Prop := post m s (fun _ => kept s).

Lemma kept_trans s1 s2 s3 : kept s1 s2 -> kept s2 s3 -> kept s1 s3.
Proof. intros (_ & E1 & G1) (O & E2 & G2); split; [done|]; split; [congruence|by transitivity s2]. Qed.

Lemma kept_refl s : acl_ok s -> kept s s.
Proof. by split. Qed.

Lemma kept_entry s s' e : kept s s' -> is_Some (entries s !! e) -> is_Some (entries s' !! e).
Proof. intros (_ & _ & G & _) He; apply lookup_lt_is_Some in He; apply lookup_lt_is_Some; lia. Qed.

Lemma harmless_bind {A B} (m : M Acl A) (k : A -> M Acl B) s :
  harmless m s -> (forall a s', m s = (Ok a, s') -> kept s s' -> harmless (k a) s') -> harmless (bind m k) s.
Proof.
  unfold harmless, post, bind; destruct (m s) as [[a|err] s1]; intros (K & N) Hk; [|split; [done|]; destruct N; split; congruence].
  pose proof (Hk a s1 eq_refl K) as Hka; destruct (k a s1) as [r s2]; destruct Hka as [K2 N2].
  split; [by eapply kept_trans|done].
Qed.

Lemma harmless_read {A} (m : M Acl A) r s :
  m s = (r, s) -> acl_ok s -> r <> Err UNDEFINED_BEHAVIOUR -> r <> Err PROGRAM_ABORT -> harmless m s.
Proof. unfold harmless, post; intros -> O N1 N2; split; [by apply kept_refl|done]. Qed.

Lemma harmless_ret {A} (a : A) s : acl_ok s -> harmless (ret a) s.
Proof. intros O; by eapply harmless_read. Qed.

Lemma harmless_fail {A} err s :
  acl_ok s -> err <> UNDEFINED_BEHAVIOUR -> err <> PROGRAM_ABORT -> harmless (A := A) (fail err) s.
Proof. intros O ??; eapply harmless_read; [done|done|congruence..]. Qed.

Lemma harmless_attempt {A} (m : M Acl A) s : harmless m s -> harmless (attempt m) s.
Proof. unfold harmless, post, attempt; destruct (m s) as [[?|[]] ?]; naive_solver. Qed.

Lemma harmless_scoped {A B} (new : M Acl A) (delete : A -> M Acl unit) (body : A -> M Acl B) s :
  harmless new s ->
  (forall a s', new s = (Ok a, s') -> kept s s' -> harmless (body a) s') ->
  (forall a s' s'', new s = (Ok a, s') -> kept s' s'' -> harmless (delete a) s'') ->
  harmless (scoped new delete body) s.
Proof.
  intros Hn Hb Hd; unfold scoped; apply harmless_bind; [done|]; intros a s1 E K.
  pose proof (Hb a s1 E K) as H1; pose proof (Hd a s1) as H2; unfold harmless, post in *.
  destruct (body a s1) as [r s2]; destruct H1 as [K2 N]; pose proof (H2 s2 E K2) as H3.
  destruct (delete a s2) as [r' s3]; destruct H3 as [K3 _]; split; [by eapply kept_trans|done].
Qed.

Lemma same_list_kept s s' : acl_ok s' -> same_list s s' -> length (entries s') = length (entries s) -> kept s s'.
Proof. intros O (Ea & _ & Ei) El; split; [done|]; split; [done|]; unfold grows; rewrite Ei; lia. Qed.

(** *** Objects *)

Lemma NewEntry_harmless s : acl_ok s -> harmless NewEntry s.
Proof.
  intros O; unfold harmless, post, NewEntry; splits; try done; split; [by apply acl_ok_new|].
  split; [done|]; unfold grows; cbn; rewrite length_app; lia.
Qed.

Lemma DeleteEntryObject_harmless s e : acl_ok s -> is_Some (entries s !! e) -> harmless (DeleteEntryObject e) s.
Proof.
  intros O (o & He); destruct (ResetDelegate_post s e o (ok_linked _ O) He) as (s' & Hr & L & Hsame & Ee & Hs & Hd & _).
  unfold harmless, post; unfold ResetDelegate in Hr; unfold DeleteEntryObject; rewrite Hr; splits; try done.
  apply same_list_kept; [|done|by rewrite Ee, length_insert].
  apply (acl_ok_links s); try done; intros d x i Hx Hi; eapply (ok_bounded _ O); [|exact Hi]; apply Hd; [done|congruence].
Qed.

Lemma InitDelegate_harmless s e d ref : acl_ok s -> finds s e d -> may_show s e ref -> harmless (InitDelegate d e ref) s.
Proof.
  intros O Hf Hm; destruct (InitDelegate_post s e d ref O Hf Hm) as (s' & Hr & O' & Hsame & Ee & _).
  unfold harmless, post; rewrite Hr; splits; try done; apply same_list_kept; [done|done|by rewrite Ee, length_insert].
Qed.

Lemma PrepareEntry_harmless s e : acl_ok s -> is_Some (entries s !! e) -> harmless (PrepareEntry e) s.
Proof.
  intros O (o & He); destruct (FindDelegate_run s e o He) as (r & Hf & Hr).
  unfold PrepareEntry; apply harmless_bind; [by eapply harmless_read|]; intros r' s' E _.
  rewrite Hf in E; injection E as <- <-; destruct r as [d|]; [|by apply harmless_fail].
  assert (exists x, delegate_pool s !! d = Some x /\ (mStorage x = None \/ mStorage x = shown s e)) as (x & Hd & Hx).
  { destruct Hr as [Hd|(_ & x & Hd & Hx)]; [|by exists x; auto].
    destruct (linked_entry _ _ _ (ok_linked _ O) _ _ Hd) as (ref & Hx); eexists; split; [exact Hx|]; right.
    unfold shown; rewrite Hd; cbn [mbind option_bind]; by rewrite Hx. }
  apply harmless_bind; [by eapply harmless_read; [apply read_delegate_run|..]|].
  intros x' s' E _; rewrite (read_delegate_run _ _ _ Hd) in E; injection E as <- <-.
  apply harmless_bind; [by eapply harmless_read|]; intros s2 s3 [= <- <-] _.
  destruct (FindStorage (mStorage x) s) as [i|] eqn:Hfs; [|by apply harmless_fail].
  apply InitDelegate_harmless; [done|done|]; cbn [may_show]; unfold FindStorage in Hfs.
  assert (first_index (fun x => negb (mInUse x)) (storage_pool s) = Some i -> free_storage s e i) as Hfree.
  { intros (st & Hst & Hu%negb_true_iff)%first_index_Some; exists st; auto. }
  destruct (mStorage x) as [[p|p]|] eqn:Hxs; [by apply Hfree| |by apply Hfree].
  injection Hfs as ->; destruct Hx as [Hx|Hx]; [done|].
  destruct (linked_pool _ _ _ (ok_linked _ O) _ _ _ Hd Hxs) as (st & Hst & _); exists st; auto.
Qed.

Lemma ReadEntry_run s i e f :
  acl_ok s -> is_Some (entries s !! e) ->
  exists r s', ReadEntry i e (Some f) s = (r, s') /\ kept s s' /\
    match r with
    | Ok _ => exists d, of_fabric f (contents s) !! i = Some d /\ handle s' e = Some d
    | Err err => (err = CHIP_ERROR_SENTINEL /\ (length (of_fabric f (contents s)) <= i)%nat) \/
                 (err = CHIP_ERROR_BUFFER_TOO_SMALL /\ ~ can_show e s)
    end.
Proof.
  intros O He; unfold ReadEntry, bind at 1, get at 1; rewrite (FindUsed_run s i f O).
  destruct (position f i (contents s)) as [p|] eqn:Hp.
  2: { exists (Err CHIP_ERROR_SENTINEL), s; splits; [done|by apply kept_refl|]; left; by rewrite <-position_None. }
  destruct (position_lookup _ _ _ _ Hp) as (d & Hd & _ & Hi & _).
  assert (Hlt := lookup_lt_Some _ _ _ Hd); unfold contents in Hlt; rewrite length_fmap in Hlt.
  destruct (used_lookup_lt _ _ Hlt) as (st & Hst & Hu).
  destruct (show_position s e p st O He Hst Hu) as (r & s' & Hrun & O' & Hsame & El & Hr).
  exists r, s'; splits; [done|by apply same_list_kept|]; destruct r as [[]|err]; [|by right; tauto].
  exists d; split; [done|]; rewrite (proj2 Hr); f_equal; unfold contents in Hd; rewrite list_lookup_fmap in Hd.
  destruct (lookup_used (acl s) p) as [E|E]; rewrite E in Hd; [done|]; rewrite Hst in Hd; by injection Hd.
Qed.

(** *** Changing an object *)

(** A change of a storage that keeps it in use, with node ids for subjects. *)
Definition good_edit {A} (f : EntryStorage -> result (A * EntryStorage)) : Prop :=
  forall st, mInUse st = true -> storage_ok st ->
    match f st with
    | Ok (_, st') => mInUse st' = true /\ storage_ok st'
    | Err err => err <> UNDEFINED_BEHAVIOUR /\ err <> PROGRAM_ABORT
    end.

Lemma changing_entry_harmless {A} s e (f : EntryStorage -> result (A * EntryStorage)) :
  acl_ok s -> is_Some (entries s !! e) -> good_edit f -> harmless (changing_entry e f) s.
Proof.
  intros O He Hf; unfold changing_entry.
  destruct (handle_cases s e O He) as [(d & ref & st & He' & Hs & Hd & _)|[He' _]].
  2: { apply harmless_bind; [by eapply harmless_read; [apply GetDelegate_run|..]|]; intros o s' E _.
       rewrite (GetDelegate_run _ _ _ He') in E; injection E as <- <-; by apply harmless_fail. }
  apply harmless_bind; [by eapply harmless_read; [apply GetDelegate_run|..]|]; intros o s' E _.
  rewrite (GetDelegate_run _ _ _ He') in E; injection E as <- <-.
  destruct (EnsureStorageInPool_run s d e ref O He' Hd) as (r & s1 & Hrun & O1 & Hsame & Ee & _ & _ & Hr).
  assert (K : kept s s1) by (apply same_list_kept; [done|done|by rewrite Ee]).
  apply harmless_bind.
  { unfold harmless, post; rewrite Hrun; destruct r as [[]|err]; [done|by rewrite Hr]. }
  intros [] s' E _; rewrite Hrun in E; injection E as -> <-; destruct Hr as (i & Hs1).
  destruct (shown_lookup s1 e _ O1 Hs1) as (d1 & st1 & He1 & Hd1 & Hst1 & Hu1 & Hok1).
  assert (d1 = d) as -> by (rewrite Ee, He' in He1; by injection He1).
  unfold harmless, post; rewrite (bind_ok _ _ _ _ _ (read_delegate_run _ _ _ Hd1)); cbn [mStorage or_undefined].
  unfold bind at 1, ret at 1; rewrite (bind_ok _ _ _ _ _ (read_storage_run _ _ _ Hst1)).
  pose proof (Hf st1 Hu1 Hok1) as Hedit; destruct (f st1) as [[a st']|err].
  2: { unfold fail; split; [by apply kept_refl|]; destruct Hedit; split; congruence. }
  destruct Hedit as [Hu' Hok']; unfold bind, write_storage, modify, ret; splits; try done.
  apply same_list_kept; [|done|done]; apply (acl_ok_links s1); try done; unfold linked_in; cbn.
  - destruct (ok_linked _ O1) as [L1 L2 L3 L4]; split; try done; intros d' x j Hx Hj.
    destruct (decide (j = i)) as [->|Hne]; [exists st'|rewrite list_lookup_insert_ne by done; by eapply L3].
    split; [|done]; apply list_lookup_insert_eq; cbn in Hst1; by eapply lookup_lt_Some.
  - exact (ok_bounded _ O1).
  - intros Hall; by apply Forall_insert.
Qed.

(** The changes an [Entry] object offers. *)
Inductive edit :=
| EditAuthMode (mode : AuthMode)
| EditFabricIndex (fabric : Z)
| EditPrivilege (privilege : Z)
| EditSetSubject (index : nat) (subject : Z)
| EditAddSubject (subject : Z)
| EditRemoveSubject (index : nat)
| EditSetTarget (index : nat) (x : Target)
| EditAddTarget (x : Target)
| EditRemoveTarget (index : nat).

(** A subject given to an object is a [NodeId]. *)
Definition edit_ok (ed : edit) : Prop :=
  match ed with EditSetSubject _ subject | EditAddSubject subject => is_uint 64 subject | _ => True end.

Definition run_edit (e : nat) (ed : edit) : M Acl unit :=
  match ed with
  | EditAuthMode mode => SetAuthMode e mode
  | EditFabricIndex fabric => SetFabricIndex e fabric
  | EditPrivilege privilege => SetPrivilege e privilege
  | EditSetSubject index subject => SetSubject e index subject
  | EditAddSubject subject => AddSubject e subject ;; ret tt
  | EditRemoveSubject index => RemoveSubject e index
  | EditSetTarget index x => SetTarget e index x
  | EditAddTarget x => AddTarget e x ;; ret tt
  | EditRemoveTarget index => RemoveTarget e index
  end.

Lemma good_subjects {A} (f : list Z -> result (A * list Z)) :
  (forall l, Forall (is_uint 64) l ->
     match f l with Ok (_, l') => Forall (is_uint 64) l' | Err err => err <> UNDEFINED_BEHAVIOUR /\ err <> PROGRAM_ABORT end) ->
  good_edit (on_subjects f).
Proof.
  intros Hf st Hu Hok; unfold on_subjects; pose proof (Hf (mSubjects st) Hok) as Hl.
  destruct (f (mSubjects st)) as [[a l]|err]; [|done]; by split.
Qed.

Lemma good_targets {A} (f : list TargetStorage.t -> result (A * list TargetStorage.t)) :
  (forall l err, f l = Err err -> err <> UNDEFINED_BEHAVIOUR /\ err <> PROGRAM_ABORT) -> good_edit (on_targets f).
Proof.
  intros Hf st Hu Hok; unfold on_targets; pose proof (Hf (mTargets st)) as Hl.
  destruct (f (mTargets st)) as [[a l]|err]; [by split|by apply Hl].
Qed.

Lemma set_element_cases {A B} (Set_ : A -> B -> result A) (P : A -> Prop) l i b :
  (forall old, match Set_ old b with Ok a => P a | Err err => err <> UNDEFINED_BEHAVIOUR /\ err <> PROGRAM_ABORT end) ->
  Forall P l ->
  match set_element Set_ l i b with
  | Ok l' => Forall P l' | Err err => err <> UNDEFINED_BEHAVIOUR /\ err <> PROGRAM_ABORT
  end.
Proof.
  intros Hs Hl; unfold set_element; destruct (l !! i) as [old|]; [|done].
  pose proof (Hs old) as Ho; destruct (Set_ old b); [by apply Forall_insert|done].
Qed.

Lemma add_element_cases {A B} (IsEmpty : A -> bool) (Add : B -> result A) (P : A -> Prop) l b :
  match Add b with Ok a => P a | Err err => err <> UNDEFINED_BEHAVIOUR /\ err <> PROGRAM_ABORT end ->
  Forall P l ->
  match add_element IsEmpty Add l b with
  | Ok (_, l') => Forall P l' | Err err => err <> UNDEFINED_BEHAVIOUR /\ err <> PROGRAM_ABORT
  end.
Proof.
  intros Ha Hl; unfold add_element; destruct (_ <? _)%nat; [|done]; destruct (Add b); [by apply Forall_insert|done].
Qed.

Lemma remove_element_cases {A} (IsEmpty : A -> bool) (empty : A) (P : A -> Prop) l i :
  P empty -> Forall P l ->
  match remove_element IsEmpty empty l i with
  | Ok l' => Forall P l' | Err err => err <> UNDEFINED_BEHAVIOUR /\ err <> PROGRAM_ABORT
  end.
Proof.
  intros He Hl; unfold remove_element; destruct (_ <? _)%nat; [|done].
  assert (forall m n, Forall P (take i l ++ take n (drop (S i) l) ++ drop m l)) as Hall.
  { intros m n; rewrite !Forall_app; splits; auto using Forall_take, Forall_drop. }
  destruct (_ =? _)%nat; [by apply Forall_insert|done].
Qed.

Ltac branches := repeat match goal with |- context [if ?b then _ else _] => destruct b end; done.

Lemma run_edit_harmless s e ed :
  acl_ok s -> is_Some (entries s !! e) -> edit_ok ed -> harmless (run_edit e ed) s.
Proof.
  intros O He Hed; assert (Hu : is_uint 64 kUndefinedNodeId) by (unfold is_uint, kUndefinedNodeId; lia).
  assert (Hrun : forall A (f : EntryStorage -> result (A * EntryStorage)), good_edit f ->
            harmless (changing_entry e f ;; ret tt) s).
  { intros A f Hf; apply harmless_bind; [by apply changing_entry_harmless|]; intros a s' _ K.
    apply harmless_ret, K. }
  destruct ed; cbn [run_edit edit_ok] in *; first [apply Hrun|apply changing_entry_harmless; [done..|]];
    try (intros st Hst Hok; by split); first [apply good_subjects; intros l Hl|apply good_targets; intros l err].
  - pose proof (set_element_cases SubjectStorage.Set_ (is_uint 64) l index subject) as Hc; unfold unit_of.
    destruct (set_element _ _ _ _); apply Hc; try done; intros old; unfold SubjectStorage.Set_; branches.
  - apply add_element_cases; [|done]; unfold SubjectStorage.Add; branches.
  - pose proof (remove_element_cases SubjectStorage.IsEmpty kUndefinedNodeId (is_uint 64) l index Hu Hl) as Hc; unfold unit_of.
    by destruct (remove_element _ _ _ _).
  - pose proof (set_element_cases TargetStorage.Set_ (fun _ => True) l index x) as Hc; unfold unit_of.
    destruct (set_element _ _ _ _); intros [= <-]; apply Hc; [|by apply Forall_true]; intros old; unfold TargetStorage.Set_; branches.
  - pose proof (add_element_cases TargetStorage.IsEmpty TargetStorage.Add (fun _ => True) l x) as Hc.
    destruct (add_element _ _ _ _) as [[]|]; intros [= <-]; apply Hc; [|by apply Forall_true]; unfold TargetStorage.Add; branches.
  - pose proof (remove_element_cases TargetStorage.IsEmpty TargetStorage.Clear (fun _ => True) l index I) as Hc; unfold unit_of.
    destruct (remove_element _ _ _ _); intros [= <-]; apply Hc; by apply Forall_true.
Qed.

(** *** Iterators and the check *)

Lemma NewIterator_harmless s : acl_ok s -> harmless NewIterator s.
Proof.
  intros O; unfold harmless, post, NewIterator; splits; try done; split; [|split; [done|]].
  - apply (acl_ok_iterators s); try done; intros it d Hit; cbn in Hit.
    apply lookup_app_Some in Hit as [Hit|[_ Hit]]; [by apply (ok_iterators _ O it)|].
    by destruct (it - length (iterators s))%nat.
  - unfold grows; cbn; rewrite length_app; lia.
Qed.

Lemma Entries_harmless s it fabric : acl_ok s -> is_Some (iterators s !! it) -> harmless (Entries it fabric) s.
Proof.
  intros O (o & Hit); destruct (Entries_run s it fabric o O Hit) as (r & s' & Hrun & O' & Ea & Ee & _ & El & Hr).
  unfold harmless, post; rewrite Hrun; splits; [split; [done|split; [done|]]| |].
  - unfold grows; rewrite Ee, El; lia.
  - destruct r; [done|]; destruct Hr as (-> & _); done.
  - destruct r; [done|]; destruct Hr as (-> & _); done.
Qed.

Lemma Next_harmless s it e : acl_ok s -> is_Some (iterators s !! it) -> is_Some (entries s !! e) -> harmless (Next it e) s.
Proof.
  intros O (o & Hit) He; unfold Next, harmless, post, bind at 1, get at 1.
  rewrite (bind_ok _ _ _ _ _ (GetIteratorDelegate_run _ _ _ Hit)); destruct o as [d|].
  2: { unfold fail; splits; [by apply kept_refl|done|done]. }
  destruct (ok_iterators _ O it d Hit) as (x & Hx).
  destruct (next_entry_run (S (length (acl s))) d e s x O Hx He) as (r & s' & x' & Hrun & Hfr & Hres); [lia|].
  destruct Hfr as (O' & Ea & Ei & El & _); rewrite Hrun; splits.
  - split; [done|split; [done|]]; unfold grows; rewrite Ei, El; lia.
  - destruct r; [done|]; destruct Hres as [(-> & _)|(-> & _)]; done.
  - destruct r; [done|]; destruct Hres as [(-> & _)|(-> & _)]; done.
Qed.

(** [Entries] puts the iterator before the first entry of the fabric; [Next] gives the
    first of those that are left. *)
Lemma Entries_left s it f s' :
  acl_ok s -> is_Some (iterators s !! it) -> Entries it (Some f) s = (Ok tt, s') ->
  left s' it = Some (of_fabric f (contents s)).
Proof.
  intros O (o & Hit) E; destruct (Entries_run s it (Some f) o O Hit) as (r & s1 & Hrun & _ & Ea & _ & _ & _ & Hr).
  rewrite E in Hrun; injection Hrun as <- <-; destruct Hr as (d & x & Hd & Hx & Hfl & Hst & Hf).
  rewrite (left_found _ _ _ _ Hd Hx), Hfl, Hst, (Hf f eq_refl); cbn [next_position].
  rewrite bool_decide_eq_true_2, from_position_start by (by eexists); unfold contents; by rewrite Ea.
Qed.

Lemma Next_left s it e r s' q :
  acl_ok s -> is_Some (entries s !! e) -> Next it e s = (r, s') -> left s it = Some q ->
  match r with
  | Ok _ => exists d q', q = d :: q' /\ handle s' e = Some d /\ left s' it = Some q'
  | Err err => (err = CHIP_ERROR_SENTINEL /\ q = [] /\ left s' it = Some []) \/ err = CHIP_ERROR_BUFFER_TOO_SMALL
  end.
Proof.
  intros O He E Hq; unfold left in Hq; destruct (iterators s !! it) as [[d|]|] eqn:Hit; cbn [mbind option_bind] in Hq; try done.
  destruct (iterator_pool s !! d) as [x|] eqn:Hx; cbn [mbind option_bind] in Hq; [|done].
  destruct (mFabricFiltered x) eqn:Hfl; [|done]; injection Hq as <-.
  destruct (next_entry_run (S (length (acl s))) d e s x O Hx He) as (r1 & s1 & x' & Hrun & Hfr & Hres); [lia|].
  unfold Next, bind at 1, get at 1 in E; rewrite (bind_ok _ _ _ _ _ (GetIteratorDelegate_run _ _ _ Hit)), Hrun in E.
  injection E as <- <-; destruct Hfr as (_ & Ea & Ei & _ & Hx' & Hfl' & Hfi'); unfold next_result in Hres.
  assert (Hleft : left s1 it = Some (from_position (itFabricIndex x') (next_position (length (acl s)) (itStorage x')) s)).
  { rewrite (left_found _ it d x') by (by rewrite ?Ei); rewrite Hfl', Hfl, Ea; unfold from_position; by rewrite Ea. }
  rewrite Hleft; destruct r1 as [[]|err].
  - destruct Hres as (_ & st & Hh & Hl); eexists _, _; splits; [by apply Hl|done|done].
  - destruct Hres as [(-> & Hl & _)|(-> & _)]; [left; destruct (Hl Hfl) as [-> ->]; by splits|by right].
Qed.

Lemma DeleteIteratorObject_harmless s it :
  acl_ok s -> is_Some (iterators s !! it) -> harmless (DeleteIteratorObject it) s.
Proof.
  intros O (o & Hit); unfold DeleteIteratorObject, ReleaseIterator, harmless, post.
  assert (Hkept : forall l, (forall d, is_Some (l !! d) <-> is_Some (iterator_pool s !! d)) ->
    kept s (set_iterators (<[it := None]> (iterators s)) (set_iterator_pool l s))).
  { intros l Hl; split; [|split; [done|unfold grows; cbn; rewrite length_insert; lia]].
    apply (acl_ok_iterators s); try done; intros it' d; cbn; rewrite list_lookup_insert_Some.
    intros [(_ & ? & _)|(_ & Hd)]; [done|]; apply Hl; by apply (ok_iterators _ O it'). }
  unfold bind at 1; rewrite (bind_ok _ _ _ _ _ (GetIteratorDelegate_run _ _ _ Hit)); destruct o as [d|].
  - destruct (ok_iterators _ O it d Hit) as (x & Hx); rewrite (bind_ok _ _ _ _ _ (read_iterator_run _ _ _ Hx)).
    unfold write_iterator, modify; splits; try done; apply Hkept; intros d'; apply list_lookup_insert_is_Some.
  - unfold ret, modify; splits; try done; pose proof (Hkept (iterator_pool s)) as Hk; destruct s; by apply Hk.
Qed.

Lemma check_entries_harmless resolver sd rp p it e l s fuel :
  iterates it l s -> is_Some (entries s !! e) -> (length l < fuel)%nat ->
  harmless (AccessControl.check_entries resolver fuel sd rp p it e) s.
Proof.
  revert l s; induction fuel as [|fuel IH]; intros l s Hit He Hf; [lia|]; cbn [AccessControl.check_entries].
  pose proof Hit as [O (d & x & Hd & _)].
  assert (H1 : harmless (IteratorNext it e) s) by (apply Next_harmless; [done|by rewrite Hd|done]).
  destruct (law_next it e l s Hit He) as (r & s1 & Hn & Hr & _).
  assert (K : kept s s1) by (unfold harmless, post in H1; rewrite Hn in H1; apply H1).
  apply harmless_bind; [by apply harmless_attempt|]; intros err s' E _.
  unfold attempt in E; rewrite Hn in E; destruct r as [[]|err'].
  - destruct Hr as (d' & l' & -> & Hrd & Hit' & Hob); injection E as <- <-; rewrite decide_True by done.
    destruct (check_entry_run resolver sd rp p e d' s1 Hrd) as (r & Hc & Herr & _).
    apply harmless_bind; [eapply harmless_read; [exact Hc|apply K|..]|].
    + destruct r; [done|]; by rewrite (Herr _ eq_refl).
    + destruct r; [done|]; by rewrite (Herr _ eq_refl).
    + intros allowed s2 E _; rewrite Hc in E; injection E as -> <-; destruct allowed; [apply harmless_ret, K|].
      apply (IH l'); [done|done|cbn [length] in Hf; lia].
  - destruct Hr as [[-> _]| ->]; injection E as <- <-; rewrite decide_False by done; by apply harmless_fail; [apply K|..].
Qed.

Lemma CheckACL_harmless resolver sd rp p s fuel :
  acl_ok s -> (length (contents s) < fuel)%nat -> harmless (AccessControl.CheckACL resolver fuel sd rp p) s.
Proof.
  intros O Hf; unfold AccessControl.CheckACL.
  apply harmless_bind; [by eapply harmless_read|]; intros err s' [= <- <-] _.
  rewrite decide_False by (intros []; done); destruct (decide _); [by apply harmless_ret|].
  apply harmless_scoped; [by apply NewIterator_harmless| |].
  - intros it s1 E K1; assert (Hit : is_Some (iterators s1 !! it)).
    { injection E as <- <-; cbn; rewrite lookup_app_r, Nat.sub_diag by done; by eexists. }
    destruct Hit as (o & Hit); pose proof K1 as (O1 & Ea1 & _).
    destruct (Entries_run s1 it (Some (fabricIndex sd)) o O1 Hit) as (r & s2 & Hrun & O2 & Ea2 & _ & _ & _ & Hr).
    apply harmless_bind; [by apply Entries_harmless; [|rewrite Hit]|]; intros [] s2' E2 K2.
    change (Entries it (Some (fabricIndex sd)) s1 = (Ok tt, s2')) in E2.
    rewrite Hrun in E2; injection E2 as -> <-; destruct Hr as (d & x & Hd & Hx & Hfl & Hst & Hfi).
    apply harmless_scoped; [by apply NewEntry_harmless| |].
    + intros e s3 E3 K3; injection E3 as <- <-.
      apply (check_entries_harmless _ _ _ _ _ _ (from_position (itFabricIndex x) 0 s2)).
      * split; [apply K3|]; exists d, x; splits; try done; by rewrite Hst.
      * cbn; rewrite lookup_app_r, Nat.sub_diag by done; by eexists.
      * rewrite from_position_start; unfold of_fabric, contents in *; rewrite Ea2, Ea1.
        eapply Nat.le_lt_trans; [apply length_filter|done].
    + intros e s3 s4 E3 K4; injection E3 as <- <-; apply DeleteEntryObject_harmless; [apply K4|].
      eapply kept_entry; [exact K4|]; cbn; rewrite lookup_app_r, Nat.sub_diag by done; by eexists.
  - intros it s1 s2 E (O2 & _ & _ & Gi); injection E as <- <-; apply DeleteIteratorObject_harmless; [done|].
    apply lookup_lt_is_Some; cbn in Gi; rewrite length_app in Gi; cbn [length] in Gi; lia.
Qed.
End List.
