(* ===== verification/AclFrames.v ===== *)
(** * AclFrames: what the operations leave of the iterators

    An iterator of AclStorage.v has a delegate in a pool.  No two iterators have the same
    one ([apart]), and an operation changes the iterator it is made on only: the others
    have still to give what they had ([frame]).  A deletion moves the iterators, but keeps
    them apart. *)

From S2P Require Import Prelude Encoding NodeId AccessControl AclStorage AclList.
Import AclStorage.

Section Frames.
Context `{AclConfig}.

(** An iterator that has a delegate has it for itself, and it is marked as used. *)
Definition apart (s : Acl) : Prop := forall it d, iterators s !! it = Some (Some d) ->
  (exists x, iterator_pool s !! d = Some x /\ itInUse x = true) /\
  forall it', iterators s !! it' = Some (Some d) -> it' = it.

(** The iterators that were there are what they were, but for those in [P]. *)
Record frame (P : nat -> Prop) (s s' : Acl) : Prop := {
  frame_apart : apart s';
  frame_length : (length (iterators s) <= length (iterators s'))%nat;
  frame_same it : ~ P it -> (it < length (iterators s))%nat ->
    iterators s' !! it = iterators s !! it /\
    forall d, iterators s !! it = Some (Some d) -> iterator_pool s' !! d = iterator_pool s !! d }.

Lemma frame_refl P s : apart s -> frame P s s.
Proof. by split. Qed.

Lemma frame_trans P s1 s2 s3 : frame P s1 s2 -> frame P s2 s3 -> frame P s1 s3.
Proof.
  intros [A2 L2 F2] [A3 L3 F3]; split; [done|lia|]; intros it Hit Hlt.
  destruct (F2 it Hit Hlt) as [E2 D2], (F3 it Hit) as [E3 D3]; [lia|]; split; [congruence|].
  intros d Hd; rewrite <-(D2 d Hd); apply D3; congruence.
Qed.

Lemma frame_weaken (P Q : nat -> Prop) s s' :
  (forall it, P it -> (it < length (iterators s))%nat -> Q it) -> frame P s s' -> frame Q s s'.
Proof. intros HPQ [A L F]; split; [done..|]; intros it Hit Hlt; apply F; auto. Qed.

Lemma frame_still P s s' :
  iterator_pool s' = iterator_pool s -> iterators s' = iterators s -> apart s -> frame P s s'.
Proof. intros Ep Ei A; split; unfold apart; rewrite ?Ep, ?Ei; auto. Qed.

(** What an iterator that was not touched has still to give. *)
Lemma frame_left P s s' it q :
  frame P s s' -> acl s' = acl s -> ~ P it -> left s it = Some q -> left s' it = Some q.
Proof.
  intros F Ea Hit; unfold left, from_position; destruct (iterators s !! it) as [[d|]|] eqn:Ei; try done.
  destruct (frame_same _ _ _ F it Hit) as [-> Hd]; [by eapply lookup_lt_Some|].
  rewrite Ei; cbn [mbind option_bind]; by rewrite (Hd d Ei), Ea.
Qed.

(** ** Operations *)

Section Monad.
Context {S : Type} (view : S -> Acl).
Implicit Types (P : nat -> Prop).

Definition framed {A} P (m : M S A) : Prop := forall s, apart (view s) -> frame P (view s) (view (m s).2).

Lemma framed_bind {A B} P (m : M S A) (k : A -> M S B) :
  framed P m -> (forall a, framed P (k a)) -> framed P (bind m k).
Proof.
  intros Hm Hk s A1; pose proof (Hm s A1) as F; unfold bind; destruct (m s) as [[a|e] s']; [|done].
  by eapply frame_trans; [exact F|]; apply Hk, (frame_apart _ _ _ F).
Qed.

Lemma framed_same {A} P (m : M S A) : (forall s, view (m s).2 = view s) -> framed P m.
Proof. intros Hm s A1; rewrite Hm; by apply frame_refl. Qed.

Lemma framed_ret {A} P (a : A) : framed P (ret a).
Proof. by apply framed_same. Qed.
Lemma framed_fail {A} P e : framed P (fail e : M S A).
Proof. by apply framed_same. Qed.
Lemma framed_get P : framed P get.
Proof. by apply framed_same. Qed.
Lemma framed_verify P b e : framed P (verify b e).
Proof. apply framed_same; intros s; by destruct b. Qed.

Lemma framed_attempt {A} P (m : M S A) : framed P m -> framed P (attempt m).
Proof. intros Hm s A1; pose proof (Hm s A1) as F; unfold attempt; by destruct (m s) as [[a|[]] s']. Qed.

Lemma framed_for_each P i n (body : nat -> M S unit) :
  (forall j, framed P (body j)) -> framed P (AccessControl.for_each i n body).
Proof.
  intros Hb; revert i; induction n as [|n IH]; intros i; cbn [AccessControl.for_each]; [apply framed_ret|].
  apply framed_bind; [apply Hb|intros []; apply IH].
Qed.

Lemma framed_scoped {A B} P (new : M S A) (delete : A -> M S unit) (body : A -> M S B) :
  framed P new -> (forall a, framed P (body a)) -> (forall a, framed P (delete a)) ->
  framed P (scoped new delete body).
Proof.
  intros Hn Hb Hd; apply framed_bind; [done|]; intros a s A1; pose proof (Hb a s A1) as F.
  destruct (body a s) as [r s1]; pose proof (Hd a s1 (frame_apart _ _ _ F)) as F2.
  destruct (delete a s1) as [r2 s2]; by eapply frame_trans.
Qed.
End Monad.

#[local] Abbreviation framed_id := (framed (fun s : Acl => s)).

Lemma framed_modify P (f : Acl -> Acl) :
  (forall s, iterator_pool (f s) = iterator_pool s /\ iterators (f s) = iterators s) -> framed_id P (modify f).
Proof. intros Hf s A; destruct (Hf s); by apply frame_still. Qed.

Lemma framed_undefined {A} P (o : option A) : framed_id P (or_undefined o).
Proof. destruct o; [apply framed_ret|apply framed_fail]. Qed.

#[local] Create HintDb framed.
#[local] Hint Resolve framed_ret framed_fail framed_get framed_verify framed_undefined : framed.

(** Takes an operation that does not touch iterators apart. *)
Ltac framed_step :=
  first [ solve [eauto with framed]
        | apply framed_modify; intros ?; try match goal with |- context [match ?r with InAcl _ => _ | InStoragePool _ => _ end] => destruct r end; done
        | apply framed_attempt
        | apply framed_bind; [|intros ?]
        | match goal with |- framed _ _ (match ?x with _ => _ end) => destruct x end
        | match goal with |- framed _ _ (if ?x then _ else _) => destruct x end ].
Ltac framed := cbv zeta; repeat framed_step.

Section Entries.
Context (P : nat -> Prop).
#[local] Abbreviation F := (framed_id P).

Lemma framed_write_storage ref x : F (write_storage ref x).
Proof. unfold write_storage; framed. Qed.
Lemma framed_read_storage ref : F (read_storage ref).
Proof. unfold read_storage; framed. Qed.
Lemma framed_read_delegate d : F (read_delegate d).
Proof. unfold read_delegate; framed. Qed.
Lemma framed_write_delegate d x : F (write_delegate d x).
Proof. unfold write_delegate; framed. Qed.
Lemma framed_GetDelegate e : F (GetDelegate e).
Proof. unfold GetDelegate; framed. Qed.
Lemma framed_write_entry e d : F (write_entry e d).
Proof. unfold write_entry; framed. Qed.
#[local] Hint Resolve framed_write_storage framed_read_storage framed_read_delegate framed_write_delegate
  framed_GetDelegate framed_write_entry : framed.

Lemma framed_FindDelegate e : F (FindDelegate e).
Proof. unfold FindDelegate; framed. Qed.
Lemma framed_ReleaseEntry e : F (ReleaseEntry e).
Proof. unfold ReleaseEntry, Release; framed. Qed.
#[local] Hint Resolve framed_FindDelegate framed_ReleaseEntry : framed.
Lemma framed_InitDelegate d e ref : F (InitDelegate d e ref).
Proof. unfold InitDelegate, SetDelegate; framed. Qed.
Lemma framed_EnsureStorageInPool d : F (EnsureStorageInPool d).
Proof. unfold EnsureStorageInPool; framed. Qed.
#[local] Hint Resolve framed_InitDelegate framed_EnsureStorageInPool : framed.
Lemma framed_reading_entry {A} e (f : EntryStorage -> result A) : F (reading_entry e f).
Proof. unfold reading_entry, entry_storage; framed. Qed.
Lemma framed_changing_entry {A} e (f : EntryStorage -> result (A * EntryStorage)) : F (changing_entry e f).
Proof. unfold changing_entry; framed. Qed.
End Entries.
#[local] Hint Resolve framed_write_storage framed_read_storage framed_read_delegate framed_write_delegate
  framed_GetDelegate framed_write_entry framed_FindDelegate framed_ReleaseEntry framed_InitDelegate
  framed_EnsureStorageInPool framed_reading_entry framed_changing_entry : framed.

(** *** Iterators *)

(** A change of the delegate of [it] that keeps it marked as used. *)
Lemma frame_write it d x x' s :
  iterators s !! it = Some (Some d) -> iterator_pool s !! d = Some x -> itInUse x' = true -> apart s ->
  frame (eq it) s (set_iterator_pool (<[d := x']> (iterator_pool s)) s).
Proof.
  intros Hit Hd Hx A; split; [|done|].
  - intros it1 d1 H1; cbn [iterators iterator_pool set_iterator_pool] in *; destruct (A it1 d1 H1) as [(x1 & Hx1 & U) I]; split; [|done].
    destruct (decide (d1 = d)) as [->|]; [|rewrite list_lookup_insert_ne by done; eauto].
    rewrite list_lookup_insert_eq by (by eapply lookup_lt_Some); eauto.
  - intros it1 Hne _; split; [done|]; intros d1 H1; cbn; apply list_lookup_insert_ne; intros <-.
    by apply Hne; symmetry; apply (A it d Hit).
Qed.

(** A change that does not touch the mark. *)
Lemma frame_move d x x' s :
  iterator_pool s !! d = Some x -> itInUse x' = itInUse x -> apart s ->
  frame (fun _ => True) s (set_iterator_pool (<[d := x']> (iterator_pool s)) s).
Proof.
  intros Hd Hx A; split; [|done|done].
  intros it1 d1 H1; cbn [iterators iterator_pool set_iterator_pool] in *; destruct (A it1 d1 H1) as [(x1 & Hx1 & U) I]; split; [|done].
  destruct (decide (d1 = d)) as [->|]; [|rewrite list_lookup_insert_ne by done; eauto].
  rewrite list_lookup_insert_eq by (by eapply lookup_lt_Some); eexists; split; [done|]; congruence.
Qed.

(** The iterator gets a delegate that is its own or free, or none. *)
Lemma frame_give it o o' s :
  iterators s !! it = Some o -> apart s ->
  (forall d, o' = Some d -> o = Some d \/ exists x, iterator_pool s !! d = Some x /\ itInUse x = false) ->
  forall pool, length pool = length (iterator_pool s) ->
  (forall d, o <> Some d -> o' <> Some d -> pool !! d = iterator_pool s !! d) ->
  (forall d, o' = Some d -> exists x, pool !! d = Some x /\ itInUse x = true) ->
  frame (eq it) s (set_iterator_pool pool (set_iterators (<[it := o']> (iterators s)) s)).
Proof.
  intros Hit A Ho pool Hlen Hpool Hnew; pose proof (lookup_lt_Some _ _ _ Hit) as Hlt.
  assert (Hother : forall it1 d1, it1 <> it -> iterators s !! it1 = Some (Some d1) -> o <> Some d1 /\ o' <> Some d1).
  { intros it1 d1 Hne H1; destruct (A it1 d1 H1) as [(x & Hx & U) I].
    assert (o <> Some d1) by (intros ->; by apply Hne; symmetry; apply I).
    split; [done|]; intros E; destruct (Ho d1 E) as [?|(x' & Hx' & U')]; congruence. }
  split; cbn [iterators iterator_pool set_iterator_pool set_iterators].
  - intros it1 d1; cbn [iterators iterator_pool set_iterator_pool set_iterators]; rewrite list_lookup_insert_Some; intros [(<- & E & _)|(Hne & H1)].
    + split; [by apply Hnew|]; intros it'; rewrite list_lookup_insert_Some; intros [(<- & _)|(Hne' & H')]; [done|].
      by destruct (Hother it' d1 ltac:(congruence) H').
    + destruct (Hother it1 d1 ltac:(congruence) H1) as [N N']; rewrite Hpool by done; split; [by apply (A it1)|].
      intros it'; rewrite list_lookup_insert_Some; intros [(<- & E & _)|(_ & H')]; [congruence|by apply (A it1 d1 H1)].
  - by rewrite length_insert.
  - intros it1 Hne _; split; [apply list_lookup_insert_ne; congruence|]; intros d1 H1.
    destruct (Hother it1 d1 ltac:(congruence) H1); by apply Hpool.
Qed.

Lemma frame_Entries it f s o :
  iterators s !! it = Some o -> apart s -> frame (eq it) s (Entries it f s).2.
Proof.
  intros Hit A; unfold Entries, FindIterator.
  assert (exists r, (let! d := GetIteratorDelegate it in match d with
             | Some d => ret (Some d)
             | None => let! s := get in ret (first_index (fun x => negb (itInUse x)) (iterator_pool s)) end) s = (Ok r, s)
            /\ forall d, r = Some d -> exists x, iterator_pool s !! d = Some x /\ (o = Some d \/ (o = None /\ itInUse x = false)))
    as (r & Hr & Hd).
  { rewrite (bind_ok _ _ _ _ _ (GetIteratorDelegate_run _ _ _ Hit)); destruct o as [d|].
    - eexists; split; [reflexivity|]; intros d' [= <-]; destruct (A it d Hit) as [(x & Hx & _) _]; eauto.
    - eexists; split; [reflexivity|]; intros d Hd; apply first_index_Some in Hd as (x & Hx & U%negb_true_iff); eauto. }
  rewrite (bind_ok _ _ _ _ _ Hr); destruct r as [d|]; [|by apply frame_refl].
  destruct (Hd d eq_refl) as (x & Hx & Hcase); clear Hd Hr; pose proof (lookup_lt_Some _ _ _ Hx) as Hlt.
  destruct Hcase as [->|[-> U]]; unfold ReleaseIterator.
  - unfold bind at 1; rewrite (bind_ok _ _ _ _ _ (GetIteratorDelegate_run _ _ _ Hit)), (bind_ok _ _ _ _ _ (read_iterator_run _ _ _ Hx)).
    unfold write_iterator, read_iterator, modify, bind, get, or_undefined; cbn.
    rewrite list_lookup_insert_eq by done; cbn.
    apply (frame_give it (Some d) (Some d) s); [done|done|by left|by rewrite !length_insert|..].
    + intros d' N _; by rewrite !list_lookup_insert_ne by congruence.
    + intros d' [= <-]; rewrite list_lookup_insert_eq by (by rewrite length_insert); eauto.
  - unfold bind at 1; rewrite (bind_ok _ _ _ _ _ (GetIteratorDelegate_run _ _ _ Hit)).
    unfold write_iterator, read_iterator, modify, bind, get, or_undefined; cbn; rewrite Hx; cbn.
    apply (frame_give it None (Some d) s); [done|done| |by rewrite length_insert|..].
    + intros d' [= <-]; right; eauto.
    + intros d' _ N; by rewrite list_lookup_insert_ne by congruence.
    + intros d' [= <-]; rewrite list_lookup_insert_eq by done; eauto.
Qed.

Lemma frame_Delete it s o :
  iterators s !! it = Some o -> apart s -> frame (eq it) s (DeleteIteratorObject it s).2.
Proof.
  intros Hit A; unfold DeleteIteratorObject, ReleaseIterator, bind at 1.
  rewrite (bind_ok _ _ _ _ _ (GetIteratorDelegate_run _ _ _ Hit)); destruct o as [d|].
  - destruct (A it d Hit) as [(x & Hx & _) _]; rewrite (bind_ok _ _ _ _ _ (read_iterator_run _ _ _ Hx)); cbn.
    unfold write_iterator, modify; cbn.
    match goal with |- frame _ _ (set_iterators _ (set_iterator_pool ?l s)) =>
      apply (frame_give it (Some d) None s Hit A ltac:(done) l) end.
    + by rewrite length_insert.
    + intros d' N _; by rewrite list_lookup_insert_ne by congruence.
    + done.
  - cbn; replace (set_iterators _ s) with (set_iterator_pool (iterator_pool s) (set_iterators (<[it := None]> (iterators s)) s)) by done.
    by apply (frame_give it None None s).
Qed.

Lemma frame_next_entry fuel it d e s :
  iterators s !! it = Some (Some d) -> apart s -> frame (eq it) s (next_entry fuel d e s).2.
Proof.
  revert s; induction fuel as [|fuel IH]; intros s Hit A; cbn [next_entry]; [by apply frame_refl|].
  destruct (A it d Hit) as [(x & Hx & U) _]; rewrite (bind_ok _ _ _ _ _ (read_iterator_run _ _ _ Hx)).
  unfold bind at 1, get at 1.
  set (x1 p := MkEntryIteratorDelegate (itInUse x) (mFabricFiltered x) (itFabricIndex x) (Some p)).
  assert (Hw : forall p, frame (eq it) s (set_iterator_pool (<[d := x1 p]> (iterator_pool s)) s))
    by (intros p; by eapply frame_write).
  destruct (acl s !! _) as [st|]; [|apply Hw]; destruct (negb (mInUse st)); [apply Hw|].
  unfold bind at 1, write_iterator at 1, modify at 1; destruct (mFabricFiltered x && _).
  - eapply frame_trans; [apply Hw|]; apply IH; [done|exact (frame_apart _ _ _ (Hw _))].
  - eapply frame_trans; [apply Hw|].
    match goal with |- frame _ _ (?m ?s1).2 => assert (Hm : framed_id (eq it) m) end; [framed|].
    apply Hm, (frame_apart _ _ _ (Hw _)).
Qed.

Lemma framed_Next it e : framed_id (eq it) (Next it e).
Proof.
  intros s A; unfold Next; destruct (iterators s !! it) as [o|] eqn:Hit.
  - unfold bind at 1, get at 1; rewrite (bind_ok _ _ _ _ _ (GetIteratorDelegate_run _ _ _ Hit)).
    destruct o; [by apply frame_next_entry|by apply frame_refl].
  - unfold GetIteratorDelegate, bind, get; cbn; rewrite Hit; by apply frame_refl.
Qed.

Lemma framed_Entries it f : framed_id (eq it) (Entries it f).
Proof.
  intros s A; destruct (iterators s !! it) as [o|] eqn:Hit; [by eapply frame_Entries|].
  unfold Entries, FindIterator, GetIteratorDelegate, bind, get; cbn; rewrite Hit; by apply frame_refl.
Qed.

Lemma framed_Delete it : framed_id (eq it) (DeleteIteratorObject it).
Proof.
  intros s A; destruct (iterators s !! it) as [o|] eqn:Hit; [by eapply frame_Delete|].
  unfold DeleteIteratorObject, ReleaseIterator, GetIteratorDelegate, bind, get; cbn; rewrite Hit; by apply frame_refl.
Qed.

Lemma framed_NewIterator P : framed_id P NewIterator.
Proof.
  intros s A; unfold NewIterator; cbn; split; cbn [iterators set_iterators iterator_pool].
  - intros it d; cbn [iterators iterator_pool set_iterators]; rewrite lookup_app_Some; intros [H1|[_ H1]]; [|by destruct (it - length (iterators s))%nat].
    destruct (A it d H1) as [Hx I]; split; [done|]; intros it'; rewrite lookup_app_Some.
    intros [H2|[_ H2]]; [by apply I|by destruct (it' - length (iterators s))%nat].
  - rewrite length_app; lia.
  - intros it _ Hlt; split; [by apply lookup_app_l|done].
Qed.

(** An iterator made in a scope is none of those that were there. *)
Lemma framed_scoped_iterator {B} P (body : nat -> M Acl B) :
  (forall it, framed_id (eq it) (body it)) -> framed_id P (scoped NewIterator DeleteIteratorObject body).
Proof.
  intros Hb s A; unfold scoped, bind, NewIterator; set (s1 := set_iterators (iterators s ++ [None]) s).
  pose proof (framed_NewIterator P s A) as F0; cbn [NewIterator snd] in F0; fold s1 in F0.
  pose proof (Hb (length (iterators s)) s1 (frame_apart _ _ _ F0)) as F1.
  destruct (body _ s1) as [r s2]; cbn [snd] in F1.
  pose proof (framed_Delete (length (iterators s)) s2 (frame_apart _ _ _ F1)) as F2.
  destruct (DeleteIteratorObject _ s2) as [r2 s3]; cbn [snd] in *.
  pose proof (frame_trans _ _ _ _ F1 F2) as [A3 L3 F3]; destruct F0 as [_ L0 F0]; split; [done|lia|].
  intros it Hit Hlt; destruct (F0 it Hit Hlt) as [E1 D1], (F3 it) as [E3 D3]; [lia..|].
  split; [congruence|]; intros d Hd; rewrite <-(D1 d Hd); apply D3; congruence.
Qed.

(** ** The delegate *)

#[local] Abbreviation anywhere := (fun _ : nat => True).

Lemma framed_copy_elements {A} P (get_element : nat -> M Acl A) i n :
  (forall j, framed_id P (get_element j)) -> framed_id P (copy_elements get_element i n).
Proof.
  intros Hg; revert i; induction n as [|n IH]; intros i; cbn [copy_elements]; framed.
Qed.
#[local] Hint Resolve framed_copy_elements : framed.

Lemma framed_Copy P e ref : framed_id P (Copy e ref).
Proof.
  unfold Copy, CopyViaInterface, EntryGetFabricIndex, EntryGetAuthMode, EntryGetPrivilege, EntryGetSubjectCount,
    EntryGetTargetCount, EntryGetSubject, EntryGetTarget; framed.
Qed.
#[local] Hint Resolve framed_Copy : framed.

Lemma framed_PrepareEntry P e : framed_id P (PrepareEntry e).
Proof. unfold PrepareEntry; framed. Qed.
Lemma framed_CreateEntry P e : framed_id P (CreateEntry e).
Proof. unfold CreateEntry; framed. Qed.
Lemma framed_ReadEntry P i e f : framed_id P (ReadEntry i e f).
Proof. unfold ReadEntry; framed. Qed.
Lemma framed_UpdateEntry P i e f : framed_id P (UpdateEntry i e f).
Proof. unfold UpdateEntry; framed. Qed.
Lemma framed_NewEntry P : framed_id P NewEntry.
Proof. intros s A; by apply frame_still. Qed.
Lemma framed_DeleteEntryObject P e : framed_id P (DeleteEntryObject e).
Proof. unfold DeleteEntryObject; framed. Qed.

Lemma framed_FixBeforeDelete P i d : framed_id P (FixBeforeDelete i d).
Proof. unfold FixBeforeDelete; framed. Qed.
Lemma framed_FixAfterDelete P i d : framed_id P (FixAfterDelete i d).
Proof. unfold FixAfterDelete, ResetDelegate; framed. Qed.

Lemma framed_FixIterator i d : framed_id anywhere (FixIteratorAfterDelete i d).
Proof.
  intros s A; unfold FixIteratorAfterDelete, read_iterator, bind, get, or_undefined; cbn.
  destruct (iterator_pool s !! d) as [x|] eqn:Hx; cbn; [|by apply frame_refl].
  destruct (itStorage x) as [j|]; cbn; [|by apply frame_refl].
  destruct (_ && _); cbn; [by eapply frame_move|by apply frame_refl].
Qed.
#[local] Hint Resolve framed_FixBeforeDelete framed_FixAfterDelete framed_FixIterator framed_for_each : framed.

Lemma framed_DeleteEntry i f : framed_id anywhere (DeleteEntry i f).
Proof. unfold DeleteEntry; framed. Qed.

Lemma framed_run_edit P e ed : framed_id P (run_edit e ed).
Proof.
  destruct ed; cbn [run_edit]; unfold SetAuthMode, SetFabricIndex, SetPrivilege, SetSubject, AddSubject, RemoveSubject,
    SetTarget, AddTarget, RemoveTarget; framed.
Qed.

(** ** [AccessControl] over it *)

#[local] Abbreviation theAcl := (AccessControl.theStore (H := example_delegate)).
#[local] Abbreviation framed_ac := (framed theAcl).
#[local] Hint Resolve framed_PrepareEntry framed_CreateEntry framed_ReadEntry framed_UpdateEntry framed_NewEntry
  framed_DeleteEntryObject framed_DeleteEntry framed_Next framed_Entries framed_Delete framed_NewIterator : framed.

Lemma framed_lift {A} P (m : M Acl A) : framed_id P m -> framed_ac P (AccessControl.lift (H := example_delegate) m).
Proof.
  intros Hm a A1; pose proof (Hm (theAcl a) A1) as F; unfold AccessControl.lift; cbn [store example_delegate].
  by destruct (m (theAcl a)).
Qed.

Lemma framed_initialized {A} P (m : M _ A) :
  framed_ac P m -> framed_ac P (AccessControl.initialized (H := example_delegate) m).
Proof. intros Hm; unfold AccessControl.initialized, AccessControl.this; framed. Qed.

Lemma framed_modify_ac P f : (forall a, theAcl (f a) = theAcl a) -> framed_ac P (modify f).
Proof. intros Hf; apply framed_same; intros a; apply Hf. Qed.
#[local] Hint Resolve framed_lift framed_initialized : framed.

Lemma framed_IsValid P e : framed_id P (AccessControl.IsValid (H := example_delegate) e).
Proof.
  intros s A; assert (Hv : framed_id P (AccessControl.validate (H := example_delegate) e)).
  { unfold AccessControl.validate; cbn [AccessControl.GetAuthMode AccessControl.GetFabricIndex AccessControl.GetPrivilege
      AccessControl.GetSubjectCount AccessControl.GetTargetCount AccessControl.GetAuxiliaryType AccessControl.GetSubject
      AccessControl.GetTarget example_delegate].
    unfold EntryGetAuthMode, EntryGetFabricIndex, EntryGetPrivilege, EntryGetSubjectCount, EntryGetTargetCount,
      EntryGetAuxiliaryType, EntryGetSubject, EntryGetTarget; repeat (framed; try (apply framed_for_each; intros ?)). }
  pose proof (Hv s A) as F; unfold AccessControl.IsValid.
  by destruct (AccessControl.validate (H := example_delegate) e s) as [[[]|[]] s'].
Qed.
#[local] Hint Resolve framed_IsValid : framed.

Lemma framed_ac_CreateEntry P f e : framed_ac P (AccessControl.CreateEntry (H := example_delegate) f e).
Proof.
  unfold AccessControl.CreateEntry, AccessControl.NotifyEntryChanged.
  cbn [DelegateEntryCount DelegateMaxEntriesPerFabric DelegateCreateEntry example_delegate]; unfold GetEntryCount.
  apply framed_initialized; repeat (framed; try (apply framed_lift; framed); try (by apply framed_modify_ac)).
Qed.

Lemma framed_ac_UpdateEntry P f i e : framed_ac P (AccessControl.UpdateEntry (H := example_delegate) f i e).
Proof.
  unfold AccessControl.UpdateEntry, AccessControl.NotifyEntryChanged; cbn [DelegateUpdateEntry example_delegate].
  apply framed_initialized; repeat (framed; try (by apply framed_modify_ac)).
Qed.

Lemma framed_ac_ReadEntry P f i e : framed_ac P (AccessControl.ReadEntry (H := example_delegate) f i e).
Proof. unfold AccessControl.ReadEntry; cbn [DelegateReadEntry example_delegate]; framed. Qed.

Lemma framed_ac_DeleteEntry f i : framed_ac anywhere (AccessControl.DeleteEntry (H := example_delegate) f i).
Proof.
  unfold AccessControl.DeleteEntry, AccessControl.NotifyEntryChanged, AccessControl.this.
  cbn [new_entry delete_entry DelegateDeleteEntry HasDefaultDelegate example_delegate].
  apply framed_initialized, framed_scoped; [framed| |intros e; framed].
  intros e; repeat (framed; try (by apply framed_modify_ac); try apply framed_ac_ReadEntry;
    try (apply framed_lift; framed)).
Qed.

Lemma framed_ac_GetEntryCount P f : framed_ac P (AccessControl.GetEntryCount (H := example_delegate) f).
Proof.
  unfold AccessControl.GetEntryCount; cbn [DelegateEntryCount example_delegate]; unfold GetEntryCount; apply framed_initialized, framed_lift; framed.
Qed.

Lemma framed_delete_last f n sticky :
  framed_ac anywhere (AccessControl.delete_last (H := example_delegate) f n sticky).
Proof.
  revert sticky; induction n as [|n IH]; intros sticky; cbn [AccessControl.delete_last]; [framed|].
  apply framed_bind; [apply framed_attempt, framed_ac_DeleteEntry|intros err; apply IH].
Qed.

Lemma framed_ac_DeleteAll f : framed_ac anywhere (AccessControl.DeleteAllEntriesForFabric (H := example_delegate) f).
Proof.
  apply framed_initialized; intros a A; pose proof (framed_ac_GetEntryCount anywhere f a A) as F.
  destruct (AccessControl.GetEntryCount f a) as [[n|[]] a1]; try exact F.
  eapply frame_trans; [exact F|]; apply framed_delete_last, (frame_apart _ _ _ F).
Qed.

(** *** The check, which makes an iterator of its own *)

Section Check.
Context (IsDeviceTypeOnEndpoint : Z -> Z -> bool)
        (GetGroupInfo : option (Z -> Z -> result bool))
        (group_check : SubjectDescriptor -> RequestPath -> Z -> CHIP_ERROR)
        (restrictions : option ((SubjectDescriptor -> RequestPath -> CHIP_ERROR) *
                                (SubjectDescriptor -> RequestPath -> CHIP_ERROR)))
        (CHIP_CONFIG_USE_ACCESS_RESTRICTIONS : bool).

Lemma framed_match_subjects P sd mode e i n :
  framed_id P (AccessControl.match_subjects (H := example_delegate) sd mode e i n).
Proof.
  revert i; induction n as [|n IH]; intros i; cbn [AccessControl.match_subjects]; [framed|].
  cbn [AccessControl.GetSubject example_delegate]; unfold EntryGetSubject; framed.
Qed.

Lemma framed_match_targets P rp e i n :
  framed_id P (AccessControl.match_targets (H := example_delegate) IsDeviceTypeOnEndpoint rp e i n).
Proof.
  revert i; induction n as [|n IH]; intros i; cbn [AccessControl.match_targets]; [framed|].
  cbn [AccessControl.GetTarget example_delegate]; unfold EntryGetTarget; framed.
Qed.
#[local] Hint Resolve framed_match_subjects framed_match_targets : framed.

Lemma framed_check_entry P sd rp p e :
  framed_id P (AccessControl.check_entry (H := example_delegate) IsDeviceTypeOnEndpoint sd rp p e).
Proof.
  unfold AccessControl.check_entry.
  cbn [AccessControl.GetAuthMode AccessControl.GetPrivilege AccessControl.GetSubjectCount AccessControl.GetTargetCount example_delegate].
  unfold EntryGetAuthMode, EntryGetPrivilege, EntryGetSubjectCount, EntryGetTargetCount; framed.
Qed.
#[local] Hint Resolve framed_check_entry : framed.

Lemma framed_check_entries fuel sd rp p it e :
  framed_id (eq it) (AccessControl.check_entries (H := example_delegate) IsDeviceTypeOnEndpoint fuel sd rp p it e).
Proof.
  induction fuel as [|fuel IH]; cbn [AccessControl.check_entries]; [framed|]; cbn [IteratorNext example_delegate]; framed.
Qed.
#[local] Hint Resolve framed_check_entries : framed.

Lemma framed_CheckACL P fuel sd rp p :
  framed_id P (AccessControl.CheckACL (H := example_delegate) IsDeviceTypeOnEndpoint fuel sd rp p).
Proof.
  unfold AccessControl.CheckACL.
  cbn [DelegateCheck DelegateEntries new_iterator delete_iterator new_entry delete_entry example_delegate].
  apply framed_bind; [framed|intros err]; destruct (decide _); [framed|]; destruct (decide _); [framed|].
  apply framed_scoped_iterator; intros it; apply framed_bind; [framed|intros []].
  apply framed_scoped; intros; framed.
Qed.

Lemma framed_ac_Check P fuel sd rp p :
  framed_ac P (AccessControl.Check (H := example_delegate) IsDeviceTypeOnEndpoint GetGroupInfo group_check restrictions
                 CHIP_CONFIG_USE_ACCESS_RESTRICTIONS fuel sd rp p).
Proof.
  apply framed_initialized; apply framed_bind; [framed|intros []].
  apply framed_bind; [apply framed_attempt, framed_lift, framed_CheckACL|intros err]; unfold AccessControl.this; framed.
Qed.
End Check.

End Frames.
