(* ===== verification/AclCheck.v ===== *)
(** * AclCheck: access control with the list of AclStorage.v

    Class [AccessControl] over [example_delegate]: what its operations do to the list
    of entries, and what its check allows.

    - Module [Spec]: the list by itself, one function per operation;
    - [acl_op], [step]: the operations of [AccessControl] and of the objects it serves;
    - [acl_refines_list]: any sequence of them answers as the list does and keeps every
      entry valid; [check_decides]: the check allows what an entry grants;
    - [delete_moves_other_object]: deleting an entry of one fabric disturbs an object
      that shows an entry of another. *)

From S2P Require Import Prelude Encoding NodeId AccessControl AclStorage AclList AclFrames.
Import AclStorage.

#[export] Instance entry_valid_dec d : Decision (entry_valid d).
Proof. unfold entry_valid; apply _. Defined.

(** ** The list by itself *)

Module Spec.

(** [CreateEntry] for fabric [f] of what an object says; [max] is the number of entries
    a fabric may have, [size] that of all. *)
Definition create (max size : nat) (f : Z) (h : option AclEntry) (l : list AclEntry) : result nat * list AclEntry :=
  if decide (max <= length (of_fabric f l))%nat then (Err CHIP_ERROR_BUFFER_TOO_SMALL, l)
  else
    match h with
    | Some d =>
        if decide (entry_valid d) then
          if decide (length l < size)%nat then (Ok (length (of_fabric (eFabric d) l)), l ++ [d])
          else (Err CHIP_ERROR_BUFFER_TOO_SMALL, l)
        else (Err CHIP_ERROR_INVALID_ARGUMENT, l)
    | None => (Err CHIP_ERROR_INVALID_ARGUMENT, l)
    end.

Definition update (f : Z) (i : nat) (h : option AclEntry) (l : list AclEntry) : result nat * list AclEntry :=
  match h with
  | Some d =>
      if decide (entry_valid d) then
        match position f i l with
        | Some p => (Ok 0%nat, <[p := d]> l)
        | None => (Err CHIP_ERROR_SENTINEL, l)
        end
      else (Err CHIP_ERROR_INVALID_ARGUMENT, l)
  | None => (Err CHIP_ERROR_INVALID_ARGUMENT, l)
  end.

Definition remove (f : Z) (i : nat) (l : list AclEntry) : result nat * list AclEntry :=
  match position f i l with
  | Some p => (Ok 0%nat, delete p l)
  | None => (Err CHIP_ERROR_SENTINEL, l)
  end.

Definition remove_all (f : Z) (l : list AclEntry) : list AclEntry := filter (fun d => eFabric d <> f) l.

End Spec.

(** ** The operations *)

Inductive acl_op :=
| OpCreate (f : Z) (e : nat)
| OpUpdate (f : Z) (i e : nat)
| OpDelete (f : Z) (i : nat)
| OpDeleteAll (f : Z)
| OpCount (f : Z)
| OpRead (f : Z) (i e : nat)
| OpPrepare (e : nat)
| OpEdit (e : nat) (ed : edit)
| OpNewEntry
| OpDropEntry (e : nat)
| OpNewIterator
| OpEntries (f : Z) (it : nat)
| OpNext (it e : nat)
| OpDropIterator (it : nat)
| OpAddListener (listener : nat)
| OpRemoveListener (listener : nat)
| OpCheck (sd : SubjectDescriptor) (rp : RequestPath) (requestPrivilege : Z).

Section Run.
Context `{AclConfig}.
Context (IsDeviceTypeOnEndpoint : Z -> Z -> bool)
        (GetGroupInfo : option (Z -> Z -> result bool))
        (group_check : SubjectDescriptor -> RequestPath -> Z -> CHIP_ERROR)
        (restrictions : option ((SubjectDescriptor -> RequestPath -> CHIP_ERROR) *
                                (SubjectDescriptor -> RequestPath -> CHIP_ERROR)))
        (CHIP_CONFIG_USE_ACCESS_RESTRICTIONS : bool).

Abbreviation state := (AccessControl.t (H := example_delegate)).
Abbreviation theAcl := (AccessControl.theStore (H := example_delegate)).
Abbreviation check := (AccessControl.Check IsDeviceTypeOnEndpoint GetGroupInfo group_check restrictions
                         CHIP_CONFIG_USE_ACCESS_RESTRICTIONS).

(** The fuel of the check: the size of the list and one more. *)
Definition step (op : acl_op) : M state nat :=
  match op with
  | OpCreate f e => AccessControl.CreateEntry f e
  | OpUpdate f i e => AccessControl.UpdateEntry f i e ;; ret 0%nat
  | OpDelete f i => AccessControl.DeleteEntry f i ;; ret 0%nat
  | OpDeleteAll f => AccessControl.DeleteAllEntriesForFabric f ;; ret 0%nat
  | OpCount f => AccessControl.GetEntryCount f
  | OpRead f i e => AccessControl.ReadEntry f i e ;; ret 0%nat
  | OpPrepare e => AccessControl.PrepareEntry e ;; ret 0%nat
  | OpEdit e ed => AccessControl.lift (run_edit e ed) ;; ret 0%nat
  | OpNewEntry => AccessControl.lift new_entry
  | OpDropEntry e => AccessControl.lift (delete_entry e) ;; ret 0%nat
  | OpNewIterator => AccessControl.lift new_iterator
  | OpEntries f it => AccessControl.Entries f it ;; ret 0%nat
  | OpNext it e => AccessControl.lift (IteratorNext it e) ;; ret 0%nat
  | OpDropIterator it => AccessControl.lift (delete_iterator it) ;; ret 0%nat
  | OpAddListener listener => AccessControl.AddEntryListener listener ;; ret 0%nat
  | OpRemoveListener listener => AccessControl.RemoveEntryListener listener ;; ret 0%nat
  | OpCheck sd rp p => let! a := get in check (S (length (acl (theAcl a)))) sd rp p ;; ret 0%nat
  end.

(** The objects an operation names exist, and its node ids have 64 bits. *)
Definition possible (op : acl_op) (a : state) : Prop :=
  let entry e := is_Some (entries (theAcl a) !! e) in
  let iterator it := is_Some (iterators (theAcl a) !! it) in
  match op with
  | OpCreate _ e | OpUpdate _ _ e | OpRead _ _ e | OpPrepare e | OpDropEntry e => entry e
  | OpEdit e ed => entry e /\ edit_ok ed
  | OpEntries _ it | OpDropIterator it => iterator it
  | OpNext it e => iterator it /\ entry e
  | OpDelete _ _ | OpDeleteAll _ | OpCount _ | OpNewEntry | OpNewIterator | OpAddListener _ | OpRemoveListener _
  | OpCheck _ _ _ => True
  end.

#[export] Instance edit_ok_dec ed : Decision (edit_ok ed).
Proof. destruct ed; cbn; apply _. Defined.
#[export] Instance possible_dec op a : Decision (possible op a).
Proof. destruct op; cbn; apply _. Defined.

(** What there is to see: the list, what each [Entry] object says, and what each iterator
    has still to give. *)
Record view := MkView {
  vList : list AclEntry;
  vShown : nat -> option AclEntry;
  vLeft : nat -> option (list AclEntry) }.
Definition view_of (a : state) : view := MkView (contents (theAcl a)) (handle (theAcl a)) (left (theAcl a)).

(** What an operation answers, [r], and does, from the view before to the view after.
    What objects say after an edit, and where the objects and iterators are when the list
    has changed, is left open. *)
Definition answers (size : nat) (op : acl_op) (v : view) (r : result nat) (v' : view) : Prop :=
  match op with
  | OpCreate f e => (r, vList v') = Spec.create kEntriesPerFabric size f (vShown v e) (vList v)
  | OpUpdate f i e => (r, vList v') = Spec.update f i (vShown v e) (vList v)
  | OpDelete f i => (r, vList v') = Spec.remove f i (vList v)
  | OpDeleteAll f => r = Ok 0%nat /\ vList v' = Spec.remove_all f (vList v)
  | OpCount f => r = Ok (length (of_fabric f (vList v))) /\ v' = v
  | OpRead f i e => vList v' = vList v /\
      match r with
      | Ok _ => is_Some (vShown v' e) /\ of_fabric f (vList v) !! i = vShown v' e
      | Err err => (err = CHIP_ERROR_SENTINEL /\ of_fabric f (vList v) !! i = None) \/ err = CHIP_ERROR_BUFFER_TOO_SMALL
      end
  | OpEntries f it => vList v' = vList v /\ forall n, r = Ok n -> vLeft v' it = Some (of_fabric f (vList v))
  | OpNext it e => vList v' = vList v /\ forall q, vLeft v it = Some q ->
      match r with
      | Ok _ => exists d q', q = d :: q' /\ vShown v' e = Some d /\ vLeft v' it = Some q'
      | Err err => (err = CHIP_ERROR_SENTINEL /\ q = [] /\ vLeft v' it = Some []) \/ err = CHIP_ERROR_BUFFER_TOO_SMALL
      end
  | _ => vList v' = vList v
  end.

(** Whether an operation may move the iterator: those that change the list may move all. *)
Definition moves (op : acl_op) (it : nat) : Prop :=
  match op with
  | OpCreate _ _ | OpUpdate _ _ _ | OpDelete _ _ | OpDeleteAll _ => True
  | OpEntries _ it' | OpNext it' _ | OpDropIterator it' => it' = it
  | _ => False
  end.

(** A sequence of operations, those that are not possible left out, with a log of the
    answers and of what there is to see after each of them. *)
Fixpoint run (ops : list acl_op) (a : state) : list (acl_op * result nat * view) * state :=
  match ops with
  | [] => ([], a)
  | op :: ops =>
      if decide (possible op a) then
        let (r, a1) := step op a in
        let (log, a2) := run ops a1 in ((op, r, view_of a1) :: log, a2)
      else run ops a
  end.

(** From view to view the log is explained: every operation answers as it should, does
    not stop the program, and leaves the iterators it does not move with what they had
    still to give. *)
Inductive explained (size : nat) : view -> list (acl_op * result nat * view) -> Prop :=
| explained_nil v : explained size v []
| explained_cons v op r v1 log :
    answers size op v r v1 -> r <> Err UNDEFINED_BEHAVIOUR -> r <> Err PROGRAM_ABORT ->
    (forall it q, ~ moves op it -> vLeft v it = Some q -> vLeft v1 it = Some q) ->
    explained size v1 log -> explained size v ((op, r, v1) :: log).

(** The invariant: the delegate is set, its memory is in order, all entries are valid. *)
Record ready (a : state) : Prop := {
  ready_init : AccessControl.mDelegate a = true;
  ready_acl : acl_ok (theAcl a);
  ready_valid : Forall entry_valid (contents (theAcl a)) }.


(** ** Operations of the delegate through [AccessControl] *)

Implicit Types (a : state) (op : acl_op).

Definition with_store (s : Acl) (a : state) : state :=
  AccessControl.MkAccessControl (H := example_delegate) (AccessControl.mDelegate a) (AccessControl.mGroupAuxDelegate a)
    (AccessControl.mEntryListener a) (AccessControl.changes a) s.

Lemma lift_run {A} (m : M Acl A) a r s :
  m (theAcl a) = (r, s) -> AccessControl.lift (H := example_delegate) m a = (r, with_store s a).
Proof. unfold AccessControl.lift; cbn [store example_delegate]; by intros ->. Qed.

Lemma with_store_same a : with_store (theAcl a) a = a.
Proof. by destruct a. Qed.

Lemma initialized_run {A} (m : M state A) a :
  AccessControl.mDelegate a = true -> AccessControl.initialized (H := example_delegate) m a = m a.
Proof.
  unfold AccessControl.initialized, AccessControl.this, AccessControl.IsInitialized, bind, get.
  by intros ->.
Qed.

Lemma lift_same {A} (m : M Acl A) a r :
  m (theAcl a) = (r, theAcl a) -> AccessControl.lift (H := example_delegate) m a = (r, a).
Proof. intros Hm; rewrite (lift_run _ _ _ _ Hm); by rewrite with_store_same. Qed.

(** What all operations keep. *)
Definition goes_on (a a' : state) : Prop :=
  AccessControl.mDelegate a' = AccessControl.mDelegate a /\ length (acl (theAcl a')) = length (acl (theAcl a)) /\
  acl_ok (theAcl a').

Definition quiet {A} (m : M state A) a : Prop :=
  post m a (fun _ a' => AccessControl.mDelegate a' = AccessControl.mDelegate a /\ kept (theAcl a) (theAcl a')).

Lemma quiet_lift {A} (m : M Acl A) a : harmless m (theAcl a) -> quiet (AccessControl.lift (H := example_delegate) m) a.
Proof.
  unfold harmless, quiet, post; destruct (m (theAcl a)) as [r s] eqn:E; rewrite (lift_run _ _ _ _ E); tauto.
Qed.

Lemma quiet_bind {A B} (m : M state A) (k : A -> M state B) a :
  quiet m a ->
  (forall x a', m a = (Ok x, a') -> AccessControl.mDelegate a' = AccessControl.mDelegate a ->
     kept (theAcl a) (theAcl a') -> quiet (k x) a') ->
  quiet (bind m k) a.
Proof.
  unfold quiet, post, bind; destruct (m a) as [[x|err] a1]; intros ((D & K) & N) Hk.
  - pose proof (Hk x a1 eq_refl D K) as Hkx; destruct (k x a1) as [r a2]; destruct Hkx as ((D2 & K2) & N2).
    split; [split; [congruence|by eapply kept_trans]|done].
  - split; [done|]; destruct N; split; congruence.
Qed.

Lemma quiet_read {A} (m : M state A) r a :
  m a = (r, a) -> acl_ok (theAcl a) -> r <> Err UNDEFINED_BEHAVIOUR -> r <> Err PROGRAM_ABORT -> quiet m a.
Proof. unfold quiet, post; intros -> O N1 N2; splits; try done; by apply kept_refl. Qed.

Lemma quiet_ret {A} (x : A) a : acl_ok (theAcl a) -> quiet (ret x) a.
Proof. intros O; by eapply quiet_read. Qed.

Lemma quiet_initialized {A} (m : M state A) a :
  AccessControl.mDelegate a = true -> quiet m a -> quiet (AccessControl.initialized (H := example_delegate) m) a.
Proof. unfold quiet, post; intros D; by rewrite (initialized_run m a D). Qed.

(** An operation whose value is not of interest. *)
Lemma quiet_unit {A} (m : M state A) a : quiet m a -> quiet (m ;; ret 0%nat) a.
Proof. intros Hm; apply quiet_bind; [done|]; intros x a' _ _ K; apply quiet_ret, K. Qed.

(** *** [IsValid] *)

Lemma handle_uint s e d : acl_ok s -> handle s e = Some d -> Forall (is_uint 64) (eSubjects d).
Proof.
  intros O (ref & st & Hs & Hst & ->)%handle_inv.
  destruct (shown_lookup s e ref O Hs) as (_ & st' & _ & _ & Hst' & _ & Hok); rewrite Hst in Hst'; injection Hst' as <-.
  by apply Forall_take.
Qed.

Lemma valid_run s e :
  acl_ok s -> is_Some (entries s !! e) ->
  AccessControl.IsValid (H := example_delegate) e s
  = (Ok match handle s e with Some d => bool_decide (entry_valid d) | None => false end, s).
Proof.
  intros O He; destruct (handle_cases s e O He) as [(_ & _ & st & _ & _ & _ & _ & _ & _ & Hh)|[He' Hh]]; rewrite Hh.
  - destruct (IsValid_run (H := example_delegate) (H0 := example_laws) e (content st) s Hh) as (b & -> & Hb); [by eapply handle_uint|].
    do 2 f_equal; destruct b; symmetry; [by apply bool_decide_eq_true, Hb|].
    apply bool_decide_eq_false; intros Hv; by apply Hb in Hv.
  - unfold AccessControl.IsValid, AccessControl.validate.
    by rewrite (bind_err _ _ _ _ _ (reading_default _ _ (fun st => Ok (mAuthMode st)) He')).
Qed.

Lemma count_run f a :
  acl_ok (theAcl a) ->
  AccessControl.lift (H := example_delegate) (DelegateEntryCount f) a = (Ok (length (of_fabric f (contents (theAcl a)))), a).
Proof.
  intros O; apply lift_same; cbn [DelegateEntryCount example_delegate]; unfold GetEntryCount, bind, get, ret; by rewrite count_entries_spec.
Qed.


Lemma max_run a :
  AccessControl.lift (H := example_delegate) DelegateMaxEntriesPerFabric a = (Ok kEntriesPerFabric, a).
Proof. by apply lift_same. Qed.

(** *** The operations on the list *)

Context (fast_copy : FAST_COPY_SUPPORT = true).

Lemma answer_unit (m : M state unit) a r l r' :
  m a = (r, l) -> (match r with Ok _ => Ok 0%nat | Err err => Err err end) = r' -> (m ;; ret 0%nat) a = (r', l).
Proof. intros Hm <-; unfold bind; rewrite Hm; by destruct r. Qed.

Lemma notify_acl f i p c a :
  exists a', AccessControl.NotifyEntryChanged (H := example_delegate) f i p c a = (Ok tt, a') /\
    theAcl a' = theAcl a /\ AccessControl.mDelegate a' = AccessControl.mDelegate a.
Proof. by eexists. Qed.

Lemma create_step a f e :
  ready a -> is_Some (entries (theAcl a) !! e) ->
  exists a', step (OpCreate f e) a = ((Spec.create kEntriesPerFabric (length (acl (theAcl a))) f (handle (theAcl a) e)
                                        (contents (theAcl a))).1, a') /\
    contents (theAcl a') = (Spec.create kEntriesPerFabric (length (acl (theAcl a))) f (handle (theAcl a) e)
                              (contents (theAcl a))).2 /\ goes_on a a'.
Proof.
  intros [D O V] He; cbn [step]; unfold AccessControl.CreateEntry; rewrite (initialized_run _ a D).
  rewrite (bind_ok _ _ _ _ _ (count_run f a O)); rewrite (bind_ok _ _ _ _ _ (max_run a)).
  assert (Hstay : goes_on a a) by done; unfold Spec.create; set (l := contents (theAcl a)) in *.
  destruct (decide _) as [Hle|Hle].
  { unfold bind at 1; rewrite (proj2 (Nat.leb_gt _ _)) by lia; by exists a. }
  unfold bind at 1; rewrite (proj2 (Nat.leb_le _ _)) by lia; cbn [verify ret].
  rewrite (bind_ok _ _ _ _ _ (lift_same _ a _ (valid_run _ e O He))).
  destruct (handle (theAcl a) e) as [d|] eqn:Hh; [|by exists a].
  destruct (decide (entry_valid d)) as [Hv|Hv]; [rewrite bool_decide_eq_true_2 by done|rewrite bool_decide_eq_false_2 by done; by exists a].
  unfold bind at 1; cbn [verify ret].
  pose proof (CreateEntry_run fast_copy _ e d O Hh) as Hrun; fold l in Hrun.
  destruct (Nat.ltb_spec (length l) (length (acl (theAcl a)))) as [Hlt|Hlt].
  - rewrite decide_True by done; destruct Hrun as (s' & Hrun & O' & Hc & _ & _ & Hlen).
    rewrite (bind_ok _ _ _ _ _ (lift_run _ a _ _ Hrun)); unfold bind, ret; eexists; split; [reflexivity|].
    by splits.
  - rewrite decide_False by lia; rewrite (bind_err _ _ _ _ _ (lift_same _ a _ Hrun)); by exists a.
Qed.

Lemma update_step a f i e :
  ready a -> is_Some (entries (theAcl a) !! e) ->
  exists a', step (OpUpdate f i e) a = ((Spec.update f i (handle (theAcl a) e) (contents (theAcl a))).1, a') /\
    contents (theAcl a') = (Spec.update f i (handle (theAcl a) e) (contents (theAcl a))).2 /\ goes_on a a'.
Proof.
  intros [D O V] He; cbn [step]; assert (Hstay : goes_on a a) by done; unfold Spec.update; set (l := contents (theAcl a)) in *.
  cut (exists r a', AccessControl.UpdateEntry f i e a = (r, a') /\ goes_on a a' /\
    (match r with Ok _ => Ok 0%nat | Err err => Err err end, contents (theAcl a')) =
    match handle (theAcl a) e with
    | Some d => if decide (entry_valid d) then match position f i l with
                  | Some p => (Ok 0%nat, <[p := d]> l) | None => (Err CHIP_ERROR_SENTINEL, l) end
                else (Err CHIP_ERROR_INVALID_ARGUMENT, l)
    | None => (Err CHIP_ERROR_INVALID_ARGUMENT, l)
    end).
  { intros (r & a' & Hrun & Hg & <-); exists a'; splits; [|done|done]; by eapply answer_unit. }
  unfold AccessControl.UpdateEntry; rewrite (initialized_run _ a D).
  rewrite (bind_ok _ _ _ _ _ (lift_same _ a _ (valid_run _ e O He))).
  destruct (handle (theAcl a) e) as [d|] eqn:Hh; [|by exists (Err CHIP_ERROR_INVALID_ARGUMENT), a].
  destruct (decide (entry_valid d)) as [Hv|Hv];
    [rewrite bool_decide_eq_true_2 by done|rewrite bool_decide_eq_false_2 by done; by exists (Err CHIP_ERROR_INVALID_ARGUMENT), a].
  unfold bind at 1; cbn [verify ret]; pose proof (UpdateEntry_run fast_copy _ e d f i O Hh) as Hrun; fold l in Hrun.
  destruct (position f i l) as [p|].
  - destruct Hrun as (s' & Hrun & O' & Hc & _ & _ & Hlen).
    rewrite (bind_ok _ _ _ _ _ (lift_run _ a _ _ Hrun)); eexists (Ok tt), _; split; [reflexivity|].
    split; [by splits|by cbn; rewrite Hc].
  - rewrite (bind_err _ _ _ _ _ (lift_same _ a _ Hrun)); by exists (Err CHIP_ERROR_SENTINEL), a.
Qed.


Lemma quiet_run {A} (m : M state A) a :
  quiet m a -> exists r a', m a = (r, a') /\ AccessControl.mDelegate a' = AccessControl.mDelegate a /\
    kept (theAcl a) (theAcl a') /\ r <> Err UNDEFINED_BEHAVIOUR /\ r <> Err PROGRAM_ABORT.
Proof. unfold quiet, post; destruct (m a) as [r a']; intros ((D & K) & N1 & N2); by exists r, a'. Qed.

Lemma kept_contents s s' : kept s s' -> contents s' = contents s.
Proof. intros (_ & Ea & _); unfold contents; by rewrite Ea. Qed.

Lemma quiet_read_entry a f i e :
  AccessControl.mDelegate a = true -> acl_ok (theAcl a) -> is_Some (entries (theAcl a) !! e) ->
  quiet (AccessControl.ReadEntry f i e) a.
Proof.
  intros D O He; apply quiet_initialized; [done|]; apply quiet_lift; cbn [DelegateReadEntry example_delegate].
  destruct (ReadEntry_run _ i e f O He) as (r & s' & Hrun & K & Hr); unfold harmless, post; rewrite Hrun; splits; [done| |];
    (destruct r; [done|]; by destruct Hr as [(-> & _)|(-> & _)]).
Qed.

(** What a listener is told about: the entry that is going to be deleted. *)
Definition read_for_listeners (f : Z) (i e : nat) : M state (option nat) :=
  let! a := AccessControl.this in
  match AccessControl.mEntryListener a with
  | [] => ret None
  | _ :: _ => let! err := attempt (AccessControl.ReadEntry f i e) in
              ret (if decide (err = CHIP_NO_ERROR) then Some e else None)
  end.

Lemma quiet_read_for_listeners a f i e :
  AccessControl.mDelegate a = true -> acl_ok (theAcl a) -> is_Some (entries (theAcl a) !! e) ->
  exists p a', read_for_listeners f i e a = (Ok p, a') /\ (p = None \/ p = Some e) /\
    AccessControl.mDelegate a' = AccessControl.mDelegate a /\ kept (theAcl a) (theAcl a').
Proof.
  intros D O He; unfold read_for_listeners, bind at 1, AccessControl.this, get.
  destruct (AccessControl.mEntryListener a); [exists None, a; splits; auto; by apply kept_refl|].
  destruct (quiet_run _ _ (quiet_read_entry a f i e D O He)) as (r & a' & Hrun & D' & K & N1 & N2).
  unfold bind, attempt; rewrite Hrun; destruct r as [[]|err].
  - exists (Some e), a'; splits; auto.
  - exists (if decide (err = CHIP_NO_ERROR) then Some e else None), a'.
    split; [destruct err; done|]; splits; [destruct (decide _); auto|done|done].
Qed.

Lemma HasDefaultDelegate_run s e :
  is_Some (entries s !! e) -> exists b, HasDefaultDelegate (AclDelegate := example_delegate) e s = (Ok b, s).
Proof. intros (o & He); cbn; rewrite (bind_ok _ _ _ _ _ (GetDelegate_run _ _ _ He)); by eexists. Qed.

(** The body of [DeleteEntry], with the object [e] it made. *)
Definition deleting (f : Z) (i e : nat) : M state unit :=
  let! p := read_for_listeners f i e in
  AccessControl.lift (H := example_delegate) (DelegateDeleteEntry i (Some f)) ;;
  let! p := (match p with
             | None => ret None
             | Some e => let! default := AccessControl.lift (H := example_delegate) (HasDefaultDelegate e) in
                         ret (if default : bool then None else Some e)
             end) in
  AccessControl.NotifyEntryChanged f i p AccessControl.kRemoved.

Lemma delete_body a f i e :
  AccessControl.mDelegate a = true -> acl_ok (theAcl a) -> is_Some (entries (theAcl a) !! e) ->
  exists a', deleting f i e a
    = (match position f i (contents (theAcl a)) with Some _ => Ok tt | None => Err CHIP_ERROR_SENTINEL end, a') /\
    contents (theAcl a') = (Spec.remove f i (contents (theAcl a))).2 /\ goes_on a a' /\
    is_Some (entries (theAcl a') !! e).
Proof.
  intros D O He; destruct (quiet_read_for_listeners a f i e D O He) as (p & a2 & Hread & Hp & D2 & K2).
  unfold deleting; rewrite (bind_ok _ _ _ _ _ Hread).
  pose proof (kept_contents _ _ K2) as Hc2; pose proof (kept_entry _ _ _ K2 He) as He2; destruct K2 as (O2 & Ea2 & _).
  pose proof (DeleteEntry_run (theAcl a2) f i O2) as Hdel; rewrite Hc2 in Hdel; unfold Spec.remove.
  destruct (position f i (contents (theAcl a))) as [q|].
  2: { rewrite (bind_err _ _ _ _ _ (lift_same _ a2 _ Hdel)); exists a2; splits; try done; unfold goes_on; by rewrite Ea2. }
  destruct Hdel as (s' & Hdel & O' & Hc & He' & _ & Hlen).
  rewrite (bind_ok _ _ _ _ _ (lift_run _ a2 _ _ Hdel)); set (a3 := with_store s' a2).
  assert (He3 : is_Some (entries (theAcl a3) !! e)).
  { apply lookup_lt_is_Some; cbn; rewrite He'; by apply lookup_lt_is_Some. }
  destruct (HasDefaultDelegate_run _ e He3) as (b & Hb).
  assert (exists p', (match p with
     | None => ret None
     | Some e => let! default := AccessControl.lift (H := example_delegate) (HasDefaultDelegate e) in
                 ret (if default : bool then None else Some e)
     end) a3 = (Ok p', a3)) as (p' & Hp').
  { destruct Hp as [->| ->]; [by eexists|]; rewrite (bind_ok _ _ _ _ _ (lift_same _ a3 _ Hb)); by eexists. }
  rewrite (bind_ok _ _ _ _ _ Hp'); eexists; split; [reflexivity|]; splits; try done.
  unfold goes_on; cbn; rewrite Hlen, Ea2; by rewrite D2.
Qed.

Lemma delete_step a f i :
  AccessControl.mDelegate a = true -> acl_ok (theAcl a) ->
  exists a', AccessControl.DeleteEntry f i a
             = (match position f i (contents (theAcl a)) with Some _ => Ok tt | None => Err CHIP_ERROR_SENTINEL end, a') /\
    contents (theAcl a') = (Spec.remove f i (contents (theAcl a))).2 /\ goes_on a a'.
Proof.
  intros D O; unfold AccessControl.DeleteEntry; rewrite (initialized_run _ a D).
  set (e := length (entries (theAcl a))); set (a1 := with_store (set_entries (entries (theAcl a) ++ [None]) (theAcl a)) a).
  assert (Hnew : AccessControl.lift (H := example_delegate) new_entry a = (Ok e, a1)) by (by apply (lift_run NewEntry)).
  unfold scoped; rewrite (bind_ok _ _ _ _ _ Hnew).
  assert (He1 : is_Some (entries (theAcl a1) !! e)) by (cbn; rewrite lookup_app_r, Nat.sub_diag by done; by eexists).
  destruct (delete_body a1 f i e D (acl_ok_new _ O) He1) as (a2 & Hbody & Hc & (D2 & L2 & O2) & He2).
  pose proof (quiet_lift _ a2 (DeleteEntryObject_harmless _ e O2 He2)) as Hq.
  destruct (quiet_run _ _ Hq) as (r & a' & Hrun & D' & K & _).
  change (AccessControl.lift (delete_entry e) a2 = (r, a')) in Hrun.
  exists a'; splits.
  - change ((let (res, s) := deleting f i e a1 in
             let (_, s) := AccessControl.lift (H := example_delegate) (delete_entry e) s in (res, s))
            = (match position f i (contents (theAcl a)) with Some _ => Ok tt | None => Err CHIP_ERROR_SENTINEL end, a')).
    by rewrite Hbody, Hrun.
  - by rewrite (kept_contents _ _ K), Hc.
  - destruct K as (O' & Ea & _); unfold goes_on; rewrite Ea, D', D2; by splits.
Qed.

Lemma remove_all_delete f p l d : l !! p = Some d -> eFabric d = f -> Spec.remove_all f (delete p l) = Spec.remove_all f l.
Proof.
  intros Hp Hd; unfold Spec.remove_all; rewrite <-(take_drop_middle _ _ _ Hp) at 2.
  by rewrite delete_take_drop, !list.filter_app, filter_cons_False by tauto.
Qed.

Lemma remove_all_none f l : of_fabric f l = [] -> Spec.remove_all f l = l.
Proof.
  unfold of_fabric, Spec.remove_all; induction l as [|d l IH]; [done|]; rewrite !filter_cons.
  destruct (decide (eFabric d = f)); [done|]; rewrite decide_True by done; intros Hl; f_equal; by apply IH.
Qed.

Lemma delete_last_run f n a :
  AccessControl.mDelegate a = true -> acl_ok (theAcl a) -> length (of_fabric f (contents (theAcl a))) = n ->
  exists a', AccessControl.delete_last f n CHIP_NO_ERROR a = (Ok tt, a') /\
    contents (theAcl a') = Spec.remove_all f (contents (theAcl a)) /\ goes_on a a'.
Proof.
  revert a; induction n as [|n IH]; intros a D O Hn; cbn [AccessControl.delete_last].
  { rewrite decide_True by done; exists a; splits; [done| |done]; symmetry; apply remove_all_none.
    by apply nil_length_inv. }
  destruct (delete_step a f n D O) as (a1 & Hrun & Hc & D1 & L1 & O1); unfold Spec.remove in Hc.
  destruct (position f n (contents (theAcl a))) as [p|] eqn:Hp; [|apply position_None in Hp; lia].
  unfold bind at 1, attempt; rewrite Hrun; rewrite decide_True by done; cbn [snd] in Hc.
  destruct (position_lookup _ _ _ _ Hp) as (d & Hd & Hf & Hi & _).
  destruct (IH a1) as (a' & Hrun' & Hc' & D' & L' & O').
  - congruence.
  - done.
  - rewrite Hc, (proj1 (position_delete _ _ _ _ Hp)), length_delete by (by rewrite Hi; eexists); lia.
  - exists a'; splits; [exact Hrun'|by rewrite Hc', Hc, (remove_all_delete _ _ _ _ Hd Hf)|].
    split; [congruence|]; split; [congruence|done].
Qed.

Lemma delete_all_step a f :
  AccessControl.mDelegate a = true -> acl_ok (theAcl a) ->
  exists a', AccessControl.DeleteAllEntriesForFabric f a = (Ok tt, a') /\
    contents (theAcl a') = Spec.remove_all f (contents (theAcl a)) /\ goes_on a a'.
Proof.
  intros D O; unfold AccessControl.DeleteAllEntriesForFabric; rewrite (initialized_run _ a D).
  unfold AccessControl.GetEntryCount; rewrite (initialized_run _ a D), (count_run f a O); by apply delete_last_run.
Qed.


(** ** The check *)

Abbreviation CheckARL := (AccessControl.CheckARL restrictions).

(** The error codes of the services the check calls are not those that mark a stopped
    program. *)
Record proper_services : Prop := {
  proper_GetGroupInfo G f g err : GetGroupInfo = Some G -> G f g = Err err ->
    err <> UNDEFINED_BEHAVIOUR /\ err <> PROGRAM_ABORT;
  proper_group_check sd rp p : group_check sd rp p <> UNDEFINED_BEHAVIOUR /\ group_check sd rp p <> PROGRAM_ABORT;
  proper_restrictions sd rp : CheckARL sd rp <> UNDEFINED_BEHAVIOUR /\ CheckARL sd rp <> PROGRAM_ABORT }.

(** A request is granted by PASE or an entry of the fabric, and not restricted; or it is
    a group command for which the group's auxiliary list answers. *)
Definition granted (l : list AclEntry) (sd : SubjectDescriptor) (rp : RequestPath) (p : Z) : Prop :=
  (authMode sd = kPase \/ Exists (grants IsDeviceTypeOnEndpoint sd rp p) (of_fabric (fabricIndex sd) l)) /\
  (CHIP_CONFIG_USE_ACCESS_RESTRICTIONS = true -> CheckARL sd rp = CHIP_NO_ERROR).

Definition group_granted (a : state) (sd : SubjectDescriptor) (rp : RequestPath) (p : Z) : Prop :=
  (authMode sd = kGroup /\ requestType rp = kCommandInvokeRequest /\ p = kOperate /\ IsGroupId (subject sd) = true) /\
  exists G, GetGroupInfo = Some G /\ G (fabricIndex sd) (GroupIdFromNodeId (subject sd)) = Ok true /\
    AccessControl.mGroupAuxDelegate a = true /\ group_check sd rp p = CHIP_NO_ERROR.

Definition allowed (a : state) (sd : SubjectDescriptor) (rp : RequestPath) (p : Z) : Prop :=
  IsValidPrivilege p = true /\ (granted (contents (theAcl a)) sd rp p \/ group_granted a sd rp p).

(** An iterator and an entry object can get a delegate. *)
Definition can_check (a : state) : Prop := free_iterator (theAcl a) /\ free_delegate (theAcl a).

Context (proper : proper_services).

(** What follows [CheckACL], which ended with [err], in a state that keeps the delegate. *)
Definition after_acl (sd : SubjectDescriptor) (rp : RequestPath) (requestPrivilege : Z) (result : CHIP_ERROR) : M state unit :=
  let result :=
    if decide (result = CHIP_NO_ERROR) then
      if CHIP_CONFIG_USE_ACCESS_RESTRICTIONS then CheckARL sd rp else CHIP_NO_ERROR
    else result in
  let answer err := if decide (err = CHIP_NO_ERROR) then ret tt else fail err in
  if decide (result <> CHIP_NO_ERROR /\ authMode sd = kGroup /\
             requestType rp = kCommandInvokeRequest /\ requestPrivilege = kOperate /\
             IsGroupId (subject sd) = true)
  then
    match GetGroupInfo with
    | None => answer result
    | Some GetGroupInfo =>
        match GetGroupInfo (fabricIndex sd) (GroupIdFromNodeId (subject sd)) with
        | Err err => fail err
        | Ok HasAuxiliaryACL =>
            let! a := AccessControl.this in
            if HasAuxiliaryACL && AccessControl.IsGroupAuxiliaryDelegateRegistered a
            then answer (group_check sd rp requestPrivilege)
            else answer result
        end
    end
  else answer result.

Lemma answer_run {S} err (s : S) :
  err <> UNDEFINED_BEHAVIOUR -> err <> PROGRAM_ABORT ->
  exists r, (if decide (err = CHIP_NO_ERROR) then ret tt else fail err) s = (r, s) /\
    r <> Err UNDEFINED_BEHAVIOUR /\ r <> Err PROGRAM_ABORT /\ (r = Ok tt <-> err = CHIP_NO_ERROR).
Proof.
  intros N1 N2; destruct (decide (err = CHIP_NO_ERROR)) as [->|Hne]; eexists; (split; [reflexivity|]);
    splits; try congruence; split; congruence.
Qed.

Lemma after_acl_run sd rp p err a :
  err <> UNDEFINED_BEHAVIOUR -> err <> PROGRAM_ABORT ->
  exists r, after_acl sd rp p err a = (r, a) /\ r <> Err UNDEFINED_BEHAVIOUR /\ r <> Err PROGRAM_ABORT /\
    (r = Ok tt <-> (err = CHIP_NO_ERROR /\ (CHIP_CONFIG_USE_ACCESS_RESTRICTIONS = true -> CheckARL sd rp = CHIP_NO_ERROR)) \/
                   group_granted a sd rp p).
Proof.
  intros N1 N2; unfold after_acl; cbv zeta; set (result := if decide (err = CHIP_NO_ERROR) then _ else err).
  assert (Hres : result = CHIP_NO_ERROR <->
    err = CHIP_NO_ERROR /\ (CHIP_CONFIG_USE_ACCESS_RESTRICTIONS = true -> CheckARL sd rp = CHIP_NO_ERROR)).
  { unfold result; destruct (decide _), CHIP_CONFIG_USE_ACCESS_RESTRICTIONS; naive_solver. }
  assert (Hprop : result <> UNDEFINED_BEHAVIOUR /\ result <> PROGRAM_ABORT).
  { pose proof (proper_restrictions proper sd rp); unfold result.
    destruct (decide _), CHIP_CONFIG_USE_ACCESS_RESTRICTIONS; done. }
  clearbody result; destruct Hprop as [P1 P2]; setoid_rewrite <-Hres.
  destruct (decide _) as [(Hr & Hgroup)|Hno].
  2: { destruct (answer_run result a P1 P2) as (r & -> & M1 & M2 & Hr); exists r; splits; try done; rewrite Hr.
       split; [by left|]; intros [?|(Hgroup & _)]; [done|].
       destruct (decide (result = CHIP_NO_ERROR)); [done|]; destruct Hno; tauto. }
  unfold group_granted; destruct GetGroupInfo as [G|] eqn:HG.
  2: { destruct (answer_run result a P1 P2) as (r & -> & M1 & M2 & Hr'); exists r; splits; try done; rewrite Hr'; naive_solver. }
  destruct (G (fabricIndex sd) (GroupIdFromNodeId (subject sd))) as [aux|err'] eqn:HGf.
  2: { destruct (proper_GetGroupInfo proper _ _ _ _ HG HGf); eexists; split; [reflexivity|]; splits; try congruence; naive_solver congruence. }
  unfold bind, AccessControl.this, get, AccessControl.IsGroupAuxiliaryDelegateRegistered.
  destruct (aux && AccessControl.mGroupAuxDelegate a) eqn:Haux.
  - apply andb_prop in Haux as [-> Haux]; destruct (proper_group_check proper sd rp p) as [Q1 Q2].
    destruct (answer_run (group_check sd rp p) a Q1 Q2) as (r & -> & M1 & M2 & Hr'); exists r; splits; try done.
    rewrite Hr'; naive_solver.
  - destruct (answer_run result a P1 P2) as (r & -> & M1 & M2 & Hr'); exists r; splits; try done; rewrite Hr'.
    split; [by left|]; intros [?|(_ & G' & [= <-] & HG' & Ha & _)]; [done|]; rewrite HGf in HG'; injection HG' as ->.
    by rewrite Ha in Haux.
Qed.

(** [Check] with a valid privilege, in two parts. *)
Lemma check_split sd rp p fuel a r s :
  AccessControl.mDelegate a = true -> IsValidPrivilege p = true ->
  AccessControl.CheckACL (H := example_delegate) IsDeviceTypeOnEndpoint fuel sd rp p (theAcl a) = (r, s) ->
  r <> Err UNDEFINED_BEHAVIOUR -> r <> Err PROGRAM_ABORT ->
  check fuel sd rp p a
  = after_acl sd rp p (match r with Ok _ => CHIP_NO_ERROR | Err e => e end) (with_store s a).
Proof.
  intros D Hp Hrun N1 N2; unfold AccessControl.Check; rewrite (initialized_run _ a D), Hp.
  unfold bind at 1; cbn [verify ret].
  apply bind_ok; unfold attempt; rewrite (lift_run _ a r s Hrun); destruct r as [[]|[]]; done.
Qed.

Lemma check_run sd rp p fuel a :
  AccessControl.mDelegate a = true -> acl_ok (theAcl a) -> (length (contents (theAcl a)) < fuel)%nat ->
  exists r a', check fuel sd rp p a = (r, a') /\ (r = Ok tt -> allowed a sd rp p) /\
    (can_check a -> Forall entry_valid (contents (theAcl a)) -> allowed a sd rp p -> r = Ok tt) /\
    AccessControl.mDelegate a' = AccessControl.mDelegate a /\ kept (theAcl a) (theAcl a') /\
    r <> Err UNDEFINED_BEHAVIOUR /\ r <> Err PROGRAM_ABORT.
Proof.
  intros D O Hf; unfold allowed; destruct (IsValidPrivilege p) eqn:Hp.
  2: { unfold AccessControl.Check; rewrite (initialized_run _ a D), Hp; unfold bind at 1; cbn [verify fail].
       eexists _, a; split; [reflexivity|]; splits; try done; first [naive_solver|by apply kept_refl]. }
  assert (Hlen : (length (of_fabric (fabricIndex sd) (contents (theAcl a))) < fuel)%nat).
  { eapply Nat.le_lt_trans; [apply length_filter|done]. }
  destruct (CheckACL_run (H := example_delegate) (H0 := example_laws) IsDeviceTypeOnEndpoint sd rp p fuel (theAcl a) O Hlen)
    as (r & s & Hrun & N1 & N2 & N3 & Hok & Hfree).
  pose proof (CheckACL_harmless IsDeviceTypeOnEndpoint sd rp p (theAcl a) fuel O Hf) as Hh.
  assert (K : kept (theAcl a) s) by (unfold harmless, post in Hh; rewrite Hrun in Hh; apply Hh).
  rewrite (check_split sd rp p fuel a r s D Hp Hrun N1 N2).
  destruct (after_acl_run sd rp p (match r with Ok _ => CHIP_NO_ERROR | Err e => e end) (with_store s a))
    as (r' & -> & M1 & M2 & Hr'); [by destruct r; congruence..|].
  eexists _, _; split; [reflexivity|]; splits; try done.
  - rewrite Hr'; intros [[Hr Hrestr]|Hg]; (split; [done|]); [left|right; exact Hg]; split; [|done].
    apply Hok; destruct r as [[]|err]; [done|congruence].
  - intros Hcan Hv [_ Hall]; rewrite Hr'; destruct Hall as [[Hg Hrestr]|Hg]; [left|right; exact Hg]; split; [|done].
    assert (Hv' : Forall entry_valid (of_fabric (fabricIndex sd) (contents (theAcl a)))).
    { apply list.Forall_forall; intros d [_ Hd]%list_elem_of_filter; by apply (proj1 (list.Forall_forall _ _) Hv). }
    destruct (Hfree Hcan Hv') as [[-> _]|[_ Hno]]; [done|]; by destruct Hno.
Qed.


(** ** Runs *)

Lemma create_valid max size f h l : Forall entry_valid l -> Forall entry_valid (Spec.create max size f h l).2.
Proof.
  intros Hl; unfold Spec.create; destruct (decide _); [done|]; destruct h as [d|]; [|done].
  destruct (decide (entry_valid d)); [|done]; destruct (decide _); [|done]; apply Forall_app; auto.
Qed.

Lemma update_valid f i h l : Forall entry_valid l -> Forall entry_valid (Spec.update f i h l).2.
Proof.
  intros Hl; unfold Spec.update; destruct h as [d|]; [|done]; destruct (decide (entry_valid d)); [|done].
  destruct (position f i l); [by apply Forall_insert|done].
Qed.

Lemma remove_valid f i l : Forall entry_valid l -> Forall entry_valid (Spec.remove f i l).2.
Proof. intros Hl; unfold Spec.remove; destruct (position f i l); [by apply Forall_delete|done]. Qed.

Lemma remove_all_valid f l : Forall entry_valid l -> Forall entry_valid (Spec.remove_all f l).
Proof.
  intros Hl; apply list.Forall_forall; intros d [_ Hd]%list_elem_of_filter; by apply (proj1 (list.Forall_forall _ _) Hl).
Qed.

Lemma spec_no_stop max size f i h l :
  let ok (r : result nat) := r <> Err UNDEFINED_BEHAVIOUR /\ r <> Err PROGRAM_ABORT in
  ok (Spec.create max size f h l).1 /\ ok (Spec.update f i h l).1 /\ ok (Spec.remove f i l).1.
Proof.
  cbv zeta; unfold Spec.create, Spec.update, Spec.remove.
  splits; repeat match goal with |- context [match ?x with _ => _ end] => destruct x end; done.
Qed.

Definition changes_list (op : acl_op) : Prop :=
  match op with OpCreate _ _ | OpUpdate _ _ _ | OpDelete _ _ | OpDeleteAll _ => True | _ => False end.

(** One operation: it answers as the list does, and the invariant stays. *)
Definition one_step op a : Prop :=
  exists r a', step op a = (r, a') /\
    answers (length (acl (theAcl a))) op (view_of a) r (view_of a') /\
    ready a' /\ length (acl (theAcl a')) = length (acl (theAcl a)) /\
    (~ changes_list op -> acl (theAcl a') = acl (theAcl a)) /\
    r <> Err UNDEFINED_BEHAVIOUR /\ r <> Err PROGRAM_ABORT.

(** An operation that leaves the list alone, whose answer is known or not specified. *)
Lemma quiet_step op a :
  ready a -> quiet (step op) a ->
  (forall r a', step op a = (r, a') -> contents (theAcl a') = contents (theAcl a) ->
     answers (length (acl (theAcl a))) op (view_of a) r (view_of a')) -> one_step op a.
Proof.
  intros [D O V] Hq Hans; destruct (quiet_run _ _ Hq) as (r & a' & Hrun & D' & K & N1 & N2).
  pose proof (kept_contents _ _ K) as Hc; destruct K as (O' & Ea & _); exists r, a'; splits; try done.
  - by apply Hans.
  - split; [congruence|done|by rewrite Hc].
  - by rewrite Ea.
Qed.

Lemma list_steps op a :
  ready a -> possible op a ->
  match op with OpCreate _ _ | OpUpdate _ _ _ | OpDelete _ _ | OpDeleteAll _ | OpCount _ => one_step op a | _ => True end.
Proof.
  intros R Hp; pose proof R as [D O V]; destruct op; cbn [possible] in Hp; try done; unfold one_step.
  - destruct (create_step a f e R Hp) as (a' & Hrun & Hc & D' & L' & O'); eexists _, a'; splits; [exact Hrun| | |exact L'|intros []; exact I|..];
      try apply (spec_no_stop _ _ f 0).
    + cbn [answers view_of vList vShown]; rewrite Hc; symmetry; apply surjective_pairing.
    + split; [congruence|done|rewrite Hc; by apply create_valid].
  - destruct (update_step a f i e R Hp) as (a' & Hrun & Hc & D' & L' & O'); eexists _, a'; splits; [exact Hrun| | |exact L'|intros []; exact I|..];
      try apply (spec_no_stop 0 0 f).
    + cbn [answers view_of vList vShown]; rewrite Hc; symmetry; apply surjective_pairing.
    + split; [congruence|done|rewrite Hc; by apply update_valid].
  - destruct (delete_step a f i D O) as (a' & Hrun & Hc & D' & L' & O').
    exists (Spec.remove f i (contents (theAcl a))).1, a'; splits; [| | |exact L'|intros []; exact I|..]; try apply (spec_no_stop 0 0 f i None).
    + cbn [step]; eapply answer_unit; [exact Hrun|]; unfold Spec.remove; by destruct (position _ _ _).
    + cbn [answers view_of vList]; rewrite Hc; symmetry; apply surjective_pairing.
    + split; [congruence|done|rewrite Hc; by apply remove_valid].
  - destruct (delete_all_step a f D O) as (a' & Hrun & Hc & D' & L' & O'); exists (Ok 0%nat), a'; splits; try done.
    + cbn [step]; by eapply answer_unit.
    + split; [congruence|done|rewrite Hc; by apply remove_all_valid].
  - eexists _, a; cbn [step]; unfold AccessControl.GetEntryCount; rewrite (initialized_run _ a D), (count_run f a O); by splits.
Qed.

Lemma read_step a f i e : ready a -> is_Some (entries (theAcl a) !! e) -> one_step (OpRead f i e) a.
Proof.
  intros [D O V] He; destruct (ReadEntry_run _ i e f O He) as (r & s & Hrun & K & Hr).
  pose proof (kept_contents _ _ K) as Hc; exists (match r with Ok _ => Ok 0%nat | Err err => Err err end), (with_store s a).
  assert (Hread : AccessControl.ReadEntry f i e a = (r, with_store s a)).
  { unfold AccessControl.ReadEntry; rewrite (initialized_run _ a D); by apply (lift_run (ReadEntry i e (Some f))). }
  splits; [by eapply answer_unit| | | | | |].
  - cbn [answers view_of vList vShown AccessControl.theStore with_store]; split; [done|]; destruct r as [[]|err].
    + destruct Hr as (d & Hd & ->); split; [by eexists|done].
    + destruct Hr as [[-> Hlen]|[-> _]]; [left; split; [done|by apply lookup_ge_None]|by right].
  - split; [done|apply K|cbn; by rewrite Hc].
  - cbn; by destruct K as (_ & -> & _).
  - intros _; apply K.
  - destruct r as [[]|err]; [done|]; by destruct Hr as [[-> _]|[-> _]].
  - destruct r as [[]|err]; [done|]; by destruct Hr as [[-> _]|[-> _]].
Qed.

(** *** Iterators *)

Lemma entries_step a f it : ready a -> is_Some (iterators (theAcl a) !! it) -> one_step (OpEntries f it) a.
Proof.
  intros R Hit; pose proof R as [D O V]; apply quiet_step; [done|cbn [step]|].
  { apply quiet_unit, quiet_initialized, quiet_lift; [done|]; by apply Entries_harmless. }
  intros r a' Hrun Hc; split; [exact Hc|]; intros n ->; cbn [step] in Hrun.
  unfold AccessControl.Entries in Hrun; unfold bind at 1 in Hrun; rewrite (initialized_run _ a D) in Hrun.
  destruct (Entries it (Some f) (theAcl a)) as [[[]|err] s'] eqn:E;
    rewrite (lift_run (DelegateEntries (AclDelegate := example_delegate) it (Some f)) a _ s' E) in Hrun; [|done].
  injection Hrun as _ <-; exact (Entries_left _ _ _ _ O Hit E).
Qed.

Lemma next_step a it e : ready a -> is_Some (iterators (theAcl a) !! it) -> is_Some (entries (theAcl a) !! e) ->
  one_step (OpNext it e) a.
Proof.
  intros R Hit He; pose proof R as [D O V]; apply quiet_step; [done|cbn [step]|].
  { apply quiet_unit, quiet_lift; by apply Next_harmless. }
  intros r a' Hrun Hc; split; [exact Hc|]; intros q Hq; cbn [step] in Hrun; unfold bind at 1 in Hrun.
  destruct (Next it e (theAcl a)) as [r1 s'] eqn:E; rewrite (lift_run (IteratorNext (AclDelegate := example_delegate) it e) a r1 s' E) in Hrun.
  pose proof (Next_left _ _ _ _ _ q O He E Hq) as Hn; destruct r1 as [[]|err]; injection Hrun as <- <-; exact Hn.
Qed.

Lemma quiet_listeners (f : state -> list nat) a :
  acl_ok (theAcl a) -> quiet (modify (fun a => AccessControl.set_mEntryListener (H := example_delegate) (f a) a)) a.
Proof. intros O; unfold quiet, post, modify; splits; try done; by apply kept_refl. Qed.

Lemma contents_length s : (length (contents s) <= length (acl s))%nat.
Proof.
  unfold contents; rewrite length_fmap; pose proof (f_equal length (used_prefix (acl s))) as Hl; rewrite length_app in Hl; lia.
Qed.

Lemma step_run op a : ready a -> possible op a -> one_step op a.
Proof.
  intros R Hp; pose proof (list_steps op a R Hp) as Hl; pose proof R as [D O V].
  destruct op; try exact Hl; cbn [possible] in Hp; clear Hl; try (apply quiet_step; [done| |by intros]; cbn [step]).
  - by apply read_step.
  - apply quiet_unit, quiet_initialized, quiet_lift; [done|]; by apply PrepareEntry_harmless.
  - destruct Hp; apply quiet_unit, quiet_lift; by apply run_edit_harmless.
  - apply quiet_lift; by apply NewEntry_harmless.
  - apply quiet_unit, quiet_lift; by apply DeleteEntryObject_harmless.
  - apply quiet_lift; by apply NewIterator_harmless.
  - by apply entries_step.
  - by destruct Hp; apply next_step.
  - apply quiet_unit, quiet_lift; by apply DeleteIteratorObject_harmless.
  - apply quiet_unit; unfold quiet, post, AccessControl.AddEntryListener, modify; splits; try done.
    + by destruct (decide _).
    + destruct (decide _); by apply kept_refl.
  - by apply quiet_unit, quiet_listeners.
  - apply quiet_bind; [by eapply quiet_read|]; intros a1 a2 [= <- <-] _ _; apply quiet_unit.
    pose proof (contents_length (theAcl a)).
    destruct (check_run sd rp requestPrivilege (S (length (acl (theAcl a)))) a D O) as (r & a' & Hrun & _ & _ & D' & K & N); [lia|].
    unfold quiet, post; by rewrite Hrun.
Qed.

(** What an operation leaves of the iterators. *)
Lemma framed_step op : framed theAcl (moves op) (step op).
Proof.
  assert (Hu : forall P (m : M state unit), framed theAcl P m -> framed theAcl P (m ;; ret 0%nat))
    by (intros P m Hm; apply framed_bind; [done|intros []; apply framed_ret]).
  destruct op; cbn [step moves]; try apply Hu.
  - apply framed_ac_CreateEntry.
  - apply framed_ac_UpdateEntry.
  - apply framed_ac_DeleteEntry.
  - apply framed_ac_DeleteAll.
  - apply framed_ac_GetEntryCount.
  - apply framed_ac_ReadEntry.
  - apply framed_initialized, framed_lift, framed_PrepareEntry.
  - apply framed_lift, framed_run_edit.
  - apply framed_lift, framed_NewEntry.
  - apply framed_lift, framed_DeleteEntryObject.
  - apply framed_lift, framed_NewIterator.
  - apply framed_initialized, framed_lift; intros s A; eapply frame_weaken; [|by apply framed_Entries]; by intros ? <-.
  - apply framed_lift; intros s A; eapply frame_weaken; [|by apply framed_Next]; by intros ? <-.
  - apply framed_lift; intros s A; eapply frame_weaken; [|by apply framed_Delete]; by intros ? <-.
  - apply framed_modify_ac; intros a; by destruct (decide _).
  - by apply framed_modify_ac.
  - intros a A; by apply framed_ac_Check.
Qed.

Lemma run_ready ops a :
  ready a -> apart (theAcl a) ->
  let (log, a') := run ops a in
  explained (length (acl (theAcl a))) (view_of a) log /\ ready a' /\
  length (acl (theAcl a')) = length (acl (theAcl a)).
Proof.
  revert a; induction ops as [|op ops IH]; intros a R A; cbn [run]; [by split; [constructor|]|].
  destruct (decide (possible op a)) as [Hp|Hp]; [|by apply IH].
  destruct (step_run op a R Hp) as (r & a1 & Hrun & Hans & R1 & Hlen & Hacl & N1 & N2); rewrite Hrun.
  pose proof (framed_step op a A) as F; rewrite Hrun in F; cbn [snd] in F.
  pose proof (IH a1 R1 (frame_apart _ _ _ F)) as Hrest; destruct (run ops a1) as [log a2]; destruct Hrest as (He & R2 & Hlen2).
  rewrite Hlen in He; splits; [|done|congruence]; constructor; try done.
  intros it q Hm; apply (frame_left _ _ _ _ _ F); [|done]; apply Hacl; intros Hc; by destruct op.
Qed.

(** *** From the start *)

(** The object before [Init], with or without an auxiliary delegate for groups. *)
Definition fresh (aux : bool) : state :=
  AccessControl.MkAccessControl (H := example_delegate) false aux [] [] at_start.
Definition started (aux : bool) : state := (AccessControl.Init (H := example_delegate) (fresh aux)).2.

Lemma used_replicate n st : mInUse st = false -> used (replicate n st) = [].
Proof. intros Hst; destruct n; cbn; by rewrite ?Hst. Qed.

Lemma started_run aux : AccessControl.Init (H := example_delegate) (fresh aux) = (Ok tt, started aux).
Proof. done. Qed.

Lemma started_acl aux :
  theAcl (started aux) = set_acl (replicate (kNumberOfFabrics * kEntriesPerFabric) Clear) at_start.
Proof. cbn; by rewrite fmap_replicate. Qed.

Lemma started_ready aux : ready (started aux).
Proof.
  assert (Hu : forall n, used (replicate n Clear) = []) by (intros n; by apply used_replicate).
  split; [done|rewrite started_acl|]; cbn [set_acl contents acl].
  - split; cbn; rewrite ?Hu; cbn [length].
    + split; try done; intros d; intros; exfalso; match goal with H : replicate _ _ !! _ = Some _ |- _ => apply lookup_replicate_1 in H as [-> _] end; done.
    + intros d x j Hd; apply lookup_replicate_1 in Hd as [-> _]; done.
    + by apply Forall_replicate.
    + apply Forall_replicate, Forall_replicate; unfold is_uint, kUndefinedNodeId; lia.
    + apply Forall_replicate, Forall_replicate; unfold is_uint; lia.
    + done.
  - unfold contents; rewrite started_acl; cbn [set_acl acl]; by rewrite Hu.
Qed.

Lemma started_contents aux :
  contents (theAcl (started aux)) = [] /\ length (acl (theAcl (started aux))) = (kNumberOfFabrics * kEntriesPerFabric)%nat.
Proof. rewrite started_acl; unfold contents; cbn; rewrite used_replicate by done; by rewrite length_replicate. Qed.

Lemma started_apart aux : apart (theAcl (started aux)).
Proof. by intros it d. Qed.

(** C19: any operations of [AccessControl] and of the objects it serves, made on a new
    access control, answer as a list of entries does: an entry is added after the others
    and gets the next index of its fabric, the i-th entry of the fabric is the one
    replaced, deleted, counted or read, the other entries stay, and every refusal has the
    error of its cause; an iterator of a fabric gives the entries of the fabric that are
    in the list, in order, each once, and then the sentinel, whatever is done in between to
    other objects and iterators, as long as the list is not changed.  Objects and iterators
    are seen in the memory ([handle], [left]) after every operation: what they say after
    the list was changed is not part of this - after a deletion an object may show another
    entry ([delete_moves_other_object]) - nor what an edit of an object makes it say.  An
    object or iterator that is refused for want of space is refused with
    [CHIP_ERROR_BUFFER_TOO_SMALL]. *)
Theorem acl_refines_list aux ops :
  vList (view_of (started aux)) = [] /\
  explained (kNumberOfFabrics * kEntriesPerFabric) (view_of (started aux)) (run ops (started aux)).1.
Proof.
  pose proof (run_ready ops (started aux) (started_ready aux) (started_apart aux)) as Hrun.
  destruct (started_contents aux) as [Hc Hl]; split; [exact Hc|].
  destruct (run ops (started aux)) as [log a']; rewrite Hl in Hrun; tauto.
Qed.

(** C29: whatever operations are made, the list holds valid entries only, an object that
    has a delegate shows a storage in use, and no two objects share a storage of the
    pool. *)
Theorem acl_well_formed aux ops : ready (run ops (started aux)).2.
Proof.
  pose proof (run_ready ops (started aux) (started_ready aux) (started_apart aux)) as Hrun.
  destruct (run ops (started aux)) as [log a']; tauto.
Qed.

(** C2: after any operations [Check] allows only what the list of entries, PASE or the
    auxiliary list of the group grants, whatever the pools hold; and it allows all of it
    when an iterator and an entry object are free. *)
Theorem check_decides aux ops sd rp p :
  let a := (run ops (started aux)).2 in
  exists r a', check (S (kNumberOfFabrics * kEntriesPerFabric)) sd rp p a = (r, a') /\
    r <> Err UNDEFINED_BEHAVIOUR /\ r <> Err PROGRAM_ABORT /\
    (r = Ok tt -> allowed a sd rp p) /\ (can_check a -> (r = Ok tt <-> allowed a sd rp p)).
Proof.
  cbv zeta; pose proof (run_ready ops (started aux) (started_ready aux) (started_apart aux)) as Hrun; destruct (started_contents aux) as [_ Hl].
  destruct (run ops (started aux)) as [log a]; destruct Hrun as (_ & [D O V] & Hlen); cbn [snd]; rewrite Hl in Hlen.
  pose proof (contents_length (theAcl a)).
  destruct (check_run sd rp p (S (kNumberOfFabrics * kEntriesPerFabric)) a D O) as (r & a' & Hrun & Hs & Hc & _ & _ & N1 & N2); [lia|].
  exists r, a'; splits; try done; intros Hcan; split; [done|]; by apply Hc.
Qed.

End Run.

(** ** Examples *)

Section Examples.
#[local] Existing Instance default_config.
Abbreviation no_device_type := (fun _ _ : Z => false).
Abbreviation no_group_check := (fun (_ : SubjectDescriptor) (_ : RequestPath) (_ : Z) => CHIP_ERROR_ACCESS_DENIED).
Abbreviation run_default := (run no_device_type None no_group_check None false).
Abbreviation theAcl := (AccessControl.theStore (H := example_delegate)).

Lemma default_proper : proper_services None no_group_check None.
Proof. by split; [|done|intros sd rp; unfold AccessControl.CheckARL; destruct (decide _)]. Qed.

(** Two entries of fabric 1 and one of fabric 2, made through one object. *)
Definition three_entries : list acl_op :=
  [OpNewEntry; OpPrepare 0; OpEdit 0 (EditAuthMode kCase); OpEdit 0 (EditFabricIndex 1);
   OpEdit 0 (EditPrivilege kOperate); OpEdit 0 (EditAddSubject 5); OpCreate 1 0;
   OpEdit 0 (EditSetSubject 0 6); OpEdit 0 (EditAddTarget (MkTarget kEndpoint 0 3 0)); OpCreate 1 0;
   OpEdit 0 (EditFabricIndex 2); OpCreate 2 0].

Definition node_5 : SubjectDescriptor := MkSubject 1 kCase 5 [] false.
Definition on_off : RequestPath := MkRequestPath 6 1 kCommandInvokeRequest (Some 0).

(** Read, count, refuse, delete, and go through what is left of fabric 1. *)
Definition list_operations : list acl_op :=
  three_entries ++ [OpRead 1 1 0; OpCount 1; OpDelete 1 5; OpDelete 1 0;
                    OpNewIterator; OpEntries 1 0; OpNext 0 0; OpNext 0 0].

Lemma acl_refines_list_witness :
  ((fun x => x.1.2) <$> (run_default list_operations (started false)).1)
    = [Ok 0; Ok 0; Ok 0; Ok 0; Ok 0; Ok 0; Ok 0; Ok 0; Ok 0; Ok 1; Ok 0; Ok 0; Ok 0; Ok 2; Err CHIP_ERROR_SENTINEL; Ok 0;
       Ok 0; Ok 0; Ok 0; Err CHIP_ERROR_SENTINEL]%nat /\
  explained (kNumberOfFabrics * kEntriesPerFabric) (view_of (started false)) (run_default list_operations (started false)).1.
Proof.
  split; [by vm_compute|].
  exact (proj2 (acl_refines_list (H := default_config) no_device_type None no_group_check None false eq_refl default_proper false
           list_operations)).
Defined.

Lemma acl_well_formed_witness :
  length (contents (theAcl (run_default three_entries (started false)).2)) = 3%nat /\
  ready (run_default three_entries (started false)).2.
Proof.
  split; [by vm_compute|].
  exact (acl_well_formed no_device_type None no_group_check None false eq_refl default_proper false three_entries).
Defined.

(** The pools are free when the object is gone. *)
Lemma check_decides_witness :
  let a := (run_default (three_entries ++ [OpDropEntry 0]) (started false)).2 in
  can_check a /\
  (AccessControl.Check no_device_type None no_group_check None false 65 node_5 on_off kOperate a).1 = Ok tt /\
  (AccessControl.Check no_device_type None no_group_check None false 65 node_5 on_off kManage a).1 = Err CHIP_ERROR_ACCESS_DENIED /\
  exists r a', AccessControl.Check no_device_type None no_group_check None false 65 node_5 on_off kManage a = (r, a') /\
    r <> Err UNDEFINED_BEHAVIOUR /\ r <> Err PROGRAM_ABORT /\
    (r = Ok tt -> allowed no_device_type None no_group_check None false a node_5 on_off kManage) /\
    (can_check a -> (r = Ok tt <-> allowed no_device_type None no_group_check None false a node_5 on_off kManage)).
Proof.
  cbv zeta; split; [split; exists 0%nat; vm_compute; eauto|].
  split; [by vm_compute|]; split; [by vm_compute|].
  exact (check_decides no_device_type None no_group_check None false eq_refl default_proper false
           (three_entries ++ [OpDropEntry 0]) node_5 on_off kManage).
Defined.

(** [DeleteEntry] puts the objects right from the index it was given, which counts
    the entries of one fabric, where it should use the position in the list.  An object
    that shows the second entry of fabric 1 shows the first one after the only entry of
    fabric 2, which comes last, is deleted: the entries of fabric 1 are what they were. *)
Theorem delete_moves_other_object :
  let a := (run_default (three_entries ++ [OpRead 1 1 0]) (started false)).2 in
  let a' := (run_default [OpDelete 2 0] a).2 in
  of_fabric 1 (contents (theAcl a')) = of_fabric 1 (contents (theAcl a)) /\
  handle (theAcl a) 0 = of_fabric 1 (contents (theAcl a)) !! 1%nat /\
  handle (theAcl a') 0 = of_fabric 1 (contents (theAcl a')) !! 0%nat /\
  handle (theAcl a') 0 <> handle (theAcl a) 0.
Proof. cbv zeta; splits; [by vm_compute..|]; vm_compute; discriminate. Qed.

End Examples.
