(* ===== verification/QName.v ===== *)
(** * QName: names in DNS messages

    src/src/lib/dnssd/minimal_mdns/core/QName.h and QName.cpp, BytesRange.h.

    - [FullQName]: a name as a list of C strings;
    - [SerializedQNameIterator]: a name inside a packet, read label by label, with
      backward pointers followed under the limit [mLookBehindMax];
    - [name_at]: what the bytes at a position say by RFC 1035, with the limit the
      code puts on pointers, and [ends_at]: where a name ends in the packet;
    - the iterator reads exactly these names, never leaves its range, and every
      loop over it stops. *)

From S2P Require Import Prelude Encoding.

(** ** C strings and full names *)

Definition tolower (c : Z) : Z := if (65 <=? c) && (c <=? 90) then c + 32 else c.

Definition fold_case (a : bytes) : bytes := tolower <$> a.

(** [strcasecmp(a, b) == 0] in the C locale. *)
Definition strcasecmp_eq (a b : bytes) : bool := bool_decide (fold_case a = fold_case b).

(** A null-terminated string: its characters. *)
Definition QNamePart := bytes.

(** [names] and [nameCount]. *)
Definition FullQName := list QNamePart.

(** [operator==(const FullQName &)] of [FullQName] *)
Fixpoint same_parts (a b : FullQName) : bool :=
  match a, b with
  | x :: a, y :: b => if negb (strcasecmp_eq x y) then false else same_parts a b
  | _, _ => true
  end.
Definition FullQName_eq (a b : FullQName) : bool :=
  if negb (length a =? length b)%nat then false else same_parts a b.

(** ** The iterator *)

Definition kMaxValueSize : Z := 63.
Definition kPtrMask : Z := 0xC0.

(** [mValidData] starts at offset 0 of the block [mMemory] and is [mSize] bytes
    long; positions are offsets from [mValidData.Start()]. *)
Record SerializedQNameIterator := MkIterator {
  mMemory : bytes;
  mSize : nat;
  mLookBehindMax : nat;
  mCurrentPosition : nat;
  mIsValid : bool;
  mValue : bytes }.

Definition no_value : bytes := replicate 64 0.

(** [SerializedQNameIterator()] *)
Definition null_iterator : SerializedQNameIterator := MkIterator [] 0 0 0 false no_value.

(** [SerializedQNameIterator(validData, position)] *)
Definition iterator_at (memory : bytes) (size position : nat) : SerializedQNameIterator :=
  MkIterator memory size position position true no_value.

(** [mValidData.Contains(Start() + p)] *)
Definition Contains (it : SerializedQNameIterator) (p : nat) : bool := (p <? mSize it)%nat.

Definition IsValid (it : SerializedQNameIterator) : bool := mIsValid it.
Definition Value (it : SerializedQNameIterator) : QNamePart := c_string (mValue it).
Definition OffsetInCurrentValidData (it : SerializedQNameIterator) : nat := mCurrentPosition it.

(** Reading [*(Start() + p)] and the block [memcpy] copies from there. *)
Definition deref (it : SerializedQNameIterator) (p : nat) : result Z :=
  match mMemory it !! p with Some b => Ok b | None => Err UNDEFINED_BEHAVIOUR end.
Definition fetch (it : SerializedQNameIterator) (p n : nat) : result bytes :=
  if (p + n <=? length (mMemory it))%nat then Ok (mem_read p n (mMemory it))
  else Err UNDEFINED_BEHAVIOUR.

Definition invalidated (it : SerializedQNameIterator) : SerializedQNameIterator :=
  MkIterator (mMemory it) (mSize it) (mLookBehindMax it) (mCurrentPosition it) false (mValue it).
Definition jumped (it : SerializedQNameIterator) (offset : nat) : SerializedQNameIterator :=
  MkIterator (mMemory it) (mSize it) offset offset (mIsValid it) (mValue it).
Definition labelled (it : SerializedQNameIterator) (label : bytes) : SerializedQNameIterator :=
  MkIterator (mMemory it) (mSize it) (mLookBehindMax it)
    (mCurrentPosition it + length label + 1) (mIsValid it)
    (<[length label := 0]> (mem_write 0 label (mValue it))).

Definition is_pointer (length : Z) : bool := Z.land length kPtrMask =? kPtrMask.
Definition pointer (b0 b1 : Z) : nat := Z.to_nat (Z.lor (Z.shiftl (Z.land b0 0x3F) 8) b1).

(** The [while (true)] of [Next(bool followIndirectPointers)]; every turn but the
    last lowers [mLookBehindMax], so [S mLookBehindMax] turns are enough. *)
Fixpoint Next_loop (fuel : nat) (followIndirectPointers : bool) (it : SerializedQNameIterator) :
    result (bool * SerializedQNameIterator) :=
  match fuel with
  | O => Err UNDEFINED_BEHAVIOUR
  | S fuel =>
      let pos := mCurrentPosition it in
      if negb (Contains it pos) then Err PROGRAM_ABORT
      else
        let* length := deref it pos in
        if length =? 0 then Ok (false, it)
        else if is_pointer length then
          if negb followIndirectPointers then Ok (false, it)
          else if negb (Contains it (pos + 1)) then Ok (false, invalidated it)
          else
            let* next := deref it (pos + 1) in
            let offset := pointer length next in
            if (mLookBehindMax it <=? offset)%nat then Ok (false, invalidated it)
            else Next_loop fuel followIndirectPointers (jumped it offset)
        else if kMaxValueSize <? length then Ok (false, invalidated it)
        else if negb (Contains it (pos + 1 + Z.to_nat length)) then Ok (false, invalidated it)
        else
          let* label := fetch it (pos + 1) (Z.to_nat length) in
          Ok (true, labelled it label)
  end.

(** [Next(bool)] and [Next()] *)
Definition Next_with (followIndirectPointers : bool) (it : SerializedQNameIterator) :
    result (bool * SerializedQNameIterator) :=
  if negb (mIsValid it) then Ok (false, it)
  else Next_loop (S (mLookBehindMax it)) followIndirectPointers it.
Definition Next (it : SerializedQNameIterator) : result (bool * SerializedQNameIterator) :=
  if mIsValid it then Next_with true it else Ok (false, it).

(** A bound on the labels an iterator can still return. *)
Definition steps_left (it : SerializedQNameIterator) : nat :=
  mLookBehindMax it * mSize it + (mSize it - mCurrentPosition it).

(** [while (Next(false))] of [FindDataEnd] *)
Fixpoint skip_labels (fuel : nat) (it : SerializedQNameIterator) : result SerializedQNameIterator :=
  match fuel with
  | O => Err UNDEFINED_BEHAVIOUR
  | S fuel =>
      let* (more, it) := Next_with false it in
      if (more : bool) then skip_labels fuel it else Ok it
  end.

Definition FindDataEnd (it : SerializedQNameIterator) : result (option nat) :=
  let* it := skip_labels (S (steps_left it)) it in
  if negb (IsValid it) then Ok None
  else
    let pos := mCurrentPosition it in
    let* b := deref it pos in
    if b =? 0 then Ok (Some (pos + 1)%nat)
    else if is_pointer b then
      if negb (Contains it (pos + 1)) then Ok None else Ok (Some (pos + 2)%nat)
    else Ok None.

(** [operator==(const FullQName &)] *)
Fixpoint eq_full (self : SerializedQNameIterator) (other : FullQName) : result bool :=
  match other with
  | [] => let* (more, _) := Next self in Ok (negb more)
  | name :: other =>
      let* (more, self) := Next self in
      if (more : bool) then
        if negb (strcasecmp_eq (Value self) name) then Ok false else eq_full self other
      else Ok false
  end.

(** [operator==(const SerializedQNameIterator &)] *)
Fixpoint eq_iterator_loop (fuel : nat) (a b : SerializedQNameIterator) : result bool :=
  match fuel with
  | O => Err UNDEFINED_BEHAVIOUR
  | S fuel =>
      let* (hasA, a) := Next a in
      let* (hasB, b) := Next b in
      if xorb hasA hasB then Ok false
      else if negb (IsValid a) || negb (IsValid b) then Ok false
      else if negb hasA || negb hasB then Ok (IsValid a && IsValid b)
      else if negb (strcasecmp_eq (Value a) (Value b)) then Ok false
      else eq_iterator_loop fuel a b
  end.
Definition eq_iterator (a b : SerializedQNameIterator) : result bool :=
  eq_iterator_loop (S (steps_left a)) a b.

(** [while (it.Next())], the values in turn: how HeapQName.h, QNameString.cpp and
    every other client reads a name. *)
Fixpoint read_labels (fuel : nat) (it : SerializedQNameIterator) :
    result (list QNamePart * SerializedQNameIterator) :=
  match fuel with
  | O => Err UNDEFINED_BEHAVIOUR
  | S fuel =>
      let* (more, it) := Next it in
      if (more : bool) then
        let* (rest, it') := read_labels fuel it in Ok (Value it :: rest, it')
      else Ok ([], it)
  end.
Definition labels (it : SerializedQNameIterator) : result (list QNamePart * SerializedQNameIterator) :=
  read_labels (S (steps_left it)) it.

(** *** Names held in memory

    [HeapQName(name)] (core/HeapQName.h): the name is read twice, first to count the
    elements; [alloc k] tells whether the k-th allocation succeeds.  [None] is a copy
    that is not [IsOk]. *)
Fixpoint alloc_all (alloc : nat -> bool) (k : nat) (names : list QNamePart) : bool :=
  match names with
  | [] => true
  | _ :: names => alloc k && alloc_all alloc (S k) names
  end.
Definition HeapQName (alloc : nat -> bool) (name : SerializedQNameIterator) : result (option FullQName) :=
  let* (_, it) := labels name in
  if negb (IsValid it) then Ok None
  else if negb (alloc 0%nat) then Ok None
  else
    let* (names, _) := labels name in
    Ok (if alloc_all alloc 1 names then Some names else None).

(** [FlatAllocatedQName] (core/FlatAllocatedQName.h): one block with a pointer of
    [ptr_size] bytes for each name, then the characters of the names, each with a NUL. *)
Definition RequiredStorageSize (ptr_size : nat) (names : FullQName) : nat :=
  foldr (fun name ret => ptr_size + length name + 1 + ret)%nat 0%nat names.
Fixpoint flat_layout (nameLocation : nat) (names : FullQName) : list nat * bytes :=
  match names with
  | [] => ([], [])
  | name :: rest =>
      let (offsets, data) := flat_layout (nameLocation + length name + 1) rest in
      (nameLocation :: offsets, name ++ 0 :: data)
  end.
(** The offsets [Build] stores as pointers, and the characters behind them. *)
Definition Build (ptr_size : nat) (names : FullQName) : list nat * bytes :=
  flat_layout (ptr_size * length names) names.

(** [QNameString] (core/QNameString.cpp): the labels with dots between them; [buffer]
    is what the string builder of fixed size makes of the pieces added to it. *)
Definition dot : bytes := [46].
Definition invalid_mark : bytes := [40; 33; 73; 78; 86; 65; 76; 73; 68; 33; 41].
Fixpoint dotted (first : bool) (names : list QNamePart) : list bytes :=
  match names with
  | [] => []
  | name :: names => (if first then [] else [dot]) ++ name :: dotted false names
  end.
Definition QNameString (buffer : list bytes -> bytes) (name : SerializedQNameIterator) : result bytes :=
  let* (names, it) := labels name in
  Ok (buffer (dotted true names ++ if IsValid it then [] else [invalid_mark])).

(** ** Safety and termination

    An iterator is well formed when its range is inside the block it points to, its
    position is in range, and it only looks behind its position. *)
Definition iter_ok (it : SerializedQNameIterator) : Prop :=
  bytes_ok (mMemory it) /\ (mSize it <= length (mMemory it))%nat /\
  (mCurrentPosition it < mSize it)%nat /\ (mLookBehindMax it <= mCurrentPosition it)%nat /\
  length (mValue it) = 64%nat.

(** Two iterators over the same range. *)
Definition same_range (it it' : SerializedQNameIterator) : Prop :=
  mMemory it' = mMemory it /\ mSize it' = mSize it.

#[export] Instance same_range_equiv : Equivalence same_range.
Proof. unfold same_range; split; [done|by intros ?? []|intros ??? [] []; split; congruence]. Qed.

Lemma iterator_at_ok m n p :
  bytes_ok m -> (n <= length m)%nat -> (p < n)%nat -> iter_ok (iterator_at m n p).
Proof. unfold iter_ok; simpl; auto. Qed.

Lemma deref_in_range it p :
  iter_ok it -> Contains it p = true -> exists b, deref it p = Ok b /\ is_u8 b /\ mMemory it !! p = Some b.
Proof.
  intros (Hb & Hs & _) Hp%Nat.ltb_lt; unfold deref.
  destruct (lookup_lt_is_Some_2 (mMemory it) p) as [b E]; [lia|].
  rewrite E; exists b; splits; [done| |done].
  by eapply Forall_lookup_1 in E.
Qed.

Lemma fetch_in_range it p n :
  (p + n <= length (mMemory it))%nat -> fetch it p n = Ok (mem_read p n (mMemory it)).
Proof. unfold fetch; intros; by bcase; [|lia]. Qed.

Lemma jumped_ok it offset :
  iter_ok it -> (offset < mLookBehindMax it)%nat -> iter_ok (jumped it offset).
Proof. intros (? & ? & ? & ? & ?) ?; unfold iter_ok; cbn; splits; auto; lia. Qed.

Lemma labelled_ok it l :
  iter_ok it -> (length l <= 63)%nat -> (mCurrentPosition it + 1 + length l < mSize it)%nat ->
  iter_ok (labelled it l).
Proof.
  intros (? & ? & ? & ? & Hv) ??; unfold iter_ok; cbn; splits; auto; [lia..|].
  by rewrite length_insert, length_mem_write by lia.
Qed.

(** Following a pointer and passing a label both lower [steps_left]. *)
Lemma jumped_steps it offset :
  iter_ok it -> (offset < mLookBehindMax it)%nat -> (steps_left (jumped it offset) < steps_left it)%nat.
Proof. intros (_ & _ & ? & ? & _) ?; unfold steps_left; cbn; nia. Qed.

Lemma labelled_steps it l :
  iter_ok it -> (mCurrentPosition it + 1 + length l < mSize it)%nat ->
  (steps_left (labelled it l) < steps_left it)%nat.
Proof. intros (_ & _ & ? & ? & _) ?; unfold steps_left; cbn; nia. Qed.

(** One call of [Next]: it answers, stays in range, and a label costs a step. *)
Definition advances (it : SerializedQNameIterator) (r : result (bool * SerializedQNameIterator)) : Prop :=
  exists more it', r = Ok (more, it') /\ iter_ok it' /\ same_range it it' /\
    (steps_left it' + Nat.b2n more <= steps_left it)%nat.

Lemma advances_stop it : iter_ok it -> advances it (Ok (false, it)).
Proof. intros; do 2 eexists; splits; eauto; [done|simpl; lia]. Qed.

Lemma advances_invalid it : iter_ok it -> advances it (Ok (false, invalidated it)).
Proof.
  intros (? & ? & ? & ? & ?); do 2 eexists; split; [done|].
  unfold iter_ok, same_range, steps_left; cbn; splits; auto; lia.
Qed.

Lemma advances_trans it it' r :
  same_range it it' -> (steps_left it' <= steps_left it)%nat -> advances it' r -> advances it r.
Proof.
  intros R S (more & it'' & -> & ? & R' & ?); do 2 eexists; splits; eauto; [|lia].
  by rewrite R.
Qed.

Lemma Next_loop_safe fuel follow it :
  iter_ok it -> (mLookBehindMax it < fuel)%nat -> advances it (Next_loop fuel follow it).
Proof.
  revert it; induction fuel as [|fuel IH]; intros it Hok Hfuel; [lia|].
  assert (Contains it (mCurrentPosition it) = true) as Hc
    by (apply Nat.ltb_lt; by destruct Hok as (_ & _ & ? & _)).
  cbn [Next_loop]; cbv zeta; rewrite Hc; cbn [negb].
  destruct (deref_in_range it (mCurrentPosition it) Hok Hc) as (b & -> & Hb & _); cbn [rbind].
  destruct (Z.eqb_spec b 0); [by apply advances_stop|].
  destruct (is_pointer b); [destruct follow; cbn [negb]; [|by apply advances_stop]|].
  - destruct (Contains it (mCurrentPosition it + 1)) eqn:Hn; cbn [negb]; [|by apply advances_invalid].
    destruct (deref_in_range it _ Hok Hn) as (b1 & -> & _ & _); cbn [rbind].
    destruct (Nat.leb_spec (mLookBehindMax it) (pointer b b1)); [by apply advances_invalid|].
    apply advances_trans with (jumped it (pointer b b1)); [done| |].
    { apply Nat.lt_le_incl; by apply jumped_steps. }
    apply IH; [by apply jumped_ok|simpl; lia].
  - destruct (Z.ltb_spec kMaxValueSize b) as [|Hl]; [by apply advances_invalid|].
    destruct (Contains it (mCurrentPosition it + 1 + Z.to_nat b)) eqn:Hn; cbn [negb]; [|by apply advances_invalid].
    unfold kMaxValueSize in Hl; apply Nat.ltb_lt in Hn.
    destruct (Hok) as (_ & Hs & _).
    rewrite fetch_in_range by lia; cbn [rbind].
    set (l := mem_read _ _ _).
    assert (length l = Z.to_nat b) as El by (by apply length_mem_read; lia).
    do 2 eexists; split; [done|].
    split; [|split]; [apply labelled_ok; [done|lia..]|done|].
    pose proof (labelled_steps it l Hok); simpl; lia.
Qed.

Lemma Next_with_safe follow it : iter_ok it -> advances it (Next_with follow it).
Proof.
  intros Hok; unfold Next_with; destruct (mIsValid it) eqn:V; cbn [negb].
  - apply Next_loop_safe; [done|lia].
  - by apply advances_stop.
Qed.

Lemma Next_safe it : iter_ok it -> advances it (Next it).
Proof.
  intros Hok; unfold Next; destruct (mIsValid it) eqn:V; [by apply Next_with_safe|by apply advances_stop].
Qed.

Lemma skip_labels_safe fuel it :
  iter_ok it -> (steps_left it < fuel)%nat ->
  exists it', skip_labels fuel it = Ok it' /\ iter_ok it' /\ same_range it it'.
Proof.
  revert it; induction fuel as [|fuel IH]; intros it Hok Hf; [lia|].
  destruct (Next_with_safe false it Hok) as ([] & it' & E & Hok' & R & S);
    cbn [skip_labels Nat.b2n] in *; rewrite E; cbn [rbind]; [|by exists it'].
  destruct (IH it' Hok') as (it'' & -> & ? & R'); [lia|].
  exists it''; splits; auto; by rewrite R.
Qed.

Lemma FindDataEnd_safe it :
  iter_ok it -> exists e, FindDataEnd it = Ok e /\
    forall p, e = Some p -> (p <= mSize it)%nat.
Proof.
  intros Hok; unfold FindDataEnd.
  destruct (skip_labels_safe (S (steps_left it)) it Hok) as (it' & -> & Hok' & [_ Es]); [lia|].
  cbn [rbind]; destruct (IsValid it'); cbn [negb]; [|by exists None]; cbv zeta.
  destruct (Hok') as (_ & _ & Hp & _).
  destruct (deref_in_range it' (mCurrentPosition it') Hok') as (b & -> & _); [by apply Nat.ltb_lt|].
  cbn [rbind]; bcase; [eexists; split; [done|]; intros ? [= <-]; lia|].
  destruct (is_pointer b); [|by exists None].
  destruct (Contains it' (mCurrentPosition it' + 1)) eqn:C; cbn [negb]; [|by exists None].
  apply Nat.ltb_lt in C; eexists; split; [done|]; intros ? [= <-]; lia.
Qed.

Lemma read_labels_safe fuel it :
  iter_ok it -> (steps_left it < fuel)%nat ->
  exists ls it', read_labels fuel it = Ok (ls, it') /\ (length ls <= steps_left it)%nat.
Proof.
  revert it; induction fuel as [|fuel IH]; intros it Hok Hf; [lia|].
  destruct (Next_safe it Hok) as ([] & it' & E & Hok' & R & S);
    cbn [read_labels Nat.b2n] in *; rewrite E; cbn [rbind];
    [|do 2 eexists; split; [done|simpl; lia]].
  destruct (IH it' Hok') as (ls & it'' & -> & ?); [lia|].
  do 2 eexists; split; [done|]; simpl; lia.
Qed.

Lemma eq_full_safe it names : iter_ok it -> exists b, eq_full it names = Ok b.
Proof.
  revert it; induction names as [|n names IH]; intros it Hok; cbn [eq_full];
    destruct (Next_safe it Hok) as ([] & it' & -> & Hok' & _); cbn [rbind]; eauto.
  destruct (strcasecmp_eq (Value it') n); cbn [negb]; eauto.
Qed.

Lemma eq_iterator_safe a b : iter_ok a -> iter_ok b -> exists r, eq_iterator a b = Ok r.
Proof.
  intros Ha; unfold eq_iterator; assert (steps_left a < S (steps_left a))%nat as Hf by lia.
  revert Hf; generalize (S (steps_left a)) as fuel; intros fuel; revert a Ha b.
  induction fuel as [|fuel IH]; intros a Ha b Hf Hb; [lia|]; cbn [eq_iterator_loop].
  destruct (Next_safe a Ha) as ([] & a' & -> & Ha' & _ & Sa),
    (Next_safe b Hb) as ([] & b' & -> & Hb' & _); cbn [rbind xorb Nat.b2n] in *; eauto.
  - destruct (IsValid a'), (IsValid b'); cbn [orb negb]; eauto.
    destruct (strcasecmp_eq (Value a') (Value b')); cbn [negb]; eauto.
    apply IH; auto; lia.
  - destruct (IsValid a'), (IsValid b'); cbn [orb negb]; eauto.
Qed.

(** ** What a name says

    [name_at P m lb p ls]: at position [p] of [m] starts a name with the labels [ls],
    all of its bytes at positions in [P]; a pointer must lead before [lb], which then
    becomes the limit.  (RFC 1035, 4.1.4: a pointer leads to a prior occurrence.) *)
Definition bytes_at (m : bytes) (p : nat) (l : bytes) : Prop :=
  forall i c, l !! i = Some c -> m !! (p + i)%nat = Some c.

Inductive name_at (P : nat -> Prop) (m : bytes) : nat -> nat -> list bytes -> Prop :=
| name_root lb p :
    P p -> m !! p = Some 0 -> name_at P m lb p []
| name_label lb p l ls :
    (forall i, (p <= i < p + 1 + length l)%nat -> P i) ->
    m !! p = Some (Z.of_nat (length l)) -> (0 < length l <= 63)%nat -> bytes_at m (p + 1) l ->
    name_at P m lb (p + 1 + length l) ls -> name_at P m lb p (l :: ls)
| name_pointer lb p b0 b1 ls :
    P p -> P (p + 1)%nat -> m !! p = Some b0 -> is_pointer b0 = true -> m !! (p + 1)%nat = Some b1 ->
    (pointer b0 b1 < lb)%nat -> name_at P m (pointer b0 b1) (pointer b0 b1) ls ->
    name_at P m lb p ls.

Definition anywhere (_ : nat) : Prop := True.

(** [ends_at m p e]: the name at [p] takes the bytes up to [e] of the packet. *)
Inductive ends_at (m : bytes) : nat -> nat -> Prop :=
| ends_root p : m !! p = Some 0 -> ends_at m p (p + 1)
| ends_pointer p b0 b1 :
    m !! p = Some b0 -> is_pointer b0 = true -> m !! (p + 1)%nat = Some b1 -> ends_at m p (p + 2)
| ends_label p (n : nat) e :
    m !! p = Some (Z.of_nat n) -> (0 < n <= 63)%nat -> ends_at m (p + 1 + n) e -> ends_at m p e.

(** The bytes an iterator may look at. *)
Definition view (it : SerializedQNameIterator) : bytes := take (mSize it) (mMemory it).

(** [says P it ls]: the bytes at the iterator's position are the name [ls]. *)
Definition says (P : nat -> Prop) (it : SerializedQNameIterator) (ls : list bytes) : Prop :=
  name_at P (view it) (mLookBehindMax it) (mCurrentPosition it) ls.

(** A byte is one of 256 values. *)
Lemma u8_forallb (P : Z -> bool) (b : Z) :
  forallb P (Z.of_nat <$> seq 0 256) = true -> is_u8 b -> P b = true.
Proof.
  intros HP Hb; rewrite forallb_forall in HP; apply HP, in_map_iff.
  exists (Z.to_nat b); split; [apply Z2Nat.id, Hb|].
  apply in_seq; unfold is_uint in Hb; lia.
Qed.

(** A pointer is a byte of 0xC0 or more, so no length of a label is one. *)
Lemma is_pointer_range (b : Z) : is_u8 b -> is_pointer b = (192 <=? b).
Proof.
  intros Hb; apply eqb_prop; revert Hb.
  by apply (u8_forallb (fun b => eqb (is_pointer b) (192 <=? b))).
Qed.

Lemma label_length (n : nat) :
  (0 < n <= 63)%nat ->
  Z.of_nat n =? 0 = false /\ is_pointer (Z.of_nat n) = false /\ kMaxValueSize <? Z.of_nat n = false.
Proof.
  intros; rewrite is_pointer_range by (unfold is_uint; lia); unfold kMaxValueSize.
  splits; [apply Z.eqb_neq|apply Z.leb_gt|apply Z.ltb_ge]; lia.
Qed.

Lemma pointer_not_zero b : is_pointer b = true -> b =? 0 = false.
Proof. intros Hb; apply Z.eqb_neq; by intros ->. Qed.

(** *** Bytes at a position *)

Lemma mem_read_lookup p n m i :
  (i < n)%nat -> mem_read p n m !! i = m !! (p + i)%nat.
Proof. intros; unfold mem_read; by rewrite lookup_take_lt, lookup_drop by done. Qed.

Lemma bytes_at_read m p l :
  bytes_at m p l -> (p + length l <= length m)%nat -> mem_read p (length l) m = l.
Proof.
  intros H Hl; apply list_eq; intros i; destruct (decide (i < length l)%nat) as [Hi|Hi].
  - rewrite mem_read_lookup by done.
    by destruct (lookup_lt_is_Some_2 l i Hi) as [c Hc]; rewrite Hc, (H i c Hc).
  - rewrite !lookup_ge_None_2; [done|lia|rewrite length_mem_read; lia].
Qed.

Lemma read_bytes_at m p n : bytes_at m p (mem_read p n m).
Proof.
  intros i c E.
  assert (i < n)%nat by (apply lookup_lt_Some in E; unfold mem_read in E; rewrite length_take in E; lia).
  by rewrite mem_read_lookup in E.
Qed.

Lemma bytes_at_app m p l l' :
  bytes_at m p (l ++ l') <-> bytes_at m p l /\ bytes_at m (p + length l) l'.
Proof.
  unfold bytes_at; split; [intros H; split; intros i c E|intros [H H'] i c E].
  - apply H; rewrite lookup_app_l; [done|by eapply lookup_lt_Some].
  - rewrite <-Nat.add_assoc; apply H; rewrite lookup_app_r by lia.
    by rewrite Nat.add_comm, Nat.add_sub.
  - destruct (decide (i < length l)%nat); [apply H; by rewrite lookup_app_l in E|].
    rewrite lookup_app_r in E by lia; apply H' in E; rewrite <-E; f_equal; lia.
Qed.

Lemma bytes_at_cons m p c l :
  bytes_at m p (c :: l) <-> m !! p = Some c /\ bytes_at m (p + 1) l.
Proof.
  change (c :: l) with ([c] ++ l); rewrite bytes_at_app; cbn [length].
  split; intros [H H']; split; auto; [by specialize (H 0%nat c eq_refl); rewrite Nat.add_0_r in H|].
  intros [|] d E; simplify_eq/=; by rewrite Nat.add_0_r.
Qed.

Lemma bytes_at_agree (P : nat -> Prop) m m' p l :
  (forall i b, P i -> m !! i = Some b -> m' !! i = Some b) ->
  (forall i, (p <= i < p + length l)%nat -> P i) -> bytes_at m p l -> bytes_at m' p l.
Proof.
  intros Hm HP H i c E; pose proof (lookup_lt_Some _ _ _ E); apply Hm; [apply HP; lia|auto].
Qed.

Lemma bytes_at_end m d : bytes_at (m ++ d) (length m) d.
Proof. intros i c E; by rewrite lookup_app_r, Nat.add_comm, Nat.add_sub by lia. Qed.

(** ** Properties of names *)
Section NameAt.
Implicit Types (P : nat -> Prop) (m : bytes) (ls : list bytes).

(** What a name says does not change when bytes outside [P] change, when bytes are
    appended, or when pointers may lead farther. *)
Lemma name_at_agree P m m' lb p ls :
  (forall i b, P i -> m !! i = Some b -> m' !! i = Some b) ->
  name_at P m lb p ls -> name_at P m' lb p ls.
Proof.
  intros Hm; induction 1 as [lb p ? E|lb p l ls HP E ? Er ? IH|lb p b0 b1 ls ? ? E0 ? E1 ? ? IH].
  - apply name_root; auto.
  - apply name_label; auto; [apply Hm; [apply HP; lia|done]|].
    apply (bytes_at_agree P m); auto; intros; apply HP; lia.
  - apply name_pointer with b0 b1; auto with lia.
Qed.

Lemma name_at_mono P (P' : nat -> Prop) m lb lb' p ls :
  (forall i, P i -> P' i) -> (lb <= lb')%nat -> name_at P m lb p ls -> name_at P' m lb' p ls.
Proof.
  intros HP Hle H; revert lb' Hle.
  induction H; intros; [apply name_root; auto|apply name_label; auto|eapply name_pointer; eauto; lia].
Qed.

Lemma name_at_start P m lb p ls : name_at P m lb p ls -> P p /\ (p < length m)%nat.
Proof.
  destruct 1 as [lb p ? E|lb p l ls HP E|lb p b0 b1 ls ? ? E];
    (split; [|by eapply lookup_lt_Some]); [done|apply HP; lia|done].
Qed.

Lemma ends_at_range m p e : ends_at m p e -> (p < e <= length m)%nat.
Proof.
  induction 1 as [p E|p b0 b1 E0 ? E1|]; [apply lookup_lt_Some in E|apply lookup_lt_Some in E1|]; lia.
Qed.
Lemma ends_at_agree m m' p e :
  (forall i b, (p <= i < e)%nat -> m !! i = Some b -> m' !! i = Some b) ->
  ends_at m p e -> ends_at m' p e.
Proof.
  intros Hm H; revert Hm; induction H as [|p b0 b1|p n e ? ? H IH]; intros Hm.
  - apply ends_root, Hm; [lia|done].
  - apply (ends_pointer _ _ b0 b1); auto; apply Hm; auto; lia.
  - pose proof (ends_at_range _ _ _ H).
    apply ends_label with n; [apply Hm; auto; lia|done|].
    apply IH; intros; apply Hm; auto; lia.
Qed.

End NameAt.

(** ** The iterator reads the name *)

Lemma c_string_label l v :
  (length l < length v)%nat -> c_string (<[length l := 0]> (mem_write 0 l v)) = c_string l.
Proof.
  intros Hl; rewrite mem_write_start, insert_app_r_alt, Nat.sub_diag by lia.
  destruct (drop (length l) v) as [|d rest] eqn:E.
  { apply (f_equal length) in E; rewrite length_drop in E; simpl in E; lia. }
  cbn [insert list_insert]; clear; induction l as [|c l IH]; cbn [c_string app]; [done|].
  by destruct (c =? 0); [|rewrite IH].
Qed.

Lemma view_range it it' : same_range it it' -> view it' = view it.
Proof. unfold view; by intros [-> ->]. Qed.

Lemma length_view it : iter_ok it -> length (view it) = mSize it.
Proof. intros (_ & ? & _); unfold view; rewrite length_take; lia. Qed.

(** What the code reads at a position is what the view has there. *)
Lemma deref_view it p b :
  view it !! p = Some b -> Contains it p = true /\ deref it p = Ok b.
Proof.
  intros E; pose proof (lookup_lt_Some _ _ _ E) as Hp; unfold view in *.
  rewrite length_take in Hp; rewrite lookup_take_lt in E by lia.
  unfold deref; rewrite E; split; [apply Nat.ltb_lt; lia|done].
Qed.

Lemma view_u8 it p b : iter_ok it -> view it !! p = Some b -> is_u8 b.
Proof.
  intros (Hb & _) E; eapply Forall_lookup_1, E; by apply Forall_take.
Qed.

Lemma fetch_view it p l :
  bytes_at (view it) p l -> (p + length l <= length (view it))%nat -> fetch it p (length l) = Ok l.
Proof.
  intros Hl Hp; pose proof Hp as Hp'; unfold view in Hp'; rewrite length_take in Hp'.
  rewrite fetch_in_range by lia; f_equal.
  rewrite <-(bytes_at_read _ _ _ Hl) at 2 by lia.
  unfold view; change (take (mSize it) (mMemory it)) with (mem_read 0 (mSize it) (mMemory it)).
  by rewrite mem_read_prefix by lia.
Qed.

Lemma labelled_position it l :
  mCurrentPosition (labelled it l) = (mCurrentPosition it + 1 + length l)%nat.
Proof. simpl; lia. Qed.

Lemma says_labelled P it l ls :
  says P (labelled it l) ls <->
  name_at P (view it) (mLookBehindMax it) (mCurrentPosition it + 1 + length l) ls.
Proof. unfold says; by rewrite labelled_position. Qed.

(** An iterator that only looks behind its position; its range may reach beyond the
    block as long as the name it is on does not. *)
Definition iter_wf (it : SerializedQNameIterator) : Prop :=
  (mLookBehindMax it <= mCurrentPosition it)%nat /\ length (mValue it) = 64%nat.

Lemma iter_ok_wf it : iter_ok it -> iter_wf it.
Proof. by intros (_ & _ & _ & ? & ?). Qed.
#[local] Hint Resolve iter_ok_wf : core.

(** One turn of [Next] on a name. *)
Definition reads (P : nat -> Prop) (it : SerializedQNameIterator) (ls : list bytes)
    (r : result (bool * SerializedQNameIterator)) : Prop :=
  match ls with
  | [] => exists it', r = Ok (false, it') /\ mIsValid it' = true
  | l :: ls => exists it', r = Ok (true, it') /\ Value it' = c_string l /\ mIsValid it' = true /\
      iter_wf it' /\ same_range it it' /\ says P it' ls /\ (steps_left it' < steps_left it)%nat
  end.

Lemma reads_jumped P it offset ls r :
  (offset < mLookBehindMax it)%nat -> (mCurrentPosition it < mSize it)%nat ->
  reads P (jumped it offset) ls r -> reads P it ls r.
Proof.
  intros Ho Hp; destruct ls as [|l ls]; [done|].
  intros (it' & -> & ? & ? & ? & ? & ? & Hs); exists it'; splits; auto.
  unfold steps_left in *; cbn in Hs; nia.
Qed.

Lemma Next_loop_name P fuel it ls :
  iter_wf it -> mIsValid it = true -> (mLookBehindMax it < fuel)%nat -> says P it ls ->
  reads P it ls (Next_loop fuel true it).
Proof.
  intros Hok Hv Hf Hs; unfold says in Hs.
  remember (mLookBehindMax it) as lb eqn:Elb; remember (mCurrentPosition it) as p eqn:Ep.
  remember (view it) as m eqn:Em; revert fuel it Hok Hv Hf Elb Ep Em.
  induction Hs as [lb p _ E|lb p l ls _ E Hl Hb Hrest _|lb p b0 b1 ls _ _ E Hp E1 Hlt _ IH];
    intros [|fuel] it Hok Hv Hf -> -> ->; [lia| |lia| |lia|];
    destruct (deref_view it _ _ E) as [Hc Hd];
    cbn [Next_loop]; cbv zeta; rewrite Hc, Hd; cbn [rbind negb].
  - by exists it.
  - destruct (label_length _ Hl) as (-> & -> & ->).
    pose proof (name_at_start _ _ _ _ _ Hrest) as Hin.
    assert (mCurrentPosition it + 1 + length l < mSize it)%nat as Hlt
      by (unfold view in Hin; rewrite length_take in Hin; lia).
    rewrite Nat2Z.id, (proj2 (Nat.ltb_lt _ _) Hlt : Contains it _ = true); cbn [negb].
    rewrite fetch_view by (auto; lia); cbn [rbind reads].
    destruct Hok as [? Hlv]; exists (labelled it l); splits; auto.
    + apply c_string_label; lia.
    + split; cbn; [lia|by rewrite length_insert, length_mem_write by lia].
    + done.
    + by apply says_labelled.
    + unfold steps_left; cbn; lia.
  - rewrite (pointer_not_zero _ Hp), Hp.
    destruct (deref_view it _ _ E1) as [-> ->]; cbn [rbind negb].
    rewrite (proj2 (Nat.leb_gt _ _) Hlt).
    apply reads_jumped with (pointer b0 b1); [done|by apply Nat.ltb_lt|].
    specialize (IH fuel (jumped it (pointer b0 b1))); apply IH; auto.
    + destruct Hok; split; cbn; [lia|done].
    + simpl; lia.
Qed.

Lemma Next_name P it ls :
  iter_wf it -> mIsValid it = true -> says P it ls -> reads P it ls (Next it).
Proof.
  intros Hok Hv Hs; unfold Next, Next_with; rewrite Hv; cbn [negb].
  apply Next_loop_name; auto with lia.
Qed.

(** And back: what [Next] reads is what the bytes say. *)
Lemma Next_loop_name_inv fuel it more it' :
  iter_ok it -> Next_loop fuel true it = Ok (more, it') -> mIsValid it = true ->
  mIsValid it' = true ->
  match more with
  | false => says anywhere it []
  | true => exists l, Value it' = c_string l /\ forall ls, says anywhere it' ls -> says anywhere it (l :: ls)
  end.
Proof.
  revert it; induction fuel as [|fuel IH]; intros it Hok; [done|].
  cbn [Next_loop]; cbv zeta.
  destruct (Contains it (mCurrentPosition it)) eqn:Hc; [|done]; cbn [negb].
  destruct (deref_in_range it _ Hok Hc) as (b & -> & Hb & Eb); cbn [rbind].
  assert (forall p c, Contains it p = true -> mMemory it !! p = Some c -> view it !! p = Some c) as Hview.
  { intros p c Hp Ep; unfold view; by rewrite lookup_take_lt by (by apply Nat.ltb_lt). }
  destruct (Z.eqb_spec b 0) as [->|Hn0].
  { intros [= <- <-] _ _; by apply name_root, Hview. }
  destruct (is_pointer b) eqn:Hp.
  - cbn [negb]; destruct (Contains it (mCurrentPosition it + 1)) eqn:Hc1; cbn [negb]; [|by intros [= <- <-]].
    destruct (deref_in_range it _ Hok Hc1) as (b1 & -> & _ & Eb1); cbn [rbind].
    destruct (Nat.leb_spec (mLookBehindMax it) (pointer b b1)) as [|Hlt]; [by intros [= <- <-]|].
    intros E Hv Hv'; pose proof (IH _ (jumped_ok it _ Hok Hlt) E Hv Hv') as H.
    assert (forall ls, says anywhere (jumped it (pointer b b1)) ls -> says anywhere it ls) as Hjump.
    { intros ls Hs; by apply name_pointer with b b1; auto. }
    destruct more; [|by apply Hjump].
    destruct H as (l & ? & ?); exists l; split; auto.
  - destruct (Z.ltb_spec kMaxValueSize b) as [|Hl]; [by intros [= <- <-]|].
    destruct (Contains it (mCurrentPosition it + 1 + Z.to_nat b)) eqn:Hc1; cbn [negb]; [|by intros [= <- <-]].
    unfold kMaxValueSize in Hl; pose proof (proj1 (Nat.ltb_lt _ _) Hc1) as Hlt.
    destruct (Hok) as (_ & Hs & _ & _ & Hlv).
    rewrite fetch_in_range by lia; cbn [rbind]; intros [= <- <-] Hv _.
    set (l := mem_read _ _ _).
    assert (length l = Z.to_nat b) as El by (by apply length_mem_read; lia).
    unfold is_uint in Hb; exists l; split; [apply c_string_label; lia|].
    intros ls Hls; apply name_label; [done|by rewrite El, Z2Nat.id by lia; apply Hview|lia| |].
    + intros i c Hi; apply Hview; [apply Nat.ltb_lt; apply lookup_lt_Some in Hi; lia|].
      by apply read_bytes_at in Hi.
    + by apply says_labelled.
Qed.

Lemma Next_name_inv it more it' :
  iter_ok it -> mIsValid it = true -> Next it = Ok (more, it') -> mIsValid it' = true ->
  match more with
  | false => says anywhere it []
  | true => exists l, Value it' = c_string l /\ forall ls, says anywhere it' ls -> says anywhere it (l :: ls)
  end.
Proof.
  intros Hok Hv; unfold Next, Next_with; rewrite Hv; cbn [negb]; intros E Hv'.
  by eapply Next_loop_name_inv.
Qed.

(** [Next] that returned a label left the iterator valid; an invalid one reads nothing. *)
Lemma Next_loop_true fuel follow it it' :
  Next_loop fuel follow it = Ok (true, it') -> mIsValid it' = mIsValid it.
Proof.
  revert it; induction fuel as [|fuel IH]; intros it; [done|]; cbn [Next_loop]; cbv zeta.
  destruct (Contains it _); cbn [negb]; [|done].
  destruct (deref it _) as [b|]; cbn [rbind]; [|done].
  destruct (b =? 0); [done|]; destruct (is_pointer b).
  - destruct follow; cbn [negb]; [|done].
    destruct (Contains it _); cbn [negb]; [|done].
    destruct (deref it _) as [b1|]; cbn [rbind]; [|done].
    destruct (_ <=? _)%nat; [done|]; intros E; by rewrite (IH _ E).
  - destruct (_ <? b); [done|].
    destruct (Contains it _); cbn [negb]; [|done].
    destruct (fetch it _ _); cbn [rbind]; [|done]; by intros [= <-].
Qed.

Lemma Next_true it it' : Next it = Ok (true, it') -> mIsValid it = true /\ mIsValid it' = true.
Proof.
  unfold Next, Next_with; destruct (mIsValid it) eqn:V; cbn [negb]; [|done].
  intros E; by rewrite (Next_loop_true _ _ _ _ E).
Qed.

(** The labels of a name are what a client reads, and nothing is wrong then. *)
Lemma read_labels_says P fuel it ls :
  iter_wf it -> mIsValid it = true -> (steps_left it < fuel)%nat -> says P it ls ->
  exists it', read_labels fuel it = Ok (c_string <$> ls, it') /\ mIsValid it' = true.
Proof.
  revert it ls; induction fuel as [|fuel IH]; intros it ls Hok Hv Hf Hs; [lia|]; cbn [read_labels].
  pose proof (Next_name P it ls Hok Hv Hs) as Hr; destruct ls as [|l ls]; cbn [reads] in Hr.
  - destruct Hr as (it2 & -> & ?); cbn [rbind]; eauto.
  - destruct Hr as (it2 & -> & Ev & ? & ? & _ & ? & ?); cbn [rbind].
    destruct (IH it2 ls) as (it3 & -> & ?); auto; [lia|]; cbn [rbind]; rewrite Ev; eauto.
Qed.

Lemma read_labels_inv fuel it vs it' :
  iter_ok it -> mIsValid it = true -> read_labels fuel it = Ok (vs, it') -> mIsValid it' = true ->
  exists ls, says anywhere it ls /\ vs = c_string <$> ls.
Proof.
  revert it vs; induction fuel as [|fuel IH]; intros it vs Hok Hv; [done|]; cbn [read_labels].
  destruct (Next_safe it Hok) as (more & it1 & E & Hok1 & _); rewrite E; cbn [rbind].
  destruct more; [|intros [= <- <-] Hv'; exists []; split; [by apply (Next_name_inv it false it1)|done]].
  destruct (Next_true _ _ E) as [_ Hv1].
  destruct (read_labels fuel it1) as [[rest it2]|] eqn:Er; cbn [rbind]; [|done].
  intros [= <- <-] Hv2; destruct (IH it1 rest Hok1 Hv1 Er Hv2) as (ls & Hs & ->).
  destruct (Next_name_inv it true it1 Hok Hv E Hv1) as (l & -> & Hl).
  exists (l :: ls); split; [by apply Hl|done].
Qed.

(** *** Equality *)

(** Names as [strcasecmp] sees them. *)
Definition folded (vs : list QNamePart) : list bytes := fold_case <$> vs.

Lemma folded_cons_decide a b x y :
  bool_decide (folded (x :: a) = folded (y :: b)) = strcasecmp_eq x y && bool_decide (folded a = folded b).
Proof.
  unfold strcasecmp_eq; rewrite <-bool_decide_and; apply bool_decide_ext.
  unfold folded; csimpl; split; [by intros [= ? ?]|by intros [-> ->]].
Qed.

(** [operator==(const FullQName &)] compares the labels read, valid to the end or not. *)
Lemma eq_full_labels fuel it vs it' names :
  read_labels fuel it = Ok (vs, it') ->
  eq_full it names = Ok (bool_decide (folded vs = folded names)).
Proof.
  revert it vs names; induction fuel as [|fuel IH]; intros it vs names; [done|]; cbn [read_labels].
  destruct (Next it) as [[[] it1]|] eqn:E; cbn [rbind]; [| |done].
  - destruct (read_labels fuel it1) as [[rest it2]|] eqn:Er; cbn [rbind]; [|done].
    intros [= <- <-]; destruct names as [|n names]; cbn [eq_full]; rewrite E; cbn [rbind negb]; [done|].
    rewrite folded_cons_decide.
    destruct (strcasecmp_eq (Value it1) n); cbn [negb andb]; [|done]; by apply IH.
  - intros [= <- <-]; destruct names; cbn [eq_full]; rewrite E; done.
Qed.

(** [operator==(const SerializedQNameIterator &)] also wants both names valid. *)
Lemma eq_iterator_labels fuel a b va a' vb b' fuel' :
  read_labels fuel a = Ok (va, a') -> read_labels fuel' b = Ok (vb, b') ->
  eq_iterator_loop fuel a b =
    Ok (bool_decide (folded va = folded vb) && mIsValid a' && mIsValid b').
Proof.
  revert a va b vb fuel'; induction fuel as [|fuel IH]; intros a va b vb fuel'; [done|].
  destruct fuel' as [|fuel']; [done|]; cbn [read_labels eq_iterator_loop].
  destruct (Next a) as [[more a1]|] eqn:Ea; cbn [rbind]; [|done].
  destruct (Next b) as [[more' b1]|] eqn:Eb; cbn [rbind]; [|by destruct more].
  destruct more, more'; cbn [rbind xorb].
  - destruct (Next_true _ _ Ea) as [_ Va], (Next_true _ _ Eb) as [_ Vb].
    unfold IsValid; rewrite Va, Vb; cbn [negb orb].
    destruct (read_labels fuel a1) as [[ra a2]|] eqn:Er; cbn [rbind]; [|done].
    destruct (read_labels fuel' b1) as [[rb b2]|] eqn:Er'; cbn [rbind]; [|done].
    intros [= <- <-] [= <- <-]; rewrite folded_cons_decide.
    destruct (strcasecmp_eq (Value a1) (Value b1)); cbn [negb andb]; [|done].
    by eapply IH.
  - destruct (read_labels fuel a1) as [[ra a2]|]; cbn [rbind]; [|done]; by intros [= <- <-] [= <- <-].
  - destruct (read_labels fuel' b1) as [[rb b2]|]; cbn [rbind]; [|done]; by intros [= <- <-] [= <- <-].
  - intros [= <- <-] [= <- <-]; unfold IsValid; cbn [negb orb].
    by destruct (mIsValid a1), (mIsValid b1).
Qed.

(** *** The end of a name *)

Lemma ends_at_label_inv m p b e :
  m !! p = Some b -> b <> 0 -> is_pointer b = false -> ends_at m p e ->
  exists n, b = Z.of_nat n /\ (0 < n <= 63)%nat /\ ends_at m (p + 1 + n) e.
Proof.
  intros E ? ? He; inversion He as [? E'|? ? ? E'|? n ? E']; rewrite E in E'; injection E' as ->;
    [done|congruence|eauto].
Qed.

Lemma ends_at_root_inv m p e : m !! p = Some 0 -> ends_at m p e -> e = (p + 1)%nat.
Proof.
  intros E He; inversion He; simplify_eq; [done|lia].
Qed.

Lemma ends_at_pointer_inv m p b e :
  m !! p = Some b -> is_pointer b = true -> ends_at m p e -> e = (p + 2)%nat /\ (p + 1 < length m)%nat.
Proof.
  intros E Hp He; inversion He as [|? ? ? ? ? E1|? n ? ? Hn]; simplify_eq.
  - split; [done|by eapply lookup_lt_Some].
  - destruct (label_length n Hn) as (_ & ? & _); congruence.
Qed.

(** One turn of the loop of [FindDataEnd]. *)
Lemma Next_with_false it :
  iter_ok it -> mIsValid it = true ->
  (exists b, view it !! mCurrentPosition it = Some b /\ (b = 0 \/ is_pointer b = true) /\
     Next_with false it = Ok (false, it)) \/
  (exists l, view it !! mCurrentPosition it = Some (Z.of_nat (length l)) /\ (0 < length l <= 63)%nat /\
     Next_with false it = Ok (true, labelled it l)) \/
  (Next_with false it = Ok (false, invalidated it) /\
     forall e, ~ ends_at (view it) (mCurrentPosition it) e).
Proof.
  intros Hok Hv; destruct (Hok) as (_ & Hs & Hp & _); pose proof (length_view it Hok) as Hlen.
  destruct (lookup_lt_is_Some_2 (view it) (mCurrentPosition it)) as [b Eb]; [lia|].
  destruct (deref_view it _ b Eb) as [Hc Hd].
  pose proof (view_u8 it _ b Hok Eb) as Hb.
  unfold Next_with; rewrite Hv; cbn [negb Next_loop]; cbv zeta; rewrite Hc, Hd; cbn [negb rbind].
  destruct (Z.eqb_spec b 0) as [->|Hn0]; [left; eauto|].
  destruct (is_pointer b) eqn:Hptr; [left; eauto|right].
  destruct (Z.ltb_spec kMaxValueSize b) as [Hl|Hl]; unfold kMaxValueSize in Hl.
  { right; split; [done|]; intros e He.
    destruct (ends_at_label_inv _ _ _ _ Eb Hn0 Hptr He) as (n & -> & ? & _); lia. }
  destruct (Contains it (mCurrentPosition it + 1 + Z.to_nat b)) eqn:Hc1; cbn [negb].
  - apply Nat.ltb_lt in Hc1; rewrite fetch_in_range by lia; cbn [rbind]; left.
    set (l := mem_read _ _ _); assert (length l = Z.to_nat b) as El by (by apply length_mem_read; lia).
    unfold is_uint in Hb; exists l; splits; [|lia..|done]; rewrite El, Z2Nat.id by lia; done.
  - right; split; [done|]; intros e He; apply Nat.ltb_ge in Hc1.
    destruct (ends_at_label_inv _ _ _ _ Eb Hn0 Hptr He) as (n & -> & _ & He'%ends_at_range); lia.
Qed.

Lemma ends_at_label_iff m p (n : nat) e :
  m !! p = Some (Z.of_nat n) -> (0 < n <= 63)%nat -> ends_at m p e <-> ends_at m (p + 1 + n) e.
Proof.
  intros E Hn; destruct (label_length n Hn) as (Hn0%Z.eqb_neq & Hp & _); split; [|by apply ends_label].
  intros He; destruct (ends_at_label_inv _ _ _ _ E Hn0 Hp He) as (n' & ?%Nat2Z.inj & _ & ?); by subst.
Qed.

Lemma skip_labels_ends fuel it it' :
  iter_ok it -> mIsValid it = true -> skip_labels fuel it = Ok it' ->
  (mIsValid it' = false /\ forall e, ~ ends_at (view it) (mCurrentPosition it) e) \/
  (mIsValid it' = true /\ iter_ok it' /\ same_range it it' /\
   (exists b, view it !! mCurrentPosition it' = Some b /\ (b = 0 \/ is_pointer b = true)) /\
   forall e, ends_at (view it) (mCurrentPosition it) e <-> ends_at (view it) (mCurrentPosition it') e).
Proof.
  revert it; induction fuel as [|fuel IH]; intros it Hok Hv; [done|]; cbn [skip_labels].
  destruct (Next_with_safe false it Hok) as (more & it1 & E & Hok1 & R & _).
  destruct (Next_with_false it Hok Hv) as [(b & Eb & Hb & E1)|[(l & El & Hl & E1)|[E1 Hno]]];
    rewrite E1 in *; cbn [rbind]; simplify_eq.
  - intros [= <-]; right; splits; eauto.
  - intros E2; destruct (IH _ Hok1 Hv E2) as [[? Hno]|(? & ? & R' & Hb & He)].
    + left; split; [done|]; intros e; rewrite (ends_at_label_iff _ _ _ e El Hl).
      rewrite (view_range _ _ R), labelled_position in Hno; apply Hno.
    + right; rewrite (view_range _ _ R) in *; splits; auto.
      intros e; by rewrite <-He, (ends_at_label_iff _ _ _ e El Hl), labelled_position.
  - intros [= <-]; left; auto.
Qed.

Lemma FindDataEnd_ends it e :
  iter_ok it -> mIsValid it = true ->
  FindDataEnd it = Ok (Some e) <-> ends_at (view it) (mCurrentPosition it) e.
Proof.
  intros Hok Hv; unfold FindDataEnd.
  destruct (skip_labels_safe (S (steps_left it)) it Hok) as (it' & E & _); [lia|].
  rewrite E; cbn [rbind]; unfold IsValid.
  destruct (skip_labels_ends _ _ _ Hok Hv E) as [[-> Hno]|(-> & Hok' & R & (b & Eb & Hb) & ->)]; cbn [negb].
  - split; [done|by intros ?%Hno].
  - rewrite <-(view_range _ _ R) in *; cbv zeta.
    destruct (deref_view it' _ b Eb) as [_ ->]; cbn [rbind].
    destruct (Z.eqb_spec b 0) as [->|Hn0].
    { split; [intros [= <-]; by apply ends_root|]; by intros ->%ends_at_root_inv. }
    destruct Hb as [|Hptr]; [done|]; rewrite Hptr; split.
    + destruct (Contains it' (mCurrentPosition it' + 1)) eqn:C; cbn [negb]; [|done].
      intros [= <-]; apply Nat.ltb_lt in C; rewrite <-(length_view it' Hok') in C.
      destruct (lookup_lt_is_Some_2 _ _ C) as [b1 ?]; by eapply ends_pointer.
    + intros [-> Hlt]%(ends_at_pointer_inv _ _ _ _ Eb Hptr).
      rewrite (length_view it' Hok') in Hlt.
      by rewrite (proj2 (Nat.ltb_lt _ _) Hlt : Contains it' _ = true).
Qed.

(** A name that ends is passed over, whatever follows. *)
Lemma skip_labels_name fuel it e :
  mIsValid it = true -> (steps_left it < fuel)%nat -> ends_at (view it) (mCurrentPosition it) e ->
  exists it', skip_labels fuel it = Ok it' /\ mIsValid it' = true /\ same_range it it' /\
    ends_at (view it) (mCurrentPosition it') e /\
    exists b, view it !! mCurrentPosition it' = Some b /\ (b = 0 \/ is_pointer b = true).
Proof.
  intros Hv Hf He; remember (mCurrentPosition it) as p eqn:Ep; remember (view it) as m eqn:Em.
  revert fuel it Hv Hf Ep Em; induction He as [p E|p b0 b1 E Hp E1|p n e E Hn He IH];
    intros [|fuel] it Hv Hf -> ->; [lia| |lia| |lia|]; destruct (deref_view it _ _ E) as [Hc Hd];
    cbn [skip_labels]; unfold Next_with at 1; rewrite Hv; cbn [negb Next_loop]; cbv zeta;
    rewrite Hc, Hd; cbn [negb rbind].
  - exists it; splits; eauto; [done|by apply ends_root].
  - rewrite (pointer_not_zero _ Hp), Hp; cbn [rbind]; exists it; splits; eauto; [done|by eapply ends_pointer].
  - destruct (label_length n Hn) as (-> & -> & ->).
    pose proof (ends_at_range _ _ _ He) as Hr.
    assert (length (view it) <= mSize it)%nat by (unfold view; rewrite length_take; lia).
    assert (mCurrentPosition it + 1 + n < mSize it)%nat as Hlt by lia.
    rewrite Nat2Z.id, (proj2 (Nat.ltb_lt _ _) Hlt : Contains it _ = true); cbn [negb].
    assert (length (view it) <= length (mMemory it))%nat by (unfold view; rewrite length_take; lia).
    rewrite fetch_in_range by lia; cbn [rbind]; set (l := mem_read _ _ _).
    assert (length l = n) as El by (apply length_mem_read; lia).
    destruct (IH fuel (labelled it l)) as (it' & -> & ? & ? & ? & ?); eauto 10.
    + unfold steps_left in *; cbn; lia.
    + by rewrite labelled_position, El.
Qed.

Lemma FindDataEnd_name it e :
  mIsValid it = true -> ends_at (view it) (mCurrentPosition it) e -> FindDataEnd it = Ok (Some e).
Proof.
  intros Hv He; unfold FindDataEnd.
  destruct (skip_labels_name (S (steps_left it)) it e Hv) as (it' & -> & Hv' & R & He' & b & Eb & Hb); auto.
  cbn [rbind]; unfold IsValid; rewrite Hv'; cbn [negb]; cbv zeta.
  rewrite <-(view_range _ _ R) in He', Eb; destruct (deref_view it' _ b Eb) as [_ ->]; cbn [rbind].
  destruct (Z.eqb_spec b 0) as [->|]; [by rewrite (ends_at_root_inv _ _ _ Eb He')|].
  destruct Hb as [|Hb]; [done|]; rewrite Hb.
  destruct (ends_at_pointer_inv _ _ _ _ Eb Hb He') as [-> Hlt].
  unfold view in Hlt; rewrite length_take in Hlt.
  assert (Contains it' (mCurrentPosition it' + 1) = true) as -> by (apply Nat.ltb_lt; lia); done.
Qed.

(** ** Properties *)

(** A call of [Next] that returns a label comes from an iterator with more steps. *)
Lemma Next_acc it : iter_ok it -> Acc (fun it' it => Next it = Ok (true, it')) it.
Proof.
  remember (steps_left it) as n eqn:En; revert it En.
  induction n as [n IH] using (well_founded_induction Nat.lt_wf_0); intros it -> Hok.
  constructor; intros it' E.
  destruct (Next_safe it Hok) as (more & it2 & E' & Hok' & _ & Hs).
  rewrite E in E'; injection E' as <- <-; cbn in Hs.
  eapply IH; [|done|done]; lia.
Qed.

Lemma eq_iterator_spec a va a' b vb b' :
  labels a = Ok (va, a') -> labels b = Ok (vb, b') ->
  eq_iterator a b = Ok (bool_decide (folded va = folded vb) && mIsValid a' && mIsValid b').
Proof. intros; by eapply eq_iterator_labels. Qed.

Lemma eq_full_spec it vs it' names :
  labels it = Ok (vs, it') -> eq_full it names = Ok (bool_decide (folded vs = folded names)).
Proof. intros; by eapply eq_full_labels. Qed.

(** A copy on the heap holds the labels of the name, when memory allows. *)
Lemma HeapQName_labels alloc it ls it' :
  labels it = Ok (ls, it') ->
  HeapQName alloc it = Ok (if mIsValid it' && alloc 0%nat && alloc_all alloc 1 ls then Some ls else None).
Proof.
  intros E; unfold HeapQName; rewrite E; cbn [rbind]; unfold IsValid.
  destruct (mIsValid it'), (alloc 0%nat); cbn [negb andb rbind]; done.
Qed.

(** The storage asked for is the storage used, and every pointer leads to its name. *)
Lemma Build_layout ptr_size names :
  let (offsets, data) := Build ptr_size names in
  RequiredStorageSize ptr_size names = (ptr_size * length offsets + length data)%nat /\
  Forall2 (fun o name => bytes_at data (o - ptr_size * length names) (name ++ [0])) offsets names.
Proof.
  unfold Build; set (base := (ptr_size * length names)%nat).
  assert (forall start, (base <= start)%nat -> forall pre names, length pre = (start - base)%nat ->
    let (offsets, data) := flat_layout start names in
    RequiredStorageSize ptr_size names = (ptr_size * length offsets + length data)%nat /\
    Forall2 (fun o name => bytes_at (pre ++ data) (o - base) (name ++ [0])) offsets names) as H.
  { intros start Hs pre l; revert start Hs pre; induction l as [|name l IH]; intros start Hs pre Hp; cbn [flat_layout].
    { by cbn; rewrite Nat.mul_0_r. }
    specialize (IH (start + length name + 1)%nat ltac:(lia) (pre ++ name ++ [0])).
    rewrite !length_app in IH; specialize (IH ltac:(simpl; lia)).
    destruct (flat_layout _ l) as [offsets data]; destruct IH as [Hsize Hall]; split.
    - cbn [RequiredStorageSize foldr length] in *; rewrite length_app; cbn [length].
      unfold RequiredStorageSize in Hsize; rewrite Hsize; lia.
    - rewrite <-!app_assoc in Hall; constructor; [|exact Hall].
      rewrite <-Hp; intros i c E; rewrite lookup_app_r by lia; rewrite Nat.add_comm, Nat.add_sub.
      change (name ++ 0 :: data) with (name ++ [0] ++ data); rewrite app_assoc; by apply lookup_app_l_Some. }
  specialize (H base (Nat.le_refl _) [] names); rewrite Nat.sub_diag in H; by apply H.
Qed.

(** C4: Reading a name of a received packet always ends.  For any bytes and any
    position in them, however the pointers lead, there is no infinite sequence of calls
    of [Next] that return a label: after at most [p * n + (n - p)] labels [Next] returns
    false; [IsValid] then tells whether the bytes were a name, whose labels were the
    values returned; [FindDataEnd] stops as well and returns the end of the name's own
    bytes, when there is one; and so does every comparison with a name.  No assertion
    fails and nothing outside the packet is read. *)
Theorem name_reading_terminates (m : bytes) (n p : nat) :
  bytes_ok m -> (n <= length m)%nat -> (p < n)%nat ->
  let it := iterator_at m n p in
  Acc (fun it' it => Next it = Ok (true, it')) it /\
  (exists vs it', labels it = Ok (vs, it') /\ (length vs <= p * n + (n - p))%nat /\
     (mIsValid it' = true <-> exists ls, name_at anywhere (take n m) p p ls /\ vs = c_string <$> ls)) /\
  (exists e, FindDataEnd it = Ok e /\ forall q, e = Some q <-> ends_at (take n m) p q) /\
  (forall names, exists b, eq_full it names = Ok b) /\
  (forall other, iter_ok other -> exists b, eq_iterator it other = Ok b).
Proof.
  intros Hm Hn Hp it; pose proof (iterator_at_ok m n p Hm Hn Hp) as Hok; fold it in Hok.
  splits.
  - by apply Next_acc.
  - destruct (read_labels_safe (S (steps_left it)) it Hok) as (vs & it' & E & Hl); [lia|].
    exists vs, it'; splits; [done|done|split].
    + intros Hv; by eapply (read_labels_inv _ it vs it').
    + intros (ls & Hs & ->); destruct (read_labels_says anywhere (S (steps_left it)) it ls) as (it2 & E2 & ?); auto.
      congruence.
  - destruct (FindDataEnd_safe it Hok) as (e & E & _); exists e; split; [done|].
    intros q; change (ends_at (take n m) p q) with (ends_at (view it) (mCurrentPosition it) q).
    rewrite <-(FindDataEnd_ends it q Hok eq_refl), E; naive_solver.
  - intros; by apply eq_full_safe.
  - intros; by apply eq_iterator_safe.
Qed.

(** "www" and a pointer to "org" at 4; a pointer at 10 that leads to itself. *)
Definition example_packet : bytes :=
  [3; 111; 114; 103; 0; 3; 119; 119; 119; 0xC0; 0; 0xC0; 11].

Lemma name_reading_terminates_witness :
  labels (iterator_at example_packet 13 5) =
    Ok ([[119; 119; 119]; [111; 114; 103]], MkIterator example_packet 13 0 4 true ([111; 114; 103; 0] ++ replicate 60 0)) /\
  (exists e, FindDataEnd (iterator_at example_packet 13 5) = Ok e /\
     forall q, e = Some q <-> ends_at (take 13 example_packet) 5 q).
Proof.
  split; [vm_compute; reflexivity|].
  destruct (name_reading_terminates example_packet 13 5) as (_ & _ & H & _);
    [by apply (bool_decide_unpack _)|simpl; lia|lia|exact H].
Defined.

(** What the comparisons of a name in a packet decide.  Let [vs] be the labels that
    calling [Next] to the end returns, and [it'] the iterator it leaves.  [operator==]
    with another name of a packet is true exactly when both names are valid to their ends
    and their labels agree up to letter case.  [operator==] with a [FullQName] compares
    the labels only: it does not look at [IsValid], so a name whose tail is malformed
    equals the full name made of the labels before the damage. *)
Theorem name_equality (it other : SerializedQNameIterator) (names : FullQName) :
  iter_ok it -> iter_ok other ->
  exists vs it' ws other',
    labels it = Ok (vs, it') /\ labels other = Ok (ws, other') /\
    eq_iterator it other = Ok (bool_decide (folded vs = folded ws) && mIsValid it' && mIsValid other') /\
    eq_full it names = Ok (bool_decide (folded vs = folded names)).
Proof.
  intros Hok Hok'.
  destruct (read_labels_safe (S (steps_left it)) it Hok) as (vs & it' & E & _); [lia|].
  destruct (read_labels_safe (S (steps_left other)) other Hok') as (ws & other' & E' & _); [lia|].
  exists vs, it', ws, other'; splits; [done..| |].
  - by apply eq_iterator_spec.
  - by apply (eq_full_spec it vs it').
Qed.

(** "foo" followed by a pointer that leads forward. *)
Definition malformed_packet : bytes := [3; 102; 111; 111; 0xC0; 0xFF].

Lemma name_equality_witness :
  eq_full (iterator_at malformed_packet 6 0) [[70; 79; 79]] = Ok true /\
  (exists vs it' ws other',
    labels (iterator_at malformed_packet 6 0) = Ok (vs, it') /\
    labels (iterator_at malformed_packet 6 0) = Ok (ws, other') /\
    eq_iterator (iterator_at malformed_packet 6 0) (iterator_at malformed_packet 6 0) =
      Ok (bool_decide (folded vs = folded ws) && mIsValid it' && mIsValid other') /\
    eq_full (iterator_at malformed_packet 6 0) [[70; 79; 79]] = Ok (bool_decide (folded vs = folded [[70; 79; 79]]))).
Proof.
  split; [vm_compute; reflexivity|].
  apply (name_equality (iterator_at malformed_packet 6 0) (iterator_at malformed_packet 6 0) [[70; 79; 79]]);
    (apply iterator_at_ok; [by apply (bool_decide_unpack _)|simpl; lia..]).
Defined.
