(* ===== verification/MdnsParser.v ===== *)
(** * MdnsParser: reading mDNS packets

    src/src/lib/dnssd/minimal_mdns: core/DnsHeader.h, core/Constants.h, Parser.h,
    Parser.cpp, RecordData.h, RecordData.cpp.

    - [BitPackedFlags] and the fields of the DNS header, read from and written to the
      packet in place;
    - [QueryData_Parse], [ResourceData_Parse] and [ParsePacket], which reports what it
      finds to a [ParserDelegate]: the model returns the calls, in order;
    - Module [RecordData]: TXT, SRV, A, AAAA and PTR data.

    Nothing is read outside the packet, and every name reported can be read to its
    end. *)

From S2P Require Import Prelude Encoding QName.

(** ** Flags and header *)

Module BitPackedFlags.
Definition kMdnsNonIgnoredMask : Z := 0x8E08.
Definition kAuthoritativeMask : Z := 0x0400.
Definition kIsResponseMask : Z := 0x8000.
Definition kOpcodeMask : Z := 0x7800.
Definition kTruncationMask : Z := 0x0200.
Definition kReturnCodeMask : Z := 0x000F.

Definition ClearMask (mValue mask : Z) : Z := Z.land mValue (wrap 16 (Z.lnot mask)).
Definition SetMask (mValue mask : Z) : Z := Z.lor mValue mask.

Definition RawValue (mValue : Z) : Z := Z.land mValue kMdnsNonIgnoredMask.
Definition IsQuery (mValue : Z) : bool := Z.land mValue kIsResponseMask =? 0.
Definition SetQuery (mValue : Z) : Z := ClearMask mValue kIsResponseMask.
Definition IsResponse (mValue : Z) : bool := Z.land mValue kIsResponseMask =? kIsResponseMask.
Definition SetResponse (mValue : Z) : Z := SetMask mValue kIsResponseMask.
Definition IsAuthoritative (mValue : Z) : bool := Z.land mValue kAuthoritativeMask =? kAuthoritativeMask.
Definition SetAuthoritative (mValue : Z) : Z := SetMask mValue kAuthoritativeMask.
Definition IsTruncated (mValue : Z) : bool := negb (Z.land mValue kTruncationMask =? 0).
Definition SetTruncated (mValue : Z) (value : bool) : Z :=
  if value then SetMask mValue kTruncationMask else ClearMask mValue kTruncationMask.
Definition IsValidMdns (mValue : Z) : bool :=
  Z.land mValue (Z.lor kOpcodeMask kReturnCodeMask) =? 0.
End BitPackedFlags.

(** [BigEndian::Get16] and [Put16] at an offset of a block. *)
Definition be_value (l : bytes) : Z := le_combine (reverse l).
Definition be_bytes (n : nat) (v : Z) : bytes := reverse (le_split n v).

Definition kSizeBytes : nat := 12.
Definition kMessageIdOffset : nat := 0.
Definition kFlagsOffset : nat := 2.
Definition kQueryCountOffset : nat := 4.
Definition kAnswerCountOffset : nat := 6.
Definition kAuthorityCountOffset : nat := 8.
Definition kAdditionalCountOffset : nat := 10.

(** [ConstHeaderRef]: [mBuffer] is the start of the block. *)
Definition Get16At (mBuffer : bytes) (offset : nat) : result Z :=
  if (offset + 2 <=? length mBuffer)%nat then Ok (be_value (mem_read offset 2 mBuffer))
  else Err UNDEFINED_BEHAVIOUR.
Definition GetMessageId (m : bytes) := Get16At m kMessageIdOffset.
Definition GetFlags (m : bytes) := Get16At m kFlagsOffset.
Definition GetQueryCount (m : bytes) := Get16At m kQueryCountOffset.
Definition GetAnswerCount (m : bytes) := Get16At m kAnswerCountOffset.
Definition GetAuthorityCount (m : bytes) := Get16At m kAuthorityCountOffset.
Definition GetAdditionalCount (m : bytes) := Get16At m kAdditionalCountOffset.

(** [HeaderRef]: the block after the call. *)
Definition Set16At (mBuffer : bytes) (offset : nat) (value : Z) : result bytes :=
  if (offset + 2 <=? length mBuffer)%nat then Ok (mem_write offset (be_bytes 2 value) mBuffer)
  else Err UNDEFINED_BEHAVIOUR.
Definition Header_Clear (m : bytes) : result bytes :=
  if (kSizeBytes <=? length m)%nat then Ok (mem_write 0 (replicate kSizeBytes 0) m)
  else Err UNDEFINED_BEHAVIOUR.
Definition SetMessageId (m : bytes) := Set16At m kMessageIdOffset.
Definition SetFlags (m : bytes) (flags : Z) := Set16At m kFlagsOffset (BitPackedFlags.RawValue flags).
Definition SetQueryCount (m : bytes) := Set16At m kQueryCountOffset.
Definition SetAnswerCount (m : bytes) := Set16At m kAnswerCountOffset.
Definition SetAuthorityCount (m : bytes) := Set16At m kAuthorityCountOffset.
Definition SetAdditionalCount (m : bytes) := Set16At m kAdditionalCountOffset.

(** ** Questions and resources *)

Module QType.
Definition A : Z := 1.
Definition PTR : Z := 12.
Definition TXT : Z := 16.
Definition AAAA : Z := 28.
Definition SRV : Z := 33.
Definition ANY : Z := 255.
End QType.

Definition kQClassUnicastAnswerFlag : Z := 0x8000.
Definition kQClassResponseFlushBit : Z := 0x8000.

Module QClass.
Definition IN_ : Z := 1.
Definition ANY : Z := 255.
Definition IN_UNICAST : Z := Z.lor IN_ kQClassUnicastAnswerFlag.
Definition IN_FLUSH : Z := Z.lor IN_ kQClassResponseFlushBit.
End QClass.

Inductive ResourceType := kAnswer | kAuthority | kAdditional.

#[export] Instance ResourceType_eq_dec : EqDecision ResourceType.
Proof. solve_decision. Defined.

(** A [BytesRange] of the packet: offsets of its start and its end; the end of a
    negative range is moved to its start. *)
Record BytesRange := MkRange { rStart : nat; rEnd : nat }.
Definition range (first last : nat) : BytesRange :=
  MkRange first (if (last <? first)%nat then first else last).
Definition null_range : BytesRange := MkRange 0 0.
Definition Range_Size (r : BytesRange) : nat := rEnd r - rStart r.
Definition Range_Contains (r : BytesRange) (p : nat) : bool := (rStart r <=? p)%nat && (p <? rEnd r)%nat.

Record QueryData := MkQueryData {
  qdType : Z;
  qdClass : Z;
  mAnswerViaUnicast : bool;
  qdName : SerializedQNameIterator;
  mIsAnnounceBroadcast : bool }.
Definition QueryData_init : QueryData := MkQueryData QType.ANY QClass.ANY false null_iterator false.
Definition SetIsAnnounceBroadcast (q : QueryData) (isAnnounceBroadcast : bool) : QueryData :=
  MkQueryData (qdType q) (qdClass q) (mAnswerViaUnicast q) (qdName q) isAnnounceBroadcast.

Record ResourceData := MkResourceData {
  rdName : SerializedQNameIterator;
  rdType : Z;
  rdClass : Z;
  mTtl : Z;
  mData : BytesRange }.
Definition ResourceData_init : ResourceData := MkResourceData null_iterator QType.ANY QClass.ANY 0 null_range.

(** The calls on a [ParserDelegate]. *)
Inductive ParserEvent :=
| OnHeader (header : bytes)
| OnQuery (data : QueryData)
| OnResource (type : ResourceType) (data : ResourceData).

Section Parser.
(** The packet: a block, and how many bytes of it are the packet. *)
Context (packet : bytes) (size : nat).

Definition in_packet (p : nat) : bool := (p <? size)%nat.

(** [BigEndian::Read16(p)] and [Read32(p)]: the value and the cursor after it. *)
Definition Read_be (n p : nat) : result (Z * nat) :=
  if (p + n <=? length packet)%nat then Ok (be_value (mem_read p n packet), (p + n)%nat)
  else Err UNDEFINED_BEHAVIOUR.

(** [QueryData::Parse]: [None] when it returns false, which leaves object and cursor
    as they were. *)
Definition QueryData_Parse (q : QueryData) (start : nat) : result (option (QueryData * nat)) :=
  if negb (in_packet start) then Ok None
  else
    let* nameEnd := FindDataEnd (iterator_at packet size start) in
    match nameEnd with
    | None => Ok None
    | Some nameEnd =>
        if negb (in_packet (nameEnd + 3)) then Ok None
        else
          let* (type, nameEnd) := Read_be 2 nameEnd in
          let* (klass, nameEnd) := Read_be 2 nameEnd in
          Ok (Some (MkQueryData type
                (Z.land klass (Z.lnot kQClassUnicastAnswerFlag))
                (negb (Z.land klass kQClassUnicastAnswerFlag =? 0))
                (iterator_at packet size start) (mIsAnnounceBroadcast q), nameEnd))
    end.

(** [ResourceData::Parse] *)
Definition ResourceData_Parse (start : nat) : result (option (ResourceData * nat)) :=
  if negb (in_packet start) then Ok None
  else
    let* nameEnd := FindDataEnd (iterator_at packet size start) in
    match nameEnd with
    | None => Ok None
    | Some nameEnd =>
        if negb (in_packet (nameEnd + 9)) then Ok None
        else
          let* (type, nameEnd) := Read_be 2 nameEnd in
          let* (klass, nameEnd) := Read_be 2 nameEnd in
          let* (ttl, nameEnd) := Read_be 4 nameEnd in
          let* (dataLen, nameEnd) := Read_be 2 nameEnd in
          let dataLen := Z.to_nat dataLen in
          if negb (in_packet (nameEnd + dataLen - 1)) then Ok None
          else Ok (Some (MkResourceData (iterator_at packet size start) type klass ttl
                           (range nameEnd (nameEnd + dataLen)), (nameEnd + dataLen)%nat))
    end.

(** The [for] loops of [ParsePacket]: the calls made, and the cursor or [None] when a
    [Parse] failed. *)
Fixpoint parse_queries (count : nat) (q : QueryData) (data : nat) :
    result (list ParserEvent * option nat) :=
  match count with
  | O => Ok ([], Some data)
  | S count =>
      let* parsed := QueryData_Parse q data in
      match parsed with
      | None => Ok ([], None)
      | Some (q, data) =>
          let* (events, data) := parse_queries count q data in Ok (OnQuery q :: events, data)
      end
  end.

Fixpoint parse_resources (type : ResourceType) (count : nat) (data : nat) :
    result (list ParserEvent * option nat) :=
  match count with
  | O => Ok ([], Some data)
  | S count =>
      let* parsed := ResourceData_Parse data in
      match parsed with
      | None => Ok ([], None)
      | Some (r, data) =>
          let* (events, data) := parse_resources type count data in
          Ok (OnResource type r :: events, data)
      end
  end.

(** [parse] then [k] unless [parse] failed. *)
Definition and_then (parse : nat -> result (list ParserEvent * option nat))
    (k : nat -> result (list ParserEvent * option nat)) (data : nat) :
    result (list ParserEvent * option nat) :=
  let* (events, data) := parse data in
  match data with
  | None => Ok (events, None)
  | Some data => let* (events', data) := k data in Ok (events ++ events', data)
  end.

Definition kMaxRecordCount : Z := 256.

(** [ParsePacket]: the calls on the delegate and the result. *)
Definition ParsePacket : result (list ParserEvent * bool) :=
  if (size <? kSizeBytes)%nat then Ok ([], false)
  else
    let* flags := GetFlags packet in
    if negb (BitPackedFlags.IsValidMdns flags) then Ok ([], false)
    else
      let* queries := GetQueryCount packet in
      let* answers := GetAnswerCount packet in
      let* authorities := GetAuthorityCount packet in
      let* additionals := GetAdditionalCount packet in
      if (kMaxRecordCount <? queries) || (kMaxRecordCount <? answers)
         || (kMaxRecordCount <? authorities) || (kMaxRecordCount <? additionals)
      then Ok ([], false)
      else
        let* (events, data) :=
          and_then (parse_queries (Z.to_nat queries) QueryData_init)
          (and_then (parse_resources kAnswer (Z.to_nat answers))
          (and_then (parse_resources kAuthority (Z.to_nat authorities))
          (parse_resources kAdditional (Z.to_nat additionals)))) kSizeBytes in
        Ok (OnHeader (mem_read 0 kSizeBytes packet) :: events, bool_decide (is_Some data)).

(** ** Record data *)

(** The calls on a [TxtRecordDelegate]: [OnRecord(name, value)]. *)
Definition TxtRecord := (BytesRange * BytesRange)%type.

(** The loop that looks for the [=] of an entry, not past its last character. *)
Fixpoint find_equal (fuel pos len equalPos : nat) : result nat :=
  match fuel with
  | O => Err UNDEFINED_BEHAVIOUR
  | S fuel =>
      if (equalPos - pos <? len)%nat then
        match packet !! equalPos with
        | None => Err UNDEFINED_BEHAVIOUR
        | Some c => if c =? 61 then Ok equalPos else find_equal fuel pos len (S equalPos)
        end
      else Ok equalPos
  end.

(** One turn of the loop of [ParseTxtRecord] at [pos]: what it reports, and the next
    position; [None] is [return false]. *)
Definition txt_entry (data : BytesRange) (pos : nat) : result (option (TxtRecord * nat)) :=
  match packet !! pos with
  | None => Err UNDEFINED_BEHAVIOUR
  | Some length =>
      let length := Z.to_nat length in
      if negb (Range_Contains data (pos + length)) then Ok None
      else
        let* equalPos := find_equal (S length) pos length (pos + 1) in
        let next := (pos + 1 + length)%nat in
        if (pos + length =? equalPos)%nat then
          match packet !! equalPos with
          | None => Err UNDEFINED_BEHAVIOUR
          | Some c =>
              Ok (Some (if c =? 61 then (range (pos + 1) equalPos, null_range)
                        else (range (pos + 1) (equalPos + 1), null_range), next))
          end
        else Ok (Some ((range (pos + 1) equalPos, range (equalPos + 1) (pos + 1 + length)), next))
  end.

Fixpoint ParseTxtRecord_loop (fuel : nat) (data : BytesRange) (pos : nat) :
    result (list TxtRecord * bool) :=
  match fuel with
  | O => Err UNDEFINED_BEHAVIOUR
  | S fuel =>
      if Range_Contains data pos then
        let* entry := txt_entry data pos in
        match entry with
        | None => Ok ([], false)
        | Some (record, next) =>
            let* (records, ok) := ParseTxtRecord_loop fuel data next in Ok (record :: records, ok)
        end
      else Ok ([], (pos =? rEnd data)%nat)
  end.
Definition ParseTxtRecord (data : BytesRange) : result (list TxtRecord * bool) :=
  ParseTxtRecord_loop (S (Range_Size data)) data (rStart data).

Record SrvRecord := MkSrvRecord {
  mPriority : Z;
  mWeight : Z;
  mPort : Z;
  mName : SerializedQNameIterator }.

Definition SrvRecord_Parse (data : BytesRange) : result (option SrvRecord) :=
  if (Range_Size data <? 7)%nat then Ok None
  else
    let* (priority, p) := Read_be 2 (rStart data) in
    let* (weight, p) := Read_be 2 p in
    let* (port, p) := Read_be 2 p in
    Ok (Some (MkSrvRecord priority weight port (iterator_at packet size p))).

(** An [IPAddress]: the 16 bytes of [Addr] in memory. *)
Definition IPAddress := bytes.

(** [ParseARecord]; [enable_ipv4] is [INET_CONFIG_ENABLE_IPV4]. *)
Definition ParseARecord (enable_ipv4 : bool) (data : BytesRange) : result (option IPAddress) :=
  if enable_ipv4 then
    if negb (Range_Size data =? 4)%nat then Ok None
    else let* (v, _) := Read_be 4 (rStart data) in
         Ok (Some (replicate 8 0 ++ [0; 0; 0xFF; 0xFF] ++ be_bytes 4 v))
  else Ok None.

Definition ParseAAAARecord (data : BytesRange) : result (option IPAddress) :=
  if negb (Range_Size data =? 16)%nat then Ok None
  else if (rStart data + 16 <=? length packet)%nat then Ok (Some (mem_read (rStart data) 16 packet))
  else Err UNDEFINED_BEHAVIOUR.

Definition ParsePtrRecord (data : BytesRange) : option SerializedQNameIterator :=
  if (Range_Size data <? 1)%nat then None else Some (iterator_at packet size (rStart data)).
End Parser.

(** ** Reading is safe *)

(** A result that is a value with [P]: neither an assertion fails nor a byte outside
    the packet is read. *)
Definition yields {A} (r : result A) (P : A -> Prop) : Prop :=
  exists a, r = Ok a /\ P a.

Lemma yields_ret {A} (a : A) (P : A -> Prop) : P a -> yields (Ok a) P.
Proof. by exists a. Qed.

Lemma yields_bind {A B} (r : result A) (k : A -> result B) (Q : A -> Prop) (P : B -> Prop) :
  yields r Q -> (forall a, Q a -> yields (k a) P) -> yields (rbind r k) P.
Proof. intros (a & -> & Ha) Hk; by apply Hk. Qed.

Lemma yields_weaken {A} (r : result A) (Q P : A -> Prop) :
  yields r Q -> (forall a, Q a -> P a) -> yields r P.
Proof. intros (a & -> & Ha) H; exists a; auto. Qed.

Lemma be_value_range l : bytes_ok l -> 0 <= be_value l < 2 ^ (8 * Z.of_nat (length l)).
Proof.
  intros Hl; unfold be_value; rewrite <-length_reverse; apply le_combine_range.
  by apply Forall_reverse.
Qed.

Section Safe.
Context (packet : bytes) (size : nat).
Hypothesis packet_ok : bytes_ok packet.
Hypothesis size_ok : (size <= length packet)%nat.

Lemma Get16At_safe offset :
  (offset + 2 <= length packet)%nat -> yields (Get16At packet offset) (fun v => 0 <= v < 65536).
Proof.
  intros Ho; unfold Get16At; rewrite (proj2 (Nat.leb_le _ _) Ho); apply yields_ret.
  pose proof (be_value_range (mem_read offset 2 packet)) as H.
  rewrite length_mem_read in H by lia; apply H; by apply bytes_ok_read.
Qed.

Lemma Read_be_safe n p :
  (p + n <= length packet)%nat ->
  yields (Read_be packet n p) (fun '(v, p') => p' = (p + n)%nat /\ 0 <= v < 2 ^ (8 * Z.of_nat n)).
Proof.
  intros Hp; unfold Read_be; rewrite (proj2 (Nat.leb_le _ _) Hp); apply yields_ret; split; [done|].
  pose proof (be_value_range (mem_read p n packet)) as H.
  rewrite length_mem_read in H by lia; apply H; by apply bytes_ok_read.
Qed.

(** What a delegate may rely on. *)
Definition name_ok (it : SerializedQNameIterator) : Prop :=
  exists p, (p < size)%nat /\ it = iterator_at packet size p.
Definition range_ok (r : BytesRange) : Prop := (rStart r <= rEnd r <= size)%nat.

Definition event_ok (e : ParserEvent) : Prop :=
  match e with
  | OnHeader h => h = mem_read 0 kSizeBytes packet /\ (kSizeBytes <= size)%nat
  | OnQuery q => name_ok (qdName q)
  | OnResource _ r => name_ok (rdName r) /\ range_ok (mData r)
  end.

(** The names the parsers build can be read. *)
Lemma FindDataEnd_in_packet p :
  (p < size)%nat ->
  yields (FindDataEnd (iterator_at packet size p)) (fun e => forall q, e = Some q -> (p < q <= size)%nat).
Proof.
  intros Hp; pose proof (iterator_at_ok packet size p packet_ok size_ok Hp) as Hok.
  destruct (FindDataEnd_safe _ Hok) as (e & E & _); exists e; split; [done|]; intros q ->.
  apply (FindDataEnd_ends _ _ Hok eq_refl), ends_at_range in E.
  by rewrite (length_view _ Hok) in E.
Qed.

Lemma QueryData_Parse_safe q start :
  yields (QueryData_Parse packet size q start)
    (fun r => forall q' e, r = Some (q', e) -> name_ok (qdName q') /\ (start < e <= size)%nat).
Proof.
  unfold QueryData_Parse, in_packet; destruct (Nat.ltb_spec start size) as [Hs|]; cbn [negb];
    [|by apply yields_ret].
  eapply yields_bind; [by apply FindDataEnd_in_packet|intros [e|] He; [|by apply yields_ret]].
  specialize (He e eq_refl).
  destruct (Nat.ltb_spec (e + 3) size); cbn [negb]; [|by apply yields_ret].
  eapply yields_bind; [apply Read_be_safe; lia|intros [t p] [-> _]].
  eapply yields_bind; [apply Read_be_safe; lia|intros [k p] [-> _]].
  apply yields_ret; intros ? ? [= <- <-]; split; [|lia]; by exists start.
Qed.

Lemma ResourceData_Parse_safe start :
  yields (ResourceData_Parse packet size start)
    (fun r => forall r' e, r = Some (r', e) ->
       name_ok (rdName r') /\ range_ok (mData r') /\ (start < e <= size)%nat).
Proof.
  unfold ResourceData_Parse, in_packet; destruct (Nat.ltb_spec start size) as [Hs|]; cbn [negb];
    [|by apply yields_ret].
  eapply yields_bind; [by apply FindDataEnd_in_packet|intros [e|] He; [|by apply yields_ret]].
  specialize (He e eq_refl).
  destruct (Nat.ltb_spec (e + 9) size); cbn [negb]; [|by apply yields_ret].
  do 3 (eapply yields_bind; [apply Read_be_safe; lia|intros [? ?] [-> _]]).
  eapply yields_bind; [apply Read_be_safe; lia|intros [n p] [-> _]]; cbv zeta.
  destruct (Nat.ltb_spec (e + 2 + 2 + 4 + 2 + Z.to_nat n - 1) size); cbn [negb]; [|by apply yields_ret].
  apply yields_ret; intros ? ? [= <- <-]; splits; [by exists start| |lia..].
  unfold range_ok, range; cbn [mData rStart rEnd]; bcase; cbn [rStart rEnd]; lia.
Qed.

(** A loop over a section: at most [count] calls, all of them good. *)
Definition calls_ok (count : nat) (r : list ParserEvent * option nat) : Prop :=
  Forall event_ok r.1 /\ (length r.1 <= count)%nat.

Lemma parse_queries_safe count q data : yields (parse_queries packet size count q data) (calls_ok count).
Proof.
  revert q data; induction count as [|count IH]; intros; cbn [parse_queries].
  { apply yields_ret; split; [constructor|done]. }
  eapply yields_bind; [apply QueryData_Parse_safe|intros [[q' e]|] Hq].
  - destruct (Hq q' e eq_refl) as [Hn _].
    eapply yields_bind; [apply IH|intros [events d] [Hev Hl]]; apply yields_ret.
    split; [by constructor|simpl in *; lia].
  - apply yields_ret; split; [constructor|simpl; lia].
Qed.

Lemma parse_resources_safe type count data :
  yields (parse_resources packet size type count data) (calls_ok count).
Proof.
  revert data; induction count as [|count IH]; intros; cbn [parse_resources].
  { apply yields_ret; split; [constructor|done]. }
  eapply yields_bind; [apply ResourceData_Parse_safe|intros [[r e]|] Hr].
  - destruct (Hr r e eq_refl) as (Hn & Hd & _).
    eapply yields_bind; [apply IH|intros [events d] [Hev Hl]]; apply yields_ret.
    split; [by constructor|simpl in *; lia].
  - apply yields_ret; split; [constructor|simpl; lia].
Qed.

Lemma and_then_safe f k data n n' :
  (forall d, yields (f d) (calls_ok n)) -> (forall d, yields (k d) (calls_ok n')) ->
  yields (and_then f k data) (calls_ok (n + n')).
Proof.
  intros Hf Hk; unfold and_then.
  eapply yields_bind; [apply Hf|intros [events [d|]] [Hev Hl]].
  - eapply yields_bind; [apply Hk|intros [events' d'] [Hev' Hl']]; apply yields_ret.
    split; cbn [fst] in *; [by apply Forall_app|rewrite length_app; lia].
  - apply yields_ret; split; cbn [fst] in *; [done|lia].
Qed.

Lemma ParsePacket_safe :
  yields (ParsePacket packet size) (fun '(events, _) => Forall event_ok events /\ (length events <= 1025)%nat).
Proof.
  unfold ParsePacket; destruct (Nat.ltb_spec size kSizeBytes) as [|Hs]; [apply yields_ret; split; [done|simpl; lia]|].
  unfold kSizeBytes in Hs.
  eapply yields_bind; [apply Get16At_safe; unfold kFlagsOffset; lia|intros flags _].
  destruct (BitPackedFlags.IsValidMdns flags); cbn [negb]; [|apply yields_ret; split; [done|simpl; lia]].
  eapply yields_bind; [apply Get16At_safe; unfold kQueryCountOffset; lia|intros q _].
  eapply yields_bind; [apply Get16At_safe; unfold kAnswerCountOffset; lia|intros an _].
  eapply yields_bind; [apply Get16At_safe; unfold kAuthorityCountOffset; lia|intros au _].
  eapply yields_bind; [apply Get16At_safe; unfold kAdditionalCountOffset; lia|intros ad _].
  unfold kMaxRecordCount.
  destruct (Z.ltb_spec 256 q), (Z.ltb_spec 256 an), (Z.ltb_spec 256 au), (Z.ltb_spec 256 ad); cbn [orb];
    try (apply yields_ret; split; [done|simpl; lia]).
  eapply yields_bind.
  { apply (and_then_safe _ _ _ (Z.to_nat q) (Z.to_nat an + (Z.to_nat au + Z.to_nat ad)));
      [intros; apply parse_queries_safe|intros].
    apply and_then_safe; [intros; apply parse_resources_safe|intros].
    apply and_then_safe; intros; apply parse_resources_safe. }
  intros [events d] [Hev Hl]; apply yields_ret; cbn [fst] in *; split; [|simpl; lia].
  constructor; [split; [done|unfold kSizeBytes; lia]|done].
Qed.
End Safe.

(** ** TXT records

    An entry is a character string [key=value], or a [key] alone. *)
Fixpoint txt_key (s : bytes) : bytes :=
  match s with
  | [] => []
  | c :: s => if c =? 61 then [] else c :: txt_key s
  end.
Definition txt_value (s : bytes) : bytes := drop (S (length (txt_key s))) s.

(** The data of a TXT record: its strings, each after its length. *)
Definition txt_data (entries : list bytes) : bytes :=
  concat ((fun s => Z.of_nat (length s) :: s) <$> entries).

Lemma txt_data_cons s entries : txt_data (s :: entries) = Z.of_nat (length s) :: s ++ txt_data entries.
Proof. done. Qed.

Lemma txt_key_length s : (length (txt_key s) <= length s)%nat.
Proof. induction s as [|c s IH]; cbn; [done|]; destruct (c =? 61); simpl; lia. Qed.

Lemma txt_key_take s : txt_key s = take (length (txt_key s)) s.
Proof.
  induction s as [|c s IH]; cbn; [done|].
  destruct (c =? 61); [done|]; cbn; by f_equal.
Qed.

Lemma txt_key_stop s c : s !! length (txt_key s) = Some c -> c = 61.
Proof.
  induction s as [|d s IH]; cbn; [done|].
  destruct (Z.eqb_spec d 61) as [->|]; cbn; [by intros [= <-]|auto].
Qed.

Lemma txt_key_no_stop s i c : txt_key s !! i = Some c -> c <> 61.
Proof.
  revert i; induction s as [|d s IH]; intros i; cbn; [done|].
  destruct (Z.eqb_spec d 61); [done|]; destruct i; cbn; [by intros [= <-]|apply IH].
Qed.

Section Txt.
Context (packet : bytes).

(** The bytes of a range. *)
Definition range_bytes (r : BytesRange) : bytes := mem_read (rStart r) (Range_Size r) packet.
Definition record_bytes (r : TxtRecord) : bytes * bytes := (range_bytes r.1, range_bytes r.2).

(** The loop stops at the [=], or at the last character. *)
Lemma find_equal_spec fuel pos len q s :
  bytes_at packet q s -> (q + length s = pos + 1 + len)%nat -> s <> [] -> (pos < q)%nat ->
  (length s <= fuel)%nat ->
  find_equal packet fuel pos len q = Ok (q + Nat.min (length (txt_key s)) (length s - 1))%nat.
Proof.
  revert q s; induction fuel as [|fuel IH]; intros q [|c s] Hs Hq Hne Hlt Hf; try done; [simpl in Hf; lia|].
  cbn [find_equal]; apply bytes_at_cons in Hs as [Hc Hs]; cbn [length] in *.
  destruct (Nat.ltb_spec (q - pos) len) as [Hl|Hl].
  - rewrite Hc; cbn [txt_key]; destruct (c =? 61); cbn [length]; [f_equal; lia|].
    destruct s as [|d s]; [simpl in *; lia|].
    rewrite <-Nat.add_1_r, (IH (q + 1)%nat (d :: s)); auto; simpl in *; try lia.
    f_equal; lia.
  - destruct s; [|simpl in *; lia]; f_equal; simpl; lia.
Qed.

Lemma range_bytes_at p s n :
  bytes_at packet p s -> (n <= length s)%nat -> (p + length s <= length packet)%nat ->
  range_bytes (range p (p + n)) = take n s.
Proof.
  intros Hs Hn Hl; unfold range_bytes, range, Range_Size; cbn [rStart rEnd].
  rewrite (proj2 (Nat.ltb_ge _ _)), (Nat.add_comm p n), Nat.add_sub by lia.
  rewrite <-(take_drop n s) in Hs; apply bytes_at_app in Hs as [Hs _].
  rewrite <-(bytes_at_read _ _ _ Hs) by (rewrite length_take; lia).
  f_equal; rewrite length_take; lia.
Qed.

Lemma txt_entry_spec data pos s :
  packet !! pos = Some (Z.of_nat (length s)) -> bytes_at packet (pos + 1) s ->
  (rStart data <= pos)%nat -> (pos + 1 + length s <= rEnd data <= length packet)%nat ->
  exists r, txt_entry packet data pos = Ok (Some (r, (pos + 1 + length s)%nat)) /\
    record_bytes r = (txt_key s, txt_value s).
Proof.
  intros Hn Hs Hd Hl; unfold txt_entry; rewrite Hn, Nat2Z.id; cbv zeta.
  assert (Range_Contains data (pos + length s) = true) as ->.
  { unfold Range_Contains; rewrite (proj2 (Nat.leb_le _ _)), (proj2 (Nat.ltb_lt _ _)) by lia; done. }
  cbn [negb]; destruct (decide (s = [])) as [->|Hne].
  { cbn [length find_equal]; rewrite (proj2 (Nat.ltb_ge _ _)) by lia; cbn [rbind].
    rewrite (proj2 (Nat.eqb_neq _ _)) by lia; eexists; split; [done|].
    unfold record_bytes, range_bytes, range, Range_Size; cbn [fst snd rStart rEnd].
    by rewrite Nat.ltb_irrefl, (proj2 (Nat.ltb_lt _ _)), !Nat.sub_diag by lia. }
  rewrite (find_equal_spec _ pos (length s) (pos + 1) s) by (auto; lia); cbn [rbind].
  pose proof (txt_key_length s) as Hk; pose proof (txt_key_take s) as Et.
  assert (0 < length s)%nat by (destruct s; simpl in *; [done|lia]).
  set (k := length (txt_key s)) in *; destruct (decide (k < length s - 1)%nat) as [Hlt|Hge].
  - rewrite Nat.min_l by lia; rewrite (proj2 (Nat.eqb_neq _ _)) by lia.
    eexists; split; [done|]; unfold record_bytes; cbn [fst snd]; f_equal.
    + rewrite Et; apply range_bytes_at; auto; lia.
    + unfold txt_value; fold k; rewrite <-(take_drop (S k) s) in Hs; apply bytes_at_app in Hs as [_ Hs].
      rewrite length_take, Nat.min_l in Hs by lia.
      replace (pos + 1 + k + 1)%nat with (pos + 1 + S k)%nat by lia.
      replace (pos + 1 + length s)%nat with (pos + 1 + S k + (length s - S k))%nat by lia.
      rewrite (range_bytes_at _ (drop (S k) s)) by (auto; rewrite length_drop; lia).
      apply take_ge; rewrite length_drop; lia.
  - rewrite Nat.min_r by lia; rewrite (proj2 (Nat.eqb_eq _ _)) by lia.
    replace (pos + 1 + (length s - 1))%nat with (pos + length s)%nat by lia.
    destruct (lookup_lt_is_Some_2 s (length s - 1)) as [c Hc]; [lia|].
    pose proof (Hs _ _ Hc) as Hp; replace (pos + 1 + (length s - 1))%nat with (pos + length s)%nat in Hp by lia.
    rewrite Hp; eexists; split; [done|]; unfold record_bytes.
    assert (txt_value s = []) as -> by (unfold txt_value; apply drop_ge; lia).
    destruct (Z.eqb_spec c 61) as [->|Hc61]; cbn [fst snd]; f_equal; rewrite Et.
    + assert (k <> length s) as Hne'.
      { intros E; rewrite E, firstn_all in Et; eapply (txt_key_no_stop s); [rewrite Et; exact Hc|done]. }
      replace k with (length s - 1)%nat by lia.
      replace (pos + length s)%nat with (pos + 1 + (length s - 1))%nat by lia; apply range_bytes_at; auto; lia.
    + assert (k <> length s - 1)%nat as Hne' by (intros E; apply Hc61, (txt_key_stop s); by fold k; rewrite E).
      replace k with (length s) by lia.
      replace (pos + length s + 1)%nat with (pos + 1 + length s)%nat by lia; apply range_bytes_at; auto; lia.
Qed.

Lemma txt_loop_spec fuel data pos entries :
  bytes_at packet pos (txt_data entries) -> (rStart data <= pos)%nat ->
  (pos + length (txt_data entries) = rEnd data)%nat -> (rEnd data <= length packet)%nat ->
  (length (txt_data entries) < fuel)%nat ->
  exists rs, ParseTxtRecord_loop packet fuel data pos = Ok (rs, true) /\
    record_bytes <$> rs = (fun s => (txt_key s, txt_value s)) <$> entries.
Proof.
  revert pos entries; induction fuel as [|fuel IH]; intros pos entries Hb Hs He Hl Hf; [lia|].
  cbn [ParseTxtRecord_loop]; unfold Range_Contains.
  destruct entries as [|s entries].
  { change (length (txt_data [])) with 0%nat in *.
    rewrite (proj2 (Nat.ltb_ge _ _)), andb_false_r by lia.
    exists []; by rewrite (proj2 (Nat.eqb_eq _ _)) by lia. }
  rewrite txt_data_cons in *; cbn [length] in *; rewrite length_app in *.
  rewrite (proj2 (Nat.leb_le _ _)), (proj2 (Nat.ltb_lt _ _)) by lia; cbn [andb].
  apply bytes_at_cons in Hb as [Hn Hb]; apply bytes_at_app in Hb as [Hb Hrest].
  destruct (txt_entry_spec data pos s Hn Hb) as (r & -> & Hr); [lia..|]; cbn [rbind].
  destruct (IH (pos + 1 + length s)%nat entries) as (rs & -> & Hrs); auto; [lia..|].
  exists (r :: rs); split; [done|]; csimpl; by rewrite Hr, Hrs.
Qed.

Lemma ParseTxtRecord_spec p entries :
  bytes_at packet p (txt_data entries) -> (p + length (txt_data entries) <= length packet)%nat ->
  exists rs, ParseTxtRecord packet (range p (p + length (txt_data entries))) = Ok (rs, true) /\
    record_bytes <$> rs = (fun s => (txt_key s, txt_value s)) <$> entries.
Proof.
  intros Hb Hl; unfold ParseTxtRecord, range, Range_Size; cbn [rStart rEnd].
  rewrite (proj2 (Nat.ltb_ge _ _)) by lia.
  apply txt_loop_spec; cbn [rStart rEnd]; auto; lia.
Qed.
End Txt.

(** Record data of any content is read safely too. *)
Section SafeData.
Context (packet : bytes) (size : nat).
Hypothesis packet_ok : bytes_ok packet.
Hypothesis size_ok : (size <= length packet)%nat.

(** A range inside [data], or an empty one. *)
Definition within (data r : BytesRange) : Prop :=
  Range_Size r = 0%nat \/ (rStart data < rStart r /\ rEnd r <= rEnd data)%nat.

Lemma find_equal_safe fuel pos len q :
  (pos < q)%nat -> (q <= pos + Nat.max len 1)%nat -> (pos + len < length packet)%nat -> (pos + Nat.max len 1 < q + fuel)%nat ->
  yields (find_equal packet fuel pos len q) (fun e => (q <= e <= pos + Nat.max len 1)%nat).
Proof.
  revert q; induction fuel as [|fuel IH]; intros q H1 H2 H3 H4; [lia|]; cbn [find_equal].
  destruct (Nat.ltb_spec (q - pos) len); [|apply yields_ret; lia].
  destruct (lookup_lt_is_Some_2 packet q) as [c ->]; [lia|].
  destruct (c =? 61); [apply yields_ret; lia|].
  eapply yields_weaken; [apply IH; lia|cbv beta; intros; lia].
Qed.

Lemma txt_entry_safe data pos :
  range_ok size data -> (rStart data <= pos)%nat -> (pos < rEnd data)%nat ->
  yields (txt_entry packet data pos) (fun o => forall r next, o = Some (r, next) ->
    within data r.1 /\ within data r.2 /\ (pos < next)%nat).
Proof.
  intros [_ Hd] Hs Hp; unfold txt_entry.
  destruct (lookup_lt_is_Some_2 packet pos) as [n En]; [lia|]; rewrite En; cbv zeta.
  set (len := Z.to_nat n); unfold Range_Contains.
  rewrite (proj2 (Nat.leb_le _ _)) by lia; cbn [andb].
  destruct (Nat.ltb_spec (pos + len) (rEnd data)) as [Hl|]; cbn [negb]; [|by apply yields_ret].
  eapply yields_bind; [apply find_equal_safe; lia|cbv beta; intros e He].
  assert (forall a b, (rStart data < a)%nat -> (b <= rEnd data)%nat -> within data (range a b)) as Hw.
  { intros a b ? ?; unfold within, range, Range_Size; cbn [rStart rEnd]; bcase; lia. }
  destruct (Nat.eqb_spec (pos + len) e) as [E|].
  - destruct (lookup_lt_is_Some_2 packet e) as [c ->]; [lia|].
    apply yields_ret; intros r next [= <- <-]; destruct (c =? 61); cbn [fst snd];
      splits; try lia; try (apply Hw; lia); by left.
  - apply yields_ret; intros r next [= <- <-]; cbn [fst snd]; splits; [apply Hw; lia| |lia].
    destruct (decide (len = 0)%nat) as [E|]; [|apply Hw; lia].
    left; unfold range, Range_Size; cbn [rStart rEnd].
    rewrite (proj2 (Nat.ltb_lt _ _)) by lia; lia.
Qed.

Lemma ParseTxtRecord_safe data :
  range_ok size data ->
  yields (ParseTxtRecord packet data) (fun '(rs, _) => Forall (fun r => within data r.1 /\ within data r.2) rs).
Proof.
  intros Hok; unfold ParseTxtRecord.
  assert (forall fuel pos, (rStart data <= pos)%nat -> (rEnd data - pos < fuel)%nat ->
    yields (ParseTxtRecord_loop packet fuel data pos)
      (fun '(rs, _) => Forall (fun r => within data r.1 /\ within data r.2) rs)) as Hloop.
  { induction fuel as [|fuel IH]; intros pos Hs Hf; [lia|]; cbn [ParseTxtRecord_loop].
    unfold Range_Contains; rewrite (proj2 (Nat.leb_le _ _) Hs); cbn [andb].
    destruct (Nat.ltb_spec pos (rEnd data)); [|by apply yields_ret].
    eapply yields_bind; [by apply txt_entry_safe|intros [[r next]|] Hr; [|by apply yields_ret]].
    destruct (Hr r next eq_refl) as (H1 & H2 & H3).
    eapply yields_bind; [apply IH; lia|intros [rs ok] Hrs].
    apply yields_ret; by constructor. }
  apply Hloop; unfold Range_Size; lia.
Qed.

Lemma SrvRecord_Parse_safe data :
  range_ok size data ->
  yields (SrvRecord_Parse packet size data) (fun o => forall r, o = Some r -> name_ok packet size (mName r)).
Proof.
  intros [Hr Hd]; unfold SrvRecord_Parse, Range_Size.
  destruct (Nat.ltb_spec (rEnd data - rStart data) 7); [by apply yields_ret|].
  do 3 (eapply yields_bind; [apply (Read_be_safe packet size); [done..|lia]|intros [? ?] [-> _]]).
  apply yields_ret; intros ? [= <-]; cbn [mName]; eexists; split; [|done]; lia.
Qed.

Lemma ParseARecord_safe enable_ipv4 data :
  range_ok size data ->
  yields (ParseARecord packet enable_ipv4 data) (fun o => forall a, o = Some a -> length a = 16%nat).
Proof.
  intros [Hr Hd]; unfold ParseARecord, Range_Size.
  destruct enable_ipv4; [|by apply yields_ret].
  destruct (Nat.eqb_spec (rEnd data - rStart data) 4); cbn [negb]; [|by apply yields_ret].
  eapply yields_bind; [apply (Read_be_safe packet size); [done..|lia]|intros [v ?] _].
  by apply yields_ret; intros ? [= <-].
Qed.

Lemma ParseAAAARecord_safe data :
  range_ok size data ->
  yields (ParseAAAARecord packet data) (fun o => forall a, o = Some a -> length a = 16%nat).
Proof.
  intros [Hr Hd]; unfold ParseAAAARecord, Range_Size.
  destruct (Nat.eqb_spec (rEnd data - rStart data) 16); cbn [negb]; [|by apply yields_ret].
  rewrite (proj2 (Nat.leb_le _ _)) by lia.
  apply yields_ret; intros ? [= <-]; apply length_mem_read; lia.
Qed.

Lemma ParsePtrRecord_safe data it :
  range_ok size data -> ParsePtrRecord packet size data = Some it -> name_ok packet size it.
Proof.
  intros [Hr Hd]; unfold ParsePtrRecord, Range_Size; bcase; [done|].
  intros [= <-]; eexists; split; [|done]; lia.
Qed.
End SafeData.

(** C23: Parsing a packet from the network is safe.  For any bytes [ParsePacket]
    terminates, no assertion fails, no byte outside the packet is read and the delegate
    gets at most 1025 calls.  The names it is given start inside the packet (so reading
    them terminates), the data of a resource lies inside the packet, and reading
    that data as a TXT, SRV, A, AAAA or PTR record is safe again: keys and values lie
    inside it and the name of an SRV or PTR record starts inside the packet. *)
Theorem parse_packet_safe (packet : bytes) (size : nat) :
  bytes_ok packet -> (size <= length packet)%nat ->
  exists events ok, ParsePacket packet size = Ok (events, ok) /\ (length events <= 1025)%nat /\
    Forall (fun e => match e with
      | OnHeader _ => True
      | OnQuery q => name_ok packet size (qdName q)
      | OnResource _ r =>
          let data := mData r in
          name_ok packet size (rdName r) /\ range_ok size data /\
          (exists rs b, ParseTxtRecord packet data = Ok (rs, b) /\
             Forall (fun r => within data r.1 /\ within data r.2) rs) /\
          (exists o, SrvRecord_Parse packet size data = Ok o /\
             forall srv, o = Some srv -> name_ok packet size (mName srv)) /\
          (forall v4, exists o, ParseARecord packet v4 data = Ok o) /\
          (exists o, ParseAAAARecord packet data = Ok o) /\
          (forall it, ParsePtrRecord packet size data = Some it -> name_ok packet size it)
      end) events.
Proof.
  intros Hb Hs; destruct (ParsePacket_safe packet size Hb Hs) as ([events ok] & E & Hev & Hl).
  exists events, ok; splits; [done|done|].
  eapply Forall_impl; [|exact Hev]; intros [h|q|type r]; [done|done|]; intros [Hn Hr]; cbv zeta.
  splits; [done|done|..].
  - destruct (ParseTxtRecord_safe packet size Hs _ Hr) as ([rs b] & ? & ?); eauto.
  - by apply SrvRecord_Parse_safe.
  - intros v4; destruct (ParseARecord_safe packet size Hb Hs v4 _ Hr) as (o & ? & _); eauto.
  - destruct (ParseAAAARecord_safe packet size Hs _ Hr) as (o & ? & _); eauto.
  - intros it; by apply ParsePtrRecord_safe.
Qed.

(** A question for the PTR records of "foo", with a unicast answer. *)
Definition example_query : bytes :=
  [0; 1; 0; 0; 0; 1; 0; 0; 0; 0; 0; 0; 3; 102; 111; 111; 0; 0; 12; 0x80; 1].

Lemma parse_packet_safe_witness :
  ParsePacket example_query 21 =
    Ok ([OnHeader [0; 1; 0; 0; 0; 1; 0; 0; 0; 0; 0; 0];
         OnQuery (MkQueryData QType.PTR QClass.IN_ true (iterator_at example_query 21 12) false)], true) /\
  exists events ok, ParsePacket example_query 21 = Ok (events, ok) /\ (length events <= 1025)%nat.
Proof.
  split; [vm_compute; reflexivity|].
  destruct (parse_packet_safe example_query 21) as (events & ok & E & Hl & _);
    [by apply (bool_decide_unpack _)|simpl; lia|by exists events, ok].
Defined.
