(* ===== verification/MdnsWriter.v ===== *)
(** * MdnsWriter: writing mDNS packets

    src/src/lib/dnssd/minimal_mdns: core/RecordWriter.h, core/RecordWriter.cpp,
    Query.h, Parser.cpp ([QueryData::Append]), records/*.h and records/*.cpp,
    QueryBuilder.h, ResponseBuilder.h.

    - [RecordWriter]: names are written with the compression of RFC 1035: the offsets of
      the last names written are kept, and a suffix found there becomes a pointer;
    - [Query_Append], [QueryData_Append], [ResourceRecord_Append]: one entry, with its
      count in the header;
    - Modules [QueryBuilder] and [ResponseBuilder]: a packet, entry by entry. *)

From S2P Require Import Prelude Encoding QName MdnsParser.

(** ** RecordWriter *)

Definition kMaxCachedReferences : nat := 8.
Definition kInvalidOffset : Z := 0xFFFF.
Definition kMaxReuseOffset : Z := 0x3FFF.

Record RecordWriter := MkRecordWriter {
  mOutput : Writer;
  mPreviousQNames : list Z }.

(** [Reset], and the constructor *)
Definition no_names : list Z := replicate kMaxCachedReferences kInvalidOffset.
Definition RecordWriter_new (output : Writer) : RecordWriter := MkRecordWriter output no_names.

Definition on_output (f : Writer -> Writer) (out : RecordWriter) : RecordWriter :=
  MkRecordWriter (f (mOutput out)) (mPreviousQNames out).
Definition Put8 (value : Z) := on_output (fun w => BE_EndianPut w value 1).
Definition Put16 (value : Z) := on_output (fun w => BE_EndianPut w value 2).
Definition Put32 (value : Z) := on_output (fun w => BE_EndianPut w value 4).
(** [PutString] and [Put] of a range of bytes. *)
Definition PutString (value : bytes) := on_output (fun w => PutBytes w value).
Definition RFit (out : RecordWriter) : bool := Fit (mOutput out).

(** [PreviousName]: a name in what was written; [WritePos] may be past the buffer. *)
Definition PreviousName (out : RecordWriter) (index : nat) : SerializedQNameIterator :=
  match mPreviousQNames out !! index with
  | None => null_iterator
  | Some offset =>
      if offset =? kInvalidOffset then null_iterator
      else iterator_at (wBuf (mOutput out)) (WritePos (mOutput out)) (Z.to_nat offset)
  end.

(** [FindPreviousName(name)]; [same it] is [it == name].  The inner loop tries the name
    and each of its tails. *)
Section Find.
Context (same : SerializedQNameIterator -> result bool).

Fixpoint find_in_name (fuel : nat) (previous : SerializedQNameIterator) : result (option Z) :=
  match fuel with
  | O => Err UNDEFINED_BEHAVIOUR
  | S fuel =>
      if IsValid previous then
        let* eq := same previous in
        if (eq : bool) then Ok (Some (wrap 16 (Z.of_nat (OffsetInCurrentValidData previous))))
        else
          let* (more, previous) := Next previous in
          if (more : bool) then find_in_name fuel previous else Ok None
      else Ok None
  end.

Fixpoint find_from (n : nat) (out : RecordWriter) (index : nat) : result (option Z) :=
  match n with
  | O => Ok None
  | S n =>
      let previous := PreviousName out index in
      let* found := find_in_name (S (steps_left previous)) previous in
      match found with
      | Some offset => Ok (Some offset)
      | None => find_from n out (S index)
      end
  end.
Definition FindPreviousName (out : RecordWriter) : result (option Z) :=
  find_from kMaxCachedReferences out 0.
End Find.

(** [RememberWrittenQnameOffset] *)
Fixpoint fill_slot (offset : Z) (slots : list Z) : list Z :=
  match slots with
  | [] => []
  | previousName :: slots =>
      if previousName =? kInvalidOffset then offset :: slots
      else previousName :: fill_slot offset slots
  end.
Definition RememberWrittenQnameOffset (offset : nat) (out : RecordWriter) : RecordWriter :=
  if kMaxReuseOffset <? Z.of_nat offset then out
  else MkRecordWriter (mOutput out) (fill_slot (Z.of_nat offset) (mPreviousQNames out)).

(** The two ways a name ends: a pointer, or the empty label. *)
Definition put_pointer (offset : Z) (isFullyCompressed : bool) (start : nat) (out : RecordWriter) : RecordWriter :=
  let out := Put16 (Z.lor offset 0xC000) out in
  if RFit out && negb isFullyCompressed then RememberWrittenQnameOffset start out else out.
Definition put_root (start : nat) (out : RecordWriter) : RecordWriter :=
  let out := Put8 0 out in
  if RFit out then RememberWrittenQnameOffset start out else out.
Definition put_label (label : QNamePart) (out : RecordWriter) : RecordWriter :=
  PutString label (Put8 (wrap 8 (Z.of_nat (length label))) out).

(** [WriteQName(const FullQName &)] *)
Fixpoint write_parts (start : nat) (qname : FullQName) (isFullyCompressed : bool) (out : RecordWriter) :
    result RecordWriter :=
  match qname with
  | [] => Ok (put_root start out)
  | name :: rest =>
      let* offset := FindPreviousName (fun previous => eq_full previous qname) out in
      match offset with
      | Some offset => Ok (put_pointer offset isFullyCompressed start out)
      | None => write_parts start rest false (put_label name out)
      end
  end.
Definition WriteQName_full (qname : FullQName) (out : RecordWriter) : result RecordWriter :=
  write_parts (WritePos (mOutput out)) qname true out.

(** [WriteQName(const SerializedQNameIterator &)] *)
Fixpoint write_iterator (fuel start : nat) (copy : SerializedQNameIterator) (isFullyCompressed : bool)
    (out : RecordWriter) : result RecordWriter :=
  match fuel with
  | O => Err UNDEFINED_BEHAVIOUR
  | S fuel =>
      let* offset := FindPreviousName (fun previous => eq_iterator previous copy) out in
      match offset with
      | Some offset => Ok (put_pointer offset isFullyCompressed start out)
      | None =>
          let* (more, copy) := Next copy in
          if negb more then Ok (put_root start out)
          else if negb (IsValid copy) then Ok (put_root start out)
          else write_iterator fuel start copy false (put_label (Value copy) out)
      end
  end.
Definition WriteQName_iterator (qname : SerializedQNameIterator) (out : RecordWriter) : result RecordWriter :=
  write_iterator (S (steps_left qname)) (WritePos (mOutput out)) qname true out.

(** ** Packets

    The memory of a packet buffer from [Start()] to its end, and the length of the data
    in it. *)
Record Packet := MkPacket {
  pBlock : bytes;
  pDataLength : nat }.
Definition AvailableDataLength (p : Packet) : nat := length (pBlock p) - pDataLength p.
Definition SetDataLength (p : Packet) (n : nat) : Packet := MkPacket (pBlock p) (Nat.min n (length (pBlock p))).

(** Where an entry is appended: [oBefore] is the memory of the packet before the buffer
    of the writer, so the packet is [oBefore ++ wBuf]; a [HeaderRef] is at its start. *)
Record Output := MkOutput {
  oBefore : bytes;
  oWriter : RecordWriter }.
Definition block (o : Output) : bytes := oBefore o ++ wBuf (mOutput (oWriter o)).

Definition with_block (o : Output) (m : bytes) : Output :=
  let n := length (oBefore o) in
  MkOutput (take n m)
    (MkRecordWriter (MkWriter (drop n m) (mNeeded (mOutput (oWriter o)))) (mPreviousQNames (oWriter o))).

(** [hdr.Set...Count(static_cast<uint16_t>(hdr.Get...Count() + 1))] *)
Definition count_one (offset : nat) (o : Output) : result Output :=
  let* n := Get16At (block o) offset in
  let* m := Set16At (block o) offset (wrap 16 (n + 1)) in
  Ok (with_block o m).

(** *** Questions *)

(** [Query]: what a client asks for. *)
Record Query := MkQuery {
  quName : FullQName;
  quType : Z;
  quClass : Z;
  quAnswerViaUnicast : bool }.
Definition Query_new (name : FullQName) : Query := MkQuery name QType.ANY QClass.IN_ true.
Definition SetAnswerViaUnicast (q : Query) (value : bool) : Query :=
  MkQuery (quName q) (quType q) (quClass q) value.
Definition Query_SetType (q : Query) (value : Z) : Query :=
  MkQuery (quName q) value (quClass q) (quAnswerViaUnicast q).
Definition Query_SetClass (q : Query) (value : Z) : Query :=
  MkQuery (quName q) (quType q) value (quAnswerViaUnicast q).

(** [Query::Append] and [QueryData::Append] differ in how the name is given. *)
Definition write_question (write_name : RecordWriter -> result RecordWriter) (type klass : Z)
    (unicast : bool) (out : RecordWriter) : result RecordWriter :=
  let* out := write_name out in
  Ok (Put16 (Z.lor klass (if unicast then kQClassUnicastAnswerFlag else 0)) (Put16 type out)).

Definition append_question (write_name : RecordWriter -> result RecordWriter) (type klass : Z)
    (unicast : bool) (o : Output) : result (bool * Output) :=
  let* additional := GetAdditionalCount (block o) in
  let* answers := GetAnswerCount (block o) in
  let* authorities := GetAuthorityCount (block o) in
  if negb (additional =? 0) || negb (answers =? 0) || negb (authorities =? 0) then Ok (false, o)
  else
    let* out := write_question write_name type klass unicast (oWriter o) in
    let o := MkOutput (oBefore o) out in
    if negb (RFit out) then Ok (false, o)
    else let* o := count_one kQueryCountOffset o in Ok (true, o).
Definition Query_Append (q : Query) : Output -> result (bool * Output) :=
  append_question (WriteQName_full (quName q)) (quType q) (quClass q) (quAnswerViaUnicast q).
Definition QueryData_Append (q : QueryData) : Output -> result (bool * Output) :=
  append_question (WriteQName_iterator (qdName q)) (qdType q) (qdClass q) (mAnswerViaUnicast q).

(** *** Resource records *)

Definition kDefaultTtl : Z := 120.
Definition kTxtDefaultTtl : Z := 4500.
Definition kMaxTxtRecordLength : nat := 63.

(** [IPAddress::IsIPv4] and [IPAddress::IsIPv6] *)
Definition IsIPv4 (a : IPAddress) : bool :=
  bool_decide (take 12 a = replicate 8 0 ++ [0; 0; 0xFF; 0xFF]).
Definition IsIPv6 (a : IPAddress) : bool :=
  negb (bool_decide (a = replicate 16 0)) && negb (IsIPv4 a).

(** What the subclasses of [ResourceRecord] add. *)
Inductive RecordBody :=
| IPBody (mIPAddress : IPAddress)
| PtrBody (mPtrName : FullQName)
| SrvBody (mServerName : FullQName) (port priority weight : Z)
| TxtBody (mEntries : list bytes).

Record ResourceRecord := MkResourceRecord {
  rrType : Z;
  rrTtl : Z;
  rrName : FullQName;
  mCacheFlush : bool;
  rrBody : RecordBody }.

Definition IPResourceRecord (name : FullQName) (ip : IPAddress) : ResourceRecord :=
  MkResourceRecord (if IsIPv6 ip then QType.AAAA else QType.A) kDefaultTtl name false (IPBody ip).
Definition PtrResourceRecord (name ptrName : FullQName) : ResourceRecord :=
  MkResourceRecord QType.PTR kDefaultTtl name false (PtrBody ptrName).
Definition SrvResourceRecord (name serverName : FullQName) (port : Z) : ResourceRecord :=
  MkResourceRecord QType.SRV kDefaultTtl name false (SrvBody serverName port 0 0).
Definition TxtResourceRecord (name : FullQName) (entries : list bytes) : ResourceRecord :=
  MkResourceRecord QType.TXT kTxtDefaultTtl name false (TxtBody entries).
Definition SetTtl (r : ResourceRecord) (ttl : Z) : ResourceRecord :=
  MkResourceRecord (rrType r) ttl (rrName r) (mCacheFlush r) (rrBody r).
Definition SetCacheFlush (r : ResourceRecord) (set : bool) : ResourceRecord :=
  MkResourceRecord (rrType r) (rrTtl r) (rrName r) set (rrBody r).
Definition GetClass (r : ResourceRecord) : Z := if mCacheFlush r then QClass.IN_FLUSH else QClass.IN_.

(** [TxtResourceRecord::WriteData]: [false] as soon as an entry is too long. *)
Fixpoint write_entries (entries : list bytes) (out : RecordWriter) : bool * RecordWriter :=
  match entries with
  | [] => (RFit out, out)
  | entry :: entries =>
      let len := length entry in
      if (kMaxTxtRecordLength <? len)%nat then (false, out)
      else write_entries entries (PutString entry (Put8 (wrap 8 (Z.of_nat len)) out))
  end.

Definition WriteData (body : RecordBody) (out : RecordWriter) : result (bool * RecordWriter) :=
  match body with
  | IPBody ip =>
      let out := PutString (if IsIPv6 ip then take 16 ip else take 4 (drop 12 ip)) out in
      Ok (RFit out, out)
  | PtrBody name => let* out := WriteQName_full name out in Ok (RFit out, out)
  | SrvBody name port priority weight =>
      let* out := WriteQName_full name (Put16 port (Put16 weight (Put16 priority out))) in
      Ok (RFit out, out)
  | TxtBody entries => Ok (write_entries entries out)
  end.

(** [sizeOutput.Put16(...)]: a second writer on the same buffer, at [position]. *)
Definition put_size (position : nat) (value : Z) (out : RecordWriter) : RecordWriter :=
  on_output (fun w => MkWriter (wBuf (BE_EndianPut (MkWriter (wBuf w) position) value 2)) (mNeeded w)) out.

Definition count_offset (asType : ResourceType) : nat :=
  match asType with
  | kAdditional => kAdditionalCountOffset
  | kAuthority => kAuthorityCountOffset
  | kAnswer => kAnswerCountOffset
  end.

(** [ResourceRecord::Append]: first what it writes, [false] when [WriteData] refused. *)
Definition write_record (r : ResourceRecord) (out : RecordWriter) : result (bool * RecordWriter) :=
  let* out := WriteQName_full (rrName r) out in
  let out := Put32 (rrTtl r) (Put16 (GetClass r) (Put16 (rrType r) out)) in
  let sizeOutput := Needed (mOutput out) in
  let* (written, out) := WriteData (rrBody r) (Put16 0 out) in
  if negb written then Ok (false, out)
  else Ok (true, put_size sizeOutput
                   (wrap 16 (Z.of_nat (Needed (mOutput out)) - Z.of_nat sizeOutput - 2)) out).

Definition ResourceRecord_Append (r : ResourceRecord) (asType : ResourceType) (o : Output) :
    result (bool * Output) :=
  let* additional := GetAdditionalCount (block o) in
  let* authorities := GetAuthorityCount (block o) in
  if bool_decide (asType = kAuthority) && negb (additional =? 0) then Ok (false, o)
  else if bool_decide (asType = kAnswer) && (negb (additional =? 0) || negb (authorities =? 0)) then Ok (false, o)
  else
    let* (written, out) := write_record r (oWriter o) in
    let o := MkOutput (oBefore o) out in
    if negb written then Ok (false, o)
    else if RFit out then let* o := count_one (count_offset asType) o in Ok (true, o)
    else Ok (false, o).

(** ** Builders *)

(** The header a builder starts with; [Reset] writes the flags even when the packet has
    no room for a header. *)
Definition start_packet (flags : Z -> Z) (packet : Packet) : result (bool * Packet) :=
  let room := (kSizeBytes <=? AvailableDataLength packet)%nat in
  let* packet :=
    if room then
      let packet := SetDataLength packet kSizeBytes in
      let* m := Header_Clear (pBlock packet) in Ok (MkPacket m (pDataLength packet))
    else Ok packet in
  let* f := GetFlags (pBlock packet) in
  let* m := SetFlags (pBlock packet) (flags f) in
  Ok (room, MkPacket m (pDataLength packet)).

Module QueryBuilder.
Record QueryBuilder := MkQueryBuilder {
  mPacket : option Packet;
  mQueryBuildOk : bool }.

Definition new : QueryBuilder := MkQueryBuilder None true.

(** [Reset]: [mQueryBuildOk] is cleared when there is no room, never set. *)
Definition Reset (b : QueryBuilder) (packet : Packet) : result QueryBuilder :=
  let* (room, packet) := start_packet BitPackedFlags.SetQuery packet in
  Ok (MkQueryBuilder (Some packet) (if room then mQueryBuildOk b else false)).

Definition ReleasePacket (b : QueryBuilder) : option Packet * QueryBuilder :=
  (mPacket b, MkQueryBuilder None false).

(** [AddQuery]: a fresh writer behind the data. *)
Definition AddQuery (b : QueryBuilder) (query : Query) : result QueryBuilder :=
  if negb (mQueryBuildOk b) then Ok b
  else
    match mPacket b with
    | None => Err UNDEFINED_BEHAVIOUR
    | Some packet =>
        let n := pDataLength packet in
        let* (ok, o) := Query_Append query
          (MkOutput (take n (pBlock packet)) (RecordWriter_new (Writer_new (drop n (pBlock packet))))) in
        let packet := MkPacket (block o) n in
        Ok (if (ok : bool)
            then MkQueryBuilder
                   (Some (SetDataLength packet
                      (Z.to_nat (wrap 16 (Z.of_nat (n + Needed (mOutput (oWriter o)))))))) true
            else MkQueryBuilder (Some packet) false)
    end.
End QueryBuilder.

Module ResponseBuilder.
Record ResponseBuilder := MkResponseBuilder {
  mPacket : option Packet;
  mEndianOutput : nat;
  mWriter : list Z;
  mBuildOk : bool }.

Definition new : ResponseBuilder := MkResponseBuilder None 0 no_names false.

(** [Reset]: the writer's buffer is the whole packet, and it skips the data there is. *)
Definition Reset (b : ResponseBuilder) (packet : Packet) : result ResponseBuilder :=
  let* (room, packet) := start_packet
    (fun flags => BitPackedFlags.SetAuthoritative (BitPackedFlags.SetResponse flags)) packet in
  Ok (MkResponseBuilder (Some packet) (pDataLength packet) no_names room).

Definition ReleasePacket (b : ResponseBuilder) : option Packet * ResponseBuilder :=
  (mPacket b, MkResponseBuilder None (mEndianOutput b) (mWriter b) false).

Definition HasPacketBuffer (b : ResponseBuilder) : bool := bool_decide (is_Some (mPacket b)).

Definition HasResponseRecords (b : ResponseBuilder) : result bool :=
  match mPacket b with
  | None => Err UNDEFINED_BEHAVIOUR
  | Some packet =>
      let* answers := GetAnswerCount (pBlock packet) in
      let* authorities := GetAuthorityCount (pBlock packet) in
      let* additional := GetAdditionalCount (pBlock packet) in
      Ok (negb (answers =? 0) || negb (authorities =? 0) || negb (additional =? 0))
  end.

(** [mHeader] and [mWriter] of the builder, on the memory of its packet. *)
Definition output (b : ResponseBuilder) (packet : Packet) : Output :=
  MkOutput [] (MkRecordWriter (MkWriter (pBlock packet) (mEndianOutput b)) (mWriter b)).
Definition after (o : Output) (packet : Packet) (ok : bool) : ResponseBuilder :=
  MkResponseBuilder (Some packet) (mNeeded (mOutput (oWriter o))) (mPreviousQNames (oWriter o)) ok.

(** [AddRecord] and [AddQuery]; only the first has the [VerifyOrDie]. *)
Definition append (must_fit : bool) (entry : Output -> result (bool * Output)) (b : ResponseBuilder) :
    result ResponseBuilder :=
  if negb (mBuildOk b) then Ok b
  else
    match mPacket b with
    | None => Err UNDEFINED_BEHAVIOUR
    | Some packet =>
        let* (ok, o) := entry (output b packet) in
        let packet := MkPacket (block o) (pDataLength packet) in
        if negb ok then Ok (after o packet false)
        else if must_fit && negb (RFit (oWriter o)) then Err PROGRAM_ABORT
        else Ok (after o (SetDataLength packet
                   (Z.to_nat (wrap 16 (Z.of_nat (Needed (mOutput (oWriter o))))))) true)
    end.
Definition AddRecord (b : ResponseBuilder) (type : ResourceType) (record : ResourceRecord) :
    result ResponseBuilder := append true (ResourceRecord_Append record type) b.
Definition AddQuery (b : ResponseBuilder) (query : QueryData) : result ResponseBuilder :=
  append false (QueryData_Append query) b.
End ResponseBuilder.
