(* ===== verification/MdnsNames.v ===== *)
(** * MdnsNames: names written with compression

    What [RecordWriter] (MdnsWriter.v) puts into a buffer and how QName.v reads it back:
    a name written with [WriteQName], pointers included, says the name that was given,
    up to letter case.

    - [appended]: what the [Put] calls do to the buffer;
    - [cache_ok]: the remembered offsets are those of complete names already written;
    - [find_previous], [write_parts_spec], [write_iterator_spec]: the loops of
      [FindPreviousName] and of the two [WriteQName]. *)

From S2P Require Import Prelude Encoding QName MdnsParser MdnsWriter.

(** ** Appending *)

(** [w'] is [w] after [d] was put: bytes before the position are as they were, and when
    everything fits [d] is there. *)
Definition appended (w : Writer) (d : bytes) (w' : Writer) : Prop :=
  mNeeded w' = (mNeeded w + length d)%nat /\ length (wBuf w') = length (wBuf w) /\
  (forall i, (i < mNeeded w)%nat -> wBuf w' !! i = wBuf w !! i) /\
  (Fit w' = true -> bytes_at (wBuf w') (mNeeded w) d).

Lemma appended_fit w d w' : appended w d w' -> Fit w' = true -> Fit w = true.
Proof. unfold Fit, Size; intros (Hn & Hl & _) ?%Nat.leb_le; apply Nat.leb_le; lia. Qed.

Lemma appended_refl w : appended w [] w.
Proof. unfold appended; splits; try done; cbn; lia. Qed.

Lemma appended_trans w d w' d' w'' :
  appended w d w' -> appended w' d' w'' -> appended w (d ++ d') w''.
Proof.
  intros A B; pose proof (appended_fit _ _ _ B) as Hfit.
  destruct A as (En & El & Ep & Ed), B as (En' & El' & Ep' & Ed'); unfold appended.
  rewrite length_app; splits; [lia|lia| |].
  - intros i Hi; rewrite Ep', Ep by lia; done.
  - intros Hf; apply bytes_at_app; split; [|rewrite <-En; auto].
    intros i c Hi; rewrite Ep' by (apply lookup_lt_Some in Hi; lia); by apply Ed; auto.
Qed.

(** Every writer is one whose first bytes were skipped. *)
Lemma writer_skipped w : w = writer_of (wBuf w) (replicate (mNeeded w) None).
Proof. unfold writer_of; rewrite overlay_none, length_replicate; by destruct w. Qed.

Lemma appended_log w d :
  appended w d (writer_of (wBuf w) (replicate (mNeeded w) None ++ (Some <$> d))).
Proof.
  unfold appended, writer_of, Fit, Size; cbn [mNeeded wBuf].
  rewrite !length_app, length_replicate, length_fmap, length_overlay, overlay_app, overlay_none, length_replicate,
    overlay_some.
  set (n := mNeeded w); set (b := wBuf w).
  splits; [done|done| |].
  - intros i Hi; destruct (decide (i < length b)%nat) as [Hb|Hb].
    + rewrite lookup_app_l by (rewrite length_take; lia); by rewrite lookup_take_lt by done.
    + rewrite !lookup_ge_None_2; [done|lia|].
      rewrite !length_app, !length_take, !length_drop; lia.
  - intros Hf%Nat.leb_le i c Hi; pose proof (lookup_lt_Some _ _ _ Hi).
    rewrite lookup_app_r by (rewrite length_take; lia).
    rewrite length_take, Nat.min_l by lia; rewrite Nat.add_comm, Nat.add_sub.
    rewrite take_ge by (rewrite length_drop; lia); by apply lookup_app_l_Some.
Qed.

Lemma BE_EndianPut_appended w x n : appended w (be_bytes n x) (BE_EndianPut w x n).
Proof. rewrite (writer_skipped w) at 2; rewrite BE_EndianPut_log; apply appended_log. Qed.

Lemma PutBytes_appended w d : appended w d (PutBytes w d).
Proof. rewrite (writer_skipped w) at 2; rewrite PutBytes_log; apply appended_log. Qed.

(** The same of record writers, which keep their names. *)
Definition rappended (out : RecordWriter) (d : bytes) (out' : RecordWriter) : Prop :=
  appended (mOutput out) d (mOutput out') /\ mPreviousQNames out' = mPreviousQNames out.

Lemma rappended_trans out d out' d' out'' :
  rappended out d out' -> rappended out' d' out'' -> rappended out (d ++ d') out''.
Proof. intros [? E] [? E']; split; [by eapply appended_trans|by rewrite E']. Qed.

Lemma Put16_appended v out : rappended out (be_bytes 2 v) (Put16 v out).
Proof. split; [apply BE_EndianPut_appended|done]. Qed.
Lemma Put32_appended v out : rappended out (be_bytes 4 v) (Put32 v out).
Proof. split; [apply BE_EndianPut_appended|done]. Qed.
Lemma PutString_appended s out : rappended out s (PutString s out).
Proof. split; [apply PutBytes_appended|done]. Qed.

Lemma be_bytes_1 v : be_bytes 1 v = [v mod 256].
Proof. done. Qed.

Lemma Put8_appended v out : 0 <= v < 256 -> rappended out [v] (Put8 v out).
Proof.
  intros Hv; split; [|done]; rewrite <-(Z.mod_small v 256) at 1 by done.
  rewrite <-be_bytes_1; apply BE_EndianPut_appended.
Qed.

Lemma put_label_appended l out :
  (length l <= 63)%nat -> rappended out (Z.of_nat (length l) :: l) (put_label l out).
Proof.
  intros Hl; unfold put_label; rewrite wrap_small by (unfold is_uint; lia).
  change (_ :: l) with ([Z.of_nat (length l)] ++ l).
  eapply rappended_trans; [apply Put8_appended; lia|apply PutString_appended].
Qed.

Lemma bytes_ok_put w d : bytes_ok (wBuf w) -> bytes_ok d -> forall w', appended w d w' ->
  w' = writer_of (wBuf w) (replicate (mNeeded w) None ++ (Some <$> d)) -> bytes_ok (wBuf w').
Proof.
  intros Hb Hd w' _ ->; unfold writer_of; cbn [wBuf].
  rewrite overlay_app, overlay_none, length_replicate, overlay_some.
  unfold bytes_ok in *; rewrite !Forall_app; splits; auto using Forall_take, Forall_drop.
Qed.

(** ** Remembered names *)

Definition no_nul (l : bytes) : Prop := Forall (fun c => c <> 0) l.

(** A label that can be written and compared. *)
Definition label_ok (l : bytes) : Prop := (0 < length l <= 63)%nat /\ no_nul l.

(** A slot of [mPreviousQNames]: unused, or where a name begins. *)
Definition cached (P : nat -> Prop) (m : bytes) (o : Z) : Prop :=
  o = kInvalidOffset \/
  exists p ls, o = Z.of_nat p /\ Z.of_nat p < 16384 /\ name_at P m p p ls /\ Forall no_nul ls.
Definition cache_ok (P : nat -> Prop) (out : RecordWriter) : Prop :=
  Forall (cached P (wBuf (mOutput out))) (mPreviousQNames out).

(** Positions already written. *)
Definition below (P : nat -> Prop) (n : nat) : Prop := forall i, P i -> (i < n)%nat.

Lemma cached_mono (P P' : nat -> Prop) m m' o :
  (forall i, P i -> P' i) -> (forall i b, P i -> m !! i = Some b -> m' !! i = Some b) ->
  cached P m o -> cached P' m' o.
Proof.
  intros HP Hm [->|(p & ls & -> & ? & ? & ?)]; [by left|right; exists p, ls; splits; auto].
  eapply name_at_mono; [done|done|]; by eapply name_at_agree.
Qed.

Lemma cache_ok_new P w : cache_ok P (RecordWriter_new w).
Proof. apply Forall_replicate; by left. Qed.

(** What the comparison [same] sees of a name: its labels. *)
Definition compares (same : SerializedQNameIterator -> result bool) (b : list bytes -> bool)
    (m : bytes) (size : nat) : Prop :=
  forall P it ls, mMemory it = m -> mSize it = size -> iter_wf it -> mIsValid it = true -> says P it ls ->
    Forall no_nul ls -> same it = Ok (b ls).

Lemma find_in_name_says P same b fuel it ls :
  compares same b (mMemory it) (mSize it) -> Forall no_nul ls ->
  iter_wf it -> mIsValid it = true -> says P it ls -> (steps_left it < fuel)%nat ->
  find_in_name same fuel it = Ok None \/
  exists it' ls', find_in_name same fuel it = Ok (Some (wrap 16 (Z.of_nat (mCurrentPosition it')))) /\
    same_range it it' /\ iter_wf it' /\ says P it' ls' /\ b ls' = true /\ Forall no_nul ls'.
Proof.
  intros Hcmp Hnul; revert it ls Hcmp Hnul; induction fuel as [|fuel IH]; intros it ls Hcmp Hnul Hw Hv Hs Hf; [lia|].
  cbn [find_in_name]; unfold IsValid; rewrite Hv, (Hcmp P it ls) by done; cbn [rbind].
  destruct (b ls) eqn:Eb; [right; exists it, ls; by splits|].
  pose proof (Next_name P it ls Hw Hv Hs) as Hr; destruct ls as [|l ls]; cbn [reads] in Hr.
  - destruct Hr as (it' & -> & _); by left.
  - destruct Hr as (it' & -> & _ & Hv' & Hw' & R & Hs' & Hstep); cbn [rbind].
    destruct R as [Em Es]; apply Forall_cons_iff in Hnul as [_ Hnul].
    destruct (IH it' ls) as [?|(it2 & ls' & ? & R & ?)]; auto; [by rewrite Em, Es|lia|right].
    exists it2, ls'; splits; try tauto.
    destruct R; split; congruence.
Qed.

(** [FindPreviousName] answers, and what it finds is a name in the buffer. *)
Lemma find_from_says P same b out n index :
  compares same b (wBuf (mOutput out)) (WritePos (mOutput out)) ->
  below P (WritePos (mOutput out)) -> cache_ok P out -> Z.of_nat (length (wBuf (mOutput out))) <= 16384 ->
  find_from same n out index = Ok None \/
  exists q ls, find_from same n out index = Ok (Some (Z.of_nat q)) /\ Z.of_nat q < 16384 /\
    name_at P (wBuf (mOutput out)) q q ls /\ b ls = true /\ Forall no_nul ls.
Proof.
  intros Hcmp HP Hc Hlen; revert index; induction n as [|n IH]; intros index; [by left|]; cbn [find_from].
  assert (forall it, mIsValid it = false -> find_in_name same (S (steps_left it)) it = Ok None) as Hnone.
  { intros it Hv; cbn [find_in_name]; unfold IsValid; by rewrite Hv. }
  unfold PreviousName; destruct (mPreviousQNames out !! index) as [o|] eqn:Eo;
    [|rewrite Hnone by done; cbn [rbind]; apply IH].
  apply (Forall_lookup_1 _ _ _ _ Hc) in Eo as [->|(p & ls & -> & Hp & Hname & Hnul)];
    [rewrite Hnone by done; cbn [rbind]; apply IH|].
  unfold kInvalidOffset; rewrite (proj2 (Z.eqb_neq _ _)) by lia; rewrite Nat2Z.id.
  set (m := wBuf _) in *; set (size := WritePos _) in *.
  assert (forall i c, P i -> m !! i = Some c -> take size m !! i = Some c) as Hview.
  { intros i c Hi Ei; rewrite lookup_take_lt; auto. }
  destruct (find_in_name_says P same b (S (steps_left (iterator_at m size p))) (iterator_at m size p) ls)
    as [E|(it & ls' & E & [Em Es] & [Hw _] & Hs & Hb & Hnul')]; auto.
  - split; [done|by cbn].
  - unfold says, view; cbn; by eapply name_at_agree.
  - rewrite E; cbn [rbind]; apply IH.
  - rewrite E; cbn [rbind]; right; unfold says, view in Hs; rewrite Em, Es in Hs; cbn in Hs.
    exists (mCurrentPosition it), ls'; destruct (name_at_start _ _ _ _ _ Hs) as [_ Hlt].
    rewrite length_take in Hlt; rewrite wrap_small by (unfold is_uint; lia); splits; auto; [lia|].
    apply (name_at_agree _ (take size m)); [|eapply name_at_mono; eauto].
    intros i c _ Ei; by apply lookup_take_Some in Ei as [? _].
Qed.

Lemma find_previous P same b out :
  compares same b (wBuf (mOutput out)) (WritePos (mOutput out)) ->
  below P (WritePos (mOutput out)) -> cache_ok P out -> Z.of_nat (length (wBuf (mOutput out))) <= 16384 ->
  FindPreviousName same out = Ok None \/
  exists q ls, FindPreviousName same out = Ok (Some (Z.of_nat q)) /\ Z.of_nat q < 16384 /\
    name_at P (wBuf (mOutput out)) q q ls /\ b ls = true /\ Forall no_nul ls.
Proof. apply find_from_says. Qed.

(** *** The comparisons *)

Lemma c_strings ls : Forall no_nul ls -> c_string <$> ls = ls.
Proof. induction 1; csimpl; f_equal; auto using c_string_id. Qed.

Lemma says_labels P it ls :
  iter_wf it -> mIsValid it = true -> says P it ls -> Forall no_nul ls ->
  exists it', labels it = Ok (ls, it') /\ mIsValid it' = true.
Proof.
  intros Hw Hv Hs Hn; unfold labels; rewrite <-(c_strings ls) by done.
  eapply read_labels_says; eauto.
Qed.

Lemma compares_full names m size :
  compares (fun previous => eq_full previous names) (fun ls => bool_decide (folded ls = folded names)) m size.
Proof.
  intros P it ls _ _ Hw Hv Hs Hn; destruct (says_labels P it ls) as (it' & E & _); auto.
  by eapply eq_full_spec.
Qed.

Lemma compares_iterator copy vs it' m size :
  labels copy = Ok (vs, it') -> mIsValid it' = true ->
  compares (fun previous => eq_iterator previous copy) (fun ls => bool_decide (folded ls = folded vs)) m size.
Proof.
  intros E Hv' P it ls _ _ Hw Hv Hs Hn; destruct (says_labels P it ls) as (it2 & E2 & V2); auto.
  rewrite (eq_iterator_spec it ls it2 copy vs it') by done.
  by rewrite V2, Hv', !andb_true_r.
Qed.

(** ** Pointers *)

Lemma lor_disjoint a b k :
  0 <= k -> 0 <= a < 2 ^ k -> Z.land (Z.ones k) b = 0 -> Z.lor a b = a + b.
Proof.
  intros Hk Ha Hb; assert (Z.land a b = 0) as E.
  { rewrite <-(Z.mod_small a (2 ^ k)), <-Z.land_ones by done.
    by rewrite <-Z.land_assoc, Hb, Z.land_0_r. }
  pose proof (Z.add_lor_land a b); lia.
Qed.

Lemma pointer_bytes (q : nat) :
  Z.of_nat q < 16384 -> exists b0 b1,
    be_bytes 2 (Z.lor (Z.of_nat q) 0xC000) = [b0; b1] /\ is_pointer b0 = true /\ pointer b0 b1 = q.
Proof.
  intros Hq; set (z := Z.of_nat q) in *.
  rewrite (lor_disjoint z 0xC000 14) by (done || lia).
  assert ((z + 0xC000) / 256 mod 256 = 192 + z / 256) as E0.
  { replace (z + 0xC000) with (z + 192 * 256) by lia; rewrite Z.div_add by lia.
    rewrite Z.mod_small; [lia|]; split; [pose proof (Z.div_pos z 256); lia|].
    assert (z / 256 < 64) by (apply Z.div_lt_upper_bound; lia); lia. }
  assert ((z + 0xC000) mod 256 = z mod 256) as E1.
  { replace (z + 0xC000) with (z + 192 * 256) by lia; by rewrite Z_mod_plus_full. }
  assert (0 <= z / 256 < 64) as Hd.
  { split; [apply Z.div_pos; lia|apply Z.div_lt_upper_bound; lia]. }
  exists (192 + z / 256), (z mod 256); splits.
  - by rewrite <-E0, <-E1.
  - rewrite is_pointer_range by (unfold is_uint; lia); apply Z.leb_le; lia.
  - unfold pointer; change 0x3F with (Z.ones 6); rewrite Z.land_ones by lia.
    replace (192 + z / 256) with (z / 256 + 3 * 2 ^ 6) by lia.
    rewrite Z_mod_plus_full, Z.mod_small by lia.
    pose proof (Z.mod_pos_bound z 256 ltac:(lia)) as Hm.
    rewrite Z.lor_comm, (lor_disjoint _ _ 8), Z.shiftl_mul_pow2; try lia.
    + rewrite Z.add_comm, Z.mul_comm; change (2 ^ 8) with 256; rewrite <-Z_div_mod_eq_full; lia.
    + by rewrite Z.land_comm, Z.land_ones, Z.shiftl_mul_pow2, Z_mod_mult by lia.
Qed.

(** ** Writing a name *)

(** The positions of [P] and those of a piece written. *)
Definition grow (P : nat -> Prop) (a b : nat) : nat -> Prop := fun i => P i \/ (a <= i < b)%nat.

Lemma grow_l P a b i : P i -> grow P a b i.
Proof. by left. Qed.

(** Shorthands for the buffer and the position of a record writer. *)
Definition buffer (out : RecordWriter) : bytes := wBuf (mOutput out).
Definition pos (out : RecordWriter) : nat := mNeeded (mOutput out).

Lemma rappended_pos out d out' : rappended out d out' -> pos out' = (pos out + length d)%nat.
Proof. by intros [(E & _) _]. Qed.

Lemma rappended_length out d out' : rappended out d out' -> length (buffer out') = length (buffer out).
Proof. by intros [(_ & E & _) _]. Qed.

Lemma rappended_fit out d out' : rappended out d out' -> RFit out' = true -> RFit out = true.
Proof. intros [A _]; by eapply appended_fit. Qed.

Lemma rappended_bytes out d out' :
  rappended out d out' -> RFit out' = true -> bytes_at (buffer out') (pos out) d.
Proof. intros [(_ & _ & _ & H) _]; apply H. Qed.

Lemma rappended_keeps out d out' i b :
  rappended out d out' -> (i < pos out)%nat -> buffer out !! i = Some b -> buffer out' !! i = Some b.
Proof. intros [(_ & _ & H & _) _] Hi E; unfold buffer; by rewrite H. Qed.

Lemma rappended_cache P out d out' :
  below P (pos out) -> rappended out d out' -> cache_ok P out -> cache_ok P out'.
Proof.
  intros HP A; unfold cache_ok; destruct (A) as [_ ->]; apply Forall_impl; intros o.
  apply cached_mono; [done|]; intros i b Hi; eapply rappended_keeps; eauto.
Qed.

Lemma rappended_nil out : rappended out [] out.
Proof. split; [apply appended_refl|done]. Qed.

(** [out'] is [out] with the name [names] of [start] continued to its end, of which
    [ls] was written or pointed to. *)
Definition name_written (P : nat -> Prop) (start p : nat) (names : list bytes) (out' : RecordWriter) : Prop :=
  exists ls, name_at (grow P start (pos out')) (buffer out') start p ls /\
    folded ls = folded names /\ Forall no_nul ls /\ ends_at (buffer out') p (pos out').

Lemma put_pointer_spec P start q ls names b out :
  below P start -> (start <= pos out)%nat -> Z.of_nat q < 16384 ->
  name_at P (buffer out) q q ls -> folded ls = folded names -> Forall no_nul ls ->
  exists d r out1,
    put_pointer (Z.of_nat q) b start out = (if (r : bool) then RememberWrittenQnameOffset start out1 else out1) /\
    rappended out d out1 /\ (r = true -> RFit out1 = true) /\
    (RFit out1 = true -> name_written P start (pos out) names out1).
Proof.
  intros HP Hs Hq Hname Hf Hn; unfold put_pointer.
  pose proof (Put16_appended (Z.lor (Z.of_nat q) 0xC000) out) as A; set (out1 := Put16 _ out) in *.
  exists (be_bytes 2 (Z.lor (Z.of_nat q) 0xC000)), (RFit out1 && negb b), out1; splits; [done|done|by intros [? _]%andb_true_iff|].
  intros Hfit; pose proof (rappended_bytes _ _ _ A Hfit) as Hb; pose proof (rappended_pos _ _ _ A) as Ep.
  destruct (pointer_bytes q Hq) as (b0 & b1 & Eb & Hptr & Eq).
  rewrite Eb in Hb, Ep; cbn [length] in Ep.
  apply bytes_at_cons in Hb as [H0 [H1 _]%bytes_at_cons].
  assert (q < start)%nat by (apply HP; eapply name_at_start; eauto).
  exists ls; splits; [|done|done|].
  - apply name_pointer with b0 b1; [right; lia|right; lia|done..|rewrite Eq; lia|].
    rewrite Eq; apply (name_at_mono P _ _ q); [apply grow_l|lia|].
    apply (name_at_agree P (buffer out)); [|done].
    intros i c Hi; apply (rappended_keeps _ _ _ _ _ A); specialize (HP i Hi); lia.
  - rewrite Ep; by apply ends_pointer with b0 b1.
Qed.

Lemma put_root_spec P start out :
  (start <= pos out)%nat ->
  exists d r out1,
    put_root start out = (if (r : bool) then RememberWrittenQnameOffset start out1 else out1) /\
    rappended out d out1 /\ (r = true -> RFit out1 = true) /\
    (RFit out1 = true -> name_written P start (pos out) [] out1).
Proof.
  intros Hs; unfold put_root; pose proof (Put8_appended 0 out ltac:(lia)) as A; set (out1 := Put8 0 out) in *.
  exists [0], (RFit out1), out1; splits; [done|done|done|].
  intros Hfit; pose proof (rappended_bytes _ _ _ A Hfit) as [Hb _]%bytes_at_cons.
  pose proof (rappended_pos _ _ _ A) as Ep; cbn [length] in Ep.
  exists []; splits; [apply name_root; [right; lia|done]|done|done|rewrite Ep; by apply ends_root].
Qed.

(** A label put in front. *)
Lemma name_written_label P start l names out d out' :
  (start <= pos out)%nat -> label_ok l ->
  rappended (put_label l out) d out' -> RFit out' = true ->
  name_written P start (pos (put_label l out)) names out' ->
  name_written P start (pos out) (l :: names) out'.
Proof.
  intros Hs [Hl Hnul] A Hfit (ls & Hname & Hf & Hn & He).
  pose proof (put_label_appended l out ltac:(lia)) as B.
  pose proof (rappended_bytes _ _ _ B (rappended_fit _ _ _ A Hfit)) as [H0 H1]%bytes_at_cons.
  pose proof (rappended_pos _ _ _ A) as Ep; pose proof (rappended_pos _ _ _ B) as Ep1; cbn [length] in Ep1.
  replace (pos out + S (length l))%nat with (pos out + 1 + length l)%nat in Ep1 by lia.
  assert (forall i c, (i < pos (put_label l out))%nat -> buffer (put_label l out) !! i = Some c ->
    buffer out' !! i = Some c) as Hkeep by (intros; by eapply rappended_keeps).
  rewrite Ep1 in *; assert (buffer out' !! pos out = Some (Z.of_nat (length l))) as H0' by (apply Hkeep; [lia|done]).
  exists (l :: ls); splits.
  - apply name_label; [intros; right; lia|done|lia| |done].
    apply (bytes_at_agree (fun i => (i < pos out + 1 + length l)%nat) (buffer (put_label l out))); auto; lia.
  - unfold folded in *; csimpl; by f_equal.
  - by constructor.
  - apply ends_label with (length l); auto.
Qed.

Lemma write_parts_spec P start names b out :
  Forall label_ok names -> below P start -> (start <= pos out)%nat -> cache_ok P out ->
  Z.of_nat (length (buffer out)) <= 16384 ->
  exists d r out1,
    write_parts start names b out = Ok (if (r : bool) then RememberWrittenQnameOffset start out1 else out1) /\
    rappended out d out1 /\ (r = true -> RFit out1 = true) /\
    (RFit out1 = true -> name_written P start (pos out) names out1).
Proof.
  intros Hok HP; revert b out; induction Hok as [|n names Hn Hok IH]; intros b out Hs Hc Hlen; cbn [write_parts].
  { destruct (put_root_spec P start out Hs) as (d & r & out1 & -> & ? & ? & ?); by exists d, r, out1. }
  assert (below P (pos out)) as HP' by (intros i Hi; specialize (HP i Hi); lia).
  destruct (find_previous P _ _ out (compares_full (n :: names) _ _) HP' Hc Hlen)
    as [->|(q & ls & -> & Hq & Hname & Hf%bool_decide_eq_true & Hnul)]; cbn [rbind].
  - pose proof (put_label_appended n out ltac:(destruct Hn; lia)) as A.
    destruct (IH false (put_label n out)) as (d & r & out1 & -> & B & Hr & Hw).
    { rewrite (rappended_pos _ _ _ A); lia. }
    { by eapply rappended_cache. }
    { by rewrite (rappended_length _ _ _ A). }
    do 3 eexists; splits; [done|by eapply rappended_trans|done|].
    intros Hfit; by eapply name_written_label; eauto.
  - destruct (put_pointer_spec P start q ls (n :: names) b out) as (d & r & out1 & -> & ? & ? & ?); auto.
    by exists d, r, out1.
Qed.

(** The same for a name read from another packet. *)
Lemma write_iterator_spec Q P start fuel copy ls b out :
  iter_wf copy -> mIsValid copy = true -> says Q copy ls -> (steps_left copy < fuel)%nat ->
  Forall label_ok ls -> below P start -> (start <= pos out)%nat -> cache_ok P out ->
  Z.of_nat (length (buffer out)) <= 16384 ->
  exists d r out1,
    write_iterator fuel start copy b out = Ok (if (r : bool) then RememberWrittenQnameOffset start out1 else out1) /\
    rappended out d out1 /\ (r = true -> RFit out1 = true) /\
    (RFit out1 = true -> name_written P start (pos out) ls out1).
Proof.
  intros Hw Hv Hsays Hf Hok HP; revert copy ls b out Hw Hv Hsays Hf Hok.
  induction fuel as [|fuel IH]; intros copy ls b out Hw Hv Hsays Hf Hok Hs Hc Hlen; [lia|]; cbn [write_iterator].
  assert (below P (pos out)) as HP' by (intros i Hi; specialize (HP i Hi); lia).
  assert (Forall no_nul ls) as Hnul by (eapply Forall_impl; [|exact Hok]; by intros ? []).
  destruct (says_labels Q copy ls) as (it' & El & Vl); auto.
  destruct (find_previous P _ _ out (compares_iterator copy ls it' _ _ El Vl) HP' Hc Hlen)
    as [->|(q & ls' & -> & Hq & Hname & Hfold%bool_decide_eq_true & Hnul')]; cbn [rbind].
  - pose proof (Next_name Q copy ls Hw Hv Hsays) as Hr; destruct Hok as [|l ls Hl Hok]; cbn [reads] in Hr.
    + destruct Hr as (copy' & -> & _); cbn [rbind negb].
      destruct (put_root_spec P start out Hs) as (d & r & out1 & -> & ? & ? & ?); by exists d, r, out1.
    + destruct Hr as (copy' & -> & Ev & Hv' & Hw' & _ & Hsays' & Hstep); cbn [rbind negb].
      unfold IsValid; rewrite Hv', Ev; cbn [negb]; rewrite c_string_id by apply Hl.
      pose proof (put_label_appended l out ltac:(destruct Hl; lia)) as A.
      destruct (IH copy' ls false (put_label l out)) as (d & r & out1 & -> & B & Hrfit & Hwr); auto; try lia.
      { rewrite (rappended_pos _ _ _ A); lia. }
      { by eapply rappended_cache. }
      { by rewrite (rappended_length _ _ _ A). }
      do 3 eexists; splits; [done|by eapply rappended_trans|done|].
      intros Hfit; by eapply name_written_label; eauto.
  - destruct (put_pointer_spec P start q ls' ls b out) as (d & r & out1 & -> & ? & ? & ?); auto.
    by exists d, r, out1.
Qed.

(** *** A whole name *)

Lemma fill_slot_Forall (Q : Z -> Prop) o slots : Q o -> Forall Q slots -> Forall Q (fill_slot o slots).
Proof.
  intros Ho; induction 1 as [|s slots Hs Hsl IH]; cbn [fill_slot]; [done|].
  destruct (s =? kInvalidOffset); by constructor.
Qed.

(** After [WriteQName] of [names]: bytes were appended, and when they fit the name is
    there, and may be pointed to. *)
Definition wrote (P : nat -> Prop) (names : list bytes) (out out' : RecordWriter) : Prop :=
  exists d, appended (mOutput out) d (mOutput out') /\
    cache_ok (grow P (pos out) (pos out')) out' /\
    (RFit out' = true -> name_written P (pos out) (pos out) names out').

Lemma wrote_remember P names out d (r : bool) out1 :
  below P (pos out) -> cache_ok P out -> Z.of_nat (length (buffer out)) <= 16384 -> rappended out d out1 ->
  (r = true -> RFit out1 = true) -> (RFit out1 = true -> name_written P (pos out) (pos out) names out1) ->
  wrote P names out (if r then RememberWrittenQnameOffset (pos out) out1 else out1).
Proof.
  intros HP Hc Hlen A Hr Hw; exists d.
  assert (cache_ok (grow P (pos out) (pos out1)) out1) as Hc1.
  { pose proof (rappended_cache P out d out1 HP A Hc) as H.
    eapply Forall_impl; [|exact H]; intros o; apply cached_mono; [apply grow_l|done]. }
  destruct r; [|by splits; [apply A| |]].
  unfold RememberWrittenQnameOffset, kMaxReuseOffset; destruct (Z.ltb_spec 0x3FFF (Z.of_nat (pos out)));
    [by splits; [apply A| |]|].
  splits; [apply A| |by apply Hw].
  apply fill_slot_Forall; [|exact Hc1].
  destruct (Hw (Hr eq_refl)) as (ls & Hname & _ & Hn & _).
  right; exists (pos out), ls; splits; auto; lia.
Qed.

Lemma WriteQName_full_spec P names out :
  Forall label_ok names -> below P (pos out) -> cache_ok P out -> Z.of_nat (length (buffer out)) <= 16384 ->
  exists out', WriteQName_full names out = Ok out' /\ wrote P names out out'.
Proof.
  intros Hok HP Hc Hlen.
  destruct (write_parts_spec P (pos out) names true out) as (d & r & out1 & E & A & Hr & Hw); auto.
  eexists; split; [exact E|]; by eapply wrote_remember.
Qed.

Lemma WriteQName_iterator_spec Q P copy ls out :
  iter_wf copy -> mIsValid copy = true -> says Q copy ls -> Forall label_ok ls ->
  below P (pos out) -> cache_ok P out -> Z.of_nat (length (buffer out)) <= 16384 ->
  exists out', WriteQName_iterator copy out = Ok out' /\ wrote P ls out out'.
Proof.
  intros Hw Hv Hs Hok HP Hc Hlen.
  destruct (write_iterator_spec Q P (pos out) (S (steps_left copy)) copy ls true out)
    as (d & r & out1 & E & A & Hr & Hwr); auto.
  eexists; split; [exact E|]; by eapply wrote_remember.
Qed.
