(* ===== verification/MdnsPacket.v ===== *)
(** * MdnsPacket: packets written and read back

    The contents of a packet ([says_question], [says_resource]), that the builders of
    MdnsWriter.v produce them and that [ParsePacket] of MdnsParser.v reports them: a
    response that [ResponseBuilder] built is parsed into the questions and records that
    were added, in their order. *)

From S2P Require Import Prelude Encoding QName MdnsParser MdnsWriter MdnsNames.

(** ** Contents *)

(** Positions of the body of a packet, up to [n]. *)
Definition body (n : nat) : nat -> Prop := fun i => (kSizeBytes <= i < n)%nat.

Section Contents.
Context (P : nat -> Prop) (m : bytes).

(** A name written in full at [p], which takes the bytes up to [e]. *)
Definition says_name (p e : nat) (names : list bytes) : Prop :=
  exists ls, name_at P m p p ls /\ folded ls = folded names /\ Forall no_nul ls /\ ends_at m p e.

Definition says_question (p e : nat) (type klass : Z) (names : list bytes) : Prop :=
  exists q, says_name p q names /\ bytes_at m q (be_bytes 2 type ++ be_bytes 2 klass) /\ e = (q + 4)%nat.

Definition address_bytes (ip : IPAddress) : bytes := if IsIPv6 ip then take 16 ip else take 4 (drop 12 ip).

Definition says_body (p e : nat) (b : RecordBody) : Prop :=
  match b with
  | IPBody ip => bytes_at m p (address_bytes ip) /\ e = (p + length (address_bytes ip))%nat
  | PtrBody names => says_name p e names
  | SrvBody names port priority weight =>
      bytes_at m p (be_bytes 2 priority ++ be_bytes 2 weight ++ be_bytes 2 port) /\ says_name (p + 6) e names
  | TxtBody entries => bytes_at m p (txt_data entries) /\ e = (p + length (txt_data entries))%nat
  end.

(** The fields of a record before its data; [n] is the length of the data. *)
Definition record_fields (r : ResourceRecord) : bytes :=
  be_bytes 2 (rrType r) ++ be_bytes 2 (GetClass r) ++ be_bytes 4 (rrTtl r).
Definition says_resource (p e : nat) (r : ResourceRecord) : Prop :=
  exists q (n : nat), says_name p q (rrName r) /\
    bytes_at m q (record_fields r ++ be_bytes 2 (Z.of_nat n)) /\
    says_body (q + 10) e (rrBody r) /\ e = (q + 10 + n)%nat.
End Contents.

(** What can be written and read back. *)
Definition parts_ok (names : FullQName) : Prop := Forall label_ok names.
Definition body_ok (b : RecordBody) : Prop :=
  match b with
  | IPBody ip => length ip = 16%nat /\ bytes_ok ip
  | PtrBody names => parts_ok names
  | SrvBody names port priority weight =>
      parts_ok names /\ is_uint 16 port /\ is_uint 16 priority /\ is_uint 16 weight
  | TxtBody _ => True
  end.
Definition record_ok (r : ResourceRecord) : Prop :=
  is_uint 16 (rrType r) /\ is_uint 32 (rrTtl r) /\ parts_ok (rrName r) /\ body_ok (rrBody r).

(** ** Contents do not depend on the rest of the memory *)
Section Agree.
Context (P P' : nat -> Prop) (m m' : bytes).
Hypothesis P_mono : forall i, P i -> P' i.
Hypothesis P_keep : forall i b, P i -> m !! i = Some b -> m' !! i = Some b.

Lemma says_name_agree p e names :
  (forall i, (p <= i < e)%nat -> P i) -> says_name P m p e names -> says_name P' m' p e names.
Proof.
  intros HP (ls & Hn & Hf & Hnul & He); exists ls; splits; auto.
  - eapply name_at_mono; [done|done|]; by eapply name_at_agree.
  - apply (ends_at_agree m); [intros; apply P_keep; auto|done].
Qed.

Lemma says_body_agree p e b :
  (forall i, (p <= i < e)%nat -> P i) -> says_body P m p e b -> says_body P' m' p e b.
Proof.
  intros HP; destruct b as [ip|names|names port prio weight|entries]; cbn [says_body].
  - intros [H ->]; split; [|done]; by apply (bytes_at_agree P m).
  - by apply says_name_agree.
  - intros [H Hn]; pose proof Hn as (_ & _ & _ & _ & He%ends_at_range); split.
    + apply (bytes_at_agree P m); auto; intros i Hi; apply HP.
      rewrite !length_app in Hi; unfold be_bytes in Hi; rewrite !length_reverse, !length_le_split in Hi; lia.
    + apply says_name_agree; [|done]; intros; apply HP; lia.
  - intros [H ->]; split; [|done]; by apply (bytes_at_agree P m).
Qed.

Lemma says_name_range p e names : says_name P m p e names -> (p < e <= length m)%nat.
Proof. by intros (_ & _ & _ & _ & He%ends_at_range). Qed.

Lemma says_question_agree p e type klass names :
  (forall i, (p <= i < e)%nat -> P i) -> says_question P m p e type klass names ->
  says_question P' m' p e type klass names.
Proof.
  intros HP (q & Hn & Hb & ->); pose proof (says_name_range _ _ _ Hn).
  exists q; splits; [apply says_name_agree; auto; intros; apply HP; lia| |done].
  apply (bytes_at_agree P m); auto; intros i Hi; apply HP.
  rewrite length_app in Hi; unfold be_bytes in Hi; rewrite !length_reverse, !length_le_split in Hi; lia.
Qed.

Lemma says_resource_agree p e r :
  (forall i, (p <= i < e)%nat -> P i) -> says_resource P m p e r -> says_resource P' m' p e r.
Proof.
  intros HP (q & n & Hn & Hf & Hb & ->); pose proof (says_name_range _ _ _ Hn).
  exists q, n; splits; [apply says_name_agree; auto; intros; apply HP; lia| | |done].
  - apply (bytes_at_agree P m); auto; intros i Hi; apply HP.
    unfold record_fields in Hi; rewrite !length_app in Hi; unfold be_bytes in Hi.
    rewrite !length_reverse, !length_le_split in Hi; lia.
  - apply says_body_agree; [|done]; intros; apply HP; lia.
Qed.
End Agree.

Lemma length_be_bytes n v : length (be_bytes n v) = n.
Proof. unfold be_bytes; by rewrite length_reverse, length_le_split. Qed.
#[local] Hint Rewrite length_be_bytes : chip_len.

(** ** The data of a record is written *)

Lemma grow_trans P a b c i : (a <= b <= c)%nat -> grow P a b i -> grow P a c i.
Proof. unfold grow; intros ? [?|?]; [by left|right; lia]. Qed.

Lemma cache_ok_grow P a b out : cache_ok P out -> cache_ok (grow P a b) out.
Proof. apply Forall_impl; intros o; apply cached_mono; [apply grow_l|done]. Qed.

Lemma wrote_says_name P names out out' :
  wrote P names out out' -> RFit out' = true ->
  says_name (grow P (pos out) (pos out')) (buffer out') (pos out) (pos out') names.
Proof. by intros (d & _ & _ & H) Hfit; apply H. Qed.

Lemma write_entries_spec entries out :
  exists d out', write_entries entries out = (forallb (fun e => length e <=? 63)%nat entries && RFit out', out') /\
    rappended out d out' /\ (forallb (fun e => length e <=? 63)%nat entries = true -> d = txt_data entries).
Proof.
  revert out; induction entries as [|e entries IH]; intros out; cbn [write_entries forallb].
  { exists [], out; splits; auto using rappended_nil. }
  unfold kMaxTxtRecordLength; rewrite Nat.leb_antisym.
  destruct (Nat.ltb_spec 63 (length e)) as [|Hl]; cbn [negb andb].
  { exists [], out; splits; auto using rappended_nil; done. }
  change (PutString e _) with (put_label e out).
  destruct (IH (put_label e out)) as (d & out' & -> & A & Hd).
  eexists _, out'; splits; [done|eapply rappended_trans; [by apply put_label_appended|exact A]|].
  intros H; by rewrite (Hd H).
Qed.

Lemma appended_bytes out d out' :
  appended (mOutput out) d (mOutput out') -> RFit out' = true ->
  bytes_at (buffer out') (pos out) d /\ pos out' = (pos out + length d)%nat.
Proof. intros (E & _ & _ & H) Hf; split; [by apply H|done]. Qed.

Lemma appended_pos out d out' :
  appended (mOutput out) d (mOutput out') -> pos out' = (pos out + length d)%nat.
Proof. by intros (E & _). Qed.

Lemma says_name_mono (P P' : nat -> Prop) m p e names :
  (forall i, P i -> P' i) -> says_name P m p e names -> says_name P' m p e names.
Proof.
  intros HP (ls & Hn & ? & ? & ?); exists ls; splits; auto; by eapply name_at_mono.
Qed.

Lemma WriteData_spec P b out :
  body_ok b -> below P (pos out) -> cache_ok P out -> Z.of_nat (length (buffer out)) <= 16384 ->
  exists ok out' d, WriteData b out = Ok (ok, out') /\ appended (mOutput out) d (mOutput out') /\
    cache_ok (grow P (pos out) (pos out')) out' /\
    (ok = true -> RFit out' = true /\ says_body (grow P (pos out) (pos out')) (buffer out') (pos out) (pos out') b).
Proof.
  intros Hb HP Hc Hlen; destruct b as [ip|names|names port prio weight|entries]; cbn [WriteData].
  - change (if IsIPv6 ip then _ else _) with (address_bytes ip).
    pose proof (PutString_appended (address_bytes ip) out) as A; eexists _, _, _; splits; [done|apply A| |].
    + by eapply cache_ok_grow, rappended_cache.
    + intros Hfit; split; [done|]; cbn [says_body]; split; [by apply (rappended_bytes _ _ _ A)|].
      apply (rappended_pos _ _ _ A).
  - destruct (WriteQName_full_spec P names out) as (out' & -> & Hw); auto; cbn [rbind].
    destruct (Hw) as (d & A & Hc' & _); exists (RFit out'), out', d; splits; auto.
    intros Hfit; split; [done|]; by apply wrote_says_name.
  - destruct Hb as [Hn _]; set (out1 := Put16 port _).
    assert (rappended out (be_bytes 2 prio ++ be_bytes 2 weight ++ be_bytes 2 port) out1) as A.
    { do 2 (eapply rappended_trans; [apply Put16_appended|]); apply Put16_appended. }
    pose proof (rappended_pos _ _ _ A) as Ep; rewrite !length_app, !length_be_bytes in Ep.
    destruct (WriteQName_full_spec P names out1) as (out' & -> & Hw); auto; cbn [rbind].
    { intros i Hi; specialize (HP i Hi); lia. }
    { by eapply rappended_cache. }
    { by rewrite (rappended_length _ _ _ A). }
    destruct (Hw) as (d & B & Hc' & _); pose proof (appended_pos _ _ _ B) as Ep'.
    assert (forall i, grow P (pos out1) (pos out') i -> grow P (pos out) (pos out') i) as Hmono
      by (unfold grow; intros i [?|?]; [by left|right; lia]).
    exists (RFit out'), out', ((be_bytes 2 prio ++ be_bytes 2 weight ++ be_bytes 2 port) ++ d); splits; [done|..].
    + destruct A as [A _]; by eapply appended_trans.
    + eapply Forall_impl; [|exact Hc']; intros o; by apply cached_mono.
    + intros Hfit; split; [done|]; cbn [says_body]; split.
      * destruct (appended_bytes out _ out' (appended_trans _ _ _ _ _ (proj1 A) B) Hfit) as [Hbytes _].
        by apply bytes_at_app in Hbytes as [? _].
      * replace (pos out + 6)%nat with (pos out1) by lia.
        eapply says_name_mono; [exact Hmono|]; by apply wrote_says_name.
  - destruct (write_entries_spec entries out) as (d & out' & -> & A & Hd).
    do 3 eexists; splits; [done|apply A|by eapply cache_ok_grow, rappended_cache|].
    intros [Hall Hfit]%andb_true_iff; split; [done|]; cbn [says_body]; rewrite <-(Hd Hall).
    split; [by apply (rappended_bytes _ _ _ A)|apply (rappended_pos _ _ _ A)].
Qed.

(** ** An entry is written *)

Lemma bytes_at_unique m p a b : bytes_at m p a -> bytes_at m p b -> length a = length b -> a = b.
Proof.
  intros Ha Hb Hl; apply list_eq_same_length with (length a); [done|done|].
  intros i x y _ Ex Ey; apply Ha in Ex; apply Hb in Ey; congruence.
Qed.

(** The size field: two bytes change. *)
Lemma put_size_spec z v out :
  let out' := put_size z v out in
  pos out' = pos out /\ mPreviousQNames out' = mPreviousQNames out /\
  length (buffer out') = length (buffer out) /\
  (forall i, (i < z \/ z + 2 <= i)%nat -> buffer out' !! i = buffer out !! i) /\
  ((z + 2 <= length (buffer out))%nat -> bytes_at (buffer out') z (be_bytes 2 v)).
Proof.
  unfold put_size, pos, buffer, on_output; cbn [mOutput mPreviousQNames mNeeded wBuf].
  set (m := wBuf (mOutput out)).
  pose proof (BE_EndianPut_appended (MkWriter m z) v 2) as (En & El & Ek & Hb); cbn [wBuf mNeeded] in *.
  splits; [done|done|done| |].
  - intros i [Hi|Hi]; [by apply Ek|].
    rewrite (writer_skipped (MkWriter m z)), BE_EndianPut_log; unfold writer_of; cbn [wBuf mNeeded].
    rewrite overlay_app, overlay_none, length_replicate, overlay_some.
    change (reverse (le_split 2 v)) with (be_bytes 2 v); rewrite length_be_bytes, length_drop, drop_drop.
    destruct (decide (i < length m)%nat) as [Hl|Hl].
    + rewrite lookup_app_r by (rewrite length_take; lia); rewrite length_take, Nat.min_l by lia.
      rewrite take_ge by (rewrite length_be_bytes; lia).
      rewrite lookup_app_r, length_be_bytes, lookup_drop by (rewrite length_be_bytes; lia); f_equal; lia.
    + rewrite !lookup_ge_None_2; [done|lia|].
      rewrite !length_app, !length_take, length_be_bytes, length_drop; lia.
  - intros Hl; apply Hb; unfold Fit, Size; rewrite En, El, length_be_bytes; by apply Nat.leb_le.
Qed.

(** [out'] continues [out]: what was there stays. *)
Definition continues (out out' : RecordWriter) : Prop :=
  (pos out <= pos out')%nat /\ length (buffer out') = length (buffer out) /\
  forall i, (i < pos out)%nat -> buffer out' !! i = buffer out !! i.

Lemma appended_continues out d out' : appended (mOutput out) d (mOutput out') -> continues out out'.
Proof. intros (E & El & Ek & _); unfold continues; splits; [unfold pos; lia|done|done]. Qed.

Lemma continues_refl out : continues out out.
Proof. by unfold continues; splits. Qed.

Lemma continues_trans out out' out'' : continues out out' -> continues out' out'' -> continues out out''.
Proof.
  intros (? & El & Ek) (? & El' & Ek'); unfold continues; splits; [lia|by rewrite El'|].
  intros i Hi; rewrite Ek', Ek by lia; done.
Qed.

Lemma continues_fit out out' : continues out out' -> RFit out' = true -> RFit out = true.
Proof.
  intros (Hp & El & _) Hf%Nat.leb_le; apply Nat.leb_le; unfold Size, pos, buffer in *; lia.
Qed.

Lemma wrote_continues P names out out' : wrote P names out out' -> continues out out'.
Proof. intros (d & A & _); by eapply appended_continues. Qed.

Lemma write_question_spec P write_name names type klass unicast out :
  (exists out1, write_name out = Ok out1 /\ wrote P names out out1) -> below P (pos out) ->
  exists out', write_question write_name type klass unicast out = Ok out' /\ continues out out' /\
    cache_ok (grow P (pos out) (pos out')) out' /\
    (RFit out' = true -> says_question (grow P (pos out) (pos out')) (buffer out') (pos out) (pos out') type
       (Z.lor klass (if unicast then kQClassUnicastAnswerFlag else 0)) names).
Proof.
  intros (out1 & E & Hw) HP; unfold write_question; rewrite E; cbn [rbind].
  set (k := Z.lor _ _); eexists; split; [done|].
  pose proof (rappended_trans _ _ _ _ _ (Put16_appended type out1) (Put16_appended k _)) as A.
  set (out2 := Put16 k _) in *.
  pose proof (rappended_pos _ _ _ A) as Ep; rewrite length_app, !length_be_bytes in Ep.
  pose proof (wrote_continues _ _ _ _ Hw) as C; destruct (C) as [Hle _].
  pose proof (appended_continues _ _ _ (proj1 A)) as C2.
  assert (below (grow P (pos out) (pos out1)) (pos out1)) as HP1
    by (intros i [Hi|Hi]; [specialize (HP i Hi)|]; lia).
  assert (forall i, grow P (pos out) (pos out1) i -> grow P (pos out) (pos out2) i) as Hmono
    by (intros i; apply grow_trans; lia).
  splits; [by eapply continues_trans|..].
  - destruct (Hw) as (d & _ & Hc & _).
    pose proof (rappended_cache _ _ _ _ HP1 A Hc) as Hc2.
    eapply Forall_impl; [|exact Hc2]; intros o; by apply cached_mono.
  - intros Hfit; exists (pos out1); splits; [|by apply (rappended_bytes _ _ _ A)|lia].
    apply (says_name_agree (grow P (pos out) (pos out1)) _ (buffer out1)); [done| | |].
    + intros i b Hi; eapply rappended_keeps; eauto.
    + intros i Hi; right; lia.
    + apply wrote_says_name; [done|]; by eapply continues_fit.
Qed.

Lemma length_record_fields r : length (record_fields r) = 8%nat.
Proof. unfold record_fields; by rewrite !length_app, !length_be_bytes. Qed.

Lemma record_fields_put r out : rappended out (record_fields r) (Put32 (rrTtl r) (Put16 (GetClass r) (Put16 (rrType r) out))).
Proof.
  unfold record_fields; do 2 (eapply rappended_trans; [apply Put16_appended|]); apply Put32_appended.
Qed.

Lemma write_record_spec P r out :
  record_ok r -> below P (pos out) -> cache_ok P out -> Z.of_nat (length (buffer out)) <= 16384 ->
  exists ok out', write_record r out = Ok (ok, out') /\ continues out out' /\
    (ok = true -> RFit out' = true ->
       cache_ok (grow P (pos out) (pos out')) out' /\
       says_resource (grow P (pos out) (pos out')) (buffer out') (pos out) (pos out') r).
Proof.
  intros (_ & _ & Hn & Hb) HP Hc Hlen; unfold write_record.
  destruct (WriteQName_full_spec P (rrName r) out) as (out1 & -> & Hw); auto; cbn [rbind].
  pose proof (wrote_continues _ _ _ _ Hw) as C1; destruct (C1) as (Hp1 & El1 & _).
  pose proof (record_fields_put r out1) as A2; set (out2 := Put32 _ _) in *; cbv zeta.
  change (Needed (mOutput out2)) with (pos out2).
  pose proof (Put16_appended 0 out2) as A3; set (out3 := Put16 0 out2) in *.
  pose proof (rappended_trans _ _ _ _ _ A2 A3) as A13.
  pose proof (rappended_pos _ _ _ A2) as Ep2; rewrite length_record_fields in Ep2.
  pose proof (rappended_pos _ _ _ A3) as Ep3; rewrite length_be_bytes in Ep3.
  set (P1 := grow P (pos out) (pos out1)).
  assert (below P1 (pos out1)) as HP1 by (intros i [Hi|Hi]; [specialize (HP i Hi)|]; lia).
  assert (cache_ok P1 out1) as Hc1 by (by destruct Hw as (d & _ & ? & _)).
  destruct (WriteData_spec P1 (rrBody r) out3) as (ok & out4 & d & -> & A4 & Hc4 & Hbody); auto.
  { intros i Hi; specialize (HP1 i Hi); lia. }
  { by eapply rappended_cache. }
  { by rewrite (rappended_length _ _ _ A13), El1. }
  cbn [rbind]; pose proof (appended_continues _ _ _ A4) as C4; destruct (C4) as (Hp4 & El4 & Ek4).
  pose proof (continues_trans _ _ _ C1 (continues_trans _ _ _ (appended_continues _ _ _ (proj1 A13)) C4)) as C.
  destruct ok; cbn [negb]; [|do 2 eexists; splits; [done|done|done]].
  specialize (Hbody eq_refl) as [Hfit Hbody].
  change (Needed (mOutput out4)) with (pos out4).
  set (v := wrap 16 _); destruct (put_size_spec (pos out2) v out4) as (Ep5 & Ecache & El5 & Ek5 & Hv).
  set (out5 := put_size _ v out4) in *.
  do 2 eexists; split; [done|split].
  { destruct C as (? & El & Ek); unfold continues; splits; [lia|by rewrite El5, El|].
    intros i Hi; rewrite Ek5, Ek by lia; done. }
  intros _ Hfit5; rewrite Ep5.
  (* the bytes of [grow P1 ...] avoid the size field *)
  assert (forall i c, grow P1 (pos out3) (pos out4) i -> buffer out4 !! i = Some c -> buffer out5 !! i = Some c) as Hkeep.
  { intros i c Hi E; rewrite Ek5; [done|]; destruct Hi as [Hi|Hi]; [specialize (HP1 i Hi)|]; lia. }
  assert (forall i, grow P1 (pos out3) (pos out4) i -> grow P (pos out) (pos out4) i) as Hmono.
  { intros i [[Hi|Hi]|Hi]; [by left|right; lia..]. }
  split.
  { unfold cache_ok; rewrite Ecache; eapply Forall_impl; [|exact Hc4]; intros o; by apply cached_mono. }
  assert (RFit out3 = true) as Hfit3 by (by eapply continues_fit).
  exists (pos out1), (pos out4 - pos out3)%nat; splits.
  - apply (says_name_agree P1 _ (buffer out1)); [| | |].
    + intros i Hi; apply Hmono; by left.
    + intros i c Hi E; apply Hkeep; [by left|]; specialize (HP1 i Hi).
      rewrite Ek4 by lia; by eapply rappended_keeps.
    + intros i Hi; right; lia.
    + apply wrote_says_name; [done|]; eapply rappended_fit; eauto.
  - apply bytes_at_app; rewrite length_record_fields; split.
    + pose proof (rappended_bytes _ _ _ A2 (rappended_fit _ _ _ A3 Hfit3)) as Hf.
      intros i c E; pose proof (lookup_lt_Some _ _ _ E) as Hi; rewrite length_record_fields in Hi.
      rewrite Ek5, Ek4 by lia; apply (rappended_keeps _ _ _ _ _ A3); [lia|by apply Hf].
    + assert (v = Z.of_nat (pos out4 - pos out3)) as <-.
      { unfold v; rewrite wrap_small; [lia|].
        apply Nat.leb_le in Hfit; unfold Size in Hfit; fold (pos out4) (buffer out4) in Hfit.
        rewrite El4, (rappended_length _ _ _ A13), El1 in Hfit; unfold is_uint; lia. }
      rewrite <-Ep2; apply Hv.
      apply Nat.leb_le in Hfit; unfold Size in Hfit; fold (pos out4) (buffer out4) in Hfit; lia.
  - replace (pos out1 + 10)%nat with (pos out3) by lia.
    apply (says_body_agree (grow P1 (pos out3) (pos out4)) _ (buffer out4)); auto.
    intros i Hi; right; lia.
  - lia.
Qed.

(** ** The header *)

(** The six fields of a header, in order: message id, flags and the four counts. *)
Definition header (m : bytes) (f : nat -> Z) : Prop :=
  (kSizeBytes <= length m)%nat /\
  forall k, (k < 6)%nat -> is_uint 16 (f k) /\ bytes_at m (2 * k) (be_bytes 2 (f k)).

Definition set_field (f : nat -> Z) (k : nat) (v : Z) : nat -> Z := fun j => if (j =? k)%nat then v else f j.

Lemma be_value_bytes n v : 0 <= v < 2 ^ (8 * Z.of_nat n) -> be_value (be_bytes n v) = v.
Proof. intros; unfold be_value, be_bytes; rewrite reverse_involutive; by apply le_split_small. Qed.

Lemma be_bytes_value l : bytes_ok l -> be_bytes (length l) (be_value l) = l.
Proof.
  intros Hl; unfold be_bytes, be_value; rewrite <-length_reverse, le_split_combine by (by apply Forall_reverse).
  apply reverse_involutive.
Qed.

Lemma read_be_bytes m p n v :
  bytes_at m p (be_bytes n v) -> (p + n <= length m)%nat -> mem_read p n m = be_bytes n v.
Proof.
  intros Hb Hl; rewrite <-(length_be_bytes n v) at 1; apply bytes_at_read; by rewrite ?length_be_bytes.
Qed.

Lemma header_get m f k : header m f -> (k < 6)%nat -> Get16At m (2 * k) = Ok (f k).
Proof.
  unfold kSizeBytes; intros [Hl Hf] Hk; destruct (Hf k Hk) as [Hu Hb]; unfold Get16At.
  rewrite (proj2 (Nat.leb_le _ _)) by (unfold kSizeBytes in *; lia).
  rewrite (read_be_bytes m (2 * k) 2 (f k)) by (done || (unfold kSizeBytes in *; lia)).
  by rewrite be_value_bytes.
Qed.

Lemma header_set m f k v :
  header m f -> (k < 6)%nat -> is_uint 16 v ->
  exists m', Set16At m (2 * k) v = Ok m' /\ length m' = length m /\ header m' (set_field f k v) /\
    forall i, (kSizeBytes <= i)%nat -> m' !! i = m !! i.
Proof.
  intros [Hl Hf] Hk Hv; unfold Set16At, kSizeBytes in *.
  rewrite (proj2 (Nat.leb_le _ _)) by lia; eexists; split; [done|].
  assert (length (be_bytes 2 v) = 2%nat) as Eb by apply length_be_bytes.
  assert (forall i, (i < 2 * k \/ 2 * k + 2 <= i)%nat -> mem_write (2 * k) (be_bytes 2 v) m !! i = m !! i) as Hother.
  { intros i Hi; unfold mem_write; rewrite Eb; destruct Hi as [Hi|Hi].
    - rewrite lookup_app_l by (rewrite length_take; lia); by rewrite lookup_take_lt by done.
    - rewrite lookup_app_r by (rewrite length_take; lia); rewrite length_take, Nat.min_l by lia.
      rewrite lookup_app_r, Eb, lookup_drop by lia; f_equal; lia. }
  splits; [by rewrite length_mem_write by (rewrite Eb; lia)|split| ].
  - unfold kSizeBytes; rewrite length_mem_write; [lia|rewrite Eb; lia].
  - intros j Hj; unfold set_field; destruct (Nat.eqb_spec j k) as [->|Hne].
    + split; [done|]; rewrite <-(mem_read_write_same (2 * k) (be_bytes 2 v) m) at 2 by (rewrite Eb; lia).
      rewrite Eb; apply read_bytes_at.
    + destruct (Hf j Hj) as [Hu Hb]; split; [done|]; intros i c E.
      pose proof (lookup_lt_Some _ _ _ E) as Hi; rewrite length_be_bytes in Hi.
      rewrite Hother by lia; by apply Hb.
  - intros i Hi; apply Hother; lia.
Qed.

Lemma header_keep m m' f :
  header m f -> length m' = length m -> (forall i, (i < kSizeBytes)%nat -> m' !! i = m !! i) -> header m' f.
Proof.
  intros [Hl Hf] El Hk; split; [by rewrite El|]; intros k Hlt; destruct (Hf k Hlt) as [? Hb]; split; [done|].
  intros i c E; pose proof (lookup_lt_Some _ _ _ E) as Hi; rewrite length_be_bytes in Hi.
  rewrite Hk by (unfold kSizeBytes; lia); by apply Hb.
Qed.

(** [oBefore] empty: the header is in the buffer of the writer. *)
Lemma count_one_spec k f o :
  oBefore o = [] -> header (buffer (oWriter o)) f -> (k < 6)%nat ->
  exists out', count_one (2 * k) o = Ok (MkOutput [] out') /\
    pos out' = pos (oWriter o) /\ mPreviousQNames out' = mPreviousQNames (oWriter o) /\
    length (buffer out') = length (buffer (oWriter o)) /\
    header (buffer out') (set_field f k (wrap 16 (f k + 1))) /\
    forall i, (kSizeBytes <= i)%nat -> buffer out' !! i = buffer (oWriter o) !! i.
Proof.
  intros Eo Hh Hk; unfold count_one, block, with_block; rewrite Eo; cbn [app length take drop].
  fold (buffer (oWriter o)); rewrite (header_get _ f k) by done; cbn [rbind].
  destruct (header_set (buffer (oWriter o)) f k (wrap 16 (f k + 1)) Hh Hk) as (m' & -> & ? & ? & ?);
    [by apply wrap_range|]; cbn [rbind].
  eexists; split; [done|]; unfold pos, buffer; cbn [mOutput mNeeded wBuf mPreviousQNames]; by splits.
Qed.

(** ** Entries in a row *)
Section Tiles.
Context {A : Type}.

(** The entries of [l] one after the other from [p] to [e]. *)
Fixpoint tiles (says : nat -> nat -> A -> Prop) (p : nat) (l : list A) (e : nat) : Prop :=
  match l with
  | [] => p = e
  | a :: l => exists q, says p q a /\ tiles says q l e
  end.

Lemma tiles_snoc says p l e a e' : tiles says p l e -> says e e' a -> tiles says p (l ++ [a]) e'.
Proof.
  revert p; induction l as [|b l IH]; intros p; cbn [tiles app].
  - intros -> ?; by exists e'.
  - intros (q & ? & ?) ?; exists q; auto.
Qed.

Lemma tiles_range says p l e :
  (forall p q a, says p q a -> (p < q)%nat) -> tiles says p l e -> (p + length l <= e)%nat.
Proof.
  intros Hs; revert p; induction l as [|a l IH]; intros p; cbn [tiles length]; [lia|].
  intros (q & ?%Hs & ?%IH); lia.
Qed.

Lemma tiles_impl says says' p0 p l e e0 :
  (forall p q a, says p q a -> (p < q)%nat) ->
  (forall p q a, (p0 <= p)%nat -> (q <= e0)%nat -> says p q a -> says' p q a) ->
  (p0 <= p)%nat -> (e <= e0)%nat -> tiles says p l e -> tiles says' p l e.
Proof.
  intros Hlt Hs; revert p; induction l as [|a l IH]; intros p Hp He; cbn [tiles]; [done|].
  intros (q & H & Ht); pose proof (Hlt _ _ _ H); pose proof (tiles_range says q l e Hlt Ht).
  exists q; split; [apply Hs; auto; lia|apply IH; auto; lia].
Qed.
End Tiles.

(** A question as it is on the wire: type, class with the unicast flag, name. *)
Record Question := MkQuestion {
  quesType : Z;
  quesClass : Z;
  quesUnicast : bool;
  quesName : list bytes }.
Definition wire_class (klass : Z) (unicast : bool) : Z :=
  Z.lor klass (if unicast then kQClassUnicastAnswerFlag else 0).

Record Contents := MkContents {
  cQueries : list Question;
  cAnswers : list ResourceRecord;
  cAuthorities : list ResourceRecord;
  cAdditionals : list ResourceRecord }.
Definition no_contents : Contents := MkContents [] [] [] [].

Definition says_q (P : nat -> Prop) (m : bytes) (p e : nat) (q : Question) : Prop :=
  says_question P m p e (quesType q) (wire_class (quesClass q) (quesUnicast q)) (quesName q).

(** The body of a packet: its four sections. *)
Definition says_contents (P : nat -> Prop) (m : bytes) (c : Contents) (n : nat) : Prop :=
  exists p1 p2 p3,
    tiles (says_q P m) kSizeBytes (cQueries c) p1 /\ tiles (says_resource P m) p1 (cAnswers c) p2 /\
    tiles (says_resource P m) p2 (cAuthorities c) p3 /\ tiles (says_resource P m) p3 (cAdditionals c) n.

Lemma says_q_lt P m p e q : says_q P m p e q -> (p < e)%nat.
Proof. intros (x & Hn%says_name_range & _ & ->); lia. Qed.
Lemma says_resource_lt P m p e r : says_resource P m p e r -> (p < e)%nat.
Proof. intros (x & n & Hn%says_name_range & _ & _ & ->); lia. Qed.
#[local] Hint Resolve says_q_lt says_resource_lt : core.

Lemma says_contents_range P m c n :
  says_contents P m c n ->
  (kSizeBytes + length (cQueries c) + length (cAnswers c) + length (cAuthorities c) + length (cAdditionals c) <= n)%nat.
Proof.
  intros (p1 & p2 & p3 & H1 & H2 & H3 & H4).
  apply tiles_range in H1, H2, H3, H4; eauto; lia.
Qed.

Lemma says_contents_agree (P P' : nat -> Prop) m m' c n :
  (forall i, P i -> P' i) -> (forall i b, P i -> m !! i = Some b -> m' !! i = Some b) ->
  (forall i, body n i -> P i) -> says_contents P m c n -> says_contents P' m' c n.
Proof.
  intros HP Hk Hn (p1 & p2 & p3 & H1 & H2 & H3 & H4).
  pose proof (tiles_range _ _ _ _ (says_q_lt P m) H1); pose proof (tiles_range _ _ _ _ (says_resource_lt P m) H2);
    pose proof (tiles_range _ _ _ _ (says_resource_lt P m) H3); pose proof (tiles_range _ _ _ _ (says_resource_lt P m) H4).
  exists p1, p2, p3; splits;
    (eapply (tiles_impl _ _ kSizeBytes) with (e0 := n); [by eauto| |lia..|eassumption]);
    intros p q a ? ? Hs; [eapply says_question_agree|eapply says_resource_agree..]; eauto;
    intros i ?; apply Hn; unfold body; lia.
Qed.

(** An entry appended to its section, when later sections are empty. *)
Definition add_question (q : Question) (c : Contents) : Contents :=
  MkContents (cQueries c ++ [q]) (cAnswers c) (cAuthorities c) (cAdditionals c).
Definition add_record (t : ResourceType) (r : ResourceRecord) (c : Contents) : Contents :=
  match t with
  | kAnswer => MkContents (cQueries c) (cAnswers c ++ [r]) (cAuthorities c) (cAdditionals c)
  | kAuthority => MkContents (cQueries c) (cAnswers c) (cAuthorities c ++ [r]) (cAdditionals c)
  | kAdditional => MkContents (cQueries c) (cAnswers c) (cAuthorities c) (cAdditionals c ++ [r])
  end.

Lemma says_add_question P m c n q e :
  cAnswers c = [] -> cAuthorities c = [] -> cAdditionals c = [] ->
  says_contents P m c n -> says_q P m n e q -> says_contents P m (add_question q c) e.
Proof.
  intros E1 E2 E3 (p1 & p2 & p3 & H1 & H2 & H3 & H4) Hq; rewrite E1, E2, E3 in *; cbn [tiles] in *; subst.
  exists e, e, e; cbn; rewrite E1, E2, E3; splits; [by eapply tiles_snoc|done..].
Qed.

Lemma says_add_record P m c n t r e :
  (t = kAnswer -> cAuthorities c = []) -> (t <> kAdditional -> cAdditionals c = []) ->
  says_contents P m c n -> says_resource P m n e r -> says_contents P m (add_record t r c) e.
Proof.
  intros Ha Hd (p1 & p2 & p3 & H1 & H2 & H3 & H4) Hr; destruct t; cbn [add_record].
  - rewrite (Ha eq_refl) in H3; rewrite (Hd ltac:(done)) in H4; cbn [tiles] in *; subst.
    exists p1, e, e; cbn; rewrite (Ha eq_refl), (Hd ltac:(done)); splits; try done; by eapply tiles_snoc.
  - rewrite (Hd ltac:(done)) in H4; cbn [tiles] in *; subst.
    exists p1, p2, e; cbn; rewrite (Hd ltac:(done)); splits; try done; by eapply tiles_snoc.
  - exists p1, p2, p3; cbn; splits; try done; by eapply tiles_snoc.
Qed.

(** ** The response builder *)

(** Response and authoritative. *)
Definition kResponseFlags : Z := 0x8400.

Definition header_of (c : Contents) (k : nat) : Z :=
  match k with
  | 0%nat => 0
  | 1%nat => kResponseFlags
  | 2%nat => Z.of_nat (length (cQueries c))
  | 3%nat => Z.of_nat (length (cAnswers c))
  | 4%nat => Z.of_nat (length (cAuthorities c))
  | _ => Z.of_nat (length (cAdditionals c))
  end.

Lemma header_ext m f g : (forall k, (k < 6)%nat -> f k = g k) -> header m f -> header m g.
Proof. intros E [? H]; split; [done|]; intros k Hk; rewrite <-(E k Hk); auto. Qed.

(** The state of an output: [out] holds a packet with the contents [c]. *)
Definition output_says (c : Contents) (out : RecordWriter) : Prop :=
  (kSizeBytes <= pos out <= length (buffer out))%nat /\ Z.of_nat (length (buffer out)) <= 16384 /\
  cache_ok (body (pos out)) out /\ header (buffer out) (header_of c) /\
  says_contents (body (pos out)) (buffer out) c (pos out).

Lemma body_grow n n' i : (kSizeBytes <= n <= n')%nat -> grow (body n) n n' i <-> body n' i.
Proof. unfold grow, body; lia. Qed.

(** An entry was written behind the packet and counted. *)
Lemma output_commit c c' k out out' :
  output_says c out -> continues out out' -> RFit out' = true -> (k < 6)%nat ->
  cache_ok (grow (body (pos out)) (pos out) (pos out')) out' ->
  (forall k', (k' < 6)%nat -> header_of c' k' = set_field (header_of c) k (header_of c k + 1) k') ->
  (says_contents (body (pos out')) (buffer out') c (pos out) ->
   says_contents (body (pos out')) (buffer out') c' (pos out')) ->
  exists out'', count_one (2 * k) (MkOutput [] out') = Ok (MkOutput [] out'') /\
    pos out'' = pos out' /\ output_says c' out''.
Proof.
  intros ([H12 Hfit] & Hlen & _ & Hh & Hsays) (Hp & El & Ek) Hfit' Hk Hc Hhead Hcont.
  apply Nat.leb_le in Hfit'; unfold Size in Hfit'; fold (buffer out') (pos out') in Hfit'.
  assert (header (buffer out') (header_of c)) as Hh'.
  { eapply header_keep; eauto; intros; apply Ek; lia. }
  assert (says_contents (body (pos out')) (buffer out') c' (pos out')) as Hsays'.
  { apply Hcont; eapply says_contents_agree; [| |done|exact Hsays]; unfold body; [lia|].
    intros i b Hi E; rewrite Ek by lia; done. }
  pose proof (says_contents_range _ _ _ _ Hsays') as Hr.
  destruct (count_one_spec k (header_of c) (MkOutput [] out') eq_refl Hh' Hk)
    as (out'' & -> & Ep & Ec & El' & Hh'' & Ek''); cbn [oWriter] in *.
  exists out''; split; [done|split; [done|]]; unfold output_says; rewrite Ep, El'; splits; try lia.
  - unfold cache_ok; rewrite Ec; eapply Forall_impl; [|exact Hc]; intros o; apply cached_mono.
    + intros i; apply body_grow; lia.
    + intros i b Hi%body_grow E; [|lia]; fold (buffer out''); rewrite Ek''; [done|apply Hi].
  - eapply header_ext, Hh''; intros k' Hk'; rewrite (Hhead k' Hk').
    unfold set_field; destruct (k' =? k)%nat eqn:E; [|done].
    rewrite wrap_small; [done|].
    assert (header_of c' k = header_of c k + 1) as <-.
    { rewrite (Hhead k Hk); unfold set_field; by rewrite Nat.eqb_refl. }
    unfold is_uint; destruct k as [|[|[|[|[|k]]]]]; cbn [header_of]; unfold kResponseFlags; lia.
  - eapply says_contents_agree; [done| |done|exact Hsays'].
    intros i b Hi E; rewrite Ek''; [done|apply Hi].
Qed.

Lemma output_header c out (k : nat) :
  output_says c out -> (k < 6)%nat -> Get16At (block (MkOutput [] out)) (2 * k) = Ok (header_of c k).
Proof. intros (_ & _ & _ & Hh & _) Hk; unfold block; cbn [oBefore app oWriter]; by apply header_get. Qed.

Lemma below_body n : below (body n) n.
Proof. unfold below, body; lia. Qed.

Lemma count_zero {A} (l : list A) : Z.of_nat (length l) =? 0 = true <-> l = [].
Proof. rewrite Z.eqb_eq; destruct l; simpl; split; (done || lia). Qed.

(** A count of a section goes with an entry in it. *)
Lemma header_add_record c t r k :
  (k < 6)%nat ->
  header_of (add_record t r c) k =
    set_field (header_of c) (count_offset t / 2)
      (header_of c (count_offset t / 2) + 1) k.
Proof.
  intros Hk; destruct t; unfold set_field; cbn [count_offset].
  all: destruct k as [|[|[|[|[|[|k]]]]]]; try lia; cbn; rewrite ?length_app; cbn; lia.
Qed.

Lemma header_add_question c q k :
  header_of (add_question q c) k = set_field (header_of c) 2 (header_of c 2 + 1) k.
Proof. unfold set_field; destruct k as [|[|[|k]]]; cbn; rewrite ?length_app; cbn; lia || done. Qed.

Lemma count_offset_half t : (2 * (count_offset t / 2))%nat = count_offset t /\ (count_offset t / 2 < 6)%nat.
Proof. destruct t; (split; [done|]); apply Nat.ltb_lt; done. Qed.

(** [ResourceRecord::Append] and [QueryData::Append]. *)
Lemma ResourceRecord_Append_spec c t r out :
  output_says c out -> record_ok r ->
  exists ok out', ResourceRecord_Append r t (MkOutput [] out) = Ok (ok, MkOutput [] out') /\
    (ok = false -> continues out out') /\ (ok = true -> RFit out' = true /\ output_says (add_record t r c) out').
Proof.
  intros Hs Hr; unfold ResourceRecord_Append, GetAdditionalCount, GetAuthorityCount.
  change kAdditionalCountOffset with (2 * 5)%nat; change kAuthorityCountOffset with (2 * 4)%nat.
  rewrite !(output_header c) by (done || lia); cbn [rbind header_of].
  destruct (bool_decide (t = kAuthority) && _) eqn:G1; [by exists false, out; auto using continues_refl|].
  destruct (bool_decide (t = kAnswer) && _) eqn:G2; [by exists false, out; auto using continues_refl|].
  assert ((t = kAnswer -> cAuthorities c = []) /\ (t <> kAdditional -> cAdditionals c = [])) as [Ha Hd].
  { rewrite <-!count_zero; destruct t, (_ =? 0), (_ =? 0); split; done || intros; done. }
  pose proof Hs as ([H12 Hfit] & Hlen & Hc & Hh & Hsays); cbn [oWriter oBefore].
  destruct (write_record_spec (body (pos out)) r out) as (ok & out' & -> & C & Hok); auto using below_body.
  cbn [rbind]; destruct ok; cbn [negb]; [|by exists false, out'; auto].
  destruct (RFit out') eqn:Hf; [|by exists false, out'; auto].
  destruct (Hok eq_refl eq_refl) as [Hc' Hres]; destruct (count_offset_half t) as [E2 Hk].
  assert (forall i, grow (body (pos out)) (pos out) (pos out') i -> body (pos out') i) as Hgrow
    by (intros i; apply body_grow; destruct C; lia).
  destruct (output_commit c (add_record t r c) (count_offset t / 2) out out') as (out2 & E & Ep & Hs'); auto.
  - intros k' ?; by apply header_add_record.
  - intros Hold; eapply says_add_record; eauto.
    eapply says_resource_agree; [exact Hgrow|done| |exact Hres]; intros i ?; by right.
  - rewrite E2 in E; rewrite E; cbn [rbind]; exists true, out2; splits; [done|done|].
    intros _; split; [|done]; destruct Hs' as ([_ ?] & _); unfold RFit, Fit, Size; by apply Nat.leb_le.
Qed.

(** What [QueryData] a client may give to [AddQuery]. *)
Definition query_says (q : QueryData) (ls : list bytes) : Prop :=
  iter_wf (qdName q) /\ mIsValid (qdName q) = true /\ (exists Q, says Q (qdName q) ls) /\
  Forall label_ok ls /\ is_uint 16 (qdType q) /\ is_uint 15 (qdClass q).
Definition question_of (q : QueryData) (ls : list bytes) : Question :=
  MkQuestion (qdType q) (qdClass q) (mAnswerViaUnicast q) ls.

Lemma QueryData_Append_spec c q ls out :
  output_says c out -> query_says q ls ->
  exists ok out', QueryData_Append q (MkOutput [] out) = Ok (ok, MkOutput [] out') /\
    (ok = false -> continues out out') /\ (ok = true -> RFit out' = true /\ output_says (add_question (question_of q ls) c) out').
Proof.
  intros Hs (Hw & Hv & [Q Hq] & Hl & _ & _).
  unfold QueryData_Append, append_question, GetAdditionalCount, GetAuthorityCount, GetAnswerCount.
  change kAdditionalCountOffset with (2 * 5)%nat; change kAuthorityCountOffset with (2 * 4)%nat.
  change kAnswerCountOffset with (2 * 3)%nat; change kQueryCountOffset with (2 * 2)%nat.
  rewrite !(output_header c) by (done || lia); cbn [rbind header_of].
  destruct (_ || _ || _) eqn:G; [by exists false, out; auto using continues_refl|].
  apply orb_false_iff in G as [[G1%negb_false_iff%count_zero G2%negb_false_iff%count_zero]%orb_false_iff
    G3%negb_false_iff%count_zero].
  pose proof Hs as ([H12 Hfit] & Hlen & Hc & Hh & Hsays); cbn [oWriter oBefore].
  destruct (write_question_spec (body (pos out)) (WriteQName_iterator (qdName q)) ls (qdType q) (qdClass q)
    (mAnswerViaUnicast q) out) as (out' & -> & C & Hc' & Hok).
  { eapply WriteQName_iterator_spec; eauto using below_body. }
  { apply below_body. }
  cbn [rbind]; destruct (RFit out') eqn:Hf; cbn [negb]; [|by exists false, out'; auto].
  specialize (Hok eq_refl).
  assert (forall i, grow (body (pos out)) (pos out) (pos out') i -> body (pos out') i) as Hgrow
    by (intros i; apply body_grow; destruct C; lia).
  destruct (output_commit c (add_question (question_of q ls) c) 2 out out') as (out2 & E & Ep & Hs'); auto with lia.
  - intros k' ?; by apply header_add_question.
  - intros Hold; eapply says_add_question; eauto.
    eapply says_question_agree; [exact Hgrow|done| |exact Hok]; intros i ?; by right.
  - rewrite E; cbn [rbind]; exists true, out2; splits; [done|done|].
    intros _; split; [|done]; destruct Hs' as ([_ ?] & _); unfold RFit, Fit, Size; by apply Nat.leb_le.
Qed.

(** ** Parsing it back *)

(** The name an iterator reads, up to letter case. *)
Definition same_name (it : SerializedQNameIterator) (names : list bytes) : Prop :=
  exists ls it', labels it = Ok (ls, it') /\ mIsValid it' = true /\ folded ls = folded names.

(** What a parser is told of an entry of a packet. *)
Definition reports_question (m : bytes) (q : Question) (ev : ParserEvent) : Prop :=
  match ev with
  | OnQuery d => qdType d = quesType q /\ qdClass d = quesClass q /\ mAnswerViaUnicast d = quesUnicast q /\
      same_name (qdName d) (quesName q)
  | _ => False
  end.

Definition reports_body (m : bytes) (data : BytesRange) (b : RecordBody) : Prop :=
  match b with
  | IPBody ip =>
      (IsIPv6 ip = true -> ParseAAAARecord m data = Ok (Some ip)) /\
      (IsIPv4 ip = true -> ParseARecord m true data = Ok (Some ip))
  | PtrBody names => exists it, ParsePtrRecord m (length m) data = Some it /\ same_name it names
  | SrvBody names port priority weight => exists srv, SrvRecord_Parse m (length m) data = Ok (Some srv) /\
      mPriority srv = priority /\ mWeight srv = weight /\ mPort srv = port /\ same_name (mName srv) names
  | TxtBody entries => exists rs, ParseTxtRecord m data = Ok (rs, true) /\
      record_bytes m <$> rs = (fun s => (txt_key s, txt_value s)) <$> entries
  end.

Definition reports_record (m : bytes) (t : ResourceType) (r : ResourceRecord) (ev : ParserEvent) : Prop :=
  match ev with
  | OnResource t' d => t' = t /\ rdType d = rrType r /\ rdClass d = GetClass r /\ mTtl d = rrTtl r /\
      same_name (rdName d) (rrName r) /\ reports_body m (mData d) (rrBody r)
  | _ => False
  end.

Definition question_ok (q : Question) : Prop := is_uint 16 (quesType q) /\ is_uint 15 (quesClass q).

Lemma wire_class_split klass unicast :
  is_uint 15 klass ->
  is_uint 16 (wire_class klass unicast) /\
  Z.land (wire_class klass unicast) (Z.lnot kQClassUnicastAnswerFlag) = klass /\
  negb (Z.land (wire_class klass unicast) kQClassUnicastAnswerFlag =? 0) = unicast.
Proof.
  intros Hk; unfold wire_class, kQClassUnicastAnswerFlag.
  assert (forall i, 15 <= i -> Z.testbit klass i = false) as Hhigh.
  { intros i Hi; rewrite <-(Z.mod_small klass (2 ^ 15)) by done; by apply Z.mod_pow2_bits_high. }
  assert (Z.land klass 0x8000 = 0) as E0.
  { change 0x8000 with (2 ^ 15); apply Z.bits_inj'; intros i Hi; rewrite Z.land_spec, Z.pow2_bits_eqb, Z.bits_0 by lia.
    destruct (Z.eqb_spec 15 i) as [<-|]; [by rewrite Hhigh|apply andb_false_r]. }
  assert (Z.land klass (Z.lnot 0x8000) = klass) as E1.
  { apply Z.bits_inj'; intros i Hi; change 0x8000 with (2 ^ 15).
    rewrite Z.land_spec, Z.lnot_spec, Z.pow2_bits_eqb by lia.
    destruct (Z.eqb_spec 15 i) as [<-|]; cbn [negb]; [by rewrite Hhigh|apply andb_true_r]. }
  destruct unicast.
  - rewrite !Z.land_lor_distr_l, E0, E1; splits; [|apply Z.lor_0_r|done].
    rewrite (lor_disjoint klass 0x8000 15) by (done || lia); unfold is_uint in *; lia.
  - rewrite !Z.lor_0_r, E0, E1; splits; [unfold is_uint in *; lia|done|done].
Qed.

Section Parse.
Context (P : nat -> Prop) (m : bytes).

Lemma Read_be_at n p v :
  bytes_at m p (be_bytes n v) -> (p + n <= length m)%nat -> 0 <= v < 2 ^ (8 * Z.of_nat n) ->
  Read_be m n p = Ok (v, (p + n)%nat).
Proof.
  intros Hb Hl Hv; unfold Read_be; rewrite (proj2 (Nat.leb_le _ _) Hl).
  by rewrite (read_be_bytes m p n v), be_value_bytes.
Qed.

Lemma view_all p : view (iterator_at m (length m) p) = m.
Proof. unfold view, iterator_at; cbn; apply firstn_all. Qed.

Lemma says_name_reads p e names :
  says_name P m p e names ->
  same_name (iterator_at m (length m) p) names /\ FindDataEnd (iterator_at m (length m) p) = Ok (Some e).
Proof.
  intros (ls & Hn & Hf & Hnul & He); split.
  - destruct (says_labels P (iterator_at m (length m) p) ls) as (it' & E & V); auto.
    + by split.
    + unfold says; by rewrite view_all.
    + by exists ls, it'.
  - apply FindDataEnd_name; [done|by rewrite view_all].
Qed.

Lemma in_packet_below p : (p < length m)%nat -> in_packet (length m) p = true.
Proof. apply Nat.ltb_lt. Qed.

Lemma QueryData_Parse_says q0 q p e :
  question_ok q -> says_q P m p e q -> (e <= length m)%nat ->
  exists d, QueryData_Parse m (length m) q0 p = Ok (Some (d, e)) /\ reports_question m q (OnQuery d).
Proof.
  intros [Ht Hk] (x & Hname & [Hb1 Hb2]%bytes_at_app & ->) He; rewrite length_be_bytes in Hb2.
  destruct (wire_class_split (quesClass q) (quesUnicast q) Hk) as (Hw & E1 & E2).
  pose proof (says_name_range _ _ _ _ _ Hname) as Hr; destruct (says_name_reads p x _ Hname) as [Hsame Hend].
  unfold QueryData_Parse; rewrite in_packet_below by lia; cbn [negb]; rewrite Hend; cbn [rbind].
  rewrite in_packet_below by lia; cbn [negb].
  rewrite (Read_be_at 2 x _ Hb1) by (done || lia); cbn [rbind].
  rewrite (Read_be_at 2 _ _ Hb2) by (done || lia); cbn [rbind].
  rewrite E1, E2, <-Nat.add_assoc; eexists; split; [done|]; cbn; by splits.
Qed.

Lemma range_at a n : range a (a + n) = MkRange a (a + n).
Proof. unfold range; by rewrite (proj2 (Nat.ltb_ge _ _)) by lia. Qed.

Lemma reports_body_says a n b :
  body_ok b -> says_body P m a (a + n) b -> (a + n <= length m)%nat -> reports_body m (range a (a + n)) b.
Proof.
  intros Hok Hb Hl; rewrite range_at; destruct b as [ip|names|names port prio weight|entries]; cbn [says_body reports_body] in *.
  - destruct Hok as [H16 Hbytes], Hb as [Hb En]; unfold address_bytes in *; split; intros Hip.
    + rewrite Hip, take_ge in * by lia; unfold ParseAAAARecord, Range_Size; cbn [rStart rEnd].
      replace (a + n - a)%nat with 16%nat by lia; cbn [Nat.eqb negb].
      rewrite (proj2 (Nat.leb_le _ _)) by lia; rewrite <-H16, bytes_at_read by (auto; lia); done.
    + assert (IsIPv6 ip = false) as E6 by (unfold IsIPv6; by rewrite Hip, andb_false_r).
      rewrite E6 in *; rewrite length_take, length_drop, H16 in En.
      unfold ParseARecord, Range_Size; cbn [rStart rEnd]; replace (a + n - a)%nat with 4%nat by lia; cbn [Nat.eqb negb].
      unfold Read_be; rewrite (proj2 (Nat.leb_le _ _)) by lia; cbn [rbind].
      assert (length (take 4 (drop 12 ip)) = 4%nat) as E4 by (rewrite length_take, length_drop; lia).
      pose proof (bytes_at_read m a _ Hb) as Er; rewrite E4 in Er; rewrite Er by lia.
      pose proof (be_bytes_value (take 4 (drop 12 ip))) as Ev; rewrite E4 in Ev.
      rewrite Ev by (by apply Forall_take, Forall_drop).
      apply bool_decide_eq_true in Hip; rewrite app_assoc, <-Hip, (take_ge (drop 12 ip)) by (rewrite length_drop; lia).
      by rewrite take_drop.
  - pose proof (says_name_range _ _ _ _ _ Hb); unfold ParsePtrRecord, Range_Size; cbn [rStart rEnd].
    rewrite (proj2 (Nat.ltb_ge _ _)) by lia; eexists; split; [done|]; by apply (says_name_reads _ _ _ Hb).
  - destruct Hb as [Hb Hname], Hok as (_ & Hport & Hprio & Hweight).
    pose proof (says_name_range _ _ _ _ _ Hname) as Hr; unfold SrvRecord_Parse, Range_Size; cbn [rStart rEnd].
    rewrite (proj2 (Nat.ltb_ge _ _)) by lia.
    apply bytes_at_app in Hb as [Hb1 [Hb2 Hb3]%bytes_at_app]; rewrite !length_be_bytes in *.
    rewrite (Read_be_at 2 a _ Hb1) by (done || lia); cbn [rbind].
    rewrite (Read_be_at 2 _ _ Hb2) by (done || lia); cbn [rbind].
    rewrite (Read_be_at 2 _ _ Hb3) by (done || lia); cbn [rbind].
    eexists; split; [done|]; cbn [mPriority mWeight mPort mName]; splits; [done..|].
    replace (a + 2 + 2 + 2)%nat with (a + 6)%nat by lia; by apply (says_name_reads _ _ _ Hname).
  - destruct Hb as [Hb En]; assert (n = length (txt_data entries)) as -> by lia.
    rewrite <-range_at; by apply ParseTxtRecord_spec.
Qed.

Lemma ResourceData_Parse_says t r p e :
  record_ok r -> says_resource P m p e r -> (e <= length m)%nat -> Z.of_nat (length m) < 65536 ->
  exists d, ResourceData_Parse m (length m) p = Ok (Some (d, e)) /\ reports_record m t r (OnResource t d).
Proof.
  intros (Ht & Httl & _ & Hok) (x & n & Hname & Hb & Hbody & ->) He Hm.
  pose proof (says_name_range _ _ _ _ _ Hname) as Hr; destruct (says_name_reads p x _ Hname) as [Hsame Hend].
  unfold record_fields in Hb; rewrite <-!app_assoc in Hb.
  apply bytes_at_app in Hb as [H1 [H2 [H3 H4]%bytes_at_app]%bytes_at_app]; rewrite !length_be_bytes in *.
  assert (is_uint 16 (GetClass r)) by (unfold GetClass; by destruct (mCacheFlush r)).
  unfold ResourceData_Parse; rewrite in_packet_below by lia; cbn [negb]; rewrite Hend; cbn [rbind].
  rewrite in_packet_below by lia; cbn [negb].
  rewrite (Read_be_at 2 x _ H1) by (done || lia); cbn [rbind].
  rewrite (Read_be_at 2 _ _ H2) by (done || lia); cbn [rbind].
  rewrite (Read_be_at 4 _ _ H3) by (done || lia); cbn [rbind].
  rewrite (Read_be_at 2 _ _ H4) by (done || lia); cbn [rbind]; cbv zeta.
  rewrite Nat2Z.id; replace (x + 2 + 2 + 4 + 2)%nat with (x + 10)%nat by lia.
  rewrite in_packet_below by lia; cbn [negb]; eexists; split; [done|].
  cbn; splits; try done; by apply reports_body_says.
Qed.

Lemma parse_queries_says q0 l p e :
  Forall question_ok l -> tiles (says_q P m) p l e -> (e <= length m)%nat ->
  exists evs, parse_queries m (length m) (length l) q0 p = Ok (evs, Some e) /\ Forall2 (reports_question m) l evs.
Proof.
  intros Hl; revert q0 p; induction Hl as [|q l Hq Hl IH]; intros q0 p; cbn [tiles length parse_queries].
  { intros -> _; eauto. }
  intros (x & Hx & Ht) He; pose proof (tiles_range _ _ _ _ (says_q_lt P m) Ht).
  destruct (QueryData_Parse_says q0 q p x Hq Hx) as (d & -> & Hd); [lia|]; cbn [rbind].
  destruct (IH d x Ht He) as (evs & -> & Hevs); cbn [rbind]; eauto.
Qed.

Lemma parse_resources_says t l p e :
  Forall record_ok l -> tiles (says_resource P m) p l e -> (e <= length m)%nat -> Z.of_nat (length m) < 65536 ->
  exists evs, parse_resources m (length m) t (length l) p = Ok (evs, Some e) /\
    Forall2 (reports_record m t) l evs.
Proof.
  intros Hl He0 He Hm; revert p He0; induction Hl as [|r l Hr Hl IH]; intros p; cbn [tiles length parse_resources].
  { intros ->; eauto. }
  intros (x & Hx & Ht); pose proof (tiles_range _ _ _ _ (says_resource_lt P m) Ht).
  destruct (ResourceData_Parse_says t r p x Hr Hx) as (d & -> & Hd); [lia|done|]; cbn [rbind].
  destruct (IH x Ht) as (evs & -> & Hevs); cbn [rbind]; eauto.
Qed.

Lemma ParsePacket_says c :
  header m (header_of c) -> says_contents P m c (length m) -> Z.of_nat (length m) < 65536 ->
  Forall question_ok (cQueries c) ->
  Forall record_ok (cAnswers c) -> Forall record_ok (cAuthorities c) -> Forall record_ok (cAdditionals c) ->
  (length (cQueries c) <= 256)%nat -> (length (cAnswers c) <= 256)%nat ->
  (length (cAuthorities c) <= 256)%nat -> (length (cAdditionals c) <= 256)%nat ->
  exists qs an au ad,
    ParsePacket m (length m) = Ok (OnHeader (mem_read 0 kSizeBytes m) :: qs ++ an ++ au ++ ad, true) /\
    Forall2 (reports_question m) (cQueries c) qs /\ Forall2 (reports_record m kAnswer) (cAnswers c) an /\
    Forall2 (reports_record m kAuthority) (cAuthorities c) au /\
    Forall2 (reports_record m kAdditional) (cAdditionals c) ad.
Proof.
  intros Hh (p1 & p2 & p3 & T1 & T2 & T3 & T4) Hm Hq Han Hau Had L1 L2 L3 L4.
  pose proof (tiles_range _ _ _ _ (says_q_lt P m) T1); pose proof (tiles_range _ _ _ _ (says_resource_lt P m) T2);
    pose proof (tiles_range _ _ _ _ (says_resource_lt P m) T3); pose proof (tiles_range _ _ _ _ (says_resource_lt P m) T4).
  unfold ParsePacket, GetFlags, GetQueryCount, GetAnswerCount, GetAuthorityCount, GetAdditionalCount.
  destruct (Hh) as [H12 _]; rewrite (proj2 (Nat.ltb_ge _ _) H12).
  change kFlagsOffset with (2 * 1)%nat; change kQueryCountOffset with (2 * 2)%nat.
  change kAnswerCountOffset with (2 * 3)%nat; change kAuthorityCountOffset with (2 * 4)%nat.
  change kAdditionalCountOffset with (2 * 5)%nat.
  rewrite !(header_get m _ _ Hh) by lia; cbn [rbind header_of].
  change (BitPackedFlags.IsValidMdns kResponseFlags) with true; cbn [negb].
  rewrite !(proj2 (Z.ltb_ge kMaxRecordCount _)) by (unfold kMaxRecordCount; lia); cbn [orb].
  rewrite !Nat2Z.id; unfold and_then.
  destruct (parse_queries_says QueryData_init _ _ _ Hq T1) as (qs & -> & ?); [lia|]; cbn [rbind].
  destruct (parse_resources_says kAnswer _ _ _ Han T2) as (an & -> & ?); [lia|lia|]; cbn [rbind].
  destruct (parse_resources_says kAuthority _ _ _ Hau T3) as (au & -> & ?); [lia|lia|]; cbn [rbind].
  destruct (parse_resources_says kAdditional _ _ _ Had T4) as (ad & -> & ?); [lia|lia|]; cbn [rbind].
  by exists qs, an, au, ad.
Qed.
End Parse.

Module Response.
Import ResponseBuilder.

(** The entries a client adds, in order. *)
Inductive Entry :=
| AnEntry (type : ResourceType) (record : ResourceRecord)
| AQuery (query : QueryData) (name : list bytes).

Definition entry_ok (e : Entry) : Prop :=
  match e with AnEntry _ r => record_ok r | AQuery q ls => query_says q ls end.
Definition add_entry (e : Entry) (c : Contents) : Contents :=
  match e with AnEntry t r => add_record t r c | AQuery q ls => add_question (question_of q ls) c end.
Definition add (b : ResponseBuilder) (e : Entry) : result ResponseBuilder :=
  match e with AnEntry t r => AddRecord b t r | AQuery q _ => AddQuery b q end.
Fixpoint add_all (b : ResponseBuilder) (es : list Entry) : result ResponseBuilder :=
  match es with
  | [] => Ok b
  | e :: es => let* b := add b e in add_all b es
  end.
Definition contents (es : list Entry) (c : Contents) : Contents := foldl (fun c e => add_entry e c) c es.

(** The data of a packet has the contents [c]. *)
Definition packet_says (c : Contents) (packet : Packet) : Prop :=
  let n := pDataLength packet in let m := pBlock packet in
  (kSizeBytes <= n <= length m)%nat /\ Z.of_nat (length m) <= 16384 /\
  header m (header_of c) /\ says_contents (body n) m c n.

(** The packet of a builder has the contents [c]; while the builder is [Ok] its writer
    is at the end of them. *)
Definition builder_says (c : Contents) (b : ResponseBuilder) : Prop :=
  exists packet, mPacket b = Some packet /\ packet_says c packet /\
    (mBuildOk b = true -> pDataLength packet = mEndianOutput b /\ output_says c (oWriter (output b packet))).

Lemma continues_packet_says c out out' :
  output_says c out -> continues out out' -> packet_says c (MkPacket (buffer out') (pos out)).
Proof.
  intros ([H12 Hle] & Hlen & _ & Hh & Hs) (_ & El & Ek); unfold packet_says; cbn [pDataLength pBlock].
  rewrite El; splits; auto.
  - eapply header_keep; eauto; intros; apply Ek; lia.
  - eapply says_contents_agree; [done| |done|exact Hs].
    intros i x Hi E; rewrite Ek; [done|apply Hi].
Qed.

Lemma append_spec c c' must_fit entry b :
  builder_says c b -> mBuildOk b = true ->
  (forall out, output_says c out -> exists ok out', entry (MkOutput [] out) = Ok (ok, MkOutput [] out') /\
    (ok = false -> continues out out') /\ (ok = true -> RFit out' = true /\ output_says c' out')) ->
  exists b', append must_fit entry b = Ok b' /\ builder_says (if mBuildOk b' then c' else c) b'.
Proof.
  intros (packet & Ep & Hpk & Hb') Hb He; unfold append; rewrite Hb, Ep; cbn [negb].
  destruct (Hb' Hb) as [En Hs]; destruct (He _ Hs) as (ok & out' & E & Hno & Hok).
  change (MkOutput [] (oWriter (output b packet))) with (output b packet) in E; rewrite E; cbn [rbind]; cbv zeta.
  destruct ok; cbn [negb].
  - destruct (Hok eq_refl) as [Hf Hs']; cbn [oWriter]; rewrite Hf, andb_false_r.
    eexists; split; [done|]; cbn [after mBuildOk]; pose proof Hs' as ([H12 Hle] & Hlen & _ & Hh & Hc).
    rewrite wrap_small, Nat2Z.id by (unfold pos in *; unfold is_uint; unfold Needed; lia).
    unfold block; cbn [oWriter oBefore app]; fold (buffer out'); change (Needed (mOutput out')) with (pos out').
    eexists; split; [done|]; unfold SetDataLength, packet_says; cbn [pDataLength pBlock].
    rewrite Nat.min_l by done; split; [by splits|]; intros _; split; [done|].
    unfold output, after; cbn [oWriter mEndianOutput mWriter pBlock SetDataLength].
    by destruct out' as [[m n] prev].
  - eexists; split; [done|]; cbn [after mBuildOk]; eexists; split; [done|]; split; [|done].
    pose proof (continues_packet_says _ _ _ Hs (Hno eq_refl)) as Hp.
    unfold block; cbn [oWriter oBefore app]; by rewrite En.
Qed.

Lemma add_spec c b e :
  builder_says c b -> mBuildOk b = true -> entry_ok e ->
  exists b', add b e = Ok b' /\ builder_says (if mBuildOk b' then add_entry e c else c) b'.
Proof.
  intros Hs Hb He; destruct e as [t r|q ls]; eapply append_spec; eauto; intros out Hout.
  - by apply ResourceRecord_Append_spec.
  - by apply QueryData_Append_spec.
Qed.

Lemma add_not_ok b e : mBuildOk b = false -> add b e = Ok b.
Proof. intros Hb; destruct e; cbn [add]; unfold AddRecord, AddQuery, append; by rewrite Hb. Qed.

Lemma add_all_not_ok b es : mBuildOk b = false -> add_all b es = Ok b.
Proof. intros Hb; induction es; cbn [add_all]; [done|]; by rewrite add_not_ok. Qed.

(** A prefix of the entries is accepted, all of them while the builder is [Ok]. *)
Lemma add_all_spec c b es :
  builder_says c b -> mBuildOk b = true -> Forall entry_ok es ->
  exists b' k, add_all b es = Ok b' /\ (k <= length es)%nat /\ builder_says (contents (take k es) c) b' /\
    (mBuildOk b' = true -> k = length es).
Proof.
  intros Hs Hb Hes; revert c b Hs Hb; induction Hes as [|e es He Hes IH]; intros c b Hs Hb; cbn [add_all].
  { exists b, 0%nat; by splits. }
  destruct (add_spec c b e Hs Hb He) as (b1 & -> & H1); cbn [rbind].
  destruct (mBuildOk b1) eqn:Hb1.
  - destruct (IH _ b1 H1 Hb1) as (b' & k & -> & ? & ? & Hk).
    exists b', (S k); splits; auto; [simpl; lia|]; intros Hok; simpl; by rewrite (Hk Hok).
  - rewrite add_all_not_ok by done; exists b1, 0%nat; splits; auto; [lia|congruence].
Qed.

(** [Reset] on a packet with room for the header. *)
Lemma Reset_spec b packet :
  (pDataLength packet + kSizeBytes <= length (pBlock packet))%nat -> Z.of_nat (length (pBlock packet)) <= 16384 ->
  exists b', Reset b packet = Ok b' /\ mBuildOk b' = true /\ builder_says no_contents b'.
Proof.
  intros Hroom Hlen; unfold Reset, start_packet, AvailableDataLength.
  assert (kSizeBytes <=? length (pBlock packet) - pDataLength packet = true)%nat as -> by (apply Nat.leb_le; lia).
  unfold Header_Clear; cbn [SetDataLength pBlock pDataLength].
  assert (kSizeBytes <=? length (pBlock packet) = true)%nat as -> by (apply Nat.leb_le; lia).
  cbn [rbind pBlock pDataLength]; set (m := mem_write 0 _ _).
  assert (length m = length (pBlock packet)) as El by (apply length_mem_write; rewrite length_replicate; lia).
  assert (header m (fun _ => 0)) as Hh.
  { split; [lia|]; intros k Hk; split; [by unfold is_uint|]; intros i x E.
    pose proof (lookup_lt_Some _ _ _ E) as Hi; rewrite length_be_bytes in Hi.
    unfold m; rewrite mem_write_start, lookup_app_l by (rewrite length_replicate; unfold kSizeBytes; lia).
    rewrite lookup_replicate_2 by (unfold kSizeBytes; lia).
    destruct i as [|[|i]]; [done|done|lia]. }
  unfold GetFlags, SetFlags; change kFlagsOffset with (2 * 1)%nat.
  rewrite (header_get m (fun _ => 0)) by (done || lia); cbn [rbind].
  change (BitPackedFlags.RawValue _) with kResponseFlags.
  destruct (header_set m (fun _ => 0) 1 kResponseFlags Hh) as (m' & -> & El' & Hh' & _); [lia|by unfold is_uint|].
  cbn [rbind]; eexists; split; [done|split; [done|]].
  assert (Nat.min kSizeBytes (length (pBlock packet)) = kSizeBytes) as -> by lia.
  assert (header m' (header_of no_contents)) as Hh2
    by (eapply header_ext, Hh'; intros [|[|[|[|[|k]]]]] _; done).
  assert (says_contents (body kSizeBytes) m' no_contents kSizeBytes) as Hc
    by (exists kSizeBytes, kSizeBytes, kSizeBytes; by cbn).
  eexists; split; [done|split].
  - unfold packet_says; cbn [pDataLength pBlock]; rewrite El', El; splits; auto; lia.
  - intros _; split; [done|].
    unfold output_says, output, pos, buffer; cbn [oWriter mOutput mNeeded wBuf mEndianOutput mWriter pBlock pDataLength].
    rewrite El', El; splits; auto; try lia.
    apply (cache_ok_new _ (MkWriter m' 12)).
Qed.

(** The entries of one section, in order. *)
Definition questions (es : list Entry) : list Question :=
  omap (fun e => match e with AQuery q ls => Some (question_of q ls) | _ => None end) es.
Definition records (t : ResourceType) (es : list Entry) : list ResourceRecord :=
  omap (fun e => match e with
                 | AnEntry t' r => if bool_decide (t' = t) then Some r else None
                 | _ => None
                 end) es.

Lemma contents_sections es c :
  contents es c =
    MkContents (cQueries c ++ questions es) (cAnswers c ++ records kAnswer es)
      (cAuthorities c ++ records kAuthority es) (cAdditionals c ++ records kAdditional es).
Proof.
  revert c; induction es as [|e es IH]; intros c; cbn [contents foldl].
  - by destruct c; cbn; rewrite !app_nil_r.
  - change (foldl _ _ es) with (contents es (add_entry e c)); rewrite IH.
    destruct e as [[] r|q ls]; cbn; by rewrite <-?app_assoc.
Qed.

Lemma questions_ok es : Forall entry_ok es -> Forall question_ok (questions es).
Proof.
  induction 1 as [|[|q ls] es He _ IH]; [constructor|exact IH|].
  constructor; [|exact IH]; by destruct He as (_ & _ & _ & _ & ? & ?).
Qed.

Lemma records_ok t es : Forall entry_ok es -> Forall record_ok (records t es).
Proof.
  induction 1 as [|[t' r|q ls] es He _ IH]; [constructor| |exact IH].
  unfold records; csimpl; case_bool_decide; [by constructor|exact IH].
Qed.

Lemma section_lengths es t : (length (questions es) <= length es)%nat /\ (length (records t es) <= length es)%nat.
Proof.
  unfold questions, records; induction es as [|[t' r|q ls] es [IH1 IH2]]; csimpl; [lia|..];
    try case_bool_decide; csimpl; lia.
Qed.

Lemma header_take m f n : header m f -> (kSizeBytes <= n)%nat -> header (take n m) f.
Proof.
  intros [Hl Hf] Hn; split; [rewrite length_take; lia|]; intros k Hk.
  destruct (Hf k Hk) as [? Hb]; split; [done|]; intros i c E.
  pose proof (lookup_lt_Some _ _ _ E) as Hi; rewrite length_be_bytes in Hi; unfold kSizeBytes in *.
  rewrite lookup_take_lt by lia; by apply Hb.
Qed.

(** C3: What a [ResponseBuilder] sends, [ParsePacket] reports.  A builder reset on any
    packet buffer with room for a header (and at most 16384 bytes, so that a pointer can
    reach every offset) accepts entries up to some point: all of them as long as it is
    [Ok].  Nothing it does leaves the buffer or fails an assertion, and the packet it
    releases, also after an entry that did not fit or came too late for its section,
    parses with success into a response header and one event for each accepted entry, in
    the order of the sections: the question's type, class and unicast flag; the record's
    type, class, cache-flush bit and TTL; and its data: the address, the key and value of
    every TXT entry, the port, priority and weight of a service.  Every name, written
    with the compression pointers the writer chose, reads back as the name that was
    given, up to letter case. *)
Theorem response_roundtrip (b : ResponseBuilder) (packet : Packet) (es : list Entry) :
  (pDataLength packet + kSizeBytes <= length (pBlock packet))%nat ->
  Z.of_nat (length (pBlock packet)) <= 16384 ->
  Forall entry_ok es -> (length es <= 256)%nat ->
  exists b1 b2 k sent,
    Reset b packet = Ok b1 /\ add_all b1 es = Ok b2 /\ (ReleasePacket b2).1 = Some sent /\
    (mBuildOk b2 = true -> k = length es) /\
    let accepted := take k es in
    let m := take (pDataLength sent) (pBlock sent) in
    exists qs an au ad,
      ParsePacket m (length m) = Ok (OnHeader (mem_read 0 kSizeBytes m) :: qs ++ an ++ au ++ ad, true) /\
      GetFlags m = Ok kResponseFlags /\
      Forall2 (reports_question m) (questions accepted) qs /\
      Forall2 (reports_record m kAnswer) (records kAnswer accepted) an /\
      Forall2 (reports_record m kAuthority) (records kAuthority accepted) au /\
      Forall2 (reports_record m kAdditional) (records kAdditional accepted) ad.
Proof.
  intros Hroom Hlen Hes H256.
  destruct (Reset_spec b packet Hroom Hlen) as (b1 & E1 & Hb1 & Hs1).
  destruct (add_all_spec no_contents b1 es Hs1 Hb1 Hes) as (b2 & k & E2 & Hk & (sent & Ep & Hp & _) & Hkl).
  exists b1, b2, k, sent; splits; auto; cbv zeta.
  destruct Hp as ([H12 Hle] & Hl & Hh & Hc); rewrite contents_sections in Hh, Hc; cbn [no_contents cQueries cAnswers cAuthorities cAdditionals app] in Hh, Hc.
  set (acc := take k es) in *; set (m := take _ _).
  assert (length m = pDataLength sent) as Em by (unfold m; rewrite length_take; lia).
  assert (Forall entry_ok acc) as Hacc by (by apply Forall_take).
  assert (length acc <= 256)%nat as Hla by (unfold acc; rewrite length_take; lia).
  pose proof (header_take _ _ _ Hh H12) as Hhm; fold m in Hhm.
  destruct (ParsePacket_says (body (pDataLength sent)) m _ Hhm) as (qs & an & au & ad & E & ? & ? & ? & ?);
    cbn [cQueries cAnswers cAuthorities cAdditionals]; auto using questions_ok, records_ok; try lia.
  - rewrite Em; eapply says_contents_agree; [done| |done|exact Hc].
    intros i x Hi Ex; unfold m; rewrite lookup_take_lt; [done|apply Hi].
  - by destruct (section_lengths acc kAnswer) as [? _]; lia.
  - by destruct (section_lengths acc kAnswer) as [_ ?]; lia.
  - by destruct (section_lengths acc kAuthority) as [_ ?]; lia.
  - by destruct (section_lengths acc kAdditional) as [_ ?]; lia.
  - exists qs, an, au, ad; splits; auto.
    unfold GetFlags; change kFlagsOffset with (2 * 1)%nat; by apply (header_get m _ 1 Hhm); lia.
Qed.

(** A reply to [example_query], which is repeated: "foo" points to "b.foo", a service
    with its text and address records; the packet had room for 100 bytes. *)
Definition foo : FullQName := [[102; 111; 111]].
Definition b_foo : FullQName := [[98]; [70; 111; 111]].
Definition example_address : IPAddress := [0xFE; 0x80; 0; 0; 0; 0; 0; 0; 0; 0; 0; 0; 0; 0; 0; 1].
Definition example_question : QueryData :=
  MkQueryData QType.PTR QClass.IN_ true (iterator_at example_query 21 12) false.
Definition example_entries : list Entry :=
  [AQuery example_question foo;
   AnEntry kAnswer (PtrResourceRecord foo b_foo);
   AnEntry kAdditional (SrvResourceRecord b_foo b_foo 5540);
   AnEntry kAdditional (SetCacheFlush (TxtResourceRecord b_foo [[84; 61; 49]; [120]]) true);
   AnEntry kAdditional (IPResourceRecord b_foo example_address);
   AnEntry kAnswer (PtrResourceRecord foo b_foo)].

Lemma example_entries_ok : Forall entry_ok example_entries.
Proof.
  assert (parts_ok foo /\ parts_ok b_foo) as [Hf Hb].
  { split; repeat constructor; done. }
  repeat constructor; try exact Hf; try exact Hb; try by (vm_compute; split; discriminate).
  all: try (apply (bool_decide_unpack _); vm_compute; exact I).
  exists anywhere; change (name_at anywhere example_query 12 12 foo).
  assert (bytes_at example_query 13 [102; 111; 111]) as Hbytes.
  { intros [|[|[|i]]] c E; cbn in E; by simplify_eq. }
  apply (name_label anywhere example_query 12 12 [102; 111; 111] []); try done; [cbn; lia|].
  by apply name_root.
Qed.

Lemma response_roundtrip_witness :
  (exists b1 b2, Reset new (MkPacket (replicate 150 7) 0) = Ok b1 /\
     add_all b1 (take 5 example_entries) = Ok b2 /\ mBuildOk b2 = true) /\
  (exists b1 b2 k sent,
    Reset new (MkPacket (replicate 150 7) 0) = Ok b1 /\ add_all b1 example_entries = Ok b2 /\
    (ReleasePacket b2).1 = Some sent /\ (mBuildOk b2 = true -> k = length example_entries) /\
    let accepted := take k example_entries in
    let m := take (pDataLength sent) (pBlock sent) in
    exists qs an au ad,
      ParsePacket m (length m) = Ok (OnHeader (mem_read 0 kSizeBytes m) :: qs ++ an ++ au ++ ad, true) /\
      GetFlags m = Ok kResponseFlags /\
      Forall2 (reports_question m) (questions accepted) qs /\
      Forall2 (reports_record m kAnswer) (records kAnswer accepted) an /\
      Forall2 (reports_record m kAuthority) (records kAuthority accepted) au /\
      Forall2 (reports_record m kAdditional) (records kAdditional accepted) ad).
Proof.
  split; [do 2 eexists; split; [vm_compute; reflexivity|split; vm_compute; reflexivity]|].
  apply (response_roundtrip new (MkPacket (replicate 150 7) 0) example_entries).
  - apply Nat.leb_le; vm_compute; reflexivity.
  - apply Z.leb_le; vm_compute; reflexivity.
  - exact example_entries_ok.
  - apply Nat.leb_le; vm_compute; reflexivity.
Defined.
End Response.
