(* ===== verification/Verhoeff.v ===== *)
(** * Verhoeff: the check digit of decimal codes

    src/src/lib/support/verhoeff/{Verhoeff.h,Verhoeff.cpp,Verhoeff10.cpp}.

    - Module [Verhoeff]: the two operations on polygon symmetries;
    - Module [Verhoeff10]: check characters for strings of decimal digits;
    - [product]: the value a digit string has in the group of the pentagon; a string
      ends with its check digit when the product is the neutral element, so one wrong
      digit, or two neighbours swapped, always show. *)

From S2P Require Import Prelude.

Module Verhoeff.

Definition DihedralInvert (val n : Z) : Z := if (0 <? val) && (val <? n) then n - val else val.

(** A table lookup; the index stays inside the table for every digit. *)
Definition at_index (table : bytes) (i : Z) : Z := default 0 (table !! Z.to_nat i).

Fixpoint Permute (val : Z) (permTable : bytes) (permTableLen : Z) (iterCount : nat) : Z :=
  let val := Z.rem val permTableLen in
  match iterCount with
  | O => val
  | S iterCount => Permute (at_index permTable val) permTable permTableLen iterCount
  end.

End Verhoeff.

Module Verhoeff10.
Import Verhoeff.

Definition Base : Z := 10.
Definition PolygonSize : Z := 5.

Definition sMultiplyTable : bytes := [
    0; 1; 2; 3; 4; 5; 6; 7; 8; 9; 1; 2; 3; 4; 0; 6; 7; 8; 9; 5; 2; 3; 4; 0; 1; 7; 8; 9; 5; 6; 3; 4; 0; 1;
    2; 8; 9; 5; 6; 7; 4; 0; 1; 2; 3; 9; 5; 6; 7; 8; 5; 9; 8; 7; 6; 0; 4; 3; 2; 1; 6; 5; 9; 8; 7; 1; 0; 4;
    3; 2; 7; 6; 5; 9; 8; 2; 1; 0; 4; 3; 8; 7; 6; 5; 9; 3; 2; 1; 0; 4; 9; 8; 7; 6; 5; 4; 3; 2; 1; 0 ].

Definition sPermTable : bytes := [1; 5; 7; 6; 2; 8; 3; 0; 9; 4].

(** Characters are their codes: '0' is 48, '9' is 57. *)
Definition CharToVal (ch : Z) : Z := if (48 <=? ch) && (ch <=? 57) then ch - 48 else -1.

Definition ValToChar (val : Z) : Z := if (0 <=? val) && (val <=? Base) then 48 + val else 0.

(** The loop of [ComputeCheckChar] with [n] characters left, hence at
    [i = strLen - n + 1]: it reads [str[strLen - i]], the one at index [n - 1];
    [None] is the early return on a character that is no digit. *)
Fixpoint check_loop (str : bytes) (strLen n : nat) (c : Z) : option Z :=
  match n with
  | O => Some c
  | S n' =>
      let i := (strLen - n')%nat in
      let val := CharToVal (default 0 (str !! n')) in
      if val <? 0 then None
      else let p := Permute val sPermTable Base i in
           check_loop str strLen n' (at_index sMultiplyTable (c * Base + p))
  end.

Definition ComputeCheckChar_len (str : bytes) (strLen : nat) : Z :=
  match check_loop str strLen strLen 0 with
  | Some c => ValToChar (DihedralInvert c PolygonSize)
  | None => 0
  end.

(** On a C string: [str] is the memory from the pointer on. *)
Definition ComputeCheckChar (str : bytes) : Z :=
  ComputeCheckChar_len str (length (c_string str)).

Definition ValidateCheckChar_len (checkChar : Z) (str : bytes) (strLen : nat) : bool :=
  ComputeCheckChar_len str strLen =? checkChar.

Definition ValidateCheckChar (checkChar : Z) (str : bytes) : bool :=
  ValidateCheckChar_len checkChar str (length (c_string str)).

Definition ValidateString_len (str : bytes) (strLen : nat) : bool :=
  if (strLen =? 0)%nat then false
  else ValidateCheckChar_len (default 0 (str !! (strLen - 1)%nat)) str (strLen - 1).

Definition ValidateString (str : bytes) : bool :=
  ValidateString_len str (length (c_string str)).

(** ** The pentagon group *)

Definition digit (v : Z) : Prop := 0 <= v < 10.
Definition is_digit_char (ch : Z) : Prop := 48 <= ch <= 57.

Definition times (a b : Z) : Z := at_index sMultiplyTable (a * Base + b).

(** The permutation of digits applied at position [i] from the end. *)
Definition perm (i : nat) (v : Z) : Z := Permute v sPermTable Base i.

Definition digits : list Z := seqZ 0 10.

Lemma elem_digits v : digit v -> v ∈ digits.
Proof. intros H; apply elem_of_seqZ; exact H. Qed.

(** Facts on digits are settled by trying them all. *)
Lemma all1 (P : Z -> bool) : forallb P digits = true -> forall a, digit a -> P a = true.
Proof.
  intros H a Ha; rewrite forallb_forall in H.
  by apply H, list_elem_of_In, elem_digits.
Qed.

Lemma all2 (P : Z -> Z -> bool) :
  forallb (fun a => forallb (P a) digits) digits = true ->
  forall a b, digit a -> digit b -> P a b = true.
Proof. intros H a b Ha Hb; apply (all1 (P a)); [by apply (all1 _ H)|done]. Qed.

Lemma all3 (P : Z -> Z -> Z -> bool) :
  forallb (fun a => forallb (fun b => forallb (P a b) digits) digits) digits = true ->
  forall a b c, digit a -> digit b -> digit c -> P a b c = true.
Proof. intros H a b c Ha Hb Hc; apply (all2 (P a)); [by apply (all1 _ H)|done|done]. Qed.

Definition is_digit (v : Z) : bool := (0 <=? v) && (v <? 10).

Lemma is_digit_spec v : is_digit v = true <-> digit v.
Proof. unfold is_digit, digit; lia. Qed.

Lemma times_digit a b : digit a -> digit b -> digit (times a b).
Proof.
  intros; apply is_digit_spec.
  by apply (all2 (fun a b => is_digit (times a b))); [vm_compute; reflexivity|..].
Qed.

Lemma times_assoc a b c :
  digit a -> digit b -> digit c -> times (times a b) c = times a (times b c).
Proof.
  intros; apply Z.eqb_eq.
  by apply (all3 (fun a b c => times (times a b) c =? times a (times b c)));
    [vm_compute; reflexivity|..].
Qed.

Lemma times_0_l a : digit a -> times 0 a = a.
Proof.
  intros; apply Z.eqb_eq.
  by apply (all1 (fun a => times 0 a =? a)); [vm_compute; reflexivity|].
Qed.

Lemma times_inj_l a b c : digit a -> digit b -> digit c -> times a c = times b c -> a = b.
Proof.
  intros ? ? ? H.
  assert (implb (times a c =? times b c) (a =? b) = true) as E.
  { by apply (all3 (fun a b c => implb (times a c =? times b c) (a =? b)));
      [vm_compute; reflexivity|..]. }
  rewrite H, Z.eqb_refl in E; by apply Z.eqb_eq.
Qed.

Lemma times_inj_r a b c : digit a -> digit b -> digit c -> times a b = times a c -> b = c.
Proof.
  intros ? ? ? H.
  assert (implb (times a b =? times a c) (b =? c) = true) as E.
  { by apply (all3 (fun a b c => implb (times a b =? times a c) (b =? c)));
      [vm_compute; reflexivity|..]. }
  rewrite H, Z.eqb_refl in E; by apply Z.eqb_eq.
Qed.

(** The check digit is the inverse of what it checks. *)
Lemma invert_spec c k :
  digit c -> digit k -> times k c = 0 <-> k = DihedralInvert c PolygonSize.
Proof.
  intros.
  assert (eqb (times k c =? 0) (k =? DihedralInvert c PolygonSize) = true) as E%eqb_prop.
  { by apply (all2 (fun c k => eqb (times k c =? 0) (k =? DihedralInvert c PolygonSize)));
      [vm_compute; reflexivity|..]. }
  rewrite <-!Z.eqb_eq, E; done.
Qed.

Lemma invert_digit c : digit c -> digit (DihedralInvert c PolygonSize).
Proof. unfold DihedralInvert, PolygonSize, digit; repeat bcase; simpl; lia. Qed.

Lemma perm_0 v : digit v -> perm 0 v = v.
Proof. intros; unfold perm; simpl; by apply Z.rem_small. Qed.

Lemma perm_S i v : digit v -> perm (S i) v = perm i (perm 1 v).
Proof.
  intros Hv; unfold perm; cbn [Permute].
  rewrite (Z.rem_small v) by done; unfold Base.
  assert (digit (at_index sPermTable v)).
  { apply is_digit_spec, (all1 (fun v => is_digit (at_index sPermTable v)));
      [vm_compute; reflexivity|done]. }
  by rewrite (Z.rem_small (at_index _ _)) by done.
Qed.

Lemma perm_1_digit v : digit v -> digit (perm 1 v).
Proof.
  intros; apply is_digit_spec.
  by apply (all1 (fun v => is_digit (perm 1 v))); [vm_compute; reflexivity|].
Qed.

Lemma perm_digit i v : digit v -> digit (perm i v).
Proof.
  revert v; induction i as [|i IH]; intros v Hv; [by rewrite perm_0|].
  rewrite (perm_S i v Hv); by apply IH, perm_1_digit.
Qed.

Lemma perm_inj i a b : digit a -> digit b -> perm i a = perm i b -> a = b.
Proof.
  revert a b; induction i as [|i IH]; intros a b Ha Hb; [by rewrite !perm_0|].
  rewrite (perm_S i a Ha), (perm_S i b Hb); intros E%IH; try by apply perm_1_digit.
  assert (implb (perm 1 a =? perm 1 b) (a =? b) = true) as F.
  { by apply (all2 (fun a b => implb (perm 1 a =? perm 1 b) (a =? b)));
      [vm_compute; reflexivity|..]. }
  rewrite E, Z.eqb_refl in F; by apply Z.eqb_eq.
Qed.

Lemma perm_swap i v : digit v -> perm (S i) v = perm 1 (perm i v).
Proof.
  revert v; induction i as [|i IH]; intros v Hv; [by rewrite perm_0|].
  rewrite (perm_S (S i) v Hv), (perm_S i v Hv); apply IH, perm_1_digit, Hv.
Qed.

(** The permutation is chosen so that swapped neighbours differ. *)
Lemma times_swap c a b :
  digit c -> digit a -> digit b ->
  times (times c a) (perm 1 b) = times (times c b) (perm 1 a) -> a = b.
Proof.
  intros ? ? ? H.
  assert (implb (times (times c a) (perm 1 b) =? times (times c b) (perm 1 a)) (a =? b) = true) as F.
  { by apply (all3 (fun c a b => implb (times (times c a) (perm 1 b) =? times (times c b) (perm 1 a))
                                       (a =? b))); [vm_compute; reflexivity|..]. }
  rewrite H, Z.eqb_refl in F; by apply Z.eqb_eq.
Qed.

(** ** Products of digit strings *)

(** The product of the digits [ds], last character first, from position [i]. *)
Fixpoint product (i : nat) (ds : list Z) (c : Z) : Z :=
  match ds with
  | [] => c
  | d :: ds => product (S i) ds (times c (perm i d))
  end.

Lemma product_app i l1 l2 c : product i (l1 ++ l2) c = product (i + length l1) l2 (product i l1 c).
Proof.
  revert i c; induction l1 as [|d l1 IH]; intros i c; simpl; [by rewrite Nat.add_0_r|].
  rewrite IH; f_equal; lia.
Qed.

Lemma product_digit i ds c : Forall digit ds -> digit c -> digit (product i ds c).
Proof.
  intros H; revert i c; induction H as [|d ds Hd _ IH]; intros i c Hc; simpl; [done|].
  apply IH, times_digit; [done|by apply perm_digit].
Qed.

Lemma product_inj i ds a b :
  Forall digit ds -> digit a -> digit b -> product i ds a = product i ds b -> a = b.
Proof.
  intros H; revert i a b; induction H as [|d ds Hd _ IH]; intros i a b Ha Hb; simpl; [done|].
  pose proof (perm_digit i d Hd).
  intros E%IH; [|by apply times_digit..]; by apply times_inj_l in E.
Qed.

Lemma product_times i ds c :
  Forall digit ds -> digit c -> product i ds c = times c (product i ds 0).
Proof.
  intros H; revert i c; induction H as [|d ds Hd Hds IH]; intros i c Hc; simpl.
  { symmetry; apply Z.eqb_eq.
    by apply (all1 (fun c => times c 0 =? c)); [vm_compute; reflexivity|]. }
  assert (digit 0) by (unfold digit; lia).
  pose proof (perm_digit i d Hd) as Hp.
  rewrite IH, (IH _ (times 0 _)) by (by apply times_digit).
  rewrite times_0_l by done; apply times_assoc; [done|done|by apply product_digit].
Qed.

Definition val_of (ch : Z) : Z := ch - 48.

Lemma val_digit ch : is_digit_char ch -> digit (val_of ch).
Proof. unfold is_digit_char, digit, val_of; lia. Qed.

Lemma vals_digits str : Forall is_digit_char str -> Forall digit (val_of <$> str).
Proof. intros H; apply Forall_fmap; eapply Forall_impl; [|exact H]; apply val_digit. Qed.

Lemma CharToVal_digit ch : is_digit_char ch -> CharToVal ch = val_of ch.
Proof. unfold is_digit_char, CharToVal, val_of; intros; by rewrite !(proj2 (Z.leb_le _ _)) by lia. Qed.

Lemma check_loop_product str n c :
  Forall is_digit_char str -> (n <= length str)%nat ->
  check_loop str (length str) n c =
  Some (product (S (length str - n)) (reverse (val_of <$> take n str)) c).
Proof.
  intros H; revert c; induction n as [|n IH]; intros c Hn; [done|].
  cbn [check_loop]; destruct (lookup_lt_is_Some_2 str n) as [ch Hch]; [lia|].
  rewrite Hch; cbn [default from_option id]; pose proof (Forall_lookup_1 _ _ _ _ H Hch) as Hd.
  rewrite CharToVal_digit by done; pose proof (val_digit _ Hd) as Hv; unfold digit in Hv.
  rewrite (proj2 (Z.ltb_ge _ _)) by lia; rewrite IH by lia.
  rewrite (take_S_r _ _ _ Hch), fmap_app, reverse_app.
  replace (length str - n)%nat with (S (length str - S n)) by lia.
  reflexivity.
Qed.

(** What [ComputeCheckChar] returns on a string of digits. *)
Lemma ComputeCheckChar_digits str :
  Forall is_digit_char str ->
  ComputeCheckChar_len str (length str) =
  48 + DihedralInvert (product 1 (reverse (val_of <$> str)) 0) PolygonSize.
Proof.
  intros H; unfold ComputeCheckChar_len; rewrite check_loop_product by (done || lia).
  rewrite Nat.sub_diag, firstn_all.
  assert (digit (product 1 (reverse (val_of <$> str)) 0)) as Hp%invert_digit.
  { apply product_digit; [|unfold digit; lia]; by apply Forall_reverse, vals_digits. }
  unfold ValToChar, Base; unfold digit in Hp; by rewrite !(proj2 (Z.leb_le _ _)) by lia.
Qed.

Lemma check_char_digit str :
  Forall is_digit_char str -> is_digit_char (ComputeCheckChar_len str (length str)).
Proof.
  intros H; rewrite ComputeCheckChar_digits by done.
  assert (digit (product 1 (reverse (val_of <$> str)) 0)) as Hp%invert_digit.
  { apply product_digit; [|unfold digit; lia]; by apply Forall_reverse, vals_digits. }
  unfold digit in Hp; unfold is_digit_char; lia.
Qed.

Lemma digits_no_nul str : Forall is_digit_char str -> c_string str = str.
Proof.
  intros H; apply c_string_id; eapply Forall_impl; [|exact H]; unfold is_digit_char; simpl; lia.
Qed.

(** The value of a whole string, its check digit at position 0. *)
Definition value (str : bytes) : Z := product 0 (reverse (val_of <$> str)) 0.

Lemma valid_value str k :
  Forall is_digit_char str -> is_digit_char k ->
  ValidateCheckChar k str = true <-> value (str ++ [k]) = 0.
Proof.
  intros H Hk; unfold ValidateCheckChar, ValidateCheckChar_len.
  rewrite digits_no_nul, ComputeCheckChar_digits by done.
  assert (digit 0) by (unfold digit; lia); pose proof (val_digit _ Hk) as Hv.
  assert (Forall digit (reverse (val_of <$> str))) as Hds by by apply Forall_reverse, vals_digits.
  unfold value; rewrite fmap_app, reverse_app; change (reverse (val_of <$> [k])) with [val_of k].
  cbn [app product]; rewrite perm_0, times_0_l, (product_times 1 _ (val_of k)) by done.
  rewrite invert_spec, Z.eqb_eq by (try apply product_digit; done); unfold val_of; lia.
Qed.

(** Both kinds of error change the value of the string. *)
Lemma value_replace l r a b :
  Forall is_digit_char (l ++ a :: r) -> is_digit_char b ->
  value (l ++ a :: r) = value (l ++ b :: r) -> a = b.
Proof.
  intros [Hl [Ha Hr]%Forall_cons_iff]%Forall_app Hb; unfold value.
  rewrite !fmap_app, !fmap_cons, !reverse_app, !reverse_cons, <-!app_assoc, !product_app.
  cbn [app product]; set (c := product 0 _ 0).
  assert (digit c) as Hc.
  { apply product_digit; [by apply Forall_reverse, vals_digits|unfold digit; lia]. }
  pose proof (val_digit _ Ha) as Da; pose proof (val_digit _ Hb) as Db.
  pose proof (perm_digit (length (reverse (val_of <$> r))) _ Da).
  pose proof (perm_digit (length (reverse (val_of <$> r))) _ Db).
  intros E%product_inj; [|by apply Forall_reverse, vals_digits|by apply times_digit..].
  apply times_inj_r in E; [|done..]; apply perm_inj in E; [|done..]; unfold val_of in E; lia.
Qed.

Lemma value_swap l r a b :
  Forall is_digit_char (l ++ a :: b :: r) ->
  value (l ++ a :: b :: r) = value (l ++ b :: a :: r) -> a = b.
Proof.
  intros [Hl [Ha [Hb Hr]%Forall_cons_iff]%Forall_cons_iff]%Forall_app; unfold value.
  rewrite !fmap_app, !fmap_cons, !reverse_app, !reverse_cons, <-!app_assoc, !product_app.
  cbn [app product]; set (c := product 0 _ 0).
  set (i := (0 + length _)%nat).
  assert (digit c) as Hc.
  { apply product_digit; [by apply Forall_reverse, vals_digits|unfold digit; lia]. }
  pose proof (val_digit _ Ha) as Da; pose proof (val_digit _ Hb) as Db.
  pose proof (perm_digit i _ Da) as Pa; pose proof (perm_digit i _ Db) as Pb.
  replace (i + length [val_of a])%nat with (S i) by (simpl; lia).
  replace (i + length [val_of b])%nat with (S i) by (simpl; lia).
  rewrite (perm_swap i _ Da), (perm_swap i _ Db).
  intros E%product_inj; [|by apply Forall_reverse, vals_digits|by repeat (apply times_digit || apply perm_1_digit)..].
  apply times_swap in E; [|done..]; apply perm_inj in E; [|done..]; unfold val_of in E; lia.
Qed.

(** ** Error detection *)

(** A code: decimal digits, the last one their check digit. *)
Definition checked_code (code : bytes) : Prop :=
  exists str k, code = str ++ [k] /\ Forall is_digit_char str /\ is_digit_char k /\
                ValidateCheckChar k str = true.

Lemma checked_digits code : checked_code code -> Forall is_digit_char code /\ value code = 0.
Proof.
  intros (str & k & -> & H & Hk & E); split; [|by apply valid_value].
  apply Forall_app; auto.
Qed.

Lemma ValidateString_value code :
  code <> [] -> Forall is_digit_char code -> ValidateString code = true <-> value code = 0.
Proof.
  intros Hne H; destruct code as [|k str _] using rev_ind; [done|].
  pose proof H as [Hs Hk%Forall_cons_iff]%Forall_app; destruct Hk as [Hk _].
  rewrite <-valid_value by done; unfold ValidateString, ValidateString_len.
  rewrite digits_no_nul by done; rewrite length_app; cbn [length].
  rewrite (proj2 (Nat.eqb_neq _ _)) by lia; replace (length str + 1 - 1)%nat with (length str) by lia.
  rewrite lookup_app_r, Nat.sub_diag by done; cbn [lookup list_lookup default from_option].
  unfold ValidateCheckChar, ValidateCheckChar_len; rewrite digits_no_nul by done.
  rewrite ComputeCheckChar_digits by done; unfold ComputeCheckChar_len.
  cut (forall n, (n <= length str)%nat -> forall c,
        check_loop (str ++ [k]) (length str) n c = check_loop str (length str) n c).
  { intros ->; [|done]; fold (ComputeCheckChar_len str (length str)).
    by rewrite ComputeCheckChar_digits. }
  intros n; induction n as [|n IH]; intros Hn c; [done|]; cbn [check_loop].
  rewrite lookup_app_l by lia; destruct (_ <? 0); [done|]; apply IH; lia.
Qed.

(** The check digit detects every wrong digit and every swap of neighbours: when
    a code of decimal digits that ends with its check digit validates, the code with
    any one digit replaced by another one, and the code with any two different
    neighbours swapped (the check digit included in both cases), does not. *)
Lemma check_digit_detects l r a b
  (Hcode : Forall is_digit_char (l ++ a :: r)) (Hvalid : ValidateString (l ++ a :: r) = true)
  (Hb : is_digit_char b) (Hneq : a <> b) :
  ValidateString (l ++ b :: r) = false /\
  (forall l' r', l ++ a :: r = l' ++ a :: b :: r' -> ValidateString (l' ++ b :: a :: r') = false).
Proof.
  apply ValidateString_value in Hvalid; [|by destruct l|done].
  assert (Forall is_digit_char (l ++ b :: r)) as Hb'.
  { apply Forall_app in Hcode as [Hl [_ Hr]%Forall_cons_iff]; apply Forall_app; auto. }
  split.
  - apply not_true_is_false; rewrite ValidateString_value by (try by destruct l).
    intros E; apply Hneq, (value_replace l r); congruence.
  - intros l' r' E; rewrite E in Hvalid, Hcode; apply not_true_is_false.
    rewrite ValidateString_value; [|by destruct l'|].
    + intros E'; apply Hneq, (value_swap l' r'); congruence.
    + apply Forall_app in Hcode as [Hl [Ha [_ Hr]%Forall_cons_iff]%Forall_cons_iff].
      apply Forall_app; auto.
Qed.

(** "34970112332": the eleventh digit checks the first ten. *)
Definition example_code : bytes := [51; 52; 57; 55; 48; 49; 49; 50; 51; 51; 50].

Lemma check_digit_detects_example :
  ValidateString example_code = true /\
  ValidateString [51; 52; 57; 55; 48; 57; 49; 50; 51; 51; 50] = false.
Proof.
  split; [vm_compute; reflexivity|].
  refine (proj1 (check_digit_detects [51; 52; 57; 55; 48] [49; 50; 51; 51; 50] 49 57 _ _ _ _)).
  - by apply (bool_decide_unpack _).
  - vm_compute; reflexivity.
  - unfold is_digit_char; lia.
  - lia.
Qed.

(** A character that is no digit is not always refused: with the NUL character as
    check character it validates, because 0 also stands for an invalid string. *)
Lemma nul_checks_invalid_string : ValidateString_len [97; 0] 2 = true.
Proof. reflexivity. Qed.

(** [ValToChar] also maps the base itself, to a character that is no digit. *)
Lemma base_has_a_char : ValToChar Base = 58 /\ CharToVal 58 = -1.
Proof. done. Qed.

End Verhoeff10.
