(* ===== verification/Base38.v ===== *)
(** * Base38: the text form of QR codes

    src/src/setup_payload/{Base38.h,Base38Encode.cpp,Base38Decode.cpp}.

    - [base38Encode], [base38Decode]: the code, with the output buffer and the output
      vector they fill;
    - [base38_text]: the text of a byte string, as a reference definition;
    - the decoder accepts exactly the texts of byte strings and returns the bytes, and
      the encoder writes the text whenever [base38EncodedLength] characters fit. *)

From S2P Require Import Prelude.

Definition kCodes : bytes := [
  48; 49; 50; 51; 52; 53; 54; 55; 56; 57; 65; 66; 67; 68; 69; 70; 71; 72; 73;
  74; 75; 76; 77; 78; 79; 80; 81; 82; 83; 84; 85; 86; 87; 88; 89; 90; 45; 46 ].

Definition kBase38CharactersNeededInNBytesChunk : list nat := [2; 4; 5]%nat.

Definition kRadix : Z := Z.of_nat (length kCodes).

Definition kMaxBytesSingleChunkLen : nat := 3.

(** An entry of the table [kBase38CharactersNeededInNBytesChunk]. *)
Definition chars_needed (i : nat) : nat := default 0%nat (kBase38CharactersNeededInNBytesChunk !! i).

(** ** Base38Encode.cpp *)

(** The inner loop of the encoder: [n] characters of a chunk. *)
Fixpoint chunk_chars (n : nat) (value : Z) : bytes :=
  match n with
  | O => []
  | S n => default 0 (kCodes !! Z.to_nat (value mod kRadix)) :: chunk_chars n (value / kRadix)
  end.

(** The loop over chunks, on the memory [out] of the output span: the error, the
    memory and the number of characters written. *)
Fixpoint encode_loop (fuel : nat) (in_buf out : bytes) (out_idx : nat) : CHIP_ERROR * bytes * nat :=
  match fuel with
  | O => (CHIP_ERROR_INTERNAL, out, out_idx)
  | S fuel =>
      if negb (0 <? length in_buf)%nat then (CHIP_NO_ERROR, out, out_idx)
      else
        let bytesInChunk :=
          if (kMaxBytesSingleChunkLen <=? length in_buf)%nat then kMaxBytesSingleChunkLen
          else length in_buf in
        let value := wrap 32 (le_combine (take bytesInChunk in_buf)) in
        let base38CharactersNeeded := chars_needed (bytesInChunk - 1) in
        if (length out <=? out_idx + base38CharactersNeeded)%nat
        then (CHIP_ERROR_BUFFER_TOO_SMALL, out, out_idx)
        else encode_loop fuel (drop bytesInChunk in_buf)
               (mem_write out_idx (chunk_chars base38CharactersNeeded value) out)
               (out_idx + base38CharactersNeeded)
  end.

(** The error, the memory of the span and its size afterwards. *)
Definition base38Encode (in_buf out_buf : bytes) : CHIP_ERROR * bytes * nat :=
  let '(err, out, out_idx) := encode_loop (S (length in_buf)) in_buf out_buf 0 in
  if (out_idx <? length out)%nat then (err, mem_write out_idx [0] out, out_idx)
  else (CHIP_ERROR_BUFFER_TOO_SMALL, out, length out).

Definition base38EncodedLength (num_bytes : nat) : nat :=
  ((num_bytes / 3) * 5 + (num_bytes mod 3) * 2 + 1)%nat.

(** ** Base38Decode.cpp *)

Definition kBogus : Z := 255.

Definition decodes : bytes := [
  36; 37; kBogus; 0; 1; 2; 3; 4; 5; 6; 7; 8; 9; kBogus; kBogus; kBogus; kBogus; kBogus; kBogus; kBogus;
  10; 11; 12; 13; 14; 15; 16; 17; 18; 19; 20; 21; 22; 23; 24; 25; 26; 27; 28; 29; 30; 31; 32; 33; 34; 35 ].

Definition decodeChar (c : Z) : result Z :=
  if (c <? 45) || (90 <? c) then Err CHIP_ERROR_INVALID_INTEGER_VALUE
  else let v := default 0 (decodes !! Z.to_nat (c - 45)) in
       if v =? kBogus then Err CHIP_ERROR_INVALID_INTEGER_VALUE else Ok v.

(** The characters of a chunk, the last one first: the loop from [i] down. *)
Fixpoint chunk_value (chunk : bytes) (i : nat) (value : Z) : result Z :=
  match i with
  | O => Ok value
  | S i => let* v := decodeChar (default 0 (chunk !! i)) in
           chunk_value chunk i (wrap 32 (wrap 32 (value * kRadix) + v))
  end.

(** The sizes of the next chunk in characters and in bytes. *)
Definition chunk_sizes (base38CharactersNumber : nat) : result (nat * nat) :=
  if (chars_needed 2 <=? base38CharactersNumber)%nat then Ok (chars_needed 2, 3)%nat
  else if (base38CharactersNumber =? chars_needed 1)%nat then Ok (chars_needed 1, 2)%nat
  else if (base38CharactersNumber =? chars_needed 0)%nat then Ok (chars_needed 0, 1)%nat
  else Err CHIP_ERROR_INVALID_STRING_LENGTH.

(** The loop over chunks; [result] is the output vector. *)
Fixpoint decode_loop (fuel : nat) (base38 result : bytes) : CHIP_ERROR * bytes :=
  match fuel with
  | O => (CHIP_ERROR_INTERNAL, result)
  | S fuel =>
      if negb (0 <? length base38)%nat then (CHIP_NO_ERROR, result)
      else
        match chunk_sizes (length base38) with
        | Err e => (e, result)
        | Ok (base38CharactersInChunk, bytesInDecodedChunk) =>
            match chunk_value base38 base38CharactersInChunk 0 with
            | Err e => (e, result)
            | Ok value =>
                let result := result ++ le_split bytesInDecodedChunk value in
                if 0 <? Z.shiftr value (8 * Z.of_nat bytesInDecodedChunk)
                then (CHIP_ERROR_INVALID_ARGUMENT, result)
                else decode_loop fuel (drop base38CharactersInChunk base38) result
            end
        end
  end.

Definition base38Decode (base38 : bytes) : CHIP_ERROR * bytes :=
  decode_loop (S (length base38)) base38 [].

(** ** The text of a byte string *)

Fixpoint base38_text (d : bytes) : bytes :=
  match d with
  | [] => []
  | [a] => chunk_chars 2 (le_combine [a])
  | [a; b] => chunk_chars 4 (le_combine [a; b])
  | a :: b :: c :: d => chunk_chars 5 (le_combine [a; b; c]) ++ base38_text d
  end.

Definition base38_char (c : Z) : Prop := c ∈ kCodes.

(** ** Characters *)

Lemma kRadix_38 : kRadix = 38.
Proof. reflexivity. Qed.

Lemma decodeChar_code v :
  0 <= v < 38 -> decodeChar (default 0 (kCodes !! Z.to_nat v)) = Ok v.
Proof.
  intros H.
  assert (forallb (fun v => match decodeChar (default 0 (kCodes !! Z.to_nat v)) with
                            | Ok v' => v =? v' | Err _ => false end) (seqZ 0 38) = true) as F
    by (vm_compute; reflexivity).
  rewrite forallb_forall in F; specialize (F v).
  destruct (decodeChar _); [|discriminate F; apply list_elem_of_In, elem_of_seqZ; lia].
  f_equal; symmetry; apply Z.eqb_eq, F, list_elem_of_In, elem_of_seqZ; lia.
Qed.

Lemma decodeChar_inv c v :
  decodeChar c = Ok v -> 0 <= v < 38 /\ default 0 (kCodes !! Z.to_nat v) = c.
Proof.
  intros H; destruct (decide (45 <= c < 91)) as [Hc|Hc].
  - assert (forallb (fun c => match decodeChar c with
                              | Ok v => (0 <=? v) && (v <? 38) &&
                                        (default 0 (kCodes !! Z.to_nat v) =? c)
                              | Err _ => true end) (seqZ 45 46) = true) as F
      by (vm_compute; reflexivity).
    rewrite forallb_forall in F; specialize (F c); rewrite H in F.
    assert (In c (seqZ 45 46)) as Hin by (apply list_elem_of_In, elem_of_seqZ; lia).
    specialize (F Hin); lia.
  - unfold decodeChar in H; destruct (c <? 45) eqn:E1, (90 <? c) eqn:E2; simpl in H; try done; lia.
Qed.

Lemma length_chunk_chars n v : length (chunk_chars n v) = n.
Proof. revert v; induction n; intros; simpl; auto. Qed.
#[export] Hint Rewrite length_chunk_chars : chip_len.

Lemma chunk_chars_codes n v : Forall base38_char (chunk_chars n v).
Proof.
  revert v; induction n as [|n IH]; intros v; cbn [chunk_chars]; constructor; [|apply IH].
  destruct (lookup_lt_is_Some_2 kCodes (Z.to_nat (v mod kRadix))) as [c Hc].
  { rewrite kRadix_38; pose proof (Z.mod_pos_bound v 38); change (length kCodes) with 38%nat; lia. }
  rewrite Hc; simpl; by eapply list_elem_of_lookup_2.
Qed.

(** ** Chunks *)

(** The value of the characters [l], least significant first. *)
Fixpoint chars_value (l : bytes) : result Z :=
  match l with
  | [] => Ok 0
  | c :: l => let* hi := chars_value l in let* v := decodeChar c in Ok (hi * 38 + v)
  end.

Lemma chars_value_range l v : chars_value l = Ok v -> 0 <= v < 38 ^ Z.of_nat (length l).
Proof.
  revert v; induction l as [|c l IH]; intros v; cbn [chars_value length]; [intros; simplify_eq; simpl; lia|].
  destruct (chars_value l) as [hi|]; [|done]; cbn [rbind]; specialize (IH hi eq_refl).
  destruct (decodeChar c) as [d|] eqn:E; [|done]; cbn [rbind]; intros; simplify_eq.
  apply decodeChar_inv in E as [E _].
  replace (Z.of_nat (S (length l))) with (Z.of_nat (length l) + 1) by lia.
  rewrite Z.pow_add_r by lia; lia.
Qed.

Lemma chars_value_chunk n v :
  is_uint 32 v -> v < 38 ^ Z.of_nat n -> chars_value (chunk_chars n v) = Ok v.
Proof.
  unfold is_uint; revert v; induction n as [|n IH]; intros v Hv Hn; cbn [chars_value chunk_chars].
  { simpl in Hn; f_equal; lia. }
  replace (Z.of_nat (S n)) with (Z.of_nat n + 1) in Hn by lia; rewrite Z.pow_add_r in Hn by lia.
  rewrite kRadix_38 in *; pose proof (Z.mod_pos_bound v 38); pose proof (Z.div_mod v 38).
  rewrite IH by (split_and?; try apply Z.div_lt_upper_bound; try apply Z.div_pos; lia).
  cbn [rbind]; rewrite decodeChar_code by lia; cbn [rbind]; f_equal; lia.
Qed.

Lemma chunk_chars_value l v : chars_value l = Ok v -> chunk_chars (length l) v = l.
Proof.
  revert v; induction l as [|c l IH]; intros v; cbn [chars_value length chunk_chars]; [done|].
  destruct (chars_value l) as [hi|]; [|done]; cbn [rbind]; specialize (IH hi eq_refl).
  destruct (decodeChar c) as [d|] eqn:E; [|done]; cbn [rbind]; intros; simplify_eq.
  apply decodeChar_inv in E as [E Ec]; rewrite kRadix_38.
  rewrite Z.add_comm, Z.mod_add, Z.div_add, Z.mod_small, Z.div_small, Z.add_0_l by lia.
  by rewrite Ec, IH.
Qed.

Lemma chunk_value_chars chunk i hi :
  (i <= 5)%nat -> (i <= length chunk)%nat -> 0 <= hi < 38 ^ (5 - Z.of_nat i) ->
  chunk_value chunk i hi =
  (let* lo := chars_value (take i chunk) in Ok (hi * 38 ^ Z.of_nat i + lo)).
Proof.
  revert hi; induction i as [|i IH]; intros hi Hi Hl Hhi.
  { simpl; f_equal; lia. }
  cbn [chunk_value]; destruct (lookup_lt_is_Some_2 chunk i) as [c Hc]; [lia|].
  rewrite Hc, (take_S_r _ _ _ Hc); cbn [default from_option id].
  assert (forall l, chars_value (l ++ [c]) =
    (let* d := decodeChar c in let* lo := chars_value l in Ok (d * 38 ^ Z.of_nat (length l) + lo))) as Hs.
  { clear; induction l as [|b l IH]; cbn [app chars_value length].
    - destruct (decodeChar c); cbn [rbind]; [|done]; f_equal; simpl; lia.
    - rewrite IH; destruct (decodeChar c) as [d|]; cbn [rbind]; [|done].
      destruct (chars_value l); cbn [rbind]; [|done].
      destruct (decodeChar b); cbn [rbind]; [|done]; f_equal.
      replace (Z.of_nat (S (length l))) with (Z.of_nat (length l) + 1) by lia.
      rewrite Z.pow_add_r by lia; lia. }
  rewrite Hs; destruct (decodeChar c) as [d|] eqn:E; cbn [rbind]; [|done].
  apply decodeChar_inv in E as [E _]; rewrite length_take, Nat.min_l by lia; rewrite kRadix_38.
  assert (38 ^ (5 - Z.of_nat i) = 38 * 38 ^ (5 - Z.of_nat (S i))) as P.
  { replace (5 - Z.of_nat i) with (1 + (5 - Z.of_nat (S i))) by lia; rewrite Z.pow_add_r by lia; lia. }
  assert (38 ^ (5 - Z.of_nat i) <= 38 ^ 5) as P5 by (apply Z.pow_le_mono_r; lia).
  rewrite wrap_add_l, wrap_small by (unfold is_uint; lia).
  rewrite IH by lia; destruct (chars_value _) as [lo|]; cbn [rbind]; [|done]; f_equal.
  replace (Z.of_nat (S i)) with (1 + Z.of_nat i) by lia; rewrite Z.pow_add_r by lia; lia.
Qed.

(** A chunk of [n] characters carries [k] bytes. *)
Definition chunk_shape (n k : nat) : Prop :=
  (n = 5 /\ k = 3)%nat \/ (n = 4 /\ k = 2)%nat \/ (n = 2 /\ k = 1)%nat.

Lemma chunk_shape_fits n k : chunk_shape n k -> 2 ^ (8 * Z.of_nat k) <= 38 ^ Z.of_nat n.
Proof. by intros [[-> ->]|[[-> ->]|[-> ->]]]; vm_compute. Qed.

Lemma chunk_sizes_eq len :
  chunk_sizes len = if (5 <=? len)%nat then Ok (5, 3)%nat else if (len =? 4)%nat then Ok (4, 2)%nat
                    else if (len =? 2)%nat then Ok (2, 1)%nat else Err CHIP_ERROR_INVALID_STRING_LENGTH.
Proof. reflexivity. Qed.

Lemma chunk_sizes_shape len n k : chunk_sizes len = Ok (n, k) -> chunk_shape n k /\ (n <= len)%nat.
Proof.
  rewrite chunk_sizes_eq; unfold chunk_shape.
  repeat bcase; intros; simplify_eq; lia.
Qed.

Lemma chunk_value_ok s n k v :
  chunk_shape n k -> (n <= length s)%nat ->
  chunk_value s n 0 = Ok v <-> chars_value (take n s) = Ok v.
Proof.
  intros Hs Hn; unfold chunk_shape in Hs.
  assert (0 < 38 ^ (5 - Z.of_nat n)) by (apply Z.pow_pos_nonneg; lia).
  rewrite chunk_value_chars by lia.
  destruct (chars_value _); cbn [rbind]; [|done]; by rewrite Z.mul_0_l, Z.add_0_l.
Qed.

(** What a decoded chunk says: the characters are those of its bytes. *)
Lemma chunk_sound s n k v :
  chunk_shape n k -> (n <= length s)%nat -> chunk_value s n 0 = Ok v ->
  (0 <? Z.shiftr v (8 * Z.of_nat k)) = false ->
  take n s = chunk_chars n (le_combine (le_split k v)).
Proof.
  intros Hs Hn Hv%(chunk_value_ok s n k) Hz; [|done..].
  pose proof (chars_value_range _ _ Hv) as R; rewrite length_take, Nat.min_l in R by done.
  rewrite Z.shiftr_div_pow2 in Hz by lia.
  assert (0 < 2 ^ (8 * Z.of_nat k)) by (apply pow2_pos; lia).
  rewrite le_split_small.
  - apply chunk_chars_value in Hv; rewrite length_take, Nat.min_l in Hv by done; done.
  - unfold is_uint; split; [lia|]; apply Z.ltb_ge in Hz; apply Z.nle_gt; intros Hle.
    apply (Z.div_le_mono _ _ (2 ^ (8 * Z.of_nat k))) in Hle; [|done].
    rewrite Z.div_same in Hle by lia; lia.
Qed.

Lemma chunk_complete s n k d :
  chunk_shape n k -> length d = k -> bytes_ok d ->
  chunk_value (chunk_chars n (le_combine d) ++ s) n 0 = Ok (le_combine d) /\
  le_split k (le_combine d) = d /\
  (0 <? Z.shiftr (le_combine d) (8 * Z.of_nat k)) = false.
Proof.
  intros Hs Hk Hd; pose proof (le_combine_range d Hd) as R; rewrite Hk in R.
  pose proof (chunk_shape_fits n k Hs); split; [|split].
  - rewrite (chunk_value_ok _ n k) by (done || len); rewrite take_app_length' by len.
    unfold is_uint in *; apply chars_value_chunk; [|lia]; unfold is_uint; split; [lia|].
    assert (2 ^ (8 * Z.of_nat k) <= 2 ^ 32); [|lia].
    apply Z.pow_le_mono_r; [lia|]; unfold chunk_shape in Hs; lia.
  - rewrite <-Hk; by apply le_split_combine.
  - unfold is_uint in R; rewrite Z.shiftr_div_pow2, Z.div_small by lia; done.
Qed.

(** ** Texts *)

(** Induction on a byte string by chunks of three. *)
Lemma chunk_ind (P : bytes -> Prop) :
  P [] -> (forall a, P [a]) -> (forall a b, P [a; b]) ->
  (forall a b c d, P d -> P (a :: b :: c :: d)) -> forall d, P d.
Proof.
  intros H0 H1 H2 H3.
  assert (forall n d, (length d <= n)%nat -> P d) as H; [|by intros d; apply (H (length d))].
  induction n as [|n IH]; intros [|a [|b [|c d]]] Hn; simpl in Hn; auto; try lia.
  apply H3, IH; lia.
Qed.

Lemma base38_text_length d : S (length (base38_text d)) = base38EncodedLength (length d).
Proof.
  induction d as [|a|a b|a b c d IH] using chunk_ind; try done.
  cbn [base38_text length]; rewrite length_app, length_chunk_chars.
  unfold base38EncodedLength in *; pose proof (Nat.div_mod_eq (length d) 3).
  replace (S (S (S (length d)))) with (length d + 1 * 3)%nat by lia.
  rewrite Nat.div_add, Nat.Div0.mod_add by lia; lia.
Qed.

Lemma base38_text_codes d : Forall base38_char (base38_text d).
Proof.
  induction d as [|a|a b|a b c d IH] using chunk_ind; cbn [base38_text];
    [constructor|apply chunk_chars_codes..|].
  apply Forall_app; split; [apply chunk_chars_codes|done].
Qed.

Lemma base38_char_range c : base38_char c -> 45 <= c <= 90.
Proof.
  intros H; assert (Forall (fun c => 45 <= c <= 90) kCodes) as F.
  { apply (bool_decide_unpack _); vm_compute; exact I. }
  rewrite list.Forall_forall in F; by apply F.
Qed.

Lemma base38_text_no_nul d : Forall (fun c => c <> 0) (base38_text d).
Proof.
  eapply Forall_impl; [|apply base38_text_codes]; intros c H%base38_char_range; simpl; lia.
Qed.

(** The text of [d], whatever the size of its next chunk. *)
Lemma base38_text_split d :
  d <> [] -> exists n k, chunk_shape n k /\ (k <= length d)%nat /\
    chunk_sizes (length (base38_text d)) = Ok (n, k) /\
    base38_text d = chunk_chars n (le_combine (take k d)) ++ base38_text (drop k d).
Proof.
  destruct d as [|a [|b [|c d]]]; intros Hd; [done|exists 2%nat, 1%nat|exists 4%nat, 2%nat|exists 5%nat, 3%nat];
    unfold chunk_shape; cbn [length take drop]; split_and!; try lia; done.
Qed.

(** ** The decoder *)

Lemma decode_complete fuel d acc :
  bytes_ok d -> (length (base38_text d) < fuel)%nat ->
  decode_loop fuel (base38_text d) acc = (CHIP_NO_ERROR, acc ++ d).
Proof.
  revert d acc; induction fuel as [|fuel IH]; intros d acc Hd Hf; [lia|]; cbn [decode_loop].
  destruct (decide (d = [])) as [->|Hne]; [simpl; by rewrite app_nil_r|].
  destruct (base38_text_split d Hne) as (n & k & Hs & Hk & -> & E).
  assert (0 < length (base38_text d))%nat as Hpos.
  { rewrite E, length_app, length_chunk_chars; unfold chunk_shape in Hs; lia. }
  rewrite (proj2 (Nat.ltb_lt _ _) Hpos); cbn [negb].
  destruct (chunk_complete (base38_text (drop k d)) n k (take k d)) as (E1 & E2 & E3);
    [done|len|by apply Forall_take|].
  rewrite E, E1, E2, E3, drop_app_length' by len.
  rewrite E, length_app, length_chunk_chars in Hf.
  rewrite IH; [|by apply Forall_drop|unfold chunk_shape in Hs; lia].
  by rewrite <-app_assoc, take_drop.
Qed.

Lemma base38_text_chunk n k d1 d2 :
  chunk_shape n k -> length d1 = k -> (n <> 5%nat -> d2 = []) ->
  chunk_chars n (le_combine d1) ++ base38_text d2 = base38_text (d1 ++ d2).
Proof.
  intros [[-> ->]|[[-> ->]|[-> ->]]] Hk Hd2.
  - by destruct d1 as [|a [|b [|c []]]].
  - rewrite (Hd2 ltac:(lia)); destruct d1 as [|a [|b []]]; try done; apply app_nil_r.
  - rewrite (Hd2 ltac:(lia)); destruct d1 as [|a []]; try done; apply app_nil_r.
Qed.

Lemma chunk_sizes_err len e : chunk_sizes len = Err e -> e = CHIP_ERROR_INVALID_STRING_LENGTH.
Proof. rewrite chunk_sizes_eq; repeat bcase; congruence. Qed.

Lemma chunk_value_err chunk i hi e :
  chunk_value chunk i hi = Err e -> e = CHIP_ERROR_INVALID_INTEGER_VALUE.
Proof.
  revert hi; induction i as [|i IH]; intros hi; cbn [chunk_value]; [done|].
  destruct (decodeChar _) eqn:E; cbn [rbind]; [apply IH|]; intros; simplify_eq; revert E.
  unfold decodeChar; repeat (case_match; try congruence).
Qed.

Lemma decode_sound fuel s acc r :
  decode_loop fuel s acc = (CHIP_NO_ERROR, r) ->
  exists d, bytes_ok d /\ s = base38_text d /\ r = acc ++ d.
Proof.
  revert s acc; induction fuel as [|fuel IH]; intros s acc; cbn [decode_loop]; [done|].
  destruct (Nat.ltb_spec 0 (length s)) as [Hs|Hs]; cbn [negb].
  2:{ intros; simplify_eq; exists []; split_and!; [constructor| |by rewrite app_nil_r].
      destruct s; [done|simpl in Hs; lia]. }
  destruct (chunk_sizes (length s)) as [[n k]|e] eqn:En; [|by apply chunk_sizes_err in En as ->].
  pose proof (chunk_sizes_shape _ _ _ En) as [Hsh Hn].
  destruct (chunk_value s n 0) as [v|e] eqn:Ev; [|by apply chunk_value_err in Ev as ->].
  destruct (0 <? _) eqn:Ez; [done|].
  intros (d2 & Hd2 & Ed2 & ->)%IH; pose proof (chunk_sound s n k v Hsh Hn Ev Ez) as Et.
  exists (le_split k v ++ d2); split_and!; [|..|by rewrite app_assoc].
  - apply Forall_app; split; [apply le_split_ok|done].
  - rewrite <-(base38_text_chunk n k); [|done|len|].
    + by rewrite <-Et, <-Ed2, take_drop.
    + intros Hn5; assert (length s = n) as Hl.
      { rewrite chunk_sizes_eq in En; revert En.
        repeat bcase; intros; simplify_eq; lia. }
      destruct d2 as [|a d2]; [done|].
      pose proof (base38_text_length (a :: d2)) as L; rewrite <-Ed2, length_drop in L.
      unfold base38EncodedLength in L; cbn [length] in L.
      pose proof (Nat.div_mod_eq (S (length d2)) 3); lia.
Qed.

Lemma base38Decode_spec s d :
  base38Decode s = (CHIP_NO_ERROR, d) <-> bytes_ok d /\ s = base38_text d.
Proof.
  unfold base38Decode; split.
  - intros (d' & ? & ? & ->)%decode_sound; by rewrite app_nil_l.
  - intros [Hd ->]; by rewrite decode_complete by (done || lia).
Qed.

(** ** The encoder *)

Lemma base38_text_next d :
  d <> [] ->
  let k := if (kMaxBytesSingleChunkLen <=? length d)%nat then kMaxBytesSingleChunkLen else length d in
  (0 < k <= length d)%nat /\
  chunk_shape (chars_needed (k - 1)) k /\
  base38_text d = chunk_chars (chars_needed (k - 1)) (le_combine (take k d)) ++ base38_text (drop k d).
Proof.
  unfold kMaxBytesSingleChunkLen, chunk_shape.
  destruct d as [|a [|b [|c d]]]; intros Hd; [done|..]; cbn; split_and!; try lia; done.
Qed.

Lemma encode_loop_spec fuel d out idx :
  bytes_ok d -> (length d < fuel)%nat -> (idx + length (base38_text d) < length out)%nat ->
  encode_loop fuel d out idx =
  (CHIP_NO_ERROR, mem_write idx (base38_text d) out, idx + length (base38_text d))%nat.
Proof.
  revert d out idx; induction fuel as [|fuel IH]; intros d out idx Hd Hf Hout; [lia|]; cbn [encode_loop].
  destruct (decide (d = [])) as [->|Hne]; [simpl; by rewrite mem_write_nil, Nat.add_0_r|].
  assert (0 < length d)%nat as Hpos by (destruct d; [done|simpl; lia]).
  rewrite (proj2 (Nat.ltb_lt _ _) Hpos); cbn [negb].
  destruct (base38_text_next d Hne) as (Hk & Hsh & E); set (k := if (kMaxBytesSingleChunkLen <=? length d)%nat then _ else _) in *.
  rewrite E, length_app, length_chunk_chars in Hout |- *.
  rewrite (proj2 (Nat.leb_gt _ _)) by lia.
  assert (wrap 32 (le_combine (take k d)) = le_combine (take k d)) as ->.
  { apply wrap_small, (is_uint_mono (8 * Z.of_nat k)); [unfold chunk_shape in Hsh; lia|].
    pose proof (le_combine_range (take k d) (Forall_take _ _ _ Hd)) as R.
    by rewrite length_take, Nat.min_l in R by lia. }
  rewrite IH; [|by apply Forall_drop|rewrite length_drop; lia|rewrite length_mem_write; len].
  f_equal; [|lia]; f_equal.
  rewrite <-(length_chunk_chars (chars_needed (k - 1)) (le_combine (take k d))) at 1.
  apply mem_write_app; rewrite length_chunk_chars; lia.
Qed.

Lemma encode_loop_small fuel d out idx :
  (length d < fuel)%nat -> d <> [] -> (length out <= idx + length (base38_text d))%nat ->
  (encode_loop fuel d out idx).1.1 = CHIP_ERROR_BUFFER_TOO_SMALL.
Proof.
  revert d out idx; induction fuel as [|fuel IH]; intros d out idx Hf Hne Hout; [lia|]; cbn [encode_loop].
  assert (0 < length d)%nat as Hpos by (destruct d; [done|simpl; lia]).
  rewrite (proj2 (Nat.ltb_lt _ _) Hpos); cbn [negb].
  destruct (base38_text_next d Hne) as (Hk & Hsh & E); set (k := if (kMaxBytesSingleChunkLen <=? length d)%nat then _ else _) in *.
  rewrite E, length_app, length_chunk_chars in Hout.
  destruct (Nat.leb_spec (length out) (idx + chars_needed (k - 1))); [done|].
  apply IH; [rewrite length_drop; lia| |rewrite length_mem_write; len].
  intros E0; rewrite E0 in Hout; simpl in Hout; lia.
Qed.

Lemma base38Encode_spec d out :
  bytes_ok d -> (base38EncodedLength (length d) <= length out)%nat ->
  base38Encode d out = (CHIP_NO_ERROR, mem_write 0 (base38_text d ++ [0]) out, length (base38_text d)).
Proof.
  intros Hd Hl; rewrite <-base38_text_length in Hl; unfold base38Encode.
  rewrite encode_loop_spec by (done || lia); rewrite length_mem_write, Nat.add_0_l by lia.
  rewrite (proj2 (Nat.ltb_lt _ _)) by lia; f_equal; f_equal.
  change (length (base38_text d)) with (0 + length (base38_text d))%nat.
  apply mem_write_app; simpl; lia.
Qed.

(** Base 38 loses nothing and admits nothing else: a byte string encodes into every
    buffer of [base38EncodedLength] characters or more and into no smaller one; the
    text in the buffer, NUL-terminated and of the size the span is reduced to, decodes
    to the bytes; and a text the decoder accepts is the one the encoder writes for the
    bytes it decodes to. *)
Theorem base38_roundtrip d out (Hd : bytes_ok d) :
  ((base38EncodedLength (length d) <= length out)%nat ->
   exists out' n, base38Encode d out = (CHIP_NO_ERROR, out', n) /\ length out' = length out /\
                  length (c_string out') = n /\ base38Decode (c_string out') = (CHIP_NO_ERROR, d)) /\
  ((length out < base38EncodedLength (length d))%nat ->
   (base38Encode d out).1.1 = CHIP_ERROR_BUFFER_TOO_SMALL) /\
  (forall s, base38Decode s = (CHIP_NO_ERROR, d) -> (base38EncodedLength (length d) <= length out)%nat ->
             c_string (base38Encode d out).1.2 = s).
Proof.
  assert (forall mem, (base38EncodedLength (length d) <= length mem)%nat ->
          c_string (mem_write 0 (base38_text d ++ [0]) mem) = base38_text d) as Hc.
  { intros mem _; rewrite mem_write_start, <-app_assoc; cbn [app].
    apply c_string_app, base38_text_no_nul. }
  split_and!.
  - intros Hl; exists (mem_write 0 (base38_text d ++ [0]) out), (length (base38_text d)).
    rewrite base38Encode_spec, Hc, length_mem_write by
      (done || rewrite length_app; rewrite <-base38_text_length in Hl; simpl; lia).
    split_and!; [done..|]; by apply base38Decode_spec.
  - rewrite <-base38_text_length; intros Hl; unfold base38Encode.
    destruct (decide (d = [])) as [->|Hne].
    { simpl in Hl; by destruct out; [|simpl in Hl; lia]. }
    pose proof (encode_loop_small (S (length d)) d out 0 ltac:(lia) Hne ltac:(lia)) as E.
    destruct (encode_loop _ _ _ _) as [[e o] i]; simpl in E; subst e; by case_match.
  - intros s [_ ->]%base38Decode_spec Hl; rewrite base38Encode_spec by done; by apply Hc.
Qed.

Lemma base38_roundtrip_witness :
  base38Decode [45; 77; 79; 65; 53; 55] = (CHIP_ERROR_INVALID_STRING_LENGTH, [136; 255; 167]) /\
  exists out' n, base38Encode [1; 2; 255; 0] (replicate 8 7) = (CHIP_NO_ERROR, out', n) /\
    length out' = 8%nat /\ length (c_string out') = n /\
    base38Decode (c_string out') = (CHIP_NO_ERROR, [1; 2; 255; 0]).
Proof.
  split; [|refine (proj1 (base38_roundtrip [1; 2; 255; 0] (replicate 8 7) _) _)].
  - vm_compute; reflexivity.
  - by apply (bool_decide_unpack _).
  - vm_compute; lia.
Defined.
