(* ===== verification/SetupPayload.v ===== *)
(** * SetupPayload: what a pairing code says

    src/src/setup_payload/SetupPayload.{h,cpp}, src/src/lib/support/SetupDiscriminator.h and
    src/src/lib/core/CHIPVendorIdentifiers.hpp.

    - Module [SetupDiscriminator]: long and short discriminators;
    - [PayloadContents] and its validity checks; [SetupPayload] with its optional data,
      two ordered maps from tags;
    - the operations keep the maps well formed, and the equality test decides equality
      of well-formed payloads. *)

From Stdlib Require Import Sorted.
From S2P Require Import Prelude Encoding.

(** ** SetupDiscriminator.h *)

Module SetupDiscriminator.

Record t := mk { mDiscriminator : Z; mIsShortDiscriminator : bool }.

Definition kLongBits : Z := 12.
Definition kShortBits : Z := 4.
Definition kLongMask : Z := Z.shiftl 1 kLongBits - 1.
Definition kShortMask : Z := Z.shiftl 1 kShortBits - 1.

Definition init : t := mk 0 false.

(** [VerifyOrDie] stops the program on a value that does not fit. *)
Definition SetShortValue (discriminator : Z) : result t :=
  if discriminator =? Z.land discriminator kShortMask
  then Ok (mk (Z.land discriminator kShortMask) true) else Err PROGRAM_ABORT.

Definition SetLongValue (discriminator : Z) : result t :=
  if discriminator =? Z.land discriminator kLongMask
  then Ok (mk (Z.land discriminator kLongMask) false) else Err PROGRAM_ABORT.

Definition IsShortDiscriminator (d : t) : bool := mIsShortDiscriminator d.

Definition LongToShortValue (longValue : Z) : Z :=
  wrap 8 (Z.shiftr longValue (kLongBits - kShortBits)).

Definition GetShortValue (d : t) : Z :=
  if IsShortDiscriminator d then wrap 8 (mDiscriminator d) else LongToShortValue (mDiscriminator d).

Definition GetLongValue (d : t) : result Z :=
  if IsShortDiscriminator d then Err PROGRAM_ABORT else Ok (mDiscriminator d).

Definition MatchesLongDiscriminator (discriminator : Z) (d : t) : bool :=
  if negb (IsShortDiscriminator d) then mDiscriminator d =? discriminator
  else mDiscriminator d =? LongToShortValue discriminator.

Definition eqb (a b : t) : bool :=
  Bool.eqb (mIsShortDiscriminator a) (mIsShortDiscriminator b) &&
  (mDiscriminator a =? mDiscriminator b).

(** A discriminator has 12 bits, or the 4 high ones of them. *)
Definition wf (d : t) : Prop :=
  is_uint (if mIsShortDiscriminator d then kShortBits else kLongBits) (mDiscriminator d).

Lemma eqb_eq a b : eqb a b = true <-> a = b.
Proof.
  destruct a as [x s], b as [y u]; unfold eqb; simpl.
  rewrite andb_true_iff, eqb_true_iff, Z.eqb_eq; naive_solver.
Qed.

Lemma SetLongValue_ok v : is_uint 12 v -> SetLongValue v = Ok (mk v false).
Proof.
  intros H; unfold SetLongValue, kLongMask, kLongBits.
  change (Z.shiftl 1 12 - 1) with (Z.ones 12).
  by rewrite Z.land_ones, (wrap_small 12 v H : v mod 2 ^ 12 = v), Z.eqb_refl by lia.
Qed.

Lemma SetShortValue_ok v : is_uint 4 v -> SetShortValue v = Ok (mk v true).
Proof.
  intros H; unfold SetShortValue, kShortMask, kShortBits.
  change (Z.shiftl 1 4 - 1) with (Z.ones 4).
  by rewrite Z.land_ones, (wrap_small 4 v H : v mod 2 ^ 4 = v), Z.eqb_refl by lia.
Qed.

Lemma GetShortValue_range d : wf d -> is_uint 4 (GetShortValue d).
Proof.
  destruct d as [v []]; unfold wf, GetShortValue, LongToShortValue, is_uint, kLongBits, kShortBits;
    simpl; intros H.
  - rewrite wrap_small; unfold is_uint; lia.
  - rewrite Z.shiftr_div_pow2 by lia; change (2 ^ (12 - 4)) with 256.
    pose proof (Z.div_lt_upper_bound v 256 16); pose proof (Z.div_pos v 256).
    rewrite wrap_small; unfold is_uint; lia.
Qed.

End SetupDiscriminator.

(** ** CHIPVendorIdentifiers.hpp *)

Module VendorId.
Definition Common : Z := 0x0000.
Definition Unspecified : Z := 0x0000.
Definition TestVendor1 : Z := 0xFFF1.
Definition TestVendor4 : Z := 0xFFF4.
End VendorId.

Definition IsTestVendorId (vid : Z) : bool :=
  (VendorId.TestVendor1 <=? vid) && (vid <=? VendorId.TestVendor4).

Definition IsVendorIdValidOperationally (vendorId : Z) : bool :=
  negb (vendorId =? VendorId.Common) && (vendorId <=? VendorId.TestVendor4).

(** ** SetupPayload.h: sizes and values *)

Definition kVersionFieldLengthInBits : nat := 3.
Definition kVendorIDFieldLengthInBits : nat := 16.
Definition kProductIDFieldLengthInBits : nat := 16.
Definition kCommissioningFlowFieldLengthInBits : nat := 2.
Definition kRendezvousInfoFieldLengthInBits : nat := 8.
Definition kPayloadDiscriminatorFieldLengthInBits : nat := 12.
Definition kSetupPINCodeFieldLengthInBits : nat := 27.
Definition kPaddingFieldLengthInBits : nat := 4.

Definition kManualSetupDiscriminatorFieldLengthInBits : Z := SetupDiscriminator.kShortBits.
Definition kManualSetupChunk1DiscriminatorMsbitsPos : Z := 0.
Definition kManualSetupChunk1DiscriminatorMsbitsLength : Z := 2.
Definition kManualSetupChunk1VidPidPresentBitPos : Z :=
  kManualSetupChunk1DiscriminatorMsbitsPos + kManualSetupChunk1DiscriminatorMsbitsLength.
Definition kManualSetupChunk2PINCodeLsbitsPos : Z := 0.
Definition kManualSetupChunk2PINCodeLsbitsLength : Z := 14.
Definition kManualSetupChunk2DiscriminatorLsbitsPos : Z :=
  kManualSetupChunk2PINCodeLsbitsPos + kManualSetupChunk2PINCodeLsbitsLength.
Definition kManualSetupChunk2DiscriminatorLsbitsLength : Z := 2.
Definition kManualSetupChunk3PINCodeMsbitsPos : Z := 0.
Definition kManualSetupChunk3PINCodeMsbitsLength : Z := 13.

Definition kManualSetupShortCodeCharLength : nat := 10.
Definition kManualSetupLongCodeCharLength : nat := 20.
Definition kManualSetupCodeChunk1CharLength : nat := 1.
Definition kManualSetupCodeChunk2CharLength : nat := 5.
Definition kManualSetupCodeChunk3CharLength : nat := 4.
Definition kManualSetupVendorIdCharLength : nat := 5.
Definition kManualSetupProductIdCharLength : nat := 5.

Definition kSerialNumberTag : Z := 0x00.
Definition kSetupPINCodeMaximumValue : Z := 99999998.
Definition kSetupPINCodeUndefinedValue : Z := 0.

Definition kTotalPayloadDataSizeInBits : nat :=
  (kVersionFieldLengthInBits + kVendorIDFieldLengthInBits + kProductIDFieldLengthInBits +
   kCommissioningFlowFieldLengthInBits + kRendezvousInfoFieldLengthInBits +
   kPayloadDiscriminatorFieldLengthInBits + kSetupPINCodeFieldLengthInBits +
   kPaddingFieldLengthInBits)%nat.
Definition kTotalPayloadDataSizeInBytes : nat := (kTotalPayloadDataSizeInBits / 8)%nat.

(** "MT:" and '*'. *)
Definition kQRCodePrefix : bytes := [77; 84; 58].
Definition kPayloadDelimiter : Z := 42.

Module RendezvousInformationFlag.
Definition kNone : Z := 0.
Definition kSoftAP : Z := Z.shiftl 1 0.
Definition kBLE : Z := Z.shiftl 1 1.
Definition kOnNetwork : Z := Z.shiftl 1 2.
Definition kWiFiPAF : Z := Z.shiftl 1 3.
Definition kNFC : Z := Z.shiftl 1 4.
Definition kThread : Z := Z.shiftl 1 5.
End RendezvousInformationFlag.

(** A [CommissioningFlow] can hold any value of its [uint8_t]; these are its names. *)
Module CommissioningFlow.
Definition kStandard : Z := 0.
Definition kUserActionRequired : Z := 1.
Definition kCustom : Z := 2.
End CommissioningFlow.

(** ** PayloadContents *)

Record PayloadContents := MkContents {
  version : Z;
  vendorID : Z;
  productID : Z;
  commissioningFlow : Z;
  rendezvousInformation : option Z;
  discriminator : SetupDiscriminator.t;
  setUpPINCode : Z }.

Definition PayloadContents_init : PayloadContents :=
  MkContents 0 0 0 CommissioningFlow.kStandard None SetupDiscriminator.init 0.

Inductive ValidationMode := kProduce | kConsume.

Definition IsValidSetupPIN (setupPIN : Z) : bool :=
  negb ((setupPIN =? kSetupPINCodeUndefinedValue) || (kSetupPINCodeMaximumValue <? setupPIN) ||
        (setupPIN =? 11111111) || (setupPIN =? 22222222) || (setupPIN =? 33333333) ||
        (setupPIN =? 44444444) || (setupPIN =? 55555555) || (setupPIN =? 66666666) ||
        (setupPIN =? 77777777) || (setupPIN =? 88888888) || (setupPIN =? 12345678) ||
        (setupPIN =? 87654321)).

Definition CheckPayloadCommonConstraints (p : PayloadContents) : bool :=
  (version p =? 0) && IsValidSetupPIN (setUpPINCode p) &&
  ((vendorID p =? VendorId.Unspecified) || IsVendorIdValidOperationally (vendorID p)) &&
  (negb (productID p =? 0) || (vendorID p =? VendorId.Unspecified)).

(** The flags the current specification defines. *)
Definition valid_rendezvous : list Z :=
  [RendezvousInformationFlag.kBLE; RendezvousInformationFlag.kOnNetwork;
   RendezvousInformationFlag.kSoftAP; RendezvousInformationFlag.kWiFiPAF;
   RendezvousInformationFlag.kNFC; RendezvousInformationFlag.kThread].

Definition isValidQRCodePayload (mode : ValidationMode) (p : PayloadContents) : bool :=
  (version p <? Z.shiftl 1 (Z.of_nat kVersionFieldLengthInBits)) &&
  (wrap 8 (commissioningFlow p) <? Z.shiftl 1 (Z.of_nat kCommissioningFlowFieldLengthInBits)) &&
  ((commissioningFlow p =? CommissioningFlow.kStandard) ||
   (commissioningFlow p =? CommissioningFlow.kUserActionRequired) ||
   (commissioningFlow p =? CommissioningFlow.kCustom)) &&
  negb (SetupDiscriminator.IsShortDiscriminator (discriminator p)) &&
  match rendezvousInformation p with
  | None => false
  | Some info =>
      match mode with
      | kProduce => BitFlags.HasOnly info valid_rendezvous
      | kConsume => true
      end
  end &&
  CheckPayloadCommonConstraints p.

Definition isValidManualCode (mode : ValidationMode) (p : PayloadContents) : bool :=
  CheckPayloadCommonConstraints p.

(** [operator==] on the contents; [Optional] compares presence and value. *)
Definition PayloadContents_eq (a b : PayloadContents) : bool :=
  (version a =? version b) && (vendorID a =? vendorID b) && (productID a =? productID b) &&
  (commissioningFlow a =? commissioningFlow b) &&
  bool_decide (rendezvousInformation a = rendezvousInformation b) &&
  SetupDiscriminator.eqb (discriminator a) (discriminator b) &&
  (setUpPINCode a =? setUpPINCode b).

(** The fields hold values of their C++ types. *)
Definition contents_wf (p : PayloadContents) : Prop :=
  is_u8 (version p) /\ is_u16 (vendorID p) /\ is_u16 (productID p) /\ is_u8 (commissioningFlow p) /\
  match rendezvousInformation p with Some i => is_u8 i | None => True end /\
  SetupDiscriminator.wf (discriminator p) /\ is_u32 (setUpPINCode p).

(** ** Optional data *)

(** [std::map<uint8_t, V>]: the entries in the order of their keys. *)
Section OrderedMap.
Context {V : Type}.
Implicit Types (m : list (Z * V)).

Fixpoint map_find (k : Z) m : option V :=
  match m with
  | [] => None
  | (k', v) :: m => if k =? k' then Some v else map_find k m
  end.

(** [m[k] = v]. *)
Fixpoint map_set (k : Z) (v : V) m : list (Z * V) :=
  match m with
  | [] => [(k, v)]
  | (k', v') :: m =>
      if k <? k' then (k, v) :: (k', v') :: m
      else if k =? k' then (k, v) :: m
      else (k', v') :: map_set k v m
  end.

Definition map_erase (k : Z) m : list (Z * V) := filter (fun e => e.1 <> k) m.

End OrderedMap.

Inductive optionalQRCodeInfoType :=
| optionalQRCodeInfoTypeUnknown
| optionalQRCodeInfoTypeString
| optionalQRCodeInfoTypeInt32
| optionalQRCodeInfoTypeInt64
| optionalQRCodeInfoTypeUInt32
| optionalQRCodeInfoTypeUInt64.

#[export] Instance optionalQRCodeInfoType_eq_dec : EqDecision optionalQRCodeInfoType.
Proof. solve_decision. Defined.

Record OptionalQRCodeInfo := MkInfo {
  tag : Z;
  type : optionalQRCodeInfoType;
  data : bytes;
  int32 : Z }.

Record OptionalQRCodeInfoExtension := MkExtension {
  info : OptionalQRCodeInfo;
  int64 : Z;
  uint32 : Z;
  uint64 : Z }.

Record SetupPayload := MkPayload {
  contents : PayloadContents;
  optionalVendorData : list (Z * OptionalQRCodeInfo);
  optionalExtensionData : list (Z * OptionalQRCodeInfoExtension) }.

Definition SetupPayload_init : SetupPayload := MkPayload PayloadContents_init [] [].

Definition set_contents (f : PayloadContents -> PayloadContents) (p : SetupPayload) : SetupPayload :=
  MkPayload (f (contents p)) (optionalVendorData p) (optionalExtensionData p).
Definition set_vendor f (p : SetupPayload) : SetupPayload :=
  MkPayload (contents p) (f (optionalVendorData p)) (optionalExtensionData p).
Definition set_extension f (p : SetupPayload) : SetupPayload :=
  MkPayload (contents p) (optionalVendorData p) (f (optionalExtensionData p)).

Definition IsCommonTag (tag : Z) : bool := tag <? 0x80.
Definition IsVendorTag (tag : Z) : bool := negb (IsCommonTag tag).

Definition addOptionalVendorData (i : OptionalQRCodeInfo) : M SetupPayload unit :=
  verify (IsVendorTag (tag i)) CHIP_ERROR_INVALID_ARGUMENT ;;
  modify (set_vendor (map_set (tag i) i)).

Definition addOptionalVendorData_string (tag : Z) (data : bytes) : M SetupPayload unit :=
  addOptionalVendorData (MkInfo tag optionalQRCodeInfoTypeString data 0).

Definition addOptionalVendorData_int32 (tag : Z) (data : Z) : M SetupPayload unit :=
  addOptionalVendorData (MkInfo tag optionalQRCodeInfoTypeInt32 [] data).

Definition addOptionalExtensionData (i : OptionalQRCodeInfoExtension) : M SetupPayload unit :=
  verify (IsCommonTag (tag (info i))) CHIP_ERROR_INVALID_ARGUMENT ;;
  modify (set_extension (map_set (tag (info i)) i)).

Definition getAllOptionalVendorData (p : SetupPayload) : list OptionalQRCodeInfo :=
  (optionalVendorData p).*2.

Definition getAllOptionalExtensionData (p : SetupPayload) : list OptionalQRCodeInfoExtension :=
  (optionalExtensionData p).*2.

Definition removeOptionalVendorData (tag : Z) : M SetupPayload unit := fun p =>
  (verify (bool_decide (is_Some (map_find tag (optionalVendorData p)))) CHIP_ERROR_KEY_NOT_FOUND ;;
   modify (set_vendor (map_erase tag))) p.

Definition addSerialNumber_string (serialNumber : bytes) : M SetupPayload unit :=
  addOptionalExtensionData
    (MkExtension (MkInfo kSerialNumberTag optionalQRCodeInfoTypeString serialNumber 0) 0 0 0).

Definition addSerialNumber_uint32 (serialNumber : Z) : M SetupPayload unit :=
  addOptionalExtensionData
    (MkExtension (MkInfo kSerialNumberTag optionalQRCodeInfoTypeUInt32 [] 0) 0 serialNumber 0).

Definition getOptionalVendorData (tag : Z) (p : SetupPayload) : result OptionalQRCodeInfo :=
  match map_find tag (optionalVendorData p) with
  | Some i => Ok i
  | None => Err CHIP_ERROR_KEY_NOT_FOUND
  end.

Definition getOptionalExtensionData (tag : Z) (p : SetupPayload) : result OptionalQRCodeInfoExtension :=
  match map_find tag (optionalExtensionData p) with
  | Some i => Ok i
  | None => Err CHIP_ERROR_KEY_NOT_FOUND
  end.

(** The decimal digits of [n], last one first; twenty hold a [uint64_t]. *)
Fixpoint decimal_rev (fuel : nat) (n : Z) : bytes :=
  match fuel with
  | O => []
  | S fuel => 48 + n mod 10 :: (if n <? 10 then [] else decimal_rev fuel (n / 10))
  end.

(** [std::to_string] and [printf]'s [%u]. *)
Definition decimal (n : Z) : bytes := reverse (decimal_rev 20 n).

Definition getSerialNumber (p : SetupPayload) : result bytes :=
  let* i := getOptionalExtensionData kSerialNumberTag p in
  match type (info i) with
  | optionalQRCodeInfoTypeString => Ok (data (info i))
  | optionalQRCodeInfoTypeUInt32 => Ok (decimal (uint32 i))
  | _ => Err CHIP_ERROR_INVALID_ARGUMENT
  end.

Definition removeSerialNumber : M SetupPayload unit := fun p =>
  (verify (bool_decide (is_Some (map_find kSerialNumberTag (optionalExtensionData p))))
          CHIP_ERROR_KEY_NOT_FOUND ;;
   modify (set_extension (map_erase kSerialNumberTag))) p.

Definition getNumericTypeFor (tag : Z) : optionalQRCodeInfoType :=
  if IsVendorTag tag then optionalQRCodeInfoTypeInt32
  else if tag =? kSerialNumberTag then optionalQRCodeInfoTypeUInt32
  else optionalQRCodeInfoTypeUnknown.

(** The random source, one result of [DRBG_get_bytes] per call: [maxRetries] draws. *)
Fixpoint draw_pin (drbg : nat -> result Z) (retries more : nat) : result Z :=
  match more with
  | O => Err CHIP_ERROR_INTERNAL
  | S more =>
      let* r := drbg retries in
      let setupPINCode := Z.rem (wrap 32 r) kSetupPINCodeMaximumValue + 1 in
      if IsValidSetupPIN setupPINCode then Ok setupPINCode
      else draw_pin drbg (S retries) more
  end.

Definition maxRetries : nat := 10.
Definition generateRandomSetupPin (drbg : nat -> result Z) : result Z := draw_pin drbg 0 maxRetries.

Definition same_info (a b : OptionalQRCodeInfo) : bool :=
  bool_decide (type a = type b) && bool_decide (data a = data b) && (int32 a =? int32 b).

Definition same_extension (a b : OptionalQRCodeInfoExtension) : bool :=
  same_info (info a) (info b) && (int64 a =? int64 b) && (uint32 a =? uint32 b) && (uint64 a =? uint64 b).

(** [operator==]: [self] is compared with every entry of [input]. *)
Definition SetupPayload_eq (self input : SetupPayload) : bool :=
  PayloadContents_eq (contents self) (contents input) &&
  (length (optionalVendorData self) =? length (getAllOptionalVendorData input))%nat &&
  forallb (fun inputInfo =>
             match getOptionalVendorData (tag inputInfo) self with
             | Ok i => same_info inputInfo i
             | Err _ => false
             end) (getAllOptionalVendorData input) &&
  (length (optionalExtensionData self) =? length (getAllOptionalExtensionData input))%nat &&
  forallb (fun inputInfo =>
             match getOptionalExtensionData (tag (info inputInfo)) self with
             | Ok i => same_extension inputInfo i
             | Err _ => false
             end) (getAllOptionalExtensionData input).

(** ** Ordered maps *)

Section OrderedMapLaws.
Context {V : Type}.
Implicit Types (m : list (Z * V)).

Definition ordered m : Prop := StronglySorted Z.lt m.*1.

Lemma map_find_elem k v m : map_find k m = Some v -> (k, v) ∈ m.
Proof.
  induction m as [|[k' v'] m IH]; cbn [map_find]; [done|].
  destruct (Z.eqb_spec k k') as [->|]; intros; simplify_eq; [by left|right; auto].
Qed.

Lemma map_find_ordered k v m : ordered m -> (k, v) ∈ m -> map_find k m = Some v.
Proof.
  unfold ordered; induction m as [|[k' v'] m IH]; [by intros _ ?%elem_of_nil|].
  cbn; intros [Hs Hk]%StronglySorted_inv [E|E]%elem_of_cons; [simplify_eq; by rewrite Z.eqb_refl|].
  destruct (Z.eqb_spec k k') as [->|]; [|auto]; exfalso.
  rewrite list.Forall_forall in Hk; specialize (Hk k'); cut (k' < k'); [lia|].
  by apply Hk, (list_elem_of_fmap_2 fst _ (k', v)).
Qed.

Lemma map_set_elem k v m e : e ∈ map_set k v m -> e = (k, v) \/ e ∈ m.
Proof.
  induction m as [|[k' v'] m IH]; cbn [map_set]; [intros ?%list_elem_of_singleton; auto|].
  destruct (Z.ltb_spec k k'); [intros [->|]%elem_of_cons; auto|].
  destruct (Z.eqb_spec k k'); intros [->|He]%elem_of_cons; auto; try (right; by constructor).
  destruct (IH He); auto; right; by constructor.
Qed.

Lemma map_set_ordered k v m : ordered m -> ordered (map_set k v m).
Proof.
  unfold ordered; induction m as [|[k' v'] m IH]; cbn [map_set]; [repeat constructor|].
  cbn; intros [Hs Hk]%StronglySorted_inv.
  destruct (Z.ltb_spec k k'); cbn.
  { constructor; [by constructor|]; constructor; [done|].
    eapply Forall_impl; [|exact Hk]; simpl; lia. }
  destruct (Z.eqb_spec k k') as [->|]; cbn; constructor; auto.
  apply Forall_fmap, list.Forall_forall; intros [k2 v2] [E|E]%map_set_elem; simpl.
  - simplify_eq; lia.
  - rewrite list.Forall_forall in Hk; by apply Hk, (list_elem_of_fmap_2 fst _ (k2, v2)).
Qed.

Lemma map_erase_ordered k m : ordered m -> ordered (map_erase k m).
Proof.
  unfold ordered, map_erase; induction m as [|[k' v'] m IH]; [done|].
  intros [Hs Hk]%StronglySorted_inv; rewrite filter_cons; case_decide; [|auto].
  constructor; [auto|]; apply Forall_fmap, list.Forall_forall; intros e [_ He]%list_elem_of_filter.
  rewrite list.Forall_forall in Hk; by apply Hk, list_elem_of_fmap_2.
Qed.

Lemma map_find_set k k' v m :
  map_find k' (map_set k v m) = if k' =? k then Some v else map_find k' m.
Proof.
  induction m as [|[k2 v2] m IH]; cbn [map_set map_find]; [done|].
  destruct (Z.ltb_spec k k2); cbn [map_find]; [done|].
  destruct (Z.eqb_spec k k2) as [->|]; cbn [map_find]; [by destruct (k' =? k2)|].
  rewrite IH; repeat bcase; lia || done.
Qed.

Lemma map_find_erase k m : ordered m -> map_find k (map_erase k m) = None.
Proof.
  intros _; destruct (map_find k _) eqn:E; [|done]; exfalso.
  by apply map_find_elem in E; apply list_elem_of_filter in E as [].
Qed.

(** Appending the greatest key. *)
Lemma map_set_snoc k v m : Forall (fun e => e.1 < k) m -> map_set k v m = m ++ [(k, v)].
Proof.
  induction 1 as [|[k' v'] m Hk _ IH]; cbn [map_set app]; [done|]; simpl in Hk.
  rewrite (proj2 (Z.ltb_ge _ _)), (proj2 (Z.eqb_neq _ _)) by lia; by rewrite IH.
Qed.

(** Two ordered maps of the same size, one inside the other, are equal. *)
Lemma ordered_subset_eq m1 m2 :
  ordered m1 -> ordered m2 -> length m1 = length m2 -> (forall e, e ∈ m2 -> e ∈ m1) -> m1 = m2.
Proof.
  unfold ordered; revert m2; induction m1 as [|[k1 v1] m1 IH]; intros [|[k2 v2] m2]; try done.
  cbn; intros [Hs1 Hk1]%StronglySorted_inv [Hs2 Hk2]%StronglySorted_inv Hl Hsub.
  rewrite list.Forall_forall in Hk1, Hk2.
  assert (forall e, e ∈ m2 -> e ∈ m1) as Hsub'.
  { intros [k v] He; assert (k2 < k) by (by apply Hk2, (list_elem_of_fmap_2 fst _ (k, v))).
    assert ((k2, v2) ∈ (k1, v1) :: m1) as H2 by (apply Hsub; by left).
    assert ((k, v) ∈ (k1, v1) :: m1) as H1 by (apply Hsub; by right).
    apply elem_of_cons in H1 as [H1|H1]; [|done]; apply elem_of_cons in H2 as [H2|H2]; simplify_eq; [lia|].
    assert (k1 < k2) by (by apply Hk1, (list_elem_of_fmap_2 fst _ (k2, v2))); lia. }
  assert (m1 = m2) as -> by (apply IH; try done; lia).
  assert ((k2, v2) ∈ (k1, v1) :: m2) as H2 by (apply Hsub; by left).
  apply elem_of_cons in H2 as [H2|H2]; [by simplify_eq|].
  assert (k2 < k2) by (by apply Hk2, (list_elem_of_fmap_2 fst _ (k2, v2))); lia.
Qed.

End OrderedMapLaws.

(** ** Well-formed payloads *)

Definition payload_wf (p : SetupPayload) : Prop :=
  ordered (optionalVendorData p) /\ ordered (optionalExtensionData p) /\
  Forall (fun e => e.1 = tag e.2 /\ is_u8 e.1 /\ IsVendorTag e.1 = true) (optionalVendorData p) /\
  Forall (fun e => e.1 = tag (info e.2) /\ is_u8 e.1 /\ IsCommonTag e.1 = true)
         (optionalExtensionData p).

(** A change of one map by [map_set] with a valid entry, or by [map_erase]. *)
Lemma map_set_Forall {V} (P : Z * V -> Prop) k v m : P (k, v) -> Forall P m -> Forall P (map_set k v m).
Proof.
  intros Hv Hm; apply list.Forall_forall; intros e [->|He]%map_set_elem; [done|].
  by rewrite list.Forall_forall in Hm; apply Hm.
Qed.

Lemma addOptionalVendorData_wf i p :
  is_u8 (tag i) -> payload_wf p -> payload_wf (addOptionalVendorData i p).2.
Proof.
  intros Ht (O1 & O2 & F1 & F2); unfold addOptionalVendorData, bind, verify.
  destruct (IsVendorTag (tag i)) eqn:E; simpl; [|done]; unfold payload_wf; simpl.
  split_and!; [by apply map_set_ordered|done|by apply map_set_Forall|done].
Qed.

Lemma addOptionalExtensionData_wf i p :
  is_u8 (tag (info i)) -> payload_wf p -> payload_wf (addOptionalExtensionData i p).2.
Proof.
  intros Ht (O1 & O2 & F1 & F2); unfold addOptionalExtensionData, bind, verify.
  destruct (IsCommonTag (tag (info i))) eqn:E; simpl; [|done]; unfold payload_wf; simpl.
  split_and!; [done|by apply map_set_ordered|done|by apply map_set_Forall].
Qed.

(** ** Equality *)

Lemma PayloadContents_eq_spec a b : PayloadContents_eq a b = true <-> a = b.
Proof.
  destruct a, b; unfold PayloadContents_eq; simpl.
  rewrite !andb_true_iff, !Z.eqb_eq, bool_decide_eq_true, SetupDiscriminator.eqb_eq.
  split; [intros; destruct_and!; by subst|intros [=]; by subst].
Qed.

Lemma same_info_spec a b : tag a = tag b -> same_info a b = true <-> a = b.
Proof.
  destruct a, b; unfold same_info; simpl; intros ->.
  rewrite !andb_true_iff, !bool_decide_eq_true, Z.eqb_eq.
  split; [intros; destruct_and!; by subst|intros [=]; by subst].
Qed.

Lemma same_extension_spec a b : tag (info a) = tag (info b) -> same_extension a b = true <-> a = b.
Proof.
  intros E; unfold same_extension; rewrite !andb_true_iff, (same_info_spec _ _ E), !Z.eqb_eq.
  destruct a, b; simpl; split; [intros; destruct_and!; by subst|intros [=]; by subst].
Qed.

(** One half of [operator==], for either map. *)
Lemma maps_equal {V} (key : V -> Z) (same : V -> V -> bool) m1 m2 :
  (forall a b, key a = key b -> same a b = true <-> a = b) ->
  ordered m1 -> ordered m2 -> Forall (fun e => e.1 = key e.2) m1 -> Forall (fun e => e.1 = key e.2) m2 ->
  (length m1 =? length m2.*2)%nat &&
  forallb (fun i => match map_find (key i) m1 with Some j => same i j | None => false end) m2.*2 = true
  <-> m1 = m2.
Proof.
  intros Hsame O1 O2 K1 K2; rewrite andb_true_iff, Nat.eqb_eq, length_fmap, forallb_forall.
  rewrite list.Forall_forall in K1, K2; split.
  - intros [Hl H]; apply ordered_subset_eq; [done..|]; intros [k i] He.
    assert (In i m2.*2) as Hi by (by apply list_elem_of_In, (list_elem_of_fmap_2 snd _ (k, i))).
    specialize (H i Hi); destruct (map_find (key i) m1) as [j|] eqn:E; [|done].
    apply map_find_elem in E; apply Hsame in H as <-; [|exact (K1 _ E)].
    pose proof (K2 _ He) as Ek; simpl in Ek; by rewrite Ek.
  - intros ->; split; [done|]; intros i Hi; apply list_elem_of_In, list_elem_of_fmap in Hi.
    destruct Hi as ([k j] & -> & He); pose proof (K2 _ He) as E; simpl in E |- *; subst.
    rewrite (map_find_ordered _ _ _ O2 He); by apply Hsame.
Qed.

Lemma forallb_result {A V} (f : A -> option V) (g : A -> V -> bool) (e : CHIP_ERROR) l :
  forallb (fun a => match match f a with Some i => Ok i | None => Err e end with
                    | Ok i => g a i | Err _ => false end) l =
  forallb (fun a => match f a with Some i => g a i | None => false end) l.
Proof. induction l as [|a l IH]; simpl; [done|]; rewrite IH; by destruct (f a). Qed.

Lemma andb_assoc_2 a b c d : a && b && c && d = a && (b && c) && d.
Proof. by destruct a, b, c, d. Qed.

(** [operator==] decides equality of payloads: for payloads whose maps are in order
    and keyed by their tags, as every operation keeps them, it answers true exactly
    when contents, vendor data and extension data are equal. *)
Theorem payload_equality p q (Hp : payload_wf p) (Hq : payload_wf q) :
  SetupPayload_eq p q = true <-> p = q.
Proof.
  destruct Hp as (O1 & O2 & F1 & F2), Hq as (O3 & O4 & F3 & F4).
  unfold SetupPayload_eq, getOptionalVendorData, getOptionalExtensionData.
  rewrite !forallb_result; unfold getAllOptionalVendorData, getAllOptionalExtensionData.
  rewrite <-(andb_assoc (_ && _ && _) _ _), (andb_assoc_2 (PayloadContents_eq _ _)), !andb_true_iff.
  rewrite PayloadContents_eq_spec, <-!andb_true_iff.
  rewrite (maps_equal tag same_info); [|apply same_info_spec|done..| |];
    [rewrite (maps_equal (fun e => tag (info e)) same_extension); [|apply same_extension_spec|done..| |]|..];
    [destruct p, q; simpl; naive_solver|
     eapply Forall_impl; [|eassumption]; simpl; naive_solver..].
Qed.

(** ** The other operations *)

Lemma map_erase_Forall {V} (P : Z * V -> Prop) k m : Forall P m -> Forall P (map_erase k m).
Proof.
  rewrite !list.Forall_forall; intros H e [_ He]%list_elem_of_filter; by apply H.
Qed.

Lemma removeOptionalVendorData_wf t p : payload_wf p -> payload_wf (removeOptionalVendorData t p).2.
Proof.
  intros (O1 & O2 & F1 & F2); unfold removeOptionalVendorData, bind, verify.
  case_bool_decide; simpl; [|done]; unfold payload_wf; simpl; split_and!; [|done| |done].
  - by apply map_erase_ordered.
  - by apply map_erase_Forall.
Qed.

Lemma removeSerialNumber_wf p : payload_wf p -> payload_wf (removeSerialNumber p).2.
Proof.
  intros (O1 & O2 & F1 & F2); unfold removeSerialNumber, bind, verify.
  case_bool_decide; simpl; [|done]; unfold payload_wf; simpl; split_and!; [done| |done|].
  - by apply map_erase_ordered.
  - by apply map_erase_Forall.
Qed.

Lemma get_after_add i t p :
  IsVendorTag (tag i) = true ->
  getOptionalVendorData t (addOptionalVendorData i p).2 =
  if t =? tag i then Ok i else getOptionalVendorData t p.
Proof.
  intros E; unfold addOptionalVendorData, bind, verify; rewrite E; cbn.
  unfold getOptionalVendorData; cbn; rewrite map_find_set; by destruct (t =? tag i).
Qed.

Lemma get_after_remove t p :
  payload_wf p -> getOptionalVendorData t (removeOptionalVendorData t p).2 = Err CHIP_ERROR_KEY_NOT_FOUND.
Proof.
  intros (O1 & _); unfold removeOptionalVendorData, bind, verify, getOptionalVendorData.
  case_bool_decide as H; cbn; [by rewrite map_find_erase|].
  destruct (map_find t _) eqn:E; [|done]; by destruct H.
Qed.

Lemma draw_pin_valid drbg retries more pin :
  draw_pin drbg retries more = Ok pin -> 0 < pin /\ IsValidSetupPIN pin = true.
Proof.
  revert retries; induction more as [|more IH]; intros retries; cbn [draw_pin]; [done|].
  destruct (drbg retries) as [r|]; cbn [rbind]; [|done].
  case_match eqn:E; [|apply IH]; intros; simplify_eq; split; [|done].
  pose proof (wrap_range 32 r); unfold is_uint in *.
  pose proof (Z.rem_nonneg (wrap 32 r) kSetupPINCodeMaximumValue); unfold kSetupPINCodeMaximumValue in *; lia.
Qed.

(** Whatever the random source delivers, a generated passcode is a valid one. *)
Lemma random_pin_valid drbg pin :
  generateRandomSetupPin drbg = Ok pin -> 1 <= pin <= 99999998 /\ IsValidSetupPIN pin = true.
Proof.
  intros [Hpos E]%draw_pin_valid; split; [|done]; revert E; unfold IsValidSetupPIN.
  rewrite negb_true_iff, !orb_false_iff, Z.ltb_ge; unfold kSetupPINCodeMaximumValue; lia.
Qed.

Definition example_info : OptionalQRCodeInfo := MkInfo 0x82 optionalQRCodeInfoTypeString [109; 121] 0.
Definition example_payload : SetupPayload :=
  (addSerialNumber_uint32 17 (addOptionalVendorData_int32 0x81 (-5)
    (addOptionalVendorData example_info SetupPayload_init).2).2).2.

Lemma example_payload_wf : payload_wf example_payload.
Proof.
  repeat first [apply addOptionalExtensionData_wf | apply addOptionalVendorData_wf];
    try (split; vm_compute; congruence || done).
  repeat constructor.
Qed.

Lemma payload_equality_witness :
  SetupPayload_eq example_payload example_payload = true /\
  SetupPayload_eq example_payload (removeSerialNumber example_payload).2 = false.
Proof.
  split.
  - by apply (payload_equality example_payload example_payload); [apply example_payload_wf..|].
  - vm_compute; reflexivity.
Defined.
