(* ===== verification/ManualCode.v ===== *)
(** * ManualCode: the manual pairing code

    src/src/setup_payload/{ManualSetupPayloadGenerator,ManualSetupPayloadParser}.{h,cpp}.

    A code has 10 or 20 decimal digits, which carry a short discriminator, the passcode
    and, in the long form, vendor and product, and ends with a check digit.

    - [payloadDecimalStringRepresentation]: the generator, into a character buffer;
    - [populatePayload]: the parser;
    - a generated code parses to the payload it was made from, with dashes put in
      anywhere, and with one digit wrong or two neighbours swapped it is refused. *)

From S2P Require Import Prelude Encoding Verhoeff SetupPayload.

(** ** The generator *)

Definition chunk1PayloadRepresentation (payload : PayloadContents) : Z :=
  let kDiscriminatorShift :=
    kManualSetupDiscriminatorFieldLengthInBits - kManualSetupChunk1DiscriminatorMsbitsLength in
  let kDiscriminatorMask := Z.shiftl 1 kManualSetupChunk1DiscriminatorMsbitsLength - 1 in
  let discriminatorChunk :=
    Z.land (Z.shiftr (SetupDiscriminator.GetShortValue (discriminator payload)) kDiscriminatorShift)
           kDiscriminatorMask in
  let vidPidPresentFlag := if commissioningFlow payload =? CommissioningFlow.kStandard then 0 else 1 in
  Z.lor (wrap 32 (Z.shiftl discriminatorChunk kManualSetupChunk1DiscriminatorMsbitsPos))
        (wrap 32 (Z.shiftl vidPidPresentFlag kManualSetupChunk1VidPidPresentBitPos)).

Definition chunk2PayloadRepresentation (payload : PayloadContents) : Z :=
  let kDiscriminatorMask := Z.shiftl 1 kManualSetupChunk2DiscriminatorLsbitsLength - 1 in
  let kPincodeMask := Z.shiftl 1 kManualSetupChunk2PINCodeLsbitsLength - 1 in
  let discriminatorChunk :=
    Z.land (SetupDiscriminator.GetShortValue (discriminator payload)) kDiscriminatorMask in
  Z.lor (wrap 32 (Z.shiftl (Z.land (setUpPINCode payload) kPincodeMask) kManualSetupChunk2PINCodeLsbitsPos))
        (wrap 32 (Z.shiftl discriminatorChunk kManualSetupChunk2DiscriminatorLsbitsPos)).

Definition chunk3PayloadRepresentation (payload : PayloadContents) : Z :=
  let kPincodeShift := Z.of_nat kSetupPINCodeFieldLengthInBits - kManualSetupChunk3PINCodeMsbitsLength in
  let kPincodeMask := Z.shiftl 1 kManualSetupChunk3PINCodeMsbitsLength - 1 in
  wrap 32 (Z.shiftl (Z.land (Z.shiftr (setUpPINCode payload) kPincodeShift) kPincodeMask)
                    kManualSetupChunk3PINCodeMsbitsPos).

(** The text of [snprintf] for ["%0*" PRIu32]. *)
Definition padded (len : nat) (number : Z) : bytes :=
  replicate (len - length (decimal number)) 48 ++ decimal number.

(** [decimalStringWithPadding] on the span of [size] characters at [offset] of the
    buffer: [snprintf] cuts the text to the span and ends it with a NUL. *)
Definition decimalStringWithPadding (offset size : nat) (number : Z) : M bytes unit := fun out =>
  let text := padded (size - 1) number in
  let out := mem_write offset (take (size - 1) text ++ [0]) out in
  (if (size <=? length text)%nat then Err CHIP_ERROR_BUFFER_TOO_SMALL else Ok tt, out).

Record ManualSetupPayloadGenerator := MkGenerator {
  mPayloadContents : PayloadContents;
  mAllowInvalidPayload : bool;
  mForceShortCode : bool }.

Definition ManualSetupPayloadGenerator_new (payload : PayloadContents) : ManualSetupPayloadGenerator :=
  MkGenerator payload false false.
Definition SetAllowInvalidPayload (allow : bool) (g : ManualSetupPayloadGenerator) :=
  MkGenerator (mPayloadContents g) allow (mForceShortCode g).
Definition SetForceShortCode (useShort : bool) (g : ManualSetupPayloadGenerator) :=
  MkGenerator (mPayloadContents g) (mAllowInvalidPayload g) useShort.

Definition useLongCode (g : ManualSetupPayloadGenerator) : bool :=
  negb (commissioningFlow (mPayloadContents g) =? CommissioningFlow.kStandard) &&
  negb (mForceShortCode g).

(** The check digit, computed over the NUL-terminated text in the buffer. *)
Definition put_check_digit (offset : nat) : M bytes unit := fun out =>
  decimalStringWithPadding offset 2
    (wrap 32 (Verhoeff10.CharToVal (Verhoeff10.ComputeCheckChar out))) out.

(** The state is the memory of [outBuffer]; the value is its size afterwards. *)
Definition payloadDecimalStringRepresentation (g : ManualSetupPayloadGenerator) : M bytes nat :=
  let p := mPayloadContents g in
  verify (mAllowInvalidPayload g || isValidManualCode kProduce p) CHIP_ERROR_INVALID_ARGUMENT ;;
  let! out := get in
  verify (negb ((useLongCode g && (length out <? kManualSetupLongCodeCharLength + 2)%nat) ||
                (negb (useLongCode g) && (length out <? kManualSetupShortCodeCharLength + 2)%nat)))
         CHIP_ERROR_BUFFER_TOO_SMALL ;;
  let offset := 0%nat in
  decimalStringWithPadding offset (kManualSetupCodeChunk1CharLength + 1)
    (chunk1PayloadRepresentation p) ;;
  let offset := (offset + kManualSetupCodeChunk1CharLength)%nat in
  decimalStringWithPadding offset (kManualSetupCodeChunk2CharLength + 1)
    (chunk2PayloadRepresentation p) ;;
  let offset := (offset + kManualSetupCodeChunk2CharLength)%nat in
  decimalStringWithPadding offset (kManualSetupCodeChunk3CharLength + 1)
    (chunk3PayloadRepresentation p) ;;
  let offset := (offset + kManualSetupCodeChunk3CharLength)%nat in
  let! offset :=
    (if useLongCode g then
       decimalStringWithPadding offset (kManualSetupVendorIdCharLength + 1) (vendorID p) ;;
       let offset := (offset + kManualSetupVendorIdCharLength)%nat in
       decimalStringWithPadding offset (kManualSetupProductIdCharLength + 1) (productID p) ;;
       ret (offset + kManualSetupProductIdCharLength)%nat
     else ret offset) in
  put_check_digit offset ;;
  ret (offset + 1)%nat.

(** The wrapper for [std::string]. *)
Definition payloadDecimalStringRepresentation_string (g : ManualSetupPayloadGenerator) : result bytes :=
  match payloadDecimalStringRepresentation g (replicate (kManualSetupLongCodeCharLength + 1 + 1) 0) with
  | (Ok _, decimalString) => Ok (c_string decimalString)
  | (Err e, _) => Err e
  end.

(** ** The parser *)

(** The constructor strips the dashes. *)
Definition strip_dashes (s : bytes) : bytes := filter (fun c => c <> 45) s.

Definition CheckDecimalStringValidity (decimalString : bytes) : result bytes :=
  if (length decimalString <? 2)%nat then Err CHIP_ERROR_INVALID_STRING_LENGTH
  else
    let repWithoutCheckChar := take (length decimalString - 1) decimalString in
    let checkChar := last decimalString 0 in
    if negb (Verhoeff10.ValidateCheckChar checkChar repWithoutCheckChar)
    then Err CHIP_ERROR_INTEGRITY_CHECK_FAILED else Ok repWithoutCheckChar.

Definition CheckCodeLengthValidity (decimalString : bytes) (isLongCode : bool) : CHIP_ERROR :=
  let expectedCharLength :=
    if isLongCode then kManualSetupLongCodeCharLength else kManualSetupShortCodeCharLength in
  if (length decimalString =? expectedCharLength)%nat then CHIP_NO_ERROR
  else CHIP_ERROR_INVALID_STRING_LENGTH.

(** [isdigit(c)] for a plain [char], which is signed: a character from 0x80 up is a
    negative [int], and C leaves [isdigit] undefined there, except at EOF. *)
Definition isdigit (c : Z) : result bool :=
  if (c <? 0x80) || (c =? 0xFF) then Ok ((48 <=? c) && (c <=? 57)) else Err UNDEFINED_BEHAVIOUR.

Fixpoint ToNumber_loop (decimalString : bytes) (number : Z) : result Z :=
  match decimalString with
  | [] => Ok number
  | c :: decimalString =>
      let* digit := isdigit c in
      if negb digit then Err CHIP_ERROR_INVALID_INTEGER_VALUE
      else ToNumber_loop decimalString (wrap 32 (wrap 32 (number * 10) + (c - 48)))
  end.
Definition ToNumber (decimalString : bytes) : result Z := ToNumber_loop decimalString 0.

(** The number and the index afterwards. *)
Definition ReadDigitsFromDecimalString (decimalString : bytes) (index numberOfCharsToRead : nat) :
  result (Z * nat) :=
  if (length decimalString <? numberOfCharsToRead)%nat ||
     (length decimalString <? numberOfCharsToRead + index)%nat
  then Err CHIP_ERROR_INVALID_STRING_LENGTH
  else let* dest := ToNumber (take numberOfCharsToRead (drop index decimalString)) in
       Ok (dest, index + numberOfCharsToRead)%nat.

(** [CanCastTo<uint16_t>]. *)
Definition CanCastTo_u16 (v : Z) : bool := v <=? 0xFFFF.

Definition assign (f : PayloadContents -> PayloadContents) : M SetupPayload unit :=
  modify (set_contents f).
Definition set_vendorID (v : Z) (p : PayloadContents) : PayloadContents :=
  MkContents (version p) v (productID p) (commissioningFlow p) (rendezvousInformation p)
             (discriminator p) (setUpPINCode p).
Definition set_productID (v : Z) (p : PayloadContents) : PayloadContents :=
  MkContents (version p) (vendorID p) v (commissioningFlow p) (rendezvousInformation p)
             (discriminator p) (setUpPINCode p).
Definition set_commissioningFlow (v : Z) (p : PayloadContents) : PayloadContents :=
  MkContents (version p) (vendorID p) (productID p) v (rendezvousInformation p)
             (discriminator p) (setUpPINCode p).
Definition set_discriminator (d : SetupDiscriminator.t) (p : PayloadContents) : PayloadContents :=
  MkContents (version p) (vendorID p) (productID p) (commissioningFlow p) (rendezvousInformation p)
             d (setUpPINCode p).
Definition set_setUpPINCode (v : Z) (p : PayloadContents) : PayloadContents :=
  MkContents (version p) (vendorID p) (productID p) (commissioningFlow p) (rendezvousInformation p)
             (discriminator p) v.

(** The bits the three chunks carry. *)
Definition read_discriminator (chunk1 chunk2 : Z) : Z :=
  let kDiscriminatorMsbitsMask := Z.shiftl 1 kManualSetupChunk1DiscriminatorMsbitsLength - 1 in
  let kDiscriminatorLsbitsMask := Z.shiftl 1 kManualSetupChunk2DiscriminatorLsbitsLength - 1 in
  Z.lor (Z.land (Z.shiftr chunk2 kManualSetupChunk2DiscriminatorLsbitsPos) kDiscriminatorLsbitsMask)
        (wrap 32 (Z.shiftl (Z.land (Z.shiftr chunk1 kManualSetupChunk1DiscriminatorMsbitsPos)
                                   kDiscriminatorMsbitsMask)
                           kManualSetupChunk2DiscriminatorLsbitsLength)).

Definition read_pin (chunk2 chunk3 : Z) : Z :=
  let kPincodeMsbitsMask := Z.shiftl 1 kManualSetupChunk3PINCodeMsbitsLength - 1 in
  let kPincodeLsbitsMask := Z.shiftl 1 kManualSetupChunk2PINCodeLsbitsLength - 1 in
  Z.lor (Z.land (Z.shiftr chunk2 kManualSetupChunk2PINCodeLsbitsPos) kPincodeLsbitsMask)
        (wrap 32 (Z.shiftl (Z.land (Z.shiftr chunk3 kManualSetupChunk3PINCodeMsbitsPos)
                                   kPincodeMsbitsMask)
                           kManualSetupChunk2PINCodeLsbitsLength)).

(** The state is [outPayload]; [representation] is the string given to the constructor. *)
Definition populatePayload (representation : bytes) : M SetupPayload unit :=
  let! rep := lift (CheckDecimalStringValidity (strip_dashes representation)) in
  let! (chunk1, stringOffset) :=
    lift (ReadDigitsFromDecimalString rep 0 kManualSetupCodeChunk1CharLength) in
  let! (chunk2, stringOffset) :=
    lift (ReadDigitsFromDecimalString rep stringOffset kManualSetupCodeChunk2CharLength) in
  let! (chunk3, stringOffset) :=
    lift (ReadDigitsFromDecimalString rep stringOffset kManualSetupCodeChunk3CharLength) in
  verify (negb ((chunk1 =? 8) || (chunk1 =? 9))) CHIP_ERROR_INVALID_ARGUMENT ;;
  let isLongCode := Z.land (Z.shiftr chunk1 kManualSetupChunk1VidPidPresentBitPos) 1 =? 1 in
  verify (bool_decide (CheckCodeLengthValidity rep isLongCode = CHIP_NO_ERROR))
         (CheckCodeLengthValidity rep isLongCode) ;;
  verify (negb (read_pin chunk2 chunk3 =? 0)) CHIP_ERROR_INVALID_ARGUMENT ;;
  when isLongCode
    (let! (vendorID, stringOffset) :=
       lift (ReadDigitsFromDecimalString rep stringOffset kManualSetupVendorIdCharLength) in
     let! (productID, stringOffset) :=
       lift (ReadDigitsFromDecimalString rep stringOffset kManualSetupProductIdCharLength) in
     verify (CanCastTo_u16 vendorID) CHIP_ERROR_INVALID_INTEGER_VALUE ;;
     assign (set_vendorID (wrap 16 vendorID)) ;;
     verify (CanCastTo_u16 productID) CHIP_ERROR_INVALID_INTEGER_VALUE ;;
     assign (set_productID (wrap 16 productID))) ;;
  assign (set_commissioningFlow
            (if isLongCode then CommissioningFlow.kCustom else CommissioningFlow.kStandard)) ;;
  assign (set_setUpPINCode (read_pin chunk2 chunk3)) ;;
  let! d := lift (SetupDiscriminator.SetShortValue (wrap 8 (read_discriminator chunk1 chunk2))) in
  assign (set_discriminator d).

(** ** Decimal numbers *)

(** The [len] low decimal digits, last one first. *)
Fixpoint low_digits (len : nat) (n : Z) : bytes :=
  match len with
  | O => []
  | S len => 48 + n mod 10 :: low_digits len (n / 10)
  end.

Definition fixed_digits (len : nat) (n : Z) : bytes := reverse (low_digits len n).

Lemma length_fixed_digits len n : length (fixed_digits len n) = len.
Proof. unfold fixed_digits; rewrite length_reverse; revert n; induction len; simpl; auto. Qed.
#[export] Hint Rewrite length_fixed_digits : chip_len.

Lemma low_digits_0 len : low_digits len 0 = replicate len 48.
Proof. induction len; simpl; [done|]; by f_equal. Qed.

Lemma fixed_digits_chars len n : Forall Verhoeff10.is_digit_char (fixed_digits len n).
Proof.
  apply Forall_reverse; revert n; induction len as [|len IH]; intros n; cbn [low_digits]; constructor;
    [|apply IH].
  pose proof (Z.mod_pos_bound n 10); unfold Verhoeff10.is_digit_char; lia.
Qed.

Lemma decimal_rev_pad fuel len n :
  (len <= fuel)%nat -> (0 < len)%nat -> 0 <= n < 10 ^ Z.of_nat len ->
  (length (decimal_rev fuel n) <= len)%nat /\
  decimal_rev fuel n ++ replicate (len - length (decimal_rev fuel n)) 48 = low_digits len n.
Proof.
  revert fuel n; induction len as [|len IH]; intros [|fuel] n Hf Hl Hn; try lia.
  cbn [decimal_rev low_digits]; destruct (Z.ltb_spec n 10).
  - cbn [length app]; split; [lia|]; f_equal; rewrite (Z.div_small n 10), low_digits_0 by lia.
    f_equal; lia.
  - replace (Z.of_nat (S len)) with (Z.of_nat len + 1) in Hn by lia; rewrite Z.pow_add_r in Hn by lia.
    destruct (IH fuel (n / 10)) as [I1 I2]; [lia| | |].
    + destruct len; [simpl in Hn; lia|lia].
    + split; [apply Z.div_pos; lia|apply Z.div_lt_upper_bound; lia].
    + cbn [length app]; split; [lia|]; by rewrite <-I2.
Qed.

Lemma padded_fixed len n :
  (0 < len <= 20)%nat -> 0 <= n < 10 ^ Z.of_nat len -> padded len n = fixed_digits len n.
Proof.
  intros Hl Hn; unfold padded, decimal, fixed_digits; rewrite length_reverse.
  destruct (decimal_rev_pad 20 len n) as [_ <-]; [lia..|].
  rewrite reverse_app; f_equal; symmetry; apply reverse_replicate.
Qed.

Lemma ToNumber_loop_app l1 l2 a :
  ToNumber_loop (l1 ++ l2) a = (let* b := ToNumber_loop l1 a in ToNumber_loop l2 b).
Proof.
  revert a; induction l1 as [|c l1 IH]; intros a; cbn [app ToNumber_loop rbind]; [done|].
  by destruct (isdigit c) as [[]|]; cbn [rbind negb].
Qed.

Lemma isdigit_ascii c : c < 0x80 -> isdigit c = Ok ((48 <=? c) && (c <=? 57)).
Proof. intros H; unfold isdigit; by rewrite (proj2 (Z.ltb_lt _ _) H). Qed.

Lemma isdigit_digit n : isdigit (48 + n mod 10) = Ok true.
Proof.
  pose proof (Z.mod_pos_bound n 10); rewrite isdigit_ascii by lia; f_equal.
  apply andb_true_iff; split; apply Z.leb_le; lia.
Qed.

Lemma ToNumber_fixed len n :
  0 <= n < 10 ^ Z.of_nat len -> (len <= 9)%nat -> ToNumber (fixed_digits len n) = Ok n.
Proof.
  unfold ToNumber, fixed_digits; revert n; induction len as [|len IH]; intros n Hn Hl.
  { simpl in *; f_equal; lia. }
  cbn [low_digits]; rewrite reverse_cons, ToNumber_loop_app.
  replace (Z.of_nat (S len)) with (Z.of_nat len + 1) in Hn by lia; rewrite Z.pow_add_r in Hn by lia.
  assert (10 ^ Z.of_nat len <= 10 ^ 8) by (apply Z.pow_le_mono_r; lia).
  assert (0 <= n / 10) by (apply Z.div_pos; lia).
  assert (n / 10 < 10 ^ Z.of_nat len) by (apply Z.div_lt_upper_bound; lia).
  rewrite IH by lia; cbn [rbind ToNumber_loop]; rewrite isdigit_digit; cbn [rbind negb].
  pose proof (Z.div_mod n 10); pose proof (Z.mod_pos_bound n 10).
  rewrite !wrap_small by (unfold is_uint; rewrite ?wrap_small by (unfold is_uint; lia); lia).
  f_equal; lia.
Qed.

(** ** What the generator writes *)

Lemma put_decimal_spec txt rest len n :
  (0 < len <= 20)%nat -> 0 <= n < 10 ^ Z.of_nat len -> (len < length rest)%nat ->
  exists rest', decimalStringWithPadding (length txt) (len + 1) n (txt ++ rest) =
                (Ok tt, (txt ++ fixed_digits len n) ++ 0 :: rest') /\
                (length rest' = length rest - len - 1)%nat.
Proof.
  intros Hl Hn Hr; exists (drop (len + 1) rest); split; [|len].
  unfold decimalStringWithPadding; rewrite Nat.add_sub, padded_fixed by done.
  rewrite firstn_all2, length_fixed_digits by len.
  rewrite (proj2 (Nat.leb_gt _ _)) by lia; f_equal; unfold mem_write.
  rewrite take_app_length, drop_app_ge by len; rewrite <-!app_assoc; cbn [app].
  do 4 f_equal; len.
Qed.

Lemma chars_no_nul l : Forall Verhoeff10.is_digit_char l -> Forall (fun c => c <> 0) l.
Proof. intros H; eapply Forall_impl; [|exact H]; unfold Verhoeff10.is_digit_char; simpl; lia. Qed.

Definition check_char (txt : bytes) : Z := Verhoeff10.ComputeCheckChar_len txt (length txt).

Lemma check_loop_prefix txt rest n m c :
  (n <= length txt)%nat ->
  Verhoeff10.check_loop (txt ++ rest) m n c = Verhoeff10.check_loop txt m n c.
Proof.
  revert c; induction n as [|n IH]; intros c Hn; [done|]; cbn [Verhoeff10.check_loop].
  rewrite lookup_app_l by lia; destruct (_ <? 0); [done|]; apply IH; lia.
Qed.

Lemma compute_prefix txt rest :
  Verhoeff10.ComputeCheckChar_len (txt ++ rest) (length txt) = check_char txt.
Proof. unfold check_char, Verhoeff10.ComputeCheckChar_len; by rewrite check_loop_prefix by lia. Qed.

Lemma put_check_spec txt rest :
  Forall Verhoeff10.is_digit_char txt -> (0 < length rest)%nat ->
  exists rest', put_check_digit (length txt) (txt ++ 0 :: rest) =
                (Ok tt, (txt ++ [check_char txt]) ++ 0 :: rest') /\ (length rest' = length rest - 1)%nat.
Proof.
  intros Ht Hr; unfold put_check_digit, Verhoeff10.ComputeCheckChar.
  rewrite (c_string_app txt rest) by (by apply chars_no_nul); rewrite compute_prefix.
  pose proof (Verhoeff10.check_char_digit txt Ht) as Hc; fold (check_char txt) in Hc.
  rewrite Verhoeff10.CharToVal_digit by done; unfold Verhoeff10.val_of, Verhoeff10.is_digit_char in *.
  rewrite wrap_small by (unfold is_uint; lia).
  destruct (put_decimal_spec txt (0 :: rest) 1 (check_char txt - 48)) as (rest' & E & El); [lia|simpl; lia|simpl; lia|].
  exists rest'; change 2%nat with (1 + 1)%nat; rewrite E; split; [|simpl in El; lia].
  do 3 f_equal; unfold fixed_digits; cbn [low_digits reverse rev_append]; f_equal.
  rewrite Z.mod_small by lia; f_equal; lia.
Qed.

(** ** The bits in the chunks *)

Section Chunks.
Context (p : PayloadContents) (Hp : contents_wf p).

#[local] Abbreviation d := (SetupDiscriminator.GetShortValue (discriminator p)).
#[local] Abbreviation flag := (if commissioningFlow p =? CommissioningFlow.kStandard then 0 else 1).

Lemma short_range : 0 <= d < 16.
Proof. apply (SetupDiscriminator.GetShortValue_range (discriminator p)), Hp. Qed.

Lemma flag_range : 0 <= flag <= 1.
Proof. destruct (_ =? CommissioningFlow.kStandard); lia. Qed.

Lemma pin_range : is_u32 (setUpPINCode p).
Proof. apply Hp. Qed.

Lemma mask_low a n : 0 <= n -> Z.land a (Z.shiftl 1 n - 1) = a mod 2 ^ n.
Proof. intros; rewrite Z.shiftl_1_l, <-Z.land_ones by done; f_equal; rewrite Z.ones_equiv; lia. Qed.

(** [a | b << n] for a field [a] of [n] bits. *)
Lemma put_above n a b : 0 <= n -> 0 <= a < 2 ^ n -> Z.lor a (Z.shiftl b n) = a + 2 ^ n * b.
Proof. intros; rewrite Z.lor_comm, lor_shiftl_add by done; lia. Qed.

Lemma chunk1_value : chunk1PayloadRepresentation p = d / 4 + 4 * flag.
Proof.
  pose proof short_range; unfold chunk1PayloadRepresentation.
  change kManualSetupChunk1DiscriminatorMsbitsLength with 2.
  rewrite mask_low by lia; rewrite Z.shiftr_div_pow2 by done.
  change (2 ^ (kManualSetupDiscriminatorFieldLengthInBits - 2)) with 4.
  change kManualSetupChunk1VidPidPresentBitPos with 2; change kManualSetupChunk1DiscriminatorMsbitsPos with 0.
  assert (0 <= d / 4 < 4) by (split; [apply Z.div_pos; lia|apply Z.div_lt_upper_bound; lia]).
  pose proof flag_range; rewrite Z.shiftl_0_r, (Z.mod_small (d / 4)), !wrap_small
    by (unfold is_uint; rewrite ?Z.shiftl_mul_pow2 by lia; lia).
  by rewrite put_above by lia.
Qed.

Lemma chunk2_value : chunk2PayloadRepresentation p = setUpPINCode p mod 16384 + 16384 * (d mod 4).
Proof.
  pose proof short_range; unfold chunk2PayloadRepresentation.
  change kManualSetupChunk2PINCodeLsbitsLength with 14; change kManualSetupChunk2DiscriminatorLsbitsLength with 2.
  change kManualSetupChunk2PINCodeLsbitsPos with 0; change kManualSetupChunk2DiscriminatorLsbitsPos with 14.
  rewrite !mask_low, Z.shiftl_0_r by lia; change (2 ^ 14) with 16384; change (2 ^ 2) with 4.
  pose proof (Z.mod_pos_bound (setUpPINCode p) 16384); pose proof (Z.mod_pos_bound d 4).
  rewrite !wrap_small by (unfold is_uint; rewrite ?Z.shiftl_mul_pow2 by lia; lia).
  rewrite put_above by lia; lia.
Qed.

Lemma chunk3_value : chunk3PayloadRepresentation p = setUpPINCode p / 16384 mod 8192.
Proof.
  unfold chunk3PayloadRepresentation.
  change kManualSetupChunk3PINCodeMsbitsLength with 13; change kManualSetupChunk3PINCodeMsbitsPos with 0.
  rewrite mask_low, Z.shiftl_0_r, Z.shiftr_div_pow2 by done.
  change (2 ^ (Z.of_nat kSetupPINCodeFieldLengthInBits - 13)) with 16384; change (2 ^ 13) with 8192.
  pose proof (Z.mod_pos_bound (setUpPINCode p / 16384) 8192); apply wrap_small; unfold is_uint; lia.
Qed.

Lemma chunk_bounds :
  0 <= chunk1PayloadRepresentation p < 10 ^ 1 /\ 0 <= chunk2PayloadRepresentation p < 10 ^ 5 /\
  0 <= chunk3PayloadRepresentation p < 10 ^ 4.
Proof.
  rewrite chunk1_value, chunk2_value, chunk3_value; pose proof short_range; pose proof flag_range.
  assert (0 <= d / 4 < 4) by (split; [apply Z.div_pos; lia|apply Z.div_lt_upper_bound; lia]).
  pose proof (Z.mod_pos_bound (setUpPINCode p) 16384); pose proof (Z.mod_pos_bound d 4).
  pose proof (Z.mod_pos_bound (setUpPINCode p / 16384) 8192).
  change (10 ^ 1) with 10; change (10 ^ 5) with 100000; change (10 ^ 4) with 10000; lia.
Qed.

Lemma long_flag : (Z.land (Z.shiftr (chunk1PayloadRepresentation p) kManualSetupChunk1VidPidPresentBitPos) 1
                   =? 1) = negb (commissioningFlow p =? CommissioningFlow.kStandard).
Proof.
  rewrite chunk1_value; change kManualSetupChunk1VidPidPresentBitPos with 2; pose proof short_range.
  assert (0 <= d / 4 < 4) by (split; [apply Z.div_pos; lia|apply Z.div_lt_upper_bound; lia]).
  rewrite Z.shiftr_div_pow2 by lia; change (2 ^ 2) with 4.
  rewrite Z.mul_comm, Z.div_add, Z.div_small by lia; by destruct (_ =? CommissioningFlow.kStandard).
Qed.

Lemma read_discriminator_chunks :
  read_discriminator (chunk1PayloadRepresentation p) (chunk2PayloadRepresentation p) = d.
Proof.
  rewrite chunk1_value, chunk2_value; unfold read_discriminator; pose proof short_range.
  change kManualSetupChunk1DiscriminatorMsbitsLength with 2; change kManualSetupChunk2DiscriminatorLsbitsLength with 2.
  change kManualSetupChunk1DiscriminatorMsbitsPos with 0; change kManualSetupChunk2DiscriminatorLsbitsPos with 14.
  rewrite !mask_low, Z.shiftr_0_r, Z.shiftr_div_pow2 by lia; change (2 ^ 14) with 16384; change (2 ^ 2) with 4.
  pose proof (Z.mod_pos_bound (setUpPINCode p) 16384); pose proof (Z.mod_pos_bound d 4).
  rewrite (Z.mul_comm 16384), Z.div_add, Z.div_small, Z.add_0_l, Z.mod_mod by lia.
  rewrite (Z.mul_comm 4), Z.mod_add by lia.
  assert (0 <= d / 4 < 4) by (split; [apply Z.div_pos; lia|apply Z.div_lt_upper_bound; lia]).
  rewrite (Z.mod_small (d / 4)), wrap_small by (unfold is_uint; rewrite ?Z.shiftl_mul_pow2 by lia; lia).
  rewrite put_above by lia; pose proof (Z.div_mod d 4); lia.
Qed.

Lemma read_pin_chunks :
  setUpPINCode p < 2 ^ 27 ->
  read_pin (chunk2PayloadRepresentation p) (chunk3PayloadRepresentation p) = setUpPINCode p.
Proof.
  intros Hpin; rewrite chunk2_value, chunk3_value; unfold read_pin; pose proof pin_range as R.
  unfold is_uint in R.
  change kManualSetupChunk3PINCodeMsbitsLength with 13; change kManualSetupChunk2PINCodeLsbitsLength with 14.
  change kManualSetupChunk2PINCodeLsbitsPos with 0; change kManualSetupChunk3PINCodeMsbitsPos with 0.
  rewrite !mask_low, !Z.shiftr_0_r by lia; change (2 ^ 14) with 16384; change (2 ^ 13) with 8192.
  pose proof (Z.mod_pos_bound (setUpPINCode p) 16384).
  rewrite (Z.mul_comm 16384), Z.mod_add, !Z.mod_mod by lia.
  assert (0 <= setUpPINCode p / 16384 < 8192)
    by (split; [apply Z.div_pos; lia|apply Z.div_lt_upper_bound; lia]).
  rewrite (Z.mod_small (_ / _)), wrap_small by (unfold is_uint; rewrite ?Z.shiftl_mul_pow2 by lia; lia).
  rewrite put_above by lia; pose proof (Z.div_mod (setUpPINCode p) 16384); lia.
Qed.

End Chunks.

(** ** The code of a payload *)

Definition short_digits (p : PayloadContents) : bytes :=
  fixed_digits 1 (chunk1PayloadRepresentation p) ++ fixed_digits 5 (chunk2PayloadRepresentation p) ++
  fixed_digits 4 (chunk3PayloadRepresentation p).

Definition code_digits (long : bool) (p : PayloadContents) : bytes :=
  short_digits p ++ (if long then fixed_digits 5 (vendorID p) ++ fixed_digits 5 (productID p) else []).

Definition code (long : bool) (p : PayloadContents) : bytes :=
  code_digits long p ++ [check_char (code_digits long p)].

Lemma length_code_digits long p :
  length (code_digits long p) =
  if long then kManualSetupLongCodeCharLength else kManualSetupShortCodeCharLength.
Proof. unfold code_digits, short_digits; destruct long; autorewrite with chip_len; done. Qed.

Lemma code_digits_chars long p : Forall Verhoeff10.is_digit_char (code_digits long p).
Proof.
  unfold code_digits, short_digits; rewrite !Forall_app; split_and!; try apply fixed_digits_chars.
  destruct long; [|constructor]; apply Forall_app; split; apply fixed_digits_chars.
Qed.

Lemma code_chars long p : Forall Verhoeff10.is_digit_char (code long p).
Proof.
  apply Forall_app; split; [apply code_digits_chars|constructor; [|constructor]].
  apply Verhoeff10.check_char_digit, code_digits_chars.
Qed.

Lemma code_no_nul long p : Forall (fun c => c <> 0) (code long p).
Proof. apply chars_no_nul, code_chars. Qed.

(** The first three writes. *)
Lemma put_chunks p out k (Hp : contents_wf p) :
  (12 <= length out)%nat ->
  exists rest,
    (decimalStringWithPadding 0 2 (chunk1PayloadRepresentation p) ;;
     decimalStringWithPadding 1 6 (chunk2PayloadRepresentation p) ;;
     decimalStringWithPadding 6 5 (chunk3PayloadRepresentation p) ;; k) out =
    (k : M bytes nat) (short_digits p ++ 0 :: rest) /\ (length rest = length out - 11)%nat.
Proof.
  intros Hl; pose proof (chunk_bounds p Hp) as (B1 & B2 & B3).
  destruct (put_decimal_spec [] out 1 (chunk1PayloadRepresentation p)) as (r1 & E1 & L1); [lia|done|lia|].
  destruct (put_decimal_spec (fixed_digits 1 (chunk1PayloadRepresentation p)) (0 :: r1) 5
              (chunk2PayloadRepresentation p)) as (r2 & E2 & L2); [lia|done|simpl; lia|].
  destruct (put_decimal_spec (fixed_digits 1 (chunk1PayloadRepresentation p) ++
              fixed_digits 5 (chunk2PayloadRepresentation p)) (0 :: r2) 4
              (chunk3PayloadRepresentation p)) as (r3 & E3 & L3); [lia|done|simpl in *; lia|].
  exists r3; split; [|simpl in *; lia]; unfold bind.
  cbn [length app Nat.add] in E1; rewrite E1.
  rewrite length_fixed_digits in E2; cbn [Nat.add] in E2; rewrite E2.
  rewrite length_app, !length_fixed_digits in E3; cbn [Nat.add] in E3; rewrite E3.
  unfold short_digits; by rewrite <-!app_assoc.
Qed.

Definition long_code_needed (g : ManualSetupPayloadGenerator) : nat :=
  if useLongCode g then (kManualSetupLongCodeCharLength + 2)%nat
  else (kManualSetupShortCodeCharLength + 2)%nat.

Lemma generator_writes g out (Hp : contents_wf (mPayloadContents g)) :
  mAllowInvalidPayload g || isValidManualCode kProduce (mPayloadContents g) = true ->
  (long_code_needed g <= length out)%nat ->
  exists rest, payloadDecimalStringRepresentation g out =
    (Ok (length (code (useLongCode g) (mPayloadContents g))),
     code (useLongCode g) (mPayloadContents g) ++ 0 :: rest).
Proof.
  intros Hv Hl; unfold payloadDecimalStringRepresentation; rewrite Hv.
  unfold long_code_needed in Hl; set (p := mPayloadContents g) in *; cbv zeta.
  erewrite bind_ok by reflexivity; cbv beta; erewrite bind_ok by reflexivity; cbv beta.
  assert (forall b, b = useLongCode g ->
    negb (b && (length out <? kManualSetupLongCodeCharLength + 2)%nat ||
          negb b && (length out <? kManualSetupShortCodeCharLength + 2)%nat) = true) as Hb.
  { intros b ->; destruct (useLongCode g); cbn [negb andb orb];
      rewrite (proj2 (Nat.ltb_ge _ _)) by done; done. }
  rewrite (Hb _ eq_refl); erewrite bind_ok by reflexivity; cbv beta.
  assert (12 <= length out)%nat as H12
    by (unfold kManualSetupLongCodeCharLength, kManualSetupShortCodeCharLength in Hl;
        destruct (useLongCode g); lia).
  unfold kManualSetupCodeChunk1CharLength, kManualSetupCodeChunk2CharLength,
    kManualSetupCodeChunk3CharLength, kManualSetupVendorIdCharLength, kManualSetupProductIdCharLength.
  cbn [Nat.add].
  edestruct (put_chunks p out) as (rest & -> & Lr); [done|done|].
  assert (length (short_digits p) = 10%nat) as L10 by done.
  assert (forall txt rest, Forall Verhoeff10.is_digit_char txt -> (0 < length rest)%nat ->
    exists rest', (put_check_digit (length txt) ;; ret (length txt + 1)%nat) (txt ++ 0 :: rest) =
      (Ok (length (txt ++ [check_char txt])), (txt ++ [check_char txt]) ++ 0 :: rest')) as Hcheck.
  { intros txt r Ht Hr; destruct (put_check_spec txt r Ht Hr) as (r' & E & _); exists r'.
    unfold bind; rewrite E; unfold ret; do 2 f_equal; len. }
  destruct (useLongCode g).
  - assert (22 <= length out)%nat by exact Hl.
    destruct (put_decimal_spec (short_digits p) (0 :: rest) 5 (vendorID p)) as (r1 & E1 & L1);
      [lia| |simpl; lia|].
    { destruct Hp as (_ & Hvid & _); unfold is_uint in Hvid; simpl; lia. }
    destruct (put_decimal_spec (short_digits p ++ fixed_digits 5 (vendorID p)) (0 :: r1) 5 (productID p))
      as (r2 & E2 & L2); [lia| |simpl in *; lia|].
    { destruct Hp as (_ & _ & Hpid & _); unfold is_uint in Hpid; simpl; lia. }
    destruct (Hcheck (code_digits true p) r2) as (r3 & E3); [apply code_digits_chars| |].
    { simpl in *; lia. }
    exists r3; rewrite length_app, L10, length_fixed_digits in E2; rewrite L10 in E1; cbn [Nat.add] in E1, E2.
    unfold bind; rewrite E1, E2; unfold ret at 1.
    unfold code; rewrite <-E3; unfold bind, code_digits; by rewrite <-!app_assoc.
  - destruct (Hcheck (code_digits false p) rest) as (r3 & E3); [apply code_digits_chars|lia|].
    exists r3; unfold bind, ret at 1; unfold code; rewrite <-E3; unfold bind, code_digits.
    by rewrite app_nil_r.
Qed.

Lemma generator_string g (Hp : contents_wf (mPayloadContents g)) :
  mAllowInvalidPayload g || isValidManualCode kProduce (mPayloadContents g) = true ->
  payloadDecimalStringRepresentation_string g = Ok (code (useLongCode g) (mPayloadContents g)).
Proof.
  intros Hv; unfold payloadDecimalStringRepresentation_string.
  destruct (generator_writes g (replicate (kManualSetupLongCodeCharLength + 1 + 1) 0)) as (rest & ->);
    [done..| |].
  - rewrite length_replicate; unfold long_code_needed; destruct (useLongCode g); simpl; lia.
  - by rewrite c_string_app by apply code_no_nul.
Qed.

(** ** What the parser reads *)

Lemma check_validity x :
  Forall Verhoeff10.is_digit_char x -> (0 < length x)%nat ->
  CheckDecimalStringValidity (x ++ [check_char x]) = Ok x.
Proof.
  intros Hx Hl; unfold CheckDecimalStringValidity; rewrite length_app; cbn [length].
  rewrite (proj2 (Nat.ltb_ge _ _)), Nat.add_sub, take_app_length, last_last by lia.
  unfold Verhoeff10.ValidateCheckChar, Verhoeff10.ValidateCheckChar_len.
  by rewrite Verhoeff10.digits_no_nul, Z.eqb_refl by done.
Qed.

Lemma read_digits_spec a b i len n :
  i = length a -> 0 <= n < 10 ^ Z.of_nat len -> (len <= 9)%nat ->
  ReadDigitsFromDecimalString (a ++ fixed_digits len n ++ b) i len = Ok (n, i + len)%nat.
Proof.
  intros -> Hn Hl; unfold ReadDigitsFromDecimalString; rewrite !length_app, length_fixed_digits.
  rewrite !(proj2 (Nat.ltb_ge _ _)) by lia; cbn [orb].
  rewrite drop_app_length, take_app_length' by len; by rewrite ToNumber_fixed.
Qed.

(** What a code tells about a payload, added to [q]. Of the commissioning flow it tells
    only whether it is the standard one: the parser sets the custom flow for every long
    code, whichever other flow the payload has. *)
Definition told (long : bool) (p q : PayloadContents) : PayloadContents :=
  MkContents (version q)
    (if long then vendorID p else vendorID q) (if long then productID p else productID q)
    (if long then CommissioningFlow.kCustom else CommissioningFlow.kStandard)
    (rendezvousInformation q)
    (SetupDiscriminator.mk (SetupDiscriminator.GetShortValue (discriminator p)) true) (setUpPINCode p).

Lemma valid_pin pin : IsValidSetupPIN pin = true -> pin <> 0 /\ pin < 2 ^ 27.
Proof.
  unfold IsValidSetupPIN; rewrite negb_true_iff, !orb_false_iff, Z.ltb_ge.
  unfold kSetupPINCodeMaximumValue, kSetupPINCodeUndefinedValue; lia.
Qed.

Lemma valid_code_pin mode p : isValidManualCode mode p = true -> IsValidSetupPIN (setUpPINCode p) = true.
Proof. unfold isValidManualCode, CheckPayloadCommonConstraints; rewrite !andb_true_iff; tauto. Qed.

(** The numbers of a code, at the positions where the parser reads them. *)
Lemma code_numbers long p (Hp : contents_wf p) :
  let rep := code_digits long p in
  ReadDigitsFromDecimalString rep 0 1 = Ok (chunk1PayloadRepresentation p, 1%nat) /\
  ReadDigitsFromDecimalString rep 1 5 = Ok (chunk2PayloadRepresentation p, 6%nat) /\
  ReadDigitsFromDecimalString rep 6 4 = Ok (chunk3PayloadRepresentation p, 10%nat) /\
  (long = true -> ReadDigitsFromDecimalString rep 10 5 = Ok (vendorID p, 15%nat) /\
                  ReadDigitsFromDecimalString rep 15 5 = Ok (productID p, 20%nat)).
Proof.
  pose proof (chunk_bounds p Hp) as (B1 & B2 & B3).
  assert (0 <= vendorID p < 10 ^ Z.of_nat 5) as Bv
    by (destruct Hp as (_ & Hvid & _); unfold is_uint in Hvid; simpl; lia).
  assert (0 <= productID p < 10 ^ Z.of_nat 5) as Bp
    by (destruct Hp as (_ & _ & Hpid & _); unfold is_uint in Hpid; simpl; lia).
  unfold code_digits, short_digits; cbv zeta; rewrite <-!app_assoc; split_and!.
  - by apply (read_digits_spec []); [..|lia].
  - by apply (read_digits_spec (fixed_digits 1 _)); [..|lia].
  - rewrite (app_assoc (fixed_digits 1 _)); by apply read_digits_spec; [..|lia].
  - intros ->; rewrite (app_assoc (fixed_digits 1 _)), (app_assoc (_ ++ _) (fixed_digits 4 _)); split.
    + by apply read_digits_spec; [..|lia].
    + rewrite (app_assoc (_ ++ _) (fixed_digits 5 _)), <-(app_nil_r (fixed_digits 5 (productID p))).
      by apply read_digits_spec; [..|lia].
Qed.

Lemma chunk1_small p (Hp : contents_wf p) :
  (chunk1PayloadRepresentation p =? 8) || (chunk1PayloadRepresentation p =? 9) = false.
Proof.
  rewrite chunk1_value by done; pose proof (short_range p Hp); pose proof (flag_range p).
  pose proof (Z.div_lt_upper_bound (SetupDiscriminator.GetShortValue (discriminator p)) 4 4).
  apply orb_false_iff; split; apply Z.eqb_neq; lia.
Qed.

Lemma parse_code s p out (Hp : contents_wf p) :
  isValidManualCode kProduce p = true ->
  let long := negb (commissioningFlow p =? CommissioningFlow.kStandard) in
  strip_dashes s = code long p ->
  populatePayload s out = (Ok tt, set_contents (told long p) out).
Proof.
  intros Hv long Hs; pose proof (valid_pin _ (valid_code_pin _ _ Hv)) as [Hpin0 Hpin].
  pose proof (code_numbers long p Hp) as (R1 & R2 & R3 & R45).
  unfold populatePayload; rewrite Hs; unfold code; rewrite check_validity by
    (apply code_digits_chars || by rewrite length_code_digits; destruct long; vm_compute; lia).
  unfold kManualSetupCodeChunk1CharLength, kManualSetupCodeChunk2CharLength,
    kManualSetupCodeChunk3CharLength, kManualSetupVendorIdCharLength, kManualSetupProductIdCharLength.
  unfold bind, lift; rewrite R1, R2, R3, chunk1_small, long_flag, read_pin_chunks by done; fold long.
  assert (CheckCodeLengthValidity (code_digits long p) long = CHIP_NO_ERROR) as ->
    by (unfold CheckCodeLengthValidity; rewrite length_code_digits; by destruct long).
  rewrite bool_decide_true, (proj2 (Z.eqb_neq _ _) Hpin0) by done.
  rewrite read_discriminator_chunks by done.
  pose proof (short_range p Hp) as Hd; rewrite wrap_small by (unfold is_uint; lia).
  rewrite SetupDiscriminator.SetShortValue_ok by (unfold is_uint; lia).
  destruct Hp as (_ & Hvid & Hpid & _); unfold verify, ret, when, assign, modify; cbn [negb].
  destruct long; [|done]; destruct (R45 eq_refl) as [-> ->].
  unfold CanCastTo_u16; unfold is_uint in Hvid, Hpid.
  rewrite !(proj2 (Z.leb_le _ _)), !wrap_small by (unfold is_uint; lia); done.
Qed.

(** ** The parser and the check digit *)

Lemma strip_dashes_digits s : Forall Verhoeff10.is_digit_char s -> strip_dashes s = s.
Proof.
  induction 1 as [|c s Hc _ IH]; [done|]; unfold strip_dashes in *.
  rewrite filter_cons, IH; case_decide as Hd; [done|].
  unfold Verhoeff10.is_digit_char in Hc; lia.
Qed.

Lemma check_validity_string s :
  Forall Verhoeff10.is_digit_char s -> (2 <= length s)%nat ->
  CheckDecimalStringValidity s =
  if Verhoeff10.ValidateString s then Ok (take (length s - 1) s) else Err CHIP_ERROR_INTEGRITY_CHECK_FAILED.
Proof.
  intros Hs Hl; destruct s as [|k x _] using rev_ind; [simpl in Hl; lia|].
  pose proof Hs as [Hx Hk%Forall_cons_iff]%Forall_app; destruct Hk as [Hk _].
  unfold CheckDecimalStringValidity; rewrite (proj2 (Nat.ltb_ge _ _)) by done.
  rewrite last_last, length_app; cbn [length]; rewrite Nat.add_sub, take_app_length.
  assert (Verhoeff10.ValidateCheckChar k x = Verhoeff10.ValidateString (x ++ [k])) as ->.
  { apply eq_true_iff_eq; rewrite Verhoeff10.valid_value, Verhoeff10.ValidateString_value; [done|..|done];
      try done; by destruct x. }
  by destruct (Verhoeff10.ValidateString _).
Qed.

Lemma populate_refused s out e :
  CheckDecimalStringValidity (strip_dashes s) = Err e -> populatePayload s out = (Err e, out).
Proof. intros E; unfold populatePayload, bind at 1, lift at 1; by rewrite E. Qed.

Lemma populate_accepted s out u out' :
  populatePayload s out = (Ok u, out') -> exists rep, CheckDecimalStringValidity (strip_dashes s) = Ok rep.
Proof.
  destruct (CheckDecimalStringValidity (strip_dashes s)) as [rep|e] eqn:E; [eauto|].
  by rewrite (populate_refused _ _ _ E).
Qed.

(** C16: A generated manual code says what the payload says: for every valid payload the
    generator writes a code of 11 digits, or of 21 when the commissioning flow is not
    the standard one, into the buffer of a string, and the parser, given the code with
    dashes put in anywhere, returns no error and sets exactly the passcode, the short
    discriminator, the commissioning flow, and in the long form vendor and product. The
    code has one bit for the flow: a standard or custom flow comes back as it was, and
    any other flow, as user action required, comes back as the custom one. *)
Theorem manual_code_roundtrip p (Hp : contents_wf p) (Hv : isValidManualCode kProduce p = true) :
  let long := negb (commissioningFlow p =? CommissioningFlow.kStandard) in
  exists c, payloadDecimalStringRepresentation_string (ManualSetupPayloadGenerator_new p) = Ok c /\
    length c = (if long then 21 else 11)%nat /\ Forall Verhoeff10.is_digit_char c /\
    (forall s out, strip_dashes s = c ->
       populatePayload s out = (Ok tt, set_contents (told long p) out)) /\
    (forall q, commissioningFlow (told long p q) =
       if long then CommissioningFlow.kCustom else commissioningFlow p).
Proof.
  intros long; exists (code long p); split_and!.
  - rewrite generator_string by done; unfold useLongCode; cbn [mPayloadContents mForceShortCode
      ManualSetupPayloadGenerator_new negb]; by rewrite andb_true_r.
  - unfold code; rewrite length_app, length_code_digits; by destruct long.
  - apply code_chars.
  - intros s out Hs; by apply parse_code.
  - intros q; unfold told, long; cbn [commissioningFlow].
    destruct (Z.eqb_spec (commissioningFlow p) CommissioningFlow.kStandard) as [->|]; done.
Qed.

(** C17: Mistyped codes are refused: when the parser accepts a code of digits, it
    answers the code with any one digit replaced by another one, and the code with any
    two different neighbours swapped, with CHIP_ERROR_INTEGRITY_CHECK_FAILED, and leaves
    the payload as it was. *)
Theorem mistyped_code_refused l r a b u out out1 out'
  (Hcode : Forall Verhoeff10.is_digit_char (l ++ a :: r))
  (Haccepted : populatePayload (l ++ a :: r) out1 = (Ok u, out'))
  (Hb : Verhoeff10.is_digit_char b) (Hneq : a <> b) :
  populatePayload (l ++ b :: r) out = (Err CHIP_ERROR_INTEGRITY_CHECK_FAILED, out) /\
  (forall l' r', l ++ a :: r = l' ++ a :: b :: r' ->
     populatePayload (l' ++ b :: a :: r') out = (Err CHIP_ERROR_INTEGRITY_CHECK_FAILED, out)).
Proof.
  apply populate_accepted in Haccepted as [rep E]; rewrite strip_dashes_digits in E by done.
  assert (2 <= length (l ++ a :: r))%nat as Hl.
  { unfold CheckDecimalStringValidity in E; by destruct (Nat.ltb_spec (length (l ++ a :: r)) 2). }
  rewrite check_validity_string in E by done.
  destruct (Verhoeff10.ValidateString (l ++ a :: r)) eqn:V; [|done]; clear E.
  destruct (Verhoeff10.check_digit_detects l r a b Hcode V Hb Hneq) as [D1 D2].
  assert (forall s, Forall Verhoeff10.is_digit_char s -> (2 <= length s)%nat ->
            Verhoeff10.ValidateString s = false ->
            populatePayload s out = (Err CHIP_ERROR_INTEGRITY_CHECK_FAILED, out)) as Hrefuse.
  { intros s Hs Hs2 Vs; apply populate_refused; rewrite strip_dashes_digits by done.
    by rewrite check_validity_string, Vs. }
  split; [|intros l' r' E]; apply Hrefuse.
  - apply Forall_app in Hcode as [? [_ ?]%Forall_cons_iff]; apply Forall_app; auto.
  - rewrite length_app in *; simpl in *; lia.
  - done.
  - rewrite E in Hcode; apply Forall_app in Hcode as [? [? [_ ?]%Forall_cons_iff]%Forall_cons_iff].
    apply Forall_app; auto.
  - rewrite E in Hl; rewrite length_app in *; simpl in *; lia.
  - by apply D2.
Qed.

(** ** Examples *)

Definition example_contents : PayloadContents :=
  MkContents 0 0xFFF1 0x8000 CommissioningFlow.kStandard (Some 2) (SetupDiscriminator.mk 3840 false) 20202021.

(** "3497-011-2332". *)
Definition dashed_code : bytes := [51; 52; 57; 55; 45; 48; 49; 49; 45; 50; 51; 51; 50].

Lemma manual_code_roundtrip_witness :
  exists c, payloadDecimalStringRepresentation_string (ManualSetupPayloadGenerator_new example_contents) = Ok c /\
    length c = 11%nat /\ Forall Verhoeff10.is_digit_char c /\
    (forall s out, strip_dashes s = c ->
      populatePayload s out = (Ok tt, set_contents (told false example_contents) out)) /\
    (forall q, commissioningFlow (told false example_contents q) = CommissioningFlow.kStandard).
Proof.
  refine (manual_code_roundtrip example_contents _ _); [|vm_compute; reflexivity].
  unfold example_contents, contents_wf, SetupDiscriminator.wf, SetupDiscriminator.kLongBits, is_uint, CommissioningFlow.kStandard; simpl; lia.
Defined.

Lemma mistyped_code_refused_witness :
  populatePayload [51; 52; 57; 55; 48; 55; 49; 50; 51; 51; 50] SetupPayload_init =
  (Err CHIP_ERROR_INTEGRITY_CHECK_FAILED, SetupPayload_init).
Proof.
  refine (proj1 (mistyped_code_refused [51; 52; 57; 55; 48] [49; 50; 51; 51; 50] 49 55 tt
    SetupPayload_init SetupPayload_init (set_contents (told false example_contents) SetupPayload_init) _ _ _ _)).
  - by apply (bool_decide_unpack _).
  - vm_compute; reflexivity.
  - unfold Verhoeff10.is_digit_char; lia.
  - lia.
Defined.

(** A short code forced for another flow carries the flag for vendor and product, and
    the parser refuses its length. *)
Lemma forced_short_code_refused :
  exists c, payloadDecimalStringRepresentation_string
    (SetForceShortCode true (ManualSetupPayloadGenerator_new
       (set_commissioningFlow CommissioningFlow.kCustom example_contents))) = Ok c /\
    populatePayload c SetupPayload_init = (Err CHIP_ERROR_INVALID_STRING_LENGTH, SetupPayload_init).
Proof.
  exists [55; 52; 57; 55; 48; 49; 49; 50; 51; 51; 52]; split; vm_compute; reflexivity.
Qed.
