(* ===== verification/QrBits.v ===== *)
(** * QrBits: the bit string of a QR code

    The bit-level functions of src/src/setup_payload/QRCodeSetupPayloadGenerator.cpp
    ([populateBits], [populateTLVBits], [generateBitSet]) and
    QRCodeSetupPayloadParser.cpp ([readBits], and the sequence of reads of
    [populatePayloadFromBase38Data]).

    A byte buffer is one number, its bytes from the least significant one
    ([le_combine]): [populateBits] adds a field at a power of two, [readBits] takes the
    remainder of a quotient, and a list of fields written one after the other reads
    back field by field. *)

From S2P Require Import Prelude Encoding SetupPayload.

(** ** Writing bits *)

(** The loop of [populateBits]: [input] from bit [index] on. *)
Fixpoint populate_loop (fuel : nat) (bits : bytes) (index : nat) (input : Z) : bytes :=
  match fuel with
  | O => bits
  | S fuel =>
      if input =? 0 then bits
      else
        let bits :=
          if negb (Z.land input 1 =? 0) then
            let mask := wrap 8 (Z.shiftl 1 (Z.of_nat (index mod 8))) in
            <[(index / 8)%nat := wrap 8 (Z.lor (default 0 (bits !! (index / 8)%nat)) mask)]> bits
          else bits in
        populate_loop fuel bits (S index) (Z.shiftr input 1)
  end.

(** The state is the buffer and the offset; a [uint64_t] input has 64 bits. *)
Definition populateBits (input : Z) (numberOfBits totalPayloadDataSizeInBits : nat) : M (bytes * nat) unit :=
  fun '(bits, offset) =>
    (verify (offset + numberOfBits <=? totalPayloadDataSizeInBits)%nat CHIP_ERROR_INVALID_ARGUMENT ;;
     verify (input <? wrap 32 (Z.shiftl 1 (Z.of_nat numberOfBits))) CHIP_ERROR_INVALID_ARGUMENT ;;
     fun _ => (Ok tt, (populate_loop 64 bits offset input, (offset + numberOfBits)%nat))) (bits, offset).

Fixpoint populateTLVBits (tlvBuf : bytes) (totalPayloadDataSizeInBits : nat) : M (bytes * nat) unit :=
  match tlvBuf with
  | [] => ret tt
  | value :: tlvBuf =>
      populateBits value 8 totalPayloadDataSizeInBits ;;
      populateTLVBits tlvBuf totalPayloadDataSizeInBits
  end.

(** The discriminator field: 0 for a short discriminator. *)
Definition long_discriminator (d : SetupDiscriminator.t) : result Z :=
  if negb (SetupDiscriminator.IsShortDiscriminator d) then SetupDiscriminator.GetLongValue d else Ok 0.

(** The state is the memory of [bits]; [tlv] are the TLV data. *)
Definition generateBitSet (payload : PayloadContents) (tlv : bytes) : M bytes unit := fun bits =>
  let totalPayloadSizeInBits := (kTotalPayloadDataSizeInBits + length tlv * 8)%nat in
  if (length bits * 8 <? totalPayloadSizeInBits)%nat then (Err CHIP_ERROR_BUFFER_TOO_SMALL, bits)
  else
    match long_discriminator (discriminator payload) with
    | Err e => (Err e, bits)
    | Ok pd =>
        let put v n := populateBits v n kTotalPayloadDataSizeInBits in
        let (r, s) :=
          (put (version payload) kVersionFieldLengthInBits ;;
           put (vendorID payload) kVendorIDFieldLengthInBits ;;
           put (productID payload) kProductIDFieldLengthInBits ;;
           put (commissioningFlow payload) kCommissioningFlowFieldLengthInBits ;;
           put (default RendezvousInformationFlag.kNone (rendezvousInformation payload))
               kRendezvousInfoFieldLengthInBits ;;
           put pd kPayloadDiscriminatorFieldLengthInBits ;;
           put (setUpPINCode payload) kSetupPINCodeFieldLengthInBits ;;
           put 0 kPaddingFieldLengthInBits ;;
           populateTLVBits tlv totalPayloadSizeInBits) (bits, 0%nat) in
        (r, s.1)
    end.

(** ** Reading bits *)

(** [dest |= (1 << bitsRead)]: the shift is one of [int], its value converted to
    [uint64_t]; shifting by 32 or more has no meaning, nor has a byte outside [buf]. *)
Fixpoint read_loop (buf : bytes) (currentIndex bitsRead more : nat) (dest : Z) : result Z :=
  match more with
  | O => Ok dest
  | S more =>
      match buf !! (currentIndex / 8)%nat with
      | None => Err UNDEFINED_BEHAVIOUR
      | Some byte =>
          if negb (Z.land byte (Z.shiftl 1 (Z.of_nat (currentIndex mod 8))) =? 0)
          then if (bitsRead <? 32)%nat
               then read_loop buf (S currentIndex) (S bitsRead) more
                      (Z.lor dest (wrap 64 (swrap 32 (Z.shiftl 1 (Z.of_nat bitsRead)))))
               else Err UNDEFINED_BEHAVIOUR
          else read_loop buf (S currentIndex) (S bitsRead) more dest
      end
  end.

(** The state is the index. *)
Definition readBits (buf : bytes) (numberOfBitsToRead : nat) : M nat Z := fun index =>
  if (length buf * 8 <? index + numberOfBitsToRead)%nat || (8 * 8 <? numberOfBitsToRead)%nat
  then (Err CHIP_ERROR_INVALID_ARGUMENT, index)
  else match read_loop buf index 0 numberOfBitsToRead 0 with
       | Ok dest => (Ok dest, (index + numberOfBitsToRead)%nat)
       | Err e => (Err e, index)
       end.

(** ** Bits of a buffer *)

Lemma testbit_le_combine l j :
  bytes_ok l -> Z.testbit (le_combine l) (Z.of_nat j) =
  Z.testbit (default 0 (l !! (j / 8)%nat)) (Z.of_nat (j mod 8)).
Proof.
  intros H; revert j; induction H as [|b l Hb Hl IH]; intros j.
  { cbn [le_combine]; rewrite lookup_nil; cbn; by rewrite !Z.bits_0. }
  cbn [le_combine].
  assert (Z.lor (Z.shiftl (le_combine l) 8) b = b + 256 * le_combine l) as <-
    by (rewrite lor_shiftl_add by (done || lia); lia).
  rewrite Z.lor_spec; destruct (Nat.lt_ge_cases j 8) as [Hj|Hj].
  - rewrite (Nat.div_small j), (Nat.mod_small j) by done; cbn [lookup list_lookup default from_option id].
    by rewrite Z.shiftl_spec_low by lia.
  - assert (exists k, j = k + 1 * 8)%nat as [k ->] by (exists (j - 8)%nat; lia).
    rewrite Z.shiftl_spec by lia; replace (Z.of_nat (k + 1 * 8) - 8) with (Z.of_nat k) by lia.
    rewrite IH, Nat.div_add, Nat.Div0.mod_add by lia; rewrite Nat.add_1_r; cbn [lookup list_lookup].
    assert (Z.testbit b (Z.of_nat (k + 1 * 8)) = false) as ->; [|apply orb_false_r].
    rewrite <-(Z.mod_small b (2 ^ 8)) by done; apply Z.mod_pow2_bits_high; lia.
Qed.

Lemma testbit_high v n j : 0 <= v < 2 ^ n -> n <= j -> 0 <= n -> Z.testbit v j = false.
Proof. intros Hv Hj Hn; rewrite <-(Z.mod_small v (2 ^ n)) by done; apply Z.mod_pow2_bits_high; lia. Qed.

(** Setting a bit of the buffer sets the bit of the number. *)
Lemma set_bit_spec l i :
  bytes_ok l -> (i / 8 < length l)%nat ->
  let b := Z.lor (default 0 (l !! (i / 8)%nat)) (2 ^ Z.of_nat (i mod 8)) in
  is_u8 b /\ le_combine (<[(i / 8)%nat := b]> l) = Z.lor (le_combine l) (2 ^ Z.of_nat i).
Proof.
  intros Hl Hi b; destruct (lookup_lt_is_Some_2 l (i / 8)%nat Hi) as [x Hx].
  assert (i mod 8 < 8)%nat as Hm by (apply Nat.mod_upper_bound; lia).
  pose proof (Forall_lookup_1 _ _ _ _ Hl Hx) as Hx8; subst b; rewrite Hx; cbn [default from_option id].
  assert (is_u8 (Z.lor x (2 ^ Z.of_nat (i mod 8)))) as Hb.
  { unfold is_uint in *; split; [apply Z.lor_nonneg; split; [lia|apply Z.pow_nonneg; lia]|].
    destruct (Z.eq_dec x 0) as [->|].
    - rewrite Z.lor_0_l; apply Z.pow_lt_mono_r; lia.
    - apply Z.log2_lt_pow2.
      + assert (0 <= Z.lor x (2 ^ Z.of_nat (i mod 8))) by (apply Z.lor_nonneg; split; [lia|apply Z.pow_nonneg; lia]).
        destruct (Z.eq_dec (Z.lor x (2 ^ Z.of_nat (i mod 8))) 0) as [E%Z.lor_eq_0_l|]; lia.
      + rewrite Z.log2_lor by (lia || (apply Z.pow_nonneg; lia)).
        assert (Z.log2 x < 8) by (apply Z.log2_lt_pow2; lia); rewrite Z.log2_pow2 by lia; lia. }
  split; [done|]; apply Z.bits_inj'; intros j Hj.
  rewrite <-(Z2Nat.id j) by done; set (n := Z.to_nat j); clearbody n; clear j Hj.
  rewrite testbit_le_combine by (by apply Forall_insert); rewrite Z.lor_spec, testbit_le_combine by done.
  rewrite Z.pow2_bits_eqb by lia.
  destruct (decide (n / 8 = i / 8)%nat) as [E|E].
  - rewrite E, list_lookup_insert_eq, Hx by done; cbn [default from_option id].
    rewrite Z.lor_spec, Z.pow2_bits_eqb by lia; f_equal.
    pose proof (Nat.div_mod_eq n 8); pose proof (Nat.div_mod_eq i 8).
    destruct (Z.eqb_spec (Z.of_nat (i mod 8)) (Z.of_nat (n mod 8))), (Z.eqb_spec (Z.of_nat i) (Z.of_nat n)); lia.
  - rewrite list_lookup_insert_ne by done.
    rewrite (proj2 (Z.eqb_neq _ _)), orb_false_r; [done|]; intros ?; apply E; f_equal; lia.
Qed.

Lemma mask_bit i : wrap 8 (Z.shiftl 1 (Z.of_nat (i mod 8))) = 2 ^ Z.of_nat (i mod 8).
Proof.
  assert (i mod 8 < 8)%nat by (apply Nat.mod_upper_bound; lia).
  rewrite Z.shiftl_1_l; apply wrap_small; unfold is_uint.
  split; [apply Z.pow_nonneg; lia|apply Z.pow_lt_mono_r; lia].
Qed.

Lemma shift_in i x :
  Z.shiftl x (Z.of_nat i) =
  Z.lor (if Z.land x 1 =? 0 then 0 else 2 ^ Z.of_nat i) (Z.shiftl (Z.shiftr x 1) (Z.of_nat (S i))).
Proof.
  rewrite Z.lor_comm, Z.shiftr_div_pow2 by lia; change (2 ^ 1) with 2.
  replace (Z.of_nat (S i)) with (Z.of_nat i + 1) by lia.
  assert (0 < 2 ^ Z.of_nat i) by (apply pow2_pos; lia).
  rewrite lor_shiftl_add; [|lia|rewrite Z.pow_add_r by lia; destruct (_ =? 0); lia].
  change 1 with (Z.ones 1) at 2; rewrite Z.land_ones by lia; change (2 ^ 1) with 2.
  rewrite Z.pow_add_r, Z.shiftl_mul_pow2 by lia.
  pose proof (Z.div_mod x 2); pose proof (Z.mod_pos_bound x 2).
  destruct (Z.eqb_spec (x mod 2) 0); nia.
Qed.

Lemma populate_loop_spec fuel bits i x n :
  bytes_ok bits -> 0 <= x < 2 ^ Z.of_nat n -> (n <= fuel)%nat -> (i + n <= 8 * length bits)%nat ->
  bytes_ok (populate_loop fuel bits i x) /\ length (populate_loop fuel bits i x) = length bits /\
  le_combine (populate_loop fuel bits i x) = Z.lor (le_combine bits) (Z.shiftl x (Z.of_nat i)).
Proof.
  revert bits i x n; induction fuel as [|fuel IH]; intros bits i x n Hb Hx Hn Hi; cbn [populate_loop].
  { assert (x = 0) as -> by (destruct n; simpl in Hx; lia).
    by rewrite Z.shiftl_0_l, Z.lor_0_r. }
  destruct (Z.eqb_spec x 0) as [->|Hx0]; [by rewrite Z.shiftl_0_l, Z.lor_0_r|].
  destruct n as [|n]; [simpl in Hx; lia|].
  assert (i / 8 < length bits)%nat as Hi8 by (apply Nat.Div0.div_lt_upper_bound; lia).
  destruct (set_bit_spec bits i Hb Hi8) as [Hb8 Hset].
  assert (0 <= Z.shiftr x 1 < 2 ^ Z.of_nat n) as Hx'.
  { rewrite Z.shiftr_div_pow2 by lia; replace (Z.of_nat (S n)) with (Z.of_nat n + 1) in Hx by lia.
    rewrite Z.pow_add_r in Hx by lia; change (2 ^ 1) with 2 in *.
    split; [apply Z.div_pos; lia|apply Z.div_lt_upper_bound; lia]. }
  rewrite mask_bit, (wrap_small 8 (Z.lor _ _)) by done; rewrite (shift_in i x).
  destruct (Z.land x 1 =? 0); cbn [negb].
  - destruct (IH bits (S i) (Z.shiftr x 1) n) as (I1 & I2 & ->); [done|done|lia|lia|].
    by rewrite Z.lor_0_l.
  - edestruct (IH (<[(i / 8)%nat := Z.lor (default 0 (bits !! (i / 8)%nat)) (2 ^ Z.of_nat (i mod 8))]> bits)
      (S i) (Z.shiftr x 1) n) as (I1 & I2 & E); [by apply Forall_insert|done|lia|len|].
    rewrite E, Hset, I2, length_insert, Z.lor_assoc; done.
Qed.

(** The buffer holds the number [N] in its first [offset] bits, zeros above. *)
Definition holds (bits : bytes) (offset : nat) (N : Z) : Prop :=
  bytes_ok bits /\ le_combine bits = N /\ 0 <= N < 2 ^ Z.of_nat offset.

Lemma populateBits_ok input n total bits offset N :
  holds bits offset N -> 0 <= input < 2 ^ Z.of_nat n -> (n < 32)%nat -> (offset + n <= total)%nat ->
  (total <= 8 * length bits)%nat ->
  exists bits', populateBits input n total (bits, offset) = (Ok tt, (bits', (offset + n)%nat)) /\
    length bits' = length bits /\ holds bits' (offset + n) (N + 2 ^ Z.of_nat offset * input).
Proof.
  intros (Hb & HN & HNr) Hin Hn Ho Ht.
  destruct (populate_loop_spec 64 bits offset input n Hb Hin) as (P1 & P2 & P3); [lia..|].
  exists (populate_loop 64 bits offset input); splits; [|done|].
  - unfold populateBits, bind, verify; rewrite (proj2 (Nat.leb_le _ _)) by done.
    rewrite Z.shiftl_1_l, wrap_small by
      (unfold is_uint; split; [apply Z.pow_nonneg; lia|apply Z.pow_lt_mono_r; lia]).
    by rewrite (proj2 (Z.ltb_lt _ _)) by lia.
  - split; [done|]; split.
    + rewrite P3, HN, Z.lor_comm, lor_shiftl_add by lia; lia.
    + rewrite Nat2Z.inj_add, Z.pow_add_r by lia.
      assert (0 < 2 ^ Z.of_nat offset) by (apply pow2_pos; lia); nia.
Qed.

(** ** Reading back *)

Lemma read_loop_spec buf i k more dest :
  bytes_ok buf -> (i + more <= 8 * length buf)%nat -> (k + more < 32)%nat -> 0 <= dest < 2 ^ Z.of_nat k ->
  read_loop buf i k more dest =
  Ok (dest + 2 ^ Z.of_nat k * (le_combine buf / 2 ^ Z.of_nat i mod 2 ^ Z.of_nat more)).
Proof.
  intros Hb; revert i k dest; induction more as [|more IH]; intros i k dest Hi Hk Hd; cbn [read_loop].
  { rewrite Z.mod_1_r; f_equal; lia. }
  set (N := le_combine buf).
  destruct (lookup_lt_is_Some_2 buf (i / 8)) as [byte Eb].
  { apply Nat.Div0.div_lt_upper_bound; lia. }
  rewrite Eb.
  assert (negb (Z.land byte (Z.shiftl 1 (Z.of_nat (i mod 8))) =? 0) =
          Z.testbit N (Z.of_nat i)) as ->.
  { unfold N; rewrite testbit_le_combine, Z.shiftl_1_l by done; rewrite Eb; cbn [default from_option id].
    exact (BitFlags.Has_testbit _ (Z.of_nat (i mod 8)) (Nat2Z.is_nonneg _)). }
  assert (N / 2 ^ Z.of_nat i mod 2 ^ Z.of_nat (S more) =
          Z.b2z (Z.testbit N (Z.of_nat i)) + 2 * (N / 2 ^ Z.of_nat (S i) mod 2 ^ Z.of_nat more)) as E.
  { replace (Z.of_nat (S more)) with (1 + Z.of_nat more) by lia.
    replace (Z.of_nat (S i)) with (Z.of_nat i + 1) by lia.
    rewrite !Z.pow_add_r by lia; change (2 ^ 1) with 2.
    assert (0 < 2 ^ Z.of_nat more) by (apply pow2_pos; lia).
    assert (0 < 2 ^ Z.of_nat i) by (apply pow2_pos; lia).
    rewrite Z.rem_mul_r, Z.div_div by lia; rewrite Z.testbit_spec' by lia; done. }
  rewrite E; replace (Z.of_nat (S k)) with (Z.of_nat k + 1) in * by lia.
  assert (0 < 2 ^ Z.of_nat k) by (apply pow2_pos; lia).
  assert (2 ^ Z.of_nat (S k) = 2 * 2 ^ Z.of_nat k) as E2
    by (replace (Z.of_nat (S k)) with (1 + Z.of_nat k) by lia; rewrite Z.pow_add_r by lia; done).
  destruct (Z.testbit N (Z.of_nat i)); cbn [Z.b2z].
  - rewrite (proj2 (Nat.ltb_lt _ _)) by lia.
    assert (wrap 64 (swrap 32 (Z.shiftl 1 (Z.of_nat k))) = 2 ^ Z.of_nat k) as ->.
    { rewrite Z.shiftl_1_l; unfold swrap; change (32 - 1) with 31.
      assert (2 ^ Z.of_nat k < 2 ^ 31) by (apply Z.pow_lt_mono_r; lia).
      rewrite (wrap_small 32) by (unfold is_uint; lia).
      rewrite (proj2 (Z.ltb_lt _ _)) by lia; apply wrap_small; unfold is_uint; lia. }
    assert (Z.lor dest (2 ^ Z.of_nat k) = dest + 2 ^ Z.of_nat k) as ->
      by (rewrite <-(Z.shiftl_1_l (Z.of_nat k)), Z.lor_comm, lor_shiftl_add, Z.shiftl_1_l by lia; lia).
    rewrite IH by lia; rewrite E2; f_equal; fold N; lia.
  - rewrite IH by lia; rewrite E2; f_equal; fold N; lia.
Qed.

Lemma readBits_ok buf n index :
  bytes_ok buf -> (n < 32)%nat -> (index + n <= length buf * 8)%nat ->
  readBits buf n index =
  (Ok (le_combine buf / 2 ^ Z.of_nat index mod 2 ^ Z.of_nat n), (index + n)%nat).
Proof.
  intros Hb Hn Hi; unfold readBits; rewrite !(proj2 (Nat.ltb_ge _ _)) by lia; cbn [orb].
  rewrite read_loop_spec by (done || simpl; lia); do 2 f_equal; lia.
Qed.

Lemma readBits_short buf n index :
  (length buf * 8 < index + n)%nat -> readBits buf n index = (Err CHIP_ERROR_INVALID_ARGUMENT, index).
Proof. intros; unfold readBits; by rewrite (proj2 (Nat.ltb_lt _ _)) by lia. Qed.

(** ** Lists of fields *)

(** The number a list of fields (width, value) makes, the first field lowest. *)
Fixpoint pack (fs : list (nat * Z)) : Z :=
  match fs with
  | [] => 0
  | (n, v) :: fs => v + 2 ^ Z.of_nat n * pack fs
  end.

Definition widths (fs : list (nat * Z)) : nat := sum_list (fst <$> fs).

Definition field_ok (f : nat * Z) : Prop := (f.1 < 32)%nat /\ 0 <= f.2 < 2 ^ Z.of_nat f.1.

Lemma pack_range fs : Forall field_ok fs -> 0 <= pack fs < 2 ^ Z.of_nat (widths fs).
Proof.
  unfold widths; induction 1 as [|[n v] fs [_ Hv] _ IH]; csimpl; [simpl; lia|].
  rewrite Nat2Z.inj_add, Z.pow_add_r by lia; csimpl in Hv; nia.
Qed.

Lemma pack_app fs1 fs2 : pack (fs1 ++ fs2) = pack fs1 + 2 ^ Z.of_nat (widths fs1) * pack fs2.
Proof.
  unfold widths; induction fs1 as [|[n v] fs1 IH]; csimpl; [simpl; lia|].
  rewrite IH, Nat2Z.inj_add, Z.pow_add_r by lia; lia.
Qed.

Lemma widths_app fs1 fs2 : widths (fs1 ++ fs2) = (widths fs1 + widths fs2)%nat.
Proof. unfold widths; by rewrite fmap_app, sum_list_with_app || (induction fs1; csimpl; lia). Qed.

(** A field is where it was put, whatever lies above the fields. *)
Lemma pack_read fs1 n v fs2 hi :
  Forall field_ok (fs1 ++ (n, v) :: fs2) ->
  (pack (fs1 ++ (n, v) :: fs2) + 2 ^ Z.of_nat (widths (fs1 ++ (n, v) :: fs2)) * hi)
    / 2 ^ Z.of_nat (widths fs1) mod 2 ^ Z.of_nat n = v.
Proof.
  intros [H1 [[_ Hv] H2]%Forall_cons_iff]%Forall_app; csimpl in Hv.
  pose proof (pack_range fs1 H1) as R1.
  rewrite pack_app, widths_app; change (widths ((n, v) :: fs2)) with (n + widths fs2)%nat.
  change (pack ((n, v) :: fs2)) with (v + 2 ^ Z.of_nat n * pack fs2).
  rewrite !Nat2Z.inj_add, !Z.pow_add_r by lia.
  set (W1 := 2 ^ Z.of_nat (widths fs1)) in *; set (Wn := 2 ^ Z.of_nat n) in *.
  set (W2 := 2 ^ Z.of_nat (widths fs2)).
  replace (pack fs1 + W1 * (v + Wn * pack fs2) + W1 * (Wn * W2) * hi)
    with (pack fs1 + (v + (pack fs2 + W2 * hi) * Wn) * W1) by ring.
  rewrite Z.div_add, Z.div_small, Z.add_0_l by lia.
  rewrite Z.mod_add, Z.mod_small by lia; done.
Qed.

(** Fields written one after the other, then [k]. *)
Fixpoint put_fields (fs : list (nat * Z)) (total : nat) (k : M (bytes * nat) unit) : M (bytes * nat) unit :=
  match fs with
  | [] => k
  | (n, v) :: fs => populateBits v n total ;; put_fields fs total k
  end.

Lemma put_fields_ok fs total k bits offset N :
  holds bits offset N -> Forall field_ok fs -> (offset + widths fs <= total)%nat ->
  (total <= 8 * length bits)%nat ->
  exists bits', put_fields fs total k (bits, offset) = k (bits', (offset + widths fs)%nat) /\
    length bits' = length bits /\ holds bits' (offset + widths fs) (N + 2 ^ Z.of_nat offset * pack fs).
Proof.
  unfold widths; intros H Hfs; revert bits offset N H.
  induction Hfs as [|[n v] fs [Hn Hv] _ IH]; intros bits offset N H Ho Ht; csimpl in *.
  { exists bits; by rewrite Z.mul_0_r, Z.add_0_r, Nat.add_0_r. }
  destruct (populateBits_ok v n total bits offset N) as (b1 & E1 & L1 & H1); try done; [lia|].
  destruct (IH b1 (offset + n)%nat _ H1) as (b2 & E2 & L2 & H2); [lia|by rewrite L1|].
  exists b2; unfold bind; rewrite E1, E2, <-Nat.add_assoc; split; [done|]; split; [congruence|].
  rewrite <-Nat.add_assoc in H2; rewrite Nat2Z.inj_add, Z.pow_add_r in H2 by lia.
  by replace (N + 2 ^ Z.of_nat offset * (v + 2 ^ Z.of_nat n * pack fs))
    with (N + 2 ^ Z.of_nat offset * v + 2 ^ Z.of_nat offset * 2 ^ Z.of_nat n * pack fs) by ring.
Qed.

(** Bytes are fields of eight bits. *)
Lemma populateTLVBits_fields tlv total :
  populateTLVBits tlv total = put_fields ((fun b => (8%nat, b)) <$> tlv) total (ret tt).
Proof. induction tlv as [|b tlv IH]; [done|]; csimpl; by rewrite IH. Qed.

Lemma byte_fields tlv :
  bytes_ok tlv -> Forall field_ok ((fun b => (8%nat, b)) <$> tlv) /\
  widths ((fun b => (8%nat, b)) <$> tlv) = (8 * length tlv)%nat /\
  pack ((fun b => (8%nat, b)) <$> tlv) = le_combine tlv.
Proof.
  unfold widths; induction 1 as [|b tlv Hb _ (I1 & I2 & I3)]; [done|]; csimpl.
  rewrite I2, I3; split; [|split; [lia|done]].
  constructor; [|done]; split; [simpl; lia|exact Hb].
Qed.

(** ** The bits of a payload *)

Definition discriminator_field (p : PayloadContents) : Z :=
  if SetupDiscriminator.IsShortDiscriminator (discriminator p) then 0
  else SetupDiscriminator.mDiscriminator (discriminator p).

Definition header_fields (p : PayloadContents) : list (nat * Z) :=
  [(kVersionFieldLengthInBits, version p);
   (kVendorIDFieldLengthInBits, vendorID p);
   (kProductIDFieldLengthInBits, productID p);
   (kCommissioningFlowFieldLengthInBits, commissioningFlow p);
   (kRendezvousInfoFieldLengthInBits, default RendezvousInformationFlag.kNone (rendezvousInformation p));
   (kPayloadDiscriminatorFieldLengthInBits, discriminator_field p);
   (kSetupPINCodeFieldLengthInBits, setUpPINCode p);
   (kPaddingFieldLengthInBits, 0)].

(** The contents fit the fields of the QR code. *)
Definition fits_fields (p : PayloadContents) : Prop := Forall field_ok (header_fields p).

Lemma header_widths p : widths (header_fields p) = kTotalPayloadDataSizeInBits.
Proof. reflexivity. Qed.

Lemma zeros_hold n : holds (replicate n 0) 0 0.
Proof.
  split; [apply Forall_replicate; unfold is_uint; lia|]; split; [|simpl; lia].
  induction n as [|n IH]; [done|]; cbn [replicate le_combine]; lia.
Qed.

Lemma generateBitSet_ok p tlv :
  fits_fields p -> bytes_ok tlv ->
  exists bits, generateBitSet p tlv (replicate (kTotalPayloadDataSizeInBytes + length tlv) 0) = (Ok tt, bits) /\
    length bits = (kTotalPayloadDataSizeInBytes + length tlv)%nat /\ bytes_ok bits /\
    le_combine bits = pack (header_fields p) + 2 ^ Z.of_nat kTotalPayloadDataSizeInBits * le_combine tlv.
Proof.
  intros Hp Ht; set (n := (kTotalPayloadDataSizeInBytes + length tlv)%nat).
  assert (n = 11 + length tlv)%nat as Hn by done.
  unfold generateBitSet; rewrite length_replicate; change kTotalPayloadDataSizeInBits with 88%nat.
  rewrite (proj2 (Nat.ltb_ge _ _)) by lia.
  assert (long_discriminator (discriminator p) = Ok (discriminator_field p)) as ->.
  { unfold long_discriminator, discriminator_field, SetupDiscriminator.GetLongValue.
    by destruct (SetupDiscriminator.IsShortDiscriminator (discriminator p)). }
  change (populateBits (version p) _ _ ;; _) with
    (put_fields (header_fields p) 88 (populateTLVBits tlv (88 + length tlv * 8))).
  destruct (put_fields_ok (header_fields p) 88 (populateTLVBits tlv (88 + length tlv * 8))
              (replicate n 0) 0 0) as (b1 & -> & L1 & H1);
    [apply zeros_hold|done|by rewrite header_widths|rewrite length_replicate; lia|].
  rewrite length_replicate in L1; rewrite header_widths in H1 |- *.
  change kTotalPayloadDataSizeInBits with 88%nat in *.
  destruct (byte_fields tlv Ht) as (F1 & F2 & F3); rewrite populateTLVBits_fields.
  destruct (put_fields_ok ((fun b => (8%nat, b)) <$> tlv) (88 + length tlv * 8) (ret tt) b1 (0 + 88) _ H1)
    as (b2 & -> & L2 & (H2 & HN & _)); [done|lia|lia|].
  exists b2; split; [done|]; split; [lia|]; split; [done|].
  rewrite HN, F3; change (2 ^ Z.of_nat 0) with 1; change (0 + 88)%nat with 88%nat; lia.
Qed.
