(* ===== verification/QrTlv.v ===== *)
(** * QrTlv: the optional data of a QR code

    [writeTag] and [generateTLVFromOptionalData] of
    src/src/setup_payload/QRCodeSetupPayloadGenerator.cpp; [openTLVContainer],
    [retrieveOptionalInfo], [retrieveOptionalInfos] and [parseTLVFields] of
    QRCodeSetupPayloadParser.cpp: the optional vendor data and extension data of a
    payload as a TLV structure, over the writer and the reader of TlvWriter.v and
    TlvReader.v.

    - the generator writes the structure of [data_members] whenever it fits;
    - the parser puts the same data back into a payload, and on any input ends without
      following a wild pointer. *)

From stdpp Require Import sorting.
From S2P Require Import Prelude Encoding Utf8 TlvTypes TlvReader TlvWriter TlvStream TlvCodec SetupPayload.

(** ** The generator *)

Section Generator.
Context (validate : bool).

(** [writeTag]; [data.c_str()] is the string with a NUL after it. *)
Definition writeTag_info (tag : Z) (i : OptionalQRCodeInfo) : M TLVWriter.St unit :=
  match type i with
  | optionalQRCodeInfoTypeString => TLVWriter.PutString_cstr validate tag (data i ++ [0])
  | optionalQRCodeInfoTypeInt32 => TLVWriter.Put_int32 tag (int32 i)
  | _ => fail CHIP_ERROR_INVALID_ARGUMENT
  end.

Definition writeTag_extension (tag : Z) (i : OptionalQRCodeInfoExtension) : M TLVWriter.St unit :=
  match type (info i) with
  | optionalQRCodeInfoTypeString | optionalQRCodeInfoTypeInt32 => writeTag_info tag (info i)
  | optionalQRCodeInfoTypeInt64 => TLVWriter.Put_int64 tag (int64 i)
  | optionalQRCodeInfoTypeUInt32 => TLVWriter.Put_uint64 tag (uint32 i)
  | optionalQRCodeInfoTypeUInt64 => TLVWriter.Put_uint64 tag (uint64 i)
  | optionalQRCodeInfoTypeUnknown => fail CHIP_ERROR_INVALID_ARGUMENT
  end.

(** A range-based loop whose body may return early. *)
Fixpoint for_each {A S} (body : A -> M S unit) (l : list A) : M S unit :=
  match l with
  | [] => ret tt
  | a :: l => body a ;; for_each body l
  end.

(** The state is the buffer at [tlvDataStart], of [maxLen] bytes; the value is
    [tlvDataLengthInBytes]. *)
Definition generateTLVFromOptionalData (outPayload : SetupPayload) (maxLen : Z) : M bytes nat := fun mem =>
  let optionalData := getAllOptionalVendorData outPayload in
  let optionalExtensionData := getAllOptionalExtensionData outPayload in
  if (length optionalData =? 0)%nat && (length optionalExtensionData =? 0)%nat then (Ok 0%nat, mem)
  else
    match TLVWriter.OpenContainer AnonymousTag kTLVType_Structure (TLVWriter.Init maxLen, mem) with
    | (Err e, (_, mem)) => (Err e, mem)
    | (Ok innerStructureWriter, (rootWriter, mem)) =>
        match (for_each (fun i => writeTag_info (ContextTag (tag i)) i) optionalData ;;
               for_each (fun i => writeTag_extension (ContextTag (tag (info i))) i)
                        optionalExtensionData) (innerStructureWriter, mem) with
        | (Err e, (_, mem)) => (Err e, mem)
        | (Ok _, (innerStructureWriter, mem)) =>
            match (TLVWriter.CloseContainer innerStructureWriter ;;
                   TLVWriter.Finalize ;;
                   let! w := TLVWriter.self in
                   ret (Z.to_nat (TLVWriter.GetLengthWritten w))) (rootWriter, mem) with
            | (r, (_, mem)) => (r, mem)
            end
        end
    end.
End Generator.

(** The buffer size of [payloadBase38RepresentationWithAutoTLVBuffer]. *)
Definition dataItemSizeEstimate (item : OptionalQRCodeInfo) : nat :=
  match type item with
  | optionalQRCodeInfoTypeString => (2 + 8 + length (data item))%nat
  | _ => (2 + 8)%nat
  end.

(** [EstimateStructOverhead] of one field of [firstFieldSize] bytes. *)
Definition EstimateStructOverhead (firstFieldSize : nat) : nat := (firstFieldSize + 4 + 2)%nat.

Definition tlv_estimate (p : SetupPayload) : nat :=
  EstimateStructOverhead
    (sum_list (dataItemSizeEstimate <$> getAllOptionalVendorData p) +
     sum_list ((fun i => dataItemSizeEstimate (info i)) <$> getAllOptionalExtensionData p)).

(** ** The parser *)

Section Parser.
Context (validate : bool).
Context `{BO : ByteOrder} `{HO : Host}.

(** [retrieveOptionalInfo]; the reader is not moved.  [i] is the info given, with its
    tag set. *)
Definition retrieveOptionalInfo_info (r : TLVReader.t) (i : OptionalQRCodeInfo)
    (type : optionalQRCodeInfoType) : result OptionalQRCodeInfo :=
  match type with
  | optionalQRCodeInfoTypeString =>
      let* d := TLVReader.Get_CharSpan validate r in
      Ok (MkInfo (tag i) optionalQRCodeInfoTypeString d (int32 i))
  | optionalQRCodeInfoTypeInt32 =>
      let* value := TLVReader.Get_int32 r in
      Ok (MkInfo (tag i) optionalQRCodeInfoTypeInt32 (data i) value)
  | _ => Err CHIP_ERROR_INVALID_ARGUMENT
  end.

Definition with_type (t : optionalQRCodeInfoType) (i : OptionalQRCodeInfo) : OptionalQRCodeInfo :=
  MkInfo (tag i) t (data i) (int32 i).

Definition retrieveOptionalInfo_extension (r : TLVReader.t) (i : OptionalQRCodeInfoExtension)
    (type : optionalQRCodeInfoType) : result OptionalQRCodeInfoExtension :=
  match type with
  | optionalQRCodeInfoTypeString | optionalQRCodeInfoTypeInt32 =>
      let* i' := retrieveOptionalInfo_info r (info i) type in
      Ok (MkExtension i' (int64 i) (uint32 i) (uint64 i))
  | optionalQRCodeInfoTypeInt64 =>
      let* value := TLVReader.Get_int64 r in
      Ok (MkExtension (with_type type (info i)) value (uint32 i) (uint64 i))
  | optionalQRCodeInfoTypeUInt32 =>
      let* value := TLVReader.Get_uint32 r in
      Ok (MkExtension (with_type type (info i)) (int64 i) value (uint64 i))
  | optionalQRCodeInfoTypeUInt64 =>
      let* value := TLVReader.Get_uint64 r in
      Ok (MkExtension (with_type type (info i)) (int64 i) (uint32 i) value)
  | optionalQRCodeInfoTypeUnknown => Err CHIP_ERROR_INVALID_ARGUMENT
  end.

(** A newly constructed info with its tag; the type is not read before it is set. *)
Definition new_info (tagNumber : Z) : OptionalQRCodeInfo :=
  MkInfo tagNumber optionalQRCodeInfoTypeUnknown [] 0.

(** The element types the parser takes. *)
Definition is_info_type (type : Z) : bool :=
  (type =? kTLVType_UTF8String) || (type =? kTLVType_SignedInteger) || (type =? kTLVType_UnsignedInteger).

(** The body of the loop for an element of such a type. *)
Definition retrieve_one (r : TLVReader.t) : M SetupPayload unit :=
  let type := TLVReader.GetType r in
  let tag := TLVReader.GetTag r in
  verify (IsContextTag tag) CHIP_ERROR_INVALID_TLV_TAG ;;
  let tagNumber := wrap 8 (TagNumFromTag tag) in
  let elemType :=
    if type =? kTLVType_UTF8String then optionalQRCodeInfoTypeString else getNumericTypeFor tagNumber in
  if IsCommonTag tagNumber then
    let! i := lift (retrieveOptionalInfo_extension r (MkExtension (new_info tagNumber) 0 0 0) elemType) in
    addOptionalExtensionData i
  else
    let! i := lift (retrieveOptionalInfo_info r (new_info tagNumber) elemType) in
    addOptionalVendorData i.

(** The loop of [retrieveOptionalInfos]: the error, the reader and the payload. *)
Fixpoint retrieve_loop (fuel : nat) (s : TLVReader.St) (outPayload : SetupPayload) :
  CHIP_ERROR * SetupPayload :=
  match fuel with
  | O => (CHIP_ERROR_INTERNAL, outPayload)
  | S fuel =>
      let (r, outPayload) :=
        if is_info_type (TLVReader.GetType s.1) then retrieve_one s.1 outPayload else (Ok tt, outPayload) in
      match r with
      | Err e => (e, outPayload)
      | Ok _ =>
          match TLVReader.Next s with
          | (Ok _, s) => retrieve_loop fuel s outPayload
          | (Err e, _) => (if bool_decide (e = CHIP_END_OF_TLV) then CHIP_NO_ERROR else e, outPayload)
          end
      end
  end.

Definition retrieveOptionalInfos (s : TLVReader.St) (outPayload : SetupPayload) : CHIP_ERROR * SetupPayload :=
  retrieve_loop (S (TLVReader.budget s)) s outPayload.

Definition openTLVContainer (type tag : Z) : M TLVReader.St TLVReader.t :=
  let! reader := TLVReader.self in
  verify (TLVReader.GetType reader =? type) CHIP_ERROR_INVALID_ARGUMENT ;;
  verify (TLVReader.GetTag reader =? tag) CHIP_ERROR_INVALID_ARGUMENT ;;
  verify (TLVReader.GetLength reader =? 0) CHIP_ERROR_INVALID_ARGUMENT ;;
  let! containerReader := TLVReader.OpenContainer in
  verify (TLVReader.GetContainerType containerReader =? type) CHIP_ERROR_INVALID_ARGUMENT ;;
  ret containerReader.

(** The reader of the structure, on its first element. *)
Definition open_fields : M TLVReader.St TLVReader.t :=
  TLVReader.Next ;;
  let! rootReader := TLVReader.self in
  verify (TLVReader.GetType rootReader =? kTLVType_Structure) CHIP_ERROR_INVALID_ARGUMENT ;;
  openTLVContainer kTLVType_Structure AnonymousTag.

Definition parseTLVFields (tlvData : bytes) : M SetupPayload unit := fun outPayload =>
  if 2 ^ 32 - 1 <? Z.of_nat (length tlvData) then (Err CHIP_ERROR_INVALID_ARGUMENT, outPayload)
  else
    match open_fields (TLVReader.Init tlvData, []) with
    | (Err e, _) => (Err e, outPayload)
    | (Ok innerStructureReader, (_, store)) =>
        match TLVReader.Next (innerStructureReader, store) with
        | (Err e, _) => (Err e, outPayload)
        | (Ok _, s) =>
            let (err, outPayload) := retrieveOptionalInfos s outPayload in
            (if bool_decide (err = CHIP_NO_ERROR) || bool_decide (err = CHIP_END_OF_TLV)
             then Ok tt else Err err, outPayload)
        end
    end.
End Parser.

(** ** Data that survive the trip *)

Definition info_value (i : OptionalQRCodeInfo) : tlv :=
  match type i with
  | optionalQRCodeInfoTypeString => TUtf8 (data i)
  | _ => TInt (int32 i)
  end.

Definition extension_value (i : OptionalQRCodeInfoExtension) : tlv :=
  match type (info i) with
  | optionalQRCodeInfoTypeUInt32 => TUInt (uint32 i)
  | _ => info_value (info i)
  end.

Definition info_member (i : OptionalQRCodeInfo) : Z * tlv := (ContextTag (tag i), info_value i).
Definition extension_member (i : OptionalQRCodeInfoExtension) : Z * tlv :=
  (ContextTag (tag (info i)), extension_value i).

Definition data_members (p : SetupPayload) : list (Z * tlv) :=
  (info_member <$> getAllOptionalVendorData p) ++ (extension_member <$> getAllOptionalExtensionData p).

(** Text without a NUL, which would end the C string, and without U+001F, at which the
    reader cuts a string. *)
Definition text_ok (validate : bool) (d : bytes) : Prop :=
  bytes_ok d /\ Forall (fun c => c <> 0) d /\ Forall (fun c => c <> TLVReader.kUnicodeInformationSeparator1) d /\
  (validate = true -> Utf8_IsValid d = true).

(** An info as the [add] functions make it: the fields of the other types are unset. *)
Definition info_ok (validate : bool) (i : OptionalQRCodeInfo) : Prop :=
  match type i with
  | optionalQRCodeInfoTypeString => text_ok validate (data i) /\ int32 i = 0
  | optionalQRCodeInfoTypeInt32 => data i = [] /\ - 2 ^ 31 <= int32 i < 2 ^ 31
  | _ => False
  end.

Definition extension_ok (validate : bool) (i : OptionalQRCodeInfoExtension) : Prop :=
  int64 i = 0 /\ uint64 i = 0 /\
  match type (info i) with
  | optionalQRCodeInfoTypeString => info_ok validate (info i) /\ uint32 i = 0
  | optionalQRCodeInfoTypeUInt32 =>
      tag (info i) = kSerialNumberTag /\ data (info i) = [] /\ int32 (info i) = 0 /\ is_u32 (uint32 i)
  | _ => False
  end.

Definition optional_ok (validate : bool) (p : SetupPayload) : Prop :=
  payload_wf p /\ Forall (fun e => info_ok validate e.2) (optionalVendorData p) /\
  Forall (fun e => extension_ok validate e.2) (optionalExtensionData p).

(** The public [add] functions give such data. *)
Lemma map_set_ok {V} (P : V -> Prop) k v (m : list (Z * V)) :
  P v -> Forall (fun e => P e.2) m -> Forall (fun e => P e.2) (map_set k v m).
Proof. intros; by apply map_set_Forall. Qed.

Lemma addOptionalVendorData_ok validate i p :
  is_u8 (tag i) -> info_ok validate i -> optional_ok validate p ->
  optional_ok validate (addOptionalVendorData i p).2.
Proof.
  intros Ht Hi (Hw & H1 & H2); split; [by apply addOptionalVendorData_wf|].
  unfold addOptionalVendorData, bind, verify; destruct (IsVendorTag _); simpl; [|done].
  split; [by apply map_set_ok|done].
Qed.

Lemma addOptionalExtensionData_ok validate i p :
  is_u8 (tag (info i)) -> extension_ok validate i -> optional_ok validate p ->
  optional_ok validate (addOptionalExtensionData i p).2.
Proof.
  intros Ht Hi (Hw & H1 & H2); split; [by apply addOptionalExtensionData_wf|].
  unfold addOptionalExtensionData, bind, verify; destruct (IsCommonTag _); simpl; [|done].
  split; [done|by apply map_set_ok].
Qed.

(** ** Context tags *)

Lemma context_tag n :
  is_u8 n -> ContextTag n = n /\ IsSpecialTag (ContextTag n) = true /\
             TagNumFromTag (ContextTag n) = n /\ IsContextTag (ContextTag n) = true.
Proof.
  intros Hn.
  assert (forallb (fun n => (ContextTag n =? n) && IsSpecialTag (ContextTag n) &&
            (TagNumFromTag (ContextTag n) =? n) && IsContextTag (ContextTag n)) (seqZ 0 256) = true) as F
    by (vm_compute; reflexivity).
  rewrite forallb_forall in F; specialize (F n).
  rewrite !andb_true_iff, !Z.eqb_eq in F; destruct F as [[[? ?] ?] ?]; [|done].
  apply list_elem_of_In, elem_of_seqZ; unfold is_uint in Hn; lia.
Qed.

Lemma context_tag_plain n : is_u8 n -> plain_tag (ContextTag n).
Proof.
  intros Hn; destruct (context_tag n Hn) as (E & _ & En & _); split; [|intros _; rewrite En];
    rewrite ?E; unfold is_uint, kAnonymousTagNum in *; lia.
Qed.

Lemma context_tag_allowed n et : is_u8 n -> tag_allowed kTLVType_Structure et (ContextTag n) = true.
Proof.
  intros Hn; destruct (context_tag n Hn) as (_ & Es & En & _); unfold tag_allowed; rewrite Es, En.
  by rewrite (proj2 (Z.leb_le _ _)) by (unfold is_uint, kContextTagMaxNum in *; lia).
Qed.

Lemma last_not_nul d : Forall (fun c => c <> 0) d -> last d 1 <> 0.
Proof.
  intros H; destruct d as [|c d _] using rev_ind; [done|].
  by apply Forall_app in H as [_ [H _]%Forall_cons_iff]; rewrite last_last.
Qed.

Lemma info_valid validate i :
  is_u8 (tag i) -> info_ok validate i -> Z.of_nat (length (data i)) < 2 ^ 32 ->
  valid validate kTLVType_Structure (ContextTag (tag i)) (info_value i).
Proof.
  intros Ht Hi Hl; unfold info_ok, info_value in *.
  destruct (type i); try done; apply valid_leaf;
    auto using context_tag_plain, context_tag_allowed; [|lia].
  destruct Hi as [(Hb & Hn & Hs & Hv) _]; split; [done|split; [done|]].
  intros E; split; [by apply Hv|by apply last_not_nul].
Qed.

Lemma extension_valid validate i :
  is_u8 (tag (info i)) -> extension_ok validate i -> Z.of_nat (length (data (info i))) < 2 ^ 32 ->
  valid validate kTLVType_Structure (ContextTag (tag (info i))) (extension_value i).
Proof.
  intros Ht (_ & _ & Hi) Hl; unfold extension_value.
  destruct (type (info i)) eqn:E; try done.
  - by apply info_valid; [|apply Hi|].
  - apply valid_leaf; auto using context_tag_plain, context_tag_allowed.
    destruct Hi as (_ & _ & _ & Hu); unfold is_uint in *; lia.
Qed.

(** ** What the generator writes *)

(** The writing operation [m] puts the element [tv] into a structure. *)
Definition writes (p : Z) (m : M TLVWriter.St unit) (tv : Z * tlv) : Prop :=
  forall s, writing s -> TLVWriter.mContainerType s.1 = kTLVType_Structure ->
  TLVWriter.ImplicitProfileId s.1 = p -> Z.of_nat (length (encode p tv.1 tv.2)) <= room s.1 ->
  m s = (Ok tt, written (encode p tv.1 tv.2) s).

Lemma element_writes validate p tag v :
  valid validate kTLVType_Structure tag v -> writes p (write_element validate tag v) (tag, v).
Proof.
  intros Hv s Hs Hc Hp Hl; pose proof (write_element_spec validate v tag s Hs) as H.
  cbv zeta in H; rewrite Hc, Hp in H; by apply H.
Qed.

Lemma encode_payload_length validate ct p tag v :
  valid validate ct tag v -> (leaf v = true) -> (length (payload v) < length (encode p tag v))%nat.
Proof.
  intros Hv Hl; rewrite encode_body, leaf_body, length_app by done.
  pose proof (head_type_range _ _ _ _ Hv).
  pose proof (length_element_head p (fst (head_of v)) tag (seen v)); lia.
Qed.

Lemma PutString_cstr_eq validate tag d s :
  Forall (fun c => c <> 0) d -> Z.of_nat (length d) < TLVWriter.mMaxLen s.1 < 2 ^ 32 ->
  TLVWriter.PutString_cstr validate tag (d ++ [0]) s = TLVWriter.PutString validate tag d s.
Proof.
  intros Hn Hl; unfold TLVWriter.PutString_cstr, TLVWriter.PutString.
  unfold bind at 1, TLVWriter.self; cbn [fst].
  rewrite (c_string_app d []) by done.
  rewrite (proj2 (Z.eqb_neq _ 0)) by lia; cbn [negb].
  rewrite Nat.min_l by lia.
  rewrite (proj2 (Z.eqb_neq _ (TLVWriter.mMaxLen s.1))) by lia.
  by rewrite take_app_length.
Qed.

Lemma writing_max s : writing s -> room s.1 <= TLVWriter.mMaxLen s.1 < 2 ^ 32.
Proof. intros ((_ & ? & ? & _) & _); unfold room; lia. Qed.

Lemma writeTag_info_writes validate p i :
  is_u8 (tag i) -> info_ok validate i -> Z.of_nat (length (data i)) < 2 ^ 32 ->
  writes p (writeTag_info validate (ContextTag (tag i)) i) (info_member i).
Proof.
  intros Ht Hi Hl; pose proof (info_valid validate i Ht Hi Hl) as Hv.
  pose proof (element_writes validate p _ _ Hv) as Hw.
  unfold info_member; unfold writeTag_info, info_value, info_ok in *.
  destruct (type i); try done; intros s Hs Hc Hp Hroom.
  destruct Hi as [(_ & Hn & _) _]; rewrite PutString_cstr_eq; [by apply Hw|done|].
  pose proof (writing_max s Hs); pose proof (encode_payload_length _ _ p _ _ Hv eq_refl).
  cbn [payload fst snd] in *; lia.
Qed.

Lemma writeTag_extension_writes validate p i :
  is_u8 (tag (info i)) -> extension_ok validate i -> Z.of_nat (length (data (info i))) < 2 ^ 32 ->
  writes p (writeTag_extension validate (ContextTag (tag (info i))) i) (extension_member i).
Proof.
  intros Ht Hi Hl; pose proof (extension_valid validate i Ht Hi Hl) as Hv.
  pose proof (element_writes validate p _ _ Hv) as Hw.
  unfold extension_member; unfold writeTag_extension, extension_value, extension_ok in *.
  destruct Hi as (_ & _ & Hi); destruct (type (info i)) eqn:E; try done.
  exact (writeTag_info_writes validate p (info i) Ht (proj1 Hi) Hl).
Qed.

Lemma writing_container s l : TLVWriter.mContainerType (written l s).1 = TLVWriter.mContainerType s.1.
Proof. done. Qed.

Lemma encode_members_cons p tv ms : encode_members p (tv :: ms) = encode p tv.1 tv.2 ++ encode_members p ms.
Proof. done. Qed.

Lemma encode_members_app p ms ms' : encode_members p (ms ++ ms') = encode_members p ms ++ encode_members p ms'.
Proof. unfold encode_members; by rewrite map_app, concat_app. Qed.

Lemma written_room p s : room (written p s).1 = room s.1 - Z.of_nat (length p).
Proof. unfold room, written; cbn; lia. Qed.

Lemma written_twice p q s :
  writing s -> Z.of_nat (length p + length q) <= room s.1 -> written q (written p s) = written (p ++ q) s.
Proof. intros ((_ & ? & _ & ? & ?) & _) ?; apply written_app; unfold room in *; lia. Qed.

Lemma for_each_writes {A} p (body : A -> M TLVWriter.St unit) (member : A -> Z * tlv) l s :
  Forall (fun a => writes p (body a) (member a)) l ->
  writing s -> TLVWriter.mContainerType s.1 = kTLVType_Structure -> TLVWriter.ImplicitProfileId s.1 = p ->
  let out := encode_members p (member <$> l) in
  Z.of_nat (length out) <= room s.1 -> for_each body l s = (Ok tt, written out s).
Proof.
  intros Hl; revert s; induction Hl as [|a l Ha Hl IH]; intros s Hs Hc Hp out Hroom; subst out.
  - by rewrite written_nil.
  - csimpl in *; rewrite encode_members_cons, length_app in *.
    cbn [for_each]; rewrite (bind_ok _ _ _ _ _ (Ha s Hs Hc Hp ltac:(lia))).
    rewrite IH; try done; [|by apply writing_written; [|lia]|rewrite written_room; lia].
    by rewrite written_twice by (done || lia).
Qed.

(** The bytes of the structure. *)
Definition data_struct (ms : list (Z * tlv)) : bytes :=
  encode kProfileIdNotSpecified AnonymousTag (TContainer kTLVType_Structure ms).

Lemma data_struct_eq ms :
  data_struct ms = [kTLVType_Structure] ++ encode_members kProfileIdNotSpecified ms ++ [EndOfContainer].
Proof. reflexivity. Qed.

(** A writer at [pos] of a buffer, and the state it is in. *)
Definition writer_at (pos : nat) (remaining lenWritten maxLen ty : Z) (opened : bool) : TLVWriter.t :=
  TLVWriter.mk pos remaining lenWritten maxLen 0 ty TLVWriter.kExpectedInitializationCookie opened true
    kProfileIdNotSpecified.

Lemma open_root cap mem :
  2 <= cap <= Z.of_nat (length mem) -> cap < 2 ^ 32 ->
  TLVWriter.OpenContainer AnonymousTag kTLVType_Structure (TLVWriter.Init cap, mem) =
  (Ok (writer_at 1 (cap - 1) 0 (cap - 2) kTLVType_Structure false),
   (writer_at 1 (cap - 1) 1 (cap - 1) kTLVType_NotSpecified true, mem_write 0 [kTLVType_Structure] mem)).
Proof.
  intros Hc Hc2; unfold TLVWriter.Init; rewrite (proj2 (Z.ltb_lt _ _)) by done.
  set (s0 := (writer_at 0 cap 0 (cap - 1) kTLVType_NotSpecified false, mem)).
  assert (E : TLVWriter.WriteElementHead kTLVType_Structure AnonymousTag 0 s0 =
              (Ok tt, written [kTLVType_Structure] s0)).
  { apply WriteElementHead_ok; [done| |done|change (1 <= cap - 1 - 0); lia].
    unfold TlvWriter.wf, room, ready; cbn -[Z.of_nat Z.pow]; split_and!; done || lia. }
  unfold TLVWriter.OpenContainer; do 3 (erewrite bind_ok by reflexivity; cbv beta).
  assert (H : TLVWriter.open_head AnonymousTag kTLVType_Structure
                (writer_at 0 cap 0 cap kTLVType_NotSpecified false, mem) =
              (Ok tt, written [kTLVType_Structure] s0)).
  { unfold TLVWriter.open_head; unfold bind, verify; cbn [fst snd TLVWriter.IsCloseContainerReserved
      TLVWriter.mCloseContainerReserved writer_at negb orb TLVWriter.mMaxLen].
    unfold TLVWriter.kEndOfContainerMarkerSize; rewrite (proj2 (Z.leb_le 1 cap)) by lia.
    cbv beta zeta iota delta [ret]; cbn [fst snd]; unfold writer_at, TLVWriter.set_maxLen.
    cbn [TLVWriter.mMaxLen TLVWriter.mWritePoint TLVWriter.mRemainingLen TLVWriter.mLenWritten TLVWriter.mReservedSize
         TLVWriter.mContainerType TLVWriter.mInitializationCookie TLVWriter.mContainerOpen
         TLVWriter.mCloseContainerReserved TLVWriter.ImplicitProfileId].
    rewrite (wrap_small 32 (cap - 1)) by (unfold is_uint; lia).
    unfold s0, writer_at in E; by rewrite E. }
  rewrite (bind_ok _ _ _ _ _ H).
  unfold bind, TLVWriter.self, TLVWriter.upd, modify, ret, s0, written, writer_at.
  cbn -[wrap Z.pow mem_write Z.sub].
  rewrite wrap_small by (unfold is_uint; lia).
  by replace (cap - 1 - (0 + Z.of_nat 1)) with (cap - 2) by lia.
Qed.

Lemma close_root cap n mem :
  0 <= n -> 2 + n <= cap <= Z.of_nat (length mem) -> cap < 2 ^ 32 ->
  TLVWriter.CloseContainer (writer_at (1 + Z.to_nat n) (cap - 1 - n) n (cap - 2) kTLVType_Structure false)
    (writer_at 1 (cap - 1) 1 (cap - 1) kTLVType_NotSpecified true, mem) =
  (Ok tt, (writer_at (2 + Z.to_nat n) (cap - 2 - n) (2 + n) cap kTLVType_NotSpecified false,
           mem_write (1 + Z.to_nat n) [EndOfContainer] mem)).
Proof.
  intros Hn Hc Hc2.
  set (s0 := (writer_at (1 + Z.to_nat n) (cap - 1 - n) (1 + n) cap kTLVType_NotSpecified false, mem)).
  assert (E : TLVWriter.WriteElementHead EndOfContainer AnonymousTag 0 s0 = (Ok tt, written [EndOfContainer] s0)).
  { apply WriteElementHead_ok; [done| |done|change (1 <= cap - (1 + n)); lia].
    unfold TlvWriter.wf, room, ready; cbn -[Z.of_nat Z.pow Nat.add]; split_and!; done || lia. }
  unfold TLVWriter.CloseContainer, bind, TLVWriter.self, verify, ret, TLVWriter.upd, modify.
  cbn -[wrap TLVWriter.WriteElementHead Z.pow mem_write Nat.add Z.sub Z.add].
  rewrite !wrap_small by (unfold is_uint, TLVWriter.kEndOfContainerMarkerSize; lia).
  unfold TLVWriter.kEndOfContainerMarkerSize; replace (cap - 1 + 1) with cap by lia.
  unfold TLVWriter.set_position, TLVWriter.set_maxLen, TLVWriter.SetContainerOpen.
  cbn -[wrap TLVWriter.WriteElementHead Z.pow mem_write Nat.add Z.sub Z.add].
  unfold s0, writer_at in *; rewrite E; unfold written; cbn -[mem_write Z.sub Nat.add Z.add].
  do 3 f_equal; unfold TLVWriter.set_position.
  cbn [TLVWriter.mMaxLen TLVWriter.mReservedSize TLVWriter.mContainerType
       TLVWriter.mInitializationCookie TLVWriter.mContainerOpen TLVWriter.mCloseContainerReserved
       TLVWriter.ImplicitProfileId]; f_equal; lia.
Qed.

Lemma info_data_length validate p i :
  info_ok validate i -> (length (data i) <= length (encode p (ContextTag (tag i)) (info_value i)))%nat.
Proof.
  unfold info_ok, info_value; destruct (type i); try done.
  - intros _; cbn [encode]; rewrite length_app; lia.
  - by intros [-> _]; cbn [length]; lia.
Qed.

Lemma extension_data_length validate p i :
  extension_ok validate i ->
  (length (data (info i)) <= length (encode p (ContextTag (tag (info i))) (extension_value i)))%nat.
Proof.
  unfold extension_ok, extension_value; intros (_ & _ & H); destruct (type (info i)) eqn:E; try done.
  - exact (info_data_length validate p (info i) (proj1 H)).
  - destruct H as (_ & -> & _); cbn [length]; lia.
Qed.

Lemma encode_members_bound p (ms : list (Z * tlv)) tv :
  tv ∈ ms -> (length (encode p tv.1 tv.2) <= length (encode_members p ms))%nat.
Proof.
  induction 1 as [ms|tv' ms tv Hin IH]; rewrite encode_members_cons, length_app; lia.
Qed.

(** What [optional_ok] gives of one entry. *)
Lemma optional_info validate p i :
  optional_ok validate p -> i ∈ getAllOptionalVendorData p ->
  is_u8 (tag i) /\ info_ok validate i /\ IsVendorTag (tag i) = true.
Proof.
  intros ((_ & _ & Hw & _) & Hv & _) (e & -> & He)%list_elem_of_fmap.
  rewrite list.Forall_forall in Hv, Hw; destruct (Hw e He) as (<- & Hu & Ht); auto.
Qed.

Lemma optional_extension validate p i :
  optional_ok validate p -> i ∈ getAllOptionalExtensionData p ->
  is_u8 (tag (info i)) /\ extension_ok validate i /\ IsCommonTag (tag (info i)) = true.
Proof.
  intros ((_ & _ & _ & Hw) & _ & Hv) (e & -> & He)%list_elem_of_fmap.
  rewrite list.Forall_forall in Hv, Hw; destruct (Hw e He) as (<- & Hu & Ht); auto.
Qed.

Definition has_data (p : SetupPayload) : bool :=
  negb ((length (getAllOptionalVendorData p) =? 0)%nat && (length (getAllOptionalExtensionData p) =? 0)%nat).

(** The members, one by one. *)
Lemma data_members_Forall (P : Z * tlv -> Prop) p :
  (forall i, i ∈ getAllOptionalVendorData p -> P (info_member i)) ->
  (forall i, i ∈ getAllOptionalExtensionData p -> P (extension_member i)) ->
  Forall P (data_members p).
Proof.
  intros H1 H2; apply Forall_app; split; apply list.Forall_forall;
    by intros ? (i & -> & ?)%list_elem_of_fmap; auto.
Qed.

Lemma members_fit validate q p :
  optional_ok validate p -> Z.of_nat (length (encode_members q (data_members p))) < 2 ^ 32 ->
  (forall i, i ∈ getAllOptionalVendorData p -> Z.of_nat (length (data i)) < 2 ^ 32) /\
  (forall i, i ∈ getAllOptionalExtensionData p -> Z.of_nat (length (data (info i))) < 2 ^ 32).
Proof.
  intros Ho Hl; split; intros i Hi.
  - destruct (optional_info _ _ _ Ho Hi) as (_ & Hk & _).
    pose proof (info_data_length _ q _ Hk).
    pose proof (encode_members_bound q (data_members p) (info_member i)) as Hb.
    cbn [fst snd info_member] in Hb; unfold data_members in *.
    rewrite elem_of_app, list_elem_of_fmap in Hb; ospecialize (Hb _); [by left; exists i|lia].
  - destruct (optional_extension _ _ _ Ho Hi) as (_ & Hk & _).
    pose proof (extension_data_length _ q _ Hk).
    pose proof (encode_members_bound q (data_members p) (extension_member i)) as Hb.
    cbn [fst snd extension_member] in Hb; unfold data_members in *.
    rewrite elem_of_app, !list_elem_of_fmap in Hb; ospecialize (Hb _); [by right; exists i|lia].
Qed.

(** The members are valid elements of a structure. *)
Lemma members_valid validate q p :
  optional_ok validate p -> Z.of_nat (length (encode_members q (data_members p))) < 2 ^ 32 ->
  Forall (fun tv => valid validate kTLVType_Structure tv.1 tv.2) (data_members p).
Proof.
  intros Ho Hl; destruct (members_fit _ _ _ Ho Hl) as [H1 H2].
  apply data_members_Forall; intros i Hi.
  - destruct (optional_info _ _ _ Ho Hi) as (? & ? & _); apply info_valid; auto.
  - destruct (optional_extension _ _ _ Ho Hi) as (? & ? & _); apply extension_valid; auto.
Qed.

Lemma write_data_ok validate p s :
  let q := TLVWriter.ImplicitProfileId s.1 in
  let out := encode_members q (data_members p) in
  optional_ok validate p -> writing s -> TLVWriter.mContainerType s.1 = kTLVType_Structure ->
  Z.of_nat (length out) <= room s.1 ->
  (for_each (fun i => writeTag_info validate (ContextTag (tag i)) i) (getAllOptionalVendorData p) ;;
   for_each (fun i => writeTag_extension validate (ContextTag (tag (info i))) i)
            (getAllOptionalExtensionData p)) s = (Ok tt, written out s).
Proof.
  intros q out Ho Hs Hc Hroom; subst out.
  pose proof (writing_max s Hs).
  destruct (members_fit validate q p Ho ltac:(lia)) as [F1 F2].
  unfold data_members in *; rewrite encode_members_app, length_app in *.
  erewrite bind_ok.
  2: { apply (for_each_writes q _ info_member); [|done..|lia].
       apply list.Forall_forall; intros i Hi; destruct (optional_info _ _ _ Ho Hi) as (? & ? & _).
       apply writeTag_info_writes; auto. }
  erewrite (for_each_writes q _ extension_member).
  - by rewrite written_twice by (done || lia).
  - apply list.Forall_forall; intros i Hi; destruct (optional_extension _ _ _ Ho Hi) as (? & ? & _).
    apply writeTag_extension_writes; auto.
  - by apply writing_written; [|lia].
  - done.
  - done.
  - rewrite written_room; lia.
Qed.

(** The generator writes the structure at the start of its buffer. *)
Lemma generateTLV_ok validate p cap mem :
  optional_ok validate p -> has_data p = true ->
  let out := data_struct (data_members p) in
  Z.of_nat (length out) <= cap <= Z.of_nat (length mem) -> cap + 17 < 2 ^ 32 ->
  generateTLVFromOptionalData validate p cap mem = (Ok (length out), mem_write 0 out mem).
Proof.
  intros Ho Hd out Hl Hc; subst out; rewrite data_struct_eq in *.
  unfold generateTLVFromOptionalData; unfold has_data in Hd; apply negb_true_iff in Hd; rewrite Hd.
  rewrite !length_app in Hl; cbn [length] in Hl.
  rewrite open_root by lia; cbv beta iota zeta.
  set (s1 := (writer_at 1 (cap - 1) 0 (cap - 2) kTLVType_Structure false, mem_write 0 [kTLVType_Structure] mem)).
  assert (Hs1 : writing s1).
  { unfold writing, TlvWriter.wf, room, ready, s1, writer_at.
    cbn -[Z.of_nat Z.pow mem_write]; rewrite length_mem_write by (cbn [length]; lia).
    split_and!; done || lia. }
  rewrite write_data_ok; try done; cycle 1.
  { unfold room, s1; cbn [fst writer_at TLVWriter.mMaxLen TLVWriter.mLenWritten
      TLVWriter.ImplicitProfileId]; lia. }
  cbn [fst writer_at TLVWriter.ImplicitProfileId s1].
  set (ms := encode_members kProfileIdNotSpecified (data_members p)) in *.
  unfold written, s1; cbn [fst snd].
  change (TLVWriter.set_position _ _ _ _) with
    (writer_at (1 + length ms) (cap - 1 - Z.of_nat (length ms)) (0 + Z.of_nat (length ms)) (cap - 2)
       kTLVType_Structure false).
  rewrite Z.add_0_l, <-(Nat2Z.id (length ms)) at 1.
  cbn [TLVWriter.mWritePoint writer_at].
  assert (Hmem : length (mem_write 1 ms (mem_write 0 [kTLVType_Structure] mem)) = length mem).
  { rewrite !length_mem_write; cbn [length]; rewrite ?length_mem_write; cbn [length]; lia. }
  erewrite bind_ok by (apply close_root; rewrite ?Hmem; lia).
  rewrite Nat2Z.id, (mem_write_app 0 [_]) by (cbn [length]; lia).
  change (1 + length ms)%nat with (0 + length ([kTLVType_Structure] ++ ms))%nat.
  rewrite mem_write_app, <-app_assoc by (rewrite length_app; cbn [length]; lia).
  unfold TLVWriter.Finalize, bind, TLVWriter.self, verify, ret; cbn -[mem_write Z.add Z.sub Z.of_nat].
  f_equal; f_equal; rewrite length_app; cbn [length]; lia.
Qed.

(** *** The estimate is enough *)

Lemma leaf_head_range v : leaf v = true -> 0 <= fst (head_of v) < 32.
Proof.
  destruct v; cbn [head_of fst leaf]; try done; intros _; unfold int_type, uint_type, string_type;
    repeat case_match; vm_compute; split; discriminate || reflexivity.
Qed.

Lemma context_head_length q n et v :
  is_u8 n -> 0 <= et < 32 -> (length (element_head q et (ContextTag n) v) <= 10)%nat.
Proof.
  intros Hn He; destruct (context_tag n Hn) as (_ & Hs & Hk & _).
  unfold element_head, tag_field; rewrite Hs, Hk.
  rewrite (proj2 (Z.leb_le _ _)) by (unfold is_uint, kContextTagMaxNum in *; lia).
  pose proof (field_size_le et He); cbn [length app]; rewrite length_le_split; lia.
Qed.

Lemma info_estimate validate q i :
  is_u8 (tag i) -> info_ok validate i ->
  (length (encode q (info_member i).1 (info_member i).2) <= dataItemSizeEstimate i)%nat.
Proof.
  unfold info_ok, dataItemSizeEstimate, info_member, info_value; intros Ht.
  destruct (type i); try done; intros _; cbn [fst snd encode]; rewrite length_app;
    (etrans; [apply Nat.add_le_mono_r, context_head_length; [exact Ht|by apply leaf_head_range]|
              cbn [length]; lia]).
Qed.

Lemma extension_estimate validate q i :
  is_u8 (tag (info i)) -> extension_ok validate i ->
  (length (encode q (extension_member i).1 (extension_member i).2) <= dataItemSizeEstimate (info i))%nat.
Proof.
  intros Ht (_ & _ & Hi); unfold extension_member, extension_value.
  destruct (type (info i)) eqn:E; try done; [exact (info_estimate validate q (info i) Ht (proj1 Hi))|].
  unfold dataItemSizeEstimate; rewrite E; cbn [fst snd encode]; rewrite app_nil_r.
  by apply context_head_length; [|apply leaf_head_range].
Qed.

Lemma members_estimate {A} q (member : A -> Z * tlv) (size : A -> nat) l :
  (forall a, a ∈ l -> (length (encode q (member a).1 (member a).2) <= size a)%nat) ->
  (length (encode_members q (member <$> l)) <= sum_list (size <$> l))%nat.
Proof.
  induction l as [|a l IH]; intros H; csimpl; [done|].
  rewrite encode_members_cons, length_app.
  apply Nat.add_le_mono; [apply H, list_elem_of_here|apply IH; intros; by apply H, list_elem_of_further].
Qed.

Lemma estimate_enough validate p :
  optional_ok validate p -> (length (data_struct (data_members p)) <= tlv_estimate p)%nat.
Proof.
  intros Ho; rewrite data_struct_eq, !length_app; unfold data_members, tlv_estimate, EstimateStructOverhead.
  rewrite encode_members_app, length_app.
  pose proof (members_estimate kProfileIdNotSpecified info_member dataItemSizeEstimate
                (getAllOptionalVendorData p)) as H1.
  pose proof (members_estimate kProfileIdNotSpecified extension_member (fun i => dataItemSizeEstimate (info i))
                (getAllOptionalExtensionData p)) as H2.
  ospecialize (H1 _).
  { intros i Hi; destruct (optional_info _ _ _ Ho Hi) as (? & ? & _); by apply (info_estimate validate). }
  ospecialize (H2 _).
  { intros i Hi; destruct (optional_extension _ _ _ Ho Hi) as (? & ? & _).
    by apply (extension_estimate validate). }
  cbn [length]; lia.
Qed.

(** *** The bytes of the structure *)

Lemma context_head_bytes q n et v :
  is_u8 n -> 0 <= et < 32 -> bytes_ok (element_head q et (ContextTag n) v).
Proof.
  intros Hn He; destruct (context_tag n Hn) as (_ & Hs & Hk & _).
  unfold element_head, tag_field; rewrite Hs, Hk.
  rewrite (proj2 (Z.leb_le _ _)) by (unfold is_uint, kContextTagMaxNum in *; lia).
  destruct (control_byte ContextSpecific et) as (_ & _ & Hc & _);
    [by apply (bool_decide_unpack _); vm_compute|done|].
  constructor; [done|]; constructor; [done|apply le_split_ok].
Qed.

Lemma member_bytes q n v :
  is_u8 n -> leaf v = true -> bytes_ok (payload v) -> bytes_ok (encode q (ContextTag n) v).
Proof.
  intros Hn Hl Hp; rewrite encode_body, leaf_body by done; apply bytes_ok_app; split; [|done].
  by apply context_head_bytes, leaf_head_range.
Qed.

Lemma info_payload_bytes validate i : info_ok validate i -> leaf (info_value i) = true /\ bytes_ok (payload (info_value i)).
Proof.
  unfold info_ok, info_value; destruct (type i); try done; intros [H _]; split; try done.
  - apply H.
  - by constructor.
Qed.

Lemma extension_payload_bytes validate i :
  extension_ok validate i -> leaf (extension_value i) = true /\ bytes_ok (payload (extension_value i)).
Proof.
  unfold extension_ok, extension_value; intros (_ & _ & H); destruct (type (info i)) eqn:E; try done.
  - exact (info_payload_bytes validate (info i) (proj1 H)).
  - split; [done|by constructor].
Qed.

Lemma data_struct_bytes validate p : optional_ok validate p -> bytes_ok (data_struct (data_members p)).
Proof.
  intros Ho; rewrite data_struct_eq; apply bytes_ok_app; split.
  { constructor; [|by constructor]; unfold is_uint; vm_compute; split; discriminate || reflexivity. }
  apply bytes_ok_app; split.
  2: { constructor; [|by constructor]; unfold is_uint; vm_compute; split; discriminate || reflexivity. }
  apply Forall_concat, Forall_fmap, data_members_Forall; intros i Hi.
  - destruct (optional_info _ _ _ Ho Hi) as (? & Hk & _); apply info_payload_bytes in Hk as [? ?].
    by apply member_bytes.
  - destruct (optional_extension _ _ _ Ho Hi) as (? & Hk & _); apply extension_payload_bytes in Hk as [? ?].
    by apply member_bytes.
Qed.

(** ** What the parser reads *)

Section Reading.
Context (validate : bool).
Context `{BO : ByteOrder} `{HO : Host} (LE : big_endian = false).

Lemma Get_int32_on s tag v :
  - 2 ^ 31 <= v < 2 ^ 31 -> on_ s (int_type v) tag (seen (TInt v)) ->
  TLVReader.GetType s.1 = kTLVType_SignedInteger /\ TLVReader.Get_int32 s.1 = Ok v.
Proof.
  intros Hv Hon; destruct (int_on s tag v ltac:(lia) Hon) as (Ht & Hg & _); split; [done|].
  unfold TLVReader.Get_int32, TLVReader.Get_signed; rewrite Hg.
  rewrite (proj2 (Z.leb_le (- 2 ^ (32 - 1)) v)) by lia.
  by rewrite (proj2 (Z.leb_le v (2 ^ (32 - 1) - 1))) by lia.
Qed.

Lemma Get_uint32_on s tag v :
  is_u32 v -> on_ s (uint_type v) tag (seen (TUInt v)) ->
  TLVReader.GetType s.1 = kTLVType_UnsignedInteger /\ TLVReader.Get_uint32 s.1 = Ok v.
Proof.
  unfold is_uint; intros Hv Hon.
  destruct (uint_on s tag v ltac:(unfold is_uint; lia) Hon) as (Ht & Hg & _); split; [done|].
  unfold TLVReader.Get_uint32, TLVReader.Get_unsigned; rewrite Hg.
  by rewrite (proj2 (Z.leb_le v (2 ^ 32 - 1))) by lia.
Qed.

Lemma memchr_prefix_id c l :
  Forall (fun b => b <> c) l -> TLVReader.memchr_prefix c l = l.
Proof.
  induction 1 as [|b l Hb _ IH]; cbn [TLVReader.memchr_prefix]; [done|].
  by rewrite (proj2 (Z.eqb_neq b c) Hb), IH.
Qed.

(** A reader on one buffer has all it has left in its window. *)
Lemma contiguous_window s l ct p :
  contiguous s -> at_ s l ct p ->
  exists buf rp be, TLVReader.mWindow s.1 = TLVReader.Within buf rp be /\ (rp <= be <= length buf)%nat /\
                    mem_read rp (be - rp) buf = l.
Proof.
  intros [Hb _] (((buf & rp & be & Hw & Hr) & _) & Hl & _); exists buf, rp, be.
  split_and!; try done; [lia..|].
  by unfold rest, cur in Hl; rewrite Hb, Hw, app_nil_r in Hl.
Qed.

Lemma Get_CharSpan_on s tag d tl ct p :
  contiguous s -> at_ s (d ++ tl) ct p ->
  on_ s (string_type kTLVType_UTF8String (Z.of_nat (length d))) tag (Z.of_nat (length d)) ->
  Z.of_nat (length d) < 2 ^ 32 -> text_ok validate d ->
  TLVReader.GetType s.1 = kTLVType_UTF8String /\ TLVReader.Get_CharSpan validate s.1 = Ok d.
Proof.
  intros Hc Hat Hon Hl (_ & Hn & Hsep & Hu).
  destruct (string_type_facts kTLVType_UTF8String (Z.of_nat (length d))) as (_ & Hty & _); [by left|].
  split; [by eapply Hty|]; destruct Hon as (He & _ & Hv).
  destruct (contiguous_window _ _ _ _ Hc Hat) as (buf & rp & be & Hw & Hb & Hrd).
  unfold TLVReader.Get_CharSpan, TLVReader.GetDataPtr, TLVReader.GetLength; rewrite He, Hv, Hw, Hrd.
  assert (Hs : forall n, TLVTypeIsUTF8String (string_type kTLVType_UTF8String n) = true /\
                         TLVTypeIsString (string_type kTLVType_UTF8String n) = true /\
                         TLVTypeHasLength (string_type kTLVType_UTF8String n) = true)
    by (intros n; unfold string_type; repeat case_match; vm_compute; auto).
  destruct (Hs (Z.of_nat (length d))) as (-> & -> & ->).
  rewrite (wrap_small 32) by (unfold is_uint; lia).
  destruct (Z.eqb_spec (Z.of_nat (length d)) 0) as [E|E]; [by destruct d|].
  assert (Hle : (length d <= be - rp)%nat).
  { apply (f_equal length) in Hrd; rewrite length_mem_read, length_app in Hrd; lia. }
  rewrite (proj2 (Z.leb_le _ _)) by lia; rewrite Nat2Z.id, take_app_length, memchr_prefix_id by done.
  destruct validate; [|done]; rewrite Hu by done; cbn [negb].
  by rewrite (proj2 (Z.eqb_neq (last d 1) 0)) by by apply last_not_nul.
Qed.

(** On the element [tv], the body of the loop changes the payload by [f]. *)
Definition retrieves (tv : Z * tlv) (f : SetupPayload -> SetupPayload) : Prop :=
  forall s tl p x, contiguous s -> at_ s (payload tv.2 ++ tl) kTLVType_Structure p ->
  on_ s (fst (head_of tv.2)) tv.1 (seen tv.2) ->
  is_info_type (TLVReader.GetType s.1) = true /\ retrieve_one validate s.1 x = (Ok tt, f x).

Lemma string_on s tag d tl ct p :
  contiguous s -> at_ s (d ++ tl) ct p -> on_ s (fst (head_of (TUtf8 d))) tag (seen (TUtf8 d)) ->
  Z.of_nat (length d) < 2 ^ 32 -> text_ok validate d ->
  TLVReader.GetType s.1 = kTLVType_UTF8String /\ TLVReader.Get_CharSpan validate s.1 = Ok d.
Proof.
  intros Hc Hat Hon Hl Hd.
  destruct (string_type_facts kTLVType_UTF8String (Z.of_nat (length d))) as (_ & _ & Hs); [by left|].
  unfold seen in Hon; cbn [head_of fst snd] in Hon; rewrite Hs in Hon by lia.
  by eapply Get_CharSpan_on.
Qed.

(** What the loop's body finds of an element with a context tag. *)
Lemma retrieve_tag r n :
  is_u8 n -> TLVReader.GetTag r = ContextTag n ->
  IsContextTag (TLVReader.GetTag r) = true /\ wrap 8 (TagNumFromTag (TLVReader.GetTag r)) = n.
Proof.
  intros Hn ->; destruct (context_tag n Hn) as (_ & _ & E & Hc); rewrite E; split; [done|].
  by apply wrap_small.
Qed.

Lemma vendor_numeric n : IsVendorTag n = true -> getNumericTypeFor n = optionalQRCodeInfoTypeInt32.
Proof. by unfold getNumericTypeFor; intros ->. Qed.

Lemma info_eta i : Ok (MkInfo (tag i) (type i) (data i) (int32 i)) = Ok i.
Proof. by destruct i. Qed.

Lemma info_retrieved s i tl p :
  info_ok validate i -> Z.of_nat (length (data i)) < 2 ^ 32 -> contiguous s ->
  at_ s (payload (info_value i) ++ tl) kTLVType_Structure p ->
  on_ s (fst (head_of (info_value i))) (ContextTag (tag i)) (seen (info_value i)) ->
  TLVReader.GetType s.1 = (if decide (type i = optionalQRCodeInfoTypeString) then kTLVType_UTF8String
                           else kTLVType_SignedInteger) /\
  retrieveOptionalInfo_info validate s.1 (new_info (tag i)) (type i) = Ok i.
Proof.
  unfold info_ok, info_value; intros Hi Hl Hc Hat Hon.
  destruct (type i) eqn:E; try done; cbn [payload] in *.
  - destruct Hi as [Ht Hz]; destruct (string_on _ _ _ _ _ _ Hc Hat Hon Hl Ht) as [-> Hg]; split; [done|].
    unfold retrieveOptionalInfo_info; rewrite Hg; cbn [rbind new_info tag int32].
    by rewrite <-(info_eta i), E, Hz.
  - destruct Hi as [Ht Hz]; destruct (Get_int32_on _ _ _ Hz Hon) as [-> Hg]; split; [done|].
    unfold retrieveOptionalInfo_info; rewrite Hg; cbn [rbind new_info tag data].
    by rewrite <-(info_eta i), E, Ht.
Qed.

Lemma info_retrieves i :
  is_u8 (tag i) -> info_ok validate i -> IsVendorTag (tag i) = true -> Z.of_nat (length (data i)) < 2 ^ 32 ->
  retrieves (info_member i) (set_vendor (map_set (tag i) i)).
Proof.
  intros Hu Hi Hv Hl s tl p x Hc Hat Hon.
  destruct (info_retrieved s i tl p Hi Hl Hc Hat Hon) as [Hty Hr].
  destruct (retrieve_tag s.1 (tag i) Hu (proj1 (proj2 Hon))) as [Hct Hw].
  unfold retrieve_one; rewrite Hct, Hw, Hty.
  assert (Hcommon : IsCommonTag (tag i) = false) by (unfold IsVendorTag in Hv; by apply negb_true_iff).
  rewrite Hcommon, (vendor_numeric _ Hv).
  assert (E : (if (if decide (type i = optionalQRCodeInfoTypeString) then kTLVType_UTF8String
                   else kTLVType_SignedInteger) =? kTLVType_UTF8String
               then optionalQRCodeInfoTypeString else optionalQRCodeInfoTypeInt32) = type i).
  { unfold info_ok in Hi; destruct (type i); done. }
  rewrite E, Hr; split; [by case_decide|].
  unfold addOptionalVendorData, lift, bind, verify, ret, modify; cbv beta iota zeta; by rewrite Hv.
Qed.

Lemma extension_eta (e e' : OptionalQRCodeInfoExtension) :
  info e = info e' -> int64 e = int64 e' -> uint32 e = uint32 e' -> uint64 e = uint64 e' -> e = e'.
Proof. destruct e, e'; cbn; by intros -> -> -> ->. Qed.

Lemma extension_retrieves i :
  is_u8 (tag (info i)) -> extension_ok validate i -> IsCommonTag (tag (info i)) = true ->
  Z.of_nat (length (data (info i))) < 2 ^ 32 ->
  retrieves (extension_member i) (set_extension (map_set (tag (info i)) i)).
Proof.
  intros Hu Hi Hv Hl s tl p x Hc Hat Hon.
  destruct (retrieve_tag s.1 (tag (info i)) Hu (proj1 (proj2 Hon))) as [Hct Hw].
  assert (Hdone : forall ty, 
    TLVReader.GetType s.1 = ty -> is_info_type ty = true ->
    retrieveOptionalInfo_extension validate s.1 (MkExtension (new_info (tag (info i))) 0 0 0)
      (if ty =? kTLVType_UTF8String then optionalQRCodeInfoTypeString
       else getNumericTypeFor (tag (info i))) = Ok i ->
    is_info_type (TLVReader.GetType s.1) = true /\
    retrieve_one validate s.1 x = (Ok tt, set_extension (map_set (tag (info i)) i) x)).
  { intros ty Hty Hin Hr; unfold retrieve_one; rewrite Hct, Hw, Hty, Hv, Hr; split; [done|].
    unfold addOptionalExtensionData, lift, bind, verify, ret, modify; cbv beta iota zeta; by rewrite Hv. }
  unfold extension_member, extension_value, extension_ok in *; destruct Hi as (H1 & H2 & Hi).
  destruct (type (info i)) eqn:E; try done; cbn [fst snd] in *.
  - destruct Hi as [Hi H3].
    destruct (info_retrieved s (info i) tl p Hi Hl Hc Hat Hon) as [Hty Hr]; rewrite E in Hty, Hr.
    rewrite decide_True in Hty by done.
    apply (Hdone _ Hty); [done|]; unfold retrieveOptionalInfo_extension.
    cbn [Z.eqb Pos.eqb kTLVType_UTF8String info]; rewrite Hr.
    by cbn [rbind]; f_equal; apply extension_eta.
  - destruct Hi as (H3 & H4 & H5 & H6).
    destruct (Get_uint32_on _ _ _ H6 Hon) as [Hty Hg].
    apply (Hdone _ Hty); [done|]; rewrite H3; cbn [Z.eqb Pos.eqb kTLVType_UTF8String kTLVType_UnsignedInteger].
    change (getNumericTypeFor kSerialNumberTag) with optionalQRCodeInfoTypeUInt32.
    unfold retrieveOptionalInfo_extension; rewrite Hg; cbn [rbind]; f_equal; apply extension_eta; try done.
    destruct (info i); cbn in *; by subst.
Qed.

(** An element with what the loop makes of it. *)
Definition item : Type := (Z * tlv) * (SetupPayload -> SetupPayload).
Definition item_ok (i : item) : Prop :=
  valid validate kTLVType_Structure i.1.1 i.1.2 /\ leaf i.1.2 = true /\ retrieves i.1 i.2.
Definition run_items (l : list item) (x : SetupPayload) : SetupPayload := foldl (fun x i => i.2 x) x l.

Lemma retrieve_loop_ok l : forall fuel i s x e p,
  Forall item_ok (i :: l) -> contiguous s ->
  at_ s (body p i.1.2 ++ encode_members p l.*1 ++ EndOfContainer :: e) kTLVType_Structure p ->
  on_ s (fst (head_of i.1.2)) i.1.1 (seen i.1.2) -> (length l < fuel)%nat ->
  retrieve_loop validate fuel s x = (CHIP_NO_ERROR, run_items (i :: l) x).
Proof.
  induction l as [|j l IH]; intros fuel i s x e p Hl Hc Hat Hon Hf;
    (destruct fuel as [|fuel]; [by cbn [length] in Hf; lia|]); cbn [retrieve_loop];
    apply Forall_cons_1 in Hl as [(Hv & Hlf & Hr) Hl];
    (destruct (Hr s _ p x Hc ltac:(by rewrite leaf_body in Hat by done) Hon) as [-> ->]);
    (destruct (Skip_element LE validate s _ p _ _ _ Hat Hon Hv) as (s1 & E1 & Hat1 & _));
    pose proof (contiguous_Next s Hc) as Hk.
  - destruct (Next_end_from LE s kTLVType_Structure p e) as (s2 & E2 & _); [by exists s1|done|].
    by rewrite E2.
  - destruct (Next_element_from LE validate s kTLVType_Structure kTLVType_Structure p j.1.1 j.1.2
                (encode_members p l.*1 ++ EndOfContainer :: e)) as (s2 & E2 & Hat2 & Hon2); [|by right; left|..].
    + exists s1; split; [done|]; csimpl in Hat1; by rewrite encode_members_cons, <-app_assoc in Hat1.
    + apply Forall_cons_1 in Hl; apply Hl.
    + by left.
    + rewrite E2 in Hk |- *; cbn [snd] in Hk.
      rewrite (IH fuel j s2 _ e p); [done|done|done|done|done|cbn [length] in Hf; lia].
Qed.

(** The items of a payload. *)
Definition data_items (q : SetupPayload) : list item :=
  ((fun i => (info_member i, set_vendor (map_set (tag i) i))) <$> getAllOptionalVendorData q) ++
  ((fun i => (extension_member i, set_extension (map_set (tag (info i)) i)))
     <$> getAllOptionalExtensionData q).

Lemma data_items_members q : (data_items q).*1 = data_members q.
Proof. unfold data_items, data_members; rewrite fmap_app, <-!list_fmap_compose; done. Qed.

Lemma data_items_ok q :
  optional_ok validate q ->
  Z.of_nat (length (encode_members kProfileIdNotSpecified (data_members q))) < 2 ^ 32 ->
  Forall item_ok (data_items q).
Proof.
  intros Ho Hl; destruct (members_fit _ _ _ Ho Hl) as [F1 F2].
  apply Forall_app; split; apply list.Forall_forall; intros ? (i & -> & Hi)%list_elem_of_fmap; split_and!;
    cbn [fst snd info_member extension_member].
  - destruct (optional_info _ _ _ Ho Hi) as (? & ? & ?); apply info_valid; auto.
  - destruct (optional_info _ _ _ Ho Hi) as (? & H & ?); by apply info_payload_bytes in H as [? _].
  - destruct (optional_info _ _ _ Ho Hi) as (? & ? & ?); apply info_retrieves; auto.
  - destruct (optional_extension _ _ _ Ho Hi) as (? & ? & ?); apply extension_valid; auto.
  - destruct (optional_extension _ _ _ Ho Hi) as (? & H & ?); by apply extension_payload_bytes in H as [? _].
  - destruct (optional_extension _ _ _ Ho Hi) as (? & ? & ?); apply extension_retrieves; auto.
Qed.

(** The entries of an ordered map, added in their order to those before them. *)
Lemma foldl_map_set {V} (key : V -> Z) (m m0 : list (Z * V)) :
  ordered (m0 ++ m) -> Forall (fun e => e.1 = key e.2) m ->
  foldl (fun m0 v => map_set (key v) v m0) m0 m.*2 = m0 ++ m.
Proof.
  revert m0; induction m as [|[k v] m IH]; intros m0 Ho Hk; csimpl; [by rewrite app_nil_r|].
  apply Forall_cons_1 in Hk as [Hk Hm]; cbn [fst snd] in Hk; subst k.
  rewrite map_set_snoc, IH; [by rewrite <-app_assoc|by rewrite <-app_assoc|done|].
  revert Ho; unfold ordered; rewrite fmap_app; csimpl; intros Ho.
  apply list.Forall_forall; intros e He; apply (list_elem_of_fmap_2 fst) in He.
  apply StronglySorted_app in Ho as (Ho & _ & _); apply Ho; [done|by left].
Qed.

Lemma run_vendor l x :
  run_items ((fun i => (info_member i, set_vendor (map_set (tag i) i))) <$> l) x =
  set_vendor (fun m => foldl (fun m i => map_set (tag i) i m) m l) x.
Proof. revert x; induction l as [|i l IH]; intros x; [by destruct x|csimpl; unfold run_items in *; by rewrite IH]. Qed.

Lemma run_extension l x :
  run_items ((fun i => (extension_member i, set_extension (map_set (tag (info i)) i))) <$> l) x =
  set_extension (fun m => foldl (fun m i => map_set (tag (info i)) i m) m l) x.
Proof. revert x; induction l as [|i l IH]; intros x; [by destruct x|csimpl; unfold run_items in *; by rewrite IH]. Qed.

(** Read into a payload without optional data, the items give the maps back. *)
Lemma run_data_items q x :
  payload_wf q -> optionalVendorData x = [] -> optionalExtensionData x = [] ->
  run_items (data_items q) x = MkPayload (contents x) (optionalVendorData q) (optionalExtensionData q).
Proof.
  intros (O1 & O2 & F1 & F2) E1 E2.
  unfold run_items, data_items; rewrite foldl_app; fold (run_items).
  pose proof (run_vendor (getAllOptionalVendorData q) x) as H1.
  pose proof (run_extension (getAllOptionalExtensionData q)) as H2; unfold run_items in H1, H2.
  rewrite H1, H2; unfold set_vendor, set_extension; cbn [contents optionalVendorData optionalExtensionData].
  rewrite E1, E2; unfold getAllOptionalVendorData, getAllOptionalExtensionData.
  rewrite (foldl_map_set tag), (foldl_map_set (fun i => tag (info i))); try done.
  - eapply Forall_impl; [|exact F2]; cbn; tauto.
  - eapply Forall_impl; [|exact F1]; cbn; tauto.
Qed.

Lemma contiguous_Init d : contiguous (TLVReader.Init d, []).
Proof. split; [done|]; by intros [b Hb]. Qed.

(** The reader of an open container. *)
Definition enter (ty : Z) (r : TLVReader.t) : TLVReader.t :=
  TLVReader.SetContainerOpen false (TLVReader.set_container ty (TLVReader.ClearElementState r)).

Lemma enter_place ty : place_preserving (enter ty).
Proof. done. Qed.

Lemma enter_at ty s l ct p :
  at_ s l ct p -> at_ (enter ty s.1, s.2) l ty p /\ idle (enter ty s.1, s.2).
Proof. intros Hat; split; [by apply (at_place (enter ty) s l ct ty p), Hat|done]. Qed.

(** The structure is found and entered. *)
Lemma open_fields_ok ms :
  bytes_ok (data_struct ms) -> Z.of_nat (length (data_struct ms)) < 2 ^ 32 ->
  Forall (fun tv => valid validate kTLVType_Structure tv.1 tv.2) ms ->
  exists r s, open_fields (TLVReader.Init (data_struct ms), []) = (Ok r, s) /\
    contiguous (r, s.2) /\ idle (r, s.2) /\
    at_ (r, s.2) (encode_members kProfileIdNotSpecified ms ++ [EndOfContainer]) kTLVType_Structure
      kProfileIdNotSpecified.
Proof.
  intros Hb Hl Hms; set (s0 := (TLVReader.Init (data_struct ms), [])).
  destruct (at_initial s0 kProfileIdNotSpecified (initial_contiguous _ Hb)) as [Hat Hid].
  change (TLVReader.set_ImplicitProfileId kProfileIdNotSpecified s0.1, s0.2) with s0 in Hat, Hid.
  unfold s0 in Hat at 2; rewrite rest_Init in Hat by done.
  destruct (Next_element LE validate s0 kTLVType_NotSpecified kTLVType_NotSpecified kProfileIdNotSpecified
              AnonymousTag (TContainer kTLVType_Structure ms) []) as (s1 & E1 & Hat1 & Hon1); try done.
  - by rewrite app_nil_r.
  - by left.
  - by constructor 2.
  - by left.
  - pose proof (contiguous_Next s0 (contiguous_Init _)) as Hk; rewrite E1 in Hk; cbn [snd] in Hk.
    unfold open_fields; rewrite (bind_ok _ _ _ _ _ E1); unfold bind at 1, TLVReader.self.
    cbn [head_of fst seen] in Hon1.
    pose proof (GetType_on _ _ _ _ Hon1) as Hty; destruct Hon1 as (He & Ht & Hv).
    exists (enter kTLVType_Structure s1.1), (TLVReader.SetContainerOpen true s1.1, s1.2); split_and!.
    + change (if _ : bool then _ else _) with kTLVType_Structure in Hty.
      assert (Eo : TLVReader.OpenContainer s1 =
                   (Ok (enter kTLVType_Structure s1.1), (TLVReader.SetContainerOpen true s1.1, s1.2)))
        by (unfold TLVReader.OpenContainer, bind, TLVReader.self; cbn [fst]; by rewrite He).
      erewrite bind_ok by (rewrite Hty; reflexivity); unfold openTLVContainer.
      erewrite bind_ok by reflexivity; cbv beta.
      erewrite bind_ok by (rewrite Hty; reflexivity).
      erewrite bind_ok by (unfold TLVReader.GetTag; rewrite Ht; reflexivity).
      erewrite bind_ok by (unfold TLVReader.GetLength; rewrite He; reflexivity).
      by rewrite (bind_ok _ _ _ _ _ Eo).
    + exact (contiguous_upd (enter kTLVType_Structure) s1 (enter_place _) Hk).
    + done.
    + cbn [snd]; rewrite app_nil_r in Hat1; by apply (enter_at kTLVType_Structure) in Hat1 as [? _].
Qed.

Lemma encode_members_count p ms :
  Forall (fun tv => valid validate kTLVType_Structure tv.1 tv.2) ms ->
  (length ms <= length (encode_members p ms))%nat.
Proof.
  induction 1 as [|[tag v] ms Hv _ IH]; [done|]; rewrite encode_members_cons, length_app; cbn [length fst snd] in *.
  rewrite encode_body, length_app; pose proof (head_type_range _ _ _ _ Hv).
  pose proof (length_element_head p (fst (head_of v)) tag (seen v)); lia.
Qed.

(** The parser gives a payload the optional data of the structure. *)
Lemma parseTLVFields_ok q x :
  optional_ok validate q -> has_data q = true -> Z.of_nat (length (data_struct (data_members q))) < 2 ^ 32 ->
  optionalVendorData x = [] -> optionalExtensionData x = [] ->
  parseTLVFields validate (data_struct (data_members q)) x =
  (Ok tt, MkPayload (contents x) (optionalVendorData q) (optionalExtensionData q)).
Proof.
  intros Ho Hd Hl E1 E2; unfold parseTLVFields; rewrite (proj2 (Z.ltb_ge _ _)) by lia.
  assert (Hl' : Z.of_nat (length (encode_members kProfileIdNotSpecified (data_members q))) < 2 ^ 32)
    by (rewrite data_struct_eq, !length_app in Hl; lia).
  pose proof (members_valid _ _ _ Ho Hl') as Hv; pose proof (data_struct_bytes _ _ Ho) as Hb.
  destruct (open_fields_ok _ Hb Hl Hv) as (r & [r' st] & -> & Hc & Hid & Hat); cbn [snd] in *.
  pose proof (data_items_ok q Ho Hl') as Hit.
  pose proof (run_data_items q x (proj1 Ho) E1 E2) as Hrun.
  assert (Hne : data_items q <> []).
  { intros E; apply (f_equal (length)) in E; revert Hd; unfold has_data, data_items in *.
    rewrite length_app, !length_fmap in E; cbn [length] in E.
    destruct (length (getAllOptionalVendorData q)), (length (getAllOptionalExtensionData q)); done || lia. }
  rewrite <-data_items_members in Hat; destruct (data_items q) as [|i l]; [done|].
  csimpl in Hat; rewrite encode_members_cons, <-app_assoc in Hat.
  pose proof (Forall_cons_1 _ _ _ Hit) as [(Hvi & _) _].
  destruct (Next_element LE validate (r, st) _ kTLVType_Structure _ _ _ _ Hat Hid) as (s2 & En & Hat2 & Hon2);
    [by right; left|done|by left|].
  pose proof (contiguous_Next _ Hc) as Hk; rewrite En in Hk |- *; cbn [snd] in Hk.
  unfold retrieveOptionalInfos.
  rewrite (retrieve_loop_ok l _ i s2 x [] kProfileIdNotSpecified); try done; [by rewrite Hrun|].
  destruct Hat2 as (Hw2 & Hr2 & _); pose proof (budget_rest s2 Hw2) as Hbud; rewrite Hr2, !length_app in Hbud.
  apply Forall_cons_1 in Hit as [_ Hit].
  pose proof (encode_members_count kProfileIdNotSpecified l.*1) as Hcnt; rewrite length_fmap in Hcnt.
  ospecialize (Hcnt _); [|apply Nat.lt_succ_r; etrans; [exact Hcnt|lia]].
  apply Forall_fmap; eapply Forall_impl; [|exact Hit]; by intros [tv f] (? & _).
Qed.
End Reading.

(** ** Any input *)

(** [m] never stops with the error [e]. *)
Definition never {S A} (e : CHIP_ERROR) (m : M S A) : Prop := forall s, (m s).1 <> Err e.

Section Never.
Context {S : Type} (e : CHIP_ERROR).

Lemma never_bind {A B} (m : M S A) (f : A -> M S B) :
  never e m -> (forall a, never e (f a)) -> never e (bind m f).
Proof.
  intros Hm Hf s; specialize (Hm s); unfold bind; destruct (m s) as [[a|e'] s']; [apply Hf|].
  cbn in *; congruence.
Qed.

Lemma never_ret {A} (a : A) : never e (ret a : M S A).
Proof. by intros s. Qed.

Lemma never_verify b e' : e' <> e -> never e (verify b e' : M S unit).
Proof. intros He s; unfold verify; destruct b; cbn; congruence. Qed.

Lemma never_fail {A} e' : e' <> e -> never e (fail e' : M S A).
Proof. intros He s; cbn; congruence. Qed.

Lemma never_modify f : never e (modify f : M S unit).
Proof. by intros s. Qed.
End Never.

Create HintDb never.
#[local] Hint Resolve never_ret never_modify : never.
#[local] Hint Extern 2 (never _ (verify _ _)) => (apply never_verify; done) : never.
#[local] Hint Extern 2 (never _ (fail _)) => (apply never_fail; done) : never.
#[local] Hint Extern 2 (never _ (TLVReader.upd _)) => apply never_modify : never.
#[local] Hint Extern 2 (never _ TLVReader.self) => (intros ?; done) : never.

Ltac never :=
  first [by eauto with never|apply never_bind; [never|intros ?; never]|case_match; never|idtac].

Section Aborts.
Context `{BO : ByteOrder} `{HO : Host}.

Lemma no_abort_EnsureData e : e <> PROGRAM_ABORT -> never PROGRAM_ABORT (TLVReader.EnsureData e).
Proof. intros He [r st]; unfold TLVReader.EnsureData; repeat case_match; cbn; congruence. Qed.
#[local] Hint Extern 2 (never _ (TLVReader.EnsureData _)) => (apply no_abort_EnsureData; done) : never.

Lemma no_abort_ReadData n : never PROGRAM_ABORT (TLVReader.ReadData n).
Proof.
  unfold TLVReader.ReadData; generalize (S n) as fuel; intros fuel; revert n.
  induction fuel; intros n; cbn [TLVReader.ReadData_loop]; never.
Qed.
#[local] Hint Resolve no_abort_ReadData : never.

Lemma VerifyElement_no_abort r : TLVReader.VerifyElement r <> PROGRAM_ABORT.
Proof. unfold TLVReader.VerifyElement; repeat case_match; congruence. Qed.

Lemma no_abort_ReadElement : never PROGRAM_ABORT TLVReader.ReadElement.
Proof.
  unfold TLVReader.ReadElement, TLVReader.returns.
  apply never_bind; [never|intros _].
  apply never_bind; [intros [r st]; unfold TLVReader.read_control; repeat case_match; done|intros c].
  never; apply never_verify, VerifyElement_no_abort.
Qed.

Lemma no_abort_SkipData : never PROGRAM_ABORT TLVReader.SkipData.
Proof. unfold TLVReader.SkipData; never. Qed.
#[local] Hint Resolve no_abort_ReadElement no_abort_SkipData : never.

Lemma no_abort_SkipLoop fuel o n : never PROGRAM_ABORT (TLVReader.SkipToEndOfContainer_loop fuel o n).
Proof. revert n; induction fuel; intros n; cbn [TLVReader.SkipToEndOfContainer_loop]; never. Qed.

Lemma no_abort_SkipToEnd : never PROGRAM_ABORT TLVReader.SkipToEndOfContainer.
Proof.
  intros s; unfold TLVReader.SkipToEndOfContainer.
  by apply never_bind; [apply never_modify|intros _; apply no_abort_SkipLoop].
Qed.
#[local] Hint Resolve no_abort_SkipToEnd : never.

Lemma no_abort_Next : never PROGRAM_ABORT TLVReader.Next.
Proof.
  unfold TLVReader.Next, TLVReader.Skip, TLVReader.EnterContainer, TLVReader.ExitContainer; never.
Qed.
End Aborts.

(** An error a caller can get: nothing wild, no stopped program. *)
Definition benign (e : CHIP_ERROR) : Prop :=
  e <> UNDEFINED_BEHAVIOUR /\ e <> CHIP_ERROR_INTERNAL /\ e <> PROGRAM_ABORT.

Definition benign_result {A} (r : result A) : Prop := match r with Ok _ => True | Err e => benign e end.

(** The outcomes of a sequence of tests. *)
Ltac benign := repeat case_match; simplify_eq; first [done|by unfold benign_result, benign].

Section AnyInput.
Context (validate : bool).
Context `{BO : ByteOrder} `{HO : Host}.

Lemma Next_benign s : TlvStream.wf s -> benign_result (TLVReader.Next s).1.
Proof.
  intros Hw; destruct (TLVReader.Next s) as [[[]|e] s'] eqn:E; [done|].
  destruct (Next_error s e s' Hw E); split_and!; try done.
  intros ->; apply (no_abort_Next s); by rewrite E.
Qed.

Lemma Get_CharSpan_benign s :
  contiguous s -> benign_result (TLVReader.Get_CharSpan validate s.1).
Proof.
  intros [_ Hs]; unfold TLVReader.Get_CharSpan, TLVReader.GetDataPtr; unfold stuck in Hs.
  destruct (TLVReader.mWindow s.1) as [|b] eqn:E; [|by exfalso; apply Hs; exists b].
  benign.
Qed.

Lemma Get_signed_benign w r : benign_result (TLVReader.Get_signed w r).
Proof. unfold TLVReader.Get_signed, TLVReader.Get_int64; benign. Qed.

Lemma Get_unsigned_benign w r : benign_result (TLVReader.Get_unsigned w r).
Proof. unfold TLVReader.Get_unsigned, TLVReader.Get_uint64; benign. Qed.

Lemma Get_int64_benign r : benign_result (TLVReader.Get_int64 r).
Proof. unfold TLVReader.Get_int64; benign. Qed.

Lemma Get_uint64_benign r : benign_result (TLVReader.Get_uint64 r).
Proof. unfold TLVReader.Get_uint64; benign. Qed.

Lemma rbind_benign {A B} (r : result A) (k : A -> result B) :
  benign_result r -> (forall a, benign_result (k a)) -> benign_result (rbind r k).
Proof. destruct r; cbn; auto. Qed.

(** What a retrieved info can be: its tag is the one given. *)
Lemma info_benign s i ty :
  contiguous s -> benign_result (retrieveOptionalInfo_info validate s.1 i ty) /\
  (forall i', retrieveOptionalInfo_info validate s.1 i ty = Ok i' -> tag i' = tag i).
Proof.
  intros Hc; unfold retrieveOptionalInfo_info, TLVReader.Get_int32; destruct ty; try done.
  - destruct (TLVReader.Get_CharSpan validate s.1) eqn:E; cbn [rbind].
    + split; [done|]; by intros ? [= <-].
    + split; [|done]; pose proof (Get_CharSpan_benign s Hc) as H; by rewrite E in H.
  - destruct (TLVReader.Get_signed 32 s.1) eqn:E; cbn [rbind].
    + split; [done|]; by intros ? [= <-].
    + split; [|done]; pose proof (Get_signed_benign 32 s.1) as H; by rewrite E in H.
Qed.

Lemma extension_benign s i ty :
  contiguous s -> benign_result (retrieveOptionalInfo_extension validate s.1 i ty) /\
  (forall i', retrieveOptionalInfo_extension validate s.1 i ty = Ok i' -> tag (info i') = tag (info i)).
Proof.
  intros Hc; unfold retrieveOptionalInfo_extension, TLVReader.Get_uint32.
  destruct (info_benign s (info i) ty Hc) as [Hb Ht].
  destruct ty; try done.
  1, 2: destruct (retrieveOptionalInfo_info _ _ _ _); cbn [rbind]; (split; [done|]); [|done];
        intros ? [= <-]; by apply Ht.
  - pose proof (Get_int64_benign s.1); destruct (TLVReader.Get_int64 s.1); cbn [rbind]; (split; [done|]);
      [by intros ? [= <-]|done].
  - pose proof (Get_unsigned_benign 32 s.1); destruct (TLVReader.Get_unsigned 32 s.1); cbn [rbind];
      (split; [done|]); [by intros ? [= <-]|done].
  - pose proof (Get_uint64_benign s.1); destruct (TLVReader.Get_uint64 s.1); cbn [rbind]; (split; [done|]);
      [by intros ? [= <-]|done].
Qed.

(** What the parser does to a payload. *)
Definition parse_step (x x' : SetupPayload) : Prop :=
  (payload_wf x -> payload_wf x') /\ contents x' = contents x.

Lemma retrieve_one_step s x :
  contiguous s -> benign_result (retrieve_one validate s.1 x).1 /\ parse_step x (retrieve_one validate s.1 x).2.
Proof.
  intros Hc; unfold retrieve_one, bind, verify, lift.
  destruct (IsContextTag (TLVReader.GetTag s.1)); [|split; [by split_and!|done]].
  cbn [ret]; set (n := wrap 8 (TagNumFromTag (TLVReader.GetTag s.1))).
  assert (Hn : is_u8 n) by (by apply wrap_range).
  set (ty := if _ =? kTLVType_UTF8String then optionalQRCodeInfoTypeString else getNumericTypeFor n).
  clearbody ty n; unfold parse_step; destruct (IsCommonTag n) eqn:Ec; unfold ret.
  - destruct (extension_benign s (MkExtension (new_info n) 0 0 0) ty Hc) as [Hb Ht].
    destruct (retrieveOptionalInfo_extension _ _ _ _) as [i|e]; [|done].
    specialize (Ht i eq_refl); cbn [info new_info tag] in Ht.
    unfold addOptionalExtensionData, bind, verify; rewrite Ht, Ec; unfold ret, modify; split; [done|].
    split; [|done]; intros Hw; rewrite <-Ht in Hn, Ec.
    pose proof (addOptionalExtensionData_wf i x Hn Hw) as H.
    by unfold addOptionalExtensionData, bind, verify in H; rewrite Ec, Ht in H.
  - destruct (info_benign s (new_info n) ty Hc) as [Hb Ht].
    destruct (retrieveOptionalInfo_info _ _ _ _) as [i|e]; [|done].
    specialize (Ht i eq_refl); cbn [new_info tag] in Ht.
    assert (Ev : IsVendorTag (tag i) = true) by (unfold IsVendorTag; by rewrite Ht, Ec).
    unfold addOptionalVendorData, bind, verify; rewrite Ev, Ht; unfold ret, modify; split; [done|].
    split; [|done]; intros Hw; rewrite <-Ht in Hn.
    pose proof (addOptionalVendorData_wf i x Hn Hw) as H.
    by unfold addOptionalVendorData, bind, verify in H; rewrite Ev, Ht in H.
Qed.

Lemma parse_step_trans x y z : parse_step x y -> parse_step y z -> parse_step x z.
Proof. intros [? E1] [? E2]; split; [auto|by rewrite E2]. Qed.

(** The loop ends on any input: every pass takes a byte. *)
Lemma retrieve_loop_any fuel s x :
  contiguous s -> TlvStream.wf s -> (length (rest s) < fuel)%nat ->
  benign (retrieve_loop validate fuel s x).1 /\ parse_step x (retrieve_loop validate fuel s x).2.
Proof.
  revert s x; induction fuel as [|fuel IH]; intros s x Hc Hw Hf; [lia|]; cbn [retrieve_loop].
  assert (Hone : exists r x', (if is_info_type (TLVReader.GetType s.1)
                               then retrieve_one validate s.1 x else (Ok tt, x)) = (r, x') /\
                              benign_result r /\ parse_step x x').
  { destruct (is_info_type _); [|by exists (Ok tt), x].
    pose proof (retrieve_one_step s x Hc); destruct (retrieve_one validate s.1 x) as [r x'].
    by exists r, x'. }
  destruct Hone as (r & x' & -> & Hr & Hx); destruct r as [[]|e]; [|done].
  pose proof (Next_benign s Hw) as Hb; pose proof (contiguous_Next s Hc) as Hk.
  destruct (TLVReader.Next s) as [[[]|e] s'] eqn:E; cbn [fst snd] in *.
  - destruct (Next_progress s s' Hw E) as [Hw' Hl].
    destruct (IH s' x') as [? ?]; [done|done|lia|]; split; [done|by eapply parse_step_trans].
  - split; [|done]; by case_bool_decide.
Qed.

Lemma enter_wf ty s : TlvStream.wf s -> TlvStream.wf (enter ty s.1, s.2).
Proof. by apply place_wf. Qed.

(** Opening the structure, whatever the bytes are. *)
Lemma open_fields_any d :
  bytes_ok d ->
  match open_fields (TLVReader.Init d, []) with
  | (Err e, _) => benign e
  | (Ok r, s) => contiguous (r, s.2) /\ TlvStream.wf (r, s.2)
  end.
Proof.
  intros Hb; set (s0 := (TLVReader.Init d, [])).
  pose proof (wf_Init d Hb) as Hw; pose proof (contiguous_Next s0 (contiguous_Init d)) as Hk.
  pose proof (Next_benign s0 Hw) as He; unfold open_fields.
  destruct (TLVReader.Next s0) as [[[]|e] s1] eqn:E; [|by rewrite (bind_err _ _ _ _ _ E)].
  rewrite (bind_ok _ _ _ _ _ E); destruct (Next_progress s0 s1 Hw E) as [Hw1 _].
  cbn [snd] in Hk; unfold openTLVContainer, TLVReader.OpenContainer, bind, TLVReader.self, TLVReader.upd,
    modify, verify, ret, fail; cbn [fst].
  repeat match goal with |- context [if ?b then (fun s => _) else _] => destruct b; cbn [fst snd]; [|done] end.
  split; [|by apply (enter_wf _ s1)].
  exact (contiguous_upd (enter (TLVReader.ElementType s1.1)) s1 (enter_place _) Hk).
Qed.

(** [parseTLVFields] on any bytes: no wild pointer, no stopped program, no endless loop;
    the payload stays well formed. *)
Lemma parseTLVFields_any d x :
  bytes_ok d -> benign_result (parseTLVFields validate d x).1 /\ parse_step x (parseTLVFields validate d x).2.
Proof.
  intros Hb; unfold parseTLVFields; destruct (2 ^ 32 - 1 <? _); [done|].
  pose proof (open_fields_any d Hb) as H.
  destruct (open_fields _) as [[r|e] [r' st]]; [|done]; cbn [snd] in H; destruct H as [Hc Hw].
  pose proof (Next_benign _ Hw) as He; pose proof (contiguous_Next _ Hc) as Hk.
  destruct (TLVReader.Next (r, st)) as [[[]|e] s] eqn:E; [|done]; cbn [fst snd] in *.
  destruct (Next_progress _ _ Hw E) as [Hw' _]; unfold retrieveOptionalInfos.
  pose proof (budget_rest s Hw').
  destruct (retrieve_loop_any (S (TLVReader.budget s)) s x Hk Hw') as [Hbe Hx]; [lia|].
  destruct (retrieve_loop _ _ _ _) as [err x']; cbn [fst snd] in *; split; [|done].
  by destruct (_ || _).
Qed.
End AnyInput.
