(* ===== verification/QrCode.v ===== *)
(** * QrCode: QR codes and strings of either kind

    src/src/setup_payload/QRCodeSetupPayloadGenerator.{h,cpp},
    QRCodeSetupPayloadParser.{h,cpp}, and [FromStringRepresentation] of
    SetupPayload.cpp, over the bits of QrBits.v, the optional data of QrTlv.v and the
    base-38 text of Base38.v.

    - Module [QRCodeSetupPayloadGenerator]: the three forms of
      [payloadBase38Representation] and the generator without optional data;
    - Module [QRCodeSetupPayloadParser]: [populatePayload], [populatePayloads];
    - generated codes, alone or concatenated, read back as the payloads they were made
      from; and any string at all ends in payloads or in an error. *)

From S2P Require Import Prelude Encoding Utf8 TlvTypes TlvReader TlvWriter TlvStream TlvCodec.
From S2P Require Import Base38 SetupPayload ManualCode QrBits QrTlv.

(** ** The generator *)

(** The state of [outBuffer]: the error, the memory and the size of the span; [bits] is
    the size of the scratch span. *)
Definition payloadBase38RepresentationWithTLV (payload : PayloadContents) (outBuffer : bytes)
    (bits : nat) (tlvData prefix : bytes) : CHIP_ERROR * bytes * nat :=
  match generateBitSet payload tlvData (replicate bits 0) with
  | (Err e, _) => (e, outBuffer, length outBuffer)
  | (Ok _, bits) =>
      let prefixLen := length prefix in
      if (length outBuffer <? prefixLen + 1)%nat
      then (CHIP_ERROR_BUFFER_TOO_SMALL, outBuffer, length outBuffer)
      else let '(err, subSpan, size) := base38Encode bits (drop prefixLen outBuffer) in
           (err, prefix ++ subSpan, (size + prefixLen)%nat)
  end.

Module QRCodeSetupPayloadGenerator.

Record t := mk { mPayload : SetupPayload; mAllowInvalidPayload : bool; mAsConcatenation : bool }.

Definition init (setupPayload : SetupPayload) : t := mk setupPayload false false.
Definition SetAllowInvalidPayload (allow : bool) (g : t) : t := mk (mPayload g) allow (mAsConcatenation g).
Definition SetAsConcatenation (concatenation : bool) (g : t) : t :=
  mk (mPayload g) (mAllowInvalidPayload g) concatenation.

Section Operations.
Context (validate : bool).

(** With a buffer for the TLV data, which is the state; the result is the string.  A
    new vector has the capacity it was asked for. *)
Definition payloadBase38Representation_buffer (g : t) : M bytes bytes :=
  verify (mAllowInvalidPayload g || isValidQRCodePayload kProduce (contents (mPayload g)))
         CHIP_ERROR_INVALID_ARGUMENT ;;
  let! tlvDataLengthInBytes :=
    (fun tlvDataStart => generateTLVFromOptionalData validate (mPayload g)
                           (Z.of_nat (length tlvDataStart)) tlvDataStart) in
  let! tlvDataStart := get in
  let bits := (kTotalPayloadDataSizeInBytes + tlvDataLengthInBytes)%nat in
  let buffer := replicate (base38EncodedLength bits + length kQRCodePrefix) 0 in
  let kDelimiterString := [kPayloadDelimiter] in
  let '(err, buffer, _) :=
    payloadBase38RepresentationWithTLV (contents (mPayload g)) buffer bits
      (take tlvDataLengthInBytes tlvDataStart)
      (if mAsConcatenation g then kDelimiterString else kQRCodePrefix) in
  verify (bool_decide (err = CHIP_NO_ERROR)) err ;;
  ret (c_string buffer).

(** Without optional data. *)
Definition payloadBase38Representation (g : t) : result bytes :=
  (payloadBase38Representation_buffer g []).1.

(** [alloc] is the heap: the memory it gives for a size, unless it has none. *)
Definition payloadBase38RepresentationWithAutoTLVBuffer (alloc : nat -> option bytes) (g : t) : result bytes :=
  let estimate := tlv_estimate (mPayload g) in
  if 2 ^ 32 - 1 <? Z.of_nat estimate then Err CHIP_ERROR_NO_MEMORY
  else
    match alloc estimate with
    | None => Err CHIP_ERROR_NO_MEMORY
    | Some buf => (payloadBase38Representation_buffer g buf).1
    end.
End Operations.
End QRCodeSetupPayloadGenerator.

Module QRCodeBasicSetupPayloadGenerator.
Definition payloadBase38Representation (mPayload : PayloadContents) (outBuffer : bytes) :
  CHIP_ERROR * bytes * nat :=
  if negb (isValidQRCodePayload kProduce mPayload)
  then (CHIP_ERROR_INVALID_ARGUMENT, outBuffer, length outBuffer)
  else payloadBase38RepresentationWithTLV mPayload outBuffer kTotalPayloadDataSizeInBytes [] kQRCodePrefix.
End QRCodeBasicSetupPayloadGenerator.

(** ** The parser *)

Module QRCodeSetupPayloadParser.

Definition set_version (v : Z) (p : PayloadContents) : PayloadContents :=
  MkContents v (vendorID p) (productID p) (commissioningFlow p) (rendezvousInformation p)
             (discriminator p) (setUpPINCode p).
Definition set_rendezvousInformation (v : Z) (p : PayloadContents) : PayloadContents :=
  MkContents (version p) (vendorID p) (productID p) (commissioningFlow p) (Some v)
             (discriminator p) (setUpPINCode p).

(** The value read and the index after it. *)
Definition read (buf : bytes) (index n : nat) : result (Z * nat) :=
  match readBits buf n index with
  | (Ok dest, index) => Ok (dest, index)
  | (Err e, _) => Err e
  end.

(** The loop of [populateTLV]; [readBits] clears [dest] first and its error is ignored. *)
Fixpoint tlv_bytes (buf : bytes) (index n : nat) : result bytes :=
  match n with
  | O => Ok []
  | S n =>
      match readBits buf 8 index with
      | (Err UNDEFINED_BEHAVIOUR, _) => Err UNDEFINED_BEHAVIOUR
      | (Ok dest, index) => let* tl := tlv_bytes buf index n in Ok (wrap 8 dest :: tl)
      | (Err _, index) => let* tl := tlv_bytes buf index n in Ok (0 :: tl)
      end
  end.

Section Operations.
Context (validate : bool) (alloc : nat -> bool).
Context `{BO : ByteOrder} `{HO : Host}.

Definition populateTLV (buf : bytes) (index : nat) : M SetupPayload unit :=
  let bitsLeftToRead := (length buf * 8 - index)%nat in
  let tlvBytesLength := ((bitsLeftToRead + 7) / 8)%nat in
  if (tlvBytesLength =? 0)%nat then ret tt
  else
    verify (alloc tlvBytesLength) CHIP_ERROR_NO_MEMORY ;;
    let! tlvArray := lift (tlv_bytes buf index tlvBytesLength) in
    parseTLVFields validate tlvArray.

Definition populatePayloadFromBase38Data (payload : bytes) : M SetupPayload unit :=
  let (err, buf) := base38Decode payload in
  verify (bool_decide (err = CHIP_NO_ERROR)) err ;;
  let! (dest, index) := lift (read buf 0 kVersionFieldLengthInBits) in
  assign (set_version (wrap 8 dest)) ;;
  let! (dest, index) := lift (read buf index kVendorIDFieldLengthInBits) in
  assign (set_vendorID (wrap 16 dest)) ;;
  let! (dest, index) := lift (read buf index kProductIDFieldLengthInBits) in
  assign (set_productID (wrap 16 dest)) ;;
  let! (dest, index) := lift (read buf index kCommissioningFlowFieldLengthInBits) in
  assign (set_commissioningFlow (wrap 8 dest)) ;;
  let! (dest, index) := lift (read buf index kRendezvousInfoFieldLengthInBits) in
  assign (set_rendezvousInformation (wrap 8 dest)) ;;
  let! (dest, index) := lift (read buf index kPayloadDiscriminatorFieldLengthInBits) in
  let! d := lift (SetupDiscriminator.SetLongValue (wrap 16 dest)) in
  assign (set_discriminator d) ;;
  let! (dest, index) := lift (read buf index kSetupPINCodeFieldLengthInBits) in
  assign (set_setUpPINCode (wrap 32 dest)) ;;
  let! (dest, index) := lift (read buf index kPaddingFieldLengthInBits) in
  verify (dest =? 0) CHIP_ERROR_INVALID_ARGUMENT ;;
  populateTLV buf index.

(** [ExtractPayload]: the start of every segment between '%' signs. *)
Fixpoint segment_starts (inString : bytes) (i : nat) : list nat :=
  match inString with
  | [] => []
  | c :: inString => (if c =? 37 then [S i] else []) ++ segment_starts inString (S i)
  end.

Fixpoint segments (inString : bytes) (startIndices : list nat) : list bytes :=
  match startIndices with
  | [] => []
  | startIndex :: more =>
      (match more with
       | [] => drop startIndex inString
       | next :: _ => take (next - 1 - startIndex) (drop startIndex inString)
       end) :: segments inString more
  end.

Definition starts_with (prefix s : bytes) : bool := bool_decide (take (length prefix) s = prefix).

Definition ExtractPayload (inString : bytes) : bytes :=
  match List.find (fun segment => starts_with kQRCodePrefix segment &&
                                  (length kQRCodePrefix <? length segment)%nat)
                  (segments inString (0%nat :: segment_starts inString 0)) with
  | Some chipSegment => drop (length kQRCodePrefix) chipSegment
  | None => []
  end.

Definition populatePayload (mBase38Representation : bytes) : M SetupPayload unit :=
  let payload := ExtractPayload mBase38Representation in
  verify (negb (length payload =? 0)%nat) CHIP_ERROR_INVALID_ARGUMENT ;;
  populatePayloadFromBase38Data payload.

(** The index of the first [c], from [i] on. *)
Fixpoint find_char (c : Z) (s : bytes) : option nat :=
  match s with
  | [] => None
  | b :: s => if b =? c then Some 0%nat else option_map S (find_char c s)
  end.

(** The loop over chunks; a pass that goes on has passed a delimiter. *)
Fixpoint chunks_loop (fuel : nat) (payload : bytes) (chunkStart : nat) : M (list SetupPayload) unit :=
  match fuel with
  | O => fail CHIP_ERROR_INTERNAL
  | S fuel => fun outPayloads =>
      let rest := drop chunkStart payload in
      let (chunk, next) :=
        match find_char kPayloadDelimiter rest with
        | None => (rest, None)
        | Some n => (take n rest, Some (chunkStart + n + 1)%nat)
        end in
      let (r, nextItem) := populatePayloadFromBase38Data chunk SetupPayload_init in
      let outPayloads := outPayloads ++ [nextItem] in
      match r, next with
      | Err e, _ => (Err e, outPayloads)
      | Ok _, None => (Ok tt, outPayloads)
      | Ok _, Some chunkStart => chunks_loop fuel payload chunkStart outPayloads
      end
  end.

Definition populatePayloads (mBase38Representation : bytes) : M (list SetupPayload) unit :=
  let payload := ExtractPayload mBase38Representation in
  verify (negb (length payload =? 0)%nat) CHIP_ERROR_INVALID_ARGUMENT ;;
  modify (fun _ => []) ;;
  chunks_loop (S (length payload)) payload 0.

(** [SetupPayload::FromStringRepresentation] *)
Definition FromStringRepresentation (stringRepresentation : bytes) : M (list SetupPayload) unit :=
  if negb (starts_with kQRCodePrefix stringRepresentation) then fun _ =>
    let (r, payload) := ManualCode.populatePayload stringRepresentation SetupPayload_init in
    match r with
    | Err e => (Err e, [payload])
    | Ok _ => verify (isValidManualCode kProduce (contents payload)) CHIP_ERROR_INVALID_ARGUMENT [payload]
    end
  else
    populatePayloads stringRepresentation ;;
    let! outPayloads := get in
    verify (forallb (fun entry => isValidQRCodePayload kProduce (contents entry)) outPayloads)
           CHIP_ERROR_INVALID_ARGUMENT.
End Operations.
End QRCodeSetupPayloadParser.

Import QRCodeSetupPayloadParser.

(** ** The text of a payload *)

(** The TLV data of a payload, the bytes of its QR code, and their text. *)
Definition qr_tlv (p : SetupPayload) : bytes := if has_data p then data_struct (data_members p) else [].

Definition qr_bytes (p : SetupPayload) : bytes :=
  le_split (kTotalPayloadDataSizeInBytes + length (qr_tlv p))
    (pack (header_fields (contents p)) + 2 ^ Z.of_nat kTotalPayloadDataSizeInBits * le_combine (qr_tlv p)).

Definition qr_text (p : SetupPayload) : bytes := base38_text (qr_bytes p).

(** What a QR code says of a payload: a long discriminator and a set of flags. *)
Definition told (c : PayloadContents) : PayloadContents :=
  MkContents (version c) (vendorID c) (productID c) (commissioningFlow c)
    (Some (default RendezvousInformationFlag.kNone (rendezvousInformation c)))
    (SetupDiscriminator.mk (discriminator_field c) false) (setUpPINCode c).

(** A payload the generator can write. *)
Definition writable (validate : bool) (p : SetupPayload) : Prop :=
  fits_fields (contents p) /\ optional_ok validate p /\ Z.of_nat (tlv_estimate p) + 17 < 2 ^ 32.

Lemma fits_field c fs1 n v fs2 :
  fits_fields c -> header_fields c = fs1 ++ (n, v) :: fs2 -> (n < 32)%nat /\ is_uint (Z.of_nat n) v.
Proof. intros H E; unfold fits_fields in H; rewrite E in H; by apply Forall_app in H as [_ [H _]%Forall_cons_1]. Qed.

Lemma qr_tlv_bytes validate p : optional_ok validate p -> bytes_ok (qr_tlv p).
Proof. intros Ho; unfold qr_tlv; destruct (has_data p); [by eapply data_struct_bytes|constructor]. Qed.

Lemma length_qr_bytes p : length (qr_bytes p) = (kTotalPayloadDataSizeInBytes + length (qr_tlv p))%nat.
Proof. apply length_le_split. Qed.

Lemma generateBitSet_bytes validate p :
  fits_fields (contents p) -> optional_ok validate p ->
  generateBitSet (contents p) (qr_tlv p) (replicate (kTotalPayloadDataSizeInBytes + length (qr_tlv p)) 0) =
  (Ok tt, qr_bytes p).
Proof.
  intros Hf Ho; destruct (generateBitSet_ok (contents p) (qr_tlv p) Hf (qr_tlv_bytes _ _ Ho))
    as (bits & -> & Hl & Hb & HN).
  do 2 f_equal; unfold qr_bytes; rewrite <-HN, <-Hl; symmetry; by apply le_split_combine.
Qed.

Lemma qr_bytes_number validate p :
  fits_fields (contents p) -> optional_ok validate p ->
  le_combine (qr_bytes p) =
  pack (header_fields (contents p)) + 2 ^ Z.of_nat kTotalPayloadDataSizeInBits * le_combine (qr_tlv p).
Proof.
  intros Hf Ho; destruct (generateBitSet_ok (contents p) (qr_tlv p) Hf (qr_tlv_bytes _ _ Ho))
    as (bits & _ & Hl & Hb & HN).
  unfold qr_bytes; by rewrite <-HN, <-Hl, le_split_combine.
Qed.

(** ** What the generator makes *)

Lemma representation_ok validate p out prefix :
  fits_fields (contents p) -> optional_ok validate p ->
  (length prefix + base38EncodedLength (length (qr_bytes p)) <= length out)%nat ->
  payloadBase38RepresentationWithTLV (contents p) out (length (qr_bytes p)) (qr_tlv p) prefix =
  (CHIP_NO_ERROR, prefix ++ mem_write 0 (qr_text p ++ [0]) (drop (length prefix) out),
   (length (qr_text p) + length prefix)%nat).
Proof.
  intros Hf Ho Hl; unfold payloadBase38RepresentationWithTLV.
  rewrite length_qr_bytes at 1; rewrite (generateBitSet_bytes validate) by done.
  assert (1 <= base38EncodedLength (length (qr_bytes p)))%nat by (unfold base38EncodedLength; lia).
  rewrite (proj2 (Nat.ltb_ge _ _)) by lia.
  rewrite base38Encode_spec; [done|apply le_split_ok|rewrite length_drop; lia].
Qed.

(** The string in the buffer. *)
Lemma representation_string prefix text buf :
  Forall (fun c => c <> 0) prefix -> Forall (fun c => c <> 0) text ->
  c_string (prefix ++ mem_write 0 (text ++ [0]) buf) = prefix ++ text.
Proof.
  intros Hp Ht; rewrite mem_write_start, <-app_assoc; cbn [app].
  rewrite app_assoc, c_string_app; [done|by apply Forall_app].
Qed.

Lemma generateTLV_qr validate p mem :
  optional_ok validate p -> (tlv_estimate p <= length mem)%nat -> Z.of_nat (length mem) + 17 < 2 ^ 32 ->
  exists mem', generateTLVFromOptionalData validate p (Z.of_nat (length mem)) mem =
               (Ok (length (qr_tlv p)), mem') /\ take (length (qr_tlv p)) mem' = qr_tlv p.
Proof.
  intros Ho He Hm; unfold qr_tlv; destruct (has_data p) eqn:E.
  - eexists; split; [apply generateTLV_ok; auto|].
    + pose proof (estimate_enough validate p Ho); lia.
    + by rewrite mem_write_start, take_app_length.
  - unfold generateTLVFromOptionalData, has_data in *; apply negb_false_iff in E; rewrite E; by eexists.
Qed.

Definition prefix_of (concatenation : bool) : bytes :=
  if concatenation then [kPayloadDelimiter] else kQRCodePrefix.

(** Every form of the generator gives the prefix and the text. *)
Lemma buffer_representation validate g mem :
  let p := QRCodeSetupPayloadGenerator.mPayload g in
  QRCodeSetupPayloadGenerator.mAllowInvalidPayload g || isValidQRCodePayload kProduce (contents p) = true ->
  fits_fields (contents p) -> optional_ok validate p ->
  (tlv_estimate p <= length mem)%nat -> Z.of_nat (length mem) + 17 < 2 ^ 32 ->
  (QRCodeSetupPayloadGenerator.payloadBase38Representation_buffer validate g mem).1 =
  Ok (prefix_of (QRCodeSetupPayloadGenerator.mAsConcatenation g) ++ qr_text p).
Proof.
  intros p Hv Hf Ho He Hm; unfold QRCodeSetupPayloadGenerator.payloadBase38Representation_buffer; fold p.
  rewrite Hv; erewrite bind_ok by reflexivity.
  destruct (generateTLV_qr validate p mem Ho He Hm) as (mem' & E & Ht).
  erewrite bind_ok by exact E; erewrite bind_ok by reflexivity; rewrite Ht, <-length_qr_bytes.
  set (pre := if _ : bool then _ else _); set (buf := replicate _ 0).
  assert (Hpre : (1 <= length pre <= 3)%nat /\ Forall (fun c => c <> 0) pre /\
                 pre = prefix_of (QRCodeSetupPayloadGenerator.mAsConcatenation g))
    by (subst pre; unfold prefix_of; case_match; (split; [simpl; lia|split; [by repeat constructor|done]])).
  destruct Hpre as (Hpl & Hpn & <-).
  rewrite (representation_ok validate); [|done|done|].
  - rewrite bool_decide_true by done; cbn [bind verify ret fst].
    unfold bind, verify, ret; cbn [fst]; rewrite representation_string; [done|done|apply base38_text_no_nul].
  - subst buf; rewrite length_replicate; change (length kQRCodePrefix) with 3%nat; lia.
Qed.

(** ** What the parser makes of it *)

Section Reading.
Context (validate : bool) (alloc : nat -> bool).
Context `{BO : ByteOrder} `{HO : Host} (LE : big_endian = false).

Lemma read_ok buf n index :
  bytes_ok buf -> (n < 32)%nat -> (index + n <= length buf * 8)%nat ->
  read buf index n = Ok (le_combine buf / 2 ^ Z.of_nat index mod 2 ^ Z.of_nat n, (index + n)%nat).
Proof. intros; unfold read; by rewrite readBits_ok. Qed.

(** A field reads back, whatever follows the fields. *)
Lemma read_field p fs1 n v fs2 i :
  fits_fields (contents p) -> optional_ok validate p ->
  header_fields (contents p) = fs1 ++ (n, v) :: fs2 -> i = widths fs1 ->
  read (qr_bytes p) i n = Ok (v, (i + n)%nat).
Proof.
  intros Hf Ho E ->; destruct (fits_field _ _ _ _ _ Hf E) as [Hn _].
  assert (Hw : (widths fs1 + n <= kTotalPayloadDataSizeInBits)%nat).
  { rewrite <-(header_widths (contents p)), E, widths_app; unfold widths; csimpl; lia. }
  rewrite read_ok; [|apply le_split_ok|done|].
  - rewrite (qr_bytes_number validate), <-(header_widths (contents p)), E by done.
    rewrite pack_read; [done|]; by rewrite <-E.
  - rewrite length_qr_bytes; revert Hw; change kTotalPayloadDataSizeInBits with 88%nat.
    change kTotalPayloadDataSizeInBytes with 11%nat; lia.
Qed.

(** The bytes above the fields. *)
Lemma tlv_bytes_ok buf i l lo :
  bytes_ok buf -> bytes_ok l -> (length buf * 8 = i + 8 * length l)%nat -> 0 <= lo < 2 ^ Z.of_nat i ->
  le_combine buf = lo + 2 ^ Z.of_nat i * le_combine l ->
  tlv_bytes buf i (length l) = Ok l.
Proof.
  intros Hb Hl; revert i lo; induction Hl as [|b l Hb8 Hl IH]; intros i lo Hlen Hlo HN; [done|].
  cbn [length tlv_bytes]; cbn [length] in Hlen; rewrite readBits_ok by (done || lia).
  cbn [le_combine] in HN; unfold is_uint in Hb8.
  assert (Hp : 0 < 2 ^ Z.of_nat i) by (apply pow2_pos; lia).
  assert (E : le_combine buf / 2 ^ Z.of_nat i = b + 256 * le_combine l).
  { rewrite HN, (Z.mul_comm (2 ^ _)), Z.div_add, (Z.div_small lo) by lia; lia. }
  rewrite E; change (2 ^ Z.of_nat 8) with 256.
  rewrite (Z.mul_comm 256), Z_mod_plus_full, (Z.mod_small b) by lia.
  rewrite (IH (i + 8)%nat (lo + 2 ^ Z.of_nat i * b)); [|lia| |].
  - cbn [rbind]; by rewrite wrap_small.
  - rewrite Nat2Z.inj_add, Z.pow_add_r by lia; change (2 ^ Z.of_nat 8) with 256; nia.
  - rewrite HN, Nat2Z.inj_add, Z.pow_add_r by lia; change (2 ^ Z.of_nat 8) with 256; lia.
Qed.

Lemma populateTLV_ok p x :
  writable validate p -> (qr_tlv p = [] \/ alloc (length (qr_tlv p)) = true) ->
  optionalVendorData x = [] -> optionalExtensionData x = [] ->
  populateTLV validate alloc (qr_bytes p) kTotalPayloadDataSizeInBits x =
  (Ok tt, MkPayload (contents x) (optionalVendorData p) (optionalExtensionData p)).
Proof.
  intros (Hf & Ho & He) Ha E1 E2; unfold populateTLV; rewrite length_qr_bytes.
  change kTotalPayloadDataSizeInBits with 88%nat; change kTotalPayloadDataSizeInBytes with 11%nat.
  assert (Hn : ((((11 + length (qr_tlv p)) * 8 - 88 + 7) / 8) = length (qr_tlv p))%nat).
  { replace ((11 + length (qr_tlv p)) * 8 - 88 + 7)%nat with (7 + length (qr_tlv p) * 8)%nat by lia.
    by rewrite Nat.div_add, (Nat.div_small 7) by lia. }
  rewrite Hn; destruct (has_data p) eqn:Ed.
  - assert (Hne : qr_tlv p = data_struct (data_members p)) by (unfold qr_tlv; by rewrite Ed).
    assert (Hlen : length (qr_tlv p) <> 0%nat) by (rewrite Hne, data_struct_eq; done).
    destruct Ha as [Ha|Ha]; [by rewrite Ha in Hlen|].
    rewrite (proj2 (Nat.eqb_neq _ _) Hlen), Ha; erewrite bind_ok by reflexivity.
    rewrite (tlv_bytes_ok _ 88 (qr_tlv p) (pack (header_fields (contents p)))).
    + erewrite bind_ok by reflexivity; rewrite Hne; apply parseTLVFields_ok; try done.
      pose proof (estimate_enough validate p Ho); lia.
    + apply le_split_ok.
    + by apply (qr_tlv_bytes validate).
    + rewrite length_qr_bytes; change kTotalPayloadDataSizeInBytes with 11%nat; lia.
    + exact (pack_range _ Hf).
    + by rewrite (qr_bytes_number validate).
  - unfold qr_tlv; rewrite Ed; cbn [length Nat.eqb ret].
    unfold has_data in Ed; apply negb_false_iff, andb_true_iff in Ed.
    rewrite !Nat.eqb_eq in Ed; unfold getAllOptionalVendorData, getAllOptionalExtensionData in Ed.
    rewrite !length_fmap in Ed; destruct Ed as [H1%nil_length_inv H2%nil_length_inv].
    rewrite H1, H2; destruct x; cbn in *; by subst.
Qed.

(** The header reads back, field by field. *)
Lemma header_reads p :
  fits_fields (contents p) -> optional_ok validate p ->
  let c := contents p in let b := qr_bytes p in
  read b 0 3 = Ok (version c, 3%nat) /\ read b 3 16 = Ok (vendorID c, 19%nat) /\
  read b 19 16 = Ok (productID c, 35%nat) /\ read b 35 2 = Ok (commissioningFlow c, 37%nat) /\
  read b 37 8 = Ok (default 0 (rendezvousInformation c), 45%nat) /\
  read b 45 12 = Ok (discriminator_field c, 57%nat) /\ read b 57 27 = Ok (setUpPINCode c, 84%nat) /\
  read b 84 4 = Ok (0, 88%nat).
Proof.
  intros Hf Ho c b; set (F k := read_field p (take k (header_fields c))).
  split_and!; [eapply (F 0%nat)|eapply (F 1%nat)|eapply (F 2%nat)|eapply (F 3%nat)|eapply (F 4%nat)
    |eapply (F 5%nat)|eapply (F 6%nat)|eapply (F 7%nat)]; done.
Qed.

(** The values fit their types. *)
Lemma header_ranges c :
  fits_fields c ->
  is_u8 (version c) /\ is_u16 (vendorID c) /\ is_u16 (productID c) /\ is_u8 (commissioningFlow c) /\
  is_u8 (default 0 (rendezvousInformation c)) /\ is_uint 12 (discriminator_field c) /\ is_u32 (setUpPINCode c).
Proof.
  unfold fits_fields, header_fields, field_ok.
  intros [[_ H1] [[_ H2] [[_ H3] [[_ H4] [[_ H5] [[_ H6] [[_ H7] _]%Forall_cons_iff]%Forall_cons_iff]
    %Forall_cons_iff]%Forall_cons_iff]%Forall_cons_iff]%Forall_cons_iff]%Forall_cons_iff.
  unfold is_uint; cbn [fst snd] in *; change (Z.of_nat kVersionFieldLengthInBits) with 3 in H1.
  change (Z.of_nat kVendorIDFieldLengthInBits) with 16 in H2.
  change (Z.of_nat kProductIDFieldLengthInBits) with 16 in H3.
  change (Z.of_nat kCommissioningFlowFieldLengthInBits) with 2 in H4.
  change (Z.of_nat kRendezvousInfoFieldLengthInBits) with 8 in H5.
  change (Z.of_nat kPayloadDiscriminatorFieldLengthInBits) with 12 in H6.
  change (Z.of_nat kSetupPINCodeFieldLengthInBits) with 27 in H7.
  unfold RendezvousInformationFlag.kNone in H5; split_and!; lia.
Qed.

(** One field read and stored. *)
Ltac field R :=
  erewrite bind_ok by (unfold lift; rewrite R; reflexivity); cbv beta iota;
  erewrite bind_ok by reflexivity.

(** The text of a payload, read into a new one. *)
Lemma populate_text p :
  writable validate p -> (qr_tlv p = [] \/ alloc (length (qr_tlv p)) = true) ->
  populatePayloadFromBase38Data validate alloc (qr_text p) SetupPayload_init =
  (Ok tt, MkPayload (told (contents p)) (optionalVendorData p) (optionalExtensionData p)).
Proof.
  intros Hw Ha; pose proof Hw as (Hf & Ho & _).
  destruct (header_reads p Hf Ho) as (R1 & R2 & R3 & R4 & R5 & R6 & R7 & R8).
  destruct (header_ranges _ Hf) as (W1 & W2 & W3 & W4 & W5 & W6 & W7).
  assert (W6' : is_u16 (discriminator_field (contents p))) by (unfold is_uint in *; lia).
  unfold populatePayloadFromBase38Data, qr_text.
  rewrite (proj2 (base38Decode_spec _ (qr_bytes p))) by (split; [apply le_split_ok|done]).
  unfold kVersionFieldLengthInBits, kVendorIDFieldLengthInBits, kProductIDFieldLengthInBits,
    kCommissioningFlowFieldLengthInBits, kRendezvousInfoFieldLengthInBits,
    kPayloadDiscriminatorFieldLengthInBits, kSetupPINCodeFieldLengthInBits, kPaddingFieldLengthInBits.
  erewrite bind_ok by reflexivity.
  field R1; field R2; field R3; field R4; field R5.
  erewrite bind_ok by (unfold lift; rewrite R6; reflexivity); cbv beta iota.
  erewrite bind_ok by
    (unfold lift; rewrite (wrap_small 16), SetupDiscriminator.SetLongValue_ok by done; reflexivity).
  erewrite bind_ok by reflexivity.
  field R7; erewrite bind_ok by (unfold lift; rewrite R8; reflexivity); cbv beta iota.
  erewrite bind_ok by reflexivity.
  rewrite populateTLV_ok by done; unfold told.
  cbn [contents set_contents version vendorID productID commissioningFlow rendezvousInformation
       discriminator setUpPINCode set_version set_vendorID set_productID set_commissioningFlow
       set_rendezvousInformation set_discriminator set_setUpPINCode].
  by rewrite !wrap_small by done.
Qed.

Lemma segment_starts_none l i : Forall (fun c => c <> 37) l -> segment_starts l i = [].
Proof.
  intros H; revert i; induction H as [|c l Hc _ IH]; intros i; cbn [segment_starts]; [done|].
  by rewrite (proj2 (Z.eqb_neq c 37) Hc), IH.
Qed.

(** A text after the prefix, without '%'. *)
Lemma ExtractPayload_prefix l :
  Forall (fun c => c <> 37) l -> l <> [] -> ExtractPayload (kQRCodePrefix ++ l) = l.
Proof.
  intros Hl Hne; unfold ExtractPayload.
  assert (H : Forall (fun c => c <> 37) (kQRCodePrefix ++ l)) by (apply Forall_app; split; [by repeat constructor|done]).
  rewrite segment_starts_none by done; cbn [segments List.find]; rewrite drop_0.
  assert (E : starts_with kQRCodePrefix (kQRCodePrefix ++ l) = true)
    by (unfold starts_with; by rewrite take_app_length, bool_decide_true).
  rewrite E, length_app; destruct l as [|c l]; [done|].
  rewrite (proj2 (Nat.ltb_lt _ _)) by (cbn [length]; lia); apply drop_app_length.
Qed.

Lemma find_char_none c l : Forall (fun b => b <> c) l -> find_char c l = None.
Proof.
  induction 1 as [|b l Hb _ IH]; cbn [find_char]; [done|].
  by rewrite (proj2 (Z.eqb_neq b c) Hb), IH.
Qed.

Lemma find_char_app c l l' : Forall (fun b => b <> c) l -> find_char c (l ++ c :: l') = Some (length l).
Proof.
  induction 1 as [|b l Hb _ IH]; cbn [find_char app length]; [by rewrite Z.eqb_refl|].
  by rewrite (proj2 (Z.eqb_neq b c) Hb), IH.
Qed.

(** Texts with the delimiter between them. *)
Definition delimited (ts : list bytes) : bytes := concat (cons kPayloadDelimiter <$> ts).

Lemma chunks_loop_ok fuel payload pre t ts p ps outs :
  payload = pre ++ t ++ delimited ts -> (length ts < fuel)%nat ->
  Forall2 (fun t p => Forall (fun c => c <> kPayloadDelimiter) t /\
            populatePayloadFromBase38Data validate alloc t SetupPayload_init = (Ok tt, p)) (t :: ts) (p :: ps) ->
  chunks_loop validate alloc fuel payload (length pre) outs = (Ok tt, outs ++ p :: ps).
Proof.
  revert pre t ts p ps outs; induction fuel as [|fuel IH]; intros pre t ts p ps outs -> Hf Hall; [lia|].
  apply list.Forall2_cons in Hall as [[Hd Hp] Hall]; cbn [chunks_loop]; rewrite drop_app_length.
  destruct Hall as [|t' p' ts ps H' Hall].
  - unfold delimited; cbn; by rewrite app_nil_r, find_char_none, Hp.
  - change (delimited (t' :: ts)) with (kPayloadDelimiter :: t' ++ delimited ts).
    rewrite find_char_app, take_app_length, Hp by done.
    replace (length pre + length t + 1)%nat with (length (pre ++ t ++ [kPayloadDelimiter]))
      by (rewrite !length_app; cbn [length]; lia).
    rewrite (IH (pre ++ t ++ [kPayloadDelimiter]) t' ts p' ps).
    + by rewrite <-app_assoc.
    + by rewrite <-!app_assoc.
    + cbn [length] in Hf; lia.
    + by constructor.
Qed.
End Reading.

(** ** Any string *)

Lemma lor_range n a b : 0 <= n -> is_uint n a -> is_uint n b -> is_uint n (Z.lor a b).
Proof.
  unfold is_uint; intros Hn Ha Hb.
  rewrite <-(Z.mod_small a (2 ^ n)), <-(Z.mod_small b (2 ^ n)) by done.
  rewrite <-!Z.land_ones, <-Z.land_lor_distr_l, Z.land_ones by done.
  apply Z.mod_pos_bound, pow2_pos; lia.
Qed.

Lemma land_range n a b : 0 <= n -> b = 2 ^ n - 1 -> is_uint n (Z.land a b).
Proof.
  intros Hn ->; replace (2 ^ n - 1) with (Z.ones n) by (rewrite Z.ones_equiv; lia).
  rewrite Z.land_ones by done; apply Z.mod_pos_bound, pow2_pos; lia.
Qed.

(** The pieces of a manual code fit their fields. *)
Lemma read_discriminator_range chunk1 chunk2 : is_uint 4 (read_discriminator chunk1 chunk2).
Proof.
  unfold read_discriminator; apply lor_range; [done| |].
  - pose proof (land_range 2 (Z.shiftr chunk2 kManualSetupChunk2DiscriminatorLsbitsPos)
      (Z.shiftl 1 kManualSetupChunk2DiscriminatorLsbitsLength - 1)) as H.
    unfold is_uint in *; change (2 ^ 4) with 16; change (2 ^ 2) with 4 in H; ospecialize (H _ _); [done|done|lia].
  - pose proof (land_range 2 (Z.shiftr chunk1 kManualSetupChunk1DiscriminatorMsbitsPos)
      (Z.shiftl 1 kManualSetupChunk1DiscriminatorMsbitsLength - 1)) as H.
    ospecialize (H _ _); [done|done|].
    rewrite Z.shiftl_mul_pow2 by done; change (2 ^ kManualSetupChunk2DiscriminatorLsbitsLength) with 4.
    unfold is_uint in *; change (2 ^ 4) with 16; change (2 ^ 2) with 4 in H.
    rewrite wrap_small by (unfold is_uint; change (2 ^ 32) with 4294967296; lia); lia.
Qed.

Lemma read_pin_range chunk2 chunk3 : is_u32 (read_pin chunk2 chunk3).
Proof.
  unfold read_pin; apply lor_range; [done| |by apply wrap_range].
  pose proof (land_range 14 (Z.shiftr chunk2 kManualSetupChunk2PINCodeLsbitsPos)
    (Z.shiftl 1 kManualSetupChunk2PINCodeLsbitsLength - 1)) as H.
  unfold is_uint in *; change (2 ^ 32) with 4294967296; change (2 ^ 14) with 16384 in H.
  ospecialize (H _ _); [done|done|lia].
Qed.

(** An operation on a payload that keeps it well formed and ends with a benign error if
    any. *)
Definition entry_ok (x : SetupPayload) : Prop := contents_wf (contents x) /\ payload_wf x.
Definition safe_op (m : M SetupPayload unit) : Prop :=
  forall x, entry_ok x -> benign_result (m x).1 /\ entry_ok (m x).2.

Lemma safe_bind (m k : M SetupPayload unit) : safe_op m -> safe_op k -> safe_op (m ;; k).
Proof.
  intros Hm Hk x Hx; destruct (Hm x Hx) as [Hb Hx']; unfold bind.
  destruct (m x) as [[[]|e] x']; [by apply Hk|done].
Qed.

Lemma safe_lift {A} (r : result A) (k : A -> M SetupPayload unit) :
  benign_result r -> (forall a, r = Ok a -> safe_op (k a)) -> safe_op (bind (lift r) k).
Proof. intros Hr Hk x Hx; unfold bind, lift; destruct r as [a|e]; [by apply Hk|done]. Qed.

Lemma safe_verify (b : bool) e : benign e -> safe_op (verify b e).
Proof. by intros He x Hx; unfold verify; destruct b. Qed.

Lemma safe_ret : safe_op (ret tt).
Proof. by intros x Hx. Qed.

Lemma safe_assign f : (forall c, contents_wf c -> contents_wf (f c)) -> safe_op (assign f).
Proof. intros Hf x [Hc Hp]; split; [done|]; split; [by apply Hf|done]. Qed.

Lemma safe_when b m : safe_op m -> safe_op (when b m).
Proof. intros Hm; unfold when; destruct b; [done|apply safe_ret]. Qed.

(** The members of [contents_wf], set one at a time. *)
Ltac set_field :=
  apply safe_assign; intros c (W1 & W2 & W3 & W4 & W5 & W6 & W7); unfold contents_wf;
  cbn [version vendorID productID commissioningFlow rendezvousInformation discriminator setUpPINCode
       set_version set_vendorID set_productID set_commissioningFlow set_rendezvousInformation
       set_discriminator set_setUpPINCode]; split_and!; try done; try (by apply wrap_range).

Lemma decode_loop_benign fuel s acc : (length s < fuel)%nat -> benign (decode_loop fuel s acc).1.
Proof.
  revert s acc; induction fuel as [|fuel IH]; intros s acc Hf; [lia|]; cbn [decode_loop].
  destruct (Nat.ltb_spec 0 (length s)); cbn [negb]; [|done].
  destruct (chunk_sizes (length s)) as [[n k]|e] eqn:E; [|by apply chunk_sizes_err in E as ->].
  destruct (chunk_value s n 0) as [v|e] eqn:Ev; [|by apply chunk_value_err in Ev as ->].
  destruct (_ <? _); [done|]; apply IH; apply chunk_sizes_shape in E as [Hs Hn]; unfold chunk_shape in Hs.
  rewrite length_drop; lia.
Qed.

Lemma base38Decode_benign s : benign (base38Decode s).1.
Proof. apply decode_loop_benign; lia. Qed.

Section AnyString.
Context (validate : bool) (alloc : nat -> bool).
Context `{BO : ByteOrder} `{HO : Host}.

(** Characters for which [isdigit] is defined. *)
Definition ascii (s : bytes) : Prop := Forall (fun c => c < 0x80) s.

Lemma ToNumber_benign l n : ascii l -> benign_result (ToNumber_loop l n).
Proof.
  intros Hl; revert n; induction Hl as [|c l Hc Hl IH]; intros n; cbn [ToNumber_loop]; [done|].
  rewrite isdigit_ascii by done; cbn [rbind]; by destruct (_ && _); cbn [negb].
Qed.

Lemma ReadDigits_benign l i n : ascii l -> benign_result (ReadDigitsFromDecimalString l i n).
Proof.
  intros Hl; unfold ReadDigitsFromDecimalString, ToNumber; destruct (_ || _); [done|].
  apply rbind_benign; [by apply ToNumber_benign, Forall_take, Forall_drop|done].
Qed.

Lemma CheckDecimal_benign l : benign_result (CheckDecimalStringValidity l).
Proof. unfold CheckDecimalStringValidity; benign. Qed.

Lemma CheckDecimal_ascii s rep :
  ascii s -> CheckDecimalStringValidity (strip_dashes s) = Ok rep -> ascii rep.
Proof.
  intros Hs; unfold CheckDecimalStringValidity; repeat case_match; try done; intros [= <-].
  apply Forall_take, list.Forall_forall; intros c [_ Hc]%list_elem_of_filter.
  unfold ascii in Hs; rewrite list.Forall_forall in Hs; by apply Hs.
Qed.

Lemma CheckCodeLength_benign l b : benign (CheckCodeLengthValidity l b).
Proof. unfold CheckCodeLengthValidity; repeat case_match; by unfold benign. Qed.

(** The manual code's parser. *)
Lemma manual_safe s : ascii s -> safe_op (ManualCode.populatePayload s).
Proof.
  intros Hs; unfold ManualCode.populatePayload.
  apply safe_lift; [apply CheckDecimal_benign|intros rep Hrep%CheckDecimal_ascii; [|done]].
  do 3 (apply safe_lift; [by apply ReadDigits_benign|intros [? ?] _]).
  apply safe_bind; [by apply safe_verify|].
  apply safe_bind; [apply safe_verify, CheckCodeLength_benign|].
  apply safe_bind; [by apply safe_verify|].
  apply safe_bind.
  { apply safe_when; do 2 (apply safe_lift; [by apply ReadDigits_benign|intros [? ?] _]).
    repeat (apply safe_bind; [first [by apply safe_verify|set_field]|]); set_field. }
  apply safe_bind.
  { set_field; destruct (_ =? 1); unfold is_uint; vm_compute; split; discriminate || reflexivity. }
  apply safe_bind; [set_field; apply read_pin_range|].
  match goal with |- context [wrap 8 ?x] => assert (H : is_uint 4 (wrap 8 x)) end.
  { pose proof (read_discriminator_range z z0) as H; unfold is_uint in *.
    rewrite wrap_small; [done|]; unfold is_uint; change (2 ^ 4) with 16 in H; change (2 ^ 8) with 256; lia. }
  rewrite SetupDiscriminator.SetShortValue_ok by done.
  apply safe_lift; [done|intros d [= <-]]; set_field.
Qed.

(** Reading a field of any buffer. *)
Lemma read_any buf i n :
  bytes_ok buf -> (n < 32)%nat ->
  match read buf i n with
  | Ok (v, i') => is_uint (Z.of_nat n) v /\ i' = (i + n)%nat /\ (i' <= length buf * 8)%nat
  | Err e => benign e
  end.
Proof.
  intros Hb Hn; unfold read; destruct (Nat.le_gt_cases (i + n) (length buf * 8)) as [Hl|Hl].
  - rewrite readBits_ok by done; split; [|done]; apply Z.mod_pos_bound, pow2_pos; lia.
  - by rewrite readBits_short.
Qed.

Lemma safe_read buf i n (k : Z -> nat -> M SetupPayload unit) :
  bytes_ok buf -> (n < 32)%nat ->
  (forall v, is_uint (Z.of_nat n) v -> safe_op (k v (i + n)%nat)) ->
  safe_op (let! (v, i') := lift (read buf i n) in k v i').
Proof.
  intros Hb Hn Hk; pose proof (read_any buf i n Hb Hn) as H.
  apply safe_lift; [by destruct (read buf i n) as [[]|]|intros [v i'] E; rewrite E in H].
  destruct H as (Hv & -> & _); by apply Hk.
Qed.

Lemma tlv_bytes_any buf i n : bytes_ok buf -> exists l, tlv_bytes buf i n = Ok l /\ bytes_ok l.
Proof.
  intros Hb; revert i; induction n as [|n IH]; intros i; cbn [tlv_bytes]; [exists []; split; [done|constructor]|].
  destruct (Nat.le_gt_cases (i + 8) (length buf * 8)) as [Hl|Hl].
  - rewrite readBits_ok by (done || lia); destruct (IH (i + 8)%nat) as (l & -> & Hl'); eexists; split; [done|].
    constructor; [by apply wrap_range|done].
  - rewrite readBits_short by done; destruct (IH i) as (l & -> & Hl'); eexists; split; [done|].
    constructor; [unfold is_uint; lia|done].
Qed.

Lemma populateTLV_safe buf i : bytes_ok buf -> safe_op (populateTLV validate alloc buf i).
Proof.
  intros Hb; unfold populateTLV; destruct (_ =? 0)%nat; [apply safe_ret|].
  apply safe_bind; [by apply safe_verify|].
  destruct (tlv_bytes_any buf i ((length buf * 8 - i + 7) / 8) Hb) as (l & -> & Hl).
  apply safe_lift; [done|intros ? [= <-]]; intros x [Hc Hp].
  destruct (parseTLVFields_any validate l x Hl) as [Hbn [Hw Hcs]].
  split; [done|]; split; [by rewrite Hcs|auto].
Qed.

Lemma populateData_safe s : safe_op (populatePayloadFromBase38Data validate alloc s).
Proof.
  unfold populatePayloadFromBase38Data; destruct (base38Decode s) as [err buf] eqn:E.
  pose proof (base38Decode_benign s) as He; rewrite E in He; cbn [fst] in He.
  destruct (decide (err = CHIP_NO_ERROR)) as [->|Hne].
  2: { rewrite bool_decide_false by done; intros x Hx; done. }
  apply base38Decode_spec in E as [Hb _].
  apply safe_bind; [by apply safe_verify|].
  do 5 (apply safe_read; [done|by apply Nat.ltb_lt|intros ? ?]; apply safe_bind; [set_field|]).
  apply safe_read; [done|by apply Nat.ltb_lt|intros d Hd].
  rewrite wrap_small, SetupDiscriminator.SetLongValue_ok by
    (unfold is_uint in *; change (2 ^ Z.of_nat kPayloadDiscriminatorFieldLengthInBits) with 4096 in Hd;
     change (2 ^ 16) with 65536; change (2 ^ 12) with 4096; lia).
  apply safe_lift; [done|intros ? [= <-]]; apply safe_bind; [set_field|].
  apply safe_read; [done|by apply Nat.ltb_lt|intros ? ?]; apply safe_bind; [set_field|].
  apply safe_read; [done|by apply Nat.ltb_lt|intros ? ?]; apply safe_bind; [by apply safe_verify|].
  by apply populateTLV_safe.
Qed.

Lemma init_entry_ok : entry_ok SetupPayload_init.
Proof.
  split; [|split_and!; constructor].
  unfold contents_wf, SetupDiscriminator.wf, is_uint; cbn -[Z.pow]; split_and!; done.
Qed.

Lemma find_char_lt c l n : find_char c l = Some n -> (n < length l)%nat.
Proof.
  revert n; induction l as [|b l IH]; intros n; cbn [find_char length]; [done|].
  destruct (b =? c); [intros [= <-]; lia|]; destruct (find_char c l) as [m|]; [|done]; cbn.
  intros [= <-]; specialize (IH m eq_refl); lia.
Qed.

Lemma chunks_loop_safe fuel payload start outs :
  (length payload - start < fuel)%nat -> Forall entry_ok outs ->
  let x := chunks_loop validate alloc fuel payload start outs in
  benign_result x.1 /\ Forall entry_ok x.2 /\ x.2 <> [].
Proof.
  revert start outs; induction fuel as [|fuel IH]; intros start outs Hf Ho; [lia|]; cbn [chunks_loop].
  set (rest := drop start payload).
  assert (Hstep : forall chunk,
    let (r, item) := populatePayloadFromBase38Data validate alloc chunk SetupPayload_init in
    benign_result r /\ Forall entry_ok (outs ++ [item]) /\ outs ++ [item] <> []).
  { intros chunk; pose proof (populateData_safe chunk SetupPayload_init init_entry_ok) as [Hb Hi].
    destruct (populatePayloadFromBase38Data _ _ _ _) as [r item]; cbn [fst snd] in *; split; [done|].
    split; [apply Forall_app; split; [done|by apply list.Forall_singleton]|by intros [_ ?]%app_nil]. }
  destruct (find_char kPayloadDelimiter rest) as [n|] eqn:E.
  - specialize (Hstep (take n rest)); destruct (populatePayloadFromBase38Data _ _ _ _) as [[[]|e] item];
      [|done]; destruct Hstep as (_ & Hi & _).
    apply find_char_lt in E; subst rest; rewrite length_drop in E; apply IH; [lia|done].
  - specialize (Hstep rest); by destruct (populatePayloadFromBase38Data _ _ _ _) as [[[]|e] item].
Qed.
End AnyString.

(** ** Properties *)

Lemma qr_text_chars p c : c ∈ qr_text p -> 45 <= c <= 90.
Proof.
  intros Hc; pose proof (base38_text_codes (qr_bytes p)) as H; rewrite list.Forall_forall in H.
  by apply base38_char_range, H.
Qed.

Lemma qr_text_avoids p x : x < 45 -> Forall (fun c => c <> x) (qr_text p).
Proof. intros; apply list.Forall_forall; intros c Hc%qr_text_chars; lia. Qed.

Lemma qr_text_nonempty p : qr_text p <> [].
Proof.
  unfold qr_text; intros H; apply (f_equal length) in H; pose proof (base38_text_length (qr_bytes p)) as E.
  rewrite length_qr_bytes in E; unfold base38EncodedLength in E.
  assert (3 <= (kTotalPayloadDataSizeInBytes + length (qr_tlv p)) / 3)%nat.
  { change kTotalPayloadDataSizeInBytes with 11%nat; apply Nat.div_le_lower_bound; lia. }
  rewrite H in E; cbn [length] in E; lia.
Qed.

(** A valid payload fits its fields, and the code says all of it. *)
Lemma valid_fits mode c :
  contents_wf c -> isValidQRCodePayload mode c = true -> fits_fields c /\ told c = c.
Proof.
  intros (W1 & W2 & W3 & W4 & W5 & W6 & W7); unfold isValidQRCodePayload, CheckPayloadCommonConstraints, IsValidSetupPIN.
  rewrite !andb_true_iff, negb_true_iff; intros (((((H1 & H2) & _) & H4) & H5) & (((Hv & Hpin) & _) & _)).
  unfold SetupDiscriminator.IsShortDiscriminator in H4.
  destruct c as [v vid pid flow [rv|] [d sh] pin]; cbn [version vendorID productID commissioningFlow
    rendezvousInformation discriminator setUpPINCode SetupDiscriminator.mIsShortDiscriminator] in *; [|done].
  subst sh; rewrite negb_true_iff, !orb_false_iff in Hpin; destruct_and!.
  apply Z.eqb_eq in Hv; subst v; rewrite wrap_small in H2 by done; apply Z.ltb_lt in H2.
  split; [|done].
  unfold fits_fields, header_fields, field_ok, discriminator_field, SetupDiscriminator.wf in *; cbn [version vendorID
    productID commissioningFlow rendezvousInformation discriminator setUpPINCode default from_option id
    SetupDiscriminator.IsShortDiscriminator SetupDiscriminator.mIsShortDiscriminator
    SetupDiscriminator.mDiscriminator] in *.
  unfold is_uint in *; change (Z.shiftl 1 (Z.of_nat kCommissioningFlowFieldLengthInBits)) with 4 in H2.
  change SetupDiscriminator.kLongBits with 12 in W6.
  match goal with H : (kSetupPINCodeMaximumValue <? pin) = false |- _ => apply Z.ltb_ge in H;
    unfold kSetupPINCodeMaximumValue in H end.
  repeat (constructor; [split; [by vm_compute; lia|cbn [fst snd]; unfold kVersionFieldLengthInBits,
    kVendorIDFieldLengthInBits, kProductIDFieldLengthInBits, kCommissioningFlowFieldLengthInBits,
    kRendezvousInfoFieldLengthInBits, kPayloadDiscriminatorFieldLengthInBits, kSetupPINCodeFieldLengthInBits,
    kPaddingFieldLengthInBits; simpl Z.of_nat; simpl Z.pow; lia]|]); constructor.
Qed.

Lemma text_ok_weaken v d : text_ok true d -> text_ok v d.
Proof. intros (? & ? & ? & Hu); split_and!; auto. Qed.

Lemma info_ok_weaken v i : info_ok true i -> info_ok v i.
Proof. unfold info_ok; destruct (type i); try done; intros [H ?]; split; [by apply text_ok_weaken|done]. Qed.

Lemma optional_ok_weaken v p : optional_ok true p -> optional_ok v p.
Proof.
  intros (Hw & Hv & He); split; [done|split].
  - eapply Forall_impl; [|exact Hv]; intros e; apply info_ok_weaken.
  - eapply Forall_impl; [|exact He]; intros e (H1 & H2 & H); split_and!; [done|done|].
    destruct (type _); try done; destruct H; split; [by apply info_ok_weaken|done].
Qed.

Lemma writable_weaken v p : writable true p -> writable v p.
Proof. intros (? & ? & ?); split_and!; auto using optional_ok_weaken. Qed.

(** What the heap gives: as much memory as was asked for. *)
Definition gives_memory (heap : nat -> option bytes) : Prop :=
  forall n, Z.of_nat n < 2 ^ 32 -> exists b, heap n = Some b /\ length b = n.

Lemma auto_representation validate heap g :
  let p := QRCodeSetupPayloadGenerator.mPayload g in
  gives_memory heap -> writable validate p ->
  QRCodeSetupPayloadGenerator.mAllowInvalidPayload g || isValidQRCodePayload kProduce (contents p) = true ->
  QRCodeSetupPayloadGenerator.payloadBase38RepresentationWithAutoTLVBuffer validate heap g =
  Ok (prefix_of (QRCodeSetupPayloadGenerator.mAsConcatenation g) ++ qr_text p).
Proof.
  intros p Hh (Hf & Ho & He) Hv; unfold QRCodeSetupPayloadGenerator.payloadBase38RepresentationWithAutoTLVBuffer; fold p.
  rewrite (proj2 (Z.ltb_ge _ _)) by lia; destruct (Hh (tlv_estimate p)) as (b & -> & Hb); [lia|].
  apply buffer_representation; try done; fold p; lia.
Qed.

(** A valid payload whose optional data can be carried. *)
Definition carried (p : SetupPayload) : Prop :=
  contents_wf (contents p) /\ isValidQRCodePayload kProduce (contents p) = true /\
  optional_ok true p /\ Z.of_nat (tlv_estimate p) + 17 < 2 ^ 32.

Lemma carried_writable p : carried p -> writable true p /\ told (contents p) = contents p.
Proof. intros (Hw & Hv & Ho & He); destruct (valid_fits _ _ Hw Hv); done. Qed.

Section Properties.
Context (vw vr : bool) (heap : nat -> option bytes) (alloc : nat -> bool).
Context `{BO : ByteOrder} `{HO : Host}.

Lemma payload_eta p : MkPayload (contents p) (optionalVendorData p) (optionalExtensionData p) = p.
Proof. by destruct p. Qed.

Lemma populate_carried p :
  big_endian = false -> (forall n, alloc n = true) -> carried p ->
  populatePayloadFromBase38Data vr alloc (qr_text p) SetupPayload_init = (Ok tt, p).
Proof.
  intros LE Ha [Hw Ht]%carried_writable; rewrite populate_text; auto using writable_weaken.
  by rewrite Ht, payload_eta.
Qed.

Lemma verify_nonempty {S} (l : bytes) e (k : M S unit) s :
  l <> [] -> (verify (negb (length l =? 0)%nat) e ;; k) s = k s.
Proof. by destruct l. Qed.

Lemma length_delimited ts : (length ts <= length (delimited ts))%nat.
Proof.
  unfold delimited; induction ts as [|t ts IH]; [done|]; csimpl; rewrite length_app; lia.
Qed.

Lemma delimited_avoids x ts :
  x <> kPayloadDelimiter -> Forall (fun t => Forall (fun c => c <> x) t) ts -> Forall (fun c => c <> x) (delimited ts).
Proof.
  intros Hx; unfold delimited; induction 1 as [|t ts Ht _ IH]; [constructor|]; csimpl.
  constructor; [congruence|]; by apply Forall_app.
Qed.

(** C14: QR codes read back as what they were made from, on a little-endian host where
    the allocations succeed: for valid payloads whose optional data are ones the format
    carries (a serial number, vendor elements that are 32-bit integers or strings in
    UTF-8; in no string a NUL character or the unit separator U+001F, which do not
    survive), the generator with its own buffer returns
    a string, the first one with the prefix "MT:" and the others as concatenations, and
    the parser, given the first string, returns the first payload, and given all of them
    one after the other, returns the list of all payloads: contents, vendor data and
    extension data. *)
Theorem qr_roundtrip p ps
    (LE : big_endian = false) (Hheap : gives_memory heap) (Halloc : forall n, alloc n = true)
    (Hps : Forall carried (p :: ps)) :
  exists s ss,
    QRCodeSetupPayloadGenerator.payloadBase38RepresentationWithAutoTLVBuffer vw heap
      (QRCodeSetupPayloadGenerator.init p) = Ok s /\
    Forall2 (fun p s =>
      QRCodeSetupPayloadGenerator.payloadBase38RepresentationWithAutoTLVBuffer vw heap
        (QRCodeSetupPayloadGenerator.SetAsConcatenation true (QRCodeSetupPayloadGenerator.init p)) = Ok s) ps ss /\
    QRCodeSetupPayloadParser.populatePayload vr alloc s SetupPayload_init = (Ok tt, p) /\
    forall outPayloads,
      FromStringRepresentation vr alloc (s ++ concat ss) outPayloads = (Ok tt, p :: ps).
Proof.
  pose proof (Forall_cons_1 _ _ _ Hps) as [Hp Hps'].
  assert (Hgen : forall p c, carried p ->
    QRCodeSetupPayloadGenerator.payloadBase38RepresentationWithAutoTLVBuffer vw heap
      (QRCodeSetupPayloadGenerator.mk p false c) = Ok (prefix_of c ++ qr_text p)).
  { intros q c Hq; apply (auto_representation vw heap (QRCodeSetupPayloadGenerator.mk q false c)); [done| |apply Hq].
    by apply writable_weaken, carried_writable. }
  exists (kQRCodePrefix ++ qr_text p), (cons kPayloadDelimiter <$> (qr_text <$> ps)); split_and!.
  - by apply (Hgen p false).
  - apply Forall2_fmap_r, Forall2_fmap_r, Forall_Forall2_diag.
    eapply Forall_impl; [|exact Hps']; intros q Hq; by apply (Hgen q true).
  - unfold QRCodeSetupPayloadParser.populatePayload.
    rewrite ExtractPayload_prefix by first [apply qr_text_nonempty|by apply qr_text_avoids].
    rewrite verify_nonempty by apply qr_text_nonempty; by apply populate_carried.
  - intros outs; unfold FromStringRepresentation.
    change (concat (cons kPayloadDelimiter <$> (qr_text <$> ps))) with (delimited (qr_text <$> ps)).
    rewrite <-app_assoc.
    assert (starts_with kQRCodePrefix (kQRCodePrefix ++ qr_text p ++ delimited (qr_text <$> ps)) = true) as ->
      by (unfold starts_with; by rewrite take_app_length, bool_decide_true).
    cbn [negb]; erewrite bind_ok.
    2: { unfold populatePayloads; rewrite ExtractPayload_prefix.
         - rewrite verify_nonempty by (intros [E _]%app_nil; by apply qr_text_nonempty in E).
           erewrite bind_ok by reflexivity.
           apply (chunks_loop_ok vr alloc _ _ [] (qr_text p) (qr_text <$> ps) p ps []); [done| |].
           + rewrite length_app; pose proof (length_delimited (qr_text <$> ps)); lia.
           + change (qr_text p :: (qr_text <$> ps)) with (qr_text <$> (p :: ps)); apply Forall2_fmap_l, Forall_Forall2_diag.
             eapply Forall_impl; [|exact Hps]; intros q Hq; split; [by apply qr_text_avoids|by apply populate_carried].
         - apply Forall_app; split; [by apply qr_text_avoids|]; apply delimited_avoids; [done|].
           apply Forall_fmap, Forall_true; intros q; by apply qr_text_avoids.
         - intros [E _]%app_nil; by apply qr_text_nonempty in E. }
    erewrite bind_ok by reflexivity; cbn [app].
    assert (forallb (fun entry => isValidQRCodePayload kProduce (contents entry)) (p :: ps) = true) as ->; [|done].
    apply forallb_forall; intros q Hq%list_elem_of_In; rewrite list.Forall_forall in Hps; by apply Hps.
Qed.

(** C15: The parser of pairing codes is safe: on a string of any characters that starts
    as a QR code, and on any other string of ASCII characters, it ends without a read
    outside a buffer and without stopping the program, either with an error or with a list
    of at least one payload, each valid for its kind of code, and every payload it leaves
    has well-formed contents and optional data. A string that is not a QR code and has
    other characters is left out: [manual_code_undefined] below gives one on which the
    manual code's parser calls [isdigit] with a negative value. *)
Theorem code_string_safe s outPayloads (Hout : Forall entry_ok outPayloads)
    (Htext : starts_with kQRCodePrefix s = true \/ ascii s) :
  let (r, payloads) := FromStringRepresentation vr alloc s outPayloads in
  benign_result r /\ Forall entry_ok payloads /\
  (r = Ok tt -> payloads <> [] /\
     Forall (fun p => if starts_with kQRCodePrefix s then isValidQRCodePayload kProduce (contents p) = true
                      else isValidManualCode kProduce (contents p) = true) payloads).
Proof.
  unfold FromStringRepresentation; destruct (starts_with kQRCodePrefix s) eqn:Es; cbn [negb].
  - unfold populatePayloads; destruct (ExtractPayload s) as [|c l] eqn:El; [done|].
    set (payload := c :: l).
    pose proof (chunks_loop_safe vr alloc (S (length payload)) payload 0 []) as H; cbv zeta in H.
    ospecialize (H _ _); [lia|constructor|].
    unfold bind, verify, ret, modify, get; cbn [length Nat.eqb negb payload] in *.
    destruct (chunks_loop _ _ _ _ _ _) as [[[]|e] outs]; cbn [fst snd] in *;
      [|by destruct H as (? & ? & _)].
    destruct H as (_ & Ho & Hne); destruct (forallb _ outs) eqn:Ef; [|done]; split; [done|].
    split; [done|]; intros _; split; [done|]; rewrite forallb_forall in Ef.
    apply list.Forall_forall; intros q Hq%list_elem_of_In; by apply Ef.
  - destruct Htext as [Htext|Htext]; [done|].
    pose proof (manual_safe s Htext SetupPayload_init init_entry_ok) as [Hb Hi].
    destruct (ManualCode.populatePayload s SetupPayload_init) as [[[]|e] x]; cbn [fst snd] in *;
      [|by split; [|split; [apply list.Forall_singleton|]]].
    unfold verify; destruct (isValidManualCode kProduce (contents x)) eqn:Ev; cbn [ret fail];
      (split; [done|split; [by apply list.Forall_singleton|]]); [|done].
    intros _; split; [done|by apply list.Forall_singleton].
Qed.

(** The check character of a string with an invalid one is the NUL character
    ([Verhoeff10::ComputeCheckChar]), so a string that ends in one gets past the check,
    and its first character, 0xC8, to [isdigit]. *)
Lemma manual_code_undefined outPayloads :
  (FromStringRepresentation vr alloc [0xC8; 48; 0] outPayloads).1 = Err UNDEFINED_BEHAVIOUR.
Proof. by vm_compute. Qed.

(** Only valid payloads are printed, unless the caller asks for it: the generator
    refuses an invalid payload with CHIP_ERROR_INVALID_ARGUMENT, and with
    SetAllowInvalidPayload the code of any payload whose values fit the fields reads back
    with the same fields and optional data, except that a short discriminator comes back
    as the long one 0 and missing rendezvous information as the empty set of flags. *)
Theorem invalid_payload_told p
    (LE : big_endian = false) (Hheap : gives_memory heap) (Halloc : forall n, alloc n = true)
    (Hp : writable true p) :
  let generate allow :=
    QRCodeSetupPayloadGenerator.payloadBase38RepresentationWithAutoTLVBuffer vw heap
      (QRCodeSetupPayloadGenerator.SetAllowInvalidPayload allow (QRCodeSetupPayloadGenerator.init p)) in
  (exists s, generate true = Ok s /\
     QRCodeSetupPayloadParser.populatePayload vr alloc s SetupPayload_init =
       (Ok tt, MkPayload (told (contents p)) (optionalVendorData p) (optionalExtensionData p))) /\
  (isValidQRCodePayload kProduce (contents p) = false -> generate false = Err CHIP_ERROR_INVALID_ARGUMENT).
Proof.
  intros generate; split.
  - exists (kQRCodePrefix ++ qr_text p); split.
    + by apply (auto_representation vw heap (QRCodeSetupPayloadGenerator.mk p true false)); auto using writable_weaken.
    + unfold QRCodeSetupPayloadParser.populatePayload.
      rewrite ExtractPayload_prefix by first [apply qr_text_nonempty|by apply qr_text_avoids].
      rewrite verify_nonempty by apply qr_text_nonempty.
      apply populate_text; auto using writable_weaken.
  - intros Hv; destruct Hp as (_ & _ & He); unfold generate,
      QRCodeSetupPayloadGenerator.payloadBase38RepresentationWithAutoTLVBuffer.
    cbn [QRCodeSetupPayloadGenerator.mPayload QRCodeSetupPayloadGenerator.SetAllowInvalidPayload
         QRCodeSetupPayloadGenerator.init].
    rewrite (proj2 (Z.ltb_ge _ _)) by lia; destruct (Hheap (tlv_estimate p)) as (b & -> & _); [lia|].
    unfold QRCodeSetupPayloadGenerator.payloadBase38Representation_buffer.
    cbn [QRCodeSetupPayloadGenerator.mPayload QRCodeSetupPayloadGenerator.mAllowInvalidPayload
         QRCodeSetupPayloadGenerator.SetAllowInvalidPayload QRCodeSetupPayloadGenerator.init].
    by rewrite Hv.
Qed.
End Properties.

(** The generator without optional data writes, into a buffer with room, the string of
    the other generator. *)
Lemma basic_generator_agrees validate c out :
  contents_wf c -> isValidQRCodePayload kProduce c = true -> (23 <= length out)%nat ->
  exists out' n s,
    QRCodeBasicSetupPayloadGenerator.payloadBase38Representation c out = (CHIP_NO_ERROR, out', n) /\
    QRCodeSetupPayloadGenerator.payloadBase38Representation validate
      (QRCodeSetupPayloadGenerator.init (MkPayload c [] [])) = Ok s /\
    c_string out' = s /\ n = length s.
Proof.
  intros Hw Hv Hl; destruct (valid_fits _ _ Hw Hv) as [Hf _]; set (p := MkPayload c [] []).
  assert (Ho : optional_ok validate p) by (split_and!; [split_and!; constructor|constructor|constructor]).
  exists (kQRCodePrefix ++ mem_write 0 (qr_text p ++ [0]) (drop 3 out)), (length (qr_text p) + 3)%nat,
    (kQRCodePrefix ++ qr_text p); split_and!.
  - unfold QRCodeBasicSetupPayloadGenerator.payloadBase38Representation; rewrite Hv.
    exact (representation_ok validate p out kQRCodePrefix Hf Ho Hl).
  - unfold QRCodeSetupPayloadGenerator.payloadBase38Representation,
      QRCodeSetupPayloadGenerator.payloadBase38Representation_buffer.
    cbn [QRCodeSetupPayloadGenerator.mPayload QRCodeSetupPayloadGenerator.init p contents].
    rewrite Hv, orb_true_r; erewrite bind_ok by reflexivity; erewrite bind_ok by reflexivity.
    erewrite bind_ok by reflexivity; cbn [QRCodeSetupPayloadGenerator.mAsConcatenation].
    pose proof (representation_ok validate p (replicate (base38EncodedLength (11 + 0) + 3) 0) kQRCodePrefix
                  Hf Ho ltac:(rewrite length_replicate; vm_compute; lia)) as E.
    change (payloadBase38RepresentationWithTLV c _ _ _ _) with
      (payloadBase38RepresentationWithTLV (contents p) (replicate (base38EncodedLength (11 + 0) + 3) 0)
         (length (qr_bytes p)) (qr_tlv p) kQRCodePrefix); rewrite E.
    rewrite bool_decide_true by done; erewrite bind_ok by reflexivity; cbn [fst ret].
    rewrite representation_string; [done|by repeat constructor|apply base38_text_no_nul].
  - rewrite representation_string; [done|by repeat constructor|apply base38_text_no_nul].
  - rewrite length_app; cbn [length kQRCodePrefix]; lia.
Qed.

(** ** Witnesses *)

(** The default payload of the tests, with a serial number and two vendor fields. *)
Definition example_contents : PayloadContents :=
  MkContents 0 12 1 CommissioningFlow.kStandard (Some RendezvousInformationFlag.kSoftAP)
    (SetupDiscriminator.mk 128 false) 2048.

Definition example_payload : SetupPayload :=
  MkPayload example_contents
    [(0x81, MkInfo 0x81 optionalQRCodeInfoTypeString [65; 66] 0);
     (0x82, MkInfo 0x82 optionalQRCodeInfoTypeInt32 [] (-65500))]
    [(0, MkExtension (MkInfo 0 optionalQRCodeInfoTypeString [49; 50] 0) 0 0 0)].

Definition plain_payload : SetupPayload := MkPayload example_contents [] [].

Definition example_heap (n : nat) : option bytes := Some (replicate n 0).

Lemma example_heap_gives : gives_memory example_heap.
Proof. intros n _; exists (replicate n 0); by rewrite length_replicate. Qed.

Lemma text_ok_check v d :
  forallb (fun c => (0 <=? c) && (c <? 256) && negb (c =? 0) && negb (c =? 31)) d && Utf8_IsValid d = true ->
  text_ok v d.
Proof.
  rewrite andb_true_iff, forallb_forall; intros [H Hu].
  assert (Hc : forall c, c ∈ d -> is_u8 c /\ c <> 0 /\ c <> 31).
  { intros c Hc%list_elem_of_In; specialize (H c Hc); unfold is_uint.
    rewrite !andb_true_iff, !negb_true_iff in H; destruct H as [[[H1 H2] H3] H4].
    apply Z.leb_le in H1; apply Z.ltb_lt in H2; apply Z.eqb_neq in H3, H4; change (2 ^ 8) with 256; lia. }
  unfold text_ok, TLVReader.kUnicodeInformationSeparator1, bytes_ok; rewrite !list.Forall_forall.
  split_and!; try done; intros c ?; by apply Hc.
Qed.

Lemma example_contents_ok :
  contents_wf example_contents /\ isValidQRCodePayload kProduce example_contents = true.
Proof.
  split; [|by vm_compute]; unfold contents_wf, SetupDiscriminator.wf; cbn -[Z.pow].
  split_and!; by apply (bool_decide_unpack _).
Qed.

Lemma example_optional : optional_ok true example_payload.
Proof.
  unfold optional_ok, payload_wf, ordered; cbn [example_payload optionalVendorData optionalExtensionData].
  split_and!.
  - cbn; repeat constructor.
  - cbn; repeat constructor.
  - constructor; [|constructor; [|constructor]]; split_and!; try done; by apply (bool_decide_unpack _).
  - constructor; [|constructor]; split_and!; try done; by apply (bool_decide_unpack _).
  - constructor; [|constructor; [|constructor]]; (split; [|done]); [by apply text_ok_check|done].
  - apply list.Forall_singleton; split; [done|split; [done|]].
    by split; [split; [by apply text_ok_check|]|].
Qed.

Lemma example_carried : Forall carried [example_payload; plain_payload].
Proof.
  destruct example_contents_ok as [Hw Hv]; constructor; [|constructor; [|constructor]].
  - split; [done|]; split; [done|]; split; [apply example_optional|by vm_compute].
  - split; [done|]; split; [done|]; split; [|by vm_compute].
    split_and!; [split_and!; constructor|constructor|constructor].
Qed.

Lemma qr_roundtrip_witness :
  exists s ss,
    QRCodeSetupPayloadGenerator.payloadBase38RepresentationWithAutoTLVBuffer true example_heap
      (QRCodeSetupPayloadGenerator.init example_payload) = Ok s /\
    Forall2 (fun p s =>
      QRCodeSetupPayloadGenerator.payloadBase38RepresentationWithAutoTLVBuffer true example_heap
        (QRCodeSetupPayloadGenerator.SetAsConcatenation true (QRCodeSetupPayloadGenerator.init p)) = Ok s)
      [plain_payload] ss /\
    @QRCodeSetupPayloadParser.populatePayload true (fun _ => true) reference_byte_order little_endian_host
      s SetupPayload_init = (Ok tt, example_payload) /\
    forall outPayloads,
      @FromStringRepresentation true (fun _ => true) reference_byte_order little_endian_host
        (s ++ concat ss) outPayloads = (Ok tt, [example_payload; plain_payload]).
Proof.
  refine (@qr_roundtrip true true example_heap (fun _ => true) reference_byte_order little_endian_host
            example_payload [plain_payload] eq_refl example_heap_gives (fun _ => eq_refl) example_carried).
Defined.

(** "MT:%*" is refused: the first chunk is empty. *)
Lemma code_string_safe_witness :
  let s := [77; 84; 58; 42; 37] in
  Forall entry_ok [SetupPayload_init] /\
  let (r, payloads) :=
    @FromStringRepresentation true (fun _ => true) reference_byte_order little_endian_host s [SetupPayload_init] in
  r = Err CHIP_ERROR_INVALID_ARGUMENT /\ benign_result r /\ Forall entry_ok payloads.
Proof.
  assert (H : Forall entry_ok [SetupPayload_init]) by (by apply list.Forall_singleton, init_entry_ok).
  split; [exact H|].
  pose proof (@code_string_safe true (fun _ => true) reference_byte_order little_endian_host
                [77; 84; 58; 42; 37] [SetupPayload_init] H (or_introl eq_refl)) as Hs.
  destruct (FromStringRepresentation _ _ _ _) as [r ps] eqn:E.
  split; [vm_compute in E; by injection E|]; split; [exact (proj1 Hs)|exact (proj1 (proj2 Hs))].
Defined.

(** A payload with a short discriminator and no rendezvous information. *)
Definition short_payload : SetupPayload :=
  MkPayload (MkContents 1 0xFFFF 0 CommissioningFlow.kCustom None (SetupDiscriminator.mk 7 true) 11111111) [] [].

Lemma short_writable : writable true short_payload.
Proof.
  split; [|split; [split_and!; [split_and!; constructor|constructor|constructor]|by vm_compute]].
  unfold fits_fields, header_fields, short_payload; cbn [contents version vendorID productID commissioningFlow
    rendezvousInformation discriminator setUpPINCode].
  repeat (constructor; [split; [by apply Nat.ltb_lt|by apply (bool_decide_unpack _); vm_compute]|]); constructor.
Qed.

Lemma invalid_payload_told_witness :
  let generate allow :=
    QRCodeSetupPayloadGenerator.payloadBase38RepresentationWithAutoTLVBuffer true example_heap
      (QRCodeSetupPayloadGenerator.SetAllowInvalidPayload allow (QRCodeSetupPayloadGenerator.init short_payload)) in
  (exists s, generate true = Ok s /\
     @QRCodeSetupPayloadParser.populatePayload true (fun _ => true) reference_byte_order little_endian_host
       s SetupPayload_init = (Ok tt, MkPayload (told (contents short_payload)) [] [])) /\
  (isValidQRCodePayload kProduce (contents short_payload) = false ->
   generate false = Err CHIP_ERROR_INVALID_ARGUMENT).
Proof.
  refine (@invalid_payload_told true true example_heap (fun _ => true) reference_byte_order little_endian_host
            short_payload eq_refl example_heap_gives (fun _ => eq_refl) short_writable).
Defined.
