(* ===== verification/BdxMessages.v ===== *)
(** * BdxMessages: the messages of bulk data exchange

    src/src/protocols/bdx/BdxMessages.{h,cpp}, src/src/protocols/bdx/StatusCode.{h,cpp},
    src/src/protocols/secure_channel/StatusReport.{h,cpp} and [MessagePacketBuffer] of
    src/src/transport/SessionManager.h.

    - class [BdxMessage]: the interface of the same name, with one instance for each
      message; [BdxMessageLaws]: what is written is [encoding], which parses back;
    - [WriteToPacketBuffer] of BdxTransferSession.cpp;
    - [StatusReport].

    A pointer and its length are an [option bytes], [None] being the null pointer. *)

From S2P Require Import Prelude Encoding PacketBuffer MessageHeader.

Definition kVersionMask : Z := 0x0F.

(** [MessageType] is cast from a header byte, so every byte is a value of it. *)
Module MessageType.
Definition SendInit : Z := 0x01.
Definition SendAccept : Z := 0x02.
Definition ReceiveInit : Z := 0x04.
Definition ReceiveAccept : Z := 0x05.
Definition BlockQuery : Z := 0x10.
Definition Block : Z := 0x11.
Definition BlockEOF : Z := 0x12.
Definition BlockAck : Z := 0x13.
Definition BlockAckEOF : Z := 0x14.
Definition BlockQueryWithSkip : Z := 0x15.
End MessageType.

Module TransferControlFlags.
Definition kSenderDrive : Z := 0x10.
Definition kReceiverDrive : Z := 0x20.
Definition kAsync : Z := 0x40.
End TransferControlFlags.

Module RangeControlFlags.
Definition kDefLen : Z := 0x01.
Definition kStartOffset : Z := 0x02.
Definition kWiderange : Z := 0x10.
End RangeControlFlags.

Module StatusCode.
Definition kLengthTooLarge : Z := 0x0012.
Definition kLengthTooShort : Z := 0x0013.
Definition kLengthMismatch : Z := 0x0014.
Definition kLengthRequired : Z := 0x0015.
Definition kBadMessageContents : Z := 0x0016.
Definition kBadBlockCounter : Z := 0x0017.
Definition kUnexpectedMessage : Z := 0x0018.
Definition kResponderBusy : Z := 0x0019.
Definition kTransferFailedUnknownError : Z := 0x001F.
Definition kTransferMethodNotSupported : Z := 0x0050.
Definition kFileDesignatorUnknown : Z := 0x0051.
Definition kStartOffsetNotSupported : Z := 0x0052.
Definition kVersionNotSupported : Z := 0x0053.
Definition kUnknown : Z := 0x005F.
End StatusCode.

(** ** The interface *)

Class BdxMessage (A : Type) := {
  WriteToBuffer : A -> Writer -> Writer;
  Parse : bytes -> result A;
  same : A -> A -> bool }.

(** [MessageSize]: what a writer without a buffer counts. *)
Definition MessageSize {A} `{BdxMessage A} (m : A) : nat :=
  Needed (WriteToBuffer m (Writer_new [])).

Definition put_span (s : option bytes) (w : Writer) : Writer :=
  match s with None => w | Some d => PutBytes w d end.

(** The fields that a range-control flag announces: 8 bytes when the range is wide. *)
Definition put_range (v : Z) (widerange : bool) (w : Writer) : Writer :=
  if 0 <? v then if widerange then LE_EndianPut w v 8 else LE_EndianPut w (wrap 32 v) 4
  else w.

Definition range_flags (offset len : Z) : Z * bool :=
  let widerange := (2 ^ 32 - 1 <? offset) || (2 ^ 32 - 1 <? len) in
  let rangeCtlFlags := BitFlags.Set_if 8 0 RangeControlFlags.kDefLen (0 <? len) in
  let rangeCtlFlags := BitFlags.Set_if 8 rangeCtlFlags RangeControlFlags.kStartOffset (0 <? offset) in
  (BitFlags.Set_if 8 rangeCtlFlags RangeControlFlags.kWiderange widerange, widerange).

(** Equality of two spans by length and [memcmp]. *)
Definition span_eqb (s t : option bytes) : bool := bool_decide (default [] s = default [] t).

Section Messages.
Context `{BO : ByteOrder}.

Definition read_range (mRangeCtlFlags flag : Z) : M Reader Z :=
  if BitFlags.Has mRangeCtlFlags flag then
    if BitFlags.Has mRangeCtlFlags RangeControlFlags.kWiderange then rd 8 else rd 4
  else ret 0.

(** Everything after the read point, null when that is nothing. *)
Definition rest_span (r : Reader) : option bytes :=
  if (0 <? Remaining r)%nat then Some (mem_read (OctetsRead r) (Remaining r) (mBuf r)) else None.

(** The value of a parser that does not fail after its reads. *)
Definition parsed {A} (m : M Reader A) (buf : bytes) : result A := (m (Reader_new buf)).1.

(** ** TransferInit *)

Record TransferInit := MkTransferInit {
  TransferCtlOptions : Z;
  Version : Z;
  mRangeCtlFlags : Z;
  MaxBlockSize : Z;
  StartOffset : Z;
  MaxLength : Z;
  FileDesignator : option bytes;
  FileDesLength : Z;
  Metadata : option bytes }.

Definition TransferInit_WriteToBuffer (m : TransferInit) (aBuffer : Writer) : Writer :=
  let proposedTransferCtl := Z.lor (Z.land (Version m) kVersionMask) (TransferCtlOptions m) in
  let (rangeCtlFlags, widerange) := range_flags (StartOffset m) (MaxLength m) in
  let w := Put (Put aBuffer proposedTransferCtl) rangeCtlFlags in
  let w := LE_EndianPut w (MaxBlockSize m) 2 in
  let w := put_range (StartOffset m) widerange w in
  let w := put_range (MaxLength m) widerange w in
  let w := LE_EndianPut w (FileDesLength m) 2 in
  let w := put_span (take (Z.to_nat (FileDesLength m)) <$> FileDesignator m) w in
  put_span (Metadata m) w.

Definition TransferInit_Parse_steps : M Reader TransferInit :=
  let! proposedTransferCtl := rd 1 in
  let! rangeCtlFlags := rd 1 in
  let! maxBlockSize := rd 2 in
  let! startOffset := read_range rangeCtlFlags RangeControlFlags.kStartOffset in
  let! maxLength := read_range rangeCtlFlags RangeControlFlags.kDefLen in
  let! fileDesLength := rd 2 in
  let! bufReader := get in
  verify (HasAtLeast bufReader (Z.to_nat fileDesLength)) CHIP_ERROR_MESSAGE_INCOMPLETE ;;
  let fileDesignator := mem_read (OctetsRead bufReader) (Z.to_nat fileDesLength) (mBuf bufReader) in
  let metadata :=
    if (Z.to_nat fileDesLength <? Remaining bufReader)%nat then
      let metadataStartIndex := wrap 16 (Z.of_nat (OctetsRead bufReader) + fileDesLength) in
      let metadataLength := wrap 16 (Z.of_nat (length (mBuf bufReader)) - metadataStartIndex) in
      Some (mem_read (Z.to_nat metadataStartIndex) (Z.to_nat metadataLength) (mBuf bufReader))
    else None in
  ret (MkTransferInit (wrap 8 (Z.land proposedTransferCtl (Z.lnot kVersionMask)))
         (Z.land proposedTransferCtl kVersionMask) rangeCtlFlags maxBlockSize startOffset maxLength
         (Some fileDesignator) fileDesLength metadata).

Definition TransferInit_eq (m another : TransferInit) : bool :=
  span_eqb (Metadata m) (Metadata another) && (FileDesLength m =? FileDesLength another) &&
  (Version m =? Version another) && (TransferCtlOptions m =? TransferCtlOptions another) &&
  (StartOffset m =? StartOffset another) && (MaxLength m =? MaxLength another) &&
  (MaxBlockSize m =? MaxBlockSize another) &&
  span_eqb (FileDesignator m) (FileDesignator another).

#[export] Instance TransferInit_message : BdxMessage TransferInit := {|
  WriteToBuffer := TransferInit_WriteToBuffer;
  Parse := parsed TransferInit_Parse_steps;
  same := TransferInit_eq |}.

(** ** SendAccept *)

Record SendAccept := MkSendAccept {
  sa_TransferCtlFlags : Z;
  sa_Version : Z;
  sa_MaxBlockSize : Z;
  sa_Metadata : option bytes }.

Definition SendAccept_WriteToBuffer (m : SendAccept) (aBuffer : Writer) : Writer :=
  let transferCtl := Z.lor (Z.land (sa_Version m) kVersionMask) (sa_TransferCtlFlags m) in
  let w := LE_EndianPut (Put aBuffer transferCtl) (sa_MaxBlockSize m) 2 in
  put_span (sa_Metadata m) w.

Definition SendAccept_Parse_steps : M Reader SendAccept :=
  let! transferCtl := rd 1 in
  let! maxBlockSize := rd 2 in
  let! bufReader := get in
  ret (MkSendAccept (wrap 8 (Z.land transferCtl (Z.lnot kVersionMask)))
         (Z.land transferCtl kVersionMask) maxBlockSize (rest_span bufReader)).

Definition SendAccept_eq (m another : SendAccept) : bool :=
  span_eqb (sa_Metadata m) (sa_Metadata another) && (sa_Version m =? sa_Version another) &&
  (sa_TransferCtlFlags m =? sa_TransferCtlFlags another) &&
  (sa_MaxBlockSize m =? sa_MaxBlockSize another).

#[export] Instance SendAccept_message : BdxMessage SendAccept := {|
  WriteToBuffer := SendAccept_WriteToBuffer;
  Parse := parsed SendAccept_Parse_steps;
  same := SendAccept_eq |}.

(** ** ReceiveAccept *)

Record ReceiveAccept := MkReceiveAccept {
  ra_TransferCtlFlags : Z;
  ra_mRangeCtlFlags : Z;
  ra_Version : Z;
  ra_MaxBlockSize : Z;
  ra_StartOffset : Z;
  ra_Length : Z;
  ra_Metadata : option bytes }.

Definition ReceiveAccept_WriteToBuffer (m : ReceiveAccept) (aBuffer : Writer) : Writer :=
  let transferCtlFlags := Z.lor (Z.land (ra_Version m) kVersionMask) (ra_TransferCtlFlags m) in
  let (rangeCtlFlags, widerange) := range_flags (ra_StartOffset m) (ra_Length m) in
  let w := Put (Put aBuffer transferCtlFlags) rangeCtlFlags in
  let w := LE_EndianPut w (ra_MaxBlockSize m) 2 in
  let w := put_range (ra_StartOffset m) widerange w in
  let w := put_range (ra_Length m) widerange w in
  put_span (ra_Metadata m) w.

Definition ReceiveAccept_Parse_steps : M Reader ReceiveAccept :=
  let! transferCtl := rd 1 in
  let! rangeCtlFlags := rd 1 in
  let! maxBlockSize := rd 2 in
  let! startOffset := read_range rangeCtlFlags RangeControlFlags.kStartOffset in
  let! len := read_range rangeCtlFlags RangeControlFlags.kDefLen in
  let! bufReader := get in
  ret (MkReceiveAccept (wrap 8 (Z.land transferCtl (Z.lnot kVersionMask))) rangeCtlFlags
         (Z.land transferCtl kVersionMask) maxBlockSize startOffset len (rest_span bufReader)).

Definition ReceiveAccept_eq (m another : ReceiveAccept) : bool :=
  span_eqb (ra_Metadata m) (ra_Metadata another) && (ra_Version m =? ra_Version another) &&
  (ra_TransferCtlFlags m =? ra_TransferCtlFlags another) &&
  (ra_StartOffset m =? ra_StartOffset another) && (ra_MaxBlockSize m =? ra_MaxBlockSize another) &&
  (ra_Length m =? ra_Length another).

#[export] Instance ReceiveAccept_message : BdxMessage ReceiveAccept := {|
  WriteToBuffer := ReceiveAccept_WriteToBuffer;
  Parse := parsed ReceiveAccept_Parse_steps;
  same := ReceiveAccept_eq |}.

(** ** CounterMessage: BlockQuery, BlockAck, BlockAckEOF *)

Record CounterMessage := MkCounterMessage { cm_BlockCounter : Z }.

#[export] Instance CounterMessage_message : BdxMessage CounterMessage := {|
  WriteToBuffer m aBuffer := LE_EndianPut aBuffer (cm_BlockCounter m) 4;
  Parse := parsed (let! blockCounter := rd 4 in ret (MkCounterMessage blockCounter));
  same m another := cm_BlockCounter m =? cm_BlockCounter another |}.

(** ** DataBlock: Block, BlockEOF *)

Record DataBlock := MkDataBlock {
  db_BlockCounter : Z;
  db_Data : option bytes }.

#[export] Instance DataBlock_message : BdxMessage DataBlock := {|
  WriteToBuffer m aBuffer := put_span (db_Data m) (LE_EndianPut aBuffer (db_BlockCounter m) 4);
  Parse := parsed (let! blockCounter := rd 4 in
                   let! bufReader := get in
                   ret (MkDataBlock blockCounter (rest_span bufReader)));
  same m another :=
    span_eqb (db_Data m) (db_Data another) && (db_BlockCounter m =? db_BlockCounter another) |}.

(** ** BlockQueryWithSkip *)

Record BlockQueryWithSkip := MkBlockQueryWithSkip {
  bq_BlockCounter : Z;
  bq_BytesToSkip : Z }.

#[export] Instance BlockQueryWithSkip_message : BdxMessage BlockQueryWithSkip := {|
  WriteToBuffer m aBuffer := LE_EndianPut (LE_EndianPut aBuffer (bq_BlockCounter m) 4) (bq_BytesToSkip m) 8;
  Parse := parsed (let! blockCounter := rd 4 in
                   let! bytesToSkip := rd 8 in
                   ret (MkBlockQueryWithSkip blockCounter bytesToSkip));
  same m another :=
    (bq_BlockCounter m =? bq_BlockCounter another) && (bq_BytesToSkip m =? bq_BytesToSkip another) |}.

End Messages.

(** ** Messages in packet buffers *)

Section Packets.
Context `{PM : PlatformMemory} (INET_CONFIG_ENABLE_TCP_ENDPOINT : bool).

Definition kMaxSize : nat := kMaxSizeWithoutReserve - kDefaultHeaderReserve.
Definition kMaxFooterSize : nat := 16.

Definition MessagePacketBuffer_New (aAvailableSize : nat) : heap -> option PBuf * heap := fun h =>
  if (kMaxSize - kMaxFooterSize <? aAvailableSize)%nat then (None, h)
  else New INET_CONFIG_ENABLE_TCP_ENDPOINT (aAvailableSize + kMaxFooterSize) kDefaultHeaderReserve h.

(** A new packet of the size [write] needs, written through a [PacketBufferWriter]:
    the constructor of the writer takes [Start()] of the packet, so a null packet is
    read before [IsNull()] is asked. *)
Definition written_packet (write : Writer -> Writer) : M heap PBuf := fun h =>
  let msgSize := Needed (write (Writer_new [])) in
  match MessagePacketBuffer_New msgSize h with
  | (None, h) => (Err UNDEFINED_BEHAVIOUR, h)
  | (Some packet, h) =>
      let bbuf := PacketBufferWriter_new packet (Some msgSize) in
      match Finalize (MkPacketBufferWriter (write (pbwWriter bbuf)) (mPacket bbuf)) with
      | Some msgBuf => (Ok msgBuf, h)
      | None => (Err CHIP_ERROR_NO_MEMORY, h)
      end
  end.

Definition WriteToPacketBuffer {A} `{BdxMessage A} (msgStruct : A) : M heap PBuf :=
  written_packet (WriteToBuffer msgStruct).

(** ** StatusReport *)

Definition GeneralStatusCode_kSuccess : Z := 0.
Definition GeneralStatusCode_kFailure : Z := 1.
Definition GeneralStatusCode_kBusy : Z := 8.
Definition kProtocolCodeBusy : Z := 0x0004.

Definition SecureChannel_Id : ProtocolId := MkProtocolId VendorId_Common 0x0000.
Definition BDX_Id : ProtocolId := MkProtocolId VendorId_Common 0x0002.

Definition ToFullyQualifiedSpecForm (id : ProtocolId) : Z :=
  Z.lor (wrap 32 (Z.shiftl (GetVendorId id) 16)) (GetProtocolId id).
Definition FromFullyQualifiedSpecForm (aSpecForm : Z) : ProtocolId :=
  MkProtocolId (wrap 16 (Z.shiftr aSpecForm 16)) (wrap 16 (Z.land aSpecForm (Z.shiftl 1 16 - 1))).

Record StatusReport := MkStatusReport {
  mGeneralCode : Z;
  mProtocolId : ProtocolId;
  mProtocolCode : Z;
  mMinimumWaitTime : option Z;
  mProtocolData : option PBuf }.

Definition StatusReport_new (generalCode : Z) (protocolId : ProtocolId) (protocolCode : Z) : StatusReport :=
  MkStatusReport generalCode protocolId protocolCode None None.

Definition StatusReport_WriteToBuffer (r : StatusReport) (buf : Writer) : Writer :=
  let w := LE_EndianPut buf (mGeneralCode r) 2 in
  let w := LE_EndianPut w (ToFullyQualifiedSpecForm (mProtocolId r)) 4 in
  let w := LE_EndianPut w (mProtocolCode r) 2 in
  put_span (data <$> mProtocolData r) w.

Definition StatusReport_Size (r : StatusReport) : nat := Needed (StatusReport_WriteToBuffer r (Writer_new [])).

Definition IsBusy (r : StatusReport) : bool :=
  (mGeneralCode r =? GeneralStatusCode_kBusy) && (mProtocolCode r =? kProtocolCodeBusy).

Context `{BO : ByteOrder}.

(** [Parse] on a fresh report; the state is the heap. *)
Definition StatusReport_Parse (buf : bytes) : M heap StatusReport :=
  let fields :=
    (let! generalCode := rd 2 in
     let! protocolId := rd 4 in
     let! protocolCode := rd 2 in
     let! bufReader := get in
     ret (StatusReport_new generalCode (FromFullyQualifiedSpecForm protocolId) protocolCode,
          bufReader)) in
  let! (report, bufReader) := lift (parsed fields buf) in
  if (OctetsRead bufReader <? length buf)%nat then
    let! protocolData := NewWithData INET_CONFIG_ENABLE_TCP_ENDPOINT (drop (OctetsRead bufReader) buf) 0 0 in
    let! protocolData := lift (match protocolData with Some p => Ok p | None => Err CHIP_ERROR_NO_MEMORY end) in
    let report := MkStatusReport (mGeneralCode report) (mProtocolId report) (mProtocolCode report)
                                 None (Some protocolData) in
    if IsBusy report then
      let! minimumWaitTime := lift (parsed (rd 2) (data protocolData)) in
      ret (MkStatusReport (mGeneralCode report) (mProtocolId report) (mProtocolCode report)
                          (Some minimumWaitTime) (Some protocolData))
    else ret report
  else ret report.

End Packets.

(** ** What is written *)

(** The laws a message keeps: what it writes, and that this parses to [received m],
    which equals [m] by the message's own comparison. *)
Class MessageLaws (A : Type) `{BdxMessage A} := {
  encoding : A -> bytes;
  received : A -> A;
  message_ok : A -> Prop;
  write_log m b log :
    WriteToBuffer m (writer_of b log) = writer_of b (log ++ (Some <$> encoding m));
  parse_encoding m :
    message_ok m -> Z.of_nat (length (encoding m)) < 65536 -> Parse (encoding m) = Ok (received m);
  same_received m : message_ok m -> same m (received m) = true }.

Definition span_bytes (s : option bytes) : bytes := default [] s.
Definition no_empty (s : option bytes) : option bytes :=
  match s with Some (_ :: _) => s | _ => None end.
Definition range_bytes (v : Z) (widerange : bool) : bytes :=
  if 0 <? v then if widerange then le_split 8 v else le_split 4 (wrap 32 v) else [].

Lemma put_span_log s b log :
  put_span s (writer_of b log) = writer_of b (log ++ (Some <$> span_bytes s)).
Proof. destruct s; cbn; [apply PutBytes_log|by rewrite app_nil_r]. Qed.

Lemma put_range_log v wide b log :
  put_range v wide (writer_of b log) = writer_of b (log ++ (Some <$> range_bytes v wide)).
Proof.
  unfold put_range, range_bytes; destruct (0 <? v); [|by rewrite app_nil_r].
  destruct wide; apply LE_EndianPut_log.
Qed.

Create Rewrite HintDb writer_log.
#[export] Hint Rewrite Put_log LE_EndianPut_log put_span_log put_range_log : writer_log.

Lemma span_eqb_no_empty s : span_eqb s (no_empty s) = true.
Proof. apply bool_decide_eq_true; by destruct s as [[|]|]. Qed.

(** A reader over [buf] that has [l] left. *)
Definition reads (buf l : bytes) (r : Reader) : Prop :=
  mBuf r = buf /\ (mReadPos r + mAvailable r)%nat = length buf /\
  mStatus r = CHIP_NO_ERROR /\ rest r = l.

Lemma reads_new l : reads l l (Reader_new l).
Proof. unfold reads; split_and!; [done..|apply rest_new]. Qed.

Lemma reads_wf buf l r : reads buf l r -> Reader_wf r.
Proof. intros (Hb & Hp & _); unfold Reader_wf; rewrite Hb; lia. Qed.

Lemma reads_available buf l r : reads buf l r -> Remaining r = length l.
Proof. intros H; pose proof (reads_wf _ _ _ H); destruct H as (_ & _ & _ & <-); by rewrite length_rest. Qed.

Lemma reads_mem buf l r n :
  reads buf l r -> (n <= length l)%nat -> mem_read (OctetsRead r) n (mBuf r) = take n l.
Proof.
  intros H Hn; rewrite <-(reads_available _ _ _ H) in Hn.
  destruct H as (_ & _ & _ & <-); by apply (peek_rest r n).
Qed.

Lemma reads_position buf l r : reads buf l r -> (OctetsRead r + length l)%nat = length buf.
Proof. intros H; rewrite <-(reads_available _ _ _ H); apply H. Qed.

Lemma rest_span_reads buf l r : reads buf l r -> rest_span r = no_empty (Some l).
Proof.
  intros H; unfold rest_span; rewrite (reads_available _ _ _ H), (reads_mem _ _ _ _ H) by lia.
  rewrite take_ge by lia; by destruct l.
Qed.

Lemma reads_byte c l buf r : is_u8 c -> reads buf (c :: l) r -> reads buf (le_split 1 c ++ l) r.
Proof. intros Hc H; cbn; by rewrite Z.mod_small by exact Hc. Qed.

Lemma no_empty_bytes s : no_empty (Some (span_bytes s)) = no_empty s.
Proof. by destruct s as [[|]|]. Qed.

Section ReadSteps.
Context `{BO : ByteOrder} {A : Type}.

(** One field read, the rest of the parser going on behind it. *)
Lemma rd_reads n v l buf r (k : Z -> M Reader A) :
  reads buf (le_split n v ++ l) r -> is_uint (8 * Z.of_nat n) v ->
  exists r', reads buf l r' /\ bind (rd n) k r = k v r'.
Proof.
  intros H Hv; pose proof (reads_wf _ _ _ H) as Hwf; pose proof (reads_available _ _ _ H) as Ha.
  destruct H as (Hb & Hp & Hs & Hr).
  destruct (rd_le_split n v r l Hwf Hs Hv Hr) as (E & Hr' & _).
  exists (advance r n); split; [|by apply bind_ok].
  rewrite length_app, length_le_split in Ha; unfold Remaining in Ha.
  unfold reads, advance; cbn; split_and!; auto; lia.
Qed.

Lemma read_range_reads flags flag v wide l buf r (k : Z -> M Reader A) :
  reads buf (range_bytes v wide ++ l) r -> is_uint 64 v -> (wide = false -> v < 2 ^ 32) ->
  BitFlags.Has flags flag = (0 <? v) -> BitFlags.Has flags RangeControlFlags.kWiderange = wide ->
  exists r', reads buf l r' /\ bind (read_range flags flag) k r = k v r'.
Proof.
  intros H Hv Hw Hf Hwf; unfold read_range; rewrite Hf, Hwf; unfold range_bytes in H; unfold is_uint in Hv.
  destruct (Z.ltb_spec 0 v); [|exists r; replace v with 0 by lia; done].
  destruct wide; [by apply (rd_reads 8 v l)|].
  rewrite wrap_small in H by (unfold is_uint; specialize (Hw eq_refl); lia).
  apply (rd_reads 4 v l); [done|]; unfold is_uint; specialize (Hw eq_refl); lia.
Qed.
End ReadSteps.

(** ** The messages *)

Definition version_ok (v : Z) : Prop := 0 <= v < 16.
(** Transfer-control flags leave the four bits of the version free. *)
Definition control_ok (flags : Z) : Prop := is_u8 flags /\ Z.land flags 15 = 0.

Lemma control_fields v flags :
  version_ok v -> control_ok flags ->
  let c := Z.lor (Z.land v kVersionMask) flags in
  is_u8 c /\ Z.land c kVersionMask = v /\ wrap 8 (Z.land c (Z.lnot kVersionMask)) = flags.
Proof.
  intros Hv [Hf H15] c; unfold version_ok, is_u8, is_uint in *; subst c.
  change kVersionMask with (Z.ones 4) in *; change 15 with (Z.ones 4) in H15.
  rewrite Z.land_ones in H15 |- * by lia; rewrite (Z.mod_small v) by (change (2 ^ 4) with 16; lia).
  assert (exists k, flags = Z.shiftl k 4 /\ 0 <= k < 16) as (k & -> & Hk).
  { exists (flags / 2 ^ 4); rewrite Z.shiftl_mul_pow2 by lia.
    split; [|split; [apply Z.div_pos; lia|apply Z.div_lt_upper_bound; lia]].
    pose proof (Z.div_mod flags (2 ^ 4) ltac:(lia)); lia. }
  rewrite Z.lor_comm, lor_shiftl_add by lia; rewrite Z.shiftl_mul_pow2 in * by lia.
  change (2 ^ 4) with 16 in *; rewrite (Z.add_comm (k * 16)); split; [lia|].
  rewrite Z.land_ones by lia; change (2 ^ 4) with 16.
  split; [rewrite Z.mod_add by lia; apply Z.mod_small; lia|].
  rewrite <-Z.ldiff_land, Z.ldiff_ones_r by lia.
  rewrite Z.shiftr_div_pow2, Z.shiftl_mul_pow2 by lia; change (2 ^ 4) with 16.
  rewrite Z.div_add, (Z.div_small v) by lia; apply wrap_small; unfold is_uint; lia.
Qed.

Definition range_ok (offset len : Z) : Prop := is_uint 64 offset /\ is_uint 64 len.

Lemma range_flags_spec offset len :
  let (flags, wide) := range_flags offset len in
  is_u8 flags /\ BitFlags.Has flags RangeControlFlags.kStartOffset = (0 <? offset) /\
  BitFlags.Has flags RangeControlFlags.kDefLen = (0 <? len) /\
  BitFlags.Has flags RangeControlFlags.kWiderange = wide /\
  (wide = false -> offset < 2 ^ 32 /\ len < 2 ^ 32).
Proof.
  unfold range_flags.
  set (wide := (_ || _)%bool).
  assert (wide = false -> offset < 2 ^ 32 /\ len < 2 ^ 32) as Hw.
  { unfold wide; intros [H1%Z.ltb_ge H2%Z.ltb_ge]%orb_false_iff; lia. }
  clearbody wide; generalize (0 <? len) as b, (0 <? offset) as c; intros.
  destruct b, c, wide; split_and!; try done; unfold is_u8, is_uint; vm_compute; split; congruence.
Qed.

(** [next_field H r H'] reads the field at the head of [H]; the reader goes on as [r]. *)
Ltac next_field H r H' :=
  lazymatch type of H with
  | reads ?buf (le_split ?n ?v ++ ?l) ?r0 =>
      lazymatch goal with
      | |- context [bind (rd n) ?k r0] =>
          destruct (rd_reads n v l buf r0 k H ltac:(assumption)) as (r & H' & ->)
      end
  end.
Ltac next_range H r H' Hw :=
  lazymatch type of H with
  | reads ?buf (range_bytes ?v ?wide ++ ?l) ?r0 =>
      lazymatch goal with
      | |- context [bind (read_range ?flags ?flag) ?k r0] =>
          destruct (read_range_reads flags flag v wide l buf r0 k H) as (r & H' & ->);
            [assumption|apply Hw|assumption|assumption|]
      end
  end.

Section Laws.
Context `{BO : ByteOrder}.

(** [TransferInit] *)

Definition TransferInit_bytes (m : TransferInit) : bytes :=
  let (flags, wide) := range_flags (StartOffset m) (MaxLength m) in
  [Z.lor (Z.land (Version m) kVersionMask) (TransferCtlOptions m); flags] ++
  le_split 2 (MaxBlockSize m) ++ range_bytes (StartOffset m) wide ++ range_bytes (MaxLength m) wide ++
  le_split 2 (FileDesLength m) ++
  span_bytes (take (Z.to_nat (FileDesLength m)) <$> FileDesignator m) ++ span_bytes (Metadata m).

Definition TransferInit_received (m : TransferInit) : TransferInit :=
  MkTransferInit (TransferCtlOptions m) (Version m) (range_flags (StartOffset m) (MaxLength m)).1
    (MaxBlockSize m) (StartOffset m) (MaxLength m) (Some (span_bytes (FileDesignator m)))
    (FileDesLength m) (no_empty (Metadata m)).

Record TransferInit_ok (m : TransferInit) : Prop := {
  ti_version : version_ok (Version m);
  ti_control : control_ok (TransferCtlOptions m);
  ti_block : is_u16 (MaxBlockSize m);
  ti_range : range_ok (StartOffset m) (MaxLength m);
  ti_designator : FileDesLength m = Z.of_nat (length (span_bytes (FileDesignator m)));
  ti_length : is_u16 (FileDesLength m) }.

Lemma TransferInit_parse_bytes m :
  TransferInit_ok m -> Z.of_nat (length (TransferInit_bytes m)) < 65536 ->
  Parse (TransferInit_bytes m) = Ok (TransferInit_received m).
Proof.
  intros [Hv Hc Hb [Ho Hl] Hd Hfl] Hlen.
  pose proof (range_flags_spec (StartOffset m) (MaxLength m)) as HR.
  unfold TransferInit_bytes, TransferInit_received, Parse, TransferInit_message, parsed in *.
  destruct (range_flags _ _) as [flags wide]; destruct HR as (Hf & Hfo & Hfm & Hfw & Hw).
  destruct (control_fields _ _ Hv Hc) as (Hcu & Hcv & Hco).
  set (fd := span_bytes (FileDesignator m)) in *.
  replace (span_bytes (take _ <$> _)) with fd in *
    by (unfold fd, span_bytes in *; destruct (FileDesignator m); cbn in *; [rewrite take_ge by lia|]; done).
  set (md := span_bytes (Metadata m)) in *; set (buf := _ ++ _) in Hlen |- *.
  pose proof (reads_byte _ _ _ _ Hcu (reads_new buf)) as H.
  unfold TransferInit_Parse_steps.
  next_field H r1 H1; pose proof (reads_byte _ _ _ _ Hf H1) as H1'.
  next_field H1' r2 H2; next_field H2 r3 H3.
  next_range H3 r4 H4 Hw; next_range H4 r5 H5 Hw; next_field H5 r6 H6.
  pose proof (reads_available _ _ _ H6) as Ha; pose proof (reads_position _ _ _ H6) as Hp.
  rewrite length_app in Ha, Hp; erewrite bind_ok by reflexivity; cbv beta.
  unfold verify, HasAtLeast; rewrite Ha, Hd, Nat2Z.id, (proj2 (Nat.leb_le _ _)) by lia.
  erewrite bind_ok by reflexivity; cbv beta zeta; cbn [fst ret].
  rewrite (reads_mem _ _ _ _ H6), take_app_length by len.
  rewrite Hcv, Hco; do 2 f_equal.
  replace (mBuf r6) with buf by (symmetry; apply H6).
  destruct (Nat.ltb_spec (length fd) (length fd + length md)) as [Hm|Hm].
  - rewrite (wrap_small 16 (Z.of_nat (OctetsRead r6) + _)) by (unfold is_uint; lia).
    rewrite wrap_small by (unfold is_uint; lia).
    replace (Z.to_nat (_ - _)) with (length md) by lia.
    replace (Z.to_nat _) with (OctetsRead r6 + length fd)%nat by lia.
    replace buf with (mBuf r6) by apply H6.
    assert (mem_read (OctetsRead r6) (length fd + length md) (mBuf r6) = fd ++ md) as E.
    { rewrite (reads_mem _ _ _ _ H6) by len; by rewrite take_ge by len. }
    rewrite mem_read_app in E; apply app_inj_1 in E as [_ E];
      [|rewrite (reads_mem _ _ _ _ H6) by len; by rewrite take_app_length by len].
    rewrite E; unfold md, span_bytes in *; destruct (Metadata m) as [[|]|]; cbn in *; done || lia.
  - unfold md, span_bytes in *; destruct (Metadata m) as [[|]|]; cbn in *; done || lia.
Qed.

#[export] Instance TransferInit_laws : MessageLaws TransferInit.
Proof.
  refine {| encoding := TransferInit_bytes; received := TransferInit_received;
            message_ok := TransferInit_ok |}.
  - intros m b log; cbn [WriteToBuffer TransferInit_message]; unfold TransferInit_WriteToBuffer, TransferInit_bytes.
    destruct (range_flags _ _) as [flags wide].
    autorewrite with writer_log; f_equal; rewrite !fmap_app, <-!app_assoc; done.
  - apply TransferInit_parse_bytes.
  - intros m Hm; cbn; unfold TransferInit_eq; cbn; rewrite !Z.eqb_refl, span_eqb_no_empty; cbn.
    unfold span_eqb, span_bytes; by rewrite bool_decide_eq_true.
Defined.

(** The parsers of the shorter messages; [writes] closes the law of their writers. *)
Ltac writes :=
  cbv zeta; autorewrite with writer_log; f_equal; rewrite ?fmap_app, <-?app_assoc; done.

(** At the end of a parser: the reader is asked what is left. *)
Ltac finish_reading :=
  try (erewrite bind_ok by reflexivity); cbv beta zeta; cbn [ret fst];
  try (erewrite rest_span_reads by eassumption).

Definition SendAccept_bytes (m : SendAccept) : bytes :=
  [Z.lor (Z.land (sa_Version m) kVersionMask) (sa_TransferCtlFlags m)] ++
  le_split 2 (sa_MaxBlockSize m) ++ span_bytes (sa_Metadata m).

#[export] Instance SendAccept_laws : MessageLaws SendAccept.
Proof.
  refine {| encoding := SendAccept_bytes;
            received m := MkSendAccept (sa_TransferCtlFlags m) (sa_Version m) (sa_MaxBlockSize m)
                                       (no_empty (sa_Metadata m));
            message_ok m := version_ok (sa_Version m) /\ control_ok (sa_TransferCtlFlags m) /\
                            is_u16 (sa_MaxBlockSize m) |}.
  - intros m b log; cbn [WriteToBuffer SendAccept_message]; unfold SendAccept_WriteToBuffer, SendAccept_bytes; writes.
  - intros m (Hv & Hc & Hb) _; destruct (control_fields _ _ Hv Hc) as (Hcu & Hcv & Hco).
    unfold Parse, SendAccept_message, parsed, SendAccept_Parse_steps.
    pose proof (reads_byte _ _ _ _ Hcu (reads_new (SendAccept_bytes m))) as H.
    next_field H r1 H1; next_field H1 r2 H2; finish_reading.
    by rewrite Hcv, Hco, no_empty_bytes.
  - intros m _; cbn; unfold SendAccept_eq; cbn; by rewrite !Z.eqb_refl, span_eqb_no_empty.
Defined.

Definition ReceiveAccept_bytes (m : ReceiveAccept) : bytes :=
  let (flags, wide) := range_flags (ra_StartOffset m) (ra_Length m) in
  [Z.lor (Z.land (ra_Version m) kVersionMask) (ra_TransferCtlFlags m); flags] ++
  le_split 2 (ra_MaxBlockSize m) ++ range_bytes (ra_StartOffset m) wide ++
  range_bytes (ra_Length m) wide ++ span_bytes (ra_Metadata m).

#[export] Instance ReceiveAccept_laws : MessageLaws ReceiveAccept.
Proof.
  refine {| encoding := ReceiveAccept_bytes;
            received m := MkReceiveAccept (ra_TransferCtlFlags m)
                            (range_flags (ra_StartOffset m) (ra_Length m)).1 (ra_Version m)
                            (ra_MaxBlockSize m) (ra_StartOffset m) (ra_Length m) (no_empty (ra_Metadata m));
            message_ok m := version_ok (ra_Version m) /\ control_ok (ra_TransferCtlFlags m) /\
                            is_u16 (ra_MaxBlockSize m) /\ range_ok (ra_StartOffset m) (ra_Length m) |}.
  - intros m b log; cbn [WriteToBuffer ReceiveAccept_message]; unfold ReceiveAccept_WriteToBuffer, ReceiveAccept_bytes.
    destruct (range_flags (ra_StartOffset m) (ra_Length m)); writes.
  - intros m (Hv & Hc & Hb & Ho & Hl) _; destruct (control_fields _ _ Hv Hc) as (Hcu & Hcv & Hco).
    pose proof (range_flags_spec (ra_StartOffset m) (ra_Length m)) as HR.
    unfold ReceiveAccept_bytes, Parse, ReceiveAccept_message, parsed, ReceiveAccept_Parse_steps.
    destruct (range_flags _ _) as [flags wide]; destruct HR as (Hf & Hfo & Hfm & Hfw & Hw).
    match goal with |- context [Reader_new ?l] => pose proof (reads_byte _ _ _ _ Hcu (reads_new l)) as H end.
    next_field H r1 H1; pose proof (reads_byte _ _ _ _ Hf H1) as H1'.
    next_field H1' r2 H2; next_field H2 r3 H3.
    next_range H3 r4 H4 Hw; next_range H4 r5 H5 Hw; finish_reading.
    by rewrite Hcv, Hco, no_empty_bytes.
  - intros m _; cbn; unfold ReceiveAccept_eq; cbn; by rewrite !Z.eqb_refl, span_eqb_no_empty.
Defined.

#[export] Instance CounterMessage_laws : MessageLaws CounterMessage.
Proof.
  refine {| encoding m := le_split 4 (cm_BlockCounter m); received m := m;
            message_ok m := is_u32 (cm_BlockCounter m) |}.
  - intros m b log; apply LE_EndianPut_log.
  - intros m Hm _; unfold Parse, CounterMessage_message, parsed.
    pose proof (reads_new (le_split 4 (cm_BlockCounter m))) as H.
    rewrite <-(app_nil_r (le_split 4 _)) in H at 2; next_field H r1 H1; by destruct m.
  - intros m _; apply Z.eqb_refl.
Defined.

#[export] Instance DataBlock_laws : MessageLaws DataBlock.
Proof.
  refine {| encoding m := le_split 4 (db_BlockCounter m) ++ span_bytes (db_Data m);
            received m := MkDataBlock (db_BlockCounter m) (no_empty (db_Data m));
            message_ok m := is_u32 (db_BlockCounter m) |}.
  - intros m b log; cbn [WriteToBuffer DataBlock_message]; writes.
  - intros m Hm _; unfold Parse, DataBlock_message, parsed.
    pose proof (reads_new (le_split 4 (db_BlockCounter m) ++ span_bytes (db_Data m))) as H.
    next_field H r1 H1; finish_reading; by rewrite no_empty_bytes.
  - intros m _; cbn; by rewrite Z.eqb_refl, span_eqb_no_empty.
Defined.

#[export] Instance BlockQueryWithSkip_laws : MessageLaws BlockQueryWithSkip.
Proof.
  refine {| encoding m := le_split 4 (bq_BlockCounter m) ++ le_split 8 (bq_BytesToSkip m);
            received m := m;
            message_ok m := is_u32 (bq_BlockCounter m) /\ is_u64 (bq_BytesToSkip m) |}.
  - intros m b log; cbn [WriteToBuffer BlockQueryWithSkip_message]; writes.
  - intros m [Hm Hs] _; unfold Parse, BlockQueryWithSkip_message, parsed.
    pose proof (reads_new (le_split 4 (bq_BlockCounter m) ++ le_split 8 (bq_BytesToSkip m))) as H.
    rewrite <-(app_nil_r (le_split 8 _)) in H at 2.
    next_field H r1 H1; next_field H1 r2 H2; by destruct m.
  - intros m _; cbn; by rewrite !Z.eqb_refl.
Defined.
End Laws.

(** The messages of a transfer, by their bytes. *)
Lemma parse_block `{BO : ByteOrder} c d :
  is_u32 c -> Z.of_nat (length (le_split 4 c ++ d)) < 65536 ->
  Parse (le_split 4 c ++ d) = Ok (MkDataBlock c (no_empty (Some d))).
Proof. exact (@parse_encoding DataBlock _ DataBlock_laws (MkDataBlock c (Some d))). Qed.

Lemma parse_counter `{BO : ByteOrder} c :
  is_u32 c -> Parse (le_split 4 c) = Ok (MkCounterMessage c).
Proof. intros H; exact (@parse_encoding CounterMessage _ CounterMessage_laws (MkCounterMessage c) H eq_refl). Qed.

(** ** Packets *)

Section PacketSpec.
Context `{PM : PlatformMemory} `{BO : ByteOrder} (tcp : bool).

(** What a packet can hold. *)
Lemma MessagePacketBuffer_New_spec n h p h' :
  MessagePacketBuffer_New tcp n h = (Some p, h') ->
  (n <= kMaxSize - kMaxFooterSize)%nat /\ pbuf_ok p /\ DataLength p = 0%nat /\
  (n <= AvailableDataLength p)%nat.
Proof.
  unfold MessagePacketBuffer_New; destruct (Nat.ltb_spec (kMaxSize - kMaxFooterSize) n); [done|].
  intros E; pose proof (New_ok _ _ _ _ _ _ E) as Hp; apply New_spec in E as (_ & Ha & Hs & Hl & _ & _).
  pose proof (AvailableDataLength_ok p Hp) as Hav.
  split_and!; [lia|done|exact Hl|lia].
Qed.

(** [written_packet] of a writer that puts [enc]: the packet holds [enc], or there was
    no packet for it. *)
Lemma written_packet_spec write enc h :
  (forall b log, write (writer_of b log) = writer_of b (log ++ (Some <$> enc))) ->
  match written_packet tcp write h with
  | (Ok q, _) => data q = enc /\ pbuf_ok q /\ Z.of_nat (length enc) < 65536
  | (Err e, _) => e = UNDEFINED_BEHAVIOUR /\ (MessagePacketBuffer_New tcp (length enc) h).1 = None
  end.
Proof.
  intros Hw; unfold written_packet; change (Writer_new []) with (writer_of [] []).
  rewrite Hw; unfold Needed; cbn [mNeeded writer_of]; rewrite app_nil_l, length_fmap.
  destruct (MessagePacketBuffer_New tcp (length enc) h) as [[p|] h1] eqn:E; [|done].
  apply MessagePacketBuffer_New_spec in E as (Hn & Hp & He & Hav).
  cbn [PacketBufferWriter_new pbwWriter mPacket].
  pose proof (Finalize_log p (Some (length enc)) (Some <$> enc) Hp He) as HF; cbv zeta in HF.
  change (Writer_new ?b) with (writer_of b []); rewrite Hw, app_nil_l.
  cbn [PacketBufferWriter_new pbwWriter wBuf Writer_new] in HF.
  rewrite length_fmap in HF; destruct (Finalize _) as [q|]; [|lia].
  destruct HF as (_ & Hq & Hs & Hd); split_and!; [|done|unfold kMaxSize, kMaxFooterSize in *;
    unfold kMaxSizeWithoutReserve, kDefaultHeaderReserve in *; lia].
  assert (length (mem_read (pPayload p) (length enc) (pMem p)) = length enc) as Hm.
  { apply length_mem_read; pose proof (AvailableDataLength_ok p Hp); unfold AllocSize in *; lia. }
  by rewrite Hd, overlay_some, Hm, take_ge, drop_ge, app_nil_r by lia.
Qed.

(** The packet made for a message parses to the message. *)
Definition packet_roundtrip {A} `{MessageLaws A} (m : A) : Prop := forall h,
  match WriteToPacketBuffer tcp m h with
  | (Ok q, _) =>
      Parse (data q) = Ok (received m) /\ same m (received m) = true /\ pbuf_ok q /\
      length (data q) = MessageSize m
  | (Err e, _) =>
      e = UNDEFINED_BEHAVIOUR /\ (MessagePacketBuffer_New tcp (MessageSize m) h).1 = None
  end.

Lemma MessageSize_encoding {A} `{MessageLaws A} (m : A) : MessageSize m = length (encoding m).
Proof.
  unfold MessageSize; change (Writer_new []) with (writer_of [] []).
  rewrite write_log; cbn; by rewrite length_fmap.
Qed.

Lemma WriteToPacketBuffer_spec {A} `{MessageLaws A} (m : A) h :
  match WriteToPacketBuffer tcp m h with
  | (Ok q, _) => data q = encoding m /\ pbuf_ok q /\ Z.of_nat (length (encoding m)) < 65536
  | (Err e, _) => e = UNDEFINED_BEHAVIOUR /\ (MessagePacketBuffer_New tcp (length (encoding m)) h).1 = None
  end.
Proof. apply written_packet_spec, write_log. Qed.

Lemma packet_roundtrip_ok {A} `{MessageLaws A} (m : A) : message_ok m -> packet_roundtrip m.
Proof.
  intros Hm h; pose proof (WriteToPacketBuffer_spec m h) as HW; rewrite MessageSize_encoding.
  destruct (WriteToPacketBuffer tcp m h) as [[q|e] h1]; [|done].
  destruct HW as (-> & Hq & Hl); split_and!; auto using parse_encoding, same_received.
Qed.

(** Status reports without protocol data. *)
Definition report_bytes (generalCode : Z) (id : ProtocolId) (code : Z) : bytes :=
  le_split 2 generalCode ++ le_split 4 (ToFullyQualifiedSpecForm id) ++ le_split 2 code.

Lemma report_write_log g id c b log :
  StatusReport_WriteToBuffer (StatusReport_new g id c) (writer_of b log) =
  writer_of b (log ++ (Some <$> report_bytes g id c)).
Proof.
  unfold StatusReport_WriteToBuffer, report_bytes; cbn [mGeneralCode mProtocolId mProtocolCode mProtocolData
    StatusReport_new fmap option_fmap option_map put_span].
  autorewrite with writer_log; f_equal; by rewrite !fmap_app, <-!app_assoc.
Qed.

Lemma spec_form id :
  is_u16 (GetVendorId id) -> is_u16 (GetProtocolId id) ->
  is_u32 (ToFullyQualifiedSpecForm id) /\ FromFullyQualifiedSpecForm (ToFullyQualifiedSpecForm id) = id.
Proof.
  destruct id as [v p]; unfold is_u16, is_u32, is_uint, ToFullyQualifiedSpecForm, FromFullyQualifiedSpecForm;
    cbn [GetVendorId GetProtocolId]; intros Hv Hp.
  rewrite wrap_small, lor_shiftl_add by (unfold is_uint; rewrite ?Z.shiftl_mul_pow2; lia).
  split; [lia|]; change (Z.shiftl 1 16 - 1) with (Z.ones 16); rewrite Z.land_ones, Z.shiftr_div_pow2 by lia.
  rewrite Z.div_add_l, (Z.div_small p), Z.add_0_r, !wrap_small
    by (unfold is_uint; try apply Z.mod_pos_bound; lia).
  f_equal; rewrite Z.add_comm, Z.mod_add by lia; by apply Z.mod_small.
Qed.

Lemma report_parse g id c h :
  is_u16 g -> is_u16 (GetVendorId id) -> is_u16 (GetProtocolId id) -> is_u16 c ->
  StatusReport_Parse tcp (report_bytes g id c) h = (Ok (StatusReport_new g id c), h).
Proof.
  intros Hg Hv Hp Hc; destruct (spec_form id Hv Hp) as [Hi Hid]; unfold StatusReport_Parse, parsed.
  pose proof (reads_new (report_bytes g id c)) as H.
  unfold report_bytes at 2 in H; rewrite <-(app_nil_r (le_split 2 c)) in H.
  next_field H r1 H1; next_field H1 r2 H2; next_field H2 r3 H3.
  erewrite bind_ok by reflexivity; cbv beta iota; rewrite Hid.
  pose proof (reads_position _ _ _ H3) as Hpos; cbn [length] in Hpos.
  by rewrite (proj2 (Nat.ltb_ge _ _)) by lia.
Qed.
End PacketSpec.

(** C37: Every message of the protocol that is made into a packet is received as it was
    meant: its fields come back, a file designator or data or metadata span with its bytes
    (an empty span as none), the flags of the range field tell the fields that are there
    and their width, and the comparison the code itself has says that the two messages are
    equal.  The same holds of the status report that ends a transfer.  The one error is
    that no packet could be had, and then the code reads through a null pointer: the
    constructor of the packet writer comes before the test for null. *)
Theorem bdx_message_roundtrip `{PM : PlatformMemory} `{BO : ByteOrder} (tcp : bool) :
  (forall m : TransferInit, message_ok m -> packet_roundtrip tcp m) /\
  (forall m : SendAccept, message_ok m -> packet_roundtrip tcp m) /\
  (forall m : ReceiveAccept, message_ok m -> packet_roundtrip tcp m) /\
  (forall m : CounterMessage, message_ok m -> packet_roundtrip tcp m) /\
  (forall m : DataBlock, message_ok m -> packet_roundtrip tcp m) /\
  (forall m : BlockQueryWithSkip, message_ok m -> packet_roundtrip tcp m) /\
  (forall generalCode id code h,
     is_u16 generalCode -> is_u16 (GetVendorId id) -> is_u16 (GetProtocolId id) -> is_u16 code ->
     let report := StatusReport_new generalCode id code in
     match written_packet tcp (StatusReport_WriteToBuffer report) h with
     | (Ok q, h') => StatusReport_Parse tcp (data q) h' = (Ok report, h')
     | (Err e, _) =>
         e = UNDEFINED_BEHAVIOUR /\ (MessagePacketBuffer_New tcp (StatusReport_Size report) h).1 = None
     end).
Proof.
  do 6 (split; [intros; by apply packet_roundtrip_ok|]).
  intros g id c h Hg Hv Hp Hc report.
  pose proof (written_packet_spec tcp _ _ h (report_write_log g id c)) as HW; fold report in HW.
  assert (StatusReport_Size report = length (report_bytes g id c)) as ->.
  { unfold StatusReport_Size, report; change (Writer_new []) with (writer_of [] []).
    rewrite report_write_log; unfold Needed, writer_of; cbn [mNeeded]; by rewrite app_nil_l, length_fmap. }
  destruct (written_packet tcp _ h) as [[q|e] h']; [|done].
  destruct HW as (-> & _ & _); by apply report_parse.
Qed.

Definition example_init : TransferInit :=
  MkTransferInit TransferControlFlags.kSenderDrive 0 0 1024 (2 ^ 32) 0 (Some [102; 111; 111]) 3 (Some [21; 24]).

Lemma bdx_message_roundtrip_witness :
  @packet_roundtrip zero_memory false TransferInit _ (@TransferInit_laws reference_byte_order) example_init /\
  (exists q, (@WriteToPacketBuffer zero_memory false TransferInit (@TransferInit_message reference_byte_order) example_init tt).1 = Ok q /\
     data q = [16; 18; 0; 4; 0; 0; 0; 0; 1; 0; 0; 0; 3; 0; 102; 111; 111; 21; 24]).
Proof.
  split; [|eexists; split; [vm_compute; reflexivity|vm_compute; reflexivity]].
  refine (proj1 (@bdx_message_roundtrip zero_memory reference_byte_order false) example_init _).
  constructor; unfold version_ok, control_ok, range_ok, is_u8, is_u16, is_u64, is_uint; cbn;
    repeat split; (lia || done).
Defined.
