(* ===== verification/BdxSession.v ===== *)
(** * BdxSession: one end of a bulk data transfer

    src/src/protocols/bdx/BdxTransferSession.{h,cpp}: class [TransferSession], one
    definition per method.  The state of an operation is the object and the heap its
    packets come from.

    - the operations of the application: [StartTransfer], [WaitForTransfer],
      [AcceptTransfer], [RejectTransfer], [PrepareBlockQuery], [PrepareBlock] and the
      others;
    - [HandleMessageReceived] with its handlers, and [PollOutput];
    - what a call can do to the state, and what negotiation comes to.

    Pointers into a received packet are the bytes they point to: the packet is kept in
    [mPendingMsgHandle] and handed to the application with the event. *)

From S2P Require Import Prelude Encoding PacketBuffer MessageHeader BdxMessages.

Definition kBdxVersion : Z := 0.

Inductive TransferRole := kReceiver | kSender.

#[export] Instance TransferRole_eq_dec : EqDecision TransferRole.
Proof. solve_decision. Defined.

Inductive OutputEventType :=
| kNone
| kMsgToSend
| kInitReceived
| kAcceptReceived
| kBlockReceived
| kQueryReceived
| kQueryWithSkipReceived
| kAckReceived
| kAckEOFReceived
| kStatusReceived
| kInternalError
| kTransferTimeout.

#[export] Instance OutputEventType_eq_dec : EqDecision OutputEventType.
Proof. solve_decision. Defined.

Inductive TransferState :=
| kUnitialized
| kAwaitingInitMsg
| kAwaitingAccept
| kNegotiateTransferParams
| kTransferInProgress
| kAwaitingEOFAck
| kReceivedEOF
| kTransferDone
| kErrorState.

#[export] Instance TransferState_eq_dec : EqDecision TransferState.
Proof. solve_decision. Defined.

Record TransferInitData := MkInitData {
  id_TransferCtlFlags : Z;
  id_MaxBlockSize : Z;
  id_StartOffset : Z;
  id_Length : Z;
  id_FileDesignator : option bytes;
  id_FileDesLength : Z;
  id_Metadata : option bytes }.

Record TransferAcceptData := MkAcceptData {
  ad_ControlMode : Z;
  ad_MaxBlockSize : Z;
  ad_StartOffset : Z;
  ad_Length : Z;
  ad_Metadata : option bytes }.

(** [Data] is a pointer and [Length] the length of what it points to. *)
Record BlockData := MkBlockData {
  bd_Data : option bytes;
  bd_IsEof : bool;
  bd_BlockCounter : Z }.
Definition bd_Length (b : BlockData) : Z := Z.of_nat (length (default [] (bd_Data b))).

Record MessageTypeData := MkTypeData { ProtocolId_ : ProtocolId; MessageType_ : Z }.

(** The constructor is the type of the event, with the member of the union that the type
    has and [MsgData]. *)
Inductive OutputEvent :=
| Event (EventType : OutputEventType)
| TransferInitEvent (transferInitData : TransferInitData) (MsgData : option PBuf)
| TransferAcceptEvent (transferAcceptData : TransferAcceptData) (MsgData : option PBuf)
| BlockDataEvent (blockdata : BlockData) (MsgData : option PBuf)
| StatusReportEvent (EventType : OutputEventType) (statusCode : Z)
| MsgToSendEvent (msgTypeData : MessageTypeData) (MsgData : option PBuf)
| QueryWithSkipEvent (bytesToSkip : Z).

Module TransferSession.

Record t := Mk {
  mPendingOutput : OutputEventType;
  mState : TransferState;
  mRole : TransferRole;
  mSuppportedXferOpts : Z;
  mMaxSupportedBlockSize : Z;
  mControlMode : Z;
  mTransferVersion : Z;
  mStartOffset : Z;
  mTransferLength : Z;
  mTransferMaxBlockSize : Z;
  mPendingMsgHandle : option PBuf;
  mStatusReportData : Z;
  mTransferRequestData : TransferInitData;
  mTransferAcceptData : TransferAcceptData;
  mBlockEventData : BlockData;
  mMsgTypeData : MessageTypeData;
  mBytesToSkip : Z;
  mNumBytesProcessed : Z;
  mLastBlockNum : Z;
  mNextBlockNum : Z;
  mLastQueryNum : Z;
  mNextQueryNum : Z;
  mTimeout : Z;
  mTimeoutStartTime : Z;
  mShouldInitTimeoutStart : bool;
  mAwaitingResponse : bool }.

(** [with_field proj v s]: the record [s] with the field [proj] set to [v]. *)
Ltac with_field proj v s :=
  let c := constr:(Mk (mPendingOutput s) (mState s) (mRole s) (mSuppportedXferOpts s)
              (mMaxSupportedBlockSize s) (mControlMode s) (mTransferVersion s) (mStartOffset s)
              (mTransferLength s) (mTransferMaxBlockSize s) (mPendingMsgHandle s)
              (mStatusReportData s) (mTransferRequestData s) (mTransferAcceptData s)
              (mBlockEventData s) (mMsgTypeData s) (mBytesToSkip s) (mNumBytesProcessed s)
              (mLastBlockNum s) (mNextBlockNum s) (mLastQueryNum s) (mNextQueryNum s) (mTimeout
              s) (mTimeoutStartTime s) (mShouldInitTimeoutStart s) (mAwaitingResponse s)) in
  let c := eval pattern (proj s) in c in
  lazymatch c with ?f _ => let r := eval cbv beta in (f v) in exact r end.

Definition set_mPendingOutput (v : OutputEventType) (s : t) : t := ltac:(with_field mPendingOutput v s).
Definition set_mState (v : TransferState) (s : t) : t := ltac:(with_field mState v s).
Definition set_mRole (v : TransferRole) (s : t) : t := ltac:(with_field mRole v s).
Definition set_mSuppportedXferOpts (v : Z) (s : t) : t := ltac:(with_field mSuppportedXferOpts v s).
Definition set_mMaxSupportedBlockSize (v : Z) (s : t) : t := ltac:(with_field mMaxSupportedBlockSize v s).
Definition set_mControlMode (v : Z) (s : t) : t := ltac:(with_field mControlMode v s).
Definition set_mTransferVersion (v : Z) (s : t) : t := ltac:(with_field mTransferVersion v s).
Definition set_mStartOffset (v : Z) (s : t) : t := ltac:(with_field mStartOffset v s).
Definition set_mTransferLength (v : Z) (s : t) : t := ltac:(with_field mTransferLength v s).
Definition set_mTransferMaxBlockSize (v : Z) (s : t) : t := ltac:(with_field mTransferMaxBlockSize v s).
Definition set_mPendingMsgHandle (v : option PBuf) (s : t) : t := ltac:(with_field mPendingMsgHandle v s).
Definition set_mStatusReportData (v : Z) (s : t) : t := ltac:(with_field mStatusReportData v s).
Definition set_mTransferRequestData (v : TransferInitData) (s : t) : t := ltac:(with_field mTransferRequestData v s).
Definition set_mTransferAcceptData (v : TransferAcceptData) (s : t) : t := ltac:(with_field mTransferAcceptData v s).
Definition set_mBlockEventData (v : BlockData) (s : t) : t := ltac:(with_field mBlockEventData v s).
Definition set_mMsgTypeData (v : MessageTypeData) (s : t) : t := ltac:(with_field mMsgTypeData v s).
Definition set_mBytesToSkip (v : Z) (s : t) : t := ltac:(with_field mBytesToSkip v s).
Definition set_mNumBytesProcessed (v : Z) (s : t) : t := ltac:(with_field mNumBytesProcessed v s).
Definition set_mLastBlockNum (v : Z) (s : t) : t := ltac:(with_field mLastBlockNum v s).
Definition set_mNextBlockNum (v : Z) (s : t) : t := ltac:(with_field mNextBlockNum v s).
Definition set_mLastQueryNum (v : Z) (s : t) : t := ltac:(with_field mLastQueryNum v s).
Definition set_mNextQueryNum (v : Z) (s : t) : t := ltac:(with_field mNextQueryNum v s).
Definition set_mTimeout (v : Z) (s : t) : t := ltac:(with_field mTimeout v s).
Definition set_mTimeoutStartTime (v : Z) (s : t) : t := ltac:(with_field mTimeoutStartTime v s).
Definition set_mShouldInitTimeoutStart (v : bool) (s : t) : t := ltac:(with_field mShouldInitTimeoutStart v s).
Definition set_mAwaitingResponse (v : bool) (s : t) : t := ltac:(with_field mAwaitingResponse v s).

(** A new object.  The initial values of [mRole], [mControlMode] and [mStatusReportData]
    (and of the request data) are whatever the memory held. *)
Definition no_request : TransferInitData := MkInitData 0 0 0 0 None 0 None.
Definition no_accept : TransferAcceptData := MkAcceptData 0 0 0 0 None.
Definition no_block : BlockData := MkBlockData None false 0.
Definition no_type : MessageTypeData := MkTypeData Protocols_NotSpecified 0.

Definition new (role : TransferRole) (mode status : Z) : t :=
  Mk kNone kUnitialized role 0 0 mode 0 0 0 0 None status no_request no_accept no_block no_type 0
     0 0 0 0 0 0 0 true false.

(** [mControlMode], [mRole], [mStatusReportData] and the event data keep their values. *)
Definition Reset (s : t) : t :=
  Mk kNone kUnitialized (mRole s) 0 0 (mControlMode s) 0 0 0 0 None (mStatusReportData s)
     (mTransferRequestData s) (mTransferAcceptData s) (mBlockEventData s) (mMsgTypeData s)
     (mBytesToSkip s) 0 0 0 0 0 0 0 true false.

Definition IsTransferLengthDefinite (s : t) : bool := 0 <? mTransferLength s.

Section Operations.
Context `{PM : PlatformMemory} `{BO : ByteOrder} (INET_CONFIG_ENABLE_TCP_ENDPOINT : bool).

Definition St : Type := t * heap.

Definition self : M St t := fun '(s, h) => (Ok s, (s, h)).
Definition upd (f : t -> t) : M St unit := fun '(s, h) => (Ok tt, (f s, h)).
Definition on_heap {A} (m : M heap A) : M St A := fun '(s, h) => let (r, h) := m h in (r, (s, h)).

(** [WriteToPacketBuffer(msg, mPendingMsgHandle)]: a null result is assigned as well. *)
Definition WriteToPending (write : Writer -> Writer) : M St unit := fun '(s, h) =>
  match written_packet INET_CONFIG_ENABLE_TCP_ENDPOINT write h with
  | (Ok msgBuf, h) => (Ok tt, (set_mPendingMsgHandle (Some msgBuf) s, h))
  | (Err e, h) =>
      (Err e, (if bool_decide (e = CHIP_ERROR_NO_MEMORY) then set_mPendingMsgHandle None s else s, h))
  end.

Definition PrepareOutgoingMessageEvent (protocol : ProtocolId) (messageType : Z) : M St unit :=
  upd (fun s => set_mMsgTypeData (MkTypeData protocol messageType) (set_mPendingOutput kMsgToSend s)).

Definition MsgType_StatusReport : Z := 0x40.

(** The report is made as [WriteToPacketBuffer] makes its packets, and an error becomes
    an event. *)
Definition PrepareStatusReport (code : Z) : M St unit :=
  upd (set_mStatusReportData code) ;;
  let report := StatusReport_new GeneralStatusCode_kFailure BDX_Id code in
  let! err := attempt (WriteToPending (StatusReport_WriteToBuffer report)) in
  (if bool_decide (err = CHIP_NO_ERROR)
   then PrepareOutgoingMessageEvent SecureChannel_Id MsgType_StatusReport
   else upd (set_mPendingOutput kInternalError)) ;;
  upd (set_mState kErrorState) ;;
  upd (set_mAwaitingResponse false).

(** [VerifyOrReturn(cond, PrepareStatusReport(code))] and the rest of a handler. *)
Definition or_report (cond : bool) (code : Z) (rest : M St unit) : M St unit :=
  if cond then rest else PrepareStatusReport code.

(** ** The application's side *)

Definition PollOutput (curTime : Z) : M St OutputEvent :=
  let! s := self in
  when (mShouldInitTimeoutStart s)
    (upd (set_mTimeoutStartTime curTime) ;; upd (set_mShouldInitTimeoutStart false)) ;;
  let! s := self in
  if mAwaitingResponse s && (mTimeout s <=? curTime -{64} mTimeoutStartTime s) then
    upd (set_mState kErrorState) ;;
    upd (set_mAwaitingResponse false) ;;
    ret (Event kTransferTimeout)
  else
    let! event :=
      match mPendingOutput s with
      | kNone => ret (Event kNone)
      | kInternalError => ret (StatusReportEvent kInternalError (mStatusReportData s))
      | kStatusReceived => ret (StatusReportEvent kStatusReceived (mStatusReportData s))
      | kMsgToSend =>
          upd (set_mPendingMsgHandle None) ;;
          upd (set_mTimeoutStartTime curTime) ;;
          ret (MsgToSendEvent (mMsgTypeData s) (mPendingMsgHandle s))
      | kInitReceived =>
          upd (set_mPendingMsgHandle None) ;;
          ret (TransferInitEvent (mTransferRequestData s) (mPendingMsgHandle s))
      | kAcceptReceived =>
          upd (set_mPendingMsgHandle None) ;;
          ret (TransferAcceptEvent (mTransferAcceptData s) (mPendingMsgHandle s))
      | kQueryReceived => ret (Event kQueryReceived)
      | kQueryWithSkipReceived => ret (QueryWithSkipEvent (mBytesToSkip s))
      | kBlockReceived =>
          upd (set_mPendingMsgHandle None) ;;
          ret (BlockDataEvent (mBlockEventData s) (mPendingMsgHandle s))
      | kAckReceived => ret (Event kAckReceived)
      | kAckEOFReceived => ret (Event kAckEOFReceived)
      | kTransferTimeout => ret (Event kNone)
      end in
    let event :=
      match event with
      | Event kNone =>
          if bool_decide (mState s = kErrorState)
          then StatusReportEvent kInternalError (mStatusReportData s) else event
      | _ => event
      end in
    upd (set_mPendingOutput kNone) ;;
    ret event.

Definition StartTransfer (role : TransferRole) (initData : TransferInitData) (timeout : Z) : M St unit :=
  let! s := self in
  verify (bool_decide (mState s = kUnitialized)) CHIP_ERROR_INCORRECT_STATE ;;
  upd (set_mRole role) ;;
  upd (set_mTimeout timeout) ;;
  upd (set_mSuppportedXferOpts (id_TransferCtlFlags initData)) ;;
  upd (set_mMaxSupportedBlockSize (id_MaxBlockSize initData)) ;;
  upd (set_mStartOffset (id_StartOffset initData)) ;;
  upd (set_mTransferLength (id_Length initData)) ;;
  let initMsg :=
    MkTransferInit (id_TransferCtlFlags initData) kBdxVersion 0 (id_MaxBlockSize initData)
      (id_StartOffset initData) (id_Length initData) (id_FileDesignator initData)
      (id_FileDesLength initData) (id_Metadata initData) in
  WriteToPending (WriteToBuffer initMsg) ;;
  let msgType :=
    if bool_decide (role = kSender) then MessageType.SendInit else MessageType.ReceiveInit in
  upd (set_mState kAwaitingAccept) ;;
  upd (set_mAwaitingResponse true) ;;
  PrepareOutgoingMessageEvent BDX_Id msgType.

Definition WaitForTransfer (role : TransferRole) (xferControlOpts maxBlockSize timeout : Z) : M St unit :=
  let! s := self in
  verify (bool_decide (mState s = kUnitialized)) CHIP_ERROR_INCORRECT_STATE ;;
  upd (set_mRole role) ;;
  upd (set_mTimeout timeout) ;;
  upd (set_mSuppportedXferOpts xferControlOpts) ;;
  upd (set_mMaxSupportedBlockSize maxBlockSize) ;;
  upd (set_mState kAwaitingInitMsg).

Definition AcceptTransfer (acceptData : TransferAcceptData) : M St unit :=
  let! s := self in
  let proposedControlOpts := id_TransferCtlFlags (mTransferRequestData s) in
  verify (bool_decide (mState s = kNegotiateTransferParams)) CHIP_ERROR_INCORRECT_STATE ;;
  verify (bool_decide (mPendingOutput s = kNone)) CHIP_ERROR_INCORRECT_STATE ;;
  verify (BitFlags.Has proposedControlOpts (ad_ControlMode acceptData)) CHIP_ERROR_INVALID_ARGUMENT ;;
  verify (ad_MaxBlockSize acceptData <=? id_MaxBlockSize (mTransferRequestData s)) CHIP_ERROR_INVALID_ARGUMENT ;;
  upd (set_mTransferMaxBlockSize (ad_MaxBlockSize acceptData)) ;;
  let! msgType :=
    if bool_decide (mRole s = kSender) then
      upd (set_mStartOffset (ad_StartOffset acceptData)) ;;
      upd (set_mTransferLength (ad_Length acceptData)) ;;
      let acceptMsg :=
        MkReceiveAccept (BitFlags.Set_ 0 (ad_ControlMode acceptData)) 0 (mTransferVersion s)
          (ad_MaxBlockSize acceptData) (ad_StartOffset acceptData) (ad_Length acceptData)
          (ad_Metadata acceptData) in
      WriteToPending (WriteToBuffer acceptMsg) ;;
      ret MessageType.ReceiveAccept
    else
      let acceptMsg :=
        MkSendAccept (BitFlags.Set_ 0 (ad_ControlMode acceptData)) (mTransferVersion s)
          (ad_MaxBlockSize acceptData) (ad_Metadata acceptData) in
      WriteToPending (WriteToBuffer acceptMsg) ;;
      ret MessageType.SendAccept in
  upd (set_mState kTransferInProgress) ;;
  when (bool_decide (mRole s = kReceiver) && (mControlMode s =? TransferControlFlags.kSenderDrive) ||
        bool_decide (mRole s = kSender) && (mControlMode s =? TransferControlFlags.kReceiverDrive))
    (upd (set_mAwaitingResponse true)) ;;
  PrepareOutgoingMessageEvent BDX_Id msgType.

Definition RejectTransfer (reason : Z) : M St unit :=
  let! s := self in
  verify (bool_decide (mState s = kNegotiateTransferParams)) CHIP_ERROR_INCORRECT_STATE ;;
  verify (bool_decide (mPendingOutput s = kNone)) CHIP_ERROR_INCORRECT_STATE ;;
  PrepareStatusReport reason ;;
  upd (set_mState kTransferDone).

(** The checks of the operations that send in a transfer. *)
Definition may_prepare (role : TransferRole) : M St unit :=
  let! s := self in
  verify (bool_decide (mState s = kTransferInProgress)) CHIP_ERROR_INCORRECT_STATE ;;
  verify (bool_decide (mRole s = role)) CHIP_ERROR_INCORRECT_STATE ;;
  verify (bool_decide (mPendingOutput s = kNone)) CHIP_ERROR_INCORRECT_STATE ;;
  verify (negb (mAwaitingResponse s)) CHIP_ERROR_INCORRECT_STATE.

Definition PrepareBlockQuery : M St unit :=
  may_prepare kReceiver ;;
  let! s := self in
  WriteToPending (WriteToBuffer (MkCounterMessage (mNextQueryNum s))) ;;
  upd (set_mAwaitingResponse true) ;;
  upd (set_mLastQueryNum (mNextQueryNum s)) ;;
  upd (set_mNextQueryNum (mNextQueryNum s +{32} 1)) ;;
  PrepareOutgoingMessageEvent BDX_Id MessageType.BlockQuery.

Definition PrepareBlockQueryWithSkip (bytesToSkip : Z) : M St unit :=
  may_prepare kReceiver ;;
  let! s := self in
  WriteToPending (WriteToBuffer (MkBlockQueryWithSkip (mNextQueryNum s) bytesToSkip)) ;;
  upd (set_mAwaitingResponse true) ;;
  upd (set_mLastQueryNum (mNextQueryNum s)) ;;
  upd (set_mNextQueryNum (mNextQueryNum s +{32} 1)) ;;
  PrepareOutgoingMessageEvent BDX_Id MessageType.BlockQueryWithSkip.

Definition PrepareBlock (inData : BlockData) : M St unit :=
  may_prepare kSender ;;
  let! s := self in
  verify (match bd_Data inData with Some _ => true | None => false end &&
          (bd_Length inData <=? mTransferMaxBlockSize s)) CHIP_ERROR_INVALID_ARGUMENT ;;
  WriteToPending (WriteToBuffer (MkDataBlock (mNextBlockNum s) (bd_Data inData))) ;;
  let msgType := if bd_IsEof inData then MessageType.BlockEOF else MessageType.Block in
  when (msgType =? MessageType.BlockEOF) (upd (set_mState kAwaitingEOFAck)) ;;
  upd (set_mAwaitingResponse true) ;;
  upd (set_mLastBlockNum (mNextBlockNum s)) ;;
  upd (set_mNextBlockNum (mNextBlockNum s +{32} 1)) ;;
  PrepareOutgoingMessageEvent BDX_Id msgType.

Definition PrepareBlockAck : M St unit :=
  let! s := self in
  verify (bool_decide (mRole s = kReceiver)) CHIP_ERROR_INCORRECT_STATE ;;
  verify (bool_decide (mState s = kTransferInProgress) || bool_decide (mState s = kReceivedEOF))
         CHIP_ERROR_INCORRECT_STATE ;;
  verify (bool_decide (mPendingOutput s = kNone)) CHIP_ERROR_INCORRECT_STATE ;;
  let blockCounter := mLastBlockNum s in
  let msgType :=
    if bool_decide (mState s = kReceivedEOF) then MessageType.BlockAckEOF else MessageType.BlockAck in
  WriteToPending (WriteToBuffer (MkCounterMessage blockCounter)) ;;
  (if bool_decide (mState s = kTransferInProgress) then
     when (mControlMode s =? TransferControlFlags.kSenderDrive)
       (upd (set_mLastQueryNum (blockCounter +{32} 1)) ;; upd (set_mAwaitingResponse true))
   else
     upd (set_mState kTransferDone) ;; upd (set_mAwaitingResponse false)) ;;
  PrepareOutgoingMessageEvent BDX_Id msgType.

Definition AbortTransfer (reason : Z) : M St unit :=
  let! s := self in
  verify (negb (bool_decide (mState s = kUnitialized)) && negb (bool_decide (mState s = kTransferDone)) &&
          negb (bool_decide (mState s = kErrorState))) CHIP_ERROR_INCORRECT_STATE ;;
  PrepareStatusReport reason.

(** ** Received messages *)

(** Chooses among the modes both ends allow. *)
Definition ResolveTransferControlOptions (proposed : Z) : M St unit :=
  if negb (BitFlags.HasAny proposed [TransferControlFlags.kSenderDrive; TransferControlFlags.kReceiverDrive])
  then PrepareStatusReport StatusCode.kTransferMethodNotSupported
  else
    let! s := self in
    let commonOpts := Z.land proposed (mSuppportedXferOpts s) in
    if commonOpts =? 0 then PrepareStatusReport StatusCode.kTransferMethodNotSupported
    else if BitFlags.HasOnly commonOpts [TransferControlFlags.kAsync]
    then upd (set_mControlMode TransferControlFlags.kAsync)
    else if BitFlags.HasOnly commonOpts [TransferControlFlags.kReceiverDrive]
    then upd (set_mControlMode TransferControlFlags.kReceiverDrive)
    else when (BitFlags.HasOnly commonOpts [TransferControlFlags.kSenderDrive])
           (upd (set_mControlMode TransferControlFlags.kSenderDrive)).

(** The mode of an Accept message, when it names one. *)
Definition proposed_mode (proposed : Z) : option Z :=
  if BitFlags.HasOnly proposed [TransferControlFlags.kAsync] then Some TransferControlFlags.kAsync
  else if BitFlags.HasOnly proposed [TransferControlFlags.kReceiverDrive]
  then Some TransferControlFlags.kReceiverDrive
  else if BitFlags.HasOnly proposed [TransferControlFlags.kSenderDrive]
  then Some TransferControlFlags.kSenderDrive
  else None.

Definition VerifyProposedMode (proposed : Z) : M St unit :=
  match proposed_mode proposed with
  | None =>
      PrepareStatusReport StatusCode.kBadMessageContents ;;
      fail CHIP_ERROR_INTERNAL
  | Some mode =>
      let! s := self in
      if BitFlags.Has (mSuppportedXferOpts s) mode then upd (set_mControlMode mode)
      else
        PrepareStatusReport StatusCode.kTransferMethodNotSupported ;;
        fail CHIP_ERROR_INTERNAL
  end.

(** [Parse] of a fresh message; a failure is reported to the peer. *)
Definition parsing {A} `{BdxMessage A} (msgData : PBuf) (rest : A -> M St unit) : M St unit :=
  match Parse (data msgData) with
  | Ok m => rest m
  | Err _ => PrepareStatusReport StatusCode.kBadMessageContents
  end.

Definition HandleTransferInit (msgType : Z) (msgData : PBuf) : M St unit :=
  let! s := self in
  or_report (bool_decide (mState s = kAwaitingInitMsg)) StatusCode.kUnexpectedMessage (
  or_report (msgType =? (if bool_decide (mRole s = kSender)
                         then MessageType.ReceiveInit else MessageType.SendInit))
            StatusCode.kUnexpectedMessage (
  parsing msgData (fun transferInit : TransferInit =>
  ResolveTransferControlOptions (TransferCtlOptions transferInit) ;;
  upd (set_mTransferVersion (Z.min kBdxVersion (Version transferInit))) ;;
  let! s := self in
  upd (set_mTransferMaxBlockSize (Z.min (mMaxSupportedBlockSize s) (MaxBlockSize transferInit))) ;;
  upd (set_mStartOffset (StartOffset transferInit)) ;;
  upd (set_mTransferLength (MaxLength transferInit)) ;;
  upd (set_mTransferRequestData
         (MkInitData (TransferCtlOptions transferInit) (MaxBlockSize transferInit)
            (StartOffset transferInit) (MaxLength transferInit) (FileDesignator transferInit)
            (FileDesLength transferInit) (Metadata transferInit))) ;;
  upd (set_mPendingMsgHandle (Some msgData)) ;;
  upd (set_mPendingOutput kInitReceived) ;;
  upd (set_mState kNegotiateTransferParams)))).

(** What the two Accept handlers do once the mode is settled. *)
Definition accepted (acceptData : TransferAcceptData) (msgData : PBuf) (waitsFor : Z) : M St unit :=
  let! s := self in
  upd (set_mTransferAcceptData acceptData) ;;
  upd (set_mPendingMsgHandle (Some msgData)) ;;
  upd (set_mPendingOutput kAcceptReceived) ;;
  upd (set_mAwaitingResponse (mControlMode s =? waitsFor)) ;;
  upd (set_mState kTransferInProgress).

Definition HandleReceiveAccept (msgData : PBuf) : M St unit :=
  let! s := self in
  or_report (bool_decide (mRole s = kReceiver)) StatusCode.kUnexpectedMessage (
  or_report (bool_decide (mState s = kAwaitingAccept)) StatusCode.kUnexpectedMessage (
  parsing msgData (fun rcvAcceptMsg : ReceiveAccept =>
  let! err := attempt (VerifyProposedMode (ra_TransferCtlFlags rcvAcceptMsg)) in
  when (bool_decide (err = CHIP_NO_ERROR)) (
    upd (set_mTransferMaxBlockSize (ra_MaxBlockSize rcvAcceptMsg)) ;;
    upd (set_mStartOffset (ra_StartOffset rcvAcceptMsg)) ;;
    upd (set_mTransferLength (ra_Length rcvAcceptMsg)) ;;
    let! s := self in
    accepted (MkAcceptData (mControlMode s) (ra_MaxBlockSize rcvAcceptMsg) (ra_StartOffset rcvAcceptMsg)
                (ra_Length rcvAcceptMsg) (ra_Metadata rcvAcceptMsg))
             msgData TransferControlFlags.kSenderDrive)))).

Definition HandleSendAccept (msgData : PBuf) : M St unit :=
  let! s := self in
  or_report (bool_decide (mRole s = kSender)) StatusCode.kUnexpectedMessage (
  or_report (bool_decide (mState s = kAwaitingAccept)) StatusCode.kUnexpectedMessage (
  parsing msgData (fun sendAcceptMsg : SendAccept =>
  let! err := attempt (VerifyProposedMode (sa_TransferCtlFlags sendAcceptMsg)) in
  when (bool_decide (err = CHIP_NO_ERROR)) (
    upd (set_mTransferMaxBlockSize (sa_MaxBlockSize sendAcceptMsg)) ;;
    let! s := self in
    accepted (MkAcceptData (mControlMode s) (sa_MaxBlockSize sendAcceptMsg) (mStartOffset s)
                (mTransferLength s) (sa_Metadata sendAcceptMsg))
             msgData TransferControlFlags.kReceiverDrive)))).

(** The checks the handlers of a transfer begin with. *)
Definition expecting (role : TransferRole) (state : TransferState) (rest : M St unit) : M St unit :=
  let! s := self in
  or_report (bool_decide (mRole s = role)) StatusCode.kUnexpectedMessage (
  or_report (bool_decide (mState s = state)) StatusCode.kUnexpectedMessage (
  or_report (mAwaitingResponse s) StatusCode.kUnexpectedMessage rest)).

Definition HandleBlockQuery (msgData : PBuf) : M St unit :=
  expecting kSender kTransferInProgress (
  parsing msgData (fun query : CounterMessage =>
  let! s := self in
  or_report (cm_BlockCounter query =? mNextBlockNum s) StatusCode.kBadBlockCounter (
  upd (set_mPendingOutput kQueryReceived) ;;
  upd (set_mAwaitingResponse false) ;;
  upd (set_mLastQueryNum (cm_BlockCounter query))))).

Definition HandleBlockQueryWithSkip (msgData : PBuf) : M St unit :=
  expecting kSender kTransferInProgress (
  parsing msgData (fun query : BlockQueryWithSkip =>
  let! s := self in
  or_report (bq_BlockCounter query =? mNextBlockNum s) StatusCode.kBadBlockCounter (
  upd (set_mPendingOutput kQueryWithSkipReceived) ;;
  upd (set_mAwaitingResponse false) ;;
  upd (set_mLastQueryNum (bq_BlockCounter query)) ;;
  upd (set_mBytesToSkip (bq_BytesToSkip query))))).

(** What the two block handlers keep of a block; [size_t] has 64 bits. *)
Definition block_received (blockMsg : DataBlock) (isEof : bool) (msgData : PBuf) : M St unit :=
  let! s := self in
  upd (set_mBlockEventData (MkBlockData (db_Data blockMsg) isEof (db_BlockCounter blockMsg))) ;;
  upd (set_mPendingMsgHandle (Some msgData)) ;;
  upd (set_mPendingOutput kBlockReceived) ;;
  upd (set_mNumBytesProcessed
         (mNumBytesProcessed s +{64} Z.of_nat (length (span_bytes (db_Data blockMsg))))) ;;
  upd (set_mLastBlockNum (db_BlockCounter blockMsg)) ;;
  upd (set_mAwaitingResponse false).

Definition HandleBlock (msgData : PBuf) : M St unit :=
  expecting kReceiver kTransferInProgress (
  parsing msgData (fun blockMsg : DataBlock =>
  let! s := self in
  let dataLength := Z.of_nat (length (span_bytes (db_Data blockMsg))) in
  or_report (db_BlockCounter blockMsg =? mLastQueryNum s) StatusCode.kBadBlockCounter (
  or_report ((0 <? dataLength) && (dataLength <=? mTransferMaxBlockSize s)) StatusCode.kBadMessageContents (
  or_report (negb (IsTransferLengthDefinite s) ||
             (mNumBytesProcessed s +{64} dataLength <=? mTransferLength s)) StatusCode.kLengthMismatch (
  block_received blockMsg false msgData))))).

Definition HandleBlockEOF (msgData : PBuf) : M St unit :=
  expecting kReceiver kTransferInProgress (
  parsing msgData (fun blockEOFMsg : DataBlock =>
  let! s := self in
  or_report (db_BlockCounter blockEOFMsg =? mLastQueryNum s) StatusCode.kBadBlockCounter (
  or_report (Z.of_nat (length (span_bytes (db_Data blockEOFMsg))) <=? mTransferMaxBlockSize s)
            StatusCode.kBadMessageContents (
  block_received blockEOFMsg true msgData ;;
  upd (set_mState kReceivedEOF))))).

Definition HandleBlockAck (msgData : PBuf) : M St unit :=
  expecting kSender kTransferInProgress (
  parsing msgData (fun ackMsg : CounterMessage =>
  let! s := self in
  or_report (cm_BlockCounter ackMsg =? mLastBlockNum s) StatusCode.kBadBlockCounter (
  upd (set_mPendingOutput kAckReceived) ;;
  upd (set_mAwaitingResponse (mControlMode s =? TransferControlFlags.kReceiverDrive))))).

Definition HandleBlockAckEOF (msgData : PBuf) : M St unit :=
  expecting kSender kAwaitingEOFAck (
  parsing msgData (fun ackMsg : CounterMessage =>
  let! s := self in
  or_report (cm_BlockCounter ackMsg =? mLastBlockNum s) StatusCode.kBadBlockCounter (
  upd (set_mPendingOutput kAckEOFReceived) ;;
  upd (set_mAwaitingResponse false) ;;
  upd (set_mState kTransferDone)))).

(** The switch on the message type. *)
Definition dispatch (msgType : Z) (msg : PBuf) : M St unit :=
  if (msgType =? MessageType.SendInit) || (msgType =? MessageType.ReceiveInit)
  then HandleTransferInit msgType msg
  else if msgType =? MessageType.SendAccept then HandleSendAccept msg
  else if msgType =? MessageType.ReceiveAccept then HandleReceiveAccept msg
  else if msgType =? MessageType.BlockQuery then HandleBlockQuery msg
  else if msgType =? MessageType.BlockQueryWithSkip then HandleBlockQueryWithSkip msg
  else if msgType =? MessageType.Block then HandleBlock msg
  else if msgType =? MessageType.BlockEOF then HandleBlockEOF msg
  else if msgType =? MessageType.BlockAck then HandleBlockAck msg
  else if msgType =? MessageType.BlockAckEOF then HandleBlockAckEOF msg
  else fail CHIP_ERROR_INVALID_MESSAGE_TYPE.

Definition HandleBdxMessage (msgType : Z) (msg : PBuf) : M St unit :=
  let! s := self in
  verify (bool_decide (mPendingOutput s = kNone)) CHIP_ERROR_INCORRECT_STATE ;;
  dispatch msgType msg.

Definition HandleStatusReportMessage (msg : PBuf) : M St unit :=
  upd (set_mState kErrorState) ;;
  upd (set_mAwaitingResponse false) ;;
  let! report := on_heap (StatusReport_Parse INET_CONFIG_ENABLE_TCP_ENDPOINT (data msg)) in
  verify ((GetVendorId (mProtocolId report) =? GetVendorId BDX_Id) &&
          (GetProtocolId (mProtocolId report) =? GetProtocolId BDX_Id)) CHIP_ERROR_INVALID_MESSAGE_TYPE ;;
  upd (set_mStatusReportData (mProtocolCode report)) ;;
  upd (set_mPendingOutput kStatusReceived).

Definition HasProtocol (h : PayloadHeader) (id : ProtocolId) : bool :=
  (GetVendorId (mProtocolID h) =? GetVendorId id) && (GetProtocolId (mProtocolID h) =? GetProtocolId id).

Definition HandleMessageReceived (payloadHeader : PayloadHeader) (msg : option PBuf) (curTime : Z) :
  M St unit :=
  match msg with
  | None => fail CHIP_ERROR_INVALID_ARGUMENT
  | Some msg =>
      if HasProtocol payloadHeader BDX_Id then
        HandleBdxMessage (mMessageType payloadHeader) msg ;;
        upd (set_mTimeoutStartTime curTime)
      else if HasProtocol payloadHeader SecureChannel_Id &&
              (mMessageType payloadHeader =? MsgType_StatusReport) then
        HandleStatusReportMessage msg
      else fail CHIP_ERROR_INVALID_MESSAGE_TYPE
  end.

End Operations.

(** ** Reasoning about one call

    [wp m Q s]: whatever the heap, if [m] run on [s] does not end in undefined behaviour
    (which is when no packet can be had) it ends in a result and a state with [Q]. *)

Section WP.
Context `{PM : PlatformMemory} `{BO : ByteOrder} (tcp : bool).

Definition wp {A} (m : M St A) (Q : result A -> t -> Prop) (s : t) : Prop :=
  forall h r s' h', m (s, h) = (r, (s', h')) -> r <> Err UNDEFINED_BEHAVIOUR -> Q r s'.

Lemma wp_mono {A} (m : M St A) (P Q : result A -> t -> Prop) s :
  wp m P s -> (forall r s', P r s' -> Q r s') -> wp m Q s.
Proof. intros H HPQ h r s' h' E Hr; eauto. Qed.

Lemma wp_bind {A B} (m : M St A) (k : A -> M St B) Q s :
  wp m (fun r s' => match r with Ok a => wp (k a) Q s' | Err e => Q (Err e) s' end) s ->
  wp (bind m k) Q s.
Proof.
  intros H h r s' h' E Hr; unfold bind in E.
  destruct (m (s, h)) as [[a|e] [s1 h1]] eqn:Em; simplify_eq.
  - eapply (H _ _ _ _ Em); [done|exact E|exact Hr].
  - eapply (H _ _ _ _ Em); congruence.
Qed.

Lemma wp_ret {A} (a : A) Q s : Q (Ok a) s -> wp (ret a) Q s.
Proof. by intros H h r s' h' [=] _; simplify_eq. Qed.

Lemma wp_fail {A} e Q s : Q (@Err A e) s -> wp (fail e) Q s.
Proof. by intros H h r s' h' [=] _; simplify_eq. Qed.

Lemma wp_self Q s : Q (Ok s) s -> wp self Q s.
Proof. by intros H h r s' h' [=] _; simplify_eq. Qed.

Lemma wp_upd f Q s : Q (Ok tt) (f s) -> wp (upd f) Q s.
Proof. by intros H h r s' h' [=] _; simplify_eq. Qed.

Lemma wp_verify (b : bool) e Q s :
  (b = true -> Q (Ok tt) s) -> (b = false -> Q (Err e) s) -> wp (verify b e) Q s.
Proof. destruct b; intros H1 H2; [by apply wp_ret, H1|by apply wp_fail, H2]. Qed.

Lemma wp_when (b : bool) m Q s :
  (b = true -> wp m Q s) -> (b = false -> Q (Ok tt) s) -> wp (when b m) Q s.
Proof. destruct b; intros H1 H2; [by apply H1|by apply wp_ret, H2]. Qed.

Lemma wp_attempt {A} (m : M St A) Q s :
  wp m (fun r s' => r <> Err PROGRAM_ABORT /\ Q (Ok (status r)) s') s -> wp (attempt m) Q s.
Proof.
  intros H h r s' h' E Hr; unfold attempt in E.
  destruct (m (s, h)) as [[a|e] [s1 h1]] eqn:Em.
  - simplify_eq; by apply (H _ _ _ _ Em).
  - destruct (decide (e = UNDEFINED_BEHAVIOUR)) as [->|Hub]; [by simplify_eq|].
    destruct (H _ _ _ _ Em) as [Hab HQ]; [congruence|].
    destruct e; simplify_eq; done.
Qed.

(** A packet for the peer. *)
Lemma wp_WriteToPending write enc Q s :
  (forall b log, write (writer_of b log) = writer_of b (log ++ (Some <$> enc))) ->
  (forall q, data q = enc -> Z.of_nat (length enc) < 65536 ->
     Q (Ok tt) (set_mPendingMsgHandle (Some q) s)) ->
  wp (WriteToPending tcp write) Q s.
Proof.
  intros Hw HQ h r s' h' E Hr; unfold WriteToPending in E.
  pose proof (written_packet_spec tcp write enc h Hw) as HW.
  destruct (written_packet tcp write h) as [[q|e] h1]; simplify_eq; [by apply HQ; apply HW|].
  destruct HW as [-> _]; done.
Qed.

Lemma wp_message {A} `{MessageLaws A} (m : A) Q s :
  (forall q, data q = encoding m -> Z.of_nat (length (encoding m)) < 65536 ->
     Q (Ok tt) (set_mPendingMsgHandle (Some q) s)) ->
  wp (WriteToPending tcp (WriteToBuffer m)) Q s.
Proof. apply wp_WriteToPending, write_log. Qed.

(** A status report: it takes the place of whatever output was pending. *)
Definition reported (code : Z) (q : PBuf) (s : t) : t :=
  set_mAwaitingResponse false (set_mState kErrorState
    (set_mMsgTypeData (MkTypeData SecureChannel_Id MsgType_StatusReport)
      (set_mPendingOutput kMsgToSend (set_mPendingMsgHandle (Some q) (set_mStatusReportData code s))))).

Lemma wp_report code Q s :
  (forall q, data q = report_bytes GeneralStatusCode_kFailure BDX_Id code -> Q (Ok tt) (reported code q s)) ->
  wp (PrepareStatusReport tcp code) Q s.
Proof.
  intros HQ; unfold PrepareStatusReport; apply wp_bind, wp_upd, wp_bind, wp_attempt.
  eapply wp_WriteToPending; [apply report_write_log|]; intros q Hq _; cbn [status]; split; [done|].
  rewrite bool_decide_eq_true_2 by done; unfold PrepareOutgoingMessageEvent.
  apply wp_bind, wp_upd, wp_bind, wp_upd, wp_upd; by apply HQ.
Qed.

Lemma wp_or_report (cond : bool) code rest Q s :
  (cond = true -> wp rest Q s) -> (cond = false -> wp (PrepareStatusReport tcp code) Q s) ->
  wp (or_report tcp cond code rest) Q s.
Proof. destruct cond; auto. Qed.

Lemma wp_parsing {A} `{BdxMessage A} msg (k : A -> M St unit) Q s :
  (forall m, Parse (data msg) = Ok m -> wp (k m) Q s) ->
  (forall e, Parse (A := A) (data msg) = Err e ->
     wp (PrepareStatusReport tcp StatusCode.kBadMessageContents) Q s) ->
  wp (parsing tcp msg k) Q s.
Proof. intros H1 H2; unfold parsing; destruct (Parse (data msg)) eqn:E; [by apply H1|by eapply H2]. Qed.

Lemma wp_on_heap {A} (m : M heap A) Q s : (forall r, Q r s) -> wp (on_heap m) Q s.
Proof.
  intros HQ h r s' h' E _; unfold on_heap in E; destruct (m h) as [r1 h1]; by simplify_eq.
Qed.

(** One goal per handler. *)
Lemma wp_dispatch ty msg Q s :
  (ty = MessageType.SendInit \/ ty = MessageType.ReceiveInit -> wp (HandleTransferInit tcp ty msg) Q s) ->
  (ty = MessageType.SendAccept -> wp (HandleSendAccept tcp msg) Q s) ->
  (ty = MessageType.ReceiveAccept -> wp (HandleReceiveAccept tcp msg) Q s) ->
  (ty = MessageType.BlockQuery -> wp (HandleBlockQuery tcp msg) Q s) ->
  (ty = MessageType.BlockQueryWithSkip -> wp (HandleBlockQueryWithSkip tcp msg) Q s) ->
  (ty = MessageType.Block -> wp (HandleBlock tcp msg) Q s) ->
  (ty = MessageType.BlockEOF -> wp (HandleBlockEOF tcp msg) Q s) ->
  (ty = MessageType.BlockAck -> wp (HandleBlockAck tcp msg) Q s) ->
  (ty = MessageType.BlockAckEOF -> wp (HandleBlockAckEOF tcp msg) Q s) ->
  Q (Err CHIP_ERROR_INVALID_MESSAGE_TYPE) s ->
  wp (dispatch tcp ty msg) Q s.
Proof.
  intros H0 H1 H2 H3 H4 H5 H6 H7 H8 H9; unfold dispatch.
  destruct (Z.eqb_spec ty MessageType.SendInit); [by apply H0; left|].
  destruct (Z.eqb_spec ty MessageType.ReceiveInit); [by apply H0; right|].
  destruct (Z.eqb_spec ty MessageType.SendAccept); [by apply H1|].
  destruct (Z.eqb_spec ty MessageType.ReceiveAccept); [by apply H2|].
  destruct (Z.eqb_spec ty MessageType.BlockQuery); [by apply H3|].
  destruct (Z.eqb_spec ty MessageType.BlockQueryWithSkip); [by apply H4|].
  destruct (Z.eqb_spec ty MessageType.Block); [by apply H5|].
  destruct (Z.eqb_spec ty MessageType.BlockEOF); [by apply H6|].
  destruct (Z.eqb_spec ty MessageType.BlockAck); [by apply H7|].
  destruct (Z.eqb_spec ty MessageType.BlockAckEOF); [by apply H8|].
  by apply wp_fail.
Qed.
End WP.

(** [wp_run] runs an operation, splitting at its checks; the goals that are left are the
    outcomes. *)
Ltac wp_run :=
  repeat first
    [ progress cbv beta iota zeta
    | lazymatch goal with
      | |- wp (bind _ _) _ _ => apply wp_bind
      | |- wp (ret _) _ _ => apply wp_ret
      | |- wp (fail _) _ _ => apply wp_fail
      | |- wp self _ _ => apply wp_self
      | |- wp (upd _) _ _ => apply wp_upd
      | |- wp (verify _ _) _ _ => apply wp_verify; let H := fresh "Hc" in intros H
      | |- wp (when _ _) _ _ => apply wp_when; let H := fresh "Hc" in intros H
      | |- wp (or_report _ _ _ _) _ _ => apply wp_or_report; let H := fresh "Hc" in intros H
      | |- wp (PrepareStatusReport _ _) _ _ =>
          apply wp_report; let q := fresh "q" in let H := fresh "Hq" in intros q H
      | |- wp (WriteToPending _ (WriteToBuffer _)) _ _ =>
          eapply wp_message; let q := fresh "q" in let H := fresh "Hq" in let L := fresh "Hl" in intros q H L
      | |- wp (PrepareOutgoingMessageEvent _ _) _ _ => apply wp_upd
      | |- wp (attempt _) _ _ => apply wp_attempt
      | |- _ <> Err PROGRAM_ABORT /\ _ => split; [done|cbn [status]]
      | |- wp (parsing _ _ _) _ _ =>
          apply wp_parsing; let m := fresh "m" in let H := fresh "Hp" in intros m H
      | |- wp (on_heap _) _ _ => apply wp_on_heap; intros []
      | |- wp (if ?b then _ else _) _ _ => let H := fresh "Hc" in destruct b eqn:H
      | |- wp (match ?x with Some _ => _ | None => _ end) _ _ => let H := fresh "Hx" in destruct x eqn:H
      end ].

End TransferSession.
