(* ===== verification/BdxTransfer.v ===== *)
(** * BdxTransfer: two ends and a network

    Two [TransferSession]s, one that sends and one that receives, their applications and
    a network that may lose, repeat and reorder messages (src/src/protocols/bdx).

    - [world] and [step]: every call of an application, every poll, every delivery of a
      message that was sent once, as a transition;
    - the invariants of the two ends and of the messages, kept by each operation;
    - what the receiving application is handed is always a beginning of what the sending
      application gave, and all of it when the transfer is over. *)

From stdpp Require Import relations.
From S2P Require Import Prelude Encoding PacketBuffer MessageHeader BdxMessages BdxSession.
Import TransferSession.

(** A block of data and whether it ends the file. *)
Definition block : Type := bytes * bool.
Definition blk (b : BlockData) : block := (span_bytes (bd_Data b), bd_IsEof b).

Definition message : Type := MessageTypeData * bytes.

(** The calls an application makes. *)
Inductive call :=
| CallStart (initData : TransferInitData) (timeout : Z)
| CallWait (xferControlOpts maxBlockSize timeout : Z)
| CallAccept (acceptData : TransferAcceptData)
| CallReject (reason : Z)
| CallBlockQuery
| CallBlockQueryWithSkip (bytesToSkip : Z)
| CallBlock (inData : BlockData)
| CallBlockAck
| CallAbort (reason : Z).

Section System.
Context `{PM : PlatformMemory} `{BO : ByteOrder} (tcp : bool).

Definition run (role : TransferRole) (c : call) : M St unit :=
  match c with
  | CallStart initData timeout => StartTransfer tcp role initData timeout
  | CallWait opts size timeout => WaitForTransfer role opts size timeout
  | CallAccept acceptData => AcceptTransfer tcp acceptData
  | CallReject reason => RejectTransfer tcp reason
  | CallBlockQuery => PrepareBlockQuery tcp
  | CallBlockQueryWithSkip n => PrepareBlockQueryWithSkip tcp n
  | CallBlock inData => PrepareBlock tcp inData
  | CallBlockAck => PrepareBlockAck tcp
  | CallAbort reason => AbortTransfer tcp reason
  end.

(** The blocks the session took from its application. *)
Definition given (c : call) (r : result unit) : list block :=
  match c, r with
  | CallBlock inData, Ok _ => [blk inData]
  | _, _ => []
  end.

Definition event_messages (e : OutputEvent) : list message :=
  match e with MsgToSendEvent ty (Some q) => [(ty, data q)] | _ => [] end.
Definition event_blocks (e : OutputEvent) : list block :=
  match e with BlockDataEvent b _ => [blk b] | _ => [] end.

(** The messages are all that were ever sent; they stay, so each may arrive any number of
    times and in any order, or never. *)
Record world := MkWorld {
  sender : t;
  receiver : t;
  memory : heap;
  to_receiver : list message;
  to_sender : list message;
  sent : list block;
  delivered : list block }.

Definition new_world (role role' : TransferRole) (mode mode' status status' : Z) (h : heap) : world :=
  MkWorld (TransferSession.new role mode status) (TransferSession.new role' mode' status') h [] [] [] [].

(** What the receiving application keeps to: in sender drive it does not query, and it
    does not acknowledge before it has been handed a block.  [PrepareBlockQuery] and
    [PrepareBlockAck] refuse neither. *)
Definition allowed (w : world) (c : call) : Prop :=
  mControlMode (receiver w) = TransferControlFlags.kSenderDrive ->
  match c with
  | CallBlockQuery | CallBlockQueryWithSkip _ => False
  | CallBlockAck => delivered w <> []
  | _ => True
  end.

(** The header of a packet that carries a message of the type. *)
Definition carries (hdr : PayloadHeader) (ty : MessageTypeData) : Prop :=
  mProtocolID hdr = ProtocolId_ ty /\ mMessageType hdr = MessageType_ ty.

Inductive step (w : world) : world -> Prop :=
| sender_calls c r s' h' :
    run kSender c (sender w, memory w) = (r, (s', h')) -> r <> Err UNDEFINED_BEHAVIOUR ->
    step w (MkWorld s' (receiver w) h' (to_receiver w) (to_sender w) (sent w ++ given c r) (delivered w))
| receiver_calls c r s' h' :
    allowed w c ->
    run kReceiver c (receiver w, memory w) = (r, (s', h')) -> r <> Err UNDEFINED_BEHAVIOUR ->
    step w (MkWorld (sender w) s' h' (to_receiver w) (to_sender w) (sent w) (delivered w))
| sender_polls curTime e s' h' :
    PollOutput curTime (sender w, memory w) = (Ok e, (s', h')) ->
    step w (MkWorld s' (receiver w) h' (to_receiver w ++ event_messages e) (to_sender w)
              (sent w) (delivered w))
| receiver_polls curTime e s' h' :
    PollOutput curTime (receiver w, memory w) = (Ok e, (s', h')) ->
    step w (MkWorld (sender w) s' h' (to_receiver w) (to_sender w ++ event_messages e)
              (sent w) (delivered w ++ event_blocks e))
| sender_hears ty d hdr msg curTime r s' h' :
    (ty, d) ∈ to_sender w -> carries hdr ty -> data msg = d ->
    HandleMessageReceived tcp hdr (Some msg) curTime (sender w, memory w) = (r, (s', h')) ->
    r <> Err UNDEFINED_BEHAVIOUR ->
    step w (MkWorld s' (receiver w) h' (to_receiver w) (to_sender w) (sent w) (delivered w))
| receiver_hears ty d hdr msg curTime r s' h' :
    (ty, d) ∈ to_receiver w -> carries hdr ty -> data msg = d ->
    HandleMessageReceived tcp hdr (Some msg) curTime (receiver w, memory w) = (r, (s', h')) ->
    r <> Err UNDEFINED_BEHAVIOUR ->
    step w (MkWorld (sender w) s' h' (to_receiver w) (to_sender w) (sent w) (delivered w)).

(** ** Invariants *)

Definition whole (l : list block) : Prop := exists pre d, l = pre ++ [(d, true)].
Definition unfinished (l : list block) : Prop := Forall (fun b => b.2 = false) l.

(** The message that waits to be sent. *)
Definition outbox (s : t) : list message :=
  if bool_decide (mPendingOutput s = kMsgToSend)
  then match mPendingMsgHandle s with Some q => [(mMsgTypeData s, data q)] | None => [] end
  else [].

(** The block that waits to be handed to the application. *)
Definition held (s : t) : list block :=
  if bool_decide (mPendingOutput s = kBlockReceived) then [blk (mBlockEventData s)] else [].

Definition bdx (msgType : Z) : MessageTypeData := MkTypeData BDX_Id msgType.

Definition block_message (l : list block) (m : message) : Prop :=
  forall eof : bool, m.1 = bdx (if eof then MessageType.BlockEOF else MessageType.Block) ->
  exists i d, l !! i = Some (d, eof) /\
    m.2 = le_split 4 (wrap 32 (Z.of_nat i)) ++ d /\ Z.of_nat (length m.2) < 65536.

Definition ack_message (l : list block) (m : message) : Prop :=
  m.1 = bdx MessageType.BlockAckEOF -> whole l.

Definition before_transfer (st : TransferState) : bool :=
  match st with
  | kUnitialized | kAwaitingInitMsg | kAwaitingAccept | kNegotiateTransferParams => true
  | _ => false
  end.

(** The states in which the role of the session counts. *)
Definition live (st : TransferState) : bool :=
  match st with kUnitialized | kErrorState => false | _ => true end.

Record sender_inv (l : list block) (s : t) : Prop := {
  s_role : live (mState s) = true -> mRole s = kSender;
  s_next : mNextBlockNum s = wrap 32 (Z.of_nat (length l));
  s_before : before_transfer (mState s) = true -> l = [];
  s_progress : mState s = kTransferInProgress -> unfinished l;
  s_eof_last : forall pre b, l = pre ++ [b] -> unfinished pre;
  s_outbox : Forall (block_message l) (outbox s) }.

Definition count (l : list block) : Z := wrap 32 (Z.of_nat (length l)).

(** [taken] is what the session accepted and did not lose. *)
Record receiver_progress (taken : list block) (s : t) : Prop := {
  p_unfinished : unfinished taken;
  p_last : mLastBlockNum s = wrap 32 (Z.of_nat (length taken - 1));
  p_awaited : mAwaitingResponse s = true -> mLastQueryNum s = count taken;
  p_driven : mControlMode s = TransferControlFlags.kSenderDrive ->
             mAwaitingResponse s = true \/ taken <> [];
  p_driving : mControlMode s <> TransferControlFlags.kSenderDrive ->
              mNextQueryNum s =
                wrap 32 (Z.of_nat (length taken + (if mAwaitingResponse s then 1 else 0))) }.

Definition receiver_stage (taken : list block) (s : t) : Prop :=
  match mState s with
  | kUnitialized | kAwaitingInitMsg | kAwaitingAccept | kNegotiateTransferParams =>
      taken = [] /\ mLastBlockNum s = 0 /\ mLastQueryNum s = 0 /\ mNextQueryNum s = 0 /\
      (mAwaitingResponse s = true -> mState s = kAwaitingAccept)
  | kTransferInProgress => receiver_progress taken s
  | kReceivedEOF => whole taken
  | _ => True
  end.

Record receiver_inv (l dl : list block) (s : t) : Prop := {
  r_role : live (mState s) = true -> mRole s = kReceiver;
  r_prefix : dl ++ held s `prefix_of` l;
  r_stage : receiver_stage (dl ++ held s) s;
  r_outbox : Forall (ack_message dl) (outbox s) }.

Record world_inv (w : world) : Prop := {
  w_sender : sender_inv (sent w) (sender w);
  w_receiver : receiver_inv (sent w) (delivered w) (receiver w);
  w_blocks : Forall (block_message (sent w)) (to_receiver w);
  w_acks : Forall (ack_message (delivered w)) (to_sender w);
  w_done : mState (sender w) = kTransferDone -> sent w = [] \/ whole (delivered w) }.

(** ** The sending end *)

Create HintDb bdx discriminated.
#[local] Hint Unfold StartTransfer WaitForTransfer AcceptTransfer RejectTransfer PrepareBlockQuery
  PrepareBlockQueryWithSkip PrepareBlock PrepareBlockAck AbortTransfer may_prepare : bdx.

(** Checks that succeeded or failed, as propositions. *)
Ltac checked :=
  repeat match goal with
  | H : bool_decide _ = true |- _ => apply bool_decide_eq_true in H
  | H : bool_decide _ = false |- _ => apply bool_decide_eq_false in H
  | H : (_ && _)%bool = true |- _ => apply andb_true_iff in H; destruct H
  | H : (_ || _)%bool = false |- _ => apply orb_false_iff in H; destruct H
  | H : negb _ = true |- _ => apply negb_true_iff in H
  | H : negb _ = false |- _ => apply negb_false_iff in H
  | H : (_ =? _) = true |- _ => apply Z.eqb_eq in H
  | H : (_ =? _) = false |- _ => apply Z.eqb_neq in H
  end.

Lemma block_message_other l ty d :
  ty <> bdx MessageType.Block -> ty <> bdx MessageType.BlockEOF -> block_message l (ty, d).
Proof. intros H1 H2 [] E; cbn in E; subst; done. Qed.

Lemma block_message_more l b m : block_message l m -> block_message (l ++ b) m.
Proof.
  intros H eof E; destruct (H eof E) as (i & d & Hi & Hm); exists i, d; split; [|done].
  by apply lookup_app_l_Some.
Qed.

(** The invariant of the sending end, when no block is taken. *)
Lemma sender_keep l s s' :
  sender_inv l s -> mNextBlockNum s' = mNextBlockNum s ->
  (live (mState s') = true -> mRole s' = kSender) ->
  (before_transfer (mState s') = true -> before_transfer (mState s) = true) ->
  (mState s' = kTransferInProgress -> mState s = kTransferInProgress \/ before_transfer (mState s) = true) ->
  Forall (block_message l) (outbox s') -> sender_inv l s'.
Proof.
  intros I Hn Hr Hb Hp Ho; constructor; auto.
  - rewrite Hn; apply I.
  - intros H; by apply (s_before l s I), Hb.
  - intros H; destruct (Hp H) as [H'|H']; [by apply (s_progress l s I)|].
    rewrite (s_before l s I H'); constructor.
  - apply I.
Qed.

Ltac sender_kept I :=
  eapply sender_keep; [exact I|..]; unfold outbox; cbn;
    [done
    |first [done | exact (s_role _ _ I)
           |by intros _; apply (s_role _ _ I); match goal with H : mState _ = _ |- _ => rewrite H end]
    |first [done | by intros; congruence | by intros _; match goal with H : mState _ = _ |- _ => rewrite H end]
    |first [done | by left | by intros; left; congruence
           |by intros _; right; match goal with H : mState _ = _ |- _ => rewrite H end]
    |first [exact (s_outbox _ _ I)
           |by repeat constructor; apply block_message_other]].

(** A block is taken and waits to be sent. *)
Lemma sender_take l s s' (b : block) d :
  sender_inv l s -> mState s = kTransferInProgress ->
  mNextBlockNum s' = mNextBlockNum s +{32} 1 -> mRole s' = kSender ->
  mState s' = (if b.2 then kAwaitingEOFAck else kTransferInProgress) ->
  outbox s' = [(bdx (if b.2 then MessageType.BlockEOF else MessageType.Block), d)] ->
  d = le_split 4 (mNextBlockNum s) ++ b.1 -> Z.of_nat (length d) < 65536 ->
  sender_inv (l ++ [b]) s'.
Proof.
  intros I Hs Hn Hr Hs' Ho Hd Hl; destruct b as [b eof]; cbn [fst snd] in *.
  pose proof (s_progress _ _ I Hs) as Hu; constructor.
  - done.
  - rewrite Hn, (s_next _ _ I), length_app, wrap_add_l; cbn; f_equal; lia.
  - rewrite Hs'; by destruct eof.
  - rewrite Hs'; destruct eof; [done|]; intros _; apply Forall_app; repeat constructor; done.
  - intros pre x [-> _]%app_inj_tail; exact Hu.
  - rewrite Ho; repeat constructor; intros eof' E; cbn in *.
    assert (eof' = eof) as -> by (destruct eof, eof'; done).
    exists (length l), b; rewrite Hd, (s_next _ _ I) in *; split; [|done].
    by apply list_lookup_middle.
Qed.

Lemma sender_call_ok l s c :
  sender_inv l s ->
  wp (run kSender c) (fun r s' => sender_inv (l ++ given c r) s' /\
    (mState s' = kTransferDone -> given c r = [] /\ (mState s = kTransferDone \/ l = []))) s.
Proof.
  intros I; destruct c; cbn [run given]; autounfold with bdx; wp_run; checked;
    rewrite ?app_nil_r; try (split; [exact I|by split; [|left]]).
  all: try (split; [sender_kept I|cbn; first [done|by intros; split; [|left; congruence]]]).
  all: try solve [exfalso; pose proof (s_role _ _ I) as Hr;
    match goal with H : (_ || _)%bool = true |- _ => apply orb_true_iff in H as [|] end; try done; checked;
    match goal with H : mState _ = _ |- _ => rewrite H in Hr end; specialize (Hr eq_refl); congruence].
  - split; [sender_kept I|intros _; split; [done|right; apply (s_before _ _ I); by rewrite Hc]].
  - split; [|done]; destruct (bd_IsEof inData) eqn:E; [|done].
    apply (sender_take _ _ _ _ (data q) I); cbn [blk snd]; rewrite ?E; try done;
      by rewrite Hq.
  - split; [|by cbn; intros; congruence]; destruct (bd_IsEof inData) eqn:E; [done|].
    apply (sender_take _ _ _ _ (data q) I); cbn [blk snd]; rewrite ?E; try done;
      by rewrite Hq.
Qed.

(** ** Polling

    What waits is handed out once, and nothing else of the transfer changes but that a
    timeout ends it. *)

Record polled (s : t) (e : OutputEvent) (s' : t) : Prop := {
  po_role : mRole s' = mRole s;
  po_mode : mControlMode s' = mControlMode s;
  po_counters : mLastBlockNum s' = mLastBlockNum s /\ mNextBlockNum s' = mNextBlockNum s /\
                mLastQueryNum s' = mLastQueryNum s /\ mNextQueryNum s' = mNextQueryNum s;
  po_state : mState s' = mState s /\ mAwaitingResponse s' = mAwaitingResponse s \/
             mState s' = kErrorState;
  po_messages : event_messages e ++ outbox s' = outbox s;
  po_blocks : event_blocks e ++ held s' = held s }.

Lemma PollOutput_ok curTime s :
  wp (PollOutput curTime) (fun r s' => exists e, r = Ok e /\ polled s e s') s.
Proof.
  unfold PollOutput; wp_run.
  all: try (eexists; split; [reflexivity|constructor; cbn; auto]).
  all: cbn; destruct (mPendingOutput s) eqn:Ep; wp_run; eexists; split; try reflexivity;
    constructor; cbn; auto; unfold outbox, held; cbn; rewrite Ep; try done.
  all: try (by case_bool_decide).
  all: cbn; by destruct (mPendingMsgHandle s).
Qed.

Lemma polled_run curTime s h e s' h' :
  PollOutput curTime (s, h) = (Ok e, (s', h')) -> polled s e s'.
Proof. intros E; destruct (PollOutput_ok curTime s h _ _ _ E) as (e' & [= <-] & H); done. Qed.

Lemma sender_poll_ok l s e s' :
  sender_inv l s -> polled s e s' ->
  sender_inv l s' /\ Forall (block_message l) (event_messages e) /\
  (mState s' = kTransferDone -> mState s = kTransferDone).
Proof.
  intros I H; pose proof (s_outbox _ _ I) as Ho; rewrite <-(po_messages _ _ _ H) in Ho.
  apply Forall_app in Ho as [He Ho]; destruct (po_state _ _ _ H) as [[Hs _]|Hs]; rewrite Hs.
  - split_and!; [|done..]; eapply sender_keep; [exact I|apply H|..]; rewrite ?Hs; auto.
    rewrite (po_role _ _ _ H); apply I.
  - split_and!; [|done..]; eapply sender_keep; [exact I|apply H|..]; rewrite ?Hs; done.
Qed.

(** ** What the sending end hears *)


#[local] Hint Unfold HandleTransferInit HandleSendAccept HandleReceiveAccept HandleBlockQuery
  HandleBlockQueryWithSkip HandleBlock HandleBlockEOF HandleBlockAck HandleBlockAckEOF
  ResolveTransferControlOptions VerifyProposedMode accepted expecting block_received : bdx.

Lemma sender_hear_bdx l s ty msg :
  sender_inv l s -> mPendingOutput s = kNone ->
  wp (dispatch tcp ty msg)
     (fun _ s' => sender_inv l s' /\
        (mState s' = kTransferDone -> mState s = kTransferDone \/ ty = MessageType.BlockAckEOF)) s.
Proof.
  intros I Hp; apply wp_dispatch; intros; autounfold with bdx; wp_run; checked; try done.
  all: try (split; [sender_kept I|cbn; first [done|by left|by right|by intros; left; congruence]]).
Qed.

Lemma HasProtocol_eq hdr id : HasProtocol hdr id = true -> mProtocolID hdr = id.
Proof.
  unfold HasProtocol; intros [H1%Z.eqb_eq H2%Z.eqb_eq]%andb_true_iff.
  destruct (mProtocolID hdr), id; cbn in *; congruence.
Qed.

Lemma sender_hear_ok l s hdr msg curTime :
  sender_inv l s ->
  wp (HandleMessageReceived tcp hdr (Some msg) curTime)
     (fun _ s' => sender_inv l s' /\
        (mState s' = kTransferDone ->
         mState s = kTransferDone \/ carries hdr (bdx MessageType.BlockAckEOF))) s.
Proof.
  intros I; unfold HandleMessageReceived, HandleBdxMessage, HandleStatusReportMessage; wp_run; checked;
    try (split; [exact I|by left]).
  - eapply wp_mono; [by apply (sender_hear_bdx l)|].
    apply HasProtocol_eq in Hc; intros [] s' [I' Hd];
      (assert (mState s' = kTransferDone -> mState s = kTransferDone \/
         carries hdr (bdx MessageType.BlockAckEOF)) as Hd'
         by (intros Hs; destruct (Hd Hs); [by left|by right]));
      [apply wp_upd|]; split; auto; sender_kept I'.
  - split; [sender_kept I|done].
  - split; [sender_kept I|done].
  - split; [sender_kept I|done].
Qed.

(** ** The receiving end *)

Lemma prefix_held (l dl h : list block) : dl ++ h `prefix_of` l -> dl `prefix_of` l.
Proof. intros [k ->]; exists (h ++ k); by rewrite app_assoc. Qed.

Lemma ack_message_other l ty d : ty <> bdx MessageType.BlockAckEOF -> ack_message l (ty, d).
Proof. intros H E; cbn in E; done. Qed.

(** Whatever else happens, an error leaves what was handed out. *)
Lemma receiver_over l dl s s' :
  receiver_inv l dl s -> mState s' = kErrorState \/ mState s' = kTransferDone /\ mRole s' = kReceiver ->
  held s' = [] -> Forall (ack_message dl) (outbox s') -> receiver_inv l dl s'.
Proof.
  intros I Hs Hh Ho; constructor; auto.
  - destruct Hs as [->|[-> ?]]; done.
  - rewrite Hh, app_nil_r; eapply prefix_held, I.
  - unfold receiver_stage; by destruct Hs as [->|[-> _]].
Qed.

Ltac receiver_ended I :=
  eapply receiver_over; [exact I|cbn; first [by left|by right; split; [|apply (r_role _ _ _ I);
      match goal with H : mState _ = _ |- _ => rewrite H end]]
    |done|by unfold outbox; cbn; repeat constructor; apply ack_message_other].

(** A status report ends the transfer; what waits is still handed out. *)
Lemma receiver_stopped l dl s :
  receiver_inv l dl s -> receiver_inv l dl (set_mAwaitingResponse false (set_mState kErrorState s)).
Proof. intros I; constructor; [done|apply (r_prefix _ _ _ I)|done|apply (r_outbox _ _ _ I)]. Qed.

(** A step of the session that neither takes nor hands out a block. *)
Lemma receiver_move l dl s s' :
  receiver_inv l dl s -> held s' = [] -> (live (mState s') = true -> mRole s' = kReceiver) ->
  receiver_stage dl s' -> Forall (ack_message dl) (outbox s') -> receiver_inv l dl s'.
Proof.
  intros I Hh Hr Hs Ho; constructor; rewrite ?Hh, ?app_nil_r; auto.
  eapply prefix_held, I.
Qed.

Lemma receiver_fresh l dl s :
  receiver_inv l dl s -> before_transfer (mState s) = true ->
  dl = [] /\ held s = [] /\ mLastBlockNum s = 0 /\ mLastQueryNum s = 0 /\ mNextQueryNum s = 0 /\
  (mAwaitingResponse s = true -> mState s = kAwaitingAccept).
Proof.
  intros I Hb; pose proof (r_stage _ _ _ I) as Hst; unfold receiver_stage in Hst.
  destruct (mState s); try done; destruct Hst as ([]%app_nil & ?); done.
Qed.

Lemma receiver_progressing l dl s :
  receiver_inv l dl s -> mState s = kTransferInProgress -> receiver_progress (dl ++ held s) s.
Proof. intros I Hs; pose proof (r_stage _ _ _ I) as Hst; unfold receiver_stage in Hst; by rewrite Hs in Hst. Qed.

Lemma held_none s : mPendingOutput s = kNone -> held s = [].
Proof. by unfold held; intros ->. Qed.

Ltac receiver_role I :=
  cbn; first [done | by intros _; apply (r_role _ _ _ I);
                     match goal with H : mState _ = _ |- _ => rewrite H end].
Ltac no_ack := by unfold outbox; cbn; repeat constructor; apply ack_message_other.

(** [query]: what both queries do to a session in progress. *)
Lemma query_progress dl s s' :
  receiver_progress dl s -> mAwaitingResponse s = false ->
  mControlMode s <> TransferControlFlags.kSenderDrive ->
  mControlMode s' = mControlMode s -> mLastBlockNum s' = mLastBlockNum s -> mAwaitingResponse s' = true ->
  mLastQueryNum s' = mNextQueryNum s -> mNextQueryNum s' = mNextQueryNum s +{32} 1 ->
  receiver_progress dl s'.
Proof.
  intros [H1 H2 H3 H4 H5] Ha Hm Em El Ea Eq En; specialize (H5 Hm); rewrite Ha in H5.
  constructor; rewrite ?Em, ?El, ?Ea, ?Eq, ?En, ?H5; auto.
  - intros _; unfold count; do 2 f_equal; lia.
  - intros _; rewrite wrap_add_l; f_equal; lia.
Qed.

Lemma receiver_call_ok l dl s c :
  receiver_inv l dl s ->
  (mControlMode s = TransferControlFlags.kSenderDrive ->
     match c with
     | CallBlockQuery | CallBlockQueryWithSkip _ => False
     | CallBlockAck => dl <> []
     | _ => True
     end) ->
  wp (run kReceiver c) (fun _ s' => receiver_inv l dl s') s.
Proof.
  intros I Ha; destruct c; cbn [run]; autounfold with bdx; wp_run; checked; try exact I.
  all: try solve [receiver_ended I].
  all: try solve [exfalso; pose proof (r_role _ _ _ I) as Hr;
    match goal with H : mState _ = _ |- _ => rewrite H in Hr end; specialize (Hr eq_refl); congruence].
  - destruct (receiver_fresh _ _ _ I) as (-> & _ & H1 & H2 & H3 & _); [by rewrite Hc|].
    apply (receiver_move _ _ _ _ I); [done|done| |no_ack].
    unfold receiver_stage; cbn; done.
  - destruct (receiver_fresh _ _ _ I) as (-> & Hh & H1 & H2 & H3 & H4); [by rewrite Hc|].
    apply (receiver_move _ _ _ _ I); [exact Hh|done| |apply (r_outbox _ _ _ I)].
    unfold receiver_stage; cbn; split_and!; auto; intros Haw; specialize (H4 Haw); congruence.
  - destruct (receiver_fresh _ _ _ I) as (-> & _ & H1 & H2 & H3 & H4); [by rewrite Hc|].
    apply (receiver_move _ _ _ _ I); [done|receiver_role I| |no_ack].
    unfold receiver_stage; cbn; constructor; cbn; rewrite ?H1, ?H2, ?H3; auto; [constructor|].
    match goal with H : (_ || _)%bool = true |- _ => apply orb_true_iff in H as [|] end; checked; congruence.
  - destruct (receiver_fresh _ _ _ I) as (-> & _ & H1 & H2 & H3 & H4); [by rewrite Hc|].
    apply (receiver_move _ _ _ _ I); [done|receiver_role I| |no_ack].
    assert (mAwaitingResponse s = false) as Haw
      by (destruct (mAwaitingResponse s); [specialize (H4 eq_refl); congruence|done]).
    assert (mControlMode s <> TransferControlFlags.kSenderDrive) as Hm.
    { intros Hm; rewrite Hm, Z.eqb_refl, andb_true_r in *; checked.
      pose proof (r_role _ _ _ I) as Hr; rewrite Hc in Hr; specialize (Hr eq_refl); congruence. }
    unfold receiver_stage; cbn; constructor; cbn; rewrite ?H1, ?H2, ?H3, ?Haw; done || constructor.
  - pose proof (receiver_progressing _ _ _ I Hc) as P; rewrite (held_none s), app_nil_r in P by done.
    apply (receiver_move _ _ _ _ I); [done|receiver_role I| |no_ack].
    unfold receiver_stage; cbn; rewrite Hc; by apply (query_progress dl s).
  - pose proof (receiver_progressing _ _ _ I Hc) as P; rewrite (held_none s), app_nil_r in P by done.
    apply (receiver_move _ _ _ _ I); [done|receiver_role I| |no_ack].
    unfold receiver_stage; cbn; rewrite Hc; by apply (query_progress dl s).
  - pose proof (receiver_progressing _ _ _ I ltac:(eassumption)) as P.
    rewrite (held_none s), app_nil_r in P by done.
    apply (receiver_move _ _ _ _ I); [done|receiver_role I| |].
    + unfold receiver_stage; cbn; match goal with H : mState s = _ |- _ => rewrite H end.
      destruct P as [P1 P2 P3 P4 P5]; constructor; cbn; auto; [|done].
      intros _; rewrite P2, wrap_add_l; unfold count; f_equal.
      destruct dl; [by destruct (Ha ltac:(assumption))|cbn; lia].
    + unfold outbox; cbn; rewrite (bool_decide_eq_false_2 (mState s = kReceivedEOF)) by congruence.
      repeat constructor; by apply ack_message_other.
  - pose proof (receiver_progressing _ _ _ I ltac:(eassumption)) as P.
    rewrite (held_none s), app_nil_r in P by done.
    apply (receiver_move _ _ _ _ I); [done|receiver_role I| |].
    + unfold receiver_stage; cbn; match goal with H : mState s = _ |- _ => rewrite H end.
      destruct P as [P1 P2 P3 P4 P5]; constructor; cbn; auto.
    + unfold outbox; cbn; rewrite (bool_decide_eq_false_2 (mState s = kReceivedEOF)) by congruence.
      repeat constructor; by apply ack_message_other.
  - assert (mState s = kReceivedEOF) as Hs by (cbn [orb] in Hc0; by checked).
    pose proof (r_stage _ _ _ I) as Hst; unfold receiver_stage in Hst; rewrite Hs, (held_none s), app_nil_r in Hst by done.
    apply (receiver_move _ _ _ _ I); [done|receiver_role I|done|].
    unfold outbox; cbn; repeat constructor; intros _; exact Hst.
Qed.

(** Only the last block of the file ends it. *)
Definition eof_last (l : list block) : Prop := forall pre b, l = pre ++ [b] -> unfinished pre.

Lemma whole_prefix l dl x : eof_last l -> whole dl -> dl ++ x `prefix_of` l -> x = [].
Proof.
  intros He (pre & d & ->) [k ->]; destruct x as [|b x] using rev_ind; [done|exfalso].
  destruct (@exists_last _ ((x ++ [b]) ++ k)) as (rest & last & E); [by destruct x|].
  assert (unfinished ((pre ++ [(d, true)]) ++ rest)) as Hu.
  { apply (He _ last); by rewrite <-!app_assoc in *; rewrite E. }
  apply Forall_app in Hu as [Hu _]; apply Forall_app in Hu as [_ Hu]; by inversion Hu.
Qed.

Lemma receiver_poll_ok l dl s e s' :
  eof_last l -> receiver_inv l dl s -> polled s e s' ->
  receiver_inv l (dl ++ event_blocks e) s' /\ Forall (ack_message dl) (event_messages e).
Proof.
  intros He I H; pose proof (r_outbox _ _ _ I) as Ho; rewrite <-(po_messages _ _ _ H) in Ho.
  apply Forall_app in Ho as [Hm Ho]; split; [|done].
  pose proof (r_prefix _ _ _ I) as Hp; rewrite <-(po_blocks _ _ _ H), app_assoc in Hp.
  assert (Forall (ack_message (dl ++ event_blocks e)) (outbox s')) as Ho'.
  { eapply Forall_impl; [|exact Ho]; intros m Hmm E; specialize (Hmm E).
    rewrite (whole_prefix l dl (event_blocks e)), app_nil_r; [done..|].
    by apply prefix_held in Hp. }
  pose proof (r_stage _ _ _ I) as Hst; rewrite <-(po_blocks _ _ _ H), app_assoc in Hst.
  destruct (po_counters _ _ _ H) as (C1 & C2 & C3 & C4).
  destruct (po_state _ _ _ H) as [[Hs Ha]|Hs]; constructor; rewrite ?Hs; auto.
  - rewrite (po_role _ _ _ H); apply I.
  - unfold receiver_stage in *; rewrite Hs, ?Ha, ?C1, ?C3, ?C4; destruct (mState s); try done.
    destruct Hst as [P1 P2 P3 P4 P5].
    constructor; rewrite ?(po_mode _ _ _ H), ?Ha, ?C1, ?C3, ?C4; auto.
  - done.
  - unfold receiver_stage; by rewrite Hs.
Qed.

(** The next block of the file, recognised by its counter. *)
Lemma next_block l dl s msg (eof : bool) m :
  receiver_inv l dl s -> Z.of_nat (length l) < 2 ^ 32 ->
  mState s = kTransferInProgress -> mAwaitingResponse s = true -> held s = [] ->
  block_message l (bdx (if eof then MessageType.BlockEOF else MessageType.Block), data msg) ->
  Parse (data msg) = Ok m -> db_BlockCounter m = mLastQueryNum s ->
  dl ++ [(span_bytes (db_Data m), eof)] `prefix_of` l /\
  db_BlockCounter m = wrap 32 (Z.of_nat (length dl)).
Proof.
  intros I Hl Hs Ha Hh Hm Hp Hc; destruct (Hm eof eq_refl) as (i & d & Hi & E & Hlen); cbn [snd] in E, Hlen.
  pose proof (receiver_progressing _ _ _ I Hs) as P; rewrite Hh, app_nil_r in P.
  pose proof (r_prefix _ _ _ I) as Hpre; rewrite Hh, app_nil_r in Hpre.
  assert (length dl <= length l)%nat as Hdl by (by apply prefix_length).
  assert (i < length l)%nat as Hil by (by eapply lookup_lt_Some).
  assert (Parse (data msg) = Ok (MkDataBlock (wrap 32 (Z.of_nat i)) (no_empty (Some d)))) as E'.
  { rewrite E in Hlen |- *; apply parse_block; [apply wrap_range; lia|exact Hlen]. }
  rewrite E' in Hp; injection Hp as <-; cbn [db_BlockCounter db_Data] in *.
  rewrite (p_awaited _ _ P Ha) in Hc; unfold count in Hc.
  rewrite !wrap_small in Hc by (unfold is_uint; lia).
  assert (i = length dl) as -> by (apply Nat2Z.inj; exact Hc).
  split; [|done].
  destruct Hpre as [k ->]; rewrite lookup_app_r, Nat.sub_diag in Hi by done.
  destruct k as [|b k]; [done|]; injection Hi as ->; exists k.
  rewrite <-app_assoc; by destruct d.
Qed.

Lemma receiver_hear_bdx l dl s ty msg :
  receiver_inv l dl s -> Z.of_nat (length l) < 2 ^ 32 -> mPendingOutput s = kNone ->
  block_message l (bdx ty, data msg) ->
  wp (dispatch tcp ty msg) (fun _ s' => receiver_inv l dl s') s.
Proof.
  intros I Hl Hp Hm; apply wp_dispatch; intros; autounfold with bdx; wp_run; checked; try exact I; try done.
  all: try solve [receiver_ended I].
  all: try solve [exfalso; pose proof (r_role _ _ _ I) as Hr;
    match goal with H : mState _ = _ |- _ => rewrite H in Hr end; specialize (Hr eq_refl); congruence].
  all: try solve [destruct (receiver_fresh _ _ _ I) as (-> & _ & H1 & H2 & H3 & H4); [by rewrite Hc|];
    apply (receiver_move _ _ _ _ I); [done|receiver_role I| |by unfold outbox];
    unfold receiver_stage; cbn; split_and!; auto; intros Haw; [done || (specialize (H4 Haw); congruence)]].
  - destruct (receiver_fresh _ _ _ I) as (-> & _ & H1 & H2 & H3 & H4); [by rewrite Hc0|].
    apply (receiver_move _ _ _ _ I); [done|receiver_role I| |by unfold outbox].
    unfold receiver_stage; cbn; constructor; cbn; rewrite ?H1, ?H2, ?H3; auto.
    + constructor.
    + intros ->; by left.
    + intros Hz; by destruct (Z.eqb_spec z TransferControlFlags.kSenderDrive).
  - destruct (next_block l dl s msg false m) as [Hpre Hcount]; [done|done|done|done|by apply held_none|by subst|done|done|].
    pose proof (receiver_progressing _ _ _ I Hc0) as P; rewrite (held_none s), app_nil_r in P by done.
    destruct P as [P1 P2 P3 P4 P5]; constructor; cbn; [by apply (r_role _ _ _ I); rewrite Hc0|exact Hpre| |constructor].
    match goal with |- context [held ?x] => change (held x) with [(span_bytes (db_Data m), false)] end.
    unfold receiver_stage; cbn [mState]; cbn; rewrite Hc0; constructor; cbn; auto.
    + apply Forall_app; repeat constructor; exact P1.
    + by rewrite Hcount, length_app, Nat.add_sub.
    + done.
    + intros _; right; by destruct dl.
    + intros Hm'; rewrite (P5 Hm'), Hc1, length_app; cbn; do 2 f_equal; lia.
  - destruct (next_block l dl s msg true m) as [Hpre Hcount]; [done|done|done|done|by apply held_none|by subst|done|done|].
    constructor; cbn; [by intros _; apply (r_role _ _ _ I); rewrite Hc0|exact Hpre| |constructor].
    unfold receiver_stage; cbn; by exists dl, (span_bytes (db_Data m)).
Qed.

Lemma receiver_hear_ok l dl s hdr ty msg curTime :
  receiver_inv l dl s -> Z.of_nat (length l) < 2 ^ 32 -> carries hdr ty ->
  block_message l (ty, data msg) ->
  wp (HandleMessageReceived tcp hdr (Some msg) curTime) (fun _ s' => receiver_inv l dl s') s.
Proof.
  intros I Hl [Hp Ht] Hm; unfold HandleMessageReceived, HandleBdxMessage, HandleStatusReportMessage.
  wp_run; checked; try exact I;
    try solve [receiver_ended I]; try by apply receiver_stopped.
  apply HasProtocol_eq in Hc; eapply wp_mono; [apply (receiver_hear_bdx l dl); try done|].
  { destruct ty; cbn in *; subst; unfold bdx; by rewrite <-Hc. }
  intros [] s' I'; [apply wp_upd|exact I'].
  pose proof (r_stage _ _ _ I') as Hst.
  constructor; [apply I'|apply (r_prefix _ _ _ I')| |apply (r_outbox _ _ _ I')].
  unfold receiver_stage in *; cbn; destruct (mState s'); try exact Hst.
  destruct Hst; constructor; auto.
Qed.

(** ** The two ends together *)

Lemma receiver_more l k dl s : receiver_inv l dl s -> receiver_inv (l ++ k) dl s.
Proof. intros I; constructor; try apply I; destruct (r_prefix _ _ _ I) as [x ->]; exists (x ++ k); by rewrite app_assoc. Qed.

Lemma ack_message_more l dl k m :
  eof_last l -> dl ++ k `prefix_of` l -> ack_message dl m -> ack_message (dl ++ k) m.
Proof. intros He Hp H E; rewrite (whole_prefix l dl k), app_nil_r by auto; auto. Qed.

Lemma sent_grows w w' : step w w' -> exists k, sent w' = sent w ++ k.
Proof. intros []; cbn; eexists; try reflexivity; by rewrite app_nil_r. Qed.

Lemma new_world_inv role role' mode mode' status status' h :
  world_inv (new_world role role' mode mode' status status' h).
Proof.
  constructor; try constructor; cbn; try done.
  intros pre b E; by destruct pre.
Qed.

Lemma world_step_inv w w' : step w w' -> Z.of_nat (length (sent w')) < 2 ^ 32 -> world_inv w -> world_inv w'.
Proof.
  intros Hst Hl [IS IR IB IA ID]; pose proof (s_eof_last _ _ IS) as He; destruct Hst; cbn in *.
  - destruct (sender_call_ok _ _ c IS _ _ _ _ H H0) as [I' Hd]; constructor; cbn; auto.
    + by apply receiver_more.
    + eapply Forall_impl; [|exact IB]; intros; by apply block_message_more.
    + intros [-> [Hs| ->]]%Hd; rewrite app_nil_r; [by apply ID|by left].
  - pose proof (receiver_call_ok _ _ _ c IR H _ _ _ _ H0 H1); by constructor.
  - destruct (sender_poll_ok _ _ _ _ IS (polled_run _ _ _ _ _ _ H)) as (I' & Hm & Hd).
    constructor; cbn; auto; by apply Forall_app.
  - destruct (receiver_poll_ok _ _ _ _ _ He IR (polled_run _ _ _ _ _ _ H)) as [I' Hm].
    pose proof (prefix_held _ _ _ (r_prefix _ _ _ I')) as Hp.
    constructor; cbn; auto.
    + apply Forall_app; split; eapply Forall_impl; try exact IA; try exact Hm;
        intros; by eapply ack_message_more.
    + intros [?|Hw]%ID; [by left|right]; by rewrite (whole_prefix _ _ _ He Hw Hp), app_nil_r.
  - destruct (sender_hear_ok _ _ hdr msg curTime IS _ _ _ _ H2 H3) as [I' Hd].
    constructor; cbn; auto; intros [Hs|[Hc1 Hc2]]%Hd; [by apply ID|right].
    rewrite list.Forall_forall in IA; apply (IA _ H).
    destruct H0 as [H01 H02]; destruct ty as [p t']; cbn in *; subst; unfold bdx; congruence.
  - assert (block_message (sent w) (ty, data msg)) as Hm.
    { rewrite H1; rewrite list.Forall_forall in IB; by apply IB. }
    pose proof (receiver_hear_ok _ _ _ hdr ty msg curTime IR Hl H0 Hm _ _ _ _ H2 H3); by constructor.
Qed.

Lemma reachable_inv w w' :
  rtc step w w' -> world_inv w -> Z.of_nat (length (sent w')) < 2 ^ 32 -> world_inv w'.
Proof.
  intros H I; pattern w'; revert w' H; apply (rtc_ind_r _ w); [done|]; intros w1 w2 H1 H2 IH Hl.
  apply (world_step_inv _ _ H2 Hl), IH; destruct (sent_grows _ _ H2) as [k E].
  rewrite E, length_app in Hl; lia.
Qed.

(** ** Runs that can be computed *)

Definition packet_of (d : bytes) : PBuf := MkPBuf d 0 (length d) (length d) 1.
Definition header_of (ty : MessageTypeData) : PayloadHeader :=
  MkPayloadHeader (MessageType_ ty) 0 (ProtocolId_ ty) 0 None.

Lemma data_packet_of d : data (packet_of d) = d.
Proof. unfold data, packet_of, mem_read; cbn; by rewrite firstn_all. Qed.

(** [HearSender i]: the [i]th message that was ever sent arrives, at time 0. *)
Inductive action :=
| SenderCall (c : call)
| ReceiverCall (c : call)
| SenderPoll
| ReceiverPoll
| HearSender (i : nat)
| HearReceiver (i : nat).

Definition allowedb (w : world) (c : call) : bool :=
  negb (mControlMode (receiver w) =? TransferControlFlags.kSenderDrive) ||
  match c with
  | CallBlockQuery | CallBlockQueryWithSkip _ => false
  | CallBlockAck => match delivered w with [] => false | _ => true end
  | _ => true
  end.

Definition succeeded {A} (r : result A * St) : option (A * St) :=
  match r with (Ok a, s) => Some (a, s) | _ => None end.

(** An action that succeeds, allowed or not. *)
Definition act_any (w : world) (a : action) : option world :=
  match a with
  | SenderCall c =>
      '(_, (s', h')) ← succeeded (run kSender c (sender w, memory w));
      Some (MkWorld s' (receiver w) h' (to_receiver w) (to_sender w) (sent w ++ given c (Ok tt)) (delivered w))
  | ReceiverCall c =>
      '(_, (s', h')) ← succeeded (run kReceiver c (receiver w, memory w));
      Some (MkWorld (sender w) s' h' (to_receiver w) (to_sender w) (sent w) (delivered w))
  | SenderPoll =>
      '(e, (s', h')) ← succeeded (PollOutput 0 (sender w, memory w));
      Some (MkWorld s' (receiver w) h' (to_receiver w ++ event_messages e) (to_sender w) (sent w) (delivered w))
  | ReceiverPoll =>
      '(e, (s', h')) ← succeeded (PollOutput 0 (receiver w, memory w));
      Some (MkWorld (sender w) s' h' (to_receiver w) (to_sender w ++ event_messages e)
              (sent w) (delivered w ++ event_blocks e))
  | HearSender i =>
      '(ty, d) ← to_sender w !! i;
      '(_, (s', h')) ← succeeded (HandleMessageReceived tcp (header_of ty) (Some (packet_of d)) 0 (sender w, memory w));
      Some (MkWorld s' (receiver w) h' (to_receiver w) (to_sender w) (sent w) (delivered w))
  | HearReceiver i =>
      '(ty, d) ← to_receiver w !! i;
      '(_, (s', h')) ← succeeded (HandleMessageReceived tcp (header_of ty) (Some (packet_of d)) 0 (receiver w, memory w));
      Some (MkWorld (sender w) s' h' (to_receiver w) (to_sender w) (sent w) (delivered w))
  end.

Definition act (w : world) (a : action) : option world :=
  match a with
  | ReceiverCall c => if allowedb w c then act_any w a else None
  | _ => act_any w a
  end.

Definition play_any (w : world) (l : list action) : option world := foldl (fun o a => w ← o; act_any w a) (Some w) l.
Definition play (w : world) (l : list action) : option world := foldl (fun o a => w ← o; act w a) (Some w) l.

Lemma succeeded_ok {A} (r : result A * St) x : succeeded r = Some x -> r = (Ok x.1, x.2).
Proof. by destruct r as [[] []]; cbn; intros; simplify_eq. Qed.

Lemma act_step w a w' : act w a = Some w' -> step w w'.
Proof.
  destruct a; cbn; intros H.
  - apply bind_Some in H as ([[] [s' h']] & E%succeeded_ok & [= <-]); by eapply sender_calls.
  - destruct (allowedb w c) eqn:Ea; [|done].
    apply bind_Some in H as ([[] [s' h']] & E%succeeded_ok & [= <-]); eapply receiver_calls; [|exact E|done].
    intros Hm; unfold allowedb in Ea; rewrite Hm in Ea; cbn in Ea; destruct c; try done.
    by destruct (delivered w).
  - apply bind_Some in H as ([e [s' h']] & E%succeeded_ok & [= <-]); exact (sender_polls w 0 e s' h' E).
  - apply bind_Some in H as ([e [s' h']] & E%succeeded_ok & [= <-]); exact (receiver_polls w 0 e s' h' E).
  - apply bind_Some in H as ([ty d] & Hi & H).
    apply bind_Some in H as ([[] [s' h']] & E%succeeded_ok & [= <-]).
    eapply (sender_hears w ty d (header_of ty)); [by eapply list_elem_of_lookup_2|by split|by rewrite data_packet_of|exact E|done].
  - apply bind_Some in H as ([ty d] & Hi & H).
    apply bind_Some in H as ([[] [s' h']] & E%succeeded_ok & [= <-]).
    eapply (receiver_hears w ty d (header_of ty)); [by eapply list_elem_of_lookup_2|by split|by rewrite data_packet_of|exact E|done].
Qed.

Lemma play_run l : forall w w', play w l = Some w' -> rtc step w w'.
Proof.
  induction l as [|a l IH] using rev_ind; cbn; intros w w' H; [by simplify_eq|].
  unfold play in H; rewrite foldl_app in H; cbn in H; apply bind_Some in H as (w1 & H1 & H2).
  eapply rtc_r; [by apply IH|by eapply act_step].
Qed.

(** C7: However the network loses, repeats and reorders the messages, and whatever the
    two applications do and in whatever order - as long as, in sender drive, the receiving
    one does not query and does not acknowledge before its first block ([allowed]) - what
    the receiver has handed out is always a beginning of what the sender was given, block by
    block; once the last block is handed out it is all of it, and a sending session that has
    come to [kTransferDone] after sending anything can rely on that.  The bound is that of
    the block counter.  The session does not enforce what it needs: [PrepareBlockAck]
    checks the state only, and an acknowledgement before the first block loses that block
    ([early_acknowledgement_loses_block]). *)
Theorem bdx_delivers role role' mode mode' status status' h w :
  rtc step (new_world role role' mode mode' status status' h) w ->
  Z.of_nat (length (sent w)) < 2 ^ 32 ->
  delivered w `prefix_of` sent w /\
  (whole (delivered w) -> delivered w = sent w) /\
  (mState (sender w) = kTransferDone -> sent w <> [] -> delivered w = sent w).
Proof.
  intros Hr Hl; pose proof (reachable_inv _ _ Hr (new_world_inv _ _ _ _ _ _ _) Hl) as [IS IR _ _ ID].
  pose proof (prefix_held _ _ _ (r_prefix _ _ _ IR)) as Hp.
  assert (whole (delivered w) -> delivered w = sent w) as Hw.
  { intros Hw; destruct Hp as [k E]; rewrite E.
    by rewrite (whole_prefix _ _ k (s_eof_last _ _ IS) Hw), app_nil_r by (by rewrite E). }
  split_and!; auto; intros [?|?]%ID Hs; [done|auto].
Qed.
End System.

(** ** A run *)

Section Run.
#[local] Existing Instances reference_byte_order zero_memory.

(** The receiver starts and drives; a block of three bytes and a last one of one byte. *)
Definition example_offer : TransferInitData :=
  MkInitData TransferControlFlags.kReceiverDrive 1024 0 0 (Some [102]) 1 None.
Definition example_script : list action :=
  [ReceiverCall (CallStart example_offer 60); ReceiverPoll;
   SenderCall (CallWait TransferControlFlags.kReceiverDrive 512 60); HearSender 0; SenderPoll;
   SenderCall (CallAccept (MkAcceptData TransferControlFlags.kReceiverDrive 512 0 0 None)); SenderPoll;
   HearReceiver 0; ReceiverPoll;
   ReceiverCall CallBlockQuery; ReceiverPoll; HearSender 1; SenderPoll;
   SenderCall (CallBlock (MkBlockData (Some [1; 2; 3]) false 0)); SenderPoll; HearReceiver 1; ReceiverPoll;
   ReceiverCall CallBlockQuery; ReceiverPoll; HearSender 2; SenderPoll;
   SenderCall (CallBlock (MkBlockData (Some [4]) true 0)); SenderPoll; HearReceiver 2; ReceiverPoll;
   ReceiverCall CallBlockAck; ReceiverPoll; HearSender 3].
Definition example_start : world := new_world kSender kSender 0 0 0 0 tt.
Definition is_done (w : world) : bool :=
  bool_decide (mState (sender w) = kTransferDone) &&
  bool_decide (sent w = [([1; 2; 3], false); ([4], true)]).

Lemma played {A} (o : option A) (f : A -> bool) :
  match o with Some a => f a | None => false end = true -> exists a, o = Some a /\ f a = true.
Proof. destruct o; [by eexists|done]. Qed.

Lemma is_done_spec w :
  is_done w = true -> mState (sender w) = kTransferDone /\ sent w = [([1; 2; 3], false); ([4], true)].
Proof. intros [H1%bool_decide_eq_true H2%bool_decide_eq_true]%andb_true_iff; by split. Qed.

Lemma example_run :
  exists w, rtc (step false) example_start w /\ mState (sender w) = kTransferDone /\
    sent w = [([1; 2; 3], false); ([4], true)].
Proof.
  destruct (played (play false example_start example_script) is_done) as (w & E & H);
    [vm_compute; reflexivity|].
  exists w; split; [exact (play_run false _ _ _ E)|exact (is_done_spec w H)].
Qed.

(** The sender starts and drives; the receiver acknowledges before it is handed anything. *)
Definition early_acknowledgement : list action :=
  [SenderCall (CallStart (MkInitData TransferControlFlags.kSenderDrive 1024 0 0 (Some [102]) 1 None) 60); SenderPoll;
   ReceiverCall (CallWait TransferControlFlags.kSenderDrive 512 60); HearReceiver 0; ReceiverPoll;
   ReceiverCall (CallAccept (MkAcceptData TransferControlFlags.kSenderDrive 512 0 0 None)); ReceiverPoll;
   HearSender 0; SenderPoll;
   SenderCall (CallBlock (MkBlockData (Some [1; 2; 3]) false 0)); SenderPoll;
   ReceiverCall CallBlockAck; ReceiverPoll; HearSender 1; SenderPoll;
   SenderCall (CallBlock (MkBlockData (Some [4]) false 0)); SenderPoll; HearReceiver 2; ReceiverPoll].

(** What [bdx_delivers] asks of the receiving application is needed: every call succeeds,
    and the second block is handed out without the first. *)
Lemma early_acknowledgement_loses_block :
  (fun w => (sent w, delivered w)) <$> play_any false example_start early_acknowledgement =
  Some ([([1; 2; 3], false); ([4], false)], [([4], false)]).
Proof. vm_compute; reflexivity. Qed.

Lemma bdx_delivers_witness :
  exists w, rtc (step false) example_start w /\ delivered w = [([1; 2; 3], false); ([4], true)].
Proof.
  destruct example_run as (w & Hr & Hd & Hs); exists w; split; [exact Hr|].
  rewrite <-Hs; refine (proj2 (proj2 (bdx_delivers false kSender kSender 0 0 0 0 tt w Hr _)) Hd _);
    by rewrite Hs.
Defined.
End Run.
