(* ===== verification/BdxComplete.v ===== *)
(** * BdxComplete: transfers that come to their end

    What the two ends of BdxTransfer.v can do together when packets are to be had.

    - [succeeds]: total correctness of an operation, the counterpart of [wp];
    - [can]: the worlds that a world can reach, with one rule per kind of step;
    - the negotiation and the rounds of a transfer, whichever end starts it and whichever
      end drives it: both ends come to [kTransferDone] with the whole file delivered;
    - what negotiation does when the ends share two modes, or none. *)

From stdpp Require Import relations.
From S2P Require Import Prelude Encoding PacketBuffer MessageHeader BdxMessages BdxSession BdxTransfer.
Import TransferSession.

(** ** Operations that succeed *)

Section Succeeds.
Context `{PM : PlatformMemory} `{BO : ByteOrder} (tcp : bool).

(** A packet can be had for whatever fits in one. *)
Definition packets : Prop := forall n h, (n <= kMaxSize - kMaxFooterSize)%nat ->
  exists b h', MessagePacketBuffer_New tcp n h = (Some b, h').

Definition succeeds {A} (m : M St A) (Q : A -> t -> Prop) (s : t) : Prop :=
  forall h, exists a s' h', m (s, h) = (Ok a, (s', h')) /\ Q a s'.

Lemma s_mono {A} (m : M St A) (P Q : A -> t -> Prop) s :
  succeeds m P s -> (forall a s', P a s' -> Q a s') -> succeeds m Q s.
Proof. intros H HPQ h; destruct (H h) as (a & s' & h' & E & HP); eauto 6. Qed.

Lemma s_bind {A B} (m : M St A) (k : A -> M St B) Q s :
  succeeds m (fun a s' => succeeds (k a) Q s') s -> succeeds (bind m k) Q s.
Proof.
  intros H h; destruct (H h) as (a & s1 & h1 & E & H1); destruct (H1 h1) as (b & s2 & h2 & E2 & H2).
  exists b, s2, h2; split; [|done]; unfold bind; by rewrite E.
Qed.

Lemma s_ret {A} (a : A) (Q : A -> t -> Prop) s : Q a s -> succeeds (ret a) Q s.
Proof. intros H h; by exists a, s, h. Qed.

Lemma s_self (Q : t -> t -> Prop) s : Q s s -> succeeds self Q s.
Proof. intros H h; by exists s, s, h. Qed.

Lemma s_upd f (Q : unit -> t -> Prop) s : Q tt (f s) -> succeeds (upd f) Q s.
Proof. intros H h; by exists tt, (f s), h. Qed.

Lemma s_verify b e (Q : unit -> t -> Prop) s : b = true -> Q tt s -> succeeds (verify b e) Q s.
Proof. intros -> H h; by exists tt, s, h. Qed.

Lemma s_when b m (Q : unit -> t -> Prop) s :
  (b = true -> succeeds m Q s) -> (b = false -> Q tt s) -> succeeds (when b m) Q s.
Proof. destruct b; intros H1 H2; [by apply H1|apply s_ret; by apply H2]. Qed.

Lemma s_or_report cond code rest Q s :
  cond = true -> succeeds rest Q s -> succeeds (or_report tcp cond code rest) Q s.
Proof. by intros ->. Qed.

Lemma s_parsing {A} `{BdxMessage A} m msg (k : A -> M St unit) Q s :
  Parse (data msg) = Ok m -> succeeds (k m) Q s -> succeeds (parsing tcp msg k) Q s.
Proof. by unfold parsing; intros ->. Qed.

Lemma s_attempt {A} (m : M St A) Q s :
  succeeds m (fun _ s' => Q CHIP_NO_ERROR s') s -> succeeds (attempt m) Q s.
Proof.
  intros H h; destruct (H h) as (a & s1 & h1 & E & H1); exists CHIP_NO_ERROR, s1, h1.
  unfold attempt; by rewrite E.
Qed.

Lemma s_write write enc (Q : unit -> t -> Prop) s :
  packets -> (length enc <= kMaxSize - kMaxFooterSize)%nat ->
  (forall b log, write (writer_of b log) = writer_of b (log ++ (Some <$> enc))) ->
  (forall q, data q = enc -> Q tt (set_mPendingMsgHandle (Some q) s)) ->
  succeeds (WriteToPending tcp write) Q s.
Proof.
  intros HP Hn Hw HQ h; unfold WriteToPending.
  pose proof (written_packet_spec tcp write enc h Hw) as HW.
  destruct (written_packet tcp write h) as [[q|e] h1].
  - eexists _, _, _; split; [reflexivity|by apply HQ; apply HW].
  - destruct HW as [_ HN], (HP _ h Hn) as (b & h' & E); by rewrite E in HN.
Qed.

Lemma s_message {A} `{MessageLaws A} (m : A) (Q : unit -> t -> Prop) s :
  packets -> (length (encoding m) <= kMaxSize - kMaxFooterSize)%nat ->
  (forall q, data q = encoding m -> Q tt (set_mPendingMsgHandle (Some q) s)) ->
  succeeds (WriteToPending tcp (WriteToBuffer m)) Q s.
Proof. intros HP Hn; apply s_write; [done..|apply write_log]. Qed.

Lemma s_report code (Q : unit -> t -> Prop) s :
  packets -> (forall q, Q tt (reported code q s)) -> succeeds (PrepareStatusReport tcp code) Q s.
Proof.
  intros HP HQ; unfold PrepareStatusReport; apply s_bind, s_upd, s_bind, s_attempt.
  eapply s_write; [done| |apply report_write_log|].
  - unfold report_bytes, kMaxSize, kMaxFooterSize, kMaxSizeWithoutReserve, kDefaultHeaderReserve.
    rewrite !length_app, !length_le_split; lia.
  - intros q Hq; rewrite bool_decide_eq_true_2 by done; unfold PrepareOutgoingMessageEvent.
    apply s_bind, s_upd, s_bind, s_upd, s_upd; by apply HQ.
Qed.
End Succeeds.

(** [s_run] runs an operation whose checks pass; the conditions [holds] does not close
    are left. *)
Ltac holds :=
  cbn; repeat match goal with
  | H : mState _ = _ |- _ => progress rewrite H
  | H : mRole _ = _ |- _ => progress rewrite H
  | H : mPendingOutput _ = _ |- _ => progress rewrite H
  | H : mAwaitingResponse _ = _ |- _ => progress rewrite H
  | H : mControlMode _ = _ |- _ => progress rewrite H
  end; cbn; first [done|apply bool_decide_eq_true_2; done|idtac].

Ltac s_run :=
  repeat first
    [ progress cbv beta iota zeta
    | lazymatch goal with
      | |- succeeds (bind _ _) _ _ => apply s_bind
      | |- succeeds (ret _) _ _ => apply s_ret
      | |- succeeds self _ _ => apply s_self
      | |- succeeds (upd _) _ _ => apply s_upd
      | |- succeeds (verify _ _) _ _ => apply s_verify; [try solve [holds]|]
      | |- succeeds (when true _) _ _ => unfold when
      | |- succeeds (when false _) _ _ => unfold when
      | |- succeeds (when _ _) _ _ => apply s_when; let H := fresh "Hc" in intros H
      | |- succeeds (or_report _ _ _ _) _ _ => apply s_or_report; [try solve [holds]|]
      | |- succeeds (WriteToPending _ (WriteToBuffer _)) _ _ =>
          eapply s_message; [assumption| |let q := fresh "q" in let H := fresh "Hq" in intros q H]
      | |- succeeds (PrepareStatusReport _ _) _ _ => apply s_report; [assumption|intros]
      | |- succeeds (PrepareOutgoingMessageEvent _ _) _ _ => apply s_upd
      | |- succeeds (attempt _) _ _ => apply s_attempt
      end ].

(** ** The worlds that can be reached *)

Section Complete.
Context `{PM : PlatformMemory} `{BO : ByteOrder} (tcp : bool).

(** Whatever the heap, a world with [Q] is reached. *)
Definition can (s r : t) (tr ts : list message) (l dl : list block) (Q : world -> Prop) : Prop :=
  forall h, exists w, rtc (step tcp) (MkWorld s r h tr ts l dl) w /\ Q w.

Lemma can_here s r tr ts l dl (Q : world -> Prop) :
  (forall h, Q (MkWorld s r h tr ts l dl)) -> can s r tr ts l dl Q.
Proof. intros H h; eexists; split; [apply rtc_refl|apply H]. Qed.

Lemma can_sender_call c s r tr ts l dl Q :
  succeeds (run tcp kSender c) (fun _ s' => can s' r tr ts (l ++ given c (Ok tt)) dl Q) s ->
  can s r tr ts l dl Q.
Proof.
  intros H h; destruct (H h) as ([] & s' & h' & E & H'); destruct (H' h') as (w & Hw & HQ); exists w.
  split; [|done]; eapply rtc_l, Hw; by eapply (sender_calls tcp (MkWorld s r h tr ts l dl)).
Qed.

Lemma can_receiver_call c s r tr ts l dl Q :
  (mControlMode r = TransferControlFlags.kSenderDrive ->
     match c with
     | CallBlockQuery | CallBlockQueryWithSkip _ => False
     | CallBlockAck => dl <> []
     | _ => True
     end) ->
  succeeds (run tcp kReceiver c) (fun _ r' => can s r' tr ts l dl Q) r ->
  can s r tr ts l dl Q.
Proof.
  intros Ha H h; destruct (H h) as ([] & s' & h' & E & H'); destruct (H' h') as (w & Hw & HQ); exists w.
  split; [|done]; eapply rtc_l, Hw; by eapply (receiver_calls tcp (MkWorld s r h tr ts l dl)).
Qed.

(** A session that a poll at time 0 does not end, and what the poll leaves of it. *)
Definition pollable (s : t) : Prop :=
  mTimeoutStartTime s = 0 /\ 0 < mTimeout s /\ mState s <> kErrorState /\
  (mPendingOutput s = kNone \/ mPendingOutput s = kMsgToSend \/ mPendingOutput s = kInitReceived \/
   mPendingOutput s = kAcceptReceived \/ mPendingOutput s = kBlockReceived \/
   mPendingOutput s = kQueryReceived \/ mPendingOutput s = kAckReceived \/ mPendingOutput s = kAckEOFReceived).

Definition idle (o : option PBuf) (s : t) : t :=
  set_mPendingOutput kNone (set_mPendingMsgHandle o (set_mTimeoutStartTime 0 (set_mShouldInitTimeoutStart false s))).

Lemma poll_idle s h :
  pollable s -> exists e o, PollOutput 0 (s, h) = (Ok e, (idle o s, h)) /\
    event_messages e = outbox s /\ event_blocks e = held s.
Proof.
  intros (Ht & Hm & He & Hp).
  assert (exists e o, PollOutput 0 (s, h) = (Ok e, (idle o s, h))) as (e & o & E).
  { destruct s; cbn in *; subst; unfold PollOutput.
    destruct mShouldInitTimeoutStart0; unfold bind, self, when, upd, ret; cbn;
      rewrite (proj2 (Z.leb_gt _ _)), andb_false_r by done;
      (destruct Hp as [->|[->|[->|[->|[->|[->|[->| ->]]]]]]]); cbn;
      rewrite ?(bool_decide_eq_false_2 (mState0 = kErrorState)) by done;
      eexists _, _; reflexivity. }
  exists e, o; split; [done|]; destruct (polled_run _ _ _ _ _ _ E) as [_ _ _ _ Hms Hbs].
  split; [by rewrite <-Hms; cbn; rewrite app_nil_r|by rewrite <-Hbs; cbn; rewrite app_nil_r].
Qed.

Lemma can_sender_poll m s r tr ts l dl Q :
  pollable s -> outbox s = m -> (forall o, can (idle o s) r (tr ++ m) ts l dl Q) ->
  can s r tr ts l dl Q.
Proof.
  intros Hs <- H h; destruct (poll_idle s h Hs) as (e & o & E & Hm & _).
  destruct (H o h) as (w & Hw & HQ); exists w; split; [|done]; eapply rtc_l, Hw.
  rewrite <-Hm; by apply (sender_polls tcp (MkWorld s r h tr ts l dl) 0).
Qed.

Lemma can_receiver_poll m b s r tr ts l dl Q :
  pollable r -> outbox r = m -> held r = b ->
  (forall o, can s (idle o r) tr (ts ++ m) l (dl ++ b) Q) -> can s r tr ts l dl Q.
Proof.
  intros Hs <- <- H h; destruct (poll_idle r h Hs) as (e & o & E & Hm & Hb).
  destruct (H o h) as (w & Hw & HQ); exists w; split; [|done]; eapply rtc_l, Hw.
  rewrite <-Hm, <-Hb; by apply (receiver_polls tcp (MkWorld s r h tr ts l dl) 0).
Qed.

Lemma hears ty msg s (Q : t -> Prop) :
  mPendingOutput s = kNone -> succeeds (dispatch tcp ty msg) (fun _ s' => Q (set_mTimeoutStartTime 0 s')) s ->
  succeeds (HandleMessageReceived tcp (header_of (bdx ty)) (Some msg) 0) (fun _ => Q) s.
Proof.
  intros Hp H; cbn [HandleMessageReceived]; change (HasProtocol (header_of (bdx ty)) BDX_Id) with true.
  unfold HandleBdxMessage; s_run; intros h; destruct (H h) as ([] & s' & h' & E & HQ).
  exists tt, s', h'; split; [exact E|]; by apply s_upd.
Qed.

Lemma can_sender_hear ty d s r tr ts l dl Q :
  (bdx ty, d) ∈ ts -> mPendingOutput s = kNone ->
  succeeds (dispatch tcp ty (packet_of d)) (fun _ s' => can (set_mTimeoutStartTime 0 s') r tr ts l dl Q) s ->
  can s r tr ts l dl Q.
Proof.
  intros Hd Hp H h; destruct (hears ty _ s (fun s' => can s' r tr ts l dl Q) Hp H h) as ([] & s' & h' & E & H').
  destruct (H' h') as (w & Hw & HQ); exists w; split; [|done]; eapply rtc_l, Hw.
  eapply (sender_hears tcp (MkWorld s r h tr ts l dl)); [exact Hd|split|by rewrite data_packet_of|exact E|]; done.
Qed.

Lemma can_receiver_hear ty d s r tr ts l dl Q :
  (bdx ty, d) ∈ tr -> mPendingOutput r = kNone ->
  succeeds (dispatch tcp ty (packet_of d)) (fun _ r' => can s (set_mTimeoutStartTime 0 r') tr ts l dl Q) r ->
  can s r tr ts l dl Q.
Proof.
  intros Hd Hp H h; destruct (hears ty _ r (fun r' => can s r' tr ts l dl Q) Hp H h) as ([] & s' & h' & E & H').
  destruct (H' h') as (w & Hw & HQ); exists w; split; [|done]; eapply rtc_l, Hw.
  eapply (receiver_hears tcp (MkWorld s r h tr ts l dl)); [exact Hd|split|by rewrite data_packet_of|exact E|]; done.
Qed.

(** ** The two ends of a transfer in progress *)

Definition total (l : list block) : Z := Z.of_nat (length (concat l.*1)).

Record sending (mode size : Z) (l : list block) (st : TransferState) (waiting : bool)
  (p : OutputEventType) (s : t) : Prop := {
  sd_role : mRole s = kSender;
  sd_state : mState s = st;
  sd_mode : mControlMode s = mode;
  sd_size : mTransferMaxBlockSize s = size;
  sd_next : mNextBlockNum s = count l;
  sd_last : mLastBlockNum s = wrap 32 (Z.of_nat (length l - 1));
  sd_waiting : mAwaitingResponse s = waiting;
  sd_pending : mPendingOutput s = p;
  sd_start : mTimeoutStartTime s = 0;
  sd_timeout : 0 < mTimeout s }.

Record receiving (mode size len : Z) (l : list block) (st : TransferState) (waiting : bool)
  (p : OutputEventType) (r : t) : Prop := {
  rc_role : mRole r = kReceiver;
  rc_state : mState r = st;
  rc_mode : mControlMode r = mode;
  rc_size : mTransferMaxBlockSize r = size;
  rc_length : mTransferLength r = len;
  rc_bytes : len <> 0 -> mNumBytesProcessed r = total l;
  rc_last : mLastBlockNum r = wrap 32 (Z.of_nat (length l - 1));
  rc_query : waiting = true -> mLastQueryNum r = count l;
  rc_next : mode <> TransferControlFlags.kSenderDrive ->
            mNextQueryNum r = wrap 32 (Z.of_nat (length l + (if waiting then 1 else 0)));
  rc_waiting : mAwaitingResponse r = waiting;
  rc_pending : mPendingOutput r = p;
  rc_start : mTimeoutStartTime r = 0;
  rc_timeout : 0 < mTimeout r }.

Lemma sending_idle mode size l st waiting p o s :
  sending mode size l st waiting p s -> sending mode size l st waiting kNone (idle o s).
Proof. intros []; by constructor. Qed.

Lemma receiving_idle mode size len l st waiting p o r :
  receiving mode size len l st waiting p r -> receiving mode size len l st waiting kNone (idle o r).
Proof. intros []; by constructor. Qed.

Lemma sending_pollable mode size l st waiting p s :
  sending mode size l st waiting p s -> st <> kErrorState -> p ∈ [kNone; kMsgToSend; kQueryReceived; kAckReceived; kAcceptReceived] ->
  pollable s.
Proof.
  intros [] He Hp; subst; unfold pollable; split_and!; [done..|].
  repeat (apply list.elem_of_cons in Hp as [->|Hp]; [tauto|]); by apply list.not_elem_of_nil in Hp.
Qed.

Lemma receiving_pollable mode size len l st waiting p r :
  receiving mode size len l st waiting p r -> st <> kErrorState -> p ∈ [kNone; kMsgToSend; kBlockReceived; kAcceptReceived] ->
  pollable r.
Proof.
  intros [] He Hp; subst; unfold pollable; split_and!; [done..|].
  repeat (apply list.elem_of_cons in Hp as [->|Hp]; [tauto|]); by apply list.not_elem_of_nil in Hp.
Qed.

Lemma sending_poll mode size l st waiting p m s r tr ts l0 dl Q :
  sending mode size l st waiting p s -> st <> kErrorState ->
  p ∈ [kNone; kMsgToSend; kQueryReceived; kAckReceived; kAcceptReceived] -> outbox s = m ->
  (forall s', sending mode size l st waiting kNone s' -> can s' r (tr ++ m) ts l0 dl Q) ->
  can s r tr ts l0 dl Q.
Proof.
  intros S He Hp Hm H; eapply can_sender_poll; [by eapply sending_pollable|exact Hm|].
  intros o; eapply H, sending_idle, S.
Qed.

Lemma receiving_poll mode size len l st waiting p m b s r tr ts l0 dl Q :
  receiving mode size len l st waiting p r -> st <> kErrorState ->
  p ∈ [kNone; kMsgToSend; kBlockReceived; kAcceptReceived] -> outbox r = m -> held r = b ->
  (forall r', receiving mode size len l st waiting kNone r' -> can s r' tr (ts ++ m) l0 (dl ++ b) Q) ->
  can s r tr ts l0 dl Q.
Proof.
  intros R He Hp Hm Hb H; eapply can_receiver_poll; [by eapply receiving_pollable|exact Hm|exact Hb|].
  intros o; eapply H, receiving_idle, R.
Qed.

Lemma outbox_none s : mPendingOutput s <> kMsgToSend -> outbox s = [].
Proof. intros H; unfold outbox; by rewrite bool_decide_eq_false_2. Qed.

(** A packet has room for the counter and a block of the size. *)
Definition size_ok (size : Z) : Prop := size + 4 <= Z.of_nat (kMaxSize - kMaxFooterSize).

Definition fits (len : Z) (l : list block) (d : bytes) : Prop :=
  len = 0 \/ total l + Z.of_nat (length d) <= len < 2 ^ 64.

Lemma total_app l d eof : total (l ++ [(d, eof)]) = total l + Z.of_nat (length d).
Proof. unfold total; rewrite fmap_app, concat_app, length_app; cbn; rewrite app_nil_r; lia. Qed.

Lemma total_nonneg l : 0 <= total l.
Proof. unfold total; lia. Qed.

Lemma count_next l b : count l +{32} 1 = count (l ++ [b]).
Proof. unfold count; rewrite wrap_add_l, length_app; cbn; f_equal; lia. Qed.

Lemma last_next l b : wrap 32 (Z.of_nat (length (l ++ [b]) - 1)) = count l.
Proof. by rewrite length_app, Nat.add_sub. Qed.

Lemma span_no_empty d : span_bytes (no_empty (Some d)) = d.
Proof. by destruct d. Qed.

Lemma bytes_counted len l d :
  len <> 0 -> fits len l d -> total l +{64} Z.of_nat (length d) = total l + Z.of_nat (length d).
Proof. intros Hl [?|?]; [done|]; apply wrap_small; unfold is_uint, total in *; lia. Qed.

Lemma elem_of_last (m : message) l : m ∈ l ++ [m].
Proof. set_solver. Qed.

Lemma count_range l : is_u32 (count l).
Proof. apply wrap_range; lia. Qed.


Section Rounds.
Context (HP : packets tcp) (mode size len : Z) (Hsize : size_ok size).


Definition block_type (eof : bool) : Z := if eof then MessageType.BlockEOF else MessageType.Block.

(** A block given to the sender and sent. *)
Lemma give_block l d eof s r tr ts dl Q :
  sending mode size l kTransferInProgress false kNone s -> Z.of_nat (length d) <= size ->
  (forall s', sending mode size (l ++ [(d, eof)]) (if eof then kAwaitingEOFAck else kTransferInProgress) true kNone s' ->
     can s' r (tr ++ [(bdx (block_type eof), le_split 4 (count l) ++ d)]) ts (l ++ [(d, eof)]) dl Q) ->
  can s r tr ts l dl Q.
Proof.
  intros S Hn H; pose proof S as []; apply (can_sender_call (CallBlock (MkBlockData (Some d) eof 0))).
  cbn [run given]; unfold PrepareBlock, may_prepare; s_run.
  - cbn; rewrite sd_size0; by apply Z.leb_le.
  - change (encoding _) with (le_split 4 (mNextBlockNum s) ++ d); rewrite length_app, length_le_split; unfold size_ok in Hsize; lia.
  - destruct eof; [|done]; eapply (sending_poll _ _ _ _ _ kMsgToSend); cycle -1; [exact H| |done|compute_done|].
    + constructor; cbn; auto; rewrite ?last_next, ?sd_next0; auto using count_next.
    + unfold outbox; cbn; by rewrite Hq, <-sd_next0.
  - destruct eof; [done|]; eapply (sending_poll _ _ _ _ _ kMsgToSend); cycle -1; [exact H| |done|compute_done|].
    + constructor; cbn; auto; rewrite ?last_next, ?sd_next0; auto using count_next.
    + unfold outbox; cbn; by rewrite Hq, <-sd_next0.
Qed.

(** A block received and handed out. *)
Lemma take_block l d eof s r tr ts l0 Q :
  receiving mode size len l kTransferInProgress true kNone r ->
  (bdx (block_type eof), le_split 4 (count l) ++ d) ∈ tr ->
  (eof = true \/ d <> []) -> Z.of_nat (length d) <= size -> fits len l d ->
  (forall r', receiving mode size len (l ++ [(d, eof)]) (if eof then kReceivedEOF else kTransferInProgress) false kNone r' ->
     can s r' tr ts l0 (l ++ [(d, eof)]) Q) ->
  can s r tr ts l0 l Q.
Proof.
  intros R Hin Hd Hn Hf H; pose proof R as []; eapply can_receiver_hear; [exact Hin|done|].
  assert (Parse (data (packet_of (le_split 4 (count l) ++ d))) = Ok (MkDataBlock (count l) (no_empty (Some d)))) as Hparse.
  { rewrite data_packet_of; apply parse_block; [apply count_range|].
    rewrite length_app, length_le_split; unfold size_ok, kMaxSize, kMaxFooterSize, kMaxSizeWithoutReserve,
      kDefaultHeaderReserve in Hsize; lia. }
  destruct eof; cbn [block_type];
    [change (dispatch tcp MessageType.BlockEOF) with (HandleBlockEOF tcp)
    |change (dispatch tcp MessageType.Block) with (HandleBlock tcp)];
    unfold HandleBlock, HandleBlockEOF, expecting; s_run; (eapply s_parsing; [exact Hparse|]);
    unfold block_received; s_run.
  all: cbn [db_BlockCounter db_Data]; rewrite ?span_no_empty.
  1,4: rewrite rc_query0 by done; apply Z.eqb_refl.
  1: rewrite rc_size0; by apply Z.leb_le.
  2: { destruct Hd; [done|]; rewrite rc_size0, (proj2 (Z.leb_le _ _) Hn), andb_true_r.
    apply Z.ltb_lt; destruct d; [done|cbn; lia]. }
  2: { unfold IsTransferLengthDefinite; rewrite rc_length0.
    destruct (Z.ltb_spec 0 len); [cbn|done]; destruct (Hf) as [Hf'|Hf']; [lia|].
    rewrite rc_bytes0, (bytes_counted len) by first [exact Hf|lia]; apply Z.leb_le; lia. }
  all: eapply (receiving_poll _ _ _ _ _ _ kBlockReceived [] [(d, _)]); cycle -1;
    [intros r' R'; rewrite app_nil_r; eapply H, R'| |done|compute_done|reflexivity|by destruct d].
  all: constructor; cbn; auto; rewrite ?last_next, ?total_app; try done.
  1,3: intros Hl; rewrite (rc_bytes0 Hl); by apply bytes_counted with len.
  all: intros Hm; by rewrite (rc_next0 Hm), length_app, Nat.add_0_r.
Qed.

Lemma counter_size c : (length (encoding (MkCounterMessage c)) <= kMaxSize - kMaxFooterSize)%nat.
Proof. unfold kMaxSize, kMaxFooterSize, kMaxSizeWithoutReserve, kDefaultHeaderReserve; cbn; lia. Qed.

Lemma parse_counter_packet l :
  Parse (data (packet_of (le_split 4 (count l)))) = Ok (MkCounterMessage (count l)).
Proof. rewrite data_packet_of; apply parse_counter, count_range. Qed.

(** The receiver asks for a block and the sender hears it. *)
Lemma query_round l s r tr ts Q :
  mode <> TransferControlFlags.kSenderDrive ->
  sending mode size l kTransferInProgress true kNone s ->
  receiving mode size len l kTransferInProgress false kNone r ->
  (forall s' r' ts',
     sending mode size l kTransferInProgress false kNone s' ->
     receiving mode size len l kTransferInProgress true kNone r' -> can s' r' tr ts' l l Q) ->
  can s r tr ts l l Q.
Proof.
  intros Hm S R H; pose proof S as []; pose proof R as [].
  apply (can_receiver_call CallBlockQuery); [congruence|cbn [run]].
  unfold PrepareBlockQuery, may_prepare; s_run; [apply counter_size|].
  assert (mNextQueryNum r = count l) as Hc by (rewrite rc_next0, Nat.add_0_r by done; done).
  eapply (receiving_poll mode size len l kTransferInProgress true kMsgToSend
    [(bdx MessageType.BlockQuery, le_split 4 (count l))] []); [|done|compute_done| |done|].
  { constructor; cbn; auto; intros _; rewrite Hc.
    unfold count; rewrite wrap_add_l; f_equal; lia. }
  { unfold outbox; cbn; by rewrite Hq, <-Hc. }
  intros r' R'; rewrite app_nil_r; eapply (can_sender_hear MessageType.BlockQuery);
    [apply elem_of_last|done|].
  change (dispatch tcp MessageType.BlockQuery) with (HandleBlockQuery tcp).
  unfold HandleBlockQuery, expecting; s_run; (eapply s_parsing; [apply parse_counter_packet|]); s_run.
  - rewrite sd_next0; apply Z.eqb_refl.
  - eapply (sending_poll mode size l kTransferInProgress false kQueryReceived []);
      [by constructor|done|compute_done|done|].
    intros s' S'; rewrite app_nil_r; by apply H.
Qed.

(** The receiver acknowledges a block and the sender hears it. *)
Lemma ack_round l s r tr ts Q :
  mode = TransferControlFlags.kSenderDrive -> l <> [] ->
  sending mode size l kTransferInProgress true kNone s ->
  receiving mode size len l kTransferInProgress false kNone r ->
  (forall s' r' ts',
     sending mode size l kTransferInProgress false kNone s' ->
     receiving mode size len l kTransferInProgress true kNone r' -> can s' r' tr ts' l l Q) ->
  can s r tr ts l l Q.
Proof.
  intros Hm Hl S R H; pose proof S as []; pose proof R as [].
  destruct (@exists_last _ l Hl) as (l' & b & ->).
  apply (can_receiver_call CallBlockAck); [done|cbn [run]].
  unfold PrepareBlockAck; s_run; [apply counter_size|].
  rewrite rc_state0, rc_mode0, Hm, Z.eqb_refl; rewrite bool_decide_eq_true_2 by done; s_run.
  eapply (receiving_poll mode size len (l' ++ [b]) kTransferInProgress true kMsgToSend
    [(bdx MessageType.BlockAck, le_split 4 (count l'))] []); [|done|compute_done| |done|].
  { constructor; cbn; auto; [|done]; intros _; by rewrite rc_last0, last_next, count_next with (b := b). }
  { unfold outbox; cbn; by rewrite Hq, rc_last0, last_next. }
  intros r' R'; rewrite app_nil_r; eapply (can_sender_hear MessageType.BlockAck);
    [apply elem_of_last|done|].
  change (dispatch tcp MessageType.BlockAck) with (HandleBlockAck tcp).
  unfold HandleBlockAck, expecting; s_run; (eapply s_parsing; [apply parse_counter_packet|]); s_run.
  - rewrite sd_last0, last_next; apply Z.eqb_refl.
  - eapply (sending_poll mode size (l' ++ [b]) kTransferInProgress false kAckReceived []);
      [constructor; cbn; auto; by rewrite sd_mode0, Hm|done|compute_done|done|].
    intros s' S'; rewrite app_nil_r; by apply H.
Qed.

(** The receiver acknowledges the last block, and both ends are done. *)
Lemma eof_round l b s r tr ts (Q : world -> Prop) :
  sending mode size (l ++ [b]) kAwaitingEOFAck true kNone s ->
  receiving mode size len (l ++ [b]) kReceivedEOF false kNone r ->
  (forall w, mState (sender w) = kTransferDone -> mState (receiver w) = kTransferDone ->
     sent w = l ++ [b] -> delivered w = l ++ [b] -> Q w) ->
  can s r tr ts (l ++ [b]) (l ++ [b]) Q.
Proof.
  intros S R H; pose proof S as []; pose proof R as [].
  apply (can_receiver_call CallBlockAck); [by intros _; destruct l|cbn [run]].
  unfold PrepareBlockAck; s_run; [apply counter_size|].
  rewrite rc_state0; do 2 (rewrite ?bool_decide_eq_false_2, ?bool_decide_eq_true_2 by done); s_run.
  eapply (receiving_poll mode size len (l ++ [b]) kTransferDone false kMsgToSend
    [(bdx MessageType.BlockAckEOF, le_split 4 (count l))] []); [by constructor|done|compute_done| |done|].
  { unfold outbox; cbn; by rewrite Hq, rc_last0, last_next. }
  intros r' R'; rewrite app_nil_r; eapply (can_sender_hear MessageType.BlockAckEOF);
    [apply elem_of_last|done|].
  change (dispatch tcp MessageType.BlockAckEOF) with (HandleBlockAckEOF tcp).
  unfold HandleBlockAckEOF, expecting; s_run; (eapply s_parsing; [apply parse_counter_packet|]); s_run.
  - rewrite sd_last0, last_next; apply Z.eqb_refl.
  - apply can_here; intros h; apply H; try done; apply (rc_state _ _ _ _ _ _ _ _ R').
Qed.

Definition blocks (ds : list bytes) : list block := (fun d => (d, false)) <$> ds.

(** Every block in turn. *)
Lemma all_rounds ds last (Q : world -> Prop) : forall l s r tr ts,
  mode = TransferControlFlags.kSenderDrive \/ mode = TransferControlFlags.kReceiverDrive ->
  Forall (fun d => d <> [] /\ Z.of_nat (length d) <= size) ds -> Z.of_nat (length last) <= size ->
  len = 0 \/ total (l ++ blocks ds ++ [(last, true)]) <= len < 2 ^ 64 ->
  sending mode size l kTransferInProgress false kNone s ->
  receiving mode size len l kTransferInProgress true kNone r ->
  (forall w, mState (sender w) = kTransferDone -> mState (receiver w) = kTransferDone ->
     sent w = l ++ blocks ds ++ [(last, true)] -> delivered w = sent w -> Q w) ->
  can s r tr ts l l Q.
Proof.
  induction ds as [|d ds IH]; intros l s r tr ts Hm Hds Hlast Hlen S R H; cbn [blocks fmap list_fmap app] in *.
  - eapply (give_block l last true); [exact S|done|]; intros s' S'.
    eapply (take_block l last true); [exact R|apply elem_of_last|by left|done| |].
    { destruct Hlen as [?|Hlen]; [by left|right]; by rewrite total_app in Hlen. }
    intros r' R'; eapply eof_round; [exact S'|exact R'|]; intros w H1 H2 H3 H4; apply H; [done..|by rewrite H4, H3].
  - apply Forall_cons_1 in Hds as [[Hd Hn] Hds].
    eapply (give_block l d false); [exact S|done|]; intros s' S'.
    eapply (take_block l d false); [exact R|apply elem_of_last|by right|done| |].
    { destruct Hlen as [?|Hlen]; [by left|right].
      rewrite cons_middle, app_assoc in Hlen; unfold total in *; rewrite fmap_app, concat_app, length_app in Hlen.
      rewrite fmap_app, concat_app, length_app in Hlen; cbn in Hlen; rewrite app_nil_r in Hlen; lia. }
    intros r' R'; rewrite cons_middle, app_assoc in Hlen, H.
    destruct Hm as [Hm|Hm].
    + eapply ack_round; [done|by destruct l|exact S'|exact R'|]; intros s2 r2 ts2 S2 R2.
      eapply IH; eauto.
    + eapply query_round; [by rewrite Hm|exact S'|exact R'|]; intros s2 r2 ts2 S2 R2.
      eapply IH; eauto.
Qed.
End Rounds.

(** ** Negotiation *)

(** What an end offers, as the message it becomes. *)
Definition init_message (offer : TransferInitData) : TransferInit :=
  MkTransferInit (id_TransferCtlFlags offer) kBdxVersion 0 (id_MaxBlockSize offer) (id_StartOffset offer)
    (id_Length offer) (id_FileDesignator offer) (id_FileDesLength offer) (id_Metadata offer).

Record offer_ok (offer : TransferInitData) : Prop := {
  of_message : message_ok (init_message offer);
  of_packet : (length (encoding (init_message offer)) <= kMaxSize - kMaxFooterSize)%nat }.

Lemma parse_init offer :
  offer_ok offer -> Parse (data (packet_of (encoding (init_message offer)))) = Ok (received (init_message offer)).
Proof.
  intros [Hm Hl]; rewrite data_packet_of; apply parse_encoding; [exact Hm|].
  unfold kMaxSize, kMaxFooterSize, kMaxSizeWithoutReserve, kDefaultHeaderReserve in Hl; lia.
Qed.

(** The answer to the offer. *)
Definition answer (mode size : Z) (offer : TransferInitData) : TransferAcceptData :=
  MkAcceptData mode size (id_StartOffset offer) (id_Length offer) None.

Definition one_mode (mode : Z) : Prop :=
  mode = TransferControlFlags.kSenderDrive \/ mode = TransferControlFlags.kReceiverDrive.

Ltac decided := repeat match goal with
  | |- context [bool_decide (?a = ?b :> TransferRole)] =>
      let v := eval vm_compute in (bool_decide (a = b)) in change (bool_decide (a = b)) with v
  end; cbv iota.

Ltac can_poll := unfold pollable; split_and!; cbn; first [done|assumption|by auto 10].

Lemma resolve_one mode (Q : unit -> t -> Prop) s :
  one_mode mode -> Z.land mode (mSuppportedXferOpts s) = mode -> Q tt (set_mControlMode mode s) ->
  succeeds (ResolveTransferControlOptions tcp mode) Q s.
Proof.
  intros Hm Hs HQ; unfold ResolveTransferControlOptions.
  replace (BitFlags.HasAny mode _) with true by (by destruct Hm as [->| ->]).
  cbv beta iota delta [negb]; s_run; rewrite Hs; destruct Hm as [->| ->]; cbn; by apply s_upd.
Qed.

Lemma verify_one mode (Q : unit -> t -> Prop) s :
  one_mode mode -> mSuppportedXferOpts s = mode -> Q tt (set_mControlMode mode s) ->
  succeeds (VerifyProposedMode tcp mode) Q s.
Proof.
  intros Hm Hs HQ; unfold VerifyProposedMode.
  replace (proposed_mode mode) with (Some mode) by (by destruct Hm as [->| ->]).
  s_run; rewrite Hs; destruct Hm as [->| ->]; cbn; by apply s_upd.
Qed.

Definition init_type (role : TransferRole) : Z :=
  if bool_decide (role = kSender) then MessageType.SendInit else MessageType.ReceiveInit.
Definition accept_type (role : TransferRole) : Z :=
  if bool_decide (role = kSender) then MessageType.ReceiveAccept else MessageType.SendAccept.
Definition other (role : TransferRole) : TransferRole :=
  match role with kSender => kReceiver | kReceiver => kSender end.

Definition fresh (s : t) : Prop := exists role mode st, s = TransferSession.new role mode st.

Record idle_counters (s : t) : Prop := {
  ic_next : mNextBlockNum s = 0;
  ic_last : mLastBlockNum s = 0;
  ic_query : mLastQueryNum s = 0;
  ic_next_query : mNextQueryNum s = 0;
  ic_bytes : mNumBytesProcessed s = 0;
  ic_start : mTimeoutStartTime s = 0;
  ic_timeout : 0 < mTimeout s }.

Section Negotiation.
Context (HP : packets tcp) (mode size : Z) (offer : TransferInitData).
Context (Hmode : one_mode mode) (Hoffer : offer_ok offer) (Hflags : id_TransferCtlFlags offer = mode).
Context (Hsize : 0 <= size <= id_MaxBlockSize offer).

(** The end that made the offer, until it is answered. *)
Record offering (role : TransferRole) (p : OutputEventType) (s : t) : Prop := {
  of_role : mRole s = role;
  of_state : mState s = kAwaitingAccept;
  of_opts : mSuppportedXferOpts s = mode;
  of_length : mTransferLength s = id_Length offer;
  of_pending : mPendingOutput s = p;
  of_counters : idle_counters s }.

(** The other end, with the offer to consider. *)
Record considering (role : TransferRole) (p : OutputEventType) (r : t) : Prop := {
  co_role : mRole r = role;
  co_state : mState r = kNegotiateTransferParams;
  co_mode : mControlMode r = mode;
  co_proposed : id_TransferCtlFlags (mTransferRequestData r) = mode;
  co_block : id_MaxBlockSize (mTransferRequestData r) = id_MaxBlockSize offer;
  co_version : mTransferVersion r = 0;
  co_length : mTransferLength r = id_Length offer;
  co_waiting : mAwaitingResponse r = false;
  co_pending : mPendingOutput r = p;
  co_counters : idle_counters r }.

(** Either end at the start of the transfer: it waits unless it drives. *)
Definition waits (role : TransferRole) : bool :=
  match role with
  | kSender => mode =? TransferControlFlags.kReceiverDrive
  | kReceiver => mode =? TransferControlFlags.kSenderDrive
  end.
Definition joined (role : TransferRole) (p : OutputEventType) (s : t) : Prop :=
  match role with
  | kSender => sending mode size [] kTransferInProgress (waits role) p s
  | kReceiver => receiving mode size (id_Length offer) [] kTransferInProgress (waits role) p s
  end.

Definition accept_bytes (role : TransferRole) : bytes :=
  match role with
  | kSender => encoding (MkReceiveAccept mode 0 0 size (id_StartOffset offer) (id_Length offer) None)
  | kReceiver => encoding (MkSendAccept mode 0 size None)
  end.

Lemma join role p s :
  mRole s = role -> mState s = kTransferInProgress -> mControlMode s = mode ->
  mTransferMaxBlockSize s = size -> mTransferLength s = id_Length offer -> idle_counters s ->
  mAwaitingResponse s = waits role -> mPendingOutput s = p -> joined role p s.
Proof.
  intros Hr Hs Hm Hz Hl [] Hw Hp; destruct role; constructor; auto.
  intros Hsd; cbn [waits]; by rewrite (proj2 (Z.eqb_neq _ _) Hsd).
Qed.

Lemma length_range_bytes v wide : (length (range_bytes v wide) <= 8)%nat.
Proof. unfold range_bytes; destruct (0 <? v), wide; rewrite ?length_le_split; cbn; lia. Qed.

Lemma accept_size role : (length (accept_bytes role) <= 20)%nat.
Proof.
  destruct role; cbn [accept_bytes].
  - change (length (encoding _)) with (length ([mode] ++ le_split 2 size)); cbn; lia.
  - change (encoding _) with (ReceiveAccept_bytes
      (MkReceiveAccept mode 0 0 size (id_StartOffset offer) (id_Length offer) None)).
    unfold ReceiveAccept_bytes; destruct (range_flags _ _) as [flags wide].
    pose proof (length_range_bytes (id_StartOffset offer) wide).
    pose proof (length_range_bytes (id_Length offer) wide).
    rewrite !length_app, length_le_split; cbn [length span_bytes ra_Metadata default ra_StartOffset ra_Length]; lia.
Qed.

Lemma accept_packet role : (length (accept_bytes role) <= kMaxSize - kMaxFooterSize)%nat.
Proof.
  pose proof (accept_size role).
  unfold kMaxSize, kMaxFooterSize, kMaxSizeWithoutReserve, kDefaultHeaderReserve; lia.
Qed.

Lemma mode_control : control_ok mode.
Proof. destruct Hmode as [->| ->]; split; (done || by compute). Qed.

Lemma size_u16 : is_u16 size.
Proof. destruct Hoffer as [[_ _ Hb _ _ _] _]; cbn in Hb; unfold is_u16, is_uint in *; lia. Qed.

Lemma accept_short role : Z.of_nat (length (accept_bytes role)) < 65536.
Proof. pose proof (accept_size role); lia. Qed.

Lemma start_offer role t1 s :
  fresh s -> 0 < t1 ->
  succeeds (StartTransfer tcp role offer t1)
    (fun _ s' => offering role kMsgToSend s' /\
       outbox s' = [(bdx (init_type role), encoding (init_message offer))]) s.
Proof.
  intros (r0 & m0 & st0 & ->) Ht; unfold StartTransfer; s_run; [apply Hoffer|].
  split; [by repeat constructor|]; unfold outbox; cbn; by rewrite Hq.
Qed.

Lemma hear_offer role opts (maxBlock : Z) t2 r :
  fresh r -> 0 < t2 -> Z.land mode opts = mode ->
  succeeds (WaitForTransfer role opts maxBlock t2)
    (fun _ r' => mPendingOutput r' = kNone /\
       succeeds (dispatch tcp (init_type (other role)) (packet_of (encoding (init_message offer))))
         (fun _ r'' => considering role kInitReceived (set_mTimeoutStartTime 0 r'')) r') r.
Proof.
  intros (r0 & m0 & st0 & ->) Ht Hopts; unfold WaitForTransfer; s_run; split; [done|].
  assert (dispatch tcp (init_type (other role)) = HandleTransferInit tcp (init_type (other role))) as ->
    by by destruct role.
  unfold HandleTransferInit; s_run; [by destruct role|].
  eapply s_parsing; [by apply parse_init|].
  change (TransferCtlOptions (received (init_message offer))) with (id_TransferCtlFlags offer).
  rewrite Hflags; s_run; apply resolve_one; [done|exact Hopts|]; s_run.
  by repeat constructor.
Qed.

Lemma accept_offer role r :
  considering role kNone r ->
  succeeds (AcceptTransfer tcp (answer mode size offer))
    (fun _ r' => joined role kMsgToSend r' /\ outbox r' = [(bdx (accept_type role), accept_bytes role)]) r.
Proof.
  intros [] ; pose proof co_counters0 as []; unfold AcceptTransfer; s_run.
  - rewrite co_proposed0; by destruct Hmode as [->| ->].
  - rewrite co_block0; apply Z.leb_le; cbn; lia.
  - rewrite co_role0, co_mode0, co_version0; destruct role; decided; s_run; try first [exact (accept_packet kSender)|exact (accept_packet kReceiver)];
      cbn [andb orb] in Hc; rewrite ?orb_false_r in Hc;
      (split; [|unfold outbox; cbn; by rewrite Hq]);
      apply join; cbn [waits]; rewrite ?Hc; try done; by constructor.
Qed.

Lemma hear_accept role s :
  offering role kNone s ->
  succeeds (dispatch tcp (accept_type (other role)) (packet_of (accept_bytes (other role))))
    (fun _ s' => joined role kAcceptReceived (set_mTimeoutStartTime 0 s')) s.
Proof.
  intros []; pose proof of_counters0 as []; pose proof (ti_range _ (of_message _ Hoffer)) as Hrange.
  pose proof mode_control; pose proof size_u16.
  destruct role; cbn [other].
  - change (dispatch tcp (accept_type kSender)) with (HandleReceiveAccept tcp).
    unfold HandleReceiveAccept; s_run; eapply s_parsing.
    { rewrite data_packet_of; apply parse_encoding; [by split_and!|apply (accept_short kSender)]. }
    s_run; apply verify_one; [done|done|]; unfold accepted; s_run;
      [|by apply bool_decide_eq_false in Hc].
    apply join; try done; by constructor.
  - change (dispatch tcp (accept_type kReceiver)) with (HandleSendAccept tcp).
    unfold HandleSendAccept; s_run; eapply s_parsing.
    { rewrite data_packet_of; apply parse_encoding; [by split_and!|apply (accept_short kReceiver)]. }
    s_run; apply verify_one; [done|done|]; unfold accepted; s_run;
      [|by apply bool_decide_eq_false in Hc].
    apply join; try done; by constructor.
Qed.


Lemma offering_idle role p o s : offering role p s -> offering role kNone (idle o s).
Proof. intros [? ? ? ? ? []]; by repeat constructor. Qed.

Lemma considering_idle role p o s : considering role p s -> considering role kNone (idle o s).
Proof. intros [? ? ? ? ? ? ? ? ? []]; by repeat constructor. Qed.

Lemma joined_idle role p o s : joined role p s -> joined role kNone (idle o s).
Proof. destruct role; [apply receiving_idle|apply sending_idle]. Qed.

Lemma counters_pollable s :
  idle_counters s -> mState s <> kErrorState ->
  mPendingOutput s ∈ [kMsgToSend; kInitReceived; kAcceptReceived] -> pollable s.
Proof.
  intros [] He Hp; unfold pollable; split_and!; [done..|].
  repeat (apply list.elem_of_cons in Hp as [->|Hp]; [tauto|]); by apply list.not_elem_of_nil in Hp.
Qed.

Lemma joined_pollable role p s : joined role p s -> p ∈ [kMsgToSend; kAcceptReceived] -> pollable s.
Proof.
  intros J Hp; assert (p = kMsgToSend \/ p = kAcceptReceived) as [->| ->] by set_solver;
    (destruct role; [eapply receiving_pollable|eapply sending_pollable]; first [exact J|done|compute_done]).
Qed.

Lemma joined_pending role p s : joined role p s -> mPendingOutput s = p.
Proof. destruct role; [apply rc_pending|apply sd_pending]. Qed.

Lemma offering_pollable role s : offering role kMsgToSend s -> pollable s.
Proof. intros []; apply counters_pollable; [done|congruence|rewrite of_pending0; compute_done]. Qed.

Lemma considering_pollable role s : considering role kInitReceived s -> pollable s.
Proof. intros []; apply counters_pollable; [done|congruence|rewrite co_pending0; compute_done]. Qed.

Lemma held_other s : mPendingOutput s <> kBlockReceived -> held s = [].
Proof. intros H; unfold held; by rewrite bool_decide_eq_false_2. Qed.

(** Each end may start. *)
Lemma negotiate (initiator : TransferRole) opts (maxBlock : Z) t1 t2 s r Q :
  Z.land mode opts = mode -> 0 < t1 -> 0 < t2 -> fresh s -> fresh r ->
  (forall s' r' tr' ts', joined kSender kNone s' -> joined kReceiver kNone r' -> can s' r' tr' ts' [] [] Q) ->
  can s r [] [] [] [] Q.
Proof.
  intros Hopts Ht1 Ht2 Fs Fr H; destruct initiator.
  - apply (can_receiver_call (CallStart offer t1)); [done|]; cbn [run].
    eapply s_mono; [by apply start_offer|]; intros _ r1 [O1 Ob1].
    eapply (can_receiver_poll _ []); [by eapply offering_pollable|exact Ob1
      |apply held_other; by rewrite (of_pending _ _ _ O1)|intros o1].
    apply (can_sender_call (CallWait opts maxBlock t2)); cbn [run given].
    eapply s_mono; [by apply (hear_offer kSender)|]; intros _ s1 [Hp Hh].
    eapply (can_sender_hear (init_type kReceiver)); [apply elem_of_last|exact Hp|].
    eapply s_mono; [exact Hh|]; intros [] s2 C2.
    eapply (can_sender_poll []); [by eapply considering_pollable|apply outbox_none; by rewrite (co_pending _ _ _ C2)|intros o2].
    apply (can_sender_call (CallAccept (answer mode size offer))); cbn [run given].
    eapply s_mono; [by eapply (accept_offer kSender), considering_idle|]; intros _ s3 [J3 Ob3].
    eapply can_sender_poll; [eapply joined_pollable; [exact J3|compute_done]|exact Ob3|intros o3].
    eapply (can_receiver_hear (accept_type kSender)); [apply elem_of_last|done|].
    eapply s_mono; [by eapply (hear_accept kReceiver), offering_idle|]; intros [] r2 J2.
    eapply (can_receiver_poll [] []); [eapply joined_pollable; [exact J2|compute_done]
      |apply outbox_none; by rewrite (joined_pending _ _ _ J2)|apply held_other; by rewrite (joined_pending _ _ _ J2)|intros o4].
    apply H; by eapply joined_idle.
  - apply (can_sender_call (CallStart offer t1)); cbn [run given].
    eapply s_mono; [by apply start_offer|]; intros _ s1 [O1 Ob1].
    eapply can_sender_poll; [by eapply offering_pollable|exact Ob1|intros o1].
    apply (can_receiver_call (CallWait opts maxBlock t2)); [done|]; cbn [run].
    eapply s_mono; [by apply (hear_offer kReceiver)|]; intros _ r1 [Hp Hh].
    eapply (can_receiver_hear (init_type kSender)); [apply elem_of_last|exact Hp|].
    eapply s_mono; [exact Hh|]; intros [] r2 C2.
    eapply (can_receiver_poll [] []); [by eapply considering_pollable
      |apply outbox_none; by rewrite (co_pending _ _ _ C2)|apply held_other; by rewrite (co_pending _ _ _ C2)|intros o2].
    apply (can_receiver_call (CallAccept (answer mode size offer))); [done|]; cbn [run].
    eapply s_mono; [by eapply (accept_offer kReceiver), considering_idle|]; intros _ r3 [J3 Ob3].
    eapply (can_receiver_poll _ []); [eapply joined_pollable; [exact J3|compute_done]|exact Ob3
      |apply held_other; by rewrite (joined_pending _ _ _ J3)|intros o3].
    eapply (can_sender_hear (accept_type kReceiver)); [apply elem_of_last|done|].
    eapply s_mono; [by eapply (hear_accept kSender), offering_idle|]; intros [] s2 J2.
    eapply (can_sender_poll []); [eapply joined_pollable; [exact J2|compute_done]
      |apply outbox_none; by rewrite (joined_pending _ _ _ J2)|intros o4].
    apply H; by eapply joined_idle.
Qed.
End Negotiation.

(** C11: A transfer can always be brought to its end: whichever end starts it and
    whichever end drives it, when the responder shares the one mode that is offered, the
    block size accepted is not above the one offered, and no block is above that size,
    the two sessions reach [kTransferDone] with the file delivered as it was given - an
    empty last block included, and with the length announced in the offer, if one was,
    respected.  Packets are assumed to be had. *)
Theorem bdx_transfer_completes (initiator : TransferRole) mode size offer opts (maxBlock : Z) t1 t2
    (file : list bytes) (last : bytes) role role' m m' st st' h :
  packets tcp ->
  one_mode mode -> id_TransferCtlFlags offer = mode -> Z.land mode opts = mode ->
  offer_ok offer -> 0 <= size <= id_MaxBlockSize offer -> size_ok size -> 0 < t1 -> 0 < t2 ->
  Forall (fun d => d <> [] /\ Z.of_nat (length d) <= size) file -> Z.of_nat (length last) <= size ->
  id_Length offer = 0 \/ total (blocks file ++ [(last, true)]) <= id_Length offer < 2 ^ 64 ->
  exists w, rtc (step tcp) (new_world role role' m m' st st' h) w /\
    mState (sender w) = kTransferDone /\ mState (receiver w) = kTransferDone /\
    sent w = blocks file ++ [(last, true)] /\ delivered w = sent w.
Proof.
  intros HP Hmode Hflags Hopts Hoffer Hsz Hsize Ht1 Ht2 Hfile Hlast Hlen.
  apply (negotiate HP mode size offer Hmode Hoffer Hflags Hsz initiator opts maxBlock t1 t2);
    [done|done|done|by eexists _, _, _|by eexists _, _, _|].
  intros s r tr ts S R; cbn [joined waits] in *; destruct Hmode as [->| ->].
  - eapply (all_rounds HP TransferControlFlags.kSenderDrive size (id_Length offer) Hsize file last); [by left|done|done|done|exact S|exact R|auto].
  - eapply (query_round HP TransferControlFlags.kReceiverDrive size (id_Length offer)); [done|exact S|exact R|].
    intros s' r' ts' S' R'; eapply (all_rounds HP TransferControlFlags.kReceiverDrive size (id_Length offer) Hsize file last); [by right|done|done|done|exact S'|exact R'|auto].
Qed.

(** ** Negotiation without one common mode *)

Definition any_drive : list Z := [TransferControlFlags.kSenderDrive; TransferControlFlags.kReceiverDrive].

(** The responder waits for the offer and hears it. *)
Definition consider (role : TransferRole) (opts maxBlock timeout : Z) (offer : TransferInitData) : M St unit :=
  WaitForTransfer role opts maxBlock timeout ;;
  HandleMessageReceived tcp (header_of (bdx (init_type (other role))))
    (Some (packet_of (encoding (init_message offer)))) 0.

Lemma consider_steps role opts (maxBlock timeout : Z) offer (Q : t -> Prop) r :
  offer_ok offer -> mState r = kUnitialized -> mPendingOutput r = kNone ->
  let r1 := set_mState kAwaitingInitMsg (set_mMaxSupportedBlockSize maxBlock
              (set_mSuppportedXferOpts opts (set_mTimeout timeout (set_mRole role r)))) in
  succeeds (ResolveTransferControlOptions tcp (id_TransferCtlFlags offer))
    (fun _ r2 => forall b,
       Q (set_mTimeoutStartTime 0 (set_mState kNegotiateTransferParams (set_mPendingOutput kInitReceived
            (set_mPendingMsgHandle (Some (packet_of (encoding (init_message offer))))
              (set_mTransferRequestData (MkInitData (id_TransferCtlFlags offer) (id_MaxBlockSize offer)
                 (id_StartOffset offer) (id_Length offer) (Some (span_bytes (id_FileDesignator offer)))
                 (id_FileDesLength offer) (no_empty (id_Metadata offer)))
                (set_mTransferLength (id_Length offer) (set_mStartOffset (id_StartOffset offer)
                  (set_mTransferMaxBlockSize b (set_mTransferVersion 0 r2)))))))))) r1 ->
  succeeds (consider role opts maxBlock timeout offer) (fun _ => Q) r.
Proof.
  intros Ho Hs Hp r1 H; unfold consider, WaitForTransfer; s_run.
  apply hears; [exact Hp|].
  assert (dispatch tcp (init_type (other role)) = HandleTransferInit tcp (init_type (other role))) as ->
    by by destruct role.
  unfold HandleTransferInit; s_run; [by destruct role|].
  eapply s_parsing; [by apply parse_init|]; s_run.
  eapply s_mono; [exact H|]; intros [] r2 HQ; s_run; apply HQ.
Qed.

Lemma resolve_none modes (Q : unit -> t -> Prop) r :
  packets tcp -> Z.land modes (mSuppportedXferOpts r) = 0 ->
  (forall q, Q tt (reported StatusCode.kTransferMethodNotSupported q r)) ->
  succeeds (ResolveTransferControlOptions tcp modes) Q r.
Proof.
  intros HP Hc HQ; unfold ResolveTransferControlOptions; destruct (negb _); s_run; [apply HQ|].
  rewrite Hc; cbn [Z.eqb]; s_run; apply HQ.
Qed.

Lemma not_only c f :
  BitFlags.HasAll c any_drive = true -> Z.land f 0x30 <> 0x30 -> BitFlags.HasOnly c [f] = false.
Proof.
  unfold BitFlags.HasAll, BitFlags.HasOnly; cbn [BitFlags.Or foldr]; rewrite Z.lor_0_r.
  intros Hc%Z.eqb_eq Hf; apply Z.eqb_neq; intros E; apply Hf; change (BitFlags.Or any_drive) with 0x30 in Hc.
  assert (Z.land (Z.land c f) 0x30 = 0x30) as H by (by rewrite E).
  rewrite <-Z.land_assoc, (Z.land_comm f), Z.land_assoc, Hc in H; by rewrite Z.land_comm.
Qed.

Lemma common_has modes opts :
  BitFlags.HasAll (Z.land modes opts) any_drive = true ->
  BitFlags.Has modes TransferControlFlags.kSenderDrive = true /\
  BitFlags.Has modes TransferControlFlags.kReceiverDrive = true.
Proof.
  intros H%Z.eqb_eq; change (BitFlags.Or any_drive) with 0x30 in H.
  assert (forall n, Z.testbit 0x30 n = true -> Z.testbit modes n = true) as Hb.
  { intros n Hn; rewrite <-H, !Z.land_spec in Hn; by do 2 apply andb_true_iff in Hn as [Hn _]. }
  split; [change TransferControlFlags.kSenderDrive with (2 ^ 4)|change TransferControlFlags.kReceiverDrive with (2 ^ 5)];
    rewrite BitFlags.Has_testbit by lia; by apply Hb.
Qed.

Lemma resolve_two modes (Q : unit -> t -> Prop) r :
  BitFlags.HasAll (Z.land modes (mSuppportedXferOpts r)) any_drive = true -> Q tt r ->
  succeeds (ResolveTransferControlOptions tcp modes) Q r.
Proof.
  intros Hc HQ; unfold ResolveTransferControlOptions.
  assert (Z.land (Z.land modes (mSuppportedXferOpts r)) 0x30 = 0x30) as E by by apply Z.eqb_eq in Hc.
  assert (BitFlags.HasAny modes any_drive = true) as Ha.
  { unfold BitFlags.HasAny; change (BitFlags.Or any_drive) with 0x30.
    apply negb_true_iff, Z.eqb_neq; intros H.
    by rewrite <-Z.land_assoc, (Z.land_comm (mSuppportedXferOpts r)), Z.land_assoc, H in E. }
  fold any_drive; rewrite Ha; cbn [negb]; s_run.
  destruct (Z.eqb_spec (Z.land modes (mSuppportedXferOpts r)) 0) as [H0|_]; [by rewrite H0 in E|].
  rewrite !not_only by done; by apply s_ret.
Qed.

Definition refused {A} (m : M St A) (r : t) : Prop := forall h, (m (r, h)).1 = Err CHIP_ERROR_INCORRECT_STATE.

Lemma may_not_prepare {A} role (k : unit -> M St A) r :
  mRole r = role -> mState r = kTransferInProgress -> mPendingOutput r = kNone ->
  mAwaitingResponse r = true -> refused (bind (may_prepare role) k) r.
Proof.
  intros Hr Hs Hp Hw h; unfold may_prepare, bind, self, verify.
  by rewrite !bool_decide_eq_true_2, Hw by done.
Qed.

Lemma s_poll (Q : OutputEvent -> t -> Prop) s :
  pollable s -> (forall e o, event_messages e = outbox s -> Q e (idle o s)) -> succeeds (PollOutput 0) Q s.
Proof. intros Hs HQ h; destruct (poll_idle s h Hs) as (e & o & E & Hm & _); exists e, (idle o s), h; auto. Qed.

(** The responder of an offer with two modes, whatever mode it had. *)
Record stale_offer (role : TransferRole) (stale : Z) (offer : TransferInitData) (p : OutputEventType) (r : t) : Prop := {
  so_role : mRole r = role;
  so_state : mState r = kNegotiateTransferParams;
  so_mode : mControlMode r = stale;
  so_proposed : id_TransferCtlFlags (mTransferRequestData r) = id_TransferCtlFlags offer;
  so_block : id_MaxBlockSize (mTransferRequestData r) = id_MaxBlockSize offer;
  so_version : mTransferVersion r = 0;
  so_pending : mPendingOutput r = p;
  so_start : mTimeoutStartTime r = 0;
  so_timeout : 0 < mTimeout r }.

Lemma accept_stale role stale offer mode size r :
  packets tcp -> stale_offer role stale offer kNone r ->
  BitFlags.Has (id_TransferCtlFlags offer) mode = true -> size <= id_MaxBlockSize offer ->
  succeeds (AcceptTransfer tcp (answer mode size offer))
    (fun _ r' => pollable r' /\ outbox r' = [(bdx (accept_type role), accept_bytes mode size offer role)] /\
       mRole r' = role /\ mState r' = kTransferInProgress /\ mControlMode r' = stale /\
       (waits stale role = true -> mAwaitingResponse r' = true)) r.
Proof.
  intros HP [] Hm Hz; unfold AcceptTransfer; s_run.
  - by rewrite so_proposed0.
  - rewrite so_block0; by apply Z.leb_le.
  - rewrite so_role0, so_mode0, so_version0; destruct role; decided; s_run;
      try first [exact (accept_packet mode size offer kSender)|exact (accept_packet mode size offer kReceiver)];
      cbn [andb orb] in Hc; rewrite ?orb_false_r in Hc; cbn [waits];
      (split; [can_poll|split; [unfold outbox; cbn; by rewrite Hq|]]);
      split_and!; try done; by rewrite Hc.
Qed.

(** C40: What negotiation does when the two ends do not share exactly one mode.  With none
    in common the responder prepares a status report and then goes on: the report is
    overwritten, the offer is handed to the application and can be accepted.  With both
    drives in common "the application must pick", but accepting does not record what it
    picked: the peer is told the mode of the answer and the session keeps the mode it
    had before (whatever the memory held, or that of an earlier transfer), so that a
    receiver that picked receiver drive can be refused its own first query, and a sender
    that picked sender drive its own first block. *)
Theorem negotiation_defects role role0 stale st opts maxBlock timeout offer mode size :
  packets tcp -> offer_ok offer -> 0 < timeout ->
  one_mode mode -> 0 <= size <= id_MaxBlockSize offer ->
  let start := TransferSession.new role0 stale st in
  let common := Z.land (id_TransferCtlFlags offer) opts in
  (common = 0 ->
     succeeds (consider role opts maxBlock timeout offer)
       (fun _ r => mState r = kNegotiateTransferParams /\ mPendingOutput r = kInitReceived /\
          outbox r = [] /\ mControlMode r = stale) start) /\
  (BitFlags.HasAll common any_drive = true ->
     succeeds (consider role opts maxBlock timeout offer ;; PollOutput 0 ;;
               AcceptTransfer tcp (answer mode size offer) ;; PollOutput 0)
       (fun e r => event_messages e = [(bdx (accept_type role), accept_bytes mode size offer role)] /\
          mState r = kTransferInProgress /\ mControlMode r = stale /\
          (role = kReceiver -> stale = TransferControlFlags.kSenderDrive -> refused (PrepareBlockQuery tcp) r) /\
          (role = kSender -> stale = TransferControlFlags.kReceiverDrive ->
           forall inData, refused (PrepareBlock tcp inData) r)) start).
Proof.
  intros HP Ho Ht Hm Hz start common; split; intros Hc.
  - apply (consider_steps role opts maxBlock timeout offer (fun r => _)); [done..|].
    apply resolve_none; [done|exact Hc|]; by intros q b.
  - apply s_bind; apply (consider_steps role opts maxBlock timeout offer (fun r => _)); [done..|].
    apply resolve_two; [exact Hc|]; intros b.
    apply s_bind, s_poll; [can_poll|]; intros _ o _; apply s_bind.
    eapply s_mono; [eapply (accept_stale role stale offer mode size); [done|by constructor| |lia]|].
    { destruct (common_has (id_TransferCtlFlags offer) opts Hc); by destruct Hm as [->| ->]. }
    intros [] r (Hp & Ho' & Hr & Hs & Hmode & Hw); apply s_poll; [done|]; intros e o' He.
    rewrite He, Ho'; split_and!; [done..| |]; intros -> ->; [|intros inData];
      apply may_not_prepare; try done; by apply Hw.
Qed.
End Complete.

(** ** Concrete sessions *)

Section Concrete.
#[local] Existing Instances reference_byte_order zero_memory.

Lemma zero_packets : packets false.
Proof.
  intros n h Hn; unfold MessagePacketBuffer_New; rewrite (proj2 (Nat.ltb_ge _ _)) by done.
  unfold New, kMaxSize, kMaxFooterSize, kMaxAllocSize, kMaxSizeWithoutReserve, kDefaultHeaderReserve in *.
  destruct (Z.ltb_spec 4294967295 (Z.of_nat (n + 16))); [lia|].
  match goal with |- context [(?a <? ?b)%nat] => destruct (Nat.ltb_spec a b); [lia|] end.
  cbn [MemoryAlloc zero_memory fmap option_fmap option_map]; eauto.
Qed.

(** Five bytes announced; the modes are [modes]. *)
Definition offer_of (modes : Z) : TransferInitData := MkInitData modes 1024 0 5 (Some [102; 111; 111]) 3 None.

Lemma offer_of_ok modes : modes ∈ [0x10; 0x20; 0x30] -> offer_ok (offer_of modes).
Proof.
  intros Hm; repeat (apply list.elem_of_cons in Hm as [->|Hm]; [split;
    [constructor; unfold version_ok, control_ok, range_ok, is_u8, is_u16, is_u64, is_uint; cbn; repeat split; (lia || done)
    |apply Nat.leb_le; vm_compute; reflexivity]|]); by apply list.not_elem_of_nil in Hm.
Qed.

Lemma bdx_transfer_completes_witness :
  exists w, rtc (step false) (new_world kSender kSender 0 0 0 0 tt) w /\
    mState (sender w) = kTransferDone /\ mState (receiver w) = kTransferDone /\
    delivered w = [([1; 2; 3], false); ([4; 5], true)].
Proof.
  destruct (@bdx_transfer_completes zero_memory reference_byte_order false kReceiver TransferControlFlags.kSenderDrive 3
    (offer_of TransferControlFlags.kSenderDrive) 0x30 1024 60 60 [[1; 2; 3]] [4; 5] kSender kSender 0 0 0 0 tt)
    as (w & Hw & H1 & H2 & H3 & H4).
  - exact zero_packets.
  - by left.
  - reflexivity.
  - reflexivity.
  - apply offer_of_ok; compute_done.
  - cbn; lia.
  - unfold size_ok, kMaxSize, kMaxFooterSize, kMaxSizeWithoutReserve, kDefaultHeaderReserve; lia.
  - lia.
  - lia.
  - repeat constructor; (done || cbn; lia).
  - cbn; lia.
  - right; vm_compute; split; [discriminate|reflexivity].
  - exists w; split; [exact Hw|]; split; [exact H1|]; split; [exact H2|]; by rewrite H4, H3.
Defined.

(** A receiver whose memory held sender drive picks receiver drive, and its first query
    is refused. *)
Lemma negotiation_defects_witness :
  succeeds (consider false kReceiver 0x30 1024 60 (offer_of 0x30) ;; PollOutput 0 ;;
            AcceptTransfer false (answer 0x20 512 (offer_of 0x30)) ;; PollOutput 0)
    (fun _ r => refused (PrepareBlockQuery false) r) (TransferSession.new kSender 0x10 0).
Proof.
  eapply s_mono; [refine (proj2 (negotiation_defects false kReceiver kSender 0x10 0 0x30 1024 60 (offer_of 0x30) 0x20 512
    zero_packets _ _ _ _) _)|].
  - apply offer_of_ok; compute_done.
  - lia.
  - by right.
  - cbn; lia.
  - reflexivity.
  - intros e r (_ & _ & _ & H & _); by apply H.
Defined.
End Concrete.
