(* ===== verification/Pool.v ===== *)
(** * Pool: object pools and reference counts

    src/src/lib/support/Pool.{h,cpp}: [BitMapObjectPool], a fixed number of slots and
    one usage bit for each.  A slot in use holds its object, so the pool is a list of
    optional objects and a pointer to an object is the index of its slot.  The words of
    the bitmap do not occur: [Allocate] takes the first clear bit of the whole map, and
    an iteration visits the bits that were set when it began (the pools of this library
    fit in one word).

    The lemmas count, for the objects of one pool, the slots of another pool that hold a
    pointer to them. *)

From S2P Require Import Prelude.

Section Pool.
Context {T : Type}.
Implicit Types (pool : list (option T)) (i : nat) (x : T).

(** [T * At(index)] of a slot in use. *)
Definition At pool i : option T := mjoin (pool !! i).

(** The first index whose bit is clear. *)
Fixpoint Allocate pool : option nat :=
  match pool with
  | [] => None
  | None :: _ => Some O
  | Some _ :: pool => S <$> Allocate pool
  end.

Definition CreateObject pool x : option (nat * list (option T)) :=
  i ← Allocate pool; Some (i, <[i := Some x]> pool).

(** [Deallocate] stops the program when the slot is not in use. *)
Definition Deallocate pool i : result (list (option T)) :=
  match At pool i with Some _ => Ok (<[i := None]> pool) | None => Err PROGRAM_ABORT end.

(** The indices an iteration visits. *)
Fixpoint active_from (n : nat) pool : list nat :=
  match pool with
  | [] => []
  | None :: pool => active_from (S n) pool
  | Some _ :: pool => n :: active_from (S n) pool
  end.
Definition active_indices pool : list nat := active_from 0 pool.

Definition Allocated pool : nat := length (active_indices pool).

(** ** What the operations do *)

Lemma At_insert pool i j o :
  (i < length pool)%nat -> At (<[i := o]> pool) j = if decide (i = j) then o else At pool j.
Proof.
  intros Hi; unfold At; case_decide; [subst; by rewrite list_lookup_insert_eq|].
  by rewrite list_lookup_insert_ne.
Qed.

Lemma At_range pool i x : At pool i = Some x -> (i < length pool)%nat.
Proof.
  unfold At; destruct (pool !! i) eqn:E; [|done].
  intros _; by eapply lookup_lt_Some.
Qed.

Lemma Allocate_free pool i :
  Allocate pool = Some i -> (i < length pool)%nat /\ At pool i = None.
Proof.
  revert i; induction pool as [|[x|] pool IH]; intros i; cbn [Allocate]; [done| |].
  - destruct (Allocate pool) as [j|] eqn:E; [|done]; intros [= <-].
    destruct (IH j eq_refl) as [Hj HAt]; split; [cbn; lia|done].
  - intros [= <-]; split; [cbn; lia|done].
Qed.

Lemma Allocate_full pool : Allocate pool = None -> forall i, (i < length pool)%nat -> exists x, At pool i = Some x.
Proof.
  induction pool as [|[x|] pool IH]; cbn [Allocate]; intros H i Hi; [cbn in Hi; lia| |done].
  destruct i as [|i]; [by exists x|].
  destruct (Allocate pool) eqn:E; [done|]; apply IH; [done|cbn in Hi; lia].
Qed.

Lemma active_from_spec n pool i :
  In i (active_from n pool) <-> exists j, i = (n + j)%nat /\ exists x, At pool j = Some x.
Proof.
  revert n; induction pool as [|[x|] pool IH]; intros n; cbn [active_from].
  - split; [done|intros (j & _ & x & H); done].
  - cbn [In]; rewrite IH; split.
    + intros [<-|(j & -> & y & Hy)]; [exists O; split; [lia|by exists x]|].
      exists (S j); split; [lia|by exists y].
    + intros ([|j] & -> & y & Hy); [left; lia|right].
      exists j; split; [lia|by exists y].
  - rewrite IH; split.
    + intros (j & -> & y & Hy); exists (S j); split; [lia|by exists y].
    + intros ([|j] & -> & y & Hy); [done|exists j; split; [lia|by exists y]].
Qed.

Lemma active_indices_spec pool i : In i (active_indices pool) <-> exists x, At pool i = Some x.
Proof.
  unfold active_indices; rewrite active_from_spec; split.
  - by intros (j & -> & H).
  - intros H; by exists i.
Qed.

Lemma active_from_NoDup n pool : NoDup (active_from n pool).
Proof.
  revert n; induction pool as [|[x|] pool IH]; intros n; cbn [active_from]; [constructor| |apply IH].
  constructor; [|apply IH].
  rewrite list_elem_of_In, active_from_spec; intros (j & Hj & _); lia.
Qed.

Lemma active_indices_NoDup pool : NoDup (active_indices pool).
Proof. apply active_from_NoDup. Qed.

(** ** Counting the objects with a property *)

Definition hit (P : T -> bool) (o : option T) : nat :=
  match o with Some x => if P x then 1 else 0 | None => 0 end.
Definition tally (P : T -> bool) pool : nat := sum_list_with (hit P) pool.

Lemma tally_cons P o pool : tally P (o :: pool) = (hit P o + tally P pool)%nat.
Proof. done. Qed.

Lemma tally_insert P pool i o o' :
  pool !! i = Some o -> (tally P (<[i := o']> pool) + hit P o = tally P pool + hit P o')%nat.
Proof.
  revert i; induction pool as [|y pool IH]; intros [|i] H; try done.
  - injection H as ->; change (<[0%nat:=o']> (o :: pool)) with (o' :: pool); rewrite !tally_cons; lia.
  - specialize (IH i H); change (<[S i:=o']> (y :: pool)) with (y :: <[i:=o']> pool).
    rewrite !tally_cons; lia.
Qed.

Lemma tally_create P pool i x :
  (i < length pool)%nat -> At pool i = None ->
  tally P (<[i := Some x]> pool) = (tally P pool + (if P x then 1 else 0))%nat.
Proof.
  intros Hi H; unfold At in H; destruct (lookup_lt_is_Some_2 pool i Hi) as [o Ho].
  rewrite Ho in H; cbn in H; subst o.
  pose proof (tally_insert P pool i None (Some x) Ho) as E; cbn [hit] in E; lia.
Qed.

Lemma tally_replace P pool i x o :
  At pool i = Some x ->
  (tally P (<[i := o]> pool) + (if P x then 1 else 0) = tally P pool + hit P o)%nat.
Proof.
  unfold At; destruct (pool !! i) as [o'|] eqn:E; [|done]; cbn; intros ->.
  exact (tally_insert P pool i (Some x) o E).
Qed.

Lemma tally_pos P pool i x : At pool i = Some x -> P x = true -> (0 < tally P pool)%nat.
Proof.
  intros H HP; pose proof (tally_replace P pool i x None H) as E; rewrite HP in E; cbn in E; lia.
Qed.

Lemma tally_none P pool :
  (forall i x, At pool i = Some x -> P x = false) -> tally P pool = 0%nat.
Proof.
  induction pool as [|o pool IH]; intros H; [done|].
  rewrite tally_cons, IH by (intros i x Hx; apply (H (S i) x Hx)).
  destruct o as [x|]; [|done]; cbn [hit]; by rewrite (H O x eq_refl).
Qed.

Lemma tally_unique P pool i j x y :
  (tally P pool <= 1)%nat -> At pool i = Some x -> P x = true -> At pool j = Some y -> P y = true -> i = j.
Proof.
  intros Hle Hi Px Hj Py; destruct (decide (i = j)) as [|Hne]; [done|exfalso].
  pose proof (tally_replace P pool i x None Hi) as E; rewrite Px in E; cbn in E.
  assert (Hj' : At (<[i := None]> pool) j = Some y).
  { rewrite At_insert by (by eapply At_range); by rewrite decide_False by done. }
  pose proof (tally_pos P _ j y Hj' Py); lia.
Qed.

End Pool.

Arguments At : simpl never.
