(* ===== verification/Runs.v ===== *)
(** * Runs: total correctness in the state-and-error monad

    [runs m w Q]: [m], started in [w], ends without an error, in a value and a state with
    [Q].  The rules for the building blocks that components with objects behind pointers
    share: [deref] follows a pointer, [VerifyOrDie] stops the program, [for_each] visits
    the slots of a pool that were in use when the iteration began. *)

From S2P Require Import Prelude Encoding Pool.

Definition deref {S A} (find : S -> option A) : M S A := fun w =>
  (match find w with Some x => Ok x | None => Err UNDEFINED_BEHAVIOUR end, w).
Definition VerifyOrDie {S} (b : bool) : M S unit := verify b PROGRAM_ABORT.
Definition no_error (err : CHIP_ERROR) : bool := bool_decide (err = CHIP_NO_ERROR).

Fixpoint for_each {S} (l : list nat) (f : nat -> M S unit) : M S unit :=
  match l with [] => ret tt | i :: l => f i ;; for_each l f end.

Definition runs {S A} (m : M S A) (w : S) (Q : A -> S -> Prop) : Prop :=
  match m w with (Ok a, w') => Q a w' | (Err _, _) => False end.

Section Rules.
Context {S A B : Type}.
Implicit Types (w : S).

Lemma runs_mono (m : M S A) w (P Q : A -> S -> Prop) :
  runs m w P -> (forall a w', P a w' -> Q a w') -> runs m w Q.
Proof. unfold runs; destruct (m w) as [[a|e] w']; auto. Qed.

Lemma runs_seq (m : M S A) (k : A -> M S B) w Q :
  runs m w (fun a w' => runs (k a) w' Q) -> runs (bind m k) w Q.
Proof. unfold runs, bind; destruct (m w) as [[a|e] w']; auto. Qed.

Lemma runs_then (m : M S A) (k : A -> M S B) w P Q :
  runs m w P -> (forall a w', P a w' -> runs (k a) w' Q) -> runs (bind m k) w Q.
Proof. intros H HP; apply runs_seq; by eapply runs_mono. Qed.

Lemma runs_ret (a : A) w (Q : A -> S -> Prop) : Q a w -> runs (ret a) w Q.
Proof. done. Qed.

Lemma runs_deref (find : S -> option A) x w (Q : A -> S -> Prop) :
  find w = Some x -> Q x w -> runs (deref find) w Q.
Proof. unfold runs, deref; by intros ->. Qed.

Lemma runs_inv (m : M S A) w Q : runs m w Q -> exists a w', m w = (Ok a, w') /\ Q a w'.
Proof. unfold runs; destruct (m w) as [[a|e] w']; [eauto|done]. Qed.

Lemma runs_intro (m : M S A) w (Q : A -> S -> Prop) a w' : m w = (Ok a, w') -> Q a w' -> runs m w Q.
Proof. unfold runs; by intros ->. Qed.

Lemma runs_both (m : M S A) w (P Q : A -> S -> Prop) :
  runs m w P -> runs m w Q -> runs m w (fun a w' => P a w' /\ Q a w').
Proof. unfold runs; destruct (m w) as [[a|e] w']; auto. Qed.

Lemma runs_get w (Q : S -> S -> Prop) : Q w w -> runs get w Q.
Proof. done. Qed.
Lemma runs_modify f w (Q : unit -> S -> Prop) : Q tt (f w) -> runs (modify f) w Q.
Proof. done. Qed.
Lemma runs_die (b : bool) w (Q : unit -> S -> Prop) : b = true -> Q tt w -> runs (VerifyOrDie b) w Q.
Proof. by intros ->. Qed.
Lemma runs_when (b : bool) m w (Q : unit -> S -> Prop) :
  (b = true -> runs m w Q) -> (b = false -> Q tt w) -> runs (when b m) w Q.
Proof. destruct b; intros H1 H2; [by apply H1|by apply H2]. Qed.
End Rules.

Lemma runs_for_each {S} (P : list nat -> S -> Prop) (f : nat -> M S unit) l w (Q : unit -> S -> Prop) :
  P l w -> (forall i l' w', P (i :: l') w' -> runs (f i) w' (fun _ => P l')) ->
  (forall w', P [] w' -> Q tt w') -> runs (for_each l f) w Q.
Proof.
  revert w; induction l as [|i l IH]; intros w HP Hf HQ; cbn [for_each]; [by apply HQ|].
  apply runs_seq; eapply runs_mono; [by apply Hf|]; intros [] w' H; by apply IH.
Qed.
