(* ===== verification/Exchange.v ===== *)
(** * Exchange: exchanges, acknowledgements and the retransmission table

    src/src/messaging: [ExchangeContext], [ReliableMessageContext],
    [ReliableMessageMgr] and the dispatches, one definition per method.  The three
    classes call each other, so they are defined together, over the state [World] of
    an exchange manager: the pools of exchanges and of retransmission entries
    (Pool.v), the sessions the exchanges hold, the clock and the timers.

    - a pointer to an exchange, entry or session is its index; following a pointer to
      an object that is no longer there is [UNDEFINED_BEHAVIOUR], [VerifyOrDie] is
      [PROGRAM_ABORT], and these two are the only errors of the monad: the [CHIP_ERROR]
      a method returns is its value;
    - an [ExchangeHandle] is a call of [Retain] and, at the end of its scope, one of
      [Release], which frees the exchange with the last reference;
    - what encrypts, sends, allocates and starts timers is class [MessagingPlatform],
      whose answers may differ from call to call ([mCalls] counts them);
    - class [Application] holds the delegates: what one does in an upcall is a program
      [App] of calls on its exchange. *)

From stdpp Require Import gmap.
From S2P Require Import Prelude Encoding MessageHeader BdxMessages Pool Runs.

(** ** Flags of an exchange *)

Inductive Flags :=
| kFlagInitiator
| kFlagResponseExpected
| kFlagAutoRequestAck
| kFlagWaitingForAck
| kFlagAckPending
| kFlagAckMessageCounterIsValid
| kFlagWillSendMessage
| kFlagClosed
| kFlagEphemeralExchange
| kFlagIgnoreSessionRelease
| kFlagReceivedAtLeastOneMessage
| kFlagWaitingForResponseOrAck.

#[export] Instance Flags_eq_dec : EqDecision Flags.
Proof. solve_decision. Defined.

Definition flag_bit (f : Flags) : Z :=
  match f with
  | kFlagInitiator => 0
  | kFlagResponseExpected => 1
  | kFlagAutoRequestAck => 2
  | kFlagWaitingForAck => 3
  | kFlagAckPending => 4
  | kFlagAckMessageCounterIsValid => 5
  | kFlagWillSendMessage => 6
  | kFlagClosed => 7
  | kFlagEphemeralExchange => 8
  | kFlagIgnoreSessionRelease => 9
  | kFlagReceivedAtLeastOneMessage => 10
  | kFlagWaitingForResponseOrAck => 11
  end.

(** [SendMessageFlags] *)
Definition kExpectResponse : Z := 1.
Definition kNoAutoRequestAck : Z := 2.

(** ** Sessions *)

Inductive SessionType := kUndefined | kUnauthenticated | kSecure | kGroupIncoming | kGroupOutgoing.
Inductive SecureSessionState := kEstablishing | kActive | kDefunct | kPendingEviction.

#[export] Instance SessionType_eq_dec : EqDecision SessionType.
Proof. solve_decision. Defined.
#[export] Instance SecureSessionState_eq_dec : EqDecision SecureSessionState.
Proof. solve_decision. Defined.

(** What exchanges ask of a session.  [mIsUdp]: the transport of its peer address;
    the three times are the MRP configuration of the peer. *)
Record Session := MkSession {
  GetSessionType : SessionType;
  IsCASESession : bool;
  mState : SecureSessionState;
  mIsUdp : bool;
  mIdleRetransTimeout : Z;
  mActiveRetransTimeout : Z;
  mActiveThresholdTime : Z;
  mLastPeerActivityTime : Z }.

Definition IsSecureSession (s : Session) : bool := bool_decide (GetSessionType s = kSecure).
Definition Session_IsGroupSession (s : Session) : bool :=
  bool_decide (GetSessionType s = kGroupIncoming) || bool_decide (GetSessionType s = kGroupOutgoing).
Definition AllowsMRP (s : Session) : bool := negb (Session_IsGroupSession s) && mIsUdp s.
Definition IsActiveSession (s : Session) : bool :=
  negb (IsSecureSession s) || bool_decide (mState s = kActive).
Definition IsPeerActive (now : Z) (s : Session) : bool :=
  now -{64} mLastPeerActivityTime s <? mActiveThresholdTime s.
Definition GetMRPBaseTimeout (now : Z) (s : Session) : Z :=
  if Session_IsGroupSession s then 0
  else if IsPeerActive now s then mActiveRetransTimeout s else mIdleRetransTimeout s.
Definition with_state (s : Session) (state : SecureSessionState) : Session :=
  MkSession (GetSessionType s) (IsCASESession s) state (mIsUdp s) (mIdleRetransTimeout s)
    (mActiveRetransTimeout s) (mActiveThresholdTime s) (mLastPeerActivityTime s).

(** ** Message dispatches *)

Inductive Dispatch := EphemeralExchangeDispatch | ApplicationExchangeDispatch | SessionEstablishmentExchangeDispatch.

(** [Protocols::SecureChannel::MsgType] *)
Definition StandaloneAck : Z := 0x10.
Definition session_establishment_types : list Z := [0x20; 0x21; 0x22; 0x23; 0x24; 0x30; 0x31; 0x32; 0x33].

Definition protocol_eqb (a b : ProtocolId) : bool :=
  (GetVendorId a =? GetVendorId b) && (GetProtocolId a =? GetProtocolId b).
Definition is_standalone_ack (protocol : ProtocolId) (type : Z) : bool :=
  protocol_eqb protocol SecureChannel_Id && (type =? StandaloneAck).

Definition MessagePermitted (d : Dispatch) (protocol : ProtocolId) (type : Z) : bool :=
  match d with
  | EphemeralExchangeDispatch => is_standalone_ack protocol type
  | ApplicationExchangeDispatch =>
      negb (protocol_eqb protocol SecureChannel_Id && existsb (Z.eqb type) session_establishment_types)
  | SessionEstablishmentExchangeDispatch =>
      protocol_eqb protocol SecureChannel_Id &&
      existsb (Z.eqb type) (StandaloneAck :: 0x40 :: session_establishment_types)
  end.
Definition IsReliableTransmissionAllowed (d : Dispatch) : bool := true.

(** [None]: the function that should not be called. *)
Definition IsEncryptionRequired (d : Dispatch) : option bool :=
  match d with
  | EphemeralExchangeDispatch => None
  | ApplicationExchangeDispatch => Some true
  | SessionEstablishmentExchangeDispatch => Some false
  end.

(** ** The objects *)

(** A delegate is a number; so is a session. *)
Record Exchange := MkExchange {
  mFlags : Z;
  mNextAckTime : Z;
  mPendingPeerAckMessageCounter : Z;
  mRefCount : Z;
  mResponseTimeout : Z;
  mDelegate : option nat;
  mDispatch : Dispatch;
  mSession : option nat;
  mExchangeId : Z }.

(** A prepared message: the counter and the headers that were encrypted, which the
    owner of the keys reads back from it. *)
Record EncryptedPacketBuffer := MkPrepared {
  GetMessageCounter : Z;
  pm_header : PayloadHeader;
  pm_payload : bytes }.

Record RetransTableEntry := MkEntry {
  en_ec : nat;
  en_retainedBuf : option EncryptedPacketBuffer;
  en_nextRetransTime : Z;
  en_sendCount : Z }.

(** What the rest of the program is told: packets for the transport with its answer,
    upcalls, and sessions that hang. *)
Inductive Event :=
| Sent (session : nat) (packet : EncryptedPacketBuffer) (err : CHIP_ERROR)
| MessageReceived (delegate : nat) (ec : nat) (header : PayloadHeader) (payload : bytes)
| ResponseTimedOut (delegate : nat) (ec : nat)
| ExchangeClosing (delegate : nat) (ec : nat)
| ExchangeCreationFailed (handler : nat) (delegate : nat)
| SessionHang (session : nat).

Record UnsolicitedMessageHandlerSlot := MkSlot {
  um_ProtocolId : ProtocolId;
  um_MessageType : Z;
  um_Handler : option nat }.

(** [mTimer] and [mResponseTimers]: the timers of the system layer for
    [ReliableMessageMgr::Timeout] and, by exchange, for [HandleResponseTimeout]. *)
Record World := MkWorld {
  mNow : Z;
  mContextPool : list (option Exchange);
  mRetransTable : list (option RetransTableEntry);
  mSessions : gmap nat Session;
  mTimer : option Z;
  mResponseTimers : gmap nat Z;
  UMHandlerPool : list UnsolicitedMessageHandlerSlot;
  mNextExchangeId : Z;
  sAdditionalMRPBackoffTime : Z;
  mCalls : nat;
  mLog : list Event }.

Ltac set_field mk proj v s :=
  let c := eval cbv beta in (mk s) in
  let c := eval pattern (proj s) in c in
  lazymatch c with ?f _ => let r := eval cbv beta in (f v) in exact r end.
Ltac with_ec proj v e :=
  set_field (fun e => MkExchange (mFlags e) (mNextAckTime e) (mPendingPeerAckMessageCounter e) (mRefCount e)
    (mResponseTimeout e) (mDelegate e) (mDispatch e) (mSession e) (mExchangeId e)) proj v e.
Ltac with_en proj v e :=
  set_field (fun e => MkEntry (en_ec e) (en_retainedBuf e) (en_nextRetransTime e) (en_sendCount e)) proj v e.
Ltac with_world proj v w :=
  set_field (fun w => MkWorld (mNow w) (mContextPool w) (mRetransTable w) (mSessions w) (mTimer w)
    (mResponseTimers w) (UMHandlerPool w) (mNextExchangeId w) (sAdditionalMRPBackoffTime w) (mCalls w)
    (mLog w)) proj v w.

Definition set_mFlags (v : Z) (e : Exchange) : Exchange := ltac:(with_ec mFlags v e).
Definition set_mNextAckTime (v : Z) (e : Exchange) : Exchange := ltac:(with_ec mNextAckTime v e).
Definition set_mPendingPeerAckMessageCounter (v : Z) (e : Exchange) : Exchange :=
  ltac:(with_ec mPendingPeerAckMessageCounter v e).
Definition set_mRefCount (v : Z) (e : Exchange) : Exchange := ltac:(with_ec mRefCount v e).
Definition set_mResponseTimeout (v : Z) (e : Exchange) : Exchange := ltac:(with_ec mResponseTimeout v e).
Definition set_mDelegate (v : option nat) (e : Exchange) : Exchange := ltac:(with_ec mDelegate v e).
Definition set_mSession (v : option nat) (e : Exchange) : Exchange := ltac:(with_ec mSession v e).

Definition set_retainedBuf (v : option EncryptedPacketBuffer) (e : RetransTableEntry) : RetransTableEntry :=
  ltac:(with_en en_retainedBuf v e).
Definition set_nextRetransTime (v : Z) (e : RetransTableEntry) : RetransTableEntry :=
  ltac:(with_en en_nextRetransTime v e).
Definition set_sendCount (v : Z) (e : RetransTableEntry) : RetransTableEntry := ltac:(with_en en_sendCount v e).

Definition set_mNow (v : Z) (w : World) : World := ltac:(with_world mNow v w).
Definition set_mContextPool (v : list (option Exchange)) (w : World) : World := ltac:(with_world mContextPool v w).
Definition set_mRetransTable (v : list (option RetransTableEntry)) (w : World) : World :=
  ltac:(with_world mRetransTable v w).
Definition set_mSessions (v : gmap nat Session) (w : World) : World := ltac:(with_world mSessions v w).
Definition set_mTimer (v : option Z) (w : World) : World := ltac:(with_world mTimer v w).
Definition set_mResponseTimers (v : gmap nat Z) (w : World) : World := ltac:(with_world mResponseTimers v w).
Definition set_UMHandlerPool (v : list UnsolicitedMessageHandlerSlot) (w : World) : World :=
  ltac:(with_world UMHandlerPool v w).
Definition set_mNextExchangeId (v : Z) (w : World) : World := ltac:(with_world mNextExchangeId v w).
Definition set_sAdditionalMRPBackoffTime (v : Z) (w : World) : World :=
  ltac:(with_world sAdditionalMRPBackoffTime v w).
Definition set_mCalls (v : nat) (w : World) : World := ltac:(with_world mCalls v w).
Definition set_mLog (v : list Event) (w : World) : World := ltac:(with_world mLog v w).

(** [mFlags.Has(f)] and [mFlags.Set(f, v)]. *)
Definition Has (e : Exchange) (f : Flags) : bool := BitFlags.Has (mFlags e) (2 ^ flag_bit f).
Definition SetFlag (f : Flags) (v : bool) (e : Exchange) : Exchange :=
  set_mFlags (BitFlags.Set_if 16 (mFlags e) (2 ^ flag_bit f) v) e.

(** ** What the platform and the application decide *)

Class MessagingPlatform := {
  (** [MessagePacketBuffer::New(0)] finds a buffer *)
  buffer_available : nat -> bool;
  (** [SessionManager::PrepareMessage]: the counter the message got *)
  PrepareMessage_result : nat -> result Z;
  (** [SessionManager::SendPreparedMessage] *)
  SendPreparedMessage_result : nat -> CHIP_ERROR;
  (** [System::Layer::StartTimer] for a response, and for the wake-up *)
  StartResponseTimer_result : nat -> CHIP_ERROR;
  StartWakeTimer_result : nat -> CHIP_ERROR;
  (** [Crypto::GetRandU8] *)
  GetRandU8 : nat -> Z }.

(** What a delegate does with its exchange before it returns. *)
Inductive App :=
| AppReturn (err : CHIP_ERROR)
| AppSendMessage (protocol : ProtocolId) (type : Z) (payload : bytes) (flags : Z) (next : CHIP_ERROR -> App)
| AppWillSendMessage (next : App)
| AppSetResponseTimeout (timeout : Z) (next : App)
| AppClose (next : App)
| AppAbort (next : App).

Class Application := {
  GetMessageDispatch_of : nat -> Dispatch;
  OnMessageReceived_of : nat -> nat -> PayloadHeader -> bytes -> App;
  OnResponseTimeout_of : nat -> nat -> App;
  (** the handler's delegate (which may be null), or its error *)
  OnUnsolicitedMessageReceived : nat -> nat -> PayloadHeader -> nat -> result (option nat) }.

(** Constants: [CHIP_CONFIG_RMP_DEFAULT_ACK_TIMEOUT],
    [CHIP_CONFIG_RMP_DEFAULT_MAX_RETRANS], [Timestamp::max()]. *)
Definition DEFAULT_ACK_TIMEOUT : Z := 200.
Definition DEFAULT_MAX_RETRANS : Z := 4.
Definition Timestamp_max : Z := 2 ^ 64 - 1.
Definition kMaxRefCount : Z := 2 ^ 32 - 1.

(** ** Send errors *)

Definition ENOBUFS : Z := 105.
Definition MapSendError (error : CHIP_ERROR) : CHIP_ERROR :=
  if bool_decide (error = CHIP_ERROR_POSIX ENOBUFS) then CHIP_NO_ERROR else error.

(** EHOSTUNREACH, ENETUNREACH, EADDRNOTAVAIL, EPIPE *)
Definition IsPlatformErrorNonCritical (err : CHIP_ERROR) : bool :=
  match err with CHIP_ERROR_POSIX n => existsb (Z.eqb n) [113; 101; 99; 32] | _ => false end.
Definition IsSendErrorNonCritical (err : CHIP_ERROR) : bool :=
  match err with
  | CHIP_ERROR_NOT_IMPLEMENTED | CHIP_ERROR_OUTBOUND_MESSAGE_TOO_BIG | CHIP_ERROR_MESSAGE_TOO_LONG
  | CHIP_ERROR_NO_MEMORY => true
  | _ => IsPlatformErrorNonCritical err
  end.

(** ** The time to the next retransmission *)

Definition backoff_exponent (sendCount : Z) : nat :=
  Z.to_nat (let e := sendCount - 1 in let e := if e <? 0 then 0 else e in if 4 <? e then 4 else e).

(** [backoffNum] and [backoffDenom], products of 32-bit integers. *)
Fixpoint backoff_factors (n : nat) : Z * Z :=
  match n with
  | O => (1, 1)
  | S n => let (num, denom) := backoff_factors n in (wrap 32 (num * 16), wrap 32 (denom * 10))
  end.

(** [random]: the byte drawn; [UINT8_MAX] when the largest backoff is asked for. *)
Definition GetBackoff (baseInterval sendCount random additional : Z) : Z :=
  let interval := wrap 64 (baseInterval * 1127) / 1024 in
  let (backoffNum, backoffDenom) := backoff_factors (backoff_exponent sendCount) in
  let mrpBackoffTime := wrap 64 (interval * backoffNum) / backoffDenom in
  let jitter := wrap 32 (1024 + random) in
  let mrpBackoffTime := wrap 64 (mrpBackoffTime * jitter) / 1024 in
  wrap 32 (mrpBackoffTime +{64} additional).

(** ** Objects behind pointers *)

Abbreviation W := (M World).

Definition live (w : World) (p : nat) : option Exchange := At (mContextPool w) p.
Definition entry_at (w : World) (i : nat) : option RetransTableEntry := At (mRetransTable w) i.

Definition exchange (p : nat) : W Exchange := deref (fun w => live w p).
Definition put_exchange (p : nat) (e : Exchange) (w : World) : World :=
  set_mContextPool (<[p := Some e]> (mContextPool w)) w.
Definition edit (p : nat) (f : Exchange -> Exchange) : W unit :=
  let! e := exchange p in modify (put_exchange p (f e)).

Definition entry (i : nat) : W RetransTableEntry := deref (fun w => entry_at w i).
Definition put_entry (i : nat) (en : RetransTableEntry) (w : World) : World :=
  set_mRetransTable (<[i := Some en]> (mRetransTable w)) w.
Definition edit_entry (i : nat) (f : RetransTableEntry -> RetransTableEntry) : W unit :=
  let! en := entry i in modify (put_entry i (f en)).

Definition session (s : nat) : W Session := deref (fun w => mSessions w !! s).
Definition now : W Z := fun w => (Ok (mNow w), w).
Definition tick : W nat := fun w => (Ok (mCalls w), set_mCalls (S (mCalls w)) w).
Definition emit (ev : Event) : W unit := modify (fun w => set_mLog (mLog w ++ [ev]) w).

(** ** Getters *)

Definition IsInitiator (e : Exchange) : bool := Has e kFlagInitiator.
Definition IsResponseExpected (e : Exchange) : bool := Has e kFlagResponseExpected.
Definition IsAckPending (e : Exchange) : bool := Has e kFlagAckPending.
Definition IsWaitingForAck (e : Exchange) : bool := Has e kFlagWaitingForAck.
Definition HasPiggybackAckPending (e : Exchange) : bool := Has e kFlagAckMessageCounterIsValid.
Definition IsSendExpected (e : Exchange) : bool := Has e kFlagWillSendMessage.
Definition IsClosed (e : Exchange) : bool := Has e kFlagClosed.

Definition GetSessionHandle (p : nat) : W nat :=
  let! e := exchange p in
  match mSession e with Some s => ret s | None => fail PROGRAM_ABORT end.
Definition IsGroupExchangeContext (p : nat) : W bool :=
  let! e := exchange p in
  match mSession e with
  | Some s => let! se := session s in ret (Session_IsGroupSession se)
  | None => ret false
  end.

(** ** References *)

Definition Retain (p : nat) : W unit :=
  let! e := exchange p in
  VerifyOrDie (0 <? mRefCount e) ;;
  VerifyOrDie (mRefCount e <? kMaxRefCount) ;;
  edit p (set_mRefCount (mRefCount e + 1)).

(** The destructor stops the program unless [DoClose] was called before, so that its own
    [DoClose] returns at once. *)
Definition ReleaseContext (p : nat) : W unit :=
  let! e := exchange p in
  VerifyOrDie ((mRefCount e =? 0) && IsClosed e) ;;
  fun w => match Deallocate (mContextPool w) p with
           | Ok pool => (Ok tt, set_mContextPool pool w)
           | Err err => (Err err, w)
           end.

Definition Release (p : nat) : W unit :=
  let! e := exchange p in
  VerifyOrDie (negb (mRefCount e =? 0)) ;;
  edit p (set_mRefCount (mRefCount e - 1)) ;;
  when (mRefCount e - 1 =? 0) (ReleaseContext p).

(** The body of a scope that holds an [ExchangeHandle]. *)
Definition with_ref {A} (p : nat) (body : W A) : W A :=
  Retain p ;; let! r := body in Release p ;; ret r.

(** ** Sessions *)

Definition MarkAsDefunct (s : nat) : W unit :=
  let! se := session s in
  match mState se with
  | kEstablishing => fail PROGRAM_ABORT
  | kActive => modify (fun w => set_mSessions (<[s := with_state se kDefunct]> (mSessions w)) w)
  | kDefunct | kPendingEviction => ret tt
  end.
Definition mark_if_case (s : nat) : W unit :=
  let! se := session s in when (IsSecureSession se && IsCASESession se) (MarkAsDefunct s).
Definition NotifySessionHang (s : nat) : W unit := emit (SessionHang s).

(** ** ReliableMessageContext: flags *)

Definition SetResponseExpected (p : nat) (inResponseExpected : bool) : W unit :=
  edit p (SetFlag kFlagResponseExpected inResponseExpected) ;;
  edit p (SetFlag kFlagWaitingForResponseOrAck inResponseExpected).
Definition SetPendingPeerAckMessageCounter (p : nat) (counter : Z) : W unit :=
  edit p (set_mPendingPeerAckMessageCounter counter) ;;
  edit p (SetFlag kFlagAckPending true) ;;
  edit p (SetFlag kFlagAckMessageCounterIsValid true).
Definition TakePendingPeerAckMessageCounter (p : nat) : W Z :=
  edit p (SetFlag kFlagAckPending false) ;;
  let! e := exchange p in ret (mPendingPeerAckMessageCounter e).

(** ** ReliableMessageMgr: the timer *)

Definition ack_wake (w : World) (wake : Z) (p : nat) : Z :=
  match live w p with
  | Some e => if IsAckPending e && (mNextAckTime e <? wake) then mNextAckTime e else wake
  | None => wake
  end.
Definition retrans_wake (w : World) (wake : Z) (i : nat) : Z :=
  match entry_at w i with
  | Some en => if en_nextRetransTime en <? wake then en_nextRetransTime en else wake
  | None => wake
  end.
Definition nextWakeTime (w : World) : Z :=
  fold_left (retrans_wake w) (active_indices (mRetransTable w))
    (fold_left (ack_wake w) (active_indices (mContextPool w)) Timestamp_max).

Section Platform.
Context `{MP : MessagingPlatform}.

(** The delay is handed over as a 32-bit [Timeout]. *)
Definition StartTimer : W unit :=
  let! w := get in
  modify (set_mTimer None) ;;
  when (negb (nextWakeTime w =? Timestamp_max))
    (let! n := tick in
     VerifyOrDie (no_error (StartWakeTimer_result n)) ;;
     let nextWakeDelay := if mNow w <? nextWakeTime w then nextWakeTime w - mNow w else 0 in
     modify (set_mTimer (Some (mNow w + wrap 32 nextWakeDelay)))).

(** ** ReliableMessageMgr: the retransmission table *)

(** The slot is taken before the entry is made; the entry holds a reference. *)
Definition AddToRetransTable (p : nat) : W (result nat) :=
  let! e := exchange p in
  if IsWaitingForAck e then ret (Err CHIP_ERROR_INCORRECT_STATE)
  else
    let! w := get in
    match Allocate (mRetransTable w) with
    | None => ret (Err CHIP_ERROR_RETRANS_TABLE_FULL)
    | Some i =>
        Retain p ;;
        edit p (SetFlag kFlagWaitingForAck true) ;;
        modify (put_entry i (MkEntry p None 0 0)) ;;
        ret (Ok i)
    end.

(** [mRetransTable.ReleaseObject(entry)]: the destructor, then the slot. *)
Definition ReleaseEntry (i : nat) : W unit :=
  let! en := entry i in
  edit (en_ec en) (SetFlag kFlagWaitingForAck false) ;;
  Release (en_ec en) ;;
  fun w => match Deallocate (mRetransTable w) i with
           | Ok table => (Ok tt, set_mRetransTable table w)
           | Err err => (Err err, w)
           end.

Definition ClearRetransEntry (i : nat) : W unit := ReleaseEntry i ;; StartTimer.

Fixpoint clear_first (p : nat) (l : list nat) : W unit :=
  match l with
  | [] => ret tt
  | i :: l =>
      let! en := entry i in
      if (en_ec en =? p)%nat then ClearRetransEntry i else clear_first p l
  end.
Definition ClearRetransTable (p : nat) : W unit :=
  let! w := get in clear_first p (active_indices (mRetransTable w)).

Fixpoint remove_acknowledged (p : nat) (ackMessageCounter : Z) (l : list nat) : W bool :=
  match l with
  | [] => ret false
  | i :: l =>
      let! en := entry i in
      if (en_ec en =? p)%nat then
        let! retainedBuf := deref (fun _ => en_retainedBuf en) in
        if GetMessageCounter retainedBuf =? ackMessageCounter
        then ClearRetransEntry i ;; ret true
        else remove_acknowledged p ackMessageCounter l
      else remove_acknowledged p ackMessageCounter l
  end.
Definition CheckAndRemRetransTable (p : nat) (ackMessageCounter : Z) : W bool :=
  let! w := get in remove_acknowledged p ackMessageCounter (active_indices (mRetransTable w)).

(** [baseTimeout] is a 32-bit [Timeout], the new time a 64-bit [Timestamp]. *)
Definition CalculateNextRetransTime (i : nat) : W unit :=
  let! en := entry i in
  let! s := GetSessionHandle (en_ec en) in
  let! se := session s in
  let! e := exchange (en_ec en) in
  let! t := now in
  let baseTimeout := if Has e kFlagReceivedAtLeastOneMessage then mActiveRetransTimeout se
                     else wrap 32 (GetMRPBaseTimeout t se) in
  let! n := tick in
  let! w := get in
  let backoff := GetBackoff baseTimeout (en_sendCount en) (GetRandU8 n) (sAdditionalMRPBackoffTime w) in
  edit_entry i (set_nextRetransTime (t +{64} backoff)).

Definition PrepareMessage (header : PayloadHeader) (payload : bytes) : W (result EncryptedPacketBuffer) :=
  let! n := tick in
  ret (match PrepareMessage_result n with
       | Ok counter => Ok (MkPrepared counter header payload)
       | Err err => Err err
       end).
Definition SendPreparedMessage (s : nat) (packet : EncryptedPacketBuffer) : W CHIP_ERROR :=
  let! n := tick in
  emit (Sent s packet (SendPreparedMessage_result n)) ;;
  ret (SendPreparedMessage_result n).

Definition StartRetransmision (i : nat) : W unit := CalculateNextRetransTime i ;; StartTimer.

Definition SendFromRetransTable (i : nat) : W CHIP_ERROR :=
  let! en := entry i in
  let! e := exchange (en_ec en) in
  match mSession e with
  | None => ClearRetransEntry i ;; ret CHIP_ERROR_INCORRECT_STATE
  | Some s =>
      let! retainedBuf := deref (fun _ => en_retainedBuf en) in
      let! err := SendPreparedMessage s retainedBuf in
      let err := MapSendError err in
      (if no_error err then CalculateNextRetransTime i else ClearRetransEntry i) ;;
      ret err
  end.

(** ** ExchangeMessageDispatch *)

Definition PrepareAndSendNonMRPMessage (s : nat) (header : PayloadHeader) (payload : bytes) : W CHIP_ERROR :=
  let! prepared := PrepareMessage (SetNeedsAck header false) payload in
  match prepared with
  | Err err => ret err
  | Ok packet => SendPreparedMessage s packet
  end.

Definition send_reliably (p s : nat) (header : PayloadHeader) (payload : bytes) : W CHIP_ERROR :=
  let! r := AddToRetransTable p in
  match r with
  | Err err => ret err
  | Ok i =>
      let! prepared := PrepareMessage (SetNeedsAck header true) payload in
      match prepared with
      | Err err => ClearRetransEntry i ;; ret err
      | Ok packet =>
          edit_entry i (set_retainedBuf (Some packet)) ;;
          let! err := SendPreparedMessage s packet in
          let err := MapSendError err in
          (if no_error err then StartRetransmision i else ClearRetransEntry i) ;;
          ret err
      end
  end.

Definition Dispatch_SendMessage (p s : nat) (isReliableTransmission : bool) (protocol : ProtocolId)
    (type : Z) (payload : bytes) : W CHIP_ERROR :=
  let! e := exchange p in
  if negb (MessagePermitted (mDispatch e) protocol type) then ret CHIP_ERROR_INVALID_ARGUMENT
  else
    let header := SetInitiator (SetMessageType (SetExchangeID PayloadHeader_new (mExchangeId e)) protocol type)
                    (IsInitiator e) in
    let! se := session s in
    if AllowsMRP se then
      let! header :=
        (if HasPiggybackAckPending e
         then let! counter := TakePendingPeerAckMessageCounter p in
              ret (SetAckMessageCounter header (Some counter))
         else ret header) in
      if IsReliableTransmissionAllowed (mDispatch e) && Has e kFlagAutoRequestAck && isReliableTransmission
      then send_reliably p s header payload
      else PrepareAndSendNonMRPMessage s header payload
    else PrepareAndSendNonMRPMessage s header payload.

(** ** ExchangeContext: sending and closing *)

Definition StartResponseTimer (p : nat) : W CHIP_ERROR :=
  let! e := exchange p in
  let! n := tick in
  let! t := now in
  let err := StartResponseTimer_result n in
  when (no_error err) (modify (fun w => set_mResponseTimers (<[p := t + mResponseTimeout e]> (mResponseTimers w)) w)) ;;
  ret err.
Definition CancelResponseTimer (p : nat) : W unit :=
  modify (fun w => set_mResponseTimers (delete p (mResponseTimers w)) w).

(** What [SendMessage] does for [kExpectResponse]: whether the timer runs, or an error. *)
Definition expect_response (p : nat) : W (result bool) :=
  let! e := exchange p in
  if IsResponseExpected e then ret (Err CHIP_ERROR_INCORRECT_STATE)
  else
    SetResponseExpected p true ;;
    if 0 <? mResponseTimeout e then
      let! err := StartResponseTimer p in
      if no_error err then ret (Ok true)
      else SetResponseExpected p false ;; ret (Err err)
    else ret (Ok false).

(** [handled] is [MessageHandled()], which itself may end in sending an acknowledgement;
    for a standalone acknowledgement it is not called. *)
Definition SendMessage_with (handled : W unit) (p : nat) (protocol : ProtocolId) (type : Z)
    (payload : bytes) (sendFlags : Z) : W CHIP_ERROR :=
  let isStandaloneAck := is_standalone_ack protocol type in
  let! e := exchange p in
  match mSession e with
  | None => ret CHIP_ERROR_CONNECTION_ABORTED
  | Some s =>
      VerifyOrDie (0 <? mRefCount e) ;;
      with_ref p
        (let! group := IsGroupExchangeContext p in
         let! se := session s in
         let reliableTransmissionRequested :=
           AllowsMRP se && negb (BitFlags.Has sendFlags kNoAutoRequestAck) && negb group in
         let! expecting :=
           (if BitFlags.Has sendFlags kExpectResponse && negb group then expect_response p else ret (Ok false)) in
         match expecting with
         | Err err => ret err
         | Ok currentMessageExpectResponse =>
             let! e := exchange p in
             if group && negb (IsInitiator e) then ret CHIP_ERROR_INTERNAL
             else
               let! err := Dispatch_SendMessage p s reliableTransmissionRequested protocol type payload in
               (if no_error err
                then when (negb isStandaloneAck) (edit p (SetFlag kFlagWillSendMessage false) ;; handled)
                else
                  when currentMessageExpectResponse (CancelResponseTimer p ;; SetResponseExpected p false) ;;
                  mark_if_case s) ;;
               ret err
         end)
  end.

Definition SendStandaloneAckMessage (p : nat) : W CHIP_ERROR :=
  let! n := tick in
  if negb (buffer_available n) then ret CHIP_ERROR_NO_MEMORY
  else
    let! err := SendMessage_with (ret tt) p SecureChannel_Id StandaloneAck [] kNoAutoRequestAck in
    ret (if IsSendErrorNonCritical err then CHIP_NO_ERROR else err).

Definition FlushAcks (p : nat) : W CHIP_ERROR :=
  let! e := exchange p in
  if IsAckPending e then SendStandaloneAckMessage p else ret CHIP_NO_ERROR.

Definition DoClose (p : nat) (clearRetransTable : bool) : W unit :=
  let! e := exchange p in
  if IsClosed e then ret tt
  else
    edit p (SetFlag kFlagClosed true) ;;
    match mDelegate e with Some d => emit (ExchangeClosing d p) | None => ret tt end ;;
    edit p (set_mDelegate None) ;;
    FlushAcks p ;;
    when clearRetransTable (ClearRetransTable p) ;;
    let! e := exchange p in
    when (IsResponseExpected e) (CancelResponseTimer p).

Definition Close_or_Abort (p : nat) (clearRetransTable : bool) : W unit :=
  let! e := exchange p in
  VerifyOrDie (0 <? mRefCount e) ;;
  DoClose p clearRetransTable ;;
  Release p.
Definition Close (p : nat) : W unit := Close_or_Abort p false.
Definition Abort (p : nat) : W unit := Close_or_Abort p true.

Definition MessageHandled (p : nat) : W unit :=
  let! e := exchange p in
  if IsClosed e || IsResponseExpected e || IsSendExpected e then ret tt else Close p.

Definition SendMessage (p : nat) : ProtocolId -> Z -> bytes -> Z -> W CHIP_ERROR :=
  SendMessage_with (MessageHandled p) p.

(** ** ReliableMessageContext: acknowledgements received and owed *)

Definition HandleRcvdAck (p : nat) (ackMessageCounter : Z) : W unit :=
  let! removed := CheckAndRemRetransTable p ackMessageCounter in
  when removed (edit p (SetFlag kFlagWaitingForResponseOrAck false)).

Definition HandleNeedsAckInner (p : nat) (messageCounter : Z) (isDuplicate : bool) : W CHIP_ERROR :=
  let! e := exchange p in
  if isDuplicate then
    let wasAckPending := IsAckPending e && negb (mPendingPeerAckMessageCounter e =? messageCounter) in
    let messageCounterWasValid := HasPiggybackAckPending e in
    let tempAckMessageCounter := mPendingPeerAckMessageCounter e in
    SetPendingPeerAckMessageCounter p messageCounter ;;
    let! err := SendStandaloneAckMessage p in
    (if wasAckPending then SetPendingPeerAckMessageCounter p tempAckMessageCounter
     else when messageCounterWasValid (edit p (set_mPendingPeerAckMessageCounter tempAckMessageCounter))) ;;
    ret err
  else
    let! err := (if IsAckPending e then SendStandaloneAckMessage p else ret CHIP_NO_ERROR) in
    if no_error err then
      SetPendingPeerAckMessageCounter p messageCounter ;;
      let! t := now in
      edit p (set_mNextAckTime (t +{64} DEFAULT_ACK_TIMEOUT)) ;;
      ret CHIP_NO_ERROR
    else ret err.

Definition HandleNeedsAck (p : nat) (messageCounter : Z) (isDuplicate : bool) : W CHIP_ERROR :=
  let! err := HandleNeedsAckInner p messageCounter isDuplicate in
  StartTimer ;; ret err.

(** ** ReliableMessageMgr: what the timer does *)

Definition send_due_ack (t : Z) (p : nat) : W unit :=
  let! e := exchange p in
  when (IsAckPending e && (mNextAckTime e <=? t)) (SendStandaloneAckMessage p ;; ret tt).

Definition abandon (i : nat) (s : nat) : W unit :=
  let! en := entry i in
  with_ref (en_ec en)
    (let! e := exchange (en_ec en) in
     when (negb (IsResponseExpected e)) (mark_if_case s ;; NotifySessionHang s) ;;
     ReleaseEntry i).

Definition retransmit_due (t : Z) (i : nat) : W unit :=
  let! en := entry i in
  if t <? en_nextRetransTime en then ret tt
  else
    VerifyOrDie (bool_decide (is_Some (en_retainedBuf en))) ;;
    let! s := GetSessionHandle (en_ec en) in
    if en_sendCount en =? DEFAULT_MAX_RETRANS then abandon i s
    else
      edit_entry i (set_sendCount (wrap 8 (en_sendCount en + 1))) ;;
      SendFromRetransTable i ;; ret tt.

Definition ExecuteActions : W unit :=
  let! t := now in
  let! w := get in
  for_each (active_indices (mContextPool w)) (send_due_ack t) ;;
  let! w := get in
  for_each (active_indices (mRetransTable w)) (retransmit_due t).

Definition Timeout : W unit := ExecuteActions ;; StartTimer.

(** ** ExchangeContext: upcalls *)

(** A delegate that was told that its exchange is closing has dropped it, and makes no
    further calls. *)
Fixpoint run_app (p : nat) (program : App) : W CHIP_ERROR :=
  match program with
  | AppReturn err => ret err
  | AppSendMessage protocol type payload flags next =>
      let! e := exchange p in
      if IsClosed e then ret CHIP_NO_ERROR
      else let! err := SendMessage p protocol type payload flags in run_app p (next err)
  | AppWillSendMessage next =>
      let! e := exchange p in
      if IsClosed e then ret CHIP_NO_ERROR
      else edit p (SetFlag kFlagWillSendMessage true) ;; run_app p next
  | AppSetResponseTimeout timeout next =>
      let! e := exchange p in
      if IsClosed e then ret CHIP_NO_ERROR
      else edit p (set_mResponseTimeout timeout) ;; run_app p next
  | AppClose next =>
      let! e := exchange p in
      if IsClosed e then ret CHIP_NO_ERROR else Close p ;; run_app p next
  | AppAbort next =>
      let! e := exchange p in
      if IsClosed e then ret CHIP_NO_ERROR else Abort p ;; run_app p next
  end.

Section Upcalls.
Context `{AP : Application}.

Definition NotifyResponseTimeout (p : nat) (aCloseIfNeeded : bool) : W unit :=
  let! e := exchange p in
  let gotMRPAck := negb (Has e kFlagWaitingForResponseOrAck) in
  SetResponseExpected p false ;;
  with_ref p
    (match mSession e with
     | Some s => when (negb gotMRPAck) (mark_if_case s ;; NotifySessionHang s)
     | None => ret tt
     end ;;
     match mDelegate e with
     | Some d =>
         let! n := tick in
         emit (ResponseTimedOut d p) ;;
         run_app p (OnResponseTimeout_of n d) ;; ret tt
     | None => ret tt
     end ;;
     when aCloseIfNeeded (MessageHandled p)).

(** The timer of [p] has fired, so it runs no longer. *)
Definition HandleResponseTimeout (p : nat) : W unit :=
  CancelResponseTimer p ;; NotifyResponseTimeout p true.

Definition DefaultOnMessageReceived : W CHIP_ERROR := ret CHIP_NO_ERROR.

(** The part of [HandleMessage] for the delegate, from [MessagePermitted] on. *)
Definition deliver (p : nat) (header : PayloadHeader) (payload : bytes) : W CHIP_ERROR :=
  let! e := exchange p in
  if MessagePermitted (mDispatch e) (mProtocolID header) (mMessageType header) then
    when (IsResponseExpected e) (CancelResponseTimer p ;; SetResponseExpected p false) ;;
    let! e := exchange p in
    match mDelegate e with
    | Some d =>
        let! n := tick in
        emit (MessageReceived d p header payload) ;;
        run_app p (OnMessageReceived_of n d header payload)
    | None => DefaultOnMessageReceived
    end
  else DefaultOnMessageReceived.

(** [mSession->AllowsMRP()] of a session that must be there. *)
Definition session_allows_mrp (p : nat) : W bool :=
  let! e := exchange p in
  let! s := deref (fun _ => mSession e) in
  let! se := session s in
  ret (AllowsMRP se).

(** The acknowledgements of a message: the one it carries and the one it asks for. *)
Definition handle_acks (p : nat) (messageCounter : Z) (header : PayloadHeader) (isDuplicate : bool) :
  W unit :=
  (if negb isDuplicate && MessageHeader.IsAckMsg header
   then match mAckMessageCounter header with
        | Some counter => HandleRcvdAck p counter
        | None => ret tt
        end
   else ret tt) ;;
  when (MessageHeader.NeedsAck header) (HandleNeedsAck p messageCounter isDuplicate ;; ret tt).

Definition HandleMessage_body (p : nat) (messageCounter : Z) (header : PayloadHeader)
    (isStandaloneAck isDuplicate : bool) (payload : bytes) : W CHIP_ERROR :=
  let! mrp := session_allows_mrp p in
  let! e := exchange p in
  when (mrp && IsReliableTransmissionAllowed (mDispatch e)) (handle_acks p messageCounter header isDuplicate) ;;
  let! e := exchange p in
  let! err := (if mrp && IsAckPending e && negb (bool_decide (is_Some (mDelegate e)))
               then FlushAcks p else ret CHIP_NO_ERROR) in
  if negb (no_error err) then ret err
  else if (mrp && isStandaloneAck) || isDuplicate then ret CHIP_NO_ERROR
  else
    let! mrp := session_allows_mrp p in
    let! e := exchange p in
    if mrp && Has e kFlagEphemeralExchange then ret CHIP_NO_ERROR
    else if mrp && IsWaitingForAck e then ret CHIP_ERROR_INCORRECT_STATE
    else
      edit p (SetFlag kFlagReceivedAtLeastOneMessage true) ;;
      deliver p header payload.

Definition HandleMessage (p : nat) (messageCounter : Z) (header : PayloadHeader) (isDuplicate : bool)
    (payload : bytes) : W CHIP_ERROR :=
  let isStandaloneAck := is_standalone_ack (mProtocolID header) (mMessageType header) in
  with_ref p
    (let! err := HandleMessage_body p messageCounter header isStandaloneAck isDuplicate payload in
     let! e := exchange p in
     (if (isStandaloneAck || isDuplicate) && bool_decide (is_Some (mDelegate e)) then ret tt
      else MessageHandled p) ;;
     ret err).

(** [SessionReleased] of the holder in the exchange, which lets go of the session before
    it calls [OnSessionReleased]. *)
Definition OnSessionReleased (p : nat) : W unit :=
  let! e := exchange p in
  if Has e kFlagIgnoreSessionRelease then ret tt
  else if IsClosed e then ClearRetransTable p
  else
    with_ref p
      (if negb (IsSendExpected e) then
         when (IsResponseExpected e) (CancelResponseTimer p ;; NotifyResponseTimeout p false) ;;
         Abort p
       else DoClose p true).
Definition SessionReleased (p : nat) : W unit :=
  edit p (set_mSession None) ;; OnSessionReleased p.

End Upcalls.
End Platform.
