(* ===== verification/ExchangeMgr.v ===== *)
(** * ExchangeMgr: the exchange manager

    src/src/messaging/ExchangeMgr.{h,cpp}: making exchanges, the table of handlers of
    unsolicited messages, and where a received message goes: to the exchange it belongs
    to, to a new exchange of a handler's delegate, or to an exchange made only to
    acknowledge it.  [exec] is what can happen to an exchange manager, one step at a
    time. *)

From stdpp Require Import gmap.
From S2P Require Import Prelude Encoding MessageHeader BdxMessages Pool Runs Exchange.

Definition kAnyMessageType : Z := -1.
Definition MAX_UNSOLICITED_MESSAGE_HANDLERS : nat := 8.
Definition MAX_EXCHANGE_CONTEXTS : nat := 16.
(** [std::min(CHIP_SYSTEM_CONFIG_PACKETBUFFER_POOL_SIZE - 1, CHIP_CONFIG_MAX_EXCHANGE_CONTEXTS)] *)
Definition RETRANS_TABLE_SIZE : nat := Nat.min (15 - 1) MAX_EXCHANGE_CONTEXTS.

(** ** Handlers of unsolicited messages *)

Definition IsInUse (umh : UnsolicitedMessageHandlerSlot) : bool := bool_decide (is_Some (um_Handler umh)).
Definition Matches (umh : UnsolicitedMessageHandlerSlot) (protocol : ProtocolId) (type : Z) : bool :=
  protocol_eqb (um_ProtocolId umh) protocol && (um_MessageType umh =? type).
Definition slot_Reset (umh : UnsolicitedMessageHandlerSlot) : UnsolicitedMessageHandlerSlot :=
  MkSlot (um_ProtocolId umh) (um_MessageType umh) None.

(** The pass of [RegisterUMH] over the table: the slot that matches, or the first that
    is not in use. *)
Fixpoint select_slot (protocol : ProtocolId) (type : Z) (l : list UnsolicitedMessageHandlerSlot) (i : nat)
    (selected : option nat) : option nat :=
  match l with
  | [] => selected
  | umh :: l =>
      if negb (IsInUse umh)
      then select_slot protocol type l (S i) (match selected with None => Some i | Some _ => selected end)
      else if Matches umh protocol type then Some i
      else select_slot protocol type l (S i) selected
  end.

(** Writing the protocol and type of a slot that matches changes nothing. *)
Definition RegisterUMH (protocol : ProtocolId) (type : Z) (handler : nat)
    (pool : list UnsolicitedMessageHandlerSlot) : CHIP_ERROR * list UnsolicitedMessageHandlerSlot :=
  match select_slot protocol type pool 0 None with
  | None => (CHIP_ERROR_TOO_MANY_UNSOLICITED_MESSAGE_HANDLERS, pool)
  | Some i => (CHIP_NO_ERROR, <[i := MkSlot protocol type (Some handler)]> pool)
  end.

(** With the handler that was registered, for [outHandler]. *)
Fixpoint UnregisterUMH (protocol : ProtocolId) (type : Z) (pool : list UnsolicitedMessageHandlerSlot) :
  CHIP_ERROR * option nat * list UnsolicitedMessageHandlerSlot :=
  match pool with
  | [] => (CHIP_ERROR_NO_UNSOLICITED_MESSAGE_HANDLER, None, [])
  | umh :: pool =>
      if IsInUse umh && Matches umh protocol type
      then (CHIP_NO_ERROR, um_Handler umh, slot_Reset umh :: pool)
      else let '(err, handler, pool) := UnregisterUMH protocol type pool in (err, handler, umh :: pool)
  end.

Definition RegisterUnsolicitedMessageHandlerForProtocol (protocol : ProtocolId) (handler : nat) :=
  RegisterUMH protocol kAnyMessageType handler.
Definition RegisterUnsolicitedMessageHandlerForType (protocol : ProtocolId) (type : Z) (handler : nat) :=
  RegisterUMH protocol (swrap 16 type) handler.
Definition UnregisterUnsolicitedMessageHandlerForProtocol (protocol : ProtocolId) :=
  UnregisterUMH protocol kAnyMessageType.
Definition UnregisterUnsolicitedMessageHandlerForType (protocol : ProtocolId) (type : Z) :=
  UnregisterUMH protocol (swrap 16 type).

(** The search of [OnMessageReceived]: a handler of the type ends it, one of the whole
    protocol is kept. *)
Fixpoint find_handler (header : PayloadHeader) (l : list UnsolicitedMessageHandlerSlot) (matchingUMH : option nat) :
  option nat :=
  match l with
  | [] => matchingUMH
  | umh :: l =>
      if IsInUse umh && protocol_eqb (mProtocolID header) (um_ProtocolId umh) then
        if um_MessageType umh =? mMessageType header then um_Handler umh
        else find_handler header l
               (if um_MessageType umh =? kAnyMessageType then um_Handler umh else matchingUMH)
      else find_handler header l matchingUMH
  end.

(** ** Exchanges *)

Definition GetMessageDispatch `{Application} (isEphemeralExchange : bool) (delegate : option nat) : Dispatch :=
  if isEphemeralExchange then EphemeralExchangeDispatch
  else match delegate with
       | Some d => GetMessageDispatch_of d
       | None => ApplicationExchangeDispatch
       end.

(** The constructor.  [mSession.Grab] takes no session that is not active. *)
Definition new_exchange `{Application} (exchangeId : Z) (s : nat) (se : Session) (initiator : bool)
    (delegate : option nat) (isEphemeralExchange : bool) : Exchange :=
  let e := MkExchange 0 0 0 1 0 delegate (GetMessageDispatch isEphemeralExchange delegate)
             (if IsActiveSession se then Some s else None) exchangeId in
  let e := SetFlag kFlagInitiator initiator e in
  let e := SetFlag kFlagEphemeralExchange isEphemeralExchange e in
  let e := if initiator && negb isEphemeralExchange then SetFlag kFlagWillSendMessage true e else e in
  let e := SetFlag kFlagAckPending false e in
  SetFlag kFlagAutoRequestAck (AllowsMRP se) e.

Section ExchangeManager.
Context `{MP : MessagingPlatform} `{AP : Application}.

Definition CreateExchange (exchangeId : Z) (s : nat) (initiator : bool) (delegate : option nat)
    (isEphemeralExchange : bool) : W (option nat) :=
  let! se := session s in
  let! w := get in
  match CreateObject (mContextPool w) (new_exchange exchangeId s se initiator delegate isEphemeralExchange) with
  | Some (p, pool) => modify (set_mContextPool pool) ;; ret (Some p)
  | None => ret None
  end.

Definition NewContext (s : nat) (delegate : option nat) (isInitiator : bool) : W (option nat) :=
  let! se := session s in
  if negb (IsActiveSession se) then ret None
  else
    let! w := get in
    modify (set_mNextExchangeId (mNextExchangeId w +{16} 1)) ;;
    CreateExchange (mNextExchangeId w) s isInitiator delegate false.

(** The conditions are evaluated in this order, up to the first that is false. *)
Definition MatchExchange (s : nat) (packetHeader : PacketHeader) (header : PayloadHeader) (e : Exchange) : W bool :=
  if (mExchangeId e =? mExchangeID header) && bool_decide (mSession e = Some s) then
    match IsEncryptionRequired (mDispatch e) with
    | None => fail PROGRAM_ABORT
    | Some required =>
        ret (Bool.eqb required (IsEncrypted packetHeader) &&
             negb (Bool.eqb (MessageHeader.IsInitiator header) (IsInitiator e)))
    end
  else ret false.

Fixpoint find_exchange (s : nat) (packetHeader : PacketHeader) (header : PayloadHeader) (l : list nat) :
  W (option nat) :=
  match l with
  | [] => ret None
  | p :: l =>
      let! e := exchange p in
      let! found := MatchExchange s packetHeader header e in
      if found then ret (Some p) else find_exchange s packetHeader header l
  end.

Definition SendStandaloneAckIfNeeded (counter : Z) (header : PayloadHeader) (s : nat) (isDuplicate : bool)
    (payload : bytes) : W unit :=
  let! se := session s in
  if negb (AllowsMRP se) || negb (NeedsAck header) then ret tt
  else
    let! ec := CreateExchange (mExchangeID header) s (negb (MessageHeader.IsInitiator header)) None true in
    match ec with
    | None => ret tt
    | Some p => HandleMessage p counter header isDuplicate payload ;; ret tt
    end.

(** What happens to a message that starts an exchange. *)
Definition start_exchange (handler : nat) (packetHeader : PacketHeader) (header : PayloadHeader) (s : nat)
    (isDuplicate : bool) (payload : bytes) : W unit :=
  let counter := mMessageCounter packetHeader in
  let! n := tick in
  match OnUnsolicitedMessageReceived n handler header s with
  | Err _ => SendStandaloneAckIfNeeded counter header s isDuplicate payload
  | Ok delegate =>
      let! ec := CreateExchange (mExchangeID header) s false delegate false in
      match ec with
      | None =>
          match delegate with Some d => emit (ExchangeCreationFailed handler d) | None => ret tt end
      | Some p =>
          let! e := exchange p in
          match IsEncryptionRequired (mDispatch e) with
          | None => fail PROGRAM_ABORT
          | Some required =>
              if negb (Bool.eqb required (IsEncrypted packetHeader)) then
                Close p ;; SendStandaloneAckIfNeeded counter header s isDuplicate payload
              else HandleMessage p counter header isDuplicate payload ;; ret tt
          end
      end
  end.

Definition OnMessageReceived (packetHeader : PacketHeader) (header : PayloadHeader) (s : nat)
    (isDuplicate : bool) (payload : bytes) : W unit :=
  let counter := mMessageCounter packetHeader in
  let! w := get in
  let! found :=
    (if IsGroupSession packetHeader then ret None
     else find_exchange s packetHeader header (active_indices (mContextPool w))) in
  match found with
  | Some p => HandleMessage p counter header isDuplicate payload ;; ret tt
  | None =>
      let! se := session s in
      if negb (IsActiveSession se) then ret tt
      else if negb isDuplicate && MessageHeader.IsInitiator header then
        match find_handler header (UMHandlerPool w) None with
        | Some handler => start_exchange handler packetHeader header s isDuplicate payload
        | None => SendStandaloneAckIfNeeded counter header s isDuplicate payload
        end
      else if negb (NeedsAck header) then ret tt
      else SendStandaloneAckIfNeeded counter header s isDuplicate payload
  end.

Definition close_for_delegate (delegate : nat) (p : nat) : W unit :=
  let! e := exchange p in
  when (bool_decide (mDelegate e = Some delegate)) (edit p (set_mDelegate None) ;; Close p).
Definition CloseAllContextsForDelegate (delegate : nat) : W unit :=
  let! w := get in for_each (active_indices (mContextPool w)) (close_for_delegate delegate).

(** ** What can happen *)

Inductive Label :=
| Elapse (ms : Z)
| WakeUp
| ResponseTimeout (p : nat)
| Receive (packetHeader : PacketHeader) (header : PayloadHeader) (s : nat) (isDuplicate : bool) (payload : bytes)
| CallNewContext (s : nat) (delegate : option nat) (isInitiator : bool)
| CallSendMessage (p : nat) (protocol : ProtocolId) (type : Z) (payload : bytes) (flags : Z)
| CallWillSendMessage (p : nat)
| CallSetResponseTimeout (p : nat) (timeout : Z)
| CallSetDelegate (p : nat) (delegate : option nat)
| CallClose (p : nat)
| CallAbort (p : nat)
| CallCloseAll (delegate : nat)
| ReleaseSession (p : nat)
| SessionChanges (s : nat) (se : Session)
| SessionGone (s : nat)
| CallRegister (protocol : ProtocolId) (type : Z) (handler : nat)
| CallUnregister (protocol : ProtocolId) (type : Z)
| CallSetAdditionalMRPBackoffTime (additionalTime : option Z).

(** [CHIP_CONFIG_MRP_RETRY_INTERVAL_SENDER_BOOST] *)
Definition SENDER_BOOST : Z := 0.

Definition done_after {A} (m : W A) : W unit := m ;; ret tt.

Definition exec (l : Label) : W unit :=
  match l with
  | Elapse ms => modify (fun w => set_mNow (mNow w + ms) w)
  | WakeUp => modify (set_mTimer None) ;; Timeout
  | ResponseTimeout p => HandleResponseTimeout p
  | Receive packetHeader header s isDuplicate payload => OnMessageReceived packetHeader header s isDuplicate payload
  | CallNewContext s delegate isInitiator => done_after (NewContext s delegate isInitiator)
  | CallSendMessage p protocol type payload flags => done_after (SendMessage p protocol type payload flags)
  | CallWillSendMessage p => edit p (SetFlag kFlagWillSendMessage true)
  | CallSetResponseTimeout p timeout => edit p (set_mResponseTimeout timeout)
  | CallSetDelegate p delegate => edit p (set_mDelegate delegate)
  | CallClose p => Close p
  | CallAbort p => Abort p
  | CallCloseAll delegate => CloseAllContextsForDelegate delegate
  | ReleaseSession p => SessionReleased p
  | SessionChanges s se => modify (fun w => set_mSessions (<[s := se]> (mSessions w)) w)
  | SessionGone s => modify (fun w => set_mSessions (delete s (mSessions w)) w)
  | CallRegister protocol type handler =>
      modify (fun w => set_UMHandlerPool (RegisterUMH protocol type handler (UMHandlerPool w)).2 w)
  | CallUnregister protocol type =>
      modify (fun w => set_UMHandlerPool (UnregisterUMH protocol type (UMHandlerPool w)).2 w)
  | CallSetAdditionalMRPBackoffTime additionalTime =>
      modify (set_sAdditionalMRPBackoffTime (wrap 32 (default SENDER_BOOST additionalTime)))
  end.

End ExchangeManager.

(** An exchange manager after [Init], at time [t] and with the identifier drawn. *)
Definition new_manager (t exchangeId : Z) (sessions : gmap nat Session) : World :=
  MkWorld t (replicate MAX_EXCHANGE_CONTEXTS None) (replicate RETRANS_TABLE_SIZE None) sessions None ∅
    (replicate MAX_UNSOLICITED_MESSAGE_HANDLERS (MkSlot Protocols_NotSpecified 0 None)) exchangeId SENDER_BOOST 0 [].
