(* ===== verification/ExchangeRules.v ===== *)
(** * ExchangeRules: reasoning about the operations of Exchange.v

    - the rules of [runs] (Runs.v) for each building block of Exchange.v, and the tactic [go]
      that applies them;
    - [keeps R m]: when [m] ends with a value, the states before and after are related by the
      preorder [R], with the same rules, applied by the tactic [keep];
    - flags: what [Has] says after [SetFlag]. *)

From stdpp Require Import gmap.
From S2P Require Import Prelude Encoding MessageHeader BdxMessages Pool Runs Exchange ExchangeMgr.

(** ** Flags *)

Lemma Set_if_bit w v n b i :
  0 <= n < w -> 0 <= i < w ->
  Z.testbit (BitFlags.Set_if w v (2 ^ n) b) i = if decide (i = n) then b else Z.testbit v i.
Proof.
  intros Hn Hi; unfold BitFlags.Set_if, BitFlags.Set_, BitFlags.Clear, BitFlags.complement; destruct b.
  - rewrite Z.lor_spec, Z.pow2_bits_eqb by lia.
    case_decide; bcase; try lia; rewrite ?orb_true_r, ?orb_false_r; done.
  - unfold wrap; rewrite Z.land_spec, Z.mod_pow2_bits_low, Z.lnot_spec, Z.pow2_bits_eqb by lia.
    case_decide; bcase; try lia; rewrite ?andb_true_r, ?andb_false_r; done.
Qed.

Lemma flag_bit_range f : 0 <= flag_bit f < 16.
Proof. destruct f; cbn; lia. Qed.

Lemma flag_bit_inj f g : flag_bit f = flag_bit g -> f = g.
Proof. destruct f, g; cbn; done. Qed.

Lemma Has_SetFlag f g b e : Has (SetFlag f b e) g = if decide (g = f) then b else Has e g.
Proof.
  unfold Has, SetFlag; cbn [mFlags set_mFlags].
  pose proof (flag_bit_range f); pose proof (flag_bit_range g).
  rewrite !BitFlags.Has_testbit by lia; rewrite Set_if_bit by lia.
  destruct (decide (g = f)) as [->|Hne]; [by rewrite decide_True|].
  rewrite decide_False; [done|]; intros E; by apply Hne, flag_bit_inj.
Qed.

Lemma Has_SetFlag_same f b e : Has (SetFlag f b e) f = b.
Proof. rewrite Has_SetFlag; by rewrite decide_True. Qed.
Lemma Has_SetFlag_ne f g b e : g <> f -> Has (SetFlag f b e) g = Has e g.
Proof. intros; rewrite Has_SetFlag; by rewrite decide_False. Qed.

Lemma Has_set_mNextAckTime v e f : Has (set_mNextAckTime v e) f = Has e f. Proof. done. Qed.
Lemma Has_set_counter v e f : Has (set_mPendingPeerAckMessageCounter v e) f = Has e f. Proof. done. Qed.
Lemma Has_set_mRefCount v e f : Has (set_mRefCount v e) f = Has e f. Proof. done. Qed.
Lemma Has_set_mResponseTimeout v e f : Has (set_mResponseTimeout v e) f = Has e f. Proof. done. Qed.
Lemma Has_set_mDelegate v e f : Has (set_mDelegate v e) f = Has e f. Proof. done. Qed.
Lemma Has_set_mSession v e f : Has (set_mSession v e) f = Has e f. Proof. done. Qed.

Create Rewrite HintDb flags.
#[export] Hint Rewrite Has_SetFlag_same Has_set_mNextAckTime Has_set_counter Has_set_mRefCount
  Has_set_mResponseTimeout Has_set_mDelegate Has_set_mSession : flags.
#[export] Hint Rewrite Has_SetFlag_ne using discriminate : flags.

(** The getters are flags too. *)
Ltac flags :=
  unfold IsInitiator, IsResponseExpected, IsAckPending, IsWaitingForAck, HasPiggybackAckPending,
    IsSendExpected, IsClosed in *; autorewrite with flags in *.

(** ** The pools in the state *)

Lemma live_put p q e e0 w :
  live w p = Some e0 -> live (put_exchange p e w) q = if decide (p = q) then Some e else live w q.
Proof. intros H; unfold live; cbn [mContextPool put_exchange set_mContextPool]; apply At_insert; by eapply At_range. Qed.

Lemma live_put_same p e e0 w : live w p = Some e0 -> live (put_exchange p e w) p = Some e.
Proof. intros H; rewrite (live_put p p e e0 w H); by rewrite decide_True. Qed.

Lemma live_put_ne p q e w : p <> q -> live (put_exchange p e w) q = live w q.
Proof.
  intros H; unfold live, At; cbn [mContextPool put_exchange set_mContextPool].
  by rewrite list_lookup_insert_ne.
Qed.

Lemma put_put p e e' w : put_exchange p e' (put_exchange p e w) = put_exchange p e' w.
Proof. unfold put_exchange; cbn; by rewrite list_insert_insert_eq. Qed.

Lemma put_live p e w : live w p = Some e -> put_exchange p e w = w.
Proof.
  unfold live, At, put_exchange; destruct w as [t pool table ss tm rt um ni ab c lg]; cbn.
  destruct (pool !! p) as [o|] eqn:E; [|done]; cbn; intros ->; by rewrite list_insert_id.
Qed.

Lemma entry_put i j en en0 w :
  entry_at w i = Some en0 -> entry_at (put_entry i en w) j = if decide (i = j) then Some en else entry_at w j.
Proof. intros H; unfold entry_at; cbn [mRetransTable put_entry set_mRetransTable]; apply At_insert; by eapply At_range. Qed.

(** ** Total correctness *)

Lemma runs_now w (Q : Z -> World -> Prop) : Q (mNow w) w -> runs now w Q.
Proof. done. Qed.
Lemma runs_tick w (Q : nat -> World -> Prop) : Q (mCalls w) (set_mCalls (S (mCalls w)) w) -> runs tick w Q.
Proof. done. Qed.
Lemma runs_emit ev w (Q : unit -> World -> Prop) : Q tt (set_mLog (mLog w ++ [ev]) w) -> runs (emit ev) w Q.
Proof. done. Qed.

Lemma runs_exchange p e w (Q : Exchange -> World -> Prop) : live w p = Some e -> Q e w -> runs (exchange p) w Q.
Proof. intros H HQ; by eapply runs_deref. Qed.
Lemma runs_edit p f e w (Q : unit -> World -> Prop) :
  live w p = Some e -> Q tt (put_exchange p (f e) w) -> runs (edit p f) w Q.
Proof. intros H HQ; apply runs_seq; by eapply runs_exchange. Qed.
Lemma runs_entry i en w (Q : RetransTableEntry -> World -> Prop) :
  entry_at w i = Some en -> Q en w -> runs (entry i) w Q.
Proof. intros H HQ; by eapply runs_deref. Qed.
Lemma runs_edit_entry i f en w (Q : unit -> World -> Prop) :
  entry_at w i = Some en -> Q tt (put_entry i (f en) w) -> runs (edit_entry i f) w Q.
Proof. intros H HQ; apply runs_seq; by eapply runs_entry. Qed.
Lemma runs_session s se w (Q : Session -> World -> Prop) :
  mSessions w !! s = Some se -> Q se w -> runs (session s) w Q.
Proof. intros H HQ; by eapply runs_deref. Qed.

(** [go] goes through the building blocks; what it cannot find in the context it leaves
    to be proved. *)
Ltac go :=
  repeat (cbn beta;
    lazymatch goal with
    | |- runs (bind _ _) _ _ => apply runs_seq
    | |- runs (ret _) _ _ => apply runs_ret
    | |- runs get _ _ => apply runs_get
    | |- runs (modify _) _ _ => apply runs_modify
    | |- runs (VerifyOrDie _) _ _ => apply runs_die
    | |- runs (when _ _) _ _ => apply runs_when; [let H := fresh "Hc" in intros H ..]
    | |- runs now _ _ => apply runs_now
    | |- runs tick _ _ => apply runs_tick
    | |- runs (emit _) _ _ => apply runs_emit
    | |- runs (exchange _) _ _ => eapply runs_exchange; [try eassumption|]
    | |- runs (edit _ _) _ _ => eapply runs_edit; [try eassumption|]
    | |- runs (entry _) _ _ => eapply runs_entry; [try eassumption|]
    | |- runs (edit_entry _ _) _ _ => eapply runs_edit_entry; [try eassumption|]
    | |- runs (session _) _ _ => eapply runs_session; [try eassumption|]
    | |- runs (deref _) _ _ => eapply runs_deref; [try eassumption|]
    end).

(** ** What every operation keeps *)

Section Keeps.
Context (R : World -> World -> Prop) {HR : PreOrder R}.

Definition keeps {A} (m : W A) : Prop := forall w a w', m w = (Ok a, w') -> R w w'.

Lemma keep_ret {A} (a : A) : keeps (ret a).
Proof. intros w r w' [= <- <-]; reflexivity. Qed.
Lemma keep_fail {A} e : keeps (@fail World A e).
Proof. by intros w r w' [=]. Qed.
Lemma keeps_get : keeps get.
Proof. intros w r w' [= <- <-]; reflexivity. Qed.
Lemma keeps_now : keeps now.
Proof. intros w r w' [= <- <-]; reflexivity. Qed.
Lemma keeps_deref {A} (find : World -> option A) : keeps (deref find).
Proof. unfold deref; intros w r w'; destruct (find w); intros [= <- <-]; reflexivity. Qed.
Lemma keeps_die b : keeps (VerifyOrDie b).
Proof. destruct b; [apply keep_ret|apply keep_fail]. Qed.
Lemma keeps_when b m : keeps m -> keeps (when b m).
Proof. destruct b; [done|intros; apply keep_ret]. Qed.
Lemma keeps_modify f : (forall w, R w (f w)) -> keeps (modify f).
Proof. intros H w r w' [= <- <-]; apply H. Qed.

Lemma keep_bind {A B} (m : W A) (k : A -> W B) : keeps m -> (forall a, keeps (k a)) -> keeps (bind m k).
Proof.
  intros Hm Hk w r w' E; unfold bind in E; destruct (m w) as [[a|e] w1] eqn:Em; [|done].
  etransitivity; [by eapply Hm|by eapply Hk].
Qed.

Lemma keeps_for_each l f : (forall i, keeps (f i)) -> keeps (for_each l f).
Proof. intros Hf; induction l; cbn [for_each]; [apply keep_ret|by apply keep_bind]. Qed.

Lemma keeps_edit p f :
  (forall w e, live w p = Some e -> R w (put_exchange p (f e) w)) -> keeps (edit p f).
Proof.
  intros H w r w' E; unfold edit, exchange, bind, deref, modify in E.
  destruct (live w p) eqn:El; simplify_eq; by apply H.
Qed.

Lemma keeps_edit_entry i f :
  (forall w en, entry_at w i = Some en -> R w (put_entry i (f en) w)) -> keeps (edit_entry i f).
Proof.
  intros H w r w' E; unfold edit_entry, entry, bind, deref, modify in E.
  destruct (entry_at w i) eqn:El; simplify_eq; by apply H.
Qed.

Lemma keeps_runs {A} (m : W A) w Q : keeps m -> runs m w Q -> runs m w (fun a w' => Q a w' /\ R w w').
Proof.
  unfold runs; intros Hk; destruct (m w) as [[a|e] w'] eqn:E; [|done]; eauto.
Qed.
End Keeps.

Create HintDb keeps.

(** [keep tac] goes through an operation; [tac] proves the changes made by [modify],
    [edit], [tick], [emit] and the like, unfolded. *)
Ltac keep_step :=
  lazymatch goal with
  | |- keeps _ (bind _ _) => apply keep_bind; [typeclasses eauto| |intros ?]
  | |- keeps _ (ret _) => apply keep_ret; [typeclasses eauto]
  | |- keeps _ (fail _) => apply keep_fail
  | |- keeps _ get => apply keeps_get; [typeclasses eauto]
  | |- keeps _ now => apply keeps_now; [typeclasses eauto]
  | |- keeps _ (deref _) => apply keeps_deref; [typeclasses eauto]
  | |- keeps _ (exchange _) => apply keeps_deref; [typeclasses eauto]
  | |- keeps _ (entry _) => apply keeps_deref; [typeclasses eauto]
  | |- keeps _ (session _) => apply keeps_deref; [typeclasses eauto]
  | |- keeps _ (VerifyOrDie _) => apply keeps_die; [typeclasses eauto]
  | |- keeps _ (when _ _) => apply keeps_when; [typeclasses eauto|]
  | |- keeps _ (for_each _ _) => apply keeps_for_each; [typeclasses eauto|intros ?]
  | |- keeps _ (match ?x with _ => _ end) => destruct x
  | |- keeps _ (if ?b then _ else _) => destruct b
  end.
Ltac keep := repeat (keep_step || (progress cbn beta) || eauto with keeps typeclass_instances).
