(* ===== verification/ExchangeInv.v ===== *)
(** * ExchangeInv: the invariant of an exchange manager

    - [Ghost]: who holds references.  [g_own]: the exchanges whose first reference is
      still held by their owner; [g_held]: the [ExchangeHandle]s of the scopes being
      executed; [g_hole]: a retransmission entry being filled; [g_loose]: an exchange
      being closed, or just without its session;
    - [Inv]: every reference count is the number of references there are, free slots are
      referred to by nothing, and what the flags of an exchange say is true;
    - for every operation of Exchange.v, that it runs from a state with the invariant to
      one with it. *)

From stdpp Require Import gmap.
From S2P Require Import Prelude Encoding MessageHeader BdxMessages Pool Runs Exchange ExchangeMgr ExchangeRules.

Record Ghost := MkGhost {
  g_own : gset nat;
  g_held : list nat;
  g_hole : option nat;
  g_loose : option nat }.

Definition hold (p : nat) (g : Ghost) : Ghost := MkGhost (g_own g) (p :: g_held g) (g_hole g) (g_loose g).
Definition own (p : nat) (g : Ghost) : Ghost := MkGhost ({[p]} ∪ g_own g) (g_held g) (g_hole g) (g_loose g).
Definition disown (p : nat) (g : Ghost) : Ghost := MkGhost (g_own g ∖ {[p]}) (g_held g) (g_hole g) (g_loose g).
Definition with_hole (o : option nat) (g : Ghost) : Ghost := MkGhost (g_own g) (g_held g) o (g_loose g).
Definition with_loose (o : option nat) (g : Ghost) : Ghost := MkGhost (g_own g) (g_held g) (g_hole g) o.

(** ** The invariant *)

Definition refers (p : nat) (en : RetransTableEntry) : bool := (en_ec en =? p)%nat.
Definition entries (w : World) (p : nat) : nat := tally (refers p) (mRetransTable w).
Definition owed (g : Ghost) (w : World) (p : nat) : nat :=
  ((if decide (p ∈ g_own g) then 1 else 0) + count_occ Nat.eq_dec (g_held g) p + entries w p)%nat.

Definition established (se : Session) : Prop := IsSecureSession se = true -> mState se <> kEstablishing.

Record exchange_ok (g : Ghost) (w : World) (p : nat) (e : Exchange) : Prop := {
  xo_refs : mRefCount e = Z.of_nat (owed g w p);
  xo_pos : (0 < owed g w p)%nat;
  xo_one : (entries w p <= 1)%nat;
  xo_wait : IsWaitingForAck e = (0 <? entries w p)%nat;
  xo_session : (0 < entries w p)%nat -> is_Some (mSession e) \/ g_loose g = Some p;
  xo_known : forall s, mSession e = Some s -> exists se, mSessions w !! s = Some se /\ established se;
  xo_open : IsClosed e = false -> p ∈ g_own g;
  xo_delegate : IsClosed e = true -> mDelegate e = None \/ g_loose g = Some p;
  xo_timer : is_Some (mResponseTimers w !! p) ->
    p ∈ g_own g /\ IsResponseExpected e = true /\ (IsClosed e = false \/ g_loose g = Some p);
  xo_kept : Has e kFlagIgnoreSessionRelease = false }.

Record Inv (g : Ghost) (w : World) : Prop := {
  inv_live : forall p e, live w p = Some e -> exchange_ok g w p e;
  inv_free : forall p, live w p = None -> owed g w p = 0%nat /\ mResponseTimers w !! p = None;
  inv_buf : forall i en, entry_at w i = Some en -> Some i <> g_hole g -> is_Some (en_retainedBuf en);
  inv_small : (length (g_held g) < 100)%nat }.

(** What the invariant is about. *)
Definition same_parts (w w' : World) : Prop :=
  mContextPool w' = mContextPool w /\ mRetransTable w' = mRetransTable w /\
  mSessions w' = mSessions w /\ mResponseTimers w' = mResponseTimers w.

Lemma Inv_same g w w' : same_parts w w' -> Inv g w -> Inv g w'.
Proof.
  intros (Hp & Ht & Hs & Hr) H; destruct w, w'; cbn in *; subst.
  destruct H as [H1 H2 H3 H4]; split; [|done..].
  intros p e He; destruct (H1 p e He); by split.
Qed.

(** Nothing but flags of acknowledgements. *)
Definition ack_flag (f : Flags) : bool :=
  match f with kFlagAckPending | kFlagAckMessageCounterIsValid | kFlagWaitingForAck => true | _ => false end.
Definition kin (e e' : Exchange) : Prop :=
  mSession e' = mSession e /\ mDelegate e' = mDelegate e /\ mDispatch e' = mDispatch e /\
  forall f, ack_flag f = false -> Has e' f = Has e f.

#[export] Instance kin_preorder : PreOrder kin.
Proof.
  split; [by intros e|].
  intros e1 e2 e3 (A1 & A2 & A3 & A4) (B1 & B2 & B3 & B4); split_and!; try congruence.
  intros f Hf; by rewrite B4, A4.
Qed.

Lemma kin_SetFlag f b e : ack_flag f = true -> kin e (SetFlag f b e).
Proof. intros Hf; split_and!; try done; intros g Hg; apply Has_SetFlag_ne; congruence. Qed.
Lemma kin_set_counter v e : kin e (set_mPendingPeerAckMessageCounter v e). Proof. done. Qed.
Lemma kin_set_time v e : kin e (set_mNextAckTime v e). Proof. done. Qed.
Lemma kin_set_refs v e : kin e (set_mRefCount v e). Proof. done. Qed.

Lemma kin_expected e e' : kin e e' -> IsResponseExpected e' = IsResponseExpected e.
Proof. intros H; by apply H. Qed.
Lemma kin_closed e e' : kin e e' -> IsClosed e' = IsClosed e.
Proof. intros H; by apply H. Qed.
Lemma kin_send e e' : kin e e' -> IsSendExpected e' = IsSendExpected e.
Proof. intros H; by apply H. Qed.

Lemma ok_kin g w p e e' :
  exchange_ok g w p e -> kin e e' -> mRefCount e' = mRefCount e -> IsWaitingForAck e' = IsWaitingForAck e ->
  exchange_ok g w p e'.
Proof.
  intros [] Hk Hr Hw; pose proof (kin_expected _ _ Hk); pose proof (kin_closed _ _ Hk).
  destruct Hk as (Hs & Hd & Hdi & Hf).
  split; try congruence; rewrite ?Hs, ?Hd; try done.
  - rewrite H0; done.
  - rewrite H0; done.
  - rewrite H, H0; done.
  - by rewrite Hf.
Qed.

Lemma Inv_put g w p e e' :
  Inv g w -> live w p = Some e -> exchange_ok g w p e' -> Inv g (put_exchange p e' w).
Proof.
  intros HI He Hok; destruct HI as [H1 H2 H3 H4]; split; [| |done|done].
  - intros q eq; rewrite (live_put p q _ e) by done; case_decide as Hq; [intros [= <-]; subst|intros Heq].
    + destruct Hok; by split.
    + destruct (H1 q eq Heq); by split.
  - intros q; rewrite (live_put p q _ e) by done; case_decide; [done|apply H2].
Qed.

Lemma Inv_put_kin g w p e e' :
  Inv g w -> live w p = Some e -> kin e e' -> mRefCount e' = mRefCount e ->
  IsWaitingForAck e' = IsWaitingForAck e -> Inv g (put_exchange p e' w).
Proof. intros HI He Hk Hr Hw; eapply Inv_put; [done..|]; eapply ok_kin; [by apply HI|done..]. Qed.

Lemma Inv_known g w p e s :
  Inv g w -> live w p = Some e -> mSession e = Some s -> exists se, mSessions w !! s = Some se /\ established se.
Proof. intros HI He; apply (xo_known _ _ _ _ (inv_live _ _ HI p e He)). Qed.

(** ** Sessions *)

(** Sessions stay what they are, and none goes back to being established. *)
Definition sessions_kept (m m' : gmap nat Session) : Prop :=
  forall s se, m !! s = Some se -> established se -> exists se', m' !! s = Some se' /\ established se'.

Lemma Inv_sessions g w m : Inv g w -> sessions_kept (mSessions w) m -> Inv g (set_mSessions m w).
Proof.
  intros [H1 H2 H3 H4] Hm; split; [|done..].
  intros p e He; destruct (H1 p e He); split; try done.
  intros s Hs; destruct (xo_known0 s Hs) as (se & Hse & Hest); by eapply Hm.
Qed.

Lemma runs_mark s w (Q : unit -> World -> Prop) :
  (exists se, mSessions w !! s = Some se /\ established se) ->
  (forall m, sessions_kept (mSessions w) m -> Q tt (set_mSessions m w)) ->
  runs (mark_if_case s) w Q.
Proof.
  intros (se & Hse & Hest) HQ.
  assert (Hw : set_mSessions (mSessions w) w = w) by by destruct w.
  assert (HQ0 : Q tt w) by (rewrite <-Hw; apply HQ; intros s' se' H1 H2; eauto).
  unfold mark_if_case; go; [|done]; apply andb_true_iff in Hc as [Hc _]; unfold MarkAsDefunct; go.
  specialize (Hest Hc); destruct (mState se) eqn:Es; try done.
  go; apply HQ; intros s' se' Hs' He'; destruct (decide (s = s')) as [<-|Hne].
  - exists (with_state se kDefunct); split; [apply lookup_insert_eq|by intros _].
  - exists se'; by rewrite lookup_insert_ne.
Qed.

(** ** References *)

Lemma count_hold p q l :
  count_occ Nat.eq_dec (p :: l) q = (count_occ Nat.eq_dec l q + (if decide (p = q) then 1 else 0))%nat.
Proof. case_decide; [subst; rewrite count_occ_cons_eq by done; lia|rewrite count_occ_cons_neq by done; lia]. Qed.

Lemma count_le p l : (count_occ Nat.eq_dec l p <= length l)%nat.
Proof. apply count_occ_bound. Qed.

Lemma owed_small g w p e : Inv g w -> live w p = Some e -> (owed g w p < 103)%nat.
Proof.
  intros HI He; pose proof (xo_one _ _ _ _ (inv_live _ _ HI p e He)).
  pose proof (inv_small _ _ HI); pose proof (count_le p (g_held g)).
  unfold owed; case_decide; lia.
Qed.

Lemma owed_hold p q g w : owed (hold p g) w q = (owed g w q + (if decide (p = q) then 1 else 0))%nat.
Proof.
  unfold owed; cbn [g_own g_held hold].
  rewrite count_hold; generalize (entries w q), (count_occ Nat.eq_dec (g_held g) q); intros.
  destruct (decide (p = q)), (decide (q ∈ g_own g)); lia.
Qed.

Lemma runs_Retain g p e w (Q : unit -> World -> Prop) :
  Inv g w -> live w p = Some e -> (length (g_held g) < 99)%nat ->
  (let w' := put_exchange p (set_mRefCount (mRefCount e + 1) e) w in Inv (hold p g) w' -> Q tt w') ->
  runs (Retain p) w Q.
Proof.
  intros HI He Hl HQ; pose proof (inv_live _ _ HI p e He) as Hok.
  pose proof (owed_small g w p e HI He) as Hs; pose proof (xo_refs _ _ _ _ Hok) as Hr.
  pose proof (xo_pos _ _ _ _ Hok) as Hp.
  unfold Retain; go.
  { apply Z.ltb_lt; lia. }
  { apply Z.ltb_lt; unfold kMaxRefCount; lia. }
  apply HQ; destruct HI as [H1 H2 H3 H4]; split; [| |done|cbn; lia].
  - intros q eq; rewrite (live_put p q _ e) by done; case_decide as Hq; [intros [= <-]; subst q|intros Heq].
    + destruct Hok; split; try done; rewrite owed_hold, decide_True by done; [cbn [mRefCount set_mRefCount]|];
        change (owed g (put_exchange p (set_mRefCount (mRefCount e + 1) e) w) p) with (owed g w p); lia.
    + destruct (H1 q eq Heq); split; try done; rewrite owed_hold, decide_False by done;
        change (owed g (put_exchange p (set_mRefCount (mRefCount e + 1) e) w) q) with (owed g w q); lia.
  - intros q; rewrite (live_put p q _ e) by done; case_decide as Hq; [done|]; intros Heq.
    rewrite owed_hold, decide_False by done; destruct (H2 q Heq); split; [|done].
    change (owed g (put_exchange p (set_mRefCount (mRefCount e + 1) e) w) q) with (owed g w q); lia.
Qed.

(** The state after a reference to [p] is dropped. *)
Definition dropped (p : nat) (e : Exchange) (w : World) : World :=
  if mRefCount e - 1 =? 0 then set_mContextPool (<[p := None]> (mContextPool w)) w
  else put_exchange p (set_mRefCount (mRefCount e - 1) e) w.

Lemma live_dropped_ne p q e w : p <> q -> live (dropped p e w) q = live w q.
Proof.
  intros H; unfold dropped; case_match; [|by apply live_put_ne].
  unfold live, At; cbn; by rewrite list_lookup_insert_ne.
Qed.

Lemma live_dropped p e w :
  live w p = Some e ->
  live (dropped p e w) p = if mRefCount e - 1 =? 0 then None else Some (set_mRefCount (mRefCount e - 1) e).
Proof.
  intros He; unfold dropped; case_match; [|by eapply live_put_same].
  unfold live; cbn; rewrite At_insert by (by eapply At_range); by rewrite decide_True.
Qed.

Lemma dropped_parts p e w :
  mRetransTable (dropped p e w) = mRetransTable w /\ mSessions (dropped p e w) = mSessions w /\
  mResponseTimers (dropped p e w) = mResponseTimers w.
Proof. unfold dropped; case_match; done. Qed.

Lemma owed_dropped g p q e w : owed g (dropped p e w) q = owed g w q.
Proof. unfold owed, entries; by rewrite (proj1 (dropped_parts p e w)). Qed.

Lemma runs_Release p e w (Q : unit -> World -> Prop) :
  live w p = Some e -> 0 < mRefCount e -> (mRefCount e = 1 -> IsClosed e = true) ->
  Q tt (dropped p e w) -> runs (Release p) w Q.
Proof.
  intros He Hpos Hcl HQ; unfold Release; go.
  { apply negb_true_iff, Z.eqb_neq; lia. }
  - unfold ReleaseContext; go; [by eapply live_put_same|cbn [mRefCount set_mRefCount]|].
    { apply Z.eqb_eq in Hc; flags; rewrite Hc; cbn; apply Hcl; lia. }
    eapply runs_intro; [|exact HQ].
    unfold Deallocate; pose proof (live_put_same p (set_mRefCount (mRefCount e - 1) e) e w He) as Hp.
    unfold live in Hp; rewrite Hp; unfold dropped; rewrite Hc; cbn; by rewrite list_insert_insert_eq.
  - unfold dropped in HQ; by rewrite Hc in HQ.
Qed.

(** Going from the references of [g] to those of [g'], one reference to [p] less. *)
Record drops (p : nat) (g g' : Ghost) : Prop := {
  dr_owed : forall w q, owed g w q = (owed g' w q + (if decide (p = q) then 1 else 0))%nat;
  dr_own : forall q, q <> p -> q ∈ g_own g -> q ∈ g_own g';
  dr_hole : g_hole g' = g_hole g;
  dr_loose : g_loose g' = g_loose g;
  dr_small : (length (g_held g') <= length (g_held g))%nat }.

Lemma drops_hold p g : drops p (hold p g) g.
Proof. split; try done; [intros; apply owed_hold|cbn; lia]. Qed.

Lemma drops_own p g : p ∈ g_own g -> drops p g (disown p g).
Proof.
  intros Hp; split; try done; cbn [g_own disown].
  - intros w q; unfold owed; cbn [g_own g_held disown].
    destruct (decide (p = q)), (decide (q ∈ g_own g ∖ {[p]})), (decide (q ∈ g_own g)); subst;
      first [lia|exfalso; set_solver].
  - set_solver.
Qed.

Lemma Inv_dropped g g' p e w :
  Inv g w -> live w p = Some e -> drops p g g' ->
  (p ∈ g_own g' \/ IsClosed e = true /\ mResponseTimers w !! p = None) ->
  Inv g' (dropped p e w).
Proof.
  intros HI He [Hd Hown Hh Hl Hsm] Hcase.
  pose proof (xo_refs _ _ _ _ (inv_live _ _ HI p e He)) as Hr.
  destruct (dropped_parts p e w) as (Pt & Ps & Pr).
  destruct HI as [H1 H2 H3 H4]; split.
  - intros q eq Heq; destruct (decide (p = q)) as [<-|Hne].
    + rewrite (live_dropped p e w He) in Heq; case_match eqn:Ez; [done|]; injection Heq as <-.
      apply Z.eqb_neq in Ez; rewrite (Hd w), decide_True in Hr by done.
      destruct (H1 p e He); split; try done; rewrite ?owed_dropped; unfold entries; rewrite ?Pt, ?Ps, ?Pr, ?Hl;
        try done; flags.
      * cbn [mRefCount set_mRefCount]; lia.
      * lia.
      * intros Hc; destruct Hcase as [|[Hc' _]]; [done|]; flags; congruence.
      * intros Ht; destruct Hcase as [Hp|[_ Hn]]; [|rewrite Hn in Ht; by destruct Ht].
        split; [done|]; by apply xo_timer0.
    + rewrite live_dropped_ne in Heq by done; specialize (Hd w q); rewrite decide_False in Hd by done.
      destruct (H1 q eq Heq); split; rewrite ?owed_dropped; unfold entries; rewrite ?Pt, ?Ps, ?Pr, ?Hl; try done.
      * rewrite xo_refs0, Hd; f_equal; lia.
      * lia.
      * intros Hc; apply Hown; auto.
      * intros Ht; destruct (xo_timer0 Ht) as (Hq & ?); split; [by apply Hown|done].
  - intros q Hq; rewrite owed_dropped, Pr; destruct (decide (p = q)) as [<-|Hne].
    + rewrite (live_dropped p e w He) in Hq; case_match eqn:Ez; [|done]; apply Z.eqb_eq in Ez.
      rewrite (Hd w), decide_True in Hr by done.
      assert (owed g' w p = 0%nat) as Hz by lia; split; [done|].
      destruct Hcase as [Hp|[_ Hn]]; [|done].
      unfold owed in Hz; rewrite decide_True in Hz by done; lia.
    + rewrite live_dropped_ne in Hq by done; destruct (H2 q Hq) as [Hz ?]; split; [|done].
      rewrite (Hd w), decide_False in Hz by done; lia.
  - intros i en Hi; rewrite Hh; apply H3; unfold entry_at in *; by rewrite Pt in Hi.
  - lia.
Qed.

Lemma runs_Release_inv g g' p e w (Q : unit -> World -> Prop) :
  Inv g w -> live w p = Some e -> drops p g g' ->
  (p ∈ g_own g' \/ IsClosed e = true /\ mResponseTimers w !! p = None) ->
  (Inv g' (dropped p e w) -> Q tt (dropped p e w)) -> runs (Release p) w Q.
Proof.
  intros HI He Hd Hcase HQ; pose proof (inv_live _ _ HI p e He) as Hok.
  pose proof (xo_refs _ _ _ _ Hok) as Hr; pose proof (xo_pos _ _ _ _ Hok).
  eapply runs_Release; [done|lia| |].
  - intros E; destruct Hcase as [Hp|[Hc _]]; [|done].
    pose proof (dr_owed _ _ _ Hd w p) as Ho; rewrite decide_True in Ho by done.
    unfold owed in Ho at 2; rewrite decide_True in Ho by done; lia.
  - by apply HQ, Inv_dropped with g.
Qed.

(** A scope with an [ExchangeHandle]. *)
Lemma hold_case g p e w :
  Inv (hold p g) w -> live w p = Some e -> p ∈ g_own g \/ IsClosed e = true /\ mResponseTimers w !! p = None.
Proof.
  intros HI He; destruct (decide (p ∈ g_own g)) as [|Hn]; [by left|right].
  destruct (inv_live _ _ HI p e He); cbn [g_own hold] in *; split.
  - by destruct (IsClosed e) eqn:Ec; [|exfalso; apply Hn, xo_open0].
  - destruct (mResponseTimers w !! p) eqn:Et; [|done].
    exfalso; apply Hn; by apply xo_timer0.
Qed.

Lemma held_live g p w : Inv (hold p g) w -> exists e, live w p = Some e.
Proof.
  intros HI; destruct (live w p) as [e|] eqn:E; [by exists e|exfalso].
  destruct (inv_free _ _ HI p E) as [Hz _].
  rewrite owed_hold, decide_True in Hz by done; lia.
Qed.

Lemma runs_with_ref {A} g p e w (body : W A) (Q : A -> World -> Prop) :
  Inv g w -> live w p = Some e -> (length (g_held g) < 99)%nat ->
  (let w1 := put_exchange p (set_mRefCount (mRefCount e + 1) e) w in
   Inv (hold p g) w1 ->
   runs body w1 (fun a w2 => exists g', Inv (hold p g') w2 /\
     forall e2, live w2 p = Some e2 -> Inv g' (dropped p e2 w2) -> Q a (dropped p e2 w2))) ->
  runs (with_ref p body) w Q.
Proof.
  intros HI He Hl Hb; unfold with_ref; apply runs_seq; eapply runs_Retain; [done..|].
  intros w1 HI1; apply runs_seq; eapply runs_mono; [by apply Hb|].
  intros a w2 (g' & HI2 & HQ); destruct (held_live g' p w2 HI2) as [e2 He2].
  apply runs_seq; eapply runs_Release_inv; [done..|apply drops_hold|by eapply hold_case|].
  intros HI3; apply runs_ret; by apply HQ.
Qed.

(** ** Standalone acknowledgements *)

(** All that sending one does: the acknowledgement is not pending any more (unless there
    was no way to send it), and a session may be defunct. *)
Definition acked (p : nat) (e : Exchange) (w w' : World) : Prop :=
  exists e', (e' = e \/ e' = SetFlag kFlagAckPending false e) /\
    mContextPool w' = <[p := Some e']> (mContextPool w) /\ mRetransTable w' = mRetransTable w /\
    mResponseTimers w' = mResponseTimers w /\ sessions_kept (mSessions w) (mSessions w').

Lemma sessions_kept_refl m : sessions_kept m m.
Proof. intros s se; eauto. Qed.

#[export] Hint Resolve sessions_kept_refl : core.

Lemma pool_id p e w : live w p = Some e -> <[p := Some e]> (mContextPool w) = mContextPool w.
Proof. intros H; apply (f_equal mContextPool (put_live p e w H)). Qed.

Lemma acked_refl p e w : live w p = Some e -> acked p e w w.
Proof. intros H; exists e; split_and!; try done; [by left|by rewrite pool_id]. Qed.

Lemma acked_live p e w w' :
  live w p = Some e -> acked p e w w' ->
  exists e', live w' p = Some e' /\ (e' = e \/ e' = SetFlag kFlagAckPending false e).
Proof.
  intros He (e' & H & Hp & _); exists e'; split; [|done].
  unfold live; rewrite Hp; rewrite At_insert by (by eapply At_range); by rewrite decide_True.
Qed.

Lemma acked_live_ne p e w w' q : acked p e w w' -> q <> p -> live w' q = live w q.
Proof. intros (e' & _ & Hp & _) Hq; unfold live, At; rewrite Hp; by rewrite list_lookup_insert_ne. Qed.

Lemma acked_kin e e' : e' = e \/ e' = SetFlag kFlagAckPending false e -> kin e e'.
Proof. intros [->| ->]; [done|by apply kin_SetFlag]. Qed.

Lemma Inv_acked g p e w w' : Inv g w -> live w p = Some e -> acked p e w w' -> Inv g w'.
Proof.
  intros HI He (e' & H & Hp & Ht & Hr & Hs).
  eapply (Inv_same _ (set_mSessions (mSessions w') (put_exchange p e' w))); [by split_and!|].
  apply Inv_sessions; [|done].
  eapply Inv_put_kin; [done..| | |]; [by apply acked_kin|by destruct H; subst|destruct H; subst; [done|by flags]].
Qed.

Section Specs.
Context `{MP : MessagingPlatform}.

Lemma runs_prepare header payload w (Q : result EncryptedPacketBuffer -> World -> Prop) :
  (forall r, Q r (set_mCalls (S (mCalls w)) w)) -> runs (PrepareMessage header payload) w Q.
Proof. intros HQ; unfold PrepareMessage; go; apply HQ. Qed.

Lemma runs_send s packet w (Q : CHIP_ERROR -> World -> Prop) :
  (forall err n l, Q err (set_mLog l (set_mCalls n w))) -> runs (SendPreparedMessage s packet) w Q.
Proof. intros HQ; unfold SendPreparedMessage; go; apply HQ. Qed.

(** A message that does not ask for an acknowledgement. *)
Lemma runs_non_mrp s header payload w (Q : CHIP_ERROR -> World -> Prop) :
  (forall err n l, Q err (set_mLog l (set_mCalls n w))) -> runs (PrepareAndSendNonMRPMessage s header payload) w Q.
Proof.
  intros HQ; unfold PrepareAndSendNonMRPMessage; apply runs_seq, runs_prepare; intros [packet|err].
  - apply runs_send; intros err n l; apply (HQ err n l).
  - apply runs_ret; specialize (HQ err (S (mCalls w)) (mLog w)); by destruct w.
Qed.

Lemma runs_take p e w (Q : Z -> World -> Prop) :
  live w p = Some e ->
  Q (mPendingPeerAckMessageCounter e) (put_exchange p (SetFlag kFlagAckPending false e) w) ->
  runs (TakePendingPeerAckMessageCounter p) w Q.
Proof. intros He HQ; unfold TakePendingPeerAckMessageCounter; go; [by eapply live_put_same|done]. Qed.

Lemma runs_dispatch_unreliable p s se e protocol type payload w (Q : CHIP_ERROR -> World -> Prop) :
  live w p = Some e -> mSessions w !! s = Some se ->
  (forall err w', acked p e w w' -> Q err w') ->
  runs (Dispatch_SendMessage p s false protocol type payload) w Q.
Proof.
  intros He Hse HQ; unfold Dispatch_SendMessage; go.
  destruct (negb _); [apply runs_ret, HQ; by apply acked_refl|].
  go; destruct (AllowsMRP se).
  - destruct (HasPiggybackAckPending e).
    + go; eapply runs_take; [done|]; go; rewrite andb_false_r; apply runs_non_mrp; intros; apply HQ.
      eexists; split_and!; [by right|done..].
    + go; rewrite andb_false_r; apply runs_non_mrp; intros; apply HQ.
      exists e; split_and!; [by left|cbn; by rewrite pool_id|done..].
  - apply runs_non_mrp; intros; apply HQ.
    exists e; split_and!; [by left|cbn; by rewrite pool_id|done..].
Qed.

Lemma runs_group p e s se w (Q : bool -> World -> Prop) :
  live w p = Some e -> mSession e = Some s -> mSessions w !! s = Some se ->
  Q (Session_IsGroupSession se) w -> runs (IsGroupExchangeContext p) w Q.
Proof. intros He Hs Hse HQ; unfold IsGroupExchangeContext; go; rewrite Hs; go; done. Qed.

Lemma runs_standalone p e w (Q : CHIP_ERROR -> World -> Prop) :
  live w p = Some e -> 0 < mRefCount e < 1000 ->
  (forall s, mSession e = Some s -> exists se, mSessions w !! s = Some se /\ established se) ->
  (forall err w', acked p e w w' -> Q err w') ->
  runs (SendStandaloneAckMessage p) w Q.
Proof.
  intros He Hr Hk HQ; unfold SendStandaloneAckMessage; go.
  destruct (negb _); [apply runs_ret, HQ; exists e; split_and!; try done; [by left|cbn; by rewrite pool_id]|].
  apply runs_seq; unfold SendMessage_with; go.
  destruct (mSession e) as [s|] eqn:Es;
    [|apply runs_ret, runs_ret, HQ; exists e; split_and!; try done; [by left|cbn; by rewrite pool_id]].
  destruct (Hk s eq_refl) as (se & Hse & Hest).
  go; [apply Z.ltb_lt; lia|]; unfold with_ref, Retain; go.
  { apply Z.ltb_lt; lia. }
  { apply Z.ltb_lt; unfold kMaxRefCount; lia. }
  set (e1 := set_mRefCount (mRefCount e + 1) e).
  set (w1 := put_exchange p e1 (set_mCalls (S (mCalls w)) w)).
  assert (H1 : live w1 p = Some e1) by (by eapply live_put_same).
  eapply runs_group; [exact H1|done|done|]; go.
  change (BitFlags.Has kNoAutoRequestAck kExpectResponse) with false; cbn [andb].
  change (BitFlags.Has kNoAutoRequestAck kNoAutoRequestAck) with true; cbn [negb]; rewrite andb_false_r; cbn [andb].
  go.
  (* the reference is dropped again *)
  assert (Hend : forall err w2, acked p e1 w1 w2 ->
    runs (bind (ret err) (fun r => Release p ;; ret r)) w2
      (fun a w' => runs (ret (if IsSendErrorNonCritical a then CHIP_NO_ERROR else a)) w' Q)).
  { intros err w2 Ha; destruct (acked_live p e1 w1 w2 H1 Ha) as (e2 & He2 & Hcase).
    assert (mRefCount e2 = mRefCount e + 1) as Hr2 by (by destruct Hcase; subst e2).
    go; eapply runs_Release; [exact He2|lia|intros; lia|]; go; apply HQ.
    destruct Ha as (e3 & Hcase3 & Hp & Ht & Hrt & Hs).
    assert (e3 = e2) as ->.
    { unfold live in He2; rewrite Hp, At_insert, decide_True in He2 by (done || by eapply At_range).
      by injection He2. }
    exists (set_mRefCount (mRefCount e) e2); split_and!.
    - destruct Hcase3; subst e2; [left|right]; by destruct e.
    - unfold dropped; rewrite (proj2 (Z.eqb_neq _ _)) by lia; cbn [mContextPool put_exchange set_mContextPool].
      rewrite Hp, Hr2; subst w1; cbn; rewrite !list_insert_insert_eq.
      by replace (mRefCount e + 1 - 1) with (mRefCount e) by lia.
    - by rewrite (proj1 (dropped_parts _ _ _)).
    - by rewrite (proj2 (proj2 (dropped_parts _ _ _))).
    - by rewrite (proj1 (proj2 (dropped_parts _ _ _))). }
  destruct (_ && negb (IsInitiator e1)); [apply Hend; by apply acked_refl|].
  apply runs_seq; eapply runs_dispatch_unreliable; [done|exact Hse|].
  intros err w2 Ha; apply runs_seq; destruct (no_error err); [by apply Hend|].
  cbn [when]; go.
  pose proof Ha as (e3 & Hcase3 & Hp & Ht & Hrt & Hs).
  apply runs_mark; [by eapply Hs|]; intros m Hm; apply Hend.
  exists e3; split_and!; try done.
  intros s' se' H' H''; destruct (Hs s' se' H' H'') as (se2 & ? & ?); by eapply Hm.
Qed.

Lemma runs_ack g p e w (Q : CHIP_ERROR -> World -> Prop) :
  Inv g w -> live w p = Some e ->
  (forall err w', acked p e w w' -> Inv g w' -> Q err w') ->
  runs (SendStandaloneAckMessage p) w Q.
Proof.
  intros HI He HQ; pose proof (inv_live _ _ HI p e He) as Hok.
  pose proof (owed_small g w p e HI He); pose proof (xo_refs _ _ _ _ Hok); pose proof (xo_pos _ _ _ _ Hok).
  eapply runs_standalone; [done|lia|by apply Hok|].
  intros err w' Ha; apply HQ; [done|by eapply Inv_acked].
Qed.

Lemma runs_flush g p e w (Q : CHIP_ERROR -> World -> Prop) :
  Inv g w -> live w p = Some e ->
  (forall err w', acked p e w w' -> Inv g w' -> Q err w') ->
  runs (FlushAcks p) w Q.
Proof.
  intros HI He HQ; unfold FlushAcks; go; destruct (IsAckPending e); [by eapply runs_ack|].
  apply runs_ret, HQ; [by apply acked_refl|done].
Qed.

(** ** The retransmission table *)

Context (wake_timers : forall n, StartWakeTimer_result n = CHIP_NO_ERROR).

Lemma runs_StartTimer w (Q : unit -> World -> Prop) :
  (forall t n, Q tt (set_mTimer t (set_mCalls n w))) -> runs StartTimer w Q.
Proof.
  intros HQ; unfold StartTimer; go.
  - unfold no_error; by rewrite wake_timers.
  - apply (HQ (Some _) (S (mCalls w))).
  - apply (HQ None (mCalls w)).
Qed.

Lemma entry_live g i en w : Inv g w -> entry_at w i = Some en -> exists e, live w (en_ec en) = Some e.
Proof.
  intros HI Hi; destruct (live w (en_ec en)) as [e|] eqn:E; [by exists e|exfalso].
  destruct (inv_free _ _ HI _ E) as [Hz _]; unfold owed in Hz.
  pose proof (tally_pos (refers (en_ec en)) (mRetransTable w) i en Hi) as Hpos.
  unfold refers in Hpos at 1; rewrite Nat.eqb_refl in Hpos; specialize (Hpos eq_refl).
  unfold entries in Hz; lia.
Qed.

Lemma entries_without w i en q :
  entry_at w i = Some en ->
  (tally (refers q) (<[i := None]> (mRetransTable w)) + (if decide (en_ec en = q) then 1 else 0) = entries w q)%nat.
Proof.
  intros Hi; pose proof (tally_replace (refers q) (mRetransTable w) i en None Hi) as E.
  cbn [hit] in E; unfold refers in E at 2; unfold entries.
  case_decide; [rewrite (proj2 (Nat.eqb_eq _ _)) in E by done|rewrite (proj2 (Nat.eqb_neq _ _)) in E by done]; lia.
Qed.

(** What is left after entry [i] is gone. *)
Definition released (i : nat) (p : nat) (w w' : World) : Prop :=
  (forall q, q <> p -> live w' q = live w q) /\
  (forall e', live w' p = Some e' -> exists e, live w p = Some e /\ kin e e') /\
  mRetransTable w' = <[i := None]> (mRetransTable w) /\
  mSessions w' = mSessions w /\ mResponseTimers w' = mResponseTimers w.

Lemma Inv_remove g i en e w :
  Inv g w -> entry_at w i = Some en -> live w (en_ec en) = Some e ->
  (g_hole g = None \/ g_hole g = Some i) -> (length (g_held g) < 99)%nat ->
  Inv (with_hole None (hold (en_ec en) g))
    (set_mRetransTable (<[i := None]> (mRetransTable w))
       (put_exchange (en_ec en) (SetFlag kFlagWaitingForAck false e) w)).
Proof.
  intros HI Hi He Hhole Hl; set (p := en_ec en) in *.
  set (w' := set_mRetransTable _ _).
  assert (Ho : forall q, owed (with_hole None (hold p g)) w' q = owed g w q).
  { intros q; pose proof (entries_without w i en q Hi) as E; fold p in E.
    change (tally _ _) with (entries w' q) in E.
    change (owed (with_hole None (hold p g)) w' q) with (owed (hold p g) w' q); rewrite owed_hold.
    unfold owed; lia. }
  destruct HI as [H1 H2 H3 H4]; split; [| | |cbn; lia].
  - intros q eq Heq.
    change (live w' q) with (live (put_exchange p (SetFlag kFlagWaitingForAck false e) w) q) in Heq.
    pose proof (entries_without w i en q Hi) as E; fold p in E; change (tally _ _) with (entries w' q) in E.
    rewrite (live_put p q _ e) in Heq by done; case_decide as Hq.
    + injection Heq as <-; subst q; destruct (H1 p e He); split; rewrite ?Ho; try done; flags; try done.
      * lia.
      * symmetry; apply Nat.ltb_ge; lia.
      * intros; apply xo_session0; lia.
    + destruct (H1 q eq Heq); split; rewrite ?Ho; try done.
      * lia.
      * rewrite xo_wait0; f_equal; lia.
      * intros; apply xo_session0; lia.
  - intros q Hq; rewrite Ho.
    change (live w' q) with (live (put_exchange p (SetFlag kFlagWaitingForAck false e) w) q) in Hq.
    rewrite (live_put p q _ e) in Hq by done; case_decide; [done|by apply H2].
  - intros j en' Hj _; unfold entry_at in Hj; subst w'; cbn [mRetransTable set_mRetransTable] in Hj.
    rewrite At_insert in Hj by (by eapply At_range); case_decide; [done|].
    apply (H3 j en' Hj); destruct Hhole as [-> | ->]; congruence.
Qed.

Lemma runs_ReleaseEntry g i en w (Q : unit -> World -> Prop) :
  Inv g w -> entry_at w i = Some en -> (g_hole g = None \/ g_hole g = Some i) -> (length (g_held g) < 99)%nat ->
  (forall w', Inv (with_hole None g) w' -> released i (en_ec en) w w' -> Q tt w') ->
  runs (ReleaseEntry i) w Q.
Proof.
  intros HI Hi Hhole Hl HQ; destruct (entry_live g i en w HI Hi) as [e He].
  pose proof (Inv_remove g i en e w HI Hi He Hhole Hl) as HI'.
  set (p := en_ec en) in *; set (e1 := SetFlag kFlagWaitingForAck false e) in *.
  pose proof (inv_live _ _ HI p e He) as Hok.
  pose proof (xo_refs _ _ _ _ Hok); pose proof (xo_pos _ _ _ _ Hok).
  unfold ReleaseEntry; go; fold p; fold e1; set (w1 := put_exchange p e1 w).
  assert (H1 : live w1 p = Some e1) by (by eapply live_put_same).
  change (put_exchange p e1 w) with w1 in HI'; set (w2 := set_mRetransTable _ w1) in HI'.
  assert (H2 : live w2 p = Some e1) by exact H1.
  pose proof (hold_case (with_hole None g) p e1 w2 HI' H2) as Hcase.
  eapply (runs_Release p e1 w1); [exact H1|cbn; lia| |].
  - change (mRefCount e1) with (mRefCount e); intros E; destruct Hcase as [Hp|[Hc _]]; [|done].
    cbn in Hp; assert (0 < entries w p)%nat.
    { eapply tally_pos; [exact Hi|]; unfold refers; apply Nat.eqb_refl. }
    unfold owed in *; rewrite decide_True in * by done; lia.
  - assert (Hti : At (mRetransTable (dropped p e1 w1)) i = Some en) by (by rewrite (proj1 (dropped_parts p e1 w1))).
    eapply runs_intro; [unfold Deallocate; by rewrite Hti|].
    assert (Heq : set_mRetransTable (<[i:=None]> (mRetransTable (dropped p e1 w1))) (dropped p e1 w1) = dropped p e1 w2).
    { rewrite (proj1 (dropped_parts p e1 w1)); unfold dropped; by case_match. }
    rewrite Heq; apply HQ.
    + eapply Inv_dropped; [exact HI'|exact H2|apply (drops_hold p (with_hole None g))|done].
    + destruct (dropped_parts p e1 w2) as (P1 & P2 & P3); split_and!; try done.
      * intros q Hq; rewrite live_dropped_ne by done; by apply live_put_ne.
      * intros e' He'; rewrite (live_dropped p e1 w2 H2) in He'; case_match; [done|]; injection He' as <-.
        exists e; split; [done|]; etransitivity; [apply (kin_SetFlag kFlagWaitingForAck false e eq_refl)|done].
Qed.

Lemma runs_ClearEntry g i en w (Q : unit -> World -> Prop) :
  Inv g w -> entry_at w i = Some en -> (g_hole g = None \/ g_hole g = Some i) -> (length (g_held g) < 99)%nat ->
  (forall w', Inv (with_hole None g) w' -> released i (en_ec en) w w' -> Q tt w') ->
  runs (ClearRetransEntry i) w Q.
Proof.
  intros HI Hi Hhole Hl HQ; unfold ClearRetransEntry; apply runs_seq.
  eapply runs_ReleaseEntry; [done..|]; intros w' HI' (R1 & R2 & R3 & R4 & R5).
  apply runs_StartTimer; intros t n; apply HQ; [by apply (Inv_same _ w')|done].
Qed.

(** What is left after the entry of [p], if there was one, is gone. *)
Definition cleared (p : nat) (w w' : World) : Prop :=
  (forall q, q <> p -> live w' q = live w q) /\
  (forall e', live w' p = Some e' -> exists e, live w p = Some e /\ kin e e') /\
  entries w' p = 0%nat /\ (forall q, q <> p -> entries w' q = entries w q) /\
  mSessions w' = mSessions w /\ mResponseTimers w' = mResponseTimers w.

Lemma entries_one g w p : Inv g w -> (entries w p <= 1)%nat.
Proof.
  intros HI; destruct (live w p) as [e|] eqn:E; [by apply (inv_live _ _ HI p e)|].
  destruct (inv_free _ _ HI p E) as [Hz _]; unfold owed in Hz; lia.
Qed.

Lemma refers_true p en : refers p en = true <-> en_ec en = p.
Proof. apply Nat.eqb_eq. Qed.

Lemma entry_entries i en w : entry_at w i = Some en -> (0 < entries w (en_ec en))%nat.
Proof. intros Hi; eapply tally_pos; [exact Hi|by apply refers_true]. Qed.

Lemma released_cleared g i en w w' :
  Inv g w -> entry_at w i = Some en -> released i (en_ec en) w w' -> cleared (en_ec en) w w'.
Proof.
  intros HI Hi (R1 & R2 & R3 & R4 & R5); split_and!; try done.
  - pose proof (entries_without w i en (en_ec en) Hi) as E; rewrite decide_True in E by done.
    unfold entries at 1; rewrite R3; pose proof (entries_one g w (en_ec en) HI); lia.
  - intros q Hq; pose proof (entries_without w i en q Hi) as E; rewrite decide_False in E by congruence.
    unfold entries at 1; rewrite R3; lia.
Qed.

Lemma runs_ClearRetransTable g p w (Q : unit -> World -> Prop) :
  Inv g w -> g_hole g = None -> (length (g_held g) < 99)%nat ->
  (forall w', Inv g w' -> cleared p w w' -> Q tt w') -> runs (ClearRetransTable p) w Q.
Proof.
  intros HI Hhole Hl HQ; unfold ClearRetransTable; go.
  assert (Hin : forall i en, entry_at w i = Some en -> en_ec en = p -> In i (active_indices (mRetransTable w))).
  { intros i en Hi _; apply active_indices_spec; by exists en. }
  assert (Hact : forall i, In i (active_indices (mRetransTable w)) -> exists en, entry_at w i = Some en).
  { intros i; apply active_indices_spec. }
  revert Hin Hact; generalize (active_indices (mRetransTable w)) as l.
  induction l as [|i l IH]; intros Hin Hact; cbn [clear_first].
  - apply runs_ret, HQ; [done|]; split_and!; try done; [intros e' He'; by exists e'|].
    apply tally_none; intros i en Hi; apply not_true_iff_false; rewrite refers_true; intros Hp.
    by apply (Hin i en Hi Hp).
  - destruct (Hact i (or_introl eq_refl)) as [en Hi]; go.
    destruct (Nat.eqb_spec (en_ec en) p) as [Hp|Hp].
    + eapply runs_ClearEntry; [done..|by left|done|]; intros w' HI' Hr; apply HQ.
      * by destruct g; cbn in *; subst.
      * rewrite <-Hp; by apply (released_cleared g i en).
    + apply IH; [|intros; apply Hact; by right].
      intros j en' Hj Hp'; destruct (Hin j en' Hj Hp') as [<-|]; [|done].
      rewrite Hi in Hj; congruence.
Qed.

Lemma runs_CheckAndRem g p counter w (Q : bool -> World -> Prop) :
  Inv g w -> g_hole g = None -> (length (g_held g) < 99)%nat ->
  (forall w', Inv g w' -> cleared p w w' -> Q true w') -> Q false w ->
  runs (CheckAndRemRetransTable p counter) w Q.
Proof.
  intros HI Hhole Hl Ht Hf; unfold CheckAndRemRetransTable; go.
  assert (Hact : forall i, In i (active_indices (mRetransTable w)) -> exists en, entry_at w i = Some en).
  { intros i; apply active_indices_spec. }
  revert Hact; generalize (active_indices (mRetransTable w)) as l.
  induction l as [|i l IH]; intros Hact; cbn [remove_acknowledged]; [by apply runs_ret|].
  destruct (Hact i (or_introl eq_refl)) as [en Hi]; go.
  assert (Hrec : runs (remove_acknowledged p counter l) w Q) by (apply IH; intros; apply Hact; by right).
  destruct (Nat.eqb_spec (en_ec en) p) as [Hp|Hp]; [|done].
  destruct (inv_buf _ _ HI i en Hi) as [buf Hbuf]; [by rewrite Hhole|]; go.
  destruct (_ =? _); [|done]; apply runs_seq.
  eapply runs_ClearEntry; [done..|by left|done|]; intros w' HI' Hr; apply runs_ret, Ht.
  - by destruct g; cbn in *; subst.
  - rewrite <-Hp; by apply (released_cleared g i en).
Qed.

(** ** Sending with a retransmission entry *)

Lemma entries_with w i en q :
  (i < length (mRetransTable w))%nat -> At (mRetransTable w) i = None ->
  entries (put_entry i en w) q = (entries w q + (if decide (en_ec en = q) then 1 else 0))%nat.
Proof.
  intros Hi H; unfold entries; cbn [mRetransTable put_entry set_mRetransTable].
  rewrite tally_create by done; f_equal; unfold refers.
  case_decide; [by rewrite (proj2 (Nat.eqb_eq _ _))|by rewrite (proj2 (Nat.eqb_neq _ _))].
Qed.

Lemma Inv_add g p e i w :
  Inv (hold p g) w -> live w p = Some e -> g_hole g = None -> IsWaitingForAck e = false ->
  is_Some (mSession e) -> (i < length (mRetransTable w))%nat -> At (mRetransTable w) i = None ->
  Inv (with_hole (Some i) g) (put_entry i (MkEntry p None 0 0) (put_exchange p (SetFlag kFlagWaitingForAck true e) w)).
Proof.
  intros HI He Hhole Hw Hs Hlt Hfree; set (w' := put_entry _ _ _).
  assert (Hen : forall q, entries w' q = (entries w q + (if decide (p = q) then 1 else 0))%nat).
  { intros q; exact (entries_with w i (MkEntry p None 0 0) q Hlt Hfree). }
  assert (Ho : forall q, owed (with_hole (Some i) g) w' q = owed (hold p g) w q).
  { intros q; rewrite owed_hold; unfold owed; rewrite Hen; cbn [g_own g_held with_hole]; lia. }
  destruct HI as [H1 H2 H3 H4]; split; [| | |cbn in *; lia].
  - intros q eq Heq.
    change (live w' q) with (live (put_exchange p (SetFlag kFlagWaitingForAck true e) w) q) in Heq.
    rewrite (live_put p q _ e) in Heq by done; specialize (Hen q); case_decide as Hq.
    + injection Heq as <-; subst q; destruct (H1 p e He); rewrite Hw in xo_wait0.
      symmetry in xo_wait0; apply Nat.ltb_ge in xo_wait0.
      split; rewrite ?Ho; try done; flags; try done; [lia| |intros; by left].
      symmetry; apply Nat.ltb_lt; lia.
    + destruct (H1 q eq Heq); split; rewrite ?Ho; try done.
      * lia.
      * rewrite xo_wait0; f_equal; lia.
      * intros; apply xo_session0; lia.
  - intros q Hq; rewrite Ho.
    change (live w' q) with (live (put_exchange p (SetFlag kFlagWaitingForAck true e) w) q) in Hq.
    rewrite (live_put p q _ e) in Hq by done; case_decide; [done|by apply H2].
  - intros j en' Hj Hne; unfold entry_at in Hj; subst w'; cbn [mRetransTable put_entry set_mRetransTable] in Hj.
    rewrite At_insert in Hj by done; case_decide as Hij; [subst; by destruct Hne|].
    apply (H3 j en' Hj); cbn [g_hole hold]; by rewrite Hhole.
Qed.

Lemma runs_Add g p e w (Q : result nat -> World -> Prop) :
  Inv g w -> live w p = Some e -> g_hole g = None -> is_Some (mSession e) -> (length (g_held g) < 99)%nat ->
  (forall err, Q (Err err) w) ->
  (forall i, let e' := SetFlag kFlagWaitingForAck true (set_mRefCount (mRefCount e + 1) e) in
     let w' := put_entry i (MkEntry p None 0 0) (put_exchange p e' w) in
     Inv (with_hole (Some i) g) w' -> live w' p = Some e' -> entry_at w' i = Some (MkEntry p None 0 0) ->
     Q (Ok i) w') ->
  runs (AddToRetransTable p) w Q.
Proof.
  intros HI He Hhole Hs Hl Herr HQ; unfold AddToRetransTable; go.
  destruct (IsWaitingForAck e) eqn:Hw; [apply runs_ret, Herr|]; go.
  destruct (Allocate (mRetransTable w)) as [i|] eqn:Ea; [|apply runs_ret, Herr].
  destruct (Allocate_free _ _ Ea) as [Hi Hfree].
  apply runs_seq; eapply runs_Retain; [done..|]; intros w1 HI1.
  set (e1 := set_mRefCount (mRefCount e + 1) e) in *.
  assert (H1 : live w1 p = Some e1) by (by eapply live_put_same).
  go; unfold w1; rewrite put_put; apply HQ.
  - rewrite <-(put_put p e1 (SetFlag kFlagWaitingForAck true e1) w); by apply Inv_add.
  - by eapply (live_put_same p _ e).
  - unfold entry_at; cbn; rewrite At_insert by done; by rewrite decide_True.
Qed.

Lemma Inv_put_entry g i en en' w :
  Inv g w -> entry_at w i = Some en -> en_ec en' = en_ec en ->
  is_Some (en_retainedBuf en') -> (g_hole g = None \/ g_hole g = Some i) -> Inv (with_hole None g) (put_entry i en' w).
Proof.
  intros HI Hi Hec Hb Hhole; set (w' := put_entry i en' w).
  assert (Hen : forall q, entries w' q = entries w q).
  { intros q; unfold entries; pose proof (tally_replace (refers q) (mRetransTable w) i en (Some en') Hi) as E.
    cbn [hit] in E; unfold refers in E at 2 4; rewrite Hec in E.
    change (mRetransTable w') with (<[i := Some en']> (mRetransTable w)); lia. }
  assert (Ho : forall q, owed (with_hole None g) w' q = owed g w q) by (intros q; unfold owed; by rewrite Hen).
  destruct HI as [H1 H2 H3 H4]; split; [| | |done].
  - intros q eq Heq; destruct (H1 q eq Heq); split; rewrite ?Ho, ?Hen; done.
  - intros q Hq; rewrite Ho; by apply H2.
  - intros j en2 Hj _; unfold w' in Hj; rewrite (entry_put i j en' en) in Hj by done.
    case_decide as Hij; [by injection Hj as <-|]; apply (H3 j en2 Hj).
    destruct Hhole as [-> | ->]; congruence.
Qed.

(** The next time is stored in the entry; nothing else that matters changes. *)
Lemma runs_Calculate g i en e s w (Q : unit -> World -> Prop) :
  Inv g w -> g_hole g = None -> entry_at w i = Some en -> live w (en_ec en) = Some e -> mSession e = Some s ->
  (forall t n, let w' := put_entry i (set_nextRetransTime t en) (set_mCalls n w) in Inv g w' -> Q tt w') ->
  runs (CalculateNextRetransTime i) w Q.
Proof.
  intros HI Hhole Hi He Hs HQ; destruct (Inv_known g w _ e s HI He Hs) as (se & Hse & _).
  unfold CalculateNextRetransTime, GetSessionHandle; go; rewrite Hs; go.
  apply HQ.
  replace g with (with_hole None g) at 1 by (by destruct g; cbn in *; subst).
  eapply Inv_put_entry; [eapply (Inv_same g w); done|exact Hi|done| |by left].
  apply (inv_buf _ _ HI i en Hi); by rewrite Hhole.
Qed.

(** ** Sending *)

(** What a send does to the state: only what [kin] allows to its exchange, nothing to
    others. *)
Definition moved (p : nat) (e : Exchange) (w w' : World) : Prop :=
  (forall q, q <> p -> live w' q = live w q) /\ (exists e', live w' p = Some e' /\ kin e e') /\
  mResponseTimers w' = mResponseTimers w /\ sessions_kept (mSessions w) (mSessions w').

Lemma moved_refl p e w : live w p = Some e -> moved p e w w.
Proof. intros He; split_and!; try done; by exists e. Qed.

Lemma moved_trans p e e1 w w1 w2 : moved p e w w1 -> live w1 p = Some e1 -> moved p e1 w1 w2 -> moved p e w w2.
Proof.
  intros (A1 & (e1' & A2 & A2') & A3 & A4) He1 (B1 & (e2 & B2 & B2') & B3 & B4).
  rewrite A2 in He1; injection He1 as ->; split_and!.
  - intros q Hq; by rewrite B1, A1.
  - exists e2; split; [done|by etransitivity].
  - congruence.
  - intros s se Hs Hest; destruct (A4 s se Hs Hest) as (se1 & ? & ?); by eapply B4.
Qed.

Lemma moved_acked p e w w' : live w p = Some e -> acked p e w w' -> moved p e w w'.
Proof.
  intros He Ha; destruct (acked_live p e w w' He Ha) as (e' & He' & Hk).
  split_and!; [intros; by eapply acked_live_ne| |by destruct Ha as (? & _ & _ & _ & ? & _)
              |by destruct Ha as (? & _ & _ & _ & _ & ?)].
  exists e'; split; [done|by apply acked_kin].
Qed.

Lemma owed_live g w p : Inv g w -> (0 < owed g w p)%nat -> exists e, live w p = Some e.
Proof.
  intros HI Hp; destruct (live w p) as [e|] eqn:E; [by exists e|].
  destruct (inv_free _ _ HI p E); lia.
Qed.

(** A send that failed leaves the exchange without an entry, as it was before. *)
Lemma unsend g p e e1 w w1 w2 :
  Inv g w -> live w p = Some e -> IsWaitingForAck e = false ->
  (forall q, q <> p -> live w1 q = live w q) -> live w1 p = Some e1 -> kin e e1 ->
  mSessions w1 = mSessions w -> mResponseTimers w1 = mResponseTimers w ->
  Inv g w2 -> cleared p w1 w2 -> moved p e w w2.
Proof.
  intros HI He Hwait H1 He1 Hk Hs Hr HI2 (C1 & C2 & C3 & C4 & C5 & C6).
  destruct (inv_live _ _ HI p e He); rewrite Hwait in xo_wait0; symmetry in xo_wait0; apply Nat.ltb_ge in xo_wait0.
  destruct (owed_live g w2 p HI2) as [e2 He2].
  { unfold owed in *; rewrite C3; lia. }
  split_and!.
  - intros q Hq; by rewrite C1, H1.
  - destruct (C2 e2 He2) as (e1' & He1' & Hk'); rewrite He1 in He1'; injection He1' as <-.
    exists e2; split; [done|by etransitivity].
  - congruence.
  - rewrite C5, Hs; apply sessions_kept_refl.
Qed.

Lemma with_hole_None g : g_hole g = None -> with_hole None g = g.
Proof. destruct g; cbn; by intros ->. Qed.
Lemma with_hole_twice o o' g : with_hole o (with_hole o' g) = with_hole o g.
Proof. done. Qed.

Lemma runs_send_reliably g p e s header payload w (Q : CHIP_ERROR -> World -> Prop) :
  Inv g w -> live w p = Some e -> mSession e = Some s -> g_hole g = None -> (length (g_held g) < 99)%nat ->
  (forall err w', Inv g w' -> moved p e w w' -> Q err w') ->
  runs (send_reliably p s header payload) w Q.
Proof.
  intros HI He Hs Hhole Hl HQ; unfold send_reliably.
  destruct (IsWaitingForAck e) eqn:Hwait.
  { apply runs_seq; unfold AddToRetransTable; go; rewrite Hwait; go.
    by apply HQ, moved_refl. }
  apply runs_seq; eapply runs_Add; [done..|by exists s|done| |].
  { intros err; apply runs_ret, HQ; [done|by apply moved_refl]. }
  intros i e1 w1 HI1 He1 Hi.
  assert (Hk : kin e e1) by (etransitivity; [apply (kin_set_refs (mRefCount e + 1) e)|by apply kin_SetFlag]).
  assert (H1 : forall q, q <> p -> live w1 q = live w q) by (intros q Hq; by apply live_put_ne).
  assert (Hfail : forall w2 w3 err, Inv (with_hole None g) w3 -> (forall q, live w2 q = live w1 q) ->
    mSessions w2 = mSessions w1 -> mResponseTimers w2 = mResponseTimers w1 -> cleared p w2 w3 -> Q err w3).
  { intros w2 w3 err HI3 Hlv Hss Hrt Hc; rewrite with_hole_None in HI3 by done; apply HQ; [done|].
    eapply (unsend g p e e1 w w2); try done; [intros q Hq; by rewrite Hlv, H1|by rewrite Hlv]. }
  apply runs_seq, runs_prepare; intros [packet|err].
  2: { apply runs_seq.
       eapply (runs_ClearEntry (with_hole (Some i) g) i); [by apply (Inv_same _ w1)|exact Hi|by right|done|].
       intros w3 HI3 Hrel; apply runs_ret, (Hfail (set_mCalls (S (mCalls w1)) w1)); try done.
       apply (released_cleared (with_hole (Some i) g) i (MkEntry p None 0 0)); [by apply (Inv_same _ w1)|exact Hi|done]. }
  set (w2 := set_mCalls (S (mCalls w1)) w1).
  apply runs_seq; eapply runs_edit_entry; [exact Hi|].
  set (en := set_retainedBuf (Some packet) (MkEntry p None 0 0)).
  assert (HI2 : Inv g (put_entry i en w2)).
  { rewrite <-(with_hole_None g Hhole).
    apply (Inv_put_entry (with_hole (Some i) g) i (MkEntry p None 0 0)); try done; [by apply (Inv_same _ w1)|by right]. }
  apply runs_seq, runs_send; intros err n l; apply runs_seq.
  set (w3 := set_mLog l (set_mCalls n (put_entry i en w2))).
  assert (HI3 : Inv g w3) by (by apply (Inv_same _ (put_entry i en w2))).
  assert (Hen : entry_at w3 i = Some en).
  { change (entry_at (put_entry i en w2) i = Some en); rewrite (entry_put i i en (MkEntry p None 0 0)) by done.
    by rewrite decide_True. }
  assert (He3 : live w3 p = Some e1) by exact He1.
  destruct (no_error _).
  - unfold StartRetransmision; apply runs_seq.
    eapply (runs_Calculate g i en e1 s w3); [done..|by rewrite (proj1 Hk)|].
    intros t m w4 HI4; apply runs_StartTimer; intros t' m'; apply runs_ret, HQ; [by apply (Inv_same _ w4)|].
    split_and!; try done; by exists e1.
  - eapply (runs_ClearEntry g i en w3); [done..|by left|done|].
    intros w4 HI4 Hrel; apply runs_ret, (Hfail w3); try done; by apply (released_cleared g i en).
Qed.

Lemma runs_Dispatch g p e s rel protocol type payload w (Q : CHIP_ERROR -> World -> Prop) :
  Inv g w -> live w p = Some e -> mSession e = Some s -> g_hole g = None -> (length (g_held g) < 99)%nat ->
  (forall err w', Inv g w' -> moved p e w w' -> Q err w') ->
  runs (Dispatch_SendMessage p s rel protocol type payload) w Q.
Proof.
  intros HI He Hs Hhole Hl HQ; destruct (Inv_known g w p e s HI He Hs) as (se & Hse & _).
  assert (Hack : forall w' err, acked p e w w' -> Q err w').
  { intros w' err Ha; apply HQ; [by eapply Inv_acked|by apply moved_acked]. }
  assert (Hun : forall n l, acked p e w (set_mLog l (set_mCalls n w))).
  { intros n l; exists e; split_and!; try done; [by left|cbn; by rewrite pool_id]. }
  unfold Dispatch_SendMessage; go.
  destruct (negb _); [apply runs_ret, Hack; by apply acked_refl|].
  go; destruct (AllowsMRP se); [|apply runs_non_mrp; intros; by apply Hack].
  destruct (HasPiggybackAckPending e).
  - go; eapply runs_take; [done|]; go; set (e1 := SetFlag kFlagAckPending false e).
    set (w1 := put_exchange p e1 w).
    assert (Ha : acked p e w w1) by (exists e1; split_and!; try done; by right).
    destruct (_ && rel); [|apply runs_non_mrp; intros; apply Hack; by destruct Ha as (e' & ?); exists e'].
    assert (H1 : live w1 p = Some e1) by (by eapply live_put_same).
    eapply (runs_send_reliably g p e1); [by eapply Inv_acked|done..|].
    intros err w' HI' Hm; apply HQ; [done|]; eapply moved_trans; [by apply moved_acked|done..].
  - go; destruct (_ && rel); [by eapply runs_send_reliably|].
    apply runs_non_mrp; intros; by apply Hack.
Qed.

(** ** Closing *)

Lemma Inv_loosen g p w :
  Inv g w -> g_loose g = None \/ g_loose g = Some p -> Inv (with_loose (Some p) g) w.
Proof.
  intros [H1 H2 H3 H4] Hl; split; [|done..].
  intros q e He; destruct (H1 q e He); split; try done; cbn [g_loose with_loose].
  - intros H; destruct (xo_session0 H) as [|Hq]; [by left|]; right; destruct Hl; congruence.
  - intros H; destruct (xo_delegate0 H) as [|Hq]; [by left|]; right; destruct Hl; congruence.
  - intros H; destruct (xo_timer0 H) as (? & ? & [|Hq]); split_and!; try done; [by left|].
    right; destruct Hl; congruence.
Qed.

Lemma Inv_tighten g p w :
  Inv (with_loose (Some p) g) w ->
  (forall e, live w p = Some e -> ((0 < entries w p)%nat -> is_Some (mSession e)) /\
     (IsClosed e = true -> mDelegate e = None /\ mResponseTimers w !! p = None)) ->
  Inv (with_loose None g) w.
Proof.
  intros [H1 H2 H3 H4] Hp; split; [|done..].
  intros q e He; destruct (H1 q e He); cbn [g_loose with_loose g_own] in *.
  destruct (decide (q = p)) as [->|Hne].
  - destruct (Hp e He) as [Ha Hb]; split; try done; cbn [g_loose with_loose g_own].
    + intros H; left; by apply Ha.
    + intros H; left; by apply Hb.
    + intros H; destruct (xo_timer0 H) as (? & ? & _); split_and!; try done; left.
      destruct (IsClosed e) eqn:Ec; [|done]; destruct (Hb eq_refl) as [_ Hn]; rewrite Hn in H; by destruct H.
  - split; try done; cbn [g_loose with_loose g_own].
    + intros H; destruct (xo_session0 H); [by left|congruence].
    + intros H; destruct (xo_delegate0 H); [by left|congruence].
    + intros H; destruct (xo_timer0 H) as (? & ? & [|]); split_and!; try done; [by left|congruence].
Qed.

Lemma Inv_cancel g p w : Inv g w -> Inv g (set_mResponseTimers (delete p (mResponseTimers w)) w).
Proof.
  intros [H1 H2 H3 H4]; split; [| |done..]; cbn [mResponseTimers set_mResponseTimers].
  - intros q e He; destruct (H1 q e He); split; try done; cbn [mResponseTimers set_mResponseTimers].
    intros [t Ht]; apply lookup_delete_Some in Ht as [_ Ht]; apply xo_timer0; by exists t.
  - intros q Hq; destruct (H2 q Hq); split; [done|]; cbn; apply lookup_delete_None; by right.
Qed.

(** What closing does to the exchange. *)
Definition closes (p : nat) (e : Exchange) (clearRetransTable : bool) (w w' : World) : Prop :=
  (forall q, q <> p -> live w' q = live w q /\ entries w' q = entries w q) /\
  (exists e', live w' p = Some e' /\ IsClosed e' = true /\ IsSendExpected e' = IsSendExpected e /\
     mDelegate e' = None /\ mSession e' = mSession e) /\
  mResponseTimers w' !! p = None /\
  entries w' p = (if clearRetransTable then 0%nat else entries w p).

Lemma runs_DoClose g p e clear w (Q : unit -> World -> Prop) :
  Inv g w -> live w p = Some e -> IsClosed e = false -> g_hole g = None -> (length (g_held g) < 99)%nat ->
  (g_loose g = None \/ g_loose g = Some p /\ clear = true) ->
  (forall w', Inv (with_loose None g) w' -> closes p e clear w w' -> Q tt w') ->
  runs (DoClose p clear) w Q.
Proof.
  intros HI He Hc Hhole Hl Hloose HQ; unfold DoClose; go; rewrite Hc; go.
  set (e1 := SetFlag kFlagClosed true e); set (w1 := put_exchange p e1 w).
  assert (Hloose' : g_loose g = None \/ g_loose g = Some p) by (destruct Hloose as [|[]]; [by left|by right]).
  set (gl := with_loose (Some p) g).
  assert (HIl : Inv gl w) by (by apply Inv_loosen).
  pose proof (inv_live _ _ HIl p e He) as Hok.
  set (e2 := set_mDelegate None e1).
  assert (Hok2 : exchange_ok gl w p e2).
  { destruct Hok; split; try done; unfold e2, e1; flags; try done; [by intros _; left|].
    intros Ht; destruct (xo_timer0 Ht) as (? & ? & _); split_and!; [done|done|by right]. }
  assert (Hgo : forall l, runs
    (edit p (set_mDelegate None) ;; FlushAcks p ;; when clear (ClearRetransTable p) ;;
     let! e := exchange p in when (IsResponseExpected e) (CancelResponseTimer p)) (set_mLog l w1) Q).
  { intros l; set (w1l := set_mLog l w1).
    assert (H1 : live w1l p = Some e1) by (by eapply (live_put_same p e1 e w)).
    go; fold e2; set (w2 := put_exchange p e2 w1l).
    assert (H2 : live w2 p = Some e2) by (by eapply live_put_same).
    assert (HI2 : Inv gl w2).
    { apply (Inv_same _ (put_exchange p e2 w)); [|by eapply Inv_put].
      split_and!; try done; cbn; by rewrite list_insert_insert_eq. }
    assert (Hne : forall q, q <> p -> live w2 q = live w q).
    { intros q Hq; unfold w2; rewrite live_put_ne by done; by apply (live_put_ne p q e1 w). }
    eapply runs_flush; [exact HI2|exact H2|]; intros err w3 Ha HI3.
    destruct (acked_live p e2 w2 w3 H2 Ha) as (e3 & H3 & Hcase).
    pose proof (acked_kin e2 e3 Hcase) as Hk3.
    assert (Hent : forall q, entries w3 q = entries w q).
    { intros q; destruct Ha as (? & _ & _ & Ht & _); unfold entries; by rewrite Ht. }
    apply runs_seq.
    assert (Hend : forall w4, Inv gl w4 -> (forall q, q <> p -> live w4 q = live w3 q /\ entries w4 q = entries w3 q) ->
      (exists e4, live w4 p = Some e4 /\ kin e3 e4) -> entries w4 p = (if clear then 0%nat else entries w3 p) ->
      runs (let! e := exchange p in when (IsResponseExpected e) (CancelResponseTimer p)) w4 Q).
    { intros w4 HI4 Hq4 (e4 & H4 & Hk4) Hen4; apply runs_seq; eapply runs_exchange; [exact H4|].
      assert (Hk : kin e2 e4) by (by etransitivity).
      assert (Hcl : IsClosed e4 = true) by (rewrite (kin_closed _ _ Hk); unfold e2, e1; by flags).
      assert (Hfin : forall w5, Inv gl w5 -> mContextPool w5 = mContextPool w4 -> mRetransTable w5 = mRetransTable w4 ->
        mResponseTimers w5 !! p = None -> Q tt w5).
      { intros w5 HI5 Hp5 Ht5 Hn5.
        assert (Hl5 : forall q, live w5 q = live w4 q) by (intros; unfold live; by rewrite Hp5).
        assert (He5 : forall q, entries w5 q = entries w4 q) by (intros; unfold entries; by rewrite Ht5).
        apply HQ.
        - apply (Inv_tighten g p); [done|]; intros e5; rewrite Hl5, H4; intros [= <-]; split.
          + rewrite He5, Hen4; destruct clear; [lia|rewrite Hent].
            destruct Hloose as [Hn|[_ ?]]; [|done]; intros Hpos.
            rewrite (proj1 Hk); unfold e2, e1; cbn.
            destruct (xo_session _ _ _ _ (inv_live _ _ HI p e He) Hpos); [done|congruence].
          + intros _; split; [|done]; by rewrite (proj1 (proj2 Hk)).
        - split_and!.
          + intros q Hq; rewrite Hl5, He5; destruct (Hq4 q Hq) as [-> ->].
            rewrite (acked_live_ne p e2 w2 w3 q Ha Hq), Hent, Hne by done; done.
          + exists e4; rewrite Hl5; split_and!; try done; [|by rewrite (proj1 (proj2 Hk))|by rewrite (proj1 Hk)].
            rewrite (kin_send _ _ Hk); unfold e2, e1; by flags.
          + done.
          + rewrite He5, Hen4; destruct clear; [done|apply Hent]. }
      go.
      - unfold CancelResponseTimer; go; apply Hfin; try done; [by apply Inv_cancel|cbn; by rewrite lookup_delete_eq].
      - apply Hfin; try done; destruct (mResponseTimers w4 !! p) eqn:Et; [|done]; exfalso.
        destruct (xo_timer _ _ _ _ (inv_live _ _ HI4 p e4 H4)) as (_ & ? & _); [by rewrite Et|congruence]. }
    destruct clear.
    - cbn [when]; eapply runs_ClearRetransTable; [exact HI3|done|done|].
      intros w4 HI4 (C1 & C2 & C3 & C4 & C5 & C6); apply Hend; try done.
      + intros q Hq; split; [by apply C1|by apply C4].
      + assert (p ∈ g_own g) as Hown by (by apply (xo_open _ _ _ _ (inv_live _ _ HI p e He))).
        destruct (owed_live gl w4 p HI4) as [e4 H4]; [unfold owed; cbn; rewrite decide_True by done; lia|].
        exists e4; split; [done|]; destruct (C2 e4 H4) as (e3' & H3' & ?); congruence.
    - apply runs_ret, Hend; try done; by exists e3. }
  destruct (mDelegate e) as [d|].
  - apply runs_emit; exact (Hgo _).
  - apply runs_ret; exact (Hgo (mLog w1)).
Qed.

Lemma closed_no_timer g p e w :
  Inv g w -> live w p = Some e -> IsClosed e = true -> g_loose g = None -> mResponseTimers w !! p = None.
Proof.
  intros HI He Hc Hl; destruct (mResponseTimers w !! p) eqn:Et; [|done]; exfalso.
  destruct (xo_timer _ _ _ _ (inv_live _ _ HI p e He)) as (_ & _ & [|]); [by rewrite Et|congruence..].
Qed.

Lemma with_loose_None g : g_loose g = None -> with_loose None g = g.
Proof. destruct g; cbn; by intros ->. Qed.

(** After the owner's reference is given back. *)
Definition closed_after (p : nat) (w w' : World) : Prop :=
  (forall q, q <> p -> live w' q = live w q /\ entries w' q = entries w q) /\
  (forall e', live w' p = Some e' -> IsClosed e' = true) /\
  (entries w' p <= entries w p)%nat.

Lemma runs_Close_or_Abort g p e clear w (Q : unit -> World -> Prop) :
  Inv g w -> live w p = Some e -> p ∈ g_own g -> g_hole g = None -> (length (g_held g) < 99)%nat ->
  (g_loose g = None \/ g_loose g = Some p /\ clear = true /\ IsClosed e = false) ->
  (forall w', Inv (disown p (with_loose None g)) w' -> closed_after p w w' ->
     (clear = true -> IsClosed e = false -> entries w' p = 0%nat) -> Q tt w') ->
  runs (Close_or_Abort p clear) w Q.
Proof.
  intros HI He Hown Hhole Hl Hloose HQ; unfold Close_or_Abort; go.
  { apply Z.ltb_lt; destruct (inv_live _ _ HI p e He); lia. }
  assert (Hrel : forall w1 e1, Inv (with_loose None g) w1 -> live w1 p = Some e1 -> IsClosed e1 = true ->
    (forall q, q <> p -> live w1 q = live w q /\ entries w1 q = entries w q) ->
    (entries w1 p <= entries w p)%nat -> (clear = true -> IsClosed e = false -> entries w1 p = 0%nat) ->
    runs (Release p) w1 Q).
  { intros w1 e1 HI1 He1 Hc1 Hq1 Hen1 Hz1.
    eapply (runs_Release_inv (with_loose None g) (disown p (with_loose None g))); [done..| | |].
    - by apply drops_own.
    - right; split; [done|]; by eapply closed_no_timer.
    - intros HI2; apply HQ; [done| |].
      2: { unfold entries; rewrite (proj1 (dropped_parts p e1 w1)); exact Hz1. }
      split_and!.
      + intros q Hq; rewrite live_dropped_ne by done; unfold entries at 1.
        rewrite (proj1 (dropped_parts p e1 w1)); by apply Hq1.
      + intros e'; rewrite (live_dropped p e1 w1 He1); case_match; [done|]; by intros [= <-].
      + unfold entries at 1; by rewrite (proj1 (dropped_parts p e1 w1)). }
  destruct (IsClosed e) eqn:Hc.
  - destruct Hloose as [Hloose|(_ & _ & ?)]; [|done].
    unfold DoClose; go; rewrite Hc; go; eapply Hrel; try done; by rewrite with_loose_None.
  - eapply (runs_DoClose g); [done..| |].
    { destruct Hloose as [|(? & ? & _)]; [by left|by right]. }
    intros w1 HI1 (D1 & (e1 & He1 & Hc1 & _ & _) & D3 & D4); eapply Hrel; try done.
    + rewrite D4; destruct clear; lia.
    + intros -> _; exact D4.
Qed.

(** The owner may have lost its reference. *)
Definition own_less (p : nat) (g g' : Ghost) : Prop := g' = g \/ g' = disown p g.

Lemma runs_MessageHandled g p e w (Q : unit -> World -> Prop) :
  Inv g w -> live w p = Some e -> g_hole g = None -> (length (g_held g) < 99)%nat -> g_loose g = None ->
  (IsClosed e || IsResponseExpected e || IsSendExpected e = true -> Q tt w) ->
  (forall w', Inv (disown p g) w' -> closed_after p w w' -> Q tt w') ->
  runs (MessageHandled p) w Q.
Proof.
  intros HI He Hhole Hl Hloose Hstay HQ; unfold MessageHandled; go.
  destruct (_ || _) eqn:Hc; [by apply runs_ret, Hstay|].
  apply orb_false_iff in Hc as [[Hc _]%orb_false_iff _].
  eapply runs_Close_or_Abort; [done..|by apply (xo_open _ _ _ _ (inv_live _ _ HI p e He))|done|done|by left|].
  rewrite with_loose_None by done; intros w' HI' Ha _; by apply HQ.
Qed.

(** ** ExchangeContext::SendMessage *)

Lemma Inv_arm g p t w :
  Inv g w -> (exists e, live w p = Some e /\ IsClosed e = false /\ IsResponseExpected e = true) ->
  Inv g (set_mResponseTimers (<[p := t]> (mResponseTimers w)) w).
Proof.
  intros [H1 H2 H3 H4] (e & He & Hc & Hr); split; [| |done..]; cbn [mResponseTimers set_mResponseTimers].
  - intros q eq Heq; destruct (H1 q eq Heq); split; try done; cbn [mResponseTimers set_mResponseTimers].
    destruct (decide (p = q)) as [<-|Hne].
    + assert (eq = e) as -> by (change (live w p = Some eq) in Heq; congruence).
      intros _; split_and!; [by apply xo_open0|done|by left].
    + rewrite lookup_insert_ne by done; apply xo_timer0.
  - intros q Hq; destruct (H2 q Hq); split; [done|]; cbn; rewrite lookup_insert_ne; [done|].
    intros ->; change (live w q = None) in Hq; congruence.
Qed.

(** Putting back an exchange that differs only in the flags of the response. *)
Lemma Inv_expect g p e (b : bool) w :
  Inv g w -> live w p = Some e -> (b = true \/ mResponseTimers w !! p = None) ->
  Inv g (put_exchange p (SetFlag kFlagWaitingForResponseOrAck b (SetFlag kFlagResponseExpected b e)) w).
Proof.
  intros HI He Hb; eapply Inv_put; [done..|]; destruct (inv_live _ _ HI p e He); split; try done; flags; try done.
  intros Ht; destruct Hb as [->|Hn]; [|rewrite Hn in Ht; by destruct Ht].
  destruct (xo_timer0 Ht) as (? & _ & ?); by split_and!.
Qed.

Lemma runs_SetResponseExpected p e b w (Q : unit -> World -> Prop) :
  live w p = Some e ->
  Q tt (put_exchange p (SetFlag kFlagWaitingForResponseOrAck b (SetFlag kFlagResponseExpected b e)) w) ->
  runs (SetResponseExpected p b) w Q.
Proof.
  intros He HQ; unfold SetResponseExpected; go; [by eapply live_put_same|]; by rewrite put_put.
Qed.

(** What an operation on [p] comes to: its owner keeps its reference and the exchange is
    what it was (but for flags), or it was closed. *)
Definition stays (e e' : Exchange) : Prop :=
  mSession e' = mSession e /\ mDelegate e' = mDelegate e /\ IsClosed e' = IsClosed e.

#[export] Instance stays_preorder : PreOrder stays.
Proof.
  split; [by intros e|]; intros e1 e2 e3 (A1 & A2 & A3) (B1 & B2 & B3); split_and!; congruence.
Qed.

Definition outcome (p : nat) (e : Exchange) (g : Ghost) (w : World) (g' : Ghost) (w' : World) : Prop :=
  (forall q, q <> p -> live w' q = live w q) /\
  ((g' = g /\ forall e', live w' p = Some e' -> stays e e') \/
   (g' = disown p g /\ forall e', live w' p = Some e' -> IsClosed e' = true)).

Lemma outcome_dropped p e e1 e2 g g' w w2 :
  live w p = Some e ->
  outcome p e1 (hold p g) (put_exchange p e1 w) (hold p g') w2 -> stays e e1 -> live w2 p = Some e2 ->
  (g_held g' = g_held g) -> outcome p e g w g' (dropped p e2 w2).
Proof.
  intros He (O1 & O2) Hs He2 Hh; split.
  - intros q Hq; rewrite live_dropped_ne by done; rewrite O1 by done; by apply live_put_ne.
  - assert (Hl : forall e', live (dropped p e2 w2) p = Some e' -> stays e2 e').
    { intros e'; rewrite (live_dropped p e2 w2 He2); case_match; [done|]; by intros [= <-]. }
    destruct O2 as [[Hg O2]|[Hg O2]]; [left|right]; split.
    + destruct g, g'; unfold hold in Hg; cbn in *; congruence.
    + intros e' He'; specialize (O2 e2 He2); specialize (Hl e' He').
      etransitivity; [exact Hs|]; by etransitivity.
    + destruct g, g'; unfold hold, disown in *; cbn in *; congruence.
    + intros e' He'; destruct (Hl e' He') as (_ & _ & ->); by apply O2.
Qed.

Lemma moved_stays p e w w' : moved p e w w' ->
  (forall q, q <> p -> live w' q = live w q) /\ exists e', live w' p = Some e' /\ kin e e' /\ stays e e'.
Proof.
  intros (M1 & (e' & M2 & Hk) & _); split; [done|]; exists e'; split; [done|split; [done|]].
  split; [apply Hk|split; [apply Hk|by apply kin_closed]].
Qed.

(** From the dispatch to the end of [SendMessage]. *)
Lemma runs_send_rest g p e s rel group (current : bool) protocol type payload w (Q : CHIP_ERROR -> World -> Prop) :
  Inv g w -> live w p = Some e -> mSession e = Some s -> g_hole g = None -> (length (g_held g) < 99)%nat ->
  g_loose g = None ->
  (forall err g' w', Inv g' w' -> outcome p e g w g' w' -> g_held g' = g_held g -> Q err w') ->
  runs (let! e := exchange p in
        if group && negb (IsInitiator e) then ret CHIP_ERROR_INTERNAL
        else
          let! err := Dispatch_SendMessage p s rel protocol type payload in
          (if no_error err
           then when (negb (is_standalone_ack protocol type))
                  (edit p (SetFlag kFlagWillSendMessage false) ;; MessageHandled p)
           else
             when current (CancelResponseTimer p ;; SetResponseExpected p false) ;;
             mark_if_case s) ;;
          ret err) w Q.
Proof.
  intros HI He Hs Hhole Hl Hloose HQ; go.
  destruct (_ && _).
  { apply runs_ret, (HQ _ g); try done; split; [done|left; split; [done|]].
    intros e' He'; rewrite He in He'; by injection He' as <-. }
  apply runs_seq; eapply runs_Dispatch; [done..|]; intros err w1 HI1 Hm.
  destruct (moved_stays p e w w1 Hm) as (Hq & e1 & He1 & Hk & Hst); apply runs_seq.
  assert (Hsame : forall w2 e2, Inv g w2 -> (forall q, q <> p -> live w2 q = live w1 q) -> live w2 p = Some e2 ->
    stays e1 e2 -> Q err w2).
  { intros w2 e2 HI2 Hq2 He2 Hst2; apply (HQ _ g); try done; split; [intros; by rewrite Hq2, Hq|left; split; [done|]].
    intros e'; rewrite He2; intros [= <-]; by etransitivity. }
  destruct (no_error err).
  - apply runs_when; intros _; [|apply runs_ret; eapply Hsame; done].
    apply runs_seq; eapply runs_edit; [exact He1|]; set (e2 := SetFlag kFlagWillSendMessage false e1).
    set (w2 := put_exchange p e2 w1).
    assert (He2 : live w2 p = Some e2) by (by eapply live_put_same).
    assert (Hst2 : stays e1 e2) by (split_and!; try done; unfold e2; by flags).
    assert (HI2 : Inv g w2).
    { eapply Inv_put; [done..|]; destruct (inv_live _ _ HI1 p e1 He1); split; try done; unfold e2; by flags. }
    eapply (runs_MessageHandled g p e2); [done..| |].
    + intros _; apply runs_ret; eapply (Hsame w2 e2); try done; intros q Hne; by apply live_put_ne.
    + intros w3 HI3 (C1 & C2 & C3); apply runs_ret, (HQ _ (disown p g)); try done.
      split; [|right; by split].
      intros q Hne; rewrite (proj1 (C1 q Hne)); unfold w2; rewrite live_put_ne by done; by apply Hq.
  - assert (Hmark : forall w2 e2, Inv g w2 -> (forall q, q <> p -> live w2 q = live w1 q) -> live w2 p = Some e2 ->
      stays e1 e2 -> runs (mark_if_case s) w2 (fun _ w' => runs (ret err) w' Q)).
    { intros w2 e2 HI2 Hq2 He2 Hst2; apply runs_mark.
      - apply (Inv_known g w2 p e2 s HI2 He2); destruct Hst2 as [-> _], Hst as [-> _]; done.
      - intros m Hmk; apply runs_ret; apply (Hsame _ e2); try done; by apply Inv_sessions. }
    apply runs_seq, runs_when; intros _; [|eapply Hmark; done].
    unfold CancelResponseTimer; apply runs_seq, runs_modify.
    set (w2 := set_mResponseTimers (delete p (mResponseTimers w1)) w1).
    eapply runs_SetResponseExpected; [exact He1|].
    set (e3 := SetFlag kFlagWaitingForResponseOrAck false (SetFlag kFlagResponseExpected false e1)).
    apply (Hmark _ e3).
    + apply (Inv_expect g p e1 false w2); [by apply Inv_cancel|done|right; apply lookup_delete_eq].
    + intros q Hne; by rewrite live_put_ne.
    + by eapply live_put_same.
    + split_and!; try done; unfold e3; by flags.
Qed.

Lemma runs_SendMessage g p e protocol type payload flags w (Q : CHIP_ERROR -> World -> Prop) :
  Inv g w -> live w p = Some e -> g_hole g = None -> (length (g_held g) < 98)%nat ->
  (mSession e = None \/ g_loose g = None /\ IsClosed e = false) ->
  (forall err g' w', Inv g' w' -> outcome p e g w g' w' -> g_held g' = g_held g -> Q err w') ->
  runs (SendMessage p protocol type payload flags) w Q.
Proof.
  intros HI He Hhole Hl Hcase HQ; unfold SendMessage, SendMessage_with; go.
  destruct (mSession e) as [s|] eqn:Es.
  2: { apply runs_ret, (HQ _ g); try done; split; [done|left; split; [done|]].
       intros e' He'; rewrite He in He'; by injection He' as <-. }
  destruct Hcase as [|[Hloose Hc]]; [done|].
  destruct (Inv_known g w p e s HI He Es) as (se & Hse & _).
  go; [apply Z.ltb_lt; destruct (inv_live _ _ HI p e He); lia|].
  eapply runs_with_ref; [done..|lia|]; cbn zeta; set (e1 := set_mRefCount (mRefCount e + 1) e).
  set (w1 := put_exchange p e1 w); intros HI1.
  assert (He1 : live w1 p = Some e1) by (by eapply live_put_same).
  apply runs_seq; eapply runs_group; [exact He1|exact Es|exact Hse|]; go.
  (* what follows ends in the invariant without the reference of this scope *)
  assert (Hend : forall err g' w2, Inv g' w2 -> outcome p e1 (hold p g) w1 g' w2 -> g_held g' = g_held (hold p g) ->
    exists g', Inv (hold p g') w2 /\
      forall e2, live w2 p = Some e2 -> Inv g' (dropped p e2 w2) -> Q err (dropped p e2 w2)).
  { intros err g' w2 HI2 Ho Hh.
    assert (exists g2, g' = hold p g2 /\ g_held g2 = g_held g) as (g2 & -> & Hh2).
    { destruct Ho as [_ [[-> _]|[-> _]]]; [by exists g|by exists (disown p g)]. }
    exists g2; split; [done|]; intros e2 He2 HI3; apply (HQ _ g2); try done.
    by apply (outcome_dropped p e e1). }
  assert (Hsame : forall err w2 e2, Inv (hold p g) w2 -> (forall q, q <> p -> live w2 q = live w1 q) ->
    live w2 p = Some e2 -> stays e1 e2 -> exists g', Inv (hold p g') w2 /\
      forall e2, live w2 p = Some e2 -> Inv g' (dropped p e2 w2) -> Q err (dropped p e2 w2)).
  { intros err w2 e2 HI2 Hq He2 Hst; apply (Hend err (hold p g)); try done.
    split; [done|left; split; [done|]]; intros e'; rewrite He2; by intros [= <-]. }
  assert (Hrest : forall current w2 e2, Inv (hold p g) w2 -> (forall q, q <> p -> live w2 q = live w1 q) ->
    live w2 p = Some e2 -> stays e1 e2 -> forall rel group, runs _ w2 _) by
    (intros current w2 e2 HI2 Hq He2 Hst rel group;
     apply (runs_send_rest (hold p g) p e2 s rel group current protocol type payload w2 _ HI2 He2
              (eq_trans (proj1 Hst) Es) Hhole ltac:(cbn; lia) Hloose);
     intros err g' w3 HI3 (O1 & O2) Hh; apply (Hend err g' w3); try done;
     split; [intros q Hq'; by rewrite O1, Hq|destruct O2 as [[? O2]|]; [left|by right]];
     split; [done|]; intros e' He'; etransitivity; [exact Hst|by apply O2]).
  destruct (_ && negb _) in |- *; [|apply runs_ret, (Hrest false w1 e1); done].
  unfold expect_response; go.
  destruct (IsResponseExpected e1) eqn:Hexp; [apply runs_ret, runs_ret, (Hsame _ w1 e1); done|].
  apply runs_seq; eapply runs_SetResponseExpected; [exact He1|].
  set (e2 := SetFlag kFlagWaitingForResponseOrAck true (SetFlag kFlagResponseExpected true e1)).
  set (w2 := put_exchange p e2 w1).
  assert (HI2 : Inv (hold p g) w2) by (by apply Inv_expect; [..|left]).
  assert (He2 : live w2 p = Some e2) by (by eapply live_put_same).
  assert (Hq2 : forall q, q <> p -> live w2 q = live w1 q) by (intros; by apply live_put_ne).
  assert (Hst2 : stays e1 e2) by (split_and!; try done; unfold e2; by flags).
  destruct (0 <? _); [|apply runs_ret, (Hrest false w2 e2); done].
  unfold StartResponseTimer; go.
  - unfold e2 in *; rewrite Hc0; apply runs_ret.
    apply (Hrest true _ e2); try done.
    apply (Inv_arm (hold p g) p _ (set_mCalls (S (mCalls w2)) w2)); [by apply (Inv_same _ w2)|].
    exists e2; split_and!; [done| |]; unfold e2, e1; by flags.
  - rewrite Hc0; go.
    set (e3 := SetFlag kFlagWaitingForResponseOrAck false (SetFlag kFlagResponseExpected false e2)).
    assert (Hn : mResponseTimers w1 !! p = None).
    { destruct (mResponseTimers w1 !! p) eqn:Et; [|done]; exfalso.
      destruct (xo_timer _ _ _ _ (inv_live _ _ HI1 p e1 He1)) as (_ & ? & _); [by rewrite Et|congruence]. }
    eapply runs_SetResponseExpected; [exact He2|]; apply runs_ret, runs_ret, (Hsame _ _ e3).
    + apply (Inv_expect _ p e2 false (set_mCalls (S (mCalls w2)) w2)); [by apply (Inv_same _ w2)|done|by right].
    + intros q Hq; rewrite live_put_ne by done; by apply Hq2.
    + by eapply live_put_same.
    + etransitivity; [exact Hst2|split_and!; try done; unfold e3; by flags].
Qed.

(** ** Delegates *)

Lemma disown_twice p g : disown p (disown p g) = disown p g.
Proof. unfold disown; cbn; f_equal; apply leibniz_equiv; set_solver. Qed.

Lemma outcome_self p e e' g w : live w p = Some e' -> stays e e' -> outcome p e g w g w.
Proof. intros He Hs; split; [done|left; split; [done|]]; intros e''; rewrite He; by intros [= <-]. Qed.

Lemma outcome_trans p e e1 g g1 g2 w w1 w2 :
  outcome p e g w g1 w1 -> live w1 p = Some e1 -> outcome p e1 g1 w1 g2 w2 -> outcome p e g w g2 w2.
Proof.
  intros (A1 & A2) He1 (B1 & B2); split; [intros q Hq; by rewrite B1, A1|].
  destruct A2 as [[-> A2]|[-> A2]], B2 as [[-> B2]|[-> B2]].
  - left; split; [done|]; intros e' He'; etransitivity; [by apply A2|by apply B2].
  - right; split; [done|]; by apply B2.
  - right; split; [done|]; intros e' He'; destruct (B2 e' He') as (_ & _ & ->); by apply A2.
  - right; split; [apply disown_twice|]; by apply B2.
Qed.

(** An edit that the invariant does not notice, as a step of a run. *)
Lemma Inv_edit_flag g p e f b w :
  Inv g w -> live w p = Some e ->
  ~ In f [kFlagResponseExpected; kFlagWaitingForAck; kFlagClosed; kFlagIgnoreSessionRelease] ->
  Inv g (put_exchange p (SetFlag f b e) w) /\ stays e (SetFlag f b e).
Proof.
  intros HI He Hf.
  assert (Hn : forall h, In h [kFlagResponseExpected; kFlagWaitingForAck; kFlagClosed; kFlagIgnoreSessionRelease] ->
    Has (SetFlag f b e) h = Has e h) by (intros h Hh; apply Has_SetFlag_ne; intros ->; by apply Hf).
  unfold stays; flags; rewrite !Hn by (cbn; tauto); split; [|done].
  eapply Inv_put; [done..|]; destruct (inv_live _ _ HI p e He); split; try done; flags;
    rewrite ?Hn by (cbn; tauto); done.
Qed.

Lemma Inv_edit_timeout g p e v w :
  Inv g w -> live w p = Some e -> Inv g (put_exchange p (set_mResponseTimeout v e) w).
Proof.
  intros HI He; eapply Inv_put; [done..|]; destruct (inv_live _ _ HI p e He); by split.
Qed.

Lemma runs_run_app g p e program w (Q : CHIP_ERROR -> World -> Prop) :
  Inv g w -> live w p = Some e -> In p (g_held g) -> g_hole g = None -> (length (g_held g) < 98)%nat ->
  g_loose g = None ->
  (forall err g' w', Inv g' w' -> outcome p e g w g' w' -> g_held g' = g_held g -> Q err w') ->
  runs (run_app p program) w Q.
Proof.
  revert g e w.
  assert (Hheld : forall g w, Inv g w -> In p (g_held g) -> exists e, live w p = Some e).
  { intros g w HI Hin; apply (owed_live g w p HI); unfold owed.
    apply (count_occ_In Nat.eq_dec) in Hin; lia. }
  (* going on after a step with its own outcome *)
  assert (Hnext : forall prog,
    (forall g e w, Inv g w -> live w p = Some e -> In p (g_held g) -> g_hole g = None ->
       (length (g_held g) < 98)%nat -> g_loose g = None ->
       (forall err g' w', Inv g' w' -> outcome p e g w g' w' -> g_held g' = g_held g -> Q err w') ->
       runs (run_app p prog) w Q) ->
    forall g e w g1 w1, Inv g1 w1 -> outcome p e g w g1 w1 -> g_held g1 = g_held g -> In p (g_held g) ->
      g_hole g = None -> (length (g_held g) < 98)%nat -> g_loose g = None ->
      (forall err g' w', Inv g' w' -> outcome p e g w g' w' -> g_held g' = g_held g -> Q err w') ->
      runs (run_app p prog) w1 Q).
  { intros prog IH g e w g1 w1 HI1 Ho Hh Hin Hhole Hl Hloose HQ.
    destruct (Hheld g1 w1 HI1) as [e1 He1]; [by rewrite Hh|].
    apply (IH g1 e1); try done; try (by rewrite Hh).
    - by destruct Ho as [_ [[-> _]|[-> _]]].
    - by destruct Ho as [_ [[-> _]|[-> _]]].
    - intros err g2 w2 HI2 Ho2 Hh2; apply (HQ err g2); try done; [by eapply outcome_trans|congruence]. }
  induction program as [err|protocol type payload flags next IH|next IH|timeout next IH|next IH|next IH];
    intros g e w HI He Hin Hhole Hl Hloose HQ; cbn [run_app].
  1: { apply runs_ret, (HQ _ g); try done; by eapply outcome_self. }
  all: apply runs_seq; eapply runs_exchange; [exact He|]; destruct (IsClosed e) eqn:Hc;
    [apply runs_ret, (HQ _ g); try done; by eapply outcome_self|].
  - apply runs_seq; eapply (runs_SendMessage g p e); [done..|by right|].
    intros err g1 w1 HI1 Ho Hh; by apply (Hnext (next err) (IH err) g e w g1).
  - go; destruct (Inv_edit_flag g p e kFlagWillSendMessage true w HI He) as [HI1 Hs]; [cbn; intuition discriminate|].
    apply (Hnext next IH g e w g); try done.
    split; [intros; by apply live_put_ne|left; split; [done|]].
    intros e'; rewrite (live_put_same p _ e) by done; by intros [= <-].
  - go; pose proof (Inv_edit_timeout g p e timeout w HI He) as HI1.
    apply (Hnext next IH g e w g); try done.
    split; [intros; by apply live_put_ne|left; split; [done|]].
    intros e'; rewrite (live_put_same p _ e) by done; by intros [= <-].
  - apply runs_seq; unfold Close.
    eapply (runs_Close_or_Abort g p e); [done..|by apply (xo_open _ _ _ _ (inv_live _ _ HI p e He))|done|lia|by left|].
    rewrite with_loose_None by done; intros w1 HI1 (C1 & C2 & C3) _.
    apply (Hnext next IH g e w (disown p g)); try done.
    split; [intros q Hq; by apply C1|by right].
  - apply runs_seq; unfold Abort.
    eapply (runs_Close_or_Abort g p e); [done..|by apply (xo_open _ _ _ _ (inv_live _ _ HI p e He))|done|lia|by left|].
    rewrite with_loose_None by done; intros w1 HI1 (C1 & C2 & C3) _.
    apply (Hnext next IH g e w (disown p g)); try done.
    split; [intros q Hq; by apply C1|by right].
Qed.

(** In [OnResponseTimeout] the exchange layer owns the exchange: the delegate must not
    close it (ExchangeDelegate.h, rule 7). *)
Fixpoint leaves_open (program : App) : Prop :=
  match program with
  | AppReturn _ => True
  | AppSendMessage _ _ _ _ next => forall err, leaves_open (next err)
  | AppWillSendMessage next | AppSetResponseTimeout _ next => leaves_open next
  | AppClose _ | AppAbort _ => False
  end.

(** Without a session nothing is sent. *)
Lemma runs_run_app_sessionless g p e program w (Q : CHIP_ERROR -> World -> Prop) :
  Inv g w -> live w p = Some e -> mSession e = None -> leaves_open program ->
  (forall err w' e', Inv g w' -> (forall q, q <> p -> live w' q = live w q) -> live w' p = Some e' ->
     stays e e' -> Q err w') ->
  runs (run_app p program) w Q.
Proof.
  revert e w; induction program as [err|protocol type payload flags next IH|next IH|timeout next IH|next IH|next IH];
    intros e w HI He Hs Ho HQ; cbn [run_app]; cbn [leaves_open] in Ho; try done.
  1: { apply runs_ret; by eapply HQ. }
  all: apply runs_seq; eapply runs_exchange; [exact He|]; destruct (IsClosed e); [apply runs_ret; by eapply HQ|].
  - apply runs_seq; unfold SendMessage, SendMessage_with; apply runs_seq; eapply runs_exchange; [exact He|].
    rewrite Hs; apply runs_ret; by eapply IH.
  - go; destruct (Inv_edit_flag g p e kFlagWillSendMessage true w HI He) as [HI1 Hst]; [cbn; intuition discriminate|].
    eapply IH; [done|by eapply live_put_same|done|done|].
    intros err w' e' HI' Hq He' Hst'; eapply HQ; [done|intros q Hne; rewrite Hq by done; by apply live_put_ne|done|].
    by etransitivity.
  - go; pose proof (Inv_edit_timeout g p e timeout w HI He) as HI1.
    eapply IH; [done|by eapply live_put_same|done|done|].
    intros err w' e' HI' Hq He' Hst'; eapply HQ; [done|intros q Hne; rewrite Hq by done; by apply live_put_ne|done|].
    exact Hst'.
Qed.

(** ** Acknowledgements received and owed *)

(** Nothing that the owner notices. *)
Definition calm (p : nat) (e : Exchange) (w w' : World) : Prop :=
  (forall q, q <> p -> live w' q = live w q) /\
  (exists e', live w' p = Some e' /\ stays e e' /\
     (IsResponseExpected e = false -> IsResponseExpected e' = false) /\ IsSendExpected e' = IsSendExpected e) /\
  (entries w' p <= entries w p)%nat.

Lemma calm_refl p e w : live w p = Some e -> calm p e w w.
Proof. intros He; split_and!; try done; by exists e. Qed.

Lemma calm_trans p e e1 w w1 w2 : calm p e w w1 -> live w1 p = Some e1 -> calm p e1 w1 w2 -> calm p e w w2.
Proof.
  intros (A1 & (e1' & A2 & A3 & A4 & A5) & A6) He1 (B1 & (e2 & B2 & B3 & B4 & B5) & B6).
  rewrite A2 in He1; injection He1 as ->; split_and!; [intros q Hq; by rewrite B1, A1| |lia].
  exists e2; split; [done|split; [by etransitivity|split; [auto|congruence]]].
Qed.

Lemma kin_stays e e' : kin e e' -> stays e e'.
Proof. intros Hk; split; [apply Hk|split; [apply Hk|by apply kin_closed]]. Qed.

Lemma calm_kin p e e' w w' :
  (forall q, q <> p -> live w' q = live w q) -> live w' p = Some e' -> kin e e' -> mRetransTable w' = mRetransTable w ->
  calm p e w w'.
Proof.
  intros Hq He' Hk Ht; split; [done|split; [|unfold entries; by rewrite Ht]].
  exists e'; split; [done|split; [by apply kin_stays|split; [by rewrite (kin_expected _ _ Hk)|by apply kin_send]]].
Qed.

Lemma calm_acked p e w w' : live w p = Some e -> acked p e w w' -> calm p e w w'.
Proof.
  intros He Ha; destruct (acked_live p e w w' He Ha) as (e' & He' & Hc).
  eapply calm_kin; [intros; by eapply acked_live_ne|done|by apply acked_kin|by destruct Ha as (? & _ & _ & ? & _)].
Qed.

Lemma calm_outcome p e g w w' : calm p e w w' -> outcome p e g w g w'.
Proof.
  intros (C1 & (e' & He' & Hs & _) & _); split; [done|left; split; [done|]].
  intros e''; rewrite He'; by intros [= <-].
Qed.

Lemma runs_HandleRcvdAck g p e counter w (Q : unit -> World -> Prop) :
  Inv g w -> live w p = Some e -> In p (g_held g) -> g_hole g = None -> (length (g_held g) < 99)%nat ->
  (forall w', Inv g w' -> calm p e w w' -> Q tt w') -> runs (HandleRcvdAck p counter) w Q.
Proof.
  intros HI He Hin Hhole Hl HQ; unfold HandleRcvdAck; apply runs_seq.
  eapply runs_CheckAndRem; [done..| |by apply runs_ret, HQ, calm_refl].
  intros w1 HI1 (C1 & C2 & C3 & _); cbn [when].
  destruct (owed_live g w1 p HI1) as [e1 He1].
  { unfold owed; apply (count_occ_In Nat.eq_dec) in Hin; lia. }
  destruct (C2 e1 He1) as (e0 & He0 & Hk); rewrite He in He0; injection He0 as <-.
  eapply runs_edit; [exact He1|].
  destruct (Inv_edit_flag g p e1 kFlagWaitingForResponseOrAck false w1 HI1 He1) as [HI2 Hs]; [cbn; intuition discriminate|].
  apply HQ; [done|]; split; [intros q Hq; rewrite live_put_ne by done; by apply C1|split].
  - eexists; split; [by eapply live_put_same|]; split; [etransitivity; [by apply kin_stays|done]|].
    flags; by rewrite !(proj2 (proj2 (proj2 Hk))).
  - change (entries w1 p <= entries w p)%nat; lia.
Qed.

Definition pending (c : Z) (e : Exchange) : Exchange :=
  SetFlag kFlagAckMessageCounterIsValid true (SetFlag kFlagAckPending true (set_mPendingPeerAckMessageCounter c e)).

Lemma kin_pending c e : kin e (pending c e).
Proof.
  unfold pending; etransitivity; [apply (kin_set_counter c)|].
  etransitivity; [by apply (kin_SetFlag kFlagAckPending true)|by apply kin_SetFlag].
Qed.

Lemma runs_SetPending p e c w (Q : unit -> World -> Prop) :
  live w p = Some e -> Q tt (put_exchange p (pending c e) w) -> runs (SetPendingPeerAckMessageCounter p c) w Q.
Proof.
  intros He HQ; unfold SetPendingPeerAckMessageCounter; go.
  - by eapply live_put_same.
  - rewrite put_put; by eapply live_put_same.
  - by rewrite !put_put.
Qed.

(** An edit of the acknowledgement owed. *)
Lemma Inv_owe g p e e' w :
  Inv g w -> live w p = Some e -> kin e e' -> mRefCount e' = mRefCount e -> IsWaitingForAck e' = IsWaitingForAck e ->
  Inv g (put_exchange p e' w) /\ live (put_exchange p e' w) p = Some e' /\ calm p e w (put_exchange p e' w).
Proof.
  intros HI He Hk Hr Hw; split; [by eapply Inv_put_kin|]; assert (live (put_exchange p e' w) p = Some e') as He'
    by (by eapply live_put_same); split; [done|].
  eapply calm_kin; [intros; by apply live_put_ne|done..].
Qed.

Lemma IsWaitingForAck_pending c e : IsWaitingForAck (pending c e) = IsWaitingForAck e.
Proof. unfold pending; by flags. Qed.

Lemma runs_HandleNeedsAck g p e counter dup w (Q : CHIP_ERROR -> World -> Prop) :
  Inv g w -> live w p = Some e ->
  (forall err w', Inv g w' -> calm p e w w' -> Q err w') -> runs (HandleNeedsAck p counter dup) w Q.
Proof.
  intros HI He HQ; unfold HandleNeedsAck; apply runs_seq.
  assert (Hend : forall err w', Inv g w' -> calm p e w w' -> runs (StartTimer ;; ret err) w' Q).
  { intros err w' HI' Hc; apply runs_seq, runs_StartTimer; intros t n; apply runs_ret, HQ; [by apply (Inv_same _ w')|done]. }
  (* an edit after a calm run *)
  assert (Hedit : forall w1 e1 e2 (k : W CHIP_ERROR), Inv g w1 -> calm p e w w1 -> live w1 p = Some e1 -> kin e1 e2 ->
    mRefCount e2 = mRefCount e1 -> IsWaitingForAck e2 = IsWaitingForAck e1 ->
    Inv g (put_exchange p e2 w1) /\ live (put_exchange p e2 w1) p = Some e2 /\ calm p e w (put_exchange p e2 w1)).
  { intros w1 e1 e2 _ HI1 Hc1 He1 Hk Hr Hw; destruct (Inv_owe g p e1 e2 w1 HI1 He1 Hk Hr Hw) as (HI2 & He2 & Hc2).
    split_and!; [done|done|]; by apply (calm_trans p e e1 w w1). }
  unfold HandleNeedsAckInner; go; destruct dup.
  - destruct (Hedit w e (pending counter e) (ret CHIP_NO_ERROR)) as (HI1 & He1 & Hc1);
      [done|by apply calm_refl|done|apply kin_pending|done|apply IsWaitingForAck_pending|].
    apply runs_seq; eapply runs_SetPending; [exact He|]; apply runs_seq.
    eapply (runs_ack g p (pending counter e)); [exact HI1|exact He1|]; intros err w2 Ha HI2.
    destruct (acked_live p _ _ w2 He1 Ha) as (e2 & He2 & _).
    assert (Hc2 : calm p e w w2) by (eapply calm_trans; [exact Hc1|exact He1|by apply calm_acked]).
    apply runs_seq; destruct (_ && negb _); [|apply runs_when; intros _].
    + eapply runs_SetPending; [exact He2|].
      destruct (Hedit w2 e2 (pending (mPendingPeerAckMessageCounter e) e2) (ret CHIP_NO_ERROR)) as (HI3 & He3 & Hc3);
        [done|done|done|apply kin_pending|done|apply IsWaitingForAck_pending|].
      by apply runs_ret, Hend.
    + eapply runs_edit; [exact He2|].
      destruct (Hedit w2 e2 (set_mPendingPeerAckMessageCounter (mPendingPeerAckMessageCounter e) e2) (ret CHIP_NO_ERROR))
        as (HI3 & He3 & Hc3); [done..|].
      by apply runs_ret, Hend.
    + by apply runs_ret, Hend.
  - apply runs_seq.
    assert (Hgo : forall err w1 e1, Inv g w1 -> live w1 p = Some e1 -> calm p e w w1 ->
      runs (if no_error err then
        SetPendingPeerAckMessageCounter p counter ;;
        let! t := now in
        edit p (set_mNextAckTime (t +{64} DEFAULT_ACK_TIMEOUT)) ;; ret CHIP_NO_ERROR else ret err) w1
        (fun a w' => runs (StartTimer ;; ret a) w' Q)).
    { intros err w1 e1 HI1 He1 Hc1; destruct (no_error err); [|by apply runs_ret, Hend].
      destruct (Hedit w1 e1 (pending counter e1) (ret CHIP_NO_ERROR)) as (HI2 & He2 & Hc2);
        [done|done|done|apply kin_pending|done|apply IsWaitingForAck_pending|].
      apply runs_seq; eapply runs_SetPending; [exact He1|]; apply runs_seq, runs_now, runs_seq.
      eapply runs_edit; [exact He2|].
      destruct (Hedit _ _ (set_mNextAckTime (mNow (put_exchange p (pending counter e1) w1) +{64} DEFAULT_ACK_TIMEOUT)
        (pending counter e1)) (ret CHIP_NO_ERROR) HI2 Hc2 He2) as (HI3 & He3 & Hc3); [done..|].
      by apply runs_ret, Hend. }
    destruct (IsAckPending e).
    + eapply runs_ack; [done..|]; intros err w1 Ha HI1; destruct (acked_live p e w w1 He Ha) as (e1 & He1 & _).
      apply (Hgo err w1 e1); [done|done|by apply calm_acked].
    + apply runs_ret, (Hgo _ w e); [done|done|by apply calm_refl].
Qed.

(** ** Messages received *)

Context `{AP : Application}.

Lemma runs_handle_acks g p e counter header dup w (Q : unit -> World -> Prop) :
  Inv g w -> live w p = Some e -> In p (g_held g) -> g_hole g = None -> (length (g_held g) < 99)%nat ->
  (forall w', Inv g w' -> calm p e w w' -> Q tt w') -> runs (handle_acks p counter header dup) w Q.
Proof.
  intros HI He Hin Hhole Hl HQ; unfold handle_acks; apply runs_seq.
  assert (Hgo : forall w1, Inv g w1 -> calm p e w w1 ->
    runs (when (NeedsAck header) (HandleNeedsAck p counter dup ;; ret tt)) w1 Q).
  { intros w1 HI1 Hc; pose proof Hc as (_ & (e1 & He1 & _) & _); apply runs_when; intros _; [|by apply HQ].
    apply runs_seq; eapply runs_HandleNeedsAck; [done..|]; intros err w2 HI2 Hc2; apply runs_ret, HQ; [done|].
    by apply (calm_trans p e e1 w w1). }
  destruct (_ && _); [|apply runs_ret, Hgo; [done|by apply calm_refl]].
  destruct (mAckMessageCounter header) as [c|]; [|apply runs_ret, Hgo; [done|by apply calm_refl]].
  by eapply runs_HandleRcvdAck.
Qed.

(** A message reaches the delegate, which may do anything with its exchange. *)
Lemma runs_deliver g p e header payload w (Q : CHIP_ERROR -> World -> Prop) :
  Inv g w -> live w p = Some e -> In p (g_held g) -> g_hole g = None -> (length (g_held g) < 98)%nat ->
  g_loose g = None ->
  (forall err g' w', Inv g' w' -> outcome p e g w g' w' -> g_held g' = g_held g ->
     (mDelegate e = None -> g' = g /\ calm p e w w') -> Q err w') ->
  runs (deliver p header payload) w Q.
Proof.
  intros HI He Hin Hhole Hl Hloose HQ; unfold deliver; go.
  assert (Hret : forall err w1, Inv g w1 -> calm p e w w1 -> Q err w1).
  { intros err w1 HI1 Hc; apply (HQ err g); try done; by apply calm_outcome. }
  destruct (MessagePermitted _ _ _); [|apply runs_ret, Hret; [done|by apply calm_refl]].
  apply runs_seq.
  assert (Hgo : forall w1, Inv g w1 -> calm p e w w1 ->
    runs (let! e := exchange p in
          match mDelegate e with
          | Some d => let! n := tick in emit (MessageReceived d p header payload) ;;
                      run_app p (OnMessageReceived_of n d header payload)
          | None => DefaultOnMessageReceived
          end) w1 Q).
  { intros w1 HI1 Hc; pose proof Hc as (_ & (e1 & He1 & Hs1 & _) & _); go.
    destruct (mDelegate e1) as [d|] eqn:Ed; [|by apply runs_ret, Hret]; go.
    eapply (runs_run_app g p e1); [by apply (Inv_same _ w1)|done..|].
    intros err g2 w2 HI2 Ho Hh; apply (HQ err g2); try done.
    - eapply outcome_trans; [by apply (calm_outcome p e g w w1)|exact He1|exact Ho].
    - destruct Hs1 as (_ & Hd & _); congruence. }
  apply runs_when; intros Hr; [|apply Hgo; [done|by apply calm_refl]].
  unfold CancelResponseTimer; apply runs_seq, runs_modify.
  set (w1 := set_mResponseTimers (delete p (mResponseTimers w)) w).
  eapply runs_SetResponseExpected; [exact He|].
  apply Hgo; [apply (Inv_expect g p e false w1); [by apply Inv_cancel|done|right; apply lookup_delete_eq]|].
  split_and!; [intros q Hq; by rewrite live_put_ne| |done].
  eexists; split; [by eapply live_put_same|]; split; [split_and!; try done; by flags|by flags].
Qed.

Lemma runs_allows_mrp g p e s w (Q : bool -> World -> Prop) :
  Inv g w -> live w p = Some e -> mSession e = Some s -> (forall mrp, Q mrp w) ->
  runs (session_allows_mrp p) w Q.
Proof.
  intros HI He Hs HQ; destruct (Inv_known g w p e s HI He Hs) as (se & Hse & _).
  unfold session_allows_mrp; go; apply HQ.
Qed.

Lemma runs_HandleMessage_body g p e s counter header ack dup payload w (Q : CHIP_ERROR -> World -> Prop) :
  Inv g w -> live w p = Some e -> mSession e = Some s -> In p (g_held g) -> g_hole g = None ->
  (length (g_held g) < 98)%nat -> g_loose g = None ->
  (forall err g' w', Inv g' w' -> outcome p e g w g' w' -> g_held g' = g_held g ->
     (mDelegate e = None -> g' = g /\ calm p e w w') -> Q err w') ->
  runs (HandleMessage_body p counter header ack dup payload) w Q.
Proof.
  intros HI He Hs Hin Hhole Hl Hloose HQ; unfold HandleMessage_body.
  assert (Hret : forall err w1, Inv g w1 -> calm p e w w1 -> Q err w1).
  { intros err w1 HI1 Hc; apply (HQ err g); try done; by apply calm_outcome. }
  apply runs_seq; eapply runs_allows_mrp; [done..|]; intros mrp; apply runs_seq; eapply runs_exchange; [done|].
  apply runs_seq, runs_mono with (P := fun _ w1 => Inv g w1 /\ calm p e w w1).
  { apply runs_when; intros _; [|split; [done|by apply calm_refl]].
    eapply runs_handle_acks; [done..|lia|]; by intros w1. }
  intros _ w1 [HI1 Hc1]; pose proof Hc1 as (_ & (e1 & He1 & Hs1 & _) & _); apply runs_seq.
  eapply runs_exchange; [done|]; apply runs_seq, runs_mono with (P := fun _ w2 => Inv g w2 /\ calm p e w w2).
  { destruct (_ && _ && _); [|by apply runs_ret].
    eapply runs_flush; [exact HI1|exact He1|]; intros err w2 Ha HI2; split; [done|].
    apply (calm_trans p e e1 w w1); [done|done|by apply calm_acked]. }
  intros err w2 [HI2 Hc2]; destruct (negb (no_error err)); [by apply runs_ret, Hret|].
  destruct (_ || dup); [by apply runs_ret, Hret|].
  pose proof Hc2 as (_ & (e2 & He2 & Hs2 & Hx2 & Hw2) & _).
  apply runs_seq; eapply runs_allows_mrp; [exact HI2|exact He2|rewrite (proj1 Hs2); exact Hs|]; intros mrp'; go.
  destruct (mrp' && _); [by apply runs_ret, Hret|]; destruct (mrp' && _); [by apply runs_ret, Hret|].
  go; destruct (Inv_edit_flag g p e2 kFlagReceivedAtLeastOneMessage true w2 HI2 He2) as [HI3 Hs3];
    [cbn; intuition discriminate|].
  set (e3 := SetFlag kFlagReceivedAtLeastOneMessage true e2) in *; set (w3 := put_exchange p e3 w2) in *.
  assert (He3 : live w3 p = Some e3) by (by eapply live_put_same).
  assert (Hc3 : calm p e w w3).
  { apply (calm_trans p e e2 w w2); [done|done|]; split; [intros; by apply live_put_ne|split; [|done]].
    exists e3; unfold e3; flags; done. }
  eapply (runs_deliver g p e3); [done..|]; intros err' g' w4 HI4 Ho Hh Hd; apply (HQ err' g'); try done.
  - eapply outcome_trans; [by apply (calm_outcome p e g w w3)|done|done].
  - intros Hn; destruct Hd as [-> Hc4]; [unfold e3; cbn; by rewrite (proj1 (proj2 Hs2))|].
    split; [done|]; by apply (calm_trans p e e3 w w3).
Qed.

(** ... and an exchange without a delegate, an owner's plans or a message of its own is
    gone afterwards. *)
Definition idle (g : Ghost) (w : World) (p : nat) (e : Exchange) : Prop :=
  mDelegate e = None /\ IsClosed e = false /\ IsResponseExpected e = false /\ IsSendExpected e = false /\
  entries w p = 0%nat /\ ~ In p (g_held g).

Lemma runs_HandleMessage g p e s counter header dup payload w (Q : CHIP_ERROR -> World -> Prop) :
  Inv g w -> live w p = Some e -> mSession e = Some s -> g_hole g = None ->
  (length (g_held g) < 97)%nat -> g_loose g = None ->
  (forall err g' w', Inv g' w' -> outcome p e g w g' w' -> g_held g' = g_held g ->
     (idle g w p e -> live w' p = None) -> Q err w') ->
  runs (HandleMessage p counter header dup payload) w Q.
Proof.
  intros HI He Hs Hhole Hl Hloose HQ; unfold HandleMessage.
  eapply runs_with_ref; [done..|lia|]; cbn zeta; set (e1 := set_mRefCount (mRefCount e + 1) e).
  set (w1 := put_exchange p e1 w); intros HI1.
  assert (He1 : live w1 p = Some e1) by (by eapply live_put_same).
  apply runs_seq; eapply (runs_HandleMessage_body (hold p g) p e1); [done..|by left|done|cbn; lia|done|].
  intros err g2 w2 HI2 Ho Hh Hcalm.
  assert (exists g3, g2 = hold p g3 /\ g_held g3 = g_held g /\ own_less p g g3) as (g3 & -> & Hh3 & Hless).
  { destruct Ho as [_ [[-> _]|[-> _]]]; [by exists g; split_and!; [..|left]|by exists (disown p g); split_and!; [..|right]]. }
  destruct (held_live g3 p w2 HI2) as [e2 He2]; go.
  (* the end of the scope *)
  assert (Hend : forall g4 w4, Inv (hold p g4) w4 -> outcome p e1 (hold p g) w1 (hold p g4) w4 -> g_held g4 = g_held g ->
    (idle g w p e -> g4 = disown p g /\ entries w4 p = 0%nat) ->
    exists g', Inv (hold p g') w4 /\
      forall e4, live w4 p = Some e4 -> Inv g' (dropped p e4 w4) -> Q err (dropped p e4 w4)).
  { intros g4 w4 HI4 Ho4 Hh4 Hidle; exists g4; split; [done|]; intros e4 He4 HI5; apply (HQ _ g4); try done.
    - by apply (outcome_dropped p e e1).
    - intros Hx; destruct (Hidle Hx) as [-> Hen]; destruct (live (dropped p e4 w4) p) as [e5|] eqn:E5; [|done]; exfalso.
      pose proof (xo_pos _ _ _ _ (inv_live _ _ HI5 p e5 E5)) as Hpos.
      rewrite owed_dropped in Hpos; unfold owed in Hpos; rewrite Hen in Hpos; cbn [g_own g_held disown] in Hpos.
      rewrite decide_False in Hpos by set_solver.
      assert (count_occ Nat.eq_dec (g_held g) p = 0%nat) by (apply count_occ_not_In; apply Hx); lia. }
  destruct (_ && bool_decide (is_Some (mDelegate e2))) eqn:Hskip.
  - apply runs_ret, runs_ret, (Hend g3); try done.
    intros (Hd & _); apply andb_true_iff in Hskip as [_ Hsome]; apply bool_decide_eq_true in Hsome.
    destruct (Hcalm Hd) as [_ (_ & (e2' & He2' & (_ & Hd' & _) & _) & _)].
    rewrite He2 in He2'; injection He2' as <-; rewrite Hd' in Hsome; change (mDelegate e1) with (mDelegate e) in Hsome.
    rewrite Hd in Hsome; by destruct Hsome.
  - eapply (runs_MessageHandled (hold p g3) p e2); [done|done| |cbn; rewrite Hh3; lia| | |].
    + destruct Hless as [-> | ->]; done.
    + destruct Hless as [-> | ->]; done.
    + intros Hstay; apply runs_ret, (Hend g3); try done.
      intros (Hd & Hc & Hr & Hw & _); destruct (Hcalm Hd) as [_ (_ & (e2' & He2' & (_ & _ & Hc') & Hr' & Hw') & _)].
      rewrite He2 in He2'; injection He2' as <-.
      rewrite Hc', Hw' in Hstay; change (IsClosed e1) with (IsClosed e) in Hstay.
      change (IsSendExpected e1) with (IsSendExpected e) in Hstay.
      rewrite Hc, Hw, (Hr' Hr) in Hstay; done.
    + intros w4 HI4 (C1 & C2 & C3); apply runs_ret, (Hend (disown p g3)); try done.
      * destruct Ho as [O1 _]; split; [intros q Hq; rewrite (proj1 (C1 q Hq)); by apply O1|right; split; [|done]].
        destruct Hless as [-> | ->]; [done|by rewrite disown_twice].
      * intros Hx; split; [destruct Hless as [-> | ->]; [done|by rewrite disown_twice]|].
        destruct (Hcalm (proj1 Hx)) as [_ (_ & _ & Hen)]; destruct Hx as (_ & _ & _ & _ & Hz & _).
        change (entries w1 p) with (entries w p) in Hen; lia.
Qed.

(** ** Responses that do not come, and sessions that go *)

Lemma runs_notify (g : Ghost) s w (Q : unit -> World -> Prop) :
  Inv g w -> (exists se, mSessions w !! s = Some se /\ established se) ->
  (forall w', Inv g w' -> mContextPool w' = mContextPool w -> mRetransTable w' = mRetransTable w ->
     mResponseTimers w' = mResponseTimers w -> Q tt w') ->
  runs (mark_if_case s ;; NotifySessionHang s) w Q.
Proof.
  intros HI Hk HQ; apply runs_seq, runs_mark; [done|]; intros m Hm; unfold NotifySessionHang; go.
  apply HQ; try done; by apply (Inv_same _ (set_mSessions m w)); [|apply Inv_sessions].
Qed.

Lemma runs_HandleResponseTimeout g p e w (Q : unit -> World -> Prop) :
  Inv g w -> live w p = Some e -> g_hole g = None -> (length (g_held g) < 97)%nat -> g_loose g = None ->
  (forall g' w', Inv g' w' -> outcome p e g w g' w' -> g_held g' = g_held g -> Q tt w') ->
  runs (HandleResponseTimeout p) w Q.
Proof.
  intros HI He Hhole Hl Hloose HQ; unfold HandleResponseTimeout, CancelResponseTimer, NotifyResponseTimeout.
  apply runs_seq, runs_modify; set (w1 := set_mResponseTimers (delete p (mResponseTimers w)) w).
  assert (HI1 : Inv g w1) by (by apply Inv_cancel).
  assert (He1 : live w1 p = Some e) by done; apply runs_seq; eapply runs_exchange; [exact He1|].
  apply runs_seq; eapply runs_SetResponseExpected; [exact He1|].
  set (e2 := SetFlag kFlagWaitingForResponseOrAck false (SetFlag kFlagResponseExpected false e)).
  set (w2 := put_exchange p e2 w1).
  assert (HI2 : Inv g w2) by (apply Inv_expect; [done..|right; apply lookup_delete_eq]).
  assert (He2 : live w2 p = Some e2) by (by eapply live_put_same).
  assert (Hs2 : stays e e2) by (split_and!; try done; unfold e2; by flags).
  eapply (runs_with_ref g p e2); [done..|lia|]; cbn zeta; set (e3 := set_mRefCount (mRefCount e2 + 1) e2).
  set (w3 := put_exchange p e3 w2); intros HI3.
  assert (He3 : live w3 p = Some e3) by (by eapply live_put_same).
  apply runs_seq, runs_mono with (P := fun _ w4 => Inv (hold p g) w4 /\ mContextPool w4 = mContextPool w3).
  { destruct (mSession e) as [s|] eqn:Es; [|by apply runs_ret]; apply runs_when; intros _; [|done].
    eapply runs_notify; [exact HI3| |by intros w4 ? ? _ _].
    apply (Inv_known (hold p g) w3 p e3 s HI3 He3); exact Es. }
  intros _ w4 [HI4 Hp4].
  assert (Hl4 : forall q, live w4 q = live w3 q) by (intros; unfold live; by rewrite Hp4).
  assert (Hend : forall g' w5, Inv g' w5 -> outcome p e3 (hold p g) w3 g' w5 -> g_held g' = g_held (hold p g) ->
    exists g', Inv (hold p g') w5 /\
      forall e2, live w5 p = Some e2 -> Inv g' (dropped p e2 w5) -> Q tt (dropped p e2 w5)).
  { intros g' w5 HI5 Ho Hh.
    assert (exists g2, g' = hold p g2 /\ g_held g2 = g_held g) as (g2 & -> & Hh2).
    { destruct Ho as [_ [[-> _]|[-> _]]]; [by exists g|by exists (disown p g)]. }
    exists g2; split; [done|]; intros e5 He5 HI6; apply (HQ g2); try done.
    destruct (outcome_dropped p e2 e3 e5 g g2 w2 w5 He2 Ho) as (O1 & O2); try done.
    split; [intros q Hq; rewrite O1 by done; unfold w2; by rewrite live_put_ne|].
    destruct O2 as [[? O2]|]; [left; split; [done|]|by right]; intros e' He'; etransitivity; [exact Hs2|by apply O2]. }
  apply runs_seq, runs_mono with (P := fun _ w5 => exists g5, Inv g5 w5 /\ outcome p e3 (hold p g) w3 g5 w5 /\
    g_held g5 = g_held (hold p g)).
  { destruct (mDelegate e) as [d|]; [|apply runs_ret].
    - go; eapply (runs_run_app (hold p g) p e3); [by apply (Inv_same _ w4)| |by left|done|cbn; lia|done|].
      + change (live w4 p = Some e3); by rewrite Hl4.
      + intros err g5 w5 HI5 (O1 & O2) Hh5; apply runs_ret; exists g5; split_and!; try done.
        split; [intros q Hq; rewrite O1 by done; exact (Hl4 q)|done].
    - exists (hold p g); split_and!; [done| |done]; split; [intros; apply Hl4|left; split; [done|]].
      intros e'; rewrite Hl4, He3; by intros [= <-]. }
  intros _ w5 (g5 & HI5 & Ho5 & Hh5); cbn [when].
  destruct (owed_live g5 w5 p HI5) as [e5 He5].
  { unfold owed; rewrite Hh5; cbn [g_held hold]; rewrite count_occ_cons_eq by done; lia. }
  assert (Hg5 : g_hole g5 = None /\ g_loose g5 = None).
  { by destruct Ho5 as [_ [[-> _]|[-> _]]]. }
  eapply (runs_MessageHandled g5 p e5); [done|done|apply Hg5|rewrite Hh5; cbn; lia|apply Hg5| |].
  - intros _; by apply (Hend g5).
  - intros w6 HI6 (C1 & C2 & C3); apply (Hend (disown p g5)); [done| |done].
    destruct Ho5 as [O1 O2]; split; [intros q Hq; rewrite (proj1 (C1 q Hq)); by apply O1|right; split; [|done]].
    destruct O2 as [[-> _]|[-> _]]; [done|by rewrite disown_twice].
Qed.

Lemma Inv_sessionless g p e w :
  Inv g w -> live w p = Some e -> g_loose g = None ->
  Inv (with_loose (Some p) g) (put_exchange p (set_mSession None e) w).
Proof.
  intros HI He Hl; pose proof (Inv_loosen g p w HI (or_introl Hl)) as HI'.
  eapply Inv_put; [done..|]; destruct (inv_live _ _ HI' p e He); split; try done; by right.
Qed.

Lemma in_held_live g p w : Inv g w -> In p (g_held g) -> exists e, live w p = Some e.
Proof.
  intros HI Hin; apply (owed_live g w p HI); unfold owed.
  apply (count_occ_In Nat.eq_dec) in Hin; lia.
Qed.

Lemma runs_NotifyResponseTimeout_released g p e w (Q : unit -> World -> Prop) :
  (forall n d, leaves_open (OnResponseTimeout_of n d)) ->
  Inv g w -> live w p = Some e -> mSession e = None -> mResponseTimers w !! p = None ->
  In p (g_held g) -> (length (g_held g) < 98)%nat ->
  (forall w' e', Inv g w' -> (forall q, q <> p -> live w' q = live w q) -> live w' p = Some e' -> stays e e' -> Q tt w') ->
  runs (NotifyResponseTimeout p false) w Q.
Proof.
  intros Hopen HI He Hs Hn Hin Hl HQ; unfold NotifyResponseTimeout; apply runs_seq; eapply runs_exchange; [exact He|].
  apply runs_seq; eapply runs_SetResponseExpected; [exact He|].
  set (e2 := SetFlag kFlagWaitingForResponseOrAck false (SetFlag kFlagResponseExpected false e)).
  set (w2 := put_exchange p e2 w).
  assert (HI2 : Inv g w2) by (apply Inv_expect; [done..|by right]).
  assert (He2 : live w2 p = Some e2) by (by eapply live_put_same).
  assert (Hs2 : stays e e2) by (split_and!; try done; unfold e2; by flags).
  rewrite Hs; eapply (runs_with_ref g p e2); [done..|lia|]; cbn zeta; set (e3 := set_mRefCount (mRefCount e2 + 1) e2).
  set (w3 := put_exchange p e3 w2); intros HI3.
  assert (He3 : live w3 p = Some e3) by (by eapply live_put_same).
  apply runs_seq, runs_ret, runs_seq.
  assert (Hend : forall w4 e4, Inv (hold p g) w4 -> (forall q, q <> p -> live w4 q = live w3 q) -> live w4 p = Some e4 ->
    stays e3 e4 -> runs (when false (MessageHandled p)) w4 (fun a w2 => exists g', Inv (hold p g') w2 /\
      forall e2, live w2 p = Some e2 -> Inv g' (dropped p e2 w2) -> Q a (dropped p e2 w2))).
  { intros w4 e4 HI4 Hq He4 Hs4; apply runs_ret; exists g; split; [done|]; intros e5; rewrite He4; intros [= <-] HI5.
    destruct (in_held_live g p _ HI5 Hin) as [e6 He6]; eapply (HQ _ e6); [done| |done|].
    - intros q Hq'; rewrite live_dropped_ne by done; rewrite Hq by done; unfold w3, w2; by rewrite !live_put_ne.
    - rewrite (live_dropped p e4 w4 He4) in He6; case_match; [done|]; injection He6 as <-.
      etransitivity; [exact Hs2|exact Hs4]. }
  destruct (mDelegate e) as [d|]; [|apply runs_ret; by eapply Hend].
  go; eapply (runs_run_app_sessionless (hold p g) p e3); [by apply (Inv_same _ w3)|exact He3|exact Hs|apply Hopen|].
  intros err w4 e4 HI4 Hq He4 Hs4; apply runs_ret; by eapply Hend.
Qed.

(** The exchange has no session and no message in the table afterwards; its owner keeps
    its reference only if it had announced a message before, or the exchange was closed. *)
Definition orphaned (p : nat) (e : Exchange) (g : Ghost) (w : World) (g' : Ghost) (w' : World) : Prop :=
  (forall q, q <> p -> live w' q = live w q) /\
  (forall e', live w' p = Some e' -> IsClosed e' = true) /\
  entries w' p = 0%nat /\
  (if IsClosed e || IsSendExpected e then g' = g /\ forall e', live w' p = Some e' -> mSession e' = None
   else g' = disown p g).

Lemma runs_SessionReleased g p e w (Q : unit -> World -> Prop) :
  (forall n d, leaves_open (OnResponseTimeout_of n d)) ->
  Inv g w -> live w p = Some e -> g_hole g = None -> (length (g_held g) < 96)%nat -> g_loose g = None ->
  (forall g' w', Inv g' w' -> orphaned p e g w g' w' -> g_held g' = g_held g -> Q tt w') ->
  runs (SessionReleased p) w Q.
Proof.
  intros Hopen HI He Hhole Hl Hloose HQ; unfold SessionReleased, OnSessionReleased.
  pose proof (Inv_sessionless g p e w HI He Hloose) as HI1.
  apply runs_seq; eapply runs_edit; [exact He|]; set (e1 := set_mSession None e) in *.
  set (w1 := put_exchange p e1 w) in *; set (gl := with_loose (Some p) g) in *.
  assert (He1 : live w1 p = Some e1) by (by eapply live_put_same).
  assert (Hq1 : forall q, q <> p -> live w1 q = live w q) by (intros; by apply live_put_ne).
  apply runs_seq; eapply runs_exchange; [exact He1|].
  rewrite (xo_kept _ _ _ _ (inv_live _ _ HI1 p e1 He1)).
  destruct (IsClosed e1) eqn:Hc.
  - eapply (runs_ClearRetransTable gl); [exact HI1|done|cbn; lia|]; intros w2 HI2 (C1 & C2 & C3 & C4 & C5 & C6).
    assert (Hk : forall e2, live w2 p = Some e2 -> kin e1 e2).
    { intros e2 He2; destruct (C2 e2 He2) as (e1' & He1' & Hk); rewrite He1 in He1'; by injection He1' as <-. }
    apply (HQ g); [|split_and!; [intros q Hq; by rewrite C1, Hq1| |done|]|done].
    + rewrite <-(with_loose_None g Hloose); apply (Inv_tighten g p); [exact HI2|].
      intros e2 He2; split; [lia|]; intros _; destruct (Hk e2 He2) as (_ & Hd & _); split.
      * rewrite Hd; destruct (xo_delegate _ _ _ _ (inv_live _ _ HI p e He) Hc); [done|congruence].
      * rewrite C6; by apply (closed_no_timer g p e w).
    + intros e2 He2; by rewrite (kin_closed _ _ (Hk e2 He2)).
    + change (IsClosed e) with (IsClosed e1); rewrite Hc; split; [done|]; intros e2 He2; by rewrite (proj1 (Hk e2 He2)).
  - eapply (runs_with_ref gl p e1); [exact HI1|done|cbn; lia|]; cbn zeta.
    set (e2 := set_mRefCount (mRefCount e1 + 1) e1); set (w2 := put_exchange p e2 w1); intros HI2.
    assert (He2 : live w2 p = Some e2) by (by eapply live_put_same).
    assert (Hq2 : forall q, q <> p -> live w2 q = live w q) by (intros q Hq; unfold w2; rewrite live_put_ne by done; auto).
    (* the end of the scope, with [g'] what is left of [g] *)
    assert (Hend : forall g' w3, Inv (hold p g') w3 -> orphaned p e g w2 g' w3 ->
      exists g', Inv (hold p g') w3 /\
        forall e3, live w3 p = Some e3 -> Inv g' (dropped p e3 w3) -> Q tt (dropped p e3 w3)).
    { intros g' w3 HI3 (O1 & O2 & O4 & O3); exists g'; split; [done|]; intros e3 He3 HI4.
      assert (Hl4 : forall e4, live (dropped p e3 w3) p = Some e4 -> stays e3 e4).
      { intros e4; rewrite (live_dropped p e3 w3 He3); destruct (_ =? 0); [done|]; by intros [= <-]. }
      apply (HQ g'); [done| |destruct (_ || _); [by destruct O3 as [-> _]|by subst]]; split_and!.
      - intros q Hq; rewrite live_dropped_ne by done; by rewrite O1, Hq2.
      - intros e4 He4; destruct (Hl4 e4 He4) as (_ & _ & ->); by apply O2.
      - unfold entries; by rewrite (proj1 (dropped_parts p e3 w3)).
      - destruct (_ || _); [|done]; destruct O3 as [-> O3]; split; [done|].
        intros e4 He4; destruct (Hl4 e4 He4) as (-> & _ & _); by apply O3. }
    assert (Hloose2 : with_loose None (hold p gl) = hold p g).
    { destruct g; cbn in *; by subst. }
    destruct (negb (IsSendExpected e1)) eqn:Hsend; [apply negb_true_iff in Hsend|apply negb_false_iff in Hsend].
    + assert (Habort : forall w3 e3, Inv (hold p gl) w3 -> (forall q, q <> p -> live w3 q = live w2 q) ->
        live w3 p = Some e3 -> stays e2 e3 -> runs (Abort p) w3 (fun a w2 => exists g', Inv (hold p g') w2 /\
        forall e2, live w2 p = Some e2 -> Inv g' (dropped p e2 w2) -> Q a (dropped p e2 w2))).
      { intros w3 e3 HI3 Hq3 He3 (Hs3 & Hd3 & Hc3); unfold Abort; change (IsClosed e2) with (IsClosed e1) in Hc3.
        rewrite Hc in Hc3; pose proof (xo_open _ _ _ _ (inv_live _ _ HI3 p e3 He3) Hc3) as Hown.
        eapply (runs_Close_or_Abort (hold p gl) p e3); [done..|cbn; lia|by right|].
        rewrite Hloose2; intros w4 HI4 (C1 & C2 & C3) C4; apply (Hend (disown p g)); [done|].
        split_and!; [intros q Hq; rewrite (proj1 (C1 q Hq)); by apply Hq3|done|by apply C4|].
        change (IsClosed e) with (IsClosed e1); change (IsSendExpected e) with (IsSendExpected e1); by rewrite Hc, Hsend. }
      apply runs_seq, runs_when; intros _; [|by apply (Habort w2 e2)].
      apply runs_seq, runs_modify; set (w3 := set_mResponseTimers (delete p (mResponseTimers w2)) w2).
      eapply (runs_NotifyResponseTimeout_released (hold p gl) p e2); [done|by apply Inv_cancel|done|done| |by left|cbn; lia|].
      * apply lookup_delete_eq.
      * intros w4 e4 HI4 Hq4 He4 Hs4; by apply (Habort w4 e4).
    + eapply (runs_DoClose (hold p gl) p e2); [done|done|exact Hc|done|cbn; lia|by right|].
      rewrite Hloose2; intros w3 HI3 (D1 & (e3 & He3 & Hc3 & _ & _ & Hs3) & _ & D4); apply (Hend g); [done|].
      unfold orphaned; change (IsClosed e) with (IsClosed e1); change (IsSendExpected e) with (IsSendExpected e1).
      rewrite Hsend, orb_true_r; split_and!; [intros q Hq; apply (D1 q Hq)| |done|done|];
        intros e4; rewrite He3; intros [= <-]; [done|by rewrite Hs3].
Qed.

(** ** The wake-up *)

Definition at_rest (g : Ghost) : Prop := g_held g = [] /\ g_hole g = None /\ g_loose g = None.

Lemma runs_send_due_ack g t p e w (Q : unit -> World -> Prop) :
  Inv g w -> live w p = Some e ->
  (forall w', Inv g w' -> (forall q, is_Some (live w q) -> is_Some (live w' q)) -> mRetransTable w' = mRetransTable w ->
     Q tt w') ->
  runs (send_due_ack t p) w Q.
Proof.
  intros HI He HQ; unfold send_due_ack; go; [|by apply HQ].
  eapply runs_ack; [done..|]; intros err w' Ha HI'; apply runs_ret, HQ; [done| |by destruct Ha as (? & _ & _ & Ht & _)].
  intros q [eq Hq]; destruct (decide (q = p)) as [->|Hne].
  - destruct (acked_live p e w w' He Ha) as (e' & ? & _); by exists e'.
  - rewrite (acked_live_ne p e w w' q Ha Hne); by exists eq.
Qed.

Lemma runs_send_due_acks g t l w (Q : unit -> World -> Prop) :
  Inv g w -> (forall p, In p l -> is_Some (live w p)) ->
  (forall w', Inv g w' -> mRetransTable w' = mRetransTable w -> Q tt w') -> runs (for_each l (send_due_ack t)) w Q.
Proof.
  revert w; induction l as [|p l IH]; intros w HI Hl HQ; cbn [for_each]; [by apply runs_ret, HQ|].
  destruct (Hl p (or_introl eq_refl)) as [e He]; apply runs_seq; eapply runs_send_due_ack; [done..|].
  intros w' HI' Hlive Ht; apply IH; [done|intros q Hq; apply Hlive, Hl; by right|].
  intros w2 HI2 Ht2; apply HQ; [done|by rewrite Ht2].
Qed.

(** Entries other than [i] are not touched. *)
Definition others (i : nat) (w w' : World) : Prop := forall j, j <> i -> entry_at w' j = entry_at w j.

Lemma others_put i en w : others i w (put_entry i en w).
Proof. intros j Hj; unfold entry_at, At; cbn; by rewrite list_lookup_insert_ne. Qed.

Lemma others_released i p w w' : released i p w w' -> others i w w'.
Proof. intros (_ & _ & Ht & _) j Hj; unfold entry_at, At; rewrite Ht; by rewrite list_lookup_insert_ne. Qed.

Lemma released_gone i p en w w' : entry_at w i = Some en -> released i p w w' -> entry_at w' i = None.
Proof.
  intros Hi (_ & _ & Ht & _); unfold entry_at; rewrite Ht, At_insert by (by eapply At_range); by rewrite decide_True.
Qed.

(** What a wake-up at [t] does to an entry: nothing when it is not due; else the message
    is sent once more, or the entry is given up. *)
Definition retried (t : Z) (en : RetransTableEntry) (o : option RetransTableEntry) : Prop :=
  if t <? en_nextRetransTime en then o = Some en
  else match o with
       | None => True
       | Some en' => en_sendCount en <> DEFAULT_MAX_RETRANS /\ en_sendCount en' = wrap 8 (en_sendCount en + 1) /\
           en_ec en' = en_ec en /\ en_retainedBuf en' = en_retainedBuf en
       end.

Lemma runs_abandon g i en e s w (Q : unit -> World -> Prop) :
  Inv g w -> entry_at w i = Some en -> live w (en_ec en) = Some e -> mSession e = Some s -> g_hole g = None ->
  (length (g_held g) < 98)%nat -> 
  (forall w', Inv g w' -> others i w w' -> entry_at w' i = None -> Q tt w') -> runs (abandon i s) w Q.
Proof.
  intros HI Hi He Hs Hhole Hl HQ; unfold abandon; apply runs_seq; eapply runs_entry; [exact Hi|].
  eapply runs_with_ref; [done..|lia|]; cbn zeta; set (e1 := set_mRefCount (mRefCount e + 1) e).
  set (w1 := put_exchange (en_ec en) e1 w); intros HI1.
  assert (He1 : live w1 (en_ec en) = Some e1) by (by eapply live_put_same).
  apply runs_seq; eapply runs_exchange; [exact He1|]; apply runs_seq.
  apply runs_mono with (P := fun _ w2 => Inv (hold (en_ec en) g) w2 /\ mRetransTable w2 = mRetransTable w1).
  { apply runs_when; intros _; [|done]; eapply runs_notify; [exact HI1| |by intros w2 ? _ ? _].
    by apply (Inv_known (hold (en_ec en) g) w1 (en_ec en) e1 s HI1 He1). }
  intros _ w2 [HI2 Ht2].
  assert (Hi2 : entry_at w2 i = Some en) by (unfold entry_at; by rewrite Ht2).
  eapply (runs_ReleaseEntry (hold (en_ec en) g)); [exact HI2|exact Hi2|by left|cbn; lia|].
  intros w3 HI3 Hr; exists g; split; [by destruct g; cbn in *; subst|]; intros e3 He3 HI4; apply HQ; [done| |].
  2: { unfold entry_at; rewrite (proj1 (dropped_parts _ _ _)); by eapply released_gone. }
  intros j Hj; unfold entry_at; rewrite (proj1 (dropped_parts _ _ _)).
  change (entry_at w3 j = entry_at w j); rewrite (others_released _ _ _ _ Hr j Hj); unfold entry_at; by rewrite Ht2.
Qed.

Lemma entry_session g i en e w :
  Inv g w -> entry_at w i = Some en -> live w (en_ec en) = Some e -> g_loose g = None -> exists s, mSession e = Some s.
Proof.
  intros HI Hi He Hl; pose proof (entry_entries i en w Hi) as Hpos.
  destruct (xo_session _ _ _ _ (inv_live _ _ HI _ e He) Hpos) as [[s Hs]|]; [by exists s|congruence].
Qed.

Lemma runs_SendFromRetransTable g i en w (Q : CHIP_ERROR -> World -> Prop) :
  Inv g w -> entry_at w i = Some en -> g_hole g = None -> g_loose g = None -> (length (g_held g) < 98)%nat ->
  (forall err w', Inv g w' -> others i w w' ->
     (forall en', entry_at w' i = Some en' -> exists t, en' = set_nextRetransTime t en) -> Q err w') ->
  runs (SendFromRetransTable i) w Q.
Proof.
  intros HI Hi Hhole Hloose Hl HQ; destruct (entry_live g i en w HI Hi) as [e He].
  destruct (entry_session g i en e w HI Hi He Hloose) as [s Hs].
  destruct (inv_buf _ _ HI i en Hi) as [buf Hbuf]; [by rewrite Hhole|].
  unfold SendFromRetransTable; go; rewrite Hs; go.
  apply runs_send; intros err n l; set (w1 := set_mLog l (set_mCalls n w)).
  assert (HI1 : Inv g w1) by (by apply (Inv_same _ w)); apply runs_seq; destruct (no_error _).
  - eapply (runs_Calculate g i en e s w1); [done..|]; intros t m w2 HI2; apply runs_ret, HQ; [done| |].
    + intros j Hj; exact (others_put i _ _ j Hj).
    + unfold w2; intros en'; rewrite (entry_put i i _ en), decide_True by done; intros [= <-]; by exists t.
  - eapply (runs_ClearEntry g i en w1); [done..|by left|lia|]; intros w2 HI2 Hr; apply runs_ret, HQ.
    + by rewrite with_hole_None in HI2.
    + exact (others_released _ _ _ _ Hr).
    + intros en'; by rewrite (released_gone i (en_ec en) en w1 w2 Hi Hr).
Qed.

Lemma runs_retransmit_due g t i en w (Q : unit -> World -> Prop) :
  Inv g w -> entry_at w i = Some en -> at_rest g ->
  (forall w', Inv g w' -> others i w w' -> retried t en (entry_at w' i) -> Q tt w') -> runs (retransmit_due t i) w Q.
Proof.
  intros HI Hi (Hheld & Hhole & Hloose) HQ; unfold retransmit_due; go.
  unfold retried in HQ; destruct (t <? _); [by apply runs_ret, HQ|].
  pose proof (inv_buf _ _ HI i en Hi ltac:(by rewrite Hhole)) as Hbuf.
  go; [by apply bool_decide_eq_true|].
  destruct (entry_live g i en w HI Hi) as [e He]; destruct (entry_session g i en e w HI Hi He Hloose) as [s Hs].
  unfold GetSessionHandle; go; rewrite Hs; go.
  destruct (Z.eqb_spec (en_sendCount en) DEFAULT_MAX_RETRANS) as [|Hmax].
  - eapply (runs_abandon g i en e s); try done; [rewrite Hheld; cbn; lia|].
    intros w' HI' Ho Hn; apply HQ; [done..|by rewrite Hn].
  - go; set (en1 := set_sendCount _ en); set (w1 := put_entry i en1 w).
    assert (Hi1 : entry_at w1 i = Some en1) by (unfold w1; by rewrite (entry_put i i en1 en w Hi), decide_True).
    eapply (runs_SendFromRetransTable g i en1 w1); [|exact Hi1|done|done|rewrite Hheld; cbn; lia|].
    + rewrite <-(with_hole_None g Hhole); apply (Inv_put_entry g i en); try done; by left.
    + intros err w2 HI2 Ho Hen; apply runs_ret, HQ; [done|intros j Hj; rewrite Ho by done; by apply others_put|].
      destruct (entry_at w2 i) as [en'|]; [|done]; by destruct (Hen en' eq_refl) as [t' ->].
Qed.

Lemma runs_retransmits g t l w (Q : unit -> World -> Prop) :
  Inv g w -> at_rest g -> NoDup l -> (forall i, In i l -> is_Some (entry_at w i)) ->
  (forall w', Inv g w' -> (forall i, ~ In i l -> entry_at w' i = entry_at w i) ->
     (forall i en, In i l -> entry_at w i = Some en -> retried t en (entry_at w' i)) -> Q tt w') ->
  runs (for_each l (retransmit_due t)) w Q.
Proof.
  intros HI Hg Hnd; revert w HI; induction l as [|i l IH]; intros w HI Hl HQ; cbn [for_each];
    [by apply runs_ret, HQ|].
  apply list.NoDup_cons in Hnd as [Hni Hnd'].
  destruct (Hl i (or_introl eq_refl)) as [en Hi]; apply runs_seq; eapply runs_retransmit_due; [done..|].
  assert (Hin : ~ In i l) by (by rewrite <-list_elem_of_In).
  intros w' HI' Ho Hr; apply (IH Hnd'); [done| |].
  { intros j Hj; rewrite Ho; [apply Hl; by right|]; congruence. }
  intros w2 HI2 Hout Hall; apply HQ; [done| |].
  - intros j Hj; rewrite Hout, Ho; [done|intros ->; apply Hj; by left|intros H; apply Hj; by right].
  - intros j en' [<-|Hj] Hen'.
    + rewrite Hi in Hen'; injection Hen' as <-; by rewrite Hout.
    + apply Hall; [done|]; rewrite Ho; congruence.
Qed.

Lemma runs_Timeout g w (Q : unit -> World -> Prop) :
  Inv g w -> at_rest g ->
  (forall w', Inv g w' -> (forall i, entry_at w i = None -> entry_at w' i = None) ->
     (forall i en, entry_at w i = Some en -> retried (mNow w) en (entry_at w' i)) -> Q tt w') -> runs Timeout w Q.
Proof.
  intros HI Hg HQ; unfold Timeout, ExecuteActions; go.
  eapply runs_send_due_acks; [done| |].
  { intros p Hp; apply active_indices_spec in Hp as [e He]; by exists e. }
  intros w1 HI1 Ht1; assert (Hen : forall i, entry_at w1 i = entry_at w i) by (intros i; unfold entry_at; by rewrite Ht1).
  go; eapply (runs_retransmits g); [done..|apply active_indices_NoDup| |].
  { intros i Hi; apply active_indices_spec in Hi as [en Hi]; by exists en. }
  intros w2 HI2 Hout Hall; apply runs_StartTimer; intros t n; apply HQ; [by apply (Inv_same _ w2)|..].
  - intros i Hi; rewrite <-Hen in Hi; change (entry_at w2 i = None); rewrite Hout; [done|].
    intros Hin; apply active_indices_spec in Hin as [en Hin]; unfold entry_at in Hi; congruence.
  - intros i en Hi; rewrite <-Hen in Hi; apply Hall; [|done]; apply active_indices_spec; by exists en.
Qed.

End Specs.
