(* ===== verification/ExchangeFrame.v ===== *)
(** * ExchangeFrame: relations that every operation of an exchange manager keeps

    [Framed R]: the preorder [R] is kept by the few kinds of change that the operations of
    Exchange.v are made of; [Sending R]: it is kept by what sends a message and by the
    timer.  Then it is kept by every operation that closes nothing.  [Closing R] adds what
    closing an exchange does. *)

From stdpp Require Import gmap.
From S2P Require Import Prelude Encoding MessageHeader BdxMessages Pool Runs Exchange ExchangeMgr ExchangeRules.

(** A change of something else than the pools, the log, the clock and its timer. *)
Definition still (w w' : World) : Prop :=
  mContextPool w' = mContextPool w /\ mRetransTable w' = mRetransTable w /\ mLog w' = mLog w /\
  mTimer w' = mTimer w /\ mNow w' = mNow w.

Definition is_sent (ev : Event) : bool := match ev with Sent _ _ _ => true | _ => false end.
Definition ack_state (f : Flags) : bool :=
  match f with kFlagAckPending | kFlagAckMessageCounterIsValid => true | _ => false end.

Class Framed (R : World -> World -> Prop) : Prop := {
  fr_pre :: PreOrder R;
  fr_still : forall w w', still w w' -> R w w';
  fr_emit : forall ev w, is_sent ev = false -> R w (set_mLog (mLog w ++ [ev]) w);
  fr_flag : forall p f b w e, f <> kFlagClosed /\ f <> kFlagInitiator -> ack_state f = false -> live w p = Some e ->
    R w (put_exchange p (SetFlag f b e) w);
  fr_refs : forall p v w e, live w p = Some e -> R w (put_exchange p (set_mRefCount v e) w);
  fr_timeout : forall p v w e, live w p = Some e -> R w (put_exchange p (set_mResponseTimeout v e) w);
  fr_free : forall p w e, live w p = Some e -> R w (set_mContextPool (<[p := None]> (mContextPool w)) w);
  fr_free_entry : forall i w en, entry_at w i = Some en -> R w (set_mRetransTable (<[i := None]> (mRetransTable w)) w) }.

Class Sending `{MessagingPlatform} (R : World -> World -> Prop) : Prop := {
  fr_StartTimer : keeps R StartTimer;
  fr_SendMessage_with : forall handled p protocol type payload flags, keeps R handled ->
    keeps R (SendMessage_with handled p protocol type payload flags) }.

Class Closing (R : World -> World -> Prop) : Prop := {
  fr_close : forall p w e, live w p = Some e -> R w (put_exchange p (SetFlag kFlagClosed true e) w);
  fr_delegate : forall p v w e, live w p = Some e -> R w (put_exchange p (set_mDelegate v e) w);
  fr_session : forall p w e, live w p = Some e -> R w (put_exchange p (set_mSession None e) w) }.

(** The relation that carries a property [J] along. *)
Definition upholds (J : World -> Prop) (w w' : World) : Prop := J w -> J w'.
#[export] Instance upholds_preorder J : PreOrder (upholds J).
Proof. split; [by intros w H|intros w1 w2 w3 A B H; by apply B, A]. Qed.

Section Frame.
Context `{MP : MessagingPlatform} `{AP : Application} (R : World -> World -> Prop) {FR : Framed R}.

Lemma frame_edit p f : (forall w e, live w p = Some e -> R w (put_exchange p (f e) w)) -> keeps R (edit p f).
Proof. apply keeps_edit. Qed.

Lemma frame_modify f : (forall w, still w (f w)) -> keeps R (modify f).
Proof. intros H; apply keeps_modify; intros w; by apply fr_still. Qed.

Lemma frame_tick : keeps R tick.
Proof. intros w r w' [= <- <-]; by apply fr_still. Qed.

Lemma frame_emit ev : is_sent ev = false -> keeps R (emit ev).
Proof. intros H; apply keeps_modify; intros w; by apply fr_emit. Qed.

Local Hint Extern 1 (keeps R (edit _ _)) =>
  apply frame_edit; intros; first [by apply fr_flag|by apply fr_refs|by apply fr_timeout] : keeps.
Local Hint Extern 1 (keeps R (modify _)) => apply frame_modify; intros ?; by split_and! : keeps.
Local Hint Extern 1 (keeps R (emit _)) => by apply frame_emit : keeps.
Local Hint Resolve frame_tick : keeps.

(** The operations of the manager that close nothing. *)
Tactic Notation "frame" reference(d) := unfold d; keep; try done.

Lemma frame_Retain p : keeps R (Retain p). Proof. frame Retain. Qed.
Local Hint Resolve frame_Retain : keeps.

Lemma frame_ReleaseContext p : keeps R (ReleaseContext p).
Proof.
  frame ReleaseContext; intros w r w'; unfold Deallocate.
  destruct (At (mContextPool w) p) as [e|] eqn:Ep; [|done]; intros [= <- <-]; by apply (fr_free p w e).
Qed.
Local Hint Resolve frame_ReleaseContext : keeps.

Lemma frame_Release p : keeps R (Release p). Proof. frame Release. Qed.
Local Hint Resolve frame_Release : keeps.
Lemma frame_with_ref {A} p (body : W A) : keeps R body -> keeps R (with_ref p body).
Proof. intros H; frame with_ref. Qed.
Local Hint Resolve frame_with_ref : keeps.

Lemma frame_ReleaseEntry i : keeps R (ReleaseEntry i).
Proof.
  frame ReleaseEntry; intros w r w'; unfold Deallocate.
  destruct (At (mRetransTable w) i) as [en|] eqn:Ei; [|done]; intros [= <- <-]; by apply (fr_free_entry i w en).
Qed.
Local Hint Resolve frame_ReleaseEntry : keeps.
Lemma frame_mark s : keeps R (mark_if_case s). Proof. unfold mark_if_case, MarkAsDefunct; keep. Qed.
Lemma frame_expect p b : keeps R (SetResponseExpected p b). Proof. frame SetResponseExpected. Qed.
Lemma frame_session_handle p : keeps R (GetSessionHandle p). Proof. frame GetSessionHandle. Qed.
Lemma frame_group p : keeps R (IsGroupExchangeContext p). Proof. frame IsGroupExchangeContext. Qed.
Local Hint Resolve frame_mark frame_expect frame_session_handle frame_group : keeps.

Lemma frame_StartResponseTimer p : keeps R (StartResponseTimer p). Proof. frame StartResponseTimer. Qed.
Local Hint Resolve frame_StartResponseTimer : keeps.
Lemma frame_expect_response p : keeps R (expect_response p). Proof. frame expect_response. Qed.
Lemma frame_cancel p : keeps R (CancelResponseTimer p). Proof. frame CancelResponseTimer. Qed.
Local Hint Resolve frame_expect_response frame_cancel : keeps.

(** It is enough that the dispatch of a message, for any session, keeps [R]. *)
Lemma sending_dispatch : keeps R StartTimer ->
  (forall p s rel pr t b, keeps R (Dispatch_SendMessage p s rel pr t b)) -> Sending R.
Proof.
  intros HT HD; split; [done|]; intros; unfold SendMessage_with; keep; apply frame_with_ref; keep.
Qed.

Context {SN : Sending R}.
Local Hint Resolve fr_StartTimer fr_SendMessage_with : keeps.

Lemma frame_ClearEntry i : keeps R (ClearRetransEntry i). Proof. frame ClearRetransEntry. Qed.
Local Hint Resolve frame_ClearEntry : keeps.
Lemma frame_ClearRetransTable p : keeps R (ClearRetransTable p).
Proof. unfold ClearRetransTable; keep; induction (active_indices _); cbn [clear_first]; keep. Qed.
Lemma frame_CheckAndRem p c : keeps R (CheckAndRemRetransTable p c).
Proof. unfold CheckAndRemRetransTable; keep; induction (active_indices _); cbn [remove_acknowledged]; keep. Qed.
Local Hint Resolve frame_ClearRetransTable frame_CheckAndRem : keeps.

Lemma frame_standalone p : keeps R (SendStandaloneAckMessage p).
Proof. unfold SendStandaloneAckMessage; keep; apply fr_SendMessage_with; keep. Qed.
Local Hint Resolve frame_standalone : keeps.
Lemma frame_flush p : keeps R (FlushAcks p). Proof. frame FlushAcks. Qed.
Lemma frame_rcvd p c : keeps R (HandleRcvdAck p c). Proof. frame HandleRcvdAck. Qed.
Local Hint Resolve frame_flush frame_rcvd : keeps.

Lemma frame_abandon i s : keeps R (abandon i s).
Proof. unfold abandon, NotifySessionHang; keep; apply frame_with_ref; keep. Qed.
Lemma frame_Timeout : (forall t i, keeps R (retransmit_due t i)) -> keeps R Timeout.
Proof. intros H; unfold Timeout, ExecuteActions, send_due_ack; keep. Qed.

(** ... and those that do. *)
Context {CL : Closing R}.

Local Hint Extern 1 (keeps R (edit _ _)) =>
  apply frame_edit; intros; first [by apply fr_close|by apply fr_delegate|by apply fr_session] : keeps.

Lemma frame_DoClose p c : keeps R (DoClose p c). Proof. frame DoClose. Qed.
Local Hint Resolve frame_DoClose : keeps.
Lemma frame_Close_or_Abort p c : keeps R (Close_or_Abort p c). Proof. frame Close_or_Abort. Qed.
Local Hint Resolve frame_Close_or_Abort : keeps.
Lemma frame_Close p : keeps R (Close p). Proof. frame Close. Qed.
Lemma frame_Abort p : keeps R (Abort p). Proof. frame Abort. Qed.
Local Hint Resolve frame_Close frame_Abort : keeps.
Lemma frame_MessageHandled p : keeps R (MessageHandled p). Proof. frame MessageHandled. Qed.
Local Hint Resolve frame_MessageHandled : keeps.
Lemma frame_SendMessage p pr t b f : keeps R (SendMessage p pr t b f).
Proof. apply fr_SendMessage_with, frame_MessageHandled. Qed.
Local Hint Resolve frame_SendMessage : keeps.

Lemma frame_run_app p program : keeps R (run_app p program).
Proof. induction program; cbn [run_app]; keep. Qed.
Local Hint Resolve frame_run_app : keeps.

Lemma frame_deliver p h b : keeps R (deliver p h b). Proof. unfold deliver, DefaultOnMessageReceived; keep. Qed.
Local Hint Resolve frame_deliver : keeps.
Lemma frame_HandleMessage p c h d b :
  (NeedsAck h = true -> keeps R (HandleNeedsAck p c d)) -> keeps R (HandleMessage p c h d b).
Proof.
  intros H; unfold HandleMessage, HandleMessage_body, session_allows_mrp, handle_acks; apply frame_with_ref.
  set (m := when (NeedsAck h) _); assert (keeps R m) as Hm; [|clearbody m; keep].
  unfold m; destruct (NeedsAck h); cbn [when]; keep; by apply H.
Qed.

Lemma frame_Notify p b : keeps R (NotifyResponseTimeout p b).
Proof. unfold NotifyResponseTimeout, NotifySessionHang; keep; apply frame_with_ref; keep. Qed.
Local Hint Resolve frame_Notify : keeps.
Lemma frame_HandleResponseTimeout p : keeps R (HandleResponseTimeout p). Proof. frame HandleResponseTimeout. Qed.
Lemma frame_SessionReleased p : keeps R (SessionReleased p).
Proof. unfold SessionReleased, OnSessionReleased; keep; apply frame_with_ref; keep. Qed.

End Frame.

Class Creating `{Application} (R : World -> World -> Prop) : Prop := {
  fr_create : forall exchangeId s se init d eph w p pool,
    CreateObject (mContextPool w) (new_exchange exchangeId s se init d eph) = Some (p, pool) ->
    R w (set_mContextPool pool w) }.

#[export] Hint Extern 1 (keeps _ (edit _ _)) =>
  apply frame_edit; intros; first [by apply fr_flag|by apply fr_refs|by apply fr_timeout
    |by apply fr_close|by apply fr_delegate|by apply fr_session] : keeps.
#[export] Hint Extern 1 (keeps _ (modify _)) => apply frame_modify; [typeclasses eauto|intros ?; by split_and!] : keeps.
#[export] Hint Extern 1 (keeps _ (emit _)) => apply frame_emit; [typeclasses eauto|done] : keeps.
#[export] Hint Resolve frame_tick frame_Retain frame_Release frame_ReleaseEntry frame_ClearEntry frame_mark frame_expect
  frame_session_handle frame_group frame_ClearRetransTable frame_CheckAndRem frame_StartResponseTimer
  frame_expect_response frame_cancel frame_standalone frame_flush frame_rcvd frame_abandon frame_Close_or_Abort
  frame_MessageHandled frame_run_app frame_deliver frame_Notify fr_StartTimer : keeps.

(** ** The manager *)

Section Manager.
Context `{MP : MessagingPlatform} `{AP : Application} (R : World -> World -> Prop).
Context {FR : Framed R} {SN : Sending R} {CL : Closing R}.

Lemma frame_CloseAll d : keeps R (CloseAllContextsForDelegate d).
Proof. unfold CloseAllContextsForDelegate, close_for_delegate; keep; by apply frame_Close. Qed.

(** Every step that makes no exchange, but for the wake-up and the passing of time. *)
Lemma frame_exec_old l :
  match l with Receive _ _ _ _ _ | CallNewContext _ _ _ | Elapse _ | WakeUp => False | _ => True end -> keeps R (exec l).
Proof.
  destruct l; try done; intros _; cbn [exec]; unfold done_after;
    try (apply frame_modify; [typeclasses eauto|intros ?; by split_and!]).
  - by apply frame_HandleResponseTimeout.
  - keep; by apply frame_SendMessage.
  - keep.
  - keep.
  - keep.
  - by apply frame_Close.
  - by apply frame_Abort.
  - apply frame_CloseAll.
  - by apply frame_SessionReleased.
Qed.

Context {CR : Creating R}.

Lemma frame_CreateExchange id s init d eph : keeps R (CreateExchange id s init d eph).
Proof.
  unfold CreateExchange; apply keep_bind; [typeclasses eauto|keep|intros se].
  intros w r w'; unfold bind, get, modify, ret.
  destruct (CreateObject _ _) as [[p pool]|] eqn:E; intros [= <- <-]; [by eapply fr_create|reflexivity].
Qed.
Local Hint Resolve frame_CreateExchange : keeps.

Lemma frame_NewContext s d init : keeps R (NewContext s d init).
Proof. unfold NewContext; keep. Qed.

Lemma frame_find s pk h l : keeps R (find_exchange s pk h l).
Proof. unfold MatchExchange; induction l; cbn [find_exchange]; unfold MatchExchange; keep. Qed.
Local Hint Resolve frame_find : keeps.

Lemma frame_OnMessageReceived pk h s dup payload :
  (forall p d, NeedsAck h = true -> keeps R (HandleNeedsAck p (mMessageCounter pk) d)) ->
  keeps R (OnMessageReceived pk h s dup payload).
Proof.
  intros Hn; assert (HM : forall p d b, keeps R (HandleMessage p (mMessageCounter pk) h d b)).
  { intros p d b; apply frame_HandleMessage; try typeclasses eauto; auto. }
  unfold OnMessageReceived, start_exchange, SendStandaloneAckIfNeeded; keep; by apply frame_Close.
Qed.

(** Every step, but for the wake-up and the passing of time. *)
Lemma frame_exec l :
  match l with
  | Receive pk h _ _ _ => forall p d, NeedsAck h = true -> keeps R (HandleNeedsAck p (mMessageCounter pk) d)
  | _ => True
  end ->
  (forall ms, 0 <= ms -> keeps R (exec (Elapse ms))) -> keeps R (exec WakeUp) ->
  match l with Elapse ms => 0 <= ms | _ => True end -> keeps R (exec l).
Proof.
  intros Hn He Hw Hl; destruct l; try exact Hw; try (by apply He); try (by apply frame_exec_old).
  - cbn [exec]; apply frame_OnMessageReceived; try typeclasses eauto; exact Hn.
  - cbn [exec]; unfold done_after; keep; apply frame_NewContext.
Qed.

End Manager.
