(* ===== verification/ExchangeSafe.v ===== *)
(** * ExchangeSafe: every step of an exchange manager is safe

    - [pool_rel]: no operation but [CreateExchange] makes an exchange, and what it leaves
      alone in the ones there are ([keeps], for every operation);
    - [Safe]: the invariant between two steps; [allowed]: what the users of an exchange
      manager promise, in terms of the references they own;
    - the steps of ExchangeMgr.v keep [Safe]. *)

From stdpp Require Import gmap relations.
From S2P Require Import Prelude Encoding MessageHeader BdxMessages Pool Runs Exchange ExchangeMgr ExchangeRules ExchangeInv ExchangeFrame.

(** ** What the operations leave alone *)

Definition pool_rel (K : Exchange -> Exchange -> Prop) (w w' : World) : Prop :=
  forall q e', live w' q = Some e' -> exists e, live w q = Some e /\ K e e'.

#[export] Instance pool_rel_preorder K `{!PreOrder K} : PreOrder (pool_rel K).
Proof.
  split; [intros w q e He; by exists e|].
  intros w1 w2 w3 A B q e3 He3; destruct (B q e3 He3) as (e2 & He2 & K2).
  destruct (A q e2 He2) as (e1 & He1 & K1); exists e1; split; [done|by transitivity e2].
Qed.

Section PoolRel.
Context `{MP : MessagingPlatform} (K : Exchange -> Exchange -> Prop) {HK : PreOrder K}.
Hypothesis K_flag : forall f b e, f <> kFlagClosed -> K e (SetFlag f b e).
Hypothesis K_refs : forall v e, K e (set_mRefCount v e).
Hypothesis K_counter : forall v e, K e (set_mPendingPeerAckMessageCounter v e).
Hypothesis K_time : forall v e, K e (set_mNextAckTime v e).
Hypothesis K_timeout : forall v e, K e (set_mResponseTimeout v e).

Lemma pool_rel_same w w' : mContextPool w' = mContextPool w -> pool_rel K w w'.
Proof. intros H q e He; unfold live in *; rewrite H in He; by exists e. Qed.

Lemma pool_rel_put p e e' w : live w p = Some e -> K e e' -> pool_rel K w (put_exchange p e' w).
Proof.
  intros He Hk q e2 Hq; rewrite (live_put p q e' e w He) in Hq; case_decide as Hc; [|by exists e2].
  injection Hq as <-; subst q; by exists e.
Qed.

#[local] Instance pool_rel_framed : Framed (pool_rel K).
Proof.
  split; [typeclasses eauto|intros w w' H; by apply pool_rel_same, H|intros; by apply pool_rel_same|..|intros; by apply pool_rel_same];
    intros; [eapply pool_rel_put; [eassumption|destruct_and?; by auto]..|].
  intros q e' Hq; exists e'; split; [|done]; unfold live in *; cbn in Hq.
  rewrite At_insert in Hq by (by eapply At_range); by case_decide.
Qed.

Local Hint Extern 1 (keeps _ (edit _ _)) =>
  apply frame_edit; intros; eapply pool_rel_put; [eassumption|by auto] : keeps.
Local Hint Extern 1 (keeps _ (modify _)) => apply keeps_modify; intros ?; by apply pool_rel_same : keeps.
Local Hint Extern 1 (keeps _ (edit_entry _ _)) => apply keeps_edit_entry; intros; by apply pool_rel_same : keeps.
Local Hint Extern 1 (keeps _ (emit _)) => apply keeps_modify; intros ?; by apply pool_rel_same : keeps.

#[local] Instance pool_rel_sending : Sending (pool_rel K).
Proof.
  assert (HT : keeps (pool_rel K) StartTimer) by (unfold StartTimer; keep).
  apply sending_dispatch; [typeclasses eauto|done|]; intros.
  unfold Dispatch_SendMessage, send_reliably, AddToRetransTable, PrepareAndSendNonMRPMessage, StartRetransmision,
    TakePendingPeerAckMessageCounter, PrepareMessage, SendPreparedMessage, CalculateNextRetransTime, ClearRetransEntry; keep.
Qed.

Lemma pool_rel_needs p c d : keeps (pool_rel K) (HandleNeedsAck p c d).
Proof. unfold HandleNeedsAck, HandleNeedsAckInner, SetPendingPeerAckMessageCounter; keep. Qed.

Lemma pool_rel_Timeout : keeps (pool_rel K) Timeout.
Proof.
  apply frame_Timeout; try typeclasses eauto; intros; unfold retransmit_due, SendFromRetransTable, SendPreparedMessage,
    CalculateNextRetransTime; keep.
Qed.

End PoolRel.

(** ** What is true between two steps *)

Definition rest (owners : gset nat) : Ghost := MkGhost owners [] None None.

(** No exchange made for an acknowledgement is left; what is closed but still owned has
    lost its session. *)
Definition tame (owners : gset nat) (w : World) : Prop :=
  forall p e, live w p = Some e ->
    mDispatch e <> EphemeralExchangeDispatch /\ (IsClosed e = true -> p ∈ owners -> mSession e = None).

Definition Safe (w : World) : Prop := exists owners, Inv (rest owners) w /\ tame owners w.

(** Somebody other than the retransmission table has a reference. *)
Definition owned (w : World) (p : nat) : bool :=
  match live w p with Some e => negb (mRefCount e =? Z.of_nat (entries w p)) | None => false end.

(** What the users of an exchange manager promise. *)
Definition allowed (w : World) (l : Label) : Prop :=
  match l with
  | Elapse ms => 0 <= ms
  | ResponseTimeout p => is_Some (mResponseTimers w !! p)
  | Receive _ _ s _ _ | CallNewContext s _ _ => is_Some (mSessions w !! s)
  | CallSendMessage p _ _ _ _ | CallWillSendMessage p | CallSetResponseTimeout p _ | CallClose p | CallAbort p =>
      owned w p = true
  | CallSetDelegate p delegate => owned w p = true /\ (delegate = None \/ exists e, live w p = Some e /\ IsClosed e = false)
  | ReleaseSession p => exists e s, live w p = Some e /\ mSession e = Some s
  | SessionChanges s se => established se \/ forall p e, live w p = Some e -> mSession e <> Some s
  | SessionGone s => forall p e, live w p = Some e -> mSession e <> Some s
  | WakeUp | CallCloseAll _ | CallRegister _ _ _ | CallUnregister _ _ | CallSetAdditionalMRPBackoffTime _ => True
  end.

Lemma owed_rest owners w p : owed (rest owners) w p = ((if decide (p ∈ owners) then 1 else 0) + entries w p)%nat.
Proof. unfold owed; cbn; lia. Qed.

Lemma owned_own owners w p : Inv (rest owners) w -> owned w p = true -> p ∈ owners /\ exists e, live w p = Some e.
Proof.
  intros HI; unfold owned; destruct (live w p) as [e|] eqn:He; [|done]; intros Ho; split; [|by exists e].
  pose proof (xo_refs _ _ _ _ (inv_live _ _ HI p e He)) as Hr; rewrite owed_rest in Hr.
  case_decide; [done|]; apply negb_true_iff, Z.eqb_neq in Ho; lia.
Qed.

Lemma own_is_owned owners w p : Inv (rest owners) w -> p ∈ owners -> owned w p = true.
Proof.
  intros HI Hp; assert (Ho : owed (rest owners) w p = S (entries w p)) by by rewrite owed_rest, decide_True.
  destruct (owed_live (rest owners) w p HI) as [e He]; [lia|]; unfold owned; rewrite He.
  pose proof (xo_refs _ _ _ _ (inv_live _ _ HI p e He)); apply negb_true_iff, Z.eqb_neq; lia.
Qed.

(** *** Two of the relations [pool_rel] is used with *)

Definition same_dispatch (e e' : Exchange) : Prop := mDispatch e' = mDispatch e.
#[export] Instance same_dispatch_preorder : PreOrder same_dispatch.
Proof. split; [by intros e|intros e1 e2 e3; unfold same_dispatch; congruence]. Qed.

#[export] Instance dispatch_framed : Framed (pool_rel same_dispatch).
Proof. by apply pool_rel_framed; first [typeclasses eauto|intros]. Qed.
#[export] Instance dispatch_sending `{MessagingPlatform} : Sending (pool_rel same_dispatch).
Proof. by apply pool_rel_sending; first [typeclasses eauto|intros]. Qed.
#[export] Instance dispatch_closing : Closing (pool_rel same_dispatch).
Proof. split; intros; (eapply pool_rel_put; [typeclasses eauto|eassumption|done]). Qed.
Lemma dispatch_needs `{MessagingPlatform} p c d : keeps (pool_rel same_dispatch) (HandleNeedsAck p c d).
Proof. by apply pool_rel_needs; first [typeclasses eauto|intros]. Qed.

Definition same_role (e e' : Exchange) : Prop :=
  mDispatch e' = mDispatch e /\ mSession e' = mSession e /\ IsClosed e' = IsClosed e.
#[export] Instance same_role_preorder : PreOrder same_role.
Proof. split; [by intros e|intros e1 e2 e3 (? & ? & ?) (? & ? & ?); split_and!; congruence]. Qed.

Lemma role_flag f b e : f <> kFlagClosed -> same_role e (SetFlag f b e).
Proof. intros Hf; split_and!; try done; apply Has_SetFlag_ne; congruence. Qed.

Lemma tame_role owners w w' : tame owners w -> pool_rel same_role w w' -> tame owners w'.
Proof.
  intros H F p e' He'; destruct (F p e' He') as (e & He & Hd & Hs & Hc).
  rewrite Hd, Hs, Hc; by apply H.
Qed.

Lemma tame_outcome owners p e w g' w' :
  tame owners w -> live w p = Some e -> outcome p e (rest owners) w g' w' -> pool_rel same_dispatch w w' ->
  exists owners', g' = rest owners' /\ tame owners' w'.
Proof.
  intros H He (O1 & O2) F.
  destruct O2 as [[-> O2]|[-> O2]]; [exists owners|exists (owners ∖ {[p]})]; (split; [done|]); intros q e' He';
    destruct (F q e' He') as (e0 & He0 & Hd); rewrite Hd; destruct (H q e0 He0) as [H1 H2]; (split; [done|]);
    destruct (decide (q = p)) as [->|Hne].
  - rewrite He in He0; injection He0 as ->; destruct (O2 e' He') as (-> & _ & ->); done.
  - rewrite O1 in He' by done; rewrite He' in He0; by injection He0 as ->.
  - set_solver.
  - rewrite O1 in He' by done; rewrite He' in He0; injection He0 as ->; set_solver.
Qed.

(** ** Making an exchange *)

Lemma Inv_create g w x p pool :
  Inv g w -> CreateObject (mContextPool w) x = Some (p, pool) ->
  mRefCount x = 1 -> IsClosed x = false -> IsWaitingForAck x = false -> Has x kFlagIgnoreSessionRelease = false ->
  (forall s, mSession x = Some s -> exists se, mSessions w !! s = Some se /\ established se) ->
  let w' := set_mContextPool pool w in
  Inv (own p g) w' /\ live w' p = Some x /\ live w p = None /\ forall q, q <> p -> live w' q = live w q.
Proof.
  intros HI Hc Hr Hcl Hw Hk Hs; unfold CreateObject in Hc.
  destruct (Allocate (mContextPool w)) as [i|] eqn:Ha; [|done]; cbn in Hc; injection Hc as -> <-.
  destruct (Allocate_free _ _ Ha) as [Hi Hfree]; set (w' := set_mContextPool _ w).
  assert (Hlive : forall q, live w' q = if decide (p = q) then Some x else live w q) by (intros q; by apply At_insert).
  destruct (inv_free _ _ HI p Hfree) as [Hz Ht].
  assert (Ho : forall q, owed (own p g) w' q = (owed g w q + (if decide (p = q) then 1 else 0))%nat).
  { intros q; unfold owed in *; cbn [g_own g_held own]; change (entries w' q) with (entries w q).
    destruct (decide (p ∈ g_own g)), (decide (p = q)), (decide (q ∈ {[p]} ∪ g_own g)), (decide (q ∈ g_own g));
      first [lia|set_solver]. }
  assert (Hent : entries w p = 0%nat) by (unfold owed in Hz; lia).
  split_and!; [|by rewrite Hlive, decide_True|exact Hfree|intros q Hq; rewrite Hlive, decide_False; done].
  destruct HI as [H1 H2 H3 H4]; split; [| |done|done].
  - intros q e; rewrite Hlive; case_decide as Hq; [intros [= <-]; subst q|intros He].
    + split; rewrite ?Ho, ?decide_True by done; change (entries w' p) with (entries w p); rewrite ?Hent, ?Hz; try done.
      * lia.
      * lia.
      * lia.
      * intros _; by apply elem_of_union_l, elem_of_singleton_2.
      * congruence.
      * change (is_Some (mResponseTimers w !! p) -> p ∈ g_own (own p g) /\ IsResponseExpected x = true /\
          (IsClosed x = false \/ g_loose g = Some p)); rewrite Ht; by intros [].
    + destruct (H1 q e He); split; rewrite ?Ho, ?decide_False, ?Nat.add_0_r by done; try done.
      * intros Hq'; by apply elem_of_union_r, xo_open.
      * intros Hq'; destruct (xo_timer Hq') as (? & ?); split; [by apply elem_of_union_r|done].
  - intros q; rewrite Hlive; case_decide as Hq; [done|]; intros He; rewrite Ho, decide_False, Nat.add_0_r by done.
    by apply H2.
Qed.

(** A new exchange that is not ephemeral. *)
Lemma tame_create owners p x w w' :
  tame owners w -> live w' p = Some x -> (forall q, q <> p -> live w' q = live w q) ->
  mDispatch x <> EphemeralExchangeDispatch -> IsClosed x = false -> tame ({[p]} ∪ owners) w'.
Proof.
  intros H Hx Hq Hd Hc q e He; destruct (decide (q = p)) as [->|Hne].
  - rewrite Hx in He; injection He as <-; split; [done|congruence].
  - rewrite Hq in He by done; destruct (H q e He); split; [done|]; set_solver.
Qed.

Section Safety.
Context `{MP : MessagingPlatform} `{AP : Application}.
Context (wake_timers : forall n, StartWakeTimer_result n = CHIP_NO_ERROR).
Context (dispatches : forall d, GetMessageDispatch_of d <> EphemeralExchangeDispatch).
Context (leave_open : forall n d, leaves_open (OnResponseTimeout_of n d)).

Lemma Has_zero f x : mFlags x = 0 -> Has x f = false.
Proof. intros E; unfold Has; rewrite E; by destruct f. Qed.

Lemma new_exchange_flags id s se init d eph :
  let x := new_exchange id s se init d eph in
  IsClosed x = false /\ IsWaitingForAck x = false /\ IsResponseExpected x = false /\ IsAckPending x = false /\
  Has x kFlagIgnoreSessionRelease = false /\ IsSendExpected x = init && negb eph.
Proof.
  cbn zeta; unfold new_exchange; destruct (init && negb eph); flags; rewrite !Has_zero by done; done.
Qed.

Lemma active_established se : IsActiveSession se = true -> established se.
Proof.
  unfold IsActiveSession, established; intros H Hs; rewrite Hs in H; cbn in H.
  apply bool_decide_eq_true in H; by rewrite H.
Qed.

(** [CreateExchange] for an active session. *)
Lemma runs_CreateExchange g id s se init d eph w (Q : option nat -> World -> Prop) :
  Inv g w -> mSessions w !! s = Some se -> Q None w ->
  (forall p w', let x := new_exchange id s se init d eph in
     Inv (own p g) w' -> live w' p = Some x -> live w p = None -> (forall q, q <> p -> live w' q = live w q) ->
     mSessions w' = mSessions w -> mRetransTable w' = mRetransTable w -> Q (Some p) w') ->
  runs (CreateExchange id s init d eph) w Q.
Proof.
  intros HI Hse Hnone HQ; unfold CreateExchange; go; set (x := new_exchange id s se init d eph).
  pose proof (new_exchange_flags id s se init d eph) as (F1 & F2 & _ & _ & F5 & _).
  destruct (CreateObject (mContextPool w) x) as [[p pool]|] eqn:Hc; [go|by apply runs_ret].
  destruct (Inv_create g w x p pool HI Hc) as (HI' & Hx & Hn & Hq); try done.
  { unfold x, new_exchange; by destruct (init && negb eph). }
  { unfold x, new_exchange; intros s'; destruct (init && negb eph); cbn; destruct (IsActiveSession se) eqn:Ha; try done;
      intros [= <-]; exists se; (split; [done|by apply active_established]). }
  by apply HQ.
Qed.

Lemma new_session id s se init d eph :
  mSession (new_exchange id s se init d eph) = if IsActiveSession se then Some s else None.
Proof. unfold new_exchange; by destruct (init && negb eph). Qed.
Lemma new_dispatch id s se init d eph :
  mDispatch (new_exchange id s se init d eph) = GetMessageDispatch eph d.
Proof. unfold new_exchange; by destruct (init && negb eph). Qed.
Lemma new_delegate id s se init d eph : mDelegate (new_exchange id s se init d eph) = d.
Proof. unfold new_exchange; by destruct (init && negb eph). Qed.
Lemma new_refs id s se init d eph : mRefCount (new_exchange id s se init d eph) = 1.
Proof. unfold new_exchange; by destruct (init && negb eph). Qed.

Lemma dispatch_ok d : GetMessageDispatch false d <> EphemeralExchangeDispatch.
Proof. destruct d; [apply dispatches|done]. Qed.

Lemma own_rest p owners : own p (rest owners) = rest ({[p]} ∪ owners).
Proof. done. Qed.

(** One step of an exchange that is there. *)
Lemma runs_step {A} (m : W A) owners p e w :
  Inv (rest owners) w -> tame owners w -> live w p = Some e -> keeps (pool_rel same_dispatch) m ->
  (forall Q : A -> World -> Prop, (forall a g' w', Inv g' w' -> outcome p e (rest owners) w g' w' -> Q a w') -> runs m w Q) ->
  runs m w (fun _ w' => exists owners', Inv (rest owners') w' /\ tame owners' w' /\
    forall q, q <> p -> live w' q = live w q).
Proof.
  intros HI Ht He Hk Hm.
  eapply runs_mono; [apply (keeps_runs _ m w (fun _ w' => exists g', Inv g' w' /\ outcome p e (rest owners) w g' w') Hk)|].
  - apply Hm; eauto.
  - intros a w' ((g' & HI' & Ho) & F); destruct (tame_outcome owners p e w g' w' Ht He Ho F) as (owners' & -> & Ht').
    exists owners'; split_and!; try done; apply Ho.
Qed.

Lemma step_safe {A} (m : W A) p w :
  runs m w (fun _ w' => exists owners', Inv (rest owners') w' /\ tame owners' w' /\
    forall q, q <> p -> live w' q = live w q) -> runs m w (fun _ w' => Safe w').
Proof. intros H; eapply runs_mono; [exact H|]; intros a w' (o & HI & Ht & _); by exists o. Qed.

(** [Close] and [Abort] by the owner. *)
Lemma runs_close owners p e clear w :
  Inv (rest owners) w -> tame owners w -> live w p = Some e -> p ∈ owners ->
  runs (Close_or_Abort p clear) w (fun _ w' => exists owners', Inv (rest owners') w' /\ tame owners' w' /\
    forall q, q <> p -> live w' q = live w q).
Proof.
  intros HI Ht He Hp; eapply runs_step; [done..|apply frame_Close_or_Abort; typeclasses eauto|].
  intros Q HQ; eapply (runs_Close_or_Abort wake_timers); [exact HI|done|done|done|cbn; lia|by left|].
  intros w' HI' (C1 & C2 & _) _; eapply HQ; [done|]; split; [intros q Hq; by apply C1|by right].
Qed.

(** The exchange made for an acknowledgement is gone when it has been sent. *)
Lemma runs_SendStandaloneAckIfNeeded owners counter header s se dup payload w :
  Inv (rest owners) w -> tame owners w -> mSessions w !! s = Some se -> IsActiveSession se = true ->
  runs (SendStandaloneAckIfNeeded counter header s dup payload) w (fun _ w' => Inv (rest owners) w' /\ tame owners w').
Proof.
  intros HI Ht Hse Ha; unfold SendStandaloneAckIfNeeded; go; destruct (_ || _); [by apply runs_ret|].
  apply runs_seq; eapply runs_CreateExchange; [done..|].
  intros p w1 x HI1 Hx Hn Hq Hss Hrt.
  pose proof (new_exchange_flags (mExchangeID header) s se (negb (MessageHeader.IsInitiator header)) None true)
    as (F1 & _ & F3 & _ & _ & F6); fold x in F1, F3, F6.
  destruct (inv_free _ _ HI p Hn) as [Hz _]; rewrite owed_rest in Hz.
  assert (Hent : entries w1 p = 0%nat) by (unfold entries in *; rewrite Hrt; lia).
  assert (Hnp : p ∉ owners) by (case_decide; [lia|done]).
  apply runs_seq; eapply (runs_HandleMessage wake_timers (own p (rest owners)) p x s);
    [done|done|by unfold x; rewrite new_session, Ha|done|cbn; lia|done|].
  intros err g' w' HI' (O1 & O2) _ Hidle; apply runs_ret.
  assert (Hgone : live w' p = None).
  { apply Hidle; split_and!; try done; [unfold x; apply new_delegate|by rewrite F6, andb_false_r|by intros []]. }
  assert (g' = rest owners) as ->.
  { destruct O2 as [[-> _]|[-> _]].
    - exfalso; destruct (inv_free _ _ HI' p Hgone) as [Hz' _]; rewrite own_rest, owed_rest in Hz'.
      case_decide; [lia|set_solver].
    - rewrite own_rest; unfold disown, rest; cbn; f_equal; apply leibniz_equiv; set_solver. }
  split; [done|]; intros q e He; destruct (decide (q = p)) as [->|Hne]; [congruence|].
  rewrite O1, Hq in He by done; by apply Ht.
Qed.

Lemma runs_Close_fresh p e w (Q : unit -> World -> Prop) :
  live w p = Some e -> mRefCount e = 1 -> IsClosed e = false -> IsAckPending e = false ->
  IsResponseExpected e = false ->
  (forall w', mSessions w' = mSessions w -> Q tt w') -> runs (Close p) w Q.
Proof.
  intros He Hr Hc Ha Hx HQ; unfold Close, Close_or_Abort, DoClose, FlushAcks.
  apply runs_seq; eapply runs_exchange; [done|]; apply runs_seq, runs_die; [by rewrite Hr|].
  apply runs_seq, runs_seq; eapply runs_exchange; [done|]; rewrite Hc; apply runs_seq; eapply runs_edit; [done|].
  set (e1 := SetFlag kFlagClosed true e).
  assert (He1 : live (put_exchange p e1 w) p = Some e1) by (by eapply live_put_same).
  apply runs_seq, runs_mono with (P := fun _ w1 => exists l, w1 = set_mLog l (put_exchange p e1 w)).
  { destruct (mDelegate e); go; [by eexists|exists (mLog w); by destruct w]. }
  intros _ w1 [l ->]; apply runs_seq; eapply runs_edit; [exact He1|].
  set (e2 := set_mDelegate None e1); set (w2 := put_exchange p e2 _).
  assert (He2 : live w2 p = Some e2) by (by eapply (live_put_same p e2 e1 (set_mLog l (put_exchange p e1 w)))).
  assert (Hf : IsAckPending e2 = false /\ IsResponseExpected e2 = false /\ IsClosed e2 = true)
    by (unfold e2, e1; by flags).
  destruct Hf as (F1 & F2 & F3); go; rewrite F1; go; [congruence..|].
  assert (Hr2 : mRefCount e2 = 1) by done.
  eapply (runs_Release p e2); [done|by rewrite Hr2|done|].
  apply HQ; by rewrite (proj1 (proj2 (dropped_parts p e2 w2))).
Qed.

Lemma runs_find_exchange owners s packetHeader header l w (Q : option nat -> World -> Prop) :
  tame owners w -> (forall p, In p l -> is_Some (live w p)) -> Q None w ->
  (forall p e, live w p = Some e -> mSession e = Some s -> Q (Some p) w) ->
  runs (find_exchange s packetHeader header l) w Q.
Proof.
  intros Ht Hl Hnone HQ; induction l as [|p l IH]; cbn [find_exchange]; [by apply runs_ret|].
  destruct (Hl p (or_introl eq_refl)) as [e He]; go.
  assert (Hrest : runs (find_exchange s packetHeader header l) w Q) by (apply IH; intros q Hq; apply Hl; by right).
  unfold MatchExchange; destruct (_ && _) eqn:Hm; [|by apply runs_ret].
  apply andb_true_iff in Hm as [_ Hs%bool_decide_eq_true].
  destruct (mDispatch e) eqn:Ed; cbn [IsEncryptionRequired]; [by destruct (Ht p e He)|..];
    apply runs_ret; destruct (_ && _); try done; apply runs_ret; by eapply HQ.
Qed.

Lemma safe_pair {A} (m : W A) owners w :
  runs m w (fun _ w' => Inv (rest owners) w' /\ tame owners w') -> runs m w (fun _ w' => Safe w').
Proof. intros H; eapply runs_mono; [exact H|]; intros a w' []; by exists owners. Qed.

Lemma runs_safe_message owners p e s counter header dup payload w :
  Inv (rest owners) w -> tame owners w -> live w p = Some e -> mSession e = Some s ->
  runs (HandleMessage p counter header dup payload) w (fun _ w' => Safe w').
Proof.
  intros HI Ht He Hs; eapply step_safe, runs_step; [done..|apply frame_HandleMessage; try typeclasses eauto; intros; apply dispatch_needs|].
  intros Q HQ; eapply (runs_HandleMessage wake_timers (rest owners)); [done..|cbn; lia|done|eauto].
Qed.

Lemma runs_start_exchange owners handler packetHeader header s se dup payload w :
  Inv (rest owners) w -> tame owners w -> mSessions w !! s = Some se -> IsActiveSession se = true ->
  runs (start_exchange handler packetHeader header s dup payload) w (fun _ w' => Safe w').
Proof.
  intros HI Ht Hse Ha; unfold start_exchange; go; set (w0 := set_mCalls _ w).
  assert (HI0 : Inv (rest owners) w0) by (by apply (Inv_same _ w)).
  destruct (OnUnsolicitedMessageReceived _ _ _ _) as [delegate|err].
  2: { eapply safe_pair, runs_SendStandaloneAckIfNeeded; done. }
  apply runs_seq; eapply runs_CreateExchange; [done..| |].
  { assert (Safe w0) by (by exists owners); destruct delegate; go; [|done].
    exists owners; split; [by apply (Inv_same _ w0)|done]. }
  intros p w1 x HI1 Hx Hn Hq Hss Hrt.
  pose proof (new_exchange_flags (mExchangeID header) s se false delegate false) as (F1 & _ & F3 & F4 & _).
  fold x in F1, F3, F4.
  assert (Ht1 : tame ({[p]} ∪ owners) w1).
  { eapply (tame_create owners p x w0); try done; unfold x; rewrite new_dispatch; apply dispatch_ok. }
  go; destruct (IsEncryptionRequired (mDispatch x)) as [required|] eqn:Er.
  2: { unfold x in Er; rewrite new_dispatch in Er; pose proof (dispatch_ok delegate).
       by destruct (GetMessageDispatch false delegate). }
  assert (Hsx : mSession x = Some s) by (unfold x; by rewrite new_session, Ha).
  destruct (negb _); [|go; by eapply runs_safe_message].
  apply runs_seq; eapply runs_mono; [apply runs_both; [|eapply (runs_close ({[p]} ∪ owners)); [done..|set_solver]]|].
  - eapply (runs_Close_fresh p x w1 (fun _ w2 => mSessions w2 = mSessions w1)); try done; apply new_refs.
  - intros _ w2 (Hss2 & o2 & HI2 & Ht2 & _); eapply safe_pair, runs_SendStandaloneAckIfNeeded; try done.
    by rewrite Hss2, Hss.
Qed.

Lemma runs_OnMessageReceived owners packetHeader header s dup payload w :
  Inv (rest owners) w -> tame owners w -> is_Some (mSessions w !! s) ->
  runs (OnMessageReceived packetHeader header s dup payload) w (fun _ w' => Safe w').
Proof.
  intros HI Ht [se Hse]; unfold OnMessageReceived; go.
  assert (Hsafe : Safe w) by (by exists owners).
  apply runs_mono with (P := fun found w1 => w1 = w /\
    match found with Some p => exists e, live w p = Some e /\ mSession e = Some s | None => True end).
  { destruct (IsGroupSession packetHeader); [by apply runs_ret|].
    eapply runs_find_exchange; [exact Ht| |done|intros p e; eauto].
    intros p Hp; apply active_indices_spec in Hp as [e He]; by exists e. }
  intros [p|] w1 [-> Hp]; [destruct Hp as (e & He & Hs); go; by eapply runs_safe_message|].
  go; destruct (IsActiveSession se) eqn:Ha; [|by apply runs_ret].
  assert (Hack : runs (SendStandaloneAckIfNeeded (mMessageCounter packetHeader) header s dup payload) w (fun _ w' => Safe w'))
    by (by eapply safe_pair, runs_SendStandaloneAckIfNeeded).
  cbn [negb]; destruct (_ && _); [|by destruct (negb _); [apply runs_ret|]].
  destruct (find_handler _ _ _); [|done]; by eapply runs_start_exchange.
Qed.

Lemma runs_NewContext owners s delegate init w :
  Inv (rest owners) w -> tame owners w -> is_Some (mSessions w !! s) ->
  runs (NewContext s delegate init) w (fun _ w' => Safe w').
Proof.
  intros HI Ht [se Hse]; unfold NewContext; go; assert (Hsafe : Safe w) by (by exists owners).
  destruct (negb _); [by apply runs_ret|]; go; set (w1 := set_mNextExchangeId _ w).
  assert (HI1 : Inv (rest owners) w1) by (by apply (Inv_same _ w)).
  eapply runs_CreateExchange; [done..|by exists owners|].
  intros p w2 x HI2 Hx Hn Hq _ _; exists ({[p]} ∪ owners); split; [done|].
  eapply (tame_create owners p x w1); try done; [unfold x; rewrite new_dispatch; apply dispatch_ok|].
  by apply new_exchange_flags.
Qed.

(** The steps that are one call on an exchange. *)
Lemma runs_edit_safe owners p e f w :
  tame owners w -> live w p = Some e -> Inv (rest owners) (put_exchange p (f e) w) -> same_role e (f e) ->
  runs (edit p f) w (fun _ w' => Safe w').
Proof.
  intros Ht He HI Hr; eapply runs_edit; [done|]; exists owners; split; [done|].
  eapply tame_role; [done|]; by eapply pool_rel_put; [typeclasses eauto|..].
Qed.

Lemma runs_CloseAll owners delegate l w :
  Inv (rest owners) w -> tame owners w -> NoDup l -> (forall p, In p l -> is_Some (live w p)) ->
  runs (for_each l (close_for_delegate delegate)) w (fun _ w' => Safe w').
Proof.
  revert owners w; induction l as [|p l IH]; intros owners w HI Ht Hnd Hl; cbn [for_each]; [apply runs_ret; by exists owners|].
  inversion_clear Hnd as [|? ? Hni Hnd']; destruct (Hl p (or_introl eq_refl)) as [e He].
  assert (Hl' : forall w', (forall q, q <> p -> live w' q = live w q) -> forall q, In q l -> is_Some (live w' q)).
  { intros w' Hq q Hin; rewrite Hq; [apply Hl; by right|]; intros ->; by apply Hni, list_elem_of_In. }
  unfold close_for_delegate at 1; go; [|by apply (IH owners); try done; by apply Hl'].
  apply bool_decide_eq_true in Hc as Hd.
  pose proof (inv_live _ _ HI p e He) as Hok; assert (Hcl : IsClosed e = false).
  { destruct (IsClosed e) eqn:Ec; [|done]; destruct (xo_delegate _ _ _ _ Hok Ec); [congruence|done]. }
  set (e1 := set_mDelegate None e); set (w1 := put_exchange p e1 w).
  assert (HI1 : Inv (rest owners) w1).
  { eapply Inv_put; [done..|]; destruct Hok; split; try done; by left. }
  assert (Ht1 : tame owners w1).
  { eapply tame_role; [exact Ht|]; by eapply pool_rel_put; [typeclasses eauto|..]. }
  assert (He1 : live w1 p = Some e1) by (by eapply live_put_same).
  eapply runs_mono; [eapply (runs_close owners p e1 false w1); [done..|by apply (xo_open _ _ _ _ Hok)]|].
  intros _ w2 (o2 & HI2 & Ht2 & Hq2); apply (IH o2); try done; apply Hl'; intros q Hq.
  rewrite Hq2 by done; by apply live_put_ne.
Qed.

(** ** Every step *)

Lemma runs_exec w l : Safe w -> allowed w l -> runs (exec l) w (fun _ w' => Safe w').
Proof.
  intros (owners & HI & Ht) Hl.
  assert (Hsame : forall w', same_parts w w' -> Safe w').
  { intros w' Hw; exists owners; split; [by apply (Inv_same _ w)|]; intros p e He; apply (Ht p).
    unfold live in *; by rewrite <-(proj1 Hw). }
  assert (Hown : forall p, owned w p = true -> p ∈ owners /\ exists e, live w p = Some e)
    by (intros p; by apply owned_own).
  destruct l; cbn [exec allowed] in *.
  - apply runs_modify, Hsame; by destruct w.
  - apply runs_seq, runs_modify; set (w1 := set_mTimer None w).
    assert (HI1 : Inv (rest owners) w1) by (by apply (Inv_same _ w)).
    eapply runs_mono; [apply (keeps_runs (pool_rel same_role) Timeout w1 (fun _ w' => Inv (rest owners) w'))|].
    + by apply pool_rel_Timeout; first [typeclasses eauto|apply role_flag|intros].
    + by eapply (runs_Timeout wake_timers (rest owners)).
    + intros _ w' [HI' F]; exists owners; split; [done|]; by eapply (tame_role owners w1).
  - destruct (live w p) as [e|] eqn:He; [|by rewrite (proj2 (inv_free _ _ HI p He)) in Hl; destruct Hl].
    eapply step_safe, runs_step; [done..|apply frame_HandleResponseTimeout; typeclasses eauto|].
    intros Q HQ; eapply (runs_HandleResponseTimeout wake_timers (rest owners)); [done..|cbn; lia|done|eauto].
  - by eapply runs_OnMessageReceived.
  - apply runs_seq; eapply runs_mono; [by eapply runs_NewContext|]; by intros.
  - destruct (Hown p Hl) as (Hp & e & He); apply runs_seq; eapply runs_mono;
      [eapply step_safe, (runs_step _ owners p e w); [done..|apply frame_SendMessage; typeclasses eauto|]|by intros].
    intros Q HQ; eapply (runs_SendMessage wake_timers (rest owners)); [done..|cbn; lia| |eauto].
    destruct (IsClosed e) eqn:Hc; [left|by right]; by apply (Ht p e).
  - destruct (Hown p Hl) as (Hp & e & He); eapply runs_edit_safe; [done..| |by apply role_flag].
    eapply Inv_edit_flag; [done..|cbn; intuition discriminate].
  - destruct (Hown p Hl) as (Hp & e & He); eapply runs_edit_safe; [done..|by apply Inv_edit_timeout|done].
  - destruct Hl as [Hl Hd]; destruct (Hown p Hl) as (Hp & e & He); eapply runs_edit_safe; [done..| |done].
    eapply Inv_put; [done..|]; destruct (inv_live _ _ HI p e He); split; try done; intros Hc.
    destruct Hd as [->|(e' & He' & Hc')]; [by left|]; rewrite He in He'; injection He' as <-.
    change (IsClosed e = true) in Hc; congruence.
  - destruct (Hown p Hl) as (Hp & e & He); eapply step_safe; by eapply runs_close.
  - destruct (Hown p Hl) as (Hp & e & He); eapply step_safe; by eapply runs_close.
  - unfold CloseAllContextsForDelegate; go; eapply runs_CloseAll; [done..|apply active_indices_NoDup|].
    intros p Hp; apply active_indices_spec in Hp as [e He]; by exists e.
  - destruct Hl as (e & s & He & Hs).
    eapply runs_mono; [apply (keeps_runs (pool_rel same_dispatch) _ w (fun _ w' => exists g', Inv g' w' /\
      orphaned p e (rest owners) w g' w')); [apply frame_SessionReleased; typeclasses eauto|]|].
    + eapply (runs_SessionReleased wake_timers (rest owners)); [done..|cbn; lia|done|eauto].
    + intros _ w' ((g' & HI' & O1 & O2 & _ & O3) & F).
      assert (exists owners', g' = rest owners' /\ owners' ⊆ owners /\
        (forall e', live w' p = Some e' -> p ∈ owners' -> mSession e' = None)) as (owners' & -> & Hsub & Hp).
      { destruct (_ || _); [destruct O3 as [-> O3]; exists owners; split_and!; [done|set_solver|eauto]|subst g'].
        exists (owners ∖ {[p]}); split_and!; [done|set_solver|set_solver]. }
      exists owners'; split; [done|]; intros q e' He'; destruct (F q e' He') as (e0 & He0 & Hd); rewrite Hd.
      destruct (Ht q e0 He0) as [T1 T2]; split; [done|]; intros Hc Hq; destruct (decide (q = p)) as [->|Hne]; [eauto|].
      rewrite O1, He0 in He' by done; injection He' as <-; apply T2; [done|by apply Hsub].
  - apply runs_modify; exists owners; split; [|done]; destruct HI as [H1 H2 H3 H4]; split; [|done..].
    intros p e He; destruct (H1 p e He); split; try done; intros s' Hs'; destruct (decide (s = s')) as [<-|Hne].
    + exists se; split; [apply lookup_insert_eq|]; destruct Hl as [|Hn]; [done|by destruct (Hn p e He)].
    + cbn; rewrite lookup_insert_ne by done; eauto.
  - apply runs_modify; exists owners; split; [|done]; destruct HI as [H1 H2 H3 H4]; split; [|done..].
    intros p e He; destruct (H1 p e He); split; try done; intros s' Hs'; cbn; rewrite lookup_delete_ne; [eauto|].
    intros <-; by apply (Hl p e He).
  - apply runs_modify, Hsame; by destruct w.
  - apply runs_modify, Hsame; by destruct w.
  - apply runs_modify, Hsame; by destruct w.
Qed.

Lemma new_manager_safe t id sessions : Safe (new_manager t id sessions).
Proof.
  assert (Hlive : forall p, live (new_manager t id sessions) p = None).
  { intros p; unfold live, At; cbn [mContextPool new_manager]; destruct (_ !! p) eqn:E; [|done].
    by apply lookup_replicate in E as [-> _]. }
  exists ∅; split; [|intros p e; by rewrite Hlive]; split.
  - intros p e; by rewrite Hlive.
  - intros p _; split; [|done]; rewrite owed_rest, decide_False by set_solver; done.
  - intros i en; unfold entry_at, At; cbn [mRetransTable new_manager]; destruct (_ !! i) eqn:E; [|done].
    by apply lookup_replicate in E as [-> _].
  - cbn; lia.
Qed.
End Safety.
