(* ===== verification/ExchangeReach.v ===== *)
(** * ExchangeReach: what holds of an exchange manager at any time

    - [reachable]: the states an exchange manager can be in, after any steps its users
      are allowed to make;
    - every further step comes to its end, and the reference counts are right;
    - a platform and an application to run the model with. *)

From stdpp Require Import gmap.
From S2P Require Import Prelude Encoding MessageHeader BdxMessages Pool Runs Exchange ExchangeMgr ExchangeRules ExchangeInv ExchangeSafe.

Section Reachable.
Context `{MP : MessagingPlatform} `{AP : Application}.

Inductive reachable : World -> Prop :=
| reach_new t exchangeId sessions : reachable (new_manager t exchangeId sessions)
| reach_step w l w' : reachable w -> allowed w l -> exec l w = (Ok tt, w') -> reachable w'.

(** What an application must not do: hand out the dispatch of the manager's own
    exchanges, or close or abort an exchange while it is told of its time-out
    ([ExchangeDelegate::OnResponseTimeout]). *)
Definition well_behaved : Prop :=
  (forall d, GetMessageDispatch_of d <> EphemeralExchangeDispatch) /\ forall n d, leaves_open (OnResponseTimeout_of n d).
Definition timer_starts : Prop := forall n, StartWakeTimer_result n = CHIP_NO_ERROR.

Lemma reachable_safe w : timer_starts -> well_behaved -> reachable w -> Safe w.
Proof.
  intros Ht [Hd Ho] H; induction H as [t id ss|w0 l w' H IH Hl E]; [by apply new_manager_safe|].
  pose proof (runs_exec Ht Hd Ho w0 l IH Hl) as Hr; unfold runs in Hr; by rewrite E in Hr.
Qed.

(** C5: however messages, time-outs, released sessions and calls of the application are
    interleaved, whatever the transport and the allocator answer, and whatever the
    delegates do within the limits below, the exchange manager never follows a pointer to
    an exchange, retransmission entry or session that is gone, and no [VerifyOrDie] of it
    ever fails: each step comes to its end.

    The limits: the system layer can start the wake-up timer, else the code stops the
    program itself ([timer_starts]). A delegate acts on its own exchange only, and does
    not close or abort it while it is told of its time-out ([well_behaved]). And a caller
    uses an exchange only while the exchange manager keeps its reference, and a session
    while it is kept ([allowed]). Such a caller does more than follow ExchangeDelegate.h:
    a delegate that announces a message when it is told of a time-out owes a call of
    Close, and after the release of the session that call finds the exchange gone
    ([late_announcement_dangles]). *)
Theorem reachable_steps_run (w : World) (l : Label) :
  timer_starts -> well_behaved -> reachable w -> allowed w l -> exists w', exec l w = (Ok tt, w').
Proof.
  intros Ht Hb Hr Hl; destruct Hb as [Hd Ho].
  pose proof (runs_exec Ht Hd Ho w l (reachable_safe w Ht (conj Hd Ho) Hr) Hl) as H.
  apply runs_inv in H as ([] & w' & E & _); by exists w'.
Qed.

(** C6: between two steps the reference count of every exchange is the number of its
    entries in the retransmission table, of which there is at most one, and one more for
    an owner; it is waiting for an acknowledgement exactly if there is an entry; an entry
    has its message, and its exchange is in use and has its session; a response timer
    runs only for an open exchange that expects a response; a closed exchange has no
    delegate, and one that is open has an owner. *)
Theorem references_balance (w : World) :
  timer_starts -> well_behaved -> reachable w ->
  (forall p e, live w p = Some e ->
     mRefCount e = Z.of_nat (entries w p) + (if owned w p then 1 else 0) /\ 0 < mRefCount e /\
     (entries w p <= 1)%nat /\ IsWaitingForAck e = (0 <? entries w p)%nat /\
     (IsClosed e = true -> mDelegate e = None) /\ (IsClosed e = false -> owned w p = true)) /\
  (forall i en, entry_at w i = Some en -> is_Some (en_retainedBuf en) /\
     exists e, live w (en_ec en) = Some e /\ is_Some (mSession e)) /\
  (forall p, is_Some (mResponseTimers w !! p) ->
     exists e, live w p = Some e /\ IsResponseExpected e = true /\ IsClosed e = false).
Proof.
  intros Ht Hb Hr; destruct (reachable_safe w Ht Hb Hr) as (owners & HI & _); split_and!.
  - intros p e He; destruct (inv_live _ _ HI p e He); rewrite owed_rest in *; split_and!; try done.
    + unfold owned; rewrite He; case_decide; destruct (Z.eqb_spec (mRefCount e) (Z.of_nat (entries w p))); cbn [negb]; lia.
    + lia.
    + intros Hc; by destruct (xo_delegate Hc).
    + intros Hc; eapply own_is_owned; [done|by apply xo_open].
  - intros i en Hi; split; [by apply (inv_buf _ _ HI i en Hi)|].
    destruct (entry_live _ i en w HI Hi) as [e He]; exists e; split; [done|].
    destruct (entry_session _ i en e w HI Hi He) as [s ->]; done.
  - intros p Hp; destruct (live w p) as [e|] eqn:He.
    + exists e; split; [done|]; destruct (xo_timer _ _ _ _ (inv_live _ _ HI p e He) Hp) as (_ & ? & [|]); done.
    + rewrite (proj2 (inv_free _ _ HI p He)) in Hp; by destruct Hp.
Qed.

(** C32: when the session of an open exchange goes away, no message of the exchange is sent
    again and no response is waited for, other exchanges are not touched, and then: an
    owner that had announced a message keeps its reference, the last one, to the closed
    exchange; otherwise the exchange is freed - also when the delegate, told of the
    time-out, announces a message only now, although it is then told that an exchange
    with an announced message, which it would own, is closing. *)
Theorem session_released (w : World) (p : nat) (e : Exchange) (s : nat) :
  timer_starts -> well_behaved -> reachable w ->
  live w p = Some e -> mSession e = Some s -> IsClosed e = false ->
  exists w', exec (ReleaseSession p) w = (Ok tt, w') /\
    (forall i en, entry_at w' i = Some en -> en_ec en <> p) /\ mResponseTimers w' !! p = None /\
    (forall q, q <> p -> live w' q = live w q) /\
    if IsSendExpected e
    then exists e', live w' p = Some e' /\ IsClosed e' = true /\ mSession e' = None /\ mRefCount e' = 1 /\ owned w' p = true
    else live w' p = None.
Proof.
  intros Ht Hb Hr He Hs Hc; destruct (reachable_safe w Ht Hb Hr) as (owners & HI & _).
  assert (HR : runs (SessionReleased p) w (fun _ w' => exists g', Inv g' w' /\ orphaned p e (rest owners) w g' w')).
  { eapply (runs_SessionReleased Ht (rest owners)); [apply Hb|done..|cbn; lia|done|eauto]. }
  apply runs_inv in HR as ([] & w' & E & g' & HI' & O1 & O2 & Hz & O3); exists w'; rewrite Hc in O3; cbn [orb] in O3.
  assert (Hpo : p ∈ owners) by (apply (xo_open _ _ _ _ (inv_live _ _ HI p e He) Hc)).
  split_and!; [done| | |done|].
  - intros i en Hi <-; pose proof (entry_entries i en w' Hi); lia.
  - destruct (live w' p) as [e'|] eqn:He'; [|by apply (inv_free _ _ HI' p)].
    assert (Hg : g_loose g' = None) by (destruct (IsSendExpected e); [by destruct O3 as [-> _]|by subst g']).
    destruct (mResponseTimers w' !! p) as [t|] eqn:Et; [|done].
    destruct (xo_timer _ _ _ _ (inv_live _ _ HI' p e' He')) as (_ & _ & [Hx|Hx]); [by exists t| |congruence].
    by rewrite (O2 e' eq_refl) in Hx.
  - destruct (IsSendExpected e).
    + destruct O3 as [-> O3]; assert (Ho : owed (rest owners) w' p = 1%nat) by (by rewrite owed_rest, decide_True, Hz).
      destruct (owed_live (rest owners) w' p HI') as [e' He']; [lia|]; exists e'.
      destruct (inv_live _ _ HI' p e' He'); split_and!; auto; [by rewrite xo_refs, Ho|by eapply own_is_owned].
    + subst g'; destruct (live w' p) as [e'|] eqn:He'; [exfalso|done].
      pose proof (xo_pos _ _ _ _ (inv_live _ _ HI' p e' He')) as Hpos.
      change (disown p (rest owners)) with (rest (owners ∖ {[p]})) in Hpos.
      rewrite owed_rest, Hz, decide_False in Hpos by set_solver; lia.
Qed.

End Reachable.

(** ** A platform and an application *)

Definition steady_platform : MessagingPlatform := {|
  buffer_available := fun _ => true;
  PrepareMessage_result := fun n => Ok (Z.of_nat n);
  SendPreparedMessage_result := fun _ => CHIP_NO_ERROR;
  StartResponseTimer_result := fun _ => CHIP_NO_ERROR;
  StartWakeTimer_result := fun _ => CHIP_NO_ERROR;
  GetRandU8 := fun _ => 7 |}.

(** Messages are answered with a reliable one; a delegate takes what nobody else does. *)
Definition answering_application : Application := {|
  GetMessageDispatch_of := fun _ => ApplicationExchangeDispatch;
  OnMessageReceived_of := fun _ _ header _ =>
    AppSendMessage (mProtocolID header) 5 [] 0 (fun err => AppReturn err);
  OnResponseTimeout_of := fun _ _ => AppReturn CHIP_NO_ERROR;
  OnUnsolicitedMessageReceived := fun _ handler _ _ => Ok (Some handler) |}.

Definition case_session : Session := MkSession kSecure true kActive true 500 300 4000 0.

(** What is left after some steps, whether they end or not. *)
Definition after `{MessagingPlatform} `{Application} (l : list Label) (w : World) : World :=
  fold_left (fun w l => (exec l w).2) l w.

Lemma reach_after `{MessagingPlatform} `{Application} ls l w :
  reachable (after ls w) -> (exec l (after ls w)).1 = Ok tt -> allowed (after ls w) l -> reachable (after (ls ++ [l]) w).
Proof.
  intros Hr E Hl; eapply reach_step; [done..|]; unfold after at 2; rewrite fold_left_app; cbn [fold_left].
  unfold after in *; destruct (exec l _); cbn in *; by subst.
Qed.

Lemma steady_well_behaved : well_behaved (AP := answering_application).
Proof. by split. Qed.

Definition InteractionModel_Id : ProtocolId := MkProtocolId VendorId_Common 0x0001.

(** A request and its answer: the other side acknowledges the request and asks for an
    acknowledgement of its answer. *)
Definition start : World := new_manager 1000 77 {[0%nat := case_session]}.
Definition request : list Label :=
  [CallNewContext 0 (Some 1%nat) true; CallSetResponseTimeout 0 5000;
   CallSendMessage 0 InteractionModel_Id 2 [] kExpectResponse].
Definition answer_header (counter : Z) : PayloadHeader :=
  SetNeedsAck (SetAckMessageCounter (SetExchangeID (SetMessageType PayloadHeader_new InteractionModel_Id 5) 77)
    (Some counter)) true.
Definition unicast (counter : Z) : PacketHeader := MkPacketHeader counter None None None 1 0 0 0.
Definition answer : Label := Receive (unicast 500) (answer_header 1) 0 false [].

#[local] Existing Instance steady_platform.
#[local] Existing Instance answering_application.

Lemma reach_request : reachable (after request start).
Proof.
  apply (reach_after [CallNewContext 0 (Some 1%nat) true; CallSetResponseTimeout 0 5000]).
  2,3: vm_compute; reflexivity.
  apply (reach_after [CallNewContext 0 (Some 1%nat) true]); [|vm_compute; reflexivity..].
  apply (reach_after []); [apply reach_new|vm_compute; reflexivity|by exists case_session].
Defined.

Lemma answer_allowed : allowed (after request start) answer.
Proof. exists case_session; vm_compute; reflexivity. Defined.

Lemma reachable_steps_run_witness : exists w', exec answer (after request start) = (Ok tt, w').
Proof.
  apply (reachable_steps_run (after request start) answer); [done|apply steady_well_behaved|apply reach_request|].
  apply answer_allowed.
Defined.

Lemma references_balance_witness : mRefCount <$> live (after request start) 0 = Some 2 /\
  exists e, live (after request start) 0 = Some e /\ IsResponseExpected e = true.
Proof.
  split; [vm_compute; reflexivity|].
  destruct (references_balance (after request start)) as (_ & _ & H); [done|apply steady_well_behaved|apply reach_request|].
  destruct (H 0%nat) as (e & He & Hx & _); [exists 6000; vm_compute; reflexivity|by exists e].
Defined.

Lemma session_released_witness : exists w', exec (ReleaseSession 0) (after request start) = (Ok tt, w') /\ live w' 0 = None.
Proof.
  destruct (live (after request start) 0) as [e|] eqn:He; [|vm_compute in He; discriminate He].
  destruct (session_released (after request start) 0 e 0) as (w' & E & _ & _ & _ & H);
    [done|apply steady_well_behaved|apply reach_request|exact He|vm_compute in He; by injection He as <-..|].
  exists w'; split; [exact E|]; vm_compute in He; injection He as <-; exact H.
Defined.

(** A delegate that announces a message when it is told of a time-out. *)
Definition late_application : Application := {|
  GetMessageDispatch_of := fun _ => ApplicationExchangeDispatch;
  OnMessageReceived_of := fun _ _ _ _ => AppReturn CHIP_NO_ERROR;
  OnResponseTimeout_of := fun _ _ => AppWillSendMessage (AppReturn CHIP_NO_ERROR);
  OnUnsolicitedMessageReceived := fun _ handler _ _ => Ok (Some handler) |}.

(** The call of [Close] it then owes finds the exchange gone. *)
Lemma late_announcement_dangles :
  let w := after (H0 := late_application) (request ++ [ReleaseSession 0]) start in
  In (ExchangeClosing 1 0) (mLog w) /\ (exec (AP := late_application) (CallClose 0) w).1 = Err UNDEFINED_BEHAVIOUR.
Proof. vm_compute; tauto. Qed.
