(* ===== verification/ExchangeRetry.v ===== *)
(** * ExchangeRetry: when a message is sent again, and when no more

    - [GetBackoff]: between which bounds it lies, and that it grows;
    - the retransmission table under the wake-ups of the manager: every message is sent
      again at most [DEFAULT_MAX_RETRANS] times, then its entry is given up. *)

From stdpp Require Import gmap.
From S2P Require Import Prelude Encoding MessageHeader BdxMessages Pool Runs Exchange ExchangeMgr ExchangeRules ExchangeInv ExchangeFrame ExchangeSafe ExchangeReach.

(** ** The backoff *)

(** What [GetBackoff] computes in integers without a width. *)
Definition exact_backoff (base : Z) (k : nat) (random : Z) : Z :=
  base * 1127 / 1024 * 16 ^ Z.of_nat k / 10 ^ Z.of_nat k * (1024 + random) / 1024.

Lemma backoff_exponent_cases n : (backoff_exponent n <= 4)%nat /\ Z.of_nat (backoff_exponent n) = Z.min 4 (Z.max 0 (n - 1)).
Proof.
  unfold backoff_exponent; destruct (Z.ltb_spec (n - 1) 0); [cbn; lia|]; destruct (Z.ltb_spec 4 (n - 1)); cbn zeta; lia.
Qed.

Lemma backoff_exponent_mono n n' : n <= n' -> (backoff_exponent n <= backoff_exponent n')%nat.
Proof. pose proof (backoff_exponent_cases n); pose proof (backoff_exponent_cases n'); lia. Qed.

Lemma backoff_factors_exact k : (k <= 4)%nat -> backoff_factors k = (16 ^ Z.of_nat k, 10 ^ Z.of_nat k).
Proof. intros Hk; do 5 (destruct k as [|k]; [reflexivity|]); lia. Qed.

Lemma div_bounds a d : 0 < d -> d * (a / d) <= a < d * (a / d) + d.
Proof. intros Hd; pose proof (Z.div_mod a d); pose proof (Z.mod_pos_bound a d Hd); lia. Qed.

(** The parts of [exact_backoff]: margin, growth and jitter. *)
Lemma exact_backoff_parts base k random : exists i m,
  exact_backoff base k random = m * (1024 + random) / 1024 /\
  i = base * 1127 / 1024 /\ m = i * 16 ^ Z.of_nat k / 10 ^ Z.of_nat k /\
  1024 * i <= 1127 * base < 1024 * i + 1024 /\
  10 ^ Z.of_nat k * m <= i * 16 ^ Z.of_nat k < 10 ^ Z.of_nat k * m + 10 ^ Z.of_nat k.
Proof.
  exists (base * 1127 / 1024), (base * 1127 / 1024 * 16 ^ Z.of_nat k / 10 ^ Z.of_nat k).
  pose proof (div_bounds (base * 1127) 1024 ltac:(lia)); split_and!; try done; try lia;
    apply div_bounds, Z.pow_pos_nonneg; lia.
Qed.

Lemma GetBackoff_exact base n random additional :
  0 <= base <= 2 ^ 27 -> 0 <= random < 256 -> 0 <= additional < 2 ^ 31 ->
  GetBackoff base n random additional = exact_backoff base (backoff_exponent n) random + additional.
Proof.
  intros Hb Hr Ha; destruct (backoff_exponent_cases n) as [Hk _]; unfold GetBackoff.
  rewrite backoff_factors_exact by done; set (k := backoff_exponent n) in *; clearbody k.
  destruct (exact_backoff_parts base k random) as (i & m & -> & Hi & Hm & Bi & Bm).
  pose proof (div_bounds (m * (1024 + random)) 1024 ltac:(lia)) as Bt.
  rewrite (wrap_small 64 (base * 1127)), <-Hi by (unfold is_uint; lia).
  assert (Hpow : 1 <= 10 ^ Z.of_nat k /\ 16 ^ Z.of_nat k <= 7 * 10 ^ Z.of_nat k /\ 16 ^ Z.of_nat k <= 2 ^ 16).
  { do 5 (destruct k as [|k]; [cbn; lia|]); lia. }
  set (num := 16 ^ Z.of_nat k) in *; set (denom := 10 ^ Z.of_nat k) in *.
  assert (Hn : 0 < num) by (apply Z.pow_pos_nonneg; lia).
  clearbody num denom.
  assert (0 <= i) by lia; assert (i * num <= i * (7 * denom)) by (apply Z.mul_le_mono_nonneg_l; lia).
  assert (Hm7 : 0 <= m <= 7 * i).
  { split; [|apply (Z.mul_le_mono_pos_l m (7 * i) denom); lia].
    rewrite Hm; apply Z.div_pos; [apply Z.mul_nonneg_nonneg|]; lia. }
  rewrite (wrap_small 64 (i * num)), <-Hm by (unfold is_uint; nia).
  rewrite (wrap_small 32 (1024 + random)) by (unfold is_uint; lia).
  rewrite (wrap_small 64 (m * (1024 + random))) by (unfold is_uint; nia).
  rewrite !wrap_small; [done|unfold is_uint; nia..|]; rewrite wrap_small; unfold is_uint; nia.
Qed.

Lemma growth_step i k : 0 <= i -> i * 16 ^ k / 10 ^ k <= i * 16 ^ (k + 1) / 10 ^ (k + 1) \/ k < 0.
Proof.
  intros Hi; destruct (Z_lt_le_dec k 0) as [|Hk]; [by right|left].
  rewrite !Z.pow_add_r, !Z.pow_1_r by lia; pose proof (Z.pow_pos_nonneg 10 k ltac:(lia) Hk).
  pose proof (Z.pow_nonneg 16 k ltac:(lia)).
  rewrite <-(Z.div_mul_cancel_r (i * 16 ^ k) (10 ^ k) 10) by lia.
  apply Z.div_le_mono; nia.
Qed.

Lemma growth_mono i k k' : 0 <= i -> (k <= k')%nat ->
  i * 16 ^ Z.of_nat k / 10 ^ Z.of_nat k <= i * 16 ^ Z.of_nat k' / 10 ^ Z.of_nat k'.
Proof.
  intros Hi Hk; induction Hk as [|k' Hk IH]; [lia|].
  destruct (growth_step i (Z.of_nat k') Hi) as [Hs|]; [|lia].
  replace (Z.of_nat (S k')) with (Z.of_nat k' + 1) by lia; lia.
Qed.

Lemma exact_backoff_mono base base' k k' random random' :
  0 <= base <= base' -> (k <= k')%nat -> 0 <= random <= random' ->
  exact_backoff base k random <= exact_backoff base' k' random'.
Proof.
  intros Hb Hk Hr; unfold exact_backoff; apply Z.div_le_mono; [lia|].
  pose proof (Z.pow_pos_nonneg 10 (Z.of_nat k) ltac:(lia) ltac:(lia)).
  pose proof (Z.pow_nonneg 16 (Z.of_nat k) ltac:(lia)).
  assert (Hi : 0 <= base * 1127 / 1024 <= base' * 1127 / 1024) by (split; [apply Z.div_pos; lia|apply Z.div_le_mono; lia]).
  pose proof (growth_mono (base' * 1127 / 1024) k k' ltac:(lia) Hk).
  assert (base * 1127 / 1024 * 16 ^ Z.of_nat k / 10 ^ Z.of_nat k <= base' * 1127 / 1024 * 16 ^ Z.of_nat k / 10 ^ Z.of_nat k)
    by (apply Z.div_le_mono; nia).
  assert (0 <= base * 1127 / 1024 * 16 ^ Z.of_nat k / 10 ^ Z.of_nat k) by (apply Z.div_pos; nia).
  apply Z.mul_le_mono_nonneg; lia.
Qed.

Lemma base_le_backoff base k random : 0 <= base -> 0 <= random -> base <= exact_backoff base k random.
Proof.
  intros Hb Hr; destruct (exact_backoff_parts base k random) as (i & m & -> & Hi & Hm & Bi & Bm).
  assert (base <= i) by lia; pose proof (growth_mono i 0 k ltac:(lia) ltac:(lia)) as Hg; rewrite <-Hm in Hg.
  change (i * 1 / 1 <= m) in Hg; rewrite Z.mul_1_r, Z.div_1_r in Hg.
  assert (0 <= m * random) by (apply Z.mul_nonneg_nonneg; lia); apply Z.div_le_lower_bound; lia.
Qed.

Lemma exact_backoff_bounds base k random : 0 <= base -> 0 <= random ->
  (1024 + random) * (16 ^ Z.of_nat k * (1127 * base - 1024) - 1024 * 10 ^ Z.of_nat k) <
    1024 * 1024 * 10 ^ Z.of_nat k * (exact_backoff base k random + 1) /\
  1024 * 1024 * 10 ^ Z.of_nat k * exact_backoff base k random <= (1024 + random) * 16 ^ Z.of_nat k * 1127 * base.
Proof.
  intros Hb Hr; destruct (exact_backoff_parts base k random) as (i & m & -> & Hi & Hm & Bi & Bm).
  pose proof (div_bounds (m * (1024 + random)) 1024 ltac:(lia)) as Bt.
  pose proof (Z.pow_pos_nonneg 16 (Z.of_nat k) ltac:(lia) ltac:(lia)); assert (0 <= i) by lia.
  pose proof (Z.pow_pos_nonneg 10 (Z.of_nat k) ltac:(lia) ltac:(lia)).
  assert (0 <= m) by (rewrite Hm; apply Z.div_pos; [apply Z.mul_nonneg_nonneg|]; lia).
  assert (0 <= m * random) by (apply Z.mul_nonneg_nonneg; lia).
  set (t := m * (1024 + random) / 1024) in *; set (d := 10 ^ Z.of_nat k) in *; set (u := 16 ^ Z.of_nat k) in *; split.
  - assert (u * (1127 * base - 1024) < u * (1024 * i)) by (apply Z.mul_lt_mono_pos_l; lia).
    assert ((1024 + random) * (u * (1127 * base - 1024) - 1024 * d) <= (1024 + random) * (1024 * (d * m)))
      by (apply Z.mul_le_mono_nonneg_l; lia).
    assert (d * (m * (1024 + random)) < d * (1024 * (t + 1))) by (apply Z.mul_lt_mono_pos_l; lia); lia.
  - assert (d * (1024 * t) <= d * (m * (1024 + random))) by (apply Z.mul_le_mono_pos_l; lia).
    assert (d * m * (1024 + random) <= i * u * (1024 + random)) by (apply Z.mul_le_mono_nonneg_r; lia).
    assert (1024 * i * (u * (1024 + random)) <= 1127 * base * (u * (1024 + random)))
      by (apply Z.mul_le_mono_nonneg_r; [apply Z.mul_nonneg_nonneg|]; lia).
    lia.
Qed.

(** C31: for base intervals up to 37 hours no arithmetic of [GetBackoff] wraps around, and
    the time to the next retransmission is the base interval with a margin of 1.1, 1.6
    times as long for each attempt from the second to the fifth, and, of the whole, as many
    1024ths more as the random byte says, all rounded down (both bounds are for the byte
    that was drawn): it is never earlier than the base interval, and never comes earlier
    for a later attempt, a longer base interval or a larger random byte. *)
Theorem backoff_bounds (base n random additional k t : Z) :
  0 <= base <= 2 ^ 27 -> 0 <= random < 256 -> 0 <= additional < 2 ^ 31 ->
  k = Z.min 4 (Z.max 0 (n - 1)) -> GetBackoff base n random additional = t + additional ->
  base <= t /\
  (1024 + random) * (16 ^ k * (1127 * base - 1024) - 1024 * 10 ^ k) < 1024 * 1024 * 10 ^ k * (t + 1) /\
  1024 * 1024 * 10 ^ k * t <= (1024 + random) * 16 ^ k * 1127 * base /\
  (forall base' n' random', base <= base' <= 2 ^ 27 -> n <= n' -> random <= random' < 256 ->
     t + additional <= GetBackoff base' n' random' additional).
Proof.
  intros Hb Hr Ha ->; rewrite GetBackoff_exact by done; intros Ht.
  assert (t = exact_backoff base (backoff_exponent n) random) as -> by lia.
  destruct (backoff_exponent_cases n) as [Hk <-].
  destruct (exact_backoff_bounds base (backoff_exponent n) random) as [Hlo Hhi]; [lia..|].
  split_and!; [apply base_le_backoff; lia|done..|].
  intros base' n' random' Hb' Hn' Hr'; rewrite GetBackoff_exact by lia; apply Z.add_le_mono_r.
  apply exact_backoff_mono; [lia|by apply backoff_exponent_mono|lia].
Qed.

Lemma backoff_bounds_witness : GetBackoff 500 3 7 0 = 1417 /\ 500 <= 1417.
Proof. split; [reflexivity|]; apply (backoff_bounds 500 3 7 0 2 1417); vm_compute; done. Defined.

(** For the largest intervals a session can have the 32-bit result wraps around. *)
Lemma backoff_wraps : GetBackoff 1000000000 5 255 0 < 1000000000.
Proof. reflexivity. Qed.

(** ** How often an entry is sent *)

Definition counts_ok (w : World) : Prop :=
  forall i en, entry_at w i = Some en -> 0 <= en_sendCount en <= DEFAULT_MAX_RETRANS.
Notation counted := (upholds counts_ok).

Lemma counted_same w w' : mRetransTable w' = mRetransTable w -> counted w w'.
Proof. intros H C i en; unfold entry_at; rewrite H; by apply C. Qed.

Lemma counted_put i en w : 0 <= en_sendCount en <= DEFAULT_MAX_RETRANS -> counted w (put_entry i en w).
Proof.
  intros He C j en'; destruct (decide (i = j)) as [<-|Hne]; unfold entry_at, At; cbn;
    [|rewrite list_lookup_insert_ne by done; apply (C j)].
  destruct (decide (i < length (mRetransTable w))%nat) as [Hi|Hi].
  - rewrite list_lookup_insert_eq by done; by intros [= <-].
  - rewrite lookup_ge_None_2; [done|]; rewrite length_insert; lia.
Qed.

#[local] Instance counted_framed : Framed counted.
Proof.
  split; [typeclasses eauto|intros w w' H; by apply counted_same, H|..|]; intros; try by apply counted_same.
  intros C j en'; unfold entry_at; cbn; rewrite At_insert by (by eapply At_range); case_decide; [done|apply C].
Qed.

#[local] Instance counted_closing : Closing counted.
Proof. split; intros; by apply counted_same. Qed.

#[local] Instance counted_creating `{Application} : Creating counted.
Proof. split; intros; by apply counted_same. Qed.

Section Counts.
Context `{MP : MessagingPlatform} `{AP : Application}.

Local Hint Extern 0 (keeps _ (edit _ _)) => apply frame_edit; intros; by apply counted_same : keeps.
Local Hint Extern 0 (keeps _ (modify _)) => apply keeps_modify; intros ?; first [by apply counted_same|by apply counted_put] : keeps.
Local Hint Extern 0 (keeps _ (emit _)) => apply keeps_modify; intros ?; by apply counted_same : keeps.

Lemma counted_edit_entry i f : (forall en, en_sendCount (f en) = en_sendCount en) -> keeps counted (edit_entry i f).
Proof. intros H; apply keeps_edit_entry; intros w en Hi C; apply counted_put; [rewrite H; by eapply C|done]. Qed.
Local Hint Extern 0 (keeps _ (edit_entry _ _)) => by apply counted_edit_entry : keeps.

#[local] Instance counted_sending : Sending counted.
Proof.
  assert (HT : keeps counted StartTimer) by (unfold StartTimer; keep).
  apply sending_dispatch; [typeclasses eauto|done|]; intros.
  unfold Dispatch_SendMessage, send_reliably, AddToRetransTable, PrepareAndSendNonMRPMessage, StartRetransmision,
    TakePendingPeerAckMessageCounter, PrepareMessage, SendPreparedMessage, CalculateNextRetransTime, ClearRetransEntry; keep.
Qed.

Lemma counted_needs p c d : keeps counted (HandleNeedsAck p c d).
Proof. unfold HandleNeedsAck, HandleNeedsAckInner, SetPendingPeerAckMessageCounter; keep. Qed.

Lemma counted_retransmit t i : keeps counted (retransmit_due t i).
Proof.
  intros w a w'; unfold retransmit_due, bind at 1, entry, deref.
  destruct (entry_at w i) as [en|] eqn:Hi; [|done]; intros E C.
  destruct (C i en Hi) as [H0 H4]; revert w' E; cut (keeps counted
    (if t <? en_nextRetransTime en then ret tt else
       VerifyOrDie (bool_decide (is_Some (en_retainedBuf en))) ;;
       let! s := GetSessionHandle (en_ec en) in
       if en_sendCount en =? DEFAULT_MAX_RETRANS then abandon i s
       else edit_entry i (set_sendCount (wrap 8 (en_sendCount en + 1))) ;; SendFromRetransTable i ;; ret tt)).
  { intros Hk w' E; by eapply Hk. }
  destruct (Z.eqb_spec (en_sendCount en) DEFAULT_MAX_RETRANS) as [|Hne]; unfold SendFromRetransTable,
    SendPreparedMessage, CalculateNextRetransTime; keep.
  apply keeps_edit_entry; intros w1 en1 _; apply counted_put; cbn [en_sendCount set_sendCount].
  unfold DEFAULT_MAX_RETRANS in *; rewrite wrap_small; unfold is_uint; lia.
Qed.

Lemma counted_Timeout : keeps counted Timeout.
Proof. apply frame_Timeout; try typeclasses eauto; apply counted_retransmit. Qed.

Lemma reachable_counts w : reachable w -> counts_ok w.
Proof.
  induction 1 as [t id ss|w0 l w' H IH Hl E].
  - intros i en; unfold entry_at, At; cbn [mRetransTable new_manager]; destruct (_ !! i) eqn:E; [|done].
    by apply lookup_replicate in E as [-> _].
  - refine (frame_exec counted l _ _ _ _ w0 tt w' E IH).
    + destruct l; try done; intros; apply counted_needs.
    + intros ms _; cbn [exec]; keep.
    + cbn [exec]; keep; apply counted_Timeout.
    + by destruct l.
Qed.

(** The next wake-up, when at least [ms] have passed and every entry is due. *)
Definition all_due (w : World) : Prop := forall i en, entry_at w i = Some en -> en_nextRetransTime en <= mNow w.

Inductive waits : nat -> World -> World -> Prop :=
| waits_0 w : waits 0 w w
| waits_S n ms w w1 w2 : 0 <= ms -> all_due (set_mNow (mNow w + ms) w) ->
    exec WakeUp (set_mNow (mNow w + ms) w) = (Ok tt, w1) -> waits n w1 w2 -> waits (S n) w w2.

Lemma wake_retries w ms w1 : timer_starts -> well_behaved -> reachable w -> 0 <= ms ->
  all_due (set_mNow (mNow w + ms) w) -> exec WakeUp (set_mNow (mNow w + ms) w) = (Ok tt, w1) ->
  reachable w1 /\ forall i en', entry_at w1 i = Some en' ->
    exists en, entry_at w i = Some en /\ en_sendCount en' = en_sendCount en + 1.
Proof.
  intros Ht Hb Hr Hms Hdue E; set (w0 := set_mNow (mNow w + ms) w) in *.
  assert (Hr0 : reachable w0) by (by apply (reach_step w (Elapse ms) w0)).
  split; [by apply (reach_step w0 WakeUp w1)|].
  destruct (reachable_safe w0 Ht Hb Hr0) as (owners & HI & _).
  pose proof (reachable_counts w0 Hr0) as HC.
  assert (HT : runs Timeout (set_mTimer None w0) (fun _ w' => (forall i, entry_at w0 i = None -> entry_at w' i = None) /\
    forall i en, entry_at w0 i = Some en -> retried (mNow w0) en (entry_at w' i))).
  { eapply (runs_Timeout Ht (rest owners)); [by apply (Inv_same _ w0)|done|]; by intros w' _ H1 H2. }
  unfold runs in HT; change (Timeout (set_mTimer None w0) = (Ok tt, w1)) in E; rewrite E in HT.
  destruct HT as [Hout Hall]; intros i en' Hi; destruct (entry_at w0 i) as [en|] eqn:Hi0.
  - exists en; split; [done|]; specialize (Hall i en Hi0); specialize (HC i en Hi0); unfold retried in Hall.
    rewrite (proj2 (Z.ltb_ge _ _)), Hi in Hall by (by apply Hdue in Hi0).
    destruct Hall as (Hne & -> & _); unfold DEFAULT_MAX_RETRANS in *; apply wrap_small; unfold is_uint; lia.
  - by rewrite Hout in Hi.
Qed.

Lemma waits_count n w w' : timer_starts -> well_behaved -> reachable w -> waits n w w' ->
  reachable w' /\ forall i en', entry_at w' i = Some en' ->
    exists en, entry_at w i = Some en /\ en_sendCount en' = en_sendCount en + Z.of_nat n.
Proof.
  intros Ht Hb Hr H; induction H as [w|n ms w w1 w2 Hms Hdue E H IH].
  - split; [done|]; intros i en' Hi; exists en'; split; [done|lia].
  - destruct (wake_retries w ms w1 Ht Hb Hr Hms Hdue E) as [Hr1 H1]; destruct (IH Hr1) as [Hr2 H2]; split; [done|].
    intros i en2 Hi2; destruct (H2 i en2 Hi2) as (en1 & Hi1 & E2); destruct (H1 i en1 Hi1) as (en & Hi0 & E1).
    exists en; split; [done|lia].
Qed.

Lemma due_time (l : list (option RetransTableEntry)) :
  exists t, forall i en, At l i = Some en -> en_nextRetransTime en <= t.
Proof.
  induction l as [|o l [t IH]]; [by exists 0|].
  exists (Z.max t (match o with Some en => en_nextRetransTime en | None => 0 end)); intros [|i] en Hi.
  - change (o = Some en) in Hi; subst o; lia.
  - specialize (IH i en Hi); lia.
Qed.

Lemma waits_exist n w : timer_starts -> well_behaved -> reachable w -> exists w', waits n w w'.
Proof.
  intros Ht Hb; revert w; induction n as [|n IH]; intros w Hr; [exists w; constructor|].
  destruct (due_time (mRetransTable w)) as [t Hdue]; set (ms := Z.max 0 (t - mNow w)).
  assert (Hr0 : reachable (set_mNow (mNow w + ms) w)) by (apply (reach_step w (Elapse ms)); [done|cbn; lia|done]).
  pose proof (runs_exec Ht (proj1 Hb) (proj2 Hb) _ WakeUp (reachable_safe _ Ht Hb Hr0) I) as HW.
  apply runs_inv in HW as ([] & w1 & E & _); destruct (IH w1) as [w2 H2]; [by apply (reach_step _ WakeUp _ Hr0)|].
  exists w2; apply (waits_S n ms w w1 w2); try done; [lia|].
  intros i en Hi; specialize (Hdue i en Hi); cbn [mNow set_mNow]; lia.
Qed.

(** C12: no message is sent again for ever.  When nothing is received any more, then after
    five wake-ups at which the entries are due - which there always are - the
    retransmission table is empty, no exchange waits for an acknowledgement, and every
    exchange that nobody owns is gone. *)
Theorem messages_given_up (w : World) :
  timer_starts -> well_behaved -> reachable w ->
  (exists w', waits 5 w w') /\
  forall w', waits 5 w w' -> (forall i, entry_at w' i = None) /\
    forall p e, live w' p = Some e -> IsWaitingForAck e = false /\ owned w' p = true.
Proof.
  intros Ht Hb Hr; split; [by apply waits_exist|]; intros w' H.
  destruct (waits_count 5 w w' Ht Hb Hr H) as [Hr' Hc]; pose proof (reachable_counts w Hr) as HC.
  pose proof (reachable_counts w' Hr') as HC'.
  assert (Hnone : forall i, entry_at w' i = None).
  { intros i; destruct (entry_at w' i) as [en'|] eqn:Hi; [|done]; destruct (Hc i en' Hi) as (en & Hi0 & Ec).
    specialize (HC i en Hi0); specialize (HC' i en' Hi); unfold DEFAULT_MAX_RETRANS in *; lia. }
  split; [done|]; intros p e He; destruct (reachable_safe w' Ht Hb Hr') as (owners & HI & _).
  assert (Hz : entries w' p = 0%nat).
  { unfold entries; apply tally_none; intros i en Hi; specialize (Hnone i); unfold entry_at in Hnone; congruence. }
  destruct (inv_live _ _ HI p e He) as [Hrefs Hpos _ Hwait _ _ _ _ _ _]; rewrite owed_rest, Hz in *; split; [done|].
  apply (own_is_owned owners); [done|]; case_decide; [done|lia].
Qed.

End Counts.

#[local] Existing Instance steady_platform.
#[local] Existing Instance answering_application.

Lemma messages_given_up_witness : is_Some (entry_at (after request start) 0) /\
  exists w', waits 5 (after request start) w' /\ entry_at w' 0 = None.
Proof.
  split; [vm_compute; by eexists|].
  destruct (messages_given_up (after request start)) as [[w' H] Hall];
    [done|apply steady_well_behaved|apply reach_request|].
  exists w'; split; [exact H|apply (Hall w' H)].
Defined.
