(* ===== verification/ExchangeAcks.v ===== *)
(** * ExchangeAcks: only messages that were received are acknowledged

    - [ensures]: what holds when an operation has ended (partial correctness);
    - [acks_ok]: every acknowledgement that is pending, kept for the next message, in the
      retransmission table or sent is one of a set [P] of the session, role and identifier
      of an exchange and a message counter;
    - every operation keeps it, if what it receives is in [P];
    - [history]: the steps made so far, which the users of the manager are allowed to make.

    An entry of the retransmission table that outlived its exchange would be sent again by
    whatever exchange is made in its place, so this rests on the invariant of
    ExchangeInv.v. *)

From stdpp Require Import gmap.
From S2P Require Import Prelude Encoding MessageHeader BdxMessages Pool Runs Exchange ExchangeMgr ExchangeRules ExchangeInv ExchangeFrame ExchangeSafe ExchangeReach.

Definition ensures {A} (m : W A) (w : World) (Q : A -> World -> Prop) : Prop := forall a w', m w = (Ok a, w') -> Q a w'.

Lemma ens_bind {A B} (m : W A) (k : A -> W B) w Q :
  ensures m w (fun a w1 => ensures (k a) w1 Q) -> ensures (bind m k) w Q.
Proof.
  intros H b w' E; unfold bind in E; destruct (m w) as [[a|e] w1] eqn:Em; [|done]; by eapply (H a w1).
Qed.
Lemma ens_mono {A} (m : W A) w (P Q : A -> World -> Prop) :
  ensures m w P -> (forall a w', P a w' -> Q a w') -> ensures m w Q.
Proof. intros H HPQ a w' E; by apply HPQ, H. Qed.
Lemma ens_ret {A} (a : A) w (Q : A -> World -> Prop) : Q a w -> ensures (ret a) w Q.
Proof. by intros H a' w' [= <- <-]. Qed.
Lemma ens_deref {A} (find : World -> option A) w (Q : A -> World -> Prop) :
  (forall x, find w = Some x -> Q x w) -> ensures (deref find) w Q.
Proof. intros H a w'; unfold deref; destruct (find w); [|done]; intros [= <- <-]; by apply H. Qed.
Lemma ens_keeps {A} (m : W A) J w : keeps (upholds J) m -> J w -> ensures m w (fun _ w' => J w').
Proof. intros Hk HJ a w' E; by apply (Hk w a w' E). Qed.

Lemma keeps_ens {A} (m : W A) J : (forall w, J w -> ensures m w (fun _ w' => J w')) -> keeps (upholds J) m.
Proof. intros H w a w' E HJ; by apply (H w HJ a w'). Qed.

Lemma ens_step {A B} (J : World -> Prop) (m : W A) (k : A -> W B) w Q :
  keeps (upholds J) m -> J w -> (forall a w', J w' -> ensures (k a) w' Q) -> ensures (bind m k) w Q.
Proof. intros Hm HJ Hk; apply ens_bind; eapply ens_mono; [by apply (ens_keeps m J)|exact Hk]. Qed.
(** What is known from [runs] of an operation may be used. *)
Lemma ens_runs {A} (m : W A) w (Q R : A -> World -> Prop) :
  runs m w R -> ensures m w (fun a w' => R a w' -> Q a w') -> ensures m w Q.
Proof. intros Hr H a w' E; apply (H a w' E); unfold runs in Hr; by rewrite E in Hr. Qed.

(** Two properties at once. *)
#[export] Instance framed_and A B :
  Framed (upholds A) -> Framed (upholds B) -> Framed (upholds (fun w => A w /\ B w)).
Proof.
  intros FA FB; split; [typeclasses eauto|..]; intros; intros [HA HB].
  - split; [by apply (fr_still (R := upholds A) w)|by apply (fr_still (R := upholds B) w)].
  - split; [by apply (fr_emit (R := upholds A))|by apply (fr_emit (R := upholds B))].
  - split; [by apply (fr_flag (R := upholds A))|by apply (fr_flag (R := upholds B))].
  - split; [by apply (fr_refs (R := upholds A))|by apply (fr_refs (R := upholds B))].
  - split; [by apply (fr_timeout (R := upholds A))|by apply (fr_timeout (R := upholds B))].
  - split; [by apply (fr_free (R := upholds A) p w e)|by apply (fr_free (R := upholds B) p w e)].
  - split; [by apply (fr_free_entry (R := upholds A) i w en)|by apply (fr_free_entry (R := upholds B) i w en)].
Qed.

(** The exchange in slot [p], if there is one, is on session [s]. *)
Definition on_session (p s : nat) (w : World) : Prop := forall e, live w p = Some e -> mSession e = Some s.

Lemma on_session_put p s q e e' w : live w q = Some e -> mSession e' = mSession e ->
  upholds (on_session p s) w (put_exchange q e' w).
Proof.
  intros He Hs H e1; rewrite (live_put q p e' e w He); case_decide as Hq; [|by apply H].
  intros [= <-]; subst q; rewrite Hs; by apply H.
Qed.

#[export] Instance on_session_framed p s : Framed (upholds (on_session p s)).
Proof.
  split; [typeclasses eauto|..].
  - intros w w' (Hp & _) H e; unfold live; rewrite Hp; apply H.
  - by intros ev w _ H.
  - intros q f b w e _ _ He; by eapply on_session_put.
  - intros q v w e He; by eapply on_session_put.
  - intros q v w e He; by eapply on_session_put.
  - intros q w e He H e1; unfold live; cbn; rewrite At_insert by (by eapply At_range); case_decide; [done|apply H].
  - by intros i w en _ H.
Qed.

Lemma entry_put_cases i j en en' w :
  entry_at (put_entry i en w) j = Some en' -> (j = i /\ en' = en) \/ entry_at w j = Some en'.
Proof.
  unfold entry_at, At; cbn; destruct (decide (i = j)) as [<-|Hne]; [|rewrite list_lookup_insert_ne by done; by right].
  destruct (decide (i < length (mRetransTable w))%nat).
  - rewrite list_lookup_insert_eq by done; intros [= <-]; by left.
  - rewrite lookup_ge_None_2; [done|]; rewrite length_insert; lia.
Qed.

(** *** Who sends a message, by its header *)

Lemma sender_bit h n b : 0 < n < 8 ->
  BitFlags.Has (BitFlags.Set_if 8 (mExchangeFlags h) (2 ^ n) b) (2 ^ 0) = MessageHeader.IsInitiator h.
Proof.
  intros Hn; unfold MessageHeader.IsInitiator; change kExchangeFlag_Initiator with (2 ^ 0).
  rewrite !BitFlags.Has_testbit by lia; rewrite Set_if_bit by lia; by rewrite decide_False by lia.
Qed.
Lemma sender_SetNeedsAck h b : MessageHeader.IsInitiator (SetNeedsAck h b) = MessageHeader.IsInitiator h.
Proof. exact (sender_bit h 2 b ltac:(lia)). Qed.
Lemma sender_SetAck h c : MessageHeader.IsInitiator (SetAckMessageCounter h c) = MessageHeader.IsInitiator h.
Proof. exact (sender_bit h 1 (has_value c) ltac:(lia)). Qed.
Lemma sender_SetInitiator h b : MessageHeader.IsInitiator (SetInitiator h b) = b.
Proof.
  unfold MessageHeader.IsInitiator, SetInitiator; cbn; change kExchangeFlag_Initiator with (2 ^ 0).
  rewrite BitFlags.Has_testbit by lia; rewrite Set_if_bit by lia; by rewrite decide_True.
Qed.

(** ** The invariant *)

Section Acks.
Variable P : nat -> bool -> Z -> Z -> Prop.

(** A message of session [s] whose sender is the initiator or not, as its header says. *)
Definition header_ok (s : nat) (h : PayloadHeader) : Prop :=
  forall c, mAckMessageCounter h = Some c -> P s (MessageHeader.IsInitiator h) (mExchangeID h) c.
Lemma header_ok_needs s h b : header_ok s h -> header_ok s (SetNeedsAck h b).
Proof. intros H c; rewrite sender_SetNeedsAck; apply H. Qed.
Definition packet_ok (s : nat) (b : EncryptedPacketBuffer) : Prop := header_ok s (pm_header b).

Definition owes (e : Exchange) (c : Z) : Prop :=
  forall s, mSession e = Some s -> P s (IsInitiator e) (mExchangeId e) c.
Definition ack_ok (e : Exchange) : Prop :=
  (IsAckPending e = true -> HasPiggybackAckPending e = true) /\
  (HasPiggybackAckPending e = true -> owes e (mPendingPeerAckMessageCounter e)).

(** [E]: counters just read from an exchange or a message, and where they will be put. *)
Record acks_ok (E : list (nat * Z)) (w : World) : Prop := {
  ao_exchange : forall p e, live w p = Some e -> ack_ok e;
  ao_entry : forall i en e s b, entry_at w i = Some en -> live w (en_ec en) = Some e -> mSession e = Some s ->
    en_retainedBuf en = Some b -> packet_ok s b;
  ao_sent : forall s b err, In (Sent s b err) (mLog w) -> packet_ok s b;
  ao_new : forall p c e, In (p, c) E -> live w p = Some e -> owes e c }.

Lemma acks_ok_same E w w' :
  mContextPool w' = mContextPool w -> mRetransTable w' = mRetransTable w ->
  (forall s b err, In (Sent s b err) (mLog w') -> In (Sent s b err) (mLog w) \/ packet_ok s b) ->
  upholds (acks_ok E) w w'.
Proof.
  intros Hp Ht Hl [H1 H2 H3 H4]; split; unfold live, entry_at in *; rewrite ?Hp, ?Ht; try done.
  intros s b err Hin; destruct (Hl s b err Hin); [by eapply H3|done].
Qed.

(** The same exchange, which may have lost its session. *)
Definition same_exchange (e e' : Exchange) : Prop :=
  mExchangeId e' = mExchangeId e /\ IsInitiator e' = IsInitiator e /\ (mSession e' = mSession e \/ mSession e' = None).

Lemma owes_same e e' c : same_exchange e e' -> owes e c -> owes e' c.
Proof. intros (Hi & Hr & [Hs|Hs]) H s; rewrite Hs; [rewrite Hi, Hr; apply H|done]. Qed.

Lemma acks_ok_put E p e e' w :
  live w p = Some e -> same_exchange e e' ->
  (acks_ok E w -> ack_ok e -> ack_ok e') -> upholds (acks_ok E) w (put_exchange p e' w).
Proof.
  intros He Hsame Hok H; pose proof H as [H1 H2 H3 H4]; split; try done.
  - intros q eq; rewrite (live_put p q e' e w He); case_decide; [intros [= <-]; by apply Hok, (H1 p)|apply H1].
  - intros i en eq s b Hi; change (entry_at (put_exchange p e' w) i) with (entry_at w i) in Hi.
    rewrite (live_put p _ e' e w He); case_decide as Hq; [|by eapply H2].
    intros [= <-] Hs; destruct Hsame as (_ & _ & [Hx|Hx]); [|congruence]; rewrite Hx in Hs; subst p; by eapply H2.
  - intros q c eq Hin; rewrite (live_put p q e' e w He); case_decide as Hq; [|by apply H4].
    intros [= <-]; subst q; eapply owes_same; [done|]; by eapply H4.
Qed.

Lemma acks_ok_entry E i en w :
  (forall e s b, live w (en_ec en) = Some e -> mSession e = Some s -> en_retainedBuf en = Some b -> packet_ok s b) ->
  upholds (acks_ok E) w (put_entry i en w).
Proof.
  intros Hb [H1 H2 H3 H4]; split; try done; intros j en' e s b Hj.
  destruct (entry_put_cases i j en en' w Hj) as [[_ ->]|Hj']; [apply Hb|by apply (H2 j en')].
Qed.

Lemma same_flag e f b : f <> kFlagInitiator -> same_exchange e (SetFlag f b e).
Proof. intros Hf; split_and!; [done|by apply Has_SetFlag_ne|by left]. Qed.
Lemma same_fields e e' :
  mExchangeId e' = mExchangeId e -> mFlags e' = mFlags e -> mSession e' = mSession e -> same_exchange e e'.
Proof. intros Hi Hf Hs; split_and!; [done|unfold IsInitiator, Has; by rewrite Hf|by left]. Qed.
Lemma ack_ok_flag e f b : f <> kFlagInitiator -> ack_state f = false -> ack_ok e -> ack_ok (SetFlag f b e).
Proof.
  intros Hi Ha [H1 H2]; unfold ack_ok; flags; rewrite !Has_SetFlag_ne by (intros Heq; subst f; done); split; [done|].
  intros Hv; eapply owes_same; [by apply same_flag|by apply H2].
Qed.
Lemma ack_ok_same e e' : mFlags e' = mFlags e -> mPendingPeerAckMessageCounter e' = mPendingPeerAckMessageCounter e ->
  same_exchange e e' -> ack_ok e -> ack_ok e'.
Proof.
  intros Hf Hc Hs [H1 H2]; unfold ack_ok, IsAckPending, HasPiggybackAckPending, Has in *; rewrite Hf, Hc; split; [done|].
  intros Hv; eapply owes_same; [done|by apply H2].
Qed.

#[local] Instance acks_framed E : Framed (upholds (acks_ok E)).
Proof.
  split; [typeclasses eauto|..].
  - intros w w' (Hp & Ht & Hl & _); apply acks_ok_same; [done..|]; rewrite Hl; auto.
  - intros ev w He; apply acks_ok_same; [done..|]; intros s b err Hin; apply in_app_or in Hin as [|[Hin|[]]]; [by left|].
    by subst ev.
  - intros p f b w e [Hf Hi] Ha He; eapply acks_ok_put; [done|by apply same_flag|]; intros _; by apply ack_ok_flag.
  - intros p v w e He; eapply acks_ok_put; [done|by apply same_fields|]; intros _; by apply ack_ok_same, same_fields.
  - intros p v w e He; eapply acks_ok_put; [done|by apply same_fields|]; intros _; by apply ack_ok_same, same_fields.
  - intros p w e He [H1 H2 H3 H4]; split; try done; unfold live; cbn.
    + intros q e'; rewrite At_insert by (by eapply At_range); case_decide; [done|apply H1].
    + intros i en e' s b Hi; rewrite At_insert by (by eapply At_range); case_decide; [done|by eapply H2].
    + intros q c e' Hin; rewrite At_insert by (by eapply At_range); case_decide; [done|by apply H4].
  - intros i w en Hi [H1 H2 H3 H4]; split; try done; unfold entry_at; cbn.
    intros j en' e s b; rewrite At_insert by (by eapply At_range); case_decide; [done|apply H2].
Qed.

#[local] Instance acks_closing E : Closing (upholds (acks_ok E)).
Proof.
  split; intros p; [intros w e He|intros v w e He|intros w e He]; (eapply acks_ok_put; [done|..]).
  - by apply same_flag.
  - intros _; by apply ack_ok_flag.
  - by apply same_fields.
  - intros _; by apply ack_ok_same, same_fields.
  - split_and!; [done..|by right].
  - intros _; apply ack_ok_same; [done..|]; split_and!; [done..|by right].
Qed.

Context `{MP : MessagingPlatform}.

Lemma acks_StartTimer E : keeps (upholds (acks_ok E)) StartTimer.
Proof. unfold StartTimer; keep; apply keeps_modify; intros w; apply acks_ok_same; auto. Qed.

Lemma acks_SendPrepared E s b : packet_ok s b -> keeps (upholds (acks_ok E)) (SendPreparedMessage s b).
Proof.
  intros Hb; unfold SendPreparedMessage, emit; keep; apply keeps_modify; intros w; apply acks_ok_same; [done..|].
  intros s' b' err' Hin; apply in_app_or in Hin as [|[Heq|[]]]; [by left|right]; by injection Heq as <- <- _.
Qed.

(** What is prepared carries the header it was given. *)
Lemma ens_prepare {B} J `{!Framed (upholds J)} h payload (k : result EncryptedPacketBuffer -> W B) w Q :
  J w -> (forall r w', J w' -> mRetransTable w' = mRetransTable w -> mContextPool w' = mContextPool w ->
    (forall b, r = Ok b -> pm_header b = h) -> ensures (k r) w' Q) -> ensures (bind (PrepareMessage h payload) k) w Q.
Proof.
  intros HJ Hk; apply ens_bind; unfold PrepareMessage; apply ens_bind; intros n w' [= <- <-]; apply ens_ret, Hk; try done.
  - by apply (fr_still (R := upholds J) w).
  - intros b; destruct (PrepareMessage_result (mCalls w)); [|done]; by intros [= <-].
Qed.

Lemma acks_edit_entry E i f :
  (forall en, en_ec (f en) = en_ec en /\ en_retainedBuf (f en) = en_retainedBuf en) ->
  keeps (upholds (acks_ok E)) (edit_entry i f).
Proof.
  intros Hf; apply keeps_edit_entry; intros w en Hi HJ; apply acks_ok_entry; [|done].
  destruct (Hf en) as [-> ->]; intros e s b; by apply (ao_entry _ _ HJ i en).
Qed.

Lemma acks_Calculate E i : keeps (upholds (acks_ok E)) (CalculateNextRetransTime i).
Proof. unfold CalculateNextRetransTime; keep; by apply acks_edit_entry. Qed.

Lemma acks_non_mrp E s h payload : header_ok s h -> keeps (upholds (acks_ok E)) (PrepareAndSendNonMRPMessage s h payload).
Proof.
  intros Hh; apply keeps_ens; intros w HJ; unfold PrepareAndSendNonMRPMessage.
  apply (ens_prepare (acks_ok E)); [done|]; intros [b|err] w' HJ' _ _ Hb; [|by apply ens_ret].
  apply ens_keeps; [|done]; apply acks_SendPrepared; unfold packet_ok; rewrite (Hb b eq_refl); by apply header_ok_needs.
Qed.

Local Hint Resolve acks_StartTimer acks_Calculate : keeps.

(** An exchange [p] of session [s] that is about to send. *)
Notation sends E p s := (fun w => acks_ok E w /\ on_session p s w).

Lemma acks_Add E p s w : sends E p s w -> ensures (AddToRetransTable p) w (fun r w' => sends E p s w' /\
  forall i, r = Ok i -> forall en, entry_at w' i = Some en -> en_ec en = p).
Proof.
  intros HK; unfold AddToRetransTable; apply ens_bind, ens_deref; intros e _.
  destruct (IsWaitingForAck e); [by apply ens_ret|]; apply ens_bind; intros w0 w0' [= <- <-].
  destruct (Allocate _) as [i|]; [|by apply ens_ret].
  apply (ens_step (sends E p s)); [apply frame_Retain; typeclasses eauto|done|]; intros _ w1 HK1.
  apply (ens_step (sends E p s)); [apply frame_edit; intros; by apply fr_flag|done|]; intros _ w2 [HJ2 Hs2].
  apply ens_bind; intros [] w3 [= <-]; apply ens_ret; split; [split; [by apply acks_ok_entry|done]|].
  intros j [= <-] en Hi; destruct (entry_put_cases i i _ en w2 Hi) as [[_ ->]|Hi']; [done|].
  unfold entry_at in Hi; cbn in Hi; rewrite At_insert in Hi by (by eapply At_range); rewrite decide_True in Hi by done.
  by injection Hi as <-.
Qed.

Lemma acks_retain_message E p s i b w : sends E p s w -> packet_ok s b ->
  (forall en, entry_at w i = Some en -> en_ec en = p) ->
  ensures (edit_entry i (set_retainedBuf (Some b))) w (fun _ w' => acks_ok E w').
Proof.
  intros [HJ Hs] Hb Hp; unfold edit_entry; apply ens_bind, ens_deref; intros en Hi; intros [] w' [= <-].
  apply acks_ok_entry; [|done]; intros e s' b'; change (en_ec (set_retainedBuf (Some b) en)) with (en_ec en).
  rewrite (Hp en Hi); intros He; rewrite (Hs e He); by intros [= <-] [= <-].
Qed.

Lemma acks_send_reliably E p s h payload w : sends E p s w -> header_ok s h ->
  ensures (send_reliably p s h payload) w (fun _ w' => acks_ok E w').
Proof.
  intros HK Hh; unfold send_reliably, StartRetransmision, ClearRetransEntry; apply ens_bind.
  eapply ens_mono; [apply (acks_Add E p s); exact HK|]; intros [i|err] w1 [HK1 Hi]; [|by apply ens_ret, HK1].
  apply (ens_prepare (sends E p s)); [done|]; intros [b|err] w2 HK2 Ht _ Hb; [|apply ens_keeps; [keep|apply HK2]].
  assert (Hok : packet_ok s b) by (unfold packet_ok; rewrite (Hb b eq_refl); by apply header_ok_needs).
  apply ens_bind; eapply ens_mono; [apply (acks_retain_message E p s i b); [done..|]|].
  { intros en; unfold entry_at; rewrite Ht; by apply Hi. }
  intros [] w3 HJ3; apply (ens_step (acks_ok E)); [by apply acks_SendPrepared|done|]; intros err w4 HJ4.
  apply ens_keeps; [keep|done].
Qed.

Lemma acks_take E p s e w : sends E p s w -> live w p = Some e ->
  ensures (TakePendingPeerAckMessageCounter p) w (fun c w' => sends E p s w' /\ c = mPendingPeerAckMessageCounter e).
Proof.
  intros [HJ Hs] He; unfold TakePendingPeerAckMessageCounter, edit; apply ens_bind, ens_bind, ens_deref; intros e0 He0.
  rewrite He in He0; injection He0 as <-; set (e1 := SetFlag kFlagAckPending false e); intros [] w2 [= <-].
  apply ens_bind, ens_deref; intros e2; rewrite (live_put_same p e1 e w He); intros [= <-]; apply ens_ret; split; [|done].
  split; [|by apply (on_session_put p s p e e1)].
  apply (acks_ok_put E p e e1 w); [done|by apply same_flag| |done]; intros _ [Ha Hb]; unfold ack_ok, e1; flags; split; [done|].
  intros Hv; eapply owes_same; [by apply same_flag|by apply Hb].
Qed.

Lemma acks_dispatch E p s rel protocol type payload w : sends E p s w ->
  ensures (Dispatch_SendMessage p s rel protocol type payload) w (fun _ w' => acks_ok E w').
Proof.
  intros HK; unfold Dispatch_SendMessage; apply ens_bind, ens_deref; intros e He; destruct (negb _); [by apply ens_ret, HK|].
  apply ens_bind, ens_deref; intros se Hse; set (h := SetInitiator _ _).
  assert (Hh : header_ok s h) by by intros c.
  destruct (AllowsMRP se); [|apply ens_keeps; [by apply acks_non_mrp|apply HK]].
  assert (Hsend : forall h' w1, header_ok s h' -> sends E p s w1 -> ensures (if IsReliableTransmissionAllowed (mDispatch e) &&
      Has e kFlagAutoRequestAck && rel then send_reliably p s h' payload else PrepareAndSendNonMRPMessage s h' payload)
      w1 (fun _ w' => acks_ok E w')).
  { intros h' w1 Hh' HK1; destruct (_ && rel); [by apply acks_send_reliably|].
    apply ens_keeps; [by apply acks_non_mrp|apply HK1]. }
  apply ens_bind; destruct (HasPiggybackAckPending e) eqn:Hpig; [|by apply ens_ret, Hsend].
  apply ens_bind; eapply ens_mono; [by apply (acks_take E p s e)|]; intros c w1 [HK1 ->]; apply ens_ret, Hsend; [|done].
  destruct HK as [HJ Hs]; destruct (ao_exchange _ _ HJ p e He) as [_ Hack]; intros c [= <-].
  rewrite sender_SetAck; unfold h; rewrite sender_SetInitiator; by apply Hack, (Hs e He).
Qed.

Lemma acks_SendMessage_with E handled p pr t b f :
  keeps (upholds (acks_ok E)) handled -> keeps (upholds (acks_ok E)) (SendMessage_with handled p pr t b f).
Proof.
  intros Hh; apply keeps_ens; intros w HJ; unfold SendMessage_with, with_ref; apply ens_bind, ens_deref; intros e He.
  destruct (mSession e) as [s|] eqn:Hs; [|by apply ens_ret].
  assert (HK : sends E p s w) by (split; [done|]; intros e'; rewrite He; by intros [= <-]).
  apply (ens_step (sends E p s)); [keep|done|]; intros _ w1 HK1.
  apply (ens_step (sends E p s)); [apply frame_Retain; typeclasses eauto|done|]; intros _ w2 HK2.
  apply ens_bind; apply ens_mono with (P := fun _ w' => acks_ok E w').
  2: { intros r w' HJ'; apply ens_keeps; [keep|done]. }
  apply (ens_step (sends E p s)); [apply frame_group; typeclasses eauto|done|]; intros group w3 HK3.
  apply (ens_step (sends E p s)); [keep|done|]; intros se w4 HK4.
  apply (ens_step (sends E p s)); [destruct (_ && _); [apply frame_expect_response; typeclasses eauto|keep]|done|].
  intros [expecting|err] w5 HK5; [|by apply ens_ret, HK5].
  apply ens_bind, ens_deref; intros e5 _; destruct (_ && _); [by apply ens_ret, HK5|].
  apply ens_bind; eapply ens_mono; [apply (acks_dispatch E p s); exact HK5|]; intros err w6 HJ6; apply ens_keeps; [keep|done].
Qed.

#[local] Instance acks_sending E : Sending (upholds (acks_ok E)).
Proof. split; [apply acks_StartTimer|intros; by apply acks_SendMessage_with]. Qed.

(** ** Receiving *)

Lemma acks_more E E' w : acks_ok E' w -> incl E E' -> acks_ok E w.
Proof. intros [H1 H2 H3 H4] Hi; split; try done; intros p c e Hin; apply H4, Hi, Hin. Qed.

Lemma acks_set_pending E p c : In (p, c) E -> keeps (upholds (acks_ok E)) (SetPendingPeerAckMessageCounter p c).
Proof.
  intros Hin; apply keeps_ens; intros w HJ; unfold SetPendingPeerAckMessageCounter, edit.
  apply ens_bind, ens_bind, ens_deref; intros e He; intros [] w1 [= <-].
  set (e1 := set_mPendingPeerAckMessageCounter c e); apply ens_bind, ens_bind, ens_deref; intros e1'.
  rewrite (live_put_same p e1 e w He); intros [= <-] [] w2 [= <-]; rewrite put_put; set (e2 := SetFlag _ _ e1).
  apply ens_bind, ens_deref; intros e2'; rewrite (live_put_same p e2 e w He); intros [= <-] [] w3 [= <-]; rewrite put_put.
  assert (Hsame : same_exchange e (SetFlag kFlagAckMessageCounterIsValid true e2))
    by (unfold e2; split_and!; [done|by flags|by left]).
  apply (acks_ok_put E p e); [done..| |done]; intros _ _; unfold ack_ok, e2; flags; split; [done|]; intros _.
  eapply owes_same; [exact Hsame|by apply (ao_new _ _ HJ p c e Hin)].
Qed.

Lemma acks_needs E p c d : In (p, c) E -> keeps (upholds (acks_ok E)) (HandleNeedsAck p c d).
Proof.
  intros Hin; unfold HandleNeedsAck; apply keep_bind; [typeclasses eauto| |intros err; keep].
  unfold HandleNeedsAckInner.
  apply keeps_ens; intros w HJ.
  apply ens_bind, ens_deref; intros e He; destruct (ao_exchange _ _ HJ p e He) as [Hp Hv].
  assert (Htime : forall E v, keeps (upholds (acks_ok E)) (edit p (set_mNextAckTime v))).
  { intros E0 v; apply keeps_edit; intros w0 e0 He0; eapply acks_ok_put; [done|by apply same_fields|].
    intros _; by apply ack_ok_same, same_fields. }
  destruct d; [|apply ens_keeps; [|done]; keep; by apply acks_set_pending].
  destruct (HasPiggybackAckPending e) eqn:Hpig.
  - set (temp := mPendingPeerAckMessageCounter e).
    assert (HJ' : acks_ok ((p, temp) :: E) w).
    { destruct HJ as [H1 H2 H3 H4]; split; try done; intros q c' e' [[= <- <-]|Hq]; [|by apply H4].
      rewrite He; intros [= <-]; by apply Hv. }
    eapply ens_mono; [eapply (ens_keeps _ (acks_ok ((p, temp) :: E))); [|done]|].
    + apply keep_bind; [typeclasses eauto|apply acks_set_pending; by right|intros _]; keep.
      * apply acks_set_pending; by left.
      * apply keeps_edit; intros w0 e0 He0 HJ0; eapply acks_ok_put; [exact He0|by apply same_fields| |done].
        intros _ [Ha Hb]; split; [exact Ha|intros _]; eapply owes_same; [by apply (same_fields e0)|].
        by apply (ao_new _ _ HJ0 p temp e0 (or_introl eq_refl)).
    + intros r w' H; eapply acks_more; [exact H|]; intros x Hx; by right.
  - assert (Hna : IsAckPending e = false) by (destruct (IsAckPending e); [by discriminate Hp|done]).
    rewrite Hna; apply ens_keeps; [|done]; cbn [andb when]; keep; by apply acks_set_pending.
Qed.

Lemma acks_retransmit E t i : keeps (upholds (acks_ok E)) (retransmit_due t i).
Proof.
  assert (Hsend : keeps (upholds (acks_ok E)) (SendFromRetransTable i)).
  { apply keeps_ens; intros w HJ.
    unfold SendFromRetransTable; apply ens_bind, ens_deref; intros en Hi; apply ens_bind, ens_deref; intros e He.
    destruct (mSession e) as [s|] eqn:Hs; [|apply ens_keeps; [|done]; keep].
    apply ens_bind, ens_deref; intros b Hb; apply ens_keeps; [|done].
    apply keep_bind; [typeclasses eauto|apply acks_SendPrepared; by apply (ao_entry _ _ HJ i en e)|intros err]; keep. }
  assert (Hcount : forall v, keeps (upholds (acks_ok E)) (edit_entry i (set_sendCount v)))
    by (intros v; by apply acks_edit_entry).
  unfold retransmit_due; keep.
Qed.

Context `{AP : Application}.
Notation J := (acks_ok []).

(** No entry of the retransmission table is of an exchange that is gone. *)
Definition entries_live (w : World) : Prop := forall i en, entry_at w i = Some en -> is_Some (live w (en_ec en)).
Lemma Inv_entries g w : Inv g w -> entries_live w.
Proof. intros HI i en Hi; destruct (entry_live g i en w HI Hi) as [e He]; by exists e. Qed.

(** What an exchange has that was made for [id], in the role [init], on session [s]. *)
Definition made_for (id : Z) (s : nat) (init : bool) (e : Exchange) : Prop :=
  mExchangeId e = id /\ IsInitiator e = init /\ forall s', mSession e = Some s' -> s' = s.

Lemma new_exchange_made id s se init d eph :
  let x := new_exchange id s se init d eph in made_for id s init x /\ HasPiggybackAckPending x = false.
Proof.
  unfold made_for, new_exchange; destruct (init && negb eph); flags; rewrite ?Has_zero by done;
    (split_and!; [done..| |done]); cbn; destruct (IsActiveSession se); [|done| |done]; by intros s' [= <-].
Qed.

Lemma acks_new id s se init d eph w p pool :
  CreateObject (mContextPool w) (new_exchange id s se init d eph) = Some (p, pool) -> entries_live w -> J w ->
  J (set_mContextPool pool w) /\ forall e, live (set_mContextPool pool w) p = Some e -> made_for id s init e.
Proof.
  destruct (new_exchange_made id s se init d eph) as [Hmade Hv].
  pose proof (new_exchange_flags id s se init d eph) as (_ & _ & _ & Ha & _); set (x := new_exchange id s se init d eph) in *.
  unfold CreateObject; destruct (Allocate (mContextPool w)) as [i|] eqn:Hp; [|done]; intros [= -> <-] Hlive.
  destruct (Allocate_free _ _ Hp) as [Hlen Hfree]; set (w' := set_mContextPool _ w).
  assert (Hl : forall q, live w' q = if decide (p = q) then Some x else live w q) by (intros q; by apply At_insert).
  intros [H1 H2 H3 H4]; split; [split; try done|].
  - intros q e; rewrite Hl; case_decide; [intros [= <-]|apply H1]; split; congruence.
  - intros j en e s' b Hj; rewrite Hl; case_decide as Hq; [|by eapply H2].
    destruct (Hlive j en Hj) as [e' He']; rewrite <-Hq in He'; unfold live in He'; congruence.
  - intros e; rewrite Hl, decide_True by done; by intros [= <-].
Qed.

Lemma acks_create id s init d eph w : entries_live w -> J w ->
  ensures (CreateExchange id s init d eph) w (fun o w' => J w' /\
    forall p e, o = Some p -> live w' p = Some e -> made_for id s init e).
Proof.
  intros Hl HJ; unfold CreateExchange; apply ens_bind, ens_deref; intros se Hse.
  intros o w'; unfold bind, get, modify, ret; cbn.
  destruct (CreateObject _ _) as [[p pool]|] eqn:Hc; intros [= <- <-]; [|by split].
  destruct (acks_new _ _ _ _ _ _ _ _ _ Hc Hl HJ) as [HJ' Hid]; split; [done|]; intros q e [= <-]; apply Hid.
Qed.

(** The exchange of a message that is received: the other side of the sender's. *)
Definition receives (s : nat) (h : PayloadHeader) (e : Exchange) : Prop :=
  made_for (mExchangeID h) s (negb (MessageHeader.IsInitiator h)) e.
(** What a message that asks for an acknowledgement must be. *)
Definition grants (s : nat) (h : PayloadHeader) (c : Z) : Prop :=
  NeedsAck h = true -> P s (negb (MessageHeader.IsInitiator h)) (mExchangeID h) c.

Lemma acks_message p c h s d b w : J w -> (forall e, live w p = Some e -> receives s h e) ->
  grants s h c -> ensures (HandleMessage p c h d b) w (fun _ w' => J w').
Proof.
  intros HJ Hid HP; destruct (NeedsAck h) eqn:Hn.
  - eapply ens_mono; [apply (ens_keeps _ (acks_ok [(p, c)]))|intros a w' H; eapply acks_more; [exact H|apply incl_nil_l]].
    + apply frame_HandleMessage; try typeclasses eauto; intros _; apply acks_needs; by left.
    + destruct HJ as [H1 H2 H3 H4]; split; try done; intros q c' e [[= <- <-]|[]] He s' Hs'.
      destruct (Hid e He) as (Hi & Hr & Hss); rewrite Hi, Hr, (Hss s' Hs'); by apply HP.
  - apply ens_keeps; [|done]; apply frame_HandleMessage; try typeclasses eauto; congruence.
Qed.

Lemma acks_needed c h s dup b w : entries_live w -> J w -> grants s h c ->
  ensures (SendStandaloneAckIfNeeded c h s dup b) w (fun _ w' => J w').
Proof.
  intros Hl HJ HP; unfold SendStandaloneAckIfNeeded; apply ens_bind, ens_deref; intros se _.
  destruct (_ || _); [by apply ens_ret|]; apply ens_bind; eapply ens_mono; [by apply acks_create|].
  intros [p|] w1 [HJ1 Hid]; [|by apply ens_ret]; apply ens_bind; eapply ens_mono;
    [apply (acks_message p c h s); [done|intros e; by apply Hid|done]|intros; by apply ens_ret].
Qed.

Lemma acks_find s pk h l w : ensures (find_exchange s pk h l) w (fun o w' => w' = w /\
  forall p e, o = Some p -> live w p = Some e -> receives s h e).
Proof.
  induction l as [|p l IH]; cbn [find_exchange]; [by apply ens_ret|].
  apply ens_bind, ens_deref; intros e He; apply ens_bind; unfold MatchExchange; destruct (_ && _) eqn:Hm; [|apply ens_ret, IH].
  apply andb_true_iff in Hm as [Hid%Z.eqb_eq Hs%bool_decide_eq_true].
  destruct (IsEncryptionRequired (mDispatch e)); [|by intros a w']; apply ens_ret; destruct (_ && _) eqn:Hr; [|exact IH].
  apply andb_true_iff in Hr as [_ Hr%negb_true_iff%eqb_false_iff].
  apply ens_ret; split; [done|]; intros q e' [= <-]; rewrite He; intros [= <-]; split_and!; [done| |congruence].
  destruct (MessageHeader.IsInitiator h), (IsInitiator e); done.
Qed.

Context (wake_timers : forall n, StartWakeTimer_result n = CHIP_NO_ERROR).
Context (dispatches : forall d, GetMessageDispatch_of d <> EphemeralExchangeDispatch).

Lemma acks_start owners handler pk h s se dup b w :
  Inv (rest owners) w -> tame owners w -> mSessions w !! s = Some se -> IsActiveSession se = true ->
  MessageHeader.IsInitiator h = true -> J w -> grants s h (mMessageCounter pk) ->
  ensures (start_exchange handler pk h s dup b) w (fun _ w' => J w').
Proof.
  intros HI Ht Hse Hact Hini HJ HP; unfold start_exchange; apply ens_bind; intros n w1 [= <- <-]; set (w1 := set_mCalls _ w).
  assert (HI1 : Inv (rest owners) w1) by (by apply (Inv_same _ w)).
  assert (HJ1 : J w1) by (by apply (acks_ok_same [] w); auto).
  destruct (OnUnsolicitedMessageReceived _ _ _ _) as [d|]; [|by apply acks_needed; [eapply Inv_entries|..]].
  apply ens_bind; eapply ens_runs.
  { eapply (runs_CreateExchange _ _ s se false d false w1 (fun o w2 => match o with None => True | Some p =>
      Inv (rest ({[p]} ∪ owners)) w2 /\ tame ({[p]} ∪ owners) w2 /\ is_Some (live w2 p) end)); [exact HI1|done|done|].
    intros p w2 x HI2 Hx Hn Hq _ _; split_and!; [done| |by exists x].
    eapply (tame_create owners p x w1); try done; [unfold x; rewrite new_dispatch; by apply dispatch_ok|].
    by apply new_exchange_flags. }
  eapply ens_mono; [by apply acks_create; [eapply Inv_entries|]|]; intros [p|] w2 [HJ2 Hid2].
  2: { intros _; destruct d; [|by apply ens_ret]; apply ens_keeps; [keep|done]. }
  intros (HI2 & Ht2 & [e2 He2]); apply ens_bind, ens_deref; intros e He.
  destruct (IsEncryptionRequired (mDispatch e)); [|by intros a w'].
  assert (Hto : forall e', live w2 p = Some e' -> receives s h e').
  { intros e' He'; unfold receives; rewrite Hini; by apply (Hid2 p). }
  destruct (negb _); [|apply ens_bind; eapply ens_mono; [by apply (acks_message p _ h s)|intros; by apply ens_ret]].
  apply ens_bind; eapply ens_runs; [eapply (runs_close wake_timers ({[p]} ∪ owners)); [done..|set_solver]|].
  eapply ens_mono; [apply (ens_keeps _ J); [apply frame_Close; typeclasses eauto|done]|].
  intros [] w3 HJ3 (o3 & HI3 & _); apply acks_needed; [by eapply Inv_entries|done..].
Qed.

Lemma acks_received pk h s dup b w : Safe w -> J w -> grants s h (mMessageCounter pk) ->
  ensures (OnMessageReceived pk h s dup b) w (fun _ w' => J w').
Proof.
  intros (owners & HI & Ht) HJ HP; unfold OnMessageReceived; apply ens_bind; intros w0 w0' [= <- <-]; apply ens_bind.
  apply ens_mono with (P := fun o w' => w' = w /\ forall p e, o = Some p -> live w p = Some e -> receives s h e).
  { destruct (IsGroupSession pk); [by apply ens_ret|apply acks_find]. }
  intros [p|] w1 [-> Hid].
  { apply ens_bind; eapply ens_mono; [apply (acks_message p _ h s); [done|intros e; by apply Hid|done]|intros; by apply ens_ret]. }
  assert (Hneed : ensures (SendStandaloneAckIfNeeded (mMessageCounter pk) h s dup b) w (fun _ w' => J w'))
    by (apply acks_needed; [by eapply Inv_entries|done..]).
  apply ens_bind, ens_deref; intros se Hse; destruct (negb (IsActiveSession se)) eqn:Hact; [by apply ens_ret|].
  apply negb_false_iff in Hact.
  destruct (negb dup && _) eqn:Hini; [|destruct (negb (NeedsAck h)); [by apply ens_ret|exact Hneed]].
  apply andb_true_iff in Hini as [_ Hini].
  destruct (find_handler _ _ _) as [handler|]; [|exact Hneed]; by eapply acks_start.
Qed.

Lemma acks_exec l w : Safe w -> J w ->
  match l with Receive pk h s _ _ => grants s h (mMessageCounter pk) | _ => True end ->
  ensures (exec l) w (fun _ w' => J w').
Proof.
  intros Hsafe HJ Hl; destruct l; try (apply ens_keeps; [|done]; by apply frame_exec_old; try typeclasses eauto).
  - apply ens_keeps; [|done]; apply keeps_modify; intros w0; apply acks_ok_same; auto.
  - apply ens_keeps; [|done]; cbn [exec].
    apply keep_bind; [typeclasses eauto|apply keeps_modify; intros w0; apply acks_ok_same; auto|intros _].
    apply frame_Timeout; try typeclasses eauto; apply acks_retransmit.
  - by apply acks_received.
  - destruct Hsafe as (owners & HI & _); cbn [exec]; unfold done_after, NewContext; apply ens_bind, ens_bind, ens_deref.
    intros se Hse; destruct (negb _); [by apply ens_ret, ens_ret|]; apply ens_bind; intros w0 w0' [= <- <-].
    apply ens_bind; intros [] w1 [= <-]; set (w1 := set_mNextExchangeId _ w).
    assert (HI1 : Inv (rest owners) w1) by (by apply (Inv_same _ w)).
    eapply ens_mono; [apply acks_create; [by eapply Inv_entries|by apply (acks_ok_same [] w); auto]|].
    intros o w2 [HJ2 _]; by apply ens_ret.
Qed.

End Acks.

(** ** What is acknowledged *)

(** The steps made since the manager was initialized. *)
Inductive history `{MessagingPlatform} `{Application} : list Label -> World -> Prop :=
| history_new t exchangeId sessions : history [] (new_manager t exchangeId sessions)
| history_step ls w l w' : history ls w -> allowed w l -> exec l w = (Ok tt, w') -> history (ls ++ [l]) w'.

(** A message with counter [c] that asks for an acknowledgement was received on session
    [s], from the other side of exchange [id]: it is the initiator's exactly if this side,
    with the role [initiator], is not. *)
Definition asked (ls : list Label) (s : nat) (initiator : bool) (id c : Z) : Prop := exists pk h dup payload,
  In (Receive pk h s dup payload) ls /\ NeedsAck h = true /\ mExchangeID h = id /\
  MessageHeader.IsInitiator h = negb initiator /\ mMessageCounter pk = c.

Lemma acks_ok_mono (P P' : nat -> bool -> Z -> Z -> Prop) w :
  (forall s i id c, P s i id c -> P' s i id c) -> acks_ok P [] w -> acks_ok P' [] w.
Proof.
  intros HP [H1 H2 H3 H4]; split; [| | |by intros p c e []].
  - intros p e He; destruct (H1 p e He) as [Ha Hb]; split; [done|]; intros Hv s Hs; by apply HP, Hb.
  - intros i en e s b Hi He Hs Hb c Hc; by apply HP, (H2 i en e s b).
  - intros s b err Hin c Hc; by apply HP, (H3 s b err).
Qed.

Section History.
Context `{MP : MessagingPlatform} `{AP : Application}.

Lemma history_reachable ls w : history ls w -> reachable w.
Proof. induction 1; [apply reach_new|by eapply reach_step]. Qed.

Lemma history_acks ls w : timer_starts -> well_behaved -> history ls w -> acks_ok (asked ls) [] w.
Proof.
  intros Ht Hw; induction 1 as [t id ss|ls w0 l w' H1 IH Hl E].
  - split; [| |by intros s b err []|by intros p c e []].
    + intros p e; unfold live, At; cbn [mContextPool new_manager]; destruct (_ !! p) eqn:E; [|done].
      by apply lookup_replicate in E as [-> _].
    + intros i en e s b; unfold entry_at, At; cbn [mRetransTable new_manager]; destruct (_ !! i) eqn:E; [|done].
      by apply lookup_replicate in E as [-> _].
  - eapply (acks_exec (asked (ls ++ [l])) Ht (proj1 Hw) l w0); [|..|destruct l; try done|exact E].
    + eapply reachable_safe; [done..|by eapply history_reachable].
    + eapply acks_ok_mono; [|exact IH]; intros s i id c (pk & h & dup & b & Hin & Hr).
      exists pk, h, dup, b; split; [apply in_or_app; by left|done].
    + intros Hn; exists packetHeader, header, isDuplicate, payload; split_and!; try done; [|by rewrite negb_involutive].
      apply in_or_app; right; by left.
Qed.

(** C8: the manager acknowledges only what it has received.  Whatever happens - messages
    lost, repeated and out of order, failing transports, delegates that answer, close or
    time out - every acknowledgement in a message that is handed to the transport, for
    the first time or again, alone or on another message, is for a message that was
    received before on the same session, asked for it, and belongs to the same exchange:
    it has the same exchange identifier and was sent by the other side, the initiator's if
    the acknowledgement is the responder's and the responder's if it is the initiator's.
    Assumed is what C5 assumes: the wake-up timer can be started, delegates do not close
    their exchange while they are told of a time-out, and the manager is called as
    [allowed] says. *)
Theorem acks_answer_messages (ls : list Label) (w : World)
    (s : nat) (packet : EncryptedPacketBuffer) (err : CHIP_ERROR) (c : Z) :
  timer_starts -> well_behaved -> history ls w ->
  In (Sent s packet err) (mLog w) -> mAckMessageCounter (pm_header packet) = Some c ->
  asked ls s (MessageHeader.IsInitiator (pm_header packet)) (mExchangeID (pm_header packet)) c.
Proof. intros Ht Hw H1 Hin Hc; by apply (ao_sent _ _ _ (history_acks ls w Ht Hw H1) s packet err Hin). Qed.

End History.

(** *** An answer that is acknowledged with the next message *)

Lemma history_after `{MessagingPlatform} `{Application} ls l w :
  history ls (after ls w) -> (exec l (after ls w)).1 = Ok tt -> allowed (after ls w) l ->
  history (ls ++ [l]) (after (ls ++ [l]) w).
Proof.
  intros Hr E Hl; eapply history_step; [done..|]; unfold after at 2; rewrite fold_left_app; cbn [fold_left].
  unfold after in *; destruct (exec l _); cbn in *; by subst.
Qed.

#[local] Existing Instance steady_platform.
#[local] Existing Instance answering_application.

Definition two_messages : list Label := request ++ [answer].

Lemma history_two_messages : history two_messages (after two_messages start).
Proof.
  apply (history_after request); [|vm_compute; reflexivity|apply answer_allowed].
  apply (history_after [CallNewContext 0 (Some 1%nat) true; CallSetResponseTimeout 0 5000]); [|vm_compute; reflexivity..].
  apply (history_after [CallNewContext 0 (Some 1%nat) true]); [|vm_compute; reflexivity..].
  apply (history_after []); [apply history_new|vm_compute; reflexivity|by exists case_session].
Qed.

Lemma acks_answer_messages_witness : asked two_messages 0 true 77 500.
Proof.
  apply (acks_answer_messages two_messages (after two_messages start) 0
    (MkPrepared 7 (SetNeedsAck (SetAckMessageCounter (SetInitiator (SetMessageType (SetExchangeID PayloadHeader_new 77)
       InteractionModel_Id 5) true) (Some 500)) true) []) CHIP_NO_ERROR).
  - done.
  - apply steady_well_behaved.
  - apply history_two_messages.
  - vm_compute; tauto.
  - reflexivity.
Defined.
