(* ===== verification/ExchangeHandlers.v ===== *)
(** * ExchangeHandlers: the table of handlers is a map

    The handlers of unsolicited messages, an array of slots that is searched from its
    beginning, answer every sequence of registrations, unregistrations and received
    messages as a finite map of limited size does. *)

From stdpp Require Import gmap.
From S2P Require Import Prelude Encoding MessageHeader BdxMessages Pool Runs Exchange ExchangeMgr.

(** ** The map *)

(** Vendor, protocol and message type. *)
Abbreviation key := (Z * Z * Z)%type.
Definition key_of (protocol : ProtocolId) (type : Z) : key := (GetVendorId protocol, GetProtocolId protocol, type).

Definition map_register (k : key) (handler : nat) (m : gmap key nat) : CHIP_ERROR * gmap key nat :=
  if bool_decide (is_Some (m !! k)) || bool_decide (size m < MAX_UNSOLICITED_MESSAGE_HANDLERS)%nat
  then (CHIP_NO_ERROR, <[k := handler]> m)
  else (CHIP_ERROR_TOO_MANY_UNSOLICITED_MESSAGE_HANDLERS, m).

Definition map_unregister (k : key) (m : gmap key nat) : CHIP_ERROR * option nat * gmap key nat :=
  match m !! k with
  | Some handler => (CHIP_NO_ERROR, Some handler, delete k m)
  | None => (CHIP_ERROR_NO_UNSOLICITED_MESSAGE_HANDLER, None, m)
  end.

(** A handler of the very type comes before one of the whole protocol. *)
Definition map_find (header : PayloadHeader) (m : gmap key nat) : option nat :=
  match m !! key_of (mProtocolID header) (mMessageType header) with
  | Some handler => Some handler
  | None => m !! key_of (mProtocolID header) kAnyMessageType
  end.

(** ** What is asked, and what is answered *)

Inductive Request :=
| Register (protocol : ProtocolId) (type : Z) (handler : nat)
| Unregister (protocol : ProtocolId) (type : Z)
| Lookup (header : PayloadHeader).
Inductive Answer := Registered (err : CHIP_ERROR) | Unregistered (err : CHIP_ERROR) (handler : option nat)
  | Found (handler : option nat).

Definition table_step (l : list UnsolicitedMessageHandlerSlot) (r : Request) :
  Answer * list UnsolicitedMessageHandlerSlot :=
  match r with
  | Register protocol type handler => let (err, l) := RegisterUMH protocol type handler l in (Registered err, l)
  | Unregister protocol type => let '(err, h, l) := UnregisterUMH protocol type l in (Unregistered err h, l)
  | Lookup header => (Found (find_handler header l None), l)
  end.
Definition map_step (m : gmap key nat) (r : Request) : Answer * gmap key nat :=
  match r with
  | Register protocol type handler => let (err, m) := map_register (key_of protocol type) handler m in (Registered err, m)
  | Unregister protocol type => let '(err, h, m) := map_unregister (key_of protocol type) m in (Unregistered err h, m)
  | Lookup header => (Found (map_find header m), m)
  end.

Fixpoint answers {S} (step : S -> Request -> Answer * S) (s : S) (l : list Request) : list Answer :=
  match l with
  | [] => []
  | r :: l => let (a, s) := step s r in a :: answers step s l
  end.

(** ** Slots as pairs *)

Definition pair_of (umh : UnsolicitedMessageHandlerSlot) : option (key * nat) :=
  handler ← um_Handler umh; Some (key_of (um_ProtocolId umh) (um_MessageType umh), handler).
Definition pairs (l : list UnsolicitedMessageHandlerSlot) : list (key * nat) := omap pair_of l.
Definition represents (l : list UnsolicitedMessageHandlerSlot) (m : gmap key nat) : Prop :=
  NoDup (pairs l).*1 /\ m = list_to_map (pairs l) /\ length l = MAX_UNSOLICITED_MESSAGE_HANDLERS.

Lemma protocol_eqb_eq a b : protocol_eqb a b = true <-> a = b.
Proof.
  unfold protocol_eqb; rewrite andb_true_iff, !Z.eqb_eq; destruct a, b; cbn; split; [by intros [-> ->]|by intros [= -> ->]].
Qed.

Lemma Matches_key umh protocol type :
  Matches umh protocol type = true <-> key_of (um_ProtocolId umh) (um_MessageType umh) = key_of protocol type.
Proof.
  unfold Matches, key_of; rewrite andb_true_iff, protocol_eqb_eq, Z.eqb_eq; split; [by intros [-> ->]|].
  destruct (um_ProtocolId umh), protocol; cbn; by intros [= -> -> ->].
Qed.

Lemma pairs_app l l' : pairs (l ++ l') = pairs l ++ pairs l'.
Proof. apply omap_app. Qed.

Lemma pair_of_used umh : IsInUse umh = true ->
  exists h, um_Handler umh = Some h /\ pair_of umh = Some (key_of (um_ProtocolId umh) (um_MessageType umh), h).
Proof. unfold IsInUse, pair_of; destruct (um_Handler umh) as [h|]; [by exists h|done]. Qed.

Lemma pair_of_free umh : IsInUse umh = false -> pair_of umh = None.
Proof. unfold IsInUse, pair_of; destruct (um_Handler umh); done. Qed.

Lemma pairs_cons umh l : pairs (umh :: l) = match pair_of umh with Some x => x :: pairs l | None => pairs l end.
Proof. done. Qed.

(** Where [select_slot] ends: at the slot that matches, or nothing matches and it is the
    first free slot, if there is one. *)
Definition matched (protocol : ProtocolId) (type : Z) l (k : nat) : Prop :=
  exists l1 umh l2, l = l1 ++ umh :: l2 /\ k = length l1 /\ IsInUse umh = true /\ Matches umh protocol type = true.
Definition vacant l (k : nat) : Prop := exists l1 umh l2, l = l1 ++ umh :: l2 /\ k = length l1 /\ IsInUse umh = false.

Lemma select_slot_spec protocol type l i selected :
  (exists k, select_slot protocol type l i selected = Some (i + k)%nat /\ matched protocol type l k) \/
  (key_of protocol type ∉ (pairs l).*1 /\
   match selected with
   | Some s => select_slot protocol type l i selected = Some s
   | None => (exists k, select_slot protocol type l i None = Some (i + k)%nat /\ vacant l k) \/
             (select_slot protocol type l i None = None /\ length (pairs l) = length l)
   end).
Proof.
  revert i selected; induction l as [|umh l IH]; intros i selected; cbn [select_slot].
  { right; split; [apply not_elem_of_nil|]; destruct selected; [done|by right]. }
  assert (Hcons : forall k, matched protocol type l k -> matched protocol type (umh :: l) (S k)).
  { intros k (l1 & u & l2 & -> & -> & H); by exists (umh :: l1), u, l2. }
  assert (Hcons' : forall k, vacant l k -> vacant (umh :: l) (S k)).
  { intros k (l1 & u & l2 & -> & -> & H); by exists (umh :: l1), u, l2. }
  rewrite pairs_cons; destruct (IsInUse umh) eqn:Hu; cbn [negb].
  - destruct (pair_of_used umh Hu) as (h & _ & ->).
    destruct (Matches umh protocol type) eqn:Hm; [left; exists 0%nat; split; [by rewrite Nat.add_0_r|by exists [], umh, l]|].
    assert (Hk : key_of protocol type <> key_of (um_ProtocolId umh) (um_MessageType umh)).
    { intros Hk; symmetry in Hk; apply Matches_key in Hk; congruence. }
    destruct (IH (S i) selected) as [(k & E & H)|[Hn H]].
    + left; exists (S k); split; [by rewrite E, Nat.add_succ_r|by apply Hcons].
    + right; split; [by rewrite fmap_cons, not_elem_of_cons|]; destruct selected; [done|].
      destruct H as [(k & E & H)|[E H]]; [left; exists (S k); split; [by rewrite E, Nat.add_succ_r|by apply Hcons']|].
      right; split; [done|]; cbn; by rewrite H.
  - rewrite (pair_of_free umh Hu); destruct (IH (S i) (match selected with None => Some i | Some _ => selected end))
      as [(k & E & H)|[Hn H]].
    + left; exists (S k); split; [by rewrite E, Nat.add_succ_r|by apply Hcons].
    + right; split; [done|]; destruct selected; [done|]; left; exists 0%nat; rewrite Nat.add_0_r; split; [done|].
      by exists [], umh, l.
Qed.

Lemma insert_middle {A} (l1 : list A) x y l2 : <[length l1 := y]> (l1 ++ x :: l2) = l1 ++ y :: l2.
Proof. by rewrite insert_app_r_alt, Nat.sub_diag. Qed.

Lemma represents_size l m : represents l m -> size m = length (pairs l).
Proof. intros (Hnd & -> & _); by rewrite map_size_list_to_map. Qed.

Lemma pairs_length l : (length (pairs l) <= length l)%nat.
Proof. induction l as [|u l IH]; [done|]; rewrite pairs_cons; destruct (pair_of u); cbn; lia. Qed.

(** A map made of pairs in the middle of which [k] is replaced, added or removed. *)
Lemma map_middle (a b : list (key * nat)) k h :
  NoDup (a ++ (k, h) :: b).*1 -> list_to_map (a ++ (k, h) :: b) = <[k := h]> (list_to_map (a ++ b) : gmap key nat).
Proof.
  intros Hnd; rewrite (list_to_map_proper _ ((k, h) :: (a ++ b))); [done|done|symmetry; apply Permutation_middle].
Qed.

Lemma nodup_middle (a b : list (key * nat)) k h :
  NoDup (a ++ (k, h) :: b).*1 <-> k ∉ (a ++ b).*1 /\ NoDup (a ++ b).*1.
Proof. rewrite !fmap_app, fmap_cons; cbn; rewrite <-Permutation_middle; apply list.NoDup_cons. Qed.

Lemma represents_register l m protocol type h : represents l m ->
  forall err l', RegisterUMH protocol type h l = (err, l') ->
  exists m', map_register (key_of protocol type) h m = (err, m') /\ represents l' m'.
Proof.
  intros Hrep err l'; pose proof (represents_size l m Hrep) as Hsz; destruct Hrep as (Hnd & -> & Hlen).
  unfold RegisterUMH, map_register; destruct (select_slot_spec protocol type l 0 None)
    as [(k & -> & l1 & umh & l2 & -> & -> & Hu & Hm)|[Hn [(k & -> & l1 & umh & l2 & -> & -> & Hu)|[-> Hfull]]]].
  - intros [= <- <-]; destruct (pair_of_used umh Hu) as (h0 & _ & Hp); apply Matches_key in Hm; rewrite Hm in Hp.
    rewrite ?Nat.add_0_l, insert_middle.
    rewrite pairs_app, pairs_cons, Hp in Hnd |- *; pose proof (proj1 (nodup_middle _ _ _ _) Hnd) as [Hk Hnd'].
    rewrite map_middle, lookup_insert_eq, insert_insert_eq by done; cbn [orb bool_decide].
    rewrite bool_decide_true by done; cbn [orb]; eexists; split; [done|].
    unfold represents; rewrite pairs_app, pairs_cons; cbn [pair_of um_Handler um_ProtocolId um_MessageType mbind option_bind].
    rewrite map_middle by (by apply nodup_middle); split_and!; [by apply nodup_middle|done|].
    rewrite length_app in Hlen |- *; done.
  - intros [= <- <-]; rewrite ?Nat.add_0_l, insert_middle.
    rewrite pairs_app, pairs_cons, (pair_of_free umh Hu) in *.
    rewrite (bool_decide_true (size _ < _)%nat), orb_true_r.
    2: { rewrite Hsz, <-Hlen, !length_app; cbn; pose proof (pairs_length l1); pose proof (pairs_length l2); lia. }
    eexists; split; [done|]; unfold represents; rewrite pairs_app, pairs_cons.
    cbn [pair_of um_Handler um_ProtocolId um_MessageType mbind option_bind].
    assert (NoDup (pairs l1 ++ (key_of protocol type, h) :: pairs l2).*1) by (by apply nodup_middle).
    rewrite map_middle by done; split_and!; [done..|]; rewrite length_app in Hlen |- *; done.
  - intros [= <- <-]; rewrite bool_decide_false, bool_decide_false; [by eexists|rewrite Hsz; lia|].
    rewrite not_elem_of_list_to_map_1 by done; by intros [].
Qed.

(** [UnregisterUMH]: the slot that matches is made free, or nothing matches. *)
Lemma unregister_spec protocol type l :
  (exists l1 umh l2 h, l = l1 ++ umh :: l2 /\ um_Handler umh = Some h /\ Matches umh protocol type = true /\
     UnregisterUMH protocol type l = (CHIP_NO_ERROR, Some h, l1 ++ slot_Reset umh :: l2)) \/
  (key_of protocol type ∉ (pairs l).*1 /\
   UnregisterUMH protocol type l = (CHIP_ERROR_NO_UNSOLICITED_MESSAGE_HANDLER, None, l)).
Proof.
  induction l as [|umh l IH]; cbn [UnregisterUMH]; [right; split; [apply not_elem_of_nil|done]|].
  destruct (IsInUse umh && Matches umh protocol type) eqn:Hum.
  - apply andb_true_iff in Hum as [Hu Hm]; destruct (pair_of_used umh Hu) as (h & Hh & _); left.
    by exists [], umh, l, h; rewrite Hh.
  - assert (Hhead : key_of protocol type ∉ (pairs l).*1 -> key_of protocol type ∉ (pairs (umh :: l)).*1).
    { intros Hn; rewrite pairs_cons; destruct (IsInUse umh) eqn:Hu; [|by rewrite pair_of_free].
      destruct (pair_of_used umh Hu) as (h & _ & ->); rewrite fmap_cons, not_elem_of_cons; split; [|done].
      intros Hk; symmetry in Hk; apply Matches_key in Hk; by rewrite Hk in Hum. }
    destruct IH as [(l1 & u & l2 & h & -> & Hh & Hm & ->)|[Hn ->]]; [left|by right; split; [apply Hhead|]].
    by exists (umh :: l1), u, l2, h.
Qed.

Lemma represents_unregister l m protocol type : represents l m ->
  forall err h l', UnregisterUMH protocol type l = (err, h, l') ->
  exists m', map_unregister (key_of protocol type) m = (err, h, m') /\ represents l' m'.
Proof.
  intros (Hnd & -> & Hlen) err h l'; unfold map_unregister.
  destruct (unregister_spec protocol type l) as [(l1 & umh & l2 & h0 & -> & Hh & Hm & ->)|[Hn ->]]; intros [= <- <- <-].
  - assert (Hp : pair_of umh = Some (key_of protocol type, h0)).
    { unfold pair_of; rewrite Hh; cbn; apply Matches_key in Hm; by rewrite Hm. }
    rewrite pairs_app, pairs_cons, Hp in Hnd |- *; apply nodup_middle in Hnd as Hnd'; destruct Hnd' as [Hk Hnd'].
    rewrite map_middle, lookup_insert_eq, delete_insert_eq, delete_id by (done || by apply not_elem_of_list_to_map_1).
    eexists; split; [done|]; unfold represents; rewrite pairs_app, pairs_cons; cbn [pair_of slot_Reset um_Handler mbind option_bind].
    rewrite length_app in Hlen |- *; done.
  - rewrite not_elem_of_list_to_map_1 by done; by eexists.
Qed.

Lemma find_handler_spec header l found : NoDup (pairs l).*1 ->
  find_handler header l found = match map_find header (list_to_map (pairs l)) with Some h => Some h | None => found end.
Proof.
  revert found; unfold map_find; induction l as [|umh l IH]; intros found Hnd; [done|].
  cbn [find_handler]; rewrite pairs_cons in *; destruct (IsInUse umh) eqn:Hu; [|rewrite pair_of_free in * by done; by apply IH].
  destruct (pair_of_used umh Hu) as (h & Hh & Hp); rewrite Hp in *; cbn [andb list_to_map foldr fst snd].
  rewrite fmap_cons in Hnd; apply list.NoDup_cons in Hnd as [Hk Hnd]; cbn [fst] in Hk; rewrite Hh, !(IH _ Hnd).
  set (m := list_to_map (pairs l) : gmap key nat).
  assert (Hm : m !! key_of (um_ProtocolId umh) (um_MessageType umh) = None) by (by apply not_elem_of_list_to_map_1).
  change (foldr (fun p => <[p.1 := p.2]>) ∅ (pairs l)) with m.
  destruct (protocol_eqb (mProtocolID header) (um_ProtocolId umh)) eqn:Ep.
  - apply protocol_eqb_eq in Ep; rewrite <-Ep in *.
    destruct (Z.eqb_spec (um_MessageType umh) (mMessageType header)) as [->|Ht]; [by rewrite lookup_insert_eq|].
    rewrite (lookup_insert_ne _ (key_of _ (um_MessageType umh)) (key_of _ (mMessageType header))) by (intros [= E]; by apply Ht).
    destruct (m !! key_of (mProtocolID header) (mMessageType header)); [done|].
    destruct (Z.eqb_spec (um_MessageType umh) kAnyMessageType) as [Ea|Ha].
    + rewrite Ea in *; by rewrite Hm, lookup_insert_eq.
    + rewrite lookup_insert_ne by (intros [= E]; by apply Ha); done.
  - assert (Hne : forall t, key_of (um_ProtocolId umh) (um_MessageType umh) <> key_of (mProtocolID header) t).
    { intros t; unfold key_of; intros [= E1 E2 _]; revert Ep; apply not_false_iff_true, protocol_eqb_eq.
      destruct (mProtocolID header), (um_ProtocolId umh); cbn in *; by subst. }
    by rewrite !lookup_insert_ne.
Qed.

Definition empty_table : list UnsolicitedMessageHandlerSlot :=
  UMHandlerPool (new_manager 0 0 ∅).

Lemma represents_empty : represents empty_table ∅.
Proof. split_and!; [constructor|done|done]. Qed.

Lemma represents_answers rs l m : represents l m -> answers table_step l rs = answers map_step m rs.
Proof.
  revert l m; induction rs as [|r rs IH]; intros l m H; [done|]; cbn [answers]; destruct r as [pr t h|pr t|header];
    cbn [table_step map_step].
  - destruct (RegisterUMH pr t h l) as [err l'] eqn:E; destruct (represents_register l m pr t h H err l' E) as (m' & -> & H').
    by rewrite (IH l' m' H').
  - destruct (UnregisterUMH pr t l) as [[err h] l'] eqn:E.
    destruct (represents_unregister l m pr t H err h l' E) as (m' & -> & H'); by rewrite (IH l' m' H').
  - rewrite (IH l m H); destruct H as (Hnd & -> & _); rewrite find_handler_spec by done; by destruct (map_find _ _).
Qed.

(** C26: however handlers are registered and unregistered, the table of slots of a new
    manager answers as a finite map from protocol and message type with room for eight
    handlers: registering replaces the handler of the same key, or adds one if there is
    room, and is refused otherwise; unregistering gives back the handler or reports that
    there is none; and a received message goes to the handler of its very type, or else to
    the one of its whole protocol, wherever in the table they stand. *)
Theorem table_refines_map (rs : list Request) : answers table_step empty_table rs = answers map_step ∅ rs.
Proof. apply represents_answers, represents_empty. Qed.
