(* ===== verification/ExchangeWake.v ===== *)
(** * ExchangeWake: nothing that is owed is forgotten

    The manager has one timer for all acknowledgements and retransmissions.  [on_time]: it
    is armed for the earliest of them, or earlier; [StartTimer] sees to that, and every
    operation that adds to what is due ends with it. *)

From stdpp Require Import gmap.
From S2P Require Import Prelude Encoding MessageHeader BdxMessages Pool Runs Exchange ExchangeMgr ExchangeRules ExchangeFrame ExchangeSafe ExchangeReach ExchangeAcks.

(** The timer runs, and fires at [due] at the latest - at once, when [due] has passed.
    [Timestamp::max()] stands for no time at all. *)
Definition armed_by (w : World) (due : Z) : Prop :=
  due < Timestamp_max -> exists t, mTimer w = Some t /\ t <= Z.max (mNow w) due.

Definition on_time (w : World) : Prop :=
  (forall p e, live w p = Some e -> IsAckPending e = true -> armed_by w (mNextAckTime e)) /\
  (forall i en, entry_at w i = Some en -> armed_by w (en_nextRetransTime en)).

(** ** [nextWakeTime] *)

Section Fold.
Context (f : Z -> nat -> Z) (due : nat -> option Z).
Hypothesis Hf : forall wake i, f wake i = match due i with Some t => Z.min wake t | None => wake end.

Lemma fold_wake l wake :
  fold_left f l wake <= wake /\ forall i t, In i l -> due i = Some t -> fold_left f l wake <= t.
Proof.
  revert wake; induction l as [|i l IH]; intros wake; cbn [fold_left]; [split; [lia|by intros i t []]|].
  destruct (IH (f wake i)) as [H1 H2]; rewrite Hf in H1 at 2; split; [destruct (due i); lia|].
  intros j t [<-|Hj] Ht; [rewrite Ht in H1; lia|by eapply H2].
Qed.
End Fold.

Definition ack_due (w : World) (p : nat) : option Z :=
  match live w p with Some e => if IsAckPending e then Some (mNextAckTime e) else None | None => None end.

Lemma nextWakeTime_le w :
  nextWakeTime w <= Timestamp_max /\
  (forall p e, live w p = Some e -> IsAckPending e = true -> nextWakeTime w <= mNextAckTime e) /\
  (forall i en, entry_at w i = Some en -> nextWakeTime w <= en_nextRetransTime en).
Proof.
  unfold nextWakeTime; set (first := fold_left (ack_wake w) _ _).
  assert (Ha : forall wake p, ack_wake w wake p = match ack_due w p with Some t => Z.min wake t | None => wake end).
  { intros wake p; unfold ack_wake, ack_due; destruct (live w p) as [e|]; [|done]; destruct (IsAckPending e); [|done].
    cbn [andb]; destruct (Z.ltb_spec (mNextAckTime e) wake); lia. }
  assert (Hr : forall wake i, retrans_wake w wake i =
    match en_nextRetransTime <$> entry_at w i with Some t => Z.min wake t | None => wake end).
  { intros wake i; unfold retrans_wake; destruct (entry_at w i) as [en|]; [|done]; cbn.
    destruct (Z.ltb_spec (en_nextRetransTime en) wake); lia. }
  destruct (fold_wake (ack_wake w) (ack_due w) Ha (active_indices (mContextPool w)) Timestamp_max) as [A1 A2].
  destruct (fold_wake (retrans_wake w) (fun i => en_nextRetransTime <$> entry_at w i) Hr
    (active_indices (mRetransTable w)) first) as [B1 B2]; fold first in A1, A2; split_and!; [lia|..].
  - intros p e He Hp; transitivity first; [done|]; apply (A2 p); [apply active_indices_spec; by exists e|].
    unfold ack_due; by rewrite He, Hp.
  - intros i en Hi; apply (B2 i); [apply active_indices_spec; by exists en|by rewrite Hi].
Qed.

Section Wake.
Context `{MP : MessagingPlatform} `{AP : Application}.

Lemma StartTimer_on_time w : ensures StartTimer w (fun _ w' => on_time w').
Proof.
  intros [] w'; unfold StartTimer, bind, get, modify, when, tick, VerifyOrDie, verify, ret, fail; cbn.
  destruct (nextWakeTime_le w) as (N0 & N1 & N2).
  destruct (Z.eqb_spec (nextWakeTime w) Timestamp_max) as [Hmax|Hmax]; cbn.
  - intros [= <-]; split; [intros p e He Hp Hdue; specialize (N1 p e He Hp); lia|].
    intros i en Hi Hdue; specialize (N2 i en Hi); lia.
  - destruct (no_error _); cbn; [|done]; intros [= <-].
    set (delay := if _ <? _ then _ else _); assert (Hd : 0 <= delay /\ mNow w + delay <= Z.max (mNow w) (nextWakeTime w))
      by (unfold delay; destruct (Z.ltb_spec (mNow w) (nextWakeTime w)); lia).
    assert (Hw : wrap 32 delay <= delay) by (apply Z.mod_le; lia).
    split; [intros p e He Hp _|intros i en Hi _]; exists (mNow w + wrap 32 delay); (split; [done|]); cbn [mNow set_mTimer set_mCalls].
    + specialize (N1 p e He Hp); lia.
    + specialize (N2 i en Hi); lia.
Qed.

Lemma armed_same w w' due : mTimer w' = mTimer w -> mNow w' = mNow w -> armed_by w due -> armed_by w' due.
Proof. unfold armed_by; by intros -> ->. Qed.

Lemma on_time_same w w' : mContextPool w' = mContextPool w -> mRetransTable w' = mRetransTable w ->
  mTimer w' = mTimer w -> mNow w' = mNow w -> upholds on_time w w'.
Proof.
  intros Hp Hr Ht Hn [H1 H2]; unfold on_time, live, entry_at; rewrite Hp, Hr; split; intros.
  - eapply armed_same; [done..|by eapply H1].
  - eapply armed_same; [done..|by eapply H2].
Qed.

Lemma on_time_put p e e' w : live w p = Some e -> mNextAckTime e' = mNextAckTime e ->
  (IsAckPending e' = true -> IsAckPending e = true) -> upholds on_time w (put_exchange p e' w).
Proof.
  intros He Hn Hp [H1 H2]; split; [|done]; intros q eq; rewrite (live_put p q e' e w He).
  case_decide; [intros [= <-] Ha; rewrite Hn; by apply (H1 p), Hp|apply H1].
Qed.

#[local] Instance wake_framed : Framed (upholds on_time).
Proof.
  split; [typeclasses eauto|..].
  - intros w w' (Hp & Ht & _ & Hm & Hn); by apply on_time_same.
  - intros; by apply on_time_same.
  - intros p f b w e [Hf _] Ha He; eapply on_time_put; [done..|]; flags.
    by rewrite Has_SetFlag_ne by (intros Heq; subst f; done).
  - intros p v w e He; by eapply on_time_put.
  - intros p v w e He; by eapply on_time_put.
  - intros p w e He [H1 H2]; split; [|done]; intros q e'; unfold live; cbn.
    rewrite At_insert by (by eapply At_range); case_decide; [done|apply H1].
  - intros i w en Hi [H1 H2]; split; [done|]; intros j en'; unfold entry_at; cbn.
    rewrite At_insert by (by eapply At_range); case_decide; [done|apply H2].
Qed.

#[local] Instance wake_closing : Closing (upholds on_time).
Proof. split; intros p; [intros w e He|intros v w e He|intros w e He]; eapply on_time_put; try done; by flags. Qed.

(** What ends in [StartTimer]. *)
Definition rearms {A} (m : W A) : Prop := forall w, ensures m w (fun _ w' => on_time w').

Lemma rearms_after {A B} (m : W A) (k : A -> W B) : (forall a, rearms (k a)) -> rearms (bind m k).
Proof. intros H w; apply ens_bind; intros a w1 _; apply H. Qed.
Lemma rearms_ret {A B} (m : W A) (b : B) : rearms m -> rearms (m ;; ret b).
Proof. intros H w; apply ens_bind; eapply ens_mono; [apply H|]; intros a w1 Hw; by apply ens_ret. Qed.
Lemma rearms_keeps {A} (m : W A) : rearms m -> keeps (upholds on_time) m.
Proof. intros H w a w' E _; by apply (H w a w'). Qed.
Lemma rearms_StartTimer : rearms StartTimer.
Proof. intros w; apply StartTimer_on_time. Qed.

Lemma rearms_ClearEntry i : rearms (ClearRetransEntry i).
Proof. apply rearms_after; intros _; apply rearms_StartTimer. Qed.
Lemma rearms_StartRetransmision i : rearms (StartRetransmision i).
Proof. apply rearms_after; intros _; apply rearms_StartTimer. Qed.

Lemma Add_refused p w : ensures (AddToRetransTable p) w (fun r w' => match r with Err _ => w' = w | Ok _ => True end).
Proof.
  unfold AddToRetransTable; apply ens_bind, ens_deref; intros e _; destruct (IsWaitingForAck e); [by apply ens_ret|].
  apply ens_bind; intros w1 w1' [= <- <-]; destruct (Allocate _); [|by apply ens_ret].
  apply ens_bind; intros [] w2 _; apply ens_bind; intros [] w3 _; apply ens_bind; intros [] w4 _; by apply ens_ret.
Qed.

Lemma wake_send_reliably p s h payload : keeps (upholds on_time) (send_reliably p s h payload).
Proof.
  apply keeps_ens; intros w HJ; unfold send_reliably; apply ens_bind; eapply ens_mono; [apply Add_refused|].
  intros [i|err] w1 Hw; [|apply ens_ret; by subst].
  revert w1 Hw; intros w1 _; revert w1; apply rearms_after; intros [b|err]; [|apply rearms_ret, rearms_ClearEntry].
  apply rearms_after; intros _; apply rearms_after; intros err; apply rearms_ret.
  destruct (no_error _); [apply rearms_StartRetransmision|apply rearms_ClearEntry].
Qed.

Lemma wake_SendPrepared s b : keeps (upholds on_time) (SendPreparedMessage s b).
Proof. unfold SendPreparedMessage, emit; keep; apply keeps_modify; intros w; by apply on_time_same. Qed.
Local Hint Resolve wake_send_reliably wake_SendPrepared : keeps.

#[local] Instance wake_sending : Sending (upholds on_time).
Proof.
  apply sending_dispatch; [typeclasses eauto|apply rearms_keeps, rearms_StartTimer|]; intros.
  assert (Ht : keeps (upholds on_time) (TakePendingPeerAckMessageCounter p)).
  { unfold TakePendingPeerAckMessageCounter; keep; apply keeps_edit; intros w e He; eapply on_time_put; try done; by flags. }
  unfold Dispatch_SendMessage, PrepareAndSendNonMRPMessage, PrepareMessage; keep.
Qed.

#[local] Instance wake_creating : Creating (upholds on_time).
Proof.
  split; intros id s se init d eph w p pool; set (x := new_exchange id s se init d eph).
  pose proof (new_exchange_flags id s se init d eph) as (_ & _ & _ & Ha & _); fold x in Ha.
  unfold CreateObject; destruct (Allocate (mContextPool w)) as [i|] eqn:Hp; [|done]; intros [= -> <-] [H1 H2].
  destruct (Allocate_free _ _ Hp) as [Hlen _]; split; [|done]; intros q e; unfold live; cbn [mContextPool set_mContextPool].
  rewrite At_insert by done; case_decide; [intros [= <-]; congruence|apply H1].
Qed.

Lemma wake_needs p c d : keeps (upholds on_time) (HandleNeedsAck p c d).
Proof.
  apply rearms_keeps, rearms_after; intros err; apply rearms_ret, rearms_StartTimer.
Qed.

Lemma wake_exec l w w' : allowed w l -> exec l w = (Ok tt, w') -> on_time w -> on_time w'.
Proof.
  intros Hl E; refine (frame_exec (upholds on_time) l _ _ _ _ w tt w' E).
  - destruct l; try done; intros; apply wake_needs.
  - intros ms Hms; cbn [exec]; apply keeps_modify; intros w0 [H1 H2].
    assert (Hlater : forall due, armed_by w0 due -> armed_by (set_mNow (mNow w0 + ms) w0) due).
    { intros due H Hdue; destruct (H Hdue) as (t & Ht & Hle); exists t; split; [done|cbn [mNow set_mNow]; lia]. }
    split; [intros p e He Hp; by apply Hlater, (H1 p e)|intros i en Hi; by apply Hlater, (H2 i en)].
  - apply rearms_keeps; cbn [exec]; apply rearms_after; intros _; apply rearms_after; intros _; apply rearms_StartTimer.
  - by destruct l.
Qed.

(** C9: no acknowledgement that is owed and no retransmission is forgotten: whatever has
    happened, the one timer of the manager is running and fires, for every exchange with a
    pending acknowledgement, at the time the acknowledgement must be sent at the latest,
    and for every entry of the retransmission table at the time of its next
    retransmission, or at once if that time has passed. *)
Theorem timer_never_late (w : World) :
  reachable w ->
  (forall p e, live w p = Some e -> IsAckPending e = true -> armed_by w (mNextAckTime e)) /\
  (forall i en, entry_at w i = Some en -> armed_by w (en_nextRetransTime en)).
Proof.
  induction 1 as [t id ss|w0 l w' H IH Hl E]; [|by apply (wake_exec l w0 w' Hl E)].
  split.
  - intros p e; unfold live, At; cbn [mContextPool new_manager]; destruct (_ !! p) eqn:E; [|done].
    by apply lookup_replicate in E as [-> _].
  - intros i en; unfold entry_at, At; cbn [mRetransTable new_manager]; destruct (_ !! i) eqn:E; [|done].
    by apply lookup_replicate in E as [-> _].
Qed.
End Wake.

#[local] Existing Instance steady_platform.
#[local] Existing Instance answering_application.

Lemma timer_never_late_witness :
  (en_nextRetransTime <$> entry_at (after request start) 0) = Some 1332 /\ armed_by (after request start) 1332.
Proof.
  split; [vm_compute; reflexivity|].
  destruct (timer_never_late (after request start) reach_request) as [_ H].
  destruct (entry_at (after request start) 0) as [en|] eqn:E; [|vm_compute in E; discriminate E].
  pose proof (H 0%nat en E) as Ha; vm_compute in E; injection E as <-; exact Ha.
Defined.
